(* ===== verification/_CoqProject ===== *)
-Q . S2P
Prelude.v
StdMap.v
Encoding.v
Utime.v
ClsRgwTypes.v
ClsRgwFacts.v
ClsRgwOps.v
CString.v
Env.v
Strtol.v
Utf8.v
Acl.v
AclFacts.v
AclS3.v
RgwObj.v
ObjectCache.v
ObjectCacheFacts.v
Records.v
RgwCache.v
RgwCacheFacts.v
Http.v
Errors.v
Armor.v
AuthS3.v
AuthS3Facts.v
LruMap.v
Quota.v
RestMgr.v
Rest.v
RestFacts.v
SysInfo.v
GetObj.v
PutObj.v
Ops.v
OpsFacts.v
Process.v
Listing.v
ListingFacts.v
BucketHead.v
Lockdep.v
LockdepFacts.v
MutexSystem.v
Buffer.v
BufferFacts.v
BufferIter.v
BufferSystem.v
Escape.v
Formatter.v
FormatterFacts.v
JsonFacts.v
AclS3Facts.v
ClientIO.v
Wire.v
Response.v
RespS3.v
RespFacts.v
Metadata.v
Lookup.v
LookupFacts.v
Policies.v
PolicyFacts.v
WorkPool.v
WorkPoolFacts.v
ShardedPool.v
QueueRing.v
FrontEnd.v
FrontEndFacts.v
ClsUser.v
BucketOps.v
BucketOpsFacts.v
BucketMeta.v
Globals.v
ObjAttrs.v
