(* ===== verification/Prelude.v ===== *)
(** * RGW: a verification development of the object gateway's core

    The program is an S3 gateway derived from Ceph's RADOS gateway: a FastCGI
    process ([src/src/rgw/rgw_main.cc]) that turns HTTP requests into
    operations on buckets and objects.  A request arrives as CGI variables
    ([RGWEnv]), is parsed into its arguments and headers ([RGWHTTPArgs],
    [req_info]), checked against access control policies ([RGWAccessControlPolicy]
    and its S3 subclass), and served from a store behind a cache of system
    objects ([ObjectCache]).  Everything kept in the store or sent to the bucket
    index is serialized with the encoders of [src/src/include/encoding.h].  The
    files [src/src/rgw/porting_*.cc] are the ones the program is built from
    (with [rgw_cache.cc], [rgw_auth_s3.cc], [rgw_multi.cc] and the front end);
    the files they were derived from ([rgw_acl.cc], [rgw_common.cc], ...) lie
    beside them and are not part of it.

    ** Files

    - [Prelude], [StdMap]: characters, machine integers (a w-bit integer is a
      [Z] with its reduction written out: [u8] ... [u64], [s32], [s64]), the
      error monad, hints; [std::map] and [std::multimap] as lists sorted by an
      [Ord] class with its laws.
    - [Encoding]: [src/src/include/encoding.h] on a flat buffer.  An encoder
      maps the bytes written so far to the bytes after it, so the length of a
      versioned block is back-patched as [ENCODE_START]/[ENCODE_FINISH] do; a
      decoder is a state monad over the iterator with the exceptions of
      [buffer::error].  The class [CodecOk] is the interface between the
      encoding layer and every structure: encoding appends, and decoding reads
      back the value and exactly its bytes.
    - [Utime]: [src/src/include/utime.h].
    - [ClsRgwTypes], [ClsRgwFacts]: [src/src/cls/rgw/cls_rgw_types.h], the
      structures of the bucket index.  [ClsRgwOps]:
      [src/src/cls/rgw/cls_rgw_ops.h], the requests and replies of its methods.
    - [CString], [Env]: the C string functions the program uses, its tokenizer
      ([src/src/common/str_list.cc]) and helpers, and the request environment.
    - [Acl], [AclFacts]: [porting_acl.h], [porting_acl.cc].  [AclS3],
      [AclS3Facts]: [porting_acl_s3.cc], [porting_acl_s3.h], [porting_xml.cc].
    - [ObjectCache], [ObjectCacheFacts]: [rgw_cache.cc], [rgw_cache.h] and the
      chained caches of [porting_rados.h].
    - [Http]: the request parsing, escaping and permission checks of
      [porting_common.cc] and [porting_common.h].  [Strtol], [Utf8], [Armor]:
      [src/src/common/strtol.cc], [utf8.c], [armor.c].  [Errors]:
      [rgw_http_errors.h] and how an error becomes a status.
    - [RgwObj], [Records]: the names of objects and the records of users,
      buckets and quotas ([porting_common.h], [porting_quota.h]).
    - [RgwCache], [RgwCacheFacts]: the cache layer [RGWCache<T>] of
      [rgw_cache.h] over a store, and the notifications between gateways.  A call
      is a program of single accesses to the cache and to the store, between
      which other calls and notifications run.
    - [AuthS3], [AuthS3Facts]: request signing ([rgw_auth_s3.cc] and
      [RGW_Auth_S3::authorize] of [porting_rest_s3.cc]).
    - [LruMap], [Quota], [BucketHead]: [src/src/common/lru_map.h],
      [porting_quota.cc], and the statistics the quota reads
      ([RGWRados::cls_bucket_head], [RadosClient::mon_command]).
    - [RestMgr], [Rest], [RestFacts]: from the environment of a request to its
      handler and its operation ([porting_rest.cc], [porting_rest_s3.cc]).
    - [SysInfo]: the files with statistics and settings ([porting_tools.cc],
      [parse_conf]).
    - [GetObj], [PutObj], [Ops], [OpsFacts]: downloads, uploads, deletions,
      copies and multipart uploads ([porting_op.cc], [rgw_multi.cc]), over the
      files and directories below the root, those of the statistics among them.
    - [Listing], [ListingFacts]: listing a bucket ([porting_rados.cc],
      [src/src/cls/rgw/cls_rgw_client.cc]).
    - [Process]: [process_request] of [rgw_main.cc].
    - [WorkPool], [WorkPoolFacts]: [src/src/common/WorkQueue.cc], the pool of
      worker threads, as steps between taking and giving up its lock; the class
      [WorkQueue_] is the virtual interface of a queue, [WorkQueueOk] its
      contract, [RGWWQ] the queue of the gateway.  [ShardedPool]: the sharded
      pool of the same file.
    - [QueueRing]: [src/src/common/QueueRing.h].  [FrontEnd], [FrontEndFacts]:
      the configuration of the front end, and [RGWFCGXProcess::run] with the
      pool and the ring ([rgw_main.cc]).
    - [Lockdep], [LockdepFacts], [MutexSystem]: [src/src/common/lockdep.cc] and
      [Mutex.cc], and threads that lock and unlock in any interleaving.
    - [Buffer], [BufferFacts], [BufferIter], [BufferSystem]:
      [src/src/common/buffer.cc], [src/src/include/buffer.h]: lists of shared,
      reference counted segments in a heap, iterators with the position the list
      caches, and programs over several lists.
    - [Escape], [Formatter], [FormatterFacts], [JsonFacts]:
      [src/src/common/escape.c], [mime.c], [Formatter.cc].  The class [Formatter]
      is the virtual interface, its instances the XML, JSON and table formatters.
    - [ClientIO], [Wire]: the connections to the client ([rgw_client_io.cc],
      [rgw_fcgi.cc], [rgw_civetweb.cc]) as instances of the class [RGWClientIO].
    - [Response], [RespS3], [RespFacts]: the responses ([porting_rest.cc],
      [porting_rest_s3.cc]), as sequences of calls on the connection.
    - [Metadata]: [porting_metadata.cc], [porting_metadata.h].
    - [Lookup], [LookupFacts]: how users and buckets are found
      ([porting_user.cc], [porting_tools.cc], [porting_rados.cc]).
    - [Policies], [PolicyFacts]: the state of objects and the policies of a
      request ([porting_rados.cc], [porting_op.cc],
      [src/src/librados/librados.cc]).
    - [BucketOps], [BucketOpsFacts]: creating, deleting, listing and linking
      buckets, from the operations of [porting_op.cc] through [porting_rados.cc]
      and [porting_bucket.cc] to the commands of [RadosClient.cc] and
      [cls_user_client.cc], over the directories of the host.  [BucketMeta]: the
      metadata handlers of buckets.  [ClsUser]: [cls_user_types.h].
    - [Globals]: the configuration of the process ([global.cc], [rgw_main.cc]).
      [ObjAttrs]: the attributes of objects and new uploads ([porting_op.cc]).

    ** How code becomes definitions

    A structure is a record with the source's fields under a short prefix; a
    [_new] value is what its constructor leaves.  A [decode] method that fills
    an existing object takes that object, so that fields an old version does
    not carry keep their value.  A method that mutates its object returns the
    new object; a method that throws or returns an error code returns a sum or
    the code.  The object cache is a record that holds the map, the LRU list
    with node identities (the iterators the source keeps in its entries), the
    counters and the heap of chained caches, and its methods are the steps of
    [cache_step]; [get] is two steps, for it drops the read lock before it takes
    the write lock.

    ** Parameters

    - [table_oob] ([Http]): [HexTable::to_num] indexes its table with a signed
      [char]; what it reads for a byte of 128 and more is unspecified.  No
      theorem depends on it.
    - [UserDirectory] ([AclS3]): [rgw_get_user_info_by_uid] and
      [rgw_get_user_info_by_email], which read the store.
    - [ChainedCache] ([ObjectCache]): the virtual interface [RGWChainedCache].
      [ChainedCacheOk] is its contract, [chained_impl] the implementation
      [RGWChainedCacheImpl]; the cache's theorems are proved against the class.
    - The store under the cache ([RgwCache]) is a class with a contract, and so
      is the connection a body is read from ([ClientIO], [ClientIOOk] in
      [PutObj]: the next bytes, and fewer than asked for only at the end) and
      the stages of a request ([Stages], [StagesOk] in [Process]).
    - HMAC-SHA1, MD5, [strptime], [timegm], the account database, the results of
      [open], [write], [stat] and of shell commands are arguments.
    - The result of a function without a return statement, and what stands in an
      uninitialised variable, is an argument ([junk], [found], [stack]).
    - The streams under the connections ([FCGX_PutStr], [mg_write]), the POSIX
      mutex, [stat], [getpwuid], and the handlers of metadata sections are
      arguments; what the memory of a new buffer holds is part of the heap.
    - The XML tokenizer (expat) is outside: the parser is the state machine of
      its callbacks, driven by a list of events.  Theorems on documents are about
      the tokens [lex] of [FormatterFacts] finds in the text, a reader of tags,
      attributes and texts.

    ** What the theorems show

    - Access control: a request is granted exactly the permissions that its
      grants, its groups, its ownership and the caller's mask give
      ([verify_permission_spec]); the permission maps are at all times the union
      of the grants ([acl_maps_exact]); adding a grant never takes a permission
      away; canned policies and policies from headers contain what they should
      ([create_canned_spec], [create_from_headers_spec]); a policy survives its
      binary encoding and, where its names need no escaping, the text of its XML
      document ([policy_roundtrip], [acl_xml_roundtrip]); what the XML form
      loses, and what can be smuggled into it, is stated.
    - Object cache: in every reachable state the LRU list holds each cached name
      once, its size is the counter, and it respects the configured bound
      ([cache_lru_invariant]); entries are evicted in the order of use
      ([lru_order]); [get] returns what [put] stored ([put_get]); a write or a
      removal invalidates all chained entries ([chained_invalidation]), and
      eviction does not ([eviction_leaves_stale_chained]).
    - Encoding: the back-patched encoders equal the direct ones; newer blocks are
      read by older decoders and malformed ones are refused with the right
      error; every structure of the bucket index and its operations round-trips,
      with the exceptions the code has ([bucket_dir_roundtrip], [packed_roundtrip_iff],
      [entry_ver_epoch_lost], [complete_op_v3_unreadable]); old versions are
      read as the decoders promise.
    - Requests: query strings round-trip ([query_roundtrip]); a path made from a
      bucket and an object name reaches the handler of that object
      ([object_request_roundtrip]), through routing that always ends
      ([route_spec]); every error has a status ([error_status_spec]); the
      checks of names, UTF-8 and numbers accept exactly what they should
      ([bucket_name_spec], [check_utf8_spec], [strict_strtoll_spec]); nothing is
      executed unless every check before it passed ([process_request_spec]); a
      request is admitted exactly when it is unsigned, or its signature is right
      and, in a query, not expired ([authorize_spec], [signature_covers_request]).
    - Objects: uploads, downloads, deletions and copies of objects with plain
      names refine a map from names to contents, uploads that vanish included
      ([gateway_refines]); what the writes of an upload took is what a later
      download sends ([put_get_roundtrip]); the statistics of a bucket are those
      of its files as long as nothing is overwritten ([stats_accurate]), and the
      quota check counts what they say ([upload_quota_counts], [check_quota_spec]).
      What falls outside is shown by example ([store_defects]).
    - Look-up and policies: a login finds the account of its key with the limits
      of its file ([access_key_lookup]); a bucket is found exactly when its
      directory is there ([bucket_lookup_spec]); the policies a request is
      judged by are the same for all buckets and objects ([request_policies]).
    - Buckets: requests that create, delete and look up buckets refine a map from
      names to owners ([bucket_requests_refine]), through the metadata manager
      and the commands that make directories; a list of buckets is one page or
      never ends ([list_buckets_spec]); metadata put through the manager makes
      the bucket ([metadata_put_creates]); the types of the bucket list replace
      the gateway's ([user_types_replace]).
    - Attributes: what is stored of a header is clean text and can be read back
      ([format_xattr_spec]); the name of a new upload is well formed
      ([new_upload_id]).
    - Configuration: a file of settings and comments is read as it is meant
      ([conf_reads]), the shipped one among them ([shipped_conf_reads]).
    - Buffers: programs over shared segment lists compute what they compute on
      strings ([buffer_refines]).
    - Locks: the recorded order has no cycle ([lockdep_acyclic]), and threads
      that obey the checker never wait for each other in a circle
      ([no_circular_wait]).
    - Front end: whatever the interleaving, every accepted connection is served
      once, the connection structures are neither lost nor shared, and an
      assertion fails only on a spurious wake-up in the ring
      ([front_end_serves]); after accepting has failed [run] comes
      to its end ([front_end_ends]); under it, the pool processes what it is given
      once and in order, loses no wake-up ([pool_serves]), and [drain] returns
      ([drain_terminates]).  The sharded pool hangs ([sharded_pool_hangs]).
    - Responses: what the XML formatter prints is read back as the tree that was
      dumped ([xml_document_roundtrip]), the JSON formatter prints what a
      recursive printer prints ([json_document_spec]); the embedded web server
      sends status, headers, length and body in order ([mongoose_response]); a
      failing request and a listing are answered with the right document, but for
      a request that fails before it has a formatter, whose JSON has no values
      ([abort_early_on_wire], [listing_on_wire]).
    - Metadata: listing the sections by pages ends and is complete
      ([metadata_pages]); a change carries the right version ([put_entry_spec]).
    - Listing: the merge of the index shards equals sorting and cutting off
      ([cls_bucket_list_spec]); a page is the directory of the bucket as far as
      512 bytes hold its names ([bucket_page_files], [long_directory_overruns]);
      a listing is its first entries, and the common prefixes
      ([list_objects_first], [list_objects_delimited]); it need not end
      ([listing_diverges]).
    - Gateways: what a gateway reads of a system object through its cache is what
      the store held for it at some time, however accesses and notifications
      interleave ([reads_were_stored]); it can be old for good, when a read is
      overtaken by a write or a deletion ([overtaken_read_stale],
      [deletion_announced_early]).

    ** Fuel and bounds

    The loops of [get_str_list] and [RGWHTTPArgs::parse] run over a position that
    grows at each iteration; their fuel is the length of the string plus one,
    and [get_str_list_words] and [query_roundtrip] are statements about the
    result, which running out of fuel would not satisfy.  Decoders loop on the
    count they read; a count larger than the buffer ends in the exception.
    Round trips assume that lengths fit the 32 bits they are stored in.  The loops of iterators and buffer lists take one turn per byte or
    segment; the search of the lock checker takes one level per lock, which is
    enough because the order it searches has no cycle.  The
    loops of uploads and chunked bodies take fuel greater than the length of the
    body and are proved to end with it; the merge of shards takes one turn per
    entry; routing takes one turn per character of the path.  The loop over the
    pages of a listing has no bound, nor has the one over the buckets: their theorems
    say when one page is enough, and when no fuel is.  Creating a bucket is tried 20
    times, as in the source.  The systems of threads need no fuel:
    they are step relations, and that something comes about is stated as a
    schedule of bounded length that leads there.  The theorems on the front end
    are for fewer than 2^64 tickets of its ring.

    ** Not modelled

    The contents of buckets and the directories that are buckets are two models ([Ops],
    [BucketOps]); deleting a bucket is followed in the second.  The parts of the
    store that talk to another file system (the macro FICS) are not built here.  Process set-up, sockets, signals and
    thread creation are outside; log output has no effect on the state.  Of the
    buffers, alignment, checksums, memory pools and file descriptors are left
    out; of the metadata, the log, which is not stored, and the reader of JSON;
    of the users, writing and removing them.  Floating point numbers are printed
    by a parameter. *)

From Stdlib Require Import ZArith Lia Ascii String.
From stdpp Require Export base list option strings.
From Stdlib Require Export ZArith Lia Ascii.
#[global] Open Scope Z_scope.

(** ** Strings and bytes

    A [std::string] and the contents of a [bufferlist] are both sequences of
    8-bit characters; they are lists of [ascii] here, with string literals
    available in the scope [str_scope]. *)

Declare Scope str_scope.
Delimit Scope str_scope with str.
#[warnings="-via-type-mismatch"]
String Notation list String.string_of_list_byte String.list_byte_of_string
  (via String.string mapping
     [[nil] => String.EmptyString, [cons] => String.String, Ascii => Ascii])
  : str_scope.

#[global] Open Scope str_scope.

Abbreviation str := (list ascii).
Abbreviation bytes := (list ascii).

(** The value of a character as the [unsigned char] and as the (signed)
    [char] of the platforms the gateway is built for. *)
Definition uchar (c : ascii) : Z := Z.of_N (N_of_ascii c).
Definition schar (c : ascii) : Z := if uchar c <? 128 then uchar c else uchar c - 256.
Definition chr (z : Z) : ascii := ascii_of_N (Z.to_N (z mod 256)).

(** ** Machine integers *)

Definition u8 (z : Z) : Z := z mod 2 ^ 8.
Definition u16 (z : Z) : Z := z mod 2 ^ 16.
Definition u32 (z : Z) : Z := z mod 2 ^ 32.
Definition u64 (z : Z) : Z := z mod 2 ^ 64.

(** The two's complement reading of the low [n] bits of [z]. *)
Definition sgn (n : Z) (z : Z) : Z :=
  let m := z mod 2 ^ n in if m <? 2 ^ (n - 1) then m else m - 2 ^ n.

Definition s32 (z : Z) : Z := sgn 32 z.
Definition s64 (z : Z) : Z := sgn 64 z.

(** ** Error numbers of [errno.h] the code returns *)

Definition EPERM : Z := 1.
Definition ENOENT : Z := 2.
Definition EIO : Z := 5.
Definition EACCES : Z := 13.
Definition EEXIST : Z := 17.
Definition EINVAL : Z := 22.
Definition ERANGE : Z := 34.

(** ** Lengths as integers *)

Definition zlen {A} (l : list A) : Z := Z.of_nat (length l).

(** ** Automation *)

Create HintDb rgw.
Create Rewrite HintDb rgw.

(** Split the boolean tests of a goal or a hypothesis. *)
Ltac case_bool :=
  match goal with
  | |- context [if ?b then _ else _] => destruct b eqn:?
  | H : context [if ?b then _ else _] |- _ => destruct b eqn:?
  end.

(** Turn boolean comparisons on [Z] in the context into propositions. *)
Ltac zbool :=
  repeat match goal with
  | H : (_ <? _) = true |- _ => apply Z.ltb_lt in H
  | H : (_ <? _) = false |- _ => apply Z.ltb_ge in H
  | H : (_ <=? _) = true |- _ => apply Z.leb_le in H
  | H : (_ <=? _) = false |- _ => apply Z.leb_gt in H
  | H : (_ =? _) = true |- _ => apply Z.eqb_eq in H
  | H : (_ =? _) = false |- _ => apply Z.eqb_neq in H
  end.

(** Linear arithmetic with divisions and remainders by constants. *)
Ltac dlia := Z.to_euclidean_division_equations; lia.

(** ** Generic lemmas *)

Lemma zlen_nil {A} : zlen (@nil A) = 0.
Proof. reflexivity. Qed.

Lemma zlen_cons {A} (x : A) l : zlen (x :: l) = 1 + zlen l.
Proof. unfold zlen. cbn [length]. lia. Qed.

Lemma zlen_app {A} (l k : list A) : zlen (l ++ k) = zlen l + zlen k.
Proof. unfold zlen. rewrite length_app. lia. Qed.

Lemma zlen_nonneg {A} (l : list A) : 0 <= zlen l.
Proof. unfold zlen. lia. Qed.

#[export] Hint Resolve zlen_nonneg : rgw.
#[export] Hint Rewrite @zlen_nil @zlen_cons @zlen_app : rgw.

Lemma uchar_range c : 0 <= uchar c < 256.
Proof. unfold uchar. pose proof (N_ascii_bounded c). lia. Qed.

Lemma uchar_chr z : uchar (chr z) = z mod 256.
Proof.
  unfold uchar, chr. pose proof (Z.mod_pos_bound z 256 eq_refl).
  rewrite N_ascii_embedding by lia. lia.
Qed.

Lemma chr_uchar c : chr (uchar c) = c.
Proof.
  unfold chr, uchar. pose proof (uchar_range c). unfold uchar in *.
  rewrite Z.mod_small by lia. rewrite N2Z.id. apply ascii_N_embedding.
Qed.

Lemma uchar_inj c d : uchar c = uchar d → c = d.
Proof. intros H. rewrite <- (chr_uchar c), <- (chr_uchar d). by rewrite H. Qed.

Lemma sgn_small n z : 0 < n → - 2 ^ (n - 1) <= z < 2 ^ (n - 1) → sgn n z = z.
Proof.
  intros Hn Hz. unfold sgn.
  assert (E : 2 ^ n = 2 * 2 ^ (n - 1))
    by (rewrite <- Z.pow_succ_r by lia; f_equal; lia).
  destruct (Z.ltb_spec z 0) as [Hneg | Hpos].
  - rewrite (Z.mod_eq z) by lia.
    assert (z / 2 ^ n = -1) as -> by (symmetry; apply (Z.div_unique _ _ _ (z + 2 ^ n)); lia).
    destruct (Z.ltb_spec (z - 2 ^ n * -1) (2 ^ (n - 1))); lia.
  - rewrite Z.mod_small by lia.
    destruct (Z.ltb_spec z (2 ^ (n - 1))); lia.
Qed.

Lemma sgn_mod n z : 0 <= n → sgn n (z mod 2 ^ n) = sgn n z.
Proof. intros Hn. unfold sgn. rewrite Z.mod_mod by lia. reflexivity. Qed.

Lemma u64_small z : 0 <= z < 2 ^ 64 → u64 z = z.
Proof. apply Z.mod_small. Qed.

(** Testing one bit with a mask. *)
Lemma land_pow2_eqb n f : 0 <= n → (Z.land f (2 ^ n) =? 0) = negb (Z.testbit f n).
Proof.
  intros Hn. destruct (Z.testbit f n) eqn:E; cbn.
  - apply Z.eqb_neq. intros H0. apply (f_equal (λ z, Z.testbit z n)) in H0.
    rewrite Z.land_spec, Z.pow2_bits_true, E, Z.bits_0 in H0 by done. done.
  - apply Z.eqb_eq. apply Z.bits_inj_0. intros m. rewrite Z.land_spec.
    destruct (Z.eqb_spec n m) as [->|]; [by rewrite E|].
    rewrite Z.pow2_bits_false by done. apply andb_false_r.
Qed.

(** Inclusion of bit sets. *)
Lemma land_subset_iff p q : Z.land p q = p ↔ ∀ n, 0 <= n → Z.testbit p n = true → Z.testbit q n = true.
Proof.
  split.
  - intros H n _ Hp. rewrite <- H, Z.land_spec in Hp. by apply andb_true_iff in Hp as [_ ?].
  - intros H. apply Z.bits_inj'. intros n Hn. rewrite Z.land_spec.
    destruct (Z.testbit p n) eqn:E; [|done]. by rewrite (H n Hn E).
Qed.
