(* ===== verification/StdMap.v ===== *)
(** * Ordered containers of the C++ standard library

    [std::map] and [std::multimap] as association lists kept in the order of
    their keys: iteration over the container is a walk of the list.  The order
    of a key type is a [comparison] function ([std::less], or the comparator
    the source passes), with its laws in [OrdLaws]; [OrdLeibniz] says that
    equivalent keys are equal. *)

From S2P Require Import Prelude.

Class Ord (K : Type) := compare : K → K → comparison.

Class OrdLaws (K : Type) `{Ord K} : Prop := {
  compare_refl : ∀ k, compare k k = Eq;
  compare_antisym : ∀ k l, compare l k = CompOpp (compare k l);
  compare_lt_trans : ∀ k l m, compare k l = Lt → compare l m = Lt → compare k m = Lt;
  compare_eq_lt : ∀ k l m, compare k l = Eq → compare l m = compare k m
}.

Class OrdLeibniz (K : Type) `{Ord K} : Prop :=
  compare_eq : ∀ k l, compare k l = Eq → k = l.

(** ** Orders on the key types *)

#[export] Instance Z_ord : Ord Z := Z.compare.

#[export] Instance Z_ord_laws : OrdLaws Z.
Proof.
  split; unfold compare, Z_ord.
  - apply Z.compare_refl.
  - intros. symmetry. rewrite <- Z.compare_antisym. done.
  - intros k l m. rewrite !Z.compare_lt_iff. lia.
  - intros k l m ->%Z.compare_eq. done.
Qed.

#[export] Instance Z_ord_leibniz : OrdLeibniz Z.
Proof. intros k l. apply Z.compare_eq. Qed.

(** [std::string::compare]: lexicographic on unsigned characters. *)
Fixpoint str_compare (s t : str) : comparison :=
  match s, t with
  | [], [] => Eq
  | [], _ :: _ => Lt
  | _ :: _, [] => Gt
  | c :: s', d :: t' =>
      match uchar c ?= uchar d with
      | Eq => str_compare s' t'
      | r => r
      end
  end.

#[export] Instance str_ord : Ord str := str_compare.

Lemma str_compare_eq s t : str_compare s t = Eq → s = t.
Proof.
  revert t. induction s as [|c s IH]; intros [|d t]; cbn; try done.
  destruct (uchar c ?= uchar d) eqn:E; try done.
  apply Z.compare_eq, uchar_inj in E as ->. intros H. f_equal. auto.
Qed.

#[export] Instance str_ord_leibniz : OrdLeibniz str.
Proof. intros k l. apply str_compare_eq. Qed.

Lemma str_compare_refl s : str_compare s s = Eq.
Proof. induction s as [|c s IH]; cbn; [done|]. by rewrite Z.compare_refl. Qed.

#[export] Instance str_ord_laws : OrdLaws str.
Proof.
  split; unfold compare, str_ord.
  - apply str_compare_refl.
  - intros k. induction k as [|c k IH]; intros [|d l]; cbn; try done.
    rewrite Z.compare_antisym. destruct (uchar c ?= uchar d); cbn; auto.
  - intros k. induction k as [|c k IH]; intros [|d l] [|e m]; cbn; try done.
    destruct (Z.compare_spec (uchar c) (uchar d)), (Z.compare_spec (uchar d) (uchar e));
      try done; intros; destruct (Z.compare_spec (uchar c) (uchar e)); try lia; eauto.
  - intros k l m ->%str_compare_eq. done.
Qed.

(** Lexicographic order on pairs: the [operator<] of the two-field keys. *)
#[export] Instance prod_ord {A B} `{Ord A, Ord B} : Ord (A * B) := λ p q,
  match compare (fst p) (fst q) with
  | Eq => compare (snd p) (snd q)
  | r => r
  end.

Lemma compare_pair {A B} `{Ord A, Ord B} (a a' : A) (b b' : B) :
  compare (a, b) (a', b') = match compare a a' with Eq => compare b b' | r => r end.
Proof. reflexivity. Qed.

#[export] Instance prod_ord_leibniz {A B} `{OrdLeibniz A, OrdLeibniz B} : OrdLeibniz (A * B).
Proof.
  intros [a b] [a' b']. rewrite compare_pair.
  destruct (compare a a') eqn:E; try done. intros E'.
  f_equal; by apply compare_eq.
Qed.

#[export] Instance prod_ord_laws {A B}
  `{OrdLaws A, OrdLaws B} `{!OrdLeibniz A, !OrdLeibniz B} : OrdLaws (A * B).
Proof.
  split.
  - intros [a b]. by rewrite compare_pair, !compare_refl.
  - intros [a b] [a' b']. rewrite !compare_pair, (compare_antisym a a').
    destruct (compare a a'); cbn; try done. apply compare_antisym.
  - intros [a b] [a' b'] [a'' b'']. rewrite !compare_pair.
    destruct (compare a a') eqn:E1; try done;
      destruct (compare a' a'') eqn:E2; try done; intros H3 H4.
    + apply compare_eq in E1 as ->. rewrite E2. eapply compare_lt_trans; eauto.
    + apply compare_eq in E1 as ->. by rewrite E2.
    + apply compare_eq in E2 as ->. by rewrite E1.
    + by rewrite (compare_lt_trans _ _ _ E1 E2).
  - intros k l m Hkl. apply compare_eq in Hkl as ->. done.
Qed.

(** ** [std::map] *)

Section map.
Context {K V : Type} `{Ord K}.

(** [m.find(k)] *)
Fixpoint mfind (k : K) (m : list (K * V)) : option V :=
  match m with
  | [] => None
  | (k', v) :: m' => match compare k k' with Eq => Some v | _ => mfind k m' end
  end.

(** [m[k] = v]: the stored key is kept when an equivalent one is present. *)
Fixpoint mset (k : K) (v : V) (m : list (K * V)) : list (K * V) :=
  match m with
  | [] => [(k, v)]
  | (k', v') :: m' =>
      match compare k k' with
      | Lt => (k, v) :: (k', v') :: m'
      | Eq => (k', v) :: m'
      | Gt => (k', v') :: mset k v m'
      end
  end.

(** [m.erase(k)] *)
Fixpoint merase (k : K) (m : list (K * V)) : list (K * V) :=
  match m with
  | [] => []
  | (k', v') :: m' =>
      match compare k k' with Eq => m' | _ => (k', v') :: merase k m' end
  end.

(** [m.count(k)] as a truth value *)
Definition mmem (k : K) (m : list (K * V)) : bool :=
  match mfind k m with Some _ => true | None => false end.

(** [multimap::insert]: after the entries whose key is not greater. *)
Fixpoint mminsert (k : K) (v : V) (m : list (K * V)) : list (K * V) :=
  match m with
  | [] => [(k, v)]
  | (k', v') :: m' =>
      match compare k k' with
      | Lt => (k, v) :: (k', v') :: m'
      | _ => (k', v') :: mminsert k v m'
      end
  end.

(** Keys strictly increasing (a [map]) and increasing (a [multimap]). *)
Fixpoint msorted (m : list (K * V)) : Prop :=
  match m with
  | [] => True
  | (k, _) :: m' => Forall (λ p, compare k (fst p) = Lt) m' ∧ msorted m'
  end.

Fixpoint mmsorted (m : list (K * V)) : Prop :=
  match m with
  | [] => True
  | (k, _) :: m' => Forall (λ p, compare k (fst p) ≠ Gt) m' ∧ mmsorted m'
  end.

Context `{!OrdLaws K}.

Lemma mfind_Forall_Lt k m : Forall (λ p, compare k (fst p) = Lt) m → mfind k m = None.
Proof. induction 1 as [|[k' v'] m Hk _ IH]; cbn in *; [done|]. by rewrite Hk. Qed.

Lemma mset_Forall k0 k v m :
  compare k0 k = Lt → Forall (λ p, compare k0 (fst p) = Lt) m →
  Forall (λ p, compare k0 (fst p) = Lt) (mset k v m).
Proof.
  intros Hk. induction 1 as [|[k' v'] m Hk' Hm IH]; cbn; [by repeat constructor|].
  destruct (compare k k'); repeat constructor; auto.
Qed.

Lemma mset_sorted k v m : msorted m → msorted (mset k v m).
Proof.
  induction m as [|[k' v'] m IH]; cbn; [by repeat constructor|]. intros [Hk' Hm].
  destruct (compare k k') eqn:E; cbn.
  - done.
  - split; [|done]. constructor; [done|].
    eapply Forall_impl; [exact Hk'|]. intros p Hp. by eapply compare_lt_trans.
  - split; [|auto]. apply mset_Forall; [|done]. by rewrite compare_antisym, E.
Qed.

Lemma merase_Forall (P : K * V → Prop) k m : Forall P m → Forall P (merase k m).
Proof.
  induction 1 as [|[k' v'] m Hp Hm IH]; cbn; [done|].
  destruct (compare k k'); auto.
Qed.

Lemma merase_sorted k m : msorted m → msorted (merase k m).
Proof.
  induction m as [|[k' v'] m IH]; cbn; [done|]. intros [Hk Hm].
  destruct (compare k k'); cbn; try done; split; auto using merase_Forall.
Qed.

Lemma mfind_mset_eq k v m : mfind k (mset k v m) = Some v.
Proof.
  induction m as [|[k' v'] m IH]; cbn; [by rewrite compare_refl|].
  destruct (compare k k') eqn:E; cbn; by rewrite ?E, ?compare_refl, ?IH.
Qed.

Lemma mset_snoc k v m :
  Forall (λ p, compare (fst p) k = Lt) m → mset k v m = m ++ [(k, v)].
Proof.
  induction 1 as [|[k' v'] m Hk _ IH]; cbn in *; [done|].
  rewrite compare_antisym, Hk. cbn. by rewrite IH.
Qed.

Lemma mfind_snoc k m :
  Forall (λ p, compare (fst p) k = Lt) m → mfind k m = None.
Proof.
  induction 1 as [|[k' v'] m Hk _ IH]; cbn in *; [done|].
  by rewrite compare_antisym, Hk.
Qed.

Lemma mminsert_snoc k v m :
  Forall (λ p, compare (fst p) k ≠ Gt) m → mminsert k v m = m ++ [(k, v)].
Proof.
  induction 1 as [|[k' v'] m Hk _ IH]; cbn in *; [done|].
  rewrite compare_antisym. destruct (compare k' k); cbn; try done; by rewrite IH.
Qed.

Lemma mminsert_perm k v m : mminsert k v m ≡ₚ (k, v) :: m.
Proof.
  induction m as [|[k' v'] m IH]; cbn; [done|].
  destruct (compare k k'); try done; rewrite IH; constructor.
Qed.

Lemma mminsert_sorted k v m : mmsorted m → mmsorted (mminsert k v m).
Proof.
  induction m as [|[k' v'] m IH]; cbn; [by repeat constructor|]. intros [Hk Hm].
  destruct (compare k k') eqn:E; cbn.
  2:{ split; [|done]. constructor; [cbn; congruence|].
      eapply Forall_impl; [exact Hk|]. intros p Hp.
      destruct (compare k' (fst p)) eqn:E2; [|by rewrite (compare_lt_trans _ _ _ E E2)|done].
      by rewrite (compare_antisym (fst p) k), (compare_eq_lt _ _ k E2), (compare_antisym k k'), E. }
  all: split; [|auto]; rewrite mminsert_perm; constructor; [|done]; cbn;
    rewrite compare_antisym, E; done.
Qed.

Lemma mfind_merase_eq k m : msorted m → mfind k (merase k m) = None.
Proof.
  induction m as [|[k' v'] m IH]; cbn; [done|]. intros [Hk Hm].
  destruct (compare k k') eqn:E; cbn; rewrite ?E; auto.
  apply mfind_Forall_Lt. eapply Forall_impl; [exact Hk|].
  intros p Hp. by rewrite <- (compare_eq_lt k k' (fst p) E).
Qed.

Context `{!OrdLeibniz K}.

Lemma mfind_mset_ne k l v m : k ≠ l → mfind l (mset k v m) = mfind l m.
Proof.
  intros Hne. induction m as [|[k' v'] m IH]; cbn.
  - destruct (compare l k) eqn:E; try done. by apply compare_eq in E.
  - destruct (compare k k') eqn:E; cbn; try done.
    + apply compare_eq in E as <-.
      destruct (compare l k) eqn:E; try done. by apply compare_eq in E.
    + destruct (compare l k) eqn:E'; try done. by apply compare_eq in E'.
    + by rewrite IH.
Qed.

Lemma mfind_merase_ne k l m : k ≠ l → mfind l (merase k m) = mfind l m.
Proof.
  intros Hne. induction m as [|[k' v'] m IH]; cbn; [done|].
  destruct (compare k k') eqn:E; cbn; try by rewrite IH.
  apply compare_eq in E as <-.
  destruct (compare l k) eqn:E; try done. by apply compare_eq in E.
Qed.

Lemma mfind_mset k l v m :
  mfind l (mset k v m) = match compare k l with Eq => Some v | _ => mfind l m end.
Proof.
  destruct (compare k l) eqn:E.
  - apply compare_eq in E as <-. apply mfind_mset_eq.
  - apply mfind_mset_ne. intros <-. by rewrite compare_refl in E.
  - apply mfind_mset_ne. intros <-. by rewrite compare_refl in E.
Qed.

Lemma mfind_elem k v m : mfind k m = Some v → (k, v) ∈ m.
Proof.
  induction m as [|[k' v'] m IH]; cbn; [done|].
  destruct (compare k k') eqn:E; intros Hf; [|by right; apply IH..].
  apply compare_eq in E as ->. injection Hf as ->. left.
Qed.

Lemma mfind_sorted_elem k v m : msorted m → (k, v) ∈ m → mfind k m = Some v.
Proof.
  induction m as [|[k' v'] m IH]; cbn; [by intros _ ?%not_elem_of_nil|].
  intros [Hk Hm] [[= -> ->]|Hin]%elem_of_cons; [by rewrite compare_refl|].
  pose proof (proj1 (Forall_forall _ _) Hk _ Hin) as Hlt. cbn in Hlt.
  rewrite compare_antisym, Hlt. cbn. auto.
Qed.
End map.

(** Equivalent keys find the same entry, whatever their spelling. *)
Lemma mfind_equiv {K V} `{Ord K, !OrdLaws K} (k l : K) (m : list (K * V)) :
  compare k l = Eq → mfind k m = mfind l m.
Proof.
  intros E. induction m as [|[k' v] m IH]; cbn; [done|].
  by rewrite <- (compare_eq_lt k l k' E), IH.
Qed.

Lemma mfind_mset_nequiv {K V} `{Ord K, !OrdLaws K} (k l : K) (v : V) m :
  compare l k ≠ Eq → mfind l (mset k v m) = mfind l m.
Proof.
  intros Hne. induction m as [|[k' v'] m IH]; cbn; [by destruct (compare l k)|].
  destruct (compare k k') eqn:E; cbn.
  - assert (E' : compare l k' = compare l k).
    { rewrite (compare_antisym k' l), (compare_antisym k l). by rewrite (compare_eq_lt k k' l E). }
    rewrite E'. by destruct (compare l k).
  - by destruct (compare l k).
  - by rewrite IH.
Qed.

Lemma mfind_merase_nequiv {K V} `{Ord K, !OrdLaws K} (k l : K) (m : list (K * V)) :
  compare l k ≠ Eq → mfind l (merase k m) = mfind l m.
Proof.
  intros Hne. induction m as [|[k' v'] m IH]; cbn; [done|].
  destruct (compare k k') eqn:E; cbn; try by rewrite IH.
  assert (E' : compare l k' = compare l k).
  { rewrite (compare_antisym k' l), (compare_antisym k l). by rewrite (compare_eq_lt k k' l E). }
  rewrite E'. by destruct (compare l k).
Qed.

Lemma length_mset {K V} `{Ord K} (k : K) (v : V) m :
  msorted m → OrdLaws K →
  length (mset k v m) = match mfind k m with Some _ => length m | None => S (length m) end.
Proof.
  intros Hs HL. induction m as [|[k' v'] m IH]; cbn in *; [done|]. destruct Hs as [Hk Hm].
  destruct (compare k k') eqn:E; cbn; [done| |].
  - rewrite mfind_Forall_Lt; [done|]. eapply Forall_impl; [exact Hk|].
    intros p Hp. by eapply compare_lt_trans.
  - rewrite IH by done. by destruct (mfind k m).
Qed.

Lemma length_merase {K V} `{Ord K} (k : K) (m : list (K * V)) :
  length (merase k m) = match mfind k m with Some _ => Nat.pred (length m) | None => length m end.
Proof.
  induction m as [|[k' v'] m IH]; cbn; [done|].
  destruct (compare k k'); cbn; [done|..]; rewrite IH; destruct (mfind k m) eqn:E; try done;
    destruct m; done.
Qed.

#[export] Hint Resolve mset_sorted merase_sorted : rgw.
