(* ===== verification/Encoding.v ===== *)
(** * The wire encoding ([src/src/include/encoding.h])

    Encoders append to a [bufferlist]; decoders read from a
    [bufferlist::iterator] and throw.  An encoder is a function on the bytes
    written so far, a decoder a function of the iterator's state with the
    exceptions of [buffer::error] as a sum.  The [encode]/[decode] overloads of
    one C++ type form a [codec]; [CodecOk] is the contract its users rely on:
    encoding only appends, and decoding what was encoded gives the value back
    and consumes exactly its bytes. *)

From S2P Require Import Prelude StdMap.

(** ** Iterators and decoders *)

(** The exceptions of [buffer::error]. *)
Inductive buffer_error := end_of_buffer | malformed_input | generic_error.

(** A [bufferlist::iterator]: its offset and the bytes from there on. *)
Record iterator := It { it_off : Z; it_rest : bytes }.

Definition D (A : Type) : Type := iterator → buffer_error + (A * iterator).
Definition E : Type := bytes → bytes.

#[export] Instance D_ret : MRet D := λ A x it, inr (x, it).
#[export] Instance D_bind : MBind D := λ A B k d it,
  match d it with inl e => inl e | inr (x, it') => k x it' end.
Definition throw {A} (e : buffer_error) : D A := λ _, inl e.

(** Encoders in sequence: the statements of an [encode] method. *)
Definition eseq (e1 e2 : E) : E := λ bl, e2 (e1 bl).
Notation "e1 >>> e2" := (eseq e1 e2) (at level 60, right associativity).

(** [iterator::copy]: [len] bytes, or [end_of_buffer]. *)
Definition it_copy (len : nat) : D bytes := λ it,
  if (length (it_rest it) <? len)%nat then inl end_of_buffer
  else inr (take len (it_rest it),
            It (it_off it + Z.of_nat len) (drop len (it_rest it))).

(** [iterator::advance] forwards. *)
Definition it_advance (o : nat) : D unit :=
  _ ← it_copy o; mret tt.

Definition get_off : D Z := λ it, inr (it_off it, it).
Definition get_remaining : D Z := λ it, inr (zlen (it_rest it), it).

(** [list::copy_in]: overwrite in place. *)
Definition copy_in (off : nat) (src : bytes) : E := λ bl,
  take off bl ++ src ++ drop (off + length src) bl.

(** ** Little-endian integers ([ceph_le16], [ceph_le32], [ceph_le64]) *)

Fixpoint le_bytes (n : nat) (z : Z) : bytes :=
  match n with
  | O => []
  | S n' => chr z :: le_bytes n' (z / 256)
  end.

Fixpoint le_value (bs : bytes) : Z :=
  match bs with
  | [] => 0
  | c :: bs' => uchar c + 256 * le_value bs'
  end.

Definition encode_raw (n : nat) (z : Z) : E := λ bl, bl ++ le_bytes n z.
Definition decode_raw (n : nat) : D Z := bs ← it_copy n; mret (le_value bs).

(** ** Codecs *)

Record codec (A : Type) := Codec {
  enc : A → E;
  dec : A → D A;          (* [decode(x, p)]: into the existing object *)
  wf : A → Prop           (* the values of the C++ type that can be encoded *)
}.
Arguments Codec {A}. Arguments enc {A}. Arguments dec {A}. Arguments wf {A}.

Definition uint_c (n : nat) : codec Z :=
  Codec (encode_raw n) (λ _, decode_raw n) (λ z, 0 <= z < 2 ^ (8 * Z.of_nat n)).

Definition sint_c (n : nat) : codec Z :=
  Codec (encode_raw n)
        (λ _, z ← decode_raw n; mret (sgn (8 * Z.of_nat n) z))
        (λ z, - 2 ^ (8 * Z.of_nat n - 1) <= z < 2 ^ (8 * Z.of_nat n - 1)).

Definition u8_c : codec Z := uint_c 1.
Definition u16_c : codec Z := uint_c 2.
Definition u32_c : codec Z := uint_c 4.
Definition u64_c : codec Z := uint_c 8.
Definition s32_c : codec Z := sint_c 4.
Definition s64_c : codec Z := sint_c 8.

Definition encode_bool (v : bool) : E := encode_raw 1 (if v then 1 else 0).
Definition decode_bool (_ : bool) : D bool :=
  vv ← decode_raw 1; mret (negb (vv =? 0)).
Definition bool_c : codec bool := Codec encode_bool decode_bool (λ _, True).

(** Strings and nested buffers: a 32-bit length and the bytes. *)
Definition encode_string (s : str) : E := λ bl,
  let len := u32 (zlen s) in
  let bl := encode_raw 4 len bl in
  if len =? 0 then bl else bl ++ take (Z.to_nat len) s.
Definition decode_string (_ : str) : D str :=
  len ← decode_raw 4; it_copy (Z.to_nat len).
Definition string_c : codec str :=
  Codec encode_string decode_string (λ s, zlen s < 2 ^ 32).

Definition encode_bufferlist (s : bytes) : E := λ bl,
  encode_raw 4 (u32 (zlen s)) bl ++ s.
Definition decode_bufferlist (_ : bytes) : D bytes :=
  len ← decode_raw 4; it_copy (Z.to_nat len).
Definition bufferlist_c : codec bytes :=
  Codec encode_bufferlist decode_bufferlist (λ s, zlen s < 2 ^ 32).

(** The elements of a container one after the other. *)
Fixpoint encode_all {A} (e : A → E) (l : list A) : E := λ bl,
  match l with
  | [] => bl
  | x :: l' => encode_all e l' (e x bl)
  end.

(** [while (n--)]: decode [n] times, folding each value into an accumulator. *)
Fixpoint decode_loop {S} (n : nat) (body : S → D S) (s : S) : D S :=
  match n with
  | O => mret s
  | Datatypes.S n' => s' ← body s; decode_loop n' body s'
  end.

Section containers.
Context {A : Type} (d : A) (c : codec A).

(** [boost::optional] *)
Definition encode_optional (p : option A) : E :=
  match p with
  | None => encode_raw 1 0
  | Some x => encode_raw 1 1 >>> enc c x
  end.
Definition decode_optional (p0 : option A) : D (option A) :=
  present ← decode_raw 1;
  if present =? 0 then mret p0 else x ← dec c d; mret (Some x).

(** [std::list]: the count is written as 0 and patched afterwards. *)
Definition encode_list (ls : list A) : E := λ bl,
  match ls with
  | [] => encode_all (enc c) ls (encode_raw 4 (u32 (zlen ls)) bl)
  | _ =>
      let pos := length bl in
      let bl := encode_raw 4 0 bl in
      let bl := encode_all (enc c) ls bl in
      copy_in pos (le_bytes 4 (u32 (zlen ls))) bl
  end.
Definition decode_list (_ : list A) : D (list A) :=
  n ← decode_raw 4;
  decode_loop (Z.to_nat n) (λ ls, v ← dec c d; mret (ls ++ [v])) [].
Definition list_c : codec (list A) :=
  Codec encode_list decode_list (λ l, zlen l < 2 ^ 32 ∧ Forall (wf c) l).

(** [std::vector]: resized, then decoded in place element by element. *)
Definition encode_vector (v : list A) : E := λ bl,
  encode_all (enc c) v (encode_raw 4 (u32 (zlen v)) bl).
Fixpoint decode_elems (v : list A) : D (list A) :=
  match v with
  | [] => mret []
  | x0 :: v' => x ← dec c x0; l ← decode_elems v'; mret (x :: l)
  end.
Definition decode_vector (v0 : list A) : D (list A) :=
  n ← decode_raw 4; decode_elems (resize (Z.to_nat n) d v0).
Definition vector_c : codec (list A) :=
  Codec encode_vector decode_vector (λ l, zlen l < 2 ^ 32 ∧ Forall (wf c) l).
End containers.

Section maps.
Context {K V : Type} `{Ord K} (dk : K) (dv : V) (kc : codec K) (vc : codec V).

Definition encode_pair (p : K * V) : E := enc kc (fst p) >>> enc vc (snd p).
Definition decode_pair (p0 : K * V) : D (K * V) :=
  k ← dec kc (fst p0); v ← dec vc (snd p0); mret (k, v).
Definition pair_c : codec (K * V) :=
  Codec encode_pair decode_pair (λ p, wf kc (fst p) ∧ wf vc (snd p)).

(** [std::map] *)
Definition encode_map (m : list (K * V)) : E := λ bl,
  encode_all encode_pair m (encode_raw 4 (u32 (zlen m)) bl).
(** [decode(k, p); decode(m[k], p)]: [m[k]] exists afterwards, holding a
    default value before the decoder runs on it. *)
Definition decode_map_entry (m : list (K * V)) : D (list (K * V)) :=
  k ← dec kc dk;
  v ← dec vc (default dv (mfind k m));
  mret (mset k v m).
Definition decode_map (_ : list (K * V)) : D (list (K * V)) :=
  n ← decode_raw 4; decode_loop (Z.to_nat n) decode_map_entry [].
Definition decode_map_noclear (m0 : list (K * V)) : D (list (K * V)) :=
  n ← decode_raw 4; decode_loop (Z.to_nat n) decode_map_entry m0.
Definition map_c : codec (list (K * V)) :=
  Codec encode_map decode_map
    (λ m, zlen m < 2 ^ 32 ∧ msorted m ∧ Forall (wf pair_c) m).

(** [std::multimap]: the pair is inserted first and its value decoded in place. *)
Definition decode_multimap_entry (m : list (K * V)) : D (list (K * V)) :=
  k ← dec kc dk; v ← dec vc dv; mret (mminsert k v m).
Definition decode_multimap (_ : list (K * V)) : D (list (K * V)) :=
  n ← decode_raw 4; decode_loop (Z.to_nat n) decode_multimap_entry [].
Definition multimap_c : codec (list (K * V)) :=
  Codec encode_map decode_multimap
    (λ m, zlen m < 2 ^ 32 ∧ mmsorted m ∧ Forall (wf pair_c) m).
End maps.

(** ** Versioned blocks *)

(** [ENCODE_START(v, compat, bl)] ... [ENCODE_FINISH_NEW_COMPAT(bl, new_compat)]:
    version, oldest compatible version and a length written as 0, then the
    body, then the length (and the new compat version, if any) patched. *)
Definition encode_block (v compat new_compat : Z) (body : E) : E := λ bl,
  let bl := encode_raw 1 v bl in
  let bl := encode_raw 1 compat bl in
  let struct_compat_it := (length bl - 1)%nat in
  let bl := encode_raw 4 0 bl in
  let struct_len_it := (length bl - 4)%nat in
  let bl := body bl in
  let struct_len := u32 (zlen bl - Z.of_nat struct_len_it - 4) in
  let bl := copy_in struct_len_it (le_bytes 4 struct_len) bl in
  if new_compat =? 0 then bl
  else copy_in struct_compat_it (le_bytes 1 new_compat) bl.

Definition ENCODE (v compat : Z) (body : E) : E := encode_block v compat 0 body.

(** [DECODE_FINISH]: skip what the block has left; a body that read past the
    end of its block is an error. *)
Definition DECODE_FINISH (struct_end : Z) : D unit :=
  if struct_end =? 0 then mret tt
  else
    off ← get_off;
    if off >? struct_end then throw malformed_input
    else if off <? struct_end then it_advance (Z.to_nat (struct_end - off))
    else mret tt.

(** The length word of a block: the offset of the block's end. *)
Definition decode_struct_end : D Z :=
  struct_len ← decode_raw 4;
  remaining ← get_remaining;
  if struct_len >? remaining then throw malformed_input
  else off ← get_off; mret (u32 (off + struct_len)).

(** [DECODE_START(v, bl)] ... [DECODE_FINISH(bl)] *)
Definition DECODE {A} (v : Z) (body : Z → D A) : D A :=
  struct_v ← decode_raw 1;
  struct_compat ← decode_raw 1;
  if v <? struct_compat then throw malformed_input
  else
    struct_end ← decode_struct_end;
    x ← body struct_v;
    _ ← DECODE_FINISH struct_end;
    mret x.

(** [__DECODE_START_LEGACY_COMPAT_LEN(v, compatv, lenv, skip_v, bl)]: data
    older than [compatv] has no compat byte (and [skip_v] bytes instead), data
    older than [lenv] no length. *)
Definition DECODE_LEGACY_SKIP {A} (v compatv lenv skip_v : Z) (body : Z → D A) : D A :=
  struct_v ← decode_raw 1;
  _ ← (if struct_v >=? compatv then
         struct_compat ← decode_raw 1;
         if v <? struct_compat then throw malformed_input else mret tt
       else if negb (skip_v =? 0) then
         remaining ← get_remaining;
         if remaining <? skip_v then throw malformed_input
         else it_advance (Z.to_nat skip_v)
       else mret tt);
  struct_end ← (if struct_v >=? lenv then decode_struct_end else mret 0);
  x ← body struct_v;
  _ ← DECODE_FINISH struct_end;
  mret x.

Definition DECODE_LEGACY {A} (v compatv lenv : Z) (body : Z → D A) : D A :=
  DECODE_LEGACY_SKIP v compatv lenv 0 body.
Definition DECODE_LEGACY_32 {A} (v compatv lenv : Z) (body : Z → D A) : D A :=
  DECODE_LEGACY_SKIP v compatv lenv 3 body.
Definition DECODE_LEGACY_16 {A} (v compatv lenv : Z) (body : Z → D A) : D A :=
  DECODE_LEGACY_SKIP v compatv lenv 1 body.

(** [decode(o, bl)] on a whole buffer: the result and whether [p.end()] holds. *)
Definition decode_full {A} (c : codec A) (x0 : A) (bl : bytes) : buffer_error + (A * bool) :=
  match dec c x0 (It 0 bl) with
  | inl e => inl e
  | inr (x, it) => inr (x, bool_decide (it_rest it = []))
  end.

(** ** The contract of a codec *)

(** [e] only appends. *)
Definition appends (e : E) : Prop := ∀ bl, e bl = bl ++ e [].

(** [d] reads the value [x] from the bytes [bs], whatever follows them and
    wherever they are in a buffer of less than 4 GiB (offsets and lengths are
    [unsigned]). *)
Definition reads {A} (d : D A) (bs : bytes) (x : A) : Prop :=
  ∀ off rest, 0 <= off → off + zlen bs + zlen rest < 2 ^ 32 →
    d (It off (bs ++ rest)) = inr (x, It (off + zlen bs) rest).

Class CodecOk {A} (c : codec A) : Prop := {
  enc_appends : ∀ x, appends (enc c x);
  dec_reads : ∀ x x0, wf c x → reads (dec c x0) (enc c x []) x
}.

(** The contract of a type with members that are not encoded: what is decoded
    into [x0] from the encoding of [x] is [into x x0]. *)
Class CodecInto {A} (c : codec A) (into : A → A → A) : Prop := {
  into_appends : ∀ x, appends (enc c x);
  into_reads : ∀ x x0, wf c x → reads (dec c x0) (enc c x []) (into x x0)
}.

(** ** Encoders *)

Lemma appends_eq (e : E) bl : appends e → e bl = bl ++ e [].
Proof. intros H. apply H. Qed.

Lemma encode_raw_appends n z : appends (encode_raw n z).
Proof. done. Qed.

Lemma eseq_appends e1 e2 : appends e1 → appends e2 → appends (e1 >>> e2).
Proof.
  intros H1 H2 bl. unfold eseq. rewrite (H1 bl), (H2 (bl ++ _)), (H2 (e1 [])).
  by rewrite app_assoc.
Qed.

Lemma eseq_nil e1 e2 : appends e2 → (e1 >>> e2) [] = e1 [] ++ e2 [].
Proof. intros H. unfold eseq. apply H. Qed.

Lemma eseq_assoc e1 e2 e3 : (e1 >>> e2) >>> e3 = e1 >>> (e2 >>> e3).
Proof. reflexivity. Qed.

Lemma encode_all_appends {A} (e : A → E) l : (∀ x, appends (e x)) → appends (encode_all e l).
Proof.
  intros He. induction l as [|x l IH]; intros bl; cbn; [by rewrite app_nil_r|].
  rewrite (IH (e x bl)), (IH (e x [])), (He x bl). by rewrite app_assoc.
Qed.

Lemma encode_all_cons {A} (e : A → E) x l :
  (∀ y, appends (e y)) → encode_all e (x :: l) [] = e x [] ++ encode_all e l [].
Proof. intros He. cbn. by apply encode_all_appends. Qed.

Lemma length_le_bytes n z : length (le_bytes n z) = n.
Proof. revert z. induction n as [|n IH]; intros z; cbn; [done|]. by rewrite IH. Qed.

Lemma zlen_le_bytes n z : zlen (le_bytes n z) = Z.of_nat n.
Proof. unfold zlen. by rewrite length_le_bytes. Qed.

Lemma le_value_le_bytes n z : le_value (le_bytes n z) = z mod 2 ^ (8 * Z.of_nat n).
Proof.
  revert z. induction n as [|n IH]; intros z; cbn [le_bytes le_value].
  - by rewrite Z.mod_1_r.
  - rewrite uchar_chr, IH.
    replace (8 * Z.of_nat (S n)) with (8 + 8 * Z.of_nat n) by lia.
    rewrite Z.pow_add_r, Z.rem_mul_r by lia.
    change (2 ^ 8) with 256. lia.
Qed.

Lemma copy_in_mid (pre old src post : bytes) off :
  off = length pre → length old = length src →
  copy_in off src (pre ++ old ++ post) = pre ++ src ++ post.
Proof.
  intros -> Hlen. unfold copy_in.
  rewrite take_app_length, drop_app_add.
  f_equal. f_equal. by rewrite <- Hlen, drop_app_length.
Qed.

(** The count or length patched after the body is the one a writer that knew
    it beforehand would have written. *)
Lemma encode_list_direct {A} (c : codec A) ls bl :
  (∀ x, appends (enc c x)) →
  encode_list c ls bl = bl ++ le_bytes 4 (u32 (zlen ls)) ++ encode_all (enc c) ls [].
Proof.
  intros Hc. destruct ls as [|x ls].
  - cbn -[le_bytes]. by rewrite app_nil_r.
  - unfold encode_list.
    rewrite (encode_all_appends _ _ Hc (encode_raw 4 0 bl)).
    unfold encode_raw. rewrite <- app_assoc.
    by apply copy_in_mid; rewrite ?length_le_bytes.
Qed.

Lemma ENCODE_direct v compat body bl :
  appends body →
  ENCODE v compat body bl =
    bl ++ le_bytes 1 v ++ le_bytes 1 compat ++ le_bytes 4 (u32 (zlen (body []))) ++ body [].
Proof.
  intros Hb. unfold ENCODE, encode_block. cbn [Z.eqb].
  set (hd := encode_raw 1 compat (encode_raw 1 v bl)).
  rewrite (Hb (encode_raw 4 0 hd)).
  assert (Hlen : length (encode_raw 4 0 hd) = (length hd + 4)%nat)
    by (unfold encode_raw; by rewrite length_app, length_le_bytes).
  replace (length (encode_raw 4 0 hd) - 4)%nat with (length hd) by lia.
  rewrite zlen_app. unfold zlen at 1. rewrite Hlen. unfold encode_raw at 1.
  rewrite <- app_assoc, copy_in_mid by (by rewrite ?length_le_bytes).
  unfold hd, encode_raw. rewrite <- !app_assoc. do 3 f_equal.
  do 2 f_equal. f_equal. unfold zlen. lia.
Qed.

Lemma ENCODE_appends v compat body : appends body → appends (ENCODE v compat body).
Proof. intros Hb bl. by rewrite (ENCODE_direct _ _ _ bl), (ENCODE_direct _ _ _ []). Qed.

#[export] Hint Resolve encode_raw_appends eseq_appends encode_all_appends ENCODE_appends
  enc_appends : rgw.

(** ** Decoders *)

Lemma reads_ret {A} (x : A) : reads (mret x) [] x.
Proof. intros off rest _ _. cbn. by rewrite Z.add_0_r. Qed.

Lemma reads_eq {A} (d : D A) bs x y : x = y → reads d bs x → reads d bs y.
Proof. by intros ->. Qed.

Lemma reads_bind {A B} (d : D A) (k : A → D B) bs1 bs2 x y :
  reads d bs1 x → reads (k x) bs2 y → reads (d ≫= k) (bs1 ++ bs2) y.
Proof.
  intros H1 H2 off rest Hoff Hlen. rewrite zlen_app in *.
  pose proof (zlen_nonneg bs1). pose proof (zlen_nonneg bs2).
  rewrite <- app_assoc. unfold mbind, D_bind.
  rewrite H1; [|done|rewrite zlen_app; lia]. rewrite H2 by lia.
  by rewrite Z.add_assoc.
Qed.

Lemma reads_ret_bind {A B} (x : A) (k : A → D B) bs y :
  reads (k x) bs y → reads (mret x ≫= k) bs y.
Proof. done. Qed.

Lemma reads_bind_assoc {A B C} (d : D A) (j : A → D B) (k : B → D C) bs y :
  reads (d ≫= λ a, j a ≫= k) bs y → reads ((d ≫= j) ≫= k) bs y.
Proof.
  intros Hr off rest Hoff Hlen. rewrite <- (Hr off rest Hoff Hlen).
  unfold mbind, D_bind. by destruct (d _) as [|[? ?]].
Qed.

Lemma reads_copy (bs : bytes) n : n = length bs → reads (it_copy n) bs bs.
Proof.
  intros -> off rest _ _. unfold it_copy. cbn [it_rest it_off].
  rewrite length_app, (proj2 (Nat.ltb_ge _ _)) by lia.
  by rewrite take_app_length, drop_app_length.
Qed.

Lemma reads_raw n z : reads (decode_raw n) (le_bytes n z) (z mod 2 ^ (8 * Z.of_nat n)).
Proof.
  unfold decode_raw. rewrite <- (app_nil_r (le_bytes n z)).
  eapply reads_bind; [by apply reads_copy; rewrite length_le_bytes|].
  rewrite le_value_le_bytes. apply reads_ret.
Qed.

Lemma reads_raw_small n z : 0 <= z < 2 ^ (8 * Z.of_nat n) → reads (decode_raw n) (le_bytes n z) z.
Proof. intros Hz. rewrite <- (Z.mod_small _ _ Hz) at 2. apply reads_raw. Qed.

Lemma reads_bind_raw {B} n z (k : Z → D B) bs y :
  0 <= z < 2 ^ (8 * Z.of_nat n) → reads (k z) bs y →
  reads (decode_raw n ≫= k) (le_bytes n z ++ bs) y.
Proof. intros Hz Hk. eapply reads_bind; [by apply reads_raw_small|done]. Qed.

(** A decoder that reads a counted run of bytes: the length of the input
    bounds the count. *)
Lemma reads_bind_count {B} (k : Z → D B) n bs y :
  0 <= n < 2 ^ 32 → reads (k n) bs y →
  reads (decode_raw 4 ≫= k) (le_bytes 4 (u32 n) ++ bs) y.
Proof.
  intros Hn Hk. unfold u32. rewrite Z.mod_small by done.
  by apply reads_bind_raw.
Qed.

Lemma reads_loop {S A} (body : S → D S) (eb : A → bytes) (P : S → list A → Prop)
    (step : S → A → S) (l : list A) s :
  (∀ s x l, P s (x :: l) → reads (body s) (eb x) (step s x) ∧ P (step s x) l) →
  P s l →
  reads (decode_loop (length l) body s) (concat (eb <$> l)) (fold_left step l s).
Proof.
  intros Hstep. revert s. induction l as [|x l IH]; intros s Hs; cbn; [apply reads_ret|].
  destruct (Hstep s x l Hs) as [Hr Hp]. eapply reads_bind; eauto.
Qed.

Lemma encode_all_concat {A} (e : A → E) l :
  (∀ x, appends (e x)) → encode_all e l [] = concat ((λ x, e x []) <$> l).
Proof.
  intros He. induction l as [|x l IH]; [done|].
  rewrite encode_all_cons by done. cbn. by rewrite IH.
Qed.

(** ** Instances *)

#[export] Instance uint_ok n : CodecOk (uint_c n).
Proof. split; [done|]. intros x x0 Hx. by apply reads_raw_small. Qed.

#[export] Instance sint_ok n : n ≠ 0%nat → CodecOk (sint_c n).
Proof.
  split; [done|]. intros x x0 Hx. cbn [dec sint_c enc encode_raw app].
  rewrite <- (app_nil_r (le_bytes n x)).
  eapply reads_bind; [apply reads_raw|].
  rewrite sgn_mod by lia. rewrite sgn_small; [apply reads_ret|lia|done].
Qed.

#[export] Instance u8_ok : CodecOk u8_c := uint_ok 1.
#[export] Instance u16_ok : CodecOk u16_c := uint_ok 2.
#[export] Instance u32_ok : CodecOk u32_c := uint_ok 4.
#[export] Instance u64_ok : CodecOk u64_c := uint_ok 8.
#[export] Instance s32_ok : CodecOk s32_c.
Proof. by apply sint_ok. Qed.
#[export] Instance s64_ok : CodecOk s64_c.
Proof. by apply sint_ok. Qed.

#[export] Instance bool_ok : CodecOk bool_c.
Proof.
  split; [done|]. intros x x0 _. cbn [dec enc bool_c].
  unfold decode_bool, encode_bool, encode_raw.
  rewrite <- (app_nil_r ([] ++ _)). rewrite app_nil_l.
  destruct x; (apply reads_bind_raw; [lia|apply reads_ret]).
Qed.

Lemma reads_counted (s : bytes) :
  zlen s < 2 ^ 32 →
  reads (len ← decode_raw 4; it_copy (Z.to_nat len)) (le_bytes 4 (u32 (zlen s)) ++ s) s.
Proof.
  intros Hs. pose proof (zlen_nonneg s).
  apply reads_bind_count; [lia|]. apply reads_copy. unfold zlen. lia.
Qed.

Lemma encode_string_direct s bl :
  zlen s < 2 ^ 32 → encode_string s bl = bl ++ le_bytes 4 (u32 (zlen s)) ++ s.
Proof.
  intros Hs. unfold encode_string. pose proof (zlen_nonneg s).
  assert (Hu : u32 (zlen s) = zlen s) by (unfold u32; rewrite Z.mod_small; lia).
  rewrite Hu. unfold encode_raw. destruct (Z.eqb_spec (zlen s) 0) as [H0|H0].
  - destruct s; [|by rewrite zlen_cons in H0; pose proof (zlen_nonneg s); lia].
    by rewrite app_nil_r.
  - rewrite <- app_assoc. do 2 f_equal. apply take_ge. unfold zlen in *. lia.
Qed.

#[export] Instance string_ok : CodecOk string_c.
Proof.
  split.
  - intros s bl. cbn. unfold encode_string, encode_raw. cbn [app].
    case_bool; by rewrite <- ?app_assoc.
  - intros s s0 Hs. cbn [dec enc string_c]. rewrite encode_string_direct by done.
    by apply reads_counted.
Qed.

#[export] Instance bufferlist_ok : CodecOk bufferlist_c.
Proof.
  split.
  - intros s bl. cbn. unfold encode_bufferlist, encode_raw. cbn [app].
    by rewrite <- app_assoc.
  - intros s s0 Hs. by apply reads_counted.
Qed.

Lemma fold_snoc {A} (l acc : list A) : fold_left (λ s x, s ++ [x]) l acc = acc ++ l.
Proof.
  revert acc. induction l as [|x l IH]; intros acc; cbn; [by rewrite app_nil_r|].
  by rewrite IH, <- app_assoc.
Qed.

Lemma decode_count_reads {A S} (body : S → D S) (eb : A → bytes)
    (P : S → list A → Prop) (step : S → A → S) (l : list A) s :
  zlen l < 2 ^ 32 →
  (∀ s x l, P s (x :: l) → reads (body s) (eb x) (step s x) ∧ P (step s x) l) →
  P s l →
  reads (n ← decode_raw 4; decode_loop (Z.to_nat n) body s)
        (le_bytes 4 (u32 (zlen l)) ++ concat (eb <$> l)) (fold_left step l s).
Proof.
  intros Hl Hstep Hs. pose proof (zlen_nonneg l).
  apply reads_bind_count; [lia|].
  replace (Z.to_nat (zlen l)) with (length l) by (unfold zlen; lia).
  by eapply reads_loop.
Qed.

#[export] Instance list_ok {A} (d : A) c : CodecOk c → CodecOk (list_c d c).
Proof.
  intros Hc. split.
  - intros l bl. cbn [enc list_c].
    rewrite (encode_list_direct c l bl), (encode_list_direct c l []); auto with rgw.
  - intros l l0 [Hl Hwf]. cbn [dec enc list_c].
    rewrite encode_list_direct, encode_all_concat by auto with rgw. cbn [app].
    eapply reads_eq; [apply (fold_snoc l [])|].
    apply decode_count_reads
      with (P := λ _ l, Forall (wf c) l); [done| |done].
    intros s x l' [Hx Hl']%Forall_cons. split; [|done].
    rewrite <- (app_nil_r (enc c x [])).
    eapply reads_bind; [by apply dec_reads|apply reads_ret].
Qed.

Lemma decode_elems_reads {A} (c : codec A) `{!CodecOk c} l :
  Forall (wf c) l → ∀ v0, length v0 = length l →
  reads (decode_elems c v0) (encode_all (enc c) l []) l.
Proof.
  induction 1 as [|x l Hx Hl IH]; intros [|y v0] Hlen; cbn in Hlen; try lia.
  - apply reads_ret.
  - rewrite encode_all_cons by auto with rgw. cbn [decode_elems].
    eapply reads_bind; [by apply dec_reads|].
    rewrite <- (app_nil_r (encode_all _ _ _)).
    eapply reads_bind; [apply IH; lia|apply reads_ret].
Qed.

#[export] Instance vector_ok {A} (d : A) c : CodecOk c → CodecOk (vector_c d c).
Proof.
  intros Hc. split.
  - intros l bl. cbn [enc vector_c]. unfold encode_vector.
    rewrite (encode_all_appends _ l (enc_appends (c := c)) (encode_raw _ _ bl)).
    rewrite (encode_all_appends _ l (enc_appends (c := c)) (encode_raw _ _ [])).
    unfold encode_raw. by rewrite app_assoc.
  - intros l l0 [Hl Hwf]. cbn [dec enc vector_c]. unfold encode_vector, decode_vector.
    rewrite (encode_all_appends _ l (enc_appends (c := c)) (encode_raw _ _ [])).
    pose proof (zlen_nonneg l). apply reads_bind_count; [lia|].
    apply (decode_elems_reads c l Hwf). rewrite length_resize. unfold zlen. lia.
Qed.

Section maps_ok.
Context {K V : Type} `{OrdLaws K} (dk : K) (dv : V) (kc : codec K) (vc : codec V).
Context `{!CodecOk kc, !CodecOk vc}.

#[export] Instance pair_ok : CodecOk (pair_c kc vc).
Proof.
  split.
  - intros [k v]. cbn [enc pair_c]. unfold encode_pair. auto with rgw.
  - intros [k v] [k0 v0] [Hk Hv]. cbn [enc dec pair_c].
    unfold encode_pair, decode_pair. rewrite eseq_nil by auto with rgw. cbn [fst snd] in *.
    eapply reads_bind; [by apply dec_reads|].
    rewrite <- (app_nil_r (enc vc v [])).
    eapply reads_bind; [by apply dec_reads|apply reads_ret].
Qed.

Lemma encode_map_appends m : appends (encode_map kc vc m).
Proof.
  intros bl. unfold encode_map.
  rewrite (encode_all_appends _ m (enc_appends (c := pair_c kc vc)) (encode_raw _ _ bl)).
  rewrite (encode_all_appends _ m (enc_appends (c := pair_c kc vc)) (encode_raw _ _ [])).
  unfold encode_raw. by rewrite app_assoc.
Qed.

Lemma encode_map_nil m :
  encode_map kc vc m [] =
    le_bytes 4 (u32 (zlen m)) ++ concat ((λ p, encode_pair kc vc p []) <$> m).
Proof.
  unfold encode_map.
  rewrite (encode_all_appends _ m (enc_appends (c := pair_c kc vc)) (encode_raw _ _ [])).
  by rewrite encode_all_concat by apply (enc_appends (c := pair_c kc vc)).
Qed.

Lemma msorted_app_cons (m l : list (K * V)) k v :
  msorted (m ++ (k, v) :: l) → Forall (λ p, compare (fst p) k = Lt) m.
Proof.
  induction m as [|[k' v'] m IH]; cbn; [by constructor|]. intros [Hk Hm].
  constructor; [|auto]. by apply Forall_app in Hk as [_ [Hk _]%Forall_cons].
Qed.

Lemma mmsorted_app_cons (m l : list (K * V)) k v :
  mmsorted (m ++ (k, v) :: l) → Forall (λ p, compare (fst p) k ≠ Gt) m.
Proof.
  induction m as [|[k' v'] m IH]; cbn; [by constructor|]. intros [Hk Hm].
  constructor; [|auto]. by apply Forall_app in Hk as [_ [Hk _]%Forall_cons].
Qed.

(** One turn of the decoding loop of a map or multimap. *)
Lemma reads_entry (k : K) (v : V) (v0 : K → V) (f : K → V → list (K * V)) :
  wf (pair_c kc vc) (k, v) →
  reads (k' ← dec kc dk; v' ← dec vc (v0 k'); mret (f k' v'))
        (encode_pair kc vc (k, v) []) (f k v).
Proof.
  intros [Hk Hv]. unfold encode_pair. rewrite eseq_nil by auto with rgw.
  eapply reads_bind; [by apply dec_reads|].
  rewrite <- (app_nil_r (enc vc _ [])).
  eapply reads_bind; [by apply dec_reads|apply reads_ret].
Qed.

#[export] Instance map_ok : CodecOk (map_c dk dv kc vc).
Proof.
  split; [apply encode_map_appends|].
  intros m m0 (Hlen & Hs & Hwf). cbn [enc dec map_c]. rewrite encode_map_nil.
  eapply reads_eq; [apply (fold_snoc m [])|].
  apply decode_count_reads
    with (P := λ s l, msorted (s ++ l) ∧ Forall (wf (pair_c kc vc)) l); [done| |done].
  intros s [k v] l [Hs' [Hkv Hl]%Forall_cons].
  rewrite <- app_assoc. split; [|done].
  rewrite <- (mset_snoc k v s) by (by eapply msorted_app_cons).
  by apply (reads_entry k v (λ k, default dv (mfind k s)) (λ k v, mset k v s)).
Qed.

#[export] Instance multimap_ok : CodecOk (multimap_c dk dv kc vc).
Proof.
  split; [apply encode_map_appends|].
  intros m m0 (Hlen & Hs & Hwf). cbn [enc dec multimap_c]. rewrite encode_map_nil.
  eapply reads_eq; [apply (fold_snoc m [])|].
  apply decode_count_reads
    with (P := λ s l, mmsorted (s ++ l) ∧ Forall (wf (pair_c kc vc)) l); [done| |done].
  intros s [k v] l [Hs' [Hkv Hl]%Forall_cons].
  rewrite <- app_assoc. split; [|done].
  rewrite <- (mminsert_snoc k v s) by (by eapply mmsorted_app_cons).
  by apply (reads_entry k v (λ _, dv) (λ k v, mminsert k v s)).
Qed.
End maps_ok.

(** ** Versioned blocks *)

(** The bytes of a block. *)
Definition block (v compat : Z) (bs : bytes) : bytes :=
  le_bytes 1 v ++ le_bytes 1 compat ++ le_bytes 4 (u32 (zlen bs)) ++ bs.

Lemma ENCODE_block v compat body : appends body → ENCODE v compat body [] = block v compat (body []).
Proof. intros H. by rewrite ENCODE_direct. Qed.

(** The end of a block, and skipping to it. *)
Lemma reads_to_end {A} (body : D A) bs extra x :
  reads body bs x →
  reads (struct_end ← decode_struct_end; y ← body; _ ← DECODE_FINISH struct_end; mret y)
        (le_bytes 4 (u32 (zlen (bs ++ extra))) ++ bs ++ extra) x.
Proof.
  intros Hb off rest Hoff Hlen.
  rewrite !zlen_app, zlen_le_bytes in *.
  pose proof (zlen_nonneg bs). pose proof (zlen_nonneg extra). pose proof (zlen_nonneg rest).
  unfold mbind at 1, D_bind, decode_struct_end. unfold mbind at 1, D_bind.
  rewrite <- app_assoc.
  pose proof (reads_raw 4 (u32 (zlen bs + zlen extra))) as Hr.
  rewrite <- zlen_app in *. unfold u32 in *.
  rewrite Hr; rewrite ?zlen_le_bytes, ?zlen_app in *; [|lia..].
  change (8 * Z.of_nat 4) with 32. rewrite Z.mod_mod, Z.mod_small by lia.
  unfold mbind at 1, D_bind, get_remaining. cbn [it_rest]. rewrite <- app_assoc, !zlen_app.
  rewrite Z.gtb_ltb, (proj2 (Z.ltb_ge _ _)) by lia.
  unfold mbind at 1, D_bind, get_off, mret, D_ret. cbn [it_off].
  rewrite Z.mod_small by lia. unfold mbind at 1, D_bind.
  rewrite Hb by (rewrite ?zlen_app; lia).
  unfold DECODE_FINISH. rewrite (proj2 (Z.eqb_neq _ _)) by lia.
  unfold mbind, D_bind, get_off, mret, D_ret. cbn [it_off].
  rewrite Z.gtb_ltb, (proj2 (Z.ltb_ge _ _)) by lia.
  destruct (Z.ltb_spec (off + Z.of_nat 4 + zlen bs) (off + Z.of_nat 4 + (zlen bs + zlen extra))).
  - unfold it_advance, mbind, D_bind.
    rewrite (reads_copy extra); [|unfold zlen; lia|lia|lia].
    unfold mret, D_ret. do 3 f_equal. lia.
  - assert (extra = []) as -> by (destruct extra; [done|rewrite zlen_cons in *; pose proof (zlen_nonneg extra); lia]).
    cbn [app]. do 3 f_equal. rewrite zlen_nil. lia.
Qed.

(** Newer writers: a decoder for version [v] reads a block of any version that
    declares itself compatible, and skips the fields it does not know. *)
Lemma reads_DECODE_newer {A} v v' compat (body : Z → D A) bs extra x :
  0 <= v' < 256 → 0 <= compat < 256 → compat <= v →
  reads (body v') bs x →
  reads (DECODE v body) (block v' compat (bs ++ extra)) x.
Proof.
  intros Hv' Hc Hle Hb. unfold DECODE, block.
  apply reads_bind_raw; [cbn; lia|]. apply reads_bind_raw; [cbn; lia|].
  rewrite (proj2 (Z.ltb_ge _ _)) by lia. by apply (reads_to_end (body v')).
Qed.

Lemma reads_DECODE_SKIP_newer {A} v compatv lenv skip v' compat (body : Z → D A) bs extra x :
  0 <= v' < 256 → 0 <= compat < 256 → compat <= v → compatv <= v' → lenv <= v' →
  reads (body v') bs x →
  reads (DECODE_LEGACY_SKIP v compatv lenv skip body) (block v' compat (bs ++ extra)) x.
Proof.
  intros Hv' Hc Hle Hcv Hlv Hb. unfold DECODE_LEGACY_SKIP, block.
  apply reads_bind_raw; [cbn; lia|].
  rewrite !Z.geb_leb, !(proj2 (Z.leb_le _ v')) by lia.
  eapply reads_bind with (x := tt).
  - rewrite <- (app_nil_r (le_bytes 1 compat)). apply reads_bind_raw; [cbn; lia|].
    rewrite (proj2 (Z.ltb_ge _ _)) by lia. apply reads_ret.
  - by apply (reads_to_end (body v')).
Qed.

Lemma reads_DECODE_LEGACY_newer {A} v compatv lenv v' compat (body : Z → D A) bs extra x :
  0 <= v' < 256 → 0 <= compat < 256 → compat <= v → compatv <= v' → lenv <= v' →
  reads (body v') bs x →
  reads (DECODE_LEGACY v compatv lenv body) (block v' compat (bs ++ extra)) x.
Proof. apply reads_DECODE_SKIP_newer. Qed.

Lemma reads_DECODE_LEGACY_32_newer {A} v compatv lenv v' compat (body : Z → D A) bs extra x :
  0 <= v' < 256 → 0 <= compat < 256 → compat <= v → compatv <= v' → lenv <= v' →
  reads (body v') bs x →
  reads (DECODE_LEGACY_32 v compatv lenv body) (block v' compat (bs ++ extra)) x.
Proof. apply reads_DECODE_SKIP_newer. Qed.

(** Older writers: data from before the compat byte and the length. *)
Lemma reads_DECODE_LEGACY_old {A} v compatv lenv v' (body : Z → D A) bs x :
  0 <= v' < 256 → v' < compatv → v' < lenv →
  reads (body v') bs x →
  reads (DECODE_LEGACY v compatv lenv body) (le_bytes 1 v' ++ bs) x.
Proof.
  intros Hv' Hcv Hlv Hb. unfold DECODE_LEGACY, DECODE_LEGACY_SKIP.
  apply reads_bind_raw; [cbn; lia|].
  rewrite !Z.geb_leb, !(proj2 (Z.leb_gt _ v')) by lia. cbn [Z.eqb negb].
  rewrite <- (app_nil_l bs). eapply reads_bind; [apply reads_ret|].
  rewrite <- (app_nil_l bs). eapply reads_bind; [apply reads_ret|].
  rewrite <- (app_nil_r bs). eapply reads_bind; [exact Hb|].
  unfold DECODE_FINISH. cbn [Z.eqb].
  rewrite <- (app_nil_l []). eapply reads_bind; apply reads_ret.
Qed.

(** Data that began with a 32-bit version number. *)
Lemma reads_DECODE_LEGACY_32_old {A} v compatv lenv v' (body : Z → D A) bs x :
  0 <= v' < 256 → v' < compatv → v' < lenv →
  reads (body v') bs x →
  reads (DECODE_LEGACY_32 v compatv lenv body) (le_bytes 4 v' ++ bs) x.
Proof.
  intros Hv' Hcv Hlv Hb. unfold DECODE_LEGACY_32, DECODE_LEGACY_SKIP.
  change (le_bytes 4 v') with (le_bytes 1 v' ++ le_bytes 3 (v' / 256)). rewrite <- app_assoc.
  apply reads_bind_raw; [cbn; lia|].
  rewrite !Z.geb_leb, !(proj2 (Z.leb_gt _ v')) by lia. cbn [Z.eqb negb].
  eapply reads_bind with (x := tt).
  - intros off rest Hoff Hlen. unfold mbind, D_bind, get_remaining. cbn [it_rest].
    rewrite zlen_app, zlen_le_bytes. pose proof (zlen_nonneg rest).
    rewrite (proj2 (Z.ltb_ge _ _)) by lia. unfold it_advance, mbind, D_bind.
    rewrite (reads_copy (le_bytes 3 (v' / 256))); [done|by rewrite length_le_bytes|done|done].
  - rewrite <- (app_nil_l bs). eapply reads_bind; [apply reads_ret|].
    rewrite <- (app_nil_r bs). eapply reads_bind; [exact Hb|].
    unfold DECODE_FINISH. cbn [Z.eqb].
    rewrite <- (app_nil_l []). eapply reads_bind; apply reads_ret.
Qed.

Lemma reads_DECODE {A} v compat (body : Z → D A) bs x :
  0 <= v < 256 → 0 <= compat <= v → reads (body v) bs x →
  reads (DECODE v body) (block v compat bs) x.
Proof.
  intros Hv Hc Hb. rewrite <- (app_nil_r bs).
  apply reads_DECODE_newer; [done|lia|lia|done].
Qed.

(** ** Automation for the records built from codecs *)

(** [appends] of an [encode] method. *)
Ltac appends_solve :=
  repeat match goal with
  | |- appends (ENCODE _ _ _) => apply ENCODE_appends
  | |- appends (_ >>> _) => apply eseq_appends
  | |- appends (encode_raw _ _) => apply encode_raw_appends
  | |- appends (enc _ _) => first [apply enc_appends | apply into_appends]
  end.

(** A record rebuilt from its fields, possibly with a field rebuilt too. *)
Ltac record_eta x :=
  solve [ done
        | by destruct x
        | destruct x; cbn; f_equal; first [ done | match goal with |- _ = ?y => by destruct y end ] ].

(** Walk through a decoder along the bytes its encoder wrote. *)
Ltac reads_step :=
  lazymatch goal with
  | |- reads (mret _) [] ?x =>
      eapply reads_eq; [|apply reads_ret]; record_eta x
  | |- reads (mbind _ (mret _)) _ _ => apply reads_ret_bind
  | |- reads (mbind _ (mbind _ _)) _ _ => apply reads_bind_assoc
  | |- reads (mbind _ _) ((_ >>> _) []) _ => rewrite eseq_nil by appends_solve
  | |- reads (mbind _ _) (enc _ _ [] ++ _) _ =>
      eapply reads_bind; [first [apply dec_reads | apply into_reads]; solve [eauto]|]
  | |- reads (mbind _ _) (enc _ ?x []) _ =>
      rewrite <- (app_nil_r (enc _ x [])); eapply reads_bind; [first [apply dec_reads | apply into_reads]; solve [eauto]|]
  end; cbn beta.

Ltac reads_solve := repeat reads_step.

(** Reading a whole buffer. *)
Lemma reads_whole {A} (d : D A) bs x :
  reads d bs x → zlen bs < 2 ^ 32 → d (It 0 bs) = inr (x, It (zlen bs) []).
Proof.
  intros Hr Hlen. rewrite <- (app_nil_r bs) at 1. apply (Hr 0 []); [done|].
  change (zlen (@nil ascii)) with 0. lia.
Qed.

(** Reading the front of a buffer. *)
Lemma reads_front {A} (d : D A) bs rest x :
  reads d bs x → zlen bs + zlen rest < 2 ^ 32 → d (It 0 (bs ++ rest)) = inr (x, It (zlen bs) rest).
Proof. intros Hr Hlen. by apply (Hr 0 rest). Qed.

(** A whole-buffer round trip from the codec's contract. *)
Lemma codec_roundtrip {A} (c : codec A) `{!CodecOk c} x x0 :
  wf c x → zlen (enc c x []) < 2 ^ 32 →
  dec c x0 (It 0 (enc c x [])) = inr (x, It (zlen (enc c x [])) []).
Proof. intros Hx. by apply reads_whole, dec_reads. Qed.

(** Bytes that follow an encoded value are left for the next decoder: two
    values written one after the other are read back one after the other. *)
Lemma codec_roundtrip_seq {A B} (c : codec A) (c' : codec B) `{!CodecOk c, !CodecOk c'} x y x0 y0 :
  wf c x → wf c' y → zlen (enc c' y (enc c x [])) < 2 ^ 32 →
  (a ← dec c x0; b ← dec c' y0; mret (a, b)) (It 0 (enc c' y (enc c x []))) =
    inr ((x, y), It (zlen (enc c' y (enc c x []))) []).
Proof.
  intros Hx Hy. apply reads_whole.
  rewrite (enc_appends (c := c')). eapply reads_bind; [by apply dec_reads|].
  rewrite <- (app_nil_r (enc c' y [])).
  eapply reads_bind; [by apply dec_reads|apply reads_ret].
Qed.

(** The contract of a record codec: unfold the method bodies and walk. *)
Ltac destruct_wf H :=
  repeat match type of H with _ ∧ _ => let H1 := fresh "Hwf" in destruct H as [H1 H] end.

Ltac version_cbn :=
  cbn [Z.geb Z.gtb Z.leb Z.ltb Z.eqb Z.compare Pos.compare Pos.compare_cont Pos.eqb].

Ltac codec_solve encoder decoder wfp :=
  split; cbn [enc dec wf];
  [ intros x; change (appends (encoder x)); unfold encoder; appends_solve
  | intros x x0 Hwf; change (reads (decoder x0) (encoder x []) x);
    change (wfp x) in Hwf; unfold wfp in Hwf; destruct_wf Hwf;
    unfold encoder, decoder; rewrite ENCODE_block by appends_solve;
    first [ apply reads_DECODE; [lia|lia|]
          | rewrite <- (app_nil_r (_ [])); apply reads_DECODE_LEGACY_newer; [lia|lia|lia|lia|lia|]
          | rewrite <- (app_nil_r (_ [])); apply reads_DECODE_LEGACY_32_newer; [lia|lia|lia|lia|lia|] ];
    version_cbn; reads_solve ].

(** The same for [CodecInto]. *)
Ltac into_solve encoder decoder wfp into :=
  split; cbn [enc dec wf];
  [ intros x; change (appends (encoder x)); unfold encoder; appends_solve
  | intros x x0 Hwf; change (reads (decoder x0) (encoder x []) (into x x0));
    change (wfp x) in Hwf; unfold wfp in Hwf; destruct_wf Hwf;
    unfold encoder, decoder; rewrite ENCODE_block by appends_solve;
    first [ apply reads_DECODE; [lia|lia|]
          | rewrite <- (app_nil_r (_ [])); apply reads_DECODE_LEGACY_newer; [lia|lia|lia|lia|lia|]
          | rewrite <- (app_nil_r (_ [])); apply reads_DECODE_LEGACY_32_newer; [lia|lia|lia|lia|lia|] ];
    version_cbn; reads_solve ].

(** Well-formedness of a closed value, by evaluation. *)
Ltac wf_closed :=
  hnf;
  lazymatch goal with
  | |- True => exact I
  | |- _ ∧ _ => split; wf_closed
  | |- Forall _ _ => constructor; wf_closed
  | |- _ = _ => vm_compute; reflexivity
  | |- _ → _ => let H := fresh in intros H; vm_compute in H; discriminate H
  end.

(** ** Theorems *)

Lemma bind_reads {A B} (d : D A) (k : A → D B) bs x off rest :
  reads d bs x → 0 <= off → off + zlen bs + zlen rest < 2 ^ 32 →
  (d ≫= k) (It off (bs ++ rest)) = k x (It (off + zlen bs) rest).
Proof. intros Hr Hoff Hlen. unfold mbind, D_bind. by rewrite Hr. Qed.

Lemma bind_raw {B} n z (k : Z → D B) off rest :
  0 <= z < 2 ^ (8 * Z.of_nat n) → 0 <= off → off + Z.of_nat n + zlen rest < 2 ^ 32 →
  (decode_raw n ≫= k) (It off (le_bytes n z ++ rest)) = k z (It (off + Z.of_nat n) rest).
Proof.
  intros Hz Hoff Hlen. pose proof (zlen_le_bytes n z) as Hn.
  rewrite (bind_reads _ _ _ z); [by rewrite Hn|by apply reads_raw_small|done|by rewrite Hn].
Qed.

(** A version guard's promise to old readers: a decoder of version [v] reads
    a block written by any version [v'] that is marked compatible, ignores the
    [extra] bytes that version appended, and stops exactly at the block's end. *)
Lemma block_forward_compatible {A} v v' compat (body : Z → D A) bs extra x off rest :
  0 <= v' < 256 → 0 <= compat <= v → compat < 256 →
  reads (body v') bs x →
  0 <= off → off + zlen (block v' compat (bs ++ extra)) + zlen rest < 2 ^ 32 →
  DECODE v body (It off (block v' compat (bs ++ extra) ++ rest)) =
    inr (x, It (off + zlen (block v' compat (bs ++ extra))) rest).
Proof. intros ????. by apply reads_DECODE_newer; [|lia|lia|]. Qed.

Lemma block_forward_compatible_witness :
  DECODE 1 (λ _, dec u8_c 0) (It 0 (block 2 1 (le_bytes 1 7 ++ "new field") ++ "!")) =
    inr (7, It (0 + zlen (block 2 1 (le_bytes 1 7 ++ "new field"))) "!").
Proof.
  apply (block_forward_compatible 1 2 1 (λ _, dec u8_c 0) (le_bytes 1 7) "new field" 7 0 "!");
    [lia|lia|lia|by apply reads_raw_small|lia|vm_compute; reflexivity].
Defined.

(** The error paths of a version guard: an incompatible writer, a length
    longer than the buffer, and a body that runs past the end of its block are
    [malformed_input]; nothing is returned in these cases. *)
Lemma decode_block_errors {A} v v' compat len (body : Z → D A) off rest :
  0 <= v' < 256 → 0 <= compat < 256 → 0 <= len < 2 ^ 32 →
  0 <= off → off + 6 + zlen rest < 2 ^ 32 →
  let it := It off (le_bytes 1 v' ++ le_bytes 1 compat ++ le_bytes 4 len ++ rest) in
  (v < compat → DECODE v body it = inl malformed_input) ∧
  (compat <= v → zlen rest < len → DECODE v body it = inl malformed_input) ∧
  (∀ x it', compat <= v → len <= zlen rest →
     body v' (It (off + 6) rest) = inr (x, it') → off + 6 + len < it_off it' →
     DECODE v body it = inl malformed_input).
Proof.
  intros Hv Hc Hl Hoff Hlen it. unfold DECODE, it.
  assert (Hlens : ∀ z, zlen (le_bytes 1 compat ++ le_bytes 4 z ++ rest) = 5 + zlen rest)
    by (intros; rewrite !zlen_app, !zlen_le_bytes; lia).
  rewrite bind_raw by (rewrite ?Hlens; lia).
  rewrite bind_raw by (rewrite ?zlen_app, ?zlen_le_bytes; lia).
  assert (Hend : ∀ k : Z → D A, (decode_struct_end ≫= k)
     (It (off + Z.of_nat 1 + Z.of_nat 1) (le_bytes 4 len ++ rest)) =
     if len >? zlen rest then inl malformed_input
     else k (u32 (off + 6 + len)) (It (off + 6) rest)).
  { intros k. unfold decode_struct_end at 1, mbind at 1, D_bind at 1.
    rewrite bind_raw by lia. unfold mbind, D_bind, get_remaining. cbn [it_rest].
    destruct (len >? zlen rest); [done|]. unfold get_off, mret, D_ret. cbn [it_off].
    replace (off + Z.of_nat 1 + Z.of_nat 1 + Z.of_nat 4) with (off + 6) by lia. done. }
  split; [|split].
  - intros H. by rewrite (proj2 (Z.ltb_lt _ _)).
  - intros H Hlong. rewrite (proj2 (Z.ltb_ge _ _)), Hend by done.
    by rewrite Z.gtb_ltb, (proj2 (Z.ltb_lt _ _)).
  - intros x it' H Hshort Hbody Hpast.
    rewrite (proj2 (Z.ltb_ge _ _)), Hend by done.
    rewrite Z.gtb_ltb, (proj2 (Z.ltb_ge _ _)) by done.
    unfold mbind at 1, D_bind. rewrite Hbody. unfold u32. rewrite Z.mod_small by lia.
    unfold DECODE_FINISH. rewrite (proj2 (Z.eqb_neq _ _)) by lia.
    unfold mbind, D_bind, get_off, mret, D_ret.
    by rewrite Z.gtb_ltb, (proj2 (Z.ltb_lt _ _)) by lia.
Qed.

Lemma decode_block_errors_witness :
  let it := It 0 (le_bytes 1 3 ++ le_bytes 1 2 ++ le_bytes 4 1 ++ "abcdef") in
  (1 < 2 → DECODE 1 (λ _, dec u32_c 0) it = inl malformed_input) ∧
  (2 <= 1 → zlen "abcdef" < 1 → DECODE 1 (λ _, dec u32_c 0) it = inl malformed_input) ∧
  (∀ x it', 2 <= 1 → 1 <= zlen "abcdef" →
     dec u32_c 0 (It (0 + 6) "abcdef") = inr (x, it') → 0 + 6 + 1 < it_off it' →
     DECODE 1 (λ _, dec u32_c 0) it = inl malformed_input).
Proof.
  apply (decode_block_errors 1 3 2 1 (λ _, dec u32_c 0) 0 "abcdef"); try lia.
  vm_compute. reflexivity.
Defined.

(** Back-patching is sound: writing a zero count or length, then the
    contents, then overwriting it gives the bytes of a writer that knew it in
    advance, wherever in the buffer the value is encoded. *)
Lemma back_patching_equivalence {A} v compat (body : E) (c : codec A) `{!CodecOk c} ls bl :
  appends body →
  ENCODE v compat body bl = bl ++ block v compat (body []) ∧
  encode_list c ls bl = bl ++ le_bytes 4 (u32 (zlen ls)) ++ encode_all (enc c) ls [].
Proof.
  intros Hb. split; [by apply ENCODE_direct|].
  apply encode_list_direct. apply enc_appends.
Qed.

Lemma back_patching_equivalence_witness :
  ENCODE 2 1 (enc u16_c 258) "hdr" = "hdr" ++ block 2 1 (enc u16_c 258 []) ∧
  encode_list u8_c [7; 8] "hdr" = "hdr" ++ le_bytes 4 (u32 (zlen [7; 8])) ++ encode_all (enc u8_c) [7; 8] [].
Proof. apply (back_patching_equivalence 2 1 (enc u16_c 258) u8_c [7; 8] "hdr"). done. Defined.

(** ** Decoders that throw *)

(** [d] throws [e] on a buffer that ends with [bs]. *)
Definition fails {A} (d : D A) (bs : bytes) (e : buffer_error) : Prop :=
  ∀ off, 0 <= off → off + zlen bs < 2 ^ 32 → d (It off bs) = inl e.

Lemma fails_bind {A B} (d : D A) (k : A → D B) bs1 bs2 x e :
  reads d bs1 x → fails (k x) bs2 e → fails (d ≫= k) (bs1 ++ bs2) e.
Proof.
  intros Hr Hf off Hoff Hlen. rewrite zlen_app in Hlen.
  pose proof (zlen_nonneg bs1). pose proof (zlen_nonneg bs2).
  rewrite (bind_reads _ _ _ x) by (done || lia). apply Hf; lia.
Qed.

Lemma fails_bind_l {A B} (d : D A) (k : A → D B) bs e : fails d bs e → fails (d ≫= k) bs e.
Proof. intros Hf off Hoff Hlen. unfold mbind, D_bind. by rewrite Hf. Qed.

Lemma fails_bind_assoc {A B C} (d : D A) (j : A → D B) (k : B → D C) bs e :
  fails (d ≫= λ a, j a ≫= k) bs e → fails ((d ≫= j) ≫= k) bs e.
Proof.
  intros Hf off Hoff Hlen. rewrite <- (Hf off Hoff Hlen).
  unfold mbind, D_bind. by destruct (d _) as [|[? ?]].
Qed.

Lemma fails_ret_bind {A B} (x : A) (k : A → D B) bs e :
  fails (k x) bs e → fails (mret x ≫= k) bs e.
Proof. done. Qed.

Lemma fails_raw_nil n : n ≠ O → fails (decode_raw n) [] end_of_buffer.
Proof. intros Hn off _ _. destruct n; [done|]. reflexivity. Qed.

Lemma reads_struct_end_fails {A} (k : Z → D A) bs e :
  (∀ se, fails (k se) bs e) →
  fails (decode_struct_end ≫= k) (le_bytes 4 (u32 (zlen bs)) ++ bs) e.
Proof.
  intros Hk off Hoff Hlen. rewrite zlen_app, zlen_le_bytes in Hlen.
  pose proof (zlen_nonneg bs).
  assert (Hu : u32 (zlen bs) = zlen bs) by (unfold u32; rewrite Z.mod_small; lia).
  rewrite Hu. unfold decode_struct_end, mbind at 1, D_bind at 1.
  rewrite bind_raw by lia. unfold mbind, D_bind, get_remaining. cbn [it_rest].
  rewrite Z.gtb_ltb, Z.ltb_irrefl. unfold get_off, mret, D_ret. apply Hk; lia.
Qed.

Lemma fails_DECODE_LEGACY {A} v compatv lenv v' compat (body : Z → D A) bs e :
  0 <= v' < 256 → 0 <= compat < 256 → compat <= v → compatv <= v' → lenv <= v' →
  fails (body v') bs e →
  fails (DECODE_LEGACY v compatv lenv body) (block v' compat bs) e.
Proof.
  intros Hv' Hc Hle Hcv Hlv Hb. unfold DECODE_LEGACY, DECODE_LEGACY_SKIP, block.
  eapply fails_bind; [apply reads_raw_small; lia|].
  rewrite !Z.geb_leb, !(proj2 (Z.leb_le _ v')) by lia.
  eapply fails_bind with (x := tt).
  - rewrite <- (app_nil_r (le_bytes 1 compat)). apply reads_bind_raw; [lia|].
    rewrite (proj2 (Z.ltb_ge _ _)) by lia. apply reads_ret.
  - apply reads_struct_end_fails. intros se. by apply fails_bind_l.
Qed.

(** Walk to the point where a decoder throws. *)
Ltac fails_step :=
  lazymatch goal with
  | |- fails (mbind _ (mret _)) _ _ => apply fails_ret_bind
  | |- fails (mbind _ (mbind _ _)) _ _ => apply fails_bind_assoc
  | |- fails (mbind _ _) ((_ >>> _) []) _ => rewrite eseq_nil by appends_solve
  | |- fails (mbind _ _) (enc _ _ [] ++ _) _ =>
      eapply fails_bind; [apply dec_reads; solve [eauto]|]
  | |- fails (mbind _ _) (enc _ ?x []) _ =>
      rewrite <- (app_nil_r (enc _ x [])); eapply fails_bind; [apply dec_reads; solve [eauto]|]
  end; cbn beta.
