(* ===== verification/Utime.v ===== *)
(** * Timestamps ([src/src/include/utime.h])

    [utime_t] holds two [__u32]; its arithmetic runs in [time_t]/[long] and is
    stored back modulo 2^32.  The theorems relate it to the time in
    nanoseconds, [to_nsec]. *)

From S2P Require Import Prelude Encoding.

Record utime_t := Utime { tv_sec : Z; tv_nsec : Z }.

#[export] Instance utime_t_eq_dec : EqDecision utime_t.
Proof. solve_decision. Defined.

Definition BILLION : Z := 1000000000.

Definition utime_zero : utime_t := Utime 0 0.
Definition is_zero (t : utime_t) : bool := (tv_sec t =? 0) && (tv_nsec t =? 0).

(** [normalize]: the carry is only taken when [tv_nsec] is above 10^9. *)
Definition normalize (t : utime_t) : utime_t :=
  if tv_nsec t >? BILLION
  then Utime (u32 (tv_sec t + tv_nsec t / BILLION)) (tv_nsec t mod BILLION)
  else t.

(** [utime_t(time_t s, int n)] *)
Definition mk_utime (s n : Z) : utime_t := normalize (Utime (u32 s) (u32 n)).

Definition usec (t : utime_t) : Z := tv_nsec t / 1000.
Definition to_nsec (t : utime_t) : Z := u64 (tv_nsec t + u64 (tv_sec t * BILLION)).
Definition to_msec (t : utime_t) : Z := u64 (tv_nsec t / 1000000 + u64 (tv_sec t * 1000)).

(** [set_from_timeval] *)
Definition set_from_timeval (sec us : Z) : utime_t := Utime (u32 sec) (u32 (us * 1000)).

Definition utime_add (l r : utime_t) : utime_t :=
  mk_utime (tv_sec l + tv_sec r + Z.quot (tv_nsec l + tv_nsec r) BILLION)
           (Z.rem (tv_nsec l + tv_nsec r) BILLION).

(** [operator+=] *)
Definition utime_add_assign (l r : utime_t) : utime_t :=
  Utime (u32 (tv_sec l + (tv_sec r + Z.quot (tv_nsec l + tv_nsec r) BILLION)))
        (u32 (tv_nsec l + tv_nsec r) mod BILLION).

Definition utime_sub (l r : utime_t) : utime_t :=
  mk_utime (tv_sec l - tv_sec r - (if tv_nsec l <? tv_nsec r then 1 else 0))
           (tv_nsec l - tv_nsec r + (if tv_nsec l <? tv_nsec r then BILLION else 0)).

(** [operator-=] *)
Definition utime_sub_assign (l r : utime_t) : utime_t :=
  let sec := u32 (tv_sec l - tv_sec r) in
  if tv_nsec l >=? tv_nsec r then Utime sec (u32 (tv_nsec l - tv_nsec r))
  else Utime (u32 (sec - 1)) (u32 (tv_nsec l + (BILLION - tv_nsec r))).

Definition utime_gt (a b : utime_t) : bool :=
  (tv_sec a >? tv_sec b) || ((tv_sec a =? tv_sec b) && (tv_nsec a >? tv_nsec b)).
Definition utime_le (a b : utime_t) : bool := negb (utime_gt a b).
Definition utime_lt (a b : utime_t) : bool :=
  (tv_sec a <? tv_sec b) || ((tv_sec a =? tv_sec b) && (tv_nsec a <? tv_nsec b)).
Definition utime_ge (a b : utime_t) : bool := negb (utime_lt a b).
Definition utime_eq (a b : utime_t) : bool :=
  (tv_sec a =? tv_sec b) && (tv_nsec a =? tv_nsec b).

(** [encode] and [decode] *)
Definition encode_utime_t (t : utime_t) : E := enc u32_c (tv_sec t) >>> enc u32_c (tv_nsec t).
Definition decode_utime_t (t0 : utime_t) : D utime_t :=
  s ← dec u32_c (tv_sec t0); n ← dec u32_c (tv_nsec t0); mret (Utime s n).
Definition utime_c : codec utime_t :=
  Codec encode_utime_t decode_utime_t (λ t, wf u32_c (tv_sec t) ∧ wf u32_c (tv_nsec t)).

(** A normalized time: both words in range, the nanoseconds below 10^9. *)
Definition normal (t : utime_t) : Prop :=
  0 <= tv_sec t < 2 ^ 32 ∧ 0 <= tv_nsec t < BILLION.

(** The time in nanoseconds without the machine width. *)
Definition nanos (t : utime_t) : Z := tv_sec t * BILLION + tv_nsec t.

(** ** Lemmas *)

#[export] Instance utime_ok : CodecOk utime_c.
Proof.
  split; cbn [enc dec utime_c].
  - intros t. unfold encode_utime_t. appends_solve.
  - intros [s n] t0 [Hs Hn]. unfold encode_utime_t, decode_utime_t. cbn in Hs, Hn.
    reads_solve.
Qed.

Lemma u32_small z : 0 <= z < 2 ^ 32 → u32 z = z.
Proof. apply Z.mod_small. Qed.

Lemma to_nsec_nanos t : normal t → to_nsec t = nanos t.
Proof.
  intros [Hs Hn]. unfold to_nsec, nanos, u64, BILLION in *.
  rewrite (Z.mod_small (tv_sec t * _)) by lia. rewrite Z.mod_small; lia.
Qed.

Lemma nanos_inj a b : normal a → normal b → nanos a = nanos b → a = b.
Proof.
  destruct a as [s n], b as [s' n']. unfold normal, nanos, BILLION. cbn.
  intros [? ?] [? ?] HE. f_equal; lia.
Qed.

Lemma mk_utime_small s n : 0 <= s < 2 ^ 32 → 0 <= n < BILLION → mk_utime s n = Utime s n.
Proof.
  intros Hs Hn. unfold mk_utime, BILLION in *. rewrite !u32_small by lia.
  unfold normalize, BILLION. cbn [tv_nsec tv_sec].
  rewrite Z.gtb_ltb, (proj2 (Z.ltb_ge _ _)) by lia. done.
Qed.

Lemma quot_rem_billion n :
  0 <= n → Z.quot n BILLION = n / BILLION ∧ Z.rem n BILLION = n mod BILLION.
Proof. intros Hn. unfold BILLION. by rewrite Z.quot_div_nonneg, Z.rem_mod_nonneg by lia. Qed.

Lemma utime_add_normal l r :
  normal l → normal r → nanos l + nanos r < 2 ^ 32 * BILLION →
  normal (utime_add l r) ∧ nanos (utime_add l r) = nanos l + nanos r.
Proof.
  intros [Hls Hln] [Hrs Hrn] Hov. unfold utime_add.
  destruct (quot_rem_billion (tv_nsec l + tv_nsec r)) as [-> ->]; [lia|].
  pose proof (Z.div_mod (tv_nsec l + tv_nsec r) BILLION ltac:(done)).
  pose proof (Z.mod_pos_bound (tv_nsec l + tv_nsec r) BILLION eq_refl).
  unfold nanos, BILLION in *.
  rewrite mk_utime_small by (unfold BILLION; lia).
  unfold normal, nanos, BILLION. cbn [tv_sec tv_nsec]. lia.
Qed.

Lemma utime_sub_normal l r :
  normal l → normal r → nanos r <= nanos l →
  normal (utime_sub l r) ∧ nanos (utime_sub l r) = nanos l - nanos r.
Proof.
  intros [Hls Hln] [Hrs Hrn] Hle. unfold utime_sub, nanos, BILLION in *.
  destruct (Z.ltb_spec (tv_nsec l) (tv_nsec r));
    (rewrite mk_utime_small by (unfold BILLION; lia));
    unfold normal, nanos, BILLION; cbn [tv_sec tv_nsec]; lia.
Qed.

Lemma utime_lt_nanos a b :
  normal a → normal b → utime_lt a b = (nanos a <? nanos b).
Proof.
  intros [Has Han] [Hbs Hbn]. unfold utime_lt, nanos, BILLION in *.
  destruct (Z.ltb_spec (tv_sec a) (tv_sec b)), (Z.eqb_spec (tv_sec a) (tv_sec b)),
    (Z.ltb_spec (tv_nsec a) (tv_nsec b));
    cbn; symmetry; (apply Z.ltb_lt || apply Z.ltb_ge); lia.
Qed.

(** ** Theorems *)

(** Addition and subtraction of normalized timestamps are exact on the
    nanosecond line as long as the seconds do not leave 32 bits, they stay
    normalized, and subtraction undoes addition. *)
Lemma utime_add_sub_exact l r :
  normal l → normal r → nanos l + nanos r < 2 ^ 32 * BILLION →
  to_nsec (utime_add l r) = to_nsec l + to_nsec r ∧
  normal (utime_add l r) ∧
  utime_sub (utime_add l r) r = l.
Proof.
  intros Hl Hr Hov. destruct (utime_add_normal l r Hl Hr Hov) as [Hn Ha].
  rewrite !to_nsec_nanos by done. split; [done|]. split; [done|].
  assert (nanos r <= nanos (utime_add l r))
    by (rewrite Ha; destruct Hl; unfold nanos, BILLION in *; lia).
  destruct (utime_sub_normal _ _ Hn Hr) as [Hn' Hs]; [done|].
  apply nanos_inj; [done|done|]. rewrite Hs, Ha. lia.
Qed.

Lemma utime_add_sub_exact_witness :
  to_nsec (utime_add (Utime 1 999999999) (Utime 2 1)) = 4000000000 ∧
  normal (utime_add (Utime 1 999999999) (Utime 2 1)) ∧
  utime_sub (utime_add (Utime 1 999999999) (Utime 2 1)) (Utime 2 1) = Utime 1 999999999.
Proof.
  apply (utime_add_sub_exact (Utime 1 999999999) (Utime 2 1));
    unfold normal, nanos, BILLION; cbn; lia.
Defined.

(** On normalized timestamps the six comparison operators are the order of
    the nanosecond line. *)
Lemma utime_compare_nsec a b :
  normal a → normal b →
  utime_lt a b = (to_nsec a <? to_nsec b) ∧
  utime_gt a b = (to_nsec b <? to_nsec a) ∧
  utime_le a b = (to_nsec a <=? to_nsec b) ∧
  utime_ge a b = (to_nsec b <=? to_nsec a) ∧
  utime_eq a b = (to_nsec a =? to_nsec b).
Proof.
  intros Ha Hb. rewrite !to_nsec_nanos by done.
  assert (Hgt : utime_gt a b = utime_lt b a)
    by (unfold utime_gt, utime_lt; by rewrite !Z.gtb_ltb, Z.eqb_sym).
  unfold utime_le, utime_ge. rewrite Hgt, !utime_lt_nanos, !Z.leb_antisym by done.
  repeat split. unfold utime_eq.
  destruct (Z.eqb_spec (nanos a) (nanos b)) as [E|E].
  - apply nanos_inj in E as ->; [|done|done]. by rewrite !Z.eqb_refl.
  - destruct (Z.eqb_spec (tv_sec a) (tv_sec b)), (Z.eqb_spec (tv_nsec a) (tv_nsec b));
      try done. exfalso. apply E. unfold nanos. congruence.
Qed.

Lemma utime_compare_nsec_witness :
  utime_lt (Utime 1 5) (Utime 2 0) = (to_nsec (Utime 1 5) <? to_nsec (Utime 2 0)) ∧
  utime_gt (Utime 1 5) (Utime 2 0) = (to_nsec (Utime 2 0) <? to_nsec (Utime 1 5)) ∧
  utime_le (Utime 1 5) (Utime 2 0) = (to_nsec (Utime 1 5) <=? to_nsec (Utime 2 0)) ∧
  utime_ge (Utime 1 5) (Utime 2 0) = (to_nsec (Utime 2 0) <=? to_nsec (Utime 1 5)) ∧
  utime_eq (Utime 1 5) (Utime 2 0) = (to_nsec (Utime 1 5) =? to_nsec (Utime 2 0)).
Proof. apply (utime_compare_nsec (Utime 1 5) (Utime 2 0)); unfold normal, BILLION; cbn; lia. Defined.

(** [normalize] leaves exactly one out-of-range value behind: the
    constructor yields a normalized time except when it is given 10^9
    nanoseconds, which the strict comparison keeps, and the result then
    differs from the equal time one second later. *)
Lemma mk_utime_normal_iff s n :
  0 <= s < 2 ^ 31 → 0 <= n < 2 ^ 31 →
  (normal (mk_utime s n) ↔ n ≠ BILLION) ∧
  nanos (mk_utime s n) = s * BILLION + n ∧
  utime_eq (mk_utime s BILLION) (mk_utime (s + 1) 0) = false.
Proof.
  intros Hs Hn. unfold mk_utime. rewrite !u32_small by (unfold BILLION; lia).
  unfold normalize, BILLION. cbn [tv_sec tv_nsec].
  pose proof (Z.div_mod n 1000000000 ltac:(done)).
  pose proof (Z.mod_pos_bound n 1000000000 eq_refl).
  split; [|split].
  - destruct (Z.gtb_spec n 1000000000); unfold normal, BILLION; cbn [tv_sec tv_nsec].
    + rewrite u32_small by lia. lia.
    + lia.
  - destruct (Z.gtb_spec n 1000000000); unfold nanos, BILLION; cbn [tv_sec tv_nsec].
    + rewrite u32_small by lia. lia.
    + lia.
  - cbn. unfold utime_eq. cbn [tv_sec tv_nsec]. by rewrite andb_false_r.
Qed.

Lemma mk_utime_normal_iff_witness :
  (normal (mk_utime 7 BILLION) ↔ BILLION ≠ BILLION) ∧
  nanos (mk_utime 7 BILLION) = 7 * BILLION + BILLION ∧
  utime_eq (mk_utime 7 BILLION) (mk_utime (7 + 1) 0) = false.
Proof. apply (mk_utime_normal_iff 7 BILLION); unfold BILLION; lia. Defined.
