(* ===== verification/ClsRgwTypes.v ===== *)
(** * The bucket index's data types ([src/src/cls/rgw/cls_rgw_types.h])

    Every structure that crosses the wire between the gateway and the bucket
    index, with its [encode] and [decode] methods statement by statement
    (decoding goes into an existing object: what an older version does not
    carry keeps its value), the packed integers, the flag predicates of index
    entries and the accumulation of usage.  Enumerations are the integers they
    are cast from and to. *)

From S2P Require Import Prelude StdMap Encoding Utime.

(** ** Enumerations and flags *)

Definition CLS_RGW_STATE_PENDING_MODIFY : Z := 0.
Definition CLS_RGW_STATE_COMPLETE : Z := 1.

Definition CLS_RGW_OP_ADD : Z := 0.
Definition CLS_RGW_OP_DEL : Z := 1.
Definition CLS_RGW_OP_CANCEL : Z := 2.
Definition CLS_RGW_OP_UNKNOWN : Z := 3.
Definition CLS_RGW_OP_LINK_OLH : Z := 4.
Definition CLS_RGW_OP_LINK_OLH_DM : Z := 5.
Definition CLS_RGW_OP_UNLINK_INSTANCE : Z := 6.

Definition RGW_BUCKET_DIRENT_FLAG_VER : Z := 1.
Definition RGW_BUCKET_DIRENT_FLAG_CURRENT : Z := 2.
Definition RGW_BUCKET_DIRENT_FLAG_DELETE_MARKER : Z := 4.
Definition RGW_BUCKET_DIRENT_FLAG_VER_MARKER : Z := 8.

(** ** Packed integers *)

Definition encode_packed_val (val : Z) : E :=
  let v := u64 val in
  if v <? 128 then encode_raw 1 v
  else if v <? 256 then encode_raw 1 (Z.lor 128 1) >>> encode_raw 1 v
  else if v <=? 65536 then encode_raw 1 (Z.lor 128 2) >>> encode_raw 2 v
  else if v <=? 16777216 then encode_raw 1 (Z.lor 128 4) >>> encode_raw 4 v
  else encode_raw 1 (Z.lor 128 8) >>> encode_raw 8 v.

(** The value before its conversion to the integer type decoded into. *)
Definition decode_packed_val : D Z :=
  c ← decode_raw 1;
  if c <? 128 then mret c
  else
    let c := Z.land c (Z.lnot 128) in
    if c =? 1 then decode_raw 1
    else if c =? 2 then decode_raw 2
    else if c =? 4 then decode_raw 4
    else if c =? 8 then decode_raw 8
    else throw generic_error.

(** [encode_packed_val]/[decode_packed_val] at [uint64_t] and [int64_t]; the
    value 0x10000 is excluded (see [packed_roundtrip_iff]). *)
Definition packed_u64_c : codec Z :=
  Codec encode_packed_val (λ _, decode_packed_val)
        (λ z, 0 <= z < 2 ^ 64 ∧ z ≠ 65536).
Definition packed_s64_c : codec Z :=
  Codec encode_packed_val (λ _, v ← decode_packed_val; mret (s64 v))
        (λ z, - 2 ^ 63 <= z < 2 ^ 63 ∧ z ≠ 65536).

(** ** Records *)

(** [rgw_bucket_pending_info]: an index operation in progress *)
Record rgw_bucket_pending_info := Mk_rgw_bucket_pending_info {
  pi_state : Z;
  pi_timestamp : utime_t;
  pi_op : Z
}.
Definition rgw_bucket_pending_info_new : rgw_bucket_pending_info := Mk_rgw_bucket_pending_info 0 utime_zero 0.
Definition encode_rgw_bucket_pending_info (x : rgw_bucket_pending_info) : E :=
  ENCODE 2 2
    (enc u8_c (pi_state x) >>>
     enc utime_c (pi_timestamp x) >>>
     enc u8_c (pi_op x)).
Definition decode_rgw_bucket_pending_info (x0 : rgw_bucket_pending_info) : D rgw_bucket_pending_info :=
  DECODE_LEGACY 2 2 2 (λ struct_v,
    v_state ← dec u8_c (pi_state x0);
    v_timestamp ← dec utime_c (pi_timestamp x0);
    v_op ← dec u8_c (pi_op x0);
    mret (Mk_rgw_bucket_pending_info v_state v_timestamp v_op)).
Definition wf_rgw_bucket_pending_info (x : rgw_bucket_pending_info) : Prop :=
  wf u8_c (pi_state x) ∧
  wf utime_c (pi_timestamp x) ∧
  wf u8_c (pi_op x).
Definition rgw_bucket_pending_info_c : codec rgw_bucket_pending_info :=
  Codec encode_rgw_bucket_pending_info decode_rgw_bucket_pending_info wf_rgw_bucket_pending_info.

(** [rgw_bucket_dir_entry_meta]: what the index keeps of an object *)
Record rgw_bucket_dir_entry_meta := Mk_rgw_bucket_dir_entry_meta {
  dm_category : Z;
  dm_size : Z;
  dm_mtime : utime_t;
  dm_etag : str;
  dm_owner : str;
  dm_owner_display_name : str;
  dm_content_type : str;
  dm_accounted_size : Z
}.
Definition rgw_bucket_dir_entry_meta_new : rgw_bucket_dir_entry_meta := Mk_rgw_bucket_dir_entry_meta 0 0 utime_zero [] [] [] [] 0.
Definition encode_rgw_bucket_dir_entry_meta (x : rgw_bucket_dir_entry_meta) : E :=
  ENCODE 4 3
    (enc u8_c (dm_category x) >>>
     enc u64_c (dm_size x) >>>
     enc utime_c (dm_mtime x) >>>
     enc string_c (dm_etag x) >>>
     enc string_c (dm_owner x) >>>
     enc string_c (dm_owner_display_name x) >>>
     enc string_c (dm_content_type x) >>>
     enc u64_c (dm_accounted_size x)).
Definition decode_rgw_bucket_dir_entry_meta (x0 : rgw_bucket_dir_entry_meta) : D rgw_bucket_dir_entry_meta :=
  DECODE_LEGACY 4 3 3 (λ struct_v,
    v_category ← dec u8_c (dm_category x0);
    v_size ← dec u64_c (dm_size x0);
    v_mtime ← dec utime_c (dm_mtime x0);
    v_etag ← dec string_c (dm_etag x0);
    v_owner ← dec string_c (dm_owner x0);
    v_owner_display_name ← dec string_c (dm_owner_display_name x0);
    v_content_type ← (if struct_v >=? 2 then dec string_c (dm_content_type x0) else mret (dm_content_type x0));
    v_accounted_size ← (if struct_v >=? 4 then dec u64_c (dm_accounted_size x0) else mret v_size);
    mret (Mk_rgw_bucket_dir_entry_meta v_category v_size v_mtime v_etag v_owner v_owner_display_name v_content_type v_accounted_size)).
Definition wf_rgw_bucket_dir_entry_meta (x : rgw_bucket_dir_entry_meta) : Prop :=
  wf u8_c (dm_category x) ∧
  wf u64_c (dm_size x) ∧
  wf utime_c (dm_mtime x) ∧
  wf string_c (dm_etag x) ∧
  wf string_c (dm_owner x) ∧
  wf string_c (dm_owner_display_name x) ∧
  wf string_c (dm_content_type x) ∧
  wf u64_c (dm_accounted_size x).
Definition rgw_bucket_dir_entry_meta_c : codec rgw_bucket_dir_entry_meta :=
  Codec encode_rgw_bucket_dir_entry_meta decode_rgw_bucket_dir_entry_meta wf_rgw_bucket_dir_entry_meta.

(** [rgw_bucket_entry_ver]: packed integers *)
Record rgw_bucket_entry_ver := Mk_rgw_bucket_entry_ver {
  ev_pool : Z;
  ev_epoch : Z
}.
Definition rgw_bucket_entry_ver_new : rgw_bucket_entry_ver := Mk_rgw_bucket_entry_ver (-1) 0.
Definition encode_rgw_bucket_entry_ver (x : rgw_bucket_entry_ver) : E :=
  ENCODE 1 1
    (enc packed_s64_c (ev_pool x) >>>
     enc packed_u64_c (ev_epoch x)).
Definition decode_rgw_bucket_entry_ver (x0 : rgw_bucket_entry_ver) : D rgw_bucket_entry_ver :=
  DECODE 1 (λ struct_v,
    v_pool ← dec packed_s64_c (ev_pool x0);
    v_epoch ← dec packed_u64_c (ev_epoch x0);
    mret (Mk_rgw_bucket_entry_ver v_pool v_epoch)).
Definition wf_rgw_bucket_entry_ver (x : rgw_bucket_entry_ver) : Prop :=
  wf packed_s64_c (ev_pool x) ∧
  wf packed_u64_c (ev_epoch x).
Definition rgw_bucket_entry_ver_c : codec rgw_bucket_entry_ver :=
  Codec encode_rgw_bucket_entry_ver decode_rgw_bucket_entry_ver wf_rgw_bucket_entry_ver.

(** [cls_rgw_obj_key] *)
Record cls_rgw_obj_key := Mk_cls_rgw_obj_key {
  ok_name : str;
  ok_instance : str
}.
Definition cls_rgw_obj_key_new : cls_rgw_obj_key := Mk_cls_rgw_obj_key [] [].
Definition encode_cls_rgw_obj_key (x : cls_rgw_obj_key) : E :=
  ENCODE 1 1
    (enc string_c (ok_name x) >>>
     enc string_c (ok_instance x)).
Definition decode_cls_rgw_obj_key (x0 : cls_rgw_obj_key) : D cls_rgw_obj_key :=
  DECODE 1 (λ struct_v,
    v_name ← dec string_c (ok_name x0);
    v_instance ← dec string_c (ok_instance x0);
    mret (Mk_cls_rgw_obj_key v_name v_instance)).
Definition wf_cls_rgw_obj_key (x : cls_rgw_obj_key) : Prop :=
  wf string_c (ok_name x) ∧
  wf string_c (ok_instance x).
Definition cls_rgw_obj_key_c : codec cls_rgw_obj_key :=
  Codec encode_cls_rgw_obj_key decode_cls_rgw_obj_key wf_cls_rgw_obj_key.

(** [rgw_bucket_dir_entry]: an entry of the bucket index *)
Record rgw_bucket_dir_entry := Mk_rgw_bucket_dir_entry {
  de_key : cls_rgw_obj_key;
  de_ver : rgw_bucket_entry_ver;
  de_locator : str;
  de_exists : bool;
  de_meta : rgw_bucket_dir_entry_meta;
  de_pending_map : list (str * rgw_bucket_pending_info);
  de_index_ver : Z;
  de_tag : str;
  de_flags : Z;
  de_versioned_epoch : Z
}.
Definition rgw_bucket_dir_entry_new : rgw_bucket_dir_entry := Mk_rgw_bucket_dir_entry cls_rgw_obj_key_new rgw_bucket_entry_ver_new [] false rgw_bucket_dir_entry_meta_new [] 0 [] 0 0.
Definition encode_rgw_bucket_dir_entry (x : rgw_bucket_dir_entry) : E :=
  ENCODE 8 3
    (enc string_c (ok_name (de_key x)) >>>
     enc u64_c (ev_epoch (de_ver x)) >>>
     enc bool_c (de_exists x) >>>
     enc rgw_bucket_dir_entry_meta_c (de_meta x) >>>
     enc (multimap_c [] rgw_bucket_pending_info_new string_c rgw_bucket_pending_info_c) (de_pending_map x) >>>
     enc string_c (de_locator x) >>>
     enc rgw_bucket_entry_ver_c (de_ver x) >>>
     enc packed_u64_c (de_index_ver x) >>>
     enc string_c (de_tag x) >>>
     enc string_c (ok_instance (de_key x)) >>>
     enc u16_c (de_flags x) >>>
     enc u64_c (de_versioned_epoch x)).
Definition decode_rgw_bucket_dir_entry (x0 : rgw_bucket_dir_entry) : D rgw_bucket_dir_entry :=
  DECODE_LEGACY 6 3 3 (λ struct_v,
    v_key_name ← dec string_c (ok_name (de_key x0));
    v_ver_epoch ← dec u64_c (ev_epoch (de_ver x0));
    v_exists ← dec bool_c (de_exists x0);
    v_meta ← dec rgw_bucket_dir_entry_meta_c (de_meta x0);
    v_pending_map ← dec (multimap_c [] rgw_bucket_pending_info_new string_c rgw_bucket_pending_info_c) (de_pending_map x0);
    v_locator ← (if struct_v >=? 2 then dec string_c (de_locator x0) else mret (de_locator x0));
    v_ver ← (if struct_v >=? 4
             then dec rgw_bucket_entry_ver_c (Mk_rgw_bucket_entry_ver (ev_pool (de_ver x0)) v_ver_epoch)
             else mret (Mk_rgw_bucket_entry_ver (-1) v_ver_epoch));
    v_index_ver ← (if struct_v >=? 5 then dec packed_u64_c (de_index_ver x0) else mret (de_index_ver x0));
    v_tag ← (if struct_v >=? 5 then dec string_c (de_tag x0) else mret (de_tag x0));
    v_key_instance ← (if struct_v >=? 6 then dec string_c (ok_instance (de_key x0)) else mret (ok_instance (de_key x0)));
    v_flags ← (if struct_v >=? 7 then dec u16_c (de_flags x0) else mret (de_flags x0));
    v_versioned_epoch ← (if struct_v >=? 8 then dec u64_c (de_versioned_epoch x0) else mret (de_versioned_epoch x0));
    mret (Mk_rgw_bucket_dir_entry (Mk_cls_rgw_obj_key v_key_name v_key_instance) v_ver v_locator
           v_exists v_meta v_pending_map v_index_ver v_tag v_flags v_versioned_epoch)).
Definition wf_rgw_bucket_dir_entry (x : rgw_bucket_dir_entry) : Prop :=
  wf string_c (ok_name (de_key x)) ∧
  wf u64_c (ev_epoch (de_ver x)) ∧
  wf bool_c (de_exists x) ∧
  wf rgw_bucket_dir_entry_meta_c (de_meta x) ∧
  wf (multimap_c [] rgw_bucket_pending_info_new string_c rgw_bucket_pending_info_c) (de_pending_map x) ∧
  wf string_c (de_locator x) ∧
  wf rgw_bucket_entry_ver_c (de_ver x) ∧
  wf packed_u64_c (de_index_ver x) ∧
  wf string_c (de_tag x) ∧
  wf string_c (ok_instance (de_key x)) ∧
  wf u16_c (de_flags x) ∧
  wf u64_c (de_versioned_epoch x).
Definition rgw_bucket_dir_entry_c : codec rgw_bucket_dir_entry :=
  Codec encode_rgw_bucket_dir_entry decode_rgw_bucket_dir_entry wf_rgw_bucket_dir_entry.

(** [rgw_cls_bi_entry]: a raw index entry *)
Record rgw_cls_bi_entry := Mk_rgw_cls_bi_entry {
  bi_type : Z;
  bi_idx : str;
  bi_data : bytes
}.
Definition rgw_cls_bi_entry_new : rgw_cls_bi_entry := Mk_rgw_cls_bi_entry 0 [] [].
Definition encode_rgw_cls_bi_entry (x : rgw_cls_bi_entry) : E :=
  ENCODE 1 1
    (enc u8_c (bi_type x) >>>
     enc string_c (bi_idx x) >>>
     enc bufferlist_c (bi_data x)).
Definition decode_rgw_cls_bi_entry (x0 : rgw_cls_bi_entry) : D rgw_cls_bi_entry :=
  DECODE 1 (λ struct_v,
    v_type ← dec u8_c (bi_type x0);
    v_idx ← dec string_c (bi_idx x0);
    v_data ← dec bufferlist_c (bi_data x0);
    mret (Mk_rgw_cls_bi_entry v_type v_idx v_data)).
Definition wf_rgw_cls_bi_entry (x : rgw_cls_bi_entry) : Prop :=
  wf u8_c (bi_type x) ∧
  wf string_c (bi_idx x) ∧
  wf bufferlist_c (bi_data x).
Definition rgw_cls_bi_entry_c : codec rgw_cls_bi_entry :=
  Codec encode_rgw_cls_bi_entry decode_rgw_cls_bi_entry wf_rgw_cls_bi_entry.

(** [rgw_bucket_olh_log_entry]: an operation on an object's head *)
Record rgw_bucket_olh_log_entry := Mk_rgw_bucket_olh_log_entry {
  ol_epoch : Z;
  ol_op : Z;
  ol_op_tag : str;
  ol_key : cls_rgw_obj_key;
  ol_delete_marker : bool
}.
Definition rgw_bucket_olh_log_entry_new : rgw_bucket_olh_log_entry := Mk_rgw_bucket_olh_log_entry 0 0 [] cls_rgw_obj_key_new false.
Definition encode_rgw_bucket_olh_log_entry (x : rgw_bucket_olh_log_entry) : E :=
  ENCODE 1 1
    (enc u64_c (ol_epoch x) >>>
     enc u8_c (ol_op x) >>>
     enc string_c (ol_op_tag x) >>>
     enc cls_rgw_obj_key_c (ol_key x) >>>
     enc bool_c (ol_delete_marker x)).
Definition decode_rgw_bucket_olh_log_entry (x0 : rgw_bucket_olh_log_entry) : D rgw_bucket_olh_log_entry :=
  DECODE 1 (λ struct_v,
    v_epoch ← dec u64_c (ol_epoch x0);
    v_op ← dec u8_c (ol_op x0);
    v_op_tag ← dec string_c (ol_op_tag x0);
    v_key ← dec cls_rgw_obj_key_c (ol_key x0);
    v_delete_marker ← dec bool_c (ol_delete_marker x0);
    mret (Mk_rgw_bucket_olh_log_entry v_epoch v_op v_op_tag v_key v_delete_marker)).
Definition wf_rgw_bucket_olh_log_entry (x : rgw_bucket_olh_log_entry) : Prop :=
  wf u64_c (ol_epoch x) ∧
  wf u8_c (ol_op x) ∧
  wf string_c (ol_op_tag x) ∧
  wf cls_rgw_obj_key_c (ol_key x) ∧
  wf bool_c (ol_delete_marker x).
Definition rgw_bucket_olh_log_entry_c : codec rgw_bucket_olh_log_entry :=
  Codec encode_rgw_bucket_olh_log_entry decode_rgw_bucket_olh_log_entry wf_rgw_bucket_olh_log_entry.

(** [rgw_bucket_olh_entry]: the head of a versioned object *)
Record rgw_bucket_olh_entry := Mk_rgw_bucket_olh_entry {
  oe_key : cls_rgw_obj_key;
  oe_delete_marker : bool;
  oe_epoch : Z;
  oe_pending_log : list (Z * list rgw_bucket_olh_log_entry);
  oe_tag : str;
  oe_exists : bool;
  oe_pending_removal : bool
}.
Definition rgw_bucket_olh_entry_new : rgw_bucket_olh_entry := Mk_rgw_bucket_olh_entry cls_rgw_obj_key_new false 0 [] [] false false.
Definition encode_rgw_bucket_olh_entry (x : rgw_bucket_olh_entry) : E :=
  ENCODE 1 1
    (enc cls_rgw_obj_key_c (oe_key x) >>>
     enc bool_c (oe_delete_marker x) >>>
     enc u64_c (oe_epoch x) >>>
     enc (map_c 0 [] u64_c (vector_c rgw_bucket_olh_log_entry_new rgw_bucket_olh_log_entry_c)) (oe_pending_log x) >>>
     enc string_c (oe_tag x) >>>
     enc bool_c (oe_exists x) >>>
     enc bool_c (oe_pending_removal x)).
Definition decode_rgw_bucket_olh_entry (x0 : rgw_bucket_olh_entry) : D rgw_bucket_olh_entry :=
  DECODE 1 (λ struct_v,
    v_key ← dec cls_rgw_obj_key_c (oe_key x0);
    v_delete_marker ← dec bool_c (oe_delete_marker x0);
    v_epoch ← dec u64_c (oe_epoch x0);
    v_pending_log ← dec (map_c 0 [] u64_c (vector_c rgw_bucket_olh_log_entry_new rgw_bucket_olh_log_entry_c)) (oe_pending_log x0);
    v_tag ← dec string_c (oe_tag x0);
    v_exists ← dec bool_c (oe_exists x0);
    v_pending_removal ← dec bool_c (oe_pending_removal x0);
    mret (Mk_rgw_bucket_olh_entry v_key v_delete_marker v_epoch v_pending_log v_tag v_exists v_pending_removal)).
Definition wf_rgw_bucket_olh_entry (x : rgw_bucket_olh_entry) : Prop :=
  wf cls_rgw_obj_key_c (oe_key x) ∧
  wf bool_c (oe_delete_marker x) ∧
  wf u64_c (oe_epoch x) ∧
  wf (map_c 0 [] u64_c (vector_c rgw_bucket_olh_log_entry_new rgw_bucket_olh_log_entry_c)) (oe_pending_log x) ∧
  wf string_c (oe_tag x) ∧
  wf bool_c (oe_exists x) ∧
  wf bool_c (oe_pending_removal x).
Definition rgw_bucket_olh_entry_c : codec rgw_bucket_olh_entry :=
  Codec encode_rgw_bucket_olh_entry decode_rgw_bucket_olh_entry wf_rgw_bucket_olh_entry.

(** [rgw_bi_log_entry]: an entry of the bucket index log *)
Record rgw_bi_log_entry := Mk_rgw_bi_log_entry {
  bl_id : str;
  bl_object : str;
  bl_instance : str;
  bl_timestamp : utime_t;
  bl_ver : rgw_bucket_entry_ver;
  bl_op : Z;
  bl_state : Z;
  bl_index_ver : Z;
  bl_tag : str;
  bl_bilog_flags : Z
}.
Definition rgw_bi_log_entry_new : rgw_bi_log_entry := Mk_rgw_bi_log_entry [] [] [] utime_zero rgw_bucket_entry_ver_new CLS_RGW_OP_UNKNOWN 0 0 [] 0.
Definition encode_rgw_bi_log_entry (x : rgw_bi_log_entry) : E :=
  ENCODE 2 1
    (enc string_c (bl_id x) >>>
     enc string_c (bl_object x) >>>
     enc utime_c (bl_timestamp x) >>>
     enc rgw_bucket_entry_ver_c (bl_ver x) >>>
     enc string_c (bl_tag x) >>>
     enc u8_c (bl_op x) >>>
     enc u8_c (bl_state x) >>>
     enc packed_u64_c (bl_index_ver x) >>>
     enc string_c (bl_instance x) >>>
     enc u16_c (bl_bilog_flags x)).
Definition decode_rgw_bi_log_entry (x0 : rgw_bi_log_entry) : D rgw_bi_log_entry :=
  DECODE 2 (λ struct_v,
    v_id ← dec string_c (bl_id x0);
    v_object ← dec string_c (bl_object x0);
    v_timestamp ← dec utime_c (bl_timestamp x0);
    v_ver ← dec rgw_bucket_entry_ver_c (bl_ver x0);
    v_tag ← dec string_c (bl_tag x0);
    v_op ← dec u8_c (bl_op x0);
    v_state ← dec u8_c (bl_state x0);
    v_index_ver ← dec packed_u64_c (bl_index_ver x0);
    v_instance ← (if struct_v >=? 2 then dec string_c (bl_instance x0) else mret (bl_instance x0));
    v_bilog_flags ← (if struct_v >=? 2 then dec u16_c (bl_bilog_flags x0) else mret (bl_bilog_flags x0));
    mret (Mk_rgw_bi_log_entry v_id v_object v_instance v_timestamp v_ver v_op v_state v_index_ver v_tag v_bilog_flags)).
Definition wf_rgw_bi_log_entry (x : rgw_bi_log_entry) : Prop :=
  wf string_c (bl_id x) ∧
  wf string_c (bl_object x) ∧
  wf utime_c (bl_timestamp x) ∧
  wf rgw_bucket_entry_ver_c (bl_ver x) ∧
  wf string_c (bl_tag x) ∧
  wf u8_c (bl_op x) ∧
  wf u8_c (bl_state x) ∧
  wf packed_u64_c (bl_index_ver x) ∧
  wf string_c (bl_instance x) ∧
  wf u16_c (bl_bilog_flags x).
Definition rgw_bi_log_entry_c : codec rgw_bi_log_entry :=
  Codec encode_rgw_bi_log_entry decode_rgw_bi_log_entry wf_rgw_bi_log_entry.

(** [rgw_bucket_category_stats] *)
Record rgw_bucket_category_stats := Mk_rgw_bucket_category_stats {
  cs_total_size : Z;
  cs_total_size_rounded : Z;
  cs_num_entries : Z
}.
Definition rgw_bucket_category_stats_new : rgw_bucket_category_stats := Mk_rgw_bucket_category_stats 0 0 0.
Definition encode_rgw_bucket_category_stats (x : rgw_bucket_category_stats) : E :=
  ENCODE 2 2
    (enc u64_c (cs_total_size x) >>>
     enc u64_c (cs_total_size_rounded x) >>>
     enc u64_c (cs_num_entries x)).
Definition decode_rgw_bucket_category_stats (x0 : rgw_bucket_category_stats) : D rgw_bucket_category_stats :=
  DECODE_LEGACY 2 2 2 (λ struct_v,
    v_total_size ← dec u64_c (cs_total_size x0);
    v_total_size_rounded ← dec u64_c (cs_total_size_rounded x0);
    v_num_entries ← dec u64_c (cs_num_entries x0);
    mret (Mk_rgw_bucket_category_stats v_total_size v_total_size_rounded v_num_entries)).
Definition wf_rgw_bucket_category_stats (x : rgw_bucket_category_stats) : Prop :=
  wf u64_c (cs_total_size x) ∧
  wf u64_c (cs_total_size_rounded x) ∧
  wf u64_c (cs_num_entries x).
Definition rgw_bucket_category_stats_c : codec rgw_bucket_category_stats :=
  Codec encode_rgw_bucket_category_stats decode_rgw_bucket_category_stats wf_rgw_bucket_category_stats.

(** [rgw_bucket_dir_header]: the statistics of a bucket index *)
Record rgw_bucket_dir_header := Mk_rgw_bucket_dir_header {
  dh_stats : list (Z * rgw_bucket_category_stats);
  dh_tag_timeout : Z;
  dh_ver : Z;
  dh_master_ver : Z;
  dh_max_marker : str
}.
Definition rgw_bucket_dir_header_new : rgw_bucket_dir_header := Mk_rgw_bucket_dir_header [] 0 0 0 [].
Definition encode_rgw_bucket_dir_header (x : rgw_bucket_dir_header) : E :=
  ENCODE 5 2
    (enc (map_c 0 rgw_bucket_category_stats_new u8_c rgw_bucket_category_stats_c) (dh_stats x) >>>
     enc u64_c (dh_tag_timeout x) >>>
     enc u64_c (dh_ver x) >>>
     enc u64_c (dh_master_ver x) >>>
     enc string_c (dh_max_marker x)).
Definition decode_rgw_bucket_dir_header (x0 : rgw_bucket_dir_header) : D rgw_bucket_dir_header :=
  DECODE_LEGACY 3 2 2 (λ struct_v,
    v_stats ← dec (map_c 0 rgw_bucket_category_stats_new u8_c rgw_bucket_category_stats_c) (dh_stats x0);
    v_tag_timeout ← (if struct_v >? 2 then dec u64_c (dh_tag_timeout x0) else mret 0);
    v_ver ← (if struct_v >=? 4 then dec u64_c (dh_ver x0) else mret 0);
    v_master_ver ← (if struct_v >=? 4 then dec u64_c (dh_master_ver x0) else mret (dh_master_ver x0));
    v_max_marker ← (if struct_v >=? 5 then dec string_c (dh_max_marker x0) else mret (dh_max_marker x0));
    mret (Mk_rgw_bucket_dir_header v_stats v_tag_timeout v_ver v_master_ver v_max_marker)).
Definition wf_rgw_bucket_dir_header (x : rgw_bucket_dir_header) : Prop :=
  wf (map_c 0 rgw_bucket_category_stats_new u8_c rgw_bucket_category_stats_c) (dh_stats x) ∧
  wf u64_c (dh_tag_timeout x) ∧
  wf u64_c (dh_ver x) ∧
  wf u64_c (dh_master_ver x) ∧
  wf string_c (dh_max_marker x).
Definition rgw_bucket_dir_header_c : codec rgw_bucket_dir_header :=
  Codec encode_rgw_bucket_dir_header decode_rgw_bucket_dir_header wf_rgw_bucket_dir_header.

(** [rgw_bucket_dir]: a bucket index *)
Record rgw_bucket_dir := Mk_rgw_bucket_dir {
  dd_header : rgw_bucket_dir_header;
  dd_m : list (str * rgw_bucket_dir_entry)
}.
Definition rgw_bucket_dir_new : rgw_bucket_dir := Mk_rgw_bucket_dir rgw_bucket_dir_header_new [].
Definition encode_rgw_bucket_dir (x : rgw_bucket_dir) : E :=
  ENCODE 2 2
    (enc rgw_bucket_dir_header_c (dd_header x) >>>
     enc (map_c [] rgw_bucket_dir_entry_new string_c rgw_bucket_dir_entry_c) (dd_m x)).
Definition decode_rgw_bucket_dir (x0 : rgw_bucket_dir) : D rgw_bucket_dir :=
  DECODE_LEGACY 2 2 2 (λ struct_v,
    v_header ← dec rgw_bucket_dir_header_c (dd_header x0);
    v_m ← dec (map_c [] rgw_bucket_dir_entry_new string_c rgw_bucket_dir_entry_c) (dd_m x0);
    mret (Mk_rgw_bucket_dir v_header v_m)).
Definition wf_rgw_bucket_dir (x : rgw_bucket_dir) : Prop :=
  wf rgw_bucket_dir_header_c (dd_header x) ∧
  wf (map_c [] rgw_bucket_dir_entry_new string_c rgw_bucket_dir_entry_c) (dd_m x).
Definition rgw_bucket_dir_c : codec rgw_bucket_dir :=
  Codec encode_rgw_bucket_dir decode_rgw_bucket_dir wf_rgw_bucket_dir.

(** [rgw_usage_data] *)
Record rgw_usage_data := Mk_rgw_usage_data {
  ud_bytes_sent : Z;
  ud_bytes_received : Z;
  ud_ops : Z;
  ud_successful_ops : Z
}.
Definition rgw_usage_data_new : rgw_usage_data := Mk_rgw_usage_data 0 0 0 0.
Definition encode_rgw_usage_data (x : rgw_usage_data) : E :=
  ENCODE 1 1
    (enc u64_c (ud_bytes_sent x) >>>
     enc u64_c (ud_bytes_received x) >>>
     enc u64_c (ud_ops x) >>>
     enc u64_c (ud_successful_ops x)).
Definition decode_rgw_usage_data (x0 : rgw_usage_data) : D rgw_usage_data :=
  DECODE 1 (λ struct_v,
    v_bytes_sent ← dec u64_c (ud_bytes_sent x0);
    v_bytes_received ← dec u64_c (ud_bytes_received x0);
    v_ops ← dec u64_c (ud_ops x0);
    v_successful_ops ← dec u64_c (ud_successful_ops x0);
    mret (Mk_rgw_usage_data v_bytes_sent v_bytes_received v_ops v_successful_ops)).
Definition wf_rgw_usage_data (x : rgw_usage_data) : Prop :=
  wf u64_c (ud_bytes_sent x) ∧
  wf u64_c (ud_bytes_received x) ∧
  wf u64_c (ud_ops x) ∧
  wf u64_c (ud_successful_ops x).
Definition rgw_usage_data_c : codec rgw_usage_data :=
  Codec encode_rgw_usage_data decode_rgw_usage_data wf_rgw_usage_data.

(** [rgw_usage_log_entry]: version 1 had a single category *)
Record rgw_usage_log_entry := Mk_rgw_usage_log_entry {
  ul_owner : str;
  ul_bucket : str;
  ul_epoch : Z;
  ul_total_usage : rgw_usage_data;
  ul_usage_map : list (str * rgw_usage_data)
}.
Definition rgw_usage_log_entry_new : rgw_usage_log_entry := Mk_rgw_usage_log_entry [] [] 0 rgw_usage_data_new [].
Definition encode_rgw_usage_log_entry (x : rgw_usage_log_entry) : E :=
  ENCODE 2 1
    (enc string_c (ul_owner x) >>>
     enc string_c (ul_bucket x) >>>
     enc u64_c (ul_epoch x) >>>
     enc u64_c (ud_bytes_sent (ul_total_usage x)) >>>
     enc u64_c (ud_bytes_received (ul_total_usage x)) >>>
     enc u64_c (ud_ops (ul_total_usage x)) >>>
     enc u64_c (ud_successful_ops (ul_total_usage x)) >>>
     enc (map_c [] rgw_usage_data_new string_c rgw_usage_data_c) (ul_usage_map x)).
Definition decode_rgw_usage_log_entry (x0 : rgw_usage_log_entry) : D rgw_usage_log_entry :=
  DECODE 2 (λ struct_v,
    v_owner ← dec string_c (ul_owner x0);
    v_bucket ← dec string_c (ul_bucket x0);
    v_epoch ← dec u64_c (ul_epoch x0);
    v_total_usage_bytes_sent ← dec u64_c (ud_bytes_sent (ul_total_usage x0));
    v_total_usage_bytes_received ← dec u64_c (ud_bytes_received (ul_total_usage x0));
    v_total_usage_ops ← dec u64_c (ud_ops (ul_total_usage x0));
    v_total_usage_successful_ops ← dec u64_c (ud_successful_ops (ul_total_usage x0));
    let total := Mk_rgw_usage_data v_total_usage_bytes_sent v_total_usage_bytes_received
                   v_total_usage_ops v_total_usage_successful_ops in
    v_usage_map ← (if struct_v <? 2 then mret (mset [] total (ul_usage_map x0))
                   else dec (map_c [] rgw_usage_data_new string_c rgw_usage_data_c) (ul_usage_map x0));
    mret (Mk_rgw_usage_log_entry v_owner v_bucket v_epoch total v_usage_map)).
Definition wf_rgw_usage_log_entry (x : rgw_usage_log_entry) : Prop :=
  wf string_c (ul_owner x) ∧
  wf string_c (ul_bucket x) ∧
  wf u64_c (ul_epoch x) ∧
  wf u64_c (ud_bytes_sent (ul_total_usage x)) ∧
  wf u64_c (ud_bytes_received (ul_total_usage x)) ∧
  wf u64_c (ud_ops (ul_total_usage x)) ∧
  wf u64_c (ud_successful_ops (ul_total_usage x)) ∧
  wf (map_c [] rgw_usage_data_new string_c rgw_usage_data_c) (ul_usage_map x).
Definition rgw_usage_log_entry_c : codec rgw_usage_log_entry :=
  Codec encode_rgw_usage_log_entry decode_rgw_usage_log_entry wf_rgw_usage_log_entry.

(** [rgw_usage_log_info] *)
Record rgw_usage_log_info := Mk_rgw_usage_log_info {
  ui_entries : list rgw_usage_log_entry
}.
Definition rgw_usage_log_info_new : rgw_usage_log_info := Mk_rgw_usage_log_info [].
Definition encode_rgw_usage_log_info (x : rgw_usage_log_info) : E :=
  ENCODE 1 1
    (enc (vector_c rgw_usage_log_entry_new rgw_usage_log_entry_c) (ui_entries x)).
Definition decode_rgw_usage_log_info (x0 : rgw_usage_log_info) : D rgw_usage_log_info :=
  DECODE 1 (λ struct_v,
    v_entries ← dec (vector_c rgw_usage_log_entry_new rgw_usage_log_entry_c) (ui_entries x0);
    mret (Mk_rgw_usage_log_info v_entries)).
Definition wf_rgw_usage_log_info (x : rgw_usage_log_info) : Prop :=
  wf (vector_c rgw_usage_log_entry_new rgw_usage_log_entry_c) (ui_entries x).
Definition rgw_usage_log_info_c : codec rgw_usage_log_info :=
  Codec encode_rgw_usage_log_info decode_rgw_usage_log_info wf_rgw_usage_log_info.

(** [rgw_user_bucket] *)
Record rgw_user_bucket := Mk_rgw_user_bucket {
  ub_user : str;
  ub_bucket : str
}.
Definition rgw_user_bucket_new : rgw_user_bucket := Mk_rgw_user_bucket [] [].
Definition encode_rgw_user_bucket (x : rgw_user_bucket) : E :=
  ENCODE 1 1
    (enc string_c (ub_user x) >>>
     enc string_c (ub_bucket x)).
Definition decode_rgw_user_bucket (x0 : rgw_user_bucket) : D rgw_user_bucket :=
  DECODE 1 (λ struct_v,
    v_user ← dec string_c (ub_user x0);
    v_bucket ← dec string_c (ub_bucket x0);
    mret (Mk_rgw_user_bucket v_user v_bucket)).
Definition wf_rgw_user_bucket (x : rgw_user_bucket) : Prop :=
  wf string_c (ub_user x) ∧
  wf string_c (ub_bucket x).
Definition rgw_user_bucket_c : codec rgw_user_bucket :=
  Codec encode_rgw_user_bucket decode_rgw_user_bucket wf_rgw_user_bucket.

(** [cls_rgw_obj]: an object to collect *)
Record cls_rgw_obj := Mk_cls_rgw_obj {
  co_pool : str;
  co_key : cls_rgw_obj_key;
  co_loc : str
}.
Definition cls_rgw_obj_new : cls_rgw_obj := Mk_cls_rgw_obj [] cls_rgw_obj_key_new [].
Definition encode_cls_rgw_obj (x : cls_rgw_obj) : E :=
  ENCODE 2 1
    (enc string_c (co_pool x) >>>
     enc string_c (ok_name (co_key x)) >>>
     enc string_c (co_loc x) >>>
     enc cls_rgw_obj_key_c (co_key x)).
Definition decode_cls_rgw_obj (x0 : cls_rgw_obj) : D cls_rgw_obj :=
  DECODE 2 (λ struct_v,
    v_pool ← dec string_c (co_pool x0);
    v_key_name ← dec string_c (ok_name (co_key x0));
    v_loc ← dec string_c (co_loc x0);
    let key0 := Mk_cls_rgw_obj_key v_key_name (ok_instance (co_key x0)) in
    v_key ← (if struct_v >=? 2 then dec cls_rgw_obj_key_c key0 else mret key0);
    mret (Mk_cls_rgw_obj v_pool v_key v_loc)).
Definition wf_cls_rgw_obj (x : cls_rgw_obj) : Prop :=
  wf string_c (co_pool x) ∧
  wf string_c (ok_name (co_key x)) ∧
  wf string_c (co_loc x) ∧
  wf cls_rgw_obj_key_c (co_key x).
Definition cls_rgw_obj_c : codec cls_rgw_obj :=
  Codec encode_cls_rgw_obj decode_cls_rgw_obj wf_cls_rgw_obj.

(** [cls_rgw_obj_chain] *)
Record cls_rgw_obj_chain := Mk_cls_rgw_obj_chain {
  oc_objs : list cls_rgw_obj
}.
Definition cls_rgw_obj_chain_new : cls_rgw_obj_chain := Mk_cls_rgw_obj_chain [].
Definition encode_cls_rgw_obj_chain (x : cls_rgw_obj_chain) : E :=
  ENCODE 1 1
    (enc (list_c cls_rgw_obj_new cls_rgw_obj_c) (oc_objs x)).
Definition decode_cls_rgw_obj_chain (x0 : cls_rgw_obj_chain) : D cls_rgw_obj_chain :=
  DECODE 1 (λ struct_v,
    v_objs ← dec (list_c cls_rgw_obj_new cls_rgw_obj_c) (oc_objs x0);
    mret (Mk_cls_rgw_obj_chain v_objs)).
Definition wf_cls_rgw_obj_chain (x : cls_rgw_obj_chain) : Prop :=
  wf (list_c cls_rgw_obj_new cls_rgw_obj_c) (oc_objs x).
Definition cls_rgw_obj_chain_c : codec cls_rgw_obj_chain :=
  Codec encode_cls_rgw_obj_chain decode_cls_rgw_obj_chain wf_cls_rgw_obj_chain.

(** [cls_rgw_gc_obj_info]: an entry of the garbage collector's log *)
Record cls_rgw_gc_obj_info := Mk_cls_rgw_gc_obj_info {
  gi_tag : str;
  gi_chain : cls_rgw_obj_chain;
  gi_time : utime_t
}.
Definition cls_rgw_gc_obj_info_new : cls_rgw_gc_obj_info := Mk_cls_rgw_gc_obj_info [] cls_rgw_obj_chain_new utime_zero.
Definition encode_cls_rgw_gc_obj_info (x : cls_rgw_gc_obj_info) : E :=
  ENCODE 1 1
    (enc string_c (gi_tag x) >>>
     enc cls_rgw_obj_chain_c (gi_chain x) >>>
     enc utime_c (gi_time x)).
Definition decode_cls_rgw_gc_obj_info (x0 : cls_rgw_gc_obj_info) : D cls_rgw_gc_obj_info :=
  DECODE 1 (λ struct_v,
    v_tag ← dec string_c (gi_tag x0);
    v_chain ← dec cls_rgw_obj_chain_c (gi_chain x0);
    v_time ← dec utime_c (gi_time x0);
    mret (Mk_cls_rgw_gc_obj_info v_tag v_chain v_time)).
Definition wf_cls_rgw_gc_obj_info (x : cls_rgw_gc_obj_info) : Prop :=
  wf string_c (gi_tag x) ∧
  wf cls_rgw_obj_chain_c (gi_chain x) ∧
  wf utime_c (gi_time x).
Definition cls_rgw_gc_obj_info_c : codec cls_rgw_gc_obj_info :=
  Codec encode_cls_rgw_gc_obj_info decode_cls_rgw_gc_obj_info wf_cls_rgw_gc_obj_info.

(** ** Operations *)

Definition cls_rgw_obj_key_eqb (a b : cls_rgw_obj_key) : bool :=
  match compare (ok_name a) (ok_name b), compare (ok_instance a) (ok_instance b) with
  | Eq, Eq => true
  | _, _ => false
  end.

Definition cls_rgw_obj_key_ltb (a b : cls_rgw_obj_key) : bool :=
  let r := match compare (ok_name a) (ok_name b) with
           | Eq => compare (ok_instance a) (ok_instance b)
           | r => r
           end in
  match r with Lt => true | _ => false end.

Definition rgw_user_bucket_ltb (a b : rgw_user_bucket) : bool :=
  match compare (ub_user a) (ub_user b) with
  | Lt => true
  | Eq => match compare (ub_bucket a) (ub_bucket b) with Lt => true | _ => false end
  | Gt => false
  end.

Definition is_current (e : rgw_bucket_dir_entry) : bool :=
  let test_flags := Z.lor RGW_BUCKET_DIRENT_FLAG_VER RGW_BUCKET_DIRENT_FLAG_CURRENT in
  (Z.land (de_flags e) RGW_BUCKET_DIRENT_FLAG_VER =? 0) ||
  (Z.land (de_flags e) test_flags =? test_flags).
Definition is_delete_marker (e : rgw_bucket_dir_entry) : bool :=
  negb (Z.land (de_flags e) RGW_BUCKET_DIRENT_FLAG_DELETE_MARKER =? 0).
Definition is_visible (e : rgw_bucket_dir_entry) : bool :=
  is_current e && negb (is_delete_marker e).
Definition is_valid (e : rgw_bucket_dir_entry) : bool :=
  Z.land (de_flags e) RGW_BUCKET_DIRENT_FLAG_VER_MARKER =? 0.

(** [rgw_usage_data::aggregate] *)
Definition usage_aggregate (x usage : rgw_usage_data) : rgw_usage_data :=
  Mk_rgw_usage_data
    (u64 (ud_bytes_sent x + ud_bytes_sent usage))
    (u64 (ud_bytes_received x + ud_bytes_received usage))
    (u64 (ud_ops x + ud_ops usage))
    (u64 (ud_successful_ops x + ud_successful_ops usage)).

(** [rgw_usage_log_entry::add] *)
Definition usage_add (x : rgw_usage_log_entry) (category : str) (data : rgw_usage_data)
    : rgw_usage_log_entry :=
  let old := default rgw_usage_data_new (mfind category (ul_usage_map x)) in
  Mk_rgw_usage_log_entry (ul_owner x) (ul_bucket x) (ul_epoch x)
    (usage_aggregate (ul_total_usage x) data)
    (mset category (usage_aggregate old data) (ul_usage_map x)).

(** The category test of [aggregate] and [sum]: no filter, an empty one, or a
    filter naming the category. *)
Definition category_selected (categories : list (str * bool)) (c : str) : bool :=
  match categories with [] => true | _ => mmem c categories end.

(** [rgw_usage_log_entry::aggregate]; a null [categories] is the empty map. *)
Definition usage_log_aggregate (x e : rgw_usage_log_entry) (categories : list (str * bool))
    : rgw_usage_log_entry :=
  let x := match ul_owner x with
           | [] => Mk_rgw_usage_log_entry (ul_owner e) (ul_bucket e) (ul_epoch e)
                     (ul_total_usage x) (ul_usage_map x)
           | _ => x
           end in
  fold_left (λ x p, if category_selected categories (fst p)
                    then usage_add x (fst p) (snd p) else x)
            (ul_usage_map e) x.

(** [rgw_usage_log_entry::sum] *)
Definition usage_sum (x : rgw_usage_log_entry) (categories : list (str * bool)) : rgw_usage_data :=
  fold_left (λ u p, if category_selected categories (fst p)
                    then usage_aggregate u (snd p) else u)
            (ul_usage_map x) rgw_usage_data_new.

(** [cls_rgw_obj_chain::push_obj] *)
Definition push_obj (x : cls_rgw_obj_chain) (pool : str) (key : cls_rgw_obj_key) (loc : str)
    : cls_rgw_obj_chain :=
  Mk_cls_rgw_obj_chain (oc_objs x ++ [Mk_cls_rgw_obj pool key loc]).

(** ** The codecs' contracts *)

Lemma encode_packed_val_appends z : appends (encode_packed_val z).
Proof. unfold encode_packed_val. repeat case_bool; appends_solve. Qed.

(** What a packed integer decodes to: every value but 0x10000 survives. *)
Lemma packed_reads z :
  reads decode_packed_val (encode_packed_val z []) (if u64 z =? 65536 then 0 else u64 z).
Proof.
  unfold encode_packed_val. pose proof (Z.mod_pos_bound z (2 ^ 64) eq_refl) as Hv.
  fold (u64 z) in Hv. set (v := u64 z) in *. clearbody v.
  unfold decode_packed_val, encode_raw.
  destruct (Z.ltb_spec v 128).
  { rewrite (proj2 (Z.eqb_neq v 65536)) by lia.
    rewrite <- (app_nil_r (_ ++ le_bytes 1 v)), app_nil_l.
    apply reads_bind_raw; [lia|]. rewrite (proj2 (Z.ltb_lt _ _)) by lia. apply reads_ret. }
  change (Z.lor 128 1) with 129; change (Z.lor 128 2) with 130;
  change (Z.lor 128 4) with 132; change (Z.lor 128 8) with 136.
  destruct (Z.ltb_spec v 256); [|destruct (Z.leb_spec v 65536); [|destruct (Z.leb_spec v 16777216)]];
    unfold eseq; rewrite app_nil_l; (apply reads_bind_raw; [lia|]); cbn -[le_bytes Z.eqb decode_raw].
  - rewrite (proj2 (Z.eqb_neq v 65536)) by lia. apply reads_raw_small. lia.
  - destruct (Z.eqb_spec v 65536) as [->|]; [apply (reads_raw 2 65536)|].
    apply reads_raw_small. lia.
  - rewrite (proj2 (Z.eqb_neq v 65536)) by lia. apply reads_raw_small. lia.
  - rewrite (proj2 (Z.eqb_neq v 65536)) by lia. apply reads_raw_small. lia.
Qed.

#[export] Instance packed_u64_ok : CodecOk packed_u64_c.
Proof.
  split; cbn [enc dec wf packed_u64_c]; [apply encode_packed_val_appends|].
  intros x _ [Hx Hne]. eapply reads_eq; [|apply packed_reads].
  rewrite u64_small by done. by rewrite (proj2 (Z.eqb_neq _ _)).
Qed.

#[export] Instance packed_s64_ok : CodecOk packed_s64_c.
Proof.
  split; cbn [enc dec wf packed_s64_c]; [apply encode_packed_val_appends|].
  intros x _ [Hx Hne]. rewrite <- (app_nil_r (encode_packed_val x [])).
  eapply reads_bind; [apply packed_reads|]. eapply reads_eq; [|apply reads_ret].
  assert ((u64 x =? 65536) = false) as ->.
  { apply Z.eqb_neq. unfold u64. intros E. destruct (Z.ltb_spec x 0).
    - rewrite <- (Z.mod_add x 1), Z.mod_small in E by lia. lia.
    - rewrite Z.mod_small in E; lia. }
  unfold s64, u64. rewrite (sgn_mod 64) by lia. by apply sgn_small; [lia|].
Qed.

#[export] Instance rgw_bucket_pending_info_ok : CodecOk rgw_bucket_pending_info_c.
Proof. codec_solve encode_rgw_bucket_pending_info decode_rgw_bucket_pending_info wf_rgw_bucket_pending_info. Qed.

#[export] Instance rgw_bucket_dir_entry_meta_ok : CodecOk rgw_bucket_dir_entry_meta_c.
Proof. codec_solve encode_rgw_bucket_dir_entry_meta decode_rgw_bucket_dir_entry_meta wf_rgw_bucket_dir_entry_meta. Qed.

#[export] Instance rgw_bucket_entry_ver_ok : CodecOk rgw_bucket_entry_ver_c.
Proof. codec_solve encode_rgw_bucket_entry_ver decode_rgw_bucket_entry_ver wf_rgw_bucket_entry_ver. Qed.

#[export] Instance cls_rgw_obj_key_ok : CodecOk cls_rgw_obj_key_c.
Proof. codec_solve encode_cls_rgw_obj_key decode_cls_rgw_obj_key wf_cls_rgw_obj_key. Qed.

#[export] Instance rgw_bucket_dir_entry_ok : CodecOk rgw_bucket_dir_entry_c.
Proof. codec_solve encode_rgw_bucket_dir_entry decode_rgw_bucket_dir_entry wf_rgw_bucket_dir_entry. Qed.

#[export] Instance rgw_cls_bi_entry_ok : CodecOk rgw_cls_bi_entry_c.
Proof. codec_solve encode_rgw_cls_bi_entry decode_rgw_cls_bi_entry wf_rgw_cls_bi_entry. Qed.

#[export] Instance rgw_bucket_olh_log_entry_ok : CodecOk rgw_bucket_olh_log_entry_c.
Proof. codec_solve encode_rgw_bucket_olh_log_entry decode_rgw_bucket_olh_log_entry wf_rgw_bucket_olh_log_entry. Qed.

#[export] Instance rgw_bucket_olh_entry_ok : CodecOk rgw_bucket_olh_entry_c.
Proof. codec_solve encode_rgw_bucket_olh_entry decode_rgw_bucket_olh_entry wf_rgw_bucket_olh_entry. Qed.

#[export] Instance rgw_bi_log_entry_ok : CodecOk rgw_bi_log_entry_c.
Proof. codec_solve encode_rgw_bi_log_entry decode_rgw_bi_log_entry wf_rgw_bi_log_entry. Qed.

#[export] Instance rgw_bucket_category_stats_ok : CodecOk rgw_bucket_category_stats_c.
Proof. codec_solve encode_rgw_bucket_category_stats decode_rgw_bucket_category_stats wf_rgw_bucket_category_stats. Qed.

#[export] Instance rgw_bucket_dir_header_ok : CodecOk rgw_bucket_dir_header_c.
Proof. codec_solve encode_rgw_bucket_dir_header decode_rgw_bucket_dir_header wf_rgw_bucket_dir_header. Qed.

#[export] Instance rgw_bucket_dir_ok : CodecOk rgw_bucket_dir_c.
Proof. codec_solve encode_rgw_bucket_dir decode_rgw_bucket_dir wf_rgw_bucket_dir. Qed.

#[export] Instance rgw_usage_data_ok : CodecOk rgw_usage_data_c.
Proof. codec_solve encode_rgw_usage_data decode_rgw_usage_data wf_rgw_usage_data. Qed.

#[export] Instance rgw_usage_log_entry_ok : CodecOk rgw_usage_log_entry_c.
Proof. codec_solve encode_rgw_usage_log_entry decode_rgw_usage_log_entry wf_rgw_usage_log_entry. Qed.

#[export] Instance rgw_usage_log_info_ok : CodecOk rgw_usage_log_info_c.
Proof. codec_solve encode_rgw_usage_log_info decode_rgw_usage_log_info wf_rgw_usage_log_info. Qed.

#[export] Instance rgw_user_bucket_ok : CodecOk rgw_user_bucket_c.
Proof. codec_solve encode_rgw_user_bucket decode_rgw_user_bucket wf_rgw_user_bucket. Qed.

#[export] Instance cls_rgw_obj_ok : CodecOk cls_rgw_obj_c.
Proof. codec_solve encode_cls_rgw_obj decode_cls_rgw_obj wf_cls_rgw_obj. Qed.

#[export] Instance cls_rgw_obj_chain_ok : CodecOk cls_rgw_obj_chain_c.
Proof. codec_solve encode_cls_rgw_obj_chain decode_cls_rgw_obj_chain wf_cls_rgw_obj_chain. Qed.

#[export] Instance cls_rgw_gc_obj_info_ok : CodecOk cls_rgw_gc_obj_info_c.
Proof. codec_solve encode_cls_rgw_gc_obj_info decode_cls_rgw_gc_obj_info wf_cls_rgw_gc_obj_info. Qed.

