(* ===== verification/ClsRgwFacts.v ===== *)
(** * Properties of the bucket index's data types

    Round trips of the index, its logs and the garbage collector's entries,
    the exact failure of packed integers, the legacy and forward compatible
    forms of an index entry, the order on object keys, visibility of entries
    and the accumulation of usage. *)

From S2P Require Import Prelude StdMap Encoding Utime ClsRgwTypes.

(** ** Usage accumulation *)

Section usage.
(** One of the four counters of [rgw_usage_data]. *)
Context (p : rgw_usage_data → Z).
Context (p_agg : ∀ a b, p (usage_aggregate a b) = u64 (p a + p b)).
Context (p_new : p rgw_usage_data_new = 0).

Definition counter_total (m : list (str * rgw_usage_data)) : Z :=
  foldr (λ kv n, p (snd kv) + n) 0 m.

Lemma counter_fold m u :
  p (fold_left (λ u kv, usage_aggregate u (snd kv)) m u) =
    match m with [] => p u | _ => u64 (p u + counter_total m) end.
Proof.
  revert u. induction m as [|kv m IH]; intros u; [done|].
  cbn [fold_left counter_total foldr]. rewrite IH, p_agg.
  destruct m as [|kv' m]; [cbn; by rewrite Z.add_0_r|].
  change (foldr (λ kv n, p (snd kv) + n) 0) with counter_total.
  unfold u64. rewrite Zplus_mod_idemp_l. f_equal. lia.
Qed.

Lemma counter_sum x : p (usage_sum x []) = u64 (counter_total (ul_usage_map x)).
Proof.
  unfold usage_sum. cbn [category_selected]. rewrite counter_fold, p_new.
  by destruct (ul_usage_map x).
Qed.

Lemma counter_mset k d m :
  msorted m →
  u64 (counter_total
         (mset k (usage_aggregate (default rgw_usage_data_new (mfind k m)) d) m)) =
  u64 (counter_total m + p d).
Proof.
  induction m as [|[k' v'] m IH]; cbn.
  - rewrite p_agg, p_new. unfold u64. rewrite Z.add_0_r, Z.mod_mod by lia. by rewrite Z.add_comm.
  - intros [Hk Hm]. destruct (compare k k') eqn:E; cbn.
    + rewrite p_agg. unfold u64. rewrite Zplus_mod_idemp_l. f_equal. lia.
    + rewrite mfind_Forall_Lt.
      2:{ eapply Forall_impl; [exact Hk|]. intros q Hq. by eapply compare_lt_trans. }
      cbn. rewrite p_agg, p_new. unfold u64. rewrite Zplus_mod_idemp_l. f_equal. lia.
    + unfold u64 in *. change (foldr (λ kv n, p (snd kv) + n) 0) with counter_total.
      rewrite <- Zplus_mod_idemp_r, IH, Zplus_mod_idemp_r by done. f_equal. lia.
Qed.

Lemma counter_add x c d :
  msorted (ul_usage_map x) →
  u64 (counter_total (ul_usage_map (usage_add x c d))) =
  u64 (counter_total (ul_usage_map x) + p d).
Proof. apply counter_mset. Qed.

Lemma counter_add_all m x :
  msorted (ul_usage_map x) →
  u64 (counter_total (ul_usage_map (fold_left (λ x kv, usage_add x (fst kv) (snd kv)) m x))) =
  u64 (counter_total (ul_usage_map x) + counter_total m).
Proof.
  revert x. induction m as [|[k d] m IH]; intros x Hx; cbn; [by rewrite Z.add_0_r|].
  rewrite IH by (cbn; by apply mset_sorted).
  change (foldr (λ kv n, p (snd kv) + n) 0) with counter_total.
  unfold u64. rewrite Zplus_mod. fold u64. pose proof (counter_add x k d Hx) as Ha.
  unfold u64 in Ha. rewrite Ha, <- Zplus_mod. f_equal. lia.
Qed.

Lemma counter_aggregate x e :
  msorted (ul_usage_map x) →
  p (usage_sum (usage_log_aggregate x e []) []) =
  p (usage_aggregate (usage_sum x []) (usage_sum e [])).
Proof.
  intros Hx. rewrite p_agg, !counter_sum. unfold usage_log_aggregate.
  cbn [category_selected].
  rewrite counter_add_all by (by destruct (ul_owner x)).
  unfold u64. rewrite <- Zplus_mod. by destruct (ul_owner x).
Qed.
End usage.

Lemma usage_data_eq a b :
  ud_bytes_sent a = ud_bytes_sent b → ud_bytes_received a = ud_bytes_received b →
  ud_ops a = ud_ops b → ud_successful_ops a = ud_successful_ops b → a = b.
Proof. destruct a, b; cbn; congruence. Qed.

(** The total kept beside the map is the sum over the map. *)
Definition usage_consistent (x : rgw_usage_log_entry) : Prop :=
  msorted (ul_usage_map x) ∧ usage_sum x [] = ul_total_usage x.

Lemma usage_add_consistent x c d : usage_consistent x → usage_consistent (usage_add x c d).
Proof.
  intros [Hs Ht]. split; [by apply mset_sorted|].
  assert (Hp : ∀ p, (∀ a b, p (usage_aggregate a b) = u64 (p a + p b)) →
                    p rgw_usage_data_new = 0 →
                    p (usage_sum (usage_add x c d) []) = p (usage_aggregate (ul_total_usage x) d)).
  { intros p Ha Hn. rewrite counter_sum, counter_add, Ha, <- Ht, counter_sum by done.
    unfold u64. by rewrite Zplus_mod_idemp_l. }
  apply usage_data_eq; by apply Hp.
Qed.

(** Accumulating usage loses nothing: the sum over all categories of an
    entry aggregated with another is the aggregate of the two sums (counters
    wrap at 64 bits). *)
Lemma usage_aggregate_sum x e :
  msorted (ul_usage_map x) →
  usage_sum (usage_log_aggregate x e []) [] =
  usage_aggregate (usage_sum x []) (usage_sum e []).
Proof. intros Hx. apply usage_data_eq; by apply counter_aggregate. Qed.

Definition demo_usage (n : Z) : rgw_usage_log_entry :=
  Mk_rgw_usage_log_entry "joe" "b" 1 (Mk_rgw_usage_data n 0 1 1)
    [("get_obj", Mk_rgw_usage_data n 0 1 1)].

Lemma usage_aggregate_sum_witness :
  usage_sum (usage_log_aggregate (demo_usage 3) (demo_usage (2 ^ 64 - 1)) []) [] =
  usage_aggregate (usage_sum (demo_usage 3) []) (usage_sum (demo_usage (2 ^ 64 - 1)) []).
Proof. apply (usage_aggregate_sum (demo_usage 3) (demo_usage (2 ^ 64 - 1))). repeat constructor. Defined.

(** The backwards compatible total of a usage entry stays the sum of its
    categories under [add] and [aggregate], whatever the category filter. *)
Lemma usage_total_invariant x e categories :
  usage_consistent x → usage_consistent (usage_log_aggregate x e categories).
Proof.
  intros Hx. unfold usage_log_aggregate.
  set (x' := match ul_owner x with [] => _ | _ => x end).
  assert (Hx' : usage_consistent x') by (unfold x'; by destruct (ul_owner x)).
  clearbody x'. revert x' Hx'.
  induction (ul_usage_map e) as [|kv m IH]; intros x' Hx'; cbn; [done|].
  apply IH. case_bool; [by apply usage_add_consistent|done].
Qed.

Lemma usage_total_invariant_witness :
  usage_consistent (usage_log_aggregate (demo_usage 3) (demo_usage 4) [("get_obj", true)]).
Proof.
  apply (usage_total_invariant (demo_usage 3) (demo_usage 4) [("get_obj", true)]).
  split; [repeat constructor|reflexivity].
Defined.

(** ** Packed integers *)

Lemma zlen_packed z : zlen (encode_packed_val z []) <= 9.
Proof.
  unfold encode_packed_val, eseq, encode_raw.
  repeat case_bool; rewrite !zlen_app, !zlen_le_bytes; change (zlen (@nil ascii)) with 0; lia.
Qed.

(** A packed 64-bit integer round-trips exactly when it is not 0x10000: the
    encoder's bound for the two-byte form is off by one, and that value comes
    back as 0. *)
Lemma packed_roundtrip_iff z :
  0 <= z < 2 ^ 64 →
  (dec packed_u64_c 0 (It 0 (enc packed_u64_c z [])) =
     inr (z, It (zlen (enc packed_u64_c z [])) []) ↔ z ≠ 65536).
Proof.
  intros Hz. pose proof (packed_reads z) as Hr. rewrite u64_small in Hr by done.
  apply reads_whole in Hr.
  2:{ pose proof (zlen_packed z). cbn [enc packed_u64_c]. lia. }
  cbn [dec enc packed_u64_c]. rewrite Hr.
  destruct (Z.eqb_spec z 65536) as [->|]; split; done.
Qed.

Lemma packed_roundtrip_iff_witness :
  dec packed_u64_c 0 (It 0 (enc packed_u64_c 65535 [])) =
     inr (65535, It (zlen (enc packed_u64_c 65535 [])) []) ↔ 65535 ≠ 65536.
Proof. apply (packed_roundtrip_iff 65535). lia. Defined.

(** An object version at epoch 0x10000 is read back as epoch 0, in the pool
    it was written with: no error is raised. *)
Lemma entry_ver_epoch_lost pool x0 :
  - 2 ^ 63 <= pool < 2 ^ 63 → pool ≠ 65536 →
  ∃ it, decode_rgw_bucket_entry_ver x0
          (It 0 (encode_rgw_bucket_entry_ver (Mk_rgw_bucket_entry_ver pool 65536) [])) =
        inr (Mk_rgw_bucket_entry_ver pool 0, it).
Proof.
  intros Hp Hne. eexists. apply reads_whole.
  - unfold decode_rgw_bucket_entry_ver, encode_rgw_bucket_entry_ver.
    rewrite ENCODE_block by appends_solve. apply reads_DECODE; [lia|lia|].
    rewrite eseq_nil by appends_solve.
    eapply reads_bind; [by apply dec_reads|]. rewrite <- (app_nil_r (enc _ _ [])).
    eapply reads_bind; [apply (packed_reads 65536)|apply reads_ret].
  - unfold encode_rgw_bucket_entry_ver. rewrite ENCODE_block by appends_solve.
    rewrite eseq_nil by appends_solve. unfold block.
    cbn [enc packed_s64_c packed_u64_c ev_pool ev_epoch].
    pose proof (zlen_packed pool). pose proof (zlen_packed 65536).
    rewrite !zlen_app, !zlen_le_bytes. lia.
Qed.

Lemma entry_ver_epoch_lost_witness :
  ∃ it, decode_rgw_bucket_entry_ver rgw_bucket_entry_ver_new
          (It 0 (encode_rgw_bucket_entry_ver (Mk_rgw_bucket_entry_ver 3 65536) [])) =
        inr (Mk_rgw_bucket_entry_ver 3 0, it).
Proof. apply (entry_ver_epoch_lost 3 rgw_bucket_entry_ver_new); lia. Defined.

(** ** Round trips *)

(** C36: a bucket index shorter than 2^32 bytes, whose fields are within their
    widths, whose maps are sorted, and in which no pool, epoch or index version
    is 0x10000, round-trips: header, statistics by category, and every entry with
    its pending operations, in the map's order.  These three fields are packed
    integers, and 0x10000 is the one 64-bit value a packed integer does not give
    back. *)
Theorem bucket_dir_roundtrip x x0 :
  wf_rgw_bucket_dir x → zlen (encode_rgw_bucket_dir x []) < 2 ^ 32 →
  decode_rgw_bucket_dir x0 (It 0 (encode_rgw_bucket_dir x [])) =
    inr (x, It (zlen (encode_rgw_bucket_dir x [])) [])
  ∧ ∀ z, 0 <= z < 2 ^ 64 →
      (dec packed_u64_c 0 (It 0 (enc packed_u64_c z [])) = inr (z, It (zlen (enc packed_u64_c z [])) []) ↔ z ≠ 65536).
Proof.
  intros Hwf Hlen. split; [by apply (codec_roundtrip rgw_bucket_dir_c)|]. intros z Hz. by apply packed_roundtrip_iff.
Qed.

Definition demo_entry : rgw_bucket_dir_entry :=
  Mk_rgw_bucket_dir_entry (Mk_cls_rgw_obj_key "name" "") (Mk_rgw_bucket_entry_ver 1 1234)
    "locator" true
    (Mk_rgw_bucket_dir_entry_meta 1 100 (Utime 5 6) "etag" "owner" "display name" "content/type" 100)
    [("t", Mk_rgw_bucket_pending_info 0 (Utime 1 2) 1);
     ("t", Mk_rgw_bucket_pending_info 1 (Utime 3 4) 0)]
    70000 "tag" 3 9.

Definition demo_dir : rgw_bucket_dir :=
  Mk_rgw_bucket_dir
    (Mk_rgw_bucket_dir_header [(0, Mk_rgw_bucket_category_stats 1 2 3);
                               (1, Mk_rgw_bucket_category_stats 1024 4096 2)] 60 7 8 "m")
    [("name", demo_entry)].

Lemma bucket_dir_roundtrip_witness :
  decode_rgw_bucket_dir (Mk_rgw_bucket_dir rgw_bucket_dir_header_new [])
      (It 0 (encode_rgw_bucket_dir demo_dir [])) =
    inr (demo_dir, It (zlen (encode_rgw_bucket_dir demo_dir [])) []).
Proof.
  refine (proj1 (bucket_dir_roundtrip demo_dir (Mk_rgw_bucket_dir rgw_bucket_dir_header_new []) _ _)).
  - wf_closed.
  - vm_compute. reflexivity.
Defined.

(** The entries of the index log, of the object head log, of the usage log
    and of the garbage collector's log round-trip. *)
Lemma index_logs_roundtrip bl oe ui gi bl0 oe0 ui0 gi0 :
  wf_rgw_bi_log_entry bl → wf_rgw_bucket_olh_entry oe →
  wf_rgw_usage_log_info ui → wf_cls_rgw_gc_obj_info gi →
  zlen (encode_rgw_bi_log_entry bl []) < 2 ^ 32 →
  zlen (encode_rgw_bucket_olh_entry oe []) < 2 ^ 32 →
  zlen (encode_rgw_usage_log_info ui []) < 2 ^ 32 →
  zlen (encode_cls_rgw_gc_obj_info gi []) < 2 ^ 32 →
  decode_rgw_bi_log_entry bl0 (It 0 (encode_rgw_bi_log_entry bl [])) =
    inr (bl, It (zlen (encode_rgw_bi_log_entry bl [])) []) ∧
  decode_rgw_bucket_olh_entry oe0 (It 0 (encode_rgw_bucket_olh_entry oe [])) =
    inr (oe, It (zlen (encode_rgw_bucket_olh_entry oe [])) []) ∧
  decode_rgw_usage_log_info ui0 (It 0 (encode_rgw_usage_log_info ui [])) =
    inr (ui, It (zlen (encode_rgw_usage_log_info ui [])) []) ∧
  decode_cls_rgw_gc_obj_info gi0 (It 0 (encode_cls_rgw_gc_obj_info gi [])) =
    inr (gi, It (zlen (encode_cls_rgw_gc_obj_info gi [])) []).
Proof.
  intros. split; [by apply (codec_roundtrip rgw_bi_log_entry_c)|].
  split; [by apply (codec_roundtrip rgw_bucket_olh_entry_c)|].
  split; [by apply (codec_roundtrip rgw_usage_log_info_c)|].
  by apply (codec_roundtrip cls_rgw_gc_obj_info_c).
Qed.

Definition demo_bilog : rgw_bi_log_entry :=
  Mk_rgw_bi_log_entry "midf" "obj" "" (Utime 2 3) (Mk_rgw_bucket_entry_ver (-1) 5)
    CLS_RGW_OP_DEL CLS_RGW_STATE_PENDING_MODIFY 4323 "tagasdfds" 1.
Definition demo_olh : rgw_bucket_olh_entry :=
  Mk_rgw_bucket_olh_entry (Mk_cls_rgw_obj_key "k" "i") false 3
    [(1, [Mk_rgw_bucket_olh_log_entry 1 1 "t" (Mk_cls_rgw_obj_key "k" "i") true]); (2, [])]
    "tag" true false.
Definition demo_gc : cls_rgw_gc_obj_info :=
  Mk_cls_rgw_gc_obj_info "footag"
    (push_obj cls_rgw_obj_chain_new "mypool" (Mk_cls_rgw_obj_key "myoid" "") "mykey") (Utime 21 32).

Lemma index_logs_roundtrip_witness :
  decode_rgw_bi_log_entry rgw_bi_log_entry_new (It 0 (encode_rgw_bi_log_entry demo_bilog [])) =
    inr (demo_bilog, It (zlen (encode_rgw_bi_log_entry demo_bilog [])) []) ∧
  decode_rgw_bucket_olh_entry rgw_bucket_olh_entry_new (It 0 (encode_rgw_bucket_olh_entry demo_olh [])) =
    inr (demo_olh, It (zlen (encode_rgw_bucket_olh_entry demo_olh [])) []) ∧
  decode_rgw_usage_log_info rgw_usage_log_info_new
      (It 0 (encode_rgw_usage_log_info (Mk_rgw_usage_log_info [demo_usage 3]) [])) =
    inr (Mk_rgw_usage_log_info [demo_usage 3],
         It (zlen (encode_rgw_usage_log_info (Mk_rgw_usage_log_info [demo_usage 3]) [])) []) ∧
  decode_cls_rgw_gc_obj_info cls_rgw_gc_obj_info_new (It 0 (encode_cls_rgw_gc_obj_info demo_gc [])) =
    inr (demo_gc, It (zlen (encode_cls_rgw_gc_obj_info demo_gc [])) []).
Proof.
  apply (index_logs_roundtrip demo_bilog demo_olh (Mk_rgw_usage_log_info [demo_usage 3]) demo_gc
           rgw_bi_log_entry_new rgw_bucket_olh_entry_new rgw_usage_log_info_new cls_rgw_gc_obj_info_new);
    wf_closed.
Defined.

(** An index entry written by version 2 of the code, without compat byte and
    length, is still read: the pool is unknown (-1), and the fields version 2
    did not have keep the values of the object decoded into. *)
Lemma dir_entry_v2_legacy x x0 :
  wf string_c (ok_name (de_key x)) → wf u64_c (ev_epoch (de_ver x)) →
  wf rgw_bucket_dir_entry_meta_c (de_meta x) →
  wf (multimap_c [] rgw_bucket_pending_info_new string_c rgw_bucket_pending_info_c)
     (de_pending_map x) →
  wf string_c (de_locator x) →
  let bs := le_bytes 1 2 ++
    (enc string_c (ok_name (de_key x)) >>> enc u64_c (ev_epoch (de_ver x)) >>>
     enc bool_c (de_exists x) >>> enc rgw_bucket_dir_entry_meta_c (de_meta x) >>>
     enc (multimap_c [] rgw_bucket_pending_info_new string_c rgw_bucket_pending_info_c)
         (de_pending_map x) >>>
     enc string_c (de_locator x)) [] in
  zlen bs < 2 ^ 32 →
  decode_rgw_bucket_dir_entry x0 (It 0 bs) =
    inr (Mk_rgw_bucket_dir_entry
           (Mk_cls_rgw_obj_key (ok_name (de_key x)) (ok_instance (de_key x0)))
           (Mk_rgw_bucket_entry_ver (-1) (ev_epoch (de_ver x)))
           (de_locator x) (de_exists x) (de_meta x) (de_pending_map x)
           (de_index_ver x0) (de_tag x0) (de_flags x0) (de_versioned_epoch x0),
         It (zlen bs) []).
Proof.
  intros Hn He Hm Hp Hl bs Hlen. apply reads_whole; [|exact Hlen].
  apply reads_DECODE_LEGACY_old; [lia|lia|lia|]. version_cbn.
  assert (Hb : wf bool_c (de_exists x)) by exact I.
  reads_solve.
Qed.

Lemma dir_entry_v2_legacy_witness :
  let bs := le_bytes 1 2 ++
    (enc string_c (ok_name (de_key demo_entry)) >>> enc u64_c (ev_epoch (de_ver demo_entry)) >>>
     enc bool_c (de_exists demo_entry) >>> enc rgw_bucket_dir_entry_meta_c (de_meta demo_entry) >>>
     enc (multimap_c [] rgw_bucket_pending_info_new string_c rgw_bucket_pending_info_c)
         (de_pending_map demo_entry) >>>
     enc string_c (de_locator demo_entry)) [] in
  decode_rgw_bucket_dir_entry rgw_bucket_dir_entry_new (It 0 bs) =
    inr (Mk_rgw_bucket_dir_entry (Mk_cls_rgw_obj_key "name" "")
           (Mk_rgw_bucket_entry_ver (-1) 1234) "locator" true (de_meta demo_entry)
           (de_pending_map demo_entry) 0 [] 0 0,
         It (zlen bs) []).
Proof.
  apply (dir_entry_v2_legacy demo_entry rgw_bucket_dir_entry_new); wf_closed.
Defined.

(** ** Keys and visibility *)

(** [operator<] on object keys is a strict total order whose equality is
    [operator==], that is equality of the keys: they can index a map. *)
Lemma obj_key_order :
  (∀ a b, cls_rgw_obj_key_eqb a b = true ↔ a = b) ∧
  (∀ a, cls_rgw_obj_key_ltb a a = false) ∧
  (∀ a b c, cls_rgw_obj_key_ltb a b = true → cls_rgw_obj_key_ltb b c = true →
            cls_rgw_obj_key_ltb a c = true) ∧
  (∀ a b, cls_rgw_obj_key_ltb a b = true ∨ a = b ∨ cls_rgw_obj_key_ltb b a = true).
Proof.
  assert (Hlt : ∀ a b, cls_rgw_obj_key_ltb a b =
    match compare (ok_name a, ok_instance a) (ok_name b, ok_instance b) with
    | Lt => true | _ => false end) by done.
  assert (Heta : ∀ a b, (ok_name a, ok_instance a) = (ok_name b, ok_instance b) → a = b)
    by (intros [? ?] [? ?]; cbn; congruence).
  split; [|split; [|split]].
  - intros a b. unfold cls_rgw_obj_key_eqb. split.
    + destruct (compare (ok_name a) _) eqn:E1; try done.
      destruct (compare (ok_instance a) _) eqn:E2; try done.
      apply compare_eq in E1, E2. intros _. apply Heta. congruence.
    + intros <-. by rewrite !compare_refl.
  - intros a. by rewrite Hlt, compare_refl.
  - intros a b c. rewrite !Hlt.
    destruct (compare (ok_name a, _) _) eqn:E1; try done.
    destruct (compare (ok_name b, _) (ok_name c, _)) eqn:E2; try done.
    by rewrite (compare_lt_trans _ _ _ E1 E2).
  - intros a b. rewrite !Hlt, (compare_antisym (ok_name a, ok_instance a)).
    destruct (compare (ok_name a, ok_instance a) _) eqn:E; auto.
    apply compare_eq in E. auto.
Qed.

(** What the flags of an index entry mean: an entry is visible when it is not
    a delete marker and is either unversioned or the current instance. *)
Lemma is_visible_spec e :
  is_visible e =
    (negb (Z.testbit (de_flags e) 0) || Z.testbit (de_flags e) 1) && negb (Z.testbit (de_flags e) 2)
  ∧ is_valid e = negb (Z.testbit (de_flags e) 3).
Proof.
  unfold is_visible, is_current, is_delete_marker, is_valid.
  set (f := de_flags e). clearbody f.
  pose proof (land_pow2_eqb 0 f ltac:(lia)) as H0. pose proof (land_pow2_eqb 2 f ltac:(lia)) as H2.
  pose proof (land_pow2_eqb 3 f ltac:(lia)) as H3. 
  change (2 ^ 0) with 1 in H0. change (2 ^ 2) with 4 in H2. change (2 ^ 3) with 8 in H3.
  unfold RGW_BUCKET_DIRENT_FLAG_VER, RGW_BUCKET_DIRENT_FLAG_DELETE_MARKER,
    RGW_BUCKET_DIRENT_FLAG_VER_MARKER, RGW_BUCKET_DIRENT_FLAG_CURRENT.
  rewrite H0, H2, H3, negb_involutive. split; [|done]. f_equal.
  change (Z.lor 1 2) with (Z.ones 2). rewrite Z.land_ones by lia.
  destruct (Z.testbit f 0) eqn:E0; cbn [negb orb]; [|done].
  rewrite Z.testbit_odd, Z.shiftr_div_pow2 by lia. rewrite Z.bit0_odd in E0.
  change (2 ^ 1) with 2. change (2 ^ 2) with (2 * 2). change (Z.ones 2) with 3.
  rewrite Z.rem_mul_r by lia. rewrite <- Z.bit0_mod, Z.bit0_odd, E0. cbn [Z.b2z].
  rewrite <- Z.bit0_mod, Z.bit0_odd. by destruct (Z.odd (f / 2)).
Qed.
