(* ===== verification/ClsRgwOps.v ===== *)
(** * Requests to and replies from the bucket index ([src/src/cls/rgw/cls_rgw_ops.h])

    The arguments and results of the index's methods, with their [encode] and
    [decode] methods.  A [_new] value is the default-constructed object
    (members without a constructor initializer are 0). *)

From S2P Require Import Prelude StdMap Encoding Utime ClsRgwTypes.

(** The order of [rgw_user_bucket] keys in a map: [rgw_user_bucket_ltb]. *)
#[export] Instance rgw_user_bucket_ord : Ord rgw_user_bucket := λ a b,
  compare (ub_user a, ub_bucket a) (ub_user b, ub_bucket b).

(** [rgw_cls_tag_timeout_op] *)
Record rgw_cls_tag_timeout_op := Mk_rgw_cls_tag_timeout_op {
  tt_tag_timeout : Z
}.
Definition rgw_cls_tag_timeout_op_new : rgw_cls_tag_timeout_op := Mk_rgw_cls_tag_timeout_op 0.
Definition encode_rgw_cls_tag_timeout_op (x : rgw_cls_tag_timeout_op) : E :=
  ENCODE 1 1
    (enc u64_c (tt_tag_timeout x)).
Definition decode_rgw_cls_tag_timeout_op (x0 : rgw_cls_tag_timeout_op) : D rgw_cls_tag_timeout_op :=
  DECODE 1 (λ struct_v,
    v_tag_timeout ← dec u64_c (tt_tag_timeout x0);
    mret (Mk_rgw_cls_tag_timeout_op v_tag_timeout)).
Definition wf_rgw_cls_tag_timeout_op (x : rgw_cls_tag_timeout_op) : Prop :=
  wf u64_c (tt_tag_timeout x).
Definition rgw_cls_tag_timeout_op_c : codec rgw_cls_tag_timeout_op :=
  Codec encode_rgw_cls_tag_timeout_op decode_rgw_cls_tag_timeout_op wf_rgw_cls_tag_timeout_op.

(** [rgw_cls_obj_prepare_op]: before version 5 the key was a plain name *)
Record rgw_cls_obj_prepare_op := Mk_rgw_cls_obj_prepare_op {
  po_op : Z;
  po_key : cls_rgw_obj_key;
  po_tag : str;
  po_locator : str;
  po_log_op : bool;
  po_bilog_flags : Z
}.
Definition rgw_cls_obj_prepare_op_new : rgw_cls_obj_prepare_op := Mk_rgw_cls_obj_prepare_op CLS_RGW_OP_UNKNOWN cls_rgw_obj_key_new [] [] false 0.
Definition encode_rgw_cls_obj_prepare_op (x : rgw_cls_obj_prepare_op) : E :=
  ENCODE 6 5
    (enc u8_c (po_op x) >>>
     enc string_c (po_tag x) >>>
     enc string_c (po_locator x) >>>
     enc bool_c (po_log_op x) >>>
     enc cls_rgw_obj_key_c (po_key x) >>>
     enc u16_c (po_bilog_flags x)).
Definition decode_rgw_cls_obj_prepare_op (x0 : rgw_cls_obj_prepare_op) : D rgw_cls_obj_prepare_op :=
  DECODE_LEGACY 6 3 3 (λ struct_v,
    v_op ← dec u8_c (po_op x0);
    key0 ← (if struct_v <? 5
            then n ← dec string_c (ok_name (po_key x0)); mret (Mk_cls_rgw_obj_key n (ok_instance (po_key x0)))
            else mret (po_key x0));
    v_tag ← dec string_c (po_tag x0);
    v_locator ← (if struct_v >=? 2 then dec string_c (po_locator x0) else mret (po_locator x0));
    v_log_op ← (if struct_v >=? 4 then dec bool_c (po_log_op x0) else mret (po_log_op x0));
    v_key ← (if struct_v >=? 5 then dec cls_rgw_obj_key_c key0 else mret key0);
    v_bilog_flags ← (if struct_v >=? 6 then dec u16_c (po_bilog_flags x0) else mret (po_bilog_flags x0));
    mret (Mk_rgw_cls_obj_prepare_op v_op v_key v_tag v_locator v_log_op v_bilog_flags)).
Definition wf_rgw_cls_obj_prepare_op (x : rgw_cls_obj_prepare_op) : Prop :=
  wf u8_c (po_op x) ∧
  wf string_c (po_tag x) ∧
  wf string_c (po_locator x) ∧
  wf bool_c (po_log_op x) ∧
  wf cls_rgw_obj_key_c (po_key x) ∧
  wf u16_c (po_bilog_flags x).
Definition rgw_cls_obj_prepare_op_c : codec rgw_cls_obj_prepare_op :=
  Codec encode_rgw_cls_obj_prepare_op decode_rgw_cls_obj_prepare_op wf_rgw_cls_obj_prepare_op.

(** [rgw_cls_obj_complete_op]: versions 4 to 6 listed the objects to remove by name *)
Record rgw_cls_obj_complete_op := Mk_rgw_cls_obj_complete_op {
  cp_op : Z;
  cp_key : cls_rgw_obj_key;
  cp_locator : str;
  cp_ver : rgw_bucket_entry_ver;
  cp_meta : rgw_bucket_dir_entry_meta;
  cp_tag : str;
  cp_log_op : bool;
  cp_bilog_flags : Z;
  cp_remove_objs : list cls_rgw_obj_key
}.
Definition rgw_cls_obj_complete_op_new : rgw_cls_obj_complete_op := Mk_rgw_cls_obj_complete_op 0 cls_rgw_obj_key_new [] rgw_bucket_entry_ver_new rgw_bucket_dir_entry_meta_new [] false 0 [].
Definition encode_rgw_cls_obj_complete_op (x : rgw_cls_obj_complete_op) : E :=
  ENCODE 8 7
    (enc u8_c (cp_op x) >>>
     enc u64_c (ev_epoch (cp_ver x)) >>>
     enc rgw_bucket_dir_entry_meta_c (cp_meta x) >>>
     enc string_c (cp_tag x) >>>
     enc string_c (cp_locator x) >>>
     enc (list_c cls_rgw_obj_key_new cls_rgw_obj_key_c) (cp_remove_objs x) >>>
     enc rgw_bucket_entry_ver_c (cp_ver x) >>>
     enc bool_c (cp_log_op x) >>>
     enc cls_rgw_obj_key_c (cp_key x) >>>
     enc u16_c (cp_bilog_flags x)).
Definition decode_rgw_cls_obj_complete_op (x0 : rgw_cls_obj_complete_op) : D rgw_cls_obj_complete_op :=
  DECODE_LEGACY 8 3 3 (λ struct_v,
    v_op ← dec u8_c (cp_op x0);
    key0 ← (if struct_v <? 7
            then n ← dec string_c (ok_name (cp_key x0)); mret (Mk_cls_rgw_obj_key n (ok_instance (cp_key x0)))
            else mret (cp_key x0));
    v_ver_epoch ← dec u64_c (ev_epoch (cp_ver x0));
    v_meta ← dec rgw_bucket_dir_entry_meta_c (cp_meta x0);
    v_tag ← dec string_c (cp_tag x0);
    v_locator ← (if struct_v >=? 2 then dec string_c (cp_locator x0) else mret (cp_locator x0));
    v_remove_objs ← (if (struct_v >=? 4) && (struct_v <? 7)
            then old ← dec (list_c [] string_c) [];
                 mret (cp_remove_objs x0 ++ ((λ n, Mk_cls_rgw_obj_key n []) <$> old))
            else dec (list_c cls_rgw_obj_key_new cls_rgw_obj_key_c) (cp_remove_objs x0));
    v_ver ← (if struct_v >=? 5
            then dec rgw_bucket_entry_ver_c (Mk_rgw_bucket_entry_ver (ev_pool (cp_ver x0)) v_ver_epoch)
            else mret (Mk_rgw_bucket_entry_ver (-1) v_ver_epoch));
    v_log_op ← (if struct_v >=? 6 then dec bool_c (cp_log_op x0) else mret (cp_log_op x0));
    v_key ← (if struct_v >=? 7 then dec cls_rgw_obj_key_c key0 else mret key0);
    v_bilog_flags ← (if struct_v >=? 8 then dec u16_c (cp_bilog_flags x0) else mret (cp_bilog_flags x0));
    mret (Mk_rgw_cls_obj_complete_op v_op v_key v_locator v_ver v_meta v_tag v_log_op v_bilog_flags v_remove_objs)).
Definition wf_rgw_cls_obj_complete_op (x : rgw_cls_obj_complete_op) : Prop :=
  wf u8_c (cp_op x) ∧
  wf u64_c (ev_epoch (cp_ver x)) ∧
  wf rgw_bucket_dir_entry_meta_c (cp_meta x) ∧
  wf string_c (cp_tag x) ∧
  wf string_c (cp_locator x) ∧
  wf (list_c cls_rgw_obj_key_new cls_rgw_obj_key_c) (cp_remove_objs x) ∧
  wf rgw_bucket_entry_ver_c (cp_ver x) ∧
  wf bool_c (cp_log_op x) ∧
  wf cls_rgw_obj_key_c (cp_key x) ∧
  wf u16_c (cp_bilog_flags x).
Definition rgw_cls_obj_complete_op_c : codec rgw_cls_obj_complete_op :=
  Codec encode_rgw_cls_obj_complete_op decode_rgw_cls_obj_complete_op wf_rgw_cls_obj_complete_op.

(** [rgw_cls_link_olh_op] *)
Record rgw_cls_link_olh_op := Mk_rgw_cls_link_olh_op {
  lo_key : cls_rgw_obj_key;
  lo_olh_tag : str;
  lo_delete_marker : bool;
  lo_op_tag : str;
  lo_meta : rgw_bucket_dir_entry_meta;
  lo_olh_epoch : Z;
  lo_log_op : bool;
  lo_bilog_flags : Z
}.
Definition rgw_cls_link_olh_op_new : rgw_cls_link_olh_op := Mk_rgw_cls_link_olh_op cls_rgw_obj_key_new [] false [] rgw_bucket_dir_entry_meta_new 0 false 0.
Definition encode_rgw_cls_link_olh_op (x : rgw_cls_link_olh_op) : E :=
  ENCODE 1 1
    (enc cls_rgw_obj_key_c (lo_key x) >>>
     enc string_c (lo_olh_tag x) >>>
     enc bool_c (lo_delete_marker x) >>>
     enc string_c (lo_op_tag x) >>>
     enc rgw_bucket_dir_entry_meta_c (lo_meta x) >>>
     enc u64_c (lo_olh_epoch x) >>>
     enc bool_c (lo_log_op x) >>>
     enc u16_c (lo_bilog_flags x)).
Definition decode_rgw_cls_link_olh_op (x0 : rgw_cls_link_olh_op) : D rgw_cls_link_olh_op :=
  DECODE 1 (λ struct_v,
    v_key ← dec cls_rgw_obj_key_c (lo_key x0);
    v_olh_tag ← dec string_c (lo_olh_tag x0);
    v_delete_marker ← dec bool_c (lo_delete_marker x0);
    v_op_tag ← dec string_c (lo_op_tag x0);
    v_meta ← dec rgw_bucket_dir_entry_meta_c (lo_meta x0);
    v_olh_epoch ← dec u64_c (lo_olh_epoch x0);
    v_log_op ← dec bool_c (lo_log_op x0);
    v_bilog_flags ← dec u16_c (lo_bilog_flags x0);
    mret (Mk_rgw_cls_link_olh_op v_key v_olh_tag v_delete_marker v_op_tag v_meta v_olh_epoch v_log_op v_bilog_flags)).
Definition wf_rgw_cls_link_olh_op (x : rgw_cls_link_olh_op) : Prop :=
  wf cls_rgw_obj_key_c (lo_key x) ∧
  wf string_c (lo_olh_tag x) ∧
  wf bool_c (lo_delete_marker x) ∧
  wf string_c (lo_op_tag x) ∧
  wf rgw_bucket_dir_entry_meta_c (lo_meta x) ∧
  wf u64_c (lo_olh_epoch x) ∧
  wf bool_c (lo_log_op x) ∧
  wf u16_c (lo_bilog_flags x).
Definition rgw_cls_link_olh_op_c : codec rgw_cls_link_olh_op :=
  Codec encode_rgw_cls_link_olh_op decode_rgw_cls_link_olh_op wf_rgw_cls_link_olh_op.

(** [rgw_cls_unlink_instance_op] *)
Record rgw_cls_unlink_instance_op := Mk_rgw_cls_unlink_instance_op {
  un_key : cls_rgw_obj_key;
  un_op_tag : str;
  un_olh_epoch : Z;
  un_log_op : bool;
  un_bilog_flags : Z
}.
Definition rgw_cls_unlink_instance_op_new : rgw_cls_unlink_instance_op := Mk_rgw_cls_unlink_instance_op cls_rgw_obj_key_new [] 0 false 0.
Definition encode_rgw_cls_unlink_instance_op (x : rgw_cls_unlink_instance_op) : E :=
  ENCODE 1 1
    (enc cls_rgw_obj_key_c (un_key x) >>>
     enc string_c (un_op_tag x) >>>
     enc u64_c (un_olh_epoch x) >>>
     enc bool_c (un_log_op x) >>>
     enc u16_c (un_bilog_flags x)).
Definition decode_rgw_cls_unlink_instance_op (x0 : rgw_cls_unlink_instance_op) : D rgw_cls_unlink_instance_op :=
  DECODE 1 (λ struct_v,
    v_key ← dec cls_rgw_obj_key_c (un_key x0);
    v_op_tag ← dec string_c (un_op_tag x0);
    v_olh_epoch ← dec u64_c (un_olh_epoch x0);
    v_log_op ← dec bool_c (un_log_op x0);
    v_bilog_flags ← dec u16_c (un_bilog_flags x0);
    mret (Mk_rgw_cls_unlink_instance_op v_key v_op_tag v_olh_epoch v_log_op v_bilog_flags)).
Definition wf_rgw_cls_unlink_instance_op (x : rgw_cls_unlink_instance_op) : Prop :=
  wf cls_rgw_obj_key_c (un_key x) ∧
  wf string_c (un_op_tag x) ∧
  wf u64_c (un_olh_epoch x) ∧
  wf bool_c (un_log_op x) ∧
  wf u16_c (un_bilog_flags x).
Definition rgw_cls_unlink_instance_op_c : codec rgw_cls_unlink_instance_op :=
  Codec encode_rgw_cls_unlink_instance_op decode_rgw_cls_unlink_instance_op wf_rgw_cls_unlink_instance_op.

(** [rgw_cls_read_olh_log_op] *)
Record rgw_cls_read_olh_log_op := Mk_rgw_cls_read_olh_log_op {
  rl_olh : cls_rgw_obj_key;
  rl_ver_marker : Z;
  rl_olh_tag : str
}.
Definition rgw_cls_read_olh_log_op_new : rgw_cls_read_olh_log_op := Mk_rgw_cls_read_olh_log_op cls_rgw_obj_key_new 0 [].
Definition encode_rgw_cls_read_olh_log_op (x : rgw_cls_read_olh_log_op) : E :=
  ENCODE 1 1
    (enc cls_rgw_obj_key_c (rl_olh x) >>>
     enc u64_c (rl_ver_marker x) >>>
     enc string_c (rl_olh_tag x)).
Definition decode_rgw_cls_read_olh_log_op (x0 : rgw_cls_read_olh_log_op) : D rgw_cls_read_olh_log_op :=
  DECODE 1 (λ struct_v,
    v_olh ← dec cls_rgw_obj_key_c (rl_olh x0);
    v_ver_marker ← dec u64_c (rl_ver_marker x0);
    v_olh_tag ← dec string_c (rl_olh_tag x0);
    mret (Mk_rgw_cls_read_olh_log_op v_olh v_ver_marker v_olh_tag)).
Definition wf_rgw_cls_read_olh_log_op (x : rgw_cls_read_olh_log_op) : Prop :=
  wf cls_rgw_obj_key_c (rl_olh x) ∧
  wf u64_c (rl_ver_marker x) ∧
  wf string_c (rl_olh_tag x).
Definition rgw_cls_read_olh_log_op_c : codec rgw_cls_read_olh_log_op :=
  Codec encode_rgw_cls_read_olh_log_op decode_rgw_cls_read_olh_log_op wf_rgw_cls_read_olh_log_op.

(** [rgw_cls_read_olh_log_ret] *)
Record rgw_cls_read_olh_log_ret := Mk_rgw_cls_read_olh_log_ret {
  rr_log : list (Z * list rgw_bucket_olh_log_entry);
  rr_is_truncated : bool
}.
Definition rgw_cls_read_olh_log_ret_new : rgw_cls_read_olh_log_ret := Mk_rgw_cls_read_olh_log_ret [] false.
Definition encode_rgw_cls_read_olh_log_ret (x : rgw_cls_read_olh_log_ret) : E :=
  ENCODE 1 1
    (enc (map_c 0 [] u64_c (vector_c rgw_bucket_olh_log_entry_new rgw_bucket_olh_log_entry_c)) (rr_log x) >>>
     enc bool_c (rr_is_truncated x)).
Definition decode_rgw_cls_read_olh_log_ret (x0 : rgw_cls_read_olh_log_ret) : D rgw_cls_read_olh_log_ret :=
  DECODE 1 (λ struct_v,
    v_log ← dec (map_c 0 [] u64_c (vector_c rgw_bucket_olh_log_entry_new rgw_bucket_olh_log_entry_c)) (rr_log x0);
    v_is_truncated ← dec bool_c (rr_is_truncated x0);
    mret (Mk_rgw_cls_read_olh_log_ret v_log v_is_truncated)).
Definition wf_rgw_cls_read_olh_log_ret (x : rgw_cls_read_olh_log_ret) : Prop :=
  wf (map_c 0 [] u64_c (vector_c rgw_bucket_olh_log_entry_new rgw_bucket_olh_log_entry_c)) (rr_log x) ∧
  wf bool_c (rr_is_truncated x).
Definition rgw_cls_read_olh_log_ret_c : codec rgw_cls_read_olh_log_ret :=
  Codec encode_rgw_cls_read_olh_log_ret decode_rgw_cls_read_olh_log_ret wf_rgw_cls_read_olh_log_ret.

(** [rgw_cls_trim_olh_log_op] *)
Record rgw_cls_trim_olh_log_op := Mk_rgw_cls_trim_olh_log_op {
  tl_olh : cls_rgw_obj_key;
  tl_ver : Z;
  tl_olh_tag : str
}.
Definition rgw_cls_trim_olh_log_op_new : rgw_cls_trim_olh_log_op := Mk_rgw_cls_trim_olh_log_op cls_rgw_obj_key_new 0 [].
Definition encode_rgw_cls_trim_olh_log_op (x : rgw_cls_trim_olh_log_op) : E :=
  ENCODE 1 1
    (enc cls_rgw_obj_key_c (tl_olh x) >>>
     enc u64_c (tl_ver x) >>>
     enc string_c (tl_olh_tag x)).
Definition decode_rgw_cls_trim_olh_log_op (x0 : rgw_cls_trim_olh_log_op) : D rgw_cls_trim_olh_log_op :=
  DECODE 1 (λ struct_v,
    v_olh ← dec cls_rgw_obj_key_c (tl_olh x0);
    v_ver ← dec u64_c (tl_ver x0);
    v_olh_tag ← dec string_c (tl_olh_tag x0);
    mret (Mk_rgw_cls_trim_olh_log_op v_olh v_ver v_olh_tag)).
Definition wf_rgw_cls_trim_olh_log_op (x : rgw_cls_trim_olh_log_op) : Prop :=
  wf cls_rgw_obj_key_c (tl_olh x) ∧
  wf u64_c (tl_ver x) ∧
  wf string_c (tl_olh_tag x).
Definition rgw_cls_trim_olh_log_op_c : codec rgw_cls_trim_olh_log_op :=
  Codec encode_rgw_cls_trim_olh_log_op decode_rgw_cls_trim_olh_log_op wf_rgw_cls_trim_olh_log_op.

(** [rgw_cls_bucket_clear_olh_op] *)
Record rgw_cls_bucket_clear_olh_op := Mk_rgw_cls_bucket_clear_olh_op {
  cl_key : cls_rgw_obj_key;
  cl_olh_tag : str
}.
Definition rgw_cls_bucket_clear_olh_op_new : rgw_cls_bucket_clear_olh_op := Mk_rgw_cls_bucket_clear_olh_op cls_rgw_obj_key_new [].
Definition encode_rgw_cls_bucket_clear_olh_op (x : rgw_cls_bucket_clear_olh_op) : E :=
  ENCODE 1 1
    (enc cls_rgw_obj_key_c (cl_key x) >>>
     enc string_c (cl_olh_tag x)).
Definition decode_rgw_cls_bucket_clear_olh_op (x0 : rgw_cls_bucket_clear_olh_op) : D rgw_cls_bucket_clear_olh_op :=
  DECODE 1 (λ struct_v,
    v_key ← dec cls_rgw_obj_key_c (cl_key x0);
    v_olh_tag ← dec string_c (cl_olh_tag x0);
    mret (Mk_rgw_cls_bucket_clear_olh_op v_key v_olh_tag)).
Definition wf_rgw_cls_bucket_clear_olh_op (x : rgw_cls_bucket_clear_olh_op) : Prop :=
  wf cls_rgw_obj_key_c (cl_key x) ∧
  wf string_c (cl_olh_tag x).
Definition rgw_cls_bucket_clear_olh_op_c : codec rgw_cls_bucket_clear_olh_op :=
  Codec encode_rgw_cls_bucket_clear_olh_op decode_rgw_cls_bucket_clear_olh_op wf_rgw_cls_bucket_clear_olh_op.

(** [rgw_cls_list_op]: before version 4 the start was a plain name *)
Record rgw_cls_list_op := Mk_rgw_cls_list_op {
  li_start_obj : cls_rgw_obj_key;
  li_num_entries : Z;
  li_filter_prefix : str;
  li_list_versions : bool
}.
Definition rgw_cls_list_op_new : rgw_cls_list_op := Mk_rgw_cls_list_op cls_rgw_obj_key_new 0 [] false.
Definition encode_rgw_cls_list_op (x : rgw_cls_list_op) : E :=
  ENCODE 5 4
    (enc u32_c (li_num_entries x) >>>
     enc string_c (li_filter_prefix x) >>>
     enc cls_rgw_obj_key_c (li_start_obj x) >>>
     enc bool_c (li_list_versions x)).
Definition decode_rgw_cls_list_op (x0 : rgw_cls_list_op) : D rgw_cls_list_op :=
  DECODE_LEGACY 5 2 2 (λ struct_v,
    key0 ← (if struct_v <? 4
            then n ← dec string_c (ok_name (li_start_obj x0)); mret (Mk_cls_rgw_obj_key n (ok_instance (li_start_obj x0)))
            else mret (li_start_obj x0));
    v_num_entries ← dec u32_c (li_num_entries x0);
    v_filter_prefix ← (if struct_v >=? 3 then dec string_c (li_filter_prefix x0) else mret (li_filter_prefix x0));
    v_start_obj ← (if struct_v >=? 4 then dec cls_rgw_obj_key_c key0 else mret key0);
    v_list_versions ← (if struct_v >=? 5 then dec bool_c (li_list_versions x0) else mret (li_list_versions x0));
    mret (Mk_rgw_cls_list_op v_start_obj v_num_entries v_filter_prefix v_list_versions)).
Definition wf_rgw_cls_list_op (x : rgw_cls_list_op) : Prop :=
  wf u32_c (li_num_entries x) ∧
  wf string_c (li_filter_prefix x) ∧
  wf cls_rgw_obj_key_c (li_start_obj x) ∧
  wf bool_c (li_list_versions x).
Definition rgw_cls_list_op_c : codec rgw_cls_list_op :=
  Codec encode_rgw_cls_list_op decode_rgw_cls_list_op wf_rgw_cls_list_op.

(** [rgw_cls_list_ret] *)
Record rgw_cls_list_ret := Mk_rgw_cls_list_ret {
  lr_dir : rgw_bucket_dir;
  lr_is_truncated : bool
}.
Definition rgw_cls_list_ret_new : rgw_cls_list_ret := Mk_rgw_cls_list_ret rgw_bucket_dir_new false.
Definition encode_rgw_cls_list_ret (x : rgw_cls_list_ret) : E :=
  ENCODE 2 2
    (enc rgw_bucket_dir_c (lr_dir x) >>>
     enc bool_c (lr_is_truncated x)).
Definition decode_rgw_cls_list_ret (x0 : rgw_cls_list_ret) : D rgw_cls_list_ret :=
  DECODE_LEGACY 2 2 2 (λ struct_v,
    v_dir ← dec rgw_bucket_dir_c (lr_dir x0);
    v_is_truncated ← dec bool_c (lr_is_truncated x0);
    mret (Mk_rgw_cls_list_ret v_dir v_is_truncated)).
Definition wf_rgw_cls_list_ret (x : rgw_cls_list_ret) : Prop :=
  wf rgw_bucket_dir_c (lr_dir x) ∧
  wf bool_c (lr_is_truncated x).
Definition rgw_cls_list_ret_c : codec rgw_cls_list_ret :=
  Codec encode_rgw_cls_list_ret decode_rgw_cls_list_ret wf_rgw_cls_list_ret.

(** [rgw_cls_check_index_ret] *)
Record rgw_cls_check_index_ret := Mk_rgw_cls_check_index_ret {
  ci_existing_header : rgw_bucket_dir_header;
  ci_calculated_header : rgw_bucket_dir_header
}.
Definition rgw_cls_check_index_ret_new : rgw_cls_check_index_ret := Mk_rgw_cls_check_index_ret rgw_bucket_dir_header_new rgw_bucket_dir_header_new.
Definition encode_rgw_cls_check_index_ret (x : rgw_cls_check_index_ret) : E :=
  ENCODE 1 1
    (enc rgw_bucket_dir_header_c (ci_existing_header x) >>>
     enc rgw_bucket_dir_header_c (ci_calculated_header x)).
Definition decode_rgw_cls_check_index_ret (x0 : rgw_cls_check_index_ret) : D rgw_cls_check_index_ret :=
  DECODE 1 (λ struct_v,
    v_existing_header ← dec rgw_bucket_dir_header_c (ci_existing_header x0);
    v_calculated_header ← dec rgw_bucket_dir_header_c (ci_calculated_header x0);
    mret (Mk_rgw_cls_check_index_ret v_existing_header v_calculated_header)).
Definition wf_rgw_cls_check_index_ret (x : rgw_cls_check_index_ret) : Prop :=
  wf rgw_bucket_dir_header_c (ci_existing_header x) ∧
  wf rgw_bucket_dir_header_c (ci_calculated_header x).
Definition rgw_cls_check_index_ret_c : codec rgw_cls_check_index_ret :=
  Codec encode_rgw_cls_check_index_ret decode_rgw_cls_check_index_ret wf_rgw_cls_check_index_ret.

(** [rgw_cls_obj_remove_op] *)
Record rgw_cls_obj_remove_op := Mk_rgw_cls_obj_remove_op {
  ro_keep_attr_prefixes : list str
}.
Definition rgw_cls_obj_remove_op_new : rgw_cls_obj_remove_op := Mk_rgw_cls_obj_remove_op [].
Definition encode_rgw_cls_obj_remove_op (x : rgw_cls_obj_remove_op) : E :=
  ENCODE 1 1
    (enc (list_c [] string_c) (ro_keep_attr_prefixes x)).
Definition decode_rgw_cls_obj_remove_op (x0 : rgw_cls_obj_remove_op) : D rgw_cls_obj_remove_op :=
  DECODE 1 (λ struct_v,
    v_keep_attr_prefixes ← dec (list_c [] string_c) (ro_keep_attr_prefixes x0);
    mret (Mk_rgw_cls_obj_remove_op v_keep_attr_prefixes)).
Definition wf_rgw_cls_obj_remove_op (x : rgw_cls_obj_remove_op) : Prop :=
  wf (list_c [] string_c) (ro_keep_attr_prefixes x).
Definition rgw_cls_obj_remove_op_c : codec rgw_cls_obj_remove_op :=
  Codec encode_rgw_cls_obj_remove_op decode_rgw_cls_obj_remove_op wf_rgw_cls_obj_remove_op.

(** [rgw_cls_obj_check_attrs_prefix] *)
Record rgw_cls_obj_check_attrs_prefix := Mk_rgw_cls_obj_check_attrs_prefix {
  ca_check_prefix : str;
  ca_fail_if_exist : bool
}.
Definition rgw_cls_obj_check_attrs_prefix_new : rgw_cls_obj_check_attrs_prefix := Mk_rgw_cls_obj_check_attrs_prefix [] false.
Definition encode_rgw_cls_obj_check_attrs_prefix (x : rgw_cls_obj_check_attrs_prefix) : E :=
  ENCODE 1 1
    (enc string_c (ca_check_prefix x) >>>
     enc bool_c (ca_fail_if_exist x)).
Definition decode_rgw_cls_obj_check_attrs_prefix (x0 : rgw_cls_obj_check_attrs_prefix) : D rgw_cls_obj_check_attrs_prefix :=
  DECODE 1 (λ struct_v,
    v_check_prefix ← dec string_c (ca_check_prefix x0);
    v_fail_if_exist ← dec bool_c (ca_fail_if_exist x0);
    mret (Mk_rgw_cls_obj_check_attrs_prefix v_check_prefix v_fail_if_exist)).
Definition wf_rgw_cls_obj_check_attrs_prefix (x : rgw_cls_obj_check_attrs_prefix) : Prop :=
  wf string_c (ca_check_prefix x) ∧
  wf bool_c (ca_fail_if_exist x).
Definition rgw_cls_obj_check_attrs_prefix_c : codec rgw_cls_obj_check_attrs_prefix :=
  Codec encode_rgw_cls_obj_check_attrs_prefix decode_rgw_cls_obj_check_attrs_prefix wf_rgw_cls_obj_check_attrs_prefix.

(** [rgw_cls_usage_log_add_op] *)
Record rgw_cls_usage_log_add_op := Mk_rgw_cls_usage_log_add_op {
  ua_info : rgw_usage_log_info
}.
Definition rgw_cls_usage_log_add_op_new : rgw_cls_usage_log_add_op := Mk_rgw_cls_usage_log_add_op rgw_usage_log_info_new.
Definition encode_rgw_cls_usage_log_add_op (x : rgw_cls_usage_log_add_op) : E :=
  ENCODE 1 1
    (enc rgw_usage_log_info_c (ua_info x)).
Definition decode_rgw_cls_usage_log_add_op (x0 : rgw_cls_usage_log_add_op) : D rgw_cls_usage_log_add_op :=
  DECODE 1 (λ struct_v,
    v_info ← dec rgw_usage_log_info_c (ua_info x0);
    mret (Mk_rgw_cls_usage_log_add_op v_info)).
Definition wf_rgw_cls_usage_log_add_op (x : rgw_cls_usage_log_add_op) : Prop :=
  wf rgw_usage_log_info_c (ua_info x).
Definition rgw_cls_usage_log_add_op_c : codec rgw_cls_usage_log_add_op :=
  Codec encode_rgw_cls_usage_log_add_op decode_rgw_cls_usage_log_add_op wf_rgw_cls_usage_log_add_op.

(** [rgw_cls_bi_get_op] *)
Record rgw_cls_bi_get_op := Mk_rgw_cls_bi_get_op {
  bg_key : cls_rgw_obj_key;
  bg_type : Z
}.
Definition rgw_cls_bi_get_op_new : rgw_cls_bi_get_op := Mk_rgw_cls_bi_get_op cls_rgw_obj_key_new 1.
Definition encode_rgw_cls_bi_get_op (x : rgw_cls_bi_get_op) : E :=
  ENCODE 1 1
    (enc cls_rgw_obj_key_c (bg_key x) >>>
     enc u8_c (bg_type x)).
Definition decode_rgw_cls_bi_get_op (x0 : rgw_cls_bi_get_op) : D rgw_cls_bi_get_op :=
  DECODE 1 (λ struct_v,
    v_key ← dec cls_rgw_obj_key_c (bg_key x0);
    v_type ← dec u8_c (bg_type x0);
    mret (Mk_rgw_cls_bi_get_op v_key v_type)).
Definition wf_rgw_cls_bi_get_op (x : rgw_cls_bi_get_op) : Prop :=
  wf cls_rgw_obj_key_c (bg_key x) ∧
  wf u8_c (bg_type x).
Definition rgw_cls_bi_get_op_c : codec rgw_cls_bi_get_op :=
  Codec encode_rgw_cls_bi_get_op decode_rgw_cls_bi_get_op wf_rgw_cls_bi_get_op.

(** [rgw_cls_bi_get_ret] *)
Record rgw_cls_bi_get_ret := Mk_rgw_cls_bi_get_ret {
  br_entry : rgw_cls_bi_entry
}.
Definition rgw_cls_bi_get_ret_new : rgw_cls_bi_get_ret := Mk_rgw_cls_bi_get_ret rgw_cls_bi_entry_new.
Definition encode_rgw_cls_bi_get_ret (x : rgw_cls_bi_get_ret) : E :=
  ENCODE 1 1
    (enc rgw_cls_bi_entry_c (br_entry x)).
Definition decode_rgw_cls_bi_get_ret (x0 : rgw_cls_bi_get_ret) : D rgw_cls_bi_get_ret :=
  DECODE 1 (λ struct_v,
    v_entry ← dec rgw_cls_bi_entry_c (br_entry x0);
    mret (Mk_rgw_cls_bi_get_ret v_entry)).
Definition wf_rgw_cls_bi_get_ret (x : rgw_cls_bi_get_ret) : Prop :=
  wf rgw_cls_bi_entry_c (br_entry x).
Definition rgw_cls_bi_get_ret_c : codec rgw_cls_bi_get_ret :=
  Codec encode_rgw_cls_bi_get_ret decode_rgw_cls_bi_get_ret wf_rgw_cls_bi_get_ret.

(** [rgw_cls_bi_put_op] *)
Record rgw_cls_bi_put_op := Mk_rgw_cls_bi_put_op {
  bp_entry : rgw_cls_bi_entry
}.
Definition rgw_cls_bi_put_op_new : rgw_cls_bi_put_op := Mk_rgw_cls_bi_put_op rgw_cls_bi_entry_new.
Definition encode_rgw_cls_bi_put_op (x : rgw_cls_bi_put_op) : E :=
  ENCODE 1 1
    (enc rgw_cls_bi_entry_c (bp_entry x)).
Definition decode_rgw_cls_bi_put_op (x0 : rgw_cls_bi_put_op) : D rgw_cls_bi_put_op :=
  DECODE 1 (λ struct_v,
    v_entry ← dec rgw_cls_bi_entry_c (bp_entry x0);
    mret (Mk_rgw_cls_bi_put_op v_entry)).
Definition wf_rgw_cls_bi_put_op (x : rgw_cls_bi_put_op) : Prop :=
  wf rgw_cls_bi_entry_c (bp_entry x).
Definition rgw_cls_bi_put_op_c : codec rgw_cls_bi_put_op :=
  Codec encode_rgw_cls_bi_put_op decode_rgw_cls_bi_put_op wf_rgw_cls_bi_put_op.

(** [rgw_cls_bi_list_op] *)
Record rgw_cls_bi_list_op := Mk_rgw_cls_bi_list_op {
  bo_max : Z;
  bo_name : str;
  bo_marker : str
}.
Definition rgw_cls_bi_list_op_new : rgw_cls_bi_list_op := Mk_rgw_cls_bi_list_op 0 [] [].
Definition encode_rgw_cls_bi_list_op (x : rgw_cls_bi_list_op) : E :=
  ENCODE 1 1
    (enc u32_c (bo_max x) >>>
     enc string_c (bo_name x) >>>
     enc string_c (bo_marker x)).
Definition decode_rgw_cls_bi_list_op (x0 : rgw_cls_bi_list_op) : D rgw_cls_bi_list_op :=
  DECODE 1 (λ struct_v,
    v_max ← dec u32_c (bo_max x0);
    v_name ← dec string_c (bo_name x0);
    v_marker ← dec string_c (bo_marker x0);
    mret (Mk_rgw_cls_bi_list_op v_max v_name v_marker)).
Definition wf_rgw_cls_bi_list_op (x : rgw_cls_bi_list_op) : Prop :=
  wf u32_c (bo_max x) ∧
  wf string_c (bo_name x) ∧
  wf string_c (bo_marker x).
Definition rgw_cls_bi_list_op_c : codec rgw_cls_bi_list_op :=
  Codec encode_rgw_cls_bi_list_op decode_rgw_cls_bi_list_op wf_rgw_cls_bi_list_op.

(** [rgw_cls_bi_list_ret] *)
Record rgw_cls_bi_list_ret := Mk_rgw_cls_bi_list_ret {
  bt_entries : list rgw_cls_bi_entry;
  bt_is_truncated : bool
}.
Definition rgw_cls_bi_list_ret_new : rgw_cls_bi_list_ret := Mk_rgw_cls_bi_list_ret [] false.
Definition encode_rgw_cls_bi_list_ret (x : rgw_cls_bi_list_ret) : E :=
  ENCODE 1 1
    (enc (list_c rgw_cls_bi_entry_new rgw_cls_bi_entry_c) (bt_entries x) >>>
     enc bool_c (bt_is_truncated x)).
Definition decode_rgw_cls_bi_list_ret (x0 : rgw_cls_bi_list_ret) : D rgw_cls_bi_list_ret :=
  DECODE 1 (λ struct_v,
    v_entries ← dec (list_c rgw_cls_bi_entry_new rgw_cls_bi_entry_c) (bt_entries x0);
    v_is_truncated ← dec bool_c (bt_is_truncated x0);
    mret (Mk_rgw_cls_bi_list_ret v_entries v_is_truncated)).
Definition wf_rgw_cls_bi_list_ret (x : rgw_cls_bi_list_ret) : Prop :=
  wf (list_c rgw_cls_bi_entry_new rgw_cls_bi_entry_c) (bt_entries x) ∧
  wf bool_c (bt_is_truncated x).
Definition rgw_cls_bi_list_ret_c : codec rgw_cls_bi_list_ret :=
  Codec encode_rgw_cls_bi_list_ret decode_rgw_cls_bi_list_ret wf_rgw_cls_bi_list_ret.

(** [rgw_cls_usage_log_read_op] *)
Record rgw_cls_usage_log_read_op := Mk_rgw_cls_usage_log_read_op {
  uo_start_epoch : Z;
  uo_end_epoch : Z;
  uo_owner : str;
  uo_iter : str;
  uo_max_entries : Z
}.
Definition rgw_cls_usage_log_read_op_new : rgw_cls_usage_log_read_op := Mk_rgw_cls_usage_log_read_op 0 0 [] [] 0.
Definition encode_rgw_cls_usage_log_read_op (x : rgw_cls_usage_log_read_op) : E :=
  ENCODE 1 1
    (enc u64_c (uo_start_epoch x) >>>
     enc u64_c (uo_end_epoch x) >>>
     enc string_c (uo_owner x) >>>
     enc string_c (uo_iter x) >>>
     enc u32_c (uo_max_entries x)).
Definition decode_rgw_cls_usage_log_read_op (x0 : rgw_cls_usage_log_read_op) : D rgw_cls_usage_log_read_op :=
  DECODE 1 (λ struct_v,
    v_start_epoch ← dec u64_c (uo_start_epoch x0);
    v_end_epoch ← dec u64_c (uo_end_epoch x0);
    v_owner ← dec string_c (uo_owner x0);
    v_iter ← dec string_c (uo_iter x0);
    v_max_entries ← dec u32_c (uo_max_entries x0);
    mret (Mk_rgw_cls_usage_log_read_op v_start_epoch v_end_epoch v_owner v_iter v_max_entries)).
Definition wf_rgw_cls_usage_log_read_op (x : rgw_cls_usage_log_read_op) : Prop :=
  wf u64_c (uo_start_epoch x) ∧
  wf u64_c (uo_end_epoch x) ∧
  wf string_c (uo_owner x) ∧
  wf string_c (uo_iter x) ∧
  wf u32_c (uo_max_entries x).
Definition rgw_cls_usage_log_read_op_c : codec rgw_cls_usage_log_read_op :=
  Codec encode_rgw_cls_usage_log_read_op decode_rgw_cls_usage_log_read_op wf_rgw_cls_usage_log_read_op.

(** [rgw_cls_usage_log_read_ret] *)
Record rgw_cls_usage_log_read_ret := Mk_rgw_cls_usage_log_read_ret {
  ur_usage : list (rgw_user_bucket * rgw_usage_log_entry);
  ur_truncated : bool;
  ur_next_iter : str
}.
Definition rgw_cls_usage_log_read_ret_new : rgw_cls_usage_log_read_ret := Mk_rgw_cls_usage_log_read_ret [] false [].
Definition encode_rgw_cls_usage_log_read_ret (x : rgw_cls_usage_log_read_ret) : E :=
  ENCODE 1 1
    (enc (map_c rgw_user_bucket_new rgw_usage_log_entry_new rgw_user_bucket_c rgw_usage_log_entry_c) (ur_usage x) >>>
     enc bool_c (ur_truncated x) >>>
     enc string_c (ur_next_iter x)).
Definition decode_rgw_cls_usage_log_read_ret (x0 : rgw_cls_usage_log_read_ret) : D rgw_cls_usage_log_read_ret :=
  DECODE 1 (λ struct_v,
    v_usage ← dec (map_c rgw_user_bucket_new rgw_usage_log_entry_new rgw_user_bucket_c rgw_usage_log_entry_c) (ur_usage x0);
    v_truncated ← dec bool_c (ur_truncated x0);
    v_next_iter ← dec string_c (ur_next_iter x0);
    mret (Mk_rgw_cls_usage_log_read_ret v_usage v_truncated v_next_iter)).
Definition wf_rgw_cls_usage_log_read_ret (x : rgw_cls_usage_log_read_ret) : Prop :=
  wf (map_c rgw_user_bucket_new rgw_usage_log_entry_new rgw_user_bucket_c rgw_usage_log_entry_c) (ur_usage x) ∧
  wf bool_c (ur_truncated x) ∧
  wf string_c (ur_next_iter x).
Definition rgw_cls_usage_log_read_ret_c : codec rgw_cls_usage_log_read_ret :=
  Codec encode_rgw_cls_usage_log_read_ret decode_rgw_cls_usage_log_read_ret wf_rgw_cls_usage_log_read_ret.

(** [rgw_cls_usage_log_trim_op] *)
Record rgw_cls_usage_log_trim_op := Mk_rgw_cls_usage_log_trim_op {
  ut_start_epoch : Z;
  ut_end_epoch : Z;
  ut_user : str
}.
Definition rgw_cls_usage_log_trim_op_new : rgw_cls_usage_log_trim_op := Mk_rgw_cls_usage_log_trim_op 0 0 [].
Definition encode_rgw_cls_usage_log_trim_op (x : rgw_cls_usage_log_trim_op) : E :=
  ENCODE 2 2
    (enc u64_c (ut_start_epoch x) >>>
     enc u64_c (ut_end_epoch x) >>>
     enc string_c (ut_user x)).
Definition decode_rgw_cls_usage_log_trim_op (x0 : rgw_cls_usage_log_trim_op) : D rgw_cls_usage_log_trim_op :=
  DECODE 2 (λ struct_v,
    v_start_epoch ← dec u64_c (ut_start_epoch x0);
    v_end_epoch ← dec u64_c (ut_end_epoch x0);
    v_user ← dec string_c (ut_user x0);
    mret (Mk_rgw_cls_usage_log_trim_op v_start_epoch v_end_epoch v_user)).
Definition wf_rgw_cls_usage_log_trim_op (x : rgw_cls_usage_log_trim_op) : Prop :=
  wf u64_c (ut_start_epoch x) ∧
  wf u64_c (ut_end_epoch x) ∧
  wf string_c (ut_user x).
Definition rgw_cls_usage_log_trim_op_c : codec rgw_cls_usage_log_trim_op :=
  Codec encode_rgw_cls_usage_log_trim_op decode_rgw_cls_usage_log_trim_op wf_rgw_cls_usage_log_trim_op.

(** [cls_rgw_gc_set_entry_op] *)
Record cls_rgw_gc_set_entry_op := Mk_cls_rgw_gc_set_entry_op {
  gs_expiration_secs : Z;
  gs_info : cls_rgw_gc_obj_info
}.
Definition cls_rgw_gc_set_entry_op_new : cls_rgw_gc_set_entry_op := Mk_cls_rgw_gc_set_entry_op 0 cls_rgw_gc_obj_info_new.
Definition encode_cls_rgw_gc_set_entry_op (x : cls_rgw_gc_set_entry_op) : E :=
  ENCODE 1 1
    (enc u32_c (gs_expiration_secs x) >>>
     enc cls_rgw_gc_obj_info_c (gs_info x)).
Definition decode_cls_rgw_gc_set_entry_op (x0 : cls_rgw_gc_set_entry_op) : D cls_rgw_gc_set_entry_op :=
  DECODE 1 (λ struct_v,
    v_expiration_secs ← dec u32_c (gs_expiration_secs x0);
    v_info ← dec cls_rgw_gc_obj_info_c (gs_info x0);
    mret (Mk_cls_rgw_gc_set_entry_op v_expiration_secs v_info)).
Definition wf_cls_rgw_gc_set_entry_op (x : cls_rgw_gc_set_entry_op) : Prop :=
  wf u32_c (gs_expiration_secs x) ∧
  wf cls_rgw_gc_obj_info_c (gs_info x).
Definition cls_rgw_gc_set_entry_op_c : codec cls_rgw_gc_set_entry_op :=
  Codec encode_cls_rgw_gc_set_entry_op decode_cls_rgw_gc_set_entry_op wf_cls_rgw_gc_set_entry_op.

(** [cls_rgw_gc_defer_entry_op] *)
Record cls_rgw_gc_defer_entry_op := Mk_cls_rgw_gc_defer_entry_op {
  gd_expiration_secs : Z;
  gd_tag : str
}.
Definition cls_rgw_gc_defer_entry_op_new : cls_rgw_gc_defer_entry_op := Mk_cls_rgw_gc_defer_entry_op 0 [].
Definition encode_cls_rgw_gc_defer_entry_op (x : cls_rgw_gc_defer_entry_op) : E :=
  ENCODE 1 1
    (enc u32_c (gd_expiration_secs x) >>>
     enc string_c (gd_tag x)).
Definition decode_cls_rgw_gc_defer_entry_op (x0 : cls_rgw_gc_defer_entry_op) : D cls_rgw_gc_defer_entry_op :=
  DECODE 1 (λ struct_v,
    v_expiration_secs ← dec u32_c (gd_expiration_secs x0);
    v_tag ← dec string_c (gd_tag x0);
    mret (Mk_cls_rgw_gc_defer_entry_op v_expiration_secs v_tag)).
Definition wf_cls_rgw_gc_defer_entry_op (x : cls_rgw_gc_defer_entry_op) : Prop :=
  wf u32_c (gd_expiration_secs x) ∧
  wf string_c (gd_tag x).
Definition cls_rgw_gc_defer_entry_op_c : codec cls_rgw_gc_defer_entry_op :=
  Codec encode_cls_rgw_gc_defer_entry_op decode_cls_rgw_gc_defer_entry_op wf_cls_rgw_gc_defer_entry_op.

(** [cls_rgw_gc_list_op]: version 1 listed expired entries only *)
Record cls_rgw_gc_list_op := Mk_cls_rgw_gc_list_op {
  gl_marker : str;
  gl_max : Z;
  gl_expired_only : bool
}.
Definition cls_rgw_gc_list_op_new : cls_rgw_gc_list_op := Mk_cls_rgw_gc_list_op [] 0 true.
Definition encode_cls_rgw_gc_list_op (x : cls_rgw_gc_list_op) : E :=
  ENCODE 2 1
    (enc string_c (gl_marker x) >>>
     enc u32_c (gl_max x) >>>
     enc bool_c (gl_expired_only x)).
Definition decode_cls_rgw_gc_list_op (x0 : cls_rgw_gc_list_op) : D cls_rgw_gc_list_op :=
  DECODE 2 (λ struct_v,
    v_marker ← dec string_c (gl_marker x0);
    v_max ← dec u32_c (gl_max x0);
    v_expired_only ← (if struct_v >=? 2 then dec bool_c (gl_expired_only x0) else mret (gl_expired_only x0));
    mret (Mk_cls_rgw_gc_list_op v_marker v_max v_expired_only)).
Definition wf_cls_rgw_gc_list_op (x : cls_rgw_gc_list_op) : Prop :=
  wf string_c (gl_marker x) ∧
  wf u32_c (gl_max x) ∧
  wf bool_c (gl_expired_only x).
Definition cls_rgw_gc_list_op_c : codec cls_rgw_gc_list_op :=
  Codec encode_cls_rgw_gc_list_op decode_cls_rgw_gc_list_op wf_cls_rgw_gc_list_op.

(** [cls_rgw_gc_list_ret] *)
Record cls_rgw_gc_list_ret := Mk_cls_rgw_gc_list_ret {
  gr_entries : list cls_rgw_gc_obj_info;
  gr_truncated : bool
}.
Definition cls_rgw_gc_list_ret_new : cls_rgw_gc_list_ret := Mk_cls_rgw_gc_list_ret [] false.
Definition encode_cls_rgw_gc_list_ret (x : cls_rgw_gc_list_ret) : E :=
  ENCODE 1 1
    (enc (list_c cls_rgw_gc_obj_info_new cls_rgw_gc_obj_info_c) (gr_entries x) >>>
     enc bool_c (gr_truncated x)).
Definition decode_cls_rgw_gc_list_ret (x0 : cls_rgw_gc_list_ret) : D cls_rgw_gc_list_ret :=
  DECODE 1 (λ struct_v,
    v_entries ← dec (list_c cls_rgw_gc_obj_info_new cls_rgw_gc_obj_info_c) (gr_entries x0);
    v_truncated ← dec bool_c (gr_truncated x0);
    mret (Mk_cls_rgw_gc_list_ret v_entries v_truncated)).
Definition wf_cls_rgw_gc_list_ret (x : cls_rgw_gc_list_ret) : Prop :=
  wf (list_c cls_rgw_gc_obj_info_new cls_rgw_gc_obj_info_c) (gr_entries x) ∧
  wf bool_c (gr_truncated x).
Definition cls_rgw_gc_list_ret_c : codec cls_rgw_gc_list_ret :=
  Codec encode_cls_rgw_gc_list_ret decode_cls_rgw_gc_list_ret wf_cls_rgw_gc_list_ret.

(** [cls_rgw_gc_remove_op] *)
Record cls_rgw_gc_remove_op := Mk_cls_rgw_gc_remove_op {
  gm_tags : list str
}.
Definition cls_rgw_gc_remove_op_new : cls_rgw_gc_remove_op := Mk_cls_rgw_gc_remove_op [].
Definition encode_cls_rgw_gc_remove_op (x : cls_rgw_gc_remove_op) : E :=
  ENCODE 1 1
    (enc (list_c [] string_c) (gm_tags x)).
Definition decode_cls_rgw_gc_remove_op (x0 : cls_rgw_gc_remove_op) : D cls_rgw_gc_remove_op :=
  DECODE 1 (λ struct_v,
    v_tags ← dec (list_c [] string_c) (gm_tags x0);
    mret (Mk_cls_rgw_gc_remove_op v_tags)).
Definition wf_cls_rgw_gc_remove_op (x : cls_rgw_gc_remove_op) : Prop :=
  wf (list_c [] string_c) (gm_tags x).
Definition cls_rgw_gc_remove_op_c : codec cls_rgw_gc_remove_op :=
  Codec encode_cls_rgw_gc_remove_op decode_cls_rgw_gc_remove_op wf_cls_rgw_gc_remove_op.

(** [cls_rgw_bi_log_list_op] *)
Record cls_rgw_bi_log_list_op := Mk_cls_rgw_bi_log_list_op {
  ll_marker : str;
  ll_max : Z
}.
Definition cls_rgw_bi_log_list_op_new : cls_rgw_bi_log_list_op := Mk_cls_rgw_bi_log_list_op [] 0.
Definition encode_cls_rgw_bi_log_list_op (x : cls_rgw_bi_log_list_op) : E :=
  ENCODE 1 1
    (enc string_c (ll_marker x) >>>
     enc u32_c (ll_max x)).
Definition decode_cls_rgw_bi_log_list_op (x0 : cls_rgw_bi_log_list_op) : D cls_rgw_bi_log_list_op :=
  DECODE 1 (λ struct_v,
    v_marker ← dec string_c (ll_marker x0);
    v_max ← dec u32_c (ll_max x0);
    mret (Mk_cls_rgw_bi_log_list_op v_marker v_max)).
Definition wf_cls_rgw_bi_log_list_op (x : cls_rgw_bi_log_list_op) : Prop :=
  wf string_c (ll_marker x) ∧
  wf u32_c (ll_max x).
Definition cls_rgw_bi_log_list_op_c : codec cls_rgw_bi_log_list_op :=
  Codec encode_cls_rgw_bi_log_list_op decode_cls_rgw_bi_log_list_op wf_cls_rgw_bi_log_list_op.

(** [cls_rgw_bi_log_trim_op] *)
Record cls_rgw_bi_log_trim_op := Mk_cls_rgw_bi_log_trim_op {
  lt_start_marker : str;
  lt_end_marker : str
}.
Definition cls_rgw_bi_log_trim_op_new : cls_rgw_bi_log_trim_op := Mk_cls_rgw_bi_log_trim_op [] [].
Definition encode_cls_rgw_bi_log_trim_op (x : cls_rgw_bi_log_trim_op) : E :=
  ENCODE 1 1
    (enc string_c (lt_start_marker x) >>>
     enc string_c (lt_end_marker x)).
Definition decode_cls_rgw_bi_log_trim_op (x0 : cls_rgw_bi_log_trim_op) : D cls_rgw_bi_log_trim_op :=
  DECODE 1 (λ struct_v,
    v_start_marker ← dec string_c (lt_start_marker x0);
    v_end_marker ← dec string_c (lt_end_marker x0);
    mret (Mk_cls_rgw_bi_log_trim_op v_start_marker v_end_marker)).
Definition wf_cls_rgw_bi_log_trim_op (x : cls_rgw_bi_log_trim_op) : Prop :=
  wf string_c (lt_start_marker x) ∧
  wf string_c (lt_end_marker x).
Definition cls_rgw_bi_log_trim_op_c : codec cls_rgw_bi_log_trim_op :=
  Codec encode_cls_rgw_bi_log_trim_op decode_cls_rgw_bi_log_trim_op wf_cls_rgw_bi_log_trim_op.

(** [cls_rgw_bi_log_list_ret] *)
Record cls_rgw_bi_log_list_ret := Mk_cls_rgw_bi_log_list_ret {
  lx_entries : list rgw_bi_log_entry;
  lx_truncated : bool
}.
Definition cls_rgw_bi_log_list_ret_new : cls_rgw_bi_log_list_ret := Mk_cls_rgw_bi_log_list_ret [] false.
Definition encode_cls_rgw_bi_log_list_ret (x : cls_rgw_bi_log_list_ret) : E :=
  ENCODE 1 1
    (enc (list_c rgw_bi_log_entry_new rgw_bi_log_entry_c) (lx_entries x) >>>
     enc bool_c (lx_truncated x)).
Definition decode_cls_rgw_bi_log_list_ret (x0 : cls_rgw_bi_log_list_ret) : D cls_rgw_bi_log_list_ret :=
  DECODE 1 (λ struct_v,
    v_entries ← dec (list_c rgw_bi_log_entry_new rgw_bi_log_entry_c) (lx_entries x0);
    v_truncated ← dec bool_c (lx_truncated x0);
    mret (Mk_cls_rgw_bi_log_list_ret v_entries v_truncated)).
Definition wf_cls_rgw_bi_log_list_ret (x : cls_rgw_bi_log_list_ret) : Prop :=
  wf (list_c rgw_bi_log_entry_new rgw_bi_log_entry_c) (lx_entries x) ∧
  wf bool_c (lx_truncated x).
Definition cls_rgw_bi_log_list_ret_c : codec cls_rgw_bi_log_list_ret :=
  Codec encode_cls_rgw_bi_log_list_ret decode_cls_rgw_bi_log_list_ret wf_cls_rgw_bi_log_list_ret.

(** ** The codecs' contracts *)

Lemma rgw_user_bucket_ord_ltb a b :
  rgw_user_bucket_ltb a b = match compare a b with Lt => true | _ => false end.
Proof.
  unfold rgw_user_bucket_ltb, compare at 3, rgw_user_bucket_ord. rewrite compare_pair.
  by destruct (compare (ub_user a) (ub_user b)).
Qed.

#[export] Instance rgw_user_bucket_ord_laws : OrdLaws rgw_user_bucket.
Proof.
  split; unfold compare, rgw_user_bucket_ord; intros.
  - apply (compare_refl (ub_user k, ub_bucket k)).
  - apply (compare_antisym (ub_user k, ub_bucket k)).
  - by eapply (compare_lt_trans (ub_user k, ub_bucket k)).
  - by apply (compare_eq_lt (ub_user k, ub_bucket k)).
Qed.

#[export] Instance rgw_cls_tag_timeout_op_ok : CodecOk rgw_cls_tag_timeout_op_c.
Proof. codec_solve encode_rgw_cls_tag_timeout_op decode_rgw_cls_tag_timeout_op wf_rgw_cls_tag_timeout_op. Qed.

#[export] Instance rgw_cls_obj_prepare_op_ok : CodecOk rgw_cls_obj_prepare_op_c.
Proof. codec_solve encode_rgw_cls_obj_prepare_op decode_rgw_cls_obj_prepare_op wf_rgw_cls_obj_prepare_op. Qed.

#[export] Instance rgw_cls_obj_complete_op_ok : CodecOk rgw_cls_obj_complete_op_c.
Proof. codec_solve encode_rgw_cls_obj_complete_op decode_rgw_cls_obj_complete_op wf_rgw_cls_obj_complete_op. Qed.

#[export] Instance rgw_cls_link_olh_op_ok : CodecOk rgw_cls_link_olh_op_c.
Proof. codec_solve encode_rgw_cls_link_olh_op decode_rgw_cls_link_olh_op wf_rgw_cls_link_olh_op. Qed.

#[export] Instance rgw_cls_unlink_instance_op_ok : CodecOk rgw_cls_unlink_instance_op_c.
Proof. codec_solve encode_rgw_cls_unlink_instance_op decode_rgw_cls_unlink_instance_op wf_rgw_cls_unlink_instance_op. Qed.

#[export] Instance rgw_cls_read_olh_log_op_ok : CodecOk rgw_cls_read_olh_log_op_c.
Proof. codec_solve encode_rgw_cls_read_olh_log_op decode_rgw_cls_read_olh_log_op wf_rgw_cls_read_olh_log_op. Qed.

#[export] Instance rgw_cls_read_olh_log_ret_ok : CodecOk rgw_cls_read_olh_log_ret_c.
Proof. codec_solve encode_rgw_cls_read_olh_log_ret decode_rgw_cls_read_olh_log_ret wf_rgw_cls_read_olh_log_ret. Qed.

#[export] Instance rgw_cls_trim_olh_log_op_ok : CodecOk rgw_cls_trim_olh_log_op_c.
Proof. codec_solve encode_rgw_cls_trim_olh_log_op decode_rgw_cls_trim_olh_log_op wf_rgw_cls_trim_olh_log_op. Qed.

#[export] Instance rgw_cls_bucket_clear_olh_op_ok : CodecOk rgw_cls_bucket_clear_olh_op_c.
Proof. codec_solve encode_rgw_cls_bucket_clear_olh_op decode_rgw_cls_bucket_clear_olh_op wf_rgw_cls_bucket_clear_olh_op. Qed.

#[export] Instance rgw_cls_list_op_ok : CodecOk rgw_cls_list_op_c.
Proof. codec_solve encode_rgw_cls_list_op decode_rgw_cls_list_op wf_rgw_cls_list_op. Qed.

#[export] Instance rgw_cls_list_ret_ok : CodecOk rgw_cls_list_ret_c.
Proof. codec_solve encode_rgw_cls_list_ret decode_rgw_cls_list_ret wf_rgw_cls_list_ret. Qed.

#[export] Instance rgw_cls_check_index_ret_ok : CodecOk rgw_cls_check_index_ret_c.
Proof. codec_solve encode_rgw_cls_check_index_ret decode_rgw_cls_check_index_ret wf_rgw_cls_check_index_ret. Qed.

#[export] Instance rgw_cls_obj_remove_op_ok : CodecOk rgw_cls_obj_remove_op_c.
Proof. codec_solve encode_rgw_cls_obj_remove_op decode_rgw_cls_obj_remove_op wf_rgw_cls_obj_remove_op. Qed.

#[export] Instance rgw_cls_obj_check_attrs_prefix_ok : CodecOk rgw_cls_obj_check_attrs_prefix_c.
Proof. codec_solve encode_rgw_cls_obj_check_attrs_prefix decode_rgw_cls_obj_check_attrs_prefix wf_rgw_cls_obj_check_attrs_prefix. Qed.

#[export] Instance rgw_cls_usage_log_add_op_ok : CodecOk rgw_cls_usage_log_add_op_c.
Proof. codec_solve encode_rgw_cls_usage_log_add_op decode_rgw_cls_usage_log_add_op wf_rgw_cls_usage_log_add_op. Qed.

#[export] Instance rgw_cls_bi_get_op_ok : CodecOk rgw_cls_bi_get_op_c.
Proof. codec_solve encode_rgw_cls_bi_get_op decode_rgw_cls_bi_get_op wf_rgw_cls_bi_get_op. Qed.

#[export] Instance rgw_cls_bi_get_ret_ok : CodecOk rgw_cls_bi_get_ret_c.
Proof. codec_solve encode_rgw_cls_bi_get_ret decode_rgw_cls_bi_get_ret wf_rgw_cls_bi_get_ret. Qed.

#[export] Instance rgw_cls_bi_put_op_ok : CodecOk rgw_cls_bi_put_op_c.
Proof. codec_solve encode_rgw_cls_bi_put_op decode_rgw_cls_bi_put_op wf_rgw_cls_bi_put_op. Qed.

#[export] Instance rgw_cls_bi_list_op_ok : CodecOk rgw_cls_bi_list_op_c.
Proof. codec_solve encode_rgw_cls_bi_list_op decode_rgw_cls_bi_list_op wf_rgw_cls_bi_list_op. Qed.

#[export] Instance rgw_cls_bi_list_ret_ok : CodecOk rgw_cls_bi_list_ret_c.
Proof. codec_solve encode_rgw_cls_bi_list_ret decode_rgw_cls_bi_list_ret wf_rgw_cls_bi_list_ret. Qed.

#[export] Instance rgw_cls_usage_log_read_op_ok : CodecOk rgw_cls_usage_log_read_op_c.
Proof. codec_solve encode_rgw_cls_usage_log_read_op decode_rgw_cls_usage_log_read_op wf_rgw_cls_usage_log_read_op. Qed.

#[export] Instance rgw_cls_usage_log_read_ret_ok : CodecOk rgw_cls_usage_log_read_ret_c.
Proof. codec_solve encode_rgw_cls_usage_log_read_ret decode_rgw_cls_usage_log_read_ret wf_rgw_cls_usage_log_read_ret. Qed.

#[export] Instance rgw_cls_usage_log_trim_op_ok : CodecOk rgw_cls_usage_log_trim_op_c.
Proof. codec_solve encode_rgw_cls_usage_log_trim_op decode_rgw_cls_usage_log_trim_op wf_rgw_cls_usage_log_trim_op. Qed.

#[export] Instance cls_rgw_gc_set_entry_op_ok : CodecOk cls_rgw_gc_set_entry_op_c.
Proof. codec_solve encode_cls_rgw_gc_set_entry_op decode_cls_rgw_gc_set_entry_op wf_cls_rgw_gc_set_entry_op. Qed.

#[export] Instance cls_rgw_gc_defer_entry_op_ok : CodecOk cls_rgw_gc_defer_entry_op_c.
Proof. codec_solve encode_cls_rgw_gc_defer_entry_op decode_cls_rgw_gc_defer_entry_op wf_cls_rgw_gc_defer_entry_op. Qed.

#[export] Instance cls_rgw_gc_list_op_ok : CodecOk cls_rgw_gc_list_op_c.
Proof. codec_solve encode_cls_rgw_gc_list_op decode_cls_rgw_gc_list_op wf_cls_rgw_gc_list_op. Qed.

#[export] Instance cls_rgw_gc_list_ret_ok : CodecOk cls_rgw_gc_list_ret_c.
Proof. codec_solve encode_cls_rgw_gc_list_ret decode_cls_rgw_gc_list_ret wf_cls_rgw_gc_list_ret. Qed.

#[export] Instance cls_rgw_gc_remove_op_ok : CodecOk cls_rgw_gc_remove_op_c.
Proof. codec_solve encode_cls_rgw_gc_remove_op decode_cls_rgw_gc_remove_op wf_cls_rgw_gc_remove_op. Qed.

#[export] Instance cls_rgw_bi_log_list_op_ok : CodecOk cls_rgw_bi_log_list_op_c.
Proof. codec_solve encode_cls_rgw_bi_log_list_op decode_cls_rgw_bi_log_list_op wf_cls_rgw_bi_log_list_op. Qed.

#[export] Instance cls_rgw_bi_log_trim_op_ok : CodecOk cls_rgw_bi_log_trim_op_c.
Proof. codec_solve encode_cls_rgw_bi_log_trim_op decode_cls_rgw_bi_log_trim_op wf_cls_rgw_bi_log_trim_op. Qed.

#[export] Instance cls_rgw_bi_log_list_ret_ok : CodecOk cls_rgw_bi_log_list_ret_c.
Proof. codec_solve encode_cls_rgw_bi_log_list_ret decode_cls_rgw_bi_log_list_ret wf_cls_rgw_bi_log_list_ret. Qed.

(** ** Theorems *)

(** The requests that change a bucket index, and the reply that lists one,
    round-trip. *)
Lemma index_ops_roundtrip po cp lo un lr po0 cp0 lo0 un0 lr0 :
  wf_rgw_cls_obj_prepare_op po → wf_rgw_cls_obj_complete_op cp →
  wf_rgw_cls_link_olh_op lo → wf_rgw_cls_unlink_instance_op un → wf_rgw_cls_list_ret lr →
  zlen (encode_rgw_cls_obj_prepare_op po []) < 2 ^ 32 →
  zlen (encode_rgw_cls_obj_complete_op cp []) < 2 ^ 32 →
  zlen (encode_rgw_cls_link_olh_op lo []) < 2 ^ 32 →
  zlen (encode_rgw_cls_unlink_instance_op un []) < 2 ^ 32 →
  zlen (encode_rgw_cls_list_ret lr []) < 2 ^ 32 →
  decode_rgw_cls_obj_prepare_op po0 (It 0 (encode_rgw_cls_obj_prepare_op po [])) =
    inr (po, It (zlen (encode_rgw_cls_obj_prepare_op po [])) []) ∧
  decode_rgw_cls_obj_complete_op cp0 (It 0 (encode_rgw_cls_obj_complete_op cp [])) =
    inr (cp, It (zlen (encode_rgw_cls_obj_complete_op cp [])) []) ∧
  decode_rgw_cls_link_olh_op lo0 (It 0 (encode_rgw_cls_link_olh_op lo [])) =
    inr (lo, It (zlen (encode_rgw_cls_link_olh_op lo [])) []) ∧
  decode_rgw_cls_unlink_instance_op un0 (It 0 (encode_rgw_cls_unlink_instance_op un [])) =
    inr (un, It (zlen (encode_rgw_cls_unlink_instance_op un [])) []) ∧
  decode_rgw_cls_list_ret lr0 (It 0 (encode_rgw_cls_list_ret lr [])) =
    inr (lr, It (zlen (encode_rgw_cls_list_ret lr [])) []).
Proof.
  intros. split; [by apply (codec_roundtrip rgw_cls_obj_prepare_op_c)|].
  split; [by apply (codec_roundtrip rgw_cls_obj_complete_op_c)|].
  split; [by apply (codec_roundtrip rgw_cls_link_olh_op_c)|].
  split; [by apply (codec_roundtrip rgw_cls_unlink_instance_op_c)|].
  by apply (codec_roundtrip rgw_cls_list_ret_c).
Qed.

Definition demo_meta : rgw_bucket_dir_entry_meta :=
  Mk_rgw_bucket_dir_entry_meta 1 1024 (Utime 10 0) "etag" "owner" "Owner" "text/plain" 1024.
Definition demo_prepare : rgw_cls_obj_prepare_op :=
  Mk_rgw_cls_obj_prepare_op CLS_RGW_OP_ADD (Mk_cls_rgw_obj_key "name" "") "tag" "locator" true 0.
Definition demo_complete : rgw_cls_obj_complete_op :=
  Mk_rgw_cls_obj_complete_op CLS_RGW_OP_DEL (Mk_cls_rgw_obj_key "name" "inst") "locator"
    (Mk_rgw_bucket_entry_ver 2 100) demo_meta "tag" false 1 [Mk_cls_rgw_obj_key "gone" ""].
Definition demo_link : rgw_cls_link_olh_op :=
  Mk_rgw_cls_link_olh_op (Mk_cls_rgw_obj_key "name" "inst") "olh_tag" true "op_tag" demo_meta 123 true 0.
Definition demo_unlink : rgw_cls_unlink_instance_op :=
  Mk_rgw_cls_unlink_instance_op (Mk_cls_rgw_obj_key "name" "inst") "op_tag" 124 true 0.
Definition demo_list : rgw_cls_list_ret := Mk_rgw_cls_list_ret rgw_bucket_dir_new true.

Lemma index_ops_roundtrip_witness :
  decode_rgw_cls_obj_prepare_op rgw_cls_obj_prepare_op_new
      (It 0 (encode_rgw_cls_obj_prepare_op demo_prepare [])) =
    inr (demo_prepare, It (zlen (encode_rgw_cls_obj_prepare_op demo_prepare [])) []) ∧
  decode_rgw_cls_obj_complete_op rgw_cls_obj_complete_op_new
      (It 0 (encode_rgw_cls_obj_complete_op demo_complete [])) =
    inr (demo_complete, It (zlen (encode_rgw_cls_obj_complete_op demo_complete [])) []) ∧
  decode_rgw_cls_link_olh_op rgw_cls_link_olh_op_new
      (It 0 (encode_rgw_cls_link_olh_op demo_link [])) =
    inr (demo_link, It (zlen (encode_rgw_cls_link_olh_op demo_link [])) []) ∧
  decode_rgw_cls_unlink_instance_op rgw_cls_unlink_instance_op_new
      (It 0 (encode_rgw_cls_unlink_instance_op demo_unlink [])) =
    inr (demo_unlink, It (zlen (encode_rgw_cls_unlink_instance_op demo_unlink [])) []) ∧
  decode_rgw_cls_list_ret rgw_cls_list_ret_new (It 0 (encode_rgw_cls_list_ret demo_list [])) =
    inr (demo_list, It (zlen (encode_rgw_cls_list_ret demo_list [])) []).
Proof.
  apply (index_ops_roundtrip demo_prepare demo_complete demo_link demo_unlink demo_list
           rgw_cls_obj_prepare_op_new rgw_cls_obj_complete_op_new rgw_cls_link_olh_op_new
           rgw_cls_unlink_instance_op_new rgw_cls_list_ret_new);
    wf_closed.
Defined.

(** The body of a completion written before version 7, up to the locator. *)
Definition old_complete_fields (x : rgw_cls_obj_complete_op) : E :=
  enc u8_c (cp_op x) >>> enc string_c (ok_name (cp_key x)) >>>
  enc u64_c (ev_epoch (cp_ver x)) >>> enc rgw_bucket_dir_entry_meta_c (cp_meta x) >>>
  enc string_c (cp_tag x) >>> enc string_c (cp_locator x).

(** A completion written by version 6, which named the objects to remove,
    is read with those names as keys without an instance. *)
Lemma complete_op_v6_legacy x x0 (names : list str) :
  wf_rgw_cls_obj_complete_op x → wf string_c (ok_name (cp_key x)) →
  zlen names < 2 ^ 32 → Forall (wf string_c) names →
  let bs := block 6 3 ((old_complete_fields x >>> enc (list_c [] string_c) names >>>
                        enc rgw_bucket_entry_ver_c (cp_ver x) >>> enc bool_c (cp_log_op x)) []) in
  zlen bs < 2 ^ 32 →
  decode_rgw_cls_obj_complete_op x0 (It 0 bs) =
    inr (Mk_rgw_cls_obj_complete_op (cp_op x)
           (Mk_cls_rgw_obj_key (ok_name (cp_key x)) (ok_instance (cp_key x0)))
           (cp_locator x) (cp_ver x) (cp_meta x) (cp_tag x) (cp_log_op x) (cp_bilog_flags x0)
           (cp_remove_objs x0 ++ ((λ n, Mk_cls_rgw_obj_key n []) <$> names)),
         It (zlen bs) []).
Proof.
  intros Hwf Hn Hl Hns bs Hlen. unfold wf_rgw_cls_obj_complete_op in Hwf. destruct_wf Hwf.
  apply reads_whole; [|exact Hlen]. unfold bs. clear bs Hlen.
  rewrite <- (app_nil_r (_ [])). apply reads_DECODE_LEGACY_newer; [lia|lia|lia|lia|lia|].
  assert (wf (list_c [] string_c) names) by done.
  unfold old_complete_fields. rewrite !eseq_assoc. version_cbn. cbn [andb]. reads_solve.
Qed.

Lemma complete_op_v6_legacy_witness :
  let bs := block 6 3 ((old_complete_fields demo_complete >>> enc (list_c [] string_c) ["a"; "b"] >>>
                        enc rgw_bucket_entry_ver_c (cp_ver demo_complete) >>>
                        enc bool_c (cp_log_op demo_complete)) []) in
  decode_rgw_cls_obj_complete_op rgw_cls_obj_complete_op_new (It 0 bs) =
    inr (Mk_rgw_cls_obj_complete_op CLS_RGW_OP_DEL (Mk_cls_rgw_obj_key "name" "") "locator"
           (Mk_rgw_bucket_entry_ver 2 100) demo_meta "tag" false 0
           [Mk_cls_rgw_obj_key "a" ""; Mk_cls_rgw_obj_key "b" ""],
         It (zlen bs) []).
Proof.
  apply (complete_op_v6_legacy demo_complete rgw_cls_obj_complete_op_new ["a"; "b"]); wf_closed.
Defined.

(** A completion written by version 3, which had no list of objects to
    remove, is not read: the branch that handles data older than version 4
    decodes such a list anyway and runs off the end of the buffer. *)
Lemma complete_op_v3_unreadable x x0 :
  wf_rgw_cls_obj_complete_op x → wf string_c (ok_name (cp_key x)) →
  let bs := block 3 3 (old_complete_fields x []) in
  zlen bs < 2 ^ 32 →
  decode_rgw_cls_obj_complete_op x0 (It 0 bs) = inl end_of_buffer.
Proof.
  intros Hwf Hn bs Hlen. unfold wf_rgw_cls_obj_complete_op in Hwf. destruct_wf Hwf.
  enough (Hf : fails (decode_rgw_cls_obj_complete_op x0) bs end_of_buffer) by (apply Hf; lia).
  apply fails_DECODE_LEGACY; [lia|lia|lia|lia|lia|].
  unfold old_complete_fields. version_cbn. cbn [andb]. repeat fails_step.
  apply fails_bind_l, fails_bind_l. by apply fails_raw_nil.
Qed.

Lemma complete_op_v3_unreadable_witness :
  decode_rgw_cls_obj_complete_op rgw_cls_obj_complete_op_new
    (It 0 (block 3 3 (old_complete_fields demo_complete []))) = inl end_of_buffer.
Proof. apply (complete_op_v3_unreadable demo_complete rgw_cls_obj_complete_op_new); wf_closed. Defined.
