(* ===== verification/CString.v ===== *)
(** * Strings: the library functions the gateway uses, and its own string helpers

    The C and C++ library calls ([strcasecmp], [find_first_of], [substr], ...)
    as functions on character lists, the tokenizer of
    [src/src/common/str_list.cc], and the trimming and splitting helpers of
    [src/src/rgw/porting_common.cc].  Positions are natural numbers; the
    [npos] the source turns into a negative [int] is [None]. *)

From S2P Require Import Prelude StdMap.

(** ** The C library *)

Definition NUL : ascii := chr 0.

(** What a [const char *] into the string shows: the characters before the
    first NUL. *)
Fixpoint cstr (s : str) : str :=
  match s with
  | [] => []
  | c :: s' => if decide (c = NUL) then [] else c :: cstr s'
  end.

Definition isspace (c : ascii) : bool :=
  let n := uchar c in (n =? 32) || ((9 <=? n) && (n <=? 13)).
Definition isdigit (c : ascii) : bool := let n := uchar c in (48 <=? n) && (n <=? 57).
Definition isupper (c : ascii) : bool := let n := uchar c in (65 <=? n) && (n <=? 90).
Definition islower (c : ascii) : bool := let n := uchar c in (97 <=? n) && (n <=? 122).
Definition isalpha (c : ascii) : bool := isupper c || islower c.
Definition isalnum (c : ascii) : bool := isdigit c || isupper c || islower c.
Definition tolower (c : ascii) : ascii := if isupper c then chr (uchar c + 32) else c.

(** [strcasecmp] on C strings. *)
Definition strcasecmp (s t : str) : comparison :=
  str_compare (tolower <$> cstr s) (tolower <$> cstr t).
Definition strcaseeq (s t : str) : bool :=
  match strcasecmp s t with Eq => true | _ => false end.

(** [s.compare(t) == 0] *)
Definition streq (s t : str) : bool := bool_decide (s = t).

(** [strncmp(s, prefix, strlen(prefix)) == 0] *)
Fixpoint has_prefix (prefix s : str) : bool :=
  match prefix, s with
  | [], _ => true
  | _ :: _, [] => false
  | c :: p', d :: s' => bool_decide (c = d) && has_prefix p' s'
  end.

(** ** [std::string] *)

Fixpoint find_if (p : ascii → bool) (s : str) : option nat :=
  match s with
  | [] => None
  | c :: s' => if p c then Some O else S <$> find_if p s'
  end.

(** [find_first_of] and friends from a position. *)
Definition find_from (p : ascii → bool) (pos : nat) (s : str) : option nat :=
  (λ i, (pos + i)%nat) <$> find_if p (drop pos s).

(** [find_last_of] and friends. *)
Fixpoint find_last_if (p : ascii → bool) (s : str) : option nat :=
  match s with
  | [] => None
  | c :: s' =>
      match find_last_if p s' with
      | Some i => Some (S i)
      | None => if p c then Some O else None
      end
  end.

(** [s.find(sub)] *)
Fixpoint find_sub (sub s : str) : option nat :=
  if has_prefix sub s then Some O
  else match s with
       | [] => None
       | _ :: s' => S <$> find_sub sub s'
       end.

Definition char_in (set : str) (c : ascii) : bool := bool_decide (c ∈ set).
Definition char_is (d c : ascii) : bool := bool_decide (c = d).
Definition not_in (set : str) (c : ascii) : bool := negb (char_in set c).

(** [s.substr(pos, n)] and [s.substr(pos)] for [pos <= s.size()]. *)
Definition substr (pos n : nat) (s : str) : str := take n (drop pos s).
Definition substr_from (pos : nat) (s : str) : str := drop pos s.

(** ** [common/str_list.cc] *)

(** [get_next_token(s, pos, delims, token)]: the result, the position after
    the token, and the token (the old one when there is none). *)
Definition get_next_token (s : str) (pos : nat) (delims : str) (token : str)
    : bool * nat * str :=
  match find_from (not_in delims) pos s with
  | None => (false, length s, token)
  | Some start =>
      match find_from (char_in delims) start s with
      | Some end_ => (true, S end_, substr start (end_ - start) s)
      | None => (true, length s, substr start (length s - start) s)
      end
  end.

(** The loop of [get_str_list]; the position moves forward every turn, so one
    more turn than there are characters is enough fuel. *)
Fixpoint str_list_loop (fuel : nat) (s : str) (pos : nat) (delims token : str)
    (acc : list str) : list str :=
  match fuel with
  | O => acc
  | S fuel' =>
      if (pos <? length s)%nat then
        let '(found, pos', token') := get_next_token s pos delims token in
        let acc := if found && negb (length token' =? 0)%nat then acc ++ [token'] else acc in
        str_list_loop fuel' s pos' delims token' acc
      else acc
  end.

Definition get_str_list (s delims : str) : list str :=
  str_list_loop (S (length s)) s 0 delims [] [].

Definition default_delims : str := ";,= " ++ [chr 9].
Definition get_str_list_default (s : str) : list str := get_str_list s default_delims.

(** ** Helpers of [rgw/porting_common.cc] *)

Definition spacestr : str := [chr 32; chr 9; chr 10; chr 13; chr 12; chr 11].

(** [trim_whitespace(src, dst)]: an all-blank source leaves [dst] as it was. *)
Definition trim_whitespace (src dst : str) : str :=
  match find_if (not_in spacestr) src with
  | None => dst
  | Some start =>
      match find_last_if (not_in spacestr) src with
      | None => dst
      | Some end_ => substr start (end_ - start + 1) src
      end
  end.

(** [parse_key_value(in_str, delim, key, val)]: the error, or the new key and
    value. *)
Definition parse_key_value (in_str : str) (delim : option str) (key val : str)
    : Z + (str * str) :=
  match delim with
  | None => inl (- EINVAL)
  | Some d =>
      match find_sub d in_str with
      | None => inl (- EINVAL)
      | Some pos =>
          inr (trim_whitespace (substr 0 pos in_str) key,
               trim_whitespace (substr_from (S pos) in_str) val)
      end
  end.

(** The last index above [start] holding a non-blank, or [start]. *)
Fixpoint trim_end (s : str) (start end_ : nat) : nat :=
  match end_ with
  | O => O
  | S e =>
      if (start <? end_)%nat then
        match s !! end_ with
        | Some c => if isspace c then trim_end s start e else end_
        | None => trim_end s start e
        end
      else end_
  end.

Definition rgw_trim_whitespace (src : str) : str :=
  match src with
  | [] => []
  | _ =>
      let start := default (length src) (find_if (λ c, negb (isspace c)) src) in
      if (length src - 1 <? start)%nat then []
      else
        let end_ := trim_end src start (length src - 1) in
        substr start (end_ - start + 1) src
  end.

Definition QUOTE : ascii := chr 34.

Definition rgw_trim_quotes (val : str) : str :=
  let s := rgw_trim_whitespace val in
  if (length s <? 2)%nat then s
  else
    let end_ := (length s - 1)%nat in
    let q1 := bool_decide (s !! 0%nat = Some QUOTE) in
    let q2 := bool_decide (s !! end_ = Some QUOTE) in
    if q1 && q2 then substr 1 (end_ - 1) s (* start = 1, end = end_ - 1 *) else s.

(** [rgw_string_unquote]: trailing blanks after the closing quote are
    tolerated. *)
Fixpoint unquote_len (s : str) (len : nat) : nat :=
  match len with
  | S l =>
      if (2 <? len)%nat then
        if bool_decide (s !! l = Some (chr 32)) then unquote_len s l else len
      else len
  | O => O
  end.

Definition rgw_string_unquote (s : str) : str :=
  if negb (bool_decide (s !! 0%nat = Some QUOTE)) || (length s <? 2)%nat then s
  else
    let len := unquote_len s (length s) in
    if negb (bool_decide (s !! (len - 1)%nat = Some QUOTE)) then s
    else substr 1 (len - 2) s.

Definition rgw_str_to_bool (s : option str) (def_val : Z) : Z :=
  match s with
  | None => def_val
  | Some s => if strcaseeq s "on" || strcaseeq s "yes" || strcaseeq s "1" then 1 else 0
  end.

(** [parse_list_of_flags] *)
Definition parse_list_of_flags (mapping : list (str * Z)) (s : str) : Z :=
  fold_left (λ v tok,
    fold_left (λ v m, if streq tok (fst m) then Z.lor v (snd m) else v) mapping v)
    (get_str_list_default s) 0.

Definition RGW_OP_TYPE_READ : Z := 1.
Definition RGW_OP_TYPE_WRITE : Z := 2.
Definition RGW_OP_TYPE_DELETE : Z := 4.
Definition RGW_OP_TYPE_ALL : Z :=
  Z.lor (Z.lor RGW_OP_TYPE_READ RGW_OP_TYPE_WRITE) RGW_OP_TYPE_DELETE.

Definition op_type_mapping : list (str * Z) :=
  [("*", RGW_OP_TYPE_ALL); ("read", RGW_OP_TYPE_READ);
   ("write", RGW_OP_TYPE_WRITE); ("delete", RGW_OP_TYPE_DELETE)].

Definition rgw_parse_op_type_list (s : str) : Z := parse_list_of_flags op_type_mapping s.

(** ** Lemmas *)

Lemma cstr_no_nul s : NUL ∉ s → cstr s = s.
Proof.
  induction s as [|c s IH]; cbn; [done|]. intros [Hc Hs]%not_elem_of_cons.
  rewrite decide_False by congruence. by rewrite IH.
Qed.

Lemma has_prefix_self p s : has_prefix p (p ++ s) = true.
Proof. induction p; cbn; [done|]. by rewrite bool_decide_eq_true_2. Qed.

Lemma find_sub_here sub s : find_sub sub (sub ++ s) = Some O.
Proof. pose proof (has_prefix_self sub s) as H. destruct (sub ++ s); cbn [find_sub]; by rewrite H. Qed.

Lemma find_if_Some p s i :
  find_if p s = Some i →
  ∃ pre c post, s = pre ++ c :: post ∧ length pre = i ∧ p c = true ∧
                Forall (λ d, p d = false) pre.
Proof.
  revert i. induction s as [|c s IH]; intros i; cbn; [done|].
  destruct (p c) eqn:E; [intros [= <-]; by exists [], c, s|].
  destruct (find_if p s) as [j|]; [|done]. intros [= <-].
  destruct (IH j eq_refl) as (pre & d & post & -> & <- & Hd & Hpre).
  exists (c :: pre), d, post. auto.
Qed.

Lemma find_if_None p s : find_if p s = None → Forall (λ d, p d = false) s.
Proof.
  induction s as [|c s IH]; cbn; [by constructor|].
  destruct (p c) eqn:E; [done|]. destruct (find_if p s); [done|]. auto.
Qed.

Lemma find_if_app p pre c post :
  Forall (λ d, p d = false) pre → p c = true → find_if p (pre ++ c :: post) = Some (length pre).
Proof. induction 1 as [|d pre Hd _ IH]; cbn; intros Hc; [by rewrite Hc|]. by rewrite Hd, IH. Qed.

Lemma find_if_all_false p s : Forall (λ d, p d = false) s → find_if p s = None.
Proof. induction 1 as [|d s Hd _ IH]; cbn; [done|]. by rewrite Hd, IH. Qed.

(** The tokens of a string: its maximal runs of non-delimiters, [cur] being
    the run in progress. *)
Fixpoint words (delim : ascii → bool) (cur s : str) : list str :=
  match s with
  | [] => match cur with [] => [] | _ => [cur] end
  | c :: s' =>
      if delim c
      then match cur with [] => words delim [] s' | _ => cur :: words delim [] s' end
      else words delim (cur ++ [c]) s'
  end.

Lemma words_skip delim pre s :
  Forall (λ c, delim c = true) pre → words delim [] (pre ++ s) = words delim [] s.
Proof. induction 1 as [|c pre Hc _ IH]; cbn; [done|]. by rewrite Hc. Qed.

Lemma words_run delim run cur s :
  Forall (λ c, delim c = false) run → words delim cur (run ++ s) = words delim (cur ++ run) s.
Proof.
  intros Hr. revert cur. induction Hr as [|c run Hc _ IH]; intros cur; cbn; [by rewrite app_nil_r|].
  by rewrite Hc, IH, <- app_assoc.
Qed.

Lemma not_in_false set s :
  Forall (λ d, not_in set d = false) s ↔ Forall (λ d, char_in set d = true) s.
Proof. unfold not_in. by setoid_rewrite negb_false_iff. Qed.

Lemma drop_pos_app (s pre post : str) pos :
  drop pos s = pre ++ post → drop (pos + length pre) s = post.
Proof. intros H. rewrite <- drop_drop, H. apply drop_app_length. Qed.

Lemma drop_length_lt (s : str) pos l : drop pos s = l → l ≠ [] → (pos + length l = length s)%nat.
Proof.
  intros <- Hne. rewrite length_drop. destruct (Nat.le_gt_cases (length s) pos); [|lia].
  by rewrite drop_ge in Hne.
Qed.

(** One turn of the tokenizer on the rest of the string. *)
Lemma get_next_token_spec s pos delims token :
  let rest := drop pos s in
  (∃ tok pos', get_next_token s pos delims token = (true, pos', tok) ∧ tok ≠ [] ∧
     words (char_in delims) [] rest = tok :: words (char_in delims) [] (drop pos' s) ∧
     (pos < pos' ∧ (length s - pos' < length s - pos ∨ drop pos' s = []))%nat) ∨
  (get_next_token s pos delims token = (false, length s, token) ∧
     words (char_in delims) [] rest = []).
Proof.
  cbn. unfold get_next_token, find_from. destruct (find_if _ (drop pos s)) as [i|] eqn:E1; cbn.
  - left. apply find_if_Some in E1 as (pre & c & post & Hs & <- & Hc & Hpre).
    apply not_in_false in Hpre. unfold not_in in Hc. apply negb_true_iff in Hc.
    pose proof (drop_pos_app _ _ _ _ Hs) as Hd.
    pose proof (drop_length_lt _ _ _ Hs) as Hlen. rewrite length_app in Hlen. cbn in Hlen.
    assert (Hne : pre ++ c :: post ≠ []) by (destruct pre; discriminate).
    specialize (Hlen Hne).
    rewrite Hd. destruct (find_if (char_in delims) (c :: post)) as [j|] eqn:E2; cbn.
    + apply find_if_Some in E2 as (run & d & post' & Hp & <- & Hdd & Hrun).
      destruct run as [|r0 run]; [cbn in Hp; congruence|].
      exists (r0 :: run), (S (pos + length pre + length (r0 :: run))). unfold substr.
      assert (Hdr : drop (S (pos + length pre + length (r0 :: run))) s = post').
      { rewrite Hp in Hd. apply drop_pos_app in Hd.
        replace (S (pos + length pre + length (r0 :: run)))
          with (pos + length pre + length (r0 :: run) + length [d])%nat by (cbn; lia).
        apply drop_pos_app. by rewrite Hd. }
      split_and!.
      * f_equal. replace (_ - _)%nat with (length (r0 :: run)) by lia.
        rewrite Hd, Hp. by rewrite take_app_length.
      * done.
      * rewrite Hs, words_skip by done. rewrite Hp, words_run by done. cbn [app words].
        rewrite Hdd. by rewrite Hdr.
      * lia.
      * left. apply (f_equal length) in Hp. rewrite length_app in Hp. cbn in Hp |- *. lia.
    + exists (c :: post), (length s). unfold substr. split_and!.
      * f_equal. rewrite Hd. apply take_ge. cbn. lia.
      * done.
      * rewrite Hs, words_skip by done. apply find_if_None in E2.
        rewrite <- (app_nil_r (c :: post)) at 1. rewrite words_run by done. by rewrite drop_all.
      * lia.
      * right. apply drop_all.
  - right. split; [done|]. apply find_if_None, not_in_false in E1.
    rewrite <- (app_nil_r (drop pos s)). by rewrite words_skip.
Qed.

Lemma str_list_loop_spec fuel s pos delims token acc :
  (length s - pos < fuel)%nat →
  str_list_loop fuel s pos delims token acc = acc ++ words (char_in delims) [] (drop pos s).
Proof.
  revert pos token acc. induction fuel as [|fuel IH]; intros pos token acc Hf; [lia|].
  cbn [str_list_loop]. destruct (Nat.ltb_spec pos (length s)) as [Hpos|Hpos].
  2:{ rewrite drop_ge by done. by rewrite app_nil_r. }
  destruct (get_next_token_spec s pos delims token)
    as [(tok & pos' & -> & Hne & -> & Hlt & Hdec)|[-> ->]].
  - destruct tok as [|t0 tok]; [done|]. cbn [length Nat.eqb negb andb].
    rewrite IH by lia. by rewrite <- app_assoc.
  - cbn [andb]. rewrite IH by lia. by rewrite drop_all.
Qed.

(** ** Theorems *)

(** The tokenizer splits a string into exactly its maximal runs of
    non-delimiters, in order, and its loop terminates: no fuel is left
    wanting. *)
Lemma get_str_list_words s delims :
  get_str_list s delims = words (char_in delims) [] s.
Proof. unfold get_str_list. by rewrite str_list_loop_spec by lia. Qed.
