(* ===== verification/Env.v ===== *)
(** * The request environment ([src/src/rgw/porting_env.cc], [rgw_string.h])

    The CGI variables of a request, in a map ordered (and compared) without
    regard to case.  Names and values arrive as C strings. *)

From S2P Require Import Prelude StdMap CString.

(** ** [ltstr_nocase] *)

Record nocase := NoCase { nc : str }.

#[export] Instance nocase_ord : Ord nocase := λ a b, strcasecmp (nc a) (nc b).

#[export] Instance nocase_laws : OrdLaws nocase.
Proof.
  split; unfold compare, nocase_ord, strcasecmp; intros.
  - apply (compare_refl (K := str)).
  - apply (compare_antisym (K := str)).
  - by eapply (compare_lt_trans (K := str)).
  - by apply (compare_eq_lt (K := str)).
Qed.

(** ** [strtol] in base 10, as [atoi] and [atoll] use it *)

Fixpoint digits_value (acc : Z) (s : str) : Z :=
  match s with
  | c :: s' => if isdigit c then digits_value (acc * 10 + (uchar c - 48)) s' else acc
  | [] => acc
  end.
Fixpoint skip_spaces (s : str) : str :=
  match s with
  | c :: s' => if isspace c then skip_spaces s' else s
  | [] => []
  end.
(** Out of range results saturate. *)
Definition strtol10 (s : str) : Z :=
  let clamp z := Z.max (- 2 ^ 63) (Z.min (2 ^ 63 - 1) z) in
  match skip_spaces (cstr s) with
  | c :: s' =>
      if char_is "-" c then clamp (- digits_value 0 s')
      else if char_is "+" c then clamp (digits_value 0 s')
      else clamp (digits_value 0 (c :: s'))
  | [] => 0
  end.
Definition atoi (s : str) : Z := s32 (strtol10 s).
Definition atoll (s : str) : Z := strtol10 s.

(** ** [RGWEnv] *)

Abbreviation env_map := (list (nocase * str)).

Definition env_set (name : str) (val : option str) (e : env_map) : env_map :=
  mset (NoCase name) (default [] val) e.

(** One [NAME=value] string of the process environment. *)
Definition env_init_entry (e : env_map) (s : str) : env_map :=
  match find_if (char_is "=") s with
  | None | Some O => e
  | Some pos => mset (NoCase (substr 0 pos s)) (substr_from (S pos) s) e
  end.
Definition env_init (envp : list str) : env_map := fold_left env_init_entry envp [].

Definition env_get (name : str) (e : env_map) : option str := mfind (NoCase name) e.
Definition env_get_default (name def_val : str) (e : env_map) : str := default def_val (env_get name e).
Definition env_get_int (name : str) (def_val : Z) (e : env_map) : Z :=
  match env_get name e with None => def_val | Some s => atoi s end.
Definition env_get_bool (name : str) (def_val : bool) (e : env_map) : bool :=
  match env_get name e with
  | None => def_val
  | Some s => negb (rgw_str_to_bool (Some s) (if def_val then 1 else 0) =? 0)
  end.
Definition env_get_size (name : str) (def_val : Z) (e : env_map) : Z :=
  match env_get name e with None => def_val | Some s => u64 (atoll s) end.
Definition env_exists (name : str) (e : env_map) : bool := mmem (NoCase name) e.

(** [lower_bound(k)]: the first entry whose key is not less than [k]. *)
Fixpoint mlower_bound {K V} `{Ord K} (k : K) (m : list (K * V)) : option (K * V) :=
  match m with
  | [] => None
  | p :: m' => match compare (fst p) k with Lt => mlower_bound k m' | _ => Some p end
  end.

Definition env_exists_prefix (prefix : option str) (e : env_map) : bool :=
  match e, prefix with
  | [], _ | _, None => false
  | _, Some pre =>
      match mlower_bound (NoCase pre) e with
      | None => false
      | Some (k, _) => has_prefix pre (nc k)
      end
  end.

Definition env_remove (name : str) (e : env_map) : env_map := merase (NoCase name) e.

(** [RGWConf::init]: the option is no longer read. *)
Definition RGW_DEFER_TO_BUCKET_ACLS_RECURSE : Z := 1.
Definition RGW_DEFER_TO_BUCKET_ACLS_FULL_CONTROL : Z := 2.
Definition conf_defer_to_bucket_acls : Z := RGW_DEFER_TO_BUCKET_ACLS_FULL_CONTROL.

(** ** Lemmas *)

Lemma nocase_eq_iff a b : compare (NoCase a) (NoCase b) = Eq ↔ strcaseeq a b = true.
Proof.
  change (compare (NoCase a) (NoCase b)) with (strcasecmp a b). unfold strcaseeq.
  by destruct (strcasecmp a b).
Qed.

Lemma env_init_sorted envp : msorted (env_init envp).
Proof.
  unfold env_init. assert (Hs : msorted ([] : env_map)) by done. revert Hs.
  generalize ([] : env_map). induction envp as [|s envp IH]; cbn; [done|].
  intros e He. apply IH. unfold env_init_entry.
  destruct (find_if _ s) as [[|pos]|]; [done|by apply mset_sorted|done].
Qed.

(** The environment is looked up without regard to case: after [set] a name
    is found under any spelling, every other name is unaffected, and a removed
    name is gone. *)
Lemma env_case_insensitive name name' v e :
  msorted e →
  (strcaseeq name' name = true → env_get name' (env_set name (Some v) e) = Some v ∧
                                 env_exists name' (env_remove name e) = false) ∧
  (strcaseeq name' name = false → env_get name' (env_set name (Some v) e) = env_get name' e) ∧
  msorted (env_set name (Some v) e) ∧ msorted (env_remove name e).
Proof.
  intros He. unfold env_get, env_set, env_exists, env_remove, mmem. split_and!.
  - rewrite <- nocase_eq_iff. intros E. rewrite !(mfind_equiv _ _ _ E).
    by rewrite mfind_mset_eq, mfind_merase_eq.
  - intros E. apply mfind_mset_nequiv. rewrite nocase_eq_iff. by rewrite E.
  - by apply mset_sorted.
  - by apply merase_sorted.
Qed.

Lemma env_case_insensitive_witness :
  let e := env_init ["HTTP_HOST=h:80"; "REQUEST_METHOD=GET"] in
  env_get "http_Host" (env_set "HTTP_HOST" (Some "x") e) = Some "x" ∧
  env_exists "http_Host" (env_remove "HTTP_HOST" e) = false.
Proof.
  intros e. refine (proj1 (env_case_insensitive "HTTP_HOST" "http_Host" "x" e _) _).
  - apply env_init_sorted.
  - vm_compute. reflexivity.
Defined.
