(* ===== verification/Strtol.v ===== *)
(** * Numbers in strings ([src/src/common/strtol.cc])

    The C library's [strtoll] (any base, with its error number and the place
    where it stopped), the strict conversions the gateway uses for content
    lengths, shard numbers and options, and the decimal notation [printf]
    writes.  The theorems say which strings the strict conversions take, and
    that no conversion overflows silently. *)

From S2P Require Import Prelude StdMap CString Env.

(** ** [strtoll] *)

Definition LLONG_MAX : Z := 2 ^ 63 - 1.
Definition LLONG_MIN : Z := - 2 ^ 63.
Definition INT_MAX : Z := 2 ^ 31 - 1.
Definition INT_MIN : Z := - 2 ^ 31.

(** The value of a digit or letter; 36 and more for what is neither. *)
Definition digit_val (c : ascii) : Z :=
  let n := uchar c in
  if isdigit c then n - 48
  else if isupper c then n - 65 + 10
  else if islower c then n - 97 + 10
  else 255.

(** The longest run of digits of a base, and what follows it. *)
Fixpoint span_digits (base : Z) (s : str) : str * str :=
  match s with
  | c :: s' =>
      if digit_val c <? base then
        let '(ds, r) := span_digits base s' in (c :: ds, r)
      else ([], s)
  | [] => ([], [])
  end.
Definition digits_num (base : Z) (ds : str) : Z :=
  fold_left (λ acc c, acc * base + digit_val c) ds 0.

Definition split_sign (s : str) : bool * str :=
  match s with
  | c :: s' => if char_is "-" c then (true, s') else if char_is "+" c then (false, s') else (false, s)
  | [] => (false, [])
  end.

Definition hex_prefix (s : str) : bool :=
  match s with
  | z :: x :: _ => char_is "0" z && (char_is "x" x || char_is "X" x)
  | _ => false
  end.

(** The base in force and the string after a [0x] prefix. *)
Definition split_base (base : Z) (s : str) : Z * str :=
  if ((base =? 0) || (base =? 16)) && hex_prefix s then (16, drop 2 s)
  else if base =? 0 then
    (match s with c :: _ => if char_is "0" c then 8 else 10 | [] => 10 end, s)
  else (base, s).

(** [strtoll(str, &endptr, base)] on a C string: the value, how far [endptr]
    is from [str], and [errno]. *)
Definition strtoll (s : str) (base : Z) : Z * nat * Z :=
  if (base <? 0) || (base =? 1) || (36 <? base) then (0, O, EINVAL)
  else
    let '(neg, s1) := split_sign (skip_spaces s) in
    let '(b, s2) := split_base base s1 in
    let '(ds, rest) := span_digits b s2 in
    match ds with
    | [] =>
        if (length s2 <? length s1)%nat then (0, (length s - length s1 + 1)%nat, 0)
        else (0, O, 0)
    | _ =>
        let z := if neg then - digits_num b ds else digits_num b ds in
        let consumed := (length s - length rest)%nat in
        if z >? LLONG_MAX then (LLONG_MAX, consumed, ERANGE)
        else if z <? LLONG_MIN then (LLONG_MIN, consumed, ERANGE)
        else (z, consumed, 0)
    end.

(** ** The strict conversions: the value and [*err] *)

Definition seems_invalid (s : str) : str :=
  "The option value '" ++ s ++ "'" ++ " seems to be invalid".

Definition strict_strtoll (str0 : str) (base : Z) : Z * str :=
  let s := cstr str0 in
  let '(ret, endptr, errno) := strtoll s base in
  if ((errno =? ERANGE) && ((ret =? LLONG_MAX) || (ret =? LLONG_MIN)))
     || (negb (errno =? 0) && (ret =? 0))
  then (0, seems_invalid s)
  else if (endptr =? 0)%nat then
    (0, "Expected option value to be integer, got '" ++ s ++ "'")
  else if negb (endptr =? length s)%nat then (0, seems_invalid s)
  else (ret, []).

Definition strict_strtol (str0 : str) (base : Z) : Z * str :=
  let '(ret, err) := strict_strtoll str0 base in
  match err with
  | _ :: _ => (0, err)
  | [] =>
      if (ret <=? INT_MIN) || (ret >=? INT_MAX) then (0, seems_invalid (cstr str0))
      else (ret, [])
  end.

(** The shift of a size suffix, or -1. *)
Definition si_shift (u : ascii) : Z :=
  if char_is "B" u then 0
  else if char_is "K" u then 10
  else if char_is "M" u then 20
  else if char_is "G" u then 30
  else if char_is "T" u then 40
  else if char_is "P" u then 50
  else if char_is "E" u then 60
  else -1.

Definition strict_sistrtoll (str0 : str) : Z * str :=
  let s := cstr str0 in
  match last s with
  | None => (0, "strict_sistrtoll: value not specified")
  | Some u =>
      let m := si_shift u in
      let v := if m >=? 0 then take (length s - 1) s else s in
      let '(r_ll, err) := strict_strtoll v 10 in
      if r_ll <? 0 then (0, "strict_sistrtoll: value should not be negative")
      else
        let r := u64 r_ll in
        match err with
        | [] =>
            if m >? 0 then
              if r >? Z.shiftr (2 ^ 64 - 1) m then
                (0, "strict_sistrtoll: value seems to be too large")
              else (u64 (Z.shiftl r m), [])
            else (r, [])
        | _ => (r, err)
        end
  end.

(** ** Decimal notation, [%lld] and [%d] *)

Fixpoint print_digits (fuel : nat) (n : Z) : str :=
  match fuel with
  | O => []
  | S f => (if n <? 10 then [] else print_digits f (n / 10)) ++ [chr (48 + n mod 10)]
  end.
(** A number has fewer digits than bits. *)
Definition print_nat (n : Z) : str := print_digits (S (Z.to_nat (Z.log2 n))) n.
Definition print_int (z : Z) : str := if z <? 0 then "-" ++ print_nat (- z) else print_nat z.

(** ** What the strict conversions take *)

(** A numeral: blanks, a sign, at least one digit, nothing after. *)
Definition decimal_numeral (s : str) (z : Z) : Prop :=
  ∃ sp sg ds, s = sp ++ sg ++ ds ∧ forallb isspace sp = true ∧ ds ≠ []
    ∧ forallb isdigit ds = true
    ∧ ((sg = [] ∨ sg = "+") ∧ z = digits_num 10 ds
       ∨ sg = "-" ∧ z = - digits_num 10 ds).

Lemma digit_val_ten c : (digit_val c <? 10) = isdigit c.
Proof.
  unfold digit_val. destruct (isdigit c) eqn:E.
  - unfold isdigit in E. apply andb_true_iff in E as [? ?]. zbool. apply Z.ltb_lt. lia.
  - unfold isupper, islower.
    destruct (_ && _) eqn:E1; [|destruct ((97 <=? _) && _) eqn:E2];
      try apply andb_true_iff in E1 as [? ?]; try apply andb_true_iff in E2 as [? ?];
      zbool; apply Z.ltb_ge; lia.
Qed.

Lemma span_digits_app base s : fst (span_digits base s) ++ snd (span_digits base s) = s.
Proof.
  induction s as [|c s IH]; [done|]. cbn. destruct (_ <? _); [|done].
  destruct (span_digits base s); cbn in *. by rewrite IH.
Qed.

Lemma span_digits_all ds r :
  forallb isdigit ds = true → match r with c :: _ => isdigit c = false | [] => True end →
  span_digits 10 (ds ++ r) = (ds, r).
Proof.
  intros Hd Hr. induction ds as [|c ds IH]; cbn in *.
  - destruct r as [|c r]; [done|]. cbn. by rewrite digit_val_ten, Hr.
  - apply andb_true_iff in Hd as [Hc Hd]. by rewrite digit_val_ten, Hc, (IH Hd).
Qed.

Lemma span_digits_digits s : forallb isdigit (fst (span_digits 10 s)) = true.
Proof.
  induction s as [|c s IH]; [done|]. cbn. rewrite digit_val_ten.
  destruct (isdigit c) eqn:E; [|done]. destruct (span_digits 10 s); cbn in *. by rewrite E.
Qed.

Lemma digits_num_acc base ds acc :
  0 <= base →
  fold_left (λ acc c, acc * base + digit_val c) ds acc
  = acc * base ^ zlen ds + digits_num base ds.
Proof.
  intros Hb. unfold digits_num. revert acc. induction ds as [|c ds IH]; intros acc; cbn [fold_left].
  - rewrite zlen_nil. lia.
  - rewrite IH, (IH (0 * base + _)), zlen_cons, Z.pow_add_r by (try apply zlen_nonneg; lia). lia.
Qed.

Lemma digits_num_cons base c ds :
  0 <= base → digits_num base (c :: ds) = digit_val c * base ^ zlen ds + digits_num base ds.
Proof. intros Hb. unfold digits_num at 1. cbn [fold_left]. rewrite digits_num_acc by done. lia. Qed.

Lemma digits_num_snoc base ds c :
  digits_num base (ds ++ [c]) = digits_num base ds * base + digit_val c.
Proof. unfold digits_num. by rewrite fold_left_app. Qed.

Lemma isdigit_val c : isdigit c = true → 0 <= digit_val c < 10 ∧ digit_val c = uchar c - 48.
Proof.
  intros H. pose proof H as H'. unfold isdigit in H'. apply andb_true_iff in H' as [? ?].
  unfold digit_val. rewrite H. zbool. lia.
Qed.

Lemma digits_num_nonneg ds : forallb isdigit ds = true → 0 <= digits_num 10 ds.
Proof.
  induction ds as [|c ds IH]; [done|]. cbn [forallb]. intros [Hc Hd]%andb_true_iff.
  rewrite digits_num_cons by lia. specialize (IH Hd). apply isdigit_val in Hc.
  pose proof (Z.pow_nonneg 10 (zlen ds) ltac:(lia)). nia.
Qed.

Lemma skip_spaces_split s :
  ∃ sp, s = sp ++ skip_spaces s ∧ forallb isspace sp = true.
Proof.
  induction s as [|c s (sp & E & Hs)]; [by exists []|]. cbn.
  destruct (isspace c) eqn:Hc; [|by exists []].
  exists (c :: sp). cbn. by rewrite Hc, <- E.
Qed.

Lemma skip_spaces_app sp r :
  forallb isspace sp = true → match r with c :: _ => isspace c = false | [] => True end →
  skip_spaces (sp ++ r) = r.
Proof.
  intros Hs Hr. induction sp as [|c sp IH]; cbn in *.
  - destruct r as [|c r]; [done|]. cbn. by rewrite Hr.
  - apply andb_true_iff in Hs as [-> Hs]. by apply IH.
Qed.

Lemma split_sign_split s neg s1 :
  split_sign s = (neg, s1) →
  ∃ sg, s = sg ++ s1 ∧ (neg = true ∧ sg = "-" ∨ neg = false ∧ (sg = [] ∨ sg = "+")).
Proof.
  unfold split_sign, char_is. destruct s as [|c s].
  - intros [= <- <-]. exists []. eauto.
  - repeat case_bool_decide; intros [= <- <-]; subst; [exists "-"|exists "+"|exists []]; cbn; eauto.
Qed.

(** In base 10, in terms of the parts of the string. *)
Lemma strtoll_ten s neg s1 :
  split_sign (skip_spaces s) = (neg, s1) →
  strtoll s 10 =
    let ds := fst (span_digits 10 s1) in
    match ds with
    | [] => (0, O, 0)
    | _ =>
        let z := if neg then - digits_num 10 ds else digits_num 10 ds in
        let consumed := (length s - length (snd (span_digits 10 s1)))%nat in
        if z >? LLONG_MAX then (LLONG_MAX, consumed, ERANGE)
        else if z <? LLONG_MIN then (LLONG_MIN, consumed, ERANGE)
        else (z, consumed, 0)
    end.
Proof.
  intros E. unfold strtoll. change ((10 <? 0) || (10 =? 1) || (36 <? 10)) with false.
  rewrite E. change (split_base 10 s1) with (10, s1). cbn beta iota zeta.
  destruct (span_digits 10 s1) as [[|d ds] rest]; cbn beta iota zeta delta [fst snd].
  - by rewrite Nat.ltb_irrefl.
  - reflexivity.
Qed.

Lemma digit_not_space c : isdigit c = true → isspace c = false.
Proof.
  unfold isdigit, isspace. intros [? ?]%andb_true_iff. zbool.
  apply orb_false_iff. split; [apply Z.eqb_neq; lia|]. apply andb_false_iff. right. apply Z.leb_gt. lia.
Qed.

(** Reading a numeral. *)
Lemma strtoll_numeral s z :
  decimal_numeral s z →
  strtoll s 10 =
    (if z >? LLONG_MAX then (LLONG_MAX, length s, ERANGE)
     else if z <? LLONG_MIN then (LLONG_MIN, length s, ERANGE)
     else (z, length s, 0)) ∧ s ≠ [].
Proof.
  intros (sp & sg & ds & -> & Hsp & Hne & Hds & Hz).
  destruct ds as [|d ds]; [done|]. pose proof Hds as Hd. cbn in Hd.
  apply andb_true_iff in Hd as [Hd _].
  assert (Hsign : split_sign (skip_spaces (sp ++ sg ++ d :: ds))
                  = (bool_decide (sg = "-"), d :: ds)).
  { rewrite skip_spaces_app; [|done|].
    - destruct Hz as [[[-> | ->] _] | [-> _]]; try done. cbn. unfold char_is.
      rewrite !bool_decide_eq_false_2; try done; intros ->; vm_compute in Hd; congruence.
    - destruct Hz as [[[-> | ->] _] | [-> _]]; try done. cbn. by apply digit_not_space. }
  split; [|destruct sp, sg; done].
  rewrite (strtoll_ten _ _ _ Hsign).
  pose proof (span_digits_all (d :: ds) [] Hds I) as ->%(eq_trans (f_equal _ (eq_sym (app_nil_r _)))).
  cbn beta iota zeta delta [fst snd length].
  rewrite Nat.sub_0_r.
  assert ((if bool_decide (sg = "-") then - digits_num 10 (d :: ds) else digits_num 10 (d :: ds)) = z)
    as ->; [|done].
  destruct Hz as [[[-> | ->] ->] | [-> ->]]; done.
Qed.

Lemma seems_invalid_nonempty s : seems_invalid s ≠ [].
Proof. done. Qed.

(** ** Properties *)

Lemma strict_strtoll_accepts s z :
  strict_strtoll s 10 = (z, []) ↔ decimal_numeral (cstr s) z ∧ LLONG_MIN <= z <= LLONG_MAX.
Proof.
  unfold strict_strtoll. split.
  + destruct (split_sign (skip_spaces (cstr s))) as [neg s1] eqn:E.
    rewrite (strtoll_ten _ _ _ E).
    destruct (skip_spaces_split (cstr s)) as (sp & Es & Hsp).
    destruct (split_sign_split _ _ _ E) as (sg & Esg & Hneg).
    pose proof (span_digits_app 10 s1) as Ed. pose proof (span_digits_digits s1) as Hd.
    destruct (span_digits 10 s1) as [ds rest]. cbn [fst snd] in *. cbn zeta.
    destruct ds as [|d ds]; [done|].
    set (v := if neg then _ else _) in *.
    destruct (v >? LLONG_MAX) eqn:E1; [by intros H; cbn in H|].
    destruct (v <? LLONG_MIN) eqn:E2; [by intros H; cbn in H|].
    cbn [Z.eqb andb orb negb].
    destruct (_ =? 0)%nat eqn:E3; [by intros [=]|].
    destruct (_ =? length _)%nat eqn:E4; [|by intros [=]].
    intros [= <-]. apply Nat.eqb_eq in E4. apply Nat.eqb_neq in E3.
    assert (rest = []) as ->. { apply length_zero_iff_nil. lia. }
    rewrite app_nil_r in Ed. subst s1.
    split; [|rewrite Z.gtb_ltb in E1; zbool; lia].
    exists sp, sg, (d :: ds). rewrite <- Esg, <- Es. repeat split; try done.
    destruct Hneg as [[-> ->] | [-> [-> | ->]]]; auto.
  + intros [Hn Hz]. destruct (strtoll_numeral _ _ Hn) as [-> Hne].
    rewrite Z.gtb_ltb. rewrite (proj2 (Z.ltb_ge LLONG_MAX z)), (proj2 (Z.ltb_ge z LLONG_MIN)) by lia.
    cbn [Z.eqb andb orb negb]. rewrite Nat.eqb_refl.
    destruct (cstr s); [done|]. done.
Qed.

Lemma strict_strtoll_error s : snd (strict_strtoll s 10) ≠ [] → fst (strict_strtoll s 10) = 0.
Proof.
  unfold strict_strtoll. destruct (strtoll _ _) as [[r e] n]. repeat case_bool; done.
Qed.

(** The strict conversion takes exactly the decimal numerals (blanks, a sign,
    digits, and nothing after them) whose value fits 64 bits, gives their
    value, and gives 0 with a message for every other string. *)
Lemma strict_strtoll_spec s :
  (∀ z, strict_strtoll s 10 = (z, []) ↔ decimal_numeral (cstr s) z ∧ LLONG_MIN <= z <= LLONG_MAX)
  ∧ (snd (strict_strtoll s 10) ≠ [] → fst (strict_strtoll s 10) = 0).
Proof. split; [apply strict_strtoll_accepts|apply strict_strtoll_error]. Qed.

Lemma strict_strtoll_range s : LLONG_MIN <= fst (strict_strtoll s 10) <= LLONG_MAX.
Proof.
  pose proof (strict_strtoll_accepts s) as H1. pose proof (strict_strtoll_error s) as H2.
  destruct (strict_strtoll s 10) as [z [|c e]] eqn:E; cbn in *.
  - by apply (H1 z).
  - rewrite H2 by done. unfold LLONG_MIN, LLONG_MAX. lia.
Qed.

(** ** Sizes with a suffix *)

(** A numeral with a size suffix, or one without. *)
Definition si_numeral (s : str) (n m : Z) : Prop :=
  ∃ v u, si_shift u = m ∧ 0 <= m ∧ s = v ++ [u] ∧ decimal_numeral v n
  ∨ m = 0 ∧ last s = Some u ∧ si_shift u = -1 ∧ decimal_numeral s n.

Lemma si_shift_cases u : si_shift u = -1 ∨ 0 <= si_shift u <= 60.
Proof. unfold si_shift. repeat case_bool; lia. Qed.

Lemma cstr_idemp s : cstr (cstr s) = cstr s.
Proof. induction s as [|c s IH]; [done|]. cbn. case_decide; [done|]. cbn. rewrite decide_False by done. by f_equal. Qed.

Lemma cstr_app_inv s v r : cstr s = v ++ r → cstr v = v.
Proof.
  revert s. induction v as [|c v IH]; intros s; [done|].
  destruct s as [|d s]; cbn; [done|]. case_decide; [done|]. intros [= -> E].
  rewrite decide_False by done. f_equal. by eapply IH.
Qed.

Lemma take_snoc_inv (s : str) u : last s = Some u → s = take (length s - 1) s ++ [u].
Proof.
  intros H. apply last_Some in H as [l ->]. rewrite length_app. cbn.
  replace (length l + 1 - 1)%nat with (length l) by lia. by rewrite take_app_length.
Qed.

(** The part of the string in front of a size suffix. *)
Definition si_value (s : str) (u : ascii) : str :=
  if si_shift u >=? 0 then take (length s - 1) s else s.

Lemma si_value_cstr s u : last (cstr s) = Some u → cstr (si_value (cstr s) u) = si_value (cstr s) u.
Proof.
  intros El. unfold si_value. case_bool; [|apply cstr_idemp].
  eapply cstr_app_inv. by apply take_snoc_inv.
Qed.

Lemma si_numeral_iff s u n m :
  last s = Some u →
  si_numeral s n m ↔ decimal_numeral (si_value s u) n ∧ m = Z.max 0 (si_shift u).
Proof.
  intros El. unfold si_value. pose proof (si_shift_cases u) as Hm.
  rewrite Z.geb_leb. destruct (Z.leb_spec 0 (si_shift u)).
  - split.
    + intros (v' & u' & [(<- & _ & E & Hd)|(_ & E & E' & _)]).
      * rewrite E, last_snoc in El. injection El as ->.
        rewrite E, length_app. cbn. replace (length v' + 1 - 1)%nat with (length v') by lia.
        rewrite take_app_length. split; [done|lia].
      * rewrite El in E. injection E as ->. lia.
    + intros [Hd ->]. eexists _, u. left. rewrite <- (take_snoc_inv _ _ El).
      split_and!; [lia|lia|done|done].
  - assert (si_shift u = -1) as E1 by lia.
    split.
    + intros (v' & u' & [(<- & ? & E & Hd)|(-> & E & E' & Hd)]); [|split; [done|lia]].
      rewrite E, last_snoc in El. injection El as ->. lia.
    + intros [Hd ->]. exists [], u. right. split_and!; [lia|done|done|done].
Qed.

(** A size is the numeral's value times the power of two its suffix stands for,
    and it fits 64 bits: what does not fit is an error, never a wrapped value. *)
Lemma strict_sistrtoll_spec s z :
  strict_sistrtoll s = (z, []) ↔
  ∃ n m, si_numeral (cstr s) n m ∧ z = n * 2 ^ m ∧ 0 <= n <= LLONG_MAX ∧ z < 2 ^ 64.
Proof.
  unfold strict_sistrtoll. destruct (last (cstr s)) as [u|] eqn:El.
  2: { split; [done|]. intros (n & m & (v & u & [(_ & _ & E & _)|(_ & E & _)]) & _).
       - rewrite E, last_snoc in El. done.
       - congruence. }
  pose proof (si_shift_cases u) as Hm.
  fold (si_value (cstr s) u). pose proof (si_value_cstr s u El) as Hv.
  pose proof (λ n m, si_numeral_iff _ u n m El) as Hnum.
  set (v := si_value (cstr s) u) in *.
  pose proof (strict_strtoll_accepts v) as Hok. pose proof (strict_strtoll_error v) as Herr. pose proof (strict_strtoll_range v) as Hr.
  rewrite Hv in Hok. destruct (strict_strtoll v 10) as [r err] eqn:E. cbn [fst snd] in *.
  split.
  - destruct (Z.ltb_spec r 0); [done|]. destruct err as [|c err]; [|intros [= _ ?]; done].
    destruct (proj1 (Hok r) eq_refl) as [Hd Hrange]. rewrite u64_small by (unfold LLONG_MAX in *; lia).
    rewrite !Z.gtb_ltb. intros H1. exists r, (Z.max 0 (si_shift u)). rewrite Hnum.
    split; [done|].
    destruct (Z.ltb_spec 0 (si_shift u)).
    + rewrite Z.max_r by lia. destruct (Z.ltb_spec (Z.shiftr (2 ^ 64 - 1) (si_shift u)) r); [done|].
      injection H1 as <-. rewrite Z.shiftr_div_pow2 in * by lia. rewrite Z.shiftl_mul_pow2 by lia.
      assert (r * 2 ^ si_shift u < 2 ^ 64).
      { pose proof (Z.pow_pos_nonneg 2 (si_shift u) ltac:(lia) ltac:(lia)).
        pose proof (Z.mul_div_le (2 ^ 64 - 1) (2 ^ si_shift u) ltac:(lia)). nia. }
      rewrite u64_small by (split; [apply Z.mul_nonneg_nonneg; lia|done]). lia.
    + rewrite Z.max_l by lia. injection H1 as <-. unfold LLONG_MAX in *. lia.
  - intros (n & m & [Hd ->]%Hnum & -> & Hn & Hlt).
    assert ((r, err) = (n, [])) as [= -> ->].
    { apply Hok. unfold LLONG_MIN. split; [done|lia]. }
    destruct (Z.ltb_spec n 0); [lia|]. rewrite u64_small by (unfold LLONG_MAX in *; lia).
    rewrite !Z.gtb_ltb. destruct (Z.ltb_spec 0 (si_shift u)).
    + rewrite Z.max_r in * by lia. rewrite Z.shiftr_div_pow2, Z.shiftl_mul_pow2 by lia.
      pose proof (Z.pow_pos_nonneg 2 (si_shift u) ltac:(lia) ltac:(lia)).
      destruct (Z.ltb_spec ((2 ^ 64 - 1) / 2 ^ si_shift u) n) as [Hc|_].
      * exfalso. apply Z.lt_nge in Hc. apply Hc. apply Z.div_le_lower_bound; lia.
      * rewrite u64_small; [done|]. split; [nia|done].
    + rewrite Z.max_l by lia. f_equal. lia.
Qed.

(** ** Decimal notation read back *)

Lemma isdigit_chr d : 0 <= d < 10 → isdigit (chr (48 + d)) = true ∧ digit_val (chr (48 + d)) = d.
Proof.
  intros Hd. assert (Hi : isdigit (chr (48 + d)) = true).
  { unfold isdigit. rewrite uchar_chr, Z.mod_small by lia. apply andb_true_iff.
    split; apply Z.leb_le; lia. }
  split; [done|]. destruct (isdigit_val _ Hi) as [_ ->]. rewrite uchar_chr, Z.mod_small by lia. lia.
Qed.

Lemma print_digits_spec fuel n :
  0 <= n < 2 ^ Z.of_nat fuel → (0 < fuel)%nat →
  print_digits fuel n ≠ [] ∧ forallb isdigit (print_digits fuel n) = true
  ∧ digits_num 10 (print_digits fuel n) = n.
Proof.
  revert n. induction fuel as [|f IH]; intros n Hn Hf; [lia|]. cbn [print_digits].
  pose proof (isdigit_chr (n mod 10) ltac:(dlia)) as [Hi Hv].
  split; [by intros [_ [=]]%app_eq_nil|].
  destruct (Z.ltb_spec n 10).
  - cbn [app forallb]. rewrite Hi. split; [done|].
    unfold digits_num. cbn [fold_left]. rewrite Hv. dlia.
  - assert (Hn' : 0 <= n / 10 < 2 ^ Z.of_nat f).
    { rewrite Nat2Z.inj_succ, Z.pow_succ_r in Hn by lia. dlia. }
    destruct f as [|f']; [cbn in Hn'; dlia|].
    destruct (IH (n / 10) Hn' ltac:(lia)) as (_ & Hd & Hv').
    rewrite forallb_app, digits_num_snoc, Hd, Hv', Hv. cbn. rewrite Hi. split; [done|dlia].
Qed.

Lemma print_nat_spec n :
  0 <= n → print_nat n ≠ [] ∧ forallb isdigit (print_nat n) = true ∧ digits_num 10 (print_nat n) = n.
Proof.
  intros Hn. apply print_digits_spec; [|lia]. split; [done|].
  rewrite Nat2Z.inj_succ, Z2Nat.id by apply Z.log2_nonneg.
  destruct (Z.eqb_spec n 0) as [->|]; [done|]. apply Z.log2_spec. lia.
Qed.

Lemma print_int_numeral z : decimal_numeral (print_int z) z.
Proof.
  unfold print_int. destruct (Z.ltb_spec z 0).
  - destruct (print_nat_spec (- z) ltac:(lia)) as (? & ? & ?).
    exists [], "-", (print_nat (- z)). split_and!; try done. right. split; [done|lia].
  - destruct (print_nat_spec z ltac:(lia)) as (? & ? & ?).
    exists [], [], (print_nat z). split_and!; try done. left. split; [by left|lia].
Qed.

Lemma numeral_no_nul s z : decimal_numeral s z → NUL ∉ s.
Proof.
  intros (sp & sg & ds & -> & Hsp & _ & Hds & Hz) Hin.
  rewrite forallb_forall in Hsp, Hds. apply elem_of_app in Hin as [Hin|Hin].
  - apply list_elem_of_In, Hsp in Hin. done.
  - apply elem_of_app in Hin as [Hin|Hin]; [|apply list_elem_of_In, Hds in Hin; done].
    destruct Hz as [[[-> | ->] _] | [-> _]]; vm_compute in Hin; inversion Hin; subst;
      match goal with H : _ ∈ [] |- _ => inversion H | _ => done end.
Qed.

(** [atoll] is [strtoll] in base 10 without the checks. *)
Lemma digits_value_span acc s :
  digits_value acc s = fold_left (λ acc c, acc * 10 + digit_val c) (fst (span_digits 10 s)) acc.
Proof.
  revert acc. induction s as [|c s IH]; intros acc; [done|]. cbn [digits_value span_digits].
  rewrite digit_val_ten. destruct (isdigit c) eqn:E; [|done].
  rewrite IH. destruct (span_digits 10 s); cbn [fst fold_left].
  by rewrite (proj2 (isdigit_val c E)).
Qed.

Lemma atoll_strtoll s : atoll s = fst (fst (strtoll (cstr s) 10)).
Proof.
  unfold atoll, strtol10. destruct (split_sign (skip_spaces (cstr s))) as [neg s1] eqn:E.
  rewrite (strtoll_ten _ _ _ E). unfold split_sign in E.
  assert (Hc : ∀ z (n : nat), fst (fst (if z >? LLONG_MAX then (LLONG_MAX, n, ERANGE)
                        else if z <? LLONG_MIN then (LLONG_MIN, n, ERANGE) else (z, n, 0)))
               = Z.max (- 2 ^ 63) (Z.min (2 ^ 63 - 1) z)).
  { intros z n. unfold LLONG_MAX, LLONG_MIN. rewrite Z.gtb_ltb.
    destruct (Z.ltb_spec (2 ^ 63 - 1) z); [cbn; lia|]. destruct (Z.ltb_spec z (- 2 ^ 63)); cbn; lia. }
  assert (Hd : ∀ s, digits_value 0 s = digits_num 10 (fst (span_digits 10 s)))
    by apply (digits_value_span 0).
  cbv zeta. destruct (skip_spaces (cstr s)) as [|c r]; [injection E as <- <-; done|].
  destruct (char_is "-" c); [|destruct (char_is "+" c)]; injection E as <- <-; rewrite Hd;
    (destruct (fst (span_digits 10 _)) as [|d ds] eqn:E; [done|]); cbv iota; by rewrite Hc.
Qed.

Lemma decimal_digits_back z :
  LLONG_MIN <= z <= LLONG_MAX → strict_strtoll (print_int z) 10 = (z, []) ∧ atoll (print_int z) = z.
Proof.
  intros Hz. pose proof (print_int_numeral z) as Hn.
  assert (Hc : cstr (print_int z) = print_int z) by (by eapply cstr_no_nul, numeral_no_nul).
  split; [apply strict_strtoll_accepts; by rewrite Hc|].
  rewrite atoll_strtoll, Hc. destruct (strtoll_numeral _ _ Hn) as [-> _].
  rewrite Z.gtb_ltb, (proj2 (Z.ltb_ge _ _)), (proj2 (Z.ltb_ge _ _)) by lia. done.
Qed.

(** What [%lld] prints of a 64-bit integer, the strict conversion reads back;
    [atoll], as the upload path uses it, reads the same number. *)
Lemma decimal_roundtrip z :
  LLONG_MIN <= z <= LLONG_MAX → strict_strtoll (print_int z) 10 = (z, []) ∧ atoll (print_int z) = z.
Proof. apply decimal_digits_back. Qed.

Lemma decimal_roundtrip_witness :
  strict_strtoll "-9223372036854775808" 10 = (LLONG_MIN, []) ∧ atoll "-9223372036854775808" = LLONG_MIN.
Proof.
  change "-9223372036854775808" with (print_int LLONG_MIN).
  apply (decimal_roundtrip LLONG_MIN). unfold LLONG_MIN, LLONG_MAX. lia.
Defined.

(** [strict_strtol] refuses both ends of the range of [int]. *)
Lemma strict_strtol_spec s z :
  strict_strtol s 10 = (z, []) ↔ decimal_numeral (cstr s) z ∧ INT_MIN < z < INT_MAX.
Proof.
  unfold strict_strtol. pose proof (strict_strtoll_accepts s) as Hok. pose proof (strict_strtoll_error s) as Herr.
  destruct (strict_strtoll s 10) as [r err] eqn:E. cbn [fst snd] in *.
  assert (Hr : INT_MIN < z < INT_MAX → LLONG_MIN <= z <= LLONG_MAX)
    by (unfold INT_MIN, INT_MAX, LLONG_MIN, LLONG_MAX; lia).
  destruct err as [|c err].
  - rewrite Z.geb_leb. destruct (proj1 (Hok r) eq_refl) as [Hn _].
    destruct ((r <=? INT_MIN) || (INT_MAX <=? r)) eqn:Eb.
    + split; [by intros [=]|]. intros [Hz Hi].
      pose proof (proj2 (Hok z) (conj Hz (Hr Hi))) as [= ->].
      apply orb_true_iff in Eb as [?|?]; zbool; lia.
    + apply orb_false_iff in Eb as [? ?]. zbool. split.
      * intros [= ->]. split; [done|lia].
      * intros [Hz Hi]. pose proof (proj2 (Hok z) (conj Hz (Hr Hi))) as [= ->]. done.
  - split; [by intros [=]|]. intros [Hz Hi]. by pose proof (proj2 (Hok z) (conj Hz (Hr Hi))) as [=].
Qed.

Lemma strict_strtol_drops_int_max :
  strict_strtol "2147483647" 10 = (0, seems_invalid "2147483647")
  ∧ strict_strtol "2147483646" 10 = (2147483646, []).
Proof. split; vm_compute; reflexivity. Qed.
