(* ===== verification/Utf8.v ===== *)
(** * UTF-8 ([src/src/common/utf8.c])

    The encoder and decoder of one character, the scanner that object names
    must pass, and the search for control characters.  The scanner is shown
    to accept exactly the concatenations of encoded code points. *)

From S2P Require Import Prelude StdMap CString.

Definition MAX_UTF8_SZ : nat := 6.
Definition INVALID_UTF8_CHAR : Z := 4294967295.

(** The loop of [high_bits_set]: a byte has no bit left after eight shifts. *)
Fixpoint high_bits_loop (fuel : nat) (c : Z) : nat :=
  match fuel with
  | O => O
  | S f => if negb (Z.land c 128 =? 128) then O else S (high_bits_loop f (Z.shiftl c 1))
  end.
Definition high_bits_set (c : Z) : nat := high_bits_loop 9 c.

(** The continuation bytes, filled from the last to the first. *)
Fixpoint encode_loop (j : nat) (u : Z) (buf : bytes) : Z * bytes :=
  match j with
  | O => (u, buf)
  | S j' => encode_loop j' (Z.shiftr u 6) (chr (Z.lor 128 (Z.land u 63)) :: buf)
  end.

Definition max_val : list Z := [127; 2047; 65535; 2097151; 67108863; 2147483647].

(** The first index whose limit is not below [u]. *)
Fixpoint val_index (u : Z) (l : list Z) : nat :=
  match l with
  | [] => O
  | m :: l' => if u <=? m then O else S (val_index u l')
  end.

(** [encode_utf8(u, buf)]: the bytes written, or [None] for -1. *)
Definition encode_utf8 (u : Z) : option bytes :=
  let i := val_index u max_val in
  if (i =? length max_val)%nat then None
  else if (i =? 0)%nat then Some [chr u]
  else
    let '(u', buf) := encode_loop i u [] in
    let mask := u8 (Z.lnot (Z.shiftr 255 (Z.of_nat i + 1))) in
    Some (chr (Z.lor mask u') :: buf).

Fixpoint decode_utf8_loop (code : Z) (buf : bytes) : option Z :=
  match buf with
  | [] => Some code
  | b :: buf' =>
      if negb (Z.land (uchar b) 192 =? 128) then None
      else decode_utf8_loop (Z.lor (Z.shiftl code 6) (Z.land (uchar b) 63)) buf'
  end.

(** [decode_utf8(buf, nbytes)] *)
Definition decode_utf8 (buf : bytes) : Z :=
  match buf with
  | [] => INVALID_UTF8_CHAR
  | [b] => if uchar b >=? 128 then INVALID_UTF8_CHAR else uchar b
  | b :: rest =>
      let i := high_bits_set (uchar b) in
      if negb (i =? length buf)%nat then INVALID_UTF8_CHAR
      else
        match decode_utf8_loop (Z.land (uchar b) (Z.shiftr 255 (Z.of_nat i))) rest with
        | None => INVALID_UTF8_CHAR
        | Some code =>
            if code =? 65534 then INVALID_UTF8_CHAR
            else if code =? 65535 then INVALID_UTF8_CHAR
            else if (code >=? 55296) && (code <=? 57343) then INVALID_UTF8_CHAR
            else code
        end
  end.

(** What the scanner does with the bytes it has collected: they must decode,
    and encode to themselves. *)
Definition buffer_ok (u : bytes) : bool :=
  match u with
  | [] => true
  | _ =>
      let code := decode_utf8 u in
      if code =? INVALID_UTF8_CHAR then false
      else match encode_utf8 code with
           | None => false
           | Some re => bool_decide (u = re)
           end
  end.

Definition is_cont (c : ascii) : bool := Z.land (uchar c) 192 =? 128.

(** The scanner, at position [i] with the bytes [u] collected: 0, or one more
    than the position of the error. *)
Fixpoint check_utf8_loop (i : Z) (u : bytes) (buf : bytes) : Z :=
  match buf with
  | [] => if buffer_ok u then 0 else i + 1
  | c :: buf' =>
      if (uchar c <? 128) || negb (is_cont c) then
        if buffer_ok u then check_utf8_loop (i + 1) (if uchar c >=? 128 then [c] else []) buf'
        else i + 1
      else if (length u =? MAX_UTF8_SZ)%nat then i + 1
      else check_utf8_loop (i + 1) (u ++ [c]) buf'
  end.
Definition check_utf8 (buf : bytes) : Z := check_utf8_loop 0 [] buf.
Definition check_utf8_cstr (buf : bytes) : Z := check_utf8 (cstr buf).

Definition is_control_character (c : Z) : bool := (negb (c =? 0) && (c <? 32)) || (c =? 127).
Fixpoint check_control_loop (i : Z) (buf : bytes) : Z :=
  match buf with
  | [] => 0
  | c :: buf' => if is_control_character (uchar c) then i + 1 else check_control_loop (i + 1) buf'
  end.
Definition check_for_control_characters (buf : bytes) : Z := check_control_loop 0 buf.
Definition check_for_control_characters_cstr (buf : bytes) : Z :=
  check_for_control_characters (cstr buf).

(** ** One character *)

(** The code points the decoder lets through. *)
Definition code_point (c : Z) : Prop :=
  0 <= c <= 2147483647 ∧ c ≠ 65534 ∧ c ≠ 65535 ∧ ¬ (55296 <= c <= 57343).

Definition zrange (n : nat) : list Z := Z.of_nat <$> seq 0 n.

Lemma zrange_forall (P : Z → bool) n :
  forallb P (zrange n) = true → ∀ z, 0 <= z < Z.of_nat n → P z = true.
Proof.
  intros H z Hz. rewrite forallb_forall in H. apply H. apply list_elem_of_In, list_elem_of_fmap.
  exists (Z.to_nat z). rewrite Z2Nat.id by lia. split; [done|]. apply elem_of_seq. lia.
Qed.

Lemma cont_byte x :
  0 <= x < 64 →
  is_cont (chr (Z.lor 128 x)) = true ∧ Z.land (uchar (chr (Z.lor 128 x))) 63 = x
  ∧ 128 <= uchar (chr (Z.lor 128 x)).
Proof.
  intros Hx.
  pose proof (zrange_forall (λ x, is_cont (chr (Z.lor 128 x))
    && (Z.land (uchar (chr (Z.lor 128 x))) 63 =? x)
    && (128 <=? uchar (chr (Z.lor 128 x)))) 64 eq_refl x Hx) as H.
  rewrite !andb_true_iff in H. destruct H as [[? ?] ?]. zbool. done.
Qed.

(** The lead byte of an [n + 1]-byte character. *)
Definition lead_byte (n : nat) (u : Z) : ascii :=
  chr (Z.lor (u8 (Z.lnot (Z.shiftr 255 (Z.of_nat n + 1)))) u).

Definition lead_ok (n : nat) (u : Z) : bool :=
  negb (is_cont (lead_byte n u)) && (128 <=? uchar (lead_byte n u))
  && (high_bits_set (uchar (lead_byte n u)) =? S n)%nat
  && (Z.land (uchar (lead_byte n u)) (Z.shiftr 255 (Z.of_nat (S n))) =? u).

Lemma lead_byte_spec n u :
  (1 <= n <= 5)%nat → 0 <= u < 2 ^ (6 - Z.of_nat n) →
  is_cont (lead_byte n u) = false ∧ 128 <= uchar (lead_byte n u)
  ∧ high_bits_set (uchar (lead_byte n u)) = S n
  ∧ Z.land (uchar (lead_byte n u)) (Z.shiftr 255 (Z.of_nat (S n))) = u.
Proof.
  intros Hn Hu. assert (Hc : (n = 1 ∨ n = 2 ∨ n = 3 ∨ n = 4 ∨ n = 5)%nat) by lia.
  assert (H : lead_ok n u = true).
  { apply (zrange_forall _ (2 ^ (6 - n))).
    - clear -Hc. destruct Hc as [-> | [-> | [-> | [-> | ->]]]]; vm_compute; reflexivity.
    - rewrite Nat2Z.inj_pow, Nat2Z.inj_sub by lia. exact Hu. }
  unfold lead_ok in H. rewrite !andb_true_iff in H. destruct H as [[[H1 H2] H3] H4].
  zbool. apply Nat.eqb_eq in H3. apply negb_true_iff in H1. done.
Qed.

Lemma shiftl6_lor code x : 0 <= x < 64 → Z.lor (Z.shiftl code 6) x = code * 64 + x.
Proof.
  intros Hx. rewrite Z.shiftl_mul_pow2 by lia. change 64 with (2 ^ 6) in *.
  assert (Hd : Z.land (code * 2 ^ 6) x = 0).
  { apply Z.bits_inj'. intros n Hn. rewrite Z.land_spec, Z.bits_0.
    destruct (Z.ltb_spec n 6); [by rewrite Z.mul_pow2_bits_low|].
    rewrite <- (Z.mod_small x (2 ^ 6)) by done.
    by rewrite Z.mod_pow2_bits_high, andb_false_r by lia. }
  rewrite <- Z.lxor_lor by done. symmetry. by apply Z.add_nocarry_lxor.
Qed.

Lemma encode_loop_spec j u buf :
  0 <= u →
  fst (encode_loop j u buf) = u / 64 ^ Z.of_nat j
  ∧ ∃ cs, snd (encode_loop j u buf) = cs ++ buf ∧ length cs = j
      ∧ forallb is_cont cs = true ∧ Forall (λ c, 128 <= uchar c) cs
      ∧ ∀ code, decode_utf8_loop code (cs ++ buf)
                = decode_utf8_loop (code * 64 ^ Z.of_nat j + u mod 64 ^ Z.of_nat j) buf.
Proof.
  revert u buf. induction j as [|j IH]; intros u buf Hu.
  - cbn [encode_loop fst snd]. split; [by rewrite Z.div_1_r|]. exists []. cbn [app].
    repeat split; try done. intros code. f_equal. rewrite Z.mod_1_r. cbn. lia.
  - cbn [encode_loop]. rewrite Z.shiftr_div_pow2 by lia. change (2 ^ 6) with 64.
    assert (Hu' : 0 <= u / 64) by (apply Z.div_pos; lia).
    change 63 with (Z.ones 6). rewrite Z.land_ones by lia. change (2 ^ 6) with 64.
    destruct (cont_byte (u mod 64) ltac:(dlia)) as (Hc & Hv & Hge).
    destruct (IH (u / 64) (chr (Z.lor 128 (u mod 64)) :: buf) Hu')
      as (Hf & cs & Hs & Hlen & Hconts & Hall & Hdec).
    assert (E : 64 ^ Z.of_nat (S j) = 64 * 64 ^ Z.of_nat j)
      by (rewrite Nat2Z.inj_succ, Z.pow_succ_r; lia).
    split; [rewrite Hf, Z.div_div, E; lia|].
    exists (cs ++ [chr (Z.lor 128 (u mod 64))]). rewrite Hs, <- app_assoc. cbn [app].
    rewrite length_app, forallb_app. cbn. rewrite Hc, Hlen, Hconts.
    split; [done|]. split; [lia|]. split; [done|].
    split; [apply Forall_app; split; [done|by constructor]|].
    intros code. rewrite Hdec. cbn [decode_utf8_loop]. unfold is_cont in Hc. rewrite Hc. cbn [negb].
    rewrite Hv, shiftl6_lor by dlia. f_equal. rewrite E.
    rewrite (Z.rem_mul_r u 64 (64 ^ Z.of_nat j)) by lia. lia.
Qed.

Lemma val_index_spec u : 0 <= u →
  let i := val_index u max_val in
  (i = 0%nat ∧ u <= 127) ∨ i = 6%nat ∧ 2147483647 < u
  ∨ (1 <= i <= 5)%nat ∧ 127 < u <= 2147483647 ∧ u / 64 ^ Z.of_nat i < 2 ^ (6 - Z.of_nat i).
Proof.
  intros Hu. cbn. repeat (case_bool; zbool); try lia.
  all: right; right; split; [lia|]; split; [lia|]; apply Z.div_lt_upper_bound; [lia|]; cbn; lia.
Qed.

(** The bytes of an encoding: one lead byte, then continuation bytes. *)
Lemma encode_utf8_shape u bs :
  0 <= u → encode_utf8 u = Some bs →
  ∃ b cs, bs = b :: cs ∧ is_cont b = false ∧ forallb is_cont cs = true ∧ (length cs <= 5)%nat
    ∧ (uchar b < 128 → cs = [] ∧ u = uchar b) ∧ (u < 128 → uchar b < 128).
Proof.
  intros Hu. unfold encode_utf8. pose proof (val_index_spec u Hu) as Hi. cbn zeta in Hi.
  destruct Hi as [[-> Hs]|[[-> _]|(Hi & Hu' & Hq)]]; [|done|].
  - cbn. intros [= <-]. exists (chr u), []. rewrite uchar_chr, Z.mod_small by lia.
    split_and!; [done| |done|cbn; lia|done|done]. unfold is_cont. rewrite uchar_chr, Z.mod_small by lia.
    assert (H : forallb (λ u, negb (Z.land u 192 =? 128)) (zrange 128) = true) by reflexivity.
    apply negb_true_iff. apply (zrange_forall _ _ H). lia.
  - set (i := val_index u max_val) in *. clearbody i. change (length max_val) with 6%nat.
    rewrite (proj2 (Nat.eqb_neq i _)), (proj2 (Nat.eqb_neq i 0)) by lia.
    destruct (encode_loop_spec i u [] Hu) as (Hf & cs & Hs & Hlen & Hc & _ & _).
    destruct (encode_loop i u []) as [u' buf]. cbn [fst snd] in *. subst u' buf.
    rewrite app_nil_r. intros [= <-]. fold (lead_byte i (u / 64 ^ Z.of_nat i)).
    assert (0 <= u / 64 ^ Z.of_nat i) by (apply Z.div_pos; lia).
    destruct (lead_byte_spec i (u / 64 ^ Z.of_nat i) Hi ltac:(lia)) as (H1 & H2 & _).
    eexists _, cs. split_and!; [done|done|done|lia|lia|lia].
Qed.

(** Decoding inverts encoding on every code point. *)
Lemma decode_encode_utf8 u bs : code_point u → encode_utf8 u = Some bs → decode_utf8 bs = u.
Proof.
  intros (Hu & Hfffe & Hffff & Hsur). unfold encode_utf8.
  pose proof (val_index_spec u ltac:(lia)) as Hi. cbn zeta in Hi.
  destruct Hi as [[-> Hs]|[[-> _]|(Hi & Hu' & Hq)]]; [|done|].
  - cbn. intros [= <-]. cbn. rewrite uchar_chr, Z.mod_small by lia.
    rewrite Z.geb_leb. by rewrite (proj2 (Z.leb_gt _ _)) by lia.
  - set (i := val_index u max_val) in *. clearbody i. change (length max_val) with 6%nat.
    rewrite (proj2 (Nat.eqb_neq i _)), (proj2 (Nat.eqb_neq i 0)) by lia.
    destruct (encode_loop_spec i u [] ltac:(lia)) as (Hf & cs & Hs & Hlen & Hc & _ & Hdec).
    destruct (encode_loop i u []) as [u' buf]. cbn [fst snd] in *. subst u' buf.
    rewrite app_nil_r in *. intros [= <-]. fold (lead_byte i (u / 64 ^ Z.of_nat i)).
    assert (Hp : 0 <= u / 64 ^ Z.of_nat i) by (apply Z.div_pos; lia).
    destruct (lead_byte_spec i (u / 64 ^ Z.of_nat i) Hi ltac:(lia)) as (_ & _ & H3 & H4).
    unfold decode_utf8. destruct cs as [|c0 cs]; [cbn in Hlen; lia|]. cbn [length] in *.
    rewrite H3, Hlen, Nat.eqb_refl, H4, Hdec. cbn [negb decode_utf8_loop].
    rewrite (Z.mul_comm (u / _)), <- Z.div_mod by lia.
    rewrite (proj2 (Z.eqb_neq _ _)), (proj2 (Z.eqb_neq _ _)) by done.
    destruct (_ && _) eqn:E; [|done]. apply andb_true_iff in E as [E1 E2].
    rewrite Z.geb_leb in E1. zbool. lia.
Qed.

Lemma encode_utf8_total u : 0 <= u <= 2147483647 → is_Some (encode_utf8 u).
Proof.
  intros Hu. unfold encode_utf8. pose proof (val_index_spec u ltac:(lia)) as Hi. cbn zeta in Hi.
  rewrite (proj2 (Nat.eqb_neq _ _)) by (change (length max_val) with 6%nat; lia).
  case_bool; [by eexists|]. destruct (encode_loop _ _ _). by eexists.
Qed.

Lemma decode_utf8_loop_nonneg buf code c : 0 <= code → decode_utf8_loop code buf = Some c → 0 <= c.
Proof.
  revert code. induction buf as [|b buf IH]; intros code Hc; cbn; [by intros [= <-]|].
  case_bool; [done|]. apply IH. apply Z.lor_nonneg. split.
  - by apply Z.shiftl_nonneg.
  - apply Z.land_nonneg. lia.
Qed.

(** A decoded character is a code point, as far as it can be encoded again. *)
Lemma decode_utf8_valid buf bs :
  decode_utf8 buf ≠ INVALID_UTF8_CHAR → encode_utf8 (decode_utf8 buf) = Some bs →
  code_point (decode_utf8 buf).
Proof.
  intros Hi He.
  assert (Hmax : 0 <= decode_utf8 buf → decode_utf8 buf <= 2147483647).
  { intros H0. unfold encode_utf8 in He. pose proof (val_index_spec _ H0) as H.
    destruct H as [[_ ?]|[[E _]|(_ & ? & _)]]; [lia| |lia]. rewrite E in He. done. }
  clear He. revert Hi Hmax. unfold decode_utf8, code_point.
  destruct buf as [|b [|b' buf]]; [done| |].
  - rewrite Z.geb_leb. destruct (Z.leb_spec 128 (uchar b)); [done|]. pose proof (uchar_range b). lia.
  - case_bool; [done|]. destruct (decode_utf8_loop _ _) as [code|] eqn:Hd; [|done].
    apply decode_utf8_loop_nonneg in Hd; [|apply Z.land_nonneg; right; apply Z.shiftr_nonneg; lia].
    rewrite Z.geb_leb. repeat (case_bool; zbool; [done|]). intros _ Hm.
    apply andb_false_iff in Heqb3 as [?|?]; zbool; lia.
Qed.

Lemma buffer_ok_iff u :
  buffer_ok u = true ↔ u = [] ∨ ∃ c, code_point c ∧ encode_utf8 c = Some u.
Proof.
  unfold buffer_ok. destruct u as [|b u]; [naive_solver|].
  set (bs := b :: u). split.
  - destruct (Z.eqb_spec (decode_utf8 bs) INVALID_UTF8_CHAR); [done|].
    destruct (encode_utf8 (decode_utf8 bs)) as [re|] eqn:E; [|done].
    intros <-%bool_decide_eq_true. right. exists (decode_utf8 bs). split; [|done].
    by eapply decode_utf8_valid.
  - intros [[=]|(c & Hc & He)]. rewrite (decode_encode_utf8 c bs Hc He).
    destruct (Z.eqb_spec c INVALID_UTF8_CHAR) as [->|_]; [exfalso; destruct Hc; unfold INVALID_UTF8_CHAR in *; lia|].
    rewrite He. by apply bool_decide_eq_true.
Qed.

(** ** Well-formed strings *)

(** The concatenations of encoded code points. *)
Inductive utf8_string : bytes → Prop :=
| utf8_nil : utf8_string []
| utf8_char c bs s : code_point c → encode_utf8 c = Some bs → utf8_string s → utf8_string (bs ++ s).

Definition starts_char (s : bytes) : Prop :=
  match s with [] => True | c :: _ => is_cont c = false end.

Lemma utf8_string_head s : utf8_string s → starts_char s.
Proof.
  intros [|c bs s' Hc He _]; [done|].
  destruct (encode_utf8_shape c bs (proj1 (proj1 Hc)) He) as (b & cs & -> & Hb & _). done.
Qed.

Lemma utf8_string_one c bs : code_point c → encode_utf8 c = Some bs → utf8_string bs.
Proof. intros Hc He. rewrite <- (app_nil_r bs). by eapply utf8_char, utf8_nil. Qed.

Lemma utf8_string_app a b : utf8_string a → utf8_string b → utf8_string (a ++ b).
Proof.
  intros Ha Hb. induction Ha; [done|]. rewrite <- app_assoc. by eapply utf8_char.
Qed.

(** A string can be cut in front of any byte that starts a character. *)
Lemma utf8_string_cut a b :
  starts_char b → utf8_string (a ++ b) ↔ utf8_string a ∧ utf8_string b.
Proof.
  intros Hb. split; [|intros []; by apply utf8_string_app].
  remember (a ++ b) as s eqn:E. intros Hs. revert a E.
  induction Hs as [|c bs s Hc He Hs IH]; intros a E.
  - symmetry in E. apply app_eq_nil in E as [-> ->]. split; constructor.
  - destruct (encode_utf8_shape c bs (proj1 (proj1 Hc)) He) as (l & cs & -> & Hl & Hcs & _).
    destruct (app_eq_inv _ _ _ _ E) as [(k & Ek & ->)|(k & -> & E')].
    + destruct a as [|x a].
      * cbn in *. subst k. split; [constructor|]. by eapply utf8_char.
      * injection Ek as <- ->. rewrite forallb_app in Hcs. apply andb_true_iff in Hcs as [_ Hk].
        destruct k as [|y k].
        -- rewrite app_nil_r in He. cbn in Hb |- *. split; [|done].
           by eapply utf8_string_one.
        -- cbn in Hb, Hk. rewrite Hb in Hk. done.
    + destruct (IH _ E') as [H1 H2]. split; [|done]. by eapply utf8_char.
Qed.

(** The buffer of the scanner: a byte of 128 or more and continuation bytes. *)
Definition scan_buffer (u : bytes) : Prop :=
  match u with [] => True | b :: cs => 128 <= uchar b ∧ forallb is_cont cs = true end.

Lemma scan_buffer_ok u : scan_buffer u → buffer_ok u = true ↔ utf8_string u.
Proof.
  intros Hu. rewrite buffer_ok_iff. split.
  - intros [->|(c & Hc & He)]; [constructor|]. by eapply utf8_string_one.
  - intros Hstr. destruct Hstr as [|c bs s Hc He Hs]; [by left|]. right. exists c.
    destruct (encode_utf8_shape c bs (proj1 (proj1 Hc)) He) as (l & cs & -> & Hl & Hcs & _).
    cbn in Hu. destruct Hu as [_ Hu]. rewrite forallb_app in Hu. apply andb_true_iff in Hu as [_ Hs'].
    apply utf8_string_head in Hs. destruct s as [|y s]; [by rewrite app_nil_r|].
    cbn in *. by rewrite Hs in Hs'.
Qed.

Lemma too_many_continuations u c s :
  scan_buffer u → length u = MAX_UTF8_SZ → is_cont c = true → ¬ utf8_string (u ++ c :: s).
Proof.
  intros Hu Hlen Hc Hs. remember (u ++ c :: s) as w eqn:E. destruct Hs as [|p bs w Hp He Hw].
  - by destruct u.
  - destruct (encode_utf8_shape p bs (proj1 (proj1 Hp)) He) as (l & cs & -> & Hl & Hcs & Hl5 & _).
    apply utf8_string_head in Hw. destruct u as [|b u]; [done|]. unfold MAX_UTF8_SZ in Hlen.
    cbn in E, Hlen. injection E as <- E. destruct Hu as [_ Hu].
    assert (Hall : forallb is_cont (u ++ [c]) = true)
      by (rewrite forallb_app; cbn; by rewrite Hu, Hc).
    change (c :: s) with ([c] ++ s) in E. rewrite app_assoc in E.
    destruct (app_eq_inv _ _ _ _ E) as [(k & Ek & ->)|(k & Ek & E')].
    + apply (f_equal length) in Ek. rewrite !length_app in Ek. cbn in Ek. lia.
    + rewrite Ek in Hall. apply (f_equal length) in Ek. rewrite !length_app in Ek. cbn in Ek.
      rewrite forallb_app in Hall. apply andb_true_iff in Hall as [_ Hk].
      destruct k as [|y k]; [cbn in Ek; lia|]. subst w. cbn in *. by rewrite Hw in Hk.
Qed.

Lemma ascii_code_point c : uchar c < 128 → code_point (uchar c) ∧ encode_utf8 (uchar c) = Some [c].
Proof.
  intros H. pose proof (uchar_range c). split; [unfold code_point; lia|].
  unfold encode_utf8. cbn [val_index max_val]. rewrite (proj2 (Z.leb_le _ _)) by lia.
  cbn. by rewrite chr_uchar.
Qed.

Lemma is_cont_high c : is_cont c = true → 128 <= uchar c.
Proof.
  intros H. destruct (Z.le_gt_cases 128 (uchar c)) as [|Hlt]; [done|]. exfalso.
  pose proof (uchar_range c). unfold is_cont in H.
  assert (E : forallb (λ u, negb (Z.land u 192 =? 128)) (zrange 128) = true) by reflexivity.
  pose proof (zrange_forall _ _ E (uchar c) ltac:(lia)) as Hn. cbn beta in Hn. by rewrite H in Hn.
Qed.

Lemma check_utf8_loop_spec buf i u :
  0 <= i → scan_buffer u → check_utf8_loop i u buf = 0 ↔ utf8_string (u ++ buf).
Proof.
  revert i u. induction buf as [|c buf IH]; intros i u Hi Hu; cbn [check_utf8_loop].
  - rewrite app_nil_r, <- scan_buffer_ok by done. destruct (buffer_ok u); [done|].
    split; [lia|done].
  - destruct ((uchar c <? 128) || negb (is_cont c)) eqn:E.
    + assert (Hc : is_cont c = false).
      { destruct (is_cont c) eqn:Hc; [|done]. apply is_cont_high in Hc.
        apply orb_true_iff in E as [?|?]; [zbool; lia|done]. }
      rewrite utf8_string_cut by done. rewrite <- scan_buffer_ok by done.
      destruct (buffer_ok u); [|split; [lia|by intros [? _]]].
      rewrite Z.geb_leb. destruct (Z.leb_spec 128 (uchar c)).
      * rewrite IH; [|lia|done]. cbn. split; [by split|by intros [_ ?]].
      * rewrite IH; [|lia|done]. cbn. destruct (ascii_code_point c) as [Hp He]; [done|].
        split; [intros Hs; split; [done|]; change (c :: buf) with ([c] ++ buf); by eapply utf8_char|].
        intros [_ Hs]. change (c :: buf) with ([c] ++ buf) in Hs.
        remember ([c] ++ buf) as w eqn:Ew. destruct Hs as [|p bs w Hp' He' Hw]; [done|].
        destruct (encode_utf8_shape p bs (proj1 (proj1 Hp')) He') as (l & cs & -> & _ & _ & _ & Hl & _).
        injection Ew as -> Ew. destruct (Hl ltac:(lia)) as [-> _]. cbn in Ew. by subst.
    + apply orb_false_iff in E as [_ Hc]. apply negb_false_iff in Hc.
      destruct (Nat.eqb_spec (length u) MAX_UTF8_SZ).
      * split; [lia|]. intros Hs. by apply too_many_continuations in Hs.
      * rewrite IH; [by rewrite <- app_assoc|lia|].
        destruct u as [|b u]; cbn; [split; [by apply is_cont_high|done]|].
        destruct Hu as [Hb Hu]. split; [done|]. rewrite forallb_app. cbn. by rewrite Hu, Hc.
Qed.

(** UTF-8 as it is defined, up to six bytes and 31 bits. *)
Definition trail (x : Z) : ascii := chr (128 + x mod 64).
Definition utf8_bytes (c : Z) : bytes :=
  if c <? 128 then [chr c]
  else if c <? 2048 then [chr (192 + c / 64); trail c]
  else if c <? 65536 then [chr (224 + c / 4096); trail (c / 64); trail c]
  else if c <? 2097152 then [chr (240 + c / 262144); trail (c / 4096); trail (c / 64); trail c]
  else if c <? 67108864 then
    [chr (248 + c / 16777216); trail (c / 262144); trail (c / 4096); trail (c / 64); trail c]
  else [chr (252 + c / 1073741824); trail (c / 16777216); trail (c / 262144); trail (c / 4096); trail (c / 64); trail c].

Lemma trail_eq x : chr (Z.lor 128 (Z.land x 63)) = trail x.
Proof.
  unfold trail. change 63 with (Z.ones 6). rewrite Z.land_ones by lia. change (2 ^ 6) with 64.
  f_equal. apply Z.eqb_eq, (zrange_forall (λ y, Z.lor 128 y =? 128 + y) 64 eq_refl). dlia.
Qed.

Lemma lead_eq mask n u :
  forallb (λ y, Z.lor mask y =? mask + y) (zrange n) = true → 0 <= u < Z.of_nat n → Z.lor mask u = mask + u.
Proof. intros H Hu. by apply Z.eqb_eq, (zrange_forall (λ y, Z.lor mask y =? mask + y) n H). Qed.

Lemma encode_utf8_bytes c : 0 <= c <= 2147483647 → encode_utf8 c = Some (utf8_bytes c).
Proof.
  intros Hc. unfold encode_utf8, utf8_bytes, max_val. cbn [val_index].
  assert (∀ u, Z.shiftr u 6 = u / 64) as Hs by (intros u; by rewrite Z.shiftr_div_pow2).
  assert (c / 64 / 64 = c / 4096 ∧ c / 4096 / 64 = c / 262144 ∧ c / 262144 / 64 = c / 16777216
          ∧ c / 16777216 / 64 = c / 1073741824) as (D1 & D2 & D3 & D4) by (by rewrite !Z.div_div).
  repeat match goal with |- context [c <=? ?m] => destruct (Z.leb_spec c m) end; try lia;
    repeat match goal with |- context [c <? ?m] => destruct (Z.ltb_spec c m) end; try lia; [done|..];
    cbn [Nat.eqb length encode_loop]; rewrite !Hs, ?D1, ?D2, ?D3, ?D4, !trail_eq; do 3 f_equal.
  - apply (lead_eq 192 32); [reflexivity|dlia].
  - apply (lead_eq 224 16); [reflexivity|dlia].
  - apply (lead_eq 240 8); [reflexivity|dlia].
  - apply (lead_eq 248 4); [reflexivity|dlia].
  - apply (lead_eq 252 2); [reflexivity|dlia].
Qed.

Lemma utf8_string_bytes s : utf8_string s ↔ ∃ cs, Forall code_point cs ∧ s = concat (map utf8_bytes cs).
Proof.
  split.
  - induction 1 as [|c bs s Hc He _ (cs & Hcs & ->)]; [by exists []|].
    rewrite encode_utf8_bytes in He by apply Hc. injection He as <-. exists (c :: cs). split; [by constructor|done].
  - intros (cs & Hcs & ->). induction Hcs as [|c cs Hc Hcs IH]; [constructor|].
    eapply utf8_char; [exact Hc|apply encode_utf8_bytes, Hc|exact IH].
Qed.

(** C6: the scanner accepts a string exactly when it is the UTF-8 of a sequence of
    code points of up to 31 bits, surrogates, U+FFFE and U+FFFF excluded: nothing
    overlong, truncated or out of range passes. *)
Theorem check_utf8_spec s :
  check_utf8 s = 0 ↔ ∃ cs, Forall (λ c, 0 <= c < 2 ^ 31 ∧ c ≠ 65534 ∧ c ≠ 65535 ∧ ¬ 55296 <= c <= 57343) cs
                         ∧ s = concat (map utf8_bytes cs).
Proof.
  unfold check_utf8. rewrite check_utf8_loop_spec by done. cbn [app]. rewrite utf8_string_bytes.
  split; intros (cs & Hcs & ->); exists cs; (split; [|done]); (eapply Forall_impl; [exact Hcs|]); unfold code_point; intros c Hc; lia.
Qed.

(** A code point is encoded, decoded to itself again, and its bytes pass the
    scanner. *)
Lemma utf8_roundtrip c :
  code_point c → ∃ bs, encode_utf8 c = Some bs ∧ decode_utf8 bs = c ∧ check_utf8 bs = 0.
Proof.
  intros Hc. destruct (encode_utf8_total c (proj1 Hc)) as [bs E]. exists bs. split; [done|].
  split; [by apply decode_encode_utf8|]. apply (check_utf8_loop_spec bs 0 []); [done|done|].
  by eapply utf8_string_one.
Qed.

Lemma utf8_roundtrip_witness :
  ∃ bs, encode_utf8 8364 = Some bs ∧ decode_utf8 bs = 8364 ∧ check_utf8 bs = 0.
Proof. apply (utf8_roundtrip 8364). unfold code_point. lia. Defined.

Lemma utf8_rejects_overlong :
  check_utf8 [chr 192; chr 175] = 3 ∧ check_utf8 [chr 237; chr 160; chr 128] = 4.
Proof. split; vm_compute; reflexivity. Qed.
