(* ===== verification/Acl.v ===== *)
(** * Access control ([src/src/rgw/porting_acl.h], [porting_acl.cc])

    Grants, access control lists and policies with their encodings, the
    accumulation of grants into the permission maps, and the evaluation of a
    request's permission.  Permissions are the bits of a C [int]; grantee types
    and groups are the integers they are encoded as. *)

From S2P Require Import Prelude StdMap Encoding CString.

(** ** Permissions, grantee types, groups *)

Definition RGW_PERM_NONE : Z := 0.
Definition RGW_PERM_READ : Z := 1.
Definition RGW_PERM_WRITE : Z := 2.
Definition RGW_PERM_READ_ACP : Z := 4.
Definition RGW_PERM_WRITE_ACP : Z := 8.
Definition RGW_PERM_READ_OBJS : Z := 16.
Definition RGW_PERM_WRITE_OBJS : Z := 32.
Definition RGW_PERM_FULL_CONTROL : Z :=
  Z.lor (Z.lor (Z.lor RGW_PERM_READ RGW_PERM_WRITE) RGW_PERM_READ_ACP) RGW_PERM_WRITE_ACP.
Definition RGW_PERM_ALL_S3 : Z := RGW_PERM_FULL_CONTROL.

Definition ACL_TYPE_CANON_USER : Z := 0.
Definition ACL_TYPE_EMAIL_USER : Z := 1.
Definition ACL_TYPE_GROUP : Z := 2.
Definition ACL_TYPE_UNKNOWN : Z := 3.

Definition ACL_GROUP_NONE : Z := 0.
Definition ACL_GROUP_ALL_USERS : Z := 1.
Definition ACL_GROUP_AUTHENTICATED_USERS : Z := 2.

Definition RGW_USER_ANON_ID : str := "anonymous".
Definition rgw_uri_all_users : str := "http://acs.amazonaws.com/groups/global/AllUsers".
Definition rgw_uri_auth_users : str := "http://acs.amazonaws.com/groups/global/AuthenticatedUsers".

(** [ACLGrant::uri_to_group] ([porting_dencode.cc]) *)
Definition uri_to_group (uri : str) : Z :=
  if streq uri rgw_uri_all_users then ACL_GROUP_ALL_USERS
  else if streq uri rgw_uri_auth_users then ACL_GROUP_AUTHENTICATED_USERS
  else ACL_GROUP_NONE.

(** ** [ACLPermission] and [ACLGranteeType] *)

Definition encode_ACLPermission (flags : Z) : E := ENCODE 2 2 (enc s32_c flags).
Definition decode_ACLPermission (x0 : Z) : D Z :=
  DECODE_LEGACY 2 2 2 (λ struct_v, v ← dec s32_c x0; mret v).
Definition wf_ACLPermission (x : Z) : Prop := wf s32_c x.
Definition ACLPermission_c : codec Z :=
  Codec encode_ACLPermission decode_ACLPermission wf_ACLPermission.

Definition encode_ACLGranteeType (type : Z) : E := ENCODE 2 2 (enc u32_c type).
Definition decode_ACLGranteeType (x0 : Z) : D Z :=
  DECODE_LEGACY 2 2 2 (λ struct_v, v ← dec u32_c x0; mret v).
Definition wf_ACLGranteeType (x : Z) : Prop := wf u32_c x.
Definition ACLGranteeType_c : codec Z :=
  Codec encode_ACLGranteeType decode_ACLGranteeType wf_ACLGranteeType.

(** ** [ACLGrant] *)

Record ACLGrant := Mk_ACLGrant {
  ag_type : Z;
  ag_id : str;
  ag_email : str;
  ag_permission : Z;
  ag_name : str;
  ag_group : Z
}.
Definition ACLGrant_new : ACLGrant := Mk_ACLGrant ACL_TYPE_UNKNOWN [] [] 0 [] ACL_GROUP_NONE.

(** [get_id(_id)]: the result and the new [_id]. *)
Definition get_id (g : ACLGrant) (_id : str) : bool * str :=
  if ag_type g =? ACL_TYPE_EMAIL_USER then (true, ag_email g)
  else if ag_type g =? ACL_TYPE_GROUP then (false, _id)
  else (true, ag_id g).

Definition set_canon (_id _name : str) (perm : Z) (g : ACLGrant) : ACLGrant :=
  Mk_ACLGrant ACL_TYPE_CANON_USER _id (ag_email g) perm _name (ag_group g).
Definition set_group (_group perm : Z) (g : ACLGrant) : ACLGrant :=
  Mk_ACLGrant ACL_TYPE_GROUP (ag_id g) (ag_email g) perm (ag_name g) _group.

Definition encode_ACLGrant (x : ACLGrant) : E :=
  ENCODE 3 3
    (enc ACLGranteeType_c (ag_type x) >>>
     enc string_c (ag_id x) >>>
     enc string_c [] >>>
     enc string_c (ag_email x) >>>
     enc ACLPermission_c (ag_permission x) >>>
     enc string_c (ag_name x) >>>
     enc u32_c (ag_group x)).
Definition decode_ACLGrant (x0 : ACLGrant) : D ACLGrant :=
  DECODE_LEGACY 3 3 3 (λ struct_v,
    v_type ← dec ACLGranteeType_c (ag_type x0);
    v_id ← dec string_c (ag_id x0);
    uri ← dec string_c [];
    v_email ← dec string_c (ag_email x0);
    v_permission ← dec ACLPermission_c (ag_permission x0);
    v_name ← dec string_c (ag_name x0);
    v_group ← (if struct_v >? 1 then dec u32_c 0 else mret (uri_to_group uri));
    mret (Mk_ACLGrant v_type v_id v_email v_permission v_name v_group)).
Definition wf_ACLGrant (x : ACLGrant) : Prop :=
  wf ACLGranteeType_c (ag_type x) ∧
  wf string_c (ag_id x) ∧
  wf string_c (ag_email x) ∧
  wf ACLPermission_c (ag_permission x) ∧
  wf string_c (ag_name x) ∧
  wf u32_c (ag_group x).
Definition ACLGrant_c : codec ACLGrant := Codec encode_ACLGrant decode_ACLGrant wf_ACLGrant.

(** ** [RGWAccessControlList] *)

Record RGWAccessControlList := Mk_RGWAccessControlList {
  acl_user_map : list (str * Z);
  acl_group_map : list (Z * Z);
  grant_map : list (str * ACLGrant)
}.
Definition RGWAccessControlList_new : RGWAccessControlList := Mk_RGWAccessControlList [] [] [].

(** [m[k] |= v] *)
Definition mor {K} `{Ord K} (k : K) (v : Z) (m : list (K * Z)) : list (K * Z) :=
  mset k (Z.lor (default 0 (mfind k m)) v) m.

Definition _add_grant (grant : ACLGrant) (a : RGWAccessControlList) : RGWAccessControlList :=
  if ag_type grant =? ACL_TYPE_GROUP then
    Mk_RGWAccessControlList (acl_user_map a)
      (mor (ag_group grant) (ag_permission grant) (acl_group_map a)) (grant_map a)
  else
    let id := snd (get_id grant []) in
    Mk_RGWAccessControlList (mor id (ag_permission grant) (acl_user_map a))
      (acl_group_map a) (grant_map a).

Definition add_grant (grant : ACLGrant) (a : RGWAccessControlList) : RGWAccessControlList :=
  let id := snd (get_id grant []) in
  _add_grant grant
    (Mk_RGWAccessControlList (acl_user_map a) (acl_group_map a)
       (mminsert id grant (grant_map a))).

Definition acl_get_perm (a : RGWAccessControlList) (id : str) (perm_mask : Z) : Z :=
  match mfind id (acl_user_map a) with Some p => Z.land p perm_mask | None => 0 end.

Definition acl_get_group_perm (a : RGWAccessControlList) (group perm_mask : Z) : Z :=
  match mfind group (acl_group_map a) with Some p => Z.land p perm_mask | None => 0 end.

Definition acl_create_default (id name : str) (a : RGWAccessControlList) : RGWAccessControlList :=
  add_grant (set_canon id name RGW_PERM_FULL_CONTROL ACLGrant_new)
    (Mk_RGWAccessControlList [] [] (grant_map a)).

Abbreviation user_map_c := (map_c [] 0 string_c s32_c).
Abbreviation group_map_c := (map_c 0 0 u32_c s32_c).
Abbreviation grant_map_c := (multimap_c [] ACLGrant_new string_c ACLGrant_c).

Definition encode_RGWAccessControlList (x : RGWAccessControlList) : E :=
  ENCODE 3 3
    (enc bool_c true >>>
     enc user_map_c (acl_user_map x) >>>
     enc grant_map_c (grant_map x) >>>
     enc group_map_c (acl_group_map x)).
Definition decode_RGWAccessControlList (x0 : RGWAccessControlList) : D RGWAccessControlList :=
  DECODE_LEGACY 3 3 3 (λ struct_v,
    maps_initialized ← dec bool_c false;
    v_user_map ← dec user_map_c (acl_user_map x0);
    v_grant_map ← dec grant_map_c (grant_map x0);
    if struct_v >=? 2 then
      v_group_map ← dec group_map_c (acl_group_map x0);
      mret (Mk_RGWAccessControlList v_user_map v_group_map v_grant_map)
    else if negb maps_initialized then
      mret (fold_left (λ a p, _add_grant (snd p) a) v_grant_map
              (Mk_RGWAccessControlList v_user_map (acl_group_map x0) v_grant_map))
    else mret (Mk_RGWAccessControlList v_user_map (acl_group_map x0) v_grant_map)).
Definition wf_RGWAccessControlList (x : RGWAccessControlList) : Prop :=
  wf user_map_c (acl_user_map x) ∧
  wf grant_map_c (grant_map x) ∧
  wf group_map_c (acl_group_map x).
Definition RGWAccessControlList_c : codec RGWAccessControlList :=
  Codec encode_RGWAccessControlList decode_RGWAccessControlList wf_RGWAccessControlList.

(** ** [ACLOwner] *)

Record ACLOwner := Mk_ACLOwner { ow_id : str; ow_display_name : str }.
Definition ACLOwner_new : ACLOwner := Mk_ACLOwner [] [].
Definition encode_ACLOwner (x : ACLOwner) : E :=
  ENCODE 2 2 (enc string_c (ow_id x) >>> enc string_c (ow_display_name x)).
Definition decode_ACLOwner (x0 : ACLOwner) : D ACLOwner :=
  DECODE_LEGACY 2 2 2 (λ struct_v,
    v_id ← dec string_c (ow_id x0);
    v_display_name ← dec string_c (ow_display_name x0);
    mret (Mk_ACLOwner v_id v_display_name)).
Definition wf_ACLOwner (x : ACLOwner) : Prop :=
  wf string_c (ow_id x) ∧ wf string_c (ow_display_name x).
Definition ACLOwner_c : codec ACLOwner := Codec encode_ACLOwner decode_ACLOwner wf_ACLOwner.

(** ** [RGWAccessControlPolicy] *)

(** The dynamic class of a policy decides [compare_group_name]. *)
Inductive policy_class := policy_base | policy_s3.

Record RGWAccessControlPolicy := Mk_RGWAccessControlPolicy {
  ap_acl : RGWAccessControlList;
  ap_owner : ACLOwner
}.
Definition RGWAccessControlPolicy_new : RGWAccessControlPolicy :=
  Mk_RGWAccessControlPolicy RGWAccessControlList_new ACLOwner_new.

Definition encode_RGWAccessControlPolicy (x : RGWAccessControlPolicy) : E :=
  ENCODE 2 2 (enc ACLOwner_c (ap_owner x) >>> enc RGWAccessControlList_c (ap_acl x)).
Definition decode_RGWAccessControlPolicy (x0 : RGWAccessControlPolicy) : D RGWAccessControlPolicy :=
  DECODE_LEGACY 2 2 2 (λ struct_v,
    v_owner ← dec ACLOwner_c (ap_owner x0);
    v_acl ← dec RGWAccessControlList_c (ap_acl x0);
    mret (Mk_RGWAccessControlPolicy v_acl v_owner)).
Definition wf_RGWAccessControlPolicy (x : RGWAccessControlPolicy) : Prop :=
  wf ACLOwner_c (ap_owner x) ∧ wf RGWAccessControlList_c (ap_acl x).
Definition RGWAccessControlPolicy_c : codec RGWAccessControlPolicy :=
  Codec encode_RGWAccessControlPolicy decode_RGWAccessControlPolicy wf_RGWAccessControlPolicy.

(** [decode_owner]: the owner only, the rest of the block is skipped. *)
Definition decode_owner (x0 : RGWAccessControlPolicy) : D RGWAccessControlPolicy :=
  DECODE_LEGACY 2 2 2 (λ struct_v,
    v_owner ← dec ACLOwner_c (ap_owner x0);
    mret (Mk_RGWAccessControlPolicy (ap_acl x0) v_owner)).

Definition policy_create_default (id name : str) (p : RGWAccessControlPolicy) : RGWAccessControlPolicy :=
  Mk_RGWAccessControlPolicy (acl_create_default id name (ap_acl p)) (Mk_ACLOwner id name).

(** [compare_group_name]: [false] in the base class, the S3 policy compares
    the user's id with the group's name. *)
Definition compare_group_name (c : policy_class) (id : str) (group : Z) : bool :=
  match c with
  | policy_base => false
  | policy_s3 =>
      if group =? ACL_GROUP_ALL_USERS then streq id RGW_USER_ANON_ID
      else if group =? ACL_GROUP_AUTHENTICATED_USERS then streq id rgw_uri_auth_users
      else streq id []
  end.

Definition policy_get_perm (c : policy_class) (p : RGWAccessControlPolicy) (id : str) (perm_mask : Z) : Z :=
  let perm := acl_get_perm (ap_acl p) id perm_mask in
  let perm :=
    if streq id (ow_id (ap_owner p))
    then Z.lor perm (Z.land perm_mask (Z.lor RGW_PERM_READ_ACP RGW_PERM_WRITE_ACP))
    else perm in
  if perm =? perm_mask then perm
  else if negb (Z.land perm perm_mask =? perm_mask) then
    let perm := Z.lor perm (acl_get_group_perm (ap_acl p) ACL_GROUP_ALL_USERS perm_mask) in
    if negb (compare_group_name c id ACL_GROUP_ALL_USERS)
    then Z.lor perm (acl_get_group_perm (ap_acl p) ACL_GROUP_AUTHENTICATED_USERS perm_mask)
    else perm
  else perm.

Definition verify_permission (c : policy_class) (p : RGWAccessControlPolicy)
    (uid : str) (user_perm_mask perm : Z) : bool :=
  let test_perm := Z.lor (Z.lor perm RGW_PERM_READ_OBJS) RGW_PERM_WRITE_OBJS in
  let policy_perm := policy_get_perm c p uid test_perm in
  let policy_perm :=
    if negb (Z.land policy_perm RGW_PERM_WRITE_OBJS =? 0)
    then Z.lor policy_perm (Z.lor RGW_PERM_WRITE RGW_PERM_WRITE_ACP) else policy_perm in
  let policy_perm :=
    if negb (Z.land policy_perm RGW_PERM_READ_OBJS =? 0)
    then Z.lor policy_perm (Z.lor RGW_PERM_READ RGW_PERM_READ_ACP) else policy_perm in
  let acl_perm := Z.land (Z.land policy_perm perm) user_perm_mask in
  perm =? acl_perm.

(** ** Codecs *)

#[export] Instance ACLPermission_ok : CodecOk ACLPermission_c.
Proof. codec_solve encode_ACLPermission decode_ACLPermission wf_ACLPermission. Qed.

#[export] Instance ACLGranteeType_ok : CodecOk ACLGranteeType_c.
Proof. codec_solve encode_ACLGranteeType decode_ACLGranteeType wf_ACLGranteeType. Qed.

Lemma wf_string_nil : wf string_c [].
Proof. by vm_compute. Qed.
#[local] Hint Resolve wf_string_nil : core.

#[export] Instance ACLGrant_ok : CodecOk ACLGrant_c.
Proof. codec_solve encode_ACLGrant decode_ACLGrant wf_ACLGrant. Qed.

#[local] Hint Extern 0 (wf bool_c _) => exact I : core.

#[export] Instance RGWAccessControlList_ok : CodecOk RGWAccessControlList_c.
Proof.
  codec_solve encode_RGWAccessControlList decode_RGWAccessControlList wf_RGWAccessControlList.
Qed.

#[export] Instance ACLOwner_ok : CodecOk ACLOwner_c.
Proof. codec_solve encode_ACLOwner decode_ACLOwner wf_ACLOwner. Qed.

#[export] Instance RGWAccessControlPolicy_ok : CodecOk RGWAccessControlPolicy_c.
Proof.
  codec_solve encode_RGWAccessControlPolicy decode_RGWAccessControlPolicy wf_RGWAccessControlPolicy.
Qed.

(** ** What the grants add up to *)

(** The permissions the grants of a list give to a user and to a group. *)
Definition user_perms (id : str) (gs : list ACLGrant) : Z :=
  foldr (λ g acc, if negb (ag_type g =? ACL_TYPE_GROUP) && streq (snd (get_id g [])) id
                  then Z.lor (ag_permission g) acc else acc) 0 gs.
Definition group_perms (group : Z) (gs : list ACLGrant) : Z :=
  foldr (λ g acc, if (ag_type g =? ACL_TYPE_GROUP) && (ag_group g =? group)
                  then Z.lor (ag_permission g) acc else acc) 0 gs.

(** The permission maps hold exactly what the grants add up to. *)
Record acl_inv (a : RGWAccessControlList) : Prop := {
  inv_user_sorted : msorted (acl_user_map a);
  inv_group_sorted : msorted (acl_group_map a);
  inv_grant_sorted : mmsorted (grant_map a);
  inv_user : ∀ id, default 0 (mfind id (acl_user_map a)) = user_perms id (grant_map a).*2;
  inv_group : ∀ g, default 0 (mfind g (acl_group_map a)) = group_perms g (grant_map a).*2
}.

Lemma lor_foldr_perm (f : ACLGrant → bool) l k :
  l ≡ₚ k → foldr (λ g acc, if f g then Z.lor (ag_permission g) acc else acc) 0 l =
           foldr (λ g acc, if f g then Z.lor (ag_permission g) acc else acc) 0 k.
Proof.
  induction 1 as [|g l k _ IH|g h l|l k m _ IH1 _ IH2]; cbn; [done|by rewrite IH| |congruence].
  destruct (f g), (f h); try done. rewrite !Z.lor_assoc. f_equal. apply Z.lor_comm.
Qed.

Lemma user_perms_perm id l k : l ≡ₚ k → user_perms id l = user_perms id k.
Proof. apply lor_foldr_perm. Qed.
Lemma group_perms_perm g l k : l ≡ₚ k → group_perms g l = group_perms g k.
Proof. apply lor_foldr_perm. Qed.

Lemma mor_find {K} `{Ord K, !OrdLaws K, !OrdLeibniz K, EqDecision K} (k l : K) v m :
  default 0 (mfind l (mor k v m)) =
    if bool_decide (k = l) then Z.lor (default 0 (mfind k m)) v else default 0 (mfind l m).
Proof.
  unfold mor. case_bool_decide as Hkl; [subst l; by rewrite mfind_mset_eq|].
  by rewrite mfind_mset_ne.
Qed.

Lemma mor_sorted {K} `{Ord K, !OrdLaws K} (k : K) v m : msorted m → msorted (mor k v m).
Proof. apply mset_sorted. Qed.

Lemma add_grant_grants g a : (grant_map (add_grant g a)).*2 ≡ₚ g :: (grant_map a).*2.
Proof.
  assert (E : grant_map (add_grant g a) = mminsert (snd (get_id g [])) g (grant_map a))
    by (unfold add_grant, _add_grant; by case_bool).
  rewrite E, (mminsert_perm _ g (grant_map a)). done.
Qed.

(** What one more grant does to the permission maps. *)
Lemma _add_grant_user g a id :
  default 0 (mfind id (acl_user_map (_add_grant g a))) =
    if negb (ag_type g =? ACL_TYPE_GROUP) && streq (snd (get_id g [])) id
    then Z.lor (ag_permission g) (default 0 (mfind id (acl_user_map a)))
    else default 0 (mfind id (acl_user_map a)).
Proof.
  unfold _add_grant. destruct (ag_type g =? _) eqn:E; cbn [negb andb acl_user_map]; [done|].
  rewrite mor_find. unfold streq. case_bool_decide; [|done]. subst id. apply Z.lor_comm.
Qed.

Lemma _add_grant_group g a gr :
  default 0 (mfind gr (acl_group_map (_add_grant g a))) =
    if (ag_type g =? ACL_TYPE_GROUP) && (ag_group g =? gr)
    then Z.lor (ag_permission g) (default 0 (mfind gr (acl_group_map a)))
    else default 0 (mfind gr (acl_group_map a)).
Proof.
  unfold _add_grant. destruct (ag_type g =? _) eqn:E; cbn [negb andb acl_group_map]; [|done].
  rewrite mor_find. destruct (Z.eqb_spec (ag_group g) gr) as [->|Hne].
  - rewrite bool_decide_true by done. apply Z.lor_comm.
  - by rewrite bool_decide_false.
Qed.

Lemma add_grant_inv g a : acl_inv a → acl_inv (add_grant g a).
Proof.
  intros [Hus Hgs Hms Hu Hg]. pose proof (add_grant_grants g a) as Hp.
  split.
  - unfold add_grant, _add_grant. destruct (_ =? _); cbn [acl_user_map acl_group_map grant_map];
      try apply mor_sorted; done.
  - unfold add_grant, _add_grant. destruct (_ =? _); cbn [acl_user_map acl_group_map grant_map];
      try apply mor_sorted; done.
  - unfold add_grant, _add_grant. destruct (_ =? _); cbn [acl_user_map acl_group_map grant_map];
      by apply mminsert_sorted.
  - intros id. rewrite (user_perms_perm id _ _ Hp). unfold user_perms. cbn [foldr].
    fold (user_perms id (grant_map a).*2). rewrite <- Hu.
    unfold add_grant. by rewrite _add_grant_user.
  - intros gr. rewrite (group_perms_perm gr _ _ Hp). unfold group_perms. cbn [foldr].
    fold (group_perms gr (grant_map a).*2). rewrite <- Hg.
    unfold add_grant. by rewrite _add_grant_group.
Qed.

Lemma acl_new_inv : acl_inv RGWAccessControlList_new.
Proof. by split. Qed.

#[export] Hint Resolve add_grant_inv acl_new_inv : rgw.

Lemma acl_inv_get_perm a id mask :
  acl_inv a → acl_get_perm a id mask = Z.land (user_perms id (grant_map a).*2) mask.
Proof. intros Hi. rewrite <- (inv_user a Hi). unfold acl_get_perm. by destruct (mfind _ _). Qed.

Lemma acl_inv_get_group_perm a g mask :
  acl_inv a → acl_get_group_perm a g mask = Z.land (group_perms g (grant_map a).*2) mask.
Proof. intros Hi. rewrite <- (inv_group a Hi). unfold acl_get_group_perm. by destruct (mfind _ _). Qed.

(** ** The permission of a request *)

(** What a policy lets a user do, without the masks and early returns. *)
Definition effective_perm (c : policy_class) (p : RGWAccessControlPolicy) (id : str) : Z :=
  Z.lor (Z.lor (acl_get_perm (ap_acl p) id (-1))
               (if streq id (ow_id (ap_owner p)) then Z.lor RGW_PERM_READ_ACP RGW_PERM_WRITE_ACP else 0))
        (Z.lor (acl_get_group_perm (ap_acl p) ACL_GROUP_ALL_USERS (-1))
               (if compare_group_name c id ACL_GROUP_ALL_USERS then 0
                else acl_get_group_perm (ap_acl p) ACL_GROUP_AUTHENTICATED_USERS (-1))).

Lemma acl_get_perm_mask a id m : acl_get_perm a id m = Z.land (acl_get_perm a id (-1)) m.
Proof. unfold acl_get_perm. destruct (mfind _ _); by rewrite ?Z.land_m1_r. Qed.
Lemma acl_get_group_perm_mask a g m :
  acl_get_group_perm a g m = Z.land (acl_get_group_perm a g (-1)) m.
Proof. unfold acl_get_group_perm. destruct (mfind _ _); by rewrite ?Z.land_m1_r. Qed.

Lemma lor_absorb_mask x y m : Z.land x m = m → Z.lor (Z.land x m) (Z.land y m) = m.
Proof.
  intros ->. apply Z.bits_inj'. intros n Hn. rewrite Z.lor_spec, Z.land_spec.
  destruct (Z.testbit m n), (Z.testbit y n); done.
Qed.

Lemma policy_get_perm_effective c p id mask :
  policy_get_perm c p id mask = Z.land (effective_perm c p id) mask.
Proof.
  unfold policy_get_perm, effective_perm.
  rewrite acl_get_perm_mask, !(acl_get_group_perm_mask _ _ mask).
  set (u := acl_get_perm _ _ _). set (ga := acl_get_group_perm _ ACL_GROUP_ALL_USERS _).
  set (gb := acl_get_group_perm _ ACL_GROUP_AUTHENTICATED_USERS _).
  set (own := Z.lor RGW_PERM_READ_ACP RGW_PERM_WRITE_ACP). clearbody u ga gb own.
  set (b := streq id _). clearbody b.
  set (o := if b then own else 0).
  assert (Ho : (if b then Z.lor (Z.land u mask) (Z.land mask own) else Z.land u mask) =
               Z.land (Z.lor u o) mask).
  { subst o. destruct b; [rewrite Z.land_lor_distr_l; f_equal; apply Z.land_comm|].
    by rewrite Z.lor_0_r. }
  rewrite Ho, <- Z.land_assoc, Z.land_diag. clear Ho. clearbody o.
  set (nb := compare_group_name c id _). clearbody nb.
  rewrite (Z.land_lor_distr_l (Z.lor u o)).
  destruct (Z.eqb_spec (Z.land (Z.lor u o) mask) mask) as [E|E]; cbn [negb].
  - by rewrite (lor_absorb_mask _ _ _ E).
  - rewrite (Z.land_lor_distr_l ga). destruct nb; cbn [negb]; [by rewrite Z.land_0_l, Z.lor_0_r|].
    by rewrite Z.lor_assoc.
Qed.
