(* ===== verification/AclFacts.v ===== *)
(** * Properties of access control

    The permission maps against the grants they summarise, the evaluation of a
    request against a bitwise specification, default policies, encodings and
    the oldest format. *)

From S2P Require Import Prelude StdMap Encoding CString Acl.

(** ** Specifications *)

Definition add_all (gs : list ACLGrant) (a : RGWAccessControlList) : RGWAccessControlList :=
  fold_left (λ a g, add_grant g a) gs a.

(** What a list of grants and the owner's rights give to a user. *)
Definition granted (c : policy_class) (gs : list ACLGrant) (owner id : str) : Z :=
  Z.lor (Z.lor (user_perms id gs)
               (if streq id owner then Z.lor RGW_PERM_READ_ACP RGW_PERM_WRITE_ACP else 0))
        (Z.lor (group_perms ACL_GROUP_ALL_USERS gs)
               (if compare_group_name c id ACL_GROUP_ALL_USERS then 0
                else group_perms ACL_GROUP_AUTHENTICATED_USERS gs)).

(** The Swift container permissions imply the S3 ones. *)
Definition swift_expand (e : Z) : Z :=
  Z.lor (Z.lor e (if Z.testbit e 5 then Z.lor RGW_PERM_WRITE RGW_PERM_WRITE_ACP else 0))
        (if Z.testbit e 4 then Z.lor RGW_PERM_READ RGW_PERM_READ_ACP else 0).

(** ** Lemmas *)

Lemma add_all_inv gs a : acl_inv a → acl_inv (add_all gs a).
Proof. revert a. induction gs as [|g gs IH]; cbn; auto with rgw. Qed.

Lemma add_all_grants gs a : (grant_map (add_all gs a)).*2 ≡ₚ gs ++ (grant_map a).*2.
Proof.
  revert a. induction gs as [|g gs IH]; intros a; cbn; [done|].
  rewrite IH, add_grant_grants. by rewrite Permutation_middle.
Qed.

Lemma effective_granted c p id :
  acl_inv (ap_acl p) →
  effective_perm c p id = granted c (grant_map (ap_acl p)).*2 (ow_id (ap_owner p)) id.
Proof.
  intros Hi. unfold effective_perm, granted.
  by rewrite acl_inv_get_perm, !acl_inv_get_group_perm, !Z.land_m1_r.
Qed.

Lemma swift_expand_mono e f : Z.land e f = e → Z.land (swift_expand e) (swift_expand f) = swift_expand e.
Proof.
  rewrite !land_subset_iff. intros H n Hn. unfold swift_expand. rewrite !Z.lor_spec.
  pose proof (H 5 ltac:(lia)) as H5. pose proof (H 4 ltac:(lia)) as H4. specialize (H n Hn).
  assert (Hif : ∀ (b : bool) x, Z.testbit (if b then x else 0) n = b && Z.testbit x n)
    by (intros [] x; [done|apply Z.bits_0]).
  rewrite !Hif.
  destruct (Z.testbit (Z.lor RGW_PERM_WRITE _) n), (Z.testbit (Z.lor RGW_PERM_READ _) n),
    (Z.testbit e 5), (Z.testbit e 4), (Z.testbit e n); cbn in *;
    rewrite ?H5, ?H4, ?H by done; cbn; rewrite ?orb_true_r; done.
Qed.

(** [verify_permission] asks for a set of bits; it holds when they are in the
    user's mask and in what the policy gives. *)
Lemma verify_permission_subset c p uid umask perm :
  verify_permission c p uid umask perm =
    bool_decide (Z.land perm (Z.land umask (swift_expand (effective_perm c p uid))) = perm).
Proof.
  unfold verify_permission. rewrite policy_get_perm_effective.
  set (e := effective_perm c p uid). clearbody e.
  set (t := Z.lor (Z.lor perm RGW_PERM_READ_OBJS) RGW_PERM_WRITE_OBJS).
  set (x := Z.land e t).
  assert (H5 : Z.testbit x 5 = Z.testbit e 5)
    by (subst x t; rewrite Z.land_spec, Z.lor_spec, orb_true_r; apply andb_true_r).
  assert (H4 : Z.testbit x 4 = Z.testbit e 4)
    by (subst x t; rewrite Z.land_spec, !Z.lor_spec, orb_true_r; apply andb_true_r).
  assert (Hx : ∀ n, 0 <= n → Z.testbit perm n = true → Z.testbit x n = Z.testbit e n)
    by (intros n _ Hp; subst x t; rewrite Z.land_spec, !Z.lor_spec, Hp; apply andb_true_r).
  clearbody x t.
  unfold RGW_PERM_WRITE_OBJS, RGW_PERM_READ_OBJS.
  change 32 with (2 ^ 5). change 16 with (2 ^ 4). rewrite !land_pow2_eqb, !negb_involutive by lia.
  set (y := if Z.testbit x 5 then _ else x).
  assert (Hy : Z.testbit y 4 = Z.testbit e 4).
  { subst y. destruct (Z.testbit x 5); [|done]. rewrite Z.lor_spec, H4. by rewrite orb_false_r. }
  rewrite Hy. subst y. rewrite H5.
  destruct (Z.eqb_spec perm (Z.land (Z.land (if Z.testbit e 4 then
    Z.lor (if Z.testbit e 5 then Z.lor x (Z.lor RGW_PERM_WRITE RGW_PERM_WRITE_ACP) else x)
      (Z.lor RGW_PERM_READ RGW_PERM_READ_ACP) else
    if Z.testbit e 5 then Z.lor x (Z.lor RGW_PERM_WRITE RGW_PERM_WRITE_ACP) else x) perm) umask))
    as [E|E]; symmetry; [apply bool_decide_true|apply bool_decide_false].
  - rewrite land_subset_iff. intros n Hn Hp. pose proof Hp as Hp'.
    rewrite E, !Z.land_spec, Hp' in Hp. apply andb_true_iff in Hp as [Hp Hu].
    rewrite Z.land_spec, Hu. rewrite andb_true_r in Hp. unfold swift_expand.
    rewrite !Z.lor_spec, <- (Hx n Hn Hp'). revert Hp.
    destruct (Z.testbit e 4), (Z.testbit e 5); rewrite ?Z.lor_spec, ?Z.bits_0, ?orb_false_r; done.
  - intros Hs. apply E. rewrite land_subset_iff in Hs. apply Z.bits_inj'. intros n Hn.
    rewrite !Z.land_spec. specialize (Hs n Hn).
    destruct (Z.testbit perm n) eqn:Hp; [|by rewrite andb_false_r].
    specialize (Hs eq_refl). rewrite Z.land_spec in Hs. apply andb_true_iff in Hs as [-> Hs].
    rewrite !andb_true_r. unfold swift_expand in Hs. rewrite !Z.lor_spec, <- (Hx n Hn Hp) in Hs.
    revert Hs. destruct (Z.testbit e 4), (Z.testbit e 5);
      rewrite ?Z.lor_spec, ?Z.bits_0, ?orb_false_r; done.
Qed.

(** A grant only adds bits. *)
Lemma mor_grows {K} `{Ord K, !OrdLaws K, !OrdLeibniz K, EqDecision K} (k l : K) v m n :
  Z.testbit (default 0 (mfind l m)) n = true → Z.testbit (default 0 (mfind l (mor k v m))) n = true.
Proof.
  intros Hb. rewrite mor_find. case_bool_decide as E; [|done]. subst l. by rewrite Z.lor_spec, Hb.
Qed.

Lemma acl_get_perm_all a id : acl_get_perm a id (-1) = default 0 (mfind id (acl_user_map a)).
Proof. unfold acl_get_perm. destruct (mfind _ _); by rewrite ?Z.land_m1_r. Qed.
Lemma acl_get_group_perm_all a g : acl_get_group_perm a g (-1) = default 0 (mfind g (acl_group_map a)).
Proof. unfold acl_get_group_perm. destruct (mfind _ _); by rewrite ?Z.land_m1_r. Qed.

Lemma effective_perm_grows c p g uid :
  Z.land (effective_perm c p uid)
    (effective_perm c (Mk_RGWAccessControlPolicy (add_grant g (ap_acl p)) (ap_owner p)) uid) =
  effective_perm c p uid.
Proof.
  rewrite land_subset_iff. intros n Hn. unfold effective_perm. cbn [ap_acl ap_owner].
  rewrite !Z.lor_spec, !acl_get_perm_all, !acl_get_group_perm_all, !orb_true_iff.
  unfold add_grant, _add_grant.
  destruct (ag_type g =? ACL_TYPE_GROUP), (compare_group_name c uid ACL_GROUP_ALL_USERS);
    cbn [acl_user_map acl_group_map];
    (intros [[Hb|Hb]|[Hb|Hb]]; [left; left|left; right|right; left|right; right]);
    try apply mor_grows; done.
Qed.

Lemma create_default_perm id name a uid :
  acl_get_perm (acl_create_default id name a) uid (-1) =
    if streq uid id then RGW_PERM_FULL_CONTROL else 0.
Proof.
  rewrite acl_get_perm_all.
  assert (E : acl_user_map (acl_create_default id name a) = mor id RGW_PERM_FULL_CONTROL []) by done.
  rewrite E, mor_find. unfold streq. case_bool_decide as H1; case_bool_decide as H2; try reflexivity; congruence.
Qed.

(** Rebuilding the maps from stored grants: [done] are those already in. *)
Lemma rebuild_grant_map (l : list (str * ACLGrant)) a :
  grant_map (fold_left (λ a p, _add_grant (snd p) a) l a) = grant_map a.
Proof.
  revert a. induction l as [|p l IH]; intros a; cbn; [done|]. rewrite IH.
  unfold _add_grant. by destruct (_ =? _).
Qed.

Lemma rebuild_inv (l dn : list (str * ACLGrant)) a :
  grant_map a = dn ++ l → mmsorted (grant_map a) →
  msorted (acl_user_map a) ∧ msorted (acl_group_map a) →
  (∀ id, default 0 (mfind id (acl_user_map a)) = user_perms id dn.*2) ∧
  (∀ g, default 0 (mfind g (acl_group_map a)) = group_perms g dn.*2) →
  acl_inv (fold_left (λ a p, _add_grant (snd p) a) l a).
Proof.
  revert dn a. induction l as [|[k g] l IH]; intros dn a Hgm Hms [Hus Hgs] [Hu Hg].
  { rewrite app_nil_r in Hgm. cbn. split; try done; intros; rewrite Hgm; auto. }
  cbn [fold_left snd]. apply (IH (dn ++ [(k, g)])).
  - rewrite <- app_assoc. cbn [app]. rewrite <- Hgm. unfold _add_grant. by destruct (_ =? _).
  - unfold _add_grant. by destruct (_ =? _).
  - unfold _add_grant. destruct (_ =? _); split; try done; by apply mor_sorted.
  - assert (Hp : (dn ++ [(k, g)]).*2 ≡ₚ g :: dn.*2)
      by (rewrite fmap_app; cbn; by rewrite Permutation_app_comm).
    split.
    + intros id. rewrite (user_perms_perm id _ _ Hp). unfold user_perms. cbn [foldr].
      fold (user_perms id dn.*2). rewrite <- Hu. apply _add_grant_user.
    + intros gr. rewrite (group_perms_perm gr _ _ Hp). unfold group_perms. cbn [foldr].
      fold (group_perms gr dn.*2). rewrite <- Hg. apply _add_grant_group.
Qed.

(** ** Theorems *)

(** C4: adding grants one by one to an empty list keeps the permission maps exact:
    a lookup under a mask is the union of the permissions of the grants for
    that user or group, and all maps stay ordered. *)
Theorem acl_maps_exact gs :
  let a := add_all gs RGWAccessControlList_new in
  (∀ id mask, acl_get_perm a id mask = Z.land (user_perms id gs) mask) ∧
  (∀ g mask, acl_get_group_perm a g mask = Z.land (group_perms g gs) mask) ∧
  (grant_map a).*2 ≡ₚ gs ∧ msorted (acl_user_map a) ∧ msorted (acl_group_map a) ∧
  mmsorted (grant_map a).
Proof.
  intros a. pose proof (add_all_inv gs _ acl_new_inv : acl_inv a) as Hi.
  pose proof (add_all_grants gs RGWAccessControlList_new : (grant_map a).*2 ≡ₚ gs ++ []) as Hp.
  rewrite app_nil_r in Hp. split_and!; [| |exact Hp|apply Hi..].
  - intros id mask. by rewrite acl_inv_get_perm, (user_perms_perm id _ _ Hp).
  - intros g mask. by rewrite acl_inv_get_group_perm, (group_perms_perm g _ _ Hp).
Qed.


Definition demo_grant : ACLGrant := set_canon "bob" "Bob" RGW_PERM_READ ACLGrant_new.
Definition demo_policy : RGWAccessControlPolicy :=
  Mk_RGWAccessControlPolicy (add_all [demo_grant] RGWAccessControlList_new) (Mk_ACLOwner "alice" "Alice").


(** Granting never revokes: whatever a policy allows, it allows after any
    further grant. *)
Lemma add_grant_monotone c p g uid umask perm :
  verify_permission c p uid umask perm = true →
  verify_permission c (Mk_RGWAccessControlPolicy (add_grant g (ap_acl p)) (ap_owner p)) uid umask perm
    = true.
Proof.
  rewrite !verify_permission_subset, !bool_decide_eq_true. intros H.
  pose proof (swift_expand_mono _ _ (effective_perm_grows c p g uid)) as Hef.
  rewrite land_subset_iff in *. intros n Hn Hp.
  specialize (H n Hn Hp). rewrite Z.land_spec in *. apply andb_true_iff in H as [-> H].
  by rewrite (Hef n Hn H).
Qed.

Lemma add_grant_monotone_witness :
  verify_permission policy_s3
    (Mk_RGWAccessControlPolicy (add_grant (set_group ACL_GROUP_ALL_USERS RGW_PERM_WRITE ACLGrant_new)
       (ap_acl demo_policy)) (ap_owner demo_policy)) "bob" 15 RGW_PERM_READ = true.
Proof. apply (add_grant_monotone policy_s3 demo_policy). by vm_compute. Defined.

(** [create_default] on any policy makes the given user the owner with full
    control, and takes every permission away from everybody else, whatever was
    granted before. *)
Lemma create_default_spec c p id name umask perm :
  Z.land perm (Z.land umask RGW_PERM_FULL_CONTROL) = perm →
  perm ≠ 0 →
  let q := policy_create_default id name p in
  verify_permission c q id umask perm = true ∧
  ow_id (ap_owner q) = id ∧
  ∀ uid, uid ≠ id → verify_permission c q uid umask perm = false.
Proof.
  intros Hperm Hne q.
  assert (He : ∀ uid, effective_perm c q uid =
    if streq uid id then RGW_PERM_FULL_CONTROL else 0).
  { intros uid. unfold effective_perm. cbn [ap_acl q policy_create_default].
    rewrite create_default_perm. change (ow_id (ap_owner q)) with id.
    unfold streq. by case_bool_decide; destruct (compare_group_name _ _ _). }
  split_and!.
  - rewrite verify_permission_subset, He. unfold streq. rewrite (bool_decide_true (id = id)) by done.
    by rewrite bool_decide_eq_true.
  - done.
  - intros uid Hu. rewrite verify_permission_subset, He. unfold streq.
    rewrite (bool_decide_false (uid = id)) by done. apply bool_decide_false.
    intros H0. apply Hne. change (swift_expand 0) with 0 in H0. by rewrite !Z.land_0_r in H0.
Qed.

Lemma create_default_spec_witness :
  let q := policy_create_default "alice" "Alice" demo_policy in
  verify_permission policy_s3 q "alice" 15 RGW_PERM_WRITE = true ∧
  ow_id (ap_owner q) = "alice" ∧
  ∀ uid, uid ≠ "alice" → verify_permission policy_s3 q uid 15 RGW_PERM_WRITE = false.
Proof. apply (create_default_spec policy_s3 demo_policy); by vm_compute. Defined.

(** [create_default] clears the permission maps but not the grants: when the
    list held a grant for another user, the grants that are kept (and shown,
    and stored) no longer agree with the permissions in force. *)
Lemma create_default_stale_grants id name g a :
  acl_inv a → g ∈ (grant_map a).*2 → ag_type g ≠ ACL_TYPE_GROUP →
  snd (get_id g []) ≠ id → 0 < ag_permission g →
  let a' := acl_create_default id name a in
  g ∈ (grant_map a').*2 ∧ acl_get_perm a' (snd (get_id g [])) (-1) = 0 ∧ ¬ acl_inv a'.
Proof.
  intros Hi Hg Ht Hid Hperm a'.
  assert (Hin : g ∈ (grant_map a').*2)
    by (subst a'; unfold acl_create_default; rewrite add_grant_grants; by right).
  assert (Hz : acl_get_perm a' (snd (get_id g [])) (-1) = 0).
  { subst a'. rewrite create_default_perm. unfold streq. by rewrite bool_decide_false. }
  split_and!; [done|done|]. intros Hi'.
  rewrite acl_inv_get_perm, Z.land_m1_r in Hz by done.
  apply elem_of_Permutation in Hin as [l Hl]. rewrite (user_perms_perm _ _ _ Hl) in Hz.
  unfold user_perms in Hz. cbn [foldr] in Hz. apply Z.eqb_neq in Ht. rewrite Ht in Hz.
  unfold streq in Hz. rewrite bool_decide_true in Hz by done. cbn [negb andb] in Hz.
  apply Z.lor_eq_0_iff in Hz. lia.
Qed.

Lemma create_default_stale_grants_witness :
  let a' := acl_create_default "alice" "Alice" (ap_acl demo_policy) in
  demo_grant ∈ (grant_map a').*2 ∧ acl_get_perm a' "bob" (-1) = 0 ∧ ¬ acl_inv a'.
Proof.
  apply (create_default_stale_grants "alice" "Alice" demo_grant).
  - apply (add_all_inv [demo_grant]), acl_new_inv.
  - left.
  - done.
  - done.
  - by vm_compute.
Defined.

(** A stored policy is read back as it was written, and reading only its
    owner gives the same owner, leaves the rest of the object alone and ends
    after the whole policy. *)
Lemma policy_roundtrip p p0 :
  wf RGWAccessControlPolicy_c p →
  let bs := enc RGWAccessControlPolicy_c p [] in
  zlen bs < 2 ^ 32 →
  dec RGWAccessControlPolicy_c p0 (It 0 bs) = inr (p, It (zlen bs) []) ∧
  decode_owner p0 (It 0 bs) =
    inr (Mk_RGWAccessControlPolicy (ap_acl p0) (ap_owner p), It (zlen bs) []).
Proof.
  intros Hp bs Hlen. split; [by apply (codec_roundtrip RGWAccessControlPolicy_c)|].
  apply reads_whole; [|done]. destruct Hp as [Ho Ha].
  subst bs. cbn [enc RGWAccessControlPolicy_c]. unfold encode_RGWAccessControlPolicy, decode_owner.
  rewrite ENCODE_block, eseq_nil by appends_solve.
  apply reads_DECODE_LEGACY_newer; [lia..|].
  rewrite <- (app_nil_r (enc ACLOwner_c _ [])).
  eapply reads_bind; [by apply dec_reads|apply reads_ret].
Qed.

Lemma policy_roundtrip_witness :
  let bs := enc RGWAccessControlPolicy_c demo_policy [] in
  dec RGWAccessControlPolicy_c RGWAccessControlPolicy_new (It 0 bs) = inr (demo_policy, It (zlen bs) []) ∧
  decode_owner RGWAccessControlPolicy_new (It 0 bs) =
    inr (Mk_RGWAccessControlPolicy RGWAccessControlList_new (Mk_ACLOwner "alice" "Alice"), It (zlen bs) []).
Proof. apply (policy_roundtrip demo_policy RGWAccessControlPolicy_new); wf_closed. Defined.

(** An access control list in the oldest format (version 1, no block header,
    the maps not yet filled in) is still read: the permission maps are rebuilt
    from the grants and agree with them. *)
Lemma acl_v1_legacy gm :
  wf grant_map_c gm →
  let bs := le_bytes 1 1 ++ (enc bool_c false >>> enc user_map_c [] >>> enc grant_map_c gm) [] in
  zlen bs < 2 ^ 32 →
  ∃ a, dec RGWAccessControlList_c RGWAccessControlList_new (It 0 bs) = inr (a, It (zlen bs) []) ∧
       grant_map a = gm ∧ acl_inv a.
Proof.
  intros Hgm bs Hlen.
  exists (fold_left (λ a p, _add_grant (snd p) a) gm (Mk_RGWAccessControlList [] [] gm)).
  split; [|split].
  - apply reads_whole; [|exact Hlen]. cbn [dec RGWAccessControlList_c].
    apply reads_DECODE_LEGACY_old; [lia|lia|lia|]. version_cbn.
    assert (wf bool_c false) by exact I. assert (wf user_map_c []) by wf_closed.
    reads_solve. cbn [negb]. apply reads_ret.
  - apply rebuild_grant_map.
  - apply (rebuild_inv gm [] (Mk_RGWAccessControlList [] [] gm)); [done|apply Hgm|by split..].
Qed.

Definition demo_grants : list (str * ACLGrant) :=
  [("", set_group ACL_GROUP_ALL_USERS RGW_PERM_READ ACLGrant_new); ("bob", demo_grant)].

Lemma acl_v1_legacy_witness :
  ∃ a, dec RGWAccessControlList_c RGWAccessControlList_new
         (It 0 (le_bytes 1 1 ++ (enc bool_c false >>> enc user_map_c [] >>> enc grant_map_c demo_grants) []))
       = inr (a, It (zlen (le_bytes 1 1 ++ (enc bool_c false >>> enc user_map_c [] >>>
                                            enc grant_map_c demo_grants) [])) []) ∧
       grant_map a = demo_grants ∧ acl_inv a.
Proof. apply (acl_v1_legacy demo_grants); wf_closed. Defined.
