(* ===== verification/AclS3.v ===== *)
(** * S3 access control documents ([src/src/rgw/porting_acl_s3.cc],
      [porting_acl_s3.h], [porting_xml.cc])

    The XML objects the parser builds and the [xml_end] methods that turn them
    into grants, lists and policies; the XML printers; canned policies,
    policies from [x-amz-grant-*] headers, and the rebuilding of a parsed
    policy against the user directory.  The XML tokenizer (expat) is outside:
    the parser is driven by its callbacks, here a list of events. *)

From S2P Require Import Prelude StdMap CString Env Acl.

(** ** XML objects *)

(** What the subclasses of [XMLObj] add to it. *)
Inductive xml_payload :=
  | X_plain
  | X_permission (flags : Z)
  | X_owner (o : ACLOwner)
  | X_grant (g : ACLGrant)
  | X_acl (a : RGWAccessControlList)
  | X_policy (p : RGWAccessControlPolicy).

Inductive XMLObj := XObj {
  xo_type : str;
  xo_data : str;
  xo_children : list (str * XMLObj);
  xo_attr_map : list (str * str);
  xo_payload : xml_payload
}.

(** [find_first(name)]: the first child with that name. *)
Definition find_first (name : str) (o : XMLObj) : option XMLObj := mfind name (xo_children o).

(** [find(name)], iterated to its end. *)
Definition find_all (name : str) (o : XMLObj) : list XMLObj :=
  omap (λ p, if streq name (fst p) then Some (snd p) else None) (xo_children o).

Definition get_attr (name : str) (o : XMLObj) : option str := mfind name (xo_attr_map o).

(** [static_cast] to the class [alloc_obj] made for the element's name. *)
Definition as_permission (o : XMLObj) : Z := match xo_payload o with X_permission f => f | _ => 0 end.
Definition as_owner (o : XMLObj) : ACLOwner := match xo_payload o with X_owner w => w | _ => ACLOwner_new end.
Definition as_grant (o : XMLObj) : ACLGrant := match xo_payload o with X_grant g => g | _ => ACLGrant_new end.
Definition as_acl (o : XMLObj) : RGWAccessControlList :=
  match xo_payload o with X_acl a => a | _ => RGWAccessControlList_new end.

(** [RGWACLXMLParser_S3::alloc_obj] *)
Definition alloc_obj (el : str) : xml_payload :=
  if streq el "AccessControlPolicy" then X_policy RGWAccessControlPolicy_new
  else if streq el "Owner" then X_owner ACLOwner_new
  else if streq el "AccessControlList" then X_acl RGWAccessControlList_new
  else if streq el "ID" then X_plain
  else if streq el "DisplayName" then X_plain
  else if streq el "Grant" then X_grant ACLGrant_new
  else if streq el "Grantee" then X_plain
  else if streq el "Permission" then X_permission 0
  else if streq el "URI" then X_plain
  else if streq el "EmailAddress" then X_plain
  else X_plain.

(** ** The [xml_end] methods: [None] is [false] *)

Definition permission_xml_end (data : str) (flags : Z) : option Z :=
  if strcaseeq data "READ" then Some (Z.lor flags RGW_PERM_READ)
  else if strcaseeq data "WRITE" then Some (Z.lor flags RGW_PERM_WRITE)
  else if strcaseeq data "READ_ACP" then Some (Z.lor flags RGW_PERM_READ_ACP)
  else if strcaseeq data "WRITE_ACP" then Some (Z.lor flags RGW_PERM_WRITE_ACP)
  else if strcaseeq data "FULL_CONTROL" then Some (Z.lor flags RGW_PERM_FULL_CONTROL)
  else None.

(** [ACLGranteeType_S3] *)
Definition grantee_type_to_string (type : Z) : str :=
  if type =? ACL_TYPE_CANON_USER then "CanonicalUser"
  else if type =? ACL_TYPE_EMAIL_USER then "AmazonCustomerByEmail"
  else if type =? ACL_TYPE_GROUP then "Group"
  else "unknown".
Definition grantee_type_set (s : option str) : Z :=
  match s with
  | None => ACL_TYPE_UNKNOWN
  | Some s =>
      if streq (cstr s) "CanonicalUser" then ACL_TYPE_CANON_USER
      else if streq (cstr s) "AmazonCustomerByEmail" then ACL_TYPE_EMAIL_USER
      else if streq (cstr s) "Group" then ACL_TYPE_GROUP
      else ACL_TYPE_UNKNOWN
  end.

Definition owner_xml_end (o : XMLObj) : option ACLOwner :=
  acl_id ← find_first "ID" o;
  Some (Mk_ACLOwner (xo_data acl_id)
          (match find_first "DisplayName" o with Some n => xo_data n | None => [] end)).

(** [ACLGrant_S3::xml_end]: the group of a group grant is not set. *)
Definition grant_xml_end (o : XMLObj) (g : ACLGrant) : option ACLGrant :=
  acl_grantee ← find_first "Grantee" o;
  type_str ← get_attr "xsi:type" acl_grantee;
  let type := grantee_type_set (Some type_str) in
  acl_permission ← find_first "Permission" o;
  let perm := as_permission acl_permission in
  if type =? ACL_TYPE_CANON_USER then
    acl_id ← find_first "ID" acl_grantee;
    let name := match find_first "DisplayName" acl_grantee with Some n => xo_data n | None => [] end in
    Some (Mk_ACLGrant type (xo_data acl_id) [] perm name (ag_group g))
  else if type =? ACL_TYPE_GROUP then
    acl_uri ← find_first "URI" acl_grantee;
    Some (Mk_ACLGrant type [] [] perm [] (ag_group g))
  else if type =? ACL_TYPE_EMAIL_USER then
    acl_email ← find_first "EmailAddress" acl_grantee;
    Some (Mk_ACLGrant type [] (xo_data acl_email) perm [] (ag_group g))
  else None.

Definition acl_xml_end (o : XMLObj) (a : RGWAccessControlList) : RGWAccessControlList :=
  fold_left (λ a g, add_grant (as_grant g) a) (find_all "Grant" o) a.

Definition policy_xml_end (o : XMLObj) : option RGWAccessControlPolicy :=
  s3acl ← find_first "AccessControlList" o;
  owner_p ← find_first "Owner" o;
  Some (Mk_RGWAccessControlPolicy (as_acl s3acl) (as_owner owner_p)).

(** The virtual [xml_end]. *)
Definition obj_xml_end (o : XMLObj) : option xml_payload :=
  match xo_payload o with
  | X_plain => Some X_plain
  | X_permission f => X_permission <$> permission_xml_end (xo_data o) f
  | X_owner _ => X_owner <$> owner_xml_end o
  | X_grant g => X_grant <$> grant_xml_end o g
  | X_acl a => Some (X_acl (acl_xml_end o a))
  | X_policy _ => X_policy <$> policy_xml_end o
  end.

(** ** [RGWXMLParser] *)

Inductive xml_event :=
  | xml_start (el : str) (attr : list (str * str))
  | xml_end (el : str)
  | handle_data (s : str).

Definition set_payload (o : XMLObj) (p : xml_payload) : XMLObj :=
  XObj (xo_type o) (xo_data o) (xo_children o) (xo_attr_map o) p.
Definition add_data (o : XMLObj) (s : str) : XMLObj :=
  XObj (xo_type o) (xo_data o ++ s) (xo_children o) (xo_attr_map o) (xo_payload o).
Definition add_child (o : XMLObj) (c : XMLObj) : XMLObj :=
  XObj (xo_type o) (xo_data o) (mminsert (xo_type c) c (xo_children o)) (xo_attr_map o) (xo_payload o).

(** [XMLObj::xml_start]: a repeated attribute overwrites the earlier one. *)
Definition new_obj (el : str) (attr : list (str * str)) : XMLObj :=
  XObj el [] [] (fold_left (λ m p, mset (fst p) (snd p) m) attr []) (alloc_obj el).

(** The parser: the open elements, innermost first, above the parser object
    that holds the document's root.  A child is linked to its parent when it
    starts and filled in while it is open; here it is linked when it ends, in
    the same order.  [None]: a handler returned [false], so [parse] returns
    [false]. *)
Record xml_parser := XP { xp_open : list XMLObj; xp_root : XMLObj }.

Definition xml_step (p : xml_parser) (e : xml_event) : option xml_parser :=
  match e with
  | xml_start el attr => Some (XP (new_obj el attr :: xp_open p) (xp_root p))
  | handle_data s =>
      match xp_open p with
      | [] => None
      | cur :: up => Some (XP (add_data cur s :: up) (xp_root p))
      end
  | xml_end el =>
      match xp_open p with
      | [] => None
      | cur :: up =>
          pl ← obj_xml_end cur;
          let cur := set_payload cur pl in
          match up with
          | [] => Some (XP [] (add_child (xp_root p) cur))
          | parent :: up' => Some (XP (add_child parent cur :: up') (xp_root p))
          end
      end
  end.

Fixpoint xml_run (p : xml_parser) (es : list xml_event) : option xml_parser :=
  match es with
  | [] => Some p
  | e :: es' => p' ← xml_step p e; xml_run p' es'
  end.

Definition xml_parse (es : list xml_event) : option XMLObj :=
  xp_root <$> xml_run (XP [] (XObj [] [] [] [] X_plain)) es.

(** The policy of a parsed document, and the object it came from. *)
Definition parse_policy (es : list xml_event) : option (XMLObj * RGWAccessControlPolicy) :=
  root ← xml_parse es;
  o ← find_first "AccessControlPolicy" root;
  match xo_payload o with X_policy p => Some (o, p) | _ => None end.

(** ** The printers: text appended to the stream *)

Definition permission_to_xml (flags : Z) : str :=
  if Z.land flags RGW_PERM_FULL_CONTROL =? RGW_PERM_FULL_CONTROL
  then "<Permission>FULL_CONTROL</Permission>"
  else
    (if negb (Z.land flags RGW_PERM_READ =? 0) then "<Permission>READ</Permission>" else []) ++
    (if negb (Z.land flags RGW_PERM_WRITE =? 0) then "<Permission>WRITE</Permission>" else []) ++
    (if negb (Z.land flags RGW_PERM_READ_ACP =? 0) then "<Permission>READ_ACP</Permission>" else []) ++
    (if negb (Z.land flags RGW_PERM_WRITE_ACP =? 0) then "<Permission>WRITE_ACP</Permission>" else []).

Definition owner_to_xml (o : ACLOwner) : str :=
  match ow_id o with
  | [] => []
  | _ =>
      "<Owner>" ++ "<ID>" ++ ow_id o ++ "</ID>" ++
      match ow_display_name o with
      | [] => []
      | _ => "<DisplayName>" ++ ow_display_name o ++ "</DisplayName>"
      end ++ "</Owner>"
  end.

Definition group_to_uri (group : Z) : option str :=
  if group =? ACL_GROUP_ALL_USERS then Some rgw_uri_all_users
  else if group =? ACL_GROUP_AUTHENTICATED_USERS then Some rgw_uri_auth_users
  else None.

Definition grantee_open (type : Z) : str :=
  "<Grantee xmlns:xsi=" ++ [QUOTE] ++ "http://www.w3.org/2001/XMLSchema-instance" ++ [QUOTE] ++
  " xsi:type=" ++ [QUOTE] ++ grantee_type_to_string type ++ [QUOTE] ++ ">".

Definition grant_to_xml (g : ACLGrant) : str :=
  if Z.land (ag_permission g) RGW_PERM_ALL_S3 =? 0 then []
  else
    "<Grant>" ++ grantee_open (ag_type g) ++
    (if ag_type g =? ACL_TYPE_CANON_USER then
       "<ID>" ++ ag_id g ++ "</ID>" ++
       match ag_name g with [] => [] | _ => "<DisplayName>" ++ ag_name g ++ "</DisplayName>" end
     else if ag_type g =? ACL_TYPE_EMAIL_USER then
       "<EmailAddress>" ++ ag_email g ++ "</EmailAddress>"
     else if ag_type g =? ACL_TYPE_GROUP then
       match group_to_uri (ag_group g) with Some uri => "<URI>" ++ uri ++ "</URI>" | None => [] end
     else []) ++
    "</Grantee>" ++ permission_to_xml (ag_permission g) ++ "</Grant>".

Definition acl_to_xml (a : RGWAccessControlList) : str :=
  "<AccessControlList>" ++ concat (map (λ p, grant_to_xml (snd p)) (grant_map a)) ++
  "</AccessControlList>".

Definition policy_to_xml (p : RGWAccessControlPolicy) : str :=
  "<AccessControlPolicy xmlns=" ++ [QUOTE] ++ "http://s3.amazonaws.com/doc/2006-03-01/" ++ [QUOTE] ++ ">" ++
  owner_to_xml (ap_owner p) ++ acl_to_xml (ap_acl p) ++ "</AccessControlPolicy>".

(** ** Canned policies *)

Definition create_canned (owner bucket_owner : ACLOwner) (canned_acl : str)
    (a : RGWAccessControlList) : Z * RGWAccessControlList :=
  let a := Mk_RGWAccessControlList [] (acl_group_map a) [] in
  let bid := ow_id bucket_owner in
  let bname := ow_display_name bucket_owner in
  let owner_grant := set_canon (ow_id owner) (ow_display_name owner) RGW_PERM_FULL_CONTROL ACLGrant_new in
  let a := add_grant owner_grant a in
  if (length canned_acl =? 0)%nat || streq canned_acl "private" then (0, a)
  else if streq canned_acl "public-read" then
    (0, add_grant (set_group ACL_GROUP_ALL_USERS RGW_PERM_READ ACLGrant_new) a)
  else if streq canned_acl "public-read-write" then
    let group_grant := set_group ACL_GROUP_ALL_USERS RGW_PERM_READ ACLGrant_new in
    let a := add_grant group_grant a in
    let group_grant := set_group ACL_GROUP_ALL_USERS RGW_PERM_WRITE group_grant in
    (0, add_grant group_grant a)
  else if streq canned_acl "authenticated-read" then
    (0, add_grant (set_group ACL_GROUP_AUTHENTICATED_USERS RGW_PERM_READ ACLGrant_new) a)
  else if streq canned_acl "bucket-owner-read" then
    let g := set_canon bid bname RGW_PERM_READ ACLGrant_new in
    (0, if streq bid (ow_id owner) then a else add_grant g a)
  else if streq canned_acl "bucket-owner-full-control" then
    let g := set_canon bid bname RGW_PERM_FULL_CONTROL ACLGrant_new in
    (0, if streq bid (ow_id owner) then a else add_grant g a)
  else (- EINVAL, a).

(** [RGWAccessControlPolicy_S3::create_canned] *)
Definition policy_create_canned (_owner bucket_owner : ACLOwner) (canned_acl : str)
    (p : RGWAccessControlPolicy) : Z * RGWAccessControlPolicy :=
  let '(ret, acl) := create_canned _owner bucket_owner canned_acl (ap_acl p) in
  (ret, Mk_RGWAccessControlPolicy acl _owner).

Definition create_from_grants (grants : list ACLGrant) (a : RGWAccessControlList)
    : Z * RGWAccessControlList :=
  match grants with
  | [] => (- EINVAL, a)
  | _ => (0, fold_left (λ a g, add_grant g a) grants
               (Mk_RGWAccessControlList [] (acl_group_map a) []))
  end.

(** ** Policies from headers, and against the user directory *)

(** The fields of [RGWUserInfo] used here. *)
Record user_names := UserNames { un_user_id : str; un_display_name : str }.

(** What [rgw_get_user_info_by_uid] gives: an error or the user.  It reads the
    object store. *)
Class UserDirectory := get_user_info_by_uid : str → Z + user_names.

Definition acl_header_perms : list (Z * str) :=
  [(RGW_PERM_READ, "HTTP_X_AMZ_GRANT_READ"); (RGW_PERM_WRITE, "HTTP_X_AMZ_GRANT_WRITE");
   (RGW_PERM_READ_ACP, "HTTP_X_AMZ_GRANT_READ_ACP"); (RGW_PERM_WRITE_ACP, "HTTP_X_AMZ_GRANT_WRITE_ACP");
   (RGW_PERM_FULL_CONTROL, "HTTP_X_AMZ_GRANT_FULL_CONTROL")].

Section directory.
Context `{UserDirectory}.

(** [parse_grantee_str]: the look-up by e-mail address is not done, its
    grant goes to the empty user. *)
Definition parse_grantee_str (grantee_str : str) (rgw_perm : Z) (grant : ACLGrant) : Z + ACLGrant :=
  match parse_key_value grantee_str (Some "=") [] [] with
  | inl ret => inl ret
  | inr (id_type, id_val_quoted) =>
      let id_val := rgw_trim_quotes id_val_quoted in
      if strcaseeq id_type "emailAddress" then inr (set_canon [] [] rgw_perm grant)
      else if strcaseeq id_type "id" then
        match get_user_info_by_uid id_val with
        | inl ret => inl ret
        | inr info => inr (set_canon (un_user_id info) (un_display_name info) rgw_perm grant)
        end
      else if strcaseeq id_type "uri" then
        let gid := uri_to_group id_val in
        if gid =? ACL_GROUP_NONE then inl (- EINVAL) else inr (set_group gid rgw_perm grant)
      else inl (- EINVAL)
  end.

(** The grantees of one header; the grants before an error stay appended. *)
Fixpoint parse_grantees (grantees : list str) (rgw_perm : Z) (_grants : list ACLGrant)
    : Z * list ACLGrant :=
  match grantees with
  | [] => (0, _grants)
  | s :: grantees' =>
      match parse_grantee_str s rgw_perm ACLGrant_new with
      | inl ret => (ret, _grants)
      | inr grant => parse_grantees grantees' rgw_perm (_grants ++ [grant])
      end
  end.

Definition parse_acl_header (env : env_map) (perm : Z * str) (_grants : list ACLGrant)
    : Z * list ACLGrant :=
  match env_get (snd perm) env with
  | None => (0, _grants)
  | Some hacl => parse_grantees (get_str_list (cstr hacl) ",") (fst perm) _grants
  end.

Fixpoint parse_acl_headers (env : env_map) (perms : list (Z * str)) (grants : list ACLGrant)
    : option (list ACLGrant) :=
  match perms with
  | [] => Some grants
  | p :: perms' =>
      let '(ret, grants) := parse_acl_header env p grants in
      if ret <? 0 then None else parse_acl_headers env perms' grants
  end.

(** [create_from_headers]: an error in a header is reported as [false], the
    integer 0. *)
Definition create_from_headers (env : env_map) (_owner : ACLOwner) (p : RGWAccessControlPolicy)
    : Z * RGWAccessControlPolicy :=
  match parse_acl_headers env acl_header_perms [] with
  | None => (0, p)
  | Some grants =>
      let '(r, acl) := create_from_grants grants (ap_acl p) in
      (r, Mk_RGWAccessControlPolicy acl _owner)
  end.

(** The switch of [rebuild] on one grant: an error, or the grant to add. *)
Definition rebuild_grant (src_grant : ACLGrant) : Z + option ACLGrant :=
  let type := ag_type src_grant in
  if (type =? ACL_TYPE_EMAIL_USER) || (type =? ACL_TYPE_CANON_USER) then
    (* an e-mail user has not been looked up: its uid is empty *)
    let uid := if type =? ACL_TYPE_CANON_USER then snd (get_id src_grant []) else [] in
    match get_user_info_by_uid uid with
    | inl ret => inl (- EINVAL)
    | inr grant_user =>
        inr (Some (set_canon uid (un_display_name grant_user) (ag_permission src_grant) ACLGrant_new))
    end
  else if type =? ACL_TYPE_GROUP then
    match group_to_uri (ag_group src_grant) with
    | Some _ => inr (Some src_grant)
    | None => inl (- EINVAL)
    end
  else inr None.

Fixpoint rebuild_grants (gs : list (str * ACLGrant)) (dst_acl : RGWAccessControlList)
    : Z * RGWAccessControlList :=
  match gs with
  | [] => (0, dst_acl)
  | (_, g) :: gs' =>
      match rebuild_grant g with
      | inl ret => (ret, dst_acl)
      | inr None => rebuild_grants gs' dst_acl
      | inr (Some new_grant) => rebuild_grants gs' (add_grant new_grant dst_acl)
      end
  end.

(** [rebuild(store, owner, dest)] on the parsed object [o] with policy [p]. *)
Definition rebuild (o : XMLObj) (p : RGWAccessControlPolicy) (owner : option ACLOwner)
    (dest : RGWAccessControlPolicy) : Z * RGWAccessControlPolicy :=
  match owner with
  | None => (- EINVAL, dest)
  | Some owner =>
      let denied :=
        match find_first "Owner" o with
        | None => false
        | Some w =>
            let requested_id := ow_id (as_owner w) in
            negb (length requested_id =? 0)%nat && negb (streq requested_id (ow_id owner))
        end in
      if denied then (- EPERM, dest)
      else
        match get_user_info_by_uid (ow_id owner) with
        | inl ret => (- EINVAL, dest)
        | inr owner_info =>
            let dest_owner := Mk_ACLOwner (ow_id owner) (un_display_name owner_info) in
            let '(ret, acl) := rebuild_grants (grant_map (ap_acl p)) (ap_acl dest) in
            (ret, Mk_RGWAccessControlPolicy acl dest_owner)
        end
  end.
End directory.
