(* ===== verification/RgwObj.v ===== *)
(** * Buckets, objects and their names ([src/src/rgw/porting_common.h])

    [rgw_obj_key], [rgw_bucket] and [rgw_obj]: the name under which an object is
    stored is mangled from its namespace, its version instance and the name the
    user gave it; the bucket index keeps a different form.  Reading an element
    of a [std::string] at its length gives NUL. *)

From S2P Require Import Prelude StdMap Encoding CString.

Definition char_at (i : nat) (s : str) : ascii := default NUL (s !! i).
Definition UNDERSCORE : ascii := "_"%char.
Definition COLON : ascii := ":"%char.
Definition starts_ (s : str) : bool := bool_decide (char_at 0 s = UNDERSCORE).

(** ** [rgw_obj_key] *)

Record rgw_obj_key := Mk_rgw_obj_key { rk_name : str; rk_instance : str }.
Definition rgw_obj_key_new : rgw_obj_key := Mk_rgw_obj_key [] [].
Definition key_set1 (n : str) (_ : rgw_obj_key) : rgw_obj_key := Mk_rgw_obj_key n [].
Definition key_set2 (n i : str) (_ : rgw_obj_key) : rgw_obj_key := Mk_rgw_obj_key n i.
Definition key_empty (k : rgw_obj_key) : bool := bool_decide (rk_name k = []).
Definition rgw_obj_key_eqb (a b : rgw_obj_key) : bool :=
  streq (rk_name a) (rk_name b) && streq (rk_instance a) (rk_instance b).
Definition rgw_obj_key_ltb (a b : rgw_obj_key) : bool :=
  match str_compare (rk_name a) (rk_name b) with
  | Eq => match str_compare (rk_instance a) (rk_instance b) with Lt => true | _ => false end
  | Lt => true
  | Gt => false
  end.
Definition rgw_obj_key_leb (a b : rgw_obj_key) : bool := negb (rgw_obj_key_ltb b a).
Definition encode_rgw_obj_key (x : rgw_obj_key) : E :=
  ENCODE 1 1 (enc string_c (rk_name x) >>> enc string_c (rk_instance x)).
Definition decode_rgw_obj_key (x0 : rgw_obj_key) : D rgw_obj_key :=
  DECODE 1 (λ struct_v,
    v_name ← dec string_c (rk_name x0);
    v_instance ← dec string_c (rk_instance x0);
    mret (Mk_rgw_obj_key v_name v_instance)).
Definition wf_rgw_obj_key (x : rgw_obj_key) : Prop :=
  wf string_c (rk_name x) ∧ wf string_c (rk_instance x).
Definition rgw_obj_key_c : codec rgw_obj_key :=
  Codec encode_rgw_obj_key decode_rgw_obj_key wf_rgw_obj_key.

(** ** [rgw_bucket] *)

Record rgw_bucket := Mk_rgw_bucket {
  bk_name : str;
  bk_data_pool : str;
  bk_data_extra_pool : str;
  bk_index_pool : str;
  bk_marker : str;
  bk_bucket_id : str;
  bk_oid : str
}.
Definition rgw_bucket_new : rgw_bucket := Mk_rgw_bucket [] [] [] [] [] [] [].
Definition bucket_set_name (n : str) (b : rgw_bucket) : rgw_bucket :=
  Mk_rgw_bucket n (bk_data_pool b) (bk_data_extra_pool b) (bk_index_pool b) (bk_marker b)
    (bk_bucket_id b) (bk_oid b).

(** The constructor from a C string, for names that start with a period. *)
Definition rgw_bucket_private (n : str) : rgw_bucket := Mk_rgw_bucket n n [] n [] [] [].

(** [get_data_extra_pool()] *)
Definition get_data_extra_pool (b : rgw_bucket) : str :=
  if bool_decide (bk_data_extra_pool b = []) then bk_data_pool b else bk_data_extra_pool b.
Definition rgw_bucket_ltb (a b : rgw_bucket) : bool :=
  match str_compare (bk_name a) (bk_name b) with Lt => true | _ => false end.

(** [%llu]: 20 digits are enough for 64 bits. *)
Fixpoint dec_digits (fuel : nat) (z : Z) (acc : str) : str :=
  match fuel with
  | O => acc
  | S fuel' =>
      let acc := chr (48 + z mod 10) :: acc in
      if z / 10 =? 0 then acc else dec_digits fuel' (z / 10) acc
  end.
Definition print_llu (z : Z) : str := dec_digits 20 z [].

Definition encode_rgw_bucket (x : rgw_bucket) : E :=
  ENCODE 7 3
    (enc string_c (bk_name x) >>>
     enc string_c (bk_data_pool x) >>>
     enc string_c (bk_marker x) >>>
     enc string_c (bk_bucket_id x) >>>
     enc string_c (bk_index_pool x) >>>
     enc string_c (bk_data_extra_pool x)).
Definition decode_rgw_bucket (x0 : rgw_bucket) : D rgw_bucket :=
  DECODE_LEGACY 7 3 3 (λ struct_v,
    v_name ← dec string_c (bk_name x0);
    v_data_pool ← dec string_c (bk_data_pool x0);
    v_marker ← (if struct_v >=? 2 then dec string_c (bk_marker x0) else mret (bk_marker x0));
    v_bucket_id ← (if struct_v >=? 2 then
                     if struct_v <=? 3 then
                       (* char buf[16]; snprintf(buf, sizeof(buf), "%llu", id) *)
                       id ← dec u64_c 0;
                       mret (take 15 (print_llu id))
                     else dec string_c (bk_bucket_id x0)
                   else mret (bk_bucket_id x0));
    v_index_pool ← (if struct_v >=? 5 then dec string_c (bk_index_pool x0) else mret v_data_pool);
    v_data_extra_pool ← (if struct_v >=? 7 then dec string_c (bk_data_extra_pool x0)
                         else mret (bk_data_extra_pool x0));
    mret (Mk_rgw_bucket v_name v_data_pool v_data_extra_pool v_index_pool v_marker v_bucket_id
            (bk_oid x0))).
Definition wf_rgw_bucket (x : rgw_bucket) : Prop :=
  wf string_c (bk_name x) ∧
  wf string_c (bk_data_pool x) ∧
  wf string_c (bk_marker x) ∧
  wf string_c (bk_bucket_id x) ∧
  wf string_c (bk_index_pool x) ∧
  wf string_c (bk_data_extra_pool x).
Definition rgw_bucket_c : codec rgw_bucket := Codec encode_rgw_bucket decode_rgw_bucket wf_rgw_bucket.

(** ** [rgw_obj] *)

Record rgw_obj := Mk_rgw_obj {
  ro_orig_obj : str;
  ro_loc : str;
  ro_object : str;
  ro_instance : str;
  ro_bucket : rgw_bucket;
  ro_ns : str;
  ro_in_extra_data : bool;
  ro_index_hash_source : str
}.
Definition rgw_obj_new : rgw_obj := Mk_rgw_obj [] [] [] [] rgw_bucket_new [] false [].

Definition ro_set_orig (v : str) (x : rgw_obj) := Mk_rgw_obj v (ro_loc x) (ro_object x)
  (ro_instance x) (ro_bucket x) (ro_ns x) (ro_in_extra_data x) (ro_index_hash_source x).
Definition set_loc (v : str) (x : rgw_obj) := Mk_rgw_obj (ro_orig_obj x) v (ro_object x)
  (ro_instance x) (ro_bucket x) (ro_ns x) (ro_in_extra_data x) (ro_index_hash_source x).
Definition ro_set_object (v : str) (x : rgw_obj) := Mk_rgw_obj (ro_orig_obj x) (ro_loc x) v
  (ro_instance x) (ro_bucket x) (ro_ns x) (ro_in_extra_data x) (ro_index_hash_source x).
Definition ro_set_instance (v : str) (x : rgw_obj) := Mk_rgw_obj (ro_orig_obj x) (ro_loc x)
  (ro_object x) v (ro_bucket x) (ro_ns x) (ro_in_extra_data x) (ro_index_hash_source x).
Definition ro_set_bucket (v : rgw_bucket) (x : rgw_obj) := Mk_rgw_obj (ro_orig_obj x) (ro_loc x)
  (ro_object x) (ro_instance x) v (ro_ns x) (ro_in_extra_data x) (ro_index_hash_source x).
Definition ro_set_ns (v : str) (x : rgw_obj) := Mk_rgw_obj (ro_orig_obj x) (ro_loc x)
  (ro_object x) (ro_instance x) (ro_bucket x) v (ro_in_extra_data x) (ro_index_hash_source x).
Definition set_in_extra_data (v : bool) (x : rgw_obj) := Mk_rgw_obj (ro_orig_obj x) (ro_loc x)
  (ro_object x) (ro_instance x) (ro_bucket x) (ro_ns x) v (ro_index_hash_source x).

Definition have_null_instance (x : rgw_obj) : bool := streq (ro_instance x) "null".
Definition have_instance (x : rgw_obj) : bool := negb (bool_decide (ro_instance x = [])).
Definition need_to_encode_instance (x : rgw_obj) : bool := have_instance x && negb (have_null_instance x).

Definition reset_loc (x : rgw_obj) : rgw_obj :=
  let x := set_loc [] x in
  if starts_ (ro_orig_obj x) && bool_decide (ro_ns x = []) then set_loc (ro_orig_obj x) x else x.

(** The two early returns leave the locator, and the first one the mangled
    name, as they were. *)
Definition set_obj (o : str) (x : rgw_obj) : rgw_obj :=
  let x := ro_set_orig o x in
  if bool_decide (ro_ns x = []) && negb (need_to_encode_instance x) then
    if bool_decide (o = []) then x
    else if negb (starts_ o) then ro_set_object o x
    else reset_loc (ro_set_object ("_" ++ o) x)
  else
    let object := "_" ++ ro_ns x in
    let object := if need_to_encode_instance x then object ++ ":" ++ ro_instance x else object in
    reset_loc (ro_set_object (object ++ "_" ++ o) x).

Definition set_ns (n : str) (x : rgw_obj) : Z * rgw_obj :=
  if starts_ n then (- EINVAL, x)
  else let x := ro_set_ns n x in (0, set_obj (ro_orig_obj x) x).

(** The overload of [set_ns] for C strings. *)
Definition set_ns_cstr (n : option str) (x : rgw_obj) : Z * rgw_obj :=
  match n with None => (- EINVAL, x) | Some n => set_ns (cstr n) x end.

Definition set_instance (i : str) (x : rgw_obj) : Z * rgw_obj :=
  if starts_ i then (- EINVAL, x)
  else let x := ro_set_instance i x in (0, set_obj (ro_orig_obj x) x).
Definition clear_instance (x : rgw_obj) : Z * rgw_obj := set_instance [] x.

(** The results of [set_ns] and [set_instance] are ignored here. *)
Definition init (b : rgw_bucket) (o : str) (x : rgw_obj) : rgw_obj :=
  reset_loc (set_obj o (ro_set_bucket b x)).
Definition init_ns (b : rgw_bucket) (o n : str) (x : rgw_obj) : rgw_obj :=
  reset_loc (set_obj o (snd (set_ns n (ro_set_bucket b x)))).

(** [snprintf(buf, ns.size() + 16, "_%s_", ns.c_str())] *)
Definition get_index_key_name (x : rgw_obj) : str :=
  if bool_decide (ro_ns x = []) then
    if negb (starts_ (ro_orig_obj x)) then ro_orig_obj x else "_" ++ ro_orig_obj x
  else "_" ++ cstr (ro_ns x) ++ "_" ++ ro_orig_obj x.

Definition from_index_key (b : rgw_bucket) (key : rgw_obj_key) (x : rgw_obj) : rgw_obj :=
  let name := rk_name key in
  if negb (starts_ name) then snd (set_instance (rk_instance key) (init b name x))
  else if bool_decide (char_at 1 name = UNDERSCORE) then
    snd (set_instance (rk_instance key) (init b (substr_from 1 name) x))
  else match find_from (char_is UNDERSCORE) 1 name with
       | None => snd (set_instance (rk_instance key) (init b name x))
       | Some pos =>
           snd (set_instance (rk_instance key)
                  (init_ns b (substr_from (pos + 1) name) (substr 1 (pos - 1) name) x))
       end.

(** [rgw_obj(b, k)] *)
Definition rgw_obj_of_key (b : rgw_bucket) (key : rgw_obj_key) : rgw_obj := from_index_key b key rgw_obj_new.

Definition get_index_key (x : rgw_obj) : rgw_obj_key := Mk_rgw_obj_key (get_index_key_name x) (ro_instance x).

(** The new namespace and instance. *)
Definition parse_ns_field (ns : str) : str * str :=
  match find_if (char_is COLON) ns with
  | Some pos => (substr 0 pos ns, substr_from (pos + 1) ns)
  | None => (ns, [])
  end.

Definition get_hash_object (x : rgw_obj) : str :=
  if bool_decide (ro_index_hash_source x = []) then ro_orig_obj x else ro_index_hash_source x.

(** The result and the three strings written: name, instance and namespace. *)
Definition parse_raw_oid (oid obj_name : str) : bool * (str * str * str) :=
  if negb (starts_ oid) then (true, (oid, [], []))
  else if (2 <=? length oid)%nat && bool_decide (char_at 1 oid = UNDERSCORE)
  then (true, (substr_from 1 oid, [], []))
  else if (length oid <? 3)%nat then (false, (obj_name, [], []))
  else match find_from (char_is UNDERSCORE) 1 oid with
       | None => (false, (obj_name, [], []))
       | Some pos =>
           if (pos <=? 1)%nat then (false, (obj_name, [], []))
           else
             let '(ns, instance) := parse_ns_field (substr 1 (pos - 1) oid) in
             (true, (substr_from (pos + 1) oid, instance, ns))
       end.

(** The result, the object's name and its instance. *)
Definition translate_raw_obj_to_obj_in_ns (obj instance ns : str) : bool * (str * str) :=
  if negb (starts_ obj) then (bool_decide (ns = []), (obj, instance))
  else
    let '(ret, (obj, instance, obj_ns)) := parse_raw_oid obj obj in
    (if ret then streq ns obj_ns else ret, (obj, instance)).

(** The result, the object's name, its namespace and its instance. *)
Definition strip_namespace_from_object (obj : str) : bool * (str * str * str) :=
  if negb (starts_ obj) then (true, (obj, [], []))
  else match find_from (char_is UNDERSCORE) 1 obj with
       | None => (false, (obj, [], []))
       | Some pos =>
           if bool_decide (char_at 1 obj = UNDERSCORE) then (true, (substr_from 1 obj, [], []))
           else
             let period := find_if (char_is "."%char) obj in
             if match period with Some p => (p <? pos)%nat | None => false end
             then (false, (obj, [], []))
             else
               let '(ns, instance) := parse_ns_field (substr 1 (pos - 1) obj) in
               (true, (substr_from (pos + 1) obj, ns, instance))
       end.

Definition rgw_obj_eqb (a b : rgw_obj) : bool :=
  streq (ro_object a) (ro_object b) && streq (bk_name (ro_bucket a)) (bk_name (ro_bucket b)) &&
  streq (ro_ns a) (ro_ns b) && streq (ro_instance a) (ro_instance b).
Definition rgw_obj_ltb (a b : rgw_obj) : bool :=
  let r := str_compare (bk_name (ro_bucket a)) (bk_name (ro_bucket b)) in
  let r := match r with Eq => str_compare (ro_object a) (ro_object b) | r => r end in
  let r := match r with Eq => str_compare (ro_ns a) (ro_ns b) | r => r end in
  let r := match r with Eq => str_compare (ro_instance a) (ro_instance b) | r => r end in
  match r with Lt => true | _ => false end.

Definition encode_rgw_obj (x : rgw_obj) : E :=
  ENCODE 5 3
    (enc string_c (bk_name (ro_bucket x)) >>>
     enc string_c (ro_loc x) >>>
     enc string_c (ro_ns x) >>>
     enc string_c (ro_object x) >>>
     enc rgw_bucket_c (ro_bucket x) >>>
     enc string_c (ro_instance x) >>>
     (if negb (bool_decide (ro_ns x = [])) || negb (bool_decide (ro_instance x = []))
      then enc string_c (ro_orig_obj x) else λ bl, bl)).
Definition decode_rgw_obj (x0 : rgw_obj) : D rgw_obj :=
  DECODE_LEGACY 5 3 3 (λ struct_v,
    v_bucket_name ← dec string_c (bk_name (ro_bucket x0));
    v_loc ← dec string_c (ro_loc x0);
    v_ns ← dec string_c (ro_ns x0);
    v_object ← dec string_c (ro_object x0);
    v_bucket ← (if struct_v >=? 2 then dec rgw_bucket_c (bucket_set_name v_bucket_name (ro_bucket x0))
                else mret (bucket_set_name v_bucket_name (ro_bucket x0)));
    v_instance ← (if struct_v >=? 4 then dec string_c (ro_instance x0) else mret (ro_instance x0));
    v_orig_obj ← (if bool_decide (v_ns = []) && bool_decide (v_instance = []) then
                    mret (if negb (starts_ v_object) then v_object else substr_from 1 v_object)
                  else if struct_v >=? 5 then dec string_c (ro_orig_obj x0)
                  else match find_from (char_is UNDERSCORE) 1 v_object with
                       | None => throw generic_error
                       | Some pos => mret (substr_from pos v_object)
                       end);
    mret (Mk_rgw_obj v_orig_obj v_loc v_object v_instance v_bucket v_ns
            (ro_in_extra_data x0) (ro_index_hash_source x0))).

(** ** Lemmas *)

(** An object of a bucket with a name, a namespace and an instance, the way the
    gateway makes one. *)
Definition named_obj (b : rgw_bucket) (o n i : str) : rgw_obj :=
  snd (set_instance i (init_ns b o n rgw_obj_new)).

Definition encoded_instance (i : str) : bool := negb (bool_decide (i = [])) && negb (streq i "null").

(** The stored name. *)
Definition mangle (o n i : str) : str :=
  if bool_decide (n = []) && negb (encoded_instance i) then if starts_ o then "_" ++ o else o
  else "_" ++ n ++ (if encoded_instance i then ":" ++ i else []) ++ "_" ++ o.

Definition locator (o n : str) : str := if starts_ o && bool_decide (n = []) then o else [].

Lemma starts_nil : starts_ [] = false.
Proof. reflexivity. Qed.

Lemma starts_cons c s : starts_ (c :: s) = bool_decide (c = UNDERSCORE).
Proof. reflexivity. Qed.

Lemma starts_notin s : (UNDERSCORE ∉ s) → starts_ s = false.
Proof.
  destruct s as [|c s]; [done|]. rewrite starts_cons. intros Hn. apply bool_decide_eq_false.
  intros ->. apply Hn. left.
Qed.

Lemma starts_true s : starts_ s = true → ∃ t, s = "_" ++ t.
Proof.
  destruct s as [|c s]; [done|]. rewrite starts_cons. intros ->%bool_decide_eq_true. by exists s.
Qed.

(** [set_obj] computes the stored name, except that the empty name leaves the
    old one. *)
Lemma set_obj_eq o x :
  set_obj o x =
    Mk_rgw_obj o
      (if negb (starts_ o) && bool_decide (ro_ns x = []) && negb (encoded_instance (ro_instance x))
       then ro_loc x else locator o (ro_ns x))
      (if bool_decide (o = []) && bool_decide (ro_ns x = []) && negb (encoded_instance (ro_instance x))
       then ro_object x else mangle o (ro_ns x) (ro_instance x))
      (ro_instance x) (ro_bucket x) (ro_ns x) (ro_in_extra_data x) (ro_index_hash_source x).
Proof.
  unfold set_obj, mangle, locator, reset_loc. change (need_to_encode_instance (ro_set_orig o x)) with
    (encoded_instance (ro_instance x)).
  cbn [ro_ns ro_set_orig]. destruct (bool_decide (ro_ns x = [])) eqn:En, (encoded_instance _) eqn:Ei;
    rewrite ?andb_false_r, ?andb_true_r; cbn [negb andb].
  - cbn [ro_set_object ro_set_orig set_loc ro_orig_obj ro_ns ro_object ro_loc
      ro_instance ro_bucket ro_in_extra_data ro_index_hash_source]. rewrite En, andb_true_r.
    destruct (starts_ o); f_equal; by rewrite <- !app_assoc.
  - destruct (decide (o = [])) as [->|Eo]; [done|]. rewrite (bool_decide_eq_false_2 _ Eo). cbn [andb].
    destruct (starts_ o) eqn:Es; cbn [negb]; [|done].
    cbn [ro_set_object ro_set_orig set_loc ro_orig_obj ro_ns]. by rewrite Es, En.
  - cbn [ro_set_object ro_set_orig set_loc ro_orig_obj ro_ns ro_object ro_loc
      ro_instance ro_bucket ro_in_extra_data ro_index_hash_source]. rewrite En, andb_false_r.
    f_equal; by rewrite <- ?app_assoc.
  - cbn [ro_set_object ro_set_orig set_loc ro_orig_obj ro_ns ro_object ro_loc
      ro_instance ro_bucket ro_in_extra_data ro_index_hash_source]. rewrite En, andb_false_r.
    f_equal; by rewrite <- ?app_assoc.
Qed.

Lemma named_obj_eq b o n i :
  starts_ n = false → starts_ i = false →
  named_obj b o n i = Mk_rgw_obj o (locator o n) (mangle o n i) i b n false [].
Proof.
  intros Hn Hi. unfold named_obj, set_instance, init_ns, set_ns. rewrite Hn, Hi. cbn [snd].
  rewrite set_obj_eq. unfold reset_loc.
  rewrite set_obj_eq, set_obj_eq. cbn.
  assert (Hl : ∀ l, (if starts_ o && bool_decide (n = []) then set_loc o l else l) =
                    set_loc (if starts_ o && bool_decide (n = []) then o else ro_loc l) l)
    by (intros [? ? ? ? ? ? ? ?]; by destruct (_ && _)).
  rewrite Hl. cbn. f_equal.
  - unfold locator. destruct (starts_ o) eqn:Es, (bool_decide (n = [])) eqn:En; cbn; try done.
    by destruct (encoded_instance i).
  - destruct (bool_decide (n = [])) eqn:En; rewrite ?andb_false_r; cbn; [|done].
    apply bool_decide_eq_true in En as ->.
    destruct (bool_decide (o = [])) eqn:Eo; cbn; [|done].
    apply bool_decide_eq_true in Eo as ->. unfold mangle. by destruct (encoded_instance i).
Qed.

Lemma char_is_notin c s : (c ∉ s) → Forall (λ d, char_is c d = false) s.
Proof.
  intros Hn. apply Forall_forall. intros d Hd. apply bool_decide_eq_false. by intros ->.
Qed.

Lemma char_is_refl c : char_is c c = true.
Proof. by apply bool_decide_eq_true. Qed.

(** The separator of a mangled name. *)
Lemma find_separator f o :
  (UNDERSCORE ∉ f) → find_from (char_is UNDERSCORE) 1 ("_" ++ f ++ "_" ++ o) = Some (S (length f)).
Proof.
  intros Hf. unfold find_from. cbn [app drop]. rewrite drop_0.
  rewrite find_if_app by (apply char_is_notin || apply char_is_refl; done). reflexivity.
Qed.

Lemma substr_field f o : substr 1 (S (length f) - 1) ("_" ++ f ++ "_" ++ o) = f.
Proof. unfold substr. cbn [app drop]. rewrite drop_0. replace (S (length f) - 1)%nat with (length f) by lia. apply take_app_length. Qed.

Lemma substr_rest f o : substr_from (S (length f) + 1) ("_" ++ f ++ "_" ++ o) = o.
Proof.
  unfold substr_from. replace (S (length f) + 1)%nat with (S (length f + 1)) by lia.
  cbn [app drop]. rewrite <- drop_drop, drop_app_length. reflexivity.
Qed.

Lemma char_at_1 f o : (UNDERSCORE ∉ f) → f ≠ [] → char_at 1 ("_" ++ f ++ "_" ++ o) ≠ UNDERSCORE.
Proof. destruct f as [|c f]; [done|]. intros Hf _. cbn. intros ->. apply Hf. left. Qed.

Lemma parse_ns_field_eq n i :
  (COLON ∉ n) → parse_ns_field (n ++ (if encoded_instance i then ":" ++ i else [])) =
    (n, if encoded_instance i then i else []).
Proof.
  intros Hn. unfold parse_ns_field. destruct (encoded_instance i).
  - change (":" ++ i) with (COLON :: i).
    rewrite find_if_app by (apply char_is_notin || apply char_is_refl; done).
    unfold substr, substr_from. rewrite drop_0, take_app_length.
    by rewrite <- drop_drop, drop_app_length.
  - rewrite app_nil_r. by rewrite (find_if_all_false _ _ (char_is_notin _ _ Hn)).
Qed.

(** The field between the two underscores. *)
Definition ns_field (n i : str) : str := n ++ (if encoded_instance i then ":" ++ i else []).

Lemma ns_field_notin n i : (UNDERSCORE ∉ n) → (UNDERSCORE ∉ i) → (UNDERSCORE ∉ ns_field n i).
Proof.
  intros Hn Hi. unfold ns_field. destruct (encoded_instance i); [|by rewrite app_nil_r].
  rewrite elem_of_app. intros [?|[?|?]%elem_of_cons]; done.
Qed.

Lemma mangle_field o n i :
  (n ≠ [] ∨ encoded_instance i = true) → mangle o n i = "_" ++ ns_field n i ++ "_" ++ o ∧ ns_field n i ≠ [].
Proof.
  intros Hc. unfold mangle, ns_field. split.
  - destruct Hc as [Hc| ->]; [rewrite (bool_decide_eq_false_2 _ Hc)|cbn [negb]; rewrite andb_false_r];
      cbn [andb]; by rewrite <- !app_assoc.
  - destruct Hc as [Hc| ->]; [by destruct n|]. by destruct n.
Qed.

Lemma parse_raw_oid_mangle o n i nm :
  (UNDERSCORE ∉ n) → (COLON ∉ n) → (UNDERSCORE ∉ i) →
  parse_raw_oid (mangle o n i) nm = (true, (o, if encoded_instance i then i else [], n)).
Proof.
  intros Hn Hc Hi. destruct (decide (n ≠ [] ∨ encoded_instance i = true)) as [Hf|Hf].
  - destruct (mangle_field o n i Hf) as [-> Hne]. pose proof (ns_field_notin n i Hn Hi) as Hu.
    unfold parse_raw_oid. rewrite find_separator, substr_field, substr_rest by done.
    rewrite bool_decide_eq_false_2 by (by apply char_at_1). rewrite andb_false_r.
    change (parse_ns_field (ns_field n i)) with (parse_ns_field (n ++ (if encoded_instance i then ":" ++ i else []))).
    rewrite parse_ns_field_eq by done.
    assert (Hlen : (1 <= length (ns_field n i))%nat) by (destruct (ns_field n i); cbn; [done|lia]).
    rewrite (proj2 (Nat.ltb_ge _ _)) by (rewrite !length_app; cbn; lia).
    rewrite (proj2 (Nat.leb_gt _ _)) by lia. done.
  - assert (n = []) as -> by (destruct n; [done|]; exfalso; apply Hf; by left).
    assert (Hei : encoded_instance i = false) by (destruct (encoded_instance i); [exfalso; apply Hf; by right|done]).
    unfold mangle. rewrite Hei, bool_decide_eq_true_2 by done. cbn [andb negb].
    destruct (starts_ o) eqn:Es; [|unfold parse_raw_oid; by rewrite Es].
    apply starts_true in Es as [t ->]. reflexivity.
Qed.

(** The index key of an object leads back to it. *)
Lemma index_key_obj b o n i :
  (UNDERSCORE ∉ n) → cstr n = n → starts_ i = false →
  rgw_obj_of_key b (get_index_key (named_obj b o n i)) = named_obj b o n i.
Proof.
  intros Hn Hz Hi. rewrite (named_obj_eq b o n i (starts_notin n Hn) Hi) at 1.
  assert (Hinit : snd (set_instance i (init b o rgw_obj_new)) = named_obj b o [] i)
    by (unfold named_obj; done).
  unfold rgw_obj_of_key, from_index_key, get_index_key, get_index_key_name.
  cbn [rk_name rk_instance ro_ns ro_orig_obj ro_instance].
  destruct (decide (n = [])) as [->|Hne].
  - rewrite bool_decide_eq_true_2 by done. destruct (starts_ o) eqn:Es; cbn [negb].
    + pose proof (starts_true o Es) as [t ->]. exact Hinit.
    + rewrite Es. exact Hinit.
  - rewrite bool_decide_eq_false_2, Hz by done.
    rewrite find_separator, substr_field, substr_rest by done.
    rewrite bool_decide_eq_false_2 by (by apply char_at_1). done.
Qed.

Lemma strip_mangle o n i :
  (UNDERSCORE ∉ n) → (COLON ∉ n) → (UNDERSCORE ∉ i) → ("."%char ∉ n ++ i) →
  strip_namespace_from_object (mangle o n i) = (true, (o, n, if encoded_instance i then i else [])).
Proof.
  intros Hn Hc Hi Hdot. destruct (decide (n ≠ [] ∨ encoded_instance i = true)) as [Hf|Hf].
  - destruct (mangle_field o n i Hf) as [-> Hne]. pose proof (ns_field_notin n i Hn Hi) as Hu.
    unfold strip_namespace_from_object. rewrite find_separator, substr_field, substr_rest by done.
    rewrite bool_decide_eq_false_2 by (by apply char_at_1).
    change (parse_ns_field (ns_field n i)) with (parse_ns_field (n ++ (if encoded_instance i then ":" ++ i else []))).
    rewrite parse_ns_field_eq by done. cbn [negb starts_ app].
    assert (Hd : Forall (λ d, char_is "."%char d = false) ("_" ++ ns_field n i ++ "_")).
    { apply char_is_notin. unfold ns_field. rewrite elem_of_app in Hdot.
      rewrite !elem_of_app. destruct (encoded_instance i); rewrite ?elem_of_app;
        intros [Hx|[[Hx|Hx]|Hx]]; repeat first [tauto | apply elem_of_cons in Hx as [?|Hx]; [done|]
          | by apply not_elem_of_nil in Hx | destruct Hx as [Hx|Hx]]. }
    destruct (find_if _ _) as [p|] eqn:Ep; [|done].
    apply find_if_Some in Ep as (pre & c & post & Hs & <- & Hcc & _).
    destruct (Nat.ltb_spec (length pre) (S (length (ns_field n i)))) as [Hlt|]; [|done]. exfalso.
    assert (Hin : c ∈ "_" ++ ns_field n i ++ "_").
    { apply list_elem_of_lookup. exists (length pre).
      rewrite <- (lookup_app_l _ o) by (rewrite !length_app; cbn; lia). rewrite <- !app_assoc.
      change ("_" ++ ns_field n i ++ "_" ++ o) with ("_"%char :: ns_field n i ++ "_"%char :: o).
      rewrite Hs. by apply list_lookup_middle. }
    apply (proj1 (Forall_forall _ _) Hd) in Hin. congruence.
  - assert (n = []) as -> by (destruct n; [done|]; exfalso; apply Hf; by left).
    assert (Hei : encoded_instance i = false) by (destruct (encoded_instance i); [exfalso; apply Hf; by right|done]).
    unfold mangle. rewrite Hei, bool_decide_eq_true_2 by done. cbn [andb negb].
    destruct (starts_ o) eqn:Es; [|unfold strip_namespace_from_object; by rewrite Es].
    apply starts_true in Es as [t ->]. reflexivity.
Qed.

(** ** Codecs *)

#[export] Instance rgw_obj_key_ok : CodecOk rgw_obj_key_c.
Proof. codec_solve encode_rgw_obj_key decode_rgw_obj_key wf_rgw_obj_key. Qed.

(** What a decoder makes of an encoded bucket: the in-memory [oid] stays. *)
Definition bucket_into (x x0 : rgw_bucket) : rgw_bucket :=
  Mk_rgw_bucket (bk_name x) (bk_data_pool x) (bk_data_extra_pool x) (bk_index_pool x)
    (bk_marker x) (bk_bucket_id x) (bk_oid x0).

#[export] Instance rgw_bucket_ok : CodecInto rgw_bucket_c bucket_into.
Proof. into_solve encode_rgw_bucket decode_rgw_bucket wf_rgw_bucket bucket_into. Qed.

Definition wf_rgw_obj (x : rgw_obj) : Prop :=
  wf string_c (ro_orig_obj x) ∧ wf string_c (ro_loc x) ∧ wf string_c (ro_ns x) ∧
  wf string_c (ro_object x) ∧ wf rgw_bucket_c (ro_bucket x) ∧ wf string_c (ro_instance x).

(** The mangled name of an object in the default namespace gives its name. *)
Definition obj_consistent (x : rgw_obj) : Prop :=
  ro_ns x = [] → ro_instance x = [] → ro_object x = mangle (ro_orig_obj x) [] [].

Definition obj_into (x x0 : rgw_obj) : rgw_obj :=
  Mk_rgw_obj (ro_orig_obj x) (ro_loc x) (ro_object x) (ro_instance x)
    (bucket_into (ro_bucket x) (ro_bucket x0)) (ro_ns x) (ro_in_extra_data x0) (ro_index_hash_source x0).

Lemma demangle o : (if negb (starts_ (mangle o [] [])) then mangle o [] [] else substr_from 1 (mangle o [] [])) = o.
Proof.
  unfold mangle. cbn [andb]. rewrite bool_decide_eq_true_2 by done. cbn.
  destruct (starts_ o) eqn:E; cbn; [apply drop_0|]. by rewrite E.
Qed.

(** [appends] for the encoder of an object. *)
Lemma last_field_appends (b : bool) o : appends (if b then enc string_c o else λ bl, bl).
Proof. destruct b; [apply enc_appends|intros bl; by rewrite app_nil_r]. Qed.

Ltac obj_appends :=
  repeat first [apply last_field_appends | apply into_appends | apply enc_appends
               | apply eseq_appends | apply ENCODE_appends].

Lemma encode_rgw_obj_appends x : appends (encode_rgw_obj x).
Proof. unfold encode_rgw_obj. obj_appends. Qed.

(** The fields up to the instance, as every version from 4 on writes them. *)
Definition obj_fields (x : rgw_obj) : bytes :=
  enc string_c (bk_name (ro_bucket x)) [] ++ enc string_c (ro_loc x) [] ++ enc string_c (ro_ns x) [] ++
  enc string_c (ro_object x) [] ++ enc rgw_bucket_c (ro_bucket x) [] ++ enc string_c (ro_instance x) [].

Lemma encode_rgw_obj_block x :
  encode_rgw_obj x [] =
    block 5 3 (obj_fields x ++
      (if bool_decide (ro_ns x = []) && bool_decide (ro_instance x = []) then []
       else enc string_c (ro_orig_obj x) [])).
Proof.
  unfold encode_rgw_obj. rewrite ENCODE_block by obj_appends. f_equal.
  rewrite !eseq_nil by obj_appends. unfold obj_fields. rewrite <- negb_andb, <- !app_assoc.
  by destruct (_ && _).
Qed.

Lemma decode_obj_fields {A} (x x0 : rgw_obj) (k : str → str → str → str → rgw_bucket → str → D A) bs y :
  wf_rgw_obj x →
  reads (k (bk_name (ro_bucket x)) (ro_loc x) (ro_ns x) (ro_object x)
           (bucket_into (ro_bucket x) (ro_bucket x0)) (ro_instance x)) bs y →
  reads (v_bucket_name ← dec string_c (bk_name (ro_bucket x0));
         v_loc ← dec string_c (ro_loc x0);
         v_ns ← dec string_c (ro_ns x0);
         v_object ← dec string_c (ro_object x0);
         v_bucket ← dec rgw_bucket_c (bucket_set_name v_bucket_name (ro_bucket x0));
         v_instance ← dec string_c (ro_instance x0);
         k v_bucket_name v_loc v_ns v_object v_bucket v_instance) (obj_fields x ++ bs) y.
Proof.
  intros (Ho & Hl & Hn & Hob & Hb & Hi) Hk. unfold obj_fields. rewrite <- !app_assoc.
  do 4 (eapply reads_bind; [apply dec_reads; first [done|apply Hb]|]).
  eapply reads_bind; [by apply into_reads|].
  eapply reads_bind; [by apply dec_reads|]. exact Hk.
Qed.

Lemma rgw_obj_reads x x0 :
  wf_rgw_obj x → obj_consistent x → reads (decode_rgw_obj x0) (encode_rgw_obj x []) (obj_into x x0).
Proof.
  intros Hwf Hc. rewrite encode_rgw_obj_block. unfold decode_rgw_obj.
  rewrite <- (app_nil_r (_ ++ _)). apply reads_DECODE_LEGACY_newer; [lia|lia|lia|lia|lia|].
  version_cbn. cbv beta iota. apply decode_obj_fields; [done|].
  destruct (bool_decide (ro_ns x = [])) eqn:En, (bool_decide (ro_instance x = [])) eqn:Ei; cbn [andb].
  1:{ apply reads_ret_bind. apply bool_decide_eq_true in En, Ei.
      rewrite (Hc En Ei), demangle. eapply reads_eq; [|apply reads_ret]. unfold obj_into.
      by rewrite (Hc En Ei). }
  all: rewrite <- (app_nil_r (enc _ _ _)); eapply reads_bind; [apply dec_reads, Hwf|];
    apply reads_ret.
Qed.

Lemma named_obj_consistent b o n i :
  starts_ n = false → starts_ i = false → obj_consistent (named_obj b o n i).
Proof. intros Hn Hi. rewrite named_obj_eq by done. intros E1 E2. cbn in *. by subst. Qed.

(** ** Theorems *)

(** Namespaces and instances that cannot be confused with the separators. *)
Definition plain_ns (n i : str) : Prop := (UNDERSCORE ∉ n) ∧ (COLON ∉ n) ∧ (UNDERSCORE ∉ i).

(** C37: the stored name of an object determines it, for namespaces without [_]
    and [:] and instances without [_] (in others the separators of the stored
    name can be mistaken, see [namespace_collision]): the parsers recover the
    name, whatever its characters, the namespace and the instance, where an
    instance called null is stored as none; the test for a namespace is exact;
    the older parser does so when neither holds a dot; and two such objects of a
    bucket with the same stored name are the same object. *)
Theorem object_name_roundtrip b o n i nm inst ns' o' n' i' :
  plain_ns n i → plain_ns n' i' →
  let oid := ro_object (named_obj b o n i) in
  let eff i := if encoded_instance i then i else [] in
  parse_raw_oid oid nm = (true, (o, eff i, n)) ∧
  fst (translate_raw_obj_to_obj_in_ns oid inst ns') = streq ns' n ∧
  fst (snd (translate_raw_obj_to_obj_in_ns oid inst ns')) = o ∧
  (("."%char ∉ n ++ i) → strip_namespace_from_object oid = (true, (o, n, eff i))) ∧
  (ro_object (named_obj b o' n' i') = oid → o' = o ∧ n' = n ∧ eff i' = eff i).
Proof.
  intros (Hn & Hc & Hi) (Hn' & Hc' & Hi') oid eff. subst oid.
  rewrite !named_obj_eq by auto using starts_notin. cbn [ro_object].
  pose proof (parse_raw_oid_mangle o n i (mangle o n i) Hn Hc Hi) as Hp.
  split_and!.
  - by apply parse_raw_oid_mangle.
  - unfold translate_raw_obj_to_obj_in_ns. rewrite Hp.
    destruct (starts_ (mangle o n i)) eqn:E; cbn [negb fst]; [done|].
    unfold parse_raw_oid in Hp. rewrite E in Hp. cbn [negb] in Hp. injection Hp as ? ? Hnn. rewrite <- Hnn. by apply bool_decide_ext.
  - unfold translate_raw_obj_to_obj_in_ns. rewrite Hp.
    destruct (starts_ (mangle o n i)) eqn:E; cbn [negb fst snd]; [done|].
    unfold parse_raw_oid in Hp. rewrite E in Hp. cbn [negb] in Hp. by injection Hp.
  - intros Hd. by apply strip_mangle.
  - intros Heq. pose proof (parse_raw_oid_mangle o' n' i' (mangle o n i) Hn' Hc' Hi') as Hp'.
    rewrite Heq, Hp in Hp'. unfold eff. by injection Hp' as -> -> ->.
Qed.

Lemma object_name_roundtrip_witness :
  let oid := ro_object (named_obj rgw_bucket_new "_a_b" "shadow" "v:1") in
  oid = "_shadow:v:1__a_b" ∧
  parse_raw_oid oid [] = (true, ("_a_b", "v:1", "shadow")).
Proof.
  split; [reflexivity|].
  apply (object_name_roundtrip rgw_bucket_new "_a_b" "shadow" "v:1" [] [] [] [] [] []);
    split_and!; apply (bool_decide_unpack _); vm_compute; done.
Defined.

(** An object is found again from its key in the bucket index: mangling
    the key and reading it back gives the very same object, whatever underscores
    its name has, as long as its namespace has none and holds no NUL. *)
Lemma index_key_roundtrip b o n i :
  (UNDERSCORE ∉ n) → (NUL ∉ n) → starts_ i = false →
  rgw_obj_of_key b (get_index_key (named_obj b o n i)) = named_obj b o n i.
Proof.
  intros Hn Hz Hi. apply index_key_obj; [done| |done].
  clear Hn Hi. induction n as [|c n IH]; cbn; [done|]. apply not_elem_of_cons in Hz as [Hc Hn].
  rewrite decide_False by congruence. by rewrite IH.
Qed.

Lemma index_key_roundtrip_witness :
  get_index_key (named_obj rgw_bucket_new "_a_b" "ns" "null") = Mk_rgw_obj_key "_ns__a_b" "null" ∧
  rgw_obj_of_key rgw_bucket_new (get_index_key (named_obj rgw_bucket_new "_a_b" "ns" "null")) =
    named_obj rgw_bucket_new "_a_b" "ns" "null".
Proof.
  split; [reflexivity|].
  apply index_key_roundtrip; [apply (bool_decide_unpack _); vm_compute; done..|reflexivity].
Defined.

(** An object survives its encoding: everything but the members kept in
    memory only is read back, the original name being rebuilt from the stored
    one where it is not written. *)
Lemma rgw_obj_roundtrip b o n i x0 :
  let x := named_obj b o n i in
  starts_ n = false → starts_ i = false → wf_rgw_obj x → zlen (encode_rgw_obj x []) < 2 ^ 32 →
  decode_rgw_obj x0 (It 0 (encode_rgw_obj x [])) = inr (obj_into x x0, It (zlen (encode_rgw_obj x [])) []).
Proof.
  intros x Hn Hi Hwf. apply reads_whole. by apply rgw_obj_reads, named_obj_consistent.
Qed.

Lemma rgw_obj_roundtrip_witness :
  let x := named_obj (rgw_bucket_private ".users") "_joe" "" "" in
  decode_rgw_obj rgw_obj_new (It 0 (encode_rgw_obj x [])) =
    inr (obj_into x rgw_obj_new, It (zlen (encode_rgw_obj x [])) []).
Proof. apply rgw_obj_roundtrip; [done|done|wf_closed|done]. Defined.

(** Version 4 of the encoding does not write the original name, and the
    decoder rebuilds it from the separator on instead of after it: an object in
    a namespace comes back with an underscore before its name. *)
Lemma rgw_obj_v4_underscore b o n i x0 :
  let x := named_obj b o n i in
  plain_ns n i → n ≠ [] ∨ encoded_instance i = true → wf_rgw_obj x → zlen (obj_fields x) < 2 ^ 31 →
  ∃ y, decode_rgw_obj x0 (It 0 (block 4 3 (obj_fields x))) =
         inr (y, It (zlen (block 4 3 (obj_fields x))) []) ∧
       ro_orig_obj y = "_" ++ o ∧ ro_object y = ro_object x ∧ ro_ns y = n ∧ ro_instance y = i.
Proof.
  intros x (Hn & Hc & Hi) Hf Hwf Hlen.
  assert (Hx : x = Mk_rgw_obj o (locator o n) (mangle o n i) i b n false [])
    by (apply named_obj_eq; by apply starts_notin).
  exists (Mk_rgw_obj ("_" ++ o) (ro_loc x) (ro_object x) i (bucket_into b (ro_bucket x0)) n
            (ro_in_extra_data x0) (ro_index_hash_source x0)).
  split; [|done]. apply reads_whole.
  - unfold decode_rgw_obj. rewrite <- (app_nil_r (obj_fields x)). apply reads_DECODE_LEGACY_newer; [lia|lia|lia|lia|lia|].
    version_cbn. cbv beta iota. rewrite <- (app_nil_r (obj_fields x)). apply decode_obj_fields; [done|].
    rewrite Hx. cbn [ro_ns ro_instance ro_object ro_loc ro_bucket].
    assert (bool_decide (n = []) && bool_decide (i = []) = false) as ->.
    { destruct Hf as [Hf|Hf]; [by rewrite (bool_decide_eq_false_2 _ Hf)|].
      unfold encoded_instance in Hf. apply andb_true_iff in Hf as [->%negb_true_iff _]. apply andb_false_r. }
    destruct (mangle_field o n i Hf) as [-> _]. rewrite find_separator by (by apply ns_field_notin).
    apply reads_ret_bind. eapply reads_eq; [|apply reads_ret]. f_equal.
    unfold substr_from. cbn [app drop]. by rewrite drop_app_length.
  - unfold block. rewrite !zlen_app, !zlen_le_bytes. lia.
Qed.

Lemma rgw_obj_v4_underscore_witness :
  let x := named_obj rgw_bucket_new "name" "ns" "" in
  ∃ y, decode_rgw_obj rgw_obj_new (It 0 (block 4 3 (obj_fields x))) =
         inr (y, It (zlen (block 4 3 (obj_fields x))) []) ∧
       ro_orig_obj y = "_name" ∧ ro_object y = ro_object x ∧ ro_ns y = "ns" ∧ ro_instance y = [].
Proof.
  apply (rgw_obj_v4_underscore rgw_bucket_new "name" "ns" "");
    [split_and!; apply (bool_decide_unpack _); vm_compute; done|by left|wf_closed|done].
Defined.

(** Only the first character of a namespace is checked: two different
    objects in accepted namespaces can have the same stored name. *)
Lemma namespace_collision b :
  let x := named_obj b "c" "a_b" "" in let y := named_obj b "b_c" "a" "" in
  fst (set_ns "a_b" rgw_obj_new) = 0 ∧ fst (set_ns "a" rgw_obj_new) = 0 ∧
  ro_object x = ro_object y ∧ rgw_obj_eqb x y = false.
Proof. intros x y. split_and!; try reflexivity. unfold rgw_obj_eqb, streq. subst x y. cbn. by rewrite andb_false_r. Qed.
