(* ===== verification/ObjectCache.v ===== *)
(** * The object cache ([src/src/rgw/rgw_cache.cc], [rgw_cache.h])

    Cached system objects with an LRU list and generation numbers, and the
    chained caches ([RGWChainedCache], [src/src/rgw/porting_rados.h]) that hold
    data derived from cached objects and are invalidated with them.  Every
    public method runs under the cache's lock, so a method is one step; [get]
    has two, since it drops the read lock to promote an entry. *)

From S2P Require Import Prelude StdMap Encoding Utime.

(** ** Cached objects *)

(** [cls/version/cls_version_types.h] *)
Record obj_version := Mk_obj_version { ov_ver : Z; ov_tag : str }.
Definition obj_version_new : obj_version := Mk_obj_version 0 [].
Definition encode_obj_version (x : obj_version) : E :=
  ENCODE 1 1 (enc u64_c (ov_ver x) >>> enc string_c (ov_tag x)).
Definition decode_obj_version (x0 : obj_version) : D obj_version :=
  DECODE 1 (λ struct_v,
    v_ver ← dec u64_c (ov_ver x0);
    v_tag ← dec string_c (ov_tag x0);
    mret (Mk_obj_version v_ver v_tag)).
Definition wf_obj_version (x : obj_version) : Prop := wf u64_c (ov_ver x) ∧ wf string_c (ov_tag x).
Definition obj_version_c : codec obj_version := Codec encode_obj_version decode_obj_version wf_obj_version.
Definition obj_version_inc (v : obj_version) : obj_version := Mk_obj_version (u64 (ov_ver v + 1)) (ov_tag v).
Definition obj_version_empty (v : obj_version) : bool := bool_decide (ov_tag v = []).
Definition obj_version_compare (v w : obj_version) : bool :=
  (ov_ver v =? ov_ver w) && bool_decide (ov_tag v = ov_tag w).

Record obj_version_cond := Mk_obj_version_cond { ovc_ver : obj_version; ovc_cond : Z }.
Definition obj_version_cond_new : obj_version_cond := Mk_obj_version_cond obj_version_new 0.
Definition encode_obj_version_cond (x : obj_version_cond) : E :=
  ENCODE 1 1 (enc obj_version_c (ovc_ver x) >>> enc u32_c (ovc_cond x)).
Definition decode_obj_version_cond (x0 : obj_version_cond) : D obj_version_cond :=
  DECODE 1 (λ struct_v,
    v_ver ← dec obj_version_c (ovc_ver x0);
    v_cond ← dec u32_c 0;
    mret (Mk_obj_version_cond v_ver v_cond)).
Definition wf_obj_version_cond (x : obj_version_cond) : Prop :=
  wf obj_version_c (ovc_ver x) ∧ wf u32_c (ovc_cond x).
Definition obj_version_cond_c : codec obj_version_cond :=
  Codec encode_obj_version_cond decode_obj_version_cond wf_obj_version_cond.

(** The modification time travels as the seconds of a [utime_t]. *)
Record ObjectMetaInfo := Mk_ObjectMetaInfo { om_size : Z; om_mtime : Z }.
Definition ObjectMetaInfo_new : ObjectMetaInfo := Mk_ObjectMetaInfo 0 0.
Definition encode_ObjectMetaInfo (x : ObjectMetaInfo) : E :=
  ENCODE 2 2 (enc u64_c (om_size x) >>> enc utime_c (mk_utime (om_mtime x) 0)).
Definition decode_ObjectMetaInfo (x0 : ObjectMetaInfo) : D ObjectMetaInfo :=
  DECODE_LEGACY 2 2 2 (λ struct_v,
    v_size ← dec u64_c (om_size x0);
    t ← dec utime_c utime_zero;
    mret (Mk_ObjectMetaInfo v_size (tv_sec t))).
Definition wf_ObjectMetaInfo (x : ObjectMetaInfo) : Prop :=
  wf u64_c (om_size x) ∧ 0 <= om_mtime x < 2 ^ 32.
Definition ObjectMetaInfo_c : codec ObjectMetaInfo :=
  Codec encode_ObjectMetaInfo decode_ObjectMetaInfo wf_ObjectMetaInfo.

Definition CACHE_FLAG_DATA : Z := 1.
Definition CACHE_FLAG_XATTRS : Z := 2.
Definition CACHE_FLAG_META : Z := 4.
Definition CACHE_FLAG_MODIFY_XATTRS : Z := 8.
Definition CACHE_FLAG_OBJV : Z := 16.

Record ObjectCacheInfo := Mk_ObjectCacheInfo {
  ci_status : Z;
  ci_flags : Z;
  ci_epoch : Z;
  ci_data : bytes;
  ci_xattrs : list (str * bytes);
  ci_rm_xattrs : list (str * bytes);
  ci_meta : ObjectMetaInfo;
  ci_version : obj_version
}.
Definition ObjectCacheInfo_new : ObjectCacheInfo :=
  Mk_ObjectCacheInfo 0 0 0 [] [] [] ObjectMetaInfo_new obj_version_new.

Abbreviation xattrs_c := (map_c [] [] string_c bufferlist_c).

Definition encode_ObjectCacheInfo (x : ObjectCacheInfo) : E :=
  ENCODE 5 3
    (enc s32_c (ci_status x) >>>
     enc u32_c (ci_flags x) >>>
     enc bufferlist_c (ci_data x) >>>
     enc xattrs_c (ci_xattrs x) >>>
     enc ObjectMetaInfo_c (ci_meta x) >>>
     enc xattrs_c (ci_rm_xattrs x) >>>
     enc u64_c (ci_epoch x) >>>
     enc obj_version_c (ci_version x)).
Definition decode_ObjectCacheInfo (x0 : ObjectCacheInfo) : D ObjectCacheInfo :=
  DECODE_LEGACY 5 3 3 (λ struct_v,
    v_status ← dec s32_c (ci_status x0);
    v_flags ← dec u32_c (ci_flags x0);
    v_data ← dec bufferlist_c (ci_data x0);
    v_xattrs ← dec xattrs_c (ci_xattrs x0);
    v_meta ← dec ObjectMetaInfo_c (ci_meta x0);
    v_rm_xattrs ← (if struct_v >=? 2 then dec xattrs_c (ci_rm_xattrs x0) else mret (ci_rm_xattrs x0));
    v_epoch ← (if struct_v >=? 4 then dec u64_c (ci_epoch x0) else mret (ci_epoch x0));
    v_version ← (if struct_v >=? 5 then dec obj_version_c (ci_version x0) else mret (ci_version x0));
    mret (Mk_ObjectCacheInfo v_status v_flags v_epoch v_data v_xattrs v_rm_xattrs v_meta v_version)).
Definition wf_ObjectCacheInfo (x : ObjectCacheInfo) : Prop :=
  wf s32_c (ci_status x) ∧
  wf u32_c (ci_flags x) ∧
  wf bufferlist_c (ci_data x) ∧
  wf xattrs_c (ci_xattrs x) ∧
  wf ObjectMetaInfo_c (ci_meta x) ∧
  wf xattrs_c (ci_rm_xattrs x) ∧
  wf u64_c (ci_epoch x) ∧
  wf obj_version_c (ci_version x).
Definition ObjectCacheInfo_c : codec ObjectCacheInfo :=
  Codec encode_ObjectCacheInfo decode_ObjectCacheInfo wf_ObjectCacheInfo.

(** ** Chained caches *)

(** The interface the object cache calls. *)
Class ChainedCache (C V : Type) := {
  chain_cb : str → V → C → C;
  invalidate : str → C → C;
  chained_invalidate_all : C → C
}.

(** What an implementation promises, in terms of its look-up. *)
Class ChainedCacheOk (C V : Type) `{ChainedCache C V} (find : str → C → option V) : Prop := {
  find_chain_cb : ∀ k v c, find k (chain_cb k v c) = Some v;
  find_chain_cb_ne : ∀ k l v c, k ≠ l → find l (chain_cb k v c) = find l c;
  find_invalidate : ∀ k c, find k (invalidate k c) = None;
  find_invalidate_ne : ∀ k l c, k ≠ l → find l (invalidate k c) = find l c;
  find_invalidate_all : ∀ k c, find k (chained_invalidate_all c) = None
}.

(** [RGWChainedCacheImpl<T>]: a map. *)
Record RGWChainedCacheImpl (V : Type) := Mk_chained { cc_entries : list (str * V); cc_sorted : msorted cc_entries }.
Arguments Mk_chained {V}. Arguments cc_entries {V}. Arguments cc_sorted {V}.

Definition chained_find {V} (key : str) (c : RGWChainedCacheImpl V) : option V := mfind key (cc_entries c).

#[export] Instance chained_impl V : ChainedCache (RGWChainedCacheImpl V) V := {
  chain_cb key entry c := Mk_chained (mset key entry (cc_entries c)) (mset_sorted _ _ _ (cc_sorted c));
  invalidate key c := Mk_chained (merase key (cc_entries c)) (merase_sorted _ _ (cc_sorted c));
  chained_invalidate_all c := Mk_chained [] I
}.

#[export] Instance chained_impl_ok V : ChainedCacheOk (RGWChainedCacheImpl V) V chained_find.
Proof.
  split; unfold chained_find; cbn; intros.
  - apply mfind_mset_eq.
  - by apply mfind_mset_ne.
  - apply mfind_merase_eq, cc_sorted.
  - by apply mfind_merase_ne.
  - done.
Qed.

(** ** The cache *)

(** An iterator into the LRU list is the identity of a node, [None] the end. *)
Record ObjectCacheEntry := Mk_Entry {
  ce_info : ObjectCacheInfo;
  ce_lru_iter : option Z;
  ce_lru_promotion_ts : Z;
  ce_gen : Z;
  ce_chained_entries : list (nat * str)
}.

Record rgw_cache_entry_info := Mk_entry_info { cei_cache_locator : str; cei_gen : Z }.

Section cache.
Context {C V : Type} `{ChainedCache C V}.

(** [(size_t)G.rgw_cache_lru_size] *)
Variable lru_limit : Z.

(** The chained caches live outside the object cache, which holds pointers
    to them: positions in [oc_heap]. *)
Record ObjectCache := Mk_ObjectCache {
  oc_map : list (str * ObjectCacheEntry);
  oc_lru : list (Z * str);
  oc_lru_next : Z;
  oc_lru_size : Z;
  oc_lru_counter : Z;
  oc_lru_window : Z;
  oc_chained_cache : list nat;
  oc_enabled : bool;
  oc_heap : list C
}.

Definition set_map m s := Mk_ObjectCache m (oc_lru s) (oc_lru_next s) (oc_lru_size s)
  (oc_lru_counter s) (oc_lru_window s) (oc_chained_cache s) (oc_enabled s) (oc_heap s).
Definition set_heap h s := Mk_ObjectCache (oc_map s) (oc_lru s) (oc_lru_next s) (oc_lru_size s)
  (oc_lru_counter s) (oc_lru_window s) (oc_chained_cache s) (oc_enabled s) h.

(** The constructor and [set_ctx]. *)
Definition cache_new (heap : list C) : ObjectCache := Mk_ObjectCache [] [] 0 0 0 0 [] false heap.
Definition set_ctx (s : ObjectCache) : ObjectCache :=
  Mk_ObjectCache (oc_map s) (oc_lru s) (oc_lru_next s) (oc_lru_size s) (oc_lru_counter s)
    (Z.quot lru_limit 2) (oc_chained_cache s) (oc_enabled s) (oc_heap s).

(** The shrinking loop of [touch_lru]: nodes are taken from the front. *)
Fixpoint evict (name : str) (l : list (Z * str)) (size : Z) (m : list (str * ObjectCacheEntry))
    : list (Z * str) * Z * list (str * ObjectCacheEntry) :=
  match l with
  | [] => (l, size, m)
  | (_, n) :: l' =>
      if size >? lru_limit then
        if bool_decide (n = name) then (l, size, m)
        else evict name l' (u64 (size - 1)) (merase n m)
      else (l, size, m)
  end.

(** [touch_lru(name, entry, entry.lru_iter)] on the entry of [name]. *)
Definition touch_lru (name : str) (entry : ObjectCacheEntry) (s : ObjectCache) : ObjectCache :=
  let '(l, size, m) := evict name (oc_lru s) (oc_lru_size s) (oc_map s) in
  let node := oc_lru_next s in
  let '(l, size) :=
    match ce_lru_iter entry with
    | None => (l ++ [(node, name)], u64 (size + 1))
    | Some i => (filter (λ p, fst p ≠ i) l ++ [(node, name)], size)
    end in
  let counter := u64 (oc_lru_counter s + 1) in
  let entry := Mk_Entry (ce_info entry) (Some node) counter (ce_gen entry) (ce_chained_entries entry) in
  Mk_ObjectCache (mset name entry m) l (node + 1) size counter (oc_lru_window s)
    (oc_chained_cache s) (oc_enabled s) (oc_heap s).

(** [remove_lru] *)
Definition remove_lru (lru_iter : option Z) (s : ObjectCache) : ObjectCache :=
  match lru_iter with
  | None => s
  | Some i =>
      Mk_ObjectCache (oc_map s) (filter (λ p, fst p ≠ i) (oc_lru s)) (oc_lru_next s)
        (u64 (oc_lru_size s - 1)) (oc_lru_counter s) (oc_lru_window s)
        (oc_chained_cache s) (oc_enabled s) (oc_heap s)
  end.

(** [chained_cache->invalidate(key)] for each chained entry. *)
Definition invalidate_chained (es : list (nat * str)) (heap : list C) : list C :=
  fold_left (λ h e, alter (invalidate (snd e)) (fst e) h) es heap.

Definition needs_promotion (s : ObjectCache) (e : ObjectCacheEntry) : bool :=
  u64 (oc_lru_counter s - ce_lru_promotion_ts e) >? oc_lru_window s.

(** The end of [get]: the flags the caller needs, or a miss. *)
Definition get_result (name : str) (mask : Z) (e : ObjectCacheEntry)
    : Z + ObjectCacheInfo * rgw_cache_entry_info :=
  if Z.land (ci_flags (ce_info e)) mask =? mask
  then inr (ce_info e, Mk_entry_info name (ce_gen e))
  else inl (- ENOENT).

(** [get] under the read lock: [None] when the entry is to be promoted. *)
Definition get_read (name : str) (mask : Z) (s : ObjectCache)
    : option (Z + ObjectCacheInfo * rgw_cache_entry_info) :=
  if negb (oc_enabled s) then Some (inl (- ENOENT))
  else match mfind name (oc_map s) with
       | None => Some (inl (- ENOENT))
       | Some e => if needs_promotion s e then None else Some (get_result name mask e)
       end.

(** [get] after it has taken the write lock; other threads may have run. *)
Definition get_promote (name : str) (mask : Z) (s : ObjectCache)
    : (Z + ObjectCacheInfo * rgw_cache_entry_info) * ObjectCache :=
  match mfind name (oc_map s) with
  | None => (inl (- ENOENT), s)
  | Some e => (get_result name mask e, if needs_promotion s e then touch_lru name e s else s)
  end.

(** [get] with nothing in between. *)
Definition get (name : str) (mask : Z) (s : ObjectCache)
    : (Z + ObjectCacheInfo * rgw_cache_entry_info) * ObjectCache :=
  match get_read name mask s with
  | Some r => (r, s)
  | None => get_promote name mask s
  end.

(** [chain_cache_entry]: the look-ups first, all or nothing. *)
Fixpoint verify_entries (cis : list rgw_cache_entry_info) (m : list (str * ObjectCacheEntry)) : bool :=
  match cis with
  | [] => true
  | ci :: cis' =>
      match mfind (cei_cache_locator ci) m with
      | None => false
      | Some e => if ce_gen e =? cei_gen ci then verify_entries cis' m else false
      end
  end.

Definition push_chained (ch : nat * str) (e : ObjectCacheEntry) : ObjectCacheEntry :=
  Mk_Entry (ce_info e) (ce_lru_iter e) (ce_lru_promotion_ts e) (ce_gen e) (ce_chained_entries e ++ [ch]).
Definition chain_one (ch : nat * str) (m : list (str * ObjectCacheEntry)) (ci : rgw_cache_entry_info) :=
  match mfind (cei_cache_locator ci) m with
  | Some e => mset (cei_cache_locator ci) (push_chained ch e) m
  | None => m
  end.

Definition chain_cache_entry (cis : list rgw_cache_entry_info) (cache : nat) (key : str) (data : V)
    (s : ObjectCache) : bool * ObjectCache :=
  if negb (oc_enabled s) then (false, s)
  else if verify_entries cis (oc_map s) then
    let s := set_heap (alter (chain_cb key data) cache (oc_heap s)) s in
    (true, set_map (fold_left (chain_one (cache, key)) cis (oc_map s)) s)
  else (false, s).

(** The update of the cached object in [put]. *)
Definition put_info (info target : ObjectCacheInfo) : ObjectCacheInfo :=
  if ci_status info <? 0 then
    Mk_ObjectCacheInfo (ci_status info) 0 (ci_epoch target) [] [] (ci_rm_xattrs target)
      (ci_meta target) (ci_version target)
  else
    let has f := negb (Z.land (ci_flags info) f =? 0) in
    let flags := Z.lor (ci_flags target) (ci_flags info) in
    let '(meta, flags) :=
      if has CACHE_FLAG_META then (ci_meta info, flags)
      else if negb (has CACHE_FLAG_MODIFY_XATTRS)
      then (ci_meta target, Z.land flags (Z.lnot CACHE_FLAG_META))
      else (ci_meta target, flags) in
    let xattrs :=
      if has CACHE_FLAG_XATTRS then ci_xattrs info
      else if has CACHE_FLAG_MODIFY_XATTRS then
        fold_left (λ m p, mset (fst p) (snd p) m) (ci_xattrs info)
          (fold_left (λ m p, merase (fst p) m) (ci_rm_xattrs info) (ci_xattrs target))
      else ci_xattrs target in
    let data := if has CACHE_FLAG_DATA then ci_data info else ci_data target in
    let version := if has CACHE_FLAG_OBJV then ci_version info else ci_version target in
    Mk_ObjectCacheInfo (ci_status info) flags (ci_epoch target) data xattrs (ci_rm_xattrs target)
      meta version.

(** [put]: the new state and what is stored through [cache_info]. *)
Definition put (name : str) (info : ObjectCacheInfo) (s : ObjectCache)
    : option rgw_cache_entry_info * ObjectCache :=
  if negb (oc_enabled s) then (None, s)
  else
    let entry := default (Mk_Entry ObjectCacheInfo_new None 0 0 []) (mfind name (oc_map s)) in
    let s := set_map (mset name entry (oc_map s)) s in
    let s := set_heap (invalidate_chained (ce_chained_entries entry) (oc_heap s)) s in
    let entry := Mk_Entry (ce_info entry) (ce_lru_iter entry) (ce_lru_promotion_ts entry)
                   (u64 (ce_gen entry + 1)) [] in
    let s := touch_lru name entry s in
    match mfind name (oc_map s) with
    | None => (None, s)
    | Some entry =>
        let entry' := Mk_Entry (put_info info (ce_info entry)) (ce_lru_iter entry)
                        (ce_lru_promotion_ts entry) (ce_gen entry) (ce_chained_entries entry) in
        (if ci_status info <? 0 then None else Some (Mk_entry_info name (ce_gen entry)),
         set_map (mset name entry' (oc_map s)) s)
    end.

Definition remove (name : str) (s : ObjectCache) : ObjectCache :=
  if negb (oc_enabled s) then s
  else match mfind name (oc_map s) with
       | None => s
       | Some entry =>
           let s := set_heap (invalidate_chained (ce_chained_entries entry) (oc_heap s)) s in
           let s := remove_lru (ce_lru_iter entry) s in
           set_map (merase name (oc_map s)) s
       end.

Definition do_invalidate_all (s : ObjectCache) : ObjectCache :=
  Mk_ObjectCache [] [] (oc_lru_next s) 0 0 0 (oc_chained_cache s) (oc_enabled s)
    (fold_left (λ h i, alter chained_invalidate_all i h) (oc_chained_cache s) (oc_heap s)).

Definition set_enabled (status : bool) (s : ObjectCache) : ObjectCache :=
  let s := Mk_ObjectCache (oc_map s) (oc_lru s) (oc_lru_next s) (oc_lru_size s) (oc_lru_counter s)
             (oc_lru_window s) (oc_chained_cache s) status (oc_heap s) in
  if negb status then do_invalidate_all s else s.

Definition invalidate_all (s : ObjectCache) : ObjectCache := do_invalidate_all s.

Definition chain_cache (cache : nat) (s : ObjectCache) : ObjectCache :=
  Mk_ObjectCache (oc_map s) (oc_lru s) (oc_lru_next s) (oc_lru_size s) (oc_lru_counter s)
    (oc_lru_window s) (oc_chained_cache s ++ [cache]) (oc_enabled s) (oc_heap s).

(** ** Runs: the methods in any order, from any number of threads *)

Inductive cache_op :=
  | Op_get_promote (name : str) (mask : Z)
  | Op_put (name : str) (info : ObjectCacheInfo)
  | Op_remove (name : str)
  | Op_chain_entry (cis : list rgw_cache_entry_info) (cache : nat) (key : str) (data : V)
  | Op_set_enabled (status : bool)
  | Op_invalidate_all
  | Op_chain_cache (cache : nat)
  | Op_set_ctx.

Definition cache_step (s : ObjectCache) (op : cache_op) : ObjectCache :=
  match op with
  | Op_get_promote name mask => snd (get_promote name mask s)
  | Op_put name info => snd (put name info s)
  | Op_remove name => remove name s
  | Op_chain_entry cis cache key data => snd (chain_cache_entry cis cache key data s)
  | Op_set_enabled status => set_enabled status s
  | Op_invalidate_all => invalidate_all s
  | Op_chain_cache cache => chain_cache cache s
  | Op_set_ctx => set_ctx s
  end.

Inductive reachable (heap : list C) : ObjectCache → Prop :=
  | reach_new : reachable heap (cache_new heap)
  | reach_step s op : reachable heap s → reachable heap (cache_step s op).
End cache.
Arguments ObjectCache : clear implicits.
Arguments cache_op : clear implicits.

(** ** Codecs *)

#[export] Instance obj_version_ok : CodecOk obj_version_c.
Proof. codec_solve encode_obj_version decode_obj_version wf_obj_version. Qed.

#[export] Instance obj_version_cond_ok : CodecOk obj_version_cond_c.
Proof. codec_solve encode_obj_version_cond decode_obj_version_cond wf_obj_version_cond. Qed.

#[export] Instance ObjectMetaInfo_ok : CodecOk ObjectMetaInfo_c.
Proof.
  split; cbn [enc dec wf].
  - intros x. change (appends (encode_ObjectMetaInfo x)). unfold encode_ObjectMetaInfo. appends_solve.
  - intros x x0 [Hs Hm].
    change (reads (decode_ObjectMetaInfo x0) (encode_ObjectMetaInfo x []) x).
    assert (Ht : mk_utime (om_mtime x) 0 = Utime (om_mtime x) 0).
    { unfold mk_utime. rewrite (Z.mod_small (om_mtime x) _ Hm : u32 (om_mtime x) = om_mtime x). done. }
    assert (Hwf : wf utime_c (Utime (om_mtime x) 0)) by (split; [exact Hm|by vm_compute]).
    unfold encode_ObjectMetaInfo, decode_ObjectMetaInfo. rewrite Ht, ENCODE_block by appends_solve.
    rewrite <- (app_nil_r (_ [])). apply reads_DECODE_LEGACY_newer; [lia|lia|lia|lia|lia|].
    reads_solve.
Qed.

#[export] Instance ObjectCacheInfo_ok : CodecOk ObjectCacheInfo_c.
Proof. codec_solve encode_ObjectCacheInfo decode_ObjectCacheInfo wf_ObjectCacheInfo. Qed.
