(* ===== verification/ObjectCacheFacts.v ===== *)
(** * Properties of the object cache

    The LRU list against the map, the bound on its size, what [put] makes
    visible to [get], and the invalidation of chained caches. *)

From S2P Require Import Prelude StdMap Encoding ObjectCache.

(** ** Lists of LRU nodes *)

Lemma NoDup_fst_split (a b : list (Z * str)) i n :
  NoDup (a ++ (i, n) :: b).*1 → (i ∉ a.*1) ∧ (i ∉ b.*1).
Proof.
  rewrite fmap_app. cbn. intros (H1 & H2 & H3)%NoDup_app. apply NoDup_cons in H3 as [H3 _].
  split; [|done]. intros Hin. apply (H2 i Hin). left.
Qed.

Lemma filter_notin (l : list (Z * str)) i : i ∉ l.*1 → filter (λ p, fst p ≠ i) l = l.
Proof.
  induction l as [|[j n] l IH]; [done|]. intros [Hj Hl]%not_elem_of_cons.
  rewrite filter_cons_True by (cbn in *; congruence). by rewrite IH.
Qed.

(** Erasing the node an iterator points to. *)
Lemma filter_node (l : list (Z * str)) i n :
  NoDup l.*1 → (i, n) ∈ l →
  ∃ a b, l = a ++ (i, n) :: b ∧ filter (λ p, fst p ≠ i) l = a ++ b.
Proof.
  intros Hnd Hin. apply list_elem_of_split in Hin as (a & b & ->). exists a, b. split; [done|].
  apply NoDup_fst_split in Hnd as [Ha Hb]. rewrite filter_app.
  rewrite filter_cons_False by (cbn; auto). by rewrite !filter_notin.
Qed.

(** The node of a name, given that names do not repeat. *)
Lemma node_unique (l : list (Z * str)) i j n : NoDup l.*2 → (i, n) ∈ l → (j, n) ∈ l → i = j.
Proof.
  induction l as [|[k m] l IH]; [by intros _ ?%not_elem_of_nil|]. cbn. intros [Hm Hnd]%NoDup_cons.
  assert (Hno : ∀ x, (x, m) ∈ l → False).
  { intros x Hx. apply Hm. apply list_elem_of_fmap. by exists (x, m). }
  intros [[= -> ->]|Hi]%elem_of_cons [[= ]|Hj]%elem_of_cons; subst; auto;
    first [done | exfalso; eauto].
Qed.

Lemma elem_of_fst (l : list (Z * str)) i n : (i, n) ∈ l → i ∈ l.*1.
Proof. intros H. apply list_elem_of_fmap. by exists (i, n). Qed.
Lemma elem_of_snd (l : list (Z * str)) i n : (i, n) ∈ l → n ∈ l.*2.
Proof. intros H. apply list_elem_of_fmap. by exists (i, n). Qed.
Lemma snd_elem_of (l : list (Z * str)) n : n ∈ l.*2 → ∃ i, (i, n) ∈ l.
Proof. intros ([i m] & -> & H)%list_elem_of_fmap. by exists i. Qed.

#[local] Hint Resolve elem_of_fst elem_of_snd : core.

Section facts.
Context {C V : Type} `{ChainedCache C V}.
Variable lru_limit : Z.
Hypothesis limit_range : 0 <= lru_limit < 2 ^ 63.

Implicit Types s : ObjectCache C.

(** ** The invariant *)

Record cache_inv s : Prop := {
  inv_sorted : msorted (oc_map s);
  inv_size : oc_lru_size s = zlen (oc_lru s);
  inv_bound : zlen (oc_lru s) <= lru_limit + 1;
  inv_ids : Forall (λ p, fst p < oc_lru_next s) (oc_lru s);
  inv_nodup_ids : NoDup (oc_lru s).*1;
  inv_nodup : NoDup (oc_lru s).*2;
  inv_iter : ∀ n e, mfind n (oc_map s) = Some e → ∃ i, ce_lru_iter e = Some i ∧ (i, n) ∈ oc_lru s;
  inv_mapped : ∀ n, n ∈ (oc_lru s).*2 → ∃ e, mfind n (oc_map s) = Some e;
  inv_disabled : oc_enabled s = false → oc_map s = [] ∧ oc_lru s = []
}.

(** The state while [name]'s entry is being put on the list: everything else
    is in order. *)
Record inv_except (name : str) (e : ObjectCacheEntry) s : Prop := {
  ex_sorted : msorted (oc_map s);
  ex_size : oc_lru_size s = zlen (oc_lru s);
  ex_bound : zlen (oc_lru s) <= lru_limit + 1;
  ex_ids : Forall (λ p, fst p < oc_lru_next s) (oc_lru s);
  ex_nodup_ids : NoDup (oc_lru s).*1;
  ex_nodup : NoDup (oc_lru s).*2;
  ex_iter : ∀ n e', n ≠ name → mfind n (oc_map s) = Some e' →
    ∃ i, ce_lru_iter e' = Some i ∧ (i, n) ∈ oc_lru s;
  ex_mapped : ∀ n, n ≠ name → n ∈ (oc_lru s).*2 → ∃ e', mfind n (oc_map s) = Some e';
  ex_entry : match ce_lru_iter e with
             | None => name ∉ (oc_lru s).*2
             | Some i => (i, name) ∈ oc_lru s
             end;
  ex_enabled : oc_enabled s = true
}.

Lemma inv_to_except name e s :
  cache_inv s → mfind name (oc_map s) = Some e → inv_except name e s.
Proof.
  intros Hi He. destruct (inv_iter s Hi name e He) as (i & Hit & Hin).
  split; try apply Hi; eauto using inv_iter, inv_mapped.
  - by rewrite Hit.
  - destruct (oc_enabled s) eqn:E; [done|]. destruct (inv_disabled s Hi E) as [Hm _].
    by rewrite Hm in He.
Qed.

(** ** Eviction *)

Lemma evict_spec name l size m l' size' m' :
  evict lru_limit name l size m = (l', size', m') →
  size = zlen l → zlen l <= lru_limit + 1 → msorted m →
  ∃ dropped, l = dropped ++ l' ∧ size' = zlen l' ∧ (name ∉ dropped.*2) ∧ msorted m' ∧
    (∀ n, mfind n m' = if decide (n ∈ dropped.*2) then None else mfind n m) ∧
    (zlen l' <= lru_limit ∨ ∃ i l'', l' = (i, name) :: l'').
Proof.
  revert size m. induction l as [|[i n] l IH]; intros size m; cbn.
  { intros [= <- <- <-] -> _ Hm. exists []. split_and!; try done. - apply not_elem_of_nil.
    - left. rewrite zlen_nil. lia. }
  intros Hev Hsz Hb Hm. rewrite zlen_cons in Hsz, Hb. destruct (size >? lru_limit) eqn:E.
  2:{ injection Hev as <- <- <-. exists []. rewrite zlen_cons, Z.gtb_ltb in *. zbool.
      split_and!; try done; [apply not_elem_of_nil|left; lia]. }
  case_bool_decide as Hn.
  { injection Hev as <- <- <-. exists []. rewrite zlen_cons. subst n.
    split_and!; try done; [apply not_elem_of_nil|eauto]. }
  apply IH in Hev as (dr & -> & Hs' & Hnd & Hm' & Hf & Hend);
    [|pose proof (zlen_nonneg l); rewrite u64_small by lia; lia|lia|by apply merase_sorted].
  exists ((i, n) :: dr). split_and!; try done.
  - cbn. apply not_elem_of_cons. auto.
  - intros k. rewrite Hf. cbn. destruct (decide (k ∈ dr.*2)) as [Hk|Hk].
    + rewrite decide_True; [done|by right].
    + destruct (decide (k = n)) as [->|Hkn].
      * rewrite decide_True by left. by apply mfind_merase_eq.
      * rewrite decide_False by (rewrite elem_of_cons; tauto). by apply mfind_merase_ne.
Qed.

(** ** Touching an entry *)

Definition touched (name : str) (e : ObjectCacheEntry) s : ObjectCacheEntry :=
  Mk_Entry (ce_info e) (Some (oc_lru_next s)) (u64 (oc_lru_counter s + 1)) (ce_gen e)
    (ce_chained_entries e).

(** The nodes other than [name]'s are kept from some point of the list on,
    and [name] is at the end. *)
Lemma touch_lru_list name e s :
  inv_except name e s →
  ∃ dropped l rest m,
    oc_lru s = dropped ++ l ∧ (name ∉ dropped.*2) ∧
    touch_lru lru_limit name e s =
      Mk_ObjectCache (mset name (touched name e s) m) (rest ++ [(oc_lru_next s, name)])
        (oc_lru_next s + 1) (zlen rest + 1) (u64 (oc_lru_counter s + 1)) (oc_lru_window s)
        (oc_chained_cache s) (oc_enabled s) (oc_heap s) ∧
    msorted m ∧ (∀ n, mfind n m = if decide (n ∈ dropped.*2) then None else mfind n (oc_map s)) ∧
    rest `sublist_of` l ∧ (name ∉ rest.*2) ∧ (∀ p, p ∈ l → snd p ≠ name → p ∈ rest) ∧
    zlen rest <= lru_limit ∧
    match ce_lru_iter e with None => rest = l | Some _ => zlen l = zlen rest + 1 end.
Proof.
  intros Hi. unfold touch_lru.
  destruct (evict lru_limit name (oc_lru s) (oc_lru_size s) (oc_map s)) as [[l sz] m] eqn:Hev.
  apply evict_spec in Hev as (dr & Hl & Hsz & Hdr & Hm & Hf & Hend); [|apply Hi..].
  pose proof (ex_nodup_ids _ _ _ Hi) as Hids. pose proof (ex_nodup _ _ _ Hi) as Hnames.
  pose proof (ex_bound _ _ _ Hi) as Hb. pose proof (ex_entry _ _ _ Hi) as He.
  rewrite Hl in Hids, Hnames, Hb, He. rewrite fmap_app in Hids. rewrite fmap_app in Hnames. rewrite zlen_app in Hb.
  apply NoDup_app in Hids as (_ & _ & Hids). apply NoDup_app in Hnames as (_ & _ & Hnames).
  pose proof (zlen_nonneg dr) as Hdn. pose proof (zlen_nonneg l) as Hln.
  destruct (ce_lru_iter e) as [i|] eqn:Eit.
  - assert (Hin : (i, name) ∈ l).
    { apply elem_of_app in He as [He|He]; [|done]. exfalso. eauto. }
    destruct (filter_node l i name Hids Hin) as (a & b & Hab & Hfil).
    exists dr, l, (a ++ b), m. rewrite Hfil. subst sz. rewrite Hab in *.
    rewrite zlen_app, zlen_cons in *. rewrite fmap_app in Hnames. cbn in Hnames.
    pose proof (zlen_app a b) as Hz.
    assert (Hrest : (name ∉ (a ++ b).*2)).
    { rewrite fmap_app. apply NoDup_app in Hnames as (_ & Hd & Hnb).
      apply NoDup_cons in Hnb as [Hnb _]. rewrite elem_of_app.
      intros [Ha|Hb']; [|done]. apply (Hd _ Ha). left. }
    split_and!; try done.
    + replace (zlen (a ++ b) + 1) with (zlen a + (1 + zlen b)) by lia. done.
    + apply sublist_app; [done|]. by apply sublist_cons.
    + intros p [Hp|[->|Hp]%elem_of_cons]%elem_of_app Hne; [| by cbn in Hne|]; apply elem_of_app; auto.
    + destruct Hend as [Hend|(j & l'' & Hend)]; [lia|]. lia.
    + lia.
  - exists dr, l, l, m. subst sz.
    assert (Hnl : (name ∉ l.*2)).
    { intros Hc. apply He. rewrite fmap_app. apply elem_of_app. by right. }
    assert (Hlim : zlen l <= lru_limit).
    { destruct Hend as [Hend|(j & l'' & ->)]; [done|]. exfalso. apply Hnl. left. }
    split_and!; try done.
    by rewrite (u64_small (zlen l + 1)) by lia.
Qed.

Lemma touch_lru_find name e s :
  inv_except name e s →
  mfind name (oc_map (touch_lru lru_limit name e s)) = Some (touched name e s) ∧
  (∀ n, n ≠ name →
     mfind n (oc_map (touch_lru lru_limit name e s)) = mfind n (oc_map s) ∨
     mfind n (oc_map (touch_lru lru_limit name e s)) = None) ∧
  oc_heap (touch_lru lru_limit name e s) = oc_heap s.
Proof.
  intros Hi. destruct (touch_lru_list name e s Hi) as
    (dr & l & rest & m & Hl & Hdr & -> & Hm & Hf & _). cbn [oc_map oc_heap]. split_and!; [| |done].
  - apply mfind_mset_eq.
  - intros n Hn. rewrite mfind_mset_ne by congruence. rewrite Hf.
    destruct (decide _); auto.
Qed.

Lemma touch_lru_inv name e s :
  inv_except name e s → cache_inv (touch_lru lru_limit name e s).
Proof.
  intros Hi. destruct (touch_lru_list name e s Hi) as
    (dr & l & rest & m & Hl & Hdr & -> & Hm & Hf & Hsub & Hnr & Hkeep & Hlim & _).
  pose proof (ex_ids _ _ _ Hi) as Hids. pose proof (ex_nodup_ids _ _ _ Hi) as Hnd.
  pose proof (ex_nodup _ _ _ Hi) as Hnn. rewrite Hl in Hids, Hnd, Hnn.
  apply Forall_app in Hids as [_ Hids]. rewrite fmap_app in Hnd. rewrite fmap_app in Hnn.
  apply NoDup_app in Hnd as (_ & _ & Hnd). apply NoDup_app in Hnn as (_ & Hdn & Hnn).
  assert (Hrl : ∀ p, p ∈ rest → p ∈ l) by (intros p Hp; by eapply elem_of_sublist).
  assert (Hids' : Forall (λ p, fst p < oc_lru_next s) rest)
    by (apply Forall_forall; intros p Hp; apply (proj1 (Forall_forall _ _) Hids); auto).
  split; cbn [oc_map oc_lru oc_lru_size oc_lru_next oc_enabled].
  - by apply mset_sorted.
  - rewrite zlen_app, zlen_cons, zlen_nil. lia.
  - rewrite zlen_app, zlen_cons, zlen_nil. lia.
  - apply Forall_app. split; [|repeat constructor; cbn; lia].
    eapply Forall_impl; [exact Hids'|]. cbn. lia.
  - rewrite fmap_app. apply NoDup_app. split_and!.
    + eapply sublist_NoDup; [exact Hnd|]. by apply fmap_sublist.
    + intros i ([j n] & -> & Hp)%list_elem_of_fmap [Hc|[]%not_elem_of_nil]%elem_of_cons.
      pose proof (proj1 (Forall_forall _ _) Hids' _ Hp). cbn in *. lia.
    + apply NoDup_singleton.
  - rewrite fmap_app. apply NoDup_app. split_and!.
    + eapply sublist_NoDup; [exact Hnn|]. by apply fmap_sublist.
    + intros n Hn [->|[]%not_elem_of_nil]%elem_of_cons. done.
    + apply NoDup_singleton.
  - intros n e'. destruct (decide (n = name)) as [->|Hne].
    + rewrite mfind_mset_eq. intros [= <-]. eexists. split; [reflexivity|].
      apply elem_of_app. right. left.
    + rewrite mfind_mset_ne by congruence. rewrite Hf. destruct (decide _) as [|Hnd']; [done|].
      intros He'. destruct (ex_iter _ _ _ Hi n e' Hne He') as (i & Hit & Hin). exists i.
      split; [done|]. apply elem_of_app. left. apply Hkeep; [|done].
      rewrite Hl in Hin. apply elem_of_app in Hin as [Hin|Hin]; [|done]. exfalso. eauto.
  - intros n. rewrite fmap_app. intros [Hn|[->|[]%not_elem_of_nil]%elem_of_cons]%elem_of_app.
    2:{ rewrite mfind_mset_eq. eauto. }
    apply snd_elem_of in Hn as (i & Hin). assert (Hne : n ≠ name) by (intros ->; eauto).
    rewrite mfind_mset_ne by congruence. rewrite Hf.
    assert (Hnl : n ∈ l.*2) by eauto.
    rewrite decide_False by (intros Hc; by apply (Hdn _ Hc)).
    apply (ex_mapped _ _ _ Hi n Hne). rewrite Hl, fmap_app. apply elem_of_app. by right.
  - rewrite (ex_enabled _ _ _ Hi). done.
Qed.

(** Changing an entry in place, keeping its node. *)
Lemma set_entry_inv name e e' s :
  cache_inv s → mfind name (oc_map s) = Some e → ce_lru_iter e' = ce_lru_iter e →
  cache_inv (set_map (mset name e' (oc_map s)) s).
Proof.
  intros Hi He Hit. split; cbn [set_map oc_map oc_lru oc_lru_size oc_lru_next oc_enabled]; try apply Hi.
  - apply mset_sorted, Hi.
  - intros n f. destruct (decide (n = name)) as [->|Hne].
    + rewrite mfind_mset_eq. intros [= <-]. rewrite Hit. by apply (inv_iter s Hi).
    + rewrite mfind_mset_ne by congruence. apply (inv_iter s Hi).
  - intros n Hn. destruct (decide (n = name)) as [->|Hne].
    + rewrite mfind_mset_eq. eauto.
    + rewrite mfind_mset_ne by congruence. by apply (inv_mapped s Hi).
  - intros Hen. destruct (inv_disabled s Hi Hen) as [Hm _]. by rewrite Hm in He.
Qed.

Lemma set_heap_inv h s : cache_inv s → cache_inv (set_heap h s).
Proof. intros Hi. split; cbn [set_heap oc_map oc_lru oc_lru_size oc_lru_next oc_enabled]; apply Hi. Qed.

Lemma get_promote_inv name mask s : cache_inv s → cache_inv (snd (get_promote lru_limit name mask s)).
Proof.
  intros Hi. unfold get_promote. destruct (mfind name (oc_map s)) as [e|] eqn:He; [|done]. cbn.
  destruct (needs_promotion s e); [|done]. by apply touch_lru_inv, inv_to_except.
Qed.

(** ** [put] *)

Definition old_entry (name : str) s : ObjectCacheEntry :=
  default (Mk_Entry ObjectCacheInfo_new None 0 0 []) (mfind name (oc_map s)).

(** The entry of [name] as [put] hands it to [touch_lru], and the state then. *)
Definition put_entry (name : str) s : ObjectCacheEntry :=
  let e := old_entry name s in
  Mk_Entry (ce_info e) (ce_lru_iter e) (ce_lru_promotion_ts e) (u64 (ce_gen e + 1)) [].
Definition put_state (name : str) s : ObjectCache C :=
  set_heap (invalidate_chained (ce_chained_entries (old_entry name s)) (oc_heap s))
    (set_map (mset name (old_entry name s) (oc_map s)) s).

Lemma put_except name s :
  cache_inv s → oc_enabled s = true → inv_except name (put_entry name s) (put_state name s).
Proof.
  intros Hi Hen. split; cbn [put_state set_heap set_map oc_map oc_lru oc_lru_size oc_lru_next oc_enabled];
    try apply Hi; try done.
  - apply mset_sorted, Hi.
  - intros n e' Hne. rewrite mfind_mset_ne by congruence. apply (inv_iter s Hi).
  - intros n Hne Hn. rewrite mfind_mset_ne by congruence. by apply (inv_mapped s Hi).
  - unfold put_entry, old_entry. cbn [ce_lru_iter].
    destruct (mfind name (oc_map s)) as [e|] eqn:E; cbn.
    + destruct (inv_iter s Hi name e E) as (i & -> & Hin). done.
    + intros Hin. destruct (inv_mapped s Hi name Hin) as [e He]. congruence.
Qed.

(** [put] on an enabled cache, in one equation. *)
Lemma put_eq name info s :
  cache_inv s → oc_enabled s = true →
  put lru_limit name info s =
    let e := touched name (put_entry name s) (put_state name s) in
    let s1 := touch_lru lru_limit name (put_entry name s) (put_state name s) in
    (if ci_status info <? 0 then None else Some (Mk_entry_info name (ce_gen e)),
     set_map (mset name (Mk_Entry (put_info info (ce_info e)) (ce_lru_iter e) (ce_lru_promotion_ts e)
                           (ce_gen e) (ce_chained_entries e)) (oc_map s1)) s1).
Proof.
  intros Hi Hen. unfold put. rewrite Hen. cbn [negb].
  fold (old_entry name s). fold (put_entry name s).
  change (set_heap _ (set_map _ s)) with (put_state name s).
  destruct (touch_lru_find _ _ _ (put_except name s Hi Hen)) as (Hf & _). by rewrite Hf.
Qed.

Lemma put_inv name info s : cache_inv s → cache_inv (snd (put lru_limit name info s)).
Proof.
  intros Hi. destruct (oc_enabled s) eqn:Hen; [|unfold put; by rewrite Hen].
  rewrite put_eq by done. cbn zeta. cbn [snd].
  pose proof (put_except name s Hi Hen) as Hex.
  eapply set_entry_inv; [by apply touch_lru_inv|by apply touch_lru_find|done].
Qed.

(** ** [remove], [chain_cache_entry] and the rest *)

Lemma remove_inv name s : cache_inv s → cache_inv (remove name s).
Proof.
  intros Hi. unfold remove. destruct (oc_enabled s) eqn:Hen; [|done]. cbn [negb].
  destruct (mfind name (oc_map s)) as [e|] eqn:He; [|done].
  destruct (inv_iter s Hi name e He) as (i & Hit & Hin). rewrite Hit. unfold remove_lru.
  destruct (filter_node _ _ _ (inv_nodup_ids s Hi) Hin) as (a & b & Hab & Hfil).
  pose proof (inv_size s Hi) as Hsz. pose proof (inv_bound s Hi) as Hb.
  pose proof (inv_ids s Hi) as Hids. pose proof (inv_nodup_ids s Hi) as Hnd. pose proof (inv_nodup s Hi) as Hnn.
  pose proof (zlen_nonneg a). pose proof (zlen_nonneg b).
  assert (Hsub : a ++ b `sublist_of` oc_lru s).
  { rewrite Hab. apply sublist_app; [done|]. by apply sublist_cons. }
  assert (Hno : (name ∉ (a ++ b).*2)).
  { rewrite Hab, fmap_app in Hnn. cbn in Hnn. apply NoDup_app in Hnn as (_ & Hd & Hnb).
    apply NoDup_cons in Hnb as [Hnb _]. rewrite fmap_app, elem_of_app.
    intros [Ha|Hb']; [|done]. apply (Hd _ Ha). left. }
  split; cbn [set_map set_heap oc_map oc_lru oc_lru_size oc_lru_next oc_enabled]; rewrite ?Hfil.
  - apply merase_sorted, Hi.
  - rewrite Hsz, Hab, !zlen_app, zlen_cons in *. rewrite u64_small by lia. lia.
  - rewrite Hab, !zlen_app, zlen_cons in *. lia.
  - rewrite Hab in Hids. apply Forall_app in Hids as [? [_ ?]%Forall_cons]. by apply Forall_app.
  - eapply sublist_NoDup; [exact Hnd|]. by apply fmap_sublist.
  - eapply sublist_NoDup; [exact Hnn|]. by apply fmap_sublist.
  - intros n e' Hf. destruct (decide (n = name)) as [->|Hne];
      [by rewrite mfind_merase_eq in Hf by apply Hi|].
    rewrite mfind_merase_ne in Hf by congruence.
    destruct (inv_iter s Hi n e' Hf) as (j & Hj & Hin'). exists j. split; [done|].
    rewrite Hab in Hin'. apply elem_of_app in Hin' as [?|[[= ]|?]%elem_of_cons]; apply elem_of_app; auto.
    congruence.
  - intros n Hn. assert (Hne : n ≠ name) by (intros ->; done).
    rewrite mfind_merase_ne by congruence. apply (inv_mapped s Hi).
    eapply elem_of_sublist; [exact Hn|]. by apply fmap_sublist.
  - by rewrite Hen.
Qed.

Lemma chain_one_inv ch ci m s :
  cache_inv (set_map m s) → cache_inv (set_map (chain_one ch m ci) s).
Proof.
  intros Hi. unfold chain_one. destruct (mfind _ m) as [e|] eqn:He; [|done].
  exact (set_entry_inv (cei_cache_locator ci) e (push_chained ch e) (set_map m s) Hi He eq_refl).
Qed.

Lemma chain_cache_entry_inv cis cache key data s :
  cache_inv s → cache_inv (snd (chain_cache_entry cis cache key data s)).
Proof.
  intros Hi. unfold chain_cache_entry. destruct (oc_enabled s) eqn:Hen; [|done]. cbn [negb].
  destruct (verify_entries cis (oc_map s)); [|done]. cbn [snd].
  set (h := alter _ _ _). set (s' := set_heap h s).
  assert (Hi' : cache_inv (set_map (oc_map s') s')) by (by destruct (set_heap_inv h s Hi); split).
  revert Hi'. generalize (oc_map s'). clearbody s'. clear. induction cis as [|ci cis IH]; cbn; [done|].
  intros m Hm. by apply IH, chain_one_inv.
Qed.

Lemma empty_inv nxt counter window chained en heap :
  cache_inv (Mk_ObjectCache [] [] nxt 0 counter window chained en heap).
Proof.
  split; cbn; try done; try constructor.
  - rewrite zlen_nil. lia.
  - intros n. by intros ?%not_elem_of_nil.
Qed.

Lemma cache_step_inv s (op : cache_op V) : cache_inv s → cache_inv (cache_step lru_limit s op).
Proof.
  intros Hi. destruct op; cbn [cache_step].
  - by apply get_promote_inv.
  - by apply put_inv.
  - by apply remove_inv.
  - by apply chain_cache_entry_inv.
  - unfold set_enabled. destruct status; cbn [negb]; [|apply empty_inv].
    destruct Hi. by split.
  - apply empty_inv.
  - destruct Hi. by split.
  - destruct Hi. by split.
Qed.

Lemma reachable_inv heap s : reachable lru_limit heap s → cache_inv s.
Proof. induction 1; [apply empty_inv|by apply cache_step_inv]. Qed.

(** ** What [put] makes visible *)

Lemma put_find name info s :
  cache_inv s → oc_enabled s = true →
  ∃ e, mfind name (oc_map (snd (put lru_limit name info s))) = Some e ∧
       ce_info e = put_info info (ce_info (old_entry name s)) ∧
       ce_gen e = u64 (ce_gen (old_entry name s) + 1) ∧ ce_chained_entries e = [] ∧
       (0 <= ci_status info → fst (put lru_limit name info s) = Some (Mk_entry_info name (ce_gen e))).
Proof.
  intros Hi Hen. rewrite put_eq by done. eexists. cbn [set_map oc_map fst snd]. split_and!;
    [apply mfind_mset_eq|done|done|done|].
  intros Hst. by rewrite (proj2 (Z.ltb_ge _ _) Hst).
Qed.

Lemma get_result_eq name mask s e :
  oc_enabled s = true → mfind name (oc_map s) = Some e →
  fst (get lru_limit name mask s) = get_result name mask e.
Proof.
  intros Hen He. unfold get, get_read. rewrite Hen, He. cbn [negb].
  destruct (needs_promotion s e); [|done]. unfold get_promote. by rewrite He.
Qed.

Lemma put_enabled name info s : oc_enabled (snd (put lru_limit name info s)) = oc_enabled s.
Proof.
  unfold put. destruct (oc_enabled s) eqn:E; cbn [negb]; [|done].
  set (s1 := touch_lru _ _ _ _).
  assert (H1 : oc_enabled s1 = true).
  { subst s1. unfold touch_lru. destruct (evict _ _ _ _ _) as [[? ?] ?]. by destruct (ce_lru_iter _). }
  by destruct (mfind name (oc_map s1)).
Qed.

(** ** Chained caches *)

Context (find : str → C → option V) `{!ChainedCacheOk C V find}.

Lemma invalidate_chained_length es h : length (invalidate_chained es h) = length h.
Proof.
  revert h. induction es as [|e es IH]; intros h; cbn; [done|].
  unfold invalidate_chained in IH. by rewrite IH, length_alter.
Qed.

(** Once invalidated, an entry stays so while others are invalidated. *)
Lemma invalidate_chained_keep es h i k :
  (∀ c, h !! i = Some c → find k c = None) →
  ∀ c, invalidate_chained es h !! i = Some c → find k c = None.
Proof.
  revert h. induction es as [|[j k'] es IH]; intros h Hh; cbn; [done|]. apply IH. intros c.
  destruct (decide (j = i)) as [->|Hne]; [|rewrite list_lookup_alter_ne by done; apply Hh].
  rewrite list_lookup_alter_eq. destruct (h !! i) as [c0|] eqn:E; cbn; [|done]. intros [= <-].
  destruct (decide (k' = k)) as [->|Hk]; [apply find_invalidate|].
  rewrite find_invalidate_ne by done. by apply Hh.
Qed.

Lemma invalidate_chained_find es h i k :
  (i, k) ∈ es → ∀ c, invalidate_chained es h !! i = Some c → find k c = None.
Proof.
  revert h. induction es as [|[j k'] es IH]; intros h; [by intros ?%not_elem_of_nil|].
  change (invalidate_chained ((j, k') :: es) h) with (invalidate_chained es (alter (invalidate k') j h)).
  intros [[= -> ->]|Hin]%elem_of_cons; [|by apply IH]. apply invalidate_chained_keep. intros c.
  rewrite list_lookup_alter_eq. destruct (h !! j); cbn; [|done]. intros [= <-]. apply find_invalidate.
Qed.

(** The entry of [name] knows that [key] of chained cache [i] depends on it. *)
Definition linked (m : list (str * ObjectCacheEntry)) (name : str) (ch : nat * str) : Prop :=
  ∃ e, mfind name m = Some e ∧ ch ∈ ce_chained_entries e.

Lemma chain_one_linked ch m ci name :
  linked m name ch ∨ (name = cei_cache_locator ci ∧ is_Some (mfind name m)) →
  linked (chain_one ch m ci) name ch.
Proof.
  unfold linked, chain_one. intros [(e & He & Hch)|[-> [e He]]].
  - destruct (mfind (cei_cache_locator ci) m) as [e'|] eqn:He'; [|eauto].
    destruct (decide (cei_cache_locator ci = name)) as [<-|Hne].
    + rewrite mfind_mset_eq. eexists. split; [done|]. rewrite He' in He. injection He as ->.
      apply elem_of_app. by left.
    + rewrite mfind_mset_ne by done. eauto.
  - rewrite He, mfind_mset_eq. eexists. split; [done|]. apply elem_of_app. right. left.
Qed.

Lemma chain_one_mem ch m ci name : is_Some (mfind name m) → is_Some (mfind name (chain_one ch m ci)).
Proof.
  unfold chain_one. intros Hs. destruct (mfind (cei_cache_locator ci) m) eqn:He; [|done].
  destruct (decide (cei_cache_locator ci = name)) as [<-|Hne]; [rewrite mfind_mset_eq; eauto|].
  by rewrite mfind_mset_ne.
Qed.

Lemma chain_all_linked ch cis m name :
  linked m name ch ∨ (name ∈ map cei_cache_locator cis ∧ is_Some (mfind name m)) →
  linked (fold_left (chain_one ch) cis m) name ch.
Proof.
  revert m. induction cis as [|ci cis IH]; intros m; cbn.
  - intros [Hl|[Hin _]]; [done|]. by apply not_elem_of_nil in Hin.
  - intros [Hl|[[->|Hin]%elem_of_cons Hs]]; apply IH.
    + left. apply chain_one_linked. by left.
    + left. apply chain_one_linked. right. done.
    + right. split; [done|]. by apply chain_one_mem.
Qed.

Lemma verify_entries_mem cis m name :
  verify_entries cis m = true → name ∈ map cei_cache_locator cis → is_Some (mfind name m).
Proof.
  induction cis as [|ci cis IH]; cbn; [by intros _ ?%not_elem_of_nil|].
  destruct (mfind (cei_cache_locator ci) m) as [e|] eqn:He; [|done]. destruct (_ =? _); [|done].
  intros Hv [->|Hin]%elem_of_cons; [eauto|auto].
Qed.

Lemma remove_find name s :
  cache_inv s → oc_enabled s = true → mfind name (oc_map (remove name s)) = None.
Proof.
  intros Hi Hen. unfold remove. rewrite Hen. cbn [negb].
  destruct (mfind name (oc_map s)) as [e|] eqn:He; [|done]. cbn [set_map oc_map].
  unfold remove_lru. destruct (ce_lru_iter e); cbn [set_heap oc_map]; apply mfind_merase_eq, Hi.
Qed.

Lemma linked_put name info s i k c :
  cache_inv s → oc_enabled s = true → linked (oc_map s) name (i, k) →
  oc_heap (snd (put lru_limit name info s)) !! i = Some c → find k c = None.
Proof.
  intros Hi Hen (e & He & Hch). rewrite put_eq by done. cbn zeta. cbn [snd set_map oc_heap].
  destruct (touch_lru_find _ _ _ (put_except name s Hi Hen)) as (_ & _ & ->).
  cbn [put_state set_heap oc_heap]. apply invalidate_chained_find.
  unfold old_entry. by rewrite He.
Qed.

Lemma linked_remove name s i k c :
  oc_enabled s = true → linked (oc_map s) name (i, k) →
  oc_heap (remove name s) !! i = Some c → find k c = None.
Proof.
  intros Hen (e & He & Hch). unfold remove. rewrite Hen, He. cbn [negb set_map oc_heap].
  unfold remove_lru. destruct (ce_lru_iter e); cbn [set_heap oc_heap]; by apply invalidate_chained_find.
Qed.
End facts.

(** The parts of [put_info] its flags name. *)
Lemma put_info_spec info target mask :
  0 <= ci_status info → Z.land mask (ci_flags info) = mask →
  let i := put_info info target in
  Z.land (ci_flags i) mask = mask ∧ ci_status i = ci_status info ∧
  (Z.testbit (ci_flags info) 0 = true → ci_data i = ci_data info) ∧
  (Z.testbit (ci_flags info) 1 = true → ci_xattrs i = ci_xattrs info) ∧
  (Z.testbit (ci_flags info) 2 = true → ci_meta i = ci_meta info) ∧
  (Z.testbit (ci_flags info) 4 = true → ci_version i = ci_version info) ∧
  ci_epoch i = ci_epoch target.
Proof.
  intros Hst Hmask. unfold put_info. rewrite (proj2 (Z.ltb_ge _ _) Hst).
  set (fl := ci_flags info) in *.
  rewrite (land_pow2_eqb 0 fl ltac:(lia) : (Z.land fl CACHE_FLAG_DATA =? 0) = _),
    (land_pow2_eqb 1 fl ltac:(lia) : (Z.land fl CACHE_FLAG_XATTRS =? 0) = _),
    (land_pow2_eqb 2 fl ltac:(lia) : (Z.land fl CACHE_FLAG_META =? 0) = _),
    (land_pow2_eqb 3 fl ltac:(lia) : (Z.land fl CACHE_FLAG_MODIFY_XATTRS =? 0) = _),
    (land_pow2_eqb 4 fl ltac:(lia) : (Z.land fl CACHE_FLAG_OBJV =? 0) = _), !negb_involutive.
  cbn zeta. clearbody fl.
  assert (Hfl : ∀ x, (∀ n, 0 <= n → Z.testbit fl n = true → Z.testbit x n = true) →
                     Z.land x mask = mask).
  { intros x Hx. rewrite Z.land_comm. apply land_subset_iff. intros n Hn Hb. apply Hx; [done|].
    by apply (proj1 (land_subset_iff _ _) Hmask). }
  destruct (Z.testbit fl 2) eqn:E2; [|destruct (Z.testbit fl 3)];
    cbn [negb ci_flags ci_status ci_data ci_xattrs ci_meta ci_version ci_epoch];
    (split_and!; try done; try (by intros ->)); apply Hfl; intros n Hn Hb;
    rewrite ?Z.land_spec, Z.lor_spec, Hb, orb_true_r; [done|done|].
  rewrite Z.lnot_spec by done. cbn [andb]. change CACHE_FLAG_META with (2 ^ 2).
  rewrite Z.pow2_bits_false; [done|]. intros Hc. subst n. congruence.
Qed.

Lemma kept_names name (rest l : list (Z * str)) :
  rest `sublist_of` l → (name ∉ rest.*2) → (∀ p, p ∈ l → snd p ≠ name → p ∈ rest) → NoDup l →
  filter (λ n, n ≠ name) l.*2 = rest.*2.
Proof.
  induction 1 as [|[i n] rest l Hs IH|[i n] rest l Hs IH]; intros Hn Hk Hnd; [done|..];
    apply NoDup_cons in Hnd as [Hx Hnd].
  - apply not_elem_of_cons in Hn as [Hn0 Hn]. change ((i, n) :: l).*2 with (n :: l.*2).
    rewrite filter_cons_True by (cbn in *; congruence).
    change ((i, n) :: rest).*2 with (n :: rest.*2). f_equal. apply IH; [done| |done].
    intros p Hp Hne. specialize (Hk p (list_elem_of_further _ _ _ Hp) Hne).
    apply elem_of_cons in Hk as [->|Hk]; done.
  - change ((i, n) :: l).*2 with (n :: l.*2).
    destruct (decide (n = name)) as [->|Hne].
    + rewrite filter_cons_False by auto. apply IH; [done| |done].
      intros p Hp Hne. apply Hk; [by right|done].
    + exfalso. apply Hx. eapply elem_of_sublist; [|exact Hs]. apply Hk; [left|done].
Qed.

Lemma verify_entries_spec cis m :
  verify_entries cis m = true ↔
  Forall (λ ci, ∃ e, mfind (cei_cache_locator ci) m = Some e ∧ ce_gen e = cei_gen ci) cis.
Proof.
  induction cis as [|ci cis IH]; cbn; [by split|]. rewrite Forall_cons, <- IH.
  destruct (mfind (cei_cache_locator ci) m) as [e|]; [|split; [done|by intros [(? & ? & _) _]]].
  destruct (Z.eqb_spec (ce_gen e) (cei_gen ci)) as [E|E].
  - split; [by eauto|by intros [_ ?]].
  - split; [done|]. intros [(e' & [= <-] & ?) _]. done.
Qed.

Lemma fold_invalidate_all_keep {C V} `{ChainedCache C V} (find : str → C → option V)
    `{!ChainedCacheOk C V find} (l : list nat) (h : list C) i k c :
  (∀ c, h !! i = Some c → find k c = None) →
  fold_left (λ h i, alter chained_invalidate_all i h) l h !! i = Some c → find k c = None.
Proof.
  revert h. induction l as [|j l IH]; intros h Hh; cbn; [apply Hh|]. apply IH. intros c'.
  destruct (decide (j = i)) as [->|Hne]; [|rewrite list_lookup_alter_ne by done; apply Hh].
  rewrite list_lookup_alter_eq. destruct (h !! i); cbn; [|done]. intros [= <-]. apply find_invalidate_all.
Qed.

Lemma touch_lru_window {C} limit name e (s : ObjectCache C) :
  oc_lru_window (touch_lru limit name e s) = oc_lru_window s.
Proof. unfold touch_lru. destruct (evict _ _ _ _ _) as [[? ?] ?]. by destruct (ce_lru_iter e). Qed.

Lemma put_window {C V} `{ChainedCache C V} limit name info (s : ObjectCache C) :
  oc_lru_window (snd (put limit name info s)) = oc_lru_window s.
Proof.
  unfold put. destruct (oc_enabled s); cbn [negb]; [|done].
  destruct (mfind name (oc_map (touch_lru _ _ _ _))); cbn [snd set_map oc_lru_window]; by rewrite touch_lru_window.
Qed.

(** ** Theorems *)

(** C9: in every state the cache can reach, by any sequence of calls from any
    number of threads, the LRU list holds each cached name exactly once and
    nothing else, the counted size is the list's length, and it never exceeds
    the configured limit by more than one. *)
Theorem cache_lru_invariant {C V} `{ChainedCache C V} limit (heap : list C) (s : ObjectCache C) :
  0 <= limit < 2 ^ 63 → reachable (V := V) limit heap s →
  NoDup (oc_lru s).*2 ∧ (∀ n, n ∈ (oc_lru s).*2 ↔ is_Some (mfind n (oc_map s))) ∧
  oc_lru_size s = zlen (oc_lru s) ∧ zlen (oc_lru s) <= limit + 1.
Proof.
  intros Hl Hr. pose proof (reachable_inv limit Hl heap s Hr) as Hi. split_and!; [apply Hi| |apply Hi..].
  intros n. split.
  - intros Hn. destruct (inv_mapped _ _ Hi n Hn) as [e He]. eauto.
  - intros [e He]. destruct (inv_iter _ _ Hi n e He) as (i & _ & Hin). by eapply elem_of_snd.
Qed.

(** A cache over one chained cache of numbers, enabled, with objects in it. *)
Definition demo_info (data : bytes) : ObjectCacheInfo :=
  Mk_ObjectCacheInfo 0 CACHE_FLAG_DATA 7 data [] [] ObjectMetaInfo_new obj_version_new.
Definition demo_chained : RGWChainedCacheImpl Z := Mk_chained [] I.
Definition demo_ops : list (cache_op Z) :=
  [Op_set_ctx; Op_chain_cache 0; Op_set_enabled true; Op_put "a" (demo_info "x"); Op_put "b" (demo_info "y")].
Definition demo_run (limit : Z) (ops : list (cache_op Z)) : ObjectCache (RGWChainedCacheImpl Z) :=
  fold_left (cache_step limit) ops (cache_new [demo_chained]).

Lemma run_reachable {C V} `{ChainedCache C V} limit (heap : list C) (ops : list (cache_op V)) s :
  reachable limit heap s → reachable limit heap (fold_left (cache_step limit) ops s).
Proof.
  revert s. induction ops as [|op ops IH]; intros s Hs; cbn; [done|]. apply IH. by constructor.
Qed.

Lemma demo_reachable limit ops : reachable (V := Z) limit [demo_chained] (demo_run limit ops).
Proof. apply run_reachable. constructor. Qed.

Lemma cache_lru_invariant_witness :
  NoDup (oc_lru (demo_run 1 demo_ops)).*2 ∧
  (∀ n, n ∈ (oc_lru (demo_run 1 demo_ops)).*2 ↔ is_Some (mfind n (oc_map (demo_run 1 demo_ops)))) ∧
  oc_lru_size (demo_run 1 demo_ops) = zlen (oc_lru (demo_run 1 demo_ops)) ∧
  zlen (oc_lru (demo_run 1 demo_ops)) <= 1 + 1.
Proof. apply (cache_lru_invariant 1 [demo_chained]); [lia|apply demo_reachable]. Defined.

(** Touching a name (as [put] and a promoting [get] do) keeps the list in
    order of use: entries are evicted from its old end only, never [name]
    itself, the others keep their order, and [name] becomes the newest. *)
Lemma lru_order {C V} `{ChainedCache C V} limit (heap : list C) (s : ObjectCache C) name info :
  0 <= limit < 2 ^ 63 → reachable (V := V) limit heap s → oc_enabled s = true →
  let s' := snd (put limit name info s) in
  ∃ evicted kept,
    (oc_lru s).*2 = evicted ++ kept ∧ (name ∉ evicted) ∧
    (oc_lru s').*2 = filter (λ n, n ≠ name) kept ++ [name] ∧
    ∀ n, n ≠ name → mfind n (oc_map s') = if decide (n ∈ evicted) then None else mfind n (oc_map s).
Proof.
  intros Hl Hr Hen s'. pose proof (reachable_inv limit Hl heap s Hr) as Hi.
  subst s'. rewrite (put_eq limit Hl) by done. cbn zeta. cbn [snd set_map oc_lru oc_map].
  pose proof (put_except limit name s Hi Hen) as Hex.
  destruct (touch_lru_list limit Hl _ _ _ Hex) as
    (dr & l & rest & m & Hlru & Hdr & Heq & Hm & Hf & Hsub & Hnr & Hkeep & _ & _).
  rewrite Heq. clear Heq. cbn [oc_lru oc_map]. exists dr.*2, l.*2.
  change (oc_lru (put_state name s)) with (oc_lru s) in Hlru. split_and!.
  - rewrite Hlru. apply fmap_app.
  - done.
  - rewrite fmap_app. f_equal. symmetry. apply kept_names; [done..|].
    pose proof (inv_nodup _ _ Hi) as Hnd. rewrite Hlru, fmap_app in Hnd.
    apply NoDup_app in Hnd as (_ & _ & Hnd). by eapply NoDup_fmap_1.
  - intros n Hn. rewrite !mfind_mset_ne by congruence. rewrite Hf.
    change (oc_map (put_state name s)) with (mset name (old_entry name s) (oc_map s)).
    by rewrite mfind_mset_ne by congruence.
Qed.

Lemma lru_order_witness :
  let s := demo_run 1 demo_ops in
  let s' := snd (put 1 "c" (demo_info "z") s) in
  ∃ evicted kept,
    (oc_lru s).*2 = evicted ++ kept ∧ ("c" ∉ evicted) ∧
    (oc_lru s').*2 = filter (λ n, n ≠ "c") kept ++ ["c"] ∧
    ∀ n, n ≠ "c" → mfind n (oc_map s') = if decide (n ∈ evicted) then None else mfind n (oc_map s).
Proof.
  apply (lru_order 1 [demo_chained] (demo_run 1 demo_ops)); [lia|apply demo_reachable|done].
Defined.

(** What is put is what is got: after a successful [put] on an enabled cache,
    a [get] whose mask is within the put flags hits, with the same cache
    location and generation as [put] reported, and returns the status and each
    part the flags name; the epoch is not part of what is kept. *)
Lemma put_get {C V} `{ChainedCache C V} limit (heap : list C) (s : ObjectCache C) name info mask :
  0 <= limit < 2 ^ 63 → reachable (V := V) limit heap s → oc_enabled s = true →
  0 <= ci_status info → Z.land mask (ci_flags info) = mask →
  let '(ci, s') := put limit name info s in
  ∃ i c, fst (get limit name mask s') = inr (i, c) ∧ ci = Some c ∧ cei_cache_locator c = name ∧
    ci_status i = ci_status info ∧
    (Z.testbit (ci_flags info) 0 = true → ci_data i = ci_data info) ∧
    (Z.testbit (ci_flags info) 1 = true → ci_xattrs i = ci_xattrs info) ∧
    (Z.testbit (ci_flags info) 2 = true → ci_meta i = ci_meta info) ∧
    (Z.testbit (ci_flags info) 4 = true → ci_version i = ci_version info) ∧
    ci_epoch i = ci_epoch (ce_info (old_entry name s)).
Proof.
  intros Hl Hr Hen Hst Hmask. pose proof (reachable_inv limit Hl heap s Hr) as Hi.
  destruct (put_find limit Hl name info s Hi Hen) as (e & He & Hinfo & Hgen & _ & Hci).
  pose proof (put_enabled limit name info s) as Hen'. specialize (Hci Hst).
  destruct (put limit name info s) as [ci s']. cbn [fst snd] in *. rewrite Hen in Hen'.
  rewrite (get_result_eq limit name mask s' e Hen' He). unfold get_result.
  destruct (put_info_spec info (ce_info (old_entry name s)) mask Hst Hmask)
    as (Hfl & Hrest). rewrite <- Hinfo in Hfl, Hrest. rewrite Hfl, Z.eqb_refl.
  exists (ce_info e), (Mk_entry_info name (ce_gen e)). split_and!; [done|done|done|apply Hrest..].
Qed.

Lemma put_get_witness :
  let s := demo_run 1 demo_ops in
  let '(ci, s') := put 1 "c" (demo_info "z") s in
  ∃ i c, fst (get 1 "c" CACHE_FLAG_DATA s') = inr (i, c) ∧ ci = Some c ∧ cei_cache_locator c = "c" ∧
    ci_status i = 0 ∧
    (Z.testbit CACHE_FLAG_DATA 0 = true → ci_data i = "z") ∧
    (Z.testbit CACHE_FLAG_DATA 1 = true → ci_xattrs i = []) ∧
    (Z.testbit CACHE_FLAG_DATA 2 = true → ci_meta i = ObjectMetaInfo_new) ∧
    (Z.testbit CACHE_FLAG_DATA 4 = true → ci_version i = obj_version_new) ∧
    ci_epoch i = ci_epoch (ce_info (old_entry "c" s)).
Proof.
  apply (put_get 1 [demo_chained] (demo_run 1 demo_ops) "c" (demo_info "z") CACHE_FLAG_DATA);
    [lia|apply demo_reachable|done|cbn; lia|done].
Defined.

(** An entry put with an error status (the gateway does so for objects that
    do not exist) can never be hit: every [get] that asks for any part misses,
    so that the absence of an object is in effect not cached. *)
Lemma negative_entry_misses {C V} `{ChainedCache C V} limit (heap : list C) (s : ObjectCache C)
    name info mask :
  0 <= limit < 2 ^ 63 → reachable (V := V) limit heap s → oc_enabled s = true →
  ci_status info < 0 → mask ≠ 0 →
  let s' := snd (put limit name info s) in
  is_Some (mfind name (oc_map s')) ∧ fst (get limit name mask s') = inl (- ENOENT).
Proof.
  intros Hl Hr Hen Hst Hmask s'. pose proof (reachable_inv limit Hl heap s Hr) as Hi.
  destruct (put_find limit Hl name info s Hi Hen) as (e & He & Hinfo & _).
  fold s' in He. split; [eauto|].
  rewrite (get_result_eq limit name mask s' e); [|by subst s'; rewrite put_enabled|done].
  unfold get_result. rewrite Hinfo. unfold put_info. rewrite (proj2 (Z.ltb_lt _ _) Hst).
  cbn [ci_flags]. rewrite Z.land_0_l. destruct (Z.eqb_spec 0 mask) as [<-|]; [done|reflexivity].
Qed.

Lemma negative_entry_misses_witness :
  let info := Mk_ObjectCacheInfo (- ENOENT) 0 0 [] [] [] ObjectMetaInfo_new obj_version_new in
  let s' := snd (put 1 "c" info (demo_run 1 demo_ops)) in
  is_Some (mfind "c" (oc_map s')) ∧ fst (get 1 "c" CACHE_FLAG_DATA s') = inl (- ENOENT).
Proof.
  intros info. apply (negative_entry_misses 1 [demo_chained] (demo_run 1 demo_ops) "c" info);
    [lia|apply demo_reachable|done|vm_compute; reflexivity|done].
Defined.

(** C31: chained data does not outlive what it was derived from: when
    [chain_cache_entry] accepts an entry it stores it and links it to every
    object it depends on, and from any state in which an object is linked,
    updating or removing the object invalidates the entry.  It is only accepted
    if each object is still cached with the generation it was read with. *)
Theorem chained_invalidation {C V} `{ChainedCache C V} (find : str → C → option V)
    `{!ChainedCacheOk C V find} limit (heap : list C) (s : ObjectCache C) cis i key data :
  0 <= limit < 2 ^ 63 → reachable limit heap s →
  (fst (chain_cache_entry cis i key data s) = true ↔
     oc_enabled s = true ∧
     Forall (λ ci, ∃ e, mfind (cei_cache_locator ci) (oc_map s) = Some e ∧ ce_gen e = cei_gen ci) cis) ∧
  (fst (chain_cache_entry cis i key data s) = true →
   let s1 := snd (chain_cache_entry cis i key data s) in
   (∀ c, oc_heap s1 !! i = Some c → find key c = Some data) ∧
   (∀ name, name ∈ map cei_cache_locator cis → linked (oc_map s1) name (i, key))) ∧
  (∀ name info, oc_enabled s = true → linked (oc_map s) name (i, key) →
     (∀ c, oc_heap (snd (put limit name info s)) !! i = Some c → find key c = None) ∧
     (∀ c, oc_heap (remove name s) !! i = Some c → find key c = None)).
Proof.
  intros Hl Hr. pose proof (reachable_inv limit Hl heap s Hr) as Hi. split_and!.
  - rewrite <- verify_entries_spec. unfold chain_cache_entry.
    destruct (oc_enabled s); cbn [negb]; [|by split; [|intros []]].
    destruct (verify_entries cis (oc_map s)); split; cbn; [done|done|done|by intros []].
  - unfold chain_cache_entry. destruct (oc_enabled s); cbn [negb]; [|done].
    destruct (verify_entries cis (oc_map s)) eqn:Hv; [|done]. intros _.
    cbn [snd set_map set_heap oc_heap oc_map]. split.
    + intros c. rewrite list_lookup_alter_eq. destruct (oc_heap s !! i); cbn; [|done].
      intros [= <-]. apply find_chain_cb.
    + intros name Hin. apply chain_all_linked. right. split; [done|]. by eapply verify_entries_mem.
  - intros name info Hen Hlk. split; intros c Hc.
    + by eapply (linked_put limit Hl find).
    + by eapply (linked_remove find).
Qed.

Definition demo_chain : list (cache_op Z) := demo_ops ++ [Op_chain_entry [Mk_entry_info "a" 1] 0 "k" 42].

Lemma chained_invalidation_witness :
  (∀ c, oc_heap (snd (put 5 "a" (demo_info "new") (demo_run 5 demo_chain))) !! 0%nat = Some c →
     chained_find "k" c = None) ∧
  (∀ c, oc_heap (remove "a" (demo_run 5 demo_chain)) !! 0%nat = Some c → chained_find "k" c = None).
Proof.
  apply (proj2 (proj2 (chained_invalidation chained_find 5 [demo_chained] (demo_run 5 demo_chain)
           [] 0 "k" 42 ltac:(lia) (demo_reachable 5 demo_chain)))).
  - vm_compute. reflexivity.
  - eexists. split; [vm_compute; reflexivity|left].
Defined.

(** Eviction breaks that link: there is a run of the cache in which an
    object on which chained data depends is evicted to make room, then changed,
    and the chained cache still answers with the data derived from its old
    contents. *)
Lemma eviction_leaves_stale_chained :
  ∃ limit ops s c, s = demo_run limit ops ∧ 0 <= limit ∧
    fst (get limit "a" CACHE_FLAG_DATA s) =
      inr (Mk_ObjectCacheInfo 0 CACHE_FLAG_DATA 0 "new" [] [] ObjectMetaInfo_new obj_version_new,
           Mk_entry_info "a" 1) ∧
    oc_heap s !! 0%nat = Some c ∧ chained_find "k" c = Some 42 ∧
    (∃ before after, ops = before ++ after ∧
       chained_find "k" demo_chained = None ∧
       fst (get limit "a" CACHE_FLAG_DATA (demo_run limit before)) =
         inr (Mk_ObjectCacheInfo 0 CACHE_FLAG_DATA 0 "x" [] [] ObjectMetaInfo_new obj_version_new,
              Mk_entry_info "a" 1)).
Proof.
  exists 1, (demo_chain ++ [Op_put "b" (demo_info "y"); Op_put "c" (demo_info "z"); Op_put "a" (demo_info "new")]).
  eexists _, _. split; [reflexivity|]. split; [lia|]. split; [vm_compute; reflexivity|].
  split; [vm_compute; reflexivity|]. split; [vm_compute; reflexivity|].
  exists demo_chain, [Op_put "b" (demo_info "y"); Op_put "c" (demo_info "z"); Op_put "a" (demo_info "new")].
  split; [reflexivity|]. split; [reflexivity|vm_compute; reflexivity].
Qed.

(** Invalidating the whole cache empties it and every registered chained
    cache; but it also sets the promotion window to 0, and no operation of the
    cache short of a new [set_ctx] ever restores it. *)
Lemma invalidate_all_spec {C V} `{ChainedCache C V} (find : str → C → option V)
    `{!ChainedCacheOk C V find} limit (s : ObjectCache C) i c key (op : cache_op V) :
  i ∈ oc_chained_cache s → op ≠ Op_set_ctx →
  let s' := invalidate_all s in
  oc_map s' = [] ∧ oc_lru s' = [] ∧ (oc_heap s' !! i = Some c → find key c = None) ∧
  oc_lru_window s' = 0 ∧
  (∀ t : ObjectCache C, oc_lru_window t = 0 → oc_lru_window (cache_step limit t op) = 0).
Proof.
  intros Hin Hop s'. split_and!; [done|done| |done|].
  - cbn. revert Hin. generalize (oc_heap s). generalize (oc_chained_cache s) as l.
    induction l as [|j l IH]; intros h; [by intros ?%not_elem_of_nil|].
    intros [->|Hin]%elem_of_cons; cbn; [|by apply IH].
    apply (fold_invalidate_all_keep find). intros c'. rewrite list_lookup_alter_eq.
    destruct (h !! j); cbn; [|done]. intros [= <-]. apply find_invalidate_all.
  - intros t Ht. destruct op; cbn [cache_step]; try done.
    + unfold get_promote. destruct (mfind _ _); [|done]. cbn. destruct (needs_promotion _ _); [|done].
      by rewrite touch_lru_window.
    + by rewrite put_window.
    + unfold remove. destruct (oc_enabled t); [|done]. destruct (mfind _ _) as [e|]; [|done].
      unfold remove_lru. by destruct (ce_lru_iter e).
    + unfold chain_cache_entry. destruct (oc_enabled t); [|done]. by destruct (verify_entries _ _).
    + unfold set_enabled. by destruct status.
Qed.

Lemma invalidate_all_spec_witness :
  let s' := invalidate_all (demo_run 5 demo_chain) in
  oc_map s' = [] ∧ oc_lru s' = [] ∧
  (oc_heap s' !! 0%nat = Some (Mk_chained [] I) → chained_find "k" (Mk_chained [] I : RGWChainedCacheImpl Z) = None) ∧
  oc_lru_window s' = 0 ∧
  (∀ t : ObjectCache (RGWChainedCacheImpl Z), oc_lru_window t = 0 →
     oc_lru_window (cache_step 5 t (Op_set_enabled true : cache_op Z)) = 0).
Proof.
  apply (invalidate_all_spec chained_find 5 (demo_run 5 demo_chain) 0 _ "k" (Op_set_enabled true)).
  - vm_compute. left.
  - done.
Defined.
