(* ===== verification/Records.v ===== *)
(** * Users, buckets and quotas ([src/src/rgw/porting_common.h], [porting_quota.h])

    The records the gateway keeps in the store about users and buckets, with
    their encodings.  Some members live in memory only: decoding leaves them as
    they were, which [into] functions state. *)

From S2P Require Import Prelude StdMap Encoding Utime CString ObjectCache RgwObj.

(** ** Keys, subusers, capabilities *)

Record RGWAccessKey := Mk_RGWAccessKey { ak_id : str; ak_key : str; ak_subuser : str }.
Definition RGWAccessKey_new : RGWAccessKey := Mk_RGWAccessKey [] [] [].
Definition encode_RGWAccessKey (x : RGWAccessKey) : E :=
  ENCODE 2 2 (enc string_c (ak_id x) >>> enc string_c (ak_key x) >>> enc string_c (ak_subuser x)).
Definition decode_RGWAccessKey (x0 : RGWAccessKey) : D RGWAccessKey :=
  DECODE_LEGACY_32 2 2 2 (λ struct_v,
    v_id ← dec string_c (ak_id x0);
    v_key ← dec string_c (ak_key x0);
    v_subuser ← dec string_c (ak_subuser x0);
    mret (Mk_RGWAccessKey v_id v_key v_subuser)).
Definition wf_RGWAccessKey (x : RGWAccessKey) : Prop :=
  wf string_c (ak_id x) ∧ wf string_c (ak_key x) ∧ wf string_c (ak_subuser x).
Definition RGWAccessKey_c : codec RGWAccessKey :=
  Codec encode_RGWAccessKey decode_RGWAccessKey wf_RGWAccessKey.

Record RGWSubUser := Mk_RGWSubUser { su_name : str; su_perm_mask : Z }.
Definition RGWSubUser_new : RGWSubUser := Mk_RGWSubUser [] 0.
Definition encode_RGWSubUser (x : RGWSubUser) : E :=
  ENCODE 2 2 (enc string_c (su_name x) >>> enc u32_c (su_perm_mask x)).
Definition decode_RGWSubUser (x0 : RGWSubUser) : D RGWSubUser :=
  DECODE_LEGACY_32 2 2 2 (λ struct_v,
    v_name ← dec string_c (su_name x0);
    v_perm_mask ← dec u32_c (su_perm_mask x0);
    mret (Mk_RGWSubUser v_name v_perm_mask)).
Definition wf_RGWSubUser (x : RGWSubUser) : Prop := wf string_c (su_name x) ∧ wf u32_c (su_perm_mask x).
Definition RGWSubUser_c : codec RGWSubUser := Codec encode_RGWSubUser decode_RGWSubUser wf_RGWSubUser.

Record RGWUserCaps := Mk_RGWUserCaps { uc_caps : list (str * Z) }.
Definition RGWUserCaps_new : RGWUserCaps := Mk_RGWUserCaps [].
Definition encode_RGWUserCaps (x : RGWUserCaps) : E :=
  ENCODE 1 1 (enc (map_c [] 0 string_c u32_c) (uc_caps x)).
Definition decode_RGWUserCaps (x0 : RGWUserCaps) : D RGWUserCaps :=
  DECODE 1 (λ struct_v,
    v_caps ← dec (map_c [] 0 string_c u32_c) (uc_caps x0);
    mret (Mk_RGWUserCaps v_caps)).
Definition wf_RGWUserCaps (x : RGWUserCaps) : Prop := wf (map_c [] 0 string_c u32_c) (uc_caps x).
Definition RGWUserCaps_c : codec RGWUserCaps := Codec encode_RGWUserCaps decode_RGWUserCaps wf_RGWUserCaps.

(** ** Quotas *)

Record RGWQuotaInfo := Mk_RGWQuotaInfo {
  qi_max_size_kb : Z;
  qi_max_objects : Z;
  qi_enabled : bool;
  qi_max_size_soft_threshold : Z;
  qi_max_objs_soft_threshold : Z
}.
Definition RGWQuotaInfo_new : RGWQuotaInfo := Mk_RGWQuotaInfo (-1) (-1) false (-1) (-1).
Definition encode_RGWQuotaInfo (x : RGWQuotaInfo) : E :=
  ENCODE 1 1 (enc s64_c (qi_max_size_kb x) >>> enc s64_c (qi_max_objects x) >>> enc bool_c (qi_enabled x)).
Definition decode_RGWQuotaInfo (x0 : RGWQuotaInfo) : D RGWQuotaInfo :=
  DECODE 1 (λ struct_v,
    v_max_size_kb ← dec s64_c (qi_max_size_kb x0);
    v_max_objects ← dec s64_c (qi_max_objects x0);
    v_enabled ← dec bool_c (qi_enabled x0);
    mret (Mk_RGWQuotaInfo v_max_size_kb v_max_objects v_enabled
            (qi_max_size_soft_threshold x0) (qi_max_objs_soft_threshold x0))).
Definition wf_RGWQuotaInfo (x : RGWQuotaInfo) : Prop :=
  wf s64_c (qi_max_size_kb x) ∧ wf s64_c (qi_max_objects x) ∧ wf bool_c (qi_enabled x).
Definition RGWQuotaInfo_c : codec RGWQuotaInfo :=
  Codec encode_RGWQuotaInfo decode_RGWQuotaInfo wf_RGWQuotaInfo.
Definition quota_into (x x0 : RGWQuotaInfo) : RGWQuotaInfo :=
  Mk_RGWQuotaInfo (qi_max_size_kb x) (qi_max_objects x) (qi_enabled x)
    (qi_max_size_soft_threshold x0) (qi_max_objs_soft_threshold x0).

(** ** Users *)

Definition RGW_DEFAULT_MAX_BUCKETS : Z := 1000.
Definition CEPH_AUTH_UID_DEFAULT : Z := u64 (-1).

Record RGWUserInfo := Mk_RGWUserInfo {
  ui_auid : Z;
  ui_user_id : str;
  ui_display_name : str;
  ui_user_email : str;
  ui_access_keys : list (str * RGWAccessKey);
  ui_swift_keys : list (str * RGWAccessKey);
  ui_subusers : list (str * RGWSubUser);
  ui_suspended : Z;
  ui_max_buckets : Z;
  ui_op_mask : Z;
  ui_caps : RGWUserCaps;
  ui_system : Z;
  ui_default_placement : str;
  ui_placement_tags : list str;
  ui_bucket_quota : RGWQuotaInfo;
  ui_temp_url_keys : list (Z * str);
  ui_user_quota : RGWQuotaInfo
}.
Definition RGWUserInfo_new : RGWUserInfo :=
  Mk_RGWUserInfo 0 [] [] [] [] [] [] 0 RGW_DEFAULT_MAX_BUCKETS RGW_OP_TYPE_ALL RGWUserCaps_new 0 [] []
    RGWQuotaInfo_new [] RGWQuotaInfo_new.

Abbreviation keys_c := (map_c [] RGWAccessKey_new string_c RGWAccessKey_c).
Abbreviation subusers_c := (map_c [] RGWSubUser_new string_c RGWSubUser_c).
Abbreviation tags_c := (list_c [] string_c).
Abbreviation temp_url_keys_c := (map_c 0 [] s32_c string_c).

(** The first key of a map, for readers from before there were several. *)
Definition first_key (m : list (str * RGWAccessKey)) : RGWAccessKey :=
  match m with [] => RGWAccessKey_new | (_, k) :: _ => k end.

Definition encode_RGWUserInfo (x : RGWUserInfo) : E :=
  ENCODE 16 9
    (enc u64_c (ui_auid x) >>>
     enc string_c (ak_id (first_key (ui_access_keys x))) >>>
     enc string_c (ak_key (first_key (ui_access_keys x))) >>>
     enc string_c (ui_display_name x) >>>
     enc string_c (ui_user_email x) >>>
     enc string_c (ak_id (first_key (ui_swift_keys x))) >>>
     enc string_c (ak_key (first_key (ui_swift_keys x))) >>>
     enc string_c (ui_user_id x) >>>
     enc keys_c (ui_access_keys x) >>>
     enc subusers_c (ui_subusers x) >>>
     enc u8_c (ui_suspended x) >>>
     enc keys_c (ui_swift_keys x) >>>
     enc u32_c (ui_max_buckets x) >>>
     enc RGWUserCaps_c (ui_caps x) >>>
     enc u32_c (ui_op_mask x) >>>
     enc u8_c (ui_system x) >>>
     enc string_c (ui_default_placement x) >>>
     enc tags_c (ui_placement_tags x) >>>
     enc RGWQuotaInfo_c (ui_bucket_quota x) >>>
     enc temp_url_keys_c (ui_temp_url_keys x) >>>
     enc RGWQuotaInfo_c (ui_user_quota x)).

Definition decode_RGWUserInfo (x0 : RGWUserInfo) : D RGWUserInfo :=
  DECODE_LEGACY_32 16 9 9 (λ struct_v,
    v_auid ← (if struct_v >=? 2 then dec u64_c (ui_auid x0) else mret CEPH_AUTH_UID_DEFAULT);
    access_key ← dec string_c [];
    secret_key ← dec string_c [];
    v_access_keys ← mret (if struct_v <? 6
                          then mset access_key (Mk_RGWAccessKey access_key secret_key []) (ui_access_keys x0)
                          else ui_access_keys x0);
    v_display_name ← dec string_c (ui_display_name x0);
    v_user_email ← dec string_c (ui_user_email x0);
    swift_name ← (if struct_v >=? 3 then dec string_c [] else mret []);
    swift_key ← (if struct_v >=? 4 then dec string_c [] else mret []);
    v_user_id ← (if struct_v >=? 5 then dec string_c (ui_user_id x0) else mret access_key);
    v_access_keys ← (if struct_v >=? 6 then dec keys_c v_access_keys else mret v_access_keys);
    v_subusers ← (if struct_v >=? 6 then dec subusers_c (ui_subusers x0) else mret (ui_subusers x0));
    v_suspended ← (if struct_v >=? 7 then dec u8_c 0 else mret 0);
    v_swift_keys ← (if struct_v >=? 8 then dec keys_c (ui_swift_keys x0) else mret (ui_swift_keys x0));
    v_max_buckets ← (if struct_v >=? 10 then dec u32_c (ui_max_buckets x0) else mret RGW_DEFAULT_MAX_BUCKETS);
    v_caps ← (if struct_v >=? 11 then dec RGWUserCaps_c (ui_caps x0) else mret (ui_caps x0));
    v_op_mask ← (if struct_v >=? 12 then dec u32_c (ui_op_mask x0) else mret RGW_OP_TYPE_ALL);
    v_system ← (if struct_v >=? 13 then dec u8_c 0 else mret 0);
    v_default_placement ← (if struct_v >=? 13 then dec string_c (ui_default_placement x0)
                           else mret (ui_default_placement x0));
    v_placement_tags ← (if struct_v >=? 13 then dec tags_c (ui_placement_tags x0)
                        else mret (ui_placement_tags x0));
    v_bucket_quota ← (if struct_v >=? 14 then dec RGWQuotaInfo_c (ui_bucket_quota x0)
                      else mret (ui_bucket_quota x0));
    v_temp_url_keys ← (if struct_v >=? 15 then dec temp_url_keys_c (ui_temp_url_keys x0)
                       else mret (ui_temp_url_keys x0));
    v_user_quota ← (if struct_v >=? 16 then dec RGWQuotaInfo_c (ui_user_quota x0)
                    else mret (ui_user_quota x0));
    mret (Mk_RGWUserInfo v_auid v_user_id v_display_name v_user_email v_access_keys v_swift_keys
            v_subusers v_suspended v_max_buckets v_op_mask v_caps v_system v_default_placement
            v_placement_tags v_bucket_quota v_temp_url_keys v_user_quota)).

Definition wf_RGWUserInfo (x : RGWUserInfo) : Prop :=
  wf u64_c (ui_auid x) ∧
  wf string_c (ak_id (first_key (ui_access_keys x))) ∧
  wf string_c (ak_key (first_key (ui_access_keys x))) ∧
  wf string_c (ui_display_name x) ∧
  wf string_c (ui_user_email x) ∧
  wf string_c (ak_id (first_key (ui_swift_keys x))) ∧
  wf string_c (ak_key (first_key (ui_swift_keys x))) ∧
  wf string_c (ui_user_id x) ∧
  wf keys_c (ui_access_keys x) ∧
  wf subusers_c (ui_subusers x) ∧
  wf u8_c (ui_suspended x) ∧
  wf keys_c (ui_swift_keys x) ∧
  wf u32_c (ui_max_buckets x) ∧
  wf RGWUserCaps_c (ui_caps x) ∧
  wf u32_c (ui_op_mask x) ∧
  wf u8_c (ui_system x) ∧
  wf string_c (ui_default_placement x) ∧
  wf tags_c (ui_placement_tags x) ∧
  wf RGWQuotaInfo_c (ui_bucket_quota x) ∧
  wf temp_url_keys_c (ui_temp_url_keys x) ∧
  wf RGWQuotaInfo_c (ui_user_quota x).
Definition RGWUserInfo_c : codec RGWUserInfo := Codec encode_RGWUserInfo decode_RGWUserInfo wf_RGWUserInfo.

(** What a decoder makes of an encoded user: the soft thresholds stay. *)
Definition user_into (x x0 : RGWUserInfo) : RGWUserInfo :=
  Mk_RGWUserInfo (ui_auid x) (ui_user_id x) (ui_display_name x) (ui_user_email x) (ui_access_keys x)
    (ui_swift_keys x) (ui_subusers x) (ui_suspended x) (ui_max_buckets x) (ui_op_mask x) (ui_caps x)
    (ui_system x) (ui_default_placement x) (ui_placement_tags x)
    (quota_into (ui_bucket_quota x) (ui_bucket_quota x0)) (ui_temp_url_keys x)
    (quota_into (ui_user_quota x) (ui_user_quota x0)).

(** [RGWUserInfo::clear] *)
Definition user_clear (x : RGWUserInfo) : RGWUserInfo :=
  Mk_RGWUserInfo CEPH_AUTH_UID_DEFAULT [] [] [] [] (ui_swift_keys x) (ui_subusers x) 0 (ui_max_buckets x)
    (ui_op_mask x) (ui_caps x) (ui_system x) (ui_default_placement x) (ui_placement_tags x)
    (ui_bucket_quota x) (ui_temp_url_keys x) (ui_user_quota x).

(** ** Versions *)

Record RGWObjVersionTracker := Mk_tracker { vt_read_version : obj_version; vt_write_version : obj_version }.
Definition RGWObjVersionTracker_new : RGWObjVersionTracker := Mk_tracker obj_version_new obj_version_new.
Definition version_for_read (t : RGWObjVersionTracker) : obj_version := vt_read_version t.
Definition version_for_write (t : RGWObjVersionTracker) : option obj_version :=
  if ov_ver (vt_write_version t) =? 0 then None else Some (vt_write_version t).
Definition version_for_check (t : RGWObjVersionTracker) : option obj_version :=
  if ov_ver (vt_read_version t) =? 0 then None else Some (vt_read_version t).
Definition apply_write (t : RGWObjVersionTracker) : RGWObjVersionTracker :=
  Mk_tracker (vt_write_version t) obj_version_new.
Definition tracker_clear (_ : RGWObjVersionTracker) : RGWObjVersionTracker :=
  Mk_tracker obj_version_new obj_version_new.

(** ** Buckets *)

Record RGWBucketEnt := Mk_RGWBucketEnt {
  be_bucket : rgw_bucket;
  be_size : Z;
  be_size_rounded : Z;
  be_creation_time : Z;
  be_count : Z
}.
Definition RGWBucketEnt_new : RGWBucketEnt := Mk_RGWBucketEnt rgw_bucket_new 0 0 0 0.
Definition encode_RGWBucketEnt (x : RGWBucketEnt) : E :=
  ENCODE 5 5
    (enc string_c [] >>>
     enc u64_c (be_size x) >>>
     enc u32_c (u32 (be_creation_time x)) >>>
     enc u64_c (be_count x) >>>
     enc rgw_bucket_c (be_bucket x) >>>
     enc u64_c (be_size_rounded x)).
Definition decode_RGWBucketEnt (x0 : RGWBucketEnt) : D RGWBucketEnt :=
  DECODE_LEGACY 5 5 5 (λ struct_v,
    empty_str ← dec string_c [];
    v_size ← dec u64_c 0;
    v_creation_time ← dec u32_c 0;
    v_count ← (if struct_v >=? 2 then dec u64_c (be_count x0) else mret (be_count x0));
    v_bucket ← (if struct_v >=? 3 then dec rgw_bucket_c (be_bucket x0) else mret (be_bucket x0));
    v_size_rounded ← (if struct_v >=? 4 then dec u64_c v_size else mret v_size);
    mret (Mk_RGWBucketEnt v_bucket v_size v_size_rounded v_creation_time v_count)).
Definition wf_RGWBucketEnt (x : RGWBucketEnt) : Prop :=
  wf u64_c (be_size x) ∧ (0 <= be_creation_time x < 2 ^ 32) ∧ wf u64_c (be_count x) ∧
  wf rgw_bucket_c (be_bucket x) ∧ wf u64_c (be_size_rounded x).
Definition RGWBucketEnt_c : codec RGWBucketEnt := Codec encode_RGWBucketEnt decode_RGWBucketEnt wf_RGWBucketEnt.
Definition bucket_ent_into (x x0 : RGWBucketEnt) : RGWBucketEnt :=
  Mk_RGWBucketEnt (bucket_into (be_bucket x) (be_bucket x0)) (be_size x) (be_size_rounded x)
    (be_creation_time x) (be_count x).

Definition BUCKET_SUSPENDED : Z := 1.
Definition BUCKET_VERSIONED : Z := 2.
Definition BUCKET_VERSIONS_SUSPENDED : Z := 4.

Record RGWBucketInfo := Mk_RGWBucketInfo {
  bi_bucket : rgw_bucket;
  bi_owner : str;
  bi_flags : Z;
  bi_region : str;
  bi_creation_time : Z;
  bi_placement_rule : str;
  bi_has_instance_obj : bool;
  bi_objv_tracker : RGWObjVersionTracker;
  bi_ep_objv : obj_version;
  bi_quota : RGWQuotaInfo;
  bi_num_shards : Z;
  bi_bucket_index_shard_hash_type : Z;
  bi_requester_pays : bool
}.
Definition RGWBucketInfo_new : RGWBucketInfo :=
  Mk_RGWBucketInfo rgw_bucket_new [] 0 [] 0 [] false RGWObjVersionTracker_new obj_version_new
    RGWQuotaInfo_new 0 0 false.
Definition encode_RGWBucketInfo (x : RGWBucketInfo) : E :=
  ENCODE 12 4
    (enc rgw_bucket_c (bi_bucket x) >>>
     enc string_c (bi_owner x) >>>
     enc u32_c (bi_flags x) >>>
     enc string_c (bi_region x) >>>
     enc u64_c (u64 (bi_creation_time x)) >>>
     enc string_c (bi_placement_rule x) >>>
     enc bool_c (bi_has_instance_obj x) >>>
     enc RGWQuotaInfo_c (bi_quota x) >>>
     enc u32_c (bi_num_shards x) >>>
     enc u8_c (bi_bucket_index_shard_hash_type x) >>>
     enc bool_c (bi_requester_pays x)).
Definition decode_RGWBucketInfo_body (x0 : RGWBucketInfo) (struct_v : Z) : D RGWBucketInfo :=
  v_bucket ← dec rgw_bucket_c (bi_bucket x0);
  v_owner ← (if struct_v >=? 2 then dec string_c (bi_owner x0) else mret (bi_owner x0));
  v_flags ← (if struct_v >=? 3 then dec u32_c (bi_flags x0) else mret (bi_flags x0));
  v_region ← (if struct_v >=? 5 then dec string_c (bi_region x0) else mret (bi_region x0));
  v_creation_time ← (if struct_v >=? 6 then ct ← dec u64_c 0; mret (s64 ct) else mret (bi_creation_time x0));
  v_placement_rule ← (if struct_v >=? 7 then dec string_c (bi_placement_rule x0) else mret (bi_placement_rule x0));
  v_has_instance_obj ← (if struct_v >=? 8 then dec bool_c (bi_has_instance_obj x0)
                        else mret (bi_has_instance_obj x0));
  v_quota ← (if struct_v >=? 9 then dec RGWQuotaInfo_c (bi_quota x0) else mret (bi_quota x0));
  v_num_shards ← (if struct_v >=? 10 then dec u32_c (bi_num_shards x0) else mret (bi_num_shards x0));
  v_hash_type ← (if struct_v >=? 11 then dec u8_c (bi_bucket_index_shard_hash_type x0)
                 else mret (bi_bucket_index_shard_hash_type x0));
  v_requester_pays ← (if struct_v >=? 12 then dec bool_c (bi_requester_pays x0) else mret (bi_requester_pays x0));
  mret (Mk_RGWBucketInfo v_bucket v_owner v_flags v_region v_creation_time v_placement_rule
          v_has_instance_obj (bi_objv_tracker x0) (bi_ep_objv x0) v_quota v_num_shards v_hash_type
          v_requester_pays).
Definition decode_RGWBucketInfo (x0 : RGWBucketInfo) : D RGWBucketInfo :=
  DECODE_LEGACY_32 9 4 4 (decode_RGWBucketInfo_body x0).
Definition wf_RGWBucketInfo (x : RGWBucketInfo) : Prop :=
  wf rgw_bucket_c (bi_bucket x) ∧
  wf string_c (bi_owner x) ∧
  wf u32_c (bi_flags x) ∧
  wf string_c (bi_region x) ∧
  (- 2 ^ 63 <= bi_creation_time x < 2 ^ 63) ∧
  wf string_c (bi_placement_rule x) ∧
  wf bool_c (bi_has_instance_obj x) ∧
  wf RGWQuotaInfo_c (bi_quota x) ∧
  wf u32_c (bi_num_shards x) ∧
  wf u8_c (bi_bucket_index_shard_hash_type x) ∧
  wf bool_c (bi_requester_pays x).
Definition RGWBucketInfo_c : codec RGWBucketInfo :=
  Codec encode_RGWBucketInfo decode_RGWBucketInfo wf_RGWBucketInfo.
Definition bucket_info_into (x x0 : RGWBucketInfo) : RGWBucketInfo :=
  Mk_RGWBucketInfo (bucket_into (bi_bucket x) (bi_bucket x0)) (bi_owner x) (bi_flags x) (bi_region x)
    (bi_creation_time x) (bi_placement_rule x) (bi_has_instance_obj x) (bi_objv_tracker x0) (bi_ep_objv x0)
    (quota_into (bi_quota x) (bi_quota x0)) (bi_num_shards x) (bi_bucket_index_shard_hash_type x)
    (bi_requester_pays x).

Definition versioned (x : RGWBucketInfo) : bool := negb (Z.land (bi_flags x) BUCKET_VERSIONED =? 0).
Definition versioning_status (x : RGWBucketInfo) : Z :=
  Z.land (bi_flags x) (Z.lor BUCKET_VERSIONED BUCKET_VERSIONS_SUSPENDED).
Definition versioning_enabled (x : RGWBucketInfo) : bool := versioning_status x =? BUCKET_VERSIONED.

Record RGWBucketEntryPoint := Mk_RGWBucketEntryPoint {
  ep_bucket : rgw_bucket;
  ep_owner : str;
  ep_creation_time : Z;
  ep_linked : bool;
  ep_has_bucket_info : bool;
  ep_old_bucket_info : RGWBucketInfo
}.
Definition RGWBucketEntryPoint_new : RGWBucketEntryPoint :=
  Mk_RGWBucketEntryPoint rgw_bucket_new [] 0 false false RGWBucketInfo_new.
Definition encode_RGWBucketEntryPoint (x : RGWBucketEntryPoint) : E :=
  ENCODE 8 8
    (enc rgw_bucket_c (ep_bucket x) >>>
     enc string_c (ep_owner x) >>>
     enc bool_c (ep_linked x) >>>
     enc u64_c (u64 (ep_creation_time x))).

(** [DECODE_START_LEGACY_COMPAT_LEN_32(v, compatv, lenv, bl)] without its end:
    the version and the end of the block. *)
Definition DECODE_START_32 (v compatv lenv : Z) : D (Z * Z) :=
  struct_v ← decode_raw 1;
  _ ← (if struct_v >=? compatv then
         struct_compat ← decode_raw 1;
         if v <? struct_compat then throw malformed_input else mret tt
       else
         remaining ← get_remaining;
         if remaining <? 3 then throw malformed_input else it_advance 3);
  struct_end ← (if struct_v >=? lenv then decode_struct_end else mret 0);
  mret (struct_v, struct_end).

(** An old entry is the bucket's record itself: it is read from where the entry
    began, by another iterator; [bl] stays behind the header. *)
Definition decode_old_entry (x0 : RGWBucketEntryPoint) (orig_iter : iterator) : D RGWBucketEntryPoint := λ bl,
  match decode_RGWBucketInfo (ep_old_bucket_info x0) orig_iter with
  | inl e => inl e
  | inr (old, _) =>
      inr (Mk_RGWBucketEntryPoint (ep_bucket x0) (ep_owner x0) (ep_creation_time x0) (ep_linked x0)
             true old, bl)
  end.
Definition decode_new_entry (x0 : RGWBucketEntryPoint) : D RGWBucketEntryPoint :=
  v_bucket ← dec rgw_bucket_c (ep_bucket x0);
  v_owner ← dec string_c (ep_owner x0);
  v_linked ← dec bool_c (ep_linked x0);
  ctime ← dec u64_c 0;
  mret (Mk_RGWBucketEntryPoint v_bucket v_owner (s64 ctime) v_linked false (ep_old_bucket_info x0)).
Definition decode_entry_from (x0 : RGWBucketEntryPoint) (orig_iter : iterator) : D RGWBucketEntryPoint :=
  p ← DECODE_START_32 8 4 4;
  if fst p <? 8 then decode_old_entry x0 orig_iter
  else x ← decode_new_entry x0; _ ← DECODE_FINISH (snd p); mret x.
Definition decode_RGWBucketEntryPoint (x0 : RGWBucketEntryPoint) : D RGWBucketEntryPoint := λ orig_iter,
  decode_entry_from x0 orig_iter orig_iter.
Definition wf_RGWBucketEntryPoint (x : RGWBucketEntryPoint) : Prop :=
  wf rgw_bucket_c (ep_bucket x) ∧ wf string_c (ep_owner x) ∧ wf bool_c (ep_linked x) ∧
  (- 2 ^ 63 <= ep_creation_time x < 2 ^ 63).

(** ** Codecs *)

#[export] Instance RGWAccessKey_ok : CodecOk RGWAccessKey_c.
Proof. codec_solve encode_RGWAccessKey decode_RGWAccessKey wf_RGWAccessKey. Qed.

#[export] Instance RGWSubUser_ok : CodecOk RGWSubUser_c.
Proof. codec_solve encode_RGWSubUser decode_RGWSubUser wf_RGWSubUser. Qed.

#[export] Instance RGWUserCaps_ok : CodecOk RGWUserCaps_c.
Proof. codec_solve encode_RGWUserCaps decode_RGWUserCaps wf_RGWUserCaps. Qed.

#[export] Instance RGWQuotaInfo_ok : CodecInto RGWQuotaInfo_c quota_into.
Proof. into_solve encode_RGWQuotaInfo decode_RGWQuotaInfo wf_RGWQuotaInfo quota_into. Qed.

#[export] Instance RGWUserInfo_ok : CodecInto RGWUserInfo_c user_into.
Proof. into_solve encode_RGWUserInfo decode_RGWUserInfo wf_RGWUserInfo user_into. Qed.

Lemma s64_u64 z : - 2 ^ 63 <= z < 2 ^ 63 → s64 (u64 z) = z.
Proof. intros Hz. unfold s64, u64. rewrite sgn_mod by lia. apply sgn_small; lia. Qed.

Lemma wf_u64 z : wf u64_c (u64 z).
Proof. apply (Z.mod_pos_bound z (2 ^ 64)). lia. Qed.
#[local] Hint Resolve wf_u64 : core.

#[export] Instance RGWBucketEnt_ok : CodecInto RGWBucketEnt_c bucket_ent_into.
Proof.
  split; cbn [enc dec wf].
  - intros x. change (appends (encode_RGWBucketEnt x)). unfold encode_RGWBucketEnt. appends_solve.
  - intros x x0 Hwf. change (reads (decode_RGWBucketEnt x0) (encode_RGWBucketEnt x []) (bucket_ent_into x x0)).
    destruct Hwf as (Hs & Ht & Hc & Hb & Hr). unfold encode_RGWBucketEnt, decode_RGWBucketEnt.
    rewrite (Z.mod_small _ _ Ht : u32 (be_creation_time x) = _).
    assert (wf u32_c (be_creation_time x)) by exact Ht. assert (wf string_c []) by done.
    rewrite ENCODE_block by appends_solve.
    rewrite <- (app_nil_r (_ [])). apply reads_DECODE_LEGACY_newer; [lia|lia|lia|lia|lia|].
    version_cbn. reads_solve.
Qed.

#[export] Instance RGWBucketInfo_ok : CodecInto RGWBucketInfo_c bucket_info_into.
Proof.
  split; cbn [enc dec wf].
  - intros x. change (appends (encode_RGWBucketInfo x)). unfold encode_RGWBucketInfo. appends_solve.
  - intros x x0 Hwf. change (reads (decode_RGWBucketInfo x0) (encode_RGWBucketInfo x []) (bucket_info_into x x0)).
    destruct Hwf as (? & ? & ? & ? & Ht & ? & ? & ? & ? & ? & ?).
    unfold encode_RGWBucketInfo, decode_RGWBucketInfo. rewrite ENCODE_block by appends_solve.
    rewrite <- (app_nil_r (_ [])). apply reads_DECODE_LEGACY_32_newer; [lia|lia|lia|lia|lia|].
    unfold decode_RGWBucketInfo_body. version_cbn. reads_solve.
    eapply reads_eq; [|apply reads_ret]. by rewrite s64_u64.
Qed.

(** ** Entry points *)

Lemma encode_entry_appends x : appends (encode_RGWBucketEntryPoint x).
Proof. unfold encode_RGWBucketEntryPoint. appends_solve. Qed.

Definition entry_into (x x0 : RGWBucketEntryPoint) : RGWBucketEntryPoint :=
  Mk_RGWBucketEntryPoint (bucket_into (ep_bucket x) (ep_bucket x0)) (ep_owner x) (ep_creation_time x)
    (ep_linked x) false (ep_old_bucket_info x0).

Lemma reads_new_entry x x0 :
  wf_RGWBucketEntryPoint x →
  reads (decode_new_entry x0)
    ((enc rgw_bucket_c (ep_bucket x) >>> enc string_c (ep_owner x) >>> enc bool_c (ep_linked x) >>>
      enc u64_c (u64 (ep_creation_time x))) []) (entry_into x x0).
Proof.
  intros (? & ? & ? & Ht). unfold decode_new_entry. reads_solve.
  eapply reads_eq; [|apply reads_ret]. by rewrite s64_u64.
Qed.

Lemma entry_reads x x0 :
  wf_RGWBucketEntryPoint x →
  reads (decode_RGWBucketEntryPoint x0) (encode_RGWBucketEntryPoint x []) (entry_into x x0).
Proof.
  intros Hwf. unfold encode_RGWBucketEntryPoint. rewrite ENCODE_block by appends_solve.
  pose proof (reads_new_entry x x0 Hwf) as Hb. set (bs := _ []) in *. clearbody bs.
  intros off rest Hoff Hlen. unfold decode_RGWBucketEntryPoint.
  generalize (It off (block 8 8 bs ++ rest)) at 1. intros orig. revert off rest Hoff Hlen.
  change (reads (decode_entry_from x0 orig) (block 8 8 bs) (entry_into x x0)).
  unfold decode_entry_from, DECODE_START_32, block.
  apply reads_bind_assoc, reads_bind_raw; [cbn; lia|]. version_cbn.
  apply reads_bind_assoc. eapply reads_bind with (x := tt).
  { rewrite <- (app_nil_r (le_bytes 1 8)). apply reads_bind_raw; [cbn; lia|]. apply reads_ret. }
  rewrite <- (app_nil_r bs). apply reads_bind_assoc.
  apply (reads_to_end (decode_new_entry x0)). exact Hb.
Qed.

Lemma decode_start_32_block v compat tl :
  4 <= v < 256 → 0 <= compat <= 8 → zlen tl + 6 < 2 ^ 32 →
  DECODE_START_32 8 4 4 (It 0 (block v compat tl)) = inr ((v, 6 + zlen tl), It 6 tl).
Proof.
  intros Hv Hc Hlen. pose proof (zlen_nonneg tl). unfold DECODE_START_32, block.
  rewrite bind_raw by first [cbn; lia | rewrite ?zlen_app, ?zlen_le_bytes; lia]. rewrite !Z.geb_leb, !(proj2 (Z.leb_le _ v)) by lia.
  unfold mbind at 1, D_bind at 1. rewrite bind_raw by first [cbn; lia | rewrite ?zlen_app, ?zlen_le_bytes; lia].
  rewrite (proj2 (Z.ltb_ge _ _)) by lia. unfold mret at 1, D_ret at 1.
  unfold decode_struct_end, mbind at 1, D_bind at 1.
  assert (u32 (zlen tl) = zlen tl) as -> by (apply Z.mod_small; lia).
  rewrite bind_raw by first [cbn; lia | rewrite ?zlen_app, ?zlen_le_bytes; lia]. unfold mbind, D_bind, get_remaining. cbn [it_rest].
  rewrite Z.gtb_ltb, Z.ltb_irrefl. unfold get_off, mret, D_ret. cbn [it_off].
  assert (u32 (0 + Z.of_nat 1 + Z.of_nat 1 + Z.of_nat 4 + zlen tl) = 6 + zlen tl) as ->
    by (unfold u32; rewrite Z.mod_small; lia).
  reflexivity.
Qed.

(** An entry written by version 4 to 7 is the bucket's record. *)
Lemma entry_old_reads v compat tl x0 y :
  4 <= v < 8 → 0 <= compat <= 8 → zlen tl + 6 < 2 ^ 32 →
  reads (decode_RGWBucketInfo (ep_old_bucket_info x0)) (block v compat tl) y →
  decode_RGWBucketEntryPoint x0 (It 0 (block v compat tl)) =
    inr (Mk_RGWBucketEntryPoint (ep_bucket x0) (ep_owner x0) (ep_creation_time x0) (ep_linked x0) true y,
         It 6 tl).
Proof.
  intros Hv Hc Hlen Hr. unfold decode_RGWBucketEntryPoint, decode_entry_from.
  unfold mbind at 1, D_bind at 1. rewrite decode_start_32_block by lia. cbn [fst].
  rewrite (proj2 (Z.ltb_lt _ _)) by lia. unfold decode_old_entry.
  rewrite (reads_whole _ _ _ Hr); [done|]. unfold block. rewrite !zlen_app, !zlen_le_bytes. lia.
Qed.

(** ** Theorems *)

(** A user's record survives its encoding with everything it holds, the
    keys, subusers, capabilities and quotas included; the soft thresholds of
    the quotas are not stored and keep the value of the object decoded into. *)
Lemma user_roundtrip x x0 :
  wf_RGWUserInfo x → zlen (encode_RGWUserInfo x []) < 2 ^ 32 →
  decode_RGWUserInfo x0 (It 0 (encode_RGWUserInfo x [])) =
    inr (user_into x x0, It (zlen (encode_RGWUserInfo x [])) []).
Proof. intros Hx. apply reads_whole. by apply (into_reads (c := RGWUserInfo_c)). Qed.

Definition demo_user : RGWUserInfo :=
  Mk_RGWUserInfo 7 "joe" "Joe" "joe@example.com"
    [("K1", Mk_RGWAccessKey "K1" "secret" ""); ("K2", Mk_RGWAccessKey "K2" "other" "joe:sub")] []
    [("sub", Mk_RGWSubUser "sub" 3)] 0 1000 7 (Mk_RGWUserCaps [("users", 1)]) 1 "" ["ssd"; "hdd"]
    (Mk_RGWQuotaInfo 1024 (-1) true (-1) (-1)) [(-1, "t"); (2, "u")] RGWQuotaInfo_new.

Lemma user_roundtrip_witness :
  decode_RGWUserInfo RGWUserInfo_new (It 0 (encode_RGWUserInfo demo_user [])) =
    inr (demo_user, It (zlen (encode_RGWUserInfo demo_user [])) []).
Proof.
  apply (user_roundtrip demo_user RGWUserInfo_new); [wf_closed|vm_compute; reflexivity].
Defined.

(** The records of a bucket (its listing entry, its instance and its entry
    point) survive their encodings, creation times before 1970 included; members
    that exist in memory only keep their values. *)
Lemma bucket_records_roundtrip e e0 i i0 p p0 :
  (wf_RGWBucketEnt e → zlen (encode_RGWBucketEnt e []) < 2 ^ 32 →
   decode_RGWBucketEnt e0 (It 0 (encode_RGWBucketEnt e [])) =
     inr (bucket_ent_into e e0, It (zlen (encode_RGWBucketEnt e [])) [])) ∧
  (wf_RGWBucketInfo i → zlen (encode_RGWBucketInfo i []) < 2 ^ 32 →
   decode_RGWBucketInfo i0 (It 0 (encode_RGWBucketInfo i [])) =
     inr (bucket_info_into i i0, It (zlen (encode_RGWBucketInfo i [])) [])) ∧
  (wf_RGWBucketEntryPoint p → zlen (encode_RGWBucketEntryPoint p []) < 2 ^ 32 →
   decode_RGWBucketEntryPoint p0 (It 0 (encode_RGWBucketEntryPoint p [])) =
     inr (entry_into p p0, It (zlen (encode_RGWBucketEntryPoint p [])) [])).
Proof.
  split_and!; intros Hx; apply reads_whole.
  - by apply (into_reads (c := RGWBucketEnt_c)).
  - by apply (into_reads (c := RGWBucketInfo_c)).
  - by apply entry_reads.
Qed.

Definition demo_bucket_info : RGWBucketInfo :=
  Mk_RGWBucketInfo (rgw_bucket_private ".b") "joe" 2 "eu" (-5) "rule" true RGWObjVersionTracker_new
    obj_version_new (Mk_RGWQuotaInfo 10 20 true (-1) (-1)) 4 0 true.

Lemma bucket_records_roundtrip_witness :
  decode_RGWBucketInfo RGWBucketInfo_new (It 0 (encode_RGWBucketInfo demo_bucket_info [])) =
    inr (demo_bucket_info, It (zlen (encode_RGWBucketInfo demo_bucket_info [])) []).
Proof.
  apply (bucket_records_roundtrip RGWBucketEnt_new RGWBucketEnt_new demo_bucket_info RGWBucketInfo_new
           RGWBucketEntryPoint_new RGWBucketEntryPoint_new); [wf_closed|vm_compute; reflexivity].
Defined.

(** The oldest user records (a 32-bit version 1, one key and no user id)
    are still read: the access key becomes the user id and the only key, and
    what did not exist then has its default. *)
Lemma user_v1_legacy access secret name email x0 rest :
  wf string_c access → wf string_c secret → wf string_c name → wf string_c email →
  let bs := enc string_c access [] ++ enc string_c secret [] ++ enc string_c name [] ++ enc string_c email [] in
  4 + zlen bs + zlen rest < 2 ^ 32 →
  decode_RGWUserInfo x0 (It 0 ((le_bytes 4 1 ++ bs) ++ rest)) =
    inr (Mk_RGWUserInfo CEPH_AUTH_UID_DEFAULT access name email
           (mset access (Mk_RGWAccessKey access secret []) (ui_access_keys x0)) (ui_swift_keys x0)
           (ui_subusers x0) 0 RGW_DEFAULT_MAX_BUCKETS RGW_OP_TYPE_ALL (ui_caps x0) 0
           (ui_default_placement x0) (ui_placement_tags x0) (ui_bucket_quota x0) (ui_temp_url_keys x0)
           (ui_user_quota x0), It (4 + zlen bs) rest).
Proof.
  intros Ha Hs Hn He bs Hlen.
  assert (Hz : zlen (le_bytes 4 1 ++ bs) = 4 + zlen bs) by (by rewrite zlen_app, zlen_le_bytes).
  rewrite <- Hz. apply reads_front; [|lia].
  unfold decode_RGWUserInfo. apply reads_DECODE_LEGACY_32_old; [lia|lia|lia|].
  version_cbn. subst bs. rewrite <- (app_nil_r (enc string_c email [])). reads_solve.
Qed.

Lemma user_v1_legacy_witness :
  let bs := enc string_c "K1" [] ++ enc string_c "secret" [] ++ enc string_c "Joe" [] ++ enc string_c "j@x" [] in
  decode_RGWUserInfo RGWUserInfo_new (It 0 ((le_bytes 4 1 ++ bs) ++ [])) =
    inr (Mk_RGWUserInfo (2 ^ 64 - 1) "K1" "Joe" "j@x" [("K1", Mk_RGWAccessKey "K1" "secret" "")] [] []
           0 1000 7 RGWUserCaps_new 0 [] [] RGWQuotaInfo_new [] RGWQuotaInfo_new, It (4 + zlen bs) []).
Proof.
  apply (user_v1_legacy "K1" "secret" "Joe" "j@x" RGWUserInfo_new []);
    [wf_closed..|vm_compute; reflexivity].
Defined.

(** The record of a bucket as version 7 wrote it. *)
Definition bucket_info_v7 (x : RGWBucketInfo) : bytes :=
  (enc rgw_bucket_c (bi_bucket x) >>> enc string_c (bi_owner x) >>> enc u32_c (bi_flags x) >>>
   enc string_c (bi_region x) >>> enc u64_c (u64 (bi_creation_time x)) >>>
   enc string_c (bi_placement_rule x)) [].

(** An entry point written before version 8 is recognized as the bucket's
    record, which is read in full; but the iterator is left behind the six bytes
    of the header, so that a decoder that follows would read the record again. *)
Lemma entry_point_legacy x p0 :
  wf_RGWBucketInfo x → zlen (bucket_info_v7 x) + 6 < 2 ^ 32 →
  ∃ y, decode_RGWBucketEntryPoint p0 (It 0 (block 7 4 (bucket_info_v7 x))) =
         inr (y, It 6 (bucket_info_v7 x)) ∧
       ep_has_bucket_info y = true ∧
       ep_old_bucket_info y =
         Mk_RGWBucketInfo (bucket_into (bi_bucket x) (bi_bucket (ep_old_bucket_info p0))) (bi_owner x)
           (bi_flags x) (bi_region x) (bi_creation_time x) (bi_placement_rule x)
           (bi_has_instance_obj (ep_old_bucket_info p0)) (bi_objv_tracker (ep_old_bucket_info p0))
           (bi_ep_objv (ep_old_bucket_info p0)) (bi_quota (ep_old_bucket_info p0))
           (bi_num_shards (ep_old_bucket_info p0))
           (bi_bucket_index_shard_hash_type (ep_old_bucket_info p0))
           (bi_requester_pays (ep_old_bucket_info p0)).
Proof.
  intros (? & ? & ? & ? & Ht & ? & _) Hlen.
  eexists (Mk_RGWBucketEntryPoint (ep_bucket p0) (ep_owner p0) (ep_creation_time p0) (ep_linked p0) true _).
  split; [|split; reflexivity]. apply entry_old_reads; [lia|lia|done|]. unfold decode_RGWBucketInfo.
  rewrite <- (app_nil_r (bucket_info_v7 x)).
  apply reads_DECODE_LEGACY_32_newer; [lia|lia|lia|lia|lia|].
  unfold decode_RGWBucketInfo_body, bucket_info_v7. version_cbn. reads_solve.
  rewrite s64_u64 by done. apply reads_ret.
Qed.

Lemma entry_point_legacy_witness :
  ∃ y, decode_RGWBucketEntryPoint RGWBucketEntryPoint_new (It 0 (block 7 4 (bucket_info_v7 demo_bucket_info))) =
         inr (y, It 6 (bucket_info_v7 demo_bucket_info)) ∧
       ep_has_bucket_info y = true ∧
       ep_old_bucket_info y =
         Mk_RGWBucketInfo (rgw_bucket_private ".b") "joe" 2 "eu" (-5) "rule" false RGWObjVersionTracker_new
           obj_version_new RGWQuotaInfo_new 0 0 false.
Proof.
  apply (entry_point_legacy demo_bucket_info RGWBucketEntryPoint_new); [wf_closed|vm_compute; reflexivity].
Defined.
