(* ===== verification/RgwCache.v ===== *)
(** * The caching store ([src/src/rgw/rgw_cache.h])

    [RGWCache<T>]: system objects, those in buckets whose name starts with a
    period, are read and written through the object cache of the gateway, and
    every change is announced to the other gateways with a notification that
    their caches apply ([distribute_cache], [watch_cb]).  A call is the sequence of
    its accesses to the cache and to the store, between which others run.  The store [T] is a
    template parameter: the class [SystemStore] has the members [RGWCache] calls,
    [SystemStoreOk] what it needs of them. *)

From S2P Require Import Prelude StdMap Encoding Utime CString RgwObj ObjectCache Records.

(** ** Notifications *)

Definition UPDATE_OBJ : Z := 0.
Definition REMOVE_OBJ : Z := 1.

Record RGWCacheNotifyInfo := Mk_RGWCacheNotifyInfo {
  cn_op : Z;
  cn_obj : rgw_obj;
  cn_obj_info : ObjectCacheInfo;
  cn_ofs : Z;
  cn_ns : str
}.
Definition RGWCacheNotifyInfo_new : RGWCacheNotifyInfo :=
  Mk_RGWCacheNotifyInfo 0 rgw_obj_new ObjectCacheInfo_new 0 [].

Definition rgw_obj_c : codec rgw_obj :=
  Codec encode_rgw_obj decode_rgw_obj (λ x, wf_rgw_obj x ∧ obj_consistent x).

Definition encode_RGWCacheNotifyInfo (x : RGWCacheNotifyInfo) : E :=
  ENCODE 2 2
    (enc u32_c (cn_op x) >>>
     enc rgw_obj_c (cn_obj x) >>>
     enc ObjectCacheInfo_c (cn_obj_info x) >>>
     enc s64_c (cn_ofs x) >>>
     enc string_c (cn_ns x)).
Definition decode_RGWCacheNotifyInfo (x0 : RGWCacheNotifyInfo) : D RGWCacheNotifyInfo :=
  DECODE_LEGACY 2 2 2 (λ struct_v,
    v_op ← dec u32_c (cn_op x0);
    v_obj ← dec rgw_obj_c (cn_obj x0);
    v_obj_info ← dec ObjectCacheInfo_c (cn_obj_info x0);
    v_ofs ← dec s64_c (cn_ofs x0);
    v_ns ← dec string_c (cn_ns x0);
    mret (Mk_RGWCacheNotifyInfo v_op v_obj v_obj_info v_ofs v_ns)).
Definition wf_RGWCacheNotifyInfo (x : RGWCacheNotifyInfo) : Prop :=
  wf u32_c (cn_op x) ∧
  wf rgw_obj_c (cn_obj x) ∧
  wf ObjectCacheInfo_c (cn_obj_info x) ∧
  wf s64_c (cn_ofs x) ∧
  wf string_c (cn_ns x).
Definition RGWCacheNotifyInfo_c : codec RGWCacheNotifyInfo :=
  Codec encode_RGWCacheNotifyInfo decode_RGWCacheNotifyInfo wf_RGWCacheNotifyInfo.

(** ** The store *)

Definition attrs_map : Type := list (str * bytes).
Abbreviation tracker := (option RGWObjVersionTracker).

(** What [raw_obj_stat] stores through its pointers. *)
Record obj_stat := Mk_obj_stat {
  st_size : Z;
  st_mtime : Z;
  st_epoch : Z;
  st_attrs : attrs_map;
  st_first_chunk : option bytes
}.

(** The members of [T]; each returns its result, what it stores through its
    arguments, and the store. *)
Class SystemStore (S : Type) := {
  T_get_system_obj : tracker → rgw_obj → bytes → Z → Z → S → Z * bytes * tracker * S;
  T_raw_obj_stat : rgw_obj → option bytes → tracker → S → Z * obj_stat * tracker * S;
  T_set_attr : rgw_obj → str → bytes → tracker → S → Z * tracker * S;
  T_set_attrs : rgw_obj → attrs_map → option attrs_map → tracker → S → Z * tracker * S;
  T_put_system_obj_impl : rgw_obj → Z → attrs_map → Z → bytes → tracker → Z → S → Z * tracker * S;
  T_put_obj_data : rgw_obj → bytes → Z → bool → S → Z * S;
  T_delete_system_obj : rgw_obj → tracker → S → Z * tracker * S;
  T_distribute : str → bytes → S → Z * S
}.

(** ** [RGWCache<T>] *)

(** [sprintf(buf, "%s+%s", ...)] *)
Definition normal_name (bucket : rgw_bucket) (oid : str) : str := cstr (bk_name bucket) ++ "+" ++ cstr oid.

(** The bucket of an object without a name stays the default one, with an empty
    name. *)
Definition normalize_bucket_and_obj (src_bucket : rgw_bucket) (src_obj : str) : rgw_bucket * str :=
  if negb (bool_decide (src_obj = [])) then (src_bucket, src_obj) else (rgw_bucket_new, bk_name src_bucket).

(** [bucket.name[0] == '.'] *)
Definition is_system (bucket : rgw_bucket) : bool := bool_decide (char_at 0 (bk_name bucket) = "."%char).

(** [info.version] and [CACHE_FLAG_OBJV] from the tracker. *)
Definition write_flags (flags : Z) (t : tracker) : Z :=
  match t with Some _ => Z.lor flags CACHE_FLAG_OBJV | None => flags end.
Definition write_version_of (t : tracker) : obj_version :=
  match t with Some t => vt_write_version t | None => obj_version_new end.

(** What a call gives back: its result, the data, the tracker, what is stored
    through [cache_info], and what [raw_obj_stat] stores. *)
Record reply := Mk_reply {
  rp_ret : Z; rp_data : bytes; rp_tracker : tracker; rp_cache_info : option rgw_cache_entry_info; rp_stat : option obj_stat
}.

(** A call is the sequence of its accesses to the cache, each under the cache's
    lock (the look-up in two, for the lock is given up before it is taken for
    writing), and to the store.  Other calls run between any two of them. *)
Inductive call :=
  | Done (r : reply)
  | C_lookup (name : str) (mask : Z) (k : option (Z + ObjectCacheInfo * rgw_cache_entry_info) → call)
  | C_promote (name : str) (mask : Z) (k : (Z + ObjectCacheInfo * rgw_cache_entry_info) → call)
  | C_put (name : str) (info : ObjectCacheInfo) (k : option rgw_cache_entry_info → call)
  | C_remove (name : str) (k : call)
  | C_distribute (name : str) (bl : bytes) (k : Z → call)
  | T_get (t : tracker) (obj : rgw_obj) (bl : bytes) (ofs end_ : Z) (k : Z → bytes → tracker → call)
  | T_stat (obj : rgw_obj) (first_chunk : option bytes) (t : tracker) (k : Z → obj_stat → tracker → call)
  | T_attr (obj : rgw_obj) (name : str) (bl : bytes) (t : tracker) (k : Z → tracker → call)
  | T_attrs (obj : rgw_obj) (a : attrs_map) (rm : option attrs_map) (t : tracker) (k : Z → tracker → call)
  | T_put (obj : rgw_obj) (size : Z) (a : attrs_map) (flags : Z) (data : bytes) (t : tracker) (mtime : Z)
      (k : Z → tracker → call)
  | T_put_data (obj : rgw_obj) (data : bytes) (ofs : Z) (exclusive : bool) (k : Z → call)
  | T_delete (obj : rgw_obj) (t : tracker) (k : Z → tracker → call).

(** [cache.get] *)
Definition cache_get (name : str) (mask : Z) (k : (Z + ObjectCacheInfo * rgw_cache_entry_info) → call) : call :=
  C_lookup name mask (λ res, match res with Some r => k r | None => C_promote name mask k end).

Definition distribute_cache (name : str) (obj : rgw_obj) (obj_info : ObjectCacheInfo) (op : Z) (k : Z → call) : call :=
  C_distribute name (encode_RGWCacheNotifyInfo (Mk_RGWCacheNotifyInfo op obj obj_info 0 []) []) k.

Definition done (ret : Z) (t : tracker) : call := Done (Mk_reply ret [] t None None).

Definition delete_system_obj (obj : rgw_obj) (objv_tracker : tracker) : call :=
  let '(bucket, oid) := normalize_bucket_and_obj (ro_bucket obj) (ro_object obj) in
  if negb (is_system bucket) then T_delete obj objv_tracker done
  else
    let name := normal_name (ro_bucket obj) (ro_object obj) in
    C_remove name
      (distribute_cache name obj ObjectCacheInfo_new REMOVE_OBJ (λ _, T_delete obj objv_tracker done)).

Definition set_read_version (v : obj_version) (t : RGWObjVersionTracker) : RGWObjVersionTracker :=
  Mk_tracker v (vt_write_version t).

Definition read_version_of (t : tracker) : obj_version :=
  match t with Some t => vt_read_version t | None => obj_version_new end.

Definition get_system_obj (objv_tracker : tracker) (obj : rgw_obj) (obl : bytes) (ofs end_ : Z) : call :=
  let '(bucket, oid) := normalize_bucket_and_obj (ro_bucket obj) (ro_object obj) in
  if negb (is_system bucket) || negb (ofs =? 0) then
    T_get objv_tracker obj obl ofs end_ (λ r obl t, Done (Mk_reply r obl t None None))
  else
    let name := normal_name (ro_bucket obj) oid in
    let flags := write_flags CACHE_FLAG_DATA objv_tracker in
    cache_get name flags (λ res,
      match res with
      | inr (info, ci) =>
          if ci_status info <? 0 then Done (Mk_reply (ci_status info) obl objv_tracker (Some ci) None)
          else Done (Mk_reply (zlen (ci_data info)) (ci_data info) (set_read_version (ci_version info) <$> objv_tracker)
                       (Some ci) None)
      | inl _ =>
          T_get objv_tracker obj obl ofs end_ (λ r obl t,
            if r <? 0 then
              if r =? - ENOENT then
                C_put name (Mk_ObjectCacheInfo r 0 0 [] [] [] ObjectMetaInfo_new obj_version_new)
                  (λ ci, Done (Mk_reply r obl t ci None))
              else Done (Mk_reply r obl t None None)
            else if zlen obl =? end_ + 1 then Done (Mk_reply r obl t None None)
            else
              C_put name (Mk_ObjectCacheInfo 0 flags 0 obl [] [] ObjectMetaInfo_new (read_version_of t))
                (λ ci, Done (Mk_reply r obl t ci None)))
      end).

(** The end of the four writing members: [info] is there when the object is
    cacheable.  An error of the notification is only logged. *)
Definition finish_write (ret : Z) (t : tracker) (info : option ObjectCacheInfo) (name : str) (obj : rgw_obj) : call :=
  match info with
  | None => done ret t
  | Some info =>
      if ret >=? 0 then C_put name info (λ _, distribute_cache name obj info UPDATE_OBJ (λ _, done ret t))
      else C_remove name (done ret t)
  end.

Definition set_attr (obj : rgw_obj) (attr_name : str) (bl : bytes) (objv_tracker : tracker) : call :=
  let '(bucket, oid) := normalize_bucket_and_obj (ro_bucket obj) (ro_object obj) in
  let info :=
    if is_system bucket then
      Some (Mk_ObjectCacheInfo 0 (write_flags CACHE_FLAG_MODIFY_XATTRS objv_tracker) 0 [] [(cstr attr_name, bl)] []
              ObjectMetaInfo_new (write_version_of objv_tracker))
    else None in
  T_attr obj attr_name bl objv_tracker (λ ret t, finish_write ret t info (normal_name bucket oid) obj).

Definition set_attrs (obj : rgw_obj) (attrs : attrs_map) (rmattrs : option attrs_map) (objv_tracker : tracker) : call :=
  let '(bucket, oid) := normalize_bucket_and_obj (ro_bucket obj) (ro_object obj) in
  let info :=
    if is_system bucket then
      Some (Mk_ObjectCacheInfo 0 (write_flags CACHE_FLAG_MODIFY_XATTRS objv_tracker) 0 [] attrs (default [] rmattrs)
              ObjectMetaInfo_new (write_version_of objv_tracker))
    else None in
  T_attrs obj attrs rmattrs objv_tracker (λ ret t, finish_write ret t info (normal_name bucket oid) obj).

Definition put_system_obj_impl (obj : rgw_obj) (size : Z) (attrs : attrs_map) (flags : Z) (data : bytes)
    (objv_tracker : tracker) (set_mtime : Z) : call :=
  let '(bucket, oid) := normalize_bucket_and_obj (ro_bucket obj) (ro_object obj) in
  let info :=
    if is_system bucket then
      Some (Mk_ObjectCacheInfo 0 (write_flags (Z.lor CACHE_FLAG_XATTRS CACHE_FLAG_DATA) objv_tracker) 0 data attrs []
              ObjectMetaInfo_new (write_version_of objv_tracker))
    else None in
  T_put obj size attrs flags data objv_tracker set_mtime
    (λ ret t, finish_write ret t info (normal_name bucket oid) obj).

(** [data] is the [len] bytes. *)
Definition put_obj_data (obj : rgw_obj) (data : bytes) (ofs : Z) (exclusive : bool) : call :=
  let '(bucket, oid) := normalize_bucket_and_obj (ro_bucket obj) (ro_object obj) in
  let info :=
    if is_system bucket && ((ofs =? 0) || (ofs =? -1)) then
      Some (Mk_ObjectCacheInfo 0 CACHE_FLAG_DATA 0 data [] [] (Mk_ObjectMetaInfo (zlen data) 0) obj_version_new)
    else None in
  T_put_data obj data ofs exclusive (λ ret, finish_write ret None info (normal_name bucket oid) obj).

(** On a hit [first_chunk] is left as it is, and the epoch is the one the cache
    keeps. *)
Definition raw_obj_stat (obj : rgw_obj) (first_chunk : option bytes) (objv_tracker : tracker) : call :=
  let '(bucket, oid) := normalize_bucket_and_obj (ro_bucket obj) (ro_object obj) in
  if negb (is_system bucket) then
    T_stat obj first_chunk objv_tracker (λ r st t, Done (Mk_reply r [] t None (Some st)))
  else
    let name := normal_name bucket oid in
    let flags := write_flags (Z.lor CACHE_FLAG_META CACHE_FLAG_XATTRS) objv_tracker in
    cache_get name flags (λ res,
      match res with
      | inr (info, _) =>
          if ci_status info <? 0 then done (ci_status info) objv_tracker
          else Done (Mk_reply 0 [] (set_read_version (ci_version info) <$> objv_tracker) None
                 (Some (Mk_obj_stat (om_size (ci_meta info)) (om_mtime (ci_meta info)) (ci_epoch info)
                          (ci_xattrs info) first_chunk)))
      | inl _ =>
          T_stat obj first_chunk objv_tracker (λ r st t,
            if r <? 0 then
              if r =? - ENOENT then
                C_put name (Mk_ObjectCacheInfo r 0 0 [] (st_attrs st) [] ObjectMetaInfo_new obj_version_new)
                  (λ _, done r t)
              else done r t
            else
              C_put name (Mk_ObjectCacheInfo 0 flags (st_epoch st) [] (st_attrs st) []
                            (Mk_ObjectMetaInfo (st_size st) (st_mtime st)) (read_version_of t))
                (λ _, Done (Mk_reply 0 [] t None (Some st))))
      end).

Section rgw_cache.
Context {C V S : Type} `{ChainedCache C V} `{SystemStore S}.
Variable lru_limit : Z.

Record RGWCache := Mk_RGWCache { rc_cache : ObjectCache C; rc_base : S }.

Definition on_cache (f : ObjectCache C → ObjectCache C) (rc : RGWCache) : RGWCache :=
  Mk_RGWCache (f (rc_cache rc)) (rc_base rc).

(** The next access of a call. *)
Definition call_step (p : call) (rc : RGWCache) : option (call * RGWCache) :=
  let c := rc_cache rc in
  let s := rc_base rc in
  match p with
  | Done _ => None
  | C_lookup name mask k => Some (k (get_read name mask c), rc)
  | C_promote name mask k => let '(res, c) := get_promote lru_limit name mask c in Some (k res, Mk_RGWCache c s)
  | C_put name info k => let '(ci, c) := put lru_limit name info c in Some (k ci, Mk_RGWCache c s)
  | C_remove name k => Some (k, Mk_RGWCache (remove name c) s)
  | C_distribute name bl k => let '(r, s) := T_distribute name bl s in Some (k r, Mk_RGWCache c s)
  | T_get t obj bl ofs e k => let '(r, bl, t, s) := T_get_system_obj t obj bl ofs e s in Some (k r bl t, Mk_RGWCache c s)
  | T_stat obj fc t k => let '(r, st, t, s) := T_raw_obj_stat obj fc t s in Some (k r st t, Mk_RGWCache c s)
  | T_attr obj n bl t k => let '(r, t, s) := T_set_attr obj n bl t s in Some (k r t, Mk_RGWCache c s)
  | T_attrs obj a rm t k => let '(r, t, s) := T_set_attrs obj a rm t s in Some (k r t, Mk_RGWCache c s)
  | T_put obj size a flags data t mt k =>
      let '(r, t, s) := T_put_system_obj_impl obj size a flags data t mt s in Some (k r t, Mk_RGWCache c s)
  | T_put_data obj data ofs ex k => let '(r, s) := T_put_obj_data obj data ofs ex s in Some (k r, Mk_RGWCache c s)
  | T_delete obj t k => let '(r, t, s) := T_delete_system_obj obj t s in Some (k r t, Mk_RGWCache c s)
  end.

(** A call with nothing in between; no call makes more than five accesses. *)
Fixpoint run_call (fuel : nat) (p : call) (rc : RGWCache) : option (reply * RGWCache) :=
  match p, fuel with
  | Done r, _ => Some (r, rc)
  | _, O => None
  | _, Datatypes.S fuel' => '(p, rc) ← call_step p rc; run_call fuel' p rc
  end.

(** A notification that has come in. *)
Definition watch_cb (bl : bytes) (rc : RGWCache) : Z * RGWCache :=
  match decode_RGWCacheNotifyInfo RGWCacheNotifyInfo_new (It 0 bl) with
  | inl _ => (- EIO, rc)
  | inr (info, _) =>
      let '(bucket, oid) := normalize_bucket_and_obj (ro_bucket (cn_obj info)) (ro_object (cn_obj info)) in
      let name := normal_name bucket oid in
      if cn_op info =? UPDATE_OBJ then (0, on_cache (λ c, snd (put lru_limit name (cn_obj_info info) c)) rc)
      else if cn_op info =? REMOVE_OBJ then (0, on_cache (remove name) rc)
      else (- EINVAL, rc)
  end.

(** The cache is set up before the store. *)
Definition init_rados (T_init_rados : S → Z * S) (rc : RGWCache) : Z * RGWCache :=
  let rc := on_cache (set_ctx lru_limit) rc in
  let '(ret, s) := T_init_rados (rc_base rc) in
  (if ret <? 0 then ret else 0, Mk_RGWCache (rc_cache rc) s).

(** The members that only reach the cache. *)
Definition set_cache_enabled (state : bool) : RGWCache → RGWCache := on_cache (set_enabled state).
Definition register_chained_cache (cc : nat) : RGWCache → RGWCache := on_cache (chain_cache cc).
Definition rc_chain_cache_entry (cis : list rgw_cache_entry_info) (cache : nat) (key : str) (data : V) (rc : RGWCache)
    : bool * RGWCache :=
  let '(r, c) := chain_cache_entry cis cache key data (rc_cache rc) in (r, Mk_RGWCache c (rc_base rc)).
End rgw_cache.
Arguments RGWCache : clear implicits.

(** ** What the store promises *)

(** Which object it is: the bucket's name and the object's. *)
Abbreviation obj_id := (str * str)%type.
Definition id_of (obj : rgw_obj) : obj_id := (bk_name (ro_bucket obj), ro_object obj).

(** Of the store only this is relied on: that a read from the start gives the
    data of the object, whole or up to the end asked for; that a write of a whole
    object, or of bytes that cover it, leaves these bytes; and that notifications
    come out as they went in.  Nothing is asked of [raw_obj_stat], of the
    attributes or of deletions. *)
Class SystemStoreOk (S : Type) `{SystemStore S} (view : S → obj_id → option bytes) (log : S → list bytes) : Prop := {
  get_ok : ∀ t obj bl ofs e s r bl' t' s', T_get_system_obj t obj bl ofs e s = (r, bl', t', s') →
    log s' = log s ∧
    (0 <= r → ofs = 0 → ∃ x, view s (id_of obj) = Some x ∧
       bl' = (if e <? 0 then x else take (Z.to_nat (e + 1)) x) ∧ r = zlen bl');
  stat_ok : ∀ obj fc t s r st t' s', T_raw_obj_stat obj fc t s = (r, st, t', s') → log s' = log s;
  set_attr_ok : ∀ obj n bl t s r t' s', T_set_attr obj n bl t s = (r, t', s') → log s' = log s;
  set_attrs_ok : ∀ obj a rm t s r t' s', T_set_attrs obj a rm t s = (r, t', s') → log s' = log s;
  put_ok : ∀ obj size a flags data t mt s r t' s',
    T_put_system_obj_impl obj size a flags data t mt s = (r, t', s') →
    log s' = log s ∧ (0 <= r → view s' (id_of obj) = Some data);
  put_data_ok : ∀ obj data ofs ex s r s', T_put_obj_data obj data ofs ex s = (r, s') →
    log s' = log s ∧
    (0 <= r → ofs = -1 ∨ ofs = 0 ∧ zlen (default [] (view s (id_of obj))) <= zlen data →
     view s' (id_of obj) = Some data);
  delete_ok : ∀ obj t s r t' s', T_delete_system_obj obj t s = (r, t', s') → log s' = log s;
  distribute_ok : ∀ name bl s r s', T_distribute name bl s = (r, s') → log s' = log s ++ [bl]
}.

(** ** Codecs *)

#[export] Instance rgw_obj_into : CodecInto rgw_obj_c obj_into.
Proof.
  split; cbn [enc dec wf].
  - apply encode_rgw_obj_appends.
  - intros x x0 [Hwf Hc]. by apply rgw_obj_reads.
Qed.

Definition notify_into (x x0 : RGWCacheNotifyInfo) : RGWCacheNotifyInfo :=
  Mk_RGWCacheNotifyInfo (cn_op x) (obj_into (cn_obj x) (cn_obj x0)) (cn_obj_info x) (cn_ofs x) (cn_ns x).

#[export] Instance RGWCacheNotifyInfo_into : CodecInto RGWCacheNotifyInfo_c notify_into.
Proof. into_solve encode_RGWCacheNotifyInfo decode_RGWCacheNotifyInfo wf_RGWCacheNotifyInfo notify_into. Qed.
