(* ===== verification/RgwCacheFacts.v ===== *)
(** * What the gateways read through their caches

    Several gateways work on one store, each through its own cache.  The calls of
    all of them run at the same time, one access to a cache or to the store after
    the other in any order, and every notification that was sent may be applied
    by any gateway at any time, late, twice or never.  The invariant says that the
    data a cache holds of an object, and the data a call is about to put into one
    or to announce, are data the store held for that object. *)

From S2P Require Import Prelude StdMap Encoding Utime CString RgwObj ObjectCache ObjectCacheFacts Records RgwCache.

(** ** The data of a cached object *)

Definition bit (i : ObjectCacheInfo) (n : Z) : bool := Z.testbit (ci_flags i) n.

Section put_info_facts.
Variables info target : ObjectCacheInfo.
Hypothesis status_ok : 0 <= ci_status info.

Lemma put_info_eq :
  put_info info target =
  Mk_ObjectCacheInfo (ci_status info)
    (let flags := Z.lor (ci_flags target) (ci_flags info) in
     if negb (bit info 2) && negb (bit info 3) then Z.land flags (Z.lnot CACHE_FLAG_META) else flags)
    (ci_epoch target)
    (if bit info 0 then ci_data info else ci_data target)
    (if bit info 1 then ci_xattrs info
     else if bit info 3 then
       fold_left (λ m p, mset (fst p) (snd p) m) (ci_xattrs info)
         (fold_left (λ m p, merase (fst p) m) (ci_rm_xattrs info) (ci_xattrs target))
     else ci_xattrs target)
    (ci_rm_xattrs target)
    (if bit info 2 then ci_meta info else ci_meta target)
    (if bit info 4 then ci_version info else ci_version target).
Proof using status_ok.
  unfold put_info. rewrite (proj2 (Z.ltb_ge _ _) status_ok). unfold bit. set (fl := ci_flags info).
  rewrite (land_pow2_eqb 0 fl ltac:(lia) : (Z.land fl CACHE_FLAG_DATA =? 0) = _),
    (land_pow2_eqb 1 fl ltac:(lia) : (Z.land fl CACHE_FLAG_XATTRS =? 0) = _),
    (land_pow2_eqb 2 fl ltac:(lia) : (Z.land fl CACHE_FLAG_META =? 0) = _),
    (land_pow2_eqb 3 fl ltac:(lia) : (Z.land fl CACHE_FLAG_MODIFY_XATTRS =? 0) = _),
    (land_pow2_eqb 4 fl ltac:(lia) : (Z.land fl CACHE_FLAG_OBJV =? 0) = _), !negb_involutive.
  cbn zeta. by destruct (Z.testbit fl 2), (Z.testbit fl 3).
Qed.

Lemma put_info_bit n :
  0 <= n → bit (put_info info target) n =
    (bit target n || bit info n) && negb ((n =? 2) && negb (bit info 2) && negb (bit info 3)).
Proof using status_ok.
  intros Hn. unfold bit at 1. rewrite put_info_eq. cbn [ci_flags]. cbv zeta.
  destruct (negb (bit info 2) && negb (bit info 3)) eqn:E.
  - rewrite Z.land_spec, Z.lor_spec, Z.lnot_spec by done. fold (bit target n) (bit info n). f_equal.
    rewrite <- andb_assoc, E, andb_true_r. change CACHE_FLAG_META with (2 ^ 2). f_equal.
    rewrite Z.pow2_bits_eqb by lia. apply Z.eqb_sym.
  - rewrite Z.lor_spec. rewrite <- andb_assoc, E, andb_false_r, andb_true_r. done.
Qed.

End put_info_facts.

(** A [put] leaves the data it brings, or those that were there. *)
Lemma put_info_data info target :
  bit (put_info info target) 0 = true →
  (bit info 0 = true ∧ ci_data (put_info info target) = ci_data info) ∨
  (bit target 0 = true ∧ ci_data (put_info info target) = ci_data target).
Proof.
  destruct (Z.ltb_spec (ci_status info) 0) as [Hs|Hs].
  { unfold put_info. rewrite (proj2 (Z.ltb_lt _ _) Hs). unfold bit. cbn [ci_flags]. by rewrite Z.bits_0. }
  rewrite put_info_bit by lia. cbn [Z.eqb andb negb]. rewrite andb_true_r, put_info_eq by done. cbn [ci_data].
  destruct (bit info 0); [by left|]. rewrite orb_false_r. by right.
Qed.

(** ** The caches *)

Section caches.
Context {C V : Type} `{ChainedCache C V}.
Variable lru_limit : Z.
Hypothesis limit_range : 0 <= lru_limit < 2 ^ 63.
Implicit Types c : ObjectCache C.

(** Everything in [c'] was in [c]. *)
Definition shrinks c c' : Prop :=
  ∀ n e, mfind n (oc_map c') = Some e → ∃ e0, mfind n (oc_map c) = Some e0 ∧ ce_info e0 = ce_info e.

Lemma shrinks_refl c : shrinks c c.
Proof. intros n e He. eauto. Qed.

Lemma touch_shrinks name e c :
  cache_inv lru_limit c → mfind name (oc_map c) = Some e → shrinks c (touch_lru lru_limit name e c).
Proof.
  intros Hi He n e' He'. destruct (touch_lru_find lru_limit limit_range name e c) as (Hn & Ho & _);
    [by apply inv_to_except|]. destruct (decide (n = name)) as [->|Hne].
  - rewrite Hn in He'. injection He' as <-. eauto.
  - destruct (Ho n Hne) as [E|E]; rewrite E in He'; [eauto|done].
Qed.

(** A look-up gives what the cache holds, as far as the flags say. *)
Definition hit name mask c (res : Z + ObjectCacheInfo * rgw_cache_entry_info) : Prop :=
  ∀ info ci, res = inr (info, ci) →
    ∃ e, mfind name (oc_map c) = Some e ∧ info = ce_info e ∧ Z.land (ci_flags info) mask = mask.

Lemma result_hit name mask c e : mfind name (oc_map c) = Some e → hit name mask c (get_result name mask e).
Proof.
  intros He info ci. unfold get_result.
  destruct (Z.eqb_spec (Z.land (ci_flags (ce_info e)) mask) mask); [|done]. intros [= <- <-]. eauto.
Qed.

Lemma read_hit name mask c res : get_read name mask c = Some res → hit name mask c res.
Proof.
  unfold get_read. destruct (negb (oc_enabled c)); [by intros [= <-]|].
  destruct (mfind name (oc_map c)) as [e|] eqn:He; [|by intros [= <-]].
  destruct (needs_promotion c e); [done|]. intros [= <-]. by apply result_hit.
Qed.

Lemma promote_spec name mask c :
  cache_inv lru_limit c →
  let '(res, c') := get_promote lru_limit name mask c in cache_inv lru_limit c' ∧ shrinks c c' ∧ hit name mask c res.
Proof.
  intros Hi. pose proof (get_promote_inv lru_limit limit_range name mask c Hi) as Hi'. unfold get_promote in *.
  destruct (mfind name (oc_map c)) as [e|] eqn:He; [|by split_and!; [|apply shrinks_refl|]].
  split_and!; [done| |by apply result_hit].
  destruct (needs_promotion c e); [by apply touch_shrinks|apply shrinks_refl].
Qed.

Lemma put_infos name info c n e :
  cache_inv lru_limit c → mfind n (oc_map (snd (put lru_limit name info c))) = Some e →
  (n = name ∧ ce_info e = put_info info (ce_info (old_entry name c))) ∨
  (n ≠ name ∧ ∃ e0, mfind n (oc_map c) = Some e0 ∧ ce_info e0 = ce_info e).
Proof.
  intros Hi He. destruct (oc_enabled c) eqn:Hen.
  2:{ unfold put in He. rewrite Hen in He. cbn in He. destruct (inv_disabled _ _ Hi Hen) as [E _].
      by rewrite E in He. }
  rewrite put_eq in He by done. cbn zeta in He. cbn [snd set_map oc_map] in He.
  destruct (decide (n = name)) as [->|Hne].
  - rewrite mfind_mset_eq in He. injection He as <-. by left.
  - right. split; [done|]. rewrite mfind_mset_ne in He by congruence.
    destruct (touch_lru_find lru_limit limit_range _ _ _ (put_except lru_limit name c Hi Hen)) as (_ & Ho & _).
    destruct (Ho n Hne) as [E|E]; rewrite E in He; [|done].
    cbn [put_state set_heap set_map oc_map] in He. rewrite mfind_mset_ne in He by congruence. eauto.
Qed.

Lemma remove_shrinks name c : cache_inv lru_limit c → shrinks c (remove name c).
Proof.
  intros Hi n e. unfold remove. destruct (negb (oc_enabled c)); [eauto|].
  destruct (mfind name (oc_map c)) as [e0|]; [|eauto]. cbn [set_map oc_map].
  unfold remove_lru. intros He.
  assert (He' : mfind n (merase name (oc_map c)) = Some e) by (by destruct (ce_lru_iter e0)).
  destruct (decide (n = name)) as [->|Hne]; [by rewrite mfind_merase_eq in He' by apply Hi|].
  rewrite mfind_merase_ne in He' by congruence. eauto.
Qed.

Lemma chain_one_info ch m ci n e :
  mfind n (chain_one ch m ci) = Some e → ∃ e0, mfind n m = Some e0 ∧ ce_info e0 = ce_info e.
Proof.
  unfold chain_one. destruct (mfind (cei_cache_locator ci) m) as [e1|] eqn:E1; [|eauto].
  destruct (decide (n = cei_cache_locator ci)) as [->|Hne].
  - rewrite mfind_mset_eq. intros [= <-]. eauto.
  - rewrite mfind_mset_ne by congruence. eauto.
Qed.

Lemma chain_all_info ch cis m n e :
  mfind n (fold_left (chain_one ch) cis m) = Some e → ∃ e0, mfind n m = Some e0 ∧ ce_info e0 = ce_info e.
Proof.
  revert m. induction cis as [|ci cis IH]; intros m; cbn [fold_left]; [eauto|].
  intros (e1 & He1 & E1)%IH. destruct (chain_one_info _ _ _ _ _ He1) as (e0 & He0 & E0).
  exists e0. split; [done|congruence].
Qed.

Lemma chain_entry_shrinks cis cache key (data : V) c : shrinks c (snd (chain_cache_entry cis cache key data c)).
Proof.
  unfold chain_cache_entry. destruct (negb (oc_enabled c)); [apply shrinks_refl|].
  destruct (verify_entries cis (oc_map c)); [|apply shrinks_refl]. cbn [snd set_map oc_map set_heap].
  intros n e. apply chain_all_info.
Qed.

Lemma set_enabled_shrinks b c : shrinks c (set_enabled b c).
Proof. intros n e. unfold set_enabled. destruct b; cbn; [eauto|done]. Qed.
End caches.

(** ** Names *)

Definition PLUS : ascii := "+"%char.
Definition id_name (d : obj_id) : str := cstr (fst d) ++ "+" ++ cstr (snd d).

(** The objects whose names the cache can tell apart. *)
Definition safe_id (d : obj_id) : Prop := (NUL ∉ fst d) ∧ (PLUS ∉ fst d) ∧ (NUL ∉ snd d).

Lemma id_name_safe d : safe_id d → id_name d = fst d ++ "+" ++ snd d.
Proof. intros (H1 & _ & H2). unfold id_name. by rewrite !cstr_no_nul. Qed.

Lemma id_name_inj d d' : safe_id d → safe_id d' → id_name d = id_name d' → d = d'.
Proof.
  intros Hd Hd'. rewrite !id_name_safe by done. destruct Hd as (_ & Hp & _), Hd' as (_ & Hp' & _).
  destruct d as [a b], d' as [a' b']. cbn [fst snd] in *. revert a' Hp'.
  induction a as [|x a IH]; intros [|y a'] Hp'; cbn.
  - by intros [= ->].
  - intros [= <- _]. exfalso. apply Hp'. left.
  - intros [= -> _]. exfalso. apply Hp. left.
  - apply not_elem_of_cons in Hp as [_ Hp], Hp' as [_ Hp']. intros [= -> E].
    specialize (IH Hp a' Hp' E). congruence.
Qed.

(** ** Data that were stored *)

Abbreviation contents := (obj_id → option bytes).

(** The store held [x] for the object [d]. *)
Definition held (hist : list contents) (d : obj_id) (x : bytes) : Prop := ∃ h, h ∈ hist ∧ h d = Some x.

Lemma held_mono hist hist' d x : hist ⊆ hist' → held hist d x → held hist' d x.
Proof. intros Hs (h & Hh & Hx). exists h. auto. Qed.

(** What [info] says of the data of an object named [name]. *)
Definition info_held (hist : list contents) (name : str) (info : ObjectCacheInfo) : Prop :=
  ∀ d, safe_id d → id_name d = name → bit info 0 = true → held hist d (ci_data info).

Lemma info_held_mono hist hist' name info : hist ⊆ hist' → info_held hist name info → info_held hist' name info.
Proof. intros Hs Hi d Hd Hn Hb. eapply held_mono; [done|]. by apply Hi. Qed.

Lemma info_held_id hist d info : safe_id d → (bit info 0 = true → held hist d (ci_data info)) → info_held hist (id_name d) info.
Proof. intros Hd Hh d' Hd' Hn Hb. apply id_name_inj in Hn as ->; [|done..]. by apply Hh. Qed.

Definition cache_held {C} (hist : list contents) (c : ObjectCache C) : Prop :=
  ∀ name e, mfind name (oc_map c) = Some e → info_held hist name (ce_info e).

Section cache_facts.
Context {C V : Type} `{ChainedCache C V}.
Variable lru_limit : Z.
Hypothesis limit_range : 0 <= lru_limit < 2 ^ 63.
Implicit Types c : ObjectCache C.

Lemma cache_held_mono hist hist' c : hist ⊆ hist' → cache_held hist c → cache_held hist' c.
Proof. intros Hs Hc name e He. eapply info_held_mono; [done|]. by apply Hc. Qed.

Lemma cache_held_shrinks hist c c' : shrinks c c' → cache_held hist c → cache_held hist c'.
Proof. intros Hsh Hc name e He. destruct (Hsh _ _ He) as (e0 & He0 & <-). by apply Hc. Qed.

Lemma cache_held_put hist c name info :
  cache_inv lru_limit c → cache_held hist c → info_held hist name info →
  cache_held hist (snd (put lru_limit name info c)).
Proof.
  intros Hi Hc Hinfo n e He.
  destruct (put_infos lru_limit limit_range _ _ _ _ _ Hi He) as [[-> ->]|(Hne & e0 & He0 & <-)]; [|by apply Hc].
  intros d Hd Hn Hb. destruct (put_info_data _ _ Hb) as [[H1 ->]|[H1 ->]]; [by apply Hinfo|].
  unfold old_entry in *. destruct (mfind name (oc_map c)) as [e0|] eqn:E0; [|done]. by apply (Hc name e0 E0).
Qed.

Lemma hit_held hist name mask c res info ci :
  cache_held hist c → hit name mask c res → res = inr (info, ci) → info_held hist name info ∧ Z.land (ci_flags info) mask = mask.
Proof. intros Hc Hh ->. destruct (Hh info ci eq_refl) as (e & He & -> & Hm). split; [by apply Hc|done]. Qed.
End cache_facts.

(** ** The calls *)

Inductive gw_op :=
  | G_get (t : tracker) (obj : rgw_obj) (bl : bytes) (ofs end_ : Z)
  | G_stat (obj : rgw_obj) (fc : option bytes) (t : tracker)
  | G_set_attr (obj : rgw_obj) (n : str) (bl : bytes) (t : tracker)
  | G_set_attrs (obj : rgw_obj) (a : attrs_map) (rm : option attrs_map) (t : tracker)
  | G_put (obj : rgw_obj) (size : Z) (a : attrs_map) (flags : Z) (data : bytes) (t : tracker) (mtime : Z)
  | G_put_data (obj : rgw_obj) (data : bytes) (ofs : Z) (exclusive : bool)
  | G_delete (obj : rgw_obj) (t : tracker).

Definition call_of (op : gw_op) : call :=
  match op with
  | G_get t obj bl ofs e => get_system_obj t obj bl ofs e
  | G_stat obj fc t => raw_obj_stat obj fc t
  | G_set_attr obj n bl t => set_attr obj n bl t
  | G_set_attrs obj a rm t => set_attrs obj a rm t
  | G_put obj size a flags data t mt => put_system_obj_impl obj size a flags data t mt
  | G_put_data obj data ofs ex => put_obj_data obj data ofs ex
  | G_delete obj t => delete_system_obj obj t
  end.

(** Objects in system buckets with a name, told apart by the cache, that a
    notification can carry. *)
Definition system_obj (obj : rgw_obj) : Prop :=
  is_system (ro_bucket obj) = true ∧ ro_object obj ≠ [] ∧ safe_id (id_of obj) ∧ wf rgw_obj_c obj.

Definition announces (op : Z) (obj : rgw_obj) (info : ObjectCacheInfo) : Prop :=
  wf ObjectCacheInfo_c info ∧ zlen (encode_RGWCacheNotifyInfo (Mk_RGWCacheNotifyInfo op obj info 0 []) []) < 2 ^ 32.

(** The calls are on system objects, and what they announce fits a message. *)
Definition allowed (op : gw_op) : Prop :=
  match op with
  | G_get _ obj _ _ _ | G_stat obj _ _ => system_obj obj
  | G_set_attr obj n bl t =>
      system_obj obj ∧
      announces UPDATE_OBJ obj (Mk_ObjectCacheInfo 0 (write_flags CACHE_FLAG_MODIFY_XATTRS t) 0 [] [(cstr n, bl)] []
                                  ObjectMetaInfo_new (write_version_of t))
  | G_set_attrs obj a rm t =>
      system_obj obj ∧
      announces UPDATE_OBJ obj (Mk_ObjectCacheInfo 0 (write_flags CACHE_FLAG_MODIFY_XATTRS t) 0 [] a (default [] rm)
                                  ObjectMetaInfo_new (write_version_of t))
  | G_put obj size a flags data t mt =>
      system_obj obj ∧
      announces UPDATE_OBJ obj (Mk_ObjectCacheInfo 0 (write_flags (Z.lor CACHE_FLAG_XATTRS CACHE_FLAG_DATA) t) 0 data a []
                                  ObjectMetaInfo_new (write_version_of t))
  | G_put_data obj data ofs ex =>
      system_obj obj ∧
      announces UPDATE_OBJ obj (Mk_ObjectCacheInfo 0 CACHE_FLAG_DATA 0 data [] [] (Mk_ObjectMetaInfo (zlen data) 0)
                                  obj_version_new)
  | G_delete obj t => system_obj obj ∧ announces REMOVE_OBJ obj ObjectCacheInfo_new
  end.

(** A notification tells of data that were stored. *)
Definition notice_held (hist : list contents) (bl : bytes) : Prop :=
  ∃ op obj info, bl = encode_RGWCacheNotifyInfo (Mk_RGWCacheNotifyInfo op obj info 0 []) [] ∧
    (op = UPDATE_OBJ ∧ info_held hist (id_name (id_of obj)) info ∨ op = REMOVE_OBJ) ∧
    system_obj obj ∧ announces op obj info.

Lemma notice_held_mono hist hist' bl : hist ⊆ hist' → notice_held hist bl → notice_held hist' bl.
Proof.
  intros Hs (op & obj & info & -> & Hop & Hrest). exists op, obj, info. split_and!; try apply Hrest; [done|].
  destruct Hop as [[-> Hi]|Hop]; [left; split; [done|by eapply info_held_mono]|by right].
Qed.

(** What a read of the object [d] up to [e] may give. *)
Definition was_stored (hist : list contents) (d : obj_id) (e r : Z) (bl : bytes) : Prop :=
  ∃ x, held hist d x ∧ (bl = x ∨ 0 <= e ∧ bl = take (Z.to_nat (e + 1)) x) ∧ r = zlen bl.

Definition result_ok (hist : list contents) (op : gw_op) (r : reply) : Prop :=
  match op with
  | G_get _ obj _ ofs e => 0 <= rp_ret r → ofs = 0 → was_stored hist (id_of obj) e (rp_ret r) (rp_data r)
  | _ => True
  end.

(** The rest of a call keeps to data that were stored, whatever the others do
    meanwhile: the history only grows. *)
Fixpoint call_ok (op : gw_op) (hist : list contents) (p : call) : Prop :=
  match p with
  | Done r => result_ok hist op r
  | C_lookup name mask k => ∀ hist' res, hist ⊆ hist' →
      (∀ info ci, res = Some (inr (info, ci)) → info_held hist' name info ∧ Z.land (ci_flags info) mask = mask) →
      call_ok op hist' (k res)
  | C_promote name mask k => ∀ hist' res, hist ⊆ hist' →
      (∀ info ci, res = inr (info, ci) → info_held hist' name info ∧ Z.land (ci_flags info) mask = mask) →
      call_ok op hist' (k res)
  | C_put name info k => info_held hist name info ∧ ∀ hist' ci, hist ⊆ hist' → call_ok op hist' (k ci)
  | C_remove name k => ∀ hist', hist ⊆ hist' → call_ok op hist' k
  | C_distribute name bl k => notice_held hist bl ∧ ∀ hist' r, hist ⊆ hist' → call_ok op hist' (k r)
  | T_get t obj bl ofs e k => ∀ hist' r bl' t', hist ⊆ hist' →
      (0 <= r → ofs = 0 → ∃ x, held hist' (id_of obj) x ∧
         bl' = (if e <? 0 then x else take (Z.to_nat (e + 1)) x) ∧ r = zlen bl') →
      call_ok op hist' (k r bl' t')
  | T_stat obj fc t k => ∀ hist' r st t', hist ⊆ hist' → call_ok op hist' (k r st t')
  | T_attr obj n bl t k => ∀ hist' r t', hist ⊆ hist' → call_ok op hist' (k r t')
  | T_attrs obj a rm t k => ∀ hist' r t', hist ⊆ hist' → call_ok op hist' (k r t')
  | T_put obj size a flags data t mt k => ∀ hist' r t', hist ⊆ hist' →
      (0 <= r → held hist' (id_of obj) data) → call_ok op hist' (k r t')
  | T_put_data obj data ofs ex k => ∀ hist' r, hist ⊆ hist' →
      (0 <= r → ofs = 0 ∨ ofs = -1 → held hist' (id_of obj) data) → call_ok op hist' (k r)
  | T_delete obj t k => ∀ hist' r t', hist ⊆ hist' → call_ok op hist' (k r t')
  end.

Lemma was_stored_mono hist hist' d e r bl : hist ⊆ hist' → was_stored hist d e r bl → was_stored hist' d e r bl.
Proof. intros Hs (x & Hx & Hrest). exists x. split; [by eapply held_mono|done]. Qed.

Lemma call_ok_mono op hist hist' p : hist ⊆ hist' → call_ok op hist p → call_ok op hist' p.
Proof.
  intros Hs. destruct p; cbn [call_ok];
    try (intros Hp; intros; apply Hp; (done || by etrans)).
  - unfold result_ok. destruct op; try done. intros Hr H1 H2. by eapply was_stored_mono, Hr.
  - intros [Hi Hp]. split; [by eapply info_held_mono|]. intros. apply Hp. by etrans.
  - intros [Hi Hp]. split; [by eapply notice_held_mono|]. intros. apply Hp. by etrans.
Qed.

Lemma system_normal obj :
  system_obj obj →
  normalize_bucket_and_obj (ro_bucket obj) (ro_object obj) = (ro_bucket obj, ro_object obj) ∧
  is_system (ro_bucket obj) = true ∧ normal_name (ro_bucket obj) (ro_object obj) = id_name (id_of obj) ∧
  safe_id (id_of obj).
Proof.
  intros (Hsys & Hne & Hsafe & _). unfold normalize_bucket_and_obj.
  by rewrite bool_decide_eq_false_2.
Qed.

Lemma mask_bit f m n : Z.land f m = m → Z.testbit m n = true → Z.testbit f n = true.
Proof. intros E Hm. rewrite <- E, Z.land_spec in Hm. by apply andb_true_iff in Hm as [Hf _]. Qed.

Lemma cache_get_ok op hist name mask k :
  (∀ hist' res, hist ⊆ hist' →
     (∀ info ci, res = inr (info, ci) → info_held hist' name info ∧ Z.land (ci_flags info) mask = mask) →
     call_ok op hist' (k res)) →
  call_ok op hist (cache_get name mask k).
Proof.
  intros Hk. cbn [cache_get call_ok]. intros hist' [res|] Hs Hres.
  - apply Hk; [done|]. intros info ci ->. by apply (Hres info ci).
  - cbn [call_ok]. intros hist2 res Hs2 Hres2. apply Hk; [by etrans|done].
Qed.

Lemma get_call_ok hist t obj bl ofs e : system_obj obj → call_ok (G_get t obj bl ofs e) hist (get_system_obj t obj bl ofs e).
Proof.
  intros Hobj. destruct (system_normal obj Hobj) as (Hnb & Hsys & Hname & Hsafe).
  unfold get_system_obj. rewrite Hnb, Hsys. cbn [negb orb].
  assert (Hread : ∀ hist' r bl', (0 <= r → ofs = 0 → ∃ x, held hist' (id_of obj) x ∧
      bl' = (if e <? 0 then x else take (Z.to_nat (e + 1)) x) ∧ r = zlen bl') →
      0 <= r → ofs = 0 → was_stored hist' (id_of obj) e r bl').
  { intros hist' r bl' Hr H1 H2. destruct (Hr H1 H2) as (x & Hx & -> & ->). exists x. split_and!; [done| |done].
    destruct (Z.ltb_spec e 0); auto. }
  destruct (Z.eqb_spec ofs 0) as [->|Hofs]; cbn [negb].
  2:{ cbn [call_ok]. intros hist' r bl' t' _ _ _ E. by destruct (Hofs E). }
  rewrite Hname. apply cache_get_ok. intros hist1 res Hs1 Hres. destruct res as [err|[info ci]].
  2:{ destruct (Hres info ci eq_refl) as [Hi Hm]. destruct (Z.ltb_spec (ci_status info) 0); cbn [call_ok result_ok rp_ret rp_data]; [lia|].
      intros _ _. exists (ci_data info). split_and!; [|by left|done]. apply Hi; [done|done|].
      unfold bit. apply (mask_bit _ _ 0 Hm). by destruct t. }
  cbn [call_ok]. intros hist2 r bl' t' Hs2 Hr. specialize (Hread hist2 r bl' Hr).
  destruct (Z.ltb_spec r 0) as [Hneg|Hpos].
  { destruct (r =? - ENOENT); cbn [call_ok result_ok rp_ret]; [|lia]. split; [by intros d _ _|]. lia. }
  destruct (Z.eqb_spec (zlen bl') (e + 1)) as [|Hne]; [done|]. cbn [call_ok result_ok rp_ret rp_data]. split.
  - apply info_held_id; [done|]. intros _. cbn [ci_data]. destruct (Hr Hpos eq_refl) as (x & Hx & Hbl & _).
    assert (bl' = x) as ->; [|done]. destruct (Z.ltb_spec e 0); [done|]. rewrite Hbl, take_ge; [done|].
    rewrite Hbl in Hne. unfold zlen in Hne. rewrite length_take in Hne. lia.
  - intros hist3 _ Hs3 H1 H2. by eapply was_stored_mono, Hread.
Qed.

Lemma stat_call_ok hist obj fc t : system_obj obj → call_ok (G_stat obj fc t) hist (raw_obj_stat obj fc t).
Proof.
  intros Hobj. destruct (system_normal obj Hobj) as (Hnb & Hsys & Hname & Hsafe).
  unfold raw_obj_stat. rewrite Hnb, Hsys. cbn [negb]. rewrite Hname. apply cache_get_ok. intros hist1 res _ _.
  destruct res as [err|[info ci]]; [|by destruct (ci_status info <? 0)]. cbn [call_ok]. intros hist2 r st t' _.
  destruct (r <? 0); [destruct (r =? - ENOENT)|]; cbn [call_ok]; [by split; [intros d _ _|]|done|].
  split; [|done]. intros d _ _. unfold bit. by destruct t.
Qed.

(** The end of a write that keeps the data, or leaves [info]'s. *)
Lemma finish_write_ok op hist ret t info obj :
  system_obj obj → announces UPDATE_OBJ obj info →
  match op with G_get _ _ _ _ _ => False | _ => True end →
  (0 <= ret → bit info 0 = true → held hist (id_of obj) (ci_data info)) →
  call_ok op hist (finish_write ret t (Some info) (id_name (id_of obj)) obj).
Proof.
  intros Hobj Hann Hop Hh. destruct (system_normal obj Hobj) as (_ & _ & _ & Hsafe).
  assert (Hdone : ∀ hist' r, result_ok hist' op r) by (by destruct op). unfold finish_write.
  destruct (Z.geb_spec ret 0) as [Hret|Hret]; cbn [call_ok distribute_cache done].
  - assert (Hinfo : info_held hist (id_name (id_of obj)) info) by (apply info_held_id; [done|]; auto with lia).
    split; [done|]. intros hist1 ci Hs1. split; [|intros; apply Hdone].
    exists UPDATE_OBJ, obj, info. split_and!; try done. left. split; [done|by eapply info_held_mono].
  - intros. apply Hdone.
Qed.

Lemma no_data_flag t : Z.testbit (write_flags CACHE_FLAG_MODIFY_XATTRS t) 0 = false.
Proof. by destruct t. Qed.

Lemma call_starts_ok op hist : allowed op → call_ok op hist (call_of op).
Proof.
  destruct op as [t obj bl ofs e|obj fc t|obj n bl t|obj a rm t|obj size a flags data t mt|obj data ofs ex|obj t];
    cbn [allowed call_of].
  - apply get_call_ok.
  - apply stat_call_ok.
  - intros [Hobj Hann]. destruct (system_normal obj Hobj) as (Hnb & Hsys & Hname & _).
    unfold set_attr. rewrite Hnb, Hsys, Hname. cbn [call_ok]. intros hist' r t' Hs.
    apply finish_write_ok; try done. intros _. unfold bit. cbn [ci_flags]. by rewrite no_data_flag.
  - intros [Hobj Hann]. destruct (system_normal obj Hobj) as (Hnb & Hsys & Hname & _).
    unfold set_attrs. rewrite Hnb, Hsys, Hname. cbn [call_ok]. intros hist' r t' Hs.
    apply finish_write_ok; try done. intros _. unfold bit. cbn [ci_flags]. by rewrite no_data_flag.
  - intros [Hobj Hann]. destruct (system_normal obj Hobj) as (Hnb & Hsys & Hname & _).
    unfold put_system_obj_impl. rewrite Hnb, Hsys, Hname. cbn [call_ok]. intros hist' r t' Hs Hr.
    apply finish_write_ok; try done. intros Hret _. by apply Hr.
  - intros [Hobj Hann]. destruct (system_normal obj Hobj) as (Hnb & Hsys & Hname & _).
    unfold put_obj_data. rewrite Hnb, Hsys, Hname. cbn [andb call_ok]. intros hist' r Hs Hr.
    destruct ((ofs =? 0) || (ofs =? -1)) eqn:E; [|done].
    apply finish_write_ok; try done. intros Hret _. apply Hr; [done|].
    apply orb_true_iff in E as [E|E]; apply Z.eqb_eq in E; auto.
  - intros [Hobj Hann]. destruct (system_normal obj Hobj) as (Hnb & Hsys & Hname & Hsafe).
    unfold delete_system_obj. rewrite Hnb, Hsys, Hname. cbn [negb call_ok distribute_cache]. intros hist1 Hs1. split; [|done].
    exists REMOVE_OBJ, obj, ObjectCacheInfo_new. split_and!; try done. by right.
Qed.

(** ** The gateways *)

Section cluster.
Context {C V S : Type} `{ChainedCache C V} `{SystemStore S}.
Context (view : S → obj_id → option bytes) (log : S → list bytes) `{!SystemStoreOk S view log}.
Variable lru_limit : Z.
Hypothesis limit_range : 0 <= lru_limit < 2 ^ 63.

(** A call on a gateway: what was asked, and what is left to do. *)
Record pending := Mk_pending { pd_gateway : nat; pd_op : gw_op; pd_rest : call }.

(** The store, the gateways' caches, the calls, finished or not, and, for the
    statements, what the store has held. *)
Record cluster := Mk_cluster {
  cl_store : S; cl_gateways : list (ObjectCache C); cl_calls : list pending; cl_history : list contents
}.

Definition cluster_new (s : S) (heaps : list (list C)) : cluster := Mk_cluster s (cache_new <$> heaps) [] [view s].

Inductive label :=
  | L_start (g : nat) (op : gw_op)
  | L_access (i : nat)
  | L_deliver (g j : nat)
  | L_chain_entry (g : nat) (cis : list rgw_cache_entry_info) (cache : nat) (key : str) (data : V)
  | L_chain_cache (g cache : nat)
  | L_enable (g : nat) (b : bool).

(** The next access of a call that is a write of data covers what is there. *)
Definition covers (p : call) (s : S) : bool :=
  match p with
  | T_put_data obj data ofs _ _ => negb (ofs =? 0) || (zlen (default [] (view s (id_of obj))) <=? zlen data)
  | _ => true
  end.

Definition access_ok (l : label) (cl : cluster) : bool :=
  match l with
  | L_access i => match cl_calls cl !! i with Some pd => covers (pd_rest pd) (cl_store cl) | None => true end
  | _ => true
  end.
Definition label_ok (l : label) (cl : cluster) : Prop :=
  access_ok l cl = true ∧ match l with L_start _ op => allowed op | _ => True end.

(** A step on the cache of gateway [g]. *)
Definition on_gateway (g : nat) (f : RGWCache C S → RGWCache C S) (cl : cluster) : option cluster :=
  c ← cl_gateways cl !! g;
  let rc := f (Mk_RGWCache c (cl_store cl)) in
  Some (Mk_cluster (rc_base rc) (<[g := rc_cache rc]> (cl_gateways cl)) (cl_calls cl) (cl_history cl)).

Definition exec (l : label) (cl : cluster) : option cluster :=
  match l with
  | L_start g op =>
      Some (Mk_cluster (cl_store cl) (cl_gateways cl) (cl_calls cl ++ [Mk_pending g op (call_of op)]) (cl_history cl))
  | L_access i =>
      pd ← cl_calls cl !! i;
      c ← cl_gateways cl !! pd_gateway pd;
      '(p, rc) ← call_step lru_limit (pd_rest pd) (Mk_RGWCache c (cl_store cl));
      Some (Mk_cluster (rc_base rc) (<[pd_gateway pd := rc_cache rc]> (cl_gateways cl))
              (<[i := Mk_pending (pd_gateway pd) (pd_op pd) p]> (cl_calls cl)) (view (rc_base rc) :: cl_history cl))
  | L_deliver g j => bl ← log (cl_store cl) !! j; on_gateway g (λ rc, snd (watch_cb lru_limit bl rc)) cl
  | L_chain_entry g cis cache key data => on_gateway g (λ rc, snd (rc_chain_cache_entry cis cache key data rc)) cl
  | L_chain_cache g cache => on_gateway g (register_chained_cache cache) cl
  | L_enable g b => on_gateway g (set_cache_enabled b) cl
  end.

Inductive cluster_reachable : cluster → Prop :=
  | reach_cluster_new s heaps : log s = [] → cluster_reachable (cluster_new s heaps)
  | reach_cluster_step cl l cl' : cluster_reachable cl → label_ok l cl → exec l cl = Some cl' → cluster_reachable cl'.

Record cluster_inv (cl : cluster) : Prop := {
  cli_now : view (cl_store cl) ∈ cl_history cl;
  cli_log : ∀ bl, bl ∈ log (cl_store cl) → notice_held (cl_history cl) bl;
  cli_caches : ∀ g c, cl_gateways cl !! g = Some c → cache_inv lru_limit c ∧ cache_held (cl_history cl) c;
  cli_calls : ∀ i pd, cl_calls cl !! i = Some pd → call_ok (pd_op pd) (cl_history cl) (pd_rest pd)
}.

Lemma caches_insert (P : ObjectCache C → Prop) (gws : list (ObjectCache C)) (g : nat) c' :
  P c' → (∀ g c, gws !! g = Some c → P c) → ∀ g1 c1, <[g := c']> gws !! g1 = Some c1 → P c1.
Proof.
  intros Hnew Hold g1 c1. rewrite list_lookup_insert. case_decide; [by intros [= <-]|apply Hold].
Qed.

Lemma watch_cb_eq op obj info (rc : RGWCache C S) :
  op = UPDATE_OBJ ∨ op = REMOVE_OBJ → system_obj obj → announces op obj info →
  watch_cb lru_limit (encode_RGWCacheNotifyInfo (Mk_RGWCacheNotifyInfo op obj info 0 []) []) rc =
    (0, on_cache (if op =? UPDATE_OBJ then λ c, snd (put lru_limit (id_name (id_of obj)) info c)
                  else remove (id_name (id_of obj))) rc).
Proof.
  intros Hop Hobj [Hinfo Hlen]. set (x := Mk_RGWCacheNotifyInfo op obj info 0 []) in *. unfold watch_cb.
  pose proof Hobj as (Hsys & Hne & Hsafe & Hwobj).
  assert (Hwf : wf RGWCacheNotifyInfo_c x) by (split_and!; try done; destruct Hop as [-> | ->]; done).
  assert (Hdec := reads_whole _ _ _ (into_reads x RGWCacheNotifyInfo_new Hwf) Hlen). cbn [enc dec RGWCacheNotifyInfo_c] in Hdec.
  rewrite Hdec.
  cbn [notify_into obj_into cn_obj cn_op cn_obj_info ro_bucket ro_object x].
  unfold normalize_bucket_and_obj. rewrite bool_decide_eq_false_2 by done. cbn [negb].
  change (normal_name (bucket_into (ro_bucket obj) (ro_bucket rgw_obj_new)) (ro_object obj)) with (id_name (id_of obj)).
  destruct Hop as [-> | ->]; done.
Qed.

(** A step of a cache alone. *)
Lemma on_gateway_inv g f cl cl' :
  (∀ c, cache_inv lru_limit c → cache_held (cl_history cl) c →
     let rc := f (Mk_RGWCache c (cl_store cl)) in
     rc_base rc = cl_store cl ∧ cache_inv lru_limit (rc_cache rc) ∧ cache_held (cl_history cl) (rc_cache rc)) →
  cluster_inv cl → on_gateway g f cl = Some cl' → cluster_inv cl'.
Proof.
  intros Hf [Hnow Hlog Hc Hp]. unfold on_gateway. destruct (cl_gateways cl !! g) as [c|] eqn:Hg; [|done]. cbn.
  intros [= <-]. destruct (Hc g c Hg) as [Hi Hh]. destruct (Hf c Hi Hh) as (-> & Hi' & Hh').
  split; cbn; [done|done| |done]. by apply caches_insert.
Qed.

(** The next access of a call. *)
Lemma call_step_inv op p c s p' rc' hist :
  call_ok op hist p → covers p s = true → cache_inv lru_limit c → cache_held hist c → view s ∈ hist →
  (∀ bl, bl ∈ log s → notice_held hist bl) →
  call_step lru_limit p (Mk_RGWCache c s) = Some (p', rc') →
  let hist' := view (rc_base rc') :: hist in
  call_ok op hist' p' ∧ cache_inv lru_limit (rc_cache rc') ∧ cache_held hist' (rc_cache rc') ∧
  ∀ bl, bl ∈ log (rc_base rc') → notice_held hist' bl.
Proof using SystemStoreOk0 limit_range.
  intros Hp Hcov Hi Hh Hnow Hlog Hstep hist'. subst hist'.
  assert (Hsub : ∀ h, hist ⊆ h :: hist) by (intros h x Hx; by right).
  assert (Hh' : ∀ h, cache_held (h :: hist) c) by (intros h; by apply (cache_held_mono hist)).
  assert (Hlog' : ∀ h bl, bl ∈ log s → notice_held (h :: hist) bl) by (intros h bl Hbl; eapply notice_held_mono; eauto).
  assert (Hquiet : ∀ s' p1, log s' = log s → call_ok op (view s' :: hist) p1 →
    call_ok op (view s' :: hist) p1 ∧ cache_inv lru_limit c ∧ cache_held (view s' :: hist) c ∧
    ∀ bl, bl ∈ log s' → notice_held (view s' :: hist) bl) by (intros s' p1 -> Hp1; auto).
  destruct p as [r|name m k|name m k|name info k|name k|name bl k|t obj bl ofs e k|obj fc t k|obj n bl t k|obj a rm t k
    |obj size a flags data t mt k|obj data ofs ex k|obj t k]; cbn [call_step call_ok rc_cache rc_base] in *.
  - done.
  - injection Hstep as <- <-. cbn [rc_cache rc_base]. apply Hquiet; [done|]. apply Hp; [done|].
    intros info ci E. eapply hit_held; [done|by apply read_hit|done].
  - pose proof (promote_spec lru_limit limit_range name m c Hi) as Hg.
    destruct (get_promote _ _ _ c) as [res c'] eqn:Eg. destruct Hg as (Hi' & Hsh & Hhit).
    injection Hstep as <- <-. cbn [rc_cache rc_base]. split_and!; [|done|by apply (cache_held_shrinks _ c)|by apply Hlog'].
    apply Hp; [done|]. intros info ci E. by eapply hit_held.
  - destruct Hp as [Hinfo Hp]. pose proof (put_inv lru_limit limit_range name info c Hi) as Hi'.
    pose proof (cache_held_put lru_limit limit_range hist c name info Hi Hh Hinfo) as Hput.
    destruct (put _ _ _ c) as [ci c'] eqn:Eg. injection Hstep as <- <-. cbn [rc_cache rc_base snd] in *.
    split_and!; [by apply Hp|done|by apply (cache_held_mono hist)|by apply Hlog'].
  - injection Hstep as <- <-. cbn [rc_cache rc_base]. split_and!; [by apply Hp|by apply remove_inv| |by apply Hlog'].
    apply (cache_held_shrinks _ c); [by apply (remove_shrinks lru_limit)|done].
  - destruct Hp as [Hbl Hp]. destruct (T_distribute name bl s) as [r s'] eqn:E. apply distribute_ok in E as Hl.
    injection Hstep as <- <-. cbn [rc_cache rc_base]. split_and!; [by apply Hp|done|done|].
    rewrite Hl. intros bl' [Hin|Hin]%elem_of_app; [by apply Hlog'|]. apply list_elem_of_singleton in Hin as ->. by apply (notice_held_mono hist).
  - destruct (T_get_system_obj t obj bl ofs e s) as [[[r bl'] t'] s'] eqn:E. apply get_ok in E as [Hl Hr].
    injection Hstep as <- <-. cbn [rc_cache rc_base]. apply Hquiet; [done|]. apply Hp; [done|].
    intros H1 H2. destruct (Hr H1 H2) as (x & Hx & Hrest). exists x. split; [|done]. exists (view s). split; [by right|done].
  - destruct (T_raw_obj_stat obj fc t s) as [[[r st] t'] s'] eqn:E. apply stat_ok in E as Hl.
    injection Hstep as <- <-. cbn [rc_cache rc_base]. by apply Hquiet; [|apply Hp].
  - destruct (T_set_attr obj n bl t s) as [[r t'] s'] eqn:E. apply set_attr_ok in E as Hl.
    injection Hstep as <- <-. cbn [rc_cache rc_base]. by apply Hquiet; [|apply Hp].
  - destruct (T_set_attrs obj a rm t s) as [[r t'] s'] eqn:E. apply set_attrs_ok in E as Hl.
    injection Hstep as <- <-. cbn [rc_cache rc_base]. by apply Hquiet; [|apply Hp].
  - destruct (T_put_system_obj_impl obj size a flags data t mt s) as [[r t'] s'] eqn:E. apply put_ok in E as [Hl Hr].
    injection Hstep as <- <-. cbn [rc_cache rc_base]. apply Hquiet; [done|]. apply Hp; [done|].
    intros Hpos. exists (view s'). split; [left|by apply Hr].
  - destruct (T_put_obj_data obj data ofs ex s) as [r s'] eqn:E. apply put_data_ok in E as [Hl Hr].
    injection Hstep as <- <-. cbn [rc_cache rc_base]. apply Hquiet; [done|]. apply Hp; [done|].
    intros Hpos Hofs. exists (view s'). split; [left|]. apply Hr; [done|].
    destruct Hofs as [E| ->]; [subst ofs; right; split; [done|by apply Z.leb_le]|by left].
  - destruct (T_delete_system_obj obj t s) as [[r t'] s'] eqn:E. apply delete_ok in E as Hl.
    injection Hstep as <- <-. cbn [rc_cache rc_base]. by apply Hquiet; [|apply Hp].
Qed.

Lemma access_inv i cl cl' :
  cluster_inv cl → label_ok (L_access i) cl → exec (L_access i) cl = Some cl' → cluster_inv cl'.
Proof using SystemStoreOk0 limit_range.
  intros [Hnow Hlog Hc Hp] [Hok _]. cbn [exec access_ok] in *. destruct (cl_calls cl !! i) as [pd|] eqn:Hpd; [|done]. cbn [mbind option_bind].
  destruct (cl_gateways cl !! pd_gateway pd) as [c|] eqn:Hg; [|done]. cbn [mbind option_bind].
  destruct (call_step _ _ _) as [[p' rc']|] eqn:Hstep; [|done]. cbn [mbind option_bind]. intros [= <-].
  destruct (Hc _ _ Hg) as [Hi Hh].
  destruct (call_step_inv _ _ _ _ _ _ _ (Hp i pd Hpd) Hok Hi Hh Hnow Hlog Hstep) as (Hp' & Hi' & Hh' & Hlog').
  assert (Hsub : cl_history cl ⊆ view (rc_base rc') :: cl_history cl) by (intros x Hx; by right).
  split; cbn [cl_store cl_gateways cl_calls cl_history]; [left|done| |].
  - apply caches_insert; [done|]. intros g1 c1 Hg1. destruct (Hc _ _ Hg1) as [H1 H2]. split; [done|by eapply cache_held_mono].
  - intros j pd'. rewrite list_lookup_insert. case_decide; [by intros [= <-]|].
    intros Hj. eapply call_ok_mono; [done|]. by apply (Hp j).
Qed.

Lemma exec_inv l cl cl' : cluster_inv cl → label_ok l cl → exec l cl = Some cl' → cluster_inv cl'.
Proof using SystemStoreOk0 limit_range.
  intros Hinv Hok. destruct l as [g op|i|g j|g cis cache key data|g cache|g b]; [|by apply access_inv|..]; cbn [exec].
  - destruct Hinv as [Hnow Hlog Hc Hp]. intros [= <-]. split; cbn [cl_store cl_gateways cl_calls cl_history]; try done.
    intros i pd. destruct (decide (i < length (cl_calls cl))%nat); [rewrite lookup_app_l by done; apply Hp|].
    rewrite lookup_app_r by lia. intros [_ [= <-]]%list_lookup_singleton_Some. apply call_starts_ok, Hok.
  - destruct (log (cl_store cl) !! j) as [bl|] eqn:Hj; [|done]. cbn [mbind option_bind].
    apply on_gateway_inv; [|done]. intros c Hi Hh.
    destruct (cli_log _ Hinv bl) as (op & obj & info & -> & Hop & Hobj & Hann); [by eapply list_elem_of_lookup_2|].
    rewrite watch_cb_eq; [|destruct Hop as [[-> _]| ->]; auto|done|done]. cbn [snd on_cache rc_base rc_cache].
    split; [done|]. destruct Hop as [[-> Hinfo]| ->]; cbn [Z.eqb UPDATE_OBJ REMOVE_OBJ].
    + split; [by apply put_inv|by apply cache_held_put].
    + split; [by apply remove_inv|]. eapply cache_held_shrinks; [by apply (remove_shrinks lru_limit)|done].
  - apply on_gateway_inv; [|done]. intros c Hi Hh. unfold rc_chain_cache_entry. cbn [rc_cache rc_base].
    pose proof (chain_cache_entry_inv lru_limit cis cache key data c Hi) as Hci.
    pose proof (chain_entry_shrinks cis cache key data c) as Hsh.
    destruct (chain_cache_entry cis cache key data c) as [r c']. cbn [snd rc_cache rc_base] in *.
    split_and!; [done|done|by eapply cache_held_shrinks].
  - apply on_gateway_inv; [|done]. intros c Hi Hh. split_and!; [done| |done].
    exact (cache_step_inv lru_limit limit_range c (Op_chain_cache (V := V) cache) Hi).
  - apply on_gateway_inv; [|done]. intros c Hi Hh. split_and!; [done| |].
    + exact (cache_step_inv lru_limit limit_range c (Op_set_enabled (V := V) b) Hi).
    + eapply cache_held_shrinks, Hh. apply set_enabled_shrinks.
Qed.

Lemma cluster_reachable_inv cl : cluster_reachable cl → cluster_inv cl.
Proof using SystemStoreOk0 limit_range.
  induction 1 as [s heaps Hlog|cl l cl' _ Hinv Hok Hex]; [|by eapply exec_inv].
  split; cbn [cluster_new cl_store cl_gateways cl_calls cl_history]; [left|rewrite Hlog; by intros bl []%not_elem_of_nil| |done].
  intros g c. rewrite list_lookup_fmap. destruct (heaps !! g); [|done]. intros [= <-]. split; [by apply empty_inv|].
  intros name e He. done.
Qed.
End cluster.

(** C5: whatever the order in which the calls of several gateways access their
    caches and the store, and whichever notifications are applied, in whatever
    order, late, twice or never: a read of a system object from its start that
    does not fail gives data that the store held for that object, whole or cut
    at the end asked for, and their length.  It may be an old state: nothing
    bounds its age.  The objects are those whose names the cache tells apart,
    and a write at offset 0 through [put_obj_data] covers what the object held;
    of the store only that reads give what was written is relied on. *)
Theorem reads_were_stored {C V S} `{ChainedCache C V} `{SystemStore S} (view : S → obj_id → option bytes)
    (log : S → list bytes) `{!SystemStoreOk S view log} limit cl i g t obj bl e r :
  0 <= limit < 2 ^ 63 → cluster_reachable (V := V) view log limit cl →
  cl_calls cl !! i = Some (Mk_pending g (G_get t obj bl 0 e) (Done r)) → 0 <= rp_ret r →
  ∃ h x, h ∈ cl_history cl ∧ h (id_of obj) = Some x ∧
    (rp_data r = x ∨ 0 <= e ∧ rp_data r = take (Z.to_nat (e + 1)) x) ∧ rp_ret r = zlen (rp_data r).
Proof.
  intros Hl Hr Hi Hpos. pose proof (cli_calls _ _ _ _ (cluster_reachable_inv view log limit Hl cl Hr) i _ Hi) as Hok.
  cbn [pd_op pd_rest call_ok result_ok] in Hok. destruct (Hok Hpos eq_refl) as (x & (h & Hh & Hx) & Hrest). by exists h, x.
Qed.

(** ** A store in memory *)

(** It refuses nothing but reads of objects it does not have, and says of every
    object that it is there, as [RGWRados::raw_obj_stat] does. *)
Record mem_store := Mk_mem_store { ms_objs : list (obj_id * bytes); ms_log : list bytes }.
Definition mem_view (s : mem_store) (d : obj_id) : option bytes := mfind d (ms_objs s).
Definition mem_set (d : obj_id) (x : bytes) (s : mem_store) : mem_store := Mk_mem_store (mset d x (ms_objs s)) (ms_log s).

(** [ofs = -1] replaces the whole object. *)
Definition write_at (ofs : Z) (data old : bytes) : bytes :=
  if ofs =? -1 then data
  else take (Z.to_nat ofs) (old ++ repeat NUL (Z.to_nat ofs)) ++ data ++ drop (Z.to_nat ofs + length data) old.

#[export] Instance mem_store_ops : SystemStore mem_store := {
  T_get_system_obj t obj bl ofs e s :=
    match mem_view s (id_of obj) with
    | None => (- ENOENT, bl, t, s)
    | Some x => let bl := drop (Z.to_nat ofs) (if e <? 0 then x else take (Z.to_nat (e + 1)) x) in (zlen bl, bl, t, s)
    end;
  T_raw_obj_stat obj fc t s := (0, Mk_obj_stat 0 0 0 [] fc, t, s);
  T_set_attr obj n bl t s := (0, t, s);
  T_set_attrs obj a rm t s := (0, t, s);
  T_put_system_obj_impl obj size a flags data t mt s := (0, t, mem_set (id_of obj) data s);
  T_put_obj_data obj data ofs ex s :=
    (0, mem_set (id_of obj) (write_at ofs data (default [] (mem_view s (id_of obj)))) s);
  T_delete_system_obj obj t s := (0, t, Mk_mem_store (merase (id_of obj) (ms_objs s)) (ms_log s));
  T_distribute name bl s := (0, Mk_mem_store (ms_objs s) (ms_log s ++ [bl]))
}.

Lemma write_at_whole ofs data old :
  ofs = -1 ∨ ofs = 0 ∧ zlen old <= zlen data → write_at ofs data old = data.
Proof.
  intros [->|[-> Hl]]; [done|]. unfold write_at. cbn [Z.eqb]. change (Z.to_nat 0) with 0%nat. cbn [repeat take].
  rewrite take_0. cbn. rewrite drop_ge by (unfold zlen in Hl; lia). apply app_nil_r.
Qed.

#[export] Instance mem_store_ok : SystemStoreOk mem_store mem_view ms_log.
Proof.
  split; cbn.
  - intros t obj bl ofs e s r bl' t' s'. destruct (mem_view s (id_of obj)) as [x|] eqn:Ex; intros [= <- <- <- <-].
    + split; [done|]. intros _ ->. exists x. by rewrite drop_0.
    + split; [done|]. unfold ENOENT. lia.
  - by intros obj fc t s r st t' s' [= <- <- <- <-].
  - by intros obj n bl t s r t' s' [= <- <- <-].
  - by intros obj a rm t s r t' s' [= <- <- <-].
  - intros obj size a flags data t mt s r t' s' [= <- <- <-]. split; [done|]. intros _. apply mfind_mset_eq.
  - intros obj data ofs ex s r s' [= <- <-]. split; [done|]. intros _ Hw. unfold mem_view, mem_set. cbn [ms_objs].
    rewrite mfind_mset_eq, write_at_whole; done.
  - by intros obj t s r t' s' [= <- <- <-].
  - by intros name bl s r s' [= <- <-].
Qed.

(** ** Runs of two gateways *)

Abbreviation demo_cluster := (cluster (C := RGWChainedCacheImpl Z) (S := mem_store)).
Abbreviation demo_label := (label (V := Z)).

Definition exec_all (ls : list demo_label) (cl : demo_cluster) : option demo_cluster :=
  fold_left (λ cl l, cl ← cl; exec mem_view ms_log 100 l cl) ls (Some cl).

Definition demo_obj (b o : str) : rgw_obj := named_obj (rgw_bucket_private b) o "" "".
Definition demo_new : demo_cluster := cluster_new mem_view (Mk_mem_store [] []) [[demo_chained]; [demo_chained]].
Definition demo_put (data : bytes) : gw_op := G_put (demo_obj ".users" "joe") 0 [("acl", "x")] 0 data None 0.
Definition demo_get : gw_op := G_get None (demo_obj ".users" "joe") [] 0 (-1).

(** A call of gateway [g], the [i]-th one, to its end. *)
Definition whole (g i : nat) (op : gw_op) (accesses : nat) : list demo_label := L_start g op :: repeat (L_access i) accesses.

(** Gateway 0 writes "a".  Gateway 1, whose cache is empty, asks the store and
    gets "a".  Gateway 0 writes "bb", and both notifications reach gateway 1.
    Only then does gateway 1 put what it has read into its cache. *)
Definition demo_race : list demo_label :=
  [L_enable 0 true; L_enable 1 true] ++ whole 0 0 (demo_put "a") 3 ++ whole 1 1 demo_get 2
  ++ whole 0 2 (demo_put "bb") 3 ++ [L_deliver 1 0; L_deliver 1 1; L_access 1].

Fixpoint accesses_ok (ls : list demo_label) (cl : demo_cluster) : bool :=
  match ls with
  | [] => true
  | l :: ls => access_ok mem_view l cl && match exec mem_view ms_log 100 l cl with Some cl => accesses_ok ls cl | None => true end
  end.

Lemma exec_all_reachable ls cl cl' :
  cluster_reachable mem_view ms_log 100 cl → exec_all ls cl = Some cl' → accesses_ok ls cl = true →
  (∀ g op, L_start g op ∈ ls → allowed op) → cluster_reachable mem_view ms_log 100 cl'.
Proof.
  revert cl. induction ls as [|l ls IH]; intros cl Hr; [by intros [= <-]|]. unfold exec_all. cbn [fold_left mbind option_bind].
  destruct (exec mem_view ms_log 100 l cl) as [cl1|] eqn:E.
  - cbn [accesses_ok]. rewrite E. intros Hex [Ha Hacc]%andb_true_iff Hok. apply (IH cl1); [|done|done|].
    + eapply reach_cluster_step; [done| |done]. split; [done|]. destruct l; try done. eapply Hok. left.
    + intros g op Hin. eapply Hok. by right.
  - intros Hex. exfalso. clear -Hex. revert Hex. induction ls as [|l' ls IH]; [done|]. exact IH.
Qed.

Lemma demo_system : system_obj (demo_obj ".users" "joe").
Proof.
  split_and!; [done|done| |].
  - split_and!; apply (bool_decide_unpack _); vm_compute; exact I.
  - split; [wf_closed|]. done.
Qed.

Lemma demo_allowed g op : L_start g op ∈ demo_race ++ whole 1 3 demo_get 1 → allowed op.
Proof.
  unfold demo_race, whole. cbn [repeat app]. rewrite !elem_of_cons, elem_of_nil. intros Hin.
  destruct_or?; simplify_eq; try done; try apply demo_system;
    (split; [apply demo_system|]); (split; [wf_closed|by vm_compute]).
Qed.

Definition demo_end : demo_cluster := default demo_new (exec_all (demo_race ++ whole 1 3 demo_get 1) demo_new).

Lemma demo_end_reachable : cluster_reachable (V := Z) mem_view ms_log 100 demo_end.
Proof.
  apply (exec_all_reachable (demo_race ++ whole 1 3 demo_get 1) demo_new); [by apply reach_cluster_new|..].
  - by vm_compute.
  - by vm_compute.
  - apply demo_allowed.
Qed.

Definition reply_of (i : nat) (cl : demo_cluster) : option (Z * bytes) :=
  pd ← cl_calls cl !! i; match pd_rest pd with Done r => Some (rp_ret r, rp_data r) | _ => None end.

(** The second read of gateway 1 gives "a", which the store held once. *)
Lemma reads_were_stored_witness :
  reply_of 3 demo_end = Some (1, "a" : bytes) ∧
  ∃ h x, h ∈ cl_history demo_end ∧ h (id_of (demo_obj ".users" "joe")) = Some x ∧
    (("a" : bytes) = x ∨ 0 <= -1 ∧ ("a" : bytes) = take (Z.to_nat (-1 + 1)) x) ∧ 1 = zlen ("a" : bytes).
Proof.
  split; [by vm_compute|].
  assert (Hr : ∃ r, cl_calls demo_end !! 3%nat = Some (Mk_pending 1 demo_get (Done r)) ∧ rp_ret r = 1 ∧ rp_data r = "a").
  { eexists. split; [vm_compute; reflexivity|done]. }
  destruct Hr as (r & Hc & E1 & E2).
  pose proof (reads_were_stored (V := Z) mem_view ms_log 100 demo_end 3 1 None (demo_obj ".users" "joe") [] (-1) r
    ltac:(lia) demo_end_reachable Hc ltac:(lia)) as Hw.
  rewrite E1, E2 in Hw. exact Hw.
Defined.

(** ** Defects *)

(** A read that was overtaken by a write leaves the old data in the cache for
    good: every call has ended, every notification has reached the gateway, the
    store holds "bb", and the gateway goes on reading "a". *)
Lemma overtaken_read_stale :
  cluster_reachable (V := Z) mem_view ms_log 100 demo_end ∧
  forallb (λ pd, match pd_rest pd with Done _ => true | _ => false end) (cl_calls demo_end) = true ∧
  length (ms_log (cl_store demo_end)) = 2%nat ∧
  mem_view (cl_store demo_end) (id_of (demo_obj ".users" "joe")) = Some ("bb" : bytes) ∧
  reply_of 3 demo_end = Some (1, "a" : bytes).
Proof.
  split; [apply demo_end_reachable|by vm_compute].
Qed.

(** A deletion announces itself first: a gateway that reads in between caches
    what is about to go. *)
Definition demo_delete : gw_op := G_delete (demo_obj ".users" "joe") None.
Lemma deletion_announced_early :
  let run := [L_enable 0 true; L_enable 1 true] ++ whole 0 0 (demo_put "a") 3 ++ [L_deliver 1 0]
    ++ whole 0 1 demo_delete 2 ++ [L_deliver 1 1] ++ whole 1 2 demo_get 3 ++ [L_access 1] ++ whole 1 3 demo_get 1 in
  (λ cl, (mem_view (cl_store cl) (id_of (demo_obj ".users" "joe")), reply_of 3 cl)) <$> exec_all run demo_new
  = Some (None, Some (1, "a" : bytes)).
Proof. by vm_compute. Qed.

Definition demo_gateway : RGWCache (RGWChainedCacheImpl Z) mem_store :=
  set_cache_enabled true (Mk_RGWCache (cache_new [demo_chained]) (Mk_mem_store [] [])).

(** A write past the start of an object is not seen by the cache at all:
    after "a" was cached and "x" appended to it through the same gateway, that
    gateway reads "a", and the store holds "ax". *)
Lemma partial_write_stale :
  let obj := demo_obj ".users" "joe" in
  ('(_, rc) ← run_call 100 5 (call_of (demo_put "a")) demo_gateway;
   '(_, rc) ← run_call 100 5 (put_obj_data obj "x" 1 false) rc;
   '(r, rc) ← run_call 100 5 (get_system_obj None obj [] 0 (-1)) rc;
   Some (rp_ret r, rp_data r, mem_view (rc_base rc) (id_of obj))) = Some (1, "a" : bytes, Some ("ax" : bytes)).
Proof. by vm_compute. Qed.

(** The cache keeps an object under its bucket's name and its own with a
    plus sign in between, and cannot tell apart objects whose names agree when
    put together: after "b+c" of the bucket ".a" was written, reading "c" of
    ".a+b", which does not exist, returns its contents. *)
Lemma cache_name_collision :
  let a := demo_obj ".a" "b+c" in
  let b := demo_obj ".a+b" "c" in
  id_of a ≠ id_of b ∧
  ('(_, rc) ← run_call 100 5 (put_system_obj_impl a 0 [] 0 "secret" None 0) demo_gateway;
   '(r, rc) ← run_call 100 5 (get_system_obj None b [] 0 (-1)) rc;
   Some (rp_ret r, rp_data r, mem_view (rc_base rc) (id_of b))) = Some (6, "secret" : bytes, None).
Proof. split; [done|by vm_compute]. Qed.
