(* ===== verification/Http.v ===== *)
(** * HTTP requests ([src/src/rgw/porting_common.cc], [porting_common.h])

    URL escaping, hexadecimal buffers, query arguments, the request's URI, host
    and metadata headers, and the permission checks made on a request. *)

From S2P Require Import Prelude StdMap CString Env Acl.

(** ** URL escaping *)

Section url.
(** [HexTable::to_num] indexes its table with a signed [char]: for a byte of
    128 and more it reads memory in front of the table, whatever is there. *)
Variable table_oob : ascii → Z.

Definition hex_to_num (c : ascii) : Z :=
  let n := uchar c in
  if n >=? 128 then table_oob c
  else if (48 <=? n) && (n <=? 57) then n - 48
  else if (65 <=? n) && (n <=? 70) then n - 65 + 10
  else if (97 <=? n) && (n <=? 102) then n - 97 + 10
  else -1.

(** The loop of [url_decode]: the bytes written, or [None] for [false]. *)
Fixpoint url_decode_loop (in_query : bool) (src : str) : option str :=
  match src with
  | [] => Some []
  | c :: src1 =>
      if negb (char_is "%" c) then
        if negb in_query || negb (char_is "+" c) then
          cons c <$> url_decode_loop (in_query || char_is "?" c) src1
        else cons " "%char <$> url_decode_loop in_query src1
      else
        match src1 with
        | [] => Some []
        | h1 :: src2 =>
            match src2 with
            | [] => Some []
            | h2 :: src3 =>
                if hex_to_num h1 <? 0 then None
                else if hex_to_num h2 <? 0 then None
                else cons (chr (Z.lor (Z.shiftl (hex_to_num h1) 4) (hex_to_num h2)))
                       <$> url_decode_loop in_query src3
            end
        end
  end.

(** [url_decode]: the result and the new destination. *)
Definition url_decode (src_str dest_str : str) (in_query : bool) : bool * str :=
  match url_decode_loop in_query (cstr src_str) with
  | None => (false, dest_str)
  | Some dest => (true, cstr dest)
  end.
End url.

Definition url_special : list Z :=
  [34; 35; 37; 38; 43; 44; 47; 58; 59; 60; 62; 61; 63; 64; 91; 93; 92; 94; 96; 123; 125].

Definition char_needs_url_encoding (c : ascii) : bool :=
  if (schar c <=? 32) || (schar c >=? 127) then true
  else bool_decide (schar c ∈ url_special).

Definition hex_upper (n : Z) : ascii := if n <? 10 then chr (48 + n) else chr (55 + n).

(** [%%%.2X] *)
Definition escape_char (c : ascii) : str :=
  ["%"%char; hex_upper (uchar c / 16); hex_upper (uchar c mod 16)].

Definition url_encode (src dst : str) : str :=
  fold_left (λ dst c, if char_needs_url_encoding c then dst ++ escape_char c else dst ++ [c]) src dst.

(** ** Hexadecimal buffers *)

Definition hex_lower (n : Z) : ascii := if n <? 10 then chr (48 + n) else chr (87 + n).
Definition buf_to_hex (buf : bytes) : str :=
  concat (map (λ c, [hex_lower (uchar c / 16); hex_lower (uchar c mod 16)]) buf).

Definition toupper (c : ascii) : ascii := if islower c then chr (uchar c - 32) else c.
Definition hexdigit (c : ascii) : Z :=
  if isdigit c then uchar c - 48
  else
    let n := uchar (toupper c) in
    if (65 <=? n) && (n <=? 70) then n - 65 + 10 else - EINVAL.

(** The loop of [hex_to_buf]: the return value and the bytes stored so far. *)
Fixpoint hex_loop (p : str) (len : Z) (i : Z) (buf : bytes) : Z * bytes :=
  match p with
  | [] => (i, buf)
  | c :: p1 =>
      if i >=? len then (- EINVAL, buf)
      else if hexdigit c <? 0 then (hexdigit c, buf ++ [NUL])
      else
        match p1 with
        | [] => (- EINVAL, buf ++ [chr (Z.shiftl (hexdigit c) 4)])
        | d :: p2 =>
            if hexdigit d <? 0 then (- hexdigit d, buf ++ [chr (Z.shiftl (hexdigit c) 4)])
            else hex_loop p2 len (i + 1) (buf ++ [chr (Z.shiftl (hexdigit c) 4 + hexdigit d)])
        end
  end.
Definition hex_to_buf (hex : str) (len : Z) : Z * bytes := hex_loop (cstr hex) len 0 [].

Definition rgw_rounded_kb (bytes : Z) : Z := u64 (bytes + 1023) / 1024.
Definition rgw_rounded_objsize_kb (bytes : Z) : Z :=
  Z.land (u64 (bytes + 4095)) (u64 (Z.lnot 4095)) / 1024.

(** ** Query arguments *)

(** [NameVal::parse]: the result, the name and the value. *)
Definition NameVal_parse (s : str) : Z * str * str :=
  match find_if (char_is "=") s with
  | None => (1, s, [])
  | Some pos => (0, substr 0 pos s, substr_from (S pos) s)
  end.

Record RGWHTTPArgs := Mk_args {
  ha_str : str;
  ha_val_map : list (str * str);
  ha_sys_val_map : list (str * str);
  ha_sub_resources : list (str * str);
  ha_has_resp_modifier : bool
}.
Definition RGWHTTPArgs_new : RGWHTTPArgs := Mk_args [] [] [] [] false.

(** [set]: the system parameters are kept. *)
Definition args_set (s : str) (a : RGWHTTPArgs) : RGWHTTPArgs := Mk_args s [] (ha_sys_val_map a) [] false.

Definition RGW_SYS_PARAM_PREFIX : str := "rgwx-".
Definition s3_sub_resources : list str :=
  ["acl"; "cors"; "location"; "logging"; "delete"; "uploads"; "partNumber"; "uploadId"; "versionId";
   "versions"; "versioning"; "requestPayment"; "torrent"].
Definition response_modifiers : list str :=
  ["response-content-type"; "response-content-language"; "response-expires"; "response-cache-control";
   "response-content-disposition"; "response-content-encoding"].
Definition admin_sub_resources : list str :=
  ["subuser"; "key"; "caps"; "index"; "policy"; "quota"; "object"].

(** What [parse] does with one decoded parameter; the flag is
    [admin_subresource_added]. *)
Definition args_add (st : RGWHTTPArgs * bool) (name val : str) : RGWHTTPArgs * bool :=
  let '(a, admin_added) := st in
  let sys := has_prefix RGW_SYS_PARAM_PREFIX name in
  let vm := if sys then ha_val_map a else mset name val (ha_val_map a) in
  let svm := if sys then mset name val (ha_sys_val_map a) else ha_sys_val_map a in
  let mk sr hr := Mk_args (ha_str a) vm svm sr hr in
  if bool_decide (name ∈ s3_sub_resources) then
    (mk (mset name val (ha_sub_resources a)) (ha_has_resp_modifier a), admin_added)
  else if bool_decide (name !! 0%nat = Some "r"%char) then
    if bool_decide (name ∈ response_modifiers)
    then (mk (mset name val (ha_sub_resources a)) true, admin_added)
    else (mk (ha_sub_resources a) (ha_has_resp_modifier a), admin_added)
  else if bool_decide (name ∈ admin_sub_resources) && negb admin_added then
    (mk (mset name [] (ha_sub_resources a)) (ha_has_resp_modifier a), true)
  else (mk (ha_sub_resources a) (ha_has_resp_modifier a), admin_added).

Section args.
Variable table_oob : ascii → Z.

(** One piece of the query; a piece that cannot be decoded counts as empty. *)
Definition args_piece (st : RGWHTTPArgs * bool) (piece : str) : RGWHTTPArgs * bool :=
  let '(_, nameval) := url_decode table_oob piece [] true in
  let '(ret, name, val) := NameVal_parse nameval in
  if ret >=? 0 then args_add st name val else st.

(** The loop of [parse] from a position; it moves forward every turn, so the
    string's length and one more is enough fuel. *)
Fixpoint parse_loop (fuel : nat) (s : str) (pos : nat) (st : RGWHTTPArgs * bool) : RGWHTTPArgs * bool :=
  match fuel with
  | O => st
  | S fuel' =>
      match find_from (char_is "&") pos s with
      | None => args_piece st (substr pos (length s - pos) s)
      | Some fpos => parse_loop fuel' s (S fpos) (args_piece st (substr pos (fpos - pos) s))
      end
  end.

Definition args_parse (a : RGWHTTPArgs) : RGWHTTPArgs :=
  let s := ha_str a in
  let pos := if bool_decide (s !! 0%nat = Some "?"%char) then 1%nat else 0%nat in
  fst (parse_loop (S (length s)) s pos (a, false)).
End args.

(** [get(name, exists)] *)
Definition args_get (name : str) (a : RGWHTTPArgs) : str * bool :=
  match mfind name (ha_val_map a) with Some v => (v, true) | None => ([], false) end.
Definition args_exists (name : str) (a : RGWHTTPArgs) : bool := mmem name (ha_val_map a).
Definition sub_resource_exists (name : str) (a : RGWHTTPArgs) : bool := mmem name (ha_sub_resources a).

(** [get_bool(name, val, exists)]: the result, the new value, whether it exists. *)
Definition args_get_bool (name : str) (val : bool) (a : RGWHTTPArgs) : Z * bool * bool :=
  match mfind name (ha_val_map a) with
  | None => (0, val, false)
  | Some s =>
      if strcaseeq s "false" then (0, false, true)
      else if strcaseeq s "true" then (0, true, true)
      else (- EINVAL, val, true)
  end.
Definition args_get_bool_default (name : str) (val def_val : bool) (a : RGWHTTPArgs) : bool :=
  let '(r, v, exists_) := args_get_bool name val a in
  if (r <? 0) || negb exists_ then def_val else v.

Definition args_set_system (a : RGWHTTPArgs) : RGWHTTPArgs :=
  Mk_args (ha_str a) (fold_left (λ m p, mset (fst p) (snd p) m) (ha_sys_val_map a) (ha_val_map a))
    (ha_sys_val_map a) (ha_sub_resources a) (ha_has_resp_modifier a).

(** ** The request *)

Record req_info := Mk_req_info {
  ri_env : env_map;
  ri_args : RGWHTTPArgs;
  ri_x_meta_map : list (str * str);
  ri_host : str;
  ri_method : str;
  ri_script_uri : str;
  ri_request_uri : str;
  ri_effective_uri : str;
  ri_request_params : str
}.

(** A trailing [:port] of the host is cut off; a colon with nothing after it
    counts as a port. *)
Definition strip_port (host : str) : str :=
  match find_last_if (char_is ":") host with
  | None => host
  | Some colon => if forallb isdigit (drop (S colon) host) then take colon host else host
  end.

Definition req_info_new (e : env_map) : req_info :=
  let uri := env_get_default "REQUEST_URI" "test REQUEST_URI" e in
  let '(request_uri, request_params) :=
    match find_if (char_is "?") uri with
    | Some pos => (substr 0 pos uri, substr_from (S pos) uri)
    | None => (uri, env_get_default "QUERY_STRING" [] e)
    end in
  Mk_req_info e RGWHTTPArgs_new []
    (strip_port (env_get_default "HTTP_HOST" [] e))
    (env_get_default "REQUEST_METHOD" [] e)
    (env_get_default "SCRIPT_URI" "testSCRIPT_URI" e)
    request_uri [] request_params.

Definition rebuild_from (src dst : req_info) : req_info :=
  Mk_req_info (ri_env dst) (ri_args dst) (merase "x-amz-date" (ri_x_meta_map src))
    (ri_host src) (ri_method src) (ri_script_uri src)
    (match ri_effective_uri src with [] => ri_request_uri src | u => u end)
    [] (ri_request_params dst).

Definition meta_prefixes : list str :=
  ["HTTP_X_AMZ"; "HTTP_X_GOOG"; "HTTP_X_DHO"; "HTTP_X_RGW"; "HTTP_X_OBJECT"; "HTTP_X_CONTAINER";
   "HTTP_X_ACCOUNT"].

(** [strncmp(name, "_META_", strlen(name)) == 0]: the name is empty, or a
    beginning of the string. *)
Definition bad_meta (name : str) : bool := has_prefix name "_META_".

(** The lower-cased, dashed name under the [x-amz] prefix. *)
Definition meta_name (name : str) : str :=
  map (λ c, if char_is "_" c then "-"%char else tolower c) ("X_AMZ" ++ name).

(** A repeated header is appended after a comma, the older value losing its
    trailing blanks. *)
Definition meta_join (old val : str) : str :=
  match find_last_if (not_in (" "%char :: [chr 9])) old with
  | None => []
  | Some pos => substr 0 (S pos) old
  end ++ "," ++ val.

Definition meta_header (acc : list (str * str) * bool) (header_name val prefix : str)
    : list (str * str) * bool :=
  let '(m, bad) := acc in
  if has_prefix prefix header_name then
    let name := drop (length prefix) header_name in
    let name_low := meta_name name in
    (mset name_low (match mfind name_low m with Some old => meta_join old val | None => val end) m,
     bad || bad_meta name)
  else (m, bad).

(** [init_meta_info]: the metadata headers, and whether a bad one was found. *)
Definition init_meta_info (r : req_info) : req_info * bool :=
  let '(m, bad) :=
    fold_left (λ acc h, fold_left (λ acc p, meta_header acc (nc (fst h)) (snd h) p) meta_prefixes acc)
      (ri_env r) ([], false) in
  (Mk_req_info (ri_env r) (ri_args r) m (ri_host r) (ri_method r) (ri_script_uri r) (ri_request_uri r)
     (ri_effective_uri r) (ri_request_params r), bad).

(** ** Errors and permissions *)

Record rgw_err := Mk_err { er_http_ret : Z; er_ret : Z; er_s3_code : str }.
Definition rgw_err_clear : rgw_err := Mk_err 200 0 [].
Definition rgw_err_new (http : Z) (s3 : str) : rgw_err := Mk_err http 0 s3.
Definition is_clear (e : rgw_err) : bool := er_http_ret e =? 200.
Definition is_err (e : rgw_err) : bool := negb ((er_http_ret e >=? 200) && (er_http_ret e <=? 399)).

(** The fields of [req_state] the checks look at; the object's policy is an
    object of the base class. *)
Record req_perm := Mk_req_perm {
  rp_requester_pays : bool;
  rp_bucket_owner : str;
  rp_user_id : str;
  rp_env : env_map;
  rp_args : RGWHTTPArgs;
  rp_defer_to_bucket_acls : Z;
  rp_perm_mask : Z;
  rp_object_acl : option RGWAccessControlPolicy
}.

Definition verify_requester_payer_permission (s : req_perm) : bool :=
  if negb (rp_requester_pays s) then true
  else if streq (rp_bucket_owner s) (rp_user_id s) then true
  else
    match env_get "HTTP_X_AMZ_REQUEST_PAYER" (rp_env s) with
    | Some request_payer => strcaseeq request_payer "requester"
    | None =>
        let '(request_payer, exists_) := args_get "x-amz-request-payer" (rp_args s) in
        if negb exists_ then false else strcaseeq request_payer "requester"
    end.

(** [verify_bucket_permission]: the body is disabled. *)
Definition verify_bucket_permission (s : req_perm) (perm : Z) : bool := true.

Definition check_deferred_bucket_acl (s : req_perm) (deferred_check perm : Z) : bool :=
  (rp_defer_to_bucket_acls s =? deferred_check) && verify_bucket_permission s perm.

Definition verify_object_permission (s : req_perm) (perm : Z) : bool :=
  if negb (verify_requester_payer_permission s) then false
  else if check_deferred_bucket_acl s RGW_DEFER_TO_BUCKET_ACLS_RECURSE perm
          || check_deferred_bucket_acl s RGW_DEFER_TO_BUCKET_ACLS_FULL_CONTROL RGW_PERM_FULL_CONTROL
  then true
  else
    match rp_object_acl s with
    | None => false
    | Some object_acl => verify_permission policy_base object_acl (rp_user_id s) (rp_perm_mask s) perm
    end.

(** ** Lemmas *)

Lemma hex_to_num_upper oob n : 0 <= n < 16 → hex_to_num oob (hex_upper n) = n.
Proof.
  intros Hn. unfold hex_to_num, hex_upper.
  destruct (Z.ltb_spec n 10); rewrite uchar_chr, Z.mod_small by lia.
  - rewrite Z.geb_leb, (proj2 (Z.leb_gt _ _)) by lia.
    rewrite (proj2 (Z.leb_le 48 _)), (proj2 (Z.leb_le _ 57)) by lia. cbn. lia.
  - rewrite Z.geb_leb, (proj2 (Z.leb_gt _ _)) by lia.
    rewrite (proj2 (Z.leb_le 48 _)), (proj2 (Z.leb_gt _ 57)) by lia. cbn [andb].
    rewrite (proj2 (Z.leb_le 65 _)), (proj2 (Z.leb_le _ 70)) by lia. cbn. lia.
Qed.

(** The two digits of a byte put together again. *)
Lemma nibbles n : 0 <= n → Z.lor (Z.shiftl (n / 16) 4) (n mod 16) = n.
Proof.
  intros Hn. rewrite Z.lor_comm. change (n mod 16) with (n mod 2 ^ 4).
  rewrite <- Z.shiftr_div_pow2 with (n := 4) by lia.
  apply Z.bits_inj'. intros i Hi. rewrite Z.lor_spec. destruct (Z.ltb_spec i 4).
  - rewrite Z.mod_pow2_bits_low, Z.shiftl_spec_low by lia. apply orb_false_r.
  - rewrite Z.mod_pow2_bits_high, Z.shiftl_spec, Z.shiftr_spec by lia. cbn. f_equal. lia.
Qed.

Definition url_char (c : ascii) : str := if char_needs_url_encoding c then escape_char c else [c].

Lemma url_encode_app src dst : url_encode src dst = dst ++ concat (map url_char src).
Proof.
  revert dst. induction src as [|c src IH]; intros dst; cbn; [by rewrite app_nil_r|].
  rewrite IH. unfold url_char at 2. destruct (char_needs_url_encoding c); by rewrite <- app_assoc.
Qed.

(** A character that is not escaped has no meaning to the decoder. *)
Lemma unescaped_plain c :
  char_needs_url_encoding c = false →
  char_is "%" c = false ∧ char_is "+" c = false ∧ char_is "?" c = false ∧ c ≠ NUL.
Proof.
  unfold char_is. intros H. split_and!; try (apply bool_decide_false); intros ->; by vm_compute in H.
Qed.

(** Escaping removes every special character but the percent sign. *)
Lemma hex_upper_cases n d : 0 <= n < 16 → hex_upper n = d → isdigit d || isupper d = true.
Proof.
  intros Hn <-.
  assert (Hcases : n ∈ [0;1;2;3;4;5;6;7;8;9;10;11;12;13;14;15]) by (rewrite !elem_of_cons; lia).
  repeat (apply elem_of_cons in Hcases as [->|Hcases]; [by vm_compute|]).
  by apply not_elem_of_nil in Hcases.
Qed.

Lemma nibbles_byte c : 0 <= uchar c / 16 < 16 ∧ 0 <= uchar c mod 16 < 16.
Proof.
  pose proof (uchar_range c). split; [split; [apply Z.div_pos|apply Z.div_lt_upper_bound]; lia|].
  apply Z.mod_pos_bound. lia.
Qed.

Lemma url_chars_without d src :
  char_needs_url_encoding d = true → d ≠ "%"%char → isdigit d || isupper d = false →
  d ∉ concat (map url_char src).
Proof.
  intros Hd Hp Hx. induction src as [|c src IH]; cbn; [apply not_elem_of_nil|].
  rewrite elem_of_app. intros [Hc|Hc]; [|done]. destruct (nibbles_byte c) as [H1 H2].
  unfold url_char in Hc. destruct (char_needs_url_encoding c) eqn:E.
  - unfold escape_char in Hc. repeat (apply elem_of_cons in Hc as [Hc|Hc]); [done|..].
    + symmetry in Hc. apply hex_upper_cases in Hc; [congruence|done].
    + symmetry in Hc. apply hex_upper_cases in Hc; [congruence|done].
    + by apply not_elem_of_nil in Hc.
  - apply elem_of_cons in Hc as [->|Hc]; [congruence|by apply not_elem_of_nil in Hc].
Qed.

Lemma url_encode_no_nul src : NUL ∉ url_encode src [].
Proof. rewrite url_encode_app. by apply url_chars_without. Qed.

(** The decoder copies an escaped part and goes on behind it. *)
Lemma url_decode_app oob q src rest :
  url_decode_loop oob q (concat (map url_char src) ++ rest) = app src <$> url_decode_loop oob q rest.
Proof.
  induction src as [|c src IH]; cbn [map concat app]; [by destruct (url_decode_loop oob q rest)|].
  rewrite <- app_assoc. destruct (nibbles_byte c) as [H1 H2]. pose proof (uchar_range c) as Hr.
  unfold url_char at 1. destruct (char_needs_url_encoding c) eqn:E.
  - unfold escape_char. cbn [app url_decode_loop]. rewrite !hex_to_num_upper by done.
    rewrite (proj2 (Z.ltb_ge (uchar c / 16) 0)), (proj2 (Z.ltb_ge (uchar c mod 16) 0)) by lia.
    rewrite nibbles, chr_uchar by lia. change (char_is "%" "%") with true. cbn [negb].
    rewrite IH. by destruct (url_decode_loop oob q rest).
  - apply unescaped_plain in E as (Hp & Hplus & Hq & _). cbn [app url_decode_loop].
    rewrite Hp, Hplus, Hq, orb_false_r, orb_true_r. cbn [negb]. rewrite IH.
    by destruct (url_decode_loop oob q rest).
Qed.

Lemma url_decode_encoded oob q src : url_decode_loop oob q (url_encode src []) = Some src.
Proof.
  rewrite url_encode_app. cbn [app]. rewrite <- (app_nil_r (concat _)), url_decode_app. cbn.
  by rewrite app_nil_r.
Qed.

(** ** Theorems *)

(** Decoding what [url_encode] wrote gives the string back, in a query and
    outside of one, whatever lies in front of the digit table; a string with a
    NUL in it comes back cut off there, since the decoder builds its result as
    a C string. *)
Lemma url_roundtrip oob src dest q : url_decode oob (url_encode src []) dest q = (true, cstr src).
Proof.
  unfold url_decode. rewrite cstr_no_nul by apply url_encode_no_nul. by rewrite url_decode_encoded.
Qed.

(** On the requests the server accepts, the permission to touch an object is
    only the requester-pays check: the configuration always defers to the
    bucket's policy, and that check always says yes, so the object's own policy
    is never consulted, whatever it holds and whatever is asked for. *)
Lemma object_acl_not_consulted s perm :
  rp_defer_to_bucket_acls s = conf_defer_to_bucket_acls →
  verify_object_permission s perm = verify_requester_payer_permission s ∧
  (verify_requester_payer_permission s = false ↔
     rp_requester_pays s = true ∧ rp_bucket_owner s ≠ rp_user_id s ∧
     strcaseeq (default (fst (args_get "x-amz-request-payer" (rp_args s)))
                        (env_get "HTTP_X_AMZ_REQUEST_PAYER" (rp_env s))) "requester" = false).
Proof.
  intros Hd. split.
  - unfold verify_object_permission, check_deferred_bucket_acl. rewrite Hd.
    destruct (verify_requester_payer_permission s); [|done]. reflexivity.
  - unfold verify_requester_payer_permission, streq, args_get.
    destruct (rp_requester_pays s); cbn [negb]; [|by split; [|intros []]].
    case_bool_decide as Ho; [by split; [|intros (_ & ? & _)]|].
    destruct (env_get _ _) as [v|]; cbn [default from_option id]; [by split; [|intros (_ & _ & ?)]|].
    destruct (mfind _ _) as [v|]; cbn [fst negb]; [by split; [|intros (_ & _ & ?)]|].
    split; [|done]. intros _. split_and!; [done|done|reflexivity].
Qed.

Definition demo_req : req_perm :=
  Mk_req_perm true "alice" "mallory" [] RGWHTTPArgs_new conf_defer_to_bucket_acls 0
    (Some RGWAccessControlPolicy_new).

Lemma object_acl_not_consulted_witness :
  verify_object_permission demo_req RGW_PERM_READ = verify_requester_payer_permission demo_req ∧
  (verify_requester_payer_permission demo_req = false ↔
     true = true ∧ "alice" ≠ "mallory" ∧ strcaseeq [] "requester" = false).
Proof. apply (object_acl_not_consulted demo_req RGW_PERM_READ). reflexivity. Defined.

(** ** Hexadecimal *)

Lemma hexdigit_lower n : 0 <= n < 16 → hexdigit (hex_lower n) = n ∧ hex_lower n ≠ NUL.
Proof.
  intros Hn.
  assert (Hcases : n ∈ [0;1;2;3;4;5;6;7;8;9;10;11;12;13;14;15]).
  { rewrite !elem_of_cons. lia. }
  repeat (apply elem_of_cons in Hcases as [->|Hcases]; [by vm_compute|]).
  by apply not_elem_of_nil in Hcases.
Qed.

Lemma hex_loop_roundtrip b len i buf :
  0 <= i → i + zlen b <= len →
  hex_loop (buf_to_hex b) len i buf = (i + zlen b, buf ++ b).
Proof.
  revert i buf. induction b as [|c b IH]; intros i buf Hi Hlen.
  { cbn. rewrite zlen_nil, app_nil_r. f_equal. lia. }
  rewrite zlen_cons in *. pose proof (zlen_nonneg b). destruct (nibbles_byte c) as [H1 H2].
  change (buf_to_hex (c :: b)) with (hex_lower (uchar c / 16) :: hex_lower (uchar c mod 16) :: buf_to_hex b).
  cbn [hex_loop]. destruct (hexdigit_lower _ H1) as [-> _]. destruct (hexdigit_lower _ H2) as [-> _].
  rewrite Z.geb_leb, (proj2 (Z.leb_gt _ _)) by lia.
  rewrite (proj2 (Z.ltb_ge (uchar c / 16) 0)), (proj2 (Z.ltb_ge (uchar c mod 16) 0)) by lia.
  rewrite IH by lia. rewrite Z.shiftl_mul_pow2 by lia. change (2 ^ 4) with 16.
  rewrite (Z.mul_comm _ 16), <- Z.div_mod by lia. rewrite chr_uchar, <- app_assoc. f_equal. lia.
Qed.

Lemma buf_to_hex_no_nul b : NUL ∉ buf_to_hex b.
Proof.
  induction b as [|c b IH]; [apply not_elem_of_nil|]. destruct (nibbles_byte c) as [H1 H2].
  change (buf_to_hex (c :: b)) with (hex_lower (uchar c / 16) :: hex_lower (uchar c mod 16) :: buf_to_hex b).
  rewrite !not_elem_of_cons. split_and!; [|by apply not_eq_sym, hexdigit_lower|done].
  by apply not_eq_sym, hexdigit_lower.
Qed.

(** [hex_to_buf] reads back what [buf_to_hex] wrote, if the buffer is large
    enough, and returns the length.  A bad first digit of a pair is an error,
    but a bad second digit makes it return the positive number [EINVAL], which
    a caller takes for a length of 22. *)
Lemma hex_roundtrip b len :
  zlen b <= len →
  hex_to_buf (buf_to_hex b) len = (zlen b, b) ∧
  (∀ rest, 0 < len → hex_to_buf ("g" ++ rest) len = (- EINVAL, [NUL])) ∧
  (∀ rest, 0 < len → hex_to_buf ("1g" ++ rest) len = (EINVAL, [chr 16])).
Proof.
  intros Hlen. split_and!.
  - unfold hex_to_buf. rewrite cstr_no_nul by apply buf_to_hex_no_nul.
    by rewrite hex_loop_roundtrip by lia.
  - intros rest Hl. unfold hex_to_buf. change (cstr ("g" ++ rest)) with ("g"%char :: cstr rest).
    cbn [hex_loop].
    rewrite Z.geb_leb, (proj2 (Z.leb_gt _ _)) by lia. reflexivity.
  - intros rest Hl. unfold hex_to_buf.
    change (cstr ("1g" ++ rest)) with ("1"%char :: "g"%char :: cstr rest). cbn [hex_loop].
    rewrite Z.geb_leb, (proj2 (Z.leb_gt _ _)) by lia. reflexivity.
Qed.

Lemma hex_roundtrip_witness : hex_to_buf (buf_to_hex "abc") 3 = (3, "abc").
Proof. apply (hex_roundtrip "abc" 3). by vm_compute. Defined.

(** ** Queries *)

(** The parts of a string between occurrences of a character. *)
Fixpoint split_on (d : ascii) (s : str) : list str :=
  match s with
  | [] => [[]]
  | c :: s' =>
      if char_is d c then [] :: split_on d s'
      else match split_on d s' with [] => [[c]] | p :: ps => (c :: p) :: ps end
  end.

Lemma drop_sep (pre : str) c post : drop (S (length pre)) (pre ++ c :: post) = post.
Proof. induction pre; cbn in *; [by rewrite drop_0|done]. Qed.

Lemma split_on_none d s : find_if (char_is d) s = None → split_on d s = [s].
Proof.
  induction s as [|c s IH]; cbn; [done|]. destruct (char_is d c); [done|].
  destruct (find_if _ s); [done|]. intros _. by rewrite IH.
Qed.

Lemma split_on_some d s i :
  find_if (char_is d) s = Some i → split_on d s = take i s :: split_on d (drop (S i) s).
Proof.
  revert i. induction s as [|c s IH]; intros i; cbn; [done|]. destruct (char_is d c); [by intros [= <-]|].
  destruct (find_if _ s) as [j|]; [|done]. intros [= <-]. by rewrite (IH j eq_refl).
Qed.

Lemma parse_loop_spec oob fuel s pos st :
  (length s - pos < fuel)%nat →
  parse_loop oob fuel s pos st = fold_left (args_piece oob) (split_on "&" (drop pos s)) st.
Proof.
  revert pos st. induction fuel as [|fuel IH]; intros pos st Hf; [lia|]. cbn [parse_loop].
  unfold find_from. destruct (find_if _ (drop pos s)) as [i|] eqn:E; cbn [fmap option_fmap option_map].
  - rewrite (split_on_some _ _ _ E). cbn [fold_left]. rewrite drop_drop.
    apply find_if_Some in E as (pre & c & post & Hs & <- & _ & _).
    apply (f_equal length) in Hs. rewrite length_drop, length_app in Hs. cbn in Hs.
    rewrite IH by lia. unfold substr. f_equal; [f_equal; f_equal; lia|do 2 f_equal; lia].
  - rewrite (split_on_none _ _ E). cbn [fold_left]. unfold substr. f_equal. apply take_ge.
    rewrite length_drop. lia.
Qed.

(** A query made of escaped names and values. *)
Definition query_param (p : str * str) : str := url_encode (fst p) [] ++ "=" ++ url_encode (snd p) [].
Fixpoint query_of (kvs : list (str * str)) : str :=
  match kvs with
  | [] => []
  | [p] => query_param p
  | p :: kvs' => query_param p ++ "&" ++ query_of kvs'
  end.

Lemma query_param_without d p :
  char_needs_url_encoding d = true → d ≠ "%"%char → isdigit d || isupper d = false → d ≠ "="%char →
  d ∉ query_param p.
Proof.
  intros H1 H2 H3 H4. unfold query_param. rewrite !url_encode_app. cbn [app].
  rewrite elem_of_app, elem_of_cons.
  intros [Hc|[Hc|Hc]]; [revert Hc; by apply url_chars_without|done|revert Hc; by apply url_chars_without].
Qed.

Lemma find_if_not_in d s : d ∉ s → find_if (char_is d) s = None.
Proof.
  intros Hd. apply find_if_all_false, Forall_forall. intros c Hc. apply bool_decide_false. congruence.
Qed.

Lemma split_query kvs : kvs ≠ [] → split_on "&" (query_of kvs) = map query_param kvs.
Proof.
  assert (Hamp : ∀ p, "&"%char ∉ query_param p) by (intros p; by apply query_param_without).
  induction kvs as [|p kvs IH]; [done|]. intros _. destruct kvs as [|p' kvs].
  - cbn [query_of map]. by rewrite split_on_none by by apply find_if_not_in.
  - change (query_of (p :: p' :: kvs)) with (query_param p ++ "&"%char :: query_of (p' :: kvs)).
    rewrite (split_on_some _ _ (length (query_param p))).
    + rewrite take_app_length, drop_sep. cbn [map]. f_equal. by apply IH.
    + apply find_if_app; [|done]. apply Forall_forall. intros c Hc. apply bool_decide_false.
      intros ->. by apply (Hamp p).
Qed.

Definition clean_param (p : str * str) : Prop :=
  (NUL ∉ fst p) ∧ (NUL ∉ snd p) ∧ ("="%char ∉ fst p).

Lemma args_piece_param oob st p :
  clean_param p → args_piece oob st (query_param p) = args_add st (fst p) (snd p).
Proof.
  intros (H1 & H2 & H3). destruct p as [n v]. cbn [fst snd] in *. unfold args_piece.
  assert (Hdec : url_decode oob (query_param (n, v)) [] true = (true, n ++ "=" ++ v)).
  { unfold url_decode. rewrite cstr_no_nul by (by apply query_param_without).
    unfold query_param. cbn [fst snd]. rewrite !url_encode_app. cbn [app].
    rewrite url_decode_app. cbn [url_decode_loop].
    change (char_is "%" "=") with false. change (char_is "+" "=") with false. cbn [negb orb].
    rewrite <- (app_nil_r (concat (map url_char v))), url_decode_app. cbn.
    rewrite app_nil_r. rewrite cstr_no_nul; [done|].
    rewrite elem_of_app, elem_of_cons. intros [?|[?|?]]; done. }
  rewrite Hdec. change (n ++ "=" ++ v) with (n ++ "="%char :: v). unfold NameVal_parse.
  rewrite (find_if_app _ n "="%char v); [| |done].
  - unfold substr, substr_from. rewrite drop_0.
    by rewrite take_app_length, drop_sep.
  - apply Forall_forall. intros c Hc. apply bool_decide_false. congruence.
Qed.

Lemma args_add_maps st n v :
  ha_val_map (fst (args_add st n v)) =
    (if has_prefix RGW_SYS_PARAM_PREFIX n then ha_val_map (fst st) else mset n v (ha_val_map (fst st))) ∧
  ha_sys_val_map (fst (args_add st n v)) =
    (if has_prefix RGW_SYS_PARAM_PREFIX n then mset n v (ha_sys_val_map (fst st)) else ha_sys_val_map (fst st)).
Proof.
  unfold args_add. destruct st as [a b]. cbn [fst].
  by repeat (case_bool_decide; try destruct b).
Qed.

(** The last value given for a name. *)
Definition last_value (n : str) (kvs : list (str * str)) (init : option str) : option str :=
  fold_left (λ acc p, if streq n (fst p) then Some (snd p) else acc) kvs init.

Lemma args_fold_maps kvs n : ∀ st,
  let r := fst (fold_left (λ st p, args_add st (fst p) (snd p)) kvs st) in
  mfind n (ha_val_map r) = (if has_prefix RGW_SYS_PARAM_PREFIX n then mfind n (ha_val_map (fst st))
                            else last_value n kvs (mfind n (ha_val_map (fst st)))) ∧
  mfind n (ha_sys_val_map r) = (if has_prefix RGW_SYS_PARAM_PREFIX n
                                then last_value n kvs (mfind n (ha_sys_val_map (fst st)))
                                else mfind n (ha_sys_val_map (fst st))).
Proof.
  induction kvs as [|[k v] kvs IH]; intros st; [by destruct (has_prefix _ n)|].
  cbn [fold_left last_value fst snd]. specialize (IH (args_add st k v)). cbn zeta in IH |- *.
  destruct IH as [-> ->]. destruct (args_add_maps st k v) as [-> ->]. unfold streq.
  case_bool_decide as E.
  - subst k. destruct (has_prefix RGW_SYS_PARAM_PREFIX n); by rewrite mfind_mset_eq.
  - destruct (has_prefix RGW_SYS_PARAM_PREFIX k), (has_prefix RGW_SYS_PARAM_PREFIX n);
      by rewrite ?mfind_mset_ne by congruence.
Qed.

(** Parsing a query built from escaped names and values gives each name its
    last value, names of system parameters in a map of their own; and since
    [set] does not clear that map, the system parameters of an earlier query
    are still there. *)
Lemma query_roundtrip oob kvs a n :
  kvs ≠ [] → Forall clean_param kvs →
  let a' := args_parse oob (args_set (query_of kvs) a) in
  mfind n (ha_val_map a') =
    (if has_prefix RGW_SYS_PARAM_PREFIX n then None else last_value n kvs None) ∧
  mfind n (ha_sys_val_map a') =
    (if has_prefix RGW_SYS_PARAM_PREFIX n then last_value n kvs (mfind n (ha_sys_val_map a))
     else mfind n (ha_sys_val_map a)).
Proof.
  intros Hne Hk a'. subst a'. unfold args_parse. cbn [args_set ha_str].
  assert (Hq : query_of kvs !! 0%nat ≠ Some "?"%char).
  { intros Hq. apply list_elem_of_lookup_2 in Hq.
    assert (Hno : ∀ p, "?"%char ∉ query_param p) by (intros p; by apply query_param_without).
    clear Hne Hk. induction kvs as [|p [|p' kvs] IH]; [by apply not_elem_of_nil in Hq|by apply (Hno p)|].
    change (query_of (p :: p' :: kvs)) with (query_param p ++ "&"%char :: query_of (p' :: kvs)) in Hq.
    apply elem_of_app in Hq as [Hq|[Hq|Hq]%elem_of_cons]; [by apply (Hno p)|done|auto]. }
  rewrite bool_decide_false by done. rewrite parse_loop_spec by lia. rewrite drop_0, split_query by done.
  assert (Hf : ∀ st, fold_left (args_piece oob) (map query_param kvs) st =
                     fold_left (λ st p, args_add st (fst p) (snd p)) kvs st).
  { clear Hne Hq. induction Hk as [|p kvs Hp _ IH]; intros st; cbn; [done|].
    by rewrite args_piece_param, IH. }
  rewrite Hf. apply (args_fold_maps kvs n (args_set (query_of kvs) a, false)).
Qed.

Lemma query_roundtrip_witness :
  let a' := args_parse (λ _, 0) (args_set (query_of [("acl", ""); ("key", "a&b=c"); ("key", "x y")]) RGWHTTPArgs_new) in
  mfind "key" (ha_val_map a') = Some "x y" ∧ mfind "key" (ha_sys_val_map a') = None.
Proof.
  apply (query_roundtrip (λ _, 0) [("acl", ""); ("key", "a&b=c"); ("key", "x y")] RGWHTTPArgs_new "key").
  - done.
  - repeat constructor; apply (bool_decide_unpack _); by vm_compute.
Defined.
