(* ===== verification/Errors.v ===== *)
(** * Errors and HTTP statuses ([src/src/rgw/rgw_http_errors.h], [porting_rest.cc])

    The gateway's error codes, the tables that give each its HTTP status and S3
    code, and the record a failed request is answered from. *)

From S2P Require Import Prelude StdMap CString Http Strtol.

(** ** Error codes of [porting_common.h] *)

Definition STATUS_CREATED : Z := 1900.
Definition STATUS_ACCEPTED : Z := 1901.
Definition STATUS_NO_CONTENT : Z := 1902.
Definition STATUS_PARTIAL_CONTENT : Z := 1903.
Definition STATUS_REDIRECT : Z := 1904.
Definition ERR_INVALID_BUCKET_NAME : Z := 2000.
Definition ERR_INVALID_OBJECT_NAME : Z := 2001.
Definition ERR_NO_SUCH_BUCKET : Z := 2002.
Definition ERR_METHOD_NOT_ALLOWED : Z := 2003.
Definition ERR_INVALID_DIGEST : Z := 2004.
Definition ERR_BAD_DIGEST : Z := 2005.
Definition ERR_UNRESOLVABLE_EMAIL : Z := 2006.
Definition ERR_INVALID_PART : Z := 2007.
Definition ERR_INVALID_PART_ORDER : Z := 2008.
Definition ERR_NO_SUCH_UPLOAD : Z := 2009.
Definition ERR_REQUEST_TIMEOUT : Z := 2010.
Definition ERR_LENGTH_REQUIRED : Z := 2011.
Definition ERR_REQUEST_TIME_SKEWED : Z := 2012.
Definition ERR_BUCKET_EXISTS : Z := 2013.
Definition ERR_BAD_URL : Z := 2014.
Definition ERR_PRECONDITION_FAILED : Z := 2015.
Definition ERR_NOT_MODIFIED : Z := 2016.
Definition ERR_INVALID_UTF8 : Z := 2017.
Definition ERR_UNPROCESSABLE_ENTITY : Z := 2018.
Definition ERR_TOO_LARGE : Z := 2019.
Definition ERR_TOO_MANY_BUCKETS : Z := 2020.
Definition ERR_INVALID_REQUEST : Z := 2021.
Definition ERR_TOO_SMALL : Z := 2022.
Definition ERR_NOT_FOUND : Z := 2023.
Definition ERR_PERMANENT_REDIRECT : Z := 2024.
Definition ERR_LOCKED : Z := 2025.
Definition ERR_QUOTA_EXCEEDED : Z := 2026.
Definition ERR_SIGNATURE_NO_MATCH : Z := 2027.
Definition ERR_INVALID_ACCESS_KEY : Z := 2028.
Definition ERR_MALFORMED_XML : Z := 2029.
Definition ERR_USER_EXIST : Z := 2030.
Definition ERR_USER_SUSPENDED : Z := 2100.
Definition ERR_INTERNAL_ERROR : Z := 2200.
Definition ERR_NOT_IMPLEMENTED : Z := 2201.

Definition ETIMEDOUT : Z := 110.
Definition ENOTEMPTY : Z := 39.

(** ** Errors and HTTP statuses *)

Record rgw_http_errors := Mk_he { he_err_no : Z; he_http_ret : Z; he_s3_code : str }.

Definition RGW_HTTP_ERRORS : list rgw_http_errors := [
  Mk_he 0 200 []; Mk_he STATUS_CREATED 201 "Created"; Mk_he STATUS_ACCEPTED 202 "Accepted";
  Mk_he STATUS_NO_CONTENT 204 "NoContent"; Mk_he STATUS_PARTIAL_CONTENT 206 [];
  Mk_he ERR_PERMANENT_REDIRECT 301 "PermanentRedirect"; Mk_he STATUS_REDIRECT 303 [];
  Mk_he ERR_NOT_MODIFIED 304 "NotModified"; Mk_he EINVAL 400 "InvalidArgument";
  Mk_he ERR_INVALID_REQUEST 400 "InvalidRequest"; Mk_he ERR_INVALID_DIGEST 400 "InvalidDigest";
  Mk_he ERR_BAD_DIGEST 400 "BadDigest"; Mk_he ERR_INVALID_BUCKET_NAME 400 "InvalidBucketName";
  Mk_he ERR_INVALID_OBJECT_NAME 400 "InvalidObjectName";
  Mk_he ERR_UNRESOLVABLE_EMAIL 400 "UnresolvableGrantByEmailAddress";
  Mk_he ERR_INVALID_PART 400 "InvalidPart"; Mk_he ERR_INVALID_PART_ORDER 400 "InvalidPartOrder";
  Mk_he ERR_REQUEST_TIMEOUT 400 "RequestTimeout"; Mk_he ERR_TOO_LARGE 400 "EntityTooLarge";
  Mk_he ERR_TOO_SMALL 400 "EntityTooSmall"; Mk_he ERR_TOO_MANY_BUCKETS 400 "TooManyBuckets";
  Mk_he ERR_MALFORMED_XML 400 "MalformedXML"; Mk_he ERR_LENGTH_REQUIRED 411 "MissingContentLength";
  Mk_he EACCES 403 "AccessDenied"; Mk_he EPERM 403 "AccessDenied";
  Mk_he ERR_SIGNATURE_NO_MATCH 403 "SignatureDoesNotMatch";
  Mk_he ERR_INVALID_ACCESS_KEY 403 "InvalidAccessKeyId"; Mk_he ERR_USER_SUSPENDED 403 "UserSuspended";
  Mk_he ERR_REQUEST_TIME_SKEWED 403 "RequestTimeTooSkewed"; Mk_he ERR_QUOTA_EXCEEDED 403 "QuotaExceeded";
  Mk_he ENOENT 404 "NoSuchKey"; Mk_he ERR_NO_SUCH_BUCKET 404 "NoSuchBucket";
  Mk_he ERR_NO_SUCH_UPLOAD 404 "NoSuchUpload"; Mk_he ERR_NOT_FOUND 404 "Not Found";
  Mk_he ERR_METHOD_NOT_ALLOWED 405 "MethodNotAllowed"; Mk_he ETIMEDOUT 408 "RequestTimeout";
  Mk_he EEXIST 409 "BucketAlreadyExists"; Mk_he ERR_USER_EXIST 409 "UserAlreadyExists";
  Mk_he ENOTEMPTY 409 "BucketNotEmpty"; Mk_he ERR_PRECONDITION_FAILED 412 "PreconditionFailed";
  Mk_he ERANGE 416 "InvalidRange"; Mk_he ERR_UNPROCESSABLE_ENTITY 422 "UnprocessableEntity";
  Mk_he ERR_LOCKED 423 "Locked"; Mk_he ERR_INTERNAL_ERROR 500 "InternalError";
  Mk_he ERR_NOT_IMPLEMENTED 501 "NotImplemented" ].

Definition RGW_HTTP_SWIFT_ERRORS : list rgw_http_errors := [
  Mk_he EACCES 401 "AccessDenied"; Mk_he EPERM 401 "AccessDenied";
  Mk_he ERR_USER_SUSPENDED 401 "UserSuspended"; Mk_he ERR_INVALID_UTF8 412 "Invalid UTF8";
  Mk_he ERR_BAD_URL 412 "Bad URL" ].

Definition http_codes : list (Z * str) := [
  (100, "Continue"); (200, "OK"); (201, "Created"); (202, "Accepted"); (204, "No Content");
  (205, "Reset Content"); (206, "Partial Content"); (207, "Multi Status"); (208, "Already Reported");
  (300, "Multiple Choices"); (302, "Found"); (303, "See Other"); (304, "Not Modified");
  (305, "User Proxy"); (306, "Switch Proxy"); (307, "Temporary Redirect"); (308, "Permanent Redirect");
  (400, "Bad Request"); (401, "Unauthorized"); (402, "Payment Required"); (403, "Forbidden");
  (404, "Not Found"); (405, "Method Not Allowed"); (406, "Not Acceptable");
  (407, "Proxy Authentication Required"); (408, "Request Timeout"); (409, "Conflict"); (410, "Gone");
  (411, "Length Required"); (412, "Precondition Failed"); (413, "Request Entity Too Large");
  (414, "Request-URI Too Long"); (415, "Unsupported Media Type");
  (416, "Requested Range Not Satisfiable"); (417, "Expectation Failed"); (422, "Unprocessable Entity");
  (500, "Internal Server Error"); (501, "Not Implemented") ].

Fixpoint search_err (err_no : Z) (errs : list rgw_http_errors) : option rgw_http_errors :=
  match errs with
  | [] => None
  | e :: errs' => if err_no =? he_err_no e then Some e else search_err err_no errs'
  end.

Definition rgw_http_error_to_errno (http_err : Z) : Z :=
  if (http_err >=? 200) && (http_err <=? 299) then 0
  else if http_err =? 400 then - EINVAL
  else if http_err =? 401 then - EPERM
  else if http_err =? 403 then - EACCES
  else if http_err =? 404 then - ENOENT
  else - EIO.

Definition RGW_REST_SWIFT : Z := 1.

(** [set_req_state_err]: the error record of the request. *)
Definition set_req_state_err (prot_flags : Z) (err_no : Z) : rgw_err :=
  let err_no := if err_no <? 0 then s32 (- err_no) else err_no in
  let swift := if negb (Z.land prot_flags RGW_REST_SWIFT =? 0)
               then search_err err_no RGW_HTTP_SWIFT_ERRORS else None in
  match swift with
  | Some r => Mk_err (he_http_ret r) (s32 (- err_no)) (he_s3_code r)
  | None =>
      match search_err err_no RGW_HTTP_ERRORS with
      | Some r => Mk_err (he_http_ret r) (s32 (- err_no)) (he_s3_code r)
      | None => Mk_err 500 (s32 (- err_no)) "UnknownError"
      end
  end.

(** [http_status_names], as [rgw_rest_init] fills it; [dump_errno] prints the
    name [operator[]] finds, a null pointer where there is none. *)
Definition http_status_names : list (Z * str) :=
  fold_left (λ m p, mset (fst p) (snd p) m) http_codes [].
Definition dump_errno (e : rgw_err) : str * option str :=
  (print_int (er_http_ret e), mfind (er_http_ret e) http_status_names).

(** ** The status of an error *)

Lemma search_err_Some e errs r : search_err e errs = Some r → r ∈ errs ∧ he_err_no r = e.
Proof.
  induction errs as [|r' errs IH]; cbn; [done|]. destruct (Z.eqb_spec e (he_err_no r')).
  - intros [= <-]. split; [apply elem_of_cons; by left|done].
  - intros H. destruct (IH H) as [? ?]. split; [apply elem_of_cons; by right|done].
Qed.

Lemma search_err_None e errs : search_err e errs = None → ∀ r, r ∈ errs → he_err_no r ≠ e.
Proof.
  induction errs as [|r' errs IH]; cbn; [by intros _ r H%not_elem_of_nil|].
  destruct (Z.eqb_spec e (he_err_no r')); [done|]. intros H r [->|Hr]%elem_of_cons; [done|by apply IH].
Qed.

(** The codes that are no failure: their status is below 400. *)
Definition success_codes : list Z :=
  [0; STATUS_CREATED; STATUS_ACCEPTED; STATUS_NO_CONTENT; STATUS_PARTIAL_CONTENT;
   ERR_PERMANENT_REDIRECT; STATUS_REDIRECT; ERR_NOT_MODIFIED].

(** The statuses that [http_codes] has no name for. *)
Definition nameless : list Z := [301; 423].

Definition status_ok (e : Z) (r : rgw_err) : bool :=
  (200 <=? er_http_ret r) && (er_http_ret r <=? 501)
  && bool_decide (is_err r = false ↔ e ∈ success_codes)
  && bool_decide (snd (dump_errno r) = None ↔ er_http_ret r ∈ nameless).

Definition table_ok (errs : list rgw_http_errors) : bool :=
  forallb (λ r, status_ok (he_err_no r) (Mk_err (he_http_ret r) 0 (he_s3_code r))) errs.

Lemma tables_status_ok : table_ok RGW_HTTP_ERRORS = true ∧ table_ok RGW_HTTP_SWIFT_ERRORS = true.
Proof. by vm_compute. Qed.

Lemma status_ok_table errs e r :
  table_ok errs = true → search_err e errs = Some r → ∀ ret, status_ok e (Mk_err (he_http_ret r) ret (he_s3_code r)) = true.
Proof.
  intros Hf [Hin <-]%search_err_Some ret. unfold table_ok in Hf. rewrite forallb_forall in Hf.
  by apply (Hf r), list_elem_of_In.
Qed.

(** C39: every code, negative or positive, gets a status between 200 and 501 and
    is recorded negated; it counts as an error exactly when it is none of the
    eight success and redirection codes.  Only the statuses 301 and 423 are
    printed without a name. *)
Theorem error_status_spec flags e :
  - 2 ^ 31 < e < 2 ^ 31 →
  let r := set_req_state_err flags e in
  er_ret r = - Z.abs e
  ∧ 200 <= er_http_ret r <= 501
  ∧ (is_err r = false ↔ Z.abs e ∈ success_codes)
  ∧ (snd (dump_errno r) = None ↔ er_http_ret r ∈ nameless).
Proof.
  intros He. cbv zeta.
  assert (H : er_ret (set_req_state_err flags e) = - Z.abs e
              ∧ status_ok (Z.abs e) (set_req_state_err flags e) = true).
  { unfold set_req_state_err.
    assert ((if e <? 0 then s32 (- e) else e) = Z.abs e) as ->.
    { unfold s32. destruct (Z.ltb_spec e 0); [rewrite sgn_small by lia|]; lia. }
    assert (Hret : s32 (- Z.abs e) = - Z.abs e) by (unfold s32; rewrite sgn_small; lia).
    rewrite Hret.
    destruct (if negb _ then _ else None) as [r|] eqn:Esw.
    - split; [done|]. destruct (negb _) in Esw; [|done].
      apply (status_ok_table RGW_HTTP_SWIFT_ERRORS); [apply tables_status_ok|done].
    - destruct (search_err (Z.abs e) RGW_HTTP_ERRORS) as [r|] eqn:E.
      + split; [done|]. apply (status_ok_table RGW_HTTP_ERRORS); [apply tables_status_ok|done].
      + split; [done|].
        assert (Hn : bool_decide (Z.abs e ∈ success_codes) = false).
        { apply bool_decide_eq_false. intros Hin. pose proof (search_err_None _ _ E) as Hno.
          assert (Hall : Forall (λ c, bool_decide (c ∈ map he_err_no RGW_HTTP_ERRORS) = true) success_codes)
            by (repeat constructor).
          rewrite Forall_forall in Hall. specialize (Hall _ Hin). apply bool_decide_eq_true in Hall.
          apply list_elem_of_fmap in Hall as (r & Er & Hr). by apply (Hno r). }
        apply bool_decide_eq_false in Hn. unfold status_ok. cbn [er_http_ret].
        rewrite (bool_decide_eq_true_2 (_ ↔ Z.abs e ∈ _)) by (split; [by vm_compute|done]).
        by vm_compute. }
  destruct H as [Hr H]. split; [done|]. unfold status_ok in H.
  rewrite !andb_true_iff in H. destruct H as [[[H1 H2] H3] H4]. zbool.
  apply bool_decide_eq_true in H3, H4. done.
Qed.

Lemma error_status_spec_witness :
  let r := set_req_state_err 0 (- ERR_NO_SUCH_BUCKET) in
  er_ret r = -2002 ∧ 200 <= er_http_ret r <= 501
  ∧ (is_err r = false ↔ 2002 ∈ success_codes)
  ∧ (snd (dump_errno r) = None ↔ er_http_ret r ∈ nameless).
Proof. apply (error_status_spec 0 (- ERR_NO_SUCH_BUCKET)). unfold ERR_NO_SUCH_BUCKET. lia. Defined.

Lemma redirect_without_name :
  dump_errno (set_req_state_err 0 (- ERR_PERMANENT_REDIRECT)) = ("301", None)
  ∧ dump_errno (set_req_state_err 0 (- ERR_NO_SUCH_BUCKET)) = ("404", Some "Not Found").
Proof. by vm_compute. Qed.
