(* ===== verification/Armor.v ===== *)
(** * Base64 ([src/src/common/armor.c])

    The encoder and the decoder write into a buffer of limited size; what was
    written before an error stays written.  A source is the list of its bytes,
    the destination its contents so far with the number of bytes it can take. *)

From S2P Require Import Prelude CString.

(** ** Writing into a bounded buffer *)

Definition W (A : Type) : Type := bytes → (Z + A) * bytes.
#[export] Instance W_ret : MRet W := λ A x out, (inr x, out).
#[export] Instance W_bind : MBind W := λ A B k w out,
  match w out with
  | (inl e, out') => (inl e, out')
  | (inr x, out') => k x out'
  end.
Definition wreturn {A} (e : Z) : W A := λ out, (inl e, out).

(** [SET_DST(c)]: the [int] is stored as a [char]. *)
Definition set_str_val (cap : nat) (c : Z) : W unit := λ out,
  if (length out <? cap)%nat then (inr tt, out ++ [chr c]) else (inl (- ERANGE), out).

(** ** The alphabet *)

Definition pem_key : str := "ABCDEFGHIJKLMNOPQRSTUVWXYZabcdefghijklmnopqrstuvwxyz0123456789+/".

Definition encode_bits (c : Z) : Z := uchar (default NUL (pem_key !! Z.to_nat c)).

Definition decode_bits (ch : ascii) : Z :=
  let c := schar ch in
  if (65 <=? c) && (c <=? 90) then c - 65
  else if (97 <=? c) && (c <=? 122) then c - 97 + 26
  else if (48 <=? c) && (c <=? 57) then c - 48 + 52
  else if (c =? 43) || (c =? 45) then 62
  else if (c =? 47) || (c =? 95) then 63
  else if c =? 61 then 0
  else - EINVAL.

Definition PAD : ascii := "="%char.
Definition LF : ascii := chr 10.

(** ** Encoding *)

(** The end of a turn: a line break where one is due. *)
Definition armor_line (cap : nat) (line_width olen line : Z) : W (Z * Z) :=
  let olen := olen + 4 in
  let line := line + 4 in
  if negb (line_width =? 0) && (line =? line_width)
  then set_str_val cap 10 ≫= λ _, mret (olen + 1, 0)
  else mret (olen, line).

Fixpoint armor_loop (cap : nat) (line_width : Z) (src : bytes) (olen line : Z) : W Z :=
  match src with
  | [] => mret olen
  | a :: src =>
      let a := uchar a in
      set_str_val cap (encode_bits (Z.shiftr a 2)) ≫= λ _,
      match src with
      | b :: src =>
          let b := uchar b in
          set_str_val cap (encode_bits (Z.lor (Z.shiftl (Z.land a 3) 4) (Z.shiftr b 4))) ≫= λ _,
          match src with
          | c :: src =>
              let c := uchar c in
              set_str_val cap (encode_bits (Z.lor (Z.shiftl (Z.land b 15) 2) (Z.shiftr c 6))) ≫= λ _,
              set_str_val cap (encode_bits (Z.land c 63)) ≫= λ _,
              armor_line cap line_width olen line ≫= λ '(olen, line),
              armor_loop cap line_width src olen line
          | [] =>
              set_str_val cap (encode_bits (Z.shiftl (Z.land b 15) 2)) ≫= λ _,
              set_str_val cap 61 ≫= λ _,
              armor_line cap line_width olen line ≫= λ '(olen, _), mret olen
          end
      | [] =>
          set_str_val cap (encode_bits (Z.shiftl (Z.land a 3) 4)) ≫= λ _,
          set_str_val cap 61 ≫= λ _,
          set_str_val cap 61 ≫= λ _,
          armor_line cap line_width olen line ≫= λ '(olen, _), mret olen
      end
  end.

(** What a C function returns: the value or the error, both an [int]. *)
Definition result (p : (Z + Z) * bytes) : Z * bytes :=
  (match fst p with inl e => e | inr n => n end, snd p).

Definition ceph_armor_line_break (cap : nat) (src : bytes) (line_width : Z) : Z * bytes :=
  result (armor_loop cap line_width src 0 0 []).
Definition ceph_armor (cap : nat) (src : bytes) : Z * bytes := ceph_armor_line_break cap src 0.

(** ** Decoding *)

Fixpoint unarmor_loop (cap : nat) (src : bytes) (olen : Z) : W Z :=
  match src with
  | [] => mret olen
  | s0 :: src1 =>
      if decide (s0 = LF) then unarmor_loop cap src1 olen
      else match src1 with
           | s1 :: s2 :: s3 :: src4 =>
               let a := decode_bits s0 in
               let b := decode_bits s1 in
               let c := decode_bits s2 in
               let d := decode_bits s3 in
               if (a <? 0) || (b <? 0) || (c <? 0) || (d <? 0) then wreturn (- EINVAL)
               else
                 set_str_val cap (Z.lor (Z.shiftl a 2) (Z.shiftr b 4)) ≫= λ _,
                 if decide (s2 = PAD) then mret (olen + 1)
                 else
                   set_str_val cap (Z.lor (Z.shiftl (Z.land b 15) 4) (Z.shiftr c 2)) ≫= λ _,
                   if decide (s3 = PAD) then mret (olen + 2)
                   else
                     set_str_val cap (Z.lor (Z.shiftl (Z.land c 3) 6) d) ≫= λ _,
                     unarmor_loop cap src4 (olen + 3)
           | _ => wreturn (- EINVAL)
           end
  end.

Definition ceph_unarmor (cap : nat) (src : bytes) : Z * bytes := result (unarmor_loop cap src 0 []).

(** ** Writing a known text *)

(** [w] writes the text [t] and returns [x], or fills the buffer and fails if
    it has no room for all of [t]. *)
Definition writes {A} (cap : nat) (w : W A) (t : bytes) (x : A) : Prop :=
  ∀ out, (length out <= cap)%nat →
    w out = if (length out + length t <=? cap)%nat then (inr x, out ++ t)
            else (inl (- ERANGE), take cap (out ++ t)).

Lemma writes_ret {A} cap (x : A) : writes cap (mret x) [] x.
Proof.
  intros out Hout. cbn. rewrite Nat.add_0_r, (proj2 (Nat.leb_le _ _) Hout). by rewrite app_nil_r.
Qed.

Lemma writes_bind {A B} cap (w : W A) (k : A → W B) t1 t2 x y :
  writes cap w t1 x → writes cap (k x) t2 y → writes cap (w ≫= k) (t1 ++ t2) y.
Proof.
  intros Hw Hk out Hout. unfold mbind, W_bind. rewrite (Hw out Hout), length_app.
  destruct (Nat.leb_spec (length out + length t1) cap) as [H1|H1].
  - rewrite Hk by (rewrite length_app; lia). rewrite length_app, <- app_assoc.
    by replace (length out + length t1 + length t2)%nat with (length out + (length t1 + length t2))%nat by lia.
  - rewrite (proj2 (Nat.leb_gt _ _)) by lia. f_equal. rewrite (app_assoc out), (take_app_le (out ++ t1)); [done|].
    rewrite length_app. lia.
Qed.

Lemma writes_last {A B} cap (w : W A) (k : A → W B) t x y :
  writes cap w t x → writes cap (k x) [] y → writes cap (w ≫= k) t y.
Proof. intros Hw Hk. rewrite <- (app_nil_r t). by eapply writes_bind. Qed.

Lemma writes_eq {A} cap (w : W A) t x y : x = y → writes cap w t x → writes cap w t y.
Proof. by intros ->. Qed.

Lemma writes_char cap c : writes cap (set_str_val cap c) [chr c] tt.
Proof.
  intros out Hout. unfold set_str_val. cbn [length].
  destruct (Nat.ltb_spec (length out) cap) as [H1|H1].
  - by rewrite (proj2 (Nat.leb_le _ _)) by lia.
  - rewrite (proj2 (Nat.leb_gt _ _)) by lia. f_equal. assert (length out = cap) as <- by lia.
    by rewrite take_app_length.
Qed.

Lemma writes_cons {B} cap c (k : unit → W B) t y :
  writes cap (k tt) t y → writes cap (set_str_val cap c ≫= k) (chr c :: t) y.
Proof. apply (writes_bind cap _ k [chr c]), writes_char. Qed.

(** ** The text of an encoding *)

Definition e6 (z : Z) : ascii := chr (encode_bits z).

Definition group3 (a b c : Z) : bytes :=
  [e6 (Z.shiftr a 2); e6 (Z.lor (Z.shiftl (Z.land a 3) 4) (Z.shiftr b 4));
   e6 (Z.lor (Z.shiftl (Z.land b 15) 2) (Z.shiftr c 6)); e6 (Z.land c 63)].
Definition group2 (a b : Z) : bytes :=
  [e6 (Z.shiftr a 2); e6 (Z.lor (Z.shiftl (Z.land a 3) 4) (Z.shiftr b 4));
   e6 (Z.shiftl (Z.land b 15) 2); PAD].
Definition group1 (a : Z) : bytes := [e6 (Z.shiftr a 2); e6 (Z.shiftl (Z.land a 3) 4); PAD; PAD].

(** The break after a group that ends at column [line], and the column then. *)
Definition line_break (width line : Z) : bytes * Z :=
  if negb (width =? 0) && (line + 4 =? width) then ([LF], 0) else ([], line + 4).

Fixpoint armored (width line : Z) (src : bytes) : bytes :=
  match src with
  | a :: b :: c :: src =>
      group3 (uchar a) (uchar b) (uchar c) ++
      fst (line_break width line) ++ armored width (snd (line_break width line)) src
  | [a; b] => group2 (uchar a) (uchar b) ++ fst (line_break width line)
  | [a] => group1 (uchar a) ++ fst (line_break width line)
  | [] => []
  end.

Lemma writes_line cap width olen line :
  writes cap (armor_line cap width olen line) (fst (line_break width line))
    (olen + 4 + zlen (fst (line_break width line)), snd (line_break width line)).
Proof.
  unfold armor_line, line_break. destruct (_ && _); cbn [fst snd].
  - apply (writes_cons cap 10), writes_ret.
  - eapply writes_eq; [|apply writes_ret]. by rewrite zlen_nil, Z.add_0_r.
Qed.

(** A list of bytes three at a time. *)
Lemma list_ind3 {A} (P : list A → Prop) :
  P [] → (∀ a, P [a]) → (∀ a b, P [a; b]) → (∀ a b c l, P l → P (a :: b :: c :: l)) → ∀ l, P l.
Proof.
  intros H0 H1 H2 H3. fix IH 1. intros [|a [|b [|c l]]]; [exact H0|apply H1|apply H2|apply H3, IH].
Qed.

Lemma writes_armor cap width src olen line :
  writes cap (armor_loop cap width src olen line) (armored width line src)
    (olen + zlen (armored width line src)).
Proof.
  revert olen line. induction src as [|a|a b|a b c src IH] using list_ind3; intros olen line; cbn [armor_loop armored].
  - rewrite zlen_nil, Z.add_0_r. apply writes_ret.
  - eapply writes_eq; [|do 4 apply writes_cons; eapply writes_last; [apply writes_line|apply writes_ret]].
    unfold group1. rewrite zlen_app, !zlen_cons, zlen_nil. cbv beta iota. lia.
  - eapply writes_eq; [|do 4 apply writes_cons; eapply writes_last; [apply writes_line|apply writes_ret]].
    unfold group2. rewrite zlen_app, !zlen_cons, zlen_nil. cbv beta iota. lia.
  - eapply writes_eq; [|do 4 apply writes_cons; eapply writes_bind; [apply writes_line|apply IH]].
    unfold group3. rewrite !zlen_app, !zlen_cons, zlen_nil. lia.
Qed.

(** ** Groups *)

Lemma lor_shiftl_add x y n : 0 <= n → 0 <= y < 2 ^ n → Z.lor (Z.shiftl x n) y = x * 2 ^ n + y.
Proof.
  intros Hn Hy. rewrite <- Z.shiftl_mul_pow2 by done.
  rewrite <- (Z.add_lor_land (Z.shiftl x n) y).
  assert (Z.land (Z.shiftl x n) y = 0) as ->; [|lia].
  apply Z.bits_inj'. intros k Hk. rewrite Z.land_spec, Z.bits_0.
  destruct (Z.ltb_spec k n); [by rewrite Z.shiftl_spec_low|].
  replace y with (y mod 2 ^ n) by (by apply Z.mod_small).
  rewrite Z.mod_pow2_bits_high by lia. apply andb_false_r.
Qed.

Lemma land_3 a : Z.land a 3 = a mod 4.
Proof. by apply (Z.land_ones a 2). Qed.
Lemma land_15 a : Z.land a 15 = a mod 16.
Proof. by apply (Z.land_ones a 4). Qed.
Lemma land_63 a : Z.land a 63 = a mod 64.
Proof. by apply (Z.land_ones a 6). Qed.

(** The sextets of a group in arithmetic. *)
Lemma sextet_hi a : Z.shiftr a 2 = a / 4.
Proof. by rewrite Z.shiftr_div_pow2. Qed.
Lemma sextet_2 a b : 0 <= b < 256 → Z.lor (Z.shiftl (Z.land a 3) 4) (Z.shiftr b 4) = a mod 4 * 16 + b / 16.
Proof.
  intros Hb. rewrite land_3, Z.shiftr_div_pow2 by lia.
  apply (lor_shiftl_add (a mod 4) (b / 16) 4); dlia.
Qed.
Lemma sextet_2_last a : Z.shiftl (Z.land a 3) 4 = a mod 4 * 16.
Proof. by rewrite land_3, Z.shiftl_mul_pow2 by lia. Qed.
Lemma sextet_3 b c : 0 <= c < 256 → Z.lor (Z.shiftl (Z.land b 15) 2) (Z.shiftr c 6) = b mod 16 * 4 + c / 64.
Proof.
  intros Hc. rewrite land_15, Z.shiftr_div_pow2 by lia.
  apply (lor_shiftl_add (b mod 16) (c / 64) 2); dlia.
Qed.
Lemma sextet_3_last b : Z.shiftl (Z.land b 15) 2 = b mod 16 * 4.
Proof. by rewrite land_15, Z.shiftl_mul_pow2 by lia. Qed.

(** The bytes of a group in arithmetic. *)
Lemma octet_1 x y : 0 <= y < 64 → Z.lor (Z.shiftl x 2) (Z.shiftr y 4) = x * 4 + y / 16.
Proof. intros Hy. rewrite Z.shiftr_div_pow2 by lia. apply (lor_shiftl_add x (y / 16) 2); dlia. Qed.
Lemma octet_2 y z : 0 <= z < 64 → Z.lor (Z.shiftl (Z.land y 15) 4) (Z.shiftr z 2) = y mod 16 * 16 + z / 4.
Proof.
  intros Hz. rewrite land_15, Z.shiftr_div_pow2 by lia.
  apply (lor_shiftl_add (y mod 16) (z / 4) 4); dlia.
Qed.
Lemma octet_3 z w : 0 <= w < 64 → Z.lor (Z.shiftl (Z.land z 3) 6) w = z mod 4 * 64 + w.
Proof. intros Hw. rewrite land_3 by lia. apply (lor_shiftl_add (z mod 4) w 6); dlia. Qed.

(** The alphabet: what is written is read back, and is neither padding nor a
    line break. *)
Lemma e6_ok z : 0 <= z < 64 → decode_bits (e6 z) = z ∧ e6 z ≠ PAD ∧ e6 z ≠ LF.
Proof.
  intros Hz.
  assert (Hall : Forall (λ z, decode_bits (e6 z) = z ∧ e6 z ≠ PAD ∧ e6 z ≠ LF) (seqZ 0 64))
    by (apply (bool_decide_unpack _); vm_compute; exact I).
  apply (proj1 (Forall_forall _ _) Hall), elem_of_seqZ. lia.
Qed.

(** Decoding a group of four characters of the alphabet. *)
Lemma unarmor_group cap x y z w src olen :
  0 <= x < 64 → 0 <= y < 64 → 0 <= z < 64 → 0 <= w < 64 →
  unarmor_loop cap (e6 x :: e6 y :: e6 z :: e6 w :: src) olen =
    (set_str_val cap (x * 4 + y / 16) ≫= λ _,
     set_str_val cap (y mod 16 * 16 + z / 4) ≫= λ _,
     set_str_val cap (z mod 4 * 64 + w) ≫= λ _, unarmor_loop cap src (olen + 3)).
Proof.
  intros Hx Hy Hz Hw. cbn [unarmor_loop].
  destruct (e6_ok x Hx) as (-> & _ & Hl), (e6_ok y Hy) as (-> & _), (e6_ok z Hz) as (-> & Hp & _),
    (e6_ok w Hw) as (-> & Hq & _).
  rewrite (decide_False _ _ Hl), !(proj2 (Z.ltb_ge _ _)) by lia. cbn [orb].
  rewrite (decide_False _ _ Hp), (decide_False _ _ Hq).
  by rewrite octet_1, octet_2, octet_3.
Qed.

Lemma unarmor_group2 cap x y z src olen :
  0 <= x < 64 → 0 <= y < 64 → 0 <= z < 64 →
  unarmor_loop cap (e6 x :: e6 y :: e6 z :: PAD :: src) olen =
    (set_str_val cap (x * 4 + y / 16) ≫= λ _,
     set_str_val cap (y mod 16 * 16 + z / 4) ≫= λ _, mret (olen + 2)).
Proof.
  intros Hx Hy Hz. cbn [unarmor_loop].
  destruct (e6_ok x Hx) as (-> & _ & Hl), (e6_ok y Hy) as (-> & _), (e6_ok z Hz) as (-> & Hp & _).
  rewrite (decide_False _ _ Hl), !(proj2 (Z.ltb_ge _ _)) by lia. cbn [orb].
  rewrite (decide_False _ _ Hp), octet_1, octet_2 by done. reflexivity.
Qed.

Lemma unarmor_group1 cap x y src olen :
  0 <= x < 64 → 0 <= y < 64 →
  unarmor_loop cap (e6 x :: e6 y :: PAD :: PAD :: src) olen =
    (set_str_val cap (x * 4 + y / 16) ≫= λ _, mret (olen + 1)).
Proof.
  intros Hx Hy. cbn [unarmor_loop].
  destruct (e6_ok x Hx) as (-> & _ & Hl), (e6_ok y Hy) as (-> & _).
  rewrite (decide_False _ _ Hl), !(proj2 (Z.ltb_ge _ _)) by lia. cbn [orb].
  rewrite octet_1 by done. reflexivity.
Qed.

Lemma unarmor_break cap width line src olen :
  unarmor_loop cap (fst (line_break width line) ++ src) olen = unarmor_loop cap src olen.
Proof. unfold line_break. by destruct (_ && _). Qed.

Lemma writes_byte {B} cap c z (k : unit → W B) t y :
  z = uchar c → writes cap (k tt) t y → writes cap (set_str_val cap z ≫= k) (c :: t) y.
Proof. intros -> Hk. rewrite <- (chr_uchar c) at 2. by apply writes_cons. Qed.

(** Decoding an armored text writes the source. *)
Lemma writes_unarmor cap width src olen line :
  writes cap (unarmor_loop cap (armored width line src) olen) src (olen + zlen src).
Proof.
  revert olen line. induction src as [|a|a b|a b c src IH] using list_ind3; intros olen line; cbn [armored].
  - rewrite zlen_nil, Z.add_0_r. apply writes_ret.
  - pose proof (uchar_range a). unfold group1. rewrite sextet_hi, sextet_2_last. cbn [app].
    rewrite unarmor_group1 by dlia. apply writes_byte; [dlia|]. apply writes_ret.
  - pose proof (uchar_range a). pose proof (uchar_range b). unfold group2.
    rewrite sextet_hi, sextet_2, sextet_3_last by done. cbn [app].
    rewrite unarmor_group2 by dlia. do 2 (apply writes_byte; [dlia|]). apply writes_ret.
  - pose proof (uchar_range a). pose proof (uchar_range b). pose proof (uchar_range c). unfold group3.
    rewrite sextet_hi, sextet_2, sextet_3, land_63 by done. cbn [app].
    rewrite unarmor_group by dlia. do 3 (apply writes_byte; [dlia|]). rewrite unarmor_break.
    eapply writes_eq; [|apply IH]. rewrite !zlen_cons. lia.
Qed.

Lemma zlen_armored_0 src line : zlen (armored 0 line src) = 4 * ((zlen src + 2) / 3).
Proof.
  revert line. induction src as [|a|a b|a b c src IH] using list_ind3; intros line; try reflexivity.
  cbn [armored]. rewrite !zlen_app, IH, !zlen_cons. pose proof (zlen_nonneg src).
  change (zlen (group3 _ _ _)) with 4. change (zlen (fst (line_break 0 line))) with 0. dlia.
Qed.

(** ** Theorems *)

(** Base64 round-trips, with or without line breaks: the encoder fails with
    [ERANGE], having filled the buffer and no more, exactly when the text does
    not fit, and otherwise returns the length of a text that the decoder turns
    back into the source, if its own buffer has room for it; without line breaks
    the text takes four characters for every three bytes begun. *)
Lemma armor_roundtrip cap src width :
  let '(r, t) := ceph_armor_line_break cap src width in
  (length t <= cap)%nat ∧
  ((r = - ERANGE ∧ length t = cap) ∨
   (r = zlen t ∧
    ∀ cap', ceph_unarmor cap' t =
      if (length src <=? cap')%nat then (zlen src, src) else (- ERANGE, take cap' src))) ∧
  (width = 0 → if Z.of_nat cap <? 4 * ((zlen src + 2) / 3) then r = - ERANGE
               else r = 4 * ((zlen src + 2) / 3)).
Proof.
  unfold ceph_armor_line_break. rewrite (writes_armor cap width src 0 0 []) by (cbn; lia).
  cbn [length Nat.add app]. destruct (Nat.leb_spec (length (armored width 0 src)) cap) as [Hc|Hc]; cbn [result fst snd].
  - split_and!; [done| |].
    + right. split; [done|]. intros cap'. unfold ceph_unarmor.
      rewrite (writes_unarmor cap' width src 0 0 []) by (cbn; lia). cbn [length Nat.add app].
      by destruct (length src <=? cap')%nat.
    + intros ->. pose proof (zlen_armored_0 src 0). unfold zlen in *.
      rewrite (proj2 (Z.ltb_ge _ _)); lia.
  - rewrite length_take. split_and!; [lia|left; split; [done|lia]|].
    intros ->. pose proof (zlen_armored_0 src 0). unfold zlen in *.
    by rewrite (proj2 (Z.ltb_lt _ _)) by lia.
Qed.
