(* ===== verification/AuthS3.v ===== *)
(** * S3 request signatures ([src/src/rgw/rgw_auth_s3.cc], [porting_rest_s3.cc])

    The string a client signs, the digest the gateway expects, and
    [RGW_Auth_S3::authorize] as it is built (without [FICS]).  The MAC
    ([calc_hmac_sha1], Crypto++), the calendar functions and the account
    databases of the C library, and the index of users in the store are
    parameters. *)

From S2P Require Import Prelude StdMap Encoding Utime CString Env Http Errors Acl RgwObj Records Armor.

(** ** The canonical string *)

Definition signed_subresources : list str :=
  ["acl"; "cors"; "delete"; "lifecycle"; "location"; "logging"; "notification"; "partNumber"; "policy";
   "requestPayment"; "response-cache-control"; "response-content-disposition";
   "response-content-encoding"; "response-content-language"; "response-content-type"; "response-expires";
   "torrent"; "uploadId"; "uploads"; "versionId"; "versioning"; "versions"; "website"].

Definition get_canon_amz_hdr (meta_map : list (str * str)) : str :=
  fold_left (λ dest p, dest ++ fst p ++ ":" ++ snd p ++ [LF]) meta_map [].

(** One turn of the loop over [signed_subresources]. *)
Definition append_subresource (sub_resources : list (str * str)) (append_str p : str) : str :=
  match mfind p sub_resources with
  | None => append_str
  | Some v =>
      let append_str := append_str ++ (if bool_decide (append_str = []) then "?" else "&") in
      let append_str := append_str ++ p in
      if bool_decide (v = []) then append_str else append_str ++ "=" ++ v
  end.

Definition get_canon_resource (request_uri : option str) (sub_resources : list (str * str)) : str :=
  default [] request_uri ++ fold_left (append_subresource sub_resources) signed_subresources [].

(** The first [rgw_create_s3_canonical_header]. *)
Definition canonical_string (method content_md5 content_type date : option str)
    (meta_map : list (str * str)) (request_uri : option str) (sub_resources : list (str * str)) : str :=
  default [] method ++ [LF] ++ default [] content_md5 ++ [LF] ++ default [] content_type ++ [LF] ++
  default [] date ++ [LF] ++ get_canon_amz_hdr meta_map ++ get_canon_resource request_uri sub_resources.

Definition is_base64_for_content_md5 (c : ascii) : bool :=
  isalnum c || isspace c || char_is "+" c || char_is "/" c || char_is "=" c.

(** ** Dates *)

Record tm := Mk_tm { tm_sec : Z; tm_min : Z; tm_hour : Z; tm_mday : Z; tm_mon : Z; tm_year : Z }.

Definition check_gmt_end (s : option str) : bool :=
  match s with
  | None => false
  | Some s =>
      if bool_decide (s = []) then false
      else
        let s := skip_spaces s in
        has_prefix "GMT" s || has_prefix "UTC" s
  end.

Definition check_str_end (s : option str) : bool :=
  match s with None => false | Some s => forallb isspace s end.


(** The part of [req_state] the authentication reads and writes. *)
Record auth_state := Mk_auth_state {
  as_op_options : bool;
  as_http_auth : option str;
  as_info : req_info;
  as_user : RGWUserInfo;
  as_perm_mask : Z;
  as_header_time : utime_t;
  as_system_request : bool
}.
Definition as_set_user v s := Mk_auth_state (as_op_options s) (as_http_auth s) (as_info s) v
  (as_perm_mask s) (as_header_time s) (as_system_request s).
Definition as_set_perm_mask v s := Mk_auth_state (as_op_options s) (as_http_auth s) (as_info s) (as_user s)
  v (as_header_time s) (as_system_request s).
Definition as_set_header_time v s := Mk_auth_state (as_op_options s) (as_http_auth s) (as_info s) (as_user s)
  (as_perm_mask s) v (as_system_request s).
Definition as_set_system v s := Mk_auth_state (as_op_options s) (as_http_auth s) (as_info s) (as_user s)
  (as_perm_mask s) (as_header_time s) v.
Definition as_set_args a s :=
  let r := as_info s in
  Mk_auth_state (as_op_options s) (as_http_auth s)
    (Mk_req_info (ri_env r) a (ri_x_meta_map r) (ri_host r) (ri_method r) (ri_script_uri r)
       (ri_request_uri r) (ri_effective_uri r) (ri_request_params r))
    (as_user s) (as_perm_mask s) (as_header_time s) (as_system_request s).

(** [init_anon_user]: the user itself is left alone. *)
Definition init_anon_user (s : auth_state) : auth_state := as_set_perm_mask RGW_PERM_FULL_CONTROL s.

(** What the request says about its signer: an error, no signature, or the
    access key, the signature and whether they come from the query. *)
Definition credentials (now : Z) (s : auth_state) : Z + option (str * str * bool) :=
  match as_http_auth s with
  | None | Some [] =>
      let args := ri_args (as_info s) in
      let auth_id := fst (args_get "AWSAccessKeyId" args) in
      if negb (bool_decide (auth_id = [])) then
        let auth_sign := fst (args_get "Signature" args) in
        let exp := atoll (cstr (fst (args_get "Expires" args))) in
        if now >=? exp then inl (- EPERM) else inr (Some (auth_id, auth_sign, true))
      else inr None
  | Some http_auth =>
      if negb (has_prefix "AWS " http_auth) then inl (- EINVAL)
      else
        let auth_str := drop 4 http_auth in
        match find_last_if (char_is COLON) auth_str with
        | None => inl (- EINVAL)
        | Some pos => inr (Some (substr 0 pos auth_str, substr_from (pos + 1) auth_str, false))
        end
  end.

Section auth.
(** [calc_hmac_sha1(key, msg)] *)
Variable hmac_sha1 : bytes → bytes → bytes.

(** [strptime(s, format)]: what is left of the string, and the broken-down time;
    [timegm]; whether [getspnam] and which user id [getpwnam] finds. *)
Variable strptime : str → str → option (str * tm).
Variable timegm : tm → Z.
Variable getspnam : str → bool.
Variable getpwnam : str → option Z.

(** [rgw_get_user_info_from_index] on the users' bucket: result and user. *)
Variable user_from_index : str → RGWUserInfo → Z * RGWUserInfo.

(** [G.user_name], [G.rgw_s3_auth_use_rados] *)
Variable G_user_name : str.
Variable rgw_s3_auth_use_rados : bool.

Definition parse_gmt (fmt s : str) : option tm :=
  match strptime s fmt with
  | Some (rest, t) => if check_gmt_end (Some rest) then Some t else None
  | None => None
  end.
Definition parse_end (fmt s : str) : option tm :=
  match strptime s fmt with
  | Some (rest, t) => if check_str_end (Some rest) then Some t else None
  | None => None
  end.
Definition parse_rfc850 (s : str) : option tm := parse_gmt "%A, %d-%b-%y %H:%M:%S " s.
Definition parse_asctime (s : str) : option tm := parse_end "%a %b %d %H:%M:%S %Y" s.
Definition parse_rfc1123 (s : str) : option tm := parse_gmt "%a, %d %b %Y %H:%M:%S " s.
Definition parse_rfc1123_alt (s : str) : option tm := parse_end "%a, %d %b %Y %H:%M:%S %z" s.

Definition parse_rfc2616 (s : str) : option tm :=
  match parse_rfc850 s with
  | Some t => Some t
  | None =>
      match parse_asctime s with
      | Some t => Some t
      | None => match parse_rfc1123 s with Some t => Some t | None => parse_rfc1123_alt s end
      end
  end.

Definition parse_time (s : str) : Z + Z :=
  match parse_rfc2616 s with None => inl (- EINVAL) | Some t => inr (timegm t) end.

(** The date line of the canonical string, and the request's time. *)
Definition canonical_date (info : req_info) (qsr want_time : bool) : option (str * option utime_t) :=
  if qsr then Some (fst (args_get "Expires" (ri_args info)), None)
  else
    let str := env_get "HTTP_DATE" (ri_env info) in
    match (match str with Some d => Some d | None => env_get "HTTP_X_AMZ_DATE" (ri_env info) end) with
    | None => None
    | Some req_date =>
        let date := default [] str in
        if want_time then
          match parse_rfc2616 req_date with
          | None => None
          | Some t => if tm_year t <? 70 then None else Some (date, Some (mk_utime (timegm t) 0))
          end
        else Some (date, None)
    end.

(** The second [rgw_create_s3_canonical_header]: the string and the request's
    time, where it is asked for and taken from a header. *)
Definition rgw_create_s3_canonical_header (info : req_info) (want_time qsr : bool)
    : option (str * option utime_t) :=
  let content_md5 := env_get "HTTP_CONTENT_MD5" (ri_env info) in
  if negb (forallb is_base64_for_content_md5 (default [] content_md5)) then None
  else
    let content_type := env_get "CONTENT_TYPE" (ri_env info) in
    match canonical_date info qsr want_time with
    | None => None
    | Some (date, time) =>
        let request_uri :=
          match ri_effective_uri info with [] => ri_request_uri info | u => u end in
        Some (canonical_string (Some (ri_method info)) content_md5 content_type (Some (cstr date))
                (ri_x_meta_map info) (Some (cstr request_uri)) (ha_sub_resources (ri_args info)), time)
    end.

(** ** The expected signature *)

Definition rgw_get_s3_header_digest (auth_hdr key : str) : Z + str :=
  if bool_decide (key = []) then inl (- EINVAL)
  else
    let '(ret, b64) := ceph_armor 64 (hmac_sha1 key auth_hdr) in
    if ret <? 0 then inl ret else inr (cstr (take (Z.to_nat ret) b64)).

(** ** The user *)

(** [getuid(suffix_name)]: the prefix of account names is empty. *)
Definition getuid (suffix_name : str) : Z :=
  let name := if bool_decide (suffix_name = []) then G_user_name else suffix_name in
  match getpwnam name with None => -1 | Some uid => s32 uid end.

Definition ui_set_names (n : str) (i : RGWUserInfo) : RGWUserInfo :=
  Mk_RGWUserInfo (ui_auid i) n n (ui_user_email i) (ui_access_keys i) (ui_swift_keys i) (ui_subusers i)
    (ui_suspended i) (ui_max_buckets i) (ui_op_mask i) (ui_caps i) (ui_system i) (ui_default_placement i)
    (ui_placement_tags i) (ui_bucket_quota i) (ui_temp_url_keys i) (ui_user_quota i).
Definition ui_set_auid (a : Z) (i : RGWUserInfo) : RGWUserInfo :=
  Mk_RGWUserInfo a (ui_user_id i) (ui_display_name i) (ui_user_email i) (ui_access_keys i) (ui_swift_keys i)
    (ui_subusers i) (ui_suspended i) (ui_max_buckets i) (ui_op_mask i) (ui_caps i) (ui_system i)
    (ui_default_placement i) (ui_placement_tags i) (ui_bucket_quota i) (ui_temp_url_keys i) (ui_user_quota i).

Definition rgw_get_user_info_by_access_key (access_key : str) (info : RGWUserInfo) : Z * RGWUserInfo :=
  let uid := getuid (cstr access_key) in
  if uid <? 0 then (-1, info)
  else
    let info := ui_set_names access_key (ui_set_auid (u64 uid) info) in
    let '(ret, info) := user_from_index access_key info in
    (ret, ui_set_names access_key info).

(** ** [RGW_Auth_S3::authorize] *)

(** The key the signature is checked with. *)
Definition account_key (auth_id : str) : RGWAccessKey := Mk_RGWAccessKey auth_id "8888" [].

(** After the user has been found. *)
Definition verify_signature (auth_id auth_sign : str) (qsr : bool) (s : auth_state) : Z * auth_state :=
  match rgw_create_s3_canonical_header (as_info s) true qsr with
  | None => (- EPERM, s)
  | Some (auth_hdr, time) =>
      let s := as_set_header_time (default (as_header_time s) time) s in
      if negb (getspnam (cstr auth_id)) then (- EPERM, s)
      else
        let k := account_key auth_id in
        let mask :=
          if negb (bool_decide (ak_subuser k = []))
          then su_perm_mask <$> mfind (ak_subuser k) (ui_subusers (as_user s))
          else Some RGW_PERM_FULL_CONTROL in
        match mask with
        | None => (- EPERM, s)
        | Some mask =>
            let s := as_set_perm_mask mask s in
            match rgw_get_s3_header_digest auth_hdr (ak_key k) with
            | inl _ => (- EPERM, s)
            | inr digest =>
                if negb (streq auth_sign digest) then (- ERR_SIGNATURE_NO_MATCH, s)
                else if negb (ui_system (as_user s) =? 0) then
                  let s := as_set_system true s in
                  let s := as_set_args (args_set_system (ri_args (as_info s))) s in
                  let effective_uid := fst (args_get (RGW_SYS_PARAM_PREFIX ++ "uid") (ri_args (as_info s))) in
                  (0, if negb (bool_decide (effective_uid = [])) then as_set_user RGWUserInfo_new s else s)
                else (0, s)
            end
        end
  end.

Definition authorize (now : Z) (s : auth_state) : Z * auth_state :=
  if as_op_options s then (0, init_anon_user s)
  else
    match credentials now s with
    | inl e => (e, s)
    | inr None => (0, init_anon_user s)
    | inr (Some (auth_id, auth_sign, qsr)) =>
        if negb rgw_s3_auth_use_rados then (- EINVAL, s)
        else
          let '(ret, user) := rgw_get_user_info_by_access_key auth_id (as_user s) in
          let s := as_set_user user s in
          if ret <? 0 then (- ERR_INVALID_ACCESS_KEY, s)
          else verify_signature auth_id auth_sign qsr s
    end.
End auth.
