(* ===== verification/AuthS3Facts.v ===== *)
(** * Properties of S3 request signatures

    What a signature covers, the digest of a request, and exactly when a request
    is let in. *)

From S2P Require Import Prelude StdMap Encoding Utime CString Env Http Errors Acl RgwObj Records Armor AuthS3.

(** ** Separators *)

Lemma sep_inj (d : ascii) (a a' r r' : str) :
  (d ∉ a) → (d ∉ a') → a ++ d :: r = a' ++ d :: r' → a = a' ∧ r = r'.
Proof.
  revert a'. induction a as [|c a IH]; intros [|c' a'] Ha Ha' Heq; cbn in Heq.
  - by injection Heq.
  - injection Heq as -> _. exfalso. apply Ha'. left.
  - injection Heq as <- _. exfalso. apply Ha. left.
  - apply not_elem_of_cons in Ha as [_ Ha]. apply not_elem_of_cons in Ha' as [_ Ha'].
    injection Heq as -> Heq. destruct (IH a' Ha Ha' Heq) as [-> ->]. done.
Qed.

(** ** Headers *)

Definition hdr_line (p : str * str) : str := fst p ++ ":" ++ snd p ++ [LF].

Lemma get_canon_amz_hdr_eq m : get_canon_amz_hdr m = concat (map hdr_line m).
Proof.
  unfold get_canon_amz_hdr.
  assert (Hacc : ∀ dest, fold_left (λ dest p, dest ++ fst p ++ ":" ++ snd p ++ [LF]) m dest =
                         dest ++ concat (map hdr_line m)).
  { induction m as [|p m IH]; intros dest; cbn [fold_left map concat]; [by rewrite app_nil_r|]. rewrite IH.
    unfold hdr_line. by rewrite <- !app_assoc. }
  apply (Hacc []).
Qed.

(** A header as the gateway collects them: a name without separators that does
    not begin like a path, a value on one line. *)
Definition plain_hdr (p : str * str) : Prop :=
  (COLON ∉ fst p) ∧ (LF ∉ snd p) ∧ fst p ≠ [] ∧ head (fst p) ≠ Some "/"%char.

Lemma hdrs_inj m m' r r' :
  Forall plain_hdr m → Forall plain_hdr m' → head r = Some "/"%char → head r' = Some "/"%char →
  concat (map hdr_line m) ++ r = concat (map hdr_line m') ++ r' → m = m' ∧ r = r'.
Proof.
  intros Hm. revert m'. induction Hm as [|[k v] m (Hk & Hv & Hne & Hh) Hm IH]; intros [|[k' v'] m'] Hm' Hr Hr' Heq.
  - done.
  - exfalso. apply Forall_cons in Hm' as [(_ & _ & Hne' & Hh') _]. cbn in *. rewrite Heq in Hr.
    destruct k'; done.
  - exfalso. cbn in *. rewrite <- Heq in Hr'. destruct k; done.
  - apply Forall_cons in Hm' as [(Hk' & Hv' & _) Hm']. cbn [map concat] in Heq. unfold hdr_line in Heq.
    cbn [fst snd] in *. rewrite <- !app_assoc in Heq.
    apply sep_inj in Heq as [-> Heq]; [|done..]. apply sep_inj in Heq as [-> Heq]; [|done..].
    by destruct (IH m' Hm' Hr Hr' Heq) as [-> ->].
Qed.

(** ** Sub-resources *)

Definition sub_item (subs : list (str * str)) (p : str) : option str :=
  (λ v, p ++ (if bool_decide (v = []) then [] else "=" ++ v)) <$> mfind p subs.

(** The pieces with their separators. *)
Fixpoint pieces (first : bool) (l : list str) : str :=
  match l with
  | [] => []
  | x :: l => (if first then "?" else "&") ++ x ++ pieces false l
  end.

Lemma append_subresources_eq subs l acc :
  fold_left (append_subresource subs) l acc = acc ++ pieces (bool_decide (acc = [])) (omap (sub_item subs) l).
Proof.
  revert acc. induction l as [|p l IH]; intros acc; cbn [fold_left]; [cbn; by rewrite app_nil_r|].
  rewrite IH. unfold append_subresource, sub_item. cbn [omap list_omap].
  destruct (mfind p subs) as [v|]; cbn [fmap option_fmap option_map]; [|done].
  cbn [pieces]. cbv zeta. set (acc' := if bool_decide (v = []) then _ else _).
  rewrite (bool_decide_eq_false_2 (acc' = [])); subst acc'.
  - destruct (bool_decide (v = [])), (bool_decide (acc = [])); by rewrite ?app_nil_r, <- ?app_assoc.
  - destruct (bool_decide (v = [])), (bool_decide (acc = [])), acc; done.
Qed.

(** Texts that end at a separator or at the end. *)
Definition sep_or_end (d : ascii) (t : str) : Prop := t = [] ∨ head t = Some d.

Lemma sep_end_inj (d : ascii) (a a' t t' : str) :
  (d ∉ a) → (d ∉ a') → sep_or_end d t → sep_or_end d t' → a ++ t = a' ++ t' → a = a' ∧ t = t'.
Proof.
  intros Ha Ha' Ht Ht' Heq.
  destruct t as [|c t], t' as [|c' t']; rewrite ?app_nil_r in *;
    destruct Ht as [?|Ht], Ht' as [?|Ht']; try done; try (injection Ht as ->); try (injection Ht' as ->).
  - subst a. exfalso. apply Ha. apply elem_of_app. right. left.
  - subst a'. exfalso. apply Ha'. apply elem_of_app. right. left.
  - apply sep_inj in Heq as [-> ->]; done.
Qed.

Lemma pieces_end l : sep_or_end "&"%char (pieces false l).
Proof. destruct l; [by left|by right]. Qed.

Lemma pieces_inj b l l' :
  Forall (λ x, "&"%char ∉ x) l → Forall (λ x, "&"%char ∉ x) l' → pieces b l = pieces b l' → l = l'.
Proof.
  intros Hl. revert b l'. induction Hl as [|x l Hx Hl IH]; intros b [|x' l'] Hl' Heq; [done|by destruct b..|].
  apply Forall_cons in Hl' as [Hx' Hl']. cbn [pieces] in Heq. apply app_inv_head in Heq.
  apply (sep_end_inj "&"%char) in Heq as [-> Heq]; auto using pieces_end. f_equal. by apply (IH false).
Qed.

Lemma item_end v : sep_or_end "="%char (if bool_decide (v = []) then [] else "=" ++ v).
Proof. destruct (bool_decide (v = [])); [by left|by right]. Qed.

Lemma items_inj subs subs' l :
  NoDup l → Forall (λ p, "="%char ∉ p) l →
  omap (sub_item subs) l = omap (sub_item subs') l → ∀ p, p ∈ l → mfind p subs = mfind p subs'.
Proof.
  assert (Hother : ∀ s1 s2 p v l0, (p ∉ l0) → ("="%char ∉ p) → Forall (λ p, "="%char ∉ p) l0 → ∀ tl,
    (p ++ (if bool_decide (v = []) then [] else "=" ++ v)) :: omap (sub_item s1) tl = omap (sub_item s2) l0 → False).
  { intros s1 s2 p v l0 Hin Hp Hl tl Heq.
    assert (Hx : p ++ (if bool_decide (v = []) then [] else "=" ++ v) ∈ omap (sub_item s2) l0) by (rewrite <- Heq; left).
    apply list_elem_of_omap in Hx as (q & Hq & Hqi). unfold sub_item in Hqi.
    destruct (mfind q s2) as [w|]; [|done]. injection Hqi as Hqi.
    apply (sep_end_inj "="%char) in Hqi as [-> _]; auto using item_end.
    by apply (proj1 (Forall_forall _ _) Hl). }
  intros Hnd. induction Hnd as [|p l Hp Hnd IH]; [by intros _ _ p ?%not_elem_of_nil|].
  intros [Hpe Hl]%Forall_cons Heq. cbn [omap list_omap] in Heq.
  destruct (sub_item subs p) as [x|] eqn:E1, (sub_item subs' p) as [x'|] eqn:E2;
    unfold sub_item in E1, E2; destruct (mfind p subs) as [v|] eqn:F1, (mfind p subs') as [v'|] eqn:F2; try done.
  - injection Heq as -> Heq. intros q [->|Hq]%elem_of_cons; [|by apply IH].
    rewrite F1, F2. f_equal. injection E1 as E1. injection E2 as E2. rewrite <- E2 in E1.
    apply app_inv_head in E1. repeat case_bool_decide; congruence.
  - injection E1 as <-. exfalso. exact (Hother subs subs' p v l Hp Hpe Hl l Heq).
  - injection E2 as <-. exfalso. exact (Hother subs' subs p v' l Hp Hpe Hl l (eq_sym Heq)).
  - intros q [->|Hq]%elem_of_cons; [by rewrite F1, F2|by apply IH].
Qed.

Lemma signed_nodup : NoDup signed_subresources.
Proof. apply (bool_decide_unpack _). vm_compute. done. Qed.
Lemma signed_plain : Forall (λ p, ("="%char ∉ p) ∧ ("&"%char ∉ p)) signed_subresources.
Proof. apply (bool_decide_unpack _). vm_compute. done. Qed.

Lemma items_plain subs l :
  Forall (λ p, "&"%char ∉ p) l → Forall (λ p, "&"%char ∉ snd p) subs →
  Forall (λ x, "&"%char ∉ x) (omap (sub_item subs) l).
Proof.
  intros Hl Hs. apply Forall_forall. intros x (p & Hp & Hx)%list_elem_of_omap. unfold sub_item in Hx.
  destruct (mfind p subs) as [v|] eqn:E; [|done]. injection Hx as <-.
  apply mfind_elem, (proj1 (Forall_forall _ _) Hs) in E. apply (proj1 (Forall_forall _ _) Hl) in Hp.
  cbn in E. rewrite elem_of_app. intros [?|Hin]; [done|].
  destruct (bool_decide (v = [])); [by apply not_elem_of_nil in Hin|].
  apply elem_of_cons in Hin as [?|?]; done.
Qed.

Lemma resource_inj uri uri' subs subs' :
  ("?"%char ∉ uri) → ("?"%char ∉ uri') →
  Forall (λ p, "&"%char ∉ snd p) subs → Forall (λ p, "&"%char ∉ snd p) subs' →
  get_canon_resource (Some uri) subs = get_canon_resource (Some uri') subs' →
  uri = uri' ∧ ∀ p, p ∈ signed_subresources → mfind p subs = mfind p subs'.
Proof.
  intros Hu Hu' Hs Hs'. unfold get_canon_resource. rewrite !append_subresources_eq. cbn [app from_option id]. unfold id.
  assert (Hend : ∀ l, sep_or_end "?"%char (pieces true l)) by (intros [|? ?]; [by left|by right]).
  intros Heq. rewrite !bool_decide_eq_true_2 in Heq by done.
  apply (sep_end_inj "?"%char) in Heq as [-> Heq]; [|done|done|apply Hend|apply Hend].
  split; [done|]. pose proof signed_plain as Hsp. apply Forall_and in Hsp as [He Ha].
  apply items_inj; [apply signed_nodup|done|].
  apply (pieces_inj true); [by apply items_plain..|done].
Qed.

(** ** The digest *)

Lemma e6_not_nul z : 0 <= z < 64 → e6 z ≠ NUL.
Proof. intros Hz He. destruct (e6_ok z Hz) as [Hd _]. rewrite He in Hd. vm_compute in Hd. lia. Qed.

Lemma not_elem_cons (x y : ascii) l : y ≠ x → (x ∉ l) → x ∉ y :: l.
Proof. intros ? ?. apply not_elem_of_cons. split; [congruence|done]. Qed.

Lemma armored_no_nul width line src : NUL ∉ armored width line src.
Proof.
  assert (Hb : ∀ l, NUL ∉ fst (line_break width l)).
  { intros l. unfold line_break. destruct (_ && _); cbn [fst]; [|apply not_elem_of_nil].
    apply not_elem_cons; [done|apply not_elem_of_nil]. }
  revert line. induction src as [|a|a b|a b c src IH] using list_ind3; intros line; cbn [armored].
  - apply not_elem_of_nil.
  - pose proof (uchar_range a). unfold group1. rewrite sextet_hi, sextet_2_last. cbn [app].
    do 2 (apply not_elem_cons; [apply e6_not_nul; dlia|]). do 2 (apply not_elem_cons; [done|]). apply Hb.
  - pose proof (uchar_range a). pose proof (uchar_range b). unfold group2.
    rewrite sextet_hi, sextet_2, sextet_3_last by done. cbn [app].
    do 3 (apply not_elem_cons; [apply e6_not_nul; dlia|]). apply not_elem_cons; [done|]. apply Hb.
  - pose proof (uchar_range a). pose proof (uchar_range b). pose proof (uchar_range c). unfold group3.
    rewrite sextet_hi, sextet_2, sextet_3, land_63 by done. cbn [app].
    do 4 (apply not_elem_cons; [apply e6_not_nul; dlia|]). rewrite elem_of_app. intros [Hx|Hx]; [by apply (Hb line)|].
    by apply (IH (snd (line_break width line))).
Qed.

(** A digest of 20 bytes always fits the 64 characters set aside for it. *)
Lemma header_digest_eq hmac hdr key :
  length (hmac key hdr) = 20%nat → key ≠ [] →
  rgw_get_s3_header_digest hmac hdr key = inr (snd (ceph_armor 64 (hmac key hdr))).
Proof.
  intros Hlen Hkey. unfold rgw_get_s3_header_digest. rewrite (bool_decide_eq_false_2 _ Hkey).
  unfold ceph_armor, ceph_armor_line_break. rewrite (writes_armor 64 0 (hmac key hdr) 0 0 []) by (cbn; lia).
  assert (Ht : zlen (armored 0 0 (hmac key hdr)) = 28)
    by (rewrite zlen_armored_0; unfold zlen; by rewrite Hlen).
  cbn [length Nat.add app]. unfold zlen in Ht.
  rewrite (proj2 (Nat.leb_le _ _)) by lia. cbn [result fst snd].
  unfold zlen. rewrite (proj2 (Z.ltb_ge _ _)) by lia. f_equal.
  rewrite take_ge by lia. apply cstr_no_nul, armored_no_nul.
Qed.

(** ** Theorems *)

(** What reaches the canonical string over HTTP: fields on one line, headers
    with plain names, a path without a query, sub-resources without ampersand. *)
Definition plain_request (method md5 ctype date : str) (meta : list (str * str)) (uri : str)
    (subs : list (str * str)) : Prop :=
  ((LF ∉ method) ∧ (LF ∉ md5) ∧ (LF ∉ ctype) ∧ (LF ∉ date)) ∧ Forall plain_hdr meta ∧
  (head uri = Some "/"%char ∧ ("?"%char ∉ uri)) ∧ Forall (λ p, "&"%char ∉ snd p) subs.

(** C35: a signature covers a plain request: two requests whose method, digest,
    type and date hold no newline, whose metadata headers have plain names and
    values, whose path begins with a slash and holds no question mark, and whose
    sub-resources hold no ampersand in their values, and that have the same
    canonical string, have the same method, digest, type, date, metadata headers
    and path, and the same value for every signed sub-resource.  (An ampersand in
    a value can pass for a second sub-resource, see [subresource_ambiguity].) *)
Theorem signature_covers_request method md5 ctype date meta uri subs method' md5' ctype' date' meta' uri' subs' :
  plain_request method md5 ctype date meta uri subs →
  plain_request method' md5' ctype' date' meta' uri' subs' →
  canonical_string (Some method) (Some md5) (Some ctype) (Some date) meta (Some uri) subs =
    canonical_string (Some method') (Some md5') (Some ctype') (Some date') meta' (Some uri') subs' →
  method = method' ∧ md5 = md5' ∧ ctype = ctype' ∧ date = date' ∧ meta = meta' ∧ uri = uri' ∧
  ∀ p, p ∈ signed_subresources → mfind p subs = mfind p subs'.
Proof.
  intros ((Hm & H5 & Ht & Hd) & Hh & (Hu & Hq) & Hs) ((Hm' & H5' & Ht' & Hd') & Hh' & (Hu' & Hq') & Hs') Heq.
  unfold canonical_string in Heq. cbn [from_option id] in Heq. unfold id in Heq. cbn [app] in Heq.
  apply sep_inj in Heq as [-> Heq]; [|done..]. apply sep_inj in Heq as [-> Heq]; [|done..].
  apply sep_inj in Heq as [-> Heq]; [|done..]. apply sep_inj in Heq as [-> Heq]; [|done..].
  rewrite !get_canon_amz_hdr_eq in Heq.
  assert (Hhead : ∀ u ss, head u = Some "/"%char → head (get_canon_resource (Some u) ss) = Some "/"%char)
    by (intros [|c u] ss; done).
  apply hdrs_inj in Heq as [-> Heq]; auto.
  apply resource_inj in Heq as [-> Hsub]; [|done..]. split_and!; done.
Qed.

Lemma signature_covers_request_witness :
  canonical_string (Some "GET") (Some "") (Some "") (Some "d") [("x-amz-acl", "private")] (Some "/b/o") [("acl", "")] =
    "GET" ++ [LF; LF; LF] ++ "d" ++ [LF] ++ "x-amz-acl:private" ++ [LF] ++ "/b/o?acl" ∧
  (∀ p, p ∈ signed_subresources → mfind p [("acl", "")] = mfind p [("acl", ""); ("unsigned", "x")]).
Proof.
  split; [reflexivity|].
  apply (signature_covers_request "GET" "" "" "d" [("x-amz-acl", "private")] "/b/o" [("acl", "")]
           "GET" "" "" "d" [("x-amz-acl", "private")] "/b/o" [("acl", ""); ("unsigned", "x")]);
    [apply (bool_decide_unpack _); vm_compute; done..|reflexivity].
Defined.

(** The values are not escaped again when the string is built: an ampersand in
    the value of one sub-resource can pass for a second sub-resource. *)
Lemma subresource_ambiguity uri :
  get_canon_resource uri [("uploadId", "a&versionId=b")] =
    get_canon_resource uri [("uploadId", "a"); ("versionId", "b")].
Proof. reflexivity. Qed.

Section authorize.
Context (hmac : bytes → bytes → bytes) (strptime : str → str → option (str * tm)) (timegm : tm → Z)
  (getspnam : str → bool) (getpwnam : str → option Z)
  (user_from_index : str → RGWUserInfo → Z * RGWUserInfo) (user_name : str) (use_rados : bool).

#[local] Abbreviation auth := (authorize hmac strptime timegm getspnam getpwnam user_from_index user_name use_rados).
#[local] Abbreviation by_key := (rgw_get_user_info_by_access_key getpwnam user_from_index user_name).
#[local] Abbreviation header := (rgw_create_s3_canonical_header strptime timegm).

Hypothesis hmac_size : ∀ key msg, length (hmac key msg) = 20%nat.

(** The check of a signature succeeds exactly when it was made with the one
    key. *)
Lemma verify_signature_iff id sign qsr s :
  fst (verify_signature hmac strptime timegm getspnam id sign qsr s) = 0 ↔
  ∃ hdr t, header (as_info s) true qsr = Some (hdr, t) ∧ getspnam (cstr id) = true ∧
    sign = snd (ceph_armor 64 (hmac "8888" hdr)).
Proof.
  unfold verify_signature. destruct (header (as_info s) true qsr) as [[hdr t]|]; [|split; [done|by intros (? & ? & ? & _)]].
  destruct (getspnam (cstr id)) eqn:Esp; cbn [negb]; [|split; [done|by intros (? & ? & _ & ? & _)]].
  cbn [account_key ak_subuser ak_key].
  rewrite bool_decide_eq_true_2 by done. cbn [negb]. rewrite header_digest_eq by (done || apply hmac_size).
  unfold streq. case_bool_decide as Eq; cbn [negb].
  - split; [eauto 10|]. intros _. by destruct (_ =? 0).
  - split; [done|]. intros (? & ? & [= <- <-] & _ & ?). done.
Qed.

Lemma verify_signature_mask id sign qsr s :
  fst (verify_signature hmac strptime timegm getspnam id sign qsr s) = 0 →
  as_perm_mask (snd (verify_signature hmac strptime timegm getspnam id sign qsr s)) = RGW_PERM_FULL_CONTROL.
Proof.
  unfold verify_signature. destruct (header (as_info s) true qsr) as [[hdr t]|]; [|done].
  destruct (getspnam (cstr id)); cbn [negb]; [|done].
  cbn [account_key ak_subuser ak_key]. rewrite bool_decide_eq_true_2 by done. cbn [negb].
  destruct (rgw_get_s3_header_digest _ _ _) as [|d]; [done|]. destruct (streq sign d); cbn [negb]; [|done].
  destruct (_ =? 0); cbn [negb]; [done|]. intros _. cbn [snd].
  by destruct (bool_decide _).
Qed.
End authorize.

(** The request has no [Authorization] header, or an empty one. *)
Definition no_header (s : auth_state) : Prop := as_http_auth s = None ∨ as_http_auth s = Some [].

(** The request names the account [id] and carries the signature [sign], in the
    query, where it has to name a time that is still to come, or in its header,
    behind the last colon. *)
Inductive signs (now : Z) (s : auth_state) (id sign : str) : bool → Prop :=
  | signs_query :
      no_header s → id ≠ [] →
      fst (args_get "AWSAccessKeyId" (ri_args (as_info s))) = id →
      fst (args_get "Signature" (ri_args (as_info s))) = sign →
      now < atoll (cstr (fst (args_get "Expires" (ri_args (as_info s))))) →
      signs now s id sign true
  | signs_header :
      as_http_auth s = Some ("AWS " ++ id ++ ":" ++ sign) → (COLON ∉ sign) →
      signs now s id sign false.

Lemma find_last_if_some p s pos :
  find_last_if p s = Some pos →
  ∃ a c b, s = a ++ c :: b ∧ length a = pos ∧ p c = true ∧ forallb (λ c, negb (p c)) b = true.
Proof.
  revert pos. induction s as [|x s IH]; intros pos; [done|]. cbn [find_last_if].
  destruct (find_last_if p s) as [n|] eqn:E.
  - intros [= <-]. destruct (IH n eq_refl) as (a & c & b & -> & <- & Hc & Hb). by exists (x :: a), c, b.
  - destruct (p x) eqn:Ex; [|done]. intros [= <-]. exists [], x, s. split_and!; [done..|].
    clear IH. induction s as [|y s IH]; [done|]. cbn in *. destruct (find_last_if p s) as [n|] eqn:E'; [done|].
    destruct (p y); [done|]. cbn. by apply IH.
Qed.

Lemma find_last_if_split p a c b :
  p c = true → forallb (λ c, negb (p c)) b = true → find_last_if p (a ++ c :: b) = Some (length a).
Proof.
  intros Hc Hb. induction a as [|x a IH]; cbn; [|by rewrite IH].
  assert (find_last_if p b = None) as ->; [|by rewrite Hc].
  induction b as [|y b IH]; [done|]. cbn in *. apply andb_true_iff in Hb as [Hy Hb]. rewrite (IH Hb).
  by destruct (p y).
Qed.

Lemma no_colon_forallb b : COLON ∉ b ↔ forallb (λ c, negb (char_is COLON c)) b = true.
Proof.
  rewrite forallb_forall. split.
  - intros H c Hc. unfold char_is. rewrite bool_decide_eq_false_2; [done|]. intros ->. by apply H, list_elem_of_In.
  - intros H Hin%list_elem_of_In%H. unfold char_is in Hin. by rewrite bool_decide_eq_true_2 in Hin.
Qed.

Lemma has_prefix_split p s : has_prefix p s = true → s = p ++ drop (length p) s.
Proof.
  revert s. induction p as [|c p IH]; intros [|x s]; [done..|]. cbn.
  intros [Hc Hs]%andb_true_iff. unfold char_is in Hc. apply bool_decide_eq_true in Hc as ->. by rewrite <- (IH s Hs).
Qed.

Lemma credentials_signs now s id sign qsr :
  credentials now s = inr (Some (id, sign, qsr)) ↔ signs now s id sign qsr.
Proof.
  unfold credentials. split.
  - destruct (as_http_auth s) as [[|c h]|] eqn:Eh.
    2:{ destruct (has_prefix "AWS " (c :: h)) eqn:Ep; [|done]. cbn [negb]. apply has_prefix_split in Ep.
        set (r := drop (length _) (c :: h)) in Ep. rewrite Ep. change (drop 4 ("AWS " ++ r)) with r.
        destruct (find_last_if _ r) as [pos|] eqn:El; [|done]. intros [= <- <- <-].
        apply find_last_if_some in El as (a & x & b & -> & <- & Hx & Hb). unfold char_is in Hx.
        apply bool_decide_eq_true in Hx as ->. unfold substr, substr_from. rewrite drop_0, take_app_length.
        replace (drop (length a + 1) (a ++ COLON :: b)) with b
          by (rewrite drop_app_ge by lia; by replace (length a + 1 - length a)%nat with 1%nat by lia).
        apply signs_header; [by rewrite Eh, Ep|by apply no_colon_forallb]. }
    all: destruct (bool_decide_reflect (fst (args_get "AWSAccessKeyId" (ri_args (as_info s))) = [])); cbn [negb]; [done|];
      destruct (Z.geb_spec now (atoll (cstr (fst (args_get "Expires" (ri_args (as_info s))))))); [done|];
      intros [= <- <- <-]; apply signs_query; unfold no_header; auto with zarith.
  - intros [Hh Hid <- <- Hexp|Hh Hs].
    + rewrite bool_decide_eq_false_2 by done. cbn [negb].
      rewrite Z.geb_leb, (proj2 (Z.leb_gt _ _) Hexp). by destruct Hh as [-> | ->].
    + rewrite Hh. change ("AWS " ++ id ++ ":" ++ sign) with ("A"%char :: "WS " ++ id ++ ":" ++ sign).
      cbn iota. change ("A"%char :: "WS " ++ id ++ ":" ++ sign) with ("AWS " ++ id ++ ":" ++ sign).
      rewrite has_prefix_self. cbn [negb]. change (drop 4 ("AWS " ++ id ++ ":" ++ sign)) with (id ++ COLON :: sign).
      rewrite find_last_if_split by (done || by apply no_colon_forallb).
      unfold substr, substr_from. rewrite drop_0, take_app_length.
      by rewrite drop_app_ge, Nat.add_comm, Nat.add_sub by lia.
Qed.

Lemma credentials_unsigned now s :
  credentials now s = inr None ↔ no_header s ∧ fst (args_get "AWSAccessKeyId" (ri_args (as_info s))) = [].
Proof.
  unfold credentials, no_header. destruct (as_http_auth s) as [[|c h]|].
  2:{ split; [by repeat case_match|]. by intros [[?|?] _]. }
  all: case_bool_decide; cbn [negb]; [|destruct (now >=? _)]; (split; [|by intros [_ ?]]); intros [=]; auto.
Qed.

(** The account a signer names: the system knows it ([passwd]; an empty name
    stands for the user of the configuration), and the index of the users has
    a record of it. *)
Definition known_account (getpwnam : str → option Z) (user_from_index : str → RGWUserInfo → Z * RGWUserInfo)
    (user_name id : str) (info : RGWUserInfo) : Prop :=
  ∃ uid, getpwnam (if bool_decide (cstr id = []) then user_name else cstr id) = Some uid ∧ 0 <= s32 uid
       ∧ 0 <= fst (user_from_index id (ui_set_names id (ui_set_auid (u64 (s32 uid)) info))).

Lemma known_account_spec getpwnam user_from_index user_name id info :
  0 <= fst (rgw_get_user_info_by_access_key getpwnam user_from_index user_name id info)
  ↔ known_account getpwnam user_from_index user_name id info.
Proof.
  unfold rgw_get_user_info_by_access_key, getuid, known_account.
  destruct (getpwnam _) as [uid|]; [|split; [done|by intros (? & [=] & _)]].
  destruct (Z.ltb_spec (s32 uid) 0) as [H|H].
  - split; [done|]. intros (? & [= <-] & ? & _). lia.
  - destruct (user_from_index _ _) as [ret i] eqn:E. cbn. split.
    + intros Hr. exists uid. by rewrite E.
    + by intros (? & [= <-] & _ & Hr); rewrite E in Hr.
Qed.

(** C13: exactly which requests are let in: preflight requests; requests
    without a signature, that is without an [Authorization] header and without
    the argument AWSAccessKeyId; and signed requests, when authentication
    against the store is configured, the account is in the system's [passwd]
    and [shadow] and has a record in the index, the request has a canonical
    string (its date can be read), and the signature is that of this string
    under the constant key 8888, the same for every account.  A request signed
    in its query has to name in Expires a time later than now; one signed in
    its header never expires.  Every request let in may do everything. *)
Theorem authorize_spec hmac strptime timegm getspnam getpwnam user_from_index user_name use_rados now s :
  (∀ key msg, length (hmac key msg) = 20%nat) →
  let auth := authorize hmac strptime timegm getspnam getpwnam user_from_index user_name use_rados in
  (fst (auth now s) = 0 ↔
   as_op_options s = true
   ∨ (no_header s ∧ fst (args_get "AWSAccessKeyId" (ri_args (as_info s))) = [])
   ∨ ∃ id sign qsr hdr t,
       signs now s id sign qsr ∧ use_rados = true
       ∧ known_account getpwnam user_from_index user_name id (as_user s)
       ∧ rgw_create_s3_canonical_header strptime timegm (as_info s) true qsr = Some (hdr, t)
       ∧ getspnam (cstr id) = true ∧ sign = snd (ceph_armor 64 (hmac "8888" hdr)))
  ∧ (fst (auth now s) = 0 → as_perm_mask (snd (auth now s)) = RGW_PERM_FULL_CONTROL).
Proof.
  intros Hh auth. rewrite <- (credentials_unsigned now s). setoid_rewrite <- credentials_signs.
  setoid_rewrite <- known_account_spec.
  unfold auth, authorize. clear auth. destruct (as_op_options s) eqn:Eo; [split; [tauto|done]|].
  assert (Hneg : ∀ e, credentials now s = inl e → e ≠ 0).
  { unfold credentials. intros e.
    destruct (as_http_auth s) as [[|c h]|]; repeat case_match; intros [= <-]; done. }
  destruct (credentials now s) as [e|[[[id sign] qsr]|]] eqn:Ec.
  - specialize (Hneg e eq_refl). split; cbn; [|done]. split; [done|].
    intros [?|[?|(? & ? & ? & ? & ? & ? & _)]]; done.
  - destruct use_rados; cbn [negb]; [|split; cbn; [|done]; split; [done|];
      intros [?|[?|(? & ? & ? & ? & ? & _ & ? & _)]]; done].
    destruct (rgw_get_user_info_by_access_key _ _ _ id (as_user s)) as [ret user] eqn:Eu.
    destruct (ret <? 0) eqn:Er; zbool.
    + split; [|done]. split; [done|]. intros [?|[?|(i' & ? & ? & ? & ? & [= <- <- <-] & _ & Hr & _)]]; try done.
      rewrite Eu in Hr. cbn in Hr. lia.
    + split; [|apply verify_signature_mask]. rewrite verify_signature_iff by done. split.
      * intros (hdr & t & H1 & H2 & H3). right. right. exists id, sign, qsr, hdr, t. by rewrite Eu.
      * intros [?|[?|(i' & ? & ? & hdr & t & [= <- <- <-] & _ & _ & H1 & H2 & H3)]]; try done. eauto.
  - split; [|done]. cbn. tauto.
Qed.

Definition demo_hmac (key msg : bytes) : bytes := replicate 20 "x"%char.
Definition demo_strptime (s fmt : str) : option (str * tm) := Some ("GMT", Mk_tm 0 0 0 1 0 115).
Definition demo_signed : auth_state :=
  Mk_auth_state false (Some "AWS joe:eHh4eHh4eHh4eHh4eHh4eHh4eHg=")
    (req_info_new (env_init ["REQUEST_URI=/b/o"; "REQUEST_METHOD=GET"; "HTTP_DATE=Thu, 01 Jan 2015 00:00:00 GMT"]))
    RGWUserInfo_new 0 utime_zero false.

Lemma authorize_spec_witness :
  let auth := authorize demo_hmac demo_strptime (λ _, 1420070400) (λ _, true) (λ _, Some 1000)
                (λ _ u, (0, u)) "root" true in
  fst (auth 1450000000 demo_signed) = 0 ∧
  as_perm_mask (snd (auth 1450000000 demo_signed)) = RGW_PERM_FULL_CONTROL.
Proof.
  intros auth.
  destruct (authorize_spec demo_hmac demo_strptime (λ _, 1420070400) (λ _, true) (λ _, Some 1000)
              (λ _ u, (0, u)) "root" true 1450000000 demo_signed (λ _ _, eq_refl)) as [Hiff Hmask].
  assert (H0 : fst (auth 1450000000 demo_signed) = 0) by (vm_compute; reflexivity).
  split; [exact H0|exact (Hmask H0)].
Defined.

(** A request signed in its [Authorization] header never expires: the clock
    has no part in the decision, whatever the date the request carries. *)
Lemma header_signature_never_expires hmac strptime timegm getspnam getpwnam user_from_index user_name
    use_rados now now' s c h :
  as_http_auth s = Some (c :: h) →
  authorize hmac strptime timegm getspnam getpwnam user_from_index user_name use_rados now s =
    authorize hmac strptime timegm getspnam getpwnam user_from_index user_name use_rados now' s.
Proof. intros Hh. unfold authorize, credentials. by rewrite Hh. Qed.

Lemma header_signature_never_expires_witness :
  authorize demo_hmac demo_strptime (λ _, 1420070400) (λ _, true) (λ _, Some 1000) (λ _ u, (0, u)) "root" true
    1450000000 demo_signed =
  authorize demo_hmac demo_strptime (λ _, 1420070400) (λ _, true) (λ _, Some 1000) (λ _ u, (0, u)) "root" true
    4000000000 demo_signed.
Proof. eapply header_signature_never_expires. reflexivity. Defined.

