(* ===== verification/LruMap.v ===== *)
(** * A map bounded by recency ([src/src/common/lru_map.h])

    [lru_map<K, V>]: a [std::map] whose entries hold iterators into a list of
    keys, the most recently used first.  Iterators are node identities.  The
    keys are compared with the order of the map only, so equivalent keys need
    not be equal.  [spec_find], [spec_add] and [spec_erase] say what the map
    does, on one list of keys and values. *)

From S2P Require Import Prelude StdMap.

Section lru_map.
Context {K V : Type} `{Ord K}.

Record lru_map := Mk_lru_map {
  lm_entries : list (K * (V * Z));
  lm_lru : list (Z * K);
  lm_next : Z;
  lm_max : nat
}.

Definition lru_new (max : nat) : lru_map := Mk_lru_map [] [] 0 max.

(** [entries_lru.erase(e.lru_iter)] *)
Definition lru_del (i : Z) (l : list (Z * K)) : list (Z * K) := filter (λ p, fst p ≠ i) l.

(** [_find(key, value, ctx)]: the result, the value and the map. *)
Definition lru_find_ (key : K) (ctx : option (V → bool * V)) (m : lru_map) : bool * option V * lru_map :=
  match mfind key (lm_entries m) with
  | None => (false, None, m)
  | Some (v, i) =>
      let l := lru_del i (lm_lru m) in
      let '(r, v) := match ctx with Some f => f v | None => (true, v) end in
      let node := lm_next m in
      (r, Some v, Mk_lru_map (mset key (v, node) (lm_entries m)) ((node, key) :: l) (node + 1) (lm_max m))
  end.

Definition lru_find (key : K) (m : lru_map) : bool * option V * lru_map := lru_find_ key None m.
Definition lru_find_and_update (key : K) (ctx : option (V → bool * V)) (m : lru_map)
    : bool * option V * lru_map := lru_find_ key ctx m.

(** The loop at the end of [_add], on the list from its back. *)
Fixpoint lru_trim (max : nat) (back : list (Z * K)) (entries : list (K * (V * Z)))
    : list (Z * K) * list (K * (V * Z)) :=
  match back with
  | [] => ([], entries)
  | (_, k) :: back' =>
      if (max <? length entries)%nat then lru_trim max back' (merase k entries) else (back, entries)
  end.

Definition lru_add (key : K) (value : V) (m : lru_map) : lru_map :=
  let l := match mfind key (lm_entries m) with Some (_, i) => lru_del i (lm_lru m) | None => lm_lru m end in
  let node := lm_next m in
  let l := (node, key) :: l in
  let entries := mset key (value, node) (lm_entries m) in
  let '(back, entries) := lru_trim (lm_max m) (rev l) entries in
  Mk_lru_map entries (rev back) (node + 1) (lm_max m).

Definition lru_erase (key : K) (m : lru_map) : lru_map :=
  match mfind key (lm_entries m) with
  | None => m
  | Some (_, i) => Mk_lru_map (merase key (lm_entries m)) (lru_del i (lm_lru m)) (lm_next m) (lm_max m)
  end.

(** ** The specification *)

Definition equiv_key (k : K) (p : K * V) : bool := match compare k (fst p) with Eq => true | _ => false end.

Definition spec_find (k : K) (l : list (K * V)) : option V := snd <$> head (filter (λ p, equiv_key k p = true) l).
Definition spec_remove (k : K) (l : list (K * V)) : list (K * V) := filter (λ p, equiv_key k p = false) l.

(** The entries by recency. *)
Definition lru_abs (m : lru_map) : list (K * V) :=
  omap (λ p : Z * K, (λ e : V * Z, (snd p, fst e)) <$> mfind (snd p) (lm_entries m)) (lm_lru m).

(** ** The invariant *)

Definition apart (l : list (Z * K)) : Prop := ∀ i j k k', (i, k) ∈ l → (j, k') ∈ l → compare k k' = Eq → i = j.

Record lru_inv (m : lru_map) : Prop := {
  li_sorted : msorted (lm_entries m);
  li_ids : Forall (λ p, fst p < lm_next m) (lm_lru m);
  li_nodup : NoDup (lm_lru m).*1;
  li_node : ∀ i k, (i, k) ∈ lm_lru m → ∃ v, mfind k (lm_entries m) = Some (v, i);
  li_entry : ∀ k v i, mfind k (lm_entries m) = Some (v, i) → ∃ k', (i, k') ∈ lm_lru m ∧ compare k k' = Eq;
  li_length : length (lm_lru m) = length (lm_entries m)
}.
End lru_map.
Arguments lru_map : clear implicits.

Section lru_facts.
Context {K V : Type} `{Ord K} `{!OrdLaws K}.
Implicit Types (m : lru_map K V) (l : list (Z * K)).

(** The nodes whose key is not equivalent to [k]. *)
Definition others (k : K) l : list (Z * K) :=
  filter (λ p, match compare k (snd p) with Eq => true | _ => false end = false) l.

Lemma filter_ext_in {A} (P Q : A → Prop) `{!∀ x, Decision (P x), !∀ x, Decision (Q x)} (l : list A) :
  (∀ x, x ∈ l → P x ↔ Q x) → filter P l = filter Q l.
Proof.
  induction l as [|x l IH]; intros Hpq; [done|].
  assert (Hx : P x ↔ Q x) by (apply Hpq; left). assert (Hl := IH (λ y Hy, Hpq y (list_elem_of_further _ _ _ Hy))).
  destruct (decide (P x)).
  - rewrite !filter_cons_True by tauto. by rewrite Hl.
  - rewrite !filter_cons_False by tauto. done.
Qed.

Lemma node_key l i k k' : NoDup l.*1 → (i, k) ∈ l → (i, k') ∈ l → k = k'.
Proof.
  induction l as [|[j x] l IH]; [by intros _ ?%not_elem_of_nil|]. cbn. intros [Hj Hnd]%NoDup_cons.
  assert (Hno : ∀ y, (j, y) ∈ l → False).
  { intros y Hy. apply Hj. apply list_elem_of_fmap. by exists (j, y). }
  intros [[= -> ->]|Hk]%elem_of_cons [[= ]|Hk']%elem_of_cons; subst; auto; exfalso; eauto.
Qed.

Lemma compare_eq_sym (k k' : K) : compare k k' = Eq → compare k' k = Eq.
Proof. intros E. by rewrite compare_antisym, E. Qed.

(** Erasing the node an entry points to is erasing its key. *)
Lemma lru_del_others m k v i :
  lru_inv m → mfind k (lm_entries m) = Some (v, i) → lru_del i (lm_lru m) = others k (lm_lru m).
Proof.
  intros Hi He. apply filter_ext_in. intros [j k'] Hin. cbn.
  destruct (compare k k') eqn:E; (split; [|done || intros _]); try done.
  - destruct (li_node m Hi j k' Hin) as [v' Hv']. rewrite <- (mfind_equiv k k' _ E), He in Hv'. congruence.
  - intros ->. destruct (li_entry m Hi k v i He) as (k'' & Hin'' & E'').
    rewrite (node_key _ _ _ _ (li_nodup m Hi) Hin Hin'') in E. congruence.
  - intros ->. destruct (li_entry m Hi k v i He) as (k'' & Hin'' & E'').
    rewrite (node_key _ _ _ _ (li_nodup m Hi) Hin Hin'') in E. congruence.
Qed.

Lemma others_all m k : lru_inv m → mfind k (lm_entries m) = None → others k (lm_lru m) = lm_lru m.
Proof.
  intros Hi He. transitivity (filter (λ _ : Z * K, True) (lm_lru m)).
  - apply filter_ext_in. intros [j k'] Hin. cbn. split; [done|]. intros _. destruct (compare k k') eqn:E; try done.
    destruct (li_node m Hi j k' Hin) as [v Hv]. rewrite <- (mfind_equiv k k' _ E), He in Hv. done.
  - generalize (lm_lru m). intros l. induction l as [|p l IH]; [done|]. rewrite filter_cons_True by done. by rewrite IH.
Qed.

Lemma elem_of_others k l p : p ∈ others k l ↔ p ∈ l ∧ compare k (snd p) ≠ Eq.
Proof. unfold others. rewrite list_elem_of_filter. destruct (compare k (snd p)); intuition congruence. Qed.

Lemma others_sublist k l : others k l `sublist_of` l.
Proof. apply sublist_filter. Qed.

(** The state after a key has been put in front. *)
Definition fronted (k : K) (v : V) m : lru_map K V :=
  Mk_lru_map (mset k (v, lm_next m) (lm_entries m)) ((lm_next m, k) :: others k (lm_lru m))
    (lm_next m + 1) (lm_max m).

Lemma length_others m k :
  lru_inv m →
  length (others k (lm_lru m)) =
    match mfind k (lm_entries m) with Some _ => Nat.pred (length (lm_lru m)) | None => length (lm_lru m) end.
Proof.
  intros Hi. destruct (mfind k (lm_entries m)) as [[v i]|] eqn:E; [|by rewrite others_all].
  rewrite <- (lru_del_others m k v i Hi E). destruct (li_entry m Hi k v i E) as (k' & Hin & _).
  pose proof (li_nodup m Hi) as Hnd. apply list_elem_of_split in Hin as (a & b & Hl). rewrite Hl in *.
  rewrite fmap_app in Hnd. apply NoDup_app in Hnd as (_ & Ha & Hb). cbn in Hb. apply NoDup_cons in Hb as [Hb _].
  assert (Hfil : ∀ c : list (Z * K), (i ∉ c.*1) → lru_del i c = c).
  { intros c Hc. unfold lru_del. clear -Hc. induction c as [|[j x] c IH]; [done|].
    apply not_elem_of_cons in Hc as [Hj Hc]. rewrite filter_cons_True by (cbn in *; congruence). by rewrite IH. }
  unfold lru_del at 1. rewrite filter_app. rewrite filter_cons_False by (cbn; tauto).
  change (length (lru_del i a ++ lru_del i b) = Nat.pred (length (a ++ (i, k') :: b))).
  rewrite !Hfil; [|done|intros Hin; apply (Ha i Hin); left]. rewrite !length_app. cbn. lia.
Qed.

Lemma fronted_inv k v m : lru_inv m → lru_inv (fronted k v m).
Proof.
  intros Hi. split; cbn [fronted lm_entries lm_lru lm_next].
  - apply mset_sorted, Hi.
  - constructor; [cbn; lia|]. apply Forall_forall. intros p [Hp _]%elem_of_others.
    pose proof (proj1 (Forall_forall _ _) (li_ids m Hi) p Hp). cbn in *. lia.
  - cbn. apply NoDup_cons. split.
    + intros (p & E & [Hp _]%elem_of_others)%list_elem_of_fmap.
      pose proof (proj1 (Forall_forall _ _) (li_ids m Hi) p Hp). cbn in *. lia.
    + eapply sublist_NoDup; [apply (li_nodup m Hi)|]. apply fmap_sublist, others_sublist.
  - intros i k' [[= -> ->]|[Hin Hne]%elem_of_others]%elem_of_cons; [exists v; apply mfind_mset_eq|].
    cbn in Hne. destruct (li_node m Hi i k' Hin) as [v' Hv']. exists v'.
    rewrite mfind_mset_nequiv; [done|]. intros E. by apply Hne, compare_eq_sym.
  - intros k' v' i. destruct (compare k' k) eqn:E.
    1:{ rewrite (mfind_equiv k' k _ E), mfind_mset_eq. intros [= <- <-]. exists k. split; [left|done]. }
    all: rewrite mfind_mset_nequiv by (by rewrite E); intros He;
      destruct (li_entry m Hi k' v' i He) as (k'' & Hin & E''); exists k''; split; [|done];
      right; apply elem_of_others; split; [done|]; cbn; intros E3;
      rewrite (compare_eq_lt k'' k' k) in E by (by apply compare_eq_sym);
      apply compare_eq_sym in E3; congruence.
  - cbn. rewrite (length_mset k _ _ (li_sorted m Hi) _), length_others by done.
    pose proof (li_length m Hi) as Hl. destruct (mfind k (lm_entries m)) as [e|] eqn:E; rewrite Hl; [|done].
    assert (length (lm_entries m) ≠ 0%nat) by (destruct (lm_entries m); [done|cbn; lia]). lia.
Qed.

(** Removing a key. *)
Lemma erased_inv k m :
  lru_inv m →
  lru_inv (Mk_lru_map (merase k (lm_entries m)) (others k (lm_lru m)) (lm_next m) (lm_max m)).
Proof.
  intros Hi. split; cbn [lm_entries lm_lru lm_next].
  - apply merase_sorted, Hi.
  - apply Forall_forall. intros p [Hp _]%elem_of_others. by apply (proj1 (Forall_forall _ _) (li_ids m Hi)).
  - eapply sublist_NoDup; [apply (li_nodup m Hi)|]. apply fmap_sublist, others_sublist.
  - intros i k' [Hin Hne]%elem_of_others. cbn in Hne. destruct (li_node m Hi i k' Hin) as [v Hv]. exists v.
    rewrite mfind_merase_nequiv; [done|]. intros E. by apply Hne, compare_eq_sym.
  - intros k' v i. destruct (compare k' k) eqn:E.
    1:{ rewrite (mfind_equiv k' k _ E), mfind_merase_eq; [done|apply Hi]. }
    all: rewrite mfind_merase_nequiv by (by rewrite E); intros He;
      destruct (li_entry m Hi k' v i He) as (k'' & Hin & E''); exists k''; split; [|done];
      apply elem_of_others; split; [done|]; cbn; intros E3;
      rewrite (compare_eq_lt k'' k' k) in E by (by apply compare_eq_sym);
      apply compare_eq_sym in E3; congruence.
  - rewrite length_merase, length_others by done. by rewrite (li_length m Hi).
Qed.

(** The last node of the list is the only one with its key. *)
Lemma others_snoc e l i k n mx :
  lru_inv (Mk_lru_map (V := V) e (l ++ [(i, k)]) n mx) → others k (l ++ [(i, k)]) = l.
Proof.
  intros Hi. pose proof (li_nodup _ Hi) as Hnd. cbn in Hnd. rewrite fmap_app in Hnd.
  apply NoDup_app in Hnd as (_ & Hd & _). unfold others. rewrite filter_app.
  rewrite filter_cons_False by (cbn; by rewrite compare_refl). rewrite app_nil_r.
  transitivity (filter (λ _ : Z * K, True) l).
  - apply filter_ext_in. intros [j k'] Hin. cbn. split; [done|]. intros _. destruct (compare k k') eqn:E; try done.
    destruct (li_node _ Hi j k') as [v Hv]; [apply elem_of_app; by left|].
    destruct (li_node _ Hi i k) as [v' Hv']; [apply elem_of_app; right; left|]. cbn in *.
    rewrite (mfind_equiv k k' _ E), Hv in Hv'. injection Hv' as -> ->.
    exfalso. apply (Hd i); [|left]. apply list_elem_of_fmap. by exists (i, k').
  - clear. induction l as [|p l IH]; [done|]. rewrite filter_cons_True by done. by rewrite IH.
Qed.

Lemma trim_spec mx n l : ∀ e,
  lru_inv (Mk_lru_map (V := V) e l n mx) →
  let '(back, e') := lru_trim mx (rev l) e in
  rev back = take mx l ∧ lru_inv (Mk_lru_map e' (rev back) n mx) ∧
  (∀ p, p ∈ rev back → mfind (snd p) e' = mfind (snd p) e) ∧ (length e' <= mx)%nat.
Proof.
  induction l as [|[i k] l IH] using rev_ind; intros e Hi.
  { cbn. pose proof (li_length _ Hi) as Hl. cbn in Hl. rewrite take_nil. split_and!; [done|done|done|lia]. }
  rewrite rev_app_distr. cbn [rev app lru_trim]. pose proof (li_length _ Hi) as Hl. cbn in Hl.
  rewrite length_app in Hl. cbn in Hl. destruct (Nat.ltb_spec mx (length e)) as [Hlt|Hge].
  - pose proof (erased_inv k _ Hi) as Hi'. cbn [lm_entries lm_lru lm_next lm_max] in Hi'.
    rewrite (others_snoc _ _ _ _ _ _ Hi) in Hi'. specialize (IH _ Hi').
    destruct (lru_trim mx (rev l) (merase k e)) as [back e']. destruct IH as (Hr & Hinv & Hf & Hlen).
    split_and!; [|done| |done].
    + rewrite Hr, take_app_le by lia. done.
    + intros [j k'] Hp. rewrite (Hf _ Hp). cbn. apply mfind_merase_nequiv. intros E.
      rewrite Hr in Hp. apply subseteq_take in Hp as Hx.
      pose proof (others_snoc _ _ _ _ _ _ Hi) as Ho. rewrite <- Ho in Hx. apply elem_of_others in Hx as [_ Hx].
      cbn in Hx. by apply Hx, compare_eq_sym.
  - cbn [rev]. rewrite rev_involutive. split_and!; [|done|done|done].
    rewrite take_ge; [done|]. rewrite length_app. cbn. lia.
Qed.


(** ** The abstraction *)

Definition abs_node (e : list (K * (V * Z))) (p : Z * K) : option (K * V) :=
  (λ x : V * Z, (snd p, fst x)) <$> mfind (snd p) e.

Lemma abs_others e k l : spec_remove k (omap (abs_node e) l) = omap (abs_node e) (others k l).
Proof.
  unfold spec_remove, others. induction l as [|[i k'] l IH]; [done|].
  destruct (compare k k') eqn:E.
  1:{ rewrite (filter_cons_False _ (i, k')) by (cbn; by rewrite E). rewrite <- IH. cbn [omap list_omap].
      destruct (abs_node e (i, k')) as [p|] eqn:Ep; [|done]. unfold abs_node in Ep. cbn in Ep.
      destruct (mfind k' e); [|done]. injection Ep as <-.
      by rewrite filter_cons_False by (unfold equiv_key; cbn; by rewrite E). }
  all: rewrite (filter_cons_True _ (i, k')) by (cbn; by rewrite E); cbn [omap list_omap];
    destruct (abs_node e (i, k')) as [p|] eqn:Ep; [|done]; unfold abs_node in Ep; cbn in Ep;
    destruct (mfind k' e); [|done]; injection Ep as <-;
    rewrite filter_cons_True by (unfold equiv_key; cbn; by rewrite E); by rewrite <- IH.
Qed.

Lemma abs_ext e e' l :
  (∀ p, p ∈ l → mfind (snd p) e = mfind (snd p) e') → omap (abs_node e) l = omap (abs_node e') l.
Proof.
  induction l as [|p l IH]; intros Hl; [done|]. cbn [omap list_omap].
  assert (Hp : abs_node e p = abs_node e' p) by (unfold abs_node; by rewrite (Hl p) by left).
  rewrite Hp, IH; [done|]. intros q Hq. apply Hl. by right.
Qed.

Lemma abs_take e l n :
  (∀ p, p ∈ l → is_Some (mfind (snd p) e)) → omap (abs_node e) (take n l) = take n (omap (abs_node e) l).
Proof.
  revert n. induction l as [|p l IH]; intros [|n] Hl; try done.
  cbn [take omap list_omap]. destruct (Hl p) as [x Hx]; [left|].
  assert (Hp : abs_node e p = Some (snd p, fst x)) by (unfold abs_node; by rewrite Hx).
  rewrite Hp. cbn [take]. f_equal. apply IH. intros q Hq. apply Hl. by right.
Qed.

Lemma node_found m : lru_inv m → ∀ p, p ∈ lm_lru m → is_Some (mfind (snd p) (lm_entries m)).
Proof. intros Hi [i k] Hp. destruct (li_node m Hi i k Hp) as [v Hv]. eauto. Qed.

Lemma abs_fronted k v m : lru_inv m → lru_abs (fronted k v m) = (k, v) :: spec_remove k (lru_abs m).
Proof.
  intros Hi. change (omap (abs_node (lm_entries (fronted k v m))) ((lm_next m, k) :: others k (lm_lru m)) =
    (k, v) :: spec_remove k (omap (abs_node (lm_entries m)) (lm_lru m))).
  rewrite abs_others. cbn [omap list_omap fronted lm_entries].
  assert (Hk : abs_node (mset k (v, lm_next m) (lm_entries m)) (lm_next m, k) = Some (k, v))
    by (unfold abs_node; cbn [snd]; by rewrite mfind_mset_eq).
  rewrite Hk. f_equal. apply abs_ext.
  intros p [_ Hne]%elem_of_others. apply mfind_mset_nequiv. intros E. by apply Hne, compare_eq_sym.
Qed.

Lemma abs_find k m : lru_inv m → spec_find k (lru_abs m) = fst <$> mfind k (lm_entries m).
Proof.
  intros Hi. unfold spec_find. set (P := λ p : K * V, equiv_key k p = true).
  assert (Hall : ∀ p, p ∈ filter P (lru_abs m) → Some (snd p) = fst <$> mfind k (lm_entries m)).
  { intros [k' v] [Hp Hin]%list_elem_of_filter. unfold P, equiv_key in Hp. cbn in Hp.
    destruct (compare k k') eqn:E; [|done..]. apply list_elem_of_omap in Hin as ([i k''] & Hin & Hn).
    cbn in Hn. destruct (mfind k'' (lm_entries m)) as [x|] eqn:Ex; [|done]. injection Hn as <- <-.
    cbn. by rewrite (mfind_equiv k k'' _ E), Ex. }
  destruct (filter P (lru_abs m)) as [|p l] eqn:Ef; [|cbn; apply Hall; left]. cbn.
  destruct (mfind k (lm_entries m)) as [[v i]|] eqn:Ek; [|done]. exfalso.
  destruct (li_entry m Hi k v i Ek) as (k' & Hin & E).
  assert (Hx : (k', v) ∈ filter P (lru_abs m)).
  { apply list_elem_of_filter. unfold P, equiv_key. cbn. rewrite E. split; [done|].
    apply list_elem_of_omap. exists (i, k'). split; [done|]. cbn. by rewrite <- (mfind_equiv k k' _ E), Ek. }
  rewrite Ef in Hx. by apply not_elem_of_nil in Hx.
Qed.

Lemma lru_add_spec k v m :
  lru_inv m →
  lru_inv (lru_add k v m) ∧
  lru_abs (lru_add k v m) = take (lm_max m) ((k, v) :: spec_remove k (lru_abs m)) ∧
  (length (lm_entries (lru_add k v m)) <= lm_max m)%nat.
Proof.
  intros Hi. unfold lru_add.
  assert (Hl : match mfind k (lm_entries m) with Some (_, i) => lru_del i (lm_lru m) | None => lm_lru m end =
               others k (lm_lru m)).
  { destruct (mfind k (lm_entries m)) as [[v' i]|] eqn:E; [by apply (lru_del_others m k v')|].
    by rewrite others_all. }
  rewrite Hl. pose proof (fronted_inv k v m Hi) as Hf. rewrite <- (abs_fronted k v m Hi).
  pose proof (trim_spec (lm_max m) (lm_next m + 1) _ _ Hf) as Ht.
  change ((lm_next m, k) :: others k (lm_lru m)) with (lm_lru (fronted k v m)).
  change (mset k (v, lm_next m) (lm_entries m)) with (lm_entries (fronted k v m)).
  destruct (lru_trim _ _ _) as [back e']. destruct Ht as (Hb & Hinv & Hlook & Hlen).
  split_and!; [done| |done].
  change (omap (abs_node e') (rev back) = take (lm_max m) (lru_abs (fronted k v m))).
  rewrite (abs_ext e' (lm_entries (fronted k v m))) by done. rewrite Hb.
  apply abs_take, (node_found _ Hf).
Qed.

Lemma lru_find_spec k ctx m :
  lru_inv m →
  match spec_find k (lru_abs m) with
  | None => lru_find_ k ctx m = (false, None, m)
  | Some v =>
      let '(r, v') := match ctx with Some f => f v | None => (true, v) end in
      ∃ m', lru_find_ k ctx m = (r, Some v', m') ∧ lru_inv m' ∧ lm_max m' = lm_max m ∧
            lru_abs m' = (k, v') :: spec_remove k (lru_abs m)
  end.
Proof.
  intros Hi. rewrite abs_find by done. unfold lru_find_.
  destruct (mfind k (lm_entries m)) as [[v i]|] eqn:E; cbn; [|done].
  destruct (match ctx with Some f => f v | None => (true, v) end) as [r v'].
  rewrite (lru_del_others m k v i Hi E). exists (fronted k v' m).
  split_and!; [done|by apply fronted_inv|done|by apply abs_fronted].
Qed.

Lemma lru_erase_spec k m :
  lru_inv m → lru_inv (lru_erase k m) ∧ lru_abs (lru_erase k m) = spec_remove k (lru_abs m).
Proof.
  intros Hi. unfold lru_erase.
  change (spec_remove k (lru_abs m)) with (spec_remove k (omap (abs_node (lm_entries m)) (lm_lru m))).
  rewrite abs_others. destruct (mfind k (lm_entries m)) as [[v i]|] eqn:E.
  - rewrite (lru_del_others m k v i Hi E). split; [by apply erased_inv|]. apply abs_ext.
    intros p [_ Hne]%elem_of_others. apply mfind_merase_nequiv. intros E'. by apply Hne, compare_eq_sym.
  - by rewrite others_all.
Qed.

Lemma lru_new_inv max : lru_inv (lru_new (V := V) max).
Proof. split; cbn; try done; try constructor; by intros ? ? ?%not_elem_of_nil. Qed.
End lru_facts.

(** ** Runs *)

Inductive lru_reachable {K V} `{Ord K} (max : nat) : lru_map K V → Prop :=
  | lru_reach_new : lru_reachable max (lru_new max)
  | lru_reach_find m k ctx : lru_reachable max m → lru_reachable max (snd (lru_find_ k ctx m))
  | lru_reach_add m k v : lru_reachable max m → lru_reachable max (lru_add k v m)
  | lru_reach_erase m k : lru_reachable max m → lru_reachable max (lru_erase k m).

Lemma lru_reachable_inv {K V} `{Ord K, !OrdLaws K} max (m : lru_map K V) :
  lru_reachable max m → lru_inv m ∧ lm_max m = max ∧ (length (lm_entries m) <= max)%nat.
Proof.
  induction 1 as [|m k ctx _ (Hi & Hm & Hl)|m k v _ (Hi & Hm & Hl)|m k _ (Hi & Hm & Hl)].
  - split_and!; [apply lru_new_inv|done|cbn; lia].
  - pose proof (lru_find_spec k ctx m Hi) as Hf. rewrite abs_find in Hf by done. unfold lru_find_ in *.
    destruct (mfind k (lm_entries m)) as [[v i]|] eqn:E; cbn in Hf; [|done].
    destruct (match ctx with Some f => f v | None => (true, v) end) as [r v'].
    destruct Hf as (m' & [= <-] & Hi' & Hm' & _). cbn [snd lm_entries lm_max] in *.
    rewrite (length_mset k _ _ (li_sorted m Hi) _), E. done.
  - pose proof (lru_add_spec k v m Hi) as (Hi' & _ & Hl'). rewrite Hm in Hl'. split_and!; [done| |done].
    unfold lru_add. by destruct (lru_trim _ _ _).
  - pose proof (lru_erase_spec k m Hi) as (Hi' & _). split_and!; [done|unfold lru_erase; by destruct (mfind k _) as [[? ?]|]|].
    unfold lru_erase. destruct (mfind k (lm_entries m)) as [[v i]|] eqn:E; [|done]. cbn.
    rewrite length_merase, E. lia.
Qed.

(** ** Theorems *)

(** C32: the map implements its specification, a list of at most [max] entries
    with the most recently used first: a look-up finds the value of an
    equivalent key and moves it to the front, updated; adding puts the entry in
    front and drops the least recently used ones beyond the limit; erasing takes
    the entry out.  This holds after any sequence of operations. *)
Theorem lru_map_refinement {K V} `{Ord K, !OrdLaws K} max (m : lru_map K V) k v ctx :
  lru_reachable max m →
  (length (lm_entries m) <= max)%nat ∧
  match spec_find k (lru_abs m) with
  | None => lru_find_ k ctx m = (false, None, m)
  | Some v =>
      let '(r, v') := match ctx with Some f => f v | None => (true, v) end in
      ∃ m', lru_find_ k ctx m = (r, Some v', m') ∧ lru_abs m' = (k, v') :: spec_remove k (lru_abs m)
  end ∧
  lru_abs (lru_add k v m) = take max ((k, v) :: spec_remove k (lru_abs m)) ∧
  lru_abs (lru_erase k m) = spec_remove k (lru_abs m).
Proof.
  intros Hr. destruct (lru_reachable_inv max m Hr) as (Hi & Hm & Hl). split_and!; [done| | |].
  - pose proof (lru_find_spec k ctx m Hi) as Hf. destruct (spec_find k (lru_abs m)) as [w|]; [|done].
    destruct (match ctx with Some f => f w | None => (true, w) end) as [r v'].
    destruct Hf as (m' & He & _ & _ & Ha). eauto.
  - rewrite <- Hm. by apply lru_add_spec.
  - by apply lru_erase_spec.
Qed.

Lemma lru_map_refinement_witness :
  let m := lru_add "b" 2 (lru_add "a" 1 (lru_new 2)) in
  lru_abs m = [("b", 2); ("a", 1)] ∧
  lru_abs (lru_add "c" 3 m) = take 2 (("c", 3) :: spec_remove "c" (lru_abs m)).
Proof.
  intros m. split; [vm_compute; reflexivity|].
  apply (lru_map_refinement 2 m "c" 3 None).
  do 2 apply lru_reach_add. apply lru_reach_new.
Defined.
