(* ===== verification/Quota.v ===== *)
(** * Quotas ([src/src/rgw/porting_quota.cc], [porting_quota.h])

    The caches of bucket and user statistics, and the check made before an
    object is written.  The bucket's index headers come from the store
    ([cls_bucket_head]); the clock is read where the source reads it. *)

From S2P Require Import Prelude StdMap Encoding Utime ClsRgwTypes CString Http Errors RgwObj Records LruMap.

(** [rgw_bucket::operator<]: buckets are compared by their name alone. *)
#[export] Instance rgw_bucket_ord : Ord rgw_bucket := λ a b, str_compare (bk_name a) (bk_name b).

#[export] Instance rgw_bucket_ord_laws : OrdLaws rgw_bucket.
Proof.
  split; unfold compare, rgw_bucket_ord; intros.
  - apply (compare_refl (K := str)).
  - apply (compare_antisym (K := str)).
  - by eapply (compare_lt_trans (K := str)).
  - by apply (compare_eq_lt (K := str)).
Qed.

(** ** Statistics *)

Record RGWStorageStats := Mk_RGWStorageStats {
  ss_category : Z;
  ss_num_kb : Z;
  ss_num_kb_rounded : Z;
  ss_num_objects : Z
}.
Definition RGWStorageStats_new : RGWStorageStats := Mk_RGWStorageStats 0 0 0 0.

Record RGWQuotaCacheStats := Mk_RGWQuotaCacheStats {
  qc_stats : RGWStorageStats;
  qc_expiration : utime_t;
  qc_async_refresh_time : utime_t
}.
Definition RGWQuotaCacheStats_new : RGWQuotaCacheStats :=
  Mk_RGWQuotaCacheStats RGWStorageStats_new utime_zero utime_zero.

(** [StatsAsyncTestSet::update] *)
Definition async_test_set (e : RGWQuotaCacheStats) : bool * RGWQuotaCacheStats :=
  if tv_sec (qc_async_refresh_time e) =? 0 then (false, e)
  else (true, Mk_RGWQuotaCacheStats (qc_stats e) (qc_expiration e) (mk_utime 0 0)).

(** [RGWQuotaStatsUpdate::update]; the differences are unsigned. *)
Definition stats_update (objs_delta added_bytes removed_bytes : Z) (e : RGWQuotaCacheStats)
    : bool * RGWQuotaCacheStats :=
  let rounded_kb_added := rgw_rounded_objsize_kb added_bytes in
  let rounded_kb_removed := rgw_rounded_objsize_kb removed_bytes in
  let s := qc_stats e in
  let s := Mk_RGWStorageStats (ss_category s)
             (u64 (ss_num_kb s + u64 (added_bytes - removed_bytes) / 1024))
             (u64 (ss_num_kb_rounded s + u64 (rounded_kb_added - rounded_kb_removed)))
             (u64 (ss_num_objects s + u64 objs_delta)) in
  (true, Mk_RGWQuotaCacheStats s (qc_expiration e) (qc_async_refresh_time e)).

Definition q_set_size_threshold (v : Z) (q : RGWQuotaInfo) : RGWQuotaInfo :=
  Mk_RGWQuotaInfo (qi_max_size_kb q) (qi_max_objects q) (qi_enabled q) v (qi_max_objs_soft_threshold q).
Definition q_set_objs_threshold (v : Z) (q : RGWQuotaInfo) : RGWQuotaInfo :=
  Mk_RGWQuotaInfo (qi_max_size_kb q) (qi_max_objects q) (qi_enabled q) (qi_max_size_soft_threshold q) v.

(** [RGWQuotaCache::can_use_cached_stats]: the quota's thresholds are set on the
    way. *)
Definition can_use_cached_stats (quota : RGWQuotaInfo) (cached : RGWStorageStats) : bool * RGWQuotaInfo :=
  let quota :=
    if (qi_max_size_kb quota >=? 0) && (qi_max_size_soft_threshold quota <? 0)
    then q_set_size_threshold 0 quota else quota in
  if (qi_max_size_kb quota >=? 0) && (ss_num_kb_rounded cached >=? u64 (qi_max_size_soft_threshold quota))
  then (false, quota)
  else
    let quota :=
      if (qi_max_objects quota >=? 0) && (qi_max_objs_soft_threshold quota <? 0)
      then q_set_objs_threshold 0 quota else quota in
    if (qi_max_objects quota >=? 0) && (ss_num_objects cached >=? u64 (qi_max_objs_soft_threshold quota))
    then (false, quota)
    else (true, quota).

(** [RGWUserStatsCache::can_use_cached_stats] *)
Definition user_can_use_cached_stats (quota : RGWQuotaInfo) (_ : RGWStorageStats) : bool * RGWQuotaInfo :=
  (true, quota).

(** ** The caches *)

(** [init_fetch] of both handlers: the request to the store is disabled. *)
Definition init_fetch : Z := 0.

Section quota_cache.
Context {K : Type} `{Ord K}.
(** The virtual methods: the key of the map, reading the store (the statistics
    passed in may stay as they are), and the use of cached statistics. *)
Variable key : str → rgw_bucket → K.
Variable fetch_stats_from_storage : str → rgw_bucket → RGWStorageStats → Z * RGWStorageStats.
Variable can_use : RGWQuotaInfo → RGWStorageStats → bool * RGWQuotaInfo.

Definition async_refresh (user : str) (bucket : rgw_bucket) (m : lru_map K RGWQuotaCacheStats)
    : Z * lru_map K RGWQuotaCacheStats :=
  let '(found, _, m) := lru_find_and_update (key user bucket) (Some async_test_set) m in
  if negb found then (0, m) else (if init_fetch <? 0 then init_fetch else 0, m).

Definition set_stats (now : utime_t) (user : str) (bucket : rgw_bucket) (qs : RGWQuotaCacheStats)
    (stats : RGWStorageStats) (m : lru_map K RGWQuotaCacheStats) : lru_map K RGWQuotaCacheStats :=
  (* both times are advanced by a time to live of 0 *)
  lru_add (key user bucket) (Mk_RGWQuotaCacheStats stats (normalize now) (normalize now)) m.

Definition async_refresh_response (now : utime_t) (user : str) (bucket : rgw_bucket)
    (stats : RGWStorageStats) (m : lru_map K RGWQuotaCacheStats) : lru_map K RGWQuotaCacheStats :=
  let '(_, qs, m) := lru_find (key user bucket) m in
  set_stats now user bucket (default RGWQuotaCacheStats_new qs) stats m.

(** [get_stats], with the three readings of the clock: the result, the
    statistics, the quota and the cache. *)
Definition get_stats (t1 t2 t3 : utime_t) (user : str) (bucket : rgw_bucket) (stats : RGWStorageStats)
    (quota : RGWQuotaInfo) (m : lru_map K RGWQuotaCacheStats)
    : Z * RGWStorageStats * RGWQuotaInfo * lru_map K RGWQuotaCacheStats :=
  let fetch qs quota m :=
    let '(ret, stats) := fetch_stats_from_storage user bucket stats in
    if (ret <? 0) && negb (ret =? - ENOENT) then (ret, stats, quota, m)
    else (0, stats, quota, set_stats t3 user bucket qs stats m) in
  let '(found, qs, m) := lru_find (key user bucket) m in
  match qs with
  | Some qs =>
      let m :=
        if (tv_sec (qc_async_refresh_time qs) >? 0) && utime_ge t1 (qc_async_refresh_time qs)
        then snd (async_refresh user bucket m) else m in
      let '(usable, quota) := can_use quota (qc_stats qs) in
      if usable && utime_gt (qc_expiration qs) t2 then (0, qc_stats qs, quota, m)
      else fetch qs quota m
  | None => fetch RGWQuotaCacheStats_new quota m
  end.

(** [adjust_stats] without [data_modified]. *)
Definition adjust_stats (user : str) (bucket : rgw_bucket) (objs_delta added_bytes removed_bytes : Z)
    (m : lru_map K RGWQuotaCacheStats) : lru_map K RGWQuotaCacheStats :=
  snd (lru_find_and_update (key user bucket) (Some (stats_update objs_delta added_bytes removed_bytes)) m).
End quota_cache.

(** ** Statistics from the store *)

Section store.
(** [RGWRados::cls_bucket_head]: the result and the headers of the bucket's
    index shards. *)
Variable cls_bucket_head : rgw_bucket → Z * list (str * rgw_bucket_dir_header).

Definition accumulate_raw_stats (header : rgw_bucket_dir_header) (stats : list (Z * RGWStorageStats))
    : list (Z * RGWStorageStats) :=
  fold_left (λ stats p,
    let '(category, h) := p in
    let s := default RGWStorageStats_new (mfind category stats) in
    mset category
      (Mk_RGWStorageStats category
         (u64 (ss_num_kb s + u64 (cs_total_size h + 1023) / 1024))
         (u64 (ss_num_kb_rounded s + u64 (cs_total_size_rounded h + 1023) / 1024))
         (u64 (ss_num_objects s + cs_num_entries h))) stats) (dh_stats header) stats.

Definition get_bucket_stats (bucket : rgw_bucket) (stats : list (Z * RGWStorageStats))
    : Z * list (Z * RGWStorageStats) :=
  let '(r, headers) := cls_bucket_head bucket in
  if r <? 0 then (r, stats)
  else (0, fold_left (λ stats p, accumulate_raw_stats (snd p) stats) headers stats).

(** The sum of the categories. *)
Definition sum_stats (bucket_stats : list (Z * RGWStorageStats)) : RGWStorageStats :=
  fold_left (λ s p,
    Mk_RGWStorageStats (ss_category s) (u64 (ss_num_kb s + ss_num_kb (snd p)))
      (u64 (ss_num_kb_rounded s + ss_num_kb_rounded (snd p)))
      (u64 (ss_num_objects s + ss_num_objects (snd p)))) bucket_stats RGWStorageStats_new.

Definition bucket_fetch_stats (user : str) (bucket : rgw_bucket) (stats : RGWStorageStats)
    : Z * RGWStorageStats :=
  let '(r, bucket_stats) := get_bucket_stats bucket [] in
  if r <? 0 then (r, stats) else (0, sum_stats bucket_stats).

(** [RGWUserStatsCache::fetch_stats_from_storage]: the call of the store is
    disabled. *)
Definition user_fetch_stats (user : str) (bucket : rgw_bucket) (stats : RGWStorageStats)
    : Z * RGWStorageStats := (0, stats).

(** ** [RGWQuotaHandlerImpl] *)

Definition bucket_key (user : str) (bucket : rgw_bucket) : rgw_bucket := bucket.
Definition user_key (user : str) (bucket : rgw_bucket) : str := user.

Record RGWQuotaHandlerImpl := Mk_quota_handler {
  qh_bucket_stats_cache : lru_map rgw_bucket RGWQuotaCacheStats;
  qh_user_stats_cache : lru_map str RGWQuotaCacheStats;
  qh_modified_buckets : list (rgw_bucket * str);
  qh_def_bucket_quota : RGWQuotaInfo;
  qh_def_user_quota : RGWQuotaInfo
}.

(** A default quota from the configuration. *)
Definition default_quota (max_objects max_size : Z) : RGWQuotaInfo :=
  let q := RGWQuotaInfo_new in
  let q := if max_objects >=? 0 then Mk_RGWQuotaInfo (qi_max_size_kb q) max_objects true
             (qi_max_size_soft_threshold q) (qi_max_objs_soft_threshold q) else q in
  if max_size >=? 0 then Mk_RGWQuotaInfo max_size (qi_max_objects q) true
    (qi_max_size_soft_threshold q) (qi_max_objs_soft_threshold q) else q.

(** [RGWQuotaHandlerImpl(store, quota_threads)]: both caches are made for 0
    entries. *)
Definition generate_handler (bucket_max_objects bucket_max_size user_max_objects user_max_size : Z)
    : RGWQuotaHandlerImpl :=
  Mk_quota_handler (lru_new 0) (lru_new 0) [] (default_quota bucket_max_objects bucket_max_size)
    (default_quota user_max_objects user_max_size).

(** [check_quota(entity, quota, stats, num_objs, size_kb)] *)
Definition check_quota_stats (quota : RGWQuotaInfo) (stats : RGWStorageStats) (num_objs size_kb : Z) : Z :=
  if negb (qi_enabled quota) then 0
  else if (qi_max_objects quota >=? 0) && (u64 (ss_num_objects stats + num_objs) >? u64 (qi_max_objects quota))
  then - ERR_QUOTA_EXCEEDED
  else if (qi_max_size_kb quota >=? 0) && (u64 (ss_num_kb_rounded stats + size_kb) >? u64 (qi_max_size_kb quota))
  then - ERR_QUOTA_EXCEEDED
  else 0.

Definition set_caches (b : lru_map rgw_bucket RGWQuotaCacheStats) (u : lru_map str RGWQuotaCacheStats)
    (h : RGWQuotaHandlerImpl) : RGWQuotaHandlerImpl :=
  Mk_quota_handler b u (qh_modified_buckets h) (qh_def_bucket_quota h) (qh_def_user_quota h).

(** The user's half of [check_quota]. *)
Definition check_user_quota (clock : nat → utime_t) (user : str) (bucket : rgw_bucket)
    (user_quota : RGWQuotaInfo) (num_objs size_kb : Z) (h : RGWQuotaHandlerImpl) : Z * RGWQuotaHandlerImpl :=
  if qi_enabled user_quota || qi_enabled (qh_def_user_quota h) then
    let '(ret, user_stats, user_quota, m) :=
      get_stats user_key user_fetch_stats user_can_use_cached_stats (clock 3%nat) (clock 4%nat) (clock 5%nat)
        user bucket RGWStorageStats_new user_quota (qh_user_stats_cache h) in
    let h := set_caches (qh_bucket_stats_cache h) m h in
    if ret <? 0 then (ret, h)
    else if qi_enabled user_quota then
      let ret := check_quota_stats user_quota user_stats num_objs size_kb in
      (if ret <? 0 then ret else 0, h)
    else if qi_enabled (qh_def_user_quota h) then
      let ret := check_quota_stats (qh_def_user_quota h) user_stats num_objs size_kb in
      (if ret <? 0 then ret else 0, h)
    else (0, h)
  else (0, h).

(** [check_quota(user, bucket, user_quota, bucket_quota, num_objs, size)]; [clock]
    gives the successive readings of the clock. *)
Definition check_quota (clock : nat → utime_t) (user : str) (bucket : rgw_bucket)
    (user_quota bucket_quota : RGWQuotaInfo) (num_objs size : Z) (h : RGWQuotaHandlerImpl)
    : Z * RGWQuotaHandlerImpl :=
  if negb (qi_enabled bucket_quota) && negb (qi_enabled user_quota) &&
     negb (qi_enabled (qh_def_bucket_quota h)) && negb (qi_enabled (qh_def_user_quota h))
  then (0, h)
  else
    let size_kb := rgw_rounded_objsize_kb size in
    let '(ret, bucket_stats, bucket_quota, m) :=
      get_stats bucket_key bucket_fetch_stats can_use_cached_stats (clock 0%nat) (clock 1%nat) (clock 2%nat)
        user bucket RGWStorageStats_new bucket_quota (qh_bucket_stats_cache h) in
    let h := set_caches m (qh_user_stats_cache h) h in
    if ret <? 0 then (ret, h)
    else
      let ret := if qi_enabled bucket_quota
                 then check_quota_stats bucket_quota bucket_stats num_objs size_kb else 0 in
      if ret <? 0 then (ret, h)
      else
        let ret := if qi_enabled (qh_def_bucket_quota h)
                   then check_quota_stats (qh_def_bucket_quota h) bucket_stats num_objs size_kb else 0 in
        if ret <? 0 then (ret, h)
        else check_user_quota clock user bucket user_quota num_objs size_kb h.

(** [RGWUserStatsCache::data_modified] *)
Definition data_modified (user : str) (bucket : rgw_bucket) (m : list (rgw_bucket * str))
    : list (rgw_bucket * str) :=
  if mmem bucket m then m else mset bucket user m.

Definition update_stats (user : str) (bucket : rgw_bucket) (obj_delta added_bytes removed_bytes : Z)
    (h : RGWQuotaHandlerImpl) : RGWQuotaHandlerImpl :=
  Mk_quota_handler
    (adjust_stats bucket_key user bucket obj_delta added_bytes removed_bytes (qh_bucket_stats_cache h))
    (adjust_stats user_key user bucket obj_delta added_bytes removed_bytes (qh_user_stats_cache h))
    (data_modified user bucket (qh_modified_buckets h)) (qh_def_bucket_quota h) (qh_def_user_quota h).
End store.

(** ** Specification *)

(** What a write is checked against: with [objs] objects and [kb] kilobytes once
    it is done, the quota [q] is exceeded. *)
Definition over_quota (q : RGWQuotaInfo) (objs kb : Z) : Prop :=
  qi_enabled q = true ∧
  ((0 <= qi_max_objects q ∧ u64 (qi_max_objects q) < u64 objs) ∨
   (0 <= qi_max_size_kb q ∧ u64 (qi_max_size_kb q) < u64 kb)).

(** What the index shards of a bucket count together. *)
Definition sum_by {A} (f : A → Z) (l : list A) : Z := foldr (λ x z, f x + z) 0 l.
Definition stored_objects (headers : list (str * rgw_bucket_dir_header)) : Z :=
  sum_by (λ p, sum_by (λ c, cs_num_entries (snd c)) (dh_stats (snd p))) headers.
Definition stored_kb_rounded (headers : list (str * rgw_bucket_dir_header)) : Z :=
  sum_by (λ p, sum_by (λ c, u64 (cs_total_size_rounded (snd c) + 1023) / 1024) (dh_stats (snd p))) headers.

(** The calls made on the handler; a response to a refresh may arrive at any
    time. *)
Inductive quota_reachable (cls_bucket_head : rgw_bucket → Z * list (str * rgw_bucket_dir_header))
    : RGWQuotaHandlerImpl → Prop :=
  | quota_reach_new bo bs uo us : quota_reachable cls_bucket_head (generate_handler bo bs uo us)
  | quota_reach_check h clock user bucket uq bq n size :
      quota_reachable cls_bucket_head h →
      quota_reachable cls_bucket_head (snd (check_quota cls_bucket_head clock user bucket uq bq n size h))
  | quota_reach_update h user bucket d a r :
      quota_reachable cls_bucket_head h → quota_reachable cls_bucket_head (update_stats user bucket d a r h)
  | quota_reach_bucket_response h now user bucket stats :
      quota_reachable cls_bucket_head h →
      quota_reachable cls_bucket_head
        (set_caches (async_refresh_response bucket_key now user bucket stats (qh_bucket_stats_cache h))
           (qh_user_stats_cache h) h)
  | quota_reach_user_response h now user bucket stats :
      quota_reachable cls_bucket_head h →
      quota_reachable cls_bucket_head
        (set_caches (qh_bucket_stats_cache h)
           (async_refresh_response user_key now user bucket stats (qh_user_stats_cache h)) h).

(** ** The caches stay empty *)

Definition hollow {K V} (m : lru_map K V) : Prop := lm_entries m = [] ∧ lm_lru m = [] ∧ lm_max m = 0%nat.

Section hollow_facts.
Context {K : Type} `{Ord K} `{!OrdLaws K}.
Implicit Types m : lru_map K RGWQuotaCacheStats.

Lemma hollow_add {V} (k : K) (v : V) (m : lru_map K V) : hollow m → hollow (lru_add k v m).
Proof. destruct m as [e l n mx]. intros (Ee & El & Em). cbn in *. subst. unfold hollow. cbn. by rewrite compare_refl. Qed.

Lemma hollow_find {V} (k : K) ctx (m : lru_map K V) : hollow m → lru_find_ k ctx m = (false, None, m).
Proof. destruct m as [e l n mx]. intros (Ee & El & Em). cbn in *. by subst. Qed.

Lemma hollow_adjust key user bucket d a r m :
  hollow m → hollow (adjust_stats key user bucket d a r m).
Proof. intros Hm. unfold adjust_stats, lru_find_and_update. by rewrite hollow_find. Qed.

Lemma hollow_response key now user bucket stats m :
  hollow m → hollow (async_refresh_response key now user bucket stats m).
Proof.
  intros Hm. unfold async_refresh_response, lru_find. rewrite hollow_find by done. by apply hollow_add.
Qed.

(** With an empty cache the statistics come from the store, and the quota is left
    as it is. *)
Lemma hollow_get_stats key fetch can_use t1 t2 t3 user bucket stats quota m :
  hollow m →
  let '(ret, stats') := fetch user bucket stats in
  ∃ m', get_stats key fetch can_use t1 t2 t3 user bucket stats quota m =
        (if (ret <? 0) && negb (ret =? - ENOENT) then ret else 0, stats', quota, m') ∧ hollow m'.
Proof.
  intros Hm. unfold get_stats, lru_find. rewrite hollow_find by done.
  destruct (fetch user bucket stats) as [ret stats']. destruct (_ && _); eexists; (split; [done|]); [done|].
  by apply hollow_add.
Qed.
End hollow_facts.

Definition hollow_handler (h : RGWQuotaHandlerImpl) : Prop :=
  hollow (qh_bucket_stats_cache h) ∧ hollow (qh_user_stats_cache h).

(** ** The sums *)

Lemma sum_by_mset {K V} `{Ord K, !OrdLaws K} (f : V → Z) (k : K) (v : V) m :
  msorted m →
  sum_by (λ p : K * V, f (snd p)) (mset k v m) =
  sum_by (λ p : K * V, f (snd p)) m + f v - default 0 (f <$> mfind k m).
Proof.
  unfold sum_by. induction m as [|[k' v'] m IH]; intros Hs; cbn; [lia|].
  destruct Hs as [Hlt Hs]. destruct (compare k k') eqn:E; cbn; [lia| |rewrite IH by done; lia].
  rewrite mfind_Forall_Lt; [cbn; lia|]. eapply Forall_impl; [apply Hlt|]. intros p Hp.
  by eapply compare_lt_trans.
Qed.

Lemma u64_add_l a b : u64 (u64 a + b) = u64 (a + b).
Proof. apply Zplus_mod_idemp_l. Qed.
Lemma u64_add_r a b : u64 (a + u64 b) = u64 (a + b).
Proof. apply Zplus_mod_idemp_r. Qed.

Lemma sum_stats_fields l s :
  let t := fold_left (λ s p,
    Mk_RGWStorageStats (ss_category s) (u64 (ss_num_kb s + ss_num_kb (snd p)))
      (u64 (ss_num_kb_rounded s + ss_num_kb_rounded (snd p)))
      (u64 (ss_num_objects s + ss_num_objects (snd p)))) l s in
  u64 (ss_num_objects t) = u64 (ss_num_objects s + sum_by (λ p : Z * RGWStorageStats, ss_num_objects (snd p)) l) ∧
  u64 (ss_num_kb_rounded t) =
    u64 (ss_num_kb_rounded s + sum_by (λ p : Z * RGWStorageStats, ss_num_kb_rounded (snd p)) l).
Proof.
  revert s. induction l as [|p l IH]; intros s; cbn; [by rewrite !Z.add_0_r|].
  destruct (IH (Mk_RGWStorageStats (ss_category s) (u64 (ss_num_kb s + ss_num_kb (snd p)))
    (u64 (ss_num_kb_rounded s + ss_num_kb_rounded (snd p)))
    (u64 (ss_num_objects s + ss_num_objects (snd p))))) as [-> ->]. cbn.
  rewrite !u64_add_l, !Z.add_assoc. done.
Qed.

(** Splitting by category and summing again loses nothing, modulo [2^64]. *)
Section accumulate.
Variable f : RGWStorageStats → Z.
Variable g : rgw_bucket_category_stats → Z.
Hypothesis f_new : f RGWStorageStats_new = 0.
Hypothesis f_add : ∀ c s h,
  f (Mk_RGWStorageStats c
       (u64 (ss_num_kb s + u64 (cs_total_size h + 1023) / 1024))
       (u64 (ss_num_kb_rounded s + u64 (cs_total_size_rounded h + 1023) / 1024))
       (u64 (ss_num_objects s + cs_num_entries h))) = u64 (f s + g h).

Lemma accumulate_sum header stats :
  msorted stats →
  msorted (accumulate_raw_stats header stats) ∧
  u64 (sum_by (λ p, f (snd p)) (accumulate_raw_stats header stats)) =
  u64 (sum_by (λ p, f (snd p)) stats + sum_by (λ c, g (snd c)) (dh_stats header)).
Proof.
  unfold accumulate_raw_stats. revert stats.
  induction (dh_stats header) as [|[c h] l IH]; intros stats Hs; cbn [fold_left]; [by cbn; rewrite Z.add_0_r|].
  match goal with |- context [mset c ?v stats] => set (w := v) end.
  destruct (IH (mset c w stats) (mset_sorted c w stats Hs)) as [Hs' E]. split; [done|]. rewrite E. subst w.
  rewrite sum_by_mset, f_add by done.
  set (S := sum_by (λ p, f (snd p)) stats). set (R := sum_by _ l).
  assert (Hd : f (default RGWStorageStats_new (mfind c stats)) = default 0 (f <$> mfind c stats))
    by (by destruct (mfind c stats)). rewrite Hd. set (D := default 0 _).
  replace (S + u64 (D + g h) - D + R) with (S - D + R + u64 (D + g h)) by lia.
  rewrite u64_add_r. f_equal. unfold R, sum_by. cbn. lia.
Qed.

Lemma accumulate_all headers stats :
  msorted stats →
  u64 (sum_by (λ p, f (snd p)) (fold_left (λ stats p, accumulate_raw_stats (snd p) stats) headers stats)) =
  u64 (sum_by (λ p, f (snd p)) stats +
       sum_by (λ p : str * rgw_bucket_dir_header, sum_by (λ c, g (snd c)) (dh_stats (snd p))) headers).
Proof.
  revert stats. induction headers as [|[o h] l IH]; intros stats Hs; cbn [fold_left].
  { by cbn; rewrite Z.add_0_r. }
  destruct (accumulate_sum h stats Hs) as [Hs' E]. cbn [snd]. rewrite IH by done. rewrite <- u64_add_l, E, u64_add_l.
  f_equal. cbn. unfold sum_by. lia.
Qed.
End accumulate.

(** The statistics fetched for a bucket. *)
Lemma bucket_fetch_spec cls user bucket r headers :
  cls bucket = (r, headers) →
  ∃ st, bucket_fetch_stats cls user bucket RGWStorageStats_new = (if r <? 0 then r else 0, st) ∧
  u64 (ss_num_objects st) = (if r <? 0 then 0 else u64 (stored_objects headers)) ∧
  u64 (ss_num_kb_rounded st) = (if r <? 0 then 0 else u64 (stored_kb_rounded headers)).
Proof.
  intros Hc. unfold bucket_fetch_stats, get_bucket_stats. rewrite Hc. destruct (Z.ltb_spec r 0) as [Hr|Hr].
  { rewrite (proj2 (Z.ltb_lt r 0) Hr). by eexists. }
  change (0 <? 0) with false. cbn iota. eexists. split; [done|]. unfold sum_stats.
  set (L := fold_left (λ stats p, accumulate_raw_stats (snd p) stats) headers []).
  destruct (sum_stats_fields L RGWStorageStats_new) as [-> ->]. cbn [ss_num_objects ss_num_kb_rounded RGWStorageStats_new].
  rewrite !Z.add_0_l. split.
  - unfold L. by rewrite (accumulate_all ss_num_objects cs_num_entries).
  - unfold L. by rewrite (accumulate_all ss_num_kb_rounded (λ h, u64 (cs_total_size_rounded h + 1023) / 1024)).
Qed.

Lemma over_quota_cong q a a' b b' :
  u64 a = u64 a' → u64 b = u64 b' → over_quota q a b ↔ over_quota q a' b'.
Proof. unfold over_quota. by intros -> ->. Qed.

Lemma check_stats_spec q st n kb :
  (check_quota_stats q st n kb = 0 ∧ ¬ over_quota q (ss_num_objects st + n) (ss_num_kb_rounded st + kb)) ∨
  (check_quota_stats q st n kb = - ERR_QUOTA_EXCEEDED ∧
   over_quota q (ss_num_objects st + n) (ss_num_kb_rounded st + kb)).
Proof.
  unfold check_quota_stats, over_quota. destruct (qi_enabled q); cbn [negb]; [|left; intuition congruence].
  destruct (_ && (_ >? u64 (qi_max_objects q))) eqn:E1; zbool; [right; intuition lia|].
  destruct (_ && (_ >? u64 (qi_max_size_kb q))) eqn:E2; zbool; [right; intuition lia|].
  left. split; [done|]. intros [_ [[? ?]|[? ?]]]; lia.
Qed.

(** Both halves keep the caches empty and decide from the store. *)
Lemma check_user_spec clock user bucket uq n kb h :
  hollow_handler h →
  let q := if qi_enabled uq then uq else qh_def_user_quota h in
  let '(res, h') := check_user_quota clock user bucket uq n kb h in
  hollow_handler h' ∧
  ((res = 0 ∧ ¬ over_quota q n kb) ∨ (res = - ERR_QUOTA_EXCEEDED ∧ over_quota q n kb)).
Proof.
  intros [Hb Hu] q. subst q. unfold check_user_quota.
  pose proof (hollow_get_stats user_key user_fetch_stats user_can_use_cached_stats (clock 3%nat) (clock 4%nat)
    (clock 5%nat) user bucket RGWStorageStats_new uq _ Hu) as Hg. cbn [user_fetch_stats] in Hg.
  destruct Hg as (m' & Hg & Hm'). rewrite Hg. change (0 <? 0) with false. cbn [andb negb].
  pose proof (check_stats_spec uq RGWStorageStats_new n kb) as H1.
  pose proof (check_stats_spec (qh_def_user_quota h) RGWStorageStats_new n kb) as H2.
  cbn [RGWStorageStats_new ss_num_objects ss_num_kb_rounded] in H1, H2. rewrite !Z.add_0_l in H1, H2.
  destruct (qi_enabled uq) eqn:Eu; cbn [orb set_caches qh_def_user_quota].
  - split; [by split|]. destruct H1 as [[-> ?]|[-> ?]]; [by left|by right].
  - destruct (qi_enabled (qh_def_user_quota h)) eqn:Ed; cbn iota.
    + split; [by split|]. destruct H2 as [[-> ?]|[-> ?]]; [by left|by right].
    + split; [by split|]. left. split; [done|]. intros [? _]. congruence.
Qed.

(** No quota is in force. *)
Definition no_quota (uq bq : RGWQuotaInfo) (h : RGWQuotaHandlerImpl) : bool :=
  negb (qi_enabled bq) && negb (qi_enabled uq) && negb (qi_enabled (qh_def_bucket_quota h)) &&
  negb (qi_enabled (qh_def_user_quota h)).

(** The quotas a write would exceed. *)
Definition exceeded (uq bq : RGWQuotaInfo) (h : RGWQuotaHandlerImpl) (objs kb n size_kb : Z) : Prop :=
  over_quota bq (objs + n) (kb + size_kb) ∨
  over_quota (qh_def_bucket_quota h) (objs + n) (kb + size_kb) ∨
  over_quota (if qi_enabled uq then uq else qh_def_user_quota h) n size_kb.

Lemma check_optional q st n kb :
  let res := if qi_enabled q then check_quota_stats q st n kb else 0 in
  (res = 0 ∧ ¬ over_quota q (ss_num_objects st + n) (ss_num_kb_rounded st + kb)) ∨
  (res = - ERR_QUOTA_EXCEEDED ∧ over_quota q (ss_num_objects st + n) (ss_num_kb_rounded st + kb)).
Proof.
  destruct (qi_enabled q) eqn:E; [apply check_stats_spec|]. left. split; [done|]. intros [? _]. congruence.
Qed.

Lemma check_quota_hollow cls clock user bucket uq bq n size h r headers :
  hollow_handler h → cls bucket = (r, headers) →
  let '(res, h') := check_quota cls clock user bucket uq bq n size h in
  hollow_handler h' ∧
  if no_quota uq bq h then res = 0
  else if (r <? 0) && negb (r =? - ENOENT) then res = r
  else
    let objs := if r <? 0 then 0 else stored_objects headers in
    let kb := if r <? 0 then 0 else stored_kb_rounded headers in
    (res = 0 ∨ res = - ERR_QUOTA_EXCEEDED) ∧
    (res = - ERR_QUOTA_EXCEEDED ↔ exceeded uq bq h objs kb n (rgw_rounded_objsize_kb size)).
Proof.
  intros [Hb Hu] Hc. unfold check_quota. fold (no_quota uq bq h). destruct (no_quota uq bq h); [done|].
  set (size_kb := rgw_rounded_objsize_kb size).
  destruct (bucket_fetch_spec cls user bucket r headers Hc) as (st & Hf & Ho & Hk).
  pose proof (hollow_get_stats bucket_key (bucket_fetch_stats cls) can_use_cached_stats (clock 0%nat) (clock 1%nat)
    (clock 2%nat) user bucket RGWStorageStats_new bq _ Hb) as Hg. rewrite Hf in Hg.
  destruct Hg as (m' & -> & Hm').
  assert (Er : ((if r <? 0 then r else 0) <? 0) && negb ((if r <? 0 then r else 0) =? - ENOENT) =
               (r <? 0) && negb (r =? - ENOENT)) by (by destruct (r <? 0) eqn:E; rewrite ?E).
  rewrite Er. destruct ((r <? 0) && negb (r =? - ENOENT)) eqn:Ebad.
  { apply andb_true_iff in Ebad as [Hneg _]. rewrite Hneg. cbn iota. by rewrite Hneg. }
  change (0 <? 0) with false. cbn iota zeta. set (objs := if r <? 0 then 0 else _). set (kb := if r <? 0 then 0 else _).
  assert (Hcong : ∀ q, over_quota q (ss_num_objects st + n) (ss_num_kb_rounded st + size_kb) ↔
                       over_quota q (objs + n) (kb + size_kb)).
  { assert (Ho' : u64 (ss_num_objects st) = u64 objs) by (rewrite Ho; unfold objs; by destruct (r <? 0)).
    assert (Hk' : u64 (ss_num_kb_rounded st) = u64 kb) by (rewrite Hk; unfold kb; by destruct (r <? 0)).
    intros q. apply over_quota_cong.
    - by rewrite <- (u64_add_l (ss_num_objects st)), Ho', u64_add_l.
    - by rewrite <- (u64_add_l (ss_num_kb_rounded st)), Hk', u64_add_l. }
  unfold exceeded. cbn [set_caches qh_def_bucket_quota].
  pose proof (check_optional bq st n size_kb) as C1. cbv zeta in C1. rewrite !Hcong in C1.
  pose proof (check_optional (qh_def_bucket_quota h) st n size_kb) as C2. cbv zeta in C2. rewrite !Hcong in C2.
  assert (Hh : hollow_handler (set_caches m' (qh_user_stats_cache h) h)) by done.
  destruct C1 as [[-> H1]|[-> H1]];
    [change (0 <? 0) with false|change (- ERR_QUOTA_EXCEEDED <? 0) with true]; cbn iota; [|split; [done|tauto]].
  destruct C2 as [[-> H2]|[-> H2]];
    [change (0 <? 0) with false|change (- ERR_QUOTA_EXCEEDED <? 0) with true]; cbn iota; [|split; [done|tauto]].
  pose proof (check_user_spec clock user bucket uq n size_kb _ Hh) as Hus. cbn zeta in Hus.
  cbn [set_caches qh_def_user_quota] in Hus. cbn. destruct (check_user_quota _ _ _ _ _ _ _) as [res h'].
  destruct Hus as [Hh' [[-> H3]|[-> H3]]]; (split; [done|]); [|tauto].
  split; [by left|]. split; [done|tauto].
Qed.

Lemma quota_reachable_hollow cls h : quota_reachable cls h → hollow_handler h.
Proof.
  induction 1 as [| h clock user bucket uq bq n size _ IH | h user bucket d a r _ [Hb Hu]
    | h now user bucket stats _ [Hb Hu] | h now user bucket stats _ [Hb Hu]].
  - by split.
  - destruct (cls bucket) as [r headers] eqn:E.
    pose proof (check_quota_hollow cls clock user bucket uq bq n size h r headers IH E) as Hc.
    destruct (check_quota _ _ _ _ _ _ _ _ _) as [res h']. apply Hc.
  - split; by apply hollow_adjust.
  - split; [by apply hollow_response|done].
  - split; [done|by apply hollow_response].
Qed.

(** ** Theorems *)

(** After any calls on the handler, the check before a write depends on the
    store and the quotas alone.  Without a quota it succeeds; an error of the
    store other than "not found" is returned; otherwise the write is refused
    exactly when the bucket's quota or the default bucket quota would be exceeded
    by what all shards and categories of its index hold (nothing when it is not
    found), or when the write by itself exceeds the user's quota: what the user
    has stored already is never counted.  All sums are modulo [2^64]. *)
Lemma check_quota_spec cls clock user bucket uq bq n size h r headers :
  quota_reachable cls h → cls bucket = (r, headers) →
  let res := fst (check_quota cls clock user bucket uq bq n size h) in
  if no_quota uq bq h then res = 0
  else if (r <? 0) && negb (r =? - ENOENT) then res = r
  else
    let objs := if r <? 0 then 0 else stored_objects headers in
    let kb := if r <? 0 then 0 else stored_kb_rounded headers in
    (res = 0 ∨ res = - ERR_QUOTA_EXCEEDED) ∧
    (res = - ERR_QUOTA_EXCEEDED ↔ exceeded uq bq h objs kb n (rgw_rounded_objsize_kb size)).
Proof.
  intros Hr Hc. pose proof (check_quota_hollow cls clock user bucket uq bq n size h r headers
    (quota_reachable_hollow cls h Hr) Hc) as Hq.
  destruct (check_quota _ _ _ _ _ _ _ _ _) as [res h']. apply Hq.
Qed.

(** A bucket with two shards of two categories, 5 objects and 9 kB in all. *)
Definition demo_shard (n size : Z) : rgw_bucket_dir_header :=
  Mk_rgw_bucket_dir_header
    [(1, Mk_rgw_bucket_category_stats size size n); (3, Mk_rgw_bucket_category_stats 1 4096 1)] 0 0 0 "".

Definition demo_head (b : rgw_bucket) : Z * list (str * rgw_bucket_dir_header) :=
  (0, [("a", demo_shard 2 1024); ("b", demo_shard 1 0)]).

Lemma check_quota_spec_witness :
  let bq := Mk_RGWQuotaInfo (-1) 5 true (-1) (-1) in
  let h := update_stats "u" rgw_bucket_new 1 10 0 (generate_handler (-1) (-1) (-1) (-1)) in
  stored_objects (snd (demo_head rgw_bucket_new)) = 5 ∧
  (fst (check_quota demo_head (λ _, utime_zero) "u" rgw_bucket_new RGWQuotaInfo_new bq 1 1 h) = - ERR_QUOTA_EXCEEDED ↔
   exceeded RGWQuotaInfo_new bq h 5 9 1 4).
Proof.
  intros bq h. split; [vm_compute; reflexivity|].
  apply (check_quota_spec demo_head (λ _, utime_zero) "u" rgw_bucket_new RGWQuotaInfo_new bq 1 1 h 0
           (snd (demo_head rgw_bucket_new))); [|reflexivity].
  apply quota_reach_update, quota_reach_new.
Defined.

(** Adjusting cached statistics is exact modulo [2^64] for objects and rounded
    kilobytes; for plain kilobytes it is when bytes were added, but when more
    bytes are removed than added the unsigned difference is divided, and the count
    grows by nearly [2^54]. *)
Lemma stats_update_wraps d a r e :
  0 <= a < 2 ^ 64 → 0 <= r < 2 ^ 64 →
  let s := qc_stats e in
  let s' := qc_stats (snd (stats_update d a r e)) in
  ss_num_objects s' = u64 (ss_num_objects s + d) ∧
  ss_num_kb_rounded s' = u64 (ss_num_kb_rounded s + rgw_rounded_objsize_kb a - rgw_rounded_objsize_kb r) ∧
  ss_num_kb s' = if r <=? a then u64 (ss_num_kb s + (a - r) / 1024)
                 else u64 (ss_num_kb s + 2 ^ 54 - (r - a + 1023) / 1024).
Proof.
  intros Ha Hr. cbn. rewrite !u64_add_r. split_and!; [done|f_equal; lia|].
  destruct (Z.leb_spec r a); [by rewrite (u64_small (a - r)) by lia|]. f_equal.
  assert (u64 (a - r) = a - r + 2 ^ 64) as ->
    by (unfold u64; symmetry; apply (Z.mod_unique _ _ (-1)); lia).
  rewrite <- Z.add_sub_assoc. f_equal. change (2 ^ 64) with (2 ^ 54 * 1024).
  rewrite Z.div_add by done. dlia.
Qed.
