(* ===== verification/RestMgr.v ===== *)
(** * Request routing ([src/src/rgw/porting_rest.cc], [porting_rest.h])

    The tree of REST managers that [RGWREST] keeps: registering a manager
    under an entry point, and finding the manager of a request's path.  The
    managers own their children (the destructor deletes them), so the tree is
    an inductive type. *)

From S2P Require Import Prelude StdMap CString.

(** The classes that redefine [get_handler], and the base class. *)
Inductive mgr_class := RGWRESTMgr_base | RGWRESTMgr_S3 | RGWRESTMgr_Admin | RGWRESTMgr_Bucket.

#[warnings="-register-all"]
Inductive RGWRESTMgr := Mk_mgr {
  m_class : mgr_class;
  m_should_log : bool;
  m_resource_mgrs : list (str * RGWRESTMgr);
  m_resources_by_size : list (Z * str);
  m_default_mgr : option RGWRESTMgr
}.

Definition RGWRESTMgr_new (c : mgr_class) : RGWRESTMgr := Mk_mgr c false [] [] None.
Definition set_logging (b : bool) (m : RGWRESTMgr) : RGWRESTMgr :=
  Mk_mgr (m_class m) b (m_resource_mgrs m) (m_resources_by_size m) (m_default_mgr m).
Definition register_default_mgr (d : RGWRESTMgr) (m : RGWRESTMgr) : RGWRESTMgr :=
  Mk_mgr (m_class m) (m_should_log m) (m_resource_mgrs m) (m_resources_by_size m) (Some d).

(** One entry of both tables. *)
Definition add_entry (r : str) (c : RGWRESTMgr) (m : RGWRESTMgr) : RGWRESTMgr :=
  Mk_mgr (m_class m) (m_should_log m) (mset r c (m_resource_mgrs m))
    (mminsert (zlen r) r (m_resources_by_size m)) (m_default_mgr m).

Definition SLASH : ascii := "/"%char.

(** The loop that puts a manager that does nothing at each parent path; the
    position grows, so a turn per character is enough. *)
Fixpoint register_parents (fuel : nat) (r : str) (pos : option nat) (m : RGWRESTMgr) : RGWRESTMgr :=
  match fuel with
  | O => m
  | S f =>
      match pos with
      | None => m
      | Some p =>
          if (p =? length r - 1)%nat then m
          else
            let s := substr 0 p r in
            let m := match mfind s (m_resource_mgrs m) with
                     | None => add_entry s (RGWRESTMgr_new RGWRESTMgr_base) m
                     | Some _ => m
                     end in
            register_parents f r (find_from (char_is SLASH) (S p) r) m
      end
  end.

Definition register_resource (resource : str) (mgr : RGWRESTMgr) (m : RGWRESTMgr) : RGWRESTMgr :=
  let r := "/" ++ resource in
  register_parents (length r) r (find_from (char_is SLASH) 1 r) (add_entry r mgr m).

(** [RGWREST::register_resource]: the empty name only when asked for. *)
Definition rest_register_resource (resource : str) (mgr : RGWRESTMgr) (register_empty : bool)
    (m : RGWRESTMgr) : RGWRESTMgr :=
  if negb register_empty && (length resource =? 0)%nat then m else register_resource resource mgr m.

(** The test of a path against an entry point: a prefix that ends where the
    path does or at a slash. *)
Definition path_prefix (r uri : str) : bool :=
  has_prefix r uri
  && ((length uri =? length r)%nat || bool_decide (uri !! length r = Some SLASH)).

Fixpoint find_resource (uri : str) (l : list (Z * str)) : option str :=
  match l with
  | [] => None
  | (n, r) :: l' => if path_prefix r uri then Some r else find_resource uri l'
  end.

(** A manager and the rest of the path; or the null pointer [operator[]] would
    leave in the table; or no result yet. *)
Inductive lookup := Found (m : RGWRESTMgr) (out_uri : str) | NullMgr | NoFuel.

Fixpoint get_resource_mgr (fuel : nat) (m : RGWRESTMgr) (uri : str) : lookup :=
  match fuel with
  | O => NoFuel
  | S f =>
      match m_resources_by_size m with
      | [] => Found m uri
      | by_size =>
          match find_resource uri (rev by_size) with
          | Some r =>
              match mfind r (m_resource_mgrs m) with
              | Some c => get_resource_mgr f c (drop (length r) uri)
              | None => NullMgr
              end
          | None => Found (default m (m_default_mgr m)) uri
          end
      end
  end.

(** An entry point takes at least its slash off the path, so the path bounds
    the depth of the search, whatever the tree. *)
Definition route (m : RGWRESTMgr) (uri : str) : lookup := get_resource_mgr (S (length uri)) m uri.

(** The managers [main] registers ([src/src/rgw/rgw_main.cc]). *)
Definition main_mgr : RGWRESTMgr :=
  let admin := register_resource "bucket" (RGWRESTMgr_new RGWRESTMgr_Bucket)
                 (RGWRESTMgr_new RGWRESTMgr_Admin) in
  rest_register_resource "admin" admin false
    (register_default_mgr (set_logging true (RGWRESTMgr_new RGWRESTMgr_S3))
       (RGWRESTMgr_new RGWRESTMgr_base)).

(** ** The invariant of a manager *)

Definition tables_ok (m : RGWRESTMgr) : Prop :=
  mmsorted (m_resources_by_size m)
  ∧ (∀ n r, (n, r) ∈ m_resources_by_size m →
       n = zlen r ∧ r ≠ [] ∧ is_Some (mfind r (m_resource_mgrs m)))
  ∧ (∀ r c, mfind r (m_resource_mgrs m) = Some c → (zlen r, r) ∈ m_resources_by_size m).

(** The tables of a manager, and of all below it, agree. *)
Inductive mgr_wf : RGWRESTMgr → Prop :=
| mgr_wf_intro m :
    tables_ok m → (∀ r c, mfind r (m_resource_mgrs m) = Some c → mgr_wf c) → mgr_wf m.

Lemma RGWRESTMgr_new_wf c : mgr_wf (RGWRESTMgr_new c).
Proof.
  constructor; [|done]. split; [done|]. split; [|done]. intros n r H. by apply not_elem_of_nil in H.
Qed.

Lemma add_entry_wf r c m : r ≠ [] → mgr_wf c → mgr_wf m → mgr_wf (add_entry r c m).
Proof.
  intros Hr Hc [m' (Hs & Hb & Hm) Hch]. constructor; cbn.
  - split_and!.
    + by apply mminsert_sorted.
    + intros n r'. cbn. rewrite mminsert_perm. intros [[= -> ->]|Hin]%elem_of_cons.
      * rewrite mfind_mset_eq. by eauto.
      * destruct (Hb _ _ Hin) as (-> & ? & ?). split_and!; [done|done|].
        destruct (decide (r = r')) as [->|]; [by rewrite mfind_mset_eq|by rewrite mfind_mset_ne].
    + intros r' c'. cbn. rewrite mminsert_perm. destruct (decide (r = r')) as [->|].
      * intros _. apply elem_of_cons. by left.
      * rewrite mfind_mset_ne by done. intros H. apply elem_of_cons. right. by eapply Hm.
  - intros r' c'. destruct (decide (r = r')) as [->|].
    + rewrite mfind_mset_eq. by intros [= <-].
    + rewrite mfind_mset_ne by done. apply Hch.
Qed.

Lemma register_parents_wf fuel r pos m :
  (∀ p, pos = Some p → (0 < p)%nat) → (0 < length r)%nat → mgr_wf m →
  mgr_wf (register_parents fuel r pos m).
Proof.
  revert pos m. induction fuel as [|f IH]; intros pos m Hp Hr Hm; cbn; [done|].
  destruct pos as [p|]; [|done]. destruct (p =? _)%nat eqn:E; [done|].
  apply IH; [|done|].
  - unfold find_from. intros q. destruct (find_if _ _); [|done]. intros [= <-]. lia.
  - destruct (mfind _ _); [done|]. apply add_entry_wf; [|apply RGWRESTMgr_new_wf|done].
    specialize (Hp p eq_refl). unfold substr. rewrite drop_0.
    destruct r; [cbn in Hr; lia|]. destruct p; [lia|done].
Qed.

(** Registering keeps the tables of the whole tree in agreement. *)
Lemma register_resource_wf r c m : mgr_wf c → mgr_wf m → mgr_wf (register_resource r c m).
Proof.
  intros Hc Hm. apply register_parents_wf; [|cbn; lia|by apply add_entry_wf].
  unfold find_from. intros p. destruct (find_if _ _); [|done]. intros [= <-]. lia.
Qed.

Lemma main_mgr_wf : mgr_wf main_mgr.
Proof.
  apply register_resource_wf; [apply register_resource_wf; apply RGWRESTMgr_new_wf|].
  constructor; [|done]. split; [done|]. split; [|done]. intros n r H. by apply not_elem_of_nil in H.
Qed.

(** ** The longest entry point *)

Lemma find_resource_Some uri l r :
  find_resource uri l = Some r →
  ∃ l1 n l2, l = l1 ++ (n, r) :: l2 ∧ path_prefix r uri = true
    ∧ Forall (λ p, path_prefix (snd p) uri = false) l1.
Proof.
  induction l as [|[n r'] l IH]; cbn; [done|]. destruct (path_prefix r' uri) eqn:E.
  - intros [= ->]. by exists [], n, l.
  - intros H. destruct (IH H) as (l1 & n' & l2 & -> & Hp & Hl). exists ((n, r') :: l1), n', l2.
    split_and!; try done. by constructor.
Qed.

Lemma find_resource_None uri l :
  find_resource uri l = None → Forall (λ p, path_prefix (snd p) uri = false) l.
Proof.
  induction l as [|[n r'] l IH]; cbn; [by constructor|]. case_bool; [done|]. intros H.
  constructor; auto.
Qed.

Lemma mmsorted_app_rev {V} (l1 l2 : list (Z * V)) k v p :
  mmsorted (l1 ++ (k, v) :: l2) → p ∈ l1 → fst p <= k.
Proof.
  induction l1 as [|[k1 v1] l1 IH]; cbn; [intros _ H; by inversion H|].
  intros [Hf Hs] [->|Hin]%elem_of_cons; [|by apply IH].
  rewrite Forall_forall in Hf. specialize (Hf (k, v)). cbn in *.
  assert (H : (k, v) ∈ l1 ++ (k, v) :: l2) by (apply elem_of_app; right; apply elem_of_cons; by left).
  exact (Hf H).
Qed.

Lemma find_resource_longest uri l r :
  mmsorted l → (∀ n r, (n, r) ∈ l → n = zlen r) → find_resource uri (rev l) = Some r →
  (zlen r, r) ∈ l ∧ path_prefix r uri = true
  ∧ ∀ n r', (n, r') ∈ l → path_prefix r' uri = true → zlen r' <= zlen r.
Proof.
  intros Hs Hl H. destruct (find_resource_Some _ _ _ H) as (l1 & n & l2 & E & Hp & Hf).
  assert (El : l = rev l2 ++ (n, r) :: rev l1).
  { rewrite <- (rev_involutive l), E, rev_app_distr. cbn. by rewrite <- app_assoc. }
  assert (Hin : (n, r) ∈ l) by (rewrite El; apply elem_of_app; right; apply elem_of_cons; by left).
  assert (n = zlen r) as -> by (by apply Hl). split; [done|]. split; [done|].
  intros n r' Hin' Hp'. assert (n = zlen r') as -> by (by apply Hl).
  rewrite El in Hin', Hs. apply elem_of_app in Hin' as [Hin'|[[= ->]|Hin']%elem_of_cons].
  - by apply (mmsorted_app_rev _ _ _ _ _ Hs Hin').
  - lia.
  - rewrite Forall_forall in Hf. exfalso. specialize (Hf (zlen r', r')). cbn in Hf.
    rewrite Hf in Hp'; [done|]. by apply list_elem_of_In, in_rev, list_elem_of_In.
Qed.

Lemma path_prefix_app r uri : path_prefix r uri = true → uri = r ++ drop (length r) uri.
Proof.
  unfold path_prefix. intros [H _]%andb_true_iff. revert uri H.
  induction r as [|c r IH]; intros uri H; [done|]. destruct uri as [|d uri]; [done|].
  cbn in H. apply andb_true_iff in H as [->%bool_decide_eq_true H]. cbn. f_equal. by apply IH.
Qed.

(** Two entry points of the same length cannot both match. *)
Lemma path_prefix_unique r r' uri :
  path_prefix r uri = true → path_prefix r' uri = true → length r = length r' → r = r'.
Proof.
  intros H%path_prefix_app H'%path_prefix_app E. rewrite H in H'.
  apply (f_equal (take (length r))) in H'. rewrite take_app_length, E, take_app_length in H'. done.
Qed.

(** More fuel changes nothing. *)
Lemma get_resource_mgr_mono f g m uri :
  (f <= g)%nat → get_resource_mgr f m uri ≠ NoFuel → get_resource_mgr g m uri = get_resource_mgr f m uri.
Proof.
  revert g m uri. induction f as [|f IH]; intros g m uri Hle Hn; [done|].
  destruct g as [|g]; [lia|]. cbn in *. destruct (m_resources_by_size m); [done|].
  destruct (find_resource _ _); [|done]. destruct (mfind _ _); [|done]. apply IH; [lia|done].
Qed.

Lemma get_resource_mgr_found fuel m uri :
  mgr_wf m → (length uri < fuel)%nat → ∃ m' out, get_resource_mgr fuel m uri = Found m' out.
Proof.
  revert m uri. induction fuel as [|f IH]; intros m uri Hm Hlen; [lia|]. destruct Hm as [m (Hs & Hb & Hc) Hch].
  cbn [get_resource_mgr].
  destruct (m_resources_by_size m) as [|e l] eqn:E; cbn [rev]; [by eauto|].
  change (rev l ++ [e]) with (rev (e :: l)). rewrite <- E in *.
  destruct (find_resource uri (rev _)) as [r|] eqn:Ef; [|by eauto].
  destruct (find_resource_longest _ _ _ Hs (λ n r H, proj1 (Hb n r H)) Ef) as (Hin & Hp & _).
  destruct (Hb _ _ Hin) as (_ & Hr & [c Ec]). rewrite Ec. apply IH; [by eapply Hch|].
  rewrite length_drop. destruct r; [done|]. cbn. apply path_prefix_app in Hp.
  apply (f_equal length) in Hp. rewrite length_app in Hp. cbn in Hp. lia.
Qed.

(** What routing a path through a manager means. *)
Inductive routes : RGWRESTMgr → str → RGWRESTMgr → str → Prop :=
| routes_here m uri :
    (∀ r, is_Some (mfind r (m_resource_mgrs m)) → path_prefix r uri = false) →
    routes m uri (match m_resources_by_size m with [] => m | _ => default m (m_default_mgr m) end) uri
| routes_child m uri r c m' out :
    mfind r (m_resource_mgrs m) = Some c → path_prefix r uri = true →
    (∀ r', is_Some (mfind r' (m_resource_mgrs m)) → path_prefix r' uri = true → r' ≠ r →
       (length r' < length r)%nat) →
    routes c (drop (length r) uri) m' out → routes m uri m' out.

Lemma get_resource_mgr_routes fuel m uri m' out :
  mgr_wf m → get_resource_mgr fuel m uri = Found m' out → routes m uri m' out.
Proof.
  revert m uri. induction fuel as [|f IH]; intros m uri Hm; [done|]. destruct Hm as [m (Hs & Hb & Hc) Hch].
  cbn [get_resource_mgr]. intros H.
  assert (Hhere : find_resource uri (rev (m_resources_by_size m)) = None →
                  ∀ r, is_Some (mfind r (m_resource_mgrs m)) → path_prefix r uri = false).
  { intros Hn%find_resource_None r [c E%Hc]. rewrite Forall_forall in Hn.
    apply (Hn (zlen r, r)). by apply list_elem_of_In, in_rev; rewrite rev_involutive; apply list_elem_of_In. }
  destruct (m_resources_by_size m) as [|e l] eqn:E.
  - injection H as <- <-. pose proof (routes_here m uri (Hhere eq_refl)) as Hr. by rewrite E in Hr.
  - destruct (find_resource uri (rev (e :: l))) as [r|] eqn:Ef.
    + destruct (find_resource_longest _ _ _ Hs (λ n r H, proj1 (Hb n r H)) Ef) as (Hin & Hp & Hl).
      destruct (Hb _ _ Hin) as (_ & _ & [c Ec]).
      rewrite Ec in H. eapply routes_child; [done|done| |by apply IH; [eapply Hch|]].
      intros r' [c' E'%Hc] Hp' Hne. specialize (Hl _ _ E' Hp'). unfold zlen in Hl.
      destruct (decide (length r' = length r)) as [El|]; [|lia].
      by destruct Hne; eapply path_prefix_unique.
    + injection H as <- <-. pose proof (routes_here m uri (Hhere eq_refl)) as Hr. by rewrite E in Hr.
Qed.

Lemma route_found m uri :
  mgr_wf m → ∃ m' out, route m uri = Found m' out ∧ routes m uri m' out
    ∧ ∀ fuel, (length uri < fuel)%nat → get_resource_mgr fuel m uri = Found m' out.
Proof.
  intros Hm. destruct (get_resource_mgr_found (S (length uri)) m uri Hm ltac:(lia)) as (m' & out & E).
  exists m', out. split; [done|]. split; [by eapply get_resource_mgr_routes|].
  intros fuel Hf. rewrite <- E. apply get_resource_mgr_mono; [lia|]. by rewrite E.
Qed.

(** C23: routing always ends with a manager, at the longest registered entry point
    at each level, whatever the path: no null pointer is followed, and the
    result is unique. *)
Theorem route_spec m uri :
  mgr_wf m → ∃ m' out, route m uri = Found m' out ∧ routes m uri m' out
    ∧ ∀ fuel, (length uri < fuel)%nat → get_resource_mgr fuel m uri = Found m' out.
Proof. apply route_found. Qed.

Lemma add_entry_find s x m r :
  mfind r (m_resource_mgrs (add_entry s x m)) = if decide (s = r) then Some x else mfind r (m_resource_mgrs m).
Proof.
  cbn. case_decide as E; [subst; apply mfind_mset_eq|by apply mfind_mset_ne].
Qed.

Lemma register_parents_find fuel r pos m x :
  (∀ c, mfind x (m_resource_mgrs m) = Some c →
        mfind x (m_resource_mgrs (register_parents fuel r pos m)) = Some c)
  ∧ (is_Some (mfind x (m_resource_mgrs (register_parents fuel r pos m))) →
     is_Some (mfind x (m_resource_mgrs m)) ∨ (length x <= length r)%nat).
Proof.
  revert pos m. induction fuel as [|f IH]; intros pos m; cbn [register_parents]; [by auto|].
  destruct pos as [p|]; [|by auto]. destruct (p =? _)%nat; [by auto|].
  set (m1 := match mfind _ _ with Some _ => _ | None => _ end).
  destruct (IH (find_from (char_is SLASH) (S p) r) m1) as [IH1 IH2]. split.
  - intros c Hc. apply IH1. unfold m1. destruct (mfind (substr 0 p r) _) eqn:E; [done|].
    rewrite add_entry_find. case_decide; [subst; congruence|done].
  - intros [H|H]%IH2; [|by right]. revert H. unfold m1.
    destruct (mfind (substr 0 p r) _) eqn:E; [by left|].
    rewrite add_entry_find. case_decide; [|by left]. intros _. right. subst.
    unfold substr. rewrite drop_0, length_take. lia.
Qed.

Lemma path_prefix_self r suffix :
  suffix = [] ∨ suffix !! O = Some SLASH → path_prefix r (r ++ suffix) = true.
Proof.
  intros H. unfold path_prefix. rewrite has_prefix_self. cbn [andb].
  destruct H as [->|H].
  - by rewrite app_nil_r, Nat.eqb_refl.
  - rewrite lookup_app_r by lia. rewrite Nat.sub_diag, H. by rewrite bool_decide_eq_true_2, orb_true_r.
Qed.

(** After registering a manager, a path under its entry point is routed through
    it, unless an entry point further down the path was registered before. *)
Lemma register_route r c m suffix :
  mgr_wf m → mgr_wf c → suffix = [] ∨ suffix !! O = Some SLASH →
  (∀ r', is_Some (mfind r' (m_resource_mgrs m)) → path_prefix r' (("/" ++ r) ++ suffix) = true →
     (length r' <= length ("/" ++ r))%nat) →
  route (register_resource r c m) (("/" ++ r) ++ suffix) = route c suffix.
Proof.
  intros Hm Hc Hsuf Hno. set (k := "/" ++ r) in *. set (M := register_resource r c m).
  assert (HM : mgr_wf M) by (by apply register_resource_wf).
  assert (Hk : mfind k (m_resource_mgrs M) = Some c).
  { apply register_parents_find. rewrite add_entry_find. by rewrite decide_True. }
  assert (Hlen : ∀ r', is_Some (mfind r' (m_resource_mgrs M)) → path_prefix r' (k ++ suffix) = true →
                 (length r' <= length k)%nat).
  { intros r' Hr' Hp. apply register_parents_find in Hr' as [Hr'|]; [|done].
    rewrite add_entry_find in Hr'. case_decide; [subst; done|]. by apply Hno. }
  destruct (route_found c suffix Hc) as (m' & out & E & _ & Hfuel). rewrite E.
  destruct HM as [M (Hs & Hb & Hmem) Hch]. unfold route. cbn [get_resource_mgr].
  destruct (m_resources_by_size M) as [|e l] eqn:El; [apply Hmem in Hk; by inversion Hk|].
  pose proof (path_prefix_self k suffix Hsuf) as Hself.
  destruct (find_resource _ _) as [r0|] eqn:Ef.
  - destruct (find_resource_longest _ _ _ Hs (λ n r H, proj1 (Hb n r H)) Ef) as (Hin & Hp & Hl).
    assert (r0 = k) as ->.
    { apply (path_prefix_unique _ _ (k ++ suffix)); [done|done|].
      specialize (Hl _ _ (Hmem _ _ Hk) Hself). unfold zlen in Hl.
      destruct (Hb _ _ Hin) as (_ & _ & HS). specialize (Hlen _ HS Hp). lia. }
    rewrite Hk, drop_app_length. apply Hfuel. rewrite length_app. cbn. lia.
  - apply find_resource_None in Ef. rewrite Forall_forall in Ef.
    specialize (Ef (zlen k, k)). cbn [snd] in Ef. rewrite Ef in Hself; [done|].
    apply list_elem_of_In, in_rev. rewrite rev_involutive. apply list_elem_of_In. by eapply Hmem.
Qed.

Lemma register_route_witness :
  route (register_resource "auth/v1.0" (RGWRESTMgr_new RGWRESTMgr_S3) main_mgr) "/auth/v1.0/b/o"
  = route (RGWRESTMgr_new RGWRESTMgr_S3) "/b/o".
Proof.
  apply (register_route "auth/v1.0" (RGWRESTMgr_new RGWRESTMgr_S3) main_mgr "/b/o").
  - apply main_mgr_wf.
  - apply RGWRESTMgr_new_wf.
  - by right.
  - intros r' [c' H]. apply mfind_elem in H. vm_compute in H.
    apply list_elem_of_In in H as [[= <- _]|[]]. done.
Defined.

Lemma route_spec_witness :
  ∃ m' out, route main_mgr "/admin/bucket/x" = Found m' out ∧ routes main_mgr "/admin/bucket/x" m' out
    ∧ ∀ fuel, (15 < fuel)%nat → get_resource_mgr fuel main_mgr "/admin/bucket/x" = Found m' out.
Proof. apply (route_spec main_mgr "/admin/bucket/x"). apply main_mgr_wf. Defined.

(** As [main] sets it up: everything outside [/admin] goes to the S3 manager,
    with the whole path; a bucket called [admin] is out of reach. *)
Lemma main_routes :
  route main_mgr "/bucket1/key" = Found (set_logging true (RGWRESTMgr_new RGWRESTMgr_S3)) "/bucket1/key"
  ∧ route main_mgr "/administrator/key"
    = Found (set_logging true (RGWRESTMgr_new RGWRESTMgr_S3)) "/administrator/key"
  ∧ route main_mgr "/admin/bucket/x" = Found (RGWRESTMgr_new RGWRESTMgr_Bucket) "/x"
  ∧ match route main_mgr "/admin/key" with
    | Found m out => m_class m = RGWRESTMgr_Admin ∧ out = "/key"
    | _ => False
    end.
Proof. by vm_compute. Qed.
