(* ===== verification/Rest.v ===== *)
(** * REST requests ([src/src/rgw/porting_rest.cc], [porting_rest_s3.cc])

    From the environment of a request to the operation it asks for: the
    preprocessing of host, path and content length, the bucket and object of
    the path, the names that are let through, the handler and the operation.
    The theorems are in
    [RestFacts.v]. *)

From S2P Require Import Prelude StdMap CString Env Http RgwObj Strtol Utf8 Errors RestMgr.

(** ** Attribute names *)

(** [lowercase_underscore_http_attr] and the like; the buffer is turned into a
    string as a C string. *)
Definition lowercase_underscore_http_attr (orig : str) : str :=
  cstr (map (λ c, if char_is "-" c then "_"%char else tolower c) orig).
Definition uppercase_underscore_http_attr (orig : str) : str :=
  cstr (map (λ c, if char_is "-" c then "_"%char else toupper c) orig).
Fixpoint camelcase_loop (last_sep : bool) (s : str) : str :=
  match s with
  | [] => []
  | c :: s' =>
      if char_is "_" c || char_is "-" c then "-"%char :: camelcase_loop true s'
      else (if last_sep then toupper c else tolower c) :: camelcase_loop false s'
  end.
Definition camelcase_dash_http_attr (orig : str) : str := cstr (camelcase_loop true orig).

Definition RGW_ATTR_PREFIX : str := "user.rgw.".
Definition RGW_ATTR_CONTENT_TYPE : str := RGW_ATTR_PREFIX ++ "content_type".
Definition RGW_ATTR_CACHE_CONTROL : str := RGW_ATTR_PREFIX ++ "cache_control".
Definition RGW_ATTR_CONTENT_DISP : str := RGW_ATTR_PREFIX ++ "content_disposition".
Definition RGW_ATTR_CONTENT_ENC : str := RGW_ATTR_PREFIX ++ "content_encoding".
Definition RGW_ATTR_CONTENT_LANG : str := RGW_ATTR_PREFIX ++ "content_language".
Definition RGW_ATTR_EXPIRES : str := RGW_ATTR_PREFIX ++ "expires".
Definition RGW_ATTR_USER_MANIFEST : str := RGW_ATTR_PREFIX ++ "user_manifest".

Definition base_rgw_to_http_attrs : list (str * str) := [
  (RGW_ATTR_CONTENT_LANG, "Content-Language"); (RGW_ATTR_EXPIRES, "Expires");
  (RGW_ATTR_CACHE_CONTROL, "Cache-Control"); (RGW_ATTR_CONTENT_DISP, "Content-Disposition");
  (RGW_ATTR_CONTENT_ENC, "Content-Encoding"); (RGW_ATTR_USER_MANIFEST, "X-Object-Manifest") ].
Definition generic_attrs : list (str * str) := [
  ("CONTENT_TYPE", RGW_ATTR_CONTENT_TYPE); ("HTTP_CONTENT_LANGUAGE", RGW_ATTR_CONTENT_LANG);
  ("HTTP_EXPIRES", RGW_ATTR_EXPIRES); ("HTTP_CACHE_CONTROL", RGW_ATTR_CACHE_CONTROL);
  ("HTTP_CONTENT_DISPOSITION", RGW_ATTR_CONTENT_DISP); ("HTTP_CONTENT_ENCODING", RGW_ATTR_CONTENT_ENC) ].

(** [rgw_rest_init]: the two attribute tables, for a list of extra attributes
    (which is empty now). *)
Definition rgw_rest_init (extended_http_attrs : list str) : list (str * str) * list (str * str) :=
  fold_left (λ '(to_http, generic) a,
    let rgw_attr := RGW_ATTR_PREFIX ++ lowercase_underscore_http_attr a in
    (mset rgw_attr (camelcase_dash_http_attr a) to_http,
     mset ("HTTP_" ++ uppercase_underscore_http_attr a) rgw_attr generic))
    extended_http_attrs
    (fold_left (λ m p, mset (fst p) (snd p) m) base_rgw_to_http_attrs [],
     fold_left (λ m p, mset (fst p) (snd p) m) generic_attrs []).
Definition generic_attrs_map : list (str * str) := snd (rgw_rest_init []).

(** ** Host names *)

(** [str_ends_with(s, suffix, &pos)] *)
Definition str_ends_with (s suffix : str) : option nat :=
  if (length s <? length suffix)%nat then None
  else
    let p := (length s - length suffix)%nat in
    if streq (drop p s) suffix then Some p else None.

(** [rgw_find_host_in_domains]: the domain and subdomain found. *)
Fixpoint rgw_find_host_in_domains (hostnames : list str) (host : str) : option (str * str) :=
  match hostnames with
  | [] => None
  | h :: hostnames' =>
      match str_ends_with host h with
      | None => rgw_find_host_in_domains hostnames' host
      | Some O => Some (host, [])
      | Some (S p) =>
          if bool_decide (host !! p = Some "."%char) then Some (drop (S p) host, take p host)
          else rgw_find_host_in_domains hostnames' host
      end
  end.

(** ** The state of a request *)

Inductive http_op := OP_GET | OP_PUT | OP_DELETE | OP_HEAD | OP_POST | OP_COPY | OP_OPTIONS | OP_UNKNOWN.

Definition RGW_FORMAT_PLAIN : Z := 0.
Definition RGW_FORMAT_XML : Z := 1.
Definition RGW_FORMAT_JSON : Z := 2.

(** The fields the request handling sets; [rs_domain] is [info.domain], and
    [rs_formatter] says whether the XML formatter was made. *)
Record req_state := Mk_req_state {
  rs_info : req_info;
  rs_domain : str;
  rs_op : http_op;
  rs_length : option str;
  rs_content_length : Z;
  rs_generic_attrs : list (str * str);
  rs_http_auth : option str;
  rs_has_bad_meta : bool;
  rs_decoded_uri : str;
  rs_relative_uri : str;
  rs_bucket_name_str : str;
  rs_object : rgw_obj_key;
  rs_format : Z;
  rs_formatter : bool;
  rs_canned_acl : str;
  rs_has_acl_header : bool;
  rs_copy_source : option str;
  rs_src_bucket_name : str;
  rs_src_object : rgw_obj_key;
  rs_dialect : str;
  rs_err : rgw_err;
  rs_prot_flags : Z;
  rs_system_request : bool
}.

Definition set_rs_info (v : req_info) (s : req_state) : req_state :=
  Mk_req_state v (rs_domain s) (rs_op s) (rs_length s) (rs_content_length s) (rs_generic_attrs s)
    (rs_http_auth s) (rs_has_bad_meta s) (rs_decoded_uri s) (rs_relative_uri s)
    (rs_bucket_name_str s) (rs_object s) (rs_format s) (rs_formatter s) (rs_canned_acl s)
    (rs_has_acl_header s) (rs_copy_source s) (rs_src_bucket_name s) (rs_src_object s)
    (rs_dialect s) (rs_err s) (rs_prot_flags s) (rs_system_request s).
Definition set_rs_domain (v : str) (s : req_state) : req_state :=
  Mk_req_state (rs_info s) v (rs_op s) (rs_length s) (rs_content_length s) (rs_generic_attrs s)
    (rs_http_auth s) (rs_has_bad_meta s) (rs_decoded_uri s) (rs_relative_uri s)
    (rs_bucket_name_str s) (rs_object s) (rs_format s) (rs_formatter s) (rs_canned_acl s)
    (rs_has_acl_header s) (rs_copy_source s) (rs_src_bucket_name s) (rs_src_object s)
    (rs_dialect s) (rs_err s) (rs_prot_flags s) (rs_system_request s).
Definition set_rs_op (v : http_op) (s : req_state) : req_state :=
  Mk_req_state (rs_info s) (rs_domain s) v (rs_length s) (rs_content_length s)
    (rs_generic_attrs s) (rs_http_auth s) (rs_has_bad_meta s) (rs_decoded_uri s)
    (rs_relative_uri s) (rs_bucket_name_str s) (rs_object s) (rs_format s) (rs_formatter s)
    (rs_canned_acl s) (rs_has_acl_header s) (rs_copy_source s) (rs_src_bucket_name s)
    (rs_src_object s) (rs_dialect s) (rs_err s) (rs_prot_flags s) (rs_system_request s).
Definition set_rs_length (v : option str) (s : req_state) : req_state :=
  Mk_req_state (rs_info s) (rs_domain s) (rs_op s) v (rs_content_length s) (rs_generic_attrs s)
    (rs_http_auth s) (rs_has_bad_meta s) (rs_decoded_uri s) (rs_relative_uri s)
    (rs_bucket_name_str s) (rs_object s) (rs_format s) (rs_formatter s) (rs_canned_acl s)
    (rs_has_acl_header s) (rs_copy_source s) (rs_src_bucket_name s) (rs_src_object s)
    (rs_dialect s) (rs_err s) (rs_prot_flags s) (rs_system_request s).
Definition set_rs_content_length (v : Z) (s : req_state) : req_state :=
  Mk_req_state (rs_info s) (rs_domain s) (rs_op s) (rs_length s) v (rs_generic_attrs s)
    (rs_http_auth s) (rs_has_bad_meta s) (rs_decoded_uri s) (rs_relative_uri s)
    (rs_bucket_name_str s) (rs_object s) (rs_format s) (rs_formatter s) (rs_canned_acl s)
    (rs_has_acl_header s) (rs_copy_source s) (rs_src_bucket_name s) (rs_src_object s)
    (rs_dialect s) (rs_err s) (rs_prot_flags s) (rs_system_request s).
Definition set_rs_generic_attrs (v : list (str * str)) (s : req_state) : req_state :=
  Mk_req_state (rs_info s) (rs_domain s) (rs_op s) (rs_length s) (rs_content_length s) v
    (rs_http_auth s) (rs_has_bad_meta s) (rs_decoded_uri s) (rs_relative_uri s)
    (rs_bucket_name_str s) (rs_object s) (rs_format s) (rs_formatter s) (rs_canned_acl s)
    (rs_has_acl_header s) (rs_copy_source s) (rs_src_bucket_name s) (rs_src_object s)
    (rs_dialect s) (rs_err s) (rs_prot_flags s) (rs_system_request s).
Definition set_rs_http_auth (v : option str) (s : req_state) : req_state :=
  Mk_req_state (rs_info s) (rs_domain s) (rs_op s) (rs_length s) (rs_content_length s)
    (rs_generic_attrs s) v (rs_has_bad_meta s) (rs_decoded_uri s) (rs_relative_uri s)
    (rs_bucket_name_str s) (rs_object s) (rs_format s) (rs_formatter s) (rs_canned_acl s)
    (rs_has_acl_header s) (rs_copy_source s) (rs_src_bucket_name s) (rs_src_object s)
    (rs_dialect s) (rs_err s) (rs_prot_flags s) (rs_system_request s).
Definition set_rs_has_bad_meta (v : bool) (s : req_state) : req_state :=
  Mk_req_state (rs_info s) (rs_domain s) (rs_op s) (rs_length s) (rs_content_length s)
    (rs_generic_attrs s) (rs_http_auth s) v (rs_decoded_uri s) (rs_relative_uri s)
    (rs_bucket_name_str s) (rs_object s) (rs_format s) (rs_formatter s) (rs_canned_acl s)
    (rs_has_acl_header s) (rs_copy_source s) (rs_src_bucket_name s) (rs_src_object s)
    (rs_dialect s) (rs_err s) (rs_prot_flags s) (rs_system_request s).
Definition set_rs_decoded_uri (v : str) (s : req_state) : req_state :=
  Mk_req_state (rs_info s) (rs_domain s) (rs_op s) (rs_length s) (rs_content_length s)
    (rs_generic_attrs s) (rs_http_auth s) (rs_has_bad_meta s) v (rs_relative_uri s)
    (rs_bucket_name_str s) (rs_object s) (rs_format s) (rs_formatter s) (rs_canned_acl s)
    (rs_has_acl_header s) (rs_copy_source s) (rs_src_bucket_name s) (rs_src_object s)
    (rs_dialect s) (rs_err s) (rs_prot_flags s) (rs_system_request s).
Definition set_rs_relative_uri (v : str) (s : req_state) : req_state :=
  Mk_req_state (rs_info s) (rs_domain s) (rs_op s) (rs_length s) (rs_content_length s)
    (rs_generic_attrs s) (rs_http_auth s) (rs_has_bad_meta s) (rs_decoded_uri s) v
    (rs_bucket_name_str s) (rs_object s) (rs_format s) (rs_formatter s) (rs_canned_acl s)
    (rs_has_acl_header s) (rs_copy_source s) (rs_src_bucket_name s) (rs_src_object s)
    (rs_dialect s) (rs_err s) (rs_prot_flags s) (rs_system_request s).
Definition set_rs_bucket_name_str (v : str) (s : req_state) : req_state :=
  Mk_req_state (rs_info s) (rs_domain s) (rs_op s) (rs_length s) (rs_content_length s)
    (rs_generic_attrs s) (rs_http_auth s) (rs_has_bad_meta s) (rs_decoded_uri s)
    (rs_relative_uri s) v (rs_object s) (rs_format s) (rs_formatter s) (rs_canned_acl s)
    (rs_has_acl_header s) (rs_copy_source s) (rs_src_bucket_name s) (rs_src_object s)
    (rs_dialect s) (rs_err s) (rs_prot_flags s) (rs_system_request s).
Definition set_rs_object (v : rgw_obj_key) (s : req_state) : req_state :=
  Mk_req_state (rs_info s) (rs_domain s) (rs_op s) (rs_length s) (rs_content_length s)
    (rs_generic_attrs s) (rs_http_auth s) (rs_has_bad_meta s) (rs_decoded_uri s)
    (rs_relative_uri s) (rs_bucket_name_str s) v (rs_format s) (rs_formatter s) (rs_canned_acl s)
    (rs_has_acl_header s) (rs_copy_source s) (rs_src_bucket_name s) (rs_src_object s)
    (rs_dialect s) (rs_err s) (rs_prot_flags s) (rs_system_request s).
Definition set_rs_format (v : Z) (s : req_state) : req_state :=
  Mk_req_state (rs_info s) (rs_domain s) (rs_op s) (rs_length s) (rs_content_length s)
    (rs_generic_attrs s) (rs_http_auth s) (rs_has_bad_meta s) (rs_decoded_uri s)
    (rs_relative_uri s) (rs_bucket_name_str s) (rs_object s) v (rs_formatter s) (rs_canned_acl s)
    (rs_has_acl_header s) (rs_copy_source s) (rs_src_bucket_name s) (rs_src_object s)
    (rs_dialect s) (rs_err s) (rs_prot_flags s) (rs_system_request s).
Definition set_rs_formatter (v : bool) (s : req_state) : req_state :=
  Mk_req_state (rs_info s) (rs_domain s) (rs_op s) (rs_length s) (rs_content_length s)
    (rs_generic_attrs s) (rs_http_auth s) (rs_has_bad_meta s) (rs_decoded_uri s)
    (rs_relative_uri s) (rs_bucket_name_str s) (rs_object s) (rs_format s) v (rs_canned_acl s)
    (rs_has_acl_header s) (rs_copy_source s) (rs_src_bucket_name s) (rs_src_object s)
    (rs_dialect s) (rs_err s) (rs_prot_flags s) (rs_system_request s).
Definition set_rs_canned_acl (v : str) (s : req_state) : req_state :=
  Mk_req_state (rs_info s) (rs_domain s) (rs_op s) (rs_length s) (rs_content_length s)
    (rs_generic_attrs s) (rs_http_auth s) (rs_has_bad_meta s) (rs_decoded_uri s)
    (rs_relative_uri s) (rs_bucket_name_str s) (rs_object s) (rs_format s) (rs_formatter s) v
    (rs_has_acl_header s) (rs_copy_source s) (rs_src_bucket_name s) (rs_src_object s)
    (rs_dialect s) (rs_err s) (rs_prot_flags s) (rs_system_request s).
Definition set_rs_has_acl_header (v : bool) (s : req_state) : req_state :=
  Mk_req_state (rs_info s) (rs_domain s) (rs_op s) (rs_length s) (rs_content_length s)
    (rs_generic_attrs s) (rs_http_auth s) (rs_has_bad_meta s) (rs_decoded_uri s)
    (rs_relative_uri s) (rs_bucket_name_str s) (rs_object s) (rs_format s) (rs_formatter s)
    (rs_canned_acl s) v (rs_copy_source s) (rs_src_bucket_name s) (rs_src_object s) (rs_dialect s)
    (rs_err s) (rs_prot_flags s) (rs_system_request s).
Definition set_rs_copy_source (v : option str) (s : req_state) : req_state :=
  Mk_req_state (rs_info s) (rs_domain s) (rs_op s) (rs_length s) (rs_content_length s)
    (rs_generic_attrs s) (rs_http_auth s) (rs_has_bad_meta s) (rs_decoded_uri s)
    (rs_relative_uri s) (rs_bucket_name_str s) (rs_object s) (rs_format s) (rs_formatter s)
    (rs_canned_acl s) (rs_has_acl_header s) v (rs_src_bucket_name s) (rs_src_object s)
    (rs_dialect s) (rs_err s) (rs_prot_flags s) (rs_system_request s).
Definition set_rs_src_bucket_name (v : str) (s : req_state) : req_state :=
  Mk_req_state (rs_info s) (rs_domain s) (rs_op s) (rs_length s) (rs_content_length s)
    (rs_generic_attrs s) (rs_http_auth s) (rs_has_bad_meta s) (rs_decoded_uri s)
    (rs_relative_uri s) (rs_bucket_name_str s) (rs_object s) (rs_format s) (rs_formatter s)
    (rs_canned_acl s) (rs_has_acl_header s) (rs_copy_source s) v (rs_src_object s) (rs_dialect s)
    (rs_err s) (rs_prot_flags s) (rs_system_request s).
Definition set_rs_src_object (v : rgw_obj_key) (s : req_state) : req_state :=
  Mk_req_state (rs_info s) (rs_domain s) (rs_op s) (rs_length s) (rs_content_length s)
    (rs_generic_attrs s) (rs_http_auth s) (rs_has_bad_meta s) (rs_decoded_uri s)
    (rs_relative_uri s) (rs_bucket_name_str s) (rs_object s) (rs_format s) (rs_formatter s)
    (rs_canned_acl s) (rs_has_acl_header s) (rs_copy_source s) (rs_src_bucket_name s) v
    (rs_dialect s) (rs_err s) (rs_prot_flags s) (rs_system_request s).
Definition set_rs_dialect (v : str) (s : req_state) : req_state :=
  Mk_req_state (rs_info s) (rs_domain s) (rs_op s) (rs_length s) (rs_content_length s)
    (rs_generic_attrs s) (rs_http_auth s) (rs_has_bad_meta s) (rs_decoded_uri s)
    (rs_relative_uri s) (rs_bucket_name_str s) (rs_object s) (rs_format s) (rs_formatter s)
    (rs_canned_acl s) (rs_has_acl_header s) (rs_copy_source s) (rs_src_bucket_name s)
    (rs_src_object s) v (rs_err s) (rs_prot_flags s) (rs_system_request s).
Definition set_rs_err (v : rgw_err) (s : req_state) : req_state :=
  Mk_req_state (rs_info s) (rs_domain s) (rs_op s) (rs_length s) (rs_content_length s)
    (rs_generic_attrs s) (rs_http_auth s) (rs_has_bad_meta s) (rs_decoded_uri s)
    (rs_relative_uri s) (rs_bucket_name_str s) (rs_object s) (rs_format s) (rs_formatter s)
    (rs_canned_acl s) (rs_has_acl_header s) (rs_copy_source s) (rs_src_bucket_name s)
    (rs_src_object s) (rs_dialect s) v (rs_prot_flags s) (rs_system_request s).
Definition set_rs_prot_flags (v : Z) (s : req_state) : req_state :=
  Mk_req_state (rs_info s) (rs_domain s) (rs_op s) (rs_length s) (rs_content_length s)
    (rs_generic_attrs s) (rs_http_auth s) (rs_has_bad_meta s) (rs_decoded_uri s)
    (rs_relative_uri s) (rs_bucket_name_str s) (rs_object s) (rs_format s) (rs_formatter s)
    (rs_canned_acl s) (rs_has_acl_header s) (rs_copy_source s) (rs_src_bucket_name s)
    (rs_src_object s) (rs_dialect s) (rs_err s) v (rs_system_request s).
Definition set_rs_system_request (v : bool) (s : req_state) : req_state :=
  Mk_req_state (rs_info s) (rs_domain s) (rs_op s) (rs_length s) (rs_content_length s)
    (rs_generic_attrs s) (rs_http_auth s) (rs_has_bad_meta s) (rs_decoded_uri s)
    (rs_relative_uri s) (rs_bucket_name_str s) (rs_object s) (rs_format s) (rs_formatter s)
    (rs_canned_acl s) (rs_has_acl_header s) (rs_copy_source s) (rs_src_bucket_name s)
    (rs_src_object s) (rs_dialect s) (rs_err s) (rs_prot_flags s) v.

Definition req_state_new (e : env_map) : req_state :=
  Mk_req_state (req_info_new e) [] OP_UNKNOWN None 0 [] None false [] [] [] rgw_obj_key_new 0 false []
    false None [] rgw_obj_key_new [] rgw_err_clear 0 false.

Definition ri_set_request_uri (u : str) (r : req_info) : req_info :=
  Mk_req_info (ri_env r) (ri_args r) (ri_x_meta_map r) (ri_host r) (ri_method r) (ri_script_uri r) u
    (ri_effective_uri r) (ri_request_params r).
Definition ri_set_args (a : RGWHTTPArgs) (r : req_info) : req_info :=
  Mk_req_info (ri_env r) a (ri_x_meta_map r) (ri_host r) (ri_method r) (ri_script_uri r)
    (ri_request_uri r) (ri_effective_uri r) (ri_request_params r).

(** ** Preprocessing *)

Definition parse_content_length (content_length : str) : Z :=
  match cstr content_length with
  | [] => 0
  | _ => let '(len, err) := strict_strtoll content_length 10 in
         match err with [] => len | _ => -1 end
  end.

Definition op_from_method (method : option str) : http_op :=
  match method with
  | None => OP_UNKNOWN
  | Some m =>
      let m := cstr m in
      if streq m "GET" then OP_GET
      else if streq m "PUT" then OP_PUT
      else if streq m "DELETE" then OP_DELETE
      else if streq m "HEAD" then OP_HEAD
      else if streq m "POST" then OP_POST
      else if streq m "COPY" then OP_COPY
      else if streq m "OPTIONS" then OP_OPTIONS
      else OP_UNKNOWN
  end.

(** Which of [CONTENT_LENGTH] and [HTTP_CONTENT_LENGTH] counts. *)
Definition pick_length (content_length http_content_length : option str) : option str :=
  match content_length, http_content_length with
  | Some c, None => Some c
  | None, Some h => Some h
  | None, None => None
  | Some c, Some h =>
      let ci := parse_content_length c in
      let hi := parse_content_length h in
      if hi <? 0 then Some c
      else if ci <? 0 then Some h
      else if ci <? hi then Some h
      else Some c
  end.

(** The error and the new [content_length]. *)
Definition read_length (length : option str) (old : Z) : Z * Z :=
  let '(bad, len) :=
    match length with
    | None => (false, old)
    | Some l =>
        match cstr l with
        | [] => (false, 0)
        | _ => let '(len, err) := strict_strtoll l 10 in
               (match err with [] => false | _ => true end, len)
        end
    end in
  if bad then (- EINVAL, len)
  else if len <? 0 then (- EINVAL, len)
  else (0, len).

Section preprocess.
(** What the escape table holds in front of its first entry, the names of
    [hostnames_set], and the value of the local [found], which is read before
    anything is stored in it. *)
Variable table_oob : ascii → Z.
Variable hostnames_set : list str.
Variable found : bool.

(** The domain and the URI after looking at the host. *)
Definition preprocess_host (host request_uri : str) : str * str :=
  match host with
  | [] => ([], request_uri)
  | _ =>
      let first := rgw_find_host_in_domains hostnames_set host in
      let res := match first with
                 | Some _ => first
                 | None => if found then rgw_find_host_in_domains hostnames_set [] else None
                 end in
      match res with
      | None => ([], request_uri)
      | Some (domain, subdomain) =>
          (domain,
           match subdomain with
           | [] => request_uri
           | _ => "/" ++ subdomain
                  ++ (if bool_decide (request_uri !! O = Some SLASH) then [] else "/'") ++ request_uri
           end)
      end
  end.

Definition read_generic_attrs (e : env_map) (attrs : list (str * str)) : list (str * str) :=
  fold_left (λ m p, match env_get (fst p) e with Some v => mset (snd p) v m | None => m end)
    generic_attrs_map attrs.

(** [RGWREST::preprocess]: the error, or the new state. *)
Definition preprocess (s : req_state) : Z * req_state :=
  let info := rs_info s in
  let e := ri_env info in
  let '(domain, uri) := preprocess_host (ri_host info) (ri_request_uri info) in
  let s := set_rs_info (ri_set_request_uri uri info) s in
  let s := match domain with [] => s | _ => set_rs_domain domain s end in
  let s := match rs_domain s with [] => set_rs_domain "bwcpn" s | _ => s end in
  let s := set_rs_decoded_uri (snd (url_decode table_oob uri (rs_decoded_uri s) false)) s in
  let s := set_rs_length (pick_length (env_get "CONTENT_LENGTH" e) (env_get "HTTP_CONTENT_LENGTH" e)) s in
  let '(err, len) := read_length (rs_length s) (rs_content_length s) in
  let s := set_rs_content_length len s in
  if err <? 0 then (err, s)
  else
      let s := set_rs_generic_attrs (read_generic_attrs e (rs_generic_attrs s)) s in
      let s := set_rs_http_auth (env_get "HTTP_AUTHORIZATION" e) s in
      let s := set_rs_op (op_from_method (Some (ri_method info))) s in
      let '(info', bad) := init_meta_info (rs_info s) in
      (0, set_rs_has_bad_meta (rs_has_bad_meta s || bad) (set_rs_info info' s)).
End preprocess.

(** ** Names *)

Definition validate_object_name (object : str) : Z :=
  let len := zlen object in
  if len >? 1024 then - ERR_INVALID_OBJECT_NAME
  else if negb (check_utf8 object =? 0) then - ERR_INVALID_OBJECT_NAME
  else 0.

Definition validate_bucket_name (bucket : str) : Z :=
  let len := zlen bucket in
  if len <? 3 then if len =? 0 then 0 else - ERR_INVALID_BUCKET_NAME
  else if len >? 255 then - ERR_INVALID_BUCKET_NAME
  else 0.

(** The loop of [looks_like_ip_address], with its two variables. *)
Fixpoint ip_loop (num_periods : Z) (expect_period : bool) (b : str) : bool :=
  match b with
  | [] => num_periods =? 3
  | c :: b' =>
      if char_is "." c then
        if negb expect_period then false
        else if num_periods + 1 >? 3 then false
        else ip_loop (num_periods + 1) false b'
      else if isdigit c then ip_loop num_periods true b'
      else false
  end.
Definition looks_like_ip_address (bucket : str) : bool := ip_loop 0 false (cstr bucket).

Definition bucket_char (c : ascii) : bool :=
  isdigit c || char_is "." c || isalpha c || char_is "-" c || char_is "_" c.

(** [RGWHandler_ObjStore_S3::validate_bucket_name] *)
Definition s3_validate_bucket_name (bucket : str) (relaxed_names : bool) : Z :=
  let ret := validate_bucket_name bucket in
  if ret <? 0 then ret
  else
    match bucket with
    | [] => 0
    | c :: _ =>
        if negb (isalpha c || isdigit c)
           && (negb relaxed_names || negb (char_is "_" c || char_is "." c || char_is "-" c))
        then - ERR_INVALID_BUCKET_NAME
        else if negb (forallb bucket_char (cstr bucket)) then - ERR_INVALID_BUCKET_NAME
        else if looks_like_ip_address bucket then - ERR_INVALID_BUCKET_NAME
        else 0
    end.

(** ** From the path to the handler *)

(** [allocate_formatter]: the error, the format, and whether the XML formatter
    is made. *)
Definition accept_format (accept : str) : str :=
  take 63 (match find_if (char_is ";") (cstr accept) with Some i => take i (cstr accept) | None => cstr accept end).
Definition allocate_formatter (default_type : Z) (configurable : bool) (s : req_state) : Z * req_state :=
  let format :=
    if configurable then
      let format_str := fst (args_get "format" (ri_args (rs_info s))) in
      if streq format_str "xml" then RGW_FORMAT_XML
      else if streq format_str "json" then RGW_FORMAT_JSON
      else
        match env_get "HTTP_ACCEPT" (ri_env (rs_info s)) with
        | None => default_type
        | Some accept =>
            let f := accept_format accept in
            if streq f "text/xml" || streq f "application/xml" then RGW_FORMAT_XML
            else if streq f "application/json" then RGW_FORMAT_JSON
            else default_type
        end
    else default_type in
  let s := set_rs_format format s in
  if format =? RGW_FORMAT_XML then (0, set_rs_formatter true s)
  else if (format =? RGW_FORMAT_PLAIN) || (format =? RGW_FORMAT_JSON) then (0, s)
  else (- EINVAL, s).

Section request.
Variable table_oob : ascii → Z.

(** [init_from_header] *)
Definition init_from_header (default_formatter : Z) (configurable : bool) (s : req_state) : Z * req_state :=
  let req_name := cstr (rs_relative_uri s) in
  let p := match req_name with
           | c :: _ => if char_is "?" c then req_name else cstr (ri_request_params (rs_info s))
           | [] => cstr (ri_request_params (rs_info s))
           end in
  let s := set_rs_info (ri_set_args (args_parse table_oob (args_set p (ri_args (rs_info s)))) (rs_info s)) s in
  let '(ret, s) := allocate_formatter default_formatter configurable s in
  if ret <? 0 then (ret, s)
  else
    match req_name with
    | c :: req =>
        if negb (char_is SLASH c) then (0, s)
        else
          match req with
          | [] => (0, s)
          | _ =>
              let pos := find_if (char_is SLASH) req in
              let first := match pos with Some p => substr 0 p req | None => req end in
              let version := fst (args_get "versionId" (ri_args (rs_info s))) in
              match rs_bucket_name_str s with
              | [] =>
                  let s := set_rs_bucket_name_str first s in
                  (0, match pos with
                      | Some p => set_rs_object (Mk_rgw_obj_key (substr_from (S p) req) version) s
                      | None => s
                      end)
              | _ => (0, set_rs_object (Mk_rgw_obj_key req version) s)
              end
          end
    | [] => (0, s)
    end.

(** [RGWCopyObj::parse_copy_location]: the result, the bucket and the key.
    [pos <= 0] refuses an empty bucket name as well. *)
Definition parse_copy_location (url_src bucket_name : str) (key : rgw_obj_key) : bool * str * rgw_obj_key :=
  let '(name_str, params_str) :=
    match find_if (char_is "?") url_src with
    | None => (url_src, [])
    | Some pos => (substr 0 pos url_src, substr_from (S pos) url_src)
    end in
  let dec_src := cstr (snd (url_decode table_oob name_str [] false)) in
  let str_ := match dec_src with c :: r => if char_is SLASH c then r else dec_src | [] => [] end in
  match find_if (char_is SLASH) str_ with
  | None | Some O => (false, bucket_name, key)
  | Some pos =>
      let bucket := substr 0 pos str_ in
      let name := substr_from (S pos) str_ in
      match name with
      | [] => (false, bucket, Mk_rgw_obj_key name (rk_instance key))
      | _ =>
          (true, bucket,
           Mk_rgw_obj_key name
             (match params_str with
              | [] => rk_instance key
              | _ => fst (args_get "versionId" (args_parse table_oob (args_set params_str RGWHTTPArgs_new)))
              end))
      end
  end.

(** [RGWHandler_ObjStore_S3::init] *)
Definition s3_init (relaxed_names : bool) (s : req_state) : Z * req_state :=
  let ret := s3_validate_bucket_name (rs_bucket_name_str s) relaxed_names in
  if negb (ret =? 0) then (ret, s)
  else
    let ret := validate_object_name (rk_name (rs_object s)) in
    if negb (ret =? 0) then (ret, s)
    else
      let e := ri_env (rs_info s) in
      let s := match env_get "HTTP_X_AMZ_ACL" e with Some c => set_rs_canned_acl c s | None => s end in
      let s := set_rs_has_acl_header (env_exists_prefix (Some "HTTP_X_AMZ_GRANT") e) s in
      let s := set_rs_copy_source (env_get "HTTP_X_AMZ_COPY_SOURCE" e) s in
      let '(ok, s) :=
        match rs_copy_source s with
        | None => (true, s)
        | Some src =>
            let '(r, b, k) := parse_copy_location src (rs_src_bucket_name s) (rs_src_object s) in
            (r, set_rs_src_object k (set_rs_src_bucket_name b s))
        end in
      if ok then (0, set_rs_dialect "s3" s) else (- EINVAL, s).

Inductive handler := H_Service_S3 | H_Bucket_S3 | H_Obj_S3 | H_Admin_Bucket.

(** [RGWRESTMgr::get_handler] of the four classes. *)
Definition mgr_get_handler (c : mgr_class) (s : req_state) : option handler * req_state :=
  match c with
  | RGWRESTMgr_base | RGWRESTMgr_Admin => (None, s)
  | RGWRESTMgr_Bucket => (Some H_Admin_Bucket, s)
  | RGWRESTMgr_S3 =>
      let '(ret, s) := init_from_header RGW_FORMAT_XML false s in
      if ret <? 0 then (None, s)
      else
        (Some (match rs_bucket_name_str s with
               | [] => H_Service_S3
               | _ => if key_empty (rs_object s) then H_Bucket_S3 else H_Obj_S3
               end), s)
  end.

(** [RGWHandler::init] of each. *)
Definition handler_init (relaxed_names : bool) (h : handler) (s : req_state) : Z * req_state :=
  match h with
  | H_Admin_Bucket => init_from_header RGW_FORMAT_JSON true s
  | _ => s3_init relaxed_names s
  end.

(** [RGWREST::get_handler]: [*init_error], the handler and whether its manager
    logs. *)
Definition get_handler (hostnames_set : list str) (found relaxed_names : bool) (mgr : RGWRESTMgr)
    (s : req_state) : Z * option (handler * bool) * req_state :=
  let '(err, s) := preprocess table_oob hostnames_set found s in
  if err <? 0 then (err, None, s)
  else
    match route mgr (rs_decoded_uri s) with
    | Found m out =>
        let s := set_rs_relative_uri out s in
        match mgr_get_handler (m_class m) s with
        | (None, s) => (- ERR_METHOD_NOT_ALLOWED, None, s)
        | (Some h, s) =>
            let '(err, s) := handler_init relaxed_names h s in
            if err <? 0 then (err, None, s) else (err, Some (h, m_should_log m), s)
        end
    | _ => (- ERR_METHOD_NOT_ALLOWED, None, s)
    end.
End request.

(** ** The operation *)

Inductive rgw_op :=
| ListBuckets | ListBucket | StatBucket | GetBucketLocation | GetACLs | GetObj (get_data : bool)
| PutObj | CopyObj | DeleteObj | CreateBucket | InitMultipart | CompleteMultipart.

Definition is_acl_op (s : req_state) : bool := args_exists "acl" (ri_args (rs_info s)).
Definition is_cors_op (s : req_state) : bool := args_exists "cors" (ri_args (rs_info s)).
Definition is_request_payment_op (s : req_state) : bool :=
  args_exists "requestPayment" (ri_args (rs_info s)).
Definition is_obj_update_op (h : handler) (s : req_state) : bool :=
  match h with
  | H_Bucket_S3 => is_acl_op s || is_cors_op s
  | H_Obj_S3 => is_acl_op s
  | H_Service_S3 | H_Admin_Bucket => false
  end.

Definition bucket_op_get (s : req_state) : option rgw_op :=
  let args := ri_args (rs_info s) in
  if sub_resource_exists "logging" args then None
  else if sub_resource_exists "location" args then Some GetBucketLocation
  else if sub_resource_exists "versioning" args then None
  else if is_acl_op s then Some GetACLs
  else if is_cors_op s then None
  else if is_request_payment_op s then None
  else if args_exists "uploads" args then None
  else Some ListBucket.
Definition bucket_op_head (s : req_state) : option rgw_op :=
  if is_acl_op s then Some GetACLs
  else if args_exists "uploads" (ri_args (rs_info s)) then None
  else Some StatBucket.
Definition bucket_op_put (s : req_state) : option rgw_op :=
  let args := ri_args (rs_info s) in
  if sub_resource_exists "logging" args then None
  else if sub_resource_exists "versioning" args then None
  else if is_acl_op s then None
  else if is_cors_op s then None
  else if is_request_payment_op s then None
  else Some CreateBucket.

Definition obj_op_get (get_data : bool) (s : req_state) : option rgw_op :=
  if is_acl_op s then Some GetACLs
  else if args_exists "uploadId" (ri_args (rs_info s)) then None
  else Some (GetObj get_data).
Definition obj_op_put (s : req_state) : option rgw_op :=
  if is_acl_op s then None
  else match rs_copy_source s with None => Some PutObj | Some _ => Some CopyObj end.
Definition obj_op_delete (s : req_state) : option rgw_op :=
  match fst (args_get "uploadId" (ri_args (rs_info s))) with [] => Some DeleteObj | _ => None end.
Definition obj_op_post (s : req_state) : option rgw_op :=
  let args := ri_args (rs_info s) in
  if args_exists "uploadId" args then Some CompleteMultipart
  else if args_exists "uploads" args then Some InitMultipart
  else None.

(** [RGWHandler::get_op] *)
Definition get_op (h : handler) (s : req_state) : option rgw_op :=
  match h, rs_op s with
  | H_Service_S3, OP_GET => Some ListBuckets
  | H_Bucket_S3, OP_GET => bucket_op_get s
  | H_Bucket_S3, OP_HEAD => bucket_op_head s
  | H_Bucket_S3, OP_PUT => bucket_op_put s
  | H_Obj_S3, OP_GET => obj_op_get true s
  | H_Obj_S3, OP_HEAD => obj_op_get false s
  | H_Obj_S3, OP_PUT => obj_op_put s
  | H_Obj_S3, OP_DELETE => obj_op_delete s
  | H_Obj_S3, OP_POST => obj_op_post s
  | _, _ => None
  end.

(** [read_permissions]: whether the policies are read, and only the bucket's. *)
Definition read_permissions (h : handler) (o : rgw_op) (s : req_state) : Z + option bool :=
  match h with
  | H_Admin_Bucket => inr None
  | _ =>
      match rs_op s with
      | OP_HEAD | OP_GET => inr (Some false)
      | OP_PUT | OP_POST | OP_COPY =>
          if streq (ri_request_params (rs_info s)) "delete" then inr (Some true)
          else if is_obj_update_op h s then inr (Some false)
          else match o with CreateBucket => inr None | _ => inr (Some true) end
      | OP_DELETE | OP_OPTIONS => inr (Some true)
      | OP_UNKNOWN => inl (- EINVAL)
      end
  end.
