(* ===== verification/RestFacts.v ===== *)
(** * Properties of request handling

    Which bucket names are let through, the content length of a request, and
    the path from the URI a client sends to the bucket, object and handler. *)

From S2P Require Import Prelude StdMap CString Env Http RgwObj Strtol Utf8 Errors RestMgr Rest.

(** ** Bucket names *)

(** Four groups of digits between periods; the last may be empty. *)
Definition ip_like (s : str) : Prop :=
  ∃ a b c d, s = a ++ "." ++ b ++ "." ++ c ++ "." ++ d
    ∧ a ≠ [] ∧ b ≠ [] ∧ c ≠ [] ∧ forallb isdigit (a ++ b ++ c ++ d) = true.

(** [n] groups of digits, each followed by a period, then digits. *)
Fixpoint groups (n : nat) (s : str) : Prop :=
  match n with
  | O => forallb isdigit s = true
  | S n' => ∃ a r, s = a ++ "." ++ r ∧ a ≠ [] ∧ forallb isdigit a = true ∧ groups n' r
  end.

Lemma ip_like_groups s : ip_like s ↔ groups 3 s.
Proof.
  unfold ip_like. cbn [groups]. split.
  - intros (a & b & c & d & -> & ? & ? & ? & H). rewrite !forallb_app in H.
    apply andb_true_iff in H as [? [? [? ?]%andb_true_iff]%andb_true_iff].
    exists a, (b ++ "." ++ c ++ "." ++ d). split_and!; try done.
    exists b, (c ++ "." ++ d). split_and!; try done. by exists c, d.
  - intros (a & r & -> & ? & ? & b & r' & -> & ? & ? & c & d & -> & ? & ? & ?).
    exists a, b, c, d. split_and!; try done. rewrite !forallb_app.
    repeat (apply andb_true_iff; split); done.
Qed.

Lemma digit_not_period c : isdigit c = true → char_is "." c = false.
Proof. unfold char_is. intros H. apply bool_decide_eq_false. by intros ->. Qed.

(** The state of the loop: how many periods are still to come, and whether the
    group read has a digit. *)
Lemma ip_loop_spec s p ep :
  0 <= p <= 3 →
  ip_loop p ep s = true ↔
  ∃ a r, s = a ++ r ∧ forallb isdigit a = true ∧
    ((p = 3 ∧ r = []) ∨ (p < 3 ∧ (ep = true ∨ a ≠ []) ∧ ∃ r', r = "." ++ r' ∧ groups (Z.to_nat (2 - p)) r')).
Proof.
  revert p ep. induction s as [|c s IH]; intros p ep Hp; cbn [ip_loop].
  - split.
    + intros ->%Z.eqb_eq. exists [], []. auto.
    + intros (a & r & E & _ & H). symmetry in E. apply app_eq_nil in E as [-> ->].
      destruct H as [[-> _]|(_ & _ & r' & ? & _)]; done.
  - destruct (char_is "." c) eqn:Ec.
    + assert (c = "."%char) as -> by (by apply bool_decide_eq_true in Ec).
      rewrite Z.gtb_ltb. split.
      * destruct ep; [|done]. cbn [negb]. destruct (Z.ltb_spec 3 (p + 1)); [done|].
        intros (a & r & -> & Ha & Hr)%IH; [|lia]. exists [], ("." ++ a ++ r).
        split_and!; [done|done|]. right. split_and!; [lia|by left|]. exists (a ++ r). split; [done|].
        destruct Hr as [[E ->]|(Hlt & [?|Hne] & r' & -> & Hg)]; [|done|].
        -- rewrite app_nil_r. replace (2 - p) with 0 by lia. done.
        -- replace (Z.to_nat (2 - p)) with (S (Z.to_nat (2 - (p + 1)))) by lia. by exists a, r'.
      * intros (a & r & E & Ha & Hr). destruct a as [|x a].
        2:{ injection E as <- ->. cbn in Ha. by apply andb_true_iff in Ha as [? _]. }
        destruct Hr as [[_ ->]|(Hlt & Hep & r' & -> & Hg)]; [done|].
        destruct Hep as [->|]; [|done]. injection E as ->. cbn [negb].
        destruct (Z.ltb_spec 3 (p + 1)); [lia|]. apply IH; [lia|].
        destruct (Z.eqb_spec p 2) as [->|].
        -- exists r', []. rewrite app_nil_r. split_and!; [done|done|by left].
        -- replace (Z.to_nat (2 - p)) with (S (Z.to_nat (2 - (p + 1)))) in Hg by lia.
           destruct Hg as (a & r & -> & Hne & Hd & Hg). exists a, ("." ++ r).
           split_and!; [done|done|]. right. split_and!; [lia|by right|]. by exists r.
    + destruct (isdigit c) eqn:Ed.
      * rewrite IH by done. split.
        -- intros (a & r & -> & Ha & Hr). exists (c :: a), r. cbn. rewrite Ed. split_and!; [done|done|].
           destruct Hr as [?|(? & _ & ?)]; [by left|right]. split_and!; [done|by right|done].
        -- intros (a & r & E & Ha & Hr). destruct a as [|x a].
           { cbn in E. subst r. destruct Hr as [[_ ?]|(_ & _ & r' & E & _)]; [done|].
             injection E as -> _. done. }
           injection E as <- ->. cbn in Ha. apply andb_true_iff in Ha as [_ Ha]. exists a, r.
           split_and!; [done|done|]. destruct Hr as [?|(? & _ & ?)]; [by left|right].
           split_and!; [done|by left|done].
      * split; [done|]. intros (a & r & E & Ha & Hr). destruct a as [|x a].
        { cbn in E. subst r. destruct Hr as [[_ ?]|(_ & _ & r' & E & _)]; [done|].
          injection E as -> _. done. }
        injection E as <- ->. cbn in Ha. by rewrite Ed in Ha.
Qed.

Lemma looks_like_ip_spec s : looks_like_ip_address s = true ↔ ip_like (cstr s).
Proof.
  unfold looks_like_ip_address. rewrite ip_loop_spec, ip_like_groups by lia. split.
  - intros (a & r & -> & Ha & [[? _]|(_ & [?|Hne] & r' & -> & Hg)]); try done. by exists a, r'.
  - intros (a & r & -> & Hne & Ha & Hg). exists a, ("." ++ r). split_and!; [done|done|right].
    split_and!; [done|by right|]. by exists r.
Qed.

Lemma valid_bucket_name b relaxed :
  NUL ∉ b →
  s3_validate_bucket_name b relaxed = 0 ↔
  b = [] ∨
  3 <= zlen b <= 255 ∧ forallb bucket_char b = true ∧ ¬ ip_like b ∧
  (relaxed = true ∨ ∃ c, b !! O = Some c ∧ isalpha c || isdigit c = true).
Proof.
  intros Hnul. unfold s3_validate_bucket_name, validate_bucket_name. rewrite cstr_no_nul by done.
  destruct b as [|c b]; [split; [by left|done]|]. set (w := c :: b) in *.
  assert (Hip : looks_like_ip_address w = true ↔ ip_like w)
    by (rewrite looks_like_ip_spec, cstr_no_nul by done; done).
  assert (Hw : 1 <= zlen w) by (unfold w; rewrite zlen_cons; pose proof (zlen_nonneg b); lia).
  rewrite Z.gtb_ltb.
  destruct (Z.ltb_spec (zlen w) 3).
  { rewrite (proj2 (Z.eqb_neq _ _)) by lia. split; [done|]. intros [?|(? & _)]; [done|lia]. }
  destruct (Z.ltb_spec 255 (zlen w)); [split; [done|]; intros [?|(? & _)]; [done|lia]|].
  change (0 <? 0) with false. cbv iota.
  assert (Hfirst : forallb bucket_char w = true →
    negb (isalpha c || isdigit c) && (negb relaxed || negb (char_is "_" c || char_is "." c || char_is "-" c))
      = false ↔ (relaxed = true ∨ ∃ c, w !! O = Some c ∧ isalpha c || isdigit c = true)).
  { cbn. intros [Hc _]%andb_true_iff. unfold bucket_char in Hc.
    destruct (isalpha c || isdigit c) eqn:E.
    - split; [|done]. intros _. right. by exists c.
    - apply orb_false_iff in E as [E1 E2]. rewrite E1, E2 in Hc. cbn in Hc. cbn [negb andb].
      assert (char_is "_" c || char_is "." c || char_is "-" c = true) as ->.
      { destruct (char_is "_" c), (char_is "." c), (char_is "-" c); done. }
      destruct relaxed; cbn; [by split; [left|]|]. split; [done|].
      intros [?|(c' & [= <-] & Hc')]; [done|]. by rewrite E1, E2 in Hc'. }
  destruct (forallb bucket_char w) eqn:Eall.
  2:{ split; [|by intros [?|(_ & ? & _)]]. by destruct (negb _ && _). }
  destruct (negb (isalpha c || isdigit c) && _) eqn:Ef.
  { split; [done|]. intros [?|(_ & _ & _ & Hr)]; [done|]. apply (Hfirst eq_refl) in Hr. congruence. }
  cbn [negb]. destruct (looks_like_ip_address w) eqn:Ei.
  { split; [done|]. intros [?|(_ & _ & Hn & _)]; [done|]. destruct Hn. by apply Hip. }
  split; [|done]. intros _. right. split_and!; [lia|lia|done| |by apply (Hfirst eq_refl)].
  intros Hi%Hip. congruence.
Qed.

(** The bucket names the S3 handler lets through: none at all, or 3 to 255
    letters, digits, periods, dashes and underscores, starting with a letter or
    a digit (or any of the characters, with relaxed names), that do not look
    like an IP address.  Such a name holds no slash and nothing a shell gives a
    meaning to. *)
Lemma bucket_name_spec b relaxed :
  NUL ∉ b →
  s3_validate_bucket_name b relaxed = 0 ↔
  b = [] ∨
  3 <= zlen b <= 255 ∧ forallb bucket_char b = true ∧ ¬ ip_like b ∧
  (relaxed = true ∨ ∃ c, b !! O = Some c ∧ isalpha c || isdigit c = true).
Proof. apply valid_bucket_name. Qed.

Lemma bucket_name_spec_witness :
  s3_validate_bucket_name "my-bucket.1" false = 0 ↔
  "my-bucket.1" = [] ∨
  3 <= zlen "my-bucket.1" <= 255 ∧ forallb bucket_char "my-bucket.1" = true ∧ ¬ ip_like "my-bucket.1" ∧
  (false = true ∨ ∃ c, "my-bucket.1" !! O = Some c ∧ isalpha c || isdigit c = true).
Proof. apply (bucket_name_spec "my-bucket.1" false). by apply (bool_decide_unpack _). Defined.

Lemma ip_names_refused :
  s3_validate_bucket_name "192.168.0.1" false = - ERR_INVALID_BUCKET_NAME
  ∧ s3_validate_bucket_name "10.0.0." true = - ERR_INVALID_BUCKET_NAME
  ∧ s3_validate_bucket_name "10.0.0.1.2" true = 0.
Proof. by vm_compute. Qed.

(** ** Content lengths *)

(** The length a header stands for: 0 when empty, or a numeral that is not
    negative. *)
Definition length_of (l : str) (n : Z) : Prop :=
  cstr l = [] ∧ n = 0 ∨ decimal_numeral (cstr l) n ∧ 0 <= n <= LLONG_MAX.

Lemma numeral_nonempty s z : decimal_numeral s z → s ≠ [].
Proof. intros (sp & sg & ds & -> & _ & Hne & _). by destruct sp, sg, ds. Qed.

Lemma parse_content_length_spec l :
  (∀ n, length_of l n ↔ parse_content_length l = n ∧ 0 <= n)
  ∧ read_length (Some l) 0
    = ((if parse_content_length l <? 0 then - EINVAL else 0), snd (read_length (Some l) 0))
  ∧ (0 <= parse_content_length l → snd (read_length (Some l) 0) = parse_content_length l).
Proof.
  unfold length_of, parse_content_length, read_length.
  destruct (cstr l) as [|c r] eqn:El.
  - split_and!; [|done|done]. intros n. split.
    + intros [[_ ->]|[H _]]; [done|]. by apply numeral_nonempty in H.
    + intros [<- _]. by left.
  - rewrite <- El. pose proof (strict_strtoll_accepts l) as Hok. pose proof (strict_strtoll_error l) as Herr.
    destruct (strict_strtoll l 10) as [z err] eqn:E. cbn [fst snd] in *.
    destruct err as [|x err].
    + destruct (proj1 (Hok z) eq_refl) as [Hn Hr]. split_and!.
      * intros n. split.
        -- intros [[? _]|[Hn' Hr']]; [congruence|].
           assert (strict_strtoll l 10 = (n, [])) as E' by (rewrite E; apply Hok; unfold LLONG_MIN; split; [done|lia]).
           rewrite E in E'. injection E' as ->. split; [done|lia].
        -- intros [<- ?]. right. split; [done|lia].
      * by destruct (z <? 0).
      * intros Hz. by rewrite (proj2 (Z.ltb_ge _ _)).
    + split_and!; [|done|lia]. intros n. split; [|lia]. intros [[? _]|[Hn' Hr']]; [congruence|].
      assert ((z, x :: err) = (n, [])) by (apply Hok; unfold LLONG_MIN; split; [done|lia]). congruence.
Qed.

(** The outcome for a set of headers. *)
Definition length_outcome (headers : list str) (r : Z * Z) : Prop :=
  fst r = 0 ∧ (headers = [] ∧ snd r = 0 ∨
    (∃ l, l ∈ headers ∧ length_of l (snd r)) ∧ ∀ l m, l ∈ headers → length_of l m → m <= snd r)
  ∨ fst r = - EINVAL ∧ headers ≠ [] ∧ ∀ l m, l ∈ headers → ¬ length_of l m.

Lemma length_choice headers l :
  l ∈ headers →
  (∀ l', l' ∈ headers → parse_content_length l' <= parse_content_length l ∨ parse_content_length l' < 0) →
  length_outcome headers (read_length (Some l) 0).
Proof.
  intros Hin Hmax. destruct (parse_content_length_spec l) as (Hl & E & Hn). unfold length_outcome.
  destruct (read_length (Some l) 0) as [err n]. injection E as ->. cbn [fst snd] in *. destruct (Z.ltb_spec (parse_content_length l) 0).
  - right. split_and!; [done|by intros ->; inversion Hin|].
    intros l' m Hin' [<- ?]%parse_content_length_spec. destruct (Hmax _ Hin'); lia.
  - left. split; [done|]. right. rewrite Hn by done. split; [exists l; split; [done|by apply Hl]|].
    intros l' m Hin' [<- ?]%parse_content_length_spec. destruct (Hmax _ Hin'); lia.
Qed.

(** A request's content length is the largest that its one or two length
    headers give, and 0 when it has none; a request is refused as invalid
    exactly when it has such headers and none of them is a number that is not
    negative. *)
Lemma content_length_spec c h :
  length_outcome (option_list c ++ option_list h) (read_length (pick_length c h) 0).
Proof.
  unfold pick_length. destruct c as [c|], h as [h|]; cbn [option_list option_map app].
  2-3: apply length_choice; [apply elem_of_cons; by left|];
    intros l [->|[]%not_elem_of_nil]%elem_of_cons; by left.
  2: by left; split; [|left].
  assert (Hc : c ∈ [c; h]) by (apply elem_of_cons; by left).
  assert (Hh : h ∈ [c; h]) by (apply elem_of_cons; right; apply elem_of_cons; by left).
  destruct (Z.ltb_spec (parse_content_length h) 0); [|destruct (Z.ltb_spec (parse_content_length c) 0);
    [|destruct (Z.ltb_spec (parse_content_length c) (parse_content_length h))]];
    (apply length_choice; [done|]);
    intros l [->|[->|[]%not_elem_of_nil]%elem_of_cons]%elem_of_cons; lia.
Qed.

(** ** From the URI to the object *)

Lemma find_none_app p (a b : str) i :
  Forall (λ d, p d = false) a → find_if p b = Some i → find_if p (a ++ b) = Some (length a + i)%nat.
Proof. induction 1 as [|c a Hc _ IH]; cbn; [done|]. rewrite Hc. intros H. by rewrite (IH H). Qed.

Lemma notin_Forall (d : ascii) (s : str) : d ∉ s → Forall (λ c, char_is d c = false) s.
Proof.
  intros H. apply Forall_forall. intros c Hc. unfold char_is. apply bool_decide_eq_false. by intros ->.
Qed.

(** The URI of an object. *)
Definition object_uri (b o : str) : str := "/" ++ url_encode b [] ++ "/" ++ url_encode o [].

Lemma object_uri_decodes oob b o dest :
  NUL ∉ b → NUL ∉ o → snd (url_decode oob (object_uri b o) dest false) = "/" ++ b ++ "/" ++ o.
Proof.
  intros Hb Ho. unfold url_decode, object_uri. rewrite cstr_no_nul.
  - rewrite !url_encode_app. cbn [app url_decode_loop].
    change (char_is "%" "/") with false. change (char_is "?" "/") with false. cbn [negb orb].
    rewrite url_decode_app. cbn [app url_decode_loop].
    change (char_is "%" "/") with false. change (char_is "?" "/") with false. cbn [negb orb].
    rewrite <- (app_nil_r (concat (map url_char o))), url_decode_app. cbn [url_decode_loop fmap option_fmap option_map snd].
    rewrite app_nil_r. apply cstr_no_nul. rewrite not_elem_of_cons, not_elem_of_app, not_elem_of_cons.
    by split_and!.
  - rewrite !not_elem_of_app, !not_elem_of_cons.
    split_and!; try done; try apply not_elem_of_nil; apply url_encode_no_nul.
Qed.

Lemma object_uri_no_query b o : "?"%char ∉ object_uri b o.
Proof.
  unfold object_uri. rewrite !url_encode_app. cbn [app].
  rewrite !not_elem_of_cons, not_elem_of_app, not_elem_of_cons. split_and!; try done.
  all: by apply url_chars_without.
Qed.

(** What the environment's [REQUEST_URI] is split into. *)
Lemma request_uri_split e uri q :
  "?"%char ∉ uri → env_get "REQUEST_URI" e = Some (uri ++ match q with None => [] | Some p => "?" ++ p end) →
  ri_request_uri (req_info_new e) = uri.
Proof.
  intros Hq He. unfold req_info_new, env_get_default. rewrite He. cbn [default from_option id].
  destruct q as [p|].
  - rewrite (find_none_app _ _ _ O); [|by apply notin_Forall|done]. cbn [ri_request_uri].
    unfold substr. by rewrite drop_0, Nat.add_0_r, take_app_length.
  - rewrite app_nil_r, find_if_all_false by (by apply notin_Forall). done.
Qed.

Lemma route_main b o :
  b ≠ "admin" → "/"%char ∉ b →
  route main_mgr ("/" ++ b ++ "/" ++ o)
  = Found (set_logging true (RGWRESTMgr_new RGWRESTMgr_S3)) ("/" ++ b ++ "/" ++ o).
Proof.
  intros Hb Hs. unfold route. cbn [get_resource_mgr].
  assert (path_prefix "/admin" ("/" ++ b ++ "/" ++ o) = false) as Hp.
  { apply not_true_is_false. intros H. pose proof (path_prefix_app _ _ H) as E.
    unfold path_prefix in H. apply andb_true_iff in H as [_ H].
    set (rest := drop _ _) in E. clearbody rest.
    assert (Hr : rest = [] ∨ ∃ r, rest = "/"%char :: r).
    { rewrite E in H. apply orb_true_iff in H as [H%Nat.eqb_eq|H%bool_decide_eq_true].
      - left. rewrite length_app in H. apply length_zero_iff_nil. lia.
      - right. rewrite lookup_app_r in H by done. rewrite Nat.sub_diag in H.
        destruct rest as [|x r]; [done|]. injection H as ->. by exists r. }
    injection E as E. destruct Hr as [->|[r ->]].
    - apply (f_equal (λ l, bool_decide ("/"%char ∈ l))) in E.
      rewrite bool_decide_eq_true_2 in E; [by vm_compute in E|].
      apply elem_of_app. right. apply elem_of_cons. by left.
    - apply Hb. assert (Ha : "/"%char ∉ "admin") by (by apply (bool_decide_unpack _)).
      by destruct (not_elem_of_app_cons_inv_l "/"%char "/"%char b o "admin" r Ha Hs E). }
  assert (Em : m_resources_by_size main_mgr = [(6, "/admin")]) by reflexivity. rewrite Em.
  change (rev [(6, "/admin")]) with [(6, "/admin")]. cbn [find_resource]. by rewrite Hp.
Qed.

Lemma preprocess_ok oob found e uri :
  ri_request_uri (req_info_new e) = uri →
  fst (read_length (pick_length (env_get "CONTENT_LENGTH" e) (env_get "HTTP_CONTENT_LENGTH" e)) 0) = 0 →
  ∃ s, preprocess oob [] found (req_state_new e) = (0, s)
    ∧ rs_decoded_uri s = snd (url_decode oob uri [] false)
    ∧ rs_bucket_name_str s = [] ∧ rs_object s = rgw_obj_key_new
    ∧ rs_op s = op_from_method (Some (env_get_default "REQUEST_METHOD" [] e))
    ∧ ri_env (rs_info s) = e
    ∧ ri_request_params (rs_info s) = ri_request_params (req_info_new e).
Proof.
  intros <- Hl. unfold preprocess. cbn [rs_info req_state_new].
  assert (Henv : ri_env (req_info_new e) = e) by (unfold req_info_new; by destruct (find_if _ _)).
  assert (Hm : ri_method (req_info_new e) = env_get_default "REQUEST_METHOD" [] e)
    by (unfold req_info_new; by destruct (find_if _ _)).
  assert (Hhost : preprocess_host [] found (ri_host (req_info_new e)) (ri_request_uri (req_info_new e))
                  = ([], ri_request_uri (req_info_new e))).
  { unfold preprocess_host. destruct (ri_host _); [done|]. cbn. by destruct found. }
  rewrite Hhost, Henv, Hm. cbn [rs_length set_rs_length rs_content_length].
  destruct (read_length _ _) as [err n] eqn:E.
  assert (err = 0) as ->.
  { exact Hl. }
  change (0 <? 0) with false. cbv iota. unfold init_meta_info.
  destruct (fold_left _ _ ([], false)) as [m bad]. eexists. split; [reflexivity|].
  cbn. by rewrite Henv.
Qed.

(** The bucket and the object of a path. *)
Lemma init_from_header_object oob s b o :
  rs_bucket_name_str s = [] → rs_relative_uri s = "/" ++ b ++ "/" ++ o →
  NUL ∉ b → NUL ∉ o → "/"%char ∉ b → b ≠ [] →
  ∃ s' version, init_from_header oob RGW_FORMAT_XML false s = (0, s')
    ∧ rs_bucket_name_str s' = b ∧ rs_object s' = Mk_rgw_obj_key o version
    ∧ ri_env (rs_info s') = ri_env (rs_info s) ∧ rs_op s' = rs_op s
    ∧ rs_format s' = RGW_FORMAT_XML ∧ rs_formatter s' = true.
Proof.
  intros Hbn Hu Hnb Hno Hsb Hne. unfold init_from_header. rewrite Hu, cstr_no_nul.
  2:{ cbn. rewrite not_elem_of_cons, not_elem_of_app, not_elem_of_cons. by split_and!. }
  cbn [app]. change (char_is "?" "/") with false. change (char_is SLASH "/") with true.
  cbn [negb allocate_formatter Z.eqb Z.ltb Z.compare]. change (0 <? 0) with false. cbv iota.
  assert (Hf : find_if (char_is SLASH) (b ++ "/"%char :: o) = Some (length b)).
  { rewrite (find_none_app _ _ _ O), Nat.add_0_r; [done|by apply notin_Forall|done]. }
  destruct (b ++ "/"%char :: o) as [|x r] eqn:Er; [by destruct b|]. rewrite <- Er in *. rewrite Hf.
  set (s1 := set_rs_info _ s).
  change (allocate_formatter RGW_FORMAT_XML false s1)
    with (0, set_rs_formatter true (set_rs_format RGW_FORMAT_XML s1)).
  change (0 <? 0) with false. cbv iota.
  change (rs_bucket_name_str (set_rs_formatter _ _)) with (rs_bucket_name_str s). rewrite Hbn.
  eexists _, _. split; [reflexivity|]. cbn.
  unfold substr, substr_from. rewrite drop_0, take_app_length.
  rewrite (drop_app_ge b) by lia. replace (S (length b) - length b)%nat with 1%nat by lia. done.
Qed.

(** C22: the request for an object reaches that object.  A client that escapes a
    valid bucket name other than [admin] and a valid object name, neither empty,
    into the path of its URI, that sends no [x-amz-copy-source] header and no
    length or one that can be read, gets, through preprocessing, routing, parsing
    and validation, the handler for objects with exactly that bucket and key,
    whatever its query string, whatever method it uses, and whatever stands in
    uninitialised memory.  (The path of the bucket [admin] belongs to another
    handler; the copy source is checked with the name; a length that is no number
    ends the request before it is routed.) *)
Theorem object_request_roundtrip oob found relaxed e b o q :
  env_get "REQUEST_URI" e = Some (object_uri b o ++ match q with None => [] | Some p => "?" ++ p end) →
  env_get "HTTP_X_AMZ_COPY_SOURCE" e = None →
  fst (read_length (pick_length (env_get "CONTENT_LENGTH" e) (env_get "HTTP_CONTENT_LENGTH" e)) 0) = 0 →
  s3_validate_bucket_name b relaxed = 0 → validate_object_name o = 0 →
  NUL ∉ b → NUL ∉ o → b ≠ [] → o ≠ [] → b ≠ "admin" →
  ∃ s, get_handler oob [] found relaxed main_mgr (req_state_new e) = (0, Some (H_Obj_S3, true), s)
    ∧ rs_bucket_name_str s = b ∧ rk_name (rs_object s) = o
    ∧ rs_op s = op_from_method (Some (env_get_default "REQUEST_METHOD" [] e)).
Proof.
  intros Hu Hcs Hlen Hvb Hvo Hnb Hno Hb Ho Hadm.
  assert (Hsb : "/"%char ∉ b).
  { intros Hin. apply (valid_bucket_name b relaxed Hnb) in Hvb as [?|(_ & Hall & _)]; [done|].
    rewrite forallb_forall in Hall. apply list_elem_of_In, Hall in Hin. done. }
  pose proof (request_uri_split e _ q (object_uri_no_query b o) Hu) as Huri.
  destruct (preprocess_ok oob found e _ Huri Hlen) as (s & Hp & Hdec & Hbn & Hobj & Hop & Henv & _).
  unfold get_handler. rewrite Hp. change (0 <? 0) with false. cbv iota.
  rewrite Hdec, object_uri_decodes, route_main by done.
  cbn [m_class set_logging RGWRESTMgr_new m_should_log mgr_get_handler].
  destruct (init_from_header_object oob (set_rs_relative_uri ("/" ++ b ++ "/" ++ o) s) b o)
    as (s' & v & -> & Hb' & Ho' & He' & Hop' & _); [done..|].
  change (0 <? 0) with false. cbv iota.
  assert (Hk : (match rs_bucket_name_str s' with [] => H_Service_S3
                | _ => if key_empty (rs_object s') then H_Bucket_S3 else H_Obj_S3 end) = H_Obj_S3).
  { rewrite Hb', Ho'. destruct b; [done|]. unfold key_empty. by rewrite bool_decide_eq_false_2. }
  rewrite Hk. cbn [handler_init]. unfold s3_init. rewrite Hb', Ho', Hvb. cbn [rk_name]. rewrite Hvo.
  change (0 =? 0) with true. cbn [negb]. cbn [rs_info set_rs_relative_uri] in He'. rewrite He', Henv, Hcs.
  cbn [rs_copy_source set_rs_copy_source]. change (0 <? 0) with false. cbv iota.
  eexists. split; [reflexivity|].
  destruct (env_get "HTTP_X_AMZ_ACL" e); cbn; rewrite Hb', Ho', Hop'; cbn; by rewrite Hop.
Qed.

Definition demo_req_env : env_map :=
  env_init ["REQUEST_METHOD=PUT"; "REQUEST_URI=/my-bucket/dir%2Fa%20b?partNumber=1"; "CONTENT_LENGTH=12"].

Lemma object_request_roundtrip_witness :
  ∃ s, get_handler (λ _, 0) [] true false main_mgr (req_state_new demo_req_env)
       = (0, Some (H_Obj_S3, true), s)
    ∧ rs_bucket_name_str s = "my-bucket" ∧ rk_name (rs_object s) = "dir/a b" ∧ rs_op s = OP_PUT.
Proof.
  apply (object_request_roundtrip (λ _, 0) true false demo_req_env "my-bucket" "dir/a b" (Some "partNumber=1"));
    try (vm_compute; reflexivity); try done; by apply (bool_decide_unpack _).
Defined.

(** ** Boundary cases *)

(** The uninitialised [found] makes no difference, unless a host name of the
    configuration is empty. *)
Lemma found_irrelevant oob hosts s :
  [] ∉ hosts → preprocess oob hosts true s = preprocess oob hosts false s.
Proof.
  intros H.
  assert (E : rgw_find_host_in_domains hosts [] = None).
  { induction hosts as [|h hosts IH]; [done|]. rewrite not_elem_of_cons in H. destruct H as [Hh Hs].
    cbn. unfold str_ends_with. destruct h; [done|]. cbn. by apply IH. }
  unfold preprocess, preprocess_host. destruct (ri_host (rs_info s)); [done|].
  destruct (rgw_find_host_in_domains hosts (_ :: _)); [done|]. by rewrite E.
Qed.

(** A path with a bad escape is decoded to nothing, and the failure is not
    looked at: the request is taken for one on the list of buckets. *)
Lemma bad_escape_lists_buckets :
  let e := env_init ["REQUEST_METHOD=GET"; "REQUEST_URI=/secret-bucket/%zz"] in
  let '(err, h, s) := get_handler (λ _, -1) [] false false main_mgr (req_state_new e) in
  err = 0 ∧ h = Some (H_Service_S3, true) ∧ get_op H_Service_S3 s = Some ListBuckets.
Proof. by vm_compute. Qed.

(** Names that climb out of the bucket's directory are let through. *)
Lemma dot_dot_object_accepted : validate_object_name "../other-bucket/key" = 0.
Proof. by vm_compute. Qed.
