(* ===== verification/SysInfo.v ===== *)
(** * Configuration and statistics files ([src/src/rgw/porting_tools.cc], [porting_common.cc])

    The reader of [name delimiter value] lines that the gateway's configuration,
    its user records and the statistics of a bucket go through, and the record
    [sys_info] the last two are read into.  Lines are shorter than the 256
    characters of the reader's buffers. *)

From S2P Require Import Prelude StdMap CString Env Strtol.

Definition NL : ascii := chr 10.

Fixpoint span (p : ascii → bool) (s : str) : str * str :=
  match s with
  | [] => ([], [])
  | c :: s' => if p c then let '(a, r) := span p s' in (c :: a, r) else ([], s)
  end.

Definition not_nl (c : ascii) : bool := negb (char_is NL c).

(** [%s]: blanks are skipped, then a word is read. *)
Definition scan_word (s : str) : str := fst (span (λ c, negb (isspace c)) (skip_spaces s)).

Fixpoint drop_newlines (s : str) : str :=
  match s with
  | c :: s' => if char_is NL c then drop_newlines s' else s
  | [] => []
  end.

Fixpoint strip_blanks_rev (s : str) : str :=
  match s with
  | c :: s' => if char_is " " c then strip_blanks_rev s' else s
  | [] => []
  end.
(** [strip_space]: blanks at the end are cut off. *)
Definition strip_space (s : str) : str := rev (strip_blanks_rev (rev s)).

(** [sscanf(buf, "%[^d]d%s", var_name, value)], when it reads both. *)
Definition scan_line (delim : ascii) (line : str) : option (str * str) :=
  let '(name, r) := span (λ c, negb (char_is delim c)) line in
  match name, r with
  | [], _ | _, [] => None
  | _, _ :: r' => match scan_word r' with [] => None | v => Some (name, v) end
  end.

Section parse_conf.
Context {S : Type}.
Variable delim : ascii.
Variable cb : S → str → str → S.

(** The loop of [parse_conf] over the rest of the file; [var_name] is the
    buffer of that name, which keeps its contents from turn to turn.  Each turn
    takes at least one character off the file. *)
Fixpoint conf_loop (fuel : nat) (rest var_name : str) (st : S) : Z * S :=
  match fuel with
  | O => (0, st)
  | Datatypes.S fuel' =>
      let '(buf, rest1) := span not_nl rest in
      match buf with
      | [] => (0, st)
      | _ =>
          let line := cstr buf in
          let var_name := match scan_word line with [] => var_name | w => w end in
          if bool_decide (var_name !! O = Some "#"%char) then
            match rest1 with
            | [] => (-1, st)
            | _ => conf_loop fuel' (drop_newlines rest1) var_name st
            end
          else
            match scan_line delim line with
            | None => (-1, st)
            | Some (name, value) =>
                let name := strip_space name in
                conf_loop fuel' (drop_newlines rest1) name (cb st name value)
            end
      end
  end.

(** [parse_conf(path, obj, delim, cb)], given the contents of the file. *)
Definition parse_conf (file : option bytes) (st : S) : Z * S :=
  match file with
  | None => (-1, st)
  | Some c => conf_loop (length c) c [] st
  end.
End parse_conf.

(** ** [sys_info] *)

Record sys_info := Mk_sys_info {
  si_display_name : str; si_user_email : str; si_max_buckets : Z;
  si_bucket_max_size_kb : Z; si_bucket_max_objects : Z; si_bucket_enabled : bool;
  si_user_max_size_kb : Z; si_user_max_objects : Z; si_user_enabled : bool;
  si_total_size : Z; si_total_size_rounded : Z; si_num_entries : Z
}.
Definition sys_info_new : sys_info := Mk_sys_info [] [] 0 0 0 false 0 0 false 0 0 0.

(** [sys_info::get_params], the callback: [atoi] is an [int], stored into
    unsigned fields of 32 and 64 bits. *)
Definition get_params (i : sys_info) (name val : str) : sys_info :=
  let n := atoi val in
  let sel (k : str) {A} (v old : A) : A := if streq name k then v else old in
  Mk_sys_info
    (sel "display_name" val (si_display_name i))
    (sel "user_email" val (si_user_email i))
    (sel "max_buckets" (u32 n) (si_max_buckets i))
    (sel "bucket_max_size_kb" n (si_bucket_max_size_kb i))
    (sel "bucket_max_objects" n (si_bucket_max_objects i))
    (sel "bucket_enabled" (n =? 1) (si_bucket_enabled i))
    (sel "user_max_size_kb" n (si_user_max_size_kb i))
    (sel "user_max_objects" n (si_user_max_objects i))
    (sel "user_enabled" (n =? 1) (si_user_enabled i))
    (sel "total_size" (u64 n) (si_total_size i))
    (sel "total_size_rounded" (u64 n) (si_total_size_rounded i))
    (sel "num_entries" (u64 n) (si_num_entries i)).

(** [sync_stat(FULL)]: the new contents of the file; [%lld] reads the unsigned
    fields as signed. *)
Definition sync_stat (i : sys_info) : bytes :=
  "total_size:" ++ print_int (s64 (si_total_size i)) ++ [NL]
  ++ "num_entries:" ++ print_int (s64 (si_num_entries i)) ++ [NL]
  ++ "total_size_rounded:" ++ print_int (s64 (si_total_size_rounded i)) ++ [NL].

(** Reading the statistics of a bucket into a new record. *)
Definition read_stat (file : option bytes) : sys_info :=
  snd (parse_conf ":"%char get_params file sys_info_new).

(** What an upload does to the statistics of its bucket. *)
Definition put_stat (file : option bytes) (obj_size : Z) : bytes :=
  let i := read_stat file in
  sync_stat (Mk_sys_info (si_display_name i) (si_user_email i) (si_max_buckets i)
    (si_bucket_max_size_kb i) (si_bucket_max_objects i) (si_bucket_enabled i)
    (si_user_max_size_kb i) (si_user_max_objects i) (si_user_enabled i)
    (u64 (si_total_size i + obj_size)) (si_total_size_rounded i) (u64 (si_num_entries i + 1))).

(** ** Lemmas *)

Lemma span_all (p : ascii → bool) a r :
  forallb p a = true → match r with c :: _ => p c = false | [] => True end → span p (a ++ r) = (a, r).
Proof.
  intros Ha Hr. induction a as [|c a IH]; cbn in *.
  - destruct r as [|c r]; [done|]. cbn. by rewrite Hr.
  - apply andb_true_iff in Ha as [-> Ha]. by rewrite (IH Ha).
Qed.

(** A line [name:value] of letters and a number. *)
Definition plain_name (s : str) : Prop :=
  s ≠ [] ∧ forallb (λ c, islower c || char_is "_" c) s = true.

Lemma plain_char c : islower c || char_is "_" c = true →
  isspace c = false ∧ c ≠ ":"%char ∧ c ≠ "#"%char ∧ c ≠ NL ∧ c ≠ NUL ∧ c ≠ " "%char.
Proof.
  unfold islower, char_is. intros [H|H%bool_decide_eq_true]%orb_true_iff; [|by subst c].
  apply andb_true_iff in H as [H1 H2]. zbool.
  split_and!; [unfold isspace; apply orb_false_iff; split; [apply Z.eqb_neq; lia|apply andb_false_iff;
    right; apply Z.leb_gt; lia]|..]; intros ->; vm_compute in H1; done.
Qed.

Lemma number_char z c : c ∈ print_int z →
  isspace c = false ∧ c ≠ NL ∧ c ≠ NUL.
Proof.
  intros Hin. assert (H : isdigit c = true ∨ c = "-"%char).
  { unfold print_int in Hin. destruct (Z.ltb_spec z 0).
    - apply elem_of_app in Hin as [Hin|Hin]; [right|left].
      { by apply elem_of_cons in Hin as [->|[]%not_elem_of_nil]. }
      destruct (print_nat_spec (- z) ltac:(lia)) as (_ & Hd & _).
      rewrite forallb_forall in Hd. by apply Hd, list_elem_of_In.
    - left. destruct (print_nat_spec z ltac:(lia)) as (_ & Hd & _).
      rewrite forallb_forall in Hd. by apply Hd, list_elem_of_In. }
  destruct H as [H| ->]; [|done]. split; [by apply digit_not_space|].
  split; intros ->; done.
Qed.


Lemma skip_spaces_none s : match s with c :: _ => isspace c = false | [] => True end → skip_spaces s = s.
Proof. destruct s as [|c s]; [done|]. cbn. by intros ->. Qed.

Lemma print_int_nonempty z : print_int z ≠ [].
Proof. destruct (print_int_numeral z) as (sp & sg & ds & -> & _ & Hne & _). by destruct sp, sg, ds. Qed.

Lemma forallb_elem (p : ascii → bool) s : (∀ c, c ∈ s → p c = true) → forallb p s = true.
Proof. intros H. apply forallb_forall. intros c Hc. by apply H, list_elem_of_In. Qed.

Lemma scan_number_word z : scan_word (print_int z) = print_int z.
Proof.
  unfold scan_word. rewrite skip_spaces_none.
  - rewrite <- (app_nil_r (print_int z)), span_all; [by rewrite app_nil_r| |done].
    apply forallb_elem. intros c Hc. by rewrite (proj1 (number_char z c Hc)).
  - pose proof (number_char z) as H. destruct (print_int z) as [|c r]; [done|].
    apply H, elem_of_cons. by left.
Qed.

Lemma strip_space_none s c : c ≠ " "%char → strip_space (s ++ [c]) = s ++ [c].
Proof.
  intros Hc. unfold strip_space. rewrite rev_app_distr. cbn.
  unfold char_is. rewrite bool_decide_eq_false_2 by done. cbn. by rewrite rev_involutive.
Qed.

Lemma strip_plain name : plain_name name → strip_space name = name.
Proof.
  intros [Hne Hp]. induction name as [|c r _] using rev_ind; [done|].
  apply strip_space_none. rewrite forallb_app in Hp. apply andb_true_iff in Hp as [_ Hp].
  cbn in Hp. rewrite andb_true_r in Hp. by destruct (plain_char c Hp) as (_ & _ & _ & _ & _ & ?).
Qed.

(** One line, as [sync_stat] writes it. *)
Lemma conf_loop_line {S} (cb : S → str → str → S) fuel name z rest var st :
  plain_name name → match rest with c :: _ => c ≠ NL | [] => True end →
  conf_loop ":"%char cb (Datatypes.S fuel) (name ++ ":" ++ print_int z ++ [NL] ++ rest) var st
  = conf_loop ":"%char cb fuel rest name (cb st name (print_int z)).
Proof.
  intros Hname Hrest. pose proof Hname as [Hne Hp]. rewrite forallb_forall in Hp.
  assert (Hc : ∀ c, c ∈ name → islower c || char_is "_" c = true)
    by (intros c Hin; by apply Hp, list_elem_of_In).
  cbn [conf_loop].
  assert (Hline : ∀ c, c ∈ name ++ ":" ++ print_int z → c ≠ NL ∧ c ≠ NUL).
  { intros c. cbn [app]. rewrite elem_of_app, elem_of_cons. intros [Hin|[->|Hin]]; [|done|].
    - destruct (plain_char c (Hc c Hin)) as (_ & _ & _ & ? & ? & _). done.
    - by destruct (number_char z c Hin) as (_ & ? & ?). }
  assert (Espan : span not_nl (name ++ ":" ++ print_int z ++ [NL] ++ rest)
                  = (name ++ ":" ++ print_int z, NL :: rest)).
  { replace (name ++ ":" ++ print_int z ++ [NL] ++ rest) with ((name ++ ":" ++ print_int z) ++ NL :: rest)
      by (by rewrite <- !app_assoc).
    apply span_all; [|done]. apply forallb_elem. intros c Hin. unfold not_nl, char_is.
    rewrite bool_decide_eq_false_2; [done|]. by apply Hline. }
  rewrite Espan. destruct (name ++ ":" ++ print_int z) as [|x line] eqn:El; [by destruct name|].
  rewrite <- El in *. rewrite cstr_no_nul by (intros Hin; by destruct (Hline _ Hin)).
  assert (Hw : ∃ w, scan_word (name ++ ":" ++ print_int z) = w ∧ w !! O = name !! O ∧ w ≠ []).
  { eexists. split; [reflexivity|]. destruct name as [|c r]; [done|].
    destruct (plain_char c) as (Hs & _); [apply Hc, elem_of_cons; by left|].
    unfold scan_word. cbn [app skip_spaces]. rewrite Hs. cbn [span]. rewrite Hs. cbn [negb].
    by destruct (span (λ c0, negb (isspace c0)) _); split. }
  destruct Hw as (w & -> & Hw0 & Hwne). destruct w as [|y w]; [done|].
  rewrite bool_decide_eq_false_2.
  2:{ rewrite Hw0. destruct name as [|c r]; [done|]. intros [= ->].
      destruct (plain_char "#"%char) as (_ & _ & ? & _); [apply Hc, elem_of_cons; by left|done]. }
  unfold scan_line. rewrite span_all; [| |done].
  - destruct name as [|c r]; [done|]. cbn [app]. rewrite scan_number_word.
    destruct (print_int z) as [|d ds] eqn:Ez; [by destruct (print_int_nonempty z)|]. rewrite <- Ez.
    rewrite (strip_plain _ Hname). cbn [drop_newlines]. change (char_is NL NL) with true. cbv iota.
    f_equal. destruct rest as [|e rest]; [done|]. cbn. unfold char_is.
    by rewrite bool_decide_eq_false_2.
  - apply forallb_elem. intros c Hin. destruct (plain_char c (Hc c Hin)) as (_ & ? & _).
    unfold char_is. by rewrite bool_decide_eq_false_2.
Qed.

Lemma plain_stat_names :
  plain_name "total_size" ∧ plain_name "num_entries" ∧ plain_name "total_size_rounded".
Proof. by vm_compute. Qed.

Lemma parse_sync_stat i :
  0 <= si_total_size i < 2 ^ 31 → 0 <= si_num_entries i < 2 ^ 31 → 0 <= si_total_size_rounded i < 2 ^ 31 →
  parse_conf ":"%char get_params (Some (sync_stat i)) sys_info_new
  = (0, Mk_sys_info [] [] 0 0 0 false 0 0 false
          (si_total_size i) (si_total_size_rounded i) (si_num_entries i)).
Proof.
  intros H1 H2 H3. destruct plain_stat_names as (N1 & N2 & N3).
  assert (Hatoi : ∀ z, 0 <= z < 2 ^ 31 → u64 (atoi (print_int (s64 z))) = z).
  { intros z Hz. assert (s64 z = z) as -> by (apply sgn_small; lia).
    change (atoi (print_int z)) with (s32 (atoll (print_int z))).
    rewrite (proj2 (decimal_digits_back z ltac:(unfold LLONG_MIN, LLONG_MAX; lia))).
    unfold s32. rewrite sgn_small by lia. apply u64_small. lia. }
  assert (E : sync_stat i =
    "total_size" ++ ":" ++ print_int (s64 (si_total_size i)) ++ [NL]
    ++ "num_entries" ++ ":" ++ print_int (s64 (si_num_entries i)) ++ [NL]
    ++ "total_size_rounded" ++ ":" ++ print_int (s64 (si_total_size_rounded i)) ++ [NL] ++ [])
    by reflexivity.
  unfold parse_conf. destruct (length (sync_stat i)) as [|[|[|fuel]]] eqn:El;
    try (exfalso; unfold sync_stat in El; rewrite !length_app in El; cbn in El; lia).
  rewrite E, (conf_loop_line _ _ "total_size"), (conf_loop_line _ _ "num_entries"),
    (conf_loop_line _ _ "total_size_rounded") by done.
  assert (Hnil : ∀ st, conf_loop ":"%char get_params fuel [] "total_size_rounded" st = (0, st))
    by (by destruct fuel).
  rewrite Hnil. unfold get_params. cbn. by rewrite !Hatoi.
Qed.

(** The statistics of a bucket come back from their file as they were
    written as long as each is below 2^31. *)
Lemma stat_roundtrip i :
  0 <= si_total_size i < 2 ^ 31 → 0 <= si_num_entries i < 2 ^ 31 → 0 <= si_total_size_rounded i < 2 ^ 31 →
  parse_conf ":"%char get_params (Some (sync_stat i)) sys_info_new
  = (0, Mk_sys_info [] [] 0 0 0 false 0 0 false
          (si_total_size i) (si_total_size_rounded i) (si_num_entries i)).
Proof. apply parse_sync_stat. Qed.

Definition demo_stat : sys_info := Mk_sys_info [] [] 0 0 0 false 0 0 false 2147483647 4096 12.
Lemma stat_roundtrip_witness :
  parse_conf ":"%char get_params (Some (sync_stat demo_stat)) sys_info_new
  = (0, Mk_sys_info [] [] 0 0 0 false 0 0 false 2147483647 4096 12).
Proof. apply (stat_roundtrip demo_stat); cbn; lia. Defined.

(** Two gigabytes are read back as almost 2^64 bytes. *)
Lemma stat_overflow :
  si_total_size (read_stat (Some (sync_stat (Mk_sys_info [] [] 0 0 0 false 0 0 false 2147483648 0 1))))
  = 18446744071562067968.
Proof. by vm_compute. Qed.
