(* ===== verification/GetObj.v ===== *)
(** * Reading an object ([src/src/rgw/porting_op.cc], [RGWGetObj])

    The range of a request, and the loop that sends a file to the client chunk
    by chunk.  The file is its contents; the digest is a parameter. *)

From S2P Require Import Prelude StdMap CString Env Http Strtol Errors.

(** ** [parse_range] *)

(** [strncasecmp(s, t, n) == 0] *)
Fixpoint strncaseeq (n : nat) (s t : str) : bool :=
  match n with
  | O => true
  | S n' =>
      match s, t with
      | [], [] => true
      | c :: s', d :: t' => bool_decide (tolower c = tolower d) && strncaseeq n' s' t'
      | _, _ => false
      end
  end.

Fixpoint count_while (p : ascii → bool) (s : str) : nat :=
  match s with c :: s' => if p c then S (count_while p s') else O | [] => O end.


(** The part after [bytes=], or [None] when the header is not understood.  The
    unit is compared at the start of the string, for as many characters as the
    word behind the blanks has. *)
Definition range_spec_of (s : str) : option str :=
  match find_sub "bytes=" s with
  | Some pos => Some (substr_from (pos + 6) s)
  | None =>
      let pos := count_while isspace s in
      let n := count_while isalpha (drop pos s) in
      if negb (strncaseeq n s "bytes") then None
      else
        let end_ := (pos + n)%nat in
        let end_ := (end_ + count_while isspace (drop end_ s))%nat in
        if bool_decide (s !! end_ = Some "="%char) then Some (substr_from (S end_) s) else None
  end.

(** [parse_range(range, ofs, end, partial_content)]: the result and the new
    values. *)
Definition parse_range (range : str) (ofs end_ : Z) : Z * Z * Z * bool :=
  match range_spec_of (cstr range) with
  | None => (0, ofs, end_, false)
  | Some s =>
      match find_if (char_is "-") s with
      | None => (- ERANGE, ofs, end_, false)
      | Some pos =>
          let ofs_str := substr 0 pos s in
          let end_str := substr_from (S pos) s in
          let end1 := match end_str with [] => end_ | _ => atoll end_str end in
          if match end_str with [] => false | _ => end1 <? 0 end then (- ERANGE, ofs, end1, true)
          else
            let '(ofs2, end2) :=
              match ofs_str with [] => (s64 (- end1), -1) | _ => (atoll ofs_str, end1) end in
            if (end2 >=? 0) && (end2 <? ofs2) then (- ERANGE, ofs2, end2, true)
            else (0, ofs2, end2, true)
      end
  end.

(** ** The operation *)

Record get_obj := Mk_get_obj {
  go_range_str : option str;
  go_ofs : Z;
  go_end : Z;
  go_get_data : bool;
  go_partial_content : bool;
  go_range_parsed : bool
}.
Definition get_obj_new (get_data : bool) : get_obj := Mk_get_obj None 0 (-1) get_data false false.

(** [prefetch_data], which the permission check calls first. *)
Definition prefetch_data (http_range : option str) (g : get_obj) : bool * get_obj :=
  if negb (go_get_data g) then (false, g)
  else
    match http_range with
    | None => (true, Mk_get_obj None (go_ofs g) (go_end g) (go_get_data g) (go_partial_content g)
                       (go_range_parsed g))
    | Some range =>
        let '(r, ofs, end_, partial) := parse_range range (go_ofs g) (go_end g) in
        (negb (r <? 0), Mk_get_obj http_range ofs end_ (go_get_data g) partial (negb (r <? 0)))
    end.

Section get.
(** [parse_time] of the two date headers. *)
Variable parse_time : str → Z + Z.

(** [get_params] and [init_common]. *)
Definition init_common (http_range if_mod if_unmod : option str) (g : get_obj) : Z * get_obj :=
  let g := Mk_get_obj http_range (go_ofs g) (go_end g) (go_get_data g) (go_partial_content g)
             (go_range_parsed g) in
  let '(r, g) :=
    match http_range with
    | Some range =>
        if go_range_parsed g then (0, g)
        else
          let '(r, ofs, end_, partial) := parse_range range (go_ofs g) (go_end g) in
          (r, Mk_get_obj http_range ofs end_ (go_get_data g) partial (go_range_parsed g))
    | None => (0, g)
    end in
  let bad_time t := match t with
                    | None => false
                    | Some s => match parse_time s with inl _ => true | inr _ => false end
                    end in
  if r <? 0 then (r, g)
  else if bad_time if_mod then (- EINVAL, g)
  else if bad_time if_unmod then (- EINVAL, g)
  else (0, g).
End get.

(** [pread]: a negative offset is an error. *)
Definition pread (f : bytes) (len ofs : Z) : option bytes :=
  if ofs <? 0 then None else Some (take (Z.to_nat len) (drop (Z.to_nat ofs) f)).

(** The loop that sends the file: what is sent, and whether it ended well.
    [cur] is how much was asked for before; a plain read and a positioned read
    from 0 go through the file in the same way.  The remaining length goes down
    by a chunk every turn. *)
Fixpoint send_loop (fuel : nat) (chunk : Z) (f : bytes) (ofs cur left : Z) : list bytes * bool :=
  match fuel with
  | O => ([], left <=? 0)
  | S fuel' =>
      if left >? 0 then
        let len := if chunk >? left then left else chunk in
        match pread f len (ofs + cur) with
        | None => ([], false)
        | Some bl =>
            if negb (zlen bl =? len) then ([], false)
            else
              let '(rest, ok) := send_loop fuel' chunk f ofs (cur + len) (left - chunk) in
              (bl :: rest, ok)
        end
      else ([], true)
  end.

(** How much the request asks for: the whole file unless an offset or an end
    was given. *)
Definition get_left (g : get_obj) (size : Z) : Z :=
  if negb (go_ofs g =? 0) || negb (go_end g =? -1) then go_end g - go_ofs g else size.
Definition get_start (g : get_obj) : Z :=
  if negb (go_ofs g =? 0) || negb (go_end g =? -1) then go_ofs g else 0.

(** The answer to a request: its error, the length announced and what is sent. *)
Record get_reply := Mk_get_reply {
  gr_ret : Z; gr_total_len : Z; gr_partial : bool; gr_etag : str; gr_body : list bytes; gr_complete : bool
}.

Section execute.
(** The digest, and what the shell command [md5sum] prints of the file. *)
Variable md5 : bytes → bytes.
Variable md5sum : str.
Variable parse_time : str → Z + Z.
Variable chunk : Z.

Definition is_range (g : get_obj) : bool := negb (go_ofs g =? 0) || negb (go_end g =? -1).

(** The entity tag: the digest of the bytes asked for, or what [md5sum] prints.
    A failed read leaves the buffer empty. *)
Definition get_etag (g : get_obj) (f : bytes) : str :=
  if is_range g then buf_to_hex (md5 (default [] (pread f (go_end g - go_ofs g) (go_ofs g)))) else md5sum.

(** [RGWGetObj::execute] on the file of the object, or none: with an error only
    the error is sent; a HEAD request sends no data.  [None] is undefined
    behaviour: a negative length is taken for an enormous one, and the file
    read into a buffer of no size. *)
Definition get_execute (http_range if_mod if_unmod : option str) (file : option bytes) (g : get_obj)
    : option get_reply :=
  let '(r, g) := init_common parse_time http_range if_mod if_unmod g in
  if r <? 0 then Some (Mk_get_reply r 0 (go_partial_content g) [] [] false)
  else
    match file with
    | None => Some (Mk_get_reply (- ERR_NOT_FOUND) 0 (go_partial_content g) [] [] false)
    | Some f =>
        let left := get_left g (zlen f) in
        if is_range g && (left <? 0) then None
        else
          let '(body, ok) := send_loop (Z.to_nat left) chunk f (get_start g) 0 left in
          Some (Mk_get_reply 0 (zlen f) (go_partial_content g) (get_etag g f)
                  (if go_get_data g then body else []) ok)
    end.

(** A whole request, permission check included. *)
Definition get_request (get_data : bool) (http_range if_mod if_unmod : option str) (file : option bytes)
    : option get_reply :=
  get_execute http_range if_mod if_unmod file (snd (prefetch_data http_range (get_obj_new get_data))).
End execute.

(** ** The loop *)

Lemma take_drop_app (f : bytes) a b : take a f ++ take b (drop a f) = take (a + b) f.
Proof. revert f. induction a as [|a IH]; intros [|c f]; cbn; [done|done|by destruct b|]. by rewrite IH. Qed.

Lemma send_loop_spec fuel chunk f ofs cur left :
  1 <= chunk → 0 <= ofs + cur → left <= Z.of_nat fuel →
  let '(body, ok) := send_loop fuel chunk f ofs cur left in
  let avail := Z.max 0 (zlen f - (ofs + cur)) in
  (left <= avail → ok = true ∧ concat body = take (Z.to_nat left) (drop (Z.to_nat (ofs + cur)) f))
  ∧ (avail < left → ok = false
     ∧ ∃ n, n <= avail ∧ avail - n < chunk ∧ concat body = take (Z.to_nat n) (drop (Z.to_nat (ofs + cur)) f)).
Proof.
  intros Hc. revert cur left. induction fuel as [|fuel IH]; intros cur left Ho Hl; cbn [send_loop].
  - split; [|lia]. intros _. rewrite (proj2 (Z.leb_le _ _)) by lia. split; [done|].
    by replace (Z.to_nat left) with O by lia.
  - rewrite !Z.gtb_ltb. destruct (Z.ltb_spec 0 left).
    2:{ split; [|lia]. intros _. split; [done|]. by replace (Z.to_nat left) with O by lia. }
    set (len := if left <? chunk then left else chunk).
    assert (Hlen : len = Z.min left chunk) by (unfold len; destruct (Z.ltb_spec left chunk); lia).
    unfold pread. rewrite (proj2 (Z.ltb_ge _ _)) by lia.
    assert (Hz : zlen (take (Z.to_nat len) (drop (Z.to_nat (ofs + cur)) f))
                 = Z.min len (Z.max 0 (zlen f - (ofs + cur)))).
    { unfold zlen. rewrite length_take, length_drop. lia. }
    destruct (Z.eqb_spec (zlen (take (Z.to_nat len) (drop (Z.to_nat (ofs + cur)) f))) len) as [E|E]; cbn [negb].
    2:{ rewrite Hz in E. split; [lia|]. intros _. split; [done|]. exists 0. split_and!; [lia|lia|done]. }
    rewrite Hz in E. specialize (IH (cur + len) (left - chunk) ltac:(lia) ltac:(lia)).
    destruct (send_loop fuel chunk f ofs (cur + len) (left - chunk)) as [body ok].
    replace (ofs + (cur + len)) with (ofs + cur + len) in IH by lia.
    assert (Hdrop : drop (Z.to_nat (ofs + cur + len)) f = drop (Z.to_nat len) (drop (Z.to_nat (ofs + cur)) f)).
    { rewrite drop_drop. f_equal. lia. }
    rewrite Hdrop in IH. cbn [concat]. destruct IH as [IH1 IH2]. split.
    + intros Hle. destruct IH1 as [-> ->]; [lia|]. split; [done|]. rewrite take_drop_app. f_equal. lia.
    + intros Hlt. destruct IH2 as [-> (n & Hn & Hn' & ->)]; [lia|]. split; [done|].
      exists (len + Z.max 0 n). split_and!; [lia|lia|].
      rewrite take_drop_app. f_equal. lia.
Qed.

(** ** Ranges *)

Lemma digits_value_nonneg acc s : 0 <= acc → 0 <= digits_value acc s.
Proof.
  revert acc. induction s as [|c s IH]; intros acc Ha; cbn; [done|].
  destruct (isdigit c) eqn:E; [|done]. apply IH. apply isdigit_val in E. lia.
Qed.

Lemma atoll_nonneg s : "-"%char ∉ s → 0 <= atoll s.
Proof.
  intros Hs. unfold atoll, strtol10. cbv zeta.
  assert (Hin : ∀ c r, skip_spaces (cstr s) = c :: r → c ≠ "-"%char).
  { intros c r E ->. apply Hs. destruct (skip_spaces_split (cstr s)) as (sp & Es & _).
    rewrite E in Es. assert (H : "-"%char ∈ cstr s)
      by (rewrite Es; apply elem_of_app; right; apply elem_of_cons; by left).
    clear -H. induction s as [|c s IH]; cbn in H; [by inversion H|].
    case_decide; [by inversion H|]. apply elem_of_cons in H as [->|H]; apply elem_of_cons; auto. }
  destruct (skip_spaces (cstr s)) as [|c r] eqn:E; [done|].
  assert (char_is "-" c = false) as -> by (apply bool_decide_eq_false; by eapply Hin).
  pose proof (digits_value_nonneg 0 r ltac:(lia)). pose proof (digits_value_nonneg 0 (c :: r) ltac:(lia)).
  destruct (char_is "+" c); lia.
Qed.

Lemma atoll_max s : - 2 ^ 63 <= atoll s <= LLONG_MAX.
Proof. unfold atoll, strtol10, LLONG_MAX. cbv zeta. repeat case_match; lia. Qed.

Lemma find_if_prefix p s i : find_if p s = Some i → Forall (λ c, p c = false) (take i s).
Proof.
  intros H. destruct (find_if_Some _ _ _ H) as (pre & c & post & -> & <- & _ & Hf).
  by rewrite take_app_length.
Qed.

(** A range that is accepted is the whole object, from an offset on, the last
    bytes, or an interval in order; the numbers fit 64 bits. *)
Lemma parse_range_bounds range r o e p :
  parse_range range 0 (-1) = (r, o, e, p) → r = 0 →
  (p = false ∧ o = 0 ∧ e = -1)
  ∨ p = true ∧ (0 <= o <= LLONG_MAX ∧ (e = -1 ∨ o <= e <= LLONG_MAX) ∨ - LLONG_MAX <= o <= 1 ∧ e = -1).
Proof.
  unfold parse_range. destruct (range_spec_of _) as [s|]; [|intros [= <- <- <- <-]; by left].
  destruct (find_if _ s) as [pos|] eqn:Ef; [|by intros [= <- _ _ _]].
  pose proof (atoll_max (substr_from (S pos) s)) as He.
  pose proof (atoll_max (substr 0 pos s)) as Hmax.
  assert (Ho : 0 <= atoll (substr 0 pos s)).
  { apply atoll_nonneg. intros Hin. apply find_if_prefix in Ef. rewrite Forall_forall in Ef.
    unfold substr in Hin. rewrite drop_0 in Hin. apply Ef in Hin. by vm_compute in Hin. }
  assert (Hs64 : ∀ z, -1 <= z <= LLONG_MAX → s64 (- z) = - z)
    by (intros z Hz; apply sgn_small; unfold LLONG_MAX in *; lia).
  unfold LLONG_MAX in *.
  destruct (substr_from (S pos) s) as [|c end_str] eqn:Ee.
  - destruct (substr 0 pos s) as [|d ofs_str].
    + rewrite Hs64 by lia. intros [= <- <- <- <-] _. right. split; [done|]. right. lia.
    + intros [= <- <- <- <-] _. right. split; [done|]. left. lia.
  - destruct (Z.ltb_spec (atoll (c :: end_str)) 0); [intros [= <- _ _ _]; done|].
    destruct (substr 0 pos s) as [|d ofs_str].
    + rewrite Hs64 by lia. intros [= <- <- <- <-] _. right. split; [done|]. right. lia.
    + rewrite Z.geb_leb. destruct (Z.leb_spec 0 (atoll (c :: end_str))); [|lia]. cbn [andb].
      destruct (Z.ltb_spec (atoll (c :: end_str)) (atoll (d :: ofs_str))); [intros [= <- _ _ _]; done|].
      intros [= <- <- <- <-] _. right. split; [done|]. left. lia.
Qed.

Lemma parse_range_bounds_witness :
  (true = false ∧ 3 = 0 ∧ 9 = -1)
  ∨ true = true ∧ (0 <= 3 <= LLONG_MAX ∧ (9 = -1 ∨ 3 <= 9 <= LLONG_MAX) ∨ - LLONG_MAX <= 3 <= 1 ∧ 9 = -1).
Proof. apply (parse_range_bounds "bytes=3-9" 0 3 9 true); vm_compute; reflexivity. Defined.

Lemma print_nat_chars n c : 0 <= n → c ∈ print_nat n → isdigit c = true.
Proof.
  intros Hn Hin. destruct (print_nat_spec n Hn) as (_ & Hd & _).
  rewrite forallb_forall in Hd. by apply Hd, list_elem_of_In.
Qed.

Lemma print_nat_int n : 0 <= n → print_nat n = print_int n.
Proof. intros Hn. unfold print_int. by rewrite (proj2 (Z.ltb_ge _ _)). Qed.

Lemma atoll_print n : 0 <= n <= LLONG_MAX → atoll (print_nat n) = n.
Proof.
  intros Hn. rewrite print_nat_int by lia. apply decimal_digits_back. unfold LLONG_MIN. lia.
Qed.

Lemma parse_bytes_range s :
  NUL ∉ s → parse_range ("bytes=" ++ s) 0 (-1) =
  match find_if (char_is "-") s with
  | None => (- ERANGE, 0, -1, false)
  | Some pos =>
      let ofs_str := substr 0 pos s in
      let end_str := substr_from (S pos) s in
      let end1 := match end_str with [] => -1 | _ => atoll end_str end in
      if match end_str with [] => false | _ => end1 <? 0 end then (- ERANGE, 0, end1, true)
      else
        let '(ofs2, end2) :=
          match ofs_str with [] => (s64 (- end1), -1) | _ => (atoll ofs_str, end1) end in
        if (end2 >=? 0) && (end2 <? ofs2) then (- ERANGE, ofs2, end2, true)
        else (0, ofs2, end2, true)
  end.
Proof.
  intros Hs. unfold parse_range. rewrite cstr_no_nul.
  - unfold range_spec_of. rewrite find_sub_here. unfold substr_from at 1.
    by rewrite (drop_app_length "bytes=").
  - rewrite not_elem_of_app. split; [by apply (bool_decide_unpack _)|done].
Qed.

(** The three forms of a range, with decimal numbers. *)
Lemma range_forms a b :
  0 <= a <= LLONG_MAX → 0 <= b <= LLONG_MAX →
  parse_range ("bytes=" ++ print_nat a ++ "-" ++ print_nat b) 0 (-1)
  = ((if b <? a then - ERANGE else 0), a, b, true)
  ∧ parse_range ("bytes=" ++ print_nat a ++ "-") 0 (-1) = (0, a, -1, true)
  ∧ parse_range ("bytes=" ++ "-" ++ print_nat b) 0 (-1) = (0, - b, -1, true).
Proof.
  intros Ha Hb.
  assert (Hnul : ∀ n, 0 <= n → NUL ∉ print_nat n)
    by (intros n Hn Hin; by apply (print_nat_chars n NUL Hn) in Hin).
  assert (Hdash : ∀ n, 0 <= n → Forall (λ c, char_is "-" c = false) (print_nat n)).
  { intros n Hn. apply Forall_forall. intros c Hin. apply bool_decide_eq_false. intros ->.
    by apply (print_nat_chars n _ Hn) in Hin. }
  assert (Hne : ∀ n, 0 <= n → ∃ c r, print_nat n = c :: r).
  { intros n Hn. destruct (print_nat_spec n Hn) as (H & _). destruct (print_nat n); [done|]. eauto. }
  assert (Hpos : ∀ r, find_if (char_is "-") (print_nat a ++ "-" ++ r) = Some (length (print_nat a))).
  { intros r. apply (find_if_app (char_is "-") (print_nat a) "-"%char r); [apply Hdash; lia|done]. }
  assert (Hsub : ∀ r, substr 0 (length (print_nat a)) (print_nat a ++ "-" ++ r) = print_nat a
                    ∧ substr_from (S (length (print_nat a))) (print_nat a ++ "-" ++ r) = r).
  { intros r. unfold substr, substr_from. rewrite drop_0, take_app_length. split; [done|].
    rewrite drop_app_ge by lia. by replace (S (length (print_nat a)) - length (print_nat a))%nat with 1%nat by lia. }
  split_and!.
  - rewrite parse_bytes_range.
    2:{ rewrite 2!not_elem_of_app. split_and!; [apply Hnul; lia|by apply (bool_decide_unpack _)|apply Hnul; lia]. }
    rewrite Hpos. destruct (Hsub (print_nat b)) as [-> ->]. cbv zeta.
    destruct (Hne b ltac:(lia)) as (c & r & Eb). destruct (Hne a ltac:(lia)) as (c' & r' & Ea).
    rewrite Eb, <- Eb, Ea, <- Ea, !atoll_print by lia. rewrite (proj2 (Z.ltb_ge _ _)) by lia.
    rewrite Z.geb_leb, (proj2 (Z.leb_le _ _)) by lia. by destruct (b <? a).
  - rewrite parse_bytes_range.
    2:{ rewrite not_elem_of_app. split_and!; [apply Hnul; lia|by apply (bool_decide_unpack _)]. }
    rewrite <- (app_nil_r "-"), Hpos. destruct (Hsub []) as [-> ->]. cbv zeta.
    destruct (Hne a ltac:(lia)) as (c' & r' & Ea). rewrite Ea, <- Ea, atoll_print by lia. done.
  - rewrite parse_bytes_range.
    2:{ rewrite not_elem_of_app. split; [by apply (bool_decide_unpack _)|apply Hnul; lia]. }
    cbn [app find_if]. change (char_is "-" "-") with true. cbv iota zeta.
    change (substr_from 1 ("-"%char :: print_nat b)) with (print_nat b).
    change (substr 0 0 ("-"%char :: print_nat b)) with (@nil ascii).
    destruct (Hne b ltac:(lia)) as (c & r & Eb). rewrite Eb, <- Eb, atoll_print by lia.
    rewrite (proj2 (Z.ltb_ge _ _)) by lia.
    assert (s64 (- b) = - b) as -> by (apply sgn_small; unfold LLONG_MAX in *; lia). done.
Qed.

Lemma send_loop_chunks fuel chunk f ofs cur left :
  1 <= chunk → Forall (λ b, zlen b <= chunk) (fst (send_loop fuel chunk f ofs cur left)).
Proof.
  intros Hc. revert cur left. induction fuel as [|fuel IH]; intros cur left; cbn [send_loop]; [constructor|].
  destruct (left >? 0); [|constructor]. set (len := if chunk >? left then left else chunk).
  destruct (pread f len (ofs + cur)) as [bl|]; [|constructor].
  destruct (Z.eqb_spec (zlen bl) len) as [E|]; cbn [negb]; [|constructor].
  specialize (IH (cur + len) (left - chunk)). destruct (send_loop _ _ _ _ _ _). cbn in *.
  constructor; [|done]. rewrite E. unfold len. rewrite Z.gtb_ltb. destruct (Z.ltb_spec left chunk); lia.
Qed.

(** ** Requests *)

(** A request whose range was parsed. *)
Lemma get_request_parsed md5 md5sum pt chunk data range f o e :
  parse_range range 0 (-1) = (0, o, e, true) →
  get_request md5 md5sum pt chunk data (Some range) None None (Some f) =
  let g := Mk_get_obj (Some range) o e data true data in
  let left := get_left g (zlen f) in
  if is_range g && (left <? 0) then None
  else
    let '(body, ok) := send_loop (Z.to_nat left) chunk f (get_start g) 0 left in
    Some (Mk_get_reply 0 (zlen f) true (get_etag md5 md5sum g f) (if data then body else []) ok).
Proof.
  intros E. unfold get_request, prefetch_data, get_execute, init_common. destruct data; cbn.
  - rewrite E. done.
  - rewrite E. done.
Qed.

Lemma get_request_whole md5 md5sum pt chunk data f :
  get_request md5 md5sum pt chunk data None None None (Some f) =
  let '(body, ok) := send_loop (Z.to_nat (zlen f)) chunk f 0 0 (zlen f) in
  Some (Mk_get_reply 0 (zlen f) false md5sum (if data then body else []) ok).
Proof. by destruct data. Qed.

Lemma send_whole md5 md5sum pt chunk data f :
  1 <= chunk →
  ∃ body, get_request md5 md5sum pt chunk data None None None (Some f)
          = Some (Mk_get_reply 0 (zlen f) false md5sum (if data then body else []) true)
    ∧ concat body = f ∧ Forall (λ b, zlen b <= chunk) body.
Proof.
  intros Hc. rewrite get_request_whole. pose proof (zlen_nonneg f).
  pose proof (send_loop_spec (Z.to_nat (zlen f)) chunk f 0 0 (zlen f) Hc ltac:(lia) ltac:(lia)) as H1.
  pose proof (send_loop_chunks (Z.to_nat (zlen f)) chunk f 0 0 (zlen f) Hc) as Hch.
  destruct (send_loop _ _ _ _ _ _) as [body ok]. cbn [fst] in Hch. destruct H1 as [H1 _].
  destruct H1 as [-> Hb]; [lia|]. exists body. split_and!; [done| |done].
  rewrite Hb. apply firstn_all2. unfold zlen. cbn. lia.
Qed.

(** Without a range, the whole file is sent in chunks, and the length
    announced is its length; a HEAD request sends none of it.  The loop ends. *)
Lemma get_whole_object md5 md5sum pt chunk data f :
  1 <= chunk →
  ∃ body, get_request md5 md5sum pt chunk data None None None (Some f)
          = Some (Mk_get_reply 0 (zlen f) false md5sum (if data then body else []) true)
    ∧ concat body = f ∧ Forall (λ b, zlen b <= chunk) body.
Proof. apply send_whole. Qed.

Lemma get_whole_object_witness :
  ∃ body, get_request (λ b, b) "tag" (λ _, inl 0) 3 true None None None (Some "hello world")
          = Some (Mk_get_reply 0 11 false "tag" body true)
    ∧ concat body = "hello world" ∧ Forall (λ b, zlen b <= 3) body.
Proof. apply (get_whole_object (λ b, b) "tag" (λ _, inl 0) 3 true "hello world"). lia. Defined.

(** A request for the bytes [a] to [b] sends those from [a] up to, but not
    including, [b], which the range does include; the answer is marked partial,
    but the length announced is the whole file's.  When [b] is past the end of
    the file, it breaks off at the chunk the file ends in. *)
Lemma get_range md5 md5sum pt chunk a b f :
  1 <= chunk → 0 <= a <= b → b <= LLONG_MAX →
  ∃ body ok etag,
    get_request md5 md5sum pt chunk true (Some ("bytes=" ++ print_nat a ++ "-" ++ print_nat b)) None None (Some f)
    = Some (Mk_get_reply 0 (zlen f) true etag body ok)
    ∧ (b <= zlen f → ok = true ∧ concat body = take (Z.to_nat (b - a)) (drop (Z.to_nat a) f))
    ∧ (zlen f < b → a < b → ok = false
       ∧ ∃ n, a + n <= Z.max a (zlen f) < a + n + chunk
           ∧ concat body = take (Z.to_nat n) (drop (Z.to_nat a) f)).
Proof.
  intros Hc Hab Hb. destruct (range_forms a b ltac:(lia) ltac:(lia)) as [E _].
  rewrite (proj2 (Z.ltb_ge _ _)) in E by lia. rewrite (get_request_parsed _ _ _ _ _ _ _ _ _ E).
  assert (Hr : is_range (Mk_get_obj (Some ("bytes=" ++ print_nat a ++ "-" ++ print_nat b)) a b true true true) = true).
  { unfold is_range. cbn. destruct (Z.eqb_spec b (-1)); [lia|]. by rewrite orb_true_r. }
  set (g := Mk_get_obj _ _ _ _ _ _) in *. cbv zeta.
  assert (get_left g (zlen f) = b - a) as -> by (unfold get_left; fold (is_range g); by rewrite Hr).
  assert (get_start g = a) as -> by (unfold get_start; fold (is_range g); by rewrite Hr).
  rewrite Hr, (proj2 (Z.ltb_ge _ _)) by lia. cbn [andb].
  pose proof (send_loop_spec (Z.to_nat (b - a)) chunk f a 0 (b - a) Hc ltac:(lia) ltac:(lia)) as H1.
  destruct (send_loop _ _ _ _ _ _) as [body ok]. rewrite Z.add_0_r in H1. destruct H1 as [H1 H2].
  eexists body, ok, _. split; [reflexivity|]. split.
  - intros Hle. apply H1. lia.
  - intros Hlt Hab'. destruct H2 as [-> (n & Hn & Hn' & ->)]; [lia|]. split; [done|].
    exists n. split; [lia|done].
Qed.

Lemma get_range_witness :
  ∃ body ok etag,
    get_request (λ b, b) "tag" (λ _, inl 0) 3 true (Some "bytes=2-6") None None (Some "hello world")
    = Some (Mk_get_reply 0 11 true etag body ok)
    ∧ (6 <= 11 → ok = true ∧ concat body = "llo ")
    ∧ (11 < 6 → 2 < 6 → ok = false
       ∧ ∃ n, 2 + n <= Z.max 2 11 < 2 + n + 3 ∧ concat body = take (Z.to_nat n) "llo world").
Proof.
  change "bytes=2-6" with ("bytes=" ++ print_nat 2 ++ "-" ++ print_nat 6).
  apply (get_range (λ b, b) "tag" (λ _, inl 0) 3 2 6 "hello world"); unfold LLONG_MAX; lia.
Defined.

(** The last byte of a range is missing, the last bytes of a file cannot be
    asked for, and a range without an end reads a file into a buffer of no
    size. *)
Lemma range_defects :
  gr_body <$> get_request (λ b, b) "tag" (λ _, inl 0) 4096 true (Some "bytes=0-0") None None (Some "hello")
    = Some []
  ∧ gr_complete <$> get_request (λ b, b) "tag" (λ _, inl 0) 4096 true (Some "bytes=-3") None None (Some "hello")
    = Some false
  ∧ get_request (λ b, b) "tag" (λ _, inl 0) 4096 true (Some "bytes=2-") None None (Some "hello") = None.
Proof. by vm_compute. Qed.

(** The unit is not looked at where it stands: any header whose first letters
    are those of [bytes] will do, and one with none as well. *)
Lemma range_unit_defects :
  parse_range "b=1-2" 0 (-1) = (0, 1, 2, true) ∧ parse_range "=1-2" 0 (-1) = (0, 1, 2, true)
  ∧ parse_range " bytes =1-2" 0 (-1) = (0, 0, -1, false).
Proof. by vm_compute. Qed.
