(* ===== verification/PutObj.v ===== *)
(** * Writing an object ([src/src/rgw/porting_op.cc], [porting_rest.cc])

    The body of a request, read through the client's connection; the loop that
    stores an upload in the file of its object; the readers of whole request
    bodies.  The connection is an interface ([RGWClientIO::read], over the
    FastCGI library), the file system's answers are parameters. *)

From S2P Require Import Prelude StdMap CString Env Http Strtol Errors SysInfo GetObj.

Definition ENOMEM : Z := 12.
Definition ENOTSUP : Z := 95.

(** ** The connection *)

(** [cio->read(buf, max, &len)]: the result, the bytes read and the connection
    afterwards. *)
Class ClientIO (C : Type) := cio_read : Z → C → Z * bytes * C.

(** What [FCGX_GetStr] promises: the next bytes of the body, and fewer than
    asked for only at its end. *)
Class ClientIOOk (C : Type) `{ClientIO C} := {
  cio_rest : C → bytes;
  cio_read_ok n c : 0 <= n →
    ∃ c', cio_read n c = (0, take (Z.to_nat n) (cio_rest c), c') ∧ cio_rest c' = drop (Z.to_nat n) (cio_rest c)
}.

(** A body held in memory. *)
#[export] Instance mem_io : ClientIO bytes := λ n c, (0, take (Z.to_nat n) c, drop (Z.to_nat n) c).
#[export, program] Instance mem_io_ok : ClientIOOk bytes := {| cio_rest c := c |}.
Next Obligation. intros n c _. eexists. split; reflexivity. Qed.

(** ** Uploads *)

Section put.
Context {C : Type} `{ClientIO C}.
Variable chunk_size : Z.
Variable max_put_size : Z.

(** [RGWPutObj_ObjStore::verify_params] *)
Definition verify_params (length : option str) : Z :=
  match length with
  | Some l => if atoll l >? max_put_size then - ERR_TOO_LARGE else 0
  | None => 0
  end.

(** How much [get_data] asks for. *)
Definition data_length (length : option str) (ofs : Z) : Z :=
  match length with
  | Some l => let cl := u64 (atoll l - ofs) in if cl >? chunk_size then chunk_size else cl
  | None => chunk_size
  end.

(** [RGWPutObj_ObjStore::get_data]: its result and the data. *)
Definition get_data (length : option str) (ofs : Z) (c : C) : Z * bytes * C :=
  let cl := data_length length ofs in
  let '(r, data, c) := if cl =? 0 then (0, [], c) else cio_read cl c in
  if r <? 0 then (r, [], c)
  else
    let len := zlen data in
    if u64 (u64 ofs + len) >? u64 max_put_size then (- ERR_TOO_LARGE, data, c)
    else (len, data, c).

(** What [write] returns for the data it is given: at each turn of the loop,
    known by its offset, anything that it may return. *)
Variable fd_write : Z → bytes → Z.

(** The loop of [RGWPutObj::execute]: how it ended, the data hashed so far and
    the contents of the file.  A failed write leaves [ret] at 0; a short one
    goes unnoticed. *)
Fixpoint put_loop (fuel : nat) (length : option str) (ofs : Z) (hashed file : bytes) (c : C)
    : option (Z * bool * Z * bytes * bytes) :=
  match fuel with
  | O => None
  | S fuel' =>
      let '(len, data, c) := get_data length ofs c in
      if len <? 0 then Some (len, false, ofs, hashed, file)
      else if len =? 0 then Some (0, true, ofs, hashed, file)
      else
        let result := fd_write ofs data in
        if result <? 0 then Some (0, false, ofs, hashed, file)
        else put_loop fuel' length (ofs + len) (hashed ++ data) (file ++ take (Z.to_nat result) data) c
  end.

Record put_reply := Mk_put_reply {
  pr_ret : Z;                 (* the result the response is made from *)
  pr_obj_size : Z;
  pr_file : option bytes;     (* the object's file afterwards *)
  pr_etag : str;
  pr_stat : bytes             (* the statistics of the bucket *)
}.

Variable md5 : bytes → bytes.
Variable check_quota : Z → Z.

(** [RGWPutObj::execute].  [get_params] of the S3 class has no return
    statement, so its result is any number [junk]; it sets no digest, so none
    is checked.  [opened] says whether the file can be opened, [old] what it
    held. *)
Definition put_execute (fuel : nat) (junk : Z) (has_object : bool) (length : option str)
    (multipart opened : bool) (old stat : option bytes) (c : C) : option put_reply :=
  let finish ret size file etag := Some (Mk_put_reply ret size file etag (put_stat stat size)) in
  if negb has_object then finish (- EINVAL) 0 old []
  else if junk <? 0 then finish junk 0 old []
  else if negb opened then finish 0 0 old []
  else
    match put_loop fuel length 0 [] (if multipart then default [] old else []) c with
    | None => None
    | Some (ret, false, _, _, file) => finish ret 0 (Some file) []
    | Some (_, true, ofs, hashed, file) =>
        let ret := check_quota ofs in
        if ret <? 0 then finish ret ofs (Some file) []
        else finish ret ofs (Some file) (buf_to_hex (md5 hashed))
    end.
End put.

(** ** Whole bodies *)

Section read_all.
Context {C : Type} `{ClientIO C}.

Definition READ_CHUNK : Z := 4096.
Definition MAX_READ_CHUNK : Z := 128 * 1024.

(** The loop of [read_all_chunked_input] with its buffer of [total] bytes, of
    which [data] are filled: [None] is a write behind the end of the buffer. *)
Fixpoint chunked_loop (fuel : nat) (max_read need_to_read total : Z) (data : bytes) (c : C)
    : option (Z + bytes) :=
  match fuel with
  | O => Some (inl 0)
  | S fuel' =>
      let '(r, d, c) := cio_read need_to_read c in
      if r <? 0 then Some (inl r)
      else if zlen data + zlen d >? total then None
      else
        let data := data ++ d in
        if zlen d =? need_to_read then
          let need := if need_to_read <? MAX_READ_CHUNK then s32 (need_to_read * 2) else need_to_read in
          if total >? max_read then Some (inl (- ERANGE))
          else chunked_loop fuel' max_read need (s32 (total + need)) data c
        else Some (inr data)
  end.

Definition read_all_chunked_input (fuel : nat) (max_read : Z) (c : C) : option (Z + bytes) :=
  chunked_loop fuel max_read READ_CHUNK READ_CHUNK [] c.

(** [rgw_rest_read_all_input] *)
Definition rgw_rest_read_all_input (fuel : nat) (length encoding : option str) (max_len : Z) (c : C)
    : option (Z + bytes) :=
  let cl := match length with Some l => u64 (atoll l) | None => 0 end in
  if negb (cl =? 0) then
    if cl >? max_len then Some (inl (- ERANGE))
    else
      let '(r, d, _) := cio_read cl c in
      if r <? 0 then Some (inl r) else Some (inr d)
  else
    match length with
    | Some _ => Some (inr [])
    | None =>
        if match encoding with Some e => negb (streq (cstr e) "chunked") | None => true end
        then Some (inl (- ERR_LENGTH_REQUIRED))
        else read_all_chunked_input fuel max_len c
    end.
End read_all.

(** ** What an upload stores *)

Section put_facts.
Context {C : Type} `{ClientIOOk C}.
Variable chunk_size : Z.
Variable max_put_size : Z.
Hypothesis chunk_pos : 1 <= chunk_size < 2 ^ 31.
Hypothesis max_ok : 0 <= max_put_size < 2 ^ 62.

(** The part of the body an upload of a given length still has to read. *)
Definition upload_data (length : option str) (ofs : Z) (c : C) : bytes :=
  match length with
  | Some l => take (Z.to_nat (atoll l - ofs)) (cio_rest c)
  | None => cio_rest c
  end.

Lemma get_data_spec length ofs c :
  0 <= ofs <= max_put_size → match length with Some l => ofs <= atoll l | None => True end →
  ∃ n c', let d := take (Z.to_nat n) (upload_data length ofs c) in
    get_data chunk_size max_put_size length ofs c
    = ((if ofs + zlen d >? max_put_size then - ERR_TOO_LARGE else zlen d), d, c')
    ∧ 0 <= n ∧ (n = 0 → upload_data length ofs c = [])
    ∧ (d = take (Z.to_nat chunk_size) (upload_data length ofs c)
       ∧ drop (Z.to_nat n) (upload_data length ofs c) = drop (Z.to_nat chunk_size) (upload_data length ofs c))
    ∧ upload_data length (ofs + zlen d) c' = drop (Z.to_nat n) (upload_data length ofs c)
    ∧ match length with Some l => ofs + zlen d <= atoll l | None => True end.
Proof.
  intros Hofs Hlen. unfold get_data.
  assert (Hcl : data_length chunk_size length ofs
    = match length with Some l => Z.min chunk_size (atoll l - ofs) | None => chunk_size end).
  { unfold data_length. destruct length as [l|]; [|done]. pose proof (atoll_max l). unfold LLONG_MAX in *.
    rewrite u64_small by lia. rewrite Z.gtb_ltb. destruct (Z.ltb_spec chunk_size (atoll l - ofs)); lia. }
  set (cl := data_length chunk_size length ofs) in *.
  assert (Hcl0 : 0 <= cl <= chunk_size) by (rewrite Hcl; destruct length; lia).
  assert (Htake : take (Z.to_nat cl) (upload_data length ofs c) = take (Z.to_nat cl) (cio_rest c)).
  { unfold upload_data. destruct length as [l|]; [|done]. rewrite take_take. f_equal. lia. }
  assert (Hread : ∃ c', (if cl =? 0 then (0, [], c) else cio_read cl c)
                  = (0, take (Z.to_nat cl) (cio_rest c), c') ∧ cio_rest c' = drop (Z.to_nat cl) (cio_rest c)).
  { destruct (Z.eqb_spec cl 0) as [->|]; [by exists c|]. apply cio_read_ok. lia. }
  destruct Hread as (c' & -> & Hrest). exists cl, c'. cbv zeta. rewrite Htake.
  set (d := take (Z.to_nat cl) (cio_rest c)).
  assert (Hd : zlen d <= cl) by (unfold d, zlen; rewrite length_take; lia).
  pose proof (zlen_nonneg d). rewrite (u64_small ofs), (u64_small (ofs + zlen d)), (u64_small max_put_size) by lia.
  change (0 <? 0) with false. cbv iota.
  assert (Hall : cl = chunk_size ∨ (Datatypes.length (upload_data length ofs c) <= Z.to_nat cl)%nat).
  { destruct (decide (cl = chunk_size)); [by left|right]. unfold upload_data. destruct length as [l|]; [|lia].
    rewrite length_take. lia. }
  split_and!.
  - by destruct (_ >? _).
  - lia.
  - intros E. unfold upload_data. rewrite Hcl in E. destruct length as [l|]; [|lia].
    by replace (atoll l - ofs) with 0 by lia.
  - unfold d. rewrite <- Htake. destruct Hall as [->|Hu]; [done|]. by rewrite !take_ge by lia.
  - destruct Hall as [->|Hu]; [done|]. by rewrite !drop_ge by lia.
  - unfold upload_data. rewrite Hrest. destruct length as [l|]; [|done].
    unfold d, zlen. rewrite length_take.
    rewrite skipn_firstn_comm. destruct (decide (Z.to_nat cl <= Datatypes.length (cio_rest c))%nat).
    + f_equal. lia.
    + rewrite !drop_ge by lia. by rewrite !take_nil.
  - destruct length as [l|]; [|done]. lia.
Qed.

Variable fd_write : Z → bytes → Z.

(** The pieces a body is stored in. *)
Fixpoint chunks_of (fuel : nat) (data : bytes) : list bytes :=
  match fuel, data with
  | S fuel', _ :: _ => take (Z.to_nat chunk_size) data :: chunks_of fuel' (drop (Z.to_nat chunk_size) data)
  | _, _ => []
  end.

(** What the file takes of the pieces, and whether no write failed: a write may
    take less than it is given, and the first that fails is the last. *)
Fixpoint written (ofs : Z) (pieces : list bytes) : bool * bytes :=
  match pieces with
  | [] => (true, [])
  | d :: rest =>
      if fd_write ofs d <? 0 then (false, [])
      else let '(ok, w) := written (ofs + zlen d) rest in (ok, take (Z.to_nat (fd_write ofs d)) d ++ w)
  end.

Lemma chunks_of_fuel fuel data :
  (Datatypes.length data <= fuel)%nat → chunks_of fuel data = chunks_of (Datatypes.length data) data.
Proof.
  revert data. induction fuel as [fuel IH] using lt_wf_ind. intros [|x data] Hl; [by destruct fuel|].
  destruct fuel as [|fuel]; cbn [Datatypes.length] in Hl; [lia|]. cbn [Datatypes.length chunks_of]. f_equal.
  set (r := drop _ _). assert (Datatypes.length r <= Datatypes.length data)%nat
    by (unfold r; rewrite length_drop; cbn [Datatypes.length]; lia).
  rewrite (IH fuel) by lia. destruct (decide (Datatypes.length data = fuel)) as [->|]; [by rewrite (IH fuel) by lia|].
  by rewrite (IH (Datatypes.length data)) by lia.
Qed.

(** The loop on a body within the limit, whatever the writes return. *)
Lemma put_loop_written fuel length ofs hashed file c :
  0 <= ofs → match length with Some l => ofs <= atoll l | None => True end →
  let data := upload_data length ofs c in
  ofs + zlen data <= max_put_size → (Datatypes.length data < fuel)%nat →
  let '(ok, w) := written ofs (chunks_of (Datatypes.length data) data) in
  ∃ ofs' hashed', put_loop chunk_size max_put_size fd_write fuel length ofs hashed file c
    = Some (0, ok, ofs', hashed', file ++ w) ∧ (ok = true → ofs' = ofs + zlen data ∧ hashed' = hashed ++ data).
Proof.
  cbv zeta. revert ofs hashed file c. induction fuel as [|fuel IH]; intros ofs hashed file c Hofs Hlen Hmax Hf; [lia|].
  cbn [put_loop]. pose proof (zlen_nonneg (upload_data length ofs c)).
  destruct (get_data_spec length ofs c ltac:(lia) Hlen) as (n & c' & -> & Hn & Hn0 & [Hd Hdrop] & Hnext & Hlen').
  set (data := upload_data length ofs c) in *. set (d := take (Z.to_nat n) data) in *.
  rewrite Hdrop in Hnext. set (r := drop (Z.to_nat chunk_size) data) in *.
  assert (Hdata : data = d ++ r) by (rewrite Hd; symmetry; apply take_drop).
  assert (Hz : zlen data = zlen d + zlen r) by (rewrite Hdata; apply zlen_app).
  pose proof (zlen_nonneg d). pose proof (zlen_nonneg r).
  rewrite Z.gtb_ltb, (proj2 (Z.ltb_ge max_put_size _)), (proj2 (Z.ltb_ge (zlen d) 0)) by lia.
  destruct data as [|x data'] eqn:Edata.
  { subst d. rewrite take_nil, zlen_nil. cbn [chunks_of written].
    exists ofs, hashed. rewrite !app_nil_r. split; [done|]. intros _. by rewrite Z.add_0_r. }
  assert (Hpos : (1 <= Datatypes.length d)%nat) by (rewrite Hd, length_take; cbn [Datatypes.length]; lia).
  rewrite (proj2 (Z.eqb_neq _ _)) by (unfold zlen; lia).
  cbn [Datatypes.length chunks_of written]. rewrite <- Hd. fold r.
  destruct (fd_write ofs d <? 0) eqn:Ew.
  { exists ofs, hashed. by rewrite app_nil_r. }
  assert (Hlr : (Datatypes.length r <= Datatypes.length data')%nat).
  { assert (Hl : Datatypes.length (x :: data') = Datatypes.length (d ++ r)) by (by rewrite <- Hdata).
    rewrite length_app in Hl. cbn [Datatypes.length] in Hl. lia. }
  specialize (IH (ofs + zlen d) (hashed ++ d) (file ++ take (Z.to_nat (fd_write ofs d)) d) c' ltac:(lia) Hlen').
  rewrite Hnext in IH. specialize (IH ltac:(lia) ltac:(cbn [Datatypes.length] in Hf; lia)).
  rewrite (chunks_of_fuel (Datatypes.length data') r) by done.
  destruct (written (ofs + zlen d) _) as [ok w]. destruct IH as (ofs' & hashed' & -> & Hok).
  exists ofs', hashed'. rewrite <- app_assoc. split; [done|]. intros E. destruct (Hok E) as [-> ->].
  rewrite Hz, Hdata, <- app_assoc. split; [lia|done].
Qed.

(** Writes that take all they are given store the body. *)
Lemma written_whole fuel data ofs :
  (∀ o d, fd_write o d = zlen d) → (Datatypes.length data <= fuel)%nat →
  written ofs (chunks_of fuel data) = (true, data).
Proof.
  intros Hw. revert data ofs. induction fuel as [|fuel IH]; intros [|x data] ofs Hl; cbn [Datatypes.length] in Hl; [done|lia|done|].
  cbn [chunks_of written]. set (d := take _ _). pose proof (zlen_nonneg d).
  rewrite Hw, (proj2 (Z.ltb_ge _ _)), IH by (rewrite ?length_drop; cbn [Datatypes.length]; lia).
  rewrite take_ge by (unfold zlen; lia). unfold d. by rewrite take_drop.
Qed.

Hypothesis full_writes : ∀ ofs d, fd_write ofs d = zlen d.

Lemma put_loop_spec fuel length ofs hashed file c :
  0 <= ofs <= max_put_size → match length with Some l => ofs <= atoll l | None => True end →
  (Datatypes.length (upload_data length ofs c) < fuel)%nat →
  let data := upload_data length ofs c in
  if ofs + zlen data <=? max_put_size then
    put_loop chunk_size max_put_size fd_write fuel length ofs hashed file c
    = Some (0, true, ofs + zlen data, hashed ++ data, file ++ data)
  else ∃ n k, put_loop chunk_size max_put_size fd_write fuel length ofs hashed file c
       = Some (- ERR_TOO_LARGE, false, n, hashed ++ take k data, file ++ take k data)
       ∧ n = ofs + Z.of_nat k ∧ n <= max_put_size.
Proof.
  revert ofs hashed file c. induction fuel as [|fuel IH]; intros ofs hashed file c Hofs Hlen Hf; [lia|].
  cbv zeta. cbn [put_loop].
  destruct (get_data_spec length ofs c Hofs Hlen) as (n & c' & -> & Hn & Hn0 & _ & Hnext & Hlen').
  set (data := upload_data length ofs c) in *. set (d := take (Z.to_nat n) data) in *.
  assert (Hdata : data = d ++ drop (Z.to_nat n) data) by (symmetry; apply take_drop).
  pose proof (zlen_nonneg d). pose proof (zlen_nonneg (drop (Z.to_nat n) data)).
  assert (Hz : zlen data = zlen d + zlen (drop (Z.to_nat n) data)) by (rewrite Hdata at 1; apply zlen_app).
  rewrite Z.gtb_ltb. destruct (Z.ltb_spec max_put_size (ofs + zlen d)).
  { rewrite (proj2 (Z.leb_gt _ _)) by lia. change (- ERR_TOO_LARGE <? 0) with true. cbv iota.
    exists ofs, O. cbn. rewrite !app_nil_r. split_and!; [done|lia|lia]. }
  rewrite (proj2 (Z.ltb_ge (zlen d) 0)) by lia.
  destruct (Z.eqb_spec (zlen d) 0) as [E|E].
  - assert (data = []) as ->.
    { destruct (Z.eqb_spec n 0) as [->|]; [by apply Hn0|].
      unfold d, zlen in E. rewrite length_take in E. apply length_zero_iff_nil. lia. }
    rewrite zlen_nil, Z.add_0_r, (proj2 (Z.leb_le _ _)), !app_nil_r by lia. done.
  - rewrite full_writes, (proj2 (Z.ltb_ge (zlen d) 0)) by lia.
    assert (take (Z.to_nat (zlen d)) d = d) as -> by (apply firstn_all2; unfold zlen; lia).
    specialize (IH (ofs + zlen d) (hashed ++ d) (file ++ d) c' ltac:(lia) Hlen').
    rewrite Hnext in IH. cbv zeta in IH.
    assert (Hl : (Datatypes.length (drop (Z.to_nat n) data) < fuel)%nat).
    { rewrite length_drop. unfold d, zlen in E. rewrite length_take in E. lia. }
    specialize (IH Hl). rewrite Hz, Z.add_assoc. destruct (_ <=? _).
    + rewrite IH, <- !app_assoc, <- Hdata. done.
    + destruct IH as (m & k & -> & -> & Hm). exists (ofs + zlen d + Z.of_nat k), (Datatypes.length d + k)%nat.
      rewrite <- !app_assoc. split_and!; [|unfold zlen; lia|done].
      assert (take (Datatypes.length d + k) data = d ++ take k (drop (Z.to_nat n) data)) as ->; [|done].
      rewrite Hdata at 1. apply firstn_app_2.
Qed.
End put_facts.

(** C12: what an upload within the limit stores and answers, and that a later
    download sends it.  The file is opened or not, and each write takes all,
    some or none of a piece of the body, or fails: when the file is opened it
    holds what the writes took (behind what was there, for a part of a multipart
    upload).  When none failed the answer is that of the quota check and, unless
    it refuses, the tag is the digest of the body received; after a failed open
    or write the answer is 0 with no tag; where the missing result of
    [get_params] is negative, it is the answer and nothing is stored.  When every
    write takes what it is given the file holds the body (as far as the content
    length says).  Both loops end. *)
Theorem put_get_roundtrip {C} `{ClientIOOk C} chunk max_put (fd_write : Z → bytes → Z) md5 quota junk length
    (multipart opened : bool) old stat fuel md5sum pt (c : C) :
  1 <= chunk < 2 ^ 31 → 0 <= max_put < 2 ^ 62 →
  match length with Some l => 0 <= atoll l | None => True end →
  let body := upload_data length 0 c in
  zlen body <= max_put → (Datatypes.length body < fuel)%nat →
  let old_part := if multipart then default [] old else [] in
  let '(whole, taken) := written fd_write 0 (chunks_of chunk (Datatypes.length body) body) in
  let reply :=
    if junk <? 0 then Mk_put_reply junk 0 old [] (put_stat stat 0)
    else if negb opened then Mk_put_reply 0 0 old [] (put_stat stat 0)
    else if negb whole then Mk_put_reply 0 0 (Some (old_part ++ taken)) [] (put_stat stat 0)
    else Mk_put_reply (quota (zlen body)) (zlen body) (Some (old_part ++ taken))
           (if quota (zlen body) <? 0 then [] else buf_to_hex (md5 body)) (put_stat stat (zlen body)) in
  put_execute chunk max_put fd_write md5 quota fuel junk true length multipart opened old stat c = Some reply
  ∧ ((∀ ofs d, fd_write ofs d = zlen d) → whole = true ∧ taken = body)
  ∧ ∀ stored, pr_file reply = Some stored →
      ∃ sent, get_request md5 md5sum pt chunk true None None None (Some stored)
      = Some (Mk_get_reply 0 (zlen stored) false md5sum sent true) ∧ concat sent = stored.
Proof.
  intros Hc Hm Hl body Hmax Hf old_part.
  pose proof (put_loop_written chunk max_put Hc Hm fd_write fuel length 0 [] old_part c ltac:(lia) Hl Hmax Hf) as Hp.
  pose proof (written_whole chunk Hc fd_write (Datatypes.length body) body 0) as Hwhole.
  cbv zeta in Hp. fold body in Hp. destruct (written _ _ _) as [whole taken]. split_and!.
  - unfold put_execute. cbn [negb]. destruct (junk <? 0); [done|]. destruct opened; cbn [negb]; [|done].
    destruct Hp as (ofs' & hashed' & Hp & Hok). fold old_part. rewrite Hp. destruct whole; [|done]. destruct (Hok eq_refl) as [-> ->].
    rewrite Z.add_0_l. cbn [negb app]. by destruct (quota (zlen body) <? 0).
  - intros Hw. specialize (Hwhole Hw ltac:(lia)). by injection Hwhole.
  - intros stored _. destruct (send_whole md5 md5sum pt chunk true stored ltac:(lia)) as (sent & -> & E & _). by exists sent.
Qed.

Lemma put_get_roundtrip_witness :
  put_execute 4 100 (λ _, @zlen ascii) (λ b, b) (λ _, 0) 20 7 true (Some "11") false true (Some "old") None "hello world"
    = Some (Mk_put_reply 0 11 (Some "hello world") (buf_to_hex "hello world") (put_stat None 11))
  ∧ put_execute 4 100 (λ ofs d, if ofs =? 4 then 2 else zlen d) (λ b, b) (λ _, 0) 20 7 true (Some "11") false true
      (Some "old") None "hello world"
    = Some (Mk_put_reply 0 11 (Some "hello rld") (buf_to_hex "hello world") (put_stat None 11))
  ∧ ∃ sent, get_request (λ b, b) "t" (λ _, inl 0) 4 true None None None (Some "hello world")
      = Some (Mk_get_reply 0 11 false "t" sent true) ∧ concat sent = "hello world".
Proof.
  pose proof (put_get_roundtrip (C := bytes) 4 100 (λ _, @zlen ascii) (λ b, b) (λ _, 0) 7 (Some "11") false true
    (Some "old") None 20 "t" (λ _, inl 0) "hello world" ltac:(lia) ltac:(lia) ltac:(vm_compute; congruence)
    ltac:(vm_compute; congruence) ltac:(vm_compute; lia)) as Hw.
  pose proof (put_get_roundtrip (C := bytes) 4 100 (λ ofs d, if ofs =? 4 then 2 else zlen d) (λ b, b) (λ _, 0) 7
    (Some "11") false true (Some "old") None 20 "t" (λ _, inl 0) "hello world" ltac:(lia) ltac:(lia)
    ltac:(vm_compute; congruence) ltac:(vm_compute; congruence) ltac:(vm_compute; lia)) as [Hs _].
  destruct Hw as (H1 & _ & H2). split_and!; [exact H1|exact Hs|]. by apply H2.
Defined.

(** An upload that is longer than the limit is refused, but the chunks before
    the limit stay in the file, in place of what the object held. *)
Lemma put_too_large {C} `{ClientIOOk C} chunk max_put (fd_write : Z → bytes → Z) md5 quota junk length old stat
    fuel (c : C) :
  1 <= chunk < 2 ^ 31 → 0 <= max_put < 2 ^ 62 → (∀ ofs d, fd_write ofs d = zlen d) → 0 <= junk →
  match length with Some l => 0 <= atoll l | None => True end →
  let body := upload_data length 0 c in
  max_put < zlen body → (Datatypes.length body < fuel)%nat →
  ∃ k, put_execute chunk max_put fd_write md5 quota fuel junk true length false true old stat c
    = Some (Mk_put_reply (- ERR_TOO_LARGE) 0 (Some (take k body)) [] (put_stat stat 0))
  ∧ Z.of_nat k <= max_put.
Proof.
  intros Hc Hm Hw Hj Hl body Hmax Hf.
  pose proof (put_loop_spec chunk max_put Hc Hm fd_write Hw fuel length 0 [] [] c ltac:(lia) Hl Hf) as Hp.
  cbv zeta in Hp. fold body in Hp. rewrite Z.add_0_l, (proj2 (Z.leb_gt _ _)) in Hp by done.
  destruct Hp as (n & k & Hp & Hn & Hle). exists k. split; [|lia].
  unfold put_execute. rewrite (proj2 (Z.ltb_ge _ _)) by done. cbn [negb]. by rewrite Hp.
Qed.

Lemma put_too_large_witness :
  ∃ k, put_execute 4 6 (λ _, @zlen ascii) (λ b, b) (λ _, 0) 20 0 true None false true (Some "old") None "hello world"
    = Some (Mk_put_reply (- ERR_TOO_LARGE) 0 (Some (take k "hello world")) [] (put_stat None 0))
  ∧ Z.of_nat k <= 6.
Proof.
  assert (E : upload_data None 0 "hello world" = "hello world") by (vm_compute; reflexivity).
  pose proof (put_too_large (C := bytes) 4 6 (λ _, @zlen ascii) (λ b, b) (λ _, 0) 0 None (Some "old") None 20
    "hello world") as Hw. cbv zeta in Hw. rewrite E in Hw.
  apply Hw; try done; vm_compute; lia.
Defined.

(** Failures the client is not told of: a file that cannot be opened, a write
    that fails, a body shorter than announced; and a quota that is exceeded
    only after the object was replaced. *)
Lemma put_silent_failures :
  pr_ret <$> put_execute 4 100 (λ _, @zlen ascii) (λ b, b) (λ _, 0) 20 0 true None false false None None "body" = Some 0
  ∧ pr_ret <$> put_execute 4 100 (λ _ _, -5) (λ b, b) (λ _, 0) 20 0 true None false true None None "body" = Some 0
  ∧ (λ r, (pr_ret r, pr_file r)) <$>
      put_execute 4 100 (λ _, @zlen ascii) (λ b, b) (λ _, 0) 20 0 true (Some "1000") false true None None "body"
    = Some (0, Some "body")
  ∧ (λ r, (pr_ret r, pr_file r)) <$>
      put_execute 4 100 (λ _, @zlen ascii) (λ b, b) (λ _, - ERR_QUOTA_EXCEEDED) 20 0 true None false true (Some "old") None "body"
    = Some (- ERR_QUOTA_EXCEEDED, Some "body").
Proof. by vm_compute. Qed.

(** ** Whole bodies *)

Lemma chunked_loop_spec {C} `{ClientIOOk C} fuel max_read need total data (c : C) :
  1 <= need <= 2 * MAX_READ_CHUNK → total = zlen data + need → 0 <= max_read < 2 ^ 30 →
  zlen data <= max_read →
  (Datatypes.length (cio_rest c) < fuel)%nat →
  chunked_loop fuel max_read need total data c = Some (inr (data ++ cio_rest c))
  ∨ chunked_loop fuel max_read need total data c = Some (inl (- ERANGE))
    ∧ max_read < zlen data + zlen (cio_rest c).
Proof.
  intros Hn Ht Hmax. revert need total data c Hn Ht.
  induction fuel as [|fuel IH]; intros need total data c Hn Ht Hd Hf; [lia|]. cbn [chunked_loop].
  destruct (cio_read_ok need c ltac:(lia)) as (c' & -> & Hrest). change (0 <? 0) with false. cbv iota.
  set (d := take (Z.to_nat need) (cio_rest c)).
  assert (Hz : zlen d <= need) by (unfold d, zlen; rewrite length_take; lia).
  assert (Hall : cio_rest c = d ++ cio_rest c') by (rewrite Hrest; symmetry; apply take_drop).
  rewrite Z.gtb_ltb, (proj2 (Z.ltb_ge _ _)) by lia.
  destruct (Z.eqb_spec (zlen d) need) as [E|E].
  - rewrite Z.gtb_ltb. unfold MAX_READ_CHUNK in *. destruct (Z.ltb_spec max_read total).
    { right. split; [done|]. rewrite Hall, zlen_app. pose proof (zlen_nonneg (cio_rest c')). lia. }
    set (need' := if need <? 128 * 1024 then s32 (need * 2) else need).
    assert (Hn' : 1 <= need' <= 2 * (128 * 1024)).
    { unfold need', s32. destruct (Z.ltb_spec need (128 * 1024)); [rewrite sgn_small by lia|]; lia. }
    pose proof (zlen_nonneg data).
    assert (s32 (total + need') = total + need') as -> by (unfold s32; rewrite sgn_small; lia).
    destruct (IH need' (total + need') (data ++ d) c' Hn') as [->|[-> Hlt]].
    + rewrite zlen_app. lia.
    + rewrite zlen_app. lia.
    + rewrite Hrest, length_drop. unfold d, zlen in E. rewrite length_take in E. lia.
    + left. by rewrite <- app_assoc, <- Hall.
    + right. split; [done|]. rewrite Hall, zlen_app. rewrite zlen_app in Hlt. lia.
  - left. f_equal. f_equal. f_equal. rewrite Hall. rewrite Hrest.
    assert (drop (Z.to_nat need) (cio_rest c) = []) as ->; [|by rewrite app_nil_r].
    apply drop_ge. unfold d, zlen in E. rewrite length_take in E. lia.
Qed.

(** C40: reading a body of unknown length never writes behind its buffer and ends;
    it gives the whole body, or refuses one that is longer than the limit. *)
Theorem read_all_chunked_spec {C} `{ClientIOOk C} fuel max_read (c : C) :
  0 <= max_read < 2 ^ 30 → (Datatypes.length (cio_rest c) < fuel)%nat →
  read_all_chunked_input fuel max_read c = Some (inr (cio_rest c))
  ∨ read_all_chunked_input fuel max_read c = Some (inl (- ERANGE)) ∧ max_read < zlen (cio_rest c).
Proof.
  intros Hm Hf. apply (chunked_loop_spec fuel max_read READ_CHUNK READ_CHUNK [] c); try done.
  unfold zlen. cbn. lia.
Qed.

Lemma read_all_chunked_spec_witness :
  read_all_chunked_input 100 1048576 "<CompleteMultipartUpload/>" = Some (inr "<CompleteMultipartUpload/>")
  ∨ read_all_chunked_input 100 1048576 "<CompleteMultipartUpload/>" = Some (inl (- ERANGE))
    ∧ 1048576 < zlen "<CompleteMultipartUpload/>".
Proof.
  pose proof (read_all_chunked_spec (C := bytes) 100 1048576 "<CompleteMultipartUpload/>") as Hw.
  cbn [cio_rest mem_io_ok] in Hw. apply Hw; [lia|vm_compute; lia].
Defined.
