(* ===== verification/Ops.v ===== *)
(** * Operations ([src/src/rgw/porting_op.cc], [porting_op.h], [rgw_multi.cc])

    The permission checks and quotas of the operations, the names and parts of
    multipart uploads, and the files the operations leave behind: uploading,
    deleting, copying.  The theorems relate the files to the map from names to
    contents a client has in mind. *)

From S2P Require Import Prelude StdMap CString Env Http Strtol Utf8 Errors RgwObj Records Acl AclS3.
From S2P Require Import RestMgr Rest SysInfo GetObj PutObj.

(** ** Permissions *)

(** [verify_op_mask]: the checks are disabled. *)
Definition verify_op_mask (o : rgw_op) : Z := 0.

(** The metadata directives of a copy. *)
Inductive attrs_mod_t := ATTRSMOD_NONE | ATTRSMOD_REPLACE.

(** [RGWCopyObj_ObjStore_S3::get_params], which [verify_permission] calls: its
    result.  The destination bucket is that of the request. *)
Definition copy_get_params (e : env_map) (args : RGWHTTPArgs) (system_request : bool)
    (src_bucket : str) (src_object : rgw_obj_key) (dest_bucket dest_object : str) : Z :=
  match env_get "HTTP_X_AMZ_COPY_SOURCE_RANGE" e with
  | Some _ => - ERR_NOT_IMPLEMENTED
  | None =>
      let source_zone := if system_request then fst (args_get (RGW_SYS_PARAM_PREFIX ++ "source-zone") args) else [] in
      let has_zone := negb (length source_zone =? 0)%nat in
      if has_zone
         && ((length (fst (args_get (RGW_SYS_PARAM_PREFIX ++ "client-id") args)) =? 0)%nat
             || (length (fst (args_get (RGW_SYS_PARAM_PREFIX ++ "op-id") args)) =? 0)%nat)
      then - EINVAL
      else
        let attrs_mod :=
          match env_get "HTTP_X_AMZ_METADATA_DIRECTIVE" e with
          | None => Some ATTRSMOD_NONE
          | Some d => if strcaseeq d "COPY" then Some ATTRSMOD_NONE
                      else if strcaseeq d "REPLACE" then Some ATTRSMOD_REPLACE
                      else if has_zone then Some ATTRSMOD_NONE
                      else None
          end in
        match attrs_mod with
        | None => - EINVAL
        | Some am =>
            if negb has_zone && streq dest_bucket src_bucket && streq dest_object (rk_name src_object)
               && (length (rk_instance src_object) =? 0)%nat
               && match am with ATTRSMOD_REPLACE => false | ATTRSMOD_NONE => true end
            then - ERR_INVALID_REQUEST
            else 0
        end
  end.

(** [verify_permission] of each operation: [junk] is what the two functions
    without a return statement give; [copy] is the result of the copy's
    parameters. *)
Definition op_verify_permission (junk copy : Z) (s : req_perm) (has_object : bool) (o : rgw_op) : Z :=
  match o with
  | ListBuckets | GetObj _ | GetBucketLocation => 0
  | ListBucket | StatBucket => if verify_bucket_permission s RGW_PERM_READ then 0 else - EACCES
  | DeleteObj | InitMultipart | CompleteMultipart =>
      if verify_bucket_permission s RGW_PERM_WRITE then 0 else - EACCES
  | GetACLs =>
      if (if has_object then verify_object_permission s RGW_PERM_READ_ACP
          else verify_bucket_permission s RGW_PERM_READ_ACP)
      then 0 else - EACCES
  | CopyObj => copy
  | PutObj | CreateBucket => junk
  end.

(** [RGWOp::init_quota]: the quotas of the bucket and of the user. *)
Definition RGW_OP_TYPE_MODIFY : Z := Z.lor RGW_OP_TYPE_WRITE RGW_OP_TYPE_DELETE.
Definition init_quota (system_request : bool) (user : RGWUserInfo) (has_object : bool)
    (bucket_info_quota : RGWQuotaInfo) (q : RGWQuotaInfo * RGWQuotaInfo) : RGWQuotaInfo * RGWQuotaInfo :=
  if system_request then q
  else if Z.land (ui_op_mask user) RGW_OP_TYPE_MODIFY =? 0 then q
  else if negb has_object then q
  else
    (if qi_enabled bucket_info_quota then bucket_info_quota
     else if qi_enabled (ui_bucket_quota user) then ui_bucket_quota user
     else fst q,
     if qi_enabled (ui_user_quota user) then ui_user_quota user else snd q).

(** ** Multipart uploads *)

Record RGWMPObj := Mk_mp { mp_oid : str; mp_prefix : str; mp_meta : str; mp_upload_id : str }.
Definition RGWMPObj_new : RGWMPObj := Mk_mp [] [] [] [].
Definition MP_META_SUFFIX : str := ".meta".
Definition mp_init (oid upload_id part_unique_str : str) : RGWMPObj :=
  match oid with
  | [] => RGWMPObj_new
  | _ => Mk_mp oid (oid ++ "." ++ part_unique_str) (oid ++ "." ++ upload_id ++ MP_META_SUFFIX) upload_id
  end.
Definition mp_get_part_num (num : Z) (m : RGWMPObj) : str := mp_prefix m ++ take 15 ("." ++ print_int num).
Definition mp_get_part (part : str) (m : RGWMPObj) : str := mp_prefix m ++ "." ++ part.

(** [meta.rfind('.', pos)] *)
Definition rfind_dot (pos : nat) (s : str) : option nat := find_last_if (char_is ".") (take (S pos) s).

(** [from_meta]: [None] for [false].  [end_pos - 1] of a leading period is -1,
    which searches the whole string. *)
Definition mp_from_meta (meta : str) : option RGWMPObj :=
  match find_last_if (char_is ".") meta with
  | None => None
  | Some end_pos =>
      match (match end_pos with O => find_last_if (char_is ".") meta | S e => rfind_dot e meta end) with
      | None => None
      | Some mid_pos =>
          let oid := substr 0 mid_pos meta in
          let upload_id := match end_pos with
                           | O => substr_from (S mid_pos) meta
                           | _ => substr (S mid_pos) (end_pos - mid_pos - 1) meta
                           end in
          Some (mp_init oid upload_id upload_id)
      end
  end.

Definition MULTIPART_UPLOAD_ID_PREFIX : str := "2~".
Definition MULTIPART_UPLOAD_ID_PREFIX_LEGACY : str := "2/".
Definition is_v2_upload_id (upload_id : str) : bool :=
  has_prefix MULTIPART_UPLOAD_ID_PREFIX (cstr upload_id)
  || has_prefix MULTIPART_UPLOAD_ID_PREFIX_LEGACY (cstr upload_id).

(** [RGWMultiPart::xml_end]: the number and the tag of a part. *)
Definition multi_part_end (o : XMLObj) : option (Z * str) :=
  num_obj ← find_first "PartNumber" o;
  etag_obj ← find_first "ETag" o;
  match xo_data num_obj with
  | [] => None
  | s => Some (atoi s, xo_data etag_obj)
  end.

(** [RGWMultiCompleteUpload::xml_end]: the parts by number; a repeated number
    keeps the last tag. *)
Definition complete_upload_end (ps : list (Z * str)) : list (Z * str) :=
  fold_left (λ m p, mset (fst p) (snd p) m) ps [].

Section complete.
Variable md5 : bytes → bytes.
Variable upload_limit : Z.
(** What the buffer of a part's digest held before. *)
Variable stack : bytes.

Definition MD5_DIGESTSIZE : Z := 16.

(** The 16 bytes hashed for a part: what [hex_to_buf] wrote, over what was
    there. *)
Definition part_digest (etag : str) : bytes :=
  let b := snd (hex_to_buf etag MD5_DIGESTSIZE) in b ++ drop (length b) (take 16 stack).

Definition complete_etag (parts : list (Z * str)) : str :=
  buf_to_hex (md5 (concat (map (λ p, part_digest (snd p)) parts))) ++ "-" ++ print_int (zlen parts).

(** [RGWCompleteMultipart::execute] after the body was read: the error or the
    tag of the object. *)
Definition complete_execute (body : bytes) (parsed : option (list (Z * str))) : Z * str :=
  match body with
  | [] => (- ERR_MALFORMED_XML, [])
  | _ =>
      match parsed with
      | None => (- ERR_MALFORMED_XML, [])
      | Some ps =>
          let parts := complete_upload_end ps in
          match parts with
          | [] => (- ERR_MALFORMED_XML, [])
          | _ => if zlen parts >? upload_limit then (- ERANGE, []) else (0, complete_etag parts)
          end
      end
  end.
End complete.

(** ** The files *)

Definition ENOTDIR : Z := 20.
Definition EISDIR : Z := 21.
Definition PROC_BUCKET_PATH : str := ".bucket".
Definition PROC_STAT : str := "stat".

(** The files by their path, those of the objects and those with the statistics
    of the buckets, and the directories. *)
Record store := Mk_store { st_files : list (str * bytes); st_dirs : list str }.

(** The parts of a path. *)
Fixpoint path_parts (s : str) : list str :=
  match s with
  | [] => [[]]
  | c :: r =>
      if char_is SLASH c then [] :: path_parts r
      else match path_parts r with p :: ps => (c :: p) :: ps | [] => [[c]] end
  end.

(** A name that neither the file system nor the shell gives a meaning of its
    own. *)
Definition plain_part (p : str) : bool :=
  negb (streq p "") && negb (streq p ".") && negb (streq p "..") && forallb bucket_char p.
Definition plain_path (s : str) : bool := forallb plain_part (path_parts s).

(** The path itself or a path below it. *)
Definition at_or_below (path p : str) : bool := streq p path || has_prefix (path ++ "/") p.

(** The command [RadosClient::mon_command] has the shell run, which it prints
    into a buffer of 256 bytes. *)
Definition rm_command (path : str) : str := "rm " ++ path ++ " -rf".
Definition RM_BUFFER : Z := 256.

Section files.
Variable buckets_root : str.
(** The [st_size] of a directory. *)
Variable dir_size : Z.

Definition object_path (bucket object : str) : str := buckets_root ++ "/" ++ bucket ++ "/" ++ object.

(** The file with the statistics of a bucket, and its directory, which the name
    of an object can be. *)
Definition stat_dir (bucket : str) : str := object_path bucket PROC_BUCKET_PATH.
Definition stat_path (bucket : str) : str := stat_dir bucket ++ "/" ++ PROC_STAT.

(** The directory a path is in. *)
Definition parent_dir (path : str) : str :=
  match find_last_if (char_is SLASH) path with Some n => take n path | None => [] end.

(** [open] for writing with [O_CREAT], as far as the directories go: the file's
    directory is there, and the path is no directory. *)
Definition can_open (path : str) (st : store) : bool :=
  bool_decide (parent_dir path ∈ st_dirs st) && negb (bool_decide (path ∈ st_dirs st)).

(** The error of a path that leads nowhere. *)
Definition no_entry (path : str) (st : store) : Z :=
  if existsb (λ p, has_prefix (fst p ++ "/") path) (st_files st) then ENOTDIR else ENOENT.

(** [::stat]: the size of what the path names. *)
Definition stat_size (path : str) (st : store) : option Z :=
  match mfind path (st_files st) with
  | Some f => Some (zlen f)
  | None => if bool_decide (path ∈ st_dirs st) then Some dir_size else None
  end.

(** Reading the statistics of a bucket, and writing them where [fopen] can:
    [allowed] is what the rights of the user make of it. *)
Definition bucket_stat (bucket : str) (st : store) : option bytes := mfind (stat_path bucket) (st_files st).
Definition write_stat (allowed : bool) (bucket : str) (f : bytes) (st : store) : store :=
  if allowed && can_open (stat_path bucket) st
  then Mk_store (mset (stat_path bucket) f (st_files st)) (st_dirs st) else st.

(** [mon_command("rm")]: the file or the whole directory goes, if [removed]: the
    result of the command is not looked at.  [None] when the command is more
    than the shell or the buffer take as it is meant. *)
Definition mon_command_rm (removed : bool) (bucket object : str) (st : store) : option store :=
  let path := object_path bucket object in
  if negb (plain_part bucket && plain_path object && (zlen (rm_command path) <? RM_BUFFER)) then None
  else if negb removed then Some st
  else Some (Mk_store (filter (λ p, at_or_below path p.1 = false) (st_files st))
               (filter (λ p, at_or_below path p = false) (st_dirs st))).

Section put.
Context {C : Type} `{ClientIO C}.
Variable chunk_size max_put_size : Z.
Variable fd_write : Z → bytes → Z.
Variable md5 : bytes → bytes.
Variable check_quota : Z → Z.

(** An upload to the store: the reply and the store afterwards.  [allowed] and
    [stat_allowed] say whether the rights of the user let the file of the object
    and that of the statistics be opened.  The statistics are those after the
    object was written, which may have been to the same file. *)
Definition store_put (fuel : nat) (junk : Z) (bucket object : str) (length : option str) (multipart : bool)
    (allowed stat_allowed : bool) (c : C) (st : store) : option (put_reply * store) :=
  let path := object_path bucket object in
  let opened := allowed && can_open path st in
  r ← put_execute chunk_size max_put_size fd_write md5 check_quota fuel junk
        (negb (bool_decide (object = []))) length multipart opened
        (mfind path (st_files st)) (bucket_stat bucket st) c;
  let st1 := Mk_store (match pr_file r with Some f => mset path f (st_files st) | None => st_files st end)
               (st_dirs st) in
  Some (r, write_stat stat_allowed bucket (put_stat (bucket_stat bucket st1) (pr_obj_size r)) st1).
End put.

(** What a deletion makes of the statistics. *)
Definition delete_stat (file : option bytes) (size : Z) : bytes :=
  let i := read_stat file in
  sync_stat (Mk_sys_info (si_display_name i) (si_user_email i) (si_max_buckets i)
    (si_bucket_max_size_kb i) (si_bucket_max_objects i) (si_bucket_enabled i)
    (si_user_max_size_kb i) (si_user_max_objects i) (si_user_enabled i)
    (u64 (si_total_size i - size)) (si_total_size_rounded i) (u64 (si_num_entries i - 1))).

(** [RGWDeleteObj::execute]: the result and the store. *)
Definition store_delete (removed stat_allowed : bool) (bucket object : str) (st : store) : option (Z * store) :=
  match stat_size (object_path bucket object) st with
  | None => Some (0, st)
  | Some size =>
      st ← mon_command_rm removed bucket object st;
      Some (0, write_stat stat_allowed bucket (delete_stat (bucket_stat bucket st) size) st)
  end.

(** [RGWCopyObj::execute]: the source is renamed; [bad_dates] says that a
    condition's date does not parse, [refused] is the error the rights of the
    user give.  [None] when the source is a directory. *)
Definition store_copy (bad_dates : bool) (refused : option Z)
    (src_bucket src_object dest_bucket dest_object : str) (st : store) : option (Z * store) :=
  if bad_dates then Some (- EINVAL, st)
  else
    let src := object_path src_bucket src_object in
    let dst := object_path dest_bucket dest_object in
    if bool_decide (src ∈ st_dirs st) then None
    else
      match mfind src (st_files st) with
      | None => Some (- no_entry src st, st)
      | Some f =>
          if negb (bool_decide (parent_dir dst ∈ st_dirs st)) then Some (- no_entry dst st, st)
          else if streq src dst then Some (0, st)
          else
            match refused with
            | Some e => Some (- e, st)
            | None =>
                if bool_decide (dst ∈ st_dirs st) then Some (- EISDIR, st)
                else Some (0, Mk_store (mset dst f (merase src (st_files st))) (st_dirs st))
            end
      end.
End files.
