(* ===== verification/OpsFacts.v ===== *)
(** * What the operations promise

    Multipart names read back; a gateway that serves uploads, downloads,
    deletions and copies refines a map from names to contents; the statistics
    of a bucket as a sum over its files. *)

From stdpp Require Import gmap.
From S2P Require Import Prelude StdMap CString Env Http Strtol Errors RgwObj Records Acl.
From S2P Require Import RestMgr Rest SysInfo GetObj PutObj Ops.

(** ** Multipart names *)

Lemma find_last_if_none p s : forallb (λ c, negb (p c)) s = true → find_last_if p s = None.
Proof.
  induction s as [|c s IH]; cbn; [done|]. intros [Hc Hs]%andb_true_iff. rewrite (IH Hs).
  by destruct (p c).
Qed.

Lemma find_last_if_app p a c b :
  p c = true → forallb (λ c, negb (p c)) b = true → find_last_if p (a ++ c :: b) = Some (length a).
Proof.
  intros Hc Hb. induction a as [|x a IH]; cbn.
  - by rewrite (find_last_if_none p b Hb), Hc.
  - by rewrite IH.
Qed.

Lemma no_dot_forallb s : "."%char ∉ s → forallb (λ c, negb (char_is "." c)) s = true.
Proof.
  intros Hs. apply forallb_elem. intros c Hc. unfold char_is.
  rewrite bool_decide_eq_false_2; [done|]. by intros ->.
Qed.

(** The name of an upload's meta object determines the object and the
    upload: reading it back gives what it was made from, as long as the upload
    id has no period. *)
Lemma mp_meta_roundtrip oid upload_id unique :
  oid ≠ [] → "."%char ∉ upload_id →
  mp_from_meta (mp_meta (mp_init oid upload_id unique)) = Some (mp_init oid upload_id upload_id).
Proof.
  intros Ho Hu. destruct oid as [|x oid']; [done|]. set (oid := x :: oid') in *.
  change (mp_meta (mp_init oid upload_id unique)) with (oid ++ "." ++ upload_id ++ MP_META_SUFFIX).
  unfold mp_from_meta.
  assert (E1 : find_last_if (char_is ".") (oid ++ "." ++ upload_id ++ MP_META_SUFFIX)
               = Some (length (oid ++ "." ++ upload_id))).
  { change MP_META_SUFFIX with ("."%char :: "meta").
    replace (oid ++ "." ++ upload_id ++ "."%char :: "meta")
      with ((oid ++ "." ++ upload_id) ++ "."%char :: "meta") by (by rewrite <- !app_assoc).
    by apply find_last_if_app. }
  rewrite E1. rewrite !length_app. cbn [length].
  replace (length oid + (1 + length upload_id))%nat with (S (length oid + length upload_id)) by lia.
  assert (E2 : rfind_dot (length oid + length upload_id) (oid ++ "." ++ upload_id ++ MP_META_SUFFIX)
               = Some (length oid)).
  { unfold rfind_dot.
    replace (oid ++ "." ++ upload_id ++ MP_META_SUFFIX) with ((oid ++ "." ++ upload_id) ++ MP_META_SUFFIX)
      by (by rewrite <- !app_assoc).
    rewrite take_app_length' by (rewrite !length_app; cbn; lia).
    by apply find_last_if_app, no_dot_forallb. }
  cbv iota beta zeta. rewrite E2.
  unfold substr. rewrite drop_0, take_app_length.
  replace (S (length oid + length upload_id) - length oid - 1)%nat with (length upload_id) by lia.
  replace (S (length oid)) with (length (oid ++ ".")) by (rewrite length_app; cbn; lia).
  rewrite (app_assoc oid "."), drop_app_length, take_app_length. done.
Qed.

Lemma mp_meta_roundtrip_witness :
  mp_from_meta (mp_meta (mp_init "photo.jpg" "2~abc" "u")) = Some (mp_init "photo.jpg" "2~abc" "2~abc").
Proof. apply mp_meta_roundtrip; [done|]. by apply (bool_decide_unpack _). Defined.

(** ** Paths *)

Lemma plain_no_slash p : plain_part p = true → SLASH ∉ p.
Proof.
  unfold plain_part. intros [_ Hc]%andb_true_iff Hin. rewrite forallb_forall in Hc.
  apply list_elem_of_In in Hin. specialize (Hc _ Hin). done.
Qed.

Lemma path_parts_plain p : SLASH ∉ p → path_parts p = [p].
Proof.
  induction p as [|c p IH]; [done|]. intros [Hc Hp]%not_elem_of_cons. cbn.
  rewrite (IH Hp). unfold char_is. by rewrite bool_decide_eq_false_2.
Qed.

Lemma plain_part_path p : plain_part p = true → plain_path p = true.
Proof. intros Hp. unfold plain_path. rewrite path_parts_plain by by apply plain_no_slash. cbn. by rewrite Hp. Qed.

Lemma split_slash (a a' r r' : str) :
  SLASH ∉ a → SLASH ∉ a' → a ++ SLASH :: r = a' ++ SLASH :: r' → a = a' ∧ r = r'.
Proof.
  revert a'. induction a as [|c a IH]; intros [|c' a'] Ha Ha' E; cbn in *.
  - by injection E.
  - injection E as <- _. by apply not_elem_of_cons in Ha' as [[] _].
  - injection E as -> _. by apply not_elem_of_cons in Ha as [[] _].
  - injection E as -> E. apply not_elem_of_cons in Ha as [_ Ha]. apply not_elem_of_cons in Ha' as [_ Ha'].
    by destruct (IH a' Ha Ha' E) as [-> ->].
Qed.

Lemma has_prefix_spec p s : has_prefix p s = true → ∃ r, s = p ++ r.
Proof.
  revert s. induction p as [|c p IH]; intros s Hs; [by exists s|]. destruct s as [|d s]; [done|]. cbn in Hs.
  destruct (bool_decide_reflect (c = d)) as [->|] in Hs; [|done]. destruct (IH s Hs) as [r ->]. by exists r.
Qed.

Lemma streq_true s t : streq s t = true ↔ s = t.
Proof. apply bool_decide_eq_true. Qed.
Lemma streq_false s t : streq s t = false ↔ s ≠ t.
Proof. apply bool_decide_eq_false. Qed.

Lemma mfind_filter {V} (P : str → bool) k (m : list (str * V)) :
  mfind k (filter (λ p, P p.1 = false) m) = if P k then None else mfind k m.
Proof.
  induction m as [|[l v] m IH]; [by destruct (P k)|]. rewrite filter_cons. cbn [fst].
  destruct (decide (P l = false)) as [E|E]; cbn [mfind].
  - destruct (compare k l) eqn:Ec; [apply compare_eq in Ec as ->; by rewrite E|done..].
  - rewrite IH. destruct (compare k l) eqn:Ec; [apply compare_eq in Ec as ->; by destruct (P l)|done..].
Qed.

Lemma mset_elem {V} (k : str) (v : V) m p :
  p ∈ mset k v m → p = (k, v) ∨ p ∈ m.
Proof.
  induction m as [|[k' v'] m IH]; cbn.
  - intros ->%list_elem_of_singleton. by left.
  - destruct (compare k k') eqn:E; rewrite !elem_of_cons; [|tauto|].
    + apply compare_eq in E as <-. tauto.
    + intros [->|Hp]; [tauto|]. destruct (IH Hp); tauto.
Qed.

Lemma mset_same {V} (k : str) (v : V) m : msorted m → mfind k m = Some v → mset k v m = m.
Proof.
  induction m as [|[k' v'] m IH]; cbn; [done|]. intros [Hk Hm]. destruct (compare k k') eqn:E.
  - apply compare_eq in E as <-. by intros [= ->].
  - intros Hf. rewrite (mfind_Forall_Lt k m) in Hf; [done|].
    eapply Forall_impl; [exact Hk|]. intros p Hp. by eapply compare_lt_trans.
  - intros Hf. by rewrite IH.
Qed.

Lemma merase_elem {V} (k : str) (m : list (str * V)) p : p ∈ merase k m → p ∈ m.
Proof.
  induction m as [|[k' v'] m IH]; cbn; [done|].
  destruct (compare k k'); rewrite !elem_of_cons; tauto.
Qed.

Lemma msorted_filter {V} (P : str * V → Prop) `{∀ p, Decision (P p)} m : msorted m → msorted (filter P m).
Proof.
  induction m as [|[k v] m IH]; [done|]. intros [Hk Hm]. rewrite filter_cons.
  destruct (decide (P (k, v))); [|by apply IH]. split; [|by apply IH].
  apply Forall_forall. intros q [_ Hp]%list_elem_of_filter. rewrite Forall_forall in Hk. by apply Hk.
Qed.

(** ** The gateway and the map it stands for *)

Inductive request :=
  | RGet (bucket object : str)
  | RPut (bucket object : str) (body : bytes)
  | RDelete (bucket object : str)
  | RCopy (src_bucket src_object dest_bucket dest_object : str).

(** A request and what the code around it makes of it: the error the rights of
    the user give for the file, if any; the value [get_params], which has no
    return statement, happens to give; the answer of the quota check; and whether
    the rights let the statistics be written. *)
Record event := Mk_event {
  ev_request : request; ev_refused : option Z; ev_junk : Z; ev_quota : Z; ev_stat : bool
}.
Definition allowed (e : event) : bool := match ev_refused e with None => true | Some _ => false end.
Definition plain_event (r : request) : event := Mk_event r None 0 0 true.

(** The specification: the contents of the objects by bucket and name, over a
    fixed set of buckets. *)
Abbreviation spec_state := (gmap (str * str) bytes).
Definition answer : Type := Z * bytes.

Definition spec_step (B : gset str) (e : event) (m : spec_state) : answer * spec_state :=
  match ev_request e with
  | RGet b o =>
      (match m !! (b, o) with
       | Some f => if allowed e then (0, f) else (- ERR_NOT_FOUND, [])
       | None => (- ERR_NOT_FOUND, [])
       end, m)
  | RPut b o body =>
      if ev_junk e <? 0 then ((ev_junk e, []), m)
      else if allowed e && bool_decide (b ∈ B) then ((ev_quota e, []), <[(b, o) := body]> m)
      else ((0, []), m)
  | RDelete b o => ((0, []), if allowed e then delete (b, o) m else m)
  | RCopy sb so db dobj =>
      match m !! (sb, so) with
      | None => ((- ENOENT, []), m)
      | Some f =>
          if negb (bool_decide (db ∈ B)) then ((- ENOENT, []), m)
          else if bool_decide ((sb, so) = (db, dobj)) then ((0, []), m)
          else match ev_refused e with
               | Some err => ((- err, []), m)
               | None => ((0, []), <[(db, dobj) := f]> (delete (sb, so) m))
               end
      end
  end.

Fixpoint spec_run (B : gset str) (es : list event) (m : spec_state) : list answer * spec_state :=
  match es with
  | [] => ([], m)
  | e :: es => let '(a, m) := spec_step B e m in let '(l, m) := spec_run B es m in (a :: l, m)
  end.

Section gateway.
Variable buckets_root : str.
Variable dir_size chunk max_put : Z.
Variable fd_write : Z → bytes → Z.
Variable md5 : bytes → bytes.
Variable md5sum : str.
Variable parse_time : str → Z + Z.
Variable B : gset str.

(** One request of each kind, the upload with its length. *)
Definition serve (e : event) (st : store) : option (answer * store) :=
  match ev_request e with
  | RGet b o =>
      g ← get_request md5 md5sum parse_time chunk true None None None
            (if allowed e then mfind (object_path buckets_root b o) (st_files st) else None);
      Some ((gr_ret g, concat (gr_body g)), st)
  | RPut b o body =>
      '(p, st) ← store_put buckets_root chunk max_put fd_write md5 (λ _, ev_quota e) (S (length body)) (ev_junk e) b o
                   (Some (print_int (zlen body))) false (allowed e) (ev_stat e) body st;
      Some ((pr_ret p, []), st)
  | RDelete b o =>
      '(r, st) ← store_delete buckets_root dir_size (allowed e) (ev_stat e) b o st;
      Some ((r, []), st)
  | RCopy sb so db dobj =>
      '(r, st) ← store_copy buckets_root false (ev_refused e) sb so db dobj st;
      Some ((r, []), st)
  end.

Fixpoint serve_all (es : list event) (st : store) : option (list answer * store) :=
  match es with
  | [] => Some ([], st)
  | e :: es => '(a, st) ← serve e st; '(l, st) ← serve_all es st; Some (a :: l, st)
  end.

(** Names that stand for themselves as files: no separators, no characters of
    the shell, short enough for its command, and not that of the directory with
    the bucket's statistics. *)
Definition flat (b o : str) : Prop :=
  plain_part b = true ∧ plain_part o = true ∧ o ≠ PROC_BUCKET_PATH
  ∧ zlen (rm_command (object_path buckets_root b o)) < RM_BUFFER.

Definition request_ok (r : request) : Prop :=
  match r with
  | RGet b o | RDelete b o => flat b o
  | RPut b o body => flat b o ∧ zlen body <= max_put
  | RCopy sb so db dobj => flat sb so ∧ flat db dobj
  end.
Definition event_ok (e : event) : Prop := request_ok (ev_request e).

(** The files hold the map: every object is a file of its name, every other file
    holds the statistics of a bucket, each bucket has its directory, and no
    directory is in the way of an object. *)
Record store_rel (st : store) (m : spec_state) : Prop := {
  sr_find b o : flat b o → mfind (object_path buckets_root b o) (st_files st) = m !! (b, o);
  sr_sorted : msorted (st_files st);
  sr_flat p f : (p, f) ∈ st_files st →
    (∃ b o, flat b o ∧ p = object_path buckets_root b o) ∨ ∃ b, plain_part b = true ∧ p = stat_path buckets_root b;
  sr_dirs b o : flat b o → object_path buckets_root b o ∉ st_dirs st;
  sr_buckets b : plain_part b = true → (buckets_root ++ "/" ++ b ∈ st_dirs st ↔ b ∈ B)
}.

#[local] Abbreviation opath := (object_path buckets_root).
#[local] Abbreviation spath := (stat_path buckets_root).

Lemma find_last_slash (a p : str) : SLASH ∉ p → find_last_if (char_is SLASH) (a ++ SLASH :: p) = Some (length a).
Proof.
  intros Hp. apply find_last_if_app; [done|]. apply forallb_elem. intros c Hc. unfold char_is.
  rewrite bool_decide_eq_false_2; [done|]. by intros ->.
Qed.

Lemma object_path_split b o : opath b o = (buckets_root ++ "/" ++ b) ++ SLASH :: o.
Proof. unfold object_path. by rewrite <- !app_assoc. Qed.

Lemma parent_object b o : plain_part o = true → parent_dir (opath b o) = buckets_root ++ "/" ++ b.
Proof.
  intros Ho. unfold parent_dir. rewrite object_path_split, find_last_slash by by apply plain_no_slash.
  apply take_app_length.
Qed.

Lemma parent_stat b : parent_dir (spath b) = stat_dir buckets_root b.
Proof.
  unfold parent_dir, stat_path. change ("/" ++ PROC_STAT) with (SLASH :: PROC_STAT).
  rewrite find_last_slash by by apply (bool_decide_unpack _). apply take_app_length.
Qed.

(** Two paths below the root are the same only if their parts are. *)
Lemma paths_inj b o b' o' : plain_part b = true → plain_part b' = true → opath b o = opath b' o' → b = b' ∧ o = o'.
Proof.
  intros Hb Hb' E. unfold object_path in E. apply app_inv_head in E.
  injection E as E. apply split_slash in E; auto using plain_no_slash.
Qed.

Lemma object_path_inj b o b' o' : flat b o → flat b' o' → opath b o = opath b' o' → b = b' ∧ o = o'.
Proof. intros (Hb & _) (Hb' & _). by apply paths_inj. Qed.

Lemma object_path_ne b o b' o' : flat b o → flat b' o' → (b, o) ≠ (b', o') → opath b o ≠ opath b' o'.
Proof. intros Hf Hf' Hne E. by destruct (object_path_inj _ _ _ _ Hf Hf' E) as [-> ->]. Qed.

Lemma spath_object b : spath b = opath b (PROC_BUCKET_PATH ++ "/" ++ PROC_STAT).
Proof. unfold stat_path, stat_dir, object_path. by rewrite <- !app_assoc. Qed.

Lemma stat_path_inj b b' : plain_part b = true → plain_part b' = true → spath b = spath b' → b = b'.
Proof. intros Hb Hb'. rewrite !spath_object. intros E. by apply paths_inj in E as [-> _]. Qed.

Lemma stat_not_object b b' o : plain_part b = true → flat b' o → spath b ≠ opath b' o.
Proof.
  intros Hb (Hb' & Ho & _) E. rewrite spath_object in E. apply paths_inj in E as [_ <-]; [|done..].
  by vm_compute in Ho.
Qed.

(** What lies at or below the path of an object: only the object. *)
Lemma below_path b o b' r : flat b o → plain_part b' = true →
  at_or_below (opath b o) (opath b' r) = true → b = b' ∧ (r = o ∨ ∃ r', r = o ++ SLASH :: r').
Proof.
  intros (Hb & _) Hb'. unfold at_or_below. intros [E|E]%orb_true_iff.
  { apply streq_true in E. apply paths_inj in E as [-> ->]; [|done..]. split; [done|by left]. }
  apply has_prefix_spec in E as [t E]. unfold object_path in E.
  rewrite <- !app_assoc in E. apply app_inv_head in E. injection E as E.
  apply split_slash in E as [-> E]; auto using plain_no_slash. split; [done|]. right. by exists t.
Qed.

Lemma below_flat b o b' o' : flat b o → flat b' o' → at_or_below (opath b o) (opath b' o') = true → b = b' ∧ o = o'.
Proof.
  intros Hf Hf' E. pose proof Hf' as (Hb' & Ho' & _).
  destruct (below_path b o b' o' Hf Hb' E) as [-> [->|[r ->]]]; [done|].
  destruct (plain_no_slash _ Ho'). apply elem_of_app. right. left.
Qed.

Lemma stat_not_below b b' o : plain_part b = true → flat b' o → at_or_below (opath b' o) (spath b) = false.
Proof.
  intros Hb Hf. destruct (at_or_below _ _) eqn:E; [|done]. rewrite spath_object in E.
  pose proof Hf as (_ & Ho & Hne & _).
  destruct (below_path b' o b _ Hf Hb E) as [-> [Eo|[r Eo]]]; [rewrite <- Eo in Ho; by vm_compute in Ho|].
  change (PROC_BUCKET_PATH ++ "/" ++ PROC_STAT) with (PROC_BUCKET_PATH ++ SLASH :: PROC_STAT) in Eo.
  apply split_slash in Eo as [Eo _]; [by subst o|by apply (bool_decide_unpack _)|by apply plain_no_slash].
Qed.

Lemma bucket_not_below b b' o : flat b' o → at_or_below (opath b' o) (buckets_root ++ "/" ++ b) = false ∨ SLASH ∈ b.
Proof.
  intros (Hb' & Ho & _). destruct (at_or_below _ _) eqn:E; [right|by left].
  unfold at_or_below in E. apply orb_true_iff in E as [E|E].
  - apply streq_true in E. unfold object_path in E. apply app_inv_head in E. injection E as ->.
    apply elem_of_app. right. left.
  - apply has_prefix_spec in E as [t E]. unfold object_path in E. rewrite <- !app_assoc in E.
    apply app_inv_head in E. injection E as ->. apply elem_of_app. right. left.
Qed.

Lemma at_or_below_self p : at_or_below p p = true.
Proof. unfold at_or_below. by rewrite (proj2 (streq_true p p)). Qed.

Lemma find_deleted b o b' o' (st : store) :
  flat b o → flat b' o' →
  mfind (opath b' o') (filter (λ p, at_or_below (opath b o) p.1 = false) (st_files st))
  = if bool_decide ((b, o) = (b', o')) then None else mfind (opath b' o') (st_files st).
Proof.
  intros Hf Hf'. rewrite mfind_filter.
  case_bool_decide as E; [injection E as -> ->; by rewrite at_or_below_self|].
  destruct (at_or_below _ _) eqn:Eb; [|done]. destruct (below_flat b o b' o' Hf Hf' Eb) as [-> ->]. done.
Qed.

(** An object's path leads through no file. *)
Lemma flat_no_entry b o st m : flat b o → store_rel st m → no_entry (opath b o) st = ENOENT.
Proof.
  intros Hf Hrel. unfold no_entry. destruct (existsb _ _) eqn:E; [|done].
  apply existsb_exists in E as ([p f] & Hin & Hp). apply list_elem_of_In in Hin. cbn [fst] in Hp.
  assert (Hb : at_or_below p (opath b o) = true) by (unfold at_or_below; by rewrite Hp, orb_true_r).
  destruct (sr_flat _ _ Hrel _ _ Hin) as [(b1 & o1 & Hf1 & ->)|(b1 & Hb1 & ->)].
  - destruct (below_flat _ _ _ _ Hf1 Hf Hb) as [-> ->]. apply has_prefix_spec in Hp as [t Hp].
    apply (f_equal length) in Hp. rewrite !length_app in Hp. cbn in Hp. lia.
  - apply has_prefix_spec in Hp as [t Hp]. rewrite spath_object in Hp. unfold object_path in Hp.
    rewrite <- !app_assoc in Hp. apply app_inv_head in Hp. injection Hp as Hp. destruct Hf as (H1 & H2 & _).
    apply split_slash in Hp as [-> Hp]; auto using plain_no_slash.
    destruct (plain_no_slash _ H2). rewrite Hp. do 7 apply list_elem_of_further. left.
Qed.

Lemma can_open_object b o st m : flat b o → store_rel st m → can_open (opath b o) st = bool_decide (b ∈ B).
Proof.
  intros Hf Hrel. unfold can_open. pose proof Hf as (Hb & Ho & _).
  rewrite (parent_object b o Ho), (bool_decide_eq_false_2 (opath b o ∈ _)) by by apply (sr_dirs _ _ Hrel).
  rewrite andb_true_r. apply bool_decide_ext. by apply (sr_buckets _ _ Hrel).
Qed.

(** Files of the statistics do not count. *)
Lemma write_stat_rel ok b f st m : plain_part b = true → store_rel st m → store_rel (write_stat buckets_root ok b f st) m.
Proof.
  intros Hb Hrel. unfold write_stat. destruct (_ && _); [|done]. destruct Hrel as [Hfind Hsorted Hflat Hdirs Hbk].
  split; cbn [st_files st_dirs]; try done.
  - intros b' o' Hf'. rewrite mfind_mset_ne by (by apply stat_not_object). by apply Hfind.
  - by apply mset_sorted.
  - intros p f' Hin. apply mset_elem in Hin as [[= -> ->]|Hin]; [right; by exists b|by eapply Hflat].
Qed.

Lemma mset_rel b o f st m :
  flat b o → store_rel st m → store_rel (Mk_store (mset (opath b o) f (st_files st)) (st_dirs st)) (<[(b, o) := f]> m).
Proof.
  intros Hf [Hfind Hsorted Hflat Hdirs Hbk]. split; cbn [st_files st_dirs]; try done.
  - intros b' o' Hf'. destruct (decide ((b, o) = (b', o'))) as [E|E].
    + injection E as -> ->. by rewrite mfind_mset_eq, lookup_insert_eq.
    + rewrite lookup_insert_ne, mfind_mset_ne by (done || by apply object_path_ne). by apply Hfind.
  - by apply mset_sorted.
  - intros p f' Hin. apply mset_elem in Hin as [[= -> ->]|Hin]; [left; by exists b, o|by eapply Hflat].
Qed.

Lemma merase_rel b o st m :
  flat b o → store_rel st m → store_rel (Mk_store (merase (opath b o) (st_files st)) (st_dirs st)) (delete (b, o) m).
Proof.
  intros Hf [Hfind Hsorted Hflat Hdirs Hbk]. split; cbn [st_files st_dirs]; try done.
  - intros b' o' Hf'. destruct (decide ((b, o) = (b', o'))) as [E|E].
    + injection E as -> ->. by rewrite mfind_merase_eq, lookup_delete_eq.
    + rewrite lookup_delete_ne, mfind_merase_ne by (done || by apply object_path_ne). by apply Hfind.
  - by apply merase_sorted.
  - intros p f' Hin%merase_elem. by eapply Hflat.
Qed.

Lemma rm_rel b o st m :
  flat b o → store_rel st m →
  store_rel (Mk_store (filter (λ p, at_or_below (opath b o) p.1 = false) (st_files st))
               (filter (λ p, at_or_below (opath b o) p = false) (st_dirs st))) (delete (b, o) m).
Proof.
  intros Hf [Hfind Hsorted Hflat Hdirs Hbk]. split; cbn [st_files st_dirs].
  - intros b' o' Hf'. rewrite find_deleted by done. rewrite lookup_delete.
    case_bool_decide as E; [by rewrite decide_True|]. rewrite decide_False by done. by apply Hfind.
  - by apply msorted_filter.
  - intros p f' [_ Hin]%list_elem_of_filter. by eapply Hflat.
  - intros b' o' Hf' [_ Hin]%list_elem_of_filter. by eapply Hdirs.
  - intros b' Hb'. rewrite <- (Hbk b' Hb'). rewrite list_elem_of_filter.
    destruct (bucket_not_below b' b o Hf) as [->|Hs]; [tauto|by destruct (plain_no_slash _ Hb')].
Qed.

Hypothesis chunk_ok : 1 <= chunk < 2 ^ 31.
Hypothesis max_put_ok : 0 <= max_put < 2 ^ 62.
Hypothesis full_writes : ∀ ofs d, fd_write ofs d = zlen d.

Lemma sent_length (body : bytes) : zlen body <= max_put → atoll (print_int (zlen body)) = zlen body.
Proof.
  intros Hb. pose proof (zlen_nonneg body).
  apply decimal_digits_back. unfold LLONG_MIN, LLONG_MAX. lia.
Qed.

Lemma upload_whole (body : bytes) : zlen body <= max_put → upload_data (Some (print_int (zlen body))) 0 body = body.
Proof.
  intros Hb. unfold upload_data. rewrite sent_length, Z.sub_0_r by done. apply firstn_all2.
  unfold zlen. change (cio_rest body) with body. lia.
Qed.

(** The object and the size an upload leaves behind. *)
Definition put_done (e : event) (b o : str) (body : bytes) (st : store) : option bytes * Z :=
  if ev_junk e <? 0 then (None, 0)
  else if allowed e && can_open (opath b o) st then (Some body, zlen body) else (None, 0).

Lemma serve_put e b o body st :
  ev_request e = RPut b o body → plain_part o = true → zlen body <= max_put → msorted (st_files st) →
  let '(stored, size) := put_done e b o body st in
  let st1 := match stored with
             | Some f => Mk_store (mset (opath b o) f (st_files st)) (st_dirs st) | None => st end in
  serve e st
  = Some ((if ev_junk e <? 0 then ev_junk e else match stored with Some _ => ev_quota e | None => 0 end, []),
          write_stat buckets_root (ev_stat e) b (put_stat (bucket_stat buckets_root b st1) size) st1).
Proof.
  intros Er Ho Hb Hs. pose proof (zlen_nonneg body).
  pose proof (put_loop_spec chunk max_put chunk_ok max_put_ok fd_write full_writes (S (length body))
    (Some (print_int (zlen body))) 0 [] [] body ltac:(lia)) as Hp.
  rewrite upload_whole in Hp by done. cbv zeta in Hp.
  rewrite sent_length, Z.add_0_l, (proj2 (Z.leb_le _ _)) in Hp by done.
  assert (Hsame : Mk_store (match mfind (opath b o) (st_files st) with
            Some f => mset (opath b o) f (st_files st) | None => st_files st end) (st_dirs st) = st).
  { destruct (mfind _ _) as [f|] eqn:E; [rewrite mset_same by done|]; by destruct st. }
  unfold put_done, serve. rewrite Er. unfold store_put, put_execute. rewrite bool_decide_eq_false_2 by (by intros ->).
  cbn [negb]. destruct (ev_junk e <? 0); [cbn [mbind option_bind pr_file pr_obj_size pr_ret]; by rewrite Hsame|].
  destruct (allowed e && can_open (opath b o) st); cbn [negb].
  - rewrite Hp by (done || lia). cbn [mbind option_bind app]. by destruct (ev_quota e <? 0).
  - cbn [mbind option_bind pr_file pr_obj_size pr_ret]. by rewrite Hsame.
Qed.

Lemma serve_get e b o st :
  ev_request e = RGet b o →
  serve e st
  = Some (match mfind (opath b o) (st_files st) with
          | Some f => if allowed e then (0, f) else (- ERR_NOT_FOUND, [])
          | None => (- ERR_NOT_FOUND, []) end, st).
Proof.
  intros Er. unfold serve. rewrite Er. destruct (allowed e), (mfind _ _) as [f|]; try done.
  destruct (send_whole md5 md5sum parse_time chunk true f ltac:(lia)) as (sent & -> & E & _).
  cbn [mbind option_bind gr_ret gr_body]. by rewrite E.
Qed.

Lemma serve_delete e b o st m :
  ev_request e = RDelete b o → flat b o → store_rel st m →
  serve e st = Some ((0, []),
    match mfind (opath b o) (st_files st) with
    | None => st
    | Some f =>
        let st1 := if allowed e then
            Mk_store (filter (λ p, at_or_below (opath b o) p.1 = false) (st_files st))
              (filter (λ p, at_or_below (opath b o) p = false) (st_dirs st)) else st in
        write_stat buckets_root (ev_stat e) b (delete_stat (bucket_stat buckets_root b st1) (zlen f)) st1
    end).
Proof.
  intros Er Hf Hrel. pose proof Hf as (H1 & H2 & _ & H3). unfold serve. rewrite Er. unfold store_delete, stat_size.
  rewrite bool_decide_eq_false_2 by by apply (sr_dirs _ _ Hrel).
  destruct (mfind _ _) as [f|]; [|done]. unfold mon_command_rm.
  rewrite H1, (plain_part_path _ H2), (proj2 (Z.ltb_lt _ _)) by done. cbn [andb negb].
  by destruct (allowed e).
Qed.

Lemma serve_copy e sb so db dobj st m :
  ev_request e = RCopy sb so db dobj → flat sb so → flat db dobj → store_rel st m →
  ∃ st', serve e st = Some (fst (spec_step B e m), st') ∧ store_rel st' (snd (spec_step B e m)).
Proof.
  intros Er Hs Hd Hrel. unfold serve, spec_step. rewrite Er. unfold store_copy.
  rewrite (bool_decide_eq_false_2 (opath sb so ∈ _)) by by apply (sr_dirs _ _ Hrel).
  rewrite (sr_find _ _ Hrel sb so Hs). pose proof Hd as (Hdb & Hdo & _).
  destruct (m !! (sb, so)) as [f|] eqn:Em; cbn [mbind option_bind].
  2:{ rewrite (flat_no_entry _ _ _ m) by done. by exists st. }
  rewrite (parent_object db dobj Hdo), (bool_decide_ext _ _ (sr_buckets _ _ Hrel db Hdb)).
  destruct (bool_decide (db ∈ B)); cbn [negb].
  2:{ rewrite (flat_no_entry _ _ _ m) by done. by exists st. }
  destruct (decide ((sb, so) = (db, dobj))) as [E|E].
  { injection E as -> ->. rewrite (proj2 (streq_true _ _)), bool_decide_eq_true_2 by done. by exists st. }
  rewrite (proj2 (streq_false _ _)), (bool_decide_eq_false_2 (_ = _)) by (done || by apply object_path_ne).
  destruct (ev_refused e) as [err|]; [by exists st|].
  rewrite (bool_decide_eq_false_2 (opath db dobj ∈ _)) by by apply (sr_dirs _ _ Hrel).
  eexists. split; [reflexivity|]. cbn [snd].
  apply (mset_rel db dobj f (Mk_store (merase (opath sb so) (st_files st)) (st_dirs st))); [done|]. by apply merase_rel.
Qed.

(** One request. *)
Lemma serve_step e st m :
  event_ok e → store_rel st m →
  ∃ st', serve e st = Some (fst (spec_step B e m), st') ∧ store_rel st' (snd (spec_step B e m)).
Proof.
  intros Hr Hrel. unfold event_ok in Hr. destruct (ev_request e) as [b o|b o body|b o|sb so db dobj] eqn:Er; cbn [request_ok] in Hr.
  - rewrite (serve_get e b o), (sr_find _ _ Hrel) by done. unfold spec_step. rewrite Er. by exists st.
  - destruct Hr as [Hf Hb]. pose proof Hf as (Hpb & Ho & _).
    pose proof (serve_put e b o body st Er Ho Hb (sr_sorted _ _ Hrel)) as Hs.
    unfold put_done in Hs. rewrite (can_open_object b o st m Hf Hrel) in Hs. unfold spec_step. rewrite Er.
    destruct (ev_junk e <? 0); [rewrite Hs|destruct (allowed e && _); rewrite Hs];
      (eexists; split; [reflexivity|]); apply write_stat_rel; try done. by apply mset_rel.
  - rewrite (serve_delete e b o st m), (sr_find _ _ Hrel) by done. unfold spec_step. rewrite Er.
    eexists. split; [reflexivity|]. cbn [snd]. destruct (m !! (b, o)) as [f|] eqn:Em.
    + apply write_stat_rel; [apply Hr|]. destruct (allowed e); [by apply rm_rel|done].
    + destruct (allowed e); [by rewrite delete_id|done].
  - destruct Hr. by eapply serve_copy.
Qed.

Lemma serve_all_refines es st m :
  Forall event_ok es → store_rel st m →
  ∃ st', serve_all es st = Some (fst (spec_run B es m), st') ∧ store_rel st' (snd (spec_run B es m)).
Proof.
  intros Hes. revert st m. induction Hes as [|e es He _ IH]; intros st m Hrel; cbn; [by exists st|].
  destruct (serve_step e st m He Hrel) as (st1 & -> & Hrel1).
  destruct (spec_step B e m) as [a m1]. cbn [fst snd mbind option_bind] in *.
  destruct (IH st1 m1 Hrel1) as (st2 & -> & Hrel2).
  destruct (spec_run B es m1) as [l m2]. by exists st2.
Qed.
End gateway.

(** C1: the gateway refines a map from names to contents.  Served one after the
    other, uploads, downloads, deletions and copies answer as the map does,
    whatever was stored before, and leave files that again stand for it: a
    download gives the bytes of the last upload, a deletion and an overwriting
    upload touch no other object, and a copy moves its source.  An upload whose
    file cannot be opened, because the bucket is not there or the rights of the
    user do not allow it, is answered with 0 and stores nothing; one that
    exceeds the quota is refused and stored; a copy into a bucket that is not
    there fails.  The names have no slashes or characters of the shell, leave the
    command of a deletion below 256 bytes, and [.bucket] is not the name of an
    object; bodies are within the limit, and every write to an opened file takes
    all it is given. *)
Theorem gateway_refines root dir_size chunk max_put fd_write md5 md5sum pt B es st m :
  1 <= chunk < 2 ^ 31 → 0 <= max_put < 2 ^ 62 → (∀ ofs d, fd_write ofs d = zlen d) →
  Forall (event_ok root max_put) es → store_rel root B st m →
  ∃ st', serve_all root dir_size chunk max_put fd_write md5 md5sum pt es st
         = Some (fst (spec_run B es m), st')
       ∧ store_rel root B st' (snd (spec_run B es m)).
Proof. intros. by apply serve_all_refines. Qed.

(** A download, and the same requests with the directory of [archive] missing:
    uploads there vanish, copies fail. *)
Definition demo_events : list event :=
  map plain_event
    [RPut "photos" "cat" "meow"; RPut "photos" "dog" "woof"; RGet "photos" "cat";
     RCopy "photos" "cat" "photos" "cat1"; RGet "photos" "cat"; RDelete "photos" "dog"; RGet "photos" "cat1";
     RPut "archive" "cat" "meow"; RGet "archive" "cat"; RCopy "photos" "cat1" "archive" "cat"]
  ++ [Mk_event (RPut "photos" "cat1" "lost") (Some 13) 0 0 true; plain_event (RGet "photos" "cat1")].
Definition demo_dirs : list str := ["/fisamba/photos"; "/fisamba/photos/.bucket"].

Lemma demo_dirs_in p : p ∈ demo_dirs → p = "/fisamba/photos" ∨ p = "/fisamba/photos/.bucket".
Proof. unfold demo_dirs. rewrite !elem_of_cons, elem_of_nil. tauto. Qed.

Lemma demo_dirs_object b o : flat "/fisamba" b o → object_path "/fisamba" b o ∉ demo_dirs.
Proof.
  intros Hf [E|E]%demo_dirs_in; pose proof Hf as (Hb & Ho & Hne & _).
  - unfold object_path in E. apply (app_inv_head "/fisamba/" (b ++ "/" ++ o) "photos") in E.
    assert (Hin : SLASH ∈ ("photos" : str)) by (rewrite <- E; apply elem_of_app; right; left).
    revert Hin. by apply (bool_decide_unpack _).
  - change ("/fisamba/photos/.bucket") with (object_path "/fisamba" "photos" ".bucket") in E.
    apply paths_inj in E as [_ ->]; [by apply Hne|done..].
Qed.

Lemma demo_dirs_bucket b : plain_part b = true → ("/fisamba" ++ "/" ++ b ∈ demo_dirs ↔ b ∈ ({["photos" : str]} : gset str)).
Proof.
  intros Hb. rewrite elem_of_singleton. split; [|intros ->; left].
  intros [E|E]%demo_dirs_in; [by injection E|].
  apply (app_inv_head "/fisamba/" b "photos/.bucket") in E. subst b. by vm_compute in Hb.
Qed.

Lemma store_rel_empty : store_rel "/fisamba" {["photos" : str]} (Mk_store [] demo_dirs) ∅.
Proof.
  split; [done|done|intros p f []%not_elem_of_nil|apply demo_dirs_object|apply demo_dirs_bucket].
Qed.

Lemma gateway_refines_witness :
  ∃ st', serve_all "/fisamba" 4096 3 100 (λ _, @zlen ascii) (λ b, b) "t" (λ _, inl 0) demo_events (Mk_store [] demo_dirs)
         = Some ([(0, []); (0, []); (0, "meow" : bytes); (0, []); (- ERR_NOT_FOUND, []); (0, []); (0, "meow" : bytes);
                  (0, []); (- ERR_NOT_FOUND, []); (- ENOENT, []); (0, []); (0, "meow" : bytes)], st')
       ∧ store_rel "/fisamba" {["photos" : str]} st' (snd (spec_run {["photos" : str]} demo_events ∅)).
Proof.
  assert (E : fst (spec_run {["photos" : str]} demo_events ∅)
    = [(0, []); (0, []); (0, "meow" : bytes); (0, []); (- ERR_NOT_FOUND, []); (0, []); (0, "meow" : bytes);
       (0, []); (- ERR_NOT_FOUND, []); (- ENOENT, []); (0, []); (0, "meow" : bytes)])
    by (vm_compute; reflexivity).
  rewrite <- E.
  apply (gateway_refines "/fisamba" 4096 3 100 (λ _, @zlen ascii) (λ b, b) "t" (λ _, inl 0) {["photos" : str]} demo_events
    (Mk_store [] demo_dirs) ∅); [lia|lia|done| |apply store_rel_empty].
  repeat constructor; vm_compute; done.
Defined.


(** ** Statistics *)

Definition bucket_dir (root b : str) : str := root ++ "/" ++ b ++ "/".
(** The files of a bucket, without that of its statistics. *)
Definition in_bucket (root b p : str) : bool := has_prefix (bucket_dir root b) p && negb (streq p (stat_path root b)).
Definition bucket_files (root b : str) (st : store) : list (str * bytes) :=
  filter (λ p, in_bucket root b p.1 = true) (st_files st).
Definition total_bytes (l : list (str * bytes)) : Z := foldr (λ p z, zlen p.2 + z) 0 l.

(** The statistics of a bucket say what its files are. *)
Definition accurate (root : str) (st : store) (b : str) : Prop :=
  let i := read_stat (bucket_stat root b st) in
  si_total_size i = total_bytes (bucket_files root b st)
  ∧ si_num_entries i = zlen (bucket_files root b st)
  ∧ 0 <= si_total_size_rounded i < 2 ^ 31.
(** They are small enough for the numbers in the file. *)
Definition stats_fit (root : str) (st : store) (b : str) : Prop :=
  total_bytes (bucket_files root b st) < 2 ^ 31 ∧ zlen (bucket_files root b st) < 2 ^ 31.

Lemma total_bytes_perm l l' : l ≡ₚ l' → total_bytes l = total_bytes l'.
Proof. unfold total_bytes. induction 1; cbn; lia. Qed.
Lemma total_bytes_nonneg l : 0 <= total_bytes l.
Proof. induction l as [|p l IH]; cbn; [lia|]. pose proof (zlen_nonneg p.2). unfold total_bytes in IH. lia. Qed.
Lemma total_bytes_cons p l : total_bytes (p :: l) = zlen p.2 + total_bytes l.
Proof. done. Qed.
Lemma zlen_perm {A} (l l' : list A) : l ≡ₚ l' → zlen l = zlen l'.
Proof. unfold zlen. by intros ->%Permutation_length. Qed.

Lemma mset_fresh {V} (k : str) (v : V) m : mfind k m = None → mset k v m ≡ₚ (k, v) :: m.
Proof.
  induction m as [|[k' v'] m IH]; cbn; [done|].
  destruct (compare k k'); [done|done|]. intros H. rewrite (IH H). apply Permutation_swap.
Qed.

Lemma merase_found {V} (k : str) (v : V) m : mfind k m = Some v → m ≡ₚ (k, v) :: merase k m.
Proof.
  induction m as [|[k' v'] m IH]; cbn; [done|].
  destruct (compare k k') eqn:E; [apply compare_eq in E as <-; by intros [= ->]|..];
    intros H; rewrite (IH H) at 1; apply Permutation_swap.
Qed.

Lemma merase_absent {V} (k : str) (m : list (str * V)) : mfind k m = None → merase k m = m.
Proof.
  induction m as [|[k' v'] m IH]; cbn; [done|].
  destruct (compare k k'); [done|..]; intros H; by rewrite (IH H).
Qed.

Lemma filter_merase {V} (P : str → bool) k (m : list (str * V)) :
  msorted m → P k = true → (∀ l v, (l, v) ∈ m → P l = true → l = k) →
  filter (λ p, P p.1 = false) m = merase k m.
Proof.
  intros Hs Hk. induction m as [|[l v] m IH]; [done|]. intros Hm. destruct Hs as [Hl Hs].
  rewrite filter_cons. cbn [fst merase].
  assert (Hm' : ∀ l v, (l, v) ∈ m → P l = true → l = k) by (intros l' v' H; apply (Hm l' v'); by right).
  destruct (compare k l) eqn:E.
  - apply compare_eq in E as <-. rewrite decide_False by (by rewrite Hk).
    rewrite (IH Hs Hm'). apply merase_absent. by apply mfind_Forall_Lt.
  - rewrite decide_True, (IH Hs Hm'); [done|]. destruct (P l) eqn:Ep; [|done].
    rewrite (Hm l v (list_elem_of_here _ _) Ep), compare_refl in E. done.
  - rewrite decide_True, (IH Hs Hm'); [done|]. destruct (P l) eqn:Ep; [|done].
    rewrite (Hm l v (list_elem_of_here _ _) Ep), compare_refl in E. done.
Qed.

Lemma read_sync_stat i :
  0 <= si_total_size i < 2 ^ 31 → 0 <= si_num_entries i < 2 ^ 31 → 0 <= si_total_size_rounded i < 2 ^ 31 →
  read_stat (Some (sync_stat i))
  = Mk_sys_info [] [] 0 0 0 false 0 0 false (si_total_size i) (si_total_size_rounded i) (si_num_entries i).
Proof. intros. unfold read_stat. by rewrite parse_sync_stat. Qed.

Lemma in_bucket_dir root b b' o :
  plain_part b' = true → flat root b o → in_bucket root b' (object_path root b o) = bool_decide (b' = b).
Proof.
  intros Hb' Hf. pose proof Hf as (Hb & _). unfold in_bucket.
  rewrite (proj2 (streq_false _ _)), andb_true_r by (apply not_eq_sym; by apply stat_not_object).
  apply eq_bool_prop_intro. split.
  - intros H%Is_true_true. apply has_prefix_spec in H as [r E]. unfold bucket_dir, object_path in E.
    rewrite <- !app_assoc in E. apply app_inv_head in E. injection E as E.
    apply split_slash in E as [-> _]; auto using plain_no_slash.
  - intros ->%bool_decide_unpack. apply Is_true_true. unfold bucket_dir, object_path.
    replace (root ++ "/" ++ b ++ "/" ++ o) with ((root ++ "/" ++ b ++ "/") ++ o) by (by rewrite <- !app_assoc).
    apply has_prefix_self.
Qed.

Lemma stat_not_in_bucket root b b' : plain_part b = true → plain_part b' = true → in_bucket root b' (stat_path root b) = false.
Proof.
  intros Hb Hb'. unfold in_bucket. destruct (decide (b = b')) as [->|Hne].
  { by rewrite (proj2 (streq_true _ _)), andb_false_r. }
  destruct (has_prefix _ _) eqn:E; [|done]. apply has_prefix_spec in E as [r E].
  rewrite spath_object in E. unfold bucket_dir, object_path in E.
  rewrite <- !app_assoc in E. apply app_inv_head in E. injection E as E.
  by apply split_slash in E as [-> _]; auto using plain_no_slash.
Qed.

Lemma bucket_files_cons root b b' o (f : bytes) (l : list (str * bytes)) :
  plain_part b' = true → flat root b o →
  filter (λ p, in_bucket root b' p.1 = true) ((object_path root b o, f) :: l)
  = (if bool_decide (b' = b) then [(object_path root b o, f)] else [])
    ++ filter (λ p, in_bucket root b' p.1 = true) l.
Proof.
  intros Hb Hf. rewrite filter_cons. cbn [fst]. rewrite (in_bucket_dir root b b' o Hb Hf).
  by destruct (bool_decide (b' = b)).
Qed.

(** Writing the statistics of a bucket changes them and no other file. *)
Lemma filter_mset {V} (P : str → bool) k (v : V) m :
  P k = false → filter (λ p, P p.1 = true) (mset k v m) = filter (λ p, P p.1 = true) m.
Proof.
  intros Hk. induction m as [|[k' v'] m IH]; cbn [mset].
  { rewrite filter_cons. cbn [fst]. by rewrite decide_False by (by rewrite Hk). }
  destruct (compare k k') eqn:E; rewrite !filter_cons; cbn [fst].
  - apply compare_eq in E as <-. by rewrite !decide_False by (by rewrite Hk).
  - by rewrite (decide_False (P := P k = true)) by (by rewrite Hk).
  - rewrite IH. done.
Qed.

Lemma write_stat_accurate root ok b b' f st :
  plain_part b = true → plain_part b' = true →
  let st' := write_stat root ok b f st in
  bucket_files root b' st' = bucket_files root b' st ∧
  bucket_stat root b' st' = if ok && can_open (stat_path root b) st && bool_decide (b' = b) then Some f else bucket_stat root b' st.
Proof.
  intros Hb Hb' st'. subst st'. unfold write_stat. destruct (ok && _); cbn [andb]; [|done].
  unfold bucket_files, bucket_stat. cbn [st_files]. rewrite filter_mset by by apply stat_not_in_bucket. split; [done|].
  case_bool_decide as E; [subst; by rewrite mfind_mset_eq|].
  rewrite mfind_mset_ne; [done|]. intros Ep. by apply stat_path_inj in Ep; [|done..].
Qed.

(** What the two updates make of statistics that were right. *)
Lemma put_stat_read file size :
  let i := read_stat file in
  0 <= size → 0 <= si_total_size i → 0 <= si_num_entries i → 0 <= si_total_size_rounded i < 2 ^ 31 →
  si_total_size i + size < 2 ^ 31 → si_num_entries i + 1 < 2 ^ 31 →
  read_stat (Some (put_stat file size))
  = Mk_sys_info [] [] 0 0 0 false 0 0 false (si_total_size i + size) (si_total_size_rounded i) (si_num_entries i + 1).
Proof.
  intros i H1 H2 H3 H4 H5 H6. unfold put_stat. fold i.
  rewrite !u64_small by lia. by rewrite read_sync_stat by (cbn; lia).
Qed.

(** A bucket whose statistics can be written. *)
Definition has_stat (root : str) (st : store) (b : str) : Prop := can_open (stat_path root b) st = true.

Lemma has_stat_write root ok b f st b' : has_stat root st b' → has_stat root (write_stat root ok b f st) b'.
Proof. unfold has_stat, write_stat. by destruct (ok && _). Qed.

Lemma stat_dir_not_below root b b' o : plain_part b = true → flat root b' o → at_or_below (object_path root b' o) (stat_dir root b) = false.
Proof.
  intros Hb Hf. destruct (at_or_below _ _) eqn:E; [|done]. pose proof Hf as (_ & Ho & Hne & _).
  destruct (below_path root b' o b _ Hf Hb E) as [_ [Eo|[r Eo]]]; [done|].
  assert (Hin : SLASH ∈ PROC_BUCKET_PATH) by (rewrite Eo; apply elem_of_app; right; left).
  revert Hin. by apply (bool_decide_unpack _).
Qed.

Lemma has_stat_delete root st b b' o :
  plain_part b = true → flat root b' o → has_stat root st b →
  has_stat root (Mk_store (filter (λ p, at_or_below (object_path root b' o) p.1 = false) (st_files st))
               (filter (λ p, at_or_below (object_path root b' o) p = false) (st_dirs st))) b.
Proof.
  intros Hb Hf. unfold has_stat, can_open. cbn [st_dirs]. rewrite (parent_stat root b).
  intros [H1%bool_decide_eq_true H2%negb_true_iff%bool_decide_eq_false]%andb_true_iff.
  rewrite bool_decide_eq_true_2, bool_decide_eq_false_2; [done|..]; rewrite list_elem_of_filter.
  - by intros [_ H].
  - split; [by apply stat_dir_not_below|done].
Qed.

Lemma accurate_put root st b b' o f ok :
  plain_part b' = true → flat root b o → mfind (object_path root b o) (st_files st) = None →
  has_stat root st b' → ok = true →
  let st1 := Mk_store (mset (object_path root b o) f (st_files st)) (st_dirs st) in
  let st' := write_stat root ok b (put_stat (bucket_stat root b st1) (zlen f)) st1 in
  stats_fit root st' b' → accurate root st b' → accurate root st' b'.
Proof.
  intros Hb' Hf Hnew Hstat -> st1 st' Hfit (HT & HN & HR). pose proof Hf as (Hb & _).
  destruct (write_stat_accurate root true b b' (put_stat (bucket_stat root b st1) (zlen f)) st1 Hb Hb') as [Ef Es].
  fold st' in Ef, Es. unfold stats_fit, accurate in *. rewrite Ef, Es in *. clear Ef Es.
  assert (Hp : bucket_files root b' st1 ≡ₚ (if bool_decide (b' = b) then [(object_path root b o, f)] else [])
                 ++ bucket_files root b' st).
  { unfold bucket_files, st1. cbn [st_files]. rewrite <- bucket_files_cons by done. by rewrite mset_fresh. }
  assert (Hs : ∀ b, plain_part b = true → bucket_stat root b st1 = bucket_stat root b st).
  { intros b0 H0. unfold bucket_stat, st1. cbn [st_files]. rewrite mfind_mset_ne; [done|]. by apply not_eq_sym, stat_not_object. }
  destruct Hfit as [Hfit1 Hfit2].
  rewrite (total_bytes_perm _ _ Hp), (zlen_perm _ _ Hp), !Hs in * by done.
  pose proof (total_bytes_nonneg (bucket_files root b' st)). pose proof (zlen_nonneg (bucket_files root b' st)).
  pose proof (zlen_nonneg f). destruct (decide (b' = b)) as [->|E].
  - rewrite bool_decide_eq_true_2 in * by done. change (can_open (stat_path root b) st1) with (can_open (stat_path root b) st).
    rewrite Hstat. cbn [andb app] in *. rewrite total_bytes_cons, zlen_cons in *. cbn [snd] in *.
    rewrite put_stat_read; cbn [si_total_size si_num_entries si_total_size_rounded]; lia.
  - rewrite bool_decide_eq_false_2, andb_false_r in * by done. cbn [app] in *. done.
Qed.

Lemma accurate_delete root B m st b b' o f ok :
  plain_part b' = true → flat root b o → store_rel root B st m →
  mfind (object_path root b o) (st_files st) = Some f →
  has_stat root st b' → ok = true →
  let st1 := Mk_store (filter (λ p, at_or_below (object_path root b o) p.1 = false) (st_files st))
               (filter (λ p, at_or_below (object_path root b o) p = false) (st_dirs st)) in
  let st' := write_stat root ok b (delete_stat (bucket_stat root b st1) (zlen f)) st1 in
  stats_fit root st' b' → accurate root st b' → accurate root st' b'.
Proof.
  intros Hb' Hf Hrel Hfound Hstat -> st1 st' Hfit (HT & HN & HR). pose proof Hf as (Hb & _).
  destruct (write_stat_accurate root true b b' (delete_stat (bucket_stat root b st1) (zlen f)) st1 Hb Hb') as [Ef Es].
  fold st' in Ef, Es. unfold stats_fit, accurate in *. rewrite Ef, Es in *. clear Ef Es.
  assert (Hp : bucket_files root b' st ≡ₚ (if bool_decide (b' = b) then [(object_path root b o, f)] else [])
                 ++ bucket_files root b' st1).
  { unfold bucket_files, st1. cbn [st_files]. rewrite <- bucket_files_cons by done.
    rewrite (filter_merase (at_or_below (object_path root b o)) (object_path root b o)).
    - by rewrite (merase_found _ _ _ Hfound) at 1.
    - apply Hrel.
    - apply at_or_below_self.
    - intros l v Hin Hbelow. destruct (sr_flat _ _ _ _ Hrel _ _ Hin) as [(b1 & o1 & Hf1 & ->)|(b1 & Hb1 & ->)].
      + by destruct (below_flat root b o b1 o1 Hf Hf1 Hbelow) as [-> ->].
      + by rewrite stat_not_below in Hbelow. }
  assert (Hs : ∀ b, plain_part b = true → bucket_stat root b st1 = bucket_stat root b st).
  { intros b0 H0. unfold bucket_stat, st1. cbn [st_files]. by rewrite mfind_filter, stat_not_below by done. }
  destruct Hfit as [Hfit1 Hfit2].
  rewrite (total_bytes_perm _ _ Hp) in HT. rewrite (zlen_perm _ _ Hp) in HN. rewrite !Hs by done.
  pose proof (total_bytes_nonneg (bucket_files root b' st1)). pose proof (zlen_nonneg (bucket_files root b' st1)).
  pose proof (zlen_nonneg f). destruct (decide (b' = b)) as [->|E].
  - rewrite bool_decide_eq_true_2 in * by done. rewrite (has_stat_delete root st b b o Hb Hf Hstat : can_open (stat_path root b) st1 = true). cbn [andb].
    cbn [app] in *. rewrite total_bytes_cons, zlen_cons in *. cbn [snd] in *.
    unfold delete_stat. rewrite HT, HN. rewrite !u64_small by lia.
    rewrite read_sync_stat by (cbn [si_total_size si_num_entries si_total_size_rounded]; lia).
    cbn [si_total_size si_num_entries si_total_size_rounded]. lia.
  - rewrite bool_decide_eq_false_2, andb_false_r in * by done. cbn [app] in *. done.
Qed.

(** C27: the statistics of every bucket stay the number and the total size of its
    files (other than that of the statistics) through downloads, deletions and
    uploads of objects that did not exist, as long as the numbers stay below
    2^31, the rights of the user let the files and the statistics be written, the
    bucket's statistics directory is there, and no undefined result turns an
    upload away.  The requests are those of the refinement of a map: plain names
    other than [.bucket], bodies within the limit, complete writes. *)
Theorem stats_accurate root dir_size chunk max_put fd_write md5 md5sum pt B e st st' m a b' :
  1 <= chunk < 2 ^ 31 → 0 <= max_put < 2 ^ 62 → (∀ ofs d, fd_write ofs d = zlen d) →
  event_ok root max_put e → store_rel root B st m → plain_part b' = true → has_stat root st b' →
  match ev_request e with
  | RGet _ _ => True
  | RDelete _ _ => allowed e = true ∧ ev_stat e = true
  | RPut b o _ => allowed e = true ∧ ev_stat e = true ∧ 0 <= ev_junk e ∧ b ∈ B ∧ m !! (b, o) = None
  | RCopy _ _ _ _ => False
  end →
  serve root dir_size chunk max_put fd_write md5 md5sum pt e st = Some (a, st') →
  stats_fit root st' b' → accurate root st b' → accurate root st' b' ∧ has_stat root st' b'.
Proof.
  intros Hc Hm Hw He Hrel Hb' Hstat Hcase Hs Hfit Hacc.
  unfold event_ok in He. destruct (ev_request e) as [b o|b o body|b o|] eqn:Er; [| | |done]; cbn [request_ok] in He.
  - rewrite (serve_get root dir_size chunk max_put fd_write md5 md5sum pt Hc e b o) in Hs by done. by injection Hs as _ <-.
  - destruct He as [Hf Hb]. destruct Hcase as (Hal & Hev & Hj & HB & Hnew).
    pose proof (serve_put root dir_size chunk max_put fd_write md5 md5sum pt Hc Hm Hw e b o body st Er (proj1 (proj2 Hf)) Hb
      (sr_sorted _ _ _ _ Hrel)) as Hp.
    unfold put_done in Hp. rewrite (can_open_object root B b o st m Hf Hrel), Hal, bool_decide_eq_true_2 in Hp by done.
    rewrite (proj2 (Z.ltb_ge _ _)) in Hp by done. cbn [andb] in Hp. rewrite Hp in Hs. injection Hs as _ <-.
    split; [apply accurate_put; try done; by rewrite (sr_find _ _ _ _ Hrel)|by apply has_stat_write].
  - rewrite (serve_delete root dir_size chunk max_put fd_write md5 md5sum pt B e b o st m) in Hs by done.
    injection Hs as _ <-. destruct Hcase as (Hal & Hev).
    destruct (mfind (object_path root b o) (st_files st)) as [f|] eqn:Ef; [|done]. rewrite Hal in *.
    split; [by apply (accurate_delete root B m)|]. apply has_stat_write. by apply has_stat_delete.
Qed.

Definition demo_store : store :=
  Mk_store [("/fisamba/photos/.bucket/stat", put_stat None 4); ("/fisamba/photos/cat", "meow" : bytes)] demo_dirs.

Lemma demo_store_rel :
  store_rel "/fisamba" {["photos" : str]} demo_store {[("photos" : str, "cat" : str) := "meow" : bytes]}.
Proof.
  assert (Hf : flat "/fisamba" "photos" "cat") by (split_and!; vm_compute; done).
  pose proof (mset_rel "/fisamba" {["photos" : str]} "photos" "cat" "meow" _ _ Hf store_rel_empty) as H1.
  exact (write_stat_rel "/fisamba" {["photos" : str]} true "photos" (put_stat None 4) _ _ eq_refl H1).
Qed.

Lemma stats_accurate_witness :
  ∃ st', serve "/fisamba" 4096 3 100 (λ _, @zlen ascii) (λ b, b) "t" (λ _, inl 0)
           (plain_event (RPut "photos" "dog" "woof!")) demo_store
         = Some ((0, []), st')
  ∧ (accurate "/fisamba" st' "photos" ∧ has_stat "/fisamba" st' "photos")
  ∧ si_total_size (read_stat (bucket_stat "/fisamba" "photos" st')) = 9.
Proof.
  eexists. split_and!; [vm_compute; reflexivity| | |by vm_compute].
  all: eapply (stats_accurate "/fisamba" 4096 3 100 (λ _, @zlen ascii) (λ b, b) "t" (λ _, inl 0) {["photos" : str]}
    (plain_event (RPut "photos" "dog" "woof!")) demo_store);
    [lia|lia|done|split; [unfold flat; split_and!; by vm_compute|by vm_compute]|apply demo_store_rel
    |done|by vm_compute|split_and!; [done|done|done|set_solver|by apply lookup_singleton_ne]
    |vm_compute; reflexivity|split; by vm_compute|].
  all: unfold accurate; split_and!; by vm_compute.
Defined.

(** ** Defects *)

Definition demo_serve (r : request) (st : store) : option (answer * store) :=
  serve "/fisamba" 4096 4 100 (λ _, @zlen ascii) (λ b, b) "t" (λ _, inl 0) (plain_event r) st.
Definition demo_stat_of (st : store) : Z * Z :=
  let i := read_stat (bucket_stat "/fisamba" "photos" st) in (si_total_size i, si_num_entries i).
Definition demo_names (st : store) : list str := map fst (st_files st).

(** An upload over an existing object is counted as a second one, and so is one
    that stored nothing; a copy is not counted, and its source is gone; deleting
    a name that is a directory deletes every object below it and counts it as
    one; and deleting the object [.bucket] deletes the statistics. *)
Lemma store_defects :
  (λ r, demo_stat_of r.2) <$> demo_serve (RPut "photos" "cat" "purr") demo_store = Some (8, 2)
  ∧ (λ r, demo_stat_of r.2) <$> serve "/fisamba" 4096 4 100 (λ _, @zlen ascii) (λ b, b) "t" (λ _, inl 0)
      (Mk_event (RPut "photos" "dog" "woof") (Some 13) 0 0 true) demo_store = Some (4, 2)
  ∧ (λ r, (demo_names r.2, demo_stat_of r.2)) <$> demo_serve (RCopy "photos" "cat" "photos" "cat2") demo_store
    = Some (["/fisamba/photos/.bucket/stat" : str; "/fisamba/photos/cat2" : str], (4, 1))
  ∧ (λ r, (demo_names r.2, demo_stat_of r.2)) <$>
      demo_serve (RDelete "photos" "2015")
        (Mk_store [("/fisamba/photos/.bucket/stat", put_stat (Some (put_stat None 2)) 2);
                   ("/fisamba/photos/2015/a", "aa" : bytes); ("/fisamba/photos/2015/b", "bb" : bytes)]
           ("/fisamba/photos/2015" :: demo_dirs))
    = Some (["/fisamba/photos/.bucket/stat" : str], (18446744073709547524, 1))
  ∧ (λ r, (demo_names r.2, st_dirs r.2)) <$> demo_serve (RDelete "photos" ".bucket") demo_store
    = Some (["/fisamba/photos/cat" : str], ["/fisamba/photos" : str]).
Proof. by vm_compute. Qed.

(** The name of an object is part of the command that deletes it. *)
Lemma delete_runs_shell :
  rm_command (object_path "/fisamba" "photos" "x; reboot #") = "rm /fisamba/photos/x; reboot # -rf".
Proof. done. Qed.

(** The parts of a multipart upload are appended in the order they arrive. *)
Lemma parts_in_arrival_order :
  let put b st := store_put (C := bytes) "/fisamba" 4 100 (λ _, @zlen ascii) (λ b, b) (λ _, 0) 20 0 "photos" "big" None
                    true true true b st in
  ('(_, st) ← put "second " (Mk_store [] demo_dirs);
   '(_, st) ← put "first" st;
   Some (mfind "/fisamba/photos/big" (st_files st))) = Some (Some ("second first" : bytes)).
Proof. by vm_compute. Qed.
