(* ===== verification/Process.v ===== *)
(** * Serving a request ([src/src/rgw/rgw_main.cc])

    [process_request]: the stages of a request in their order, with the early
    exits, over an interface of the stages; the errors an early exit reports are
    those of [Errors].  The log of the stages a request went through is kept
    beside the state, so that the order of calls can be stated. *)

From S2P Require Import Prelude StdMap CString Http Errors.

(** What a call was, with what it returned. *)
Inductive event :=
  | EHandler (init_error : Z)
  | EGetOp (found : bool)
  | EAuthorize (ret : Z)
  | EReadPermissions (ret : Z)
  | EInitProcessing (ret : Z)
  | EOpMask (ret : Z)
  | EPermission (ret : Z) (system_request : bool)
  | EParams (ret : Z)
  | EPreExec
  | EExecute
  | EComplete
  | EAbort (err : Z)
  | ECompleteRequest
  | EPutOp
  | EPutHandler.

#[export] Instance event_eq_dec : EqDecision event.
Proof. solve_decision. Defined.

(** The stages over a state of any type: the handler, the operation and the
    connection of the request. *)
Class Stages (W : Type) := {
  get_handler : W → Z * bool * W;       (* the error; whether there is a handler *)
  get_op : W → bool * W;
  authorize : W → Z * W;
  read_permissions : W → Z * W;
  init_processing : W → Z * W;
  op_mask : W → Z * W;
  verify_permission : W → Z * W;
  system_request : W → bool;
  verify_params : W → Z * W;
  pre_exec : W → W;
  execute : W → W;
  complete : W → W;
  abort_early : Z → W → W;
  complete_request : W → W;
  put_op : W → W;
  put_handler : W → W;
  prot_flags : W → Z;
  err : W → rgw_err                     (* [s->err] *)
}.

(** [abort_early] records the error of [set_req_state_err]; releasing the
    request leaves it. *)
Class StagesOk (W : Type) `{Stages W} : Prop := {
  abort_err e w : err (abort_early e w) = set_req_state_err (prot_flags w) e;
  complete_request_err w : err (complete_request w) = err w;
  put_op_err w : err (put_op w) = err w;
  put_handler_err w : err (put_handler w) = err w
}.

Section process.
Context {W : Type} `{Stages W}.

(** A computation over the state that writes the log. *)
Definition M (A : Type) : Type := W → A * W * list event.
Definition ret_ {A} (a : A) : M A := λ w, (a, w, []).
Definition bind_ {A B} (x : M A) (f : A → M B) : M B :=
  λ w, let '(a, w1, l1) := x w in let '(b, w2, l2) := f a w1 in (b, w2, l1 ++ l2).
Definition do_call (e : event) (f : W → W) : M unit := λ w, (tt, f w, [e]).
Definition stage (e : Z → event) (f : W → Z * W) : M Z := λ w, let '(r, w1) := f w in (r, w1, [e r]).

#[local] Notation "x ← c ; k" := (bind_ c (λ x, k)) (at level 20, c at level 100, k at level 200).
#[local] Notation "c ;; k" := (bind_ c (λ _, k)) (at level 100, k at level 200).

(** A stage whose failure ends the request. *)
Definition check (e : Z → event) (f : W → Z * W) (k : M Z) : M Z :=
  r ← stage e f;
  if r <? 0 then do_call (EAbort r) (abort_early r);; ret_ r else k.

(** From [authorize] to [complete]: the value of [ret] at the label [done]. *)
Definition run_stages : M Z :=
  check EAuthorize authorize
  (check EReadPermissions read_permissions
  (check EInitProcessing init_processing
  (check EOpMask op_mask
  (r ← (λ w, let '(r, w1) := verify_permission w in
             ((r, system_request w1), w1, [EPermission r (system_request w1)]));
   if (r.1 <? 0) && negb r.2 then do_call (EAbort r.1) (abort_early r.1);; ret_ r.1
   else
   check EParams verify_params
   (do_call EPreExec pre_exec;; do_call EExecute execute;; do_call EComplete complete;; ret_ 0))))).

(** [process_request]: its result, the state and the log. *)
Definition process_request : M Z :=
  h ← (λ w, let '(e, found, w1) := get_handler w in ((e, found), w1, [EHandler e]));
  ret ← (if negb (h.1 =? 0) then do_call (EAbort h.1) (abort_early h.1);; ret_ 0
         else
           op ← (λ w, let '(f, w1) := get_op w in (f, w1, [EGetOp f]));
           if negb op then do_call (EAbort (- ERR_METHOD_NOT_ALLOWED)) (abort_early (- ERR_METHOD_NOT_ALLOWED));; ret_ 0
           else run_stages);
  do_call ECompleteRequest complete_request;;
  (if h.2 then do_call EPutOp put_op else ret_ tt);;
  do_call EPutHandler put_handler;;
  (λ w, (if ret <? 0 then ret else er_ret (err w), w, [])).

(** ** The log *)

(** A check that let the request pass. *)
Definition passed (e : event) : bool :=
  match e with
  | EHandler r => r =? 0
  | EGetOp f => f
  | EAuthorize r | EReadPermissions r | EInitProcessing r | EOpMask r | EParams r => 0 <=? r
  | EPermission r sys => (0 <=? r) || sys
  | _ => false
  end.

(** The checks in the order of the code. *)
Definition rank (e : event) : nat :=
  match e with
  | EHandler _ => 0 | EGetOp _ => 1 | EAuthorize _ => 2 | EReadPermissions _ => 3 | EInitProcessing _ => 4
  | EOpMask _ => 5 | EPermission _ _ => 6 | EParams _ => 7 | EPreExec => 8 | EExecute => 9 | EComplete => 10
  | EAbort _ => 11 | ECompleteRequest => 12 | EPutOp => 13 | EPutHandler => 14
  end%nat.

(** The error a failed check is answered with. *)
Definition error_of (e : event) : Z :=
  match e with
  | EHandler r | EAuthorize r | EReadPermissions r | EInitProcessing r | EOpMask r | EParams r
  | EPermission r _ => r
  | _ => - ERR_METHOD_NOT_ALLOWED
  end.

Definition checks_ok (checks : list event) : Prop := map rank checks = seq 0 (length checks).
Definition release (l : list event) : Prop :=
  l = [ECompleteRequest; EPutOp; EPutHandler] ∨ l = [ECompleteRequest; EPutHandler].

(** A request that ran to its end, and one that a check stopped. *)
Definition served (l : list event) : Prop :=
  ∃ checks rest, l = checks ++ [EPreExec; EExecute; EComplete] ++ rest
    ∧ checks_ok checks ∧ length checks = 8%nat ∧ forallb passed checks = true ∧ release rest.
Definition refused (last : event) (l : list event) : Prop :=
  ∃ before rest, l = before ++ [last; EAbort (error_of last)] ++ rest
    ∧ checks_ok (before ++ [last]) ∧ forallb passed before = true ∧ passed last = false ∧ release rest.
End process.

Section process_facts.
Context {W : Type} `{StagesOk W}.

Lemma release_err (found : bool) (ret : Z) (w : W) :
  let '(z, w', l) :=
    bind_ (do_call ECompleteRequest complete_request)
      (λ _, bind_ (if found then do_call EPutOp put_op else ret_ tt)
        (λ _, bind_ (do_call EPutHandler put_handler)
          (λ _ w, (if ret <? 0 then ret else er_ret (err w), w, [])))) w in
  err w' = err w ∧ z = (if ret <? 0 then ret else er_ret (err w)) ∧ release l.
Proof.
  unfold bind_, do_call, ret_. destruct found; cbn; rewrite put_handler_err, ?put_op_err, complete_request_err.
  - split_and!; [done..|by left].
  - split_and!; [done..|by right].
Qed.

(** How a computation that follows the checks [pre] ends. *)
Definition outcome (pre : list event) (x : M Z) (w : W) : Prop :=
  let '(r, w', l) := x w in
  (∃ cs, l = cs ++ [EPreExec; EExecute; EComplete] ∧ checks_ok (pre ++ cs) ∧ length (pre ++ cs) = 8%nat
         ∧ forallb passed cs = true ∧ r = 0)
  ∨ (∃ before last w0, l = before ++ [last; EAbort (error_of last)] ∧ checks_ok (pre ++ before ++ [last])
         ∧ forallb passed before = true ∧ passed last = false ∧ w' = abort_early (error_of last) w0
         ∧ (r < 0 → r = error_of last)).

Lemma checks_ok_snoc pre e : checks_ok pre → rank e = length pre → checks_ok (pre ++ [e]).
Proof.
  unfold checks_ok. intros Hp He. rewrite map_app, Hp, length_app. cbn. rewrite seq_app. cbn. by rewrite He.
Qed.

Lemma outcome_stop pre last e r w :
  checks_ok pre → rank last = length pre → passed last = false → e = error_of last → (r < 0 → r = e) →
  outcome pre (λ w, let '(b, w2, l2) := bind_ (do_call (EAbort e) (abort_early e)) (λ _, ret_ r) w in (b, w2, [last] ++ l2)) w.
Proof.
  intros Hp Hr Hl -> He. unfold outcome, bind_, do_call, ret_. right.
  exists [], last, w. split_and!; try done. by apply checks_ok_snoc.
Qed.

Lemma outcome_next pre e x w :
  passed e = true → outcome (pre ++ [e]) x w →
  outcome pre (λ w, let '(b, w2, l2) := x w in (b, w2, [e] ++ l2)) w.
Proof.
  intros He. unfold outcome. destruct (x w) as [[r w'] l].
  intros [(cs & -> & H1 & H2 & H3 & H4)|(before & last & w0 & -> & H1 & H2 & H3 & H4 & H5)].
  - left. exists (e :: cs). rewrite <- app_assoc in H1, H2. cbn. rewrite He. by split_and!.
  - right. exists (e :: before), last, w0. rewrite <- app_assoc in H1. cbn. rewrite He. by split_and!.
Qed.

Lemma check_outcome pre e f k w :
  checks_ok pre → (∀ r, rank (e r) = length pre ∧ passed (e r) = (0 <=? r) ∧ error_of (e r) = r) →
  (∀ r w', checks_ok (pre ++ [e r]) → outcome (pre ++ [e r]) k w') →
  outcome pre (check e f k) w.
Proof.
  intros Hp He Hk. destruct (f w) as [r w1] eqn:E. destruct (He r) as (H1 & H2 & H3).
  assert (Hc : check e f k w
    = (λ w, let '(b, w2, l2) := (if r <? 0 then bind_ (do_call (EAbort r) (abort_early r)) (λ _, ret_ r) else k) w in
            (b, w2, [e r] ++ l2)) w1) by (unfold check, bind_ at 1, stage; by rewrite E).
  unfold outcome. rewrite Hc. destruct (Z.ltb_spec r 0).
  - apply (outcome_stop pre (e r) r r w1); auto. rewrite H2. by apply Z.leb_gt.
  - apply (outcome_next pre (e r) k w1); [rewrite H2; by apply Z.leb_le|].
    by apply Hk, checks_ok_snoc.
Qed.

Lemma run_stages_outcome w : outcome [EHandler 0; EGetOp true] run_stages w.
Proof.
  unfold run_stages. apply check_outcome; [done|done|]. intros r1 w1 H1.
  apply check_outcome; [done|done|]. intros r2 w2 H2.
  apply check_outcome; [done|done|]. intros r3 w3 H3.
  apply check_outcome; [done|done|]. intros r4 w4 H4. cbn [app] in *.
  set (pre := [_; _; _; _; _; _]) in *.
  destruct (verify_permission w4) as [r w5] eqn:E.
  set (ev := EPermission r (system_request w5)).
  unfold outcome, bind_ at 1. rewrite E. cbn [fst snd].
  destruct (Z.ltb_spec r 0) as [Hr|Hr]; [destruct (system_request w5) eqn:Es|]; cbn [andb negb].
  2: { apply (outcome_stop pre ev r r w5); try done. unfold ev. rewrite ?Es. cbn. rewrite orb_false_r. by apply Z.leb_gt. }
  all: apply (outcome_next pre ev _ w5); [unfold ev; cbn; rewrite ?Es, ?orb_true_r; try done;
    by rewrite (proj2 (Z.leb_le 0 r)) | apply check_outcome; [by apply checks_ok_snoc|done|]];
    intros r6 w6 H6; left; exists []; by split_and!.
Qed.

(** The end of a request after its stages. *)
Lemma finish_spec (e : Z) (found : bool) (x : M Z) (w : W) :
  (let '(r, w1, l) := x w in
   (∃ cs, l = cs ++ [EPreExec; EExecute; EComplete] ∧ checks_ok (EHandler e :: cs) ∧ length cs = 7%nat
         ∧ forallb passed (EHandler e :: cs) = true ∧ r = 0)
   ∨ ∃ before last w0, EHandler e :: l = before ++ [last; EAbort (error_of last)] ∧ checks_ok (before ++ [last])
         ∧ forallb passed before = true ∧ passed last = false ∧ w1 = abort_early (error_of last) w0
         ∧ (r < 0 → r = error_of last)) →
  let '(z, w', l) :=
    bind_ x (λ ret, bind_ (do_call ECompleteRequest complete_request)
      (λ _, bind_ (if found then do_call EPutOp put_op else ret_ tt)
        (λ _, bind_ (do_call EPutHandler put_handler)
          (λ _ w, (if ret <? 0 then ret else er_ret (err w), w, []))))) w in
  served (EHandler e :: l)
  ∨ ∃ last, refused last (EHandler e :: l)
      ∧ (∃ w0, err w' = set_req_state_err (prot_flags w0) (error_of last))
      ∧ (z = error_of last ∨ z = er_ret (err w')).
Proof.
  unfold bind_ at 1. destruct (x w) as [[r w1] l]. pose proof (release_err found r w1) as Hrel.
  destruct (bind_ _ _ w1) as [[z w'] rest]. destruct Hrel as (He & -> & Hrest).
  intros [(cs & -> & H1 & H2 & H3 & _)|(before & last & w0 & El & H1 & H2 & H3 & -> & H5)].
  - left. exists (EHandler e :: cs), rest. rewrite <- app_assoc. split_and!; try done. cbn. by rewrite H2.
  - right. exists last. split_and!.
    + exists before, rest. split_and!; try done. change (EHandler e :: l ++ rest) with ((EHandler e :: l) ++ rest).
      by rewrite El, <- app_assoc.
    + exists w0. by rewrite He, abort_err.
    + destruct (Z.ltb_spec r 0); [left; by apply H5|right; by rewrite He].
Qed.

(** C2: the stages of a request run in order and once.  Either every check let
    it pass, its operation ran, and its completion was called exactly once; or
    the first check that did not pass is the last one made, nothing was
    executed, and the error of that check, and no other, is what the response
    is made from and, negated, what is returned.  In both cases the connection
    is completed once, and the request released, after that. *)
Theorem process_request_spec (w : W) :
  let '(z, w', l) := process_request w in
  served l
  ∨ ∃ last, refused last l
      ∧ (∃ w0, err w' = set_req_state_err (prot_flags w0) (error_of last))
      ∧ (z = error_of last ∨ z = er_ret (err w')).
Proof.
  unfold process_request. unfold bind_ at 1. destruct (get_handler w) as [[e found] w1]. cbn [fst snd].
  match goal with |- context [bind_ ?x ?k w1] => pose proof (finish_spec e found x w1) as Hf end.
  destruct (bind_ _ _ w1) as [[z w'] l]. apply Hf. clear Hf.
  destruct (Z.eqb_spec e 0) as [->|He]; cbn [negb].
  - unfold bind_ at 1. destruct (get_op w1) as [[] w2]; cbn [negb].
    + pose proof (run_stages_outcome w2) as Ho. unfold outcome in Ho. destruct (run_stages w2) as [[r w3] l3].
      destruct Ho as [(cs & -> & H1 & H2 & H3 & ->)|(before & last & w0 & -> & H1 & H2 & H3 & H4 & H5)].
      * left. exists (EGetOp true :: cs). split_and!; try done. cbn in H2 |- *. lia.
      * right. by exists (EHandler 0 :: EGetOp true :: before), last, w0.
    + right. by exists [EHandler 0], (EGetOp false), w2.
  - right. exists [], (EHandler e), w1. split_and!; try done. cbn. by apply Z.eqb_neq.
Qed.
End process_facts.

(** A request whose stages return given numbers, the handler's first. *)
Record demo_request := Mk_demo { dr_results : list Z; dr_system : bool; dr_err : rgw_err }.
Definition next (w : demo_request) : Z * demo_request :=
  (default 0 (head (dr_results w)), Mk_demo (tail (dr_results w)) (dr_system w) (dr_err w)).
#[export] Instance demo_stages : Stages demo_request := {|
  get_handler w := let '(r, w) := next w in (r, true, w);
  get_op w := let '(r, w) := next w in (r =? 0, w);
  authorize := next; read_permissions := next; init_processing := next; op_mask := next;
  verify_permission := next; system_request := dr_system; verify_params := next;
  pre_exec w := w; execute w := w; complete w := w;
  abort_early e w := Mk_demo (dr_results w) (dr_system w) (set_req_state_err 0 e);
  complete_request w := w; put_op w := w; put_handler w := w;
  prot_flags _ := 0; err := dr_err
|}.
#[export] Instance demo_stages_ok : StagesOk demo_request.
Proof. by split. Qed.

Lemma process_request_spec_witness :
  let '(z, w', l) := process_request (Mk_demo [0; 0; -13] false rgw_err_clear) in
  z = -13 ∧ er_http_ret (err w') = 403 ∧
  (served l
   ∨ ∃ last, refused last l
      ∧ (∃ w0 : demo_request, err w' = set_req_state_err (prot_flags w0) (error_of last))
      ∧ (z = error_of last ∨ z = er_ret (err w'))).
Proof.
  pose proof (process_request_spec (Mk_demo [0; 0; -13] false rgw_err_clear)) as H.
  destruct (process_request _) as [[z w'] l] eqn:E. split_and!; [| |exact H].
  - injection E as <- _ _. reflexivity.
  - injection E as _ <- _. reflexivity.
Defined.

(** A refused system request is executed all the same; an ordinary one is not. *)
Lemma system_override :
  (process_request (Mk_demo [0; 0; 0; 0; 0; 0; -13] true rgw_err_clear)).2
  = [EHandler 0; EGetOp true; EAuthorize 0; EReadPermissions 0; EInitProcessing 0; EOpMask 0; EPermission (-13) true;
     EParams 0; EPreExec; EExecute; EComplete; ECompleteRequest; EPutOp; EPutHandler]
  ∧ EExecute ∉ (process_request (Mk_demo [0; 0; 0; 0; 0; 0; -13] false rgw_err_clear)).2.
Proof. split; [done|]. by apply (bool_decide_unpack _). Qed.
