(* ===== verification/Listing.v ===== *)
(** * Listing a bucket ([src/src/rgw/porting_rados.cc], [src/src/cls/rgw/cls_rgw_client.cc])

    [RGWRados::Bucket::List::list_objects] asks for pages of index entries and
    sorts them into objects and common prefixes; [cls_bucket_list] merges the
    entries of the index shards into a page; [issue_bucket_list_op] makes the
    entries of a shard from the files of the bucket.  What the shell prints and
    [stat] finds are parameters. *)

From S2P Require Import Prelude StdMap Encoding Utime ClsRgwTypes ClsRgwOps CString Env Http Strtol Utf8 Errors RgwObj Records.
From S2P Require Import SysInfo.

(** ** A page of the index *)

Record RGWObjEnt := Mk_ent {
  oe_key : rgw_obj_key; oe_ns : str; oe_owner : str; oe_owner_display_name : str; oe_size : Z;
  oe_mtime : utime_t; oe_etag : str; oe_content_type : str; oe_tag : str; oe_flags : Z; oe_versioned_epoch : Z
}.
Definition ent_is_current (e : RGWObjEnt) : bool :=
  let test_flags := Z.lor RGW_BUCKET_DIRENT_FLAG_VER RGW_BUCKET_DIRENT_FLAG_CURRENT in
  (Z.land (oe_flags e) RGW_BUCKET_DIRENT_FLAG_VER =? 0) || (Z.land (oe_flags e) test_flags =? test_flags).
Definition ent_is_delete_marker (e : RGWObjEnt) : bool :=
  negb (Z.land (oe_flags e) RGW_BUCKET_DIRENT_FLAG_DELETE_MARKER =? 0).
Definition ent_is_visible (e : RGWObjEnt) : bool := ent_is_current e && negb (ent_is_delete_marker e).

(** What the loop copies out of an index entry. *)
Definition ent_of (d : rgw_bucket_dir_entry) : RGWObjEnt :=
  Mk_ent (Mk_rgw_obj_key (ok_name (de_key d)) (ok_instance (de_key d))) []
    (dm_owner (de_meta d)) (dm_owner_display_name (de_meta d)) (dm_size (de_meta d)) (dm_mtime (de_meta d))
    (dm_etag (de_meta d)) (dm_content_type (de_meta d)) (de_tag d) (de_flags d) (de_versioned_epoch d).

Abbreviation shard := (list (str * rgw_bucket_dir_entry)).

(** The candidates of the first round. *)
Fixpoint first_candidates (i : nat) (vs : list shard) (cand : list (str * nat)) : list (str * nat) :=
  match vs with
  | [] => cand
  | v :: vs => first_candidates (S i) vs (match v with [] => cand | (k, _) :: _ => mset k i cand end)
  end.

(** The selection loop: the entries selected and what is left of each shard.
    Each turn takes an entry off a shard. *)
Fixpoint merge_loop (fuel : nat) (num_entries count : Z) (cand : list (str * nat)) (vs : list shard)
    (m : list (str * RGWObjEnt)) : list (str * RGWObjEnt) * list shard :=
  match fuel with
  | O => (m, vs)
  | S fuel' =>
      if negb (count <? num_entries) then (m, vs)
      else
        match cand with
        | [] => (m, vs)
        | (_, pos) :: cand' =>
            match vs !! pos with
            | Some ((name, dirent) :: rest) =>
                merge_loop fuel' num_entries (count + 1)
                  (match rest with [] => cand' | (k, _) :: _ => mset k pos cand' end)
                  (<[pos := rest]> vs) (mset name (ent_of dirent) m)
            | _ => (m, vs)
            end
        end
  end.

(** [RGWRados::cls_bucket_list], given the results of the shards: the page,
    whether there is more, and the last key.  The vectors start with an empty
    range for each shard before the shards' own are appended. *)
Definition cls_bucket_list (list_results : list (Z * rgw_cls_list_ret)) (num_entries : Z)
    : list (str * RGWObjEnt) * bool * option rgw_obj_key :=
  let shards := map (λ r, dd_m (lr_dir (snd r))) list_results in
  let vs := replicate (length list_results) [] ++ shards in
  let '(m, rest) := merge_loop (S (length (concat vs))) num_entries 0 (first_candidates 0 vs []) vs [] in
  (m, existsb (λ r, lr_is_truncated (snd r)) list_results || existsb (λ v, negb (length v =? 0)%nat) rest,
   match List.last (map fst m) [] with
   | [] => match m with [] => None | _ => Some (Mk_rgw_obj_key [] []) end
   | k => Some (Mk_rgw_obj_key k [])
   end).

(** [get_bucket_index_objects]: the shards and their objects. *)
Definition get_bucket_index_objects (base : str) (num_shards shard_id : Z) : list (Z * str) :=
  if num_shards =? 0 then [(0, base)]
  else if shard_id <? 0 then
    map (λ i, (Z.of_nat i, base ++ "." ++ print_int (Z.of_nat i))) (seq 0 (Z.to_nat num_shards))
  else if u32 shard_id >? num_shards then []
  else [(shard_id, base ++ "." ++ print_int shard_id)].

Definition dir_oid_prefix : str := ".dir.".
Definition bucket_is_system (bucket : rgw_bucket) : bool := bool_decide (char_at 0 (bk_name bucket) = "."%char).

(** ** The entries of a shard *)

(** [shell_execute] over the output of the command: 512 bytes without a zero
    at their end are copied when there are that many. *)
Definition shell_execute (output : str) : option str := if zlen output <? 512 then Some (cstr output) else None.

Record file_stat := Mk_file_stat { fs_is_dir : bool; fs_size : Z; fs_mtime : Z }.

Section backend.
Variable buckets_root : str.
(** What [ls -1] prints, whether the shell's test for a directory succeeds, and
    [stat]. *)
Variable ls : str → str.
Variable test_dir : str → bool.
Variable stat : str → option file_stat.

Definition ends_slash (s : str) : bool := bool_decide (List.last s NUL = "/"%char).
Definition with_slash (s : str) : str := if ends_slash s then s else s ++ "/".

(** The loop over the lines; the entry is one variable for all of them.
    [None]: a name does not fit into [file_name] (256 bytes with the slash
    behind a directory's name), or the text does not end with a newline and the
    loop goes past its end. *)
Fixpoint ls_loop (fuel : nat) (base_path key_prefix out : str) (test : rgw_bucket_dir_entry) (m : shard) : option shard :=
  match fuel with
  | O => Some m
  | S fuel' =>
      match out with
      | [] => Some m
      | _ =>
          let '(file_name, rest) := span not_nl out in
          match file_name, rest with
          | [], _ => Some m
          | _, [] => None
          | _, _ :: rest =>
              if 256 <=? zlen file_name then None
              else
                match stat (base_path ++ file_name) with
                | None => ls_loop fuel' base_path key_prefix rest test m
                | Some st =>
                    let file_name := if fs_is_dir st then file_name ++ "/" else file_name in
                    let meta := de_meta test in
                    let test := Mk_rgw_bucket_dir_entry
                      (Mk_cls_rgw_obj_key (key_prefix ++ file_name) (ok_instance (de_key test)))
                      (de_ver test) (de_locator test) (de_exists test)
                      (Mk_rgw_bucket_dir_entry_meta (dm_category meta) (u64 (fs_size st)) (Utime (u32 (fs_mtime st)) 0)
                         (dm_etag meta) (dm_owner meta) (dm_owner_display_name meta) (dm_content_type meta)
                         (dm_accounted_size meta))
                      (de_pending_map test) (de_index_ver test) (de_tag test) (de_flags test) (de_versioned_epoch test) in
                    if 256 <=? zlen file_name then None
                    else ls_loop fuel' base_path key_prefix rest test (mset file_name test m)
                end
          end
      end
  end.

(** [issue_bucket_list_op]: the start, the number of entries and the versions
    asked for are not looked at.  [None]: the name of the bucket does not fit
    into its 256 bytes, the command into its 512 or the output of [ls] into the
    512 of [shell_execute]; or the prefix is not a directory, and the loop runs
    over a buffer that was given back. *)
Definition issue_bucket_list_op (oid filter_prefix : str) : option rgw_cls_list_ret :=
  let bucket_name := scan_word (drop 5 oid) in
  let path := buckets_root ++ "/" ++ bucket_name ++ "/" ++ filter_prefix in
  let result m := Mk_rgw_cls_list_ret (Mk_rgw_bucket_dir rgw_bucket_dir_header_new m) false in
  if (256 <=? zlen bucket_name) || (512 <=? zlen ("ls -1 '" ++ path ++ "'")) then None
  else
    files ← shell_execute (ls path);
    match files with
    | [] => Some (result [])
    | _ =>
        let base_path := buckets_root ++ "/" ++ bucket_name ++ "/" in
        match filter_prefix with
        | [] => result <$> ls_loop (length files) base_path [] files rgw_bucket_dir_entry_new []
        | _ =>
            if test_dir path then
              let prefix := with_slash filter_prefix in
              result <$> ls_loop (length files) (base_path ++ prefix) prefix files rgw_bucket_dir_entry_new []
            else None
        end
    end.

(** [CLSRGWIssueBucketList] over the shards. *)
Definition issue_bucket_list (oids : list (Z * str)) (filter_prefix : str) : option (list (Z * rgw_cls_list_ret)) :=
  fold_left (λ acc o, m ← acc; r ← issue_bucket_list_op (snd o) filter_prefix; Some (mset (fst o) r m)) oids (Some []).

(** [cls_bucket_list] of a bucket: the error or the page; [num_shards] is what
    its record says, or the error of reading it. *)
Definition bucket_page (bucket : rgw_bucket) (num_shards : Z + Z) (prefix : str) (num_entries : Z)
    : option (Z + (list (str * RGWObjEnt) * bool * option rgw_obj_key)) :=
  if bucket_is_system bucket then Some (inl (- EINVAL))
  else
    match num_shards with
    | inl e => Some (inl e)
    | inr n =>
        rs ← issue_bucket_list (get_bucket_index_objects (dir_oid_prefix ++ bk_marker bucket) n (-1)) prefix;
        Some (inr (cls_bucket_list rs num_entries))
    end.
End backend.

(** ** [list_objects] *)

Record list_params := Mk_list_params {
  lp_prefix : str; lp_delim : str; lp_marker : rgw_obj_key; lp_end_marker : rgw_obj_key; lp_ns : str;
  lp_enforce_ns : bool; lp_list_versions : bool
}.

Record list_state := Mk_list_state {
  ls_count : Z;
  ls_result : list RGWObjEnt;
  ls_prefixes : list (str * bool);
  ls_marker : rgw_obj_key;         (* [params.marker] *)
  ls_next : rgw_obj_key;           (* [next_marker] *)
  ls_skip : str                    (* [skip_after_delim] *)
}.

(** [s.find(sub, pos)] *)
Definition find_sub_from (sub : str) (pos : nat) (s : str) : option nat :=
  if (length s <? pos)%nat then None else option_map (Nat.add pos) (find_sub sub (drop pos s)).

Definition str_ltb (a b : str) : bool := match str_compare a b with Lt => true | _ => false end.

Section list_objects.
Variable p : list_params.
Variable max : Z.
Variable bigger_than_delim : str.
Variable cur_end_marker : rgw_obj_key.

(** The body of the loop over a page: the state, or how the listing ends. *)
Definition list_entry (e : RGWObjEnt) (st : list_state) : list_state * option bool :=
  let key := oe_key e in
  let '(valid, (name, _, ns)) := parse_raw_oid (rk_name key) (rk_name key) in
  let obj := Mk_rgw_obj_key name (rk_instance key) in
  if negb valid then (st, None)
  else if negb (lp_list_versions p) && negb (ent_is_visible e) then (st, None)
  else if lp_enforce_ns p && negb (streq ns (lp_ns p)) then
    (st, if negb (length (lp_ns p) =? 0)%nat then Some false else None)
  else if negb (key_empty cur_end_marker) && rgw_obj_key_leb cur_end_marker obj then (st, Some false)
  else
    let st := if ls_count st <? max
              then Mk_list_state (ls_count st) (ls_result st) (ls_prefixes st) obj obj (ls_skip st) else st in
    if negb (length (lp_prefix p) =? 0)%nat && negb (has_prefix (lp_prefix p) name) then (st, None)
    else
      match (if (length (lp_delim p) =? 0)%nat then None else find_sub_from (lp_delim p) (length (lp_prefix p)) name) with
      | Some delim_pos =>
          let prefix_key := take (delim_pos + 1) name in
          if mmem prefix_key (ls_prefixes st) then (st, None)
          else if ls_count st >=? max then (st, Some true)
          else (Mk_list_state (ls_count st + 1) (ls_result st) (mset prefix_key true (ls_prefixes st)) (ls_marker st)
                  (Mk_rgw_obj_key prefix_key []) (take delim_pos name ++ bigger_than_delim), None)
      | None =>
          if ls_count st >=? max then (st, Some true)
          else
            let ent := Mk_ent obj ns (oe_owner e) (oe_owner_display_name e) (oe_size e) (oe_mtime e) (oe_etag e)
                         (oe_content_type e) (oe_tag e) (oe_flags e) (oe_versioned_epoch e) in
            (Mk_list_state (ls_count st + 1) (ls_result st ++ [ent]) (ls_prefixes st) (ls_marker st) (ls_next st)
               (ls_skip st), None)
      end.

Fixpoint list_entries (es : list (str * RGWObjEnt)) (st : list_state) : list_state * option bool :=
  match es with
  | [] => (st, None)
  | (_, e) :: es =>
      match list_entry e st with
      | (st, None) => list_entries es st
      | r => r
      end
  end.

(** A page of the index from a marker on: [cls_bucket_list]. *)
Variable page : rgw_obj_key → str → Z → Z + (list (str * RGWObjEnt) * bool * option rgw_obj_key).
Variable cur_prefix : str.

(** The loop over the pages: [None] when the fuel runs out. *)
Fixpoint list_loop (fuel : nat) (truncated : bool) (cur_marker : rgw_obj_key) (st : list_state)
    : option (Z + (bool * list_state)) :=
  if negb (truncated && (ls_count st <=? max)) then Some (inr (truncated, st))
  else
    match fuel with
    | O => None
    | S fuel' =>
        let cur_marker := if str_ltb (rk_name cur_marker) (ls_skip st) then Mk_rgw_obj_key (ls_skip st) []
                          else cur_marker in
        match page cur_marker cur_prefix (u32 (s32 (max + 1) - ls_count st)) with
        | inl r => Some (inl r)
        | inr (ents, truncated, last) =>
            match list_entries ents st with
            | (st, Some truncated) => Some (inr (truncated, st))
            | (st, None) => list_loop fuel' truncated (default cur_marker last) st
            end
        end
    end.
End list_objects.

(** [list_objects]: the error, or whether there is more, and the state with the
    objects and the common prefixes. *)
Definition list_objects (fuel : nat) (p : list_params) (max : Z) (system : bool)
    (page : rgw_obj_key → str → Z → Z + (list (str * RGWObjEnt) * bool * option rgw_obj_key))
    (common_prefixes : list (str * bool)) (next_marker : rgw_obj_key) : option (Z + (bool * list_state)) :=
  if system then Some (inl (- EINVAL))
  else
    let obj_of (k : rgw_obj_key) := set_obj (rk_name k) (snd (set_ns (lp_ns p) (snd (set_instance (rk_instance k) rgw_obj_new)))) in
    let cur_marker := get_index_key (obj_of (lp_marker p)) in
    let cur_end_marker := if (length (lp_ns p) =? 0)%nat then get_index_key (obj_of (lp_end_marker p)) else rgw_obj_key_new in
    let cur_prefix := get_index_key_name (set_obj (lp_prefix p) (snd (set_ns (lp_ns p) rgw_obj_new))) in
    let run bigger cur_marker :=
      list_loop p max bigger cur_end_marker page cur_prefix fuel true cur_marker
        (Mk_list_state 0 [] common_prefixes (lp_marker p) next_marker []) in
    if (length (lp_delim p) =? 0)%nat then run [] cur_marker
    else
      match encode_utf8 (decode_utf8 (lp_delim p) + 1) with
      | None => Some (inl (- EINVAL))
      | Some buf =>
          let bigger := cstr buf in
          run bigger
            (match find_sub_from (lp_delim p) (length (lp_prefix p)) (rk_name cur_marker) with
             | Some pos => Mk_rgw_obj_key (take pos (rk_name cur_marker) ++ bigger) []
             | None => cur_marker
             end)
      end.

(** ** The request *)

Definition default_max : Z := 1000.

(** [parse_max_keys]: the error, or the number. *)
Definition parse_max_keys (max_keys : str) : Z + Z :=
  match max_keys with
  | [] => inr default_max
  | _ =>
      let '(v, endpos, _) := strtoll (cstr max_keys) 10 in
      match skip_spaces (drop endpos (cstr max_keys)) with
      | [] => inr (s32 v)
      | _ => inl (- EINVAL)
      end
  end.

(** [RGWListBucket_ObjStore_S3::get_params]: the error, or the parameters and
    the number of keys. *)
Definition list_get_params (args : RGWHTTPArgs) : Z + (list_params * Z) :=
  let arg (n : str) := fst (args_get n args) in
  let versions := args_exists "versions" args in
  let marker := if versions then Mk_rgw_obj_key (arg "key-marker") (arg "version-id-marker")
                else Mk_rgw_obj_key (arg "marker") [] in
  match parse_max_keys (arg "max-keys") with
  | inl r => inl r
  | inr max => inr (Mk_list_params (arg "prefix") (arg "delimiter") marker rgw_obj_key_new [] true versions, max)
  end.
