(* ===== verification/ListingFacts.v ===== *)
(** * What a listing gives

    The merge of the shards is the sorted list of all their entries, cut off
    after the number asked for; a listing sorts a page into objects and common
    prefixes.  The places where the listing of a directory falls short of this
    are stated at the end. *)

From S2P Require Import Prelude StdMap Encoding Utime ClsRgwTypes ClsRgwOps CString Env Http Strtol Utf8 Errors RgwObj Records.
From S2P Require Import SysInfo Listing.

(** ** The merge *)

Definition ent_map (l : shard) : list (str * RGWObjEnt) := map (λ p, (fst p, ent_of (snd p))) l.

(** The candidates are the first keys of the shards. *)
Definition cand_ok (cand : list (str * nat)) (vs : list shard) : Prop :=
  msorted cand ∧ ∀ k i, mfind k cand = Some i ↔ ∃ e l, vs !! i = Some ((k, e) :: l).

Lemma concat_insert {A} (vs : list (list A)) i x rest :
  vs !! i = Some (x :: rest) → concat vs ≡ₚ x :: concat (<[i := rest]> vs).
Proof.
  revert i. induction vs as [|v vs IH]; intros [|i] H; cbn in *; [done..| |].
  - by injection H as ->.
  - rewrite (IH i H). apply Permutation_sym, Permutation_middle.
Qed.

Lemma concat_lookup {A} (vs : list (list A)) i v x : vs !! i = Some v → x ∈ v → x ∈ concat vs.
Proof.
  intros Hi Hx. apply list_elem_of_In, in_concat. exists v.
  split; apply list_elem_of_In; [by eapply list_elem_of_lookup_2|done].
Qed.

Lemma concat_elem {A} (vs : list (list A)) x : x ∈ concat vs → ∃ i v, vs !! i = Some v ∧ x ∈ v.
Proof.
  intros (v & Hv & Hx)%list_elem_of_In%in_concat. apply list_elem_of_In, list_elem_of_lookup in Hv as [i Hi].
  exists i, v. split; [done|by apply list_elem_of_In].
Qed.

Lemma msorted_keys_nodup {V} (m : list (str * V)) : msorted m → NoDup (map fst m).
Proof.
  induction m as [|[k v] m IH]; cbn; [constructor|]. intros [Hk Hm]. constructor; [|by apply IH].
  intros (p & E & Hp)%list_elem_of_fmap. rewrite Forall_forall in Hk. specialize (Hk p Hp).
  by rewrite <- E, compare_refl in Hk.
Qed.

Lemma heads_differ {V} (vs : list (list (str * V))) i j k e l e' l' :
  NoDup (map fst (concat vs)) → vs !! i = Some ((k, e) :: l) → vs !! j = Some ((k, e') :: l') → i = j.
Proof.
  intros Hnd Hi Hj. destruct (decide (i = j)) as [|Hne]; [done|exfalso].
  assert (Hp : map fst (concat vs) ≡ₚ k :: map fst (concat (<[i := l]> vs))).
  { rewrite (concat_insert vs i (k, e) l Hi). done. }
  rewrite Hp in Hnd. apply NoDup_cons in Hnd as [Hk _]. apply Hk.
  apply list_elem_of_fmap. exists (k, e'). split; [done|].
  eapply (concat_lookup _ j); [by rewrite list_lookup_insert_ne|]. apply elem_of_cons. by left.
Qed.

Lemma msorted_head {V} (k : str) (v : V) m p : msorted ((k, v) :: m) → p ∈ (k, v) :: m → p = (k, v) ∨ compare k (fst p) = Lt.
Proof.
  intros [Hk _] [->|Hp]%elem_of_cons; [by left|right]. rewrite Forall_forall in Hk. by apply Hk.
Qed.

Lemma lt_asym (a b : str) : compare a b = Lt → compare b a = Lt → False.
Proof. intros H. rewrite compare_antisym, H. done. Qed.

(** The first candidate is the least entry. *)
Lemma first_candidate cand vs k e tl :
  cand_ok cand vs → (∀ i v, vs !! i = Some v → msorted v) →
  msorted ((k, e) :: tl) → (k, e) :: tl ≡ₚ concat vs →
  ∃ pos cand' rest, cand = (k, pos) :: cand' ∧ vs !! pos = Some ((k, e) :: rest).
Proof.
  intros [Hs Hc] Hv Hall Hp.
  assert (Hmin : ∀ i k1 e1 l1, vs !! i = Some ((k1, e1) :: l1) → (k1, e1) = (k, e) ∨ compare k k1 = Lt).
  { intros i k1 e1 l1 Hi. apply (msorted_head k e tl (k1, e1) Hall). rewrite Hp.
    eapply concat_lookup; [done|]. apply elem_of_cons. by left. }
  assert (Hin : (k, e) ∈ concat vs) by (rewrite <- Hp; apply elem_of_cons; by left).
  apply concat_elem in Hin as (i & v & Hi & Hin). destruct v as [|[k1 e1] l1]; [by apply not_elem_of_nil in Hin|].
  assert ((k1, e1) = (k, e)) as [= -> ->].
  { destruct (Hmin i k1 e1 l1 Hi) as [|Hlt]; [done|].
    destruct (msorted_head k1 e1 l1 (k, e) (Hv i _ Hi) Hin) as [|Hlt']; [done|].
    by destruct (lt_asym _ _ Hlt Hlt'). }
  assert (Hf : mfind k cand = Some i) by (apply Hc; eauto).
  destruct cand as [|[k2 j] cand']; [done|].
  assert (k2 = k) as ->.
  { destruct (proj1 (Hc k2 j)) as (e2 & l2 & Hj); [cbn; by rewrite compare_refl|].
    destruct (Hmin j k2 e2 l2 Hj) as [[= -> _]|Hlt]; [done|].
    pose proof (mfind_elem _ _ _ Hf) as Hel. destruct (msorted_head k2 j cand' (k, i) Hs Hel) as [[= -> _]|Hlt']; [done|].
    by destruct (lt_asym _ _ Hlt Hlt'). }
  cbn in Hf. rewrite compare_refl in Hf. injection Hf as ->. by exists i, cand', l1.
Qed.

Lemma cand_ok_next k pos cand' vs e rest :
  cand_ok ((k, pos) :: cand') vs → vs !! pos = Some ((k, e) :: rest) → NoDup (map fst (concat vs)) →
  cand_ok (match rest with [] => cand' | (k', _) :: _ => mset k' pos cand' end) (<[pos := rest]> vs).
Proof.
  intros [[Hk Hs] Hc] Hpos Hnd.
  assert (Hold : ∀ q i, mfind q cand' = Some i ↔ i ≠ pos ∧ ∃ e l, vs !! i = Some ((q, e) :: l)).
  { intros q i. rewrite <- Hc. cbn. destruct (compare q k) eqn:E.
    - apply compare_eq in E as ->. rewrite mfind_Forall_Lt by done.
      split; [done|]. intros [Hne [= ->]]. done.
    - split; [|by intros [_ ?]]. intros H. split; [|done]. intros ->.
      destruct (proj1 (Hc q pos)) as (e1 & l1 & H1); [cbn; by rewrite E|].
      rewrite Hpos in H1. injection H1 as <- _ _. by rewrite compare_refl in E.
    - split; [|by intros [_ ?]]. intros H. split; [|done]. intros ->.
      destruct (proj1 (Hc q pos)) as (e1 & l1 & H1); [cbn; by rewrite E|].
      rewrite Hpos in H1. injection H1 as <- _ _. by rewrite compare_refl in E. }
  assert (Hlen : (pos < length vs)%nat) by (by eapply lookup_lt_Some).
  split; [destruct rest as [|[k' e'] rest]; [done|by apply mset_sorted]|].
  intros q i. destruct (decide (i = pos)) as [->|Hne].
  - rewrite list_lookup_insert_eq by done. destruct rest as [|[k' e'] rest].
    + rewrite Hold. split; [by intros [? _]|by intros (? & ? & ?)].
    + rewrite mfind_mset. destruct (compare k' q) eqn:E.
      { apply compare_eq in E as ->. split; eauto. }
      all: rewrite Hold; split; [by intros [? _]|]; intros (e1 & l1 & [= -> _ _]); by rewrite compare_refl in E.
  - rewrite list_lookup_insert_ne by done. destruct rest as [|[k' e'] rest].
    + rewrite Hold. split; [by intros [_ ?]|by split].
    + rewrite mfind_mset. destruct (compare k' q) eqn:E; [|rewrite Hold; split; [by intros [_ ?]|by split]..].
      apply compare_eq in E as ->. split; [by intros [= ->]|]. intros (e1 & l1 & H1). exfalso.
      assert (Hnd' : NoDup (map fst (concat (<[pos := (q, e') :: rest]> vs)))).
      { rewrite (concat_insert vs pos _ _ Hpos) in Hnd. cbn in Hnd. by apply NoDup_cons in Hnd as [_ ?]. }
      apply Hne. apply (heads_differ _ i pos q e1 l1 e' rest Hnd').
      * by rewrite list_lookup_insert_ne.
      * by rewrite list_lookup_insert_eq.
Qed.

Lemma cand_ok_empty vs : cand_ok [] vs → concat vs = [].
Proof.
  intros [_ Hc]. destruct (concat vs) as [|x r] eqn:E; [done|exfalso].
  destruct (concat_elem vs x) as (i & v & Hi & Hx); [rewrite E; apply elem_of_cons; by left|].
  destruct v as [|[k e] l]; [by apply not_elem_of_nil in Hx|].
  assert (H : mfind k ([] : list (str * nat)) = Some i) by (apply Hc; eauto). done.
Qed.

Lemma mset_after {V} (k : str) (v : V) m :
  Forall (λ p, compare (fst p) k = Lt) m → mset k v m = m ++ [(k, v)].
Proof.
  induction 1 as [|[k' v'] m Hk _ IH]; cbn in *; [done|].
  rewrite compare_antisym, Hk. cbn. by rewrite IH.
Qed.

Lemma merge_loop_spec fuel n count cand vs m all :
  cand_ok cand vs → (∀ i v, vs !! i = Some v → msorted v) →
  msorted all → all ≡ₚ concat vs →
  (∀ p q, p ∈ m → q ∈ all → compare (fst p) (fst q) = Lt) →
  (length all < fuel)%nat →
  let k := Z.to_nat (n - count) in
  ∃ vs', merge_loop fuel n count cand vs m = (m ++ ent_map (take k all), vs') ∧ concat vs' ≡ₚ drop k all.
Proof.
  revert count cand vs m all. induction fuel as [|fuel IH]; intros count cand vs m all Hc Hv Hall Hp Hm Hf; [lia|].
  cbv zeta. cbn [merge_loop]. destruct (Z.ltb_spec count n) as [Hlt|Hge]; cbn [negb].
  2:{ replace (Z.to_nat (n - count)) with O by lia. rewrite take_0, drop_0, app_nil_r. by exists vs. }
  replace (Z.to_nat (n - count)) with (S (Z.to_nat (n - (count + 1)))) by lia.
  destruct all as [|[k e] tl].
  { apply Permutation_nil_l in Hp. symmetry in Hp. destruct cand as [|[q i] cand].
    - exists vs. rewrite take_nil, drop_nil, app_nil_r, Hp. done.
    - exfalso. destruct (proj1 (proj2 Hc q i)) as (e & l & Hi); [cbn; by rewrite compare_refl|].
      assert (Hin : (q, e) ∈ concat vs) by (eapply concat_lookup; [done|]; apply elem_of_cons; by left).
      rewrite Hp in Hin. by apply not_elem_of_nil in Hin. }
  destruct (first_candidate cand vs k e tl Hc Hv Hall Hp) as (pos & cand' & rest & -> & Hpos).
  rewrite Hpos. rewrite mset_after.
  2:{ apply Forall_forall. intros p Hin. apply (Hm p (k, e) Hin), elem_of_cons. by left. }
  assert (Hp' : tl ≡ₚ concat (<[pos := rest]> vs)).
  { rewrite (concat_insert vs pos _ _ Hpos) in Hp. by apply Permutation_cons_inv in Hp. }
  destruct (IH (count + 1) (match rest with [] => cand' | (k', _) :: _ => mset k' pos cand' end)
              (<[pos := rest]> vs) (m ++ [(k, ent_of e)]) tl) as (vs' & -> & Hvs').
  - apply (cand_ok_next k pos cand' vs e rest Hc Hpos). rewrite <- Hp. by apply msorted_keys_nodup.
  - intros i v Hi. destruct (decide (i = pos)) as [->|Hne].
    + rewrite list_lookup_insert_eq in Hi by (by eapply lookup_lt_Some). injection Hi as <-.
      apply (Hv pos _ Hpos).
    + rewrite list_lookup_insert_ne in Hi by done. by eapply Hv.
  - apply Hall.
  - done.
  - intros p q [Hin| ->%list_elem_of_singleton]%elem_of_app Hq.
    + apply Hm; [done|]. apply elem_of_cons. by right.
    + destruct Hall as [Hk _]. rewrite Forall_forall in Hk. by apply Hk.
  - cbn in Hf. lia.
  - exists vs'. split; [|done]. by rewrite <- app_assoc.
Qed.

Lemma first_candidates_spec i vs cand ws :
  cand_ok cand ws → length ws = i → NoDup (map fst (concat (ws ++ vs))) →
  cand_ok (first_candidates i vs cand) (ws ++ vs).
Proof.
  revert i cand ws. induction vs as [|v vs IH]; intros i cand ws Hc Hi Hnd; cbn [first_candidates].
  { by rewrite app_nil_r. }
  rewrite (cons_middle v ws vs), (app_assoc ws [v] vs) in *. apply IH; [|by rewrite length_app, Hi, Nat.add_1_r|done].
  destruct Hc as [Hs Hc]. assert (Hlast : (ws ++ [v]) !! i = Some v) by (by rewrite <- Hi, list_lookup_middle).
  assert (Hbelow : ∀ j, j ≠ i → (ws ++ [v]) !! j = ws !! j).
  { intros j Hj. destruct (decide (j < i)%nat); [apply lookup_app_l; lia|].
    rewrite (lookup_ge_None_2 ws) by lia. apply lookup_ge_None_2. rewrite length_app. cbn. lia. }
  assert (Hnone : ws !! i = None) by (apply lookup_ge_None_2; lia).
  split; [destruct v as [|[k e] l]; [done|by apply mset_sorted]|]. intros q j.
  destruct (decide (j = i)) as [->|Hj].
  - rewrite Hlast. destruct v as [|[k e] l].
    + rewrite Hc, Hnone. split; intros (? & ? & ?); done.
    + rewrite mfind_mset. destruct (compare k q) eqn:E; [apply compare_eq in E as ->; split; eauto|..];
        rewrite Hc, Hnone; (split; [intros (? & ? & ?); done|]);
        intros (e1 & l1 & [= -> _ _]); by rewrite compare_refl in E.
  - rewrite Hbelow by done. destruct v as [|[k e] l]; [apply Hc|].
    rewrite mfind_mset. destruct (compare k q) eqn:E; [|apply Hc..]. apply compare_eq in E as ->.
    split; [by intros [= ->]|]. intros (e1 & l1 & H1). exfalso. apply Hj.
    apply (heads_differ ((ws ++ [(q, e) :: l]) ++ vs) j i q e1 l1 e l Hnd).
    + rewrite lookup_app_l, Hbelow; [done|done|]. apply lookup_lt_Some in H1. rewrite length_app. lia.
    + rewrite lookup_app_l; [done|]. rewrite length_app. cbn. lia.
Qed.

Lemma nonempty_existsb {A} (vs : list (list A)) :
  existsb (λ v, negb (length v =? 0)%nat) vs = negb (length (concat vs) =? 0)%nat.
Proof.
  induction vs as [|v vs IH]; [done|]. cbn. rewrite IH, length_app.
  destruct v as [|x v]; [done|]. cbn. done.
Qed.

Lemma concat_replicate_nil {A} n (vs : list (list A)) : concat (replicate n [] ++ vs) = concat vs.
Proof. by induction n. Qed.

Definition shard_of (r : Z * rgw_cls_list_ret) : shard := dd_m (lr_dir (snd r)).

Lemma cls_bucket_list_page rs num all :
  0 <= num → Forall (λ r, msorted (shard_of r)) rs → msorted all → all ≡ₚ concat (map shard_of rs) →
  cls_bucket_list rs num
  = (ent_map (take (Z.to_nat num) all),
     existsb (λ r, lr_is_truncated (snd r)) rs || (num <? zlen all),
     match last (take (Z.to_nat num) all) with Some p => Some (Mk_rgw_obj_key (fst p) []) | None => None end).
Proof.
  intros Hn Hrs Hall Hp. unfold cls_bucket_list.
  change (map (λ r, dd_m (lr_dir (snd r))) rs) with (map shard_of rs).
  set (vs := replicate (length rs) [] ++ map shard_of rs).
  assert (Hvs : concat vs = concat (map shard_of rs)) by apply concat_replicate_nil.
  assert (Hp' : all ≡ₚ concat vs) by (by rewrite Hvs).
  destruct (merge_loop_spec (S (length (concat vs))) num 0 (first_candidates 0 vs []) vs [] all)
    as (rest & -> & Hrest).
  - apply (first_candidates_spec 0 vs [] []); [|done|cbn [app]; rewrite <- Hp'; by apply msorted_keys_nodup].
    split; [done|]. intros k i. cbn. split; [done|]. by intros (? & ? & ?).
  - intros i v Hi. unfold vs in Hi. apply lookup_app_Some in Hi as [Hi|[_ Hi]].
    { by apply lookup_replicate_1 in Hi as [-> _]. }
    apply list_elem_of_lookup_2, list_elem_of_fmap in Hi as (r & -> & Hr). rewrite Forall_forall in Hrs.
    by apply Hrs.
  - done.
  - done.
  - intros p q []%not_elem_of_nil.
  - rewrite <- Hp'. lia.
  - rewrite Z.sub_0_r in *. cbn [app]. f_equal; [f_equal|].
    + f_equal. rewrite nonempty_existsb, (Permutation_length Hrest), length_drop. unfold zlen.
      destruct (Z.ltb_spec num (Z.of_nat (length all))).
      * rewrite (proj2 (Nat.eqb_neq _ _)) by lia. done.
      * rewrite (proj2 (Nat.eqb_eq _ _)) by lia. done.
    + generalize (take (Z.to_nat num) all). intros l. destruct l as [|x l _] using rev_ind; [done|].
      unfold ent_map. rewrite !map_app. cbn. rewrite List.last_last, last_snoc.
      by destruct (fst x), l.
Qed.

(** C10: a page of the index is the least entries of all shards together, in
    order, as many as were asked for: the merge agrees with sorting everything
    and cutting off.  There is more when a shard says so or entries are left;
    the last key is that of the last entry. *)
Theorem cls_bucket_list_spec rs num all :
  0 <= num → Forall (λ r, msorted (shard_of r)) rs → msorted all → all ≡ₚ concat (map shard_of rs) →
  cls_bucket_list rs num
  = (ent_map (take (Z.to_nat num) all),
     existsb (λ r, lr_is_truncated (snd r)) rs || (num <? zlen all),
     match last (take (Z.to_nat num) all) with Some p => Some (Mk_rgw_obj_key (fst p) []) | None => None end).
Proof. apply cls_bucket_list_page. Qed.

Definition demo_dirent (n : str) : rgw_bucket_dir_entry :=
  Mk_rgw_bucket_dir_entry (Mk_cls_rgw_obj_key n []) rgw_bucket_entry_ver_new [] false rgw_bucket_dir_entry_meta_new [] 0 [] 0 0.
Definition demo_index (names : list str) : shard := map (λ n, (n, demo_dirent n)) names.
Definition demo_results (trunc : bool) (l : list (list str)) : list (Z * rgw_cls_list_ret) :=
  imap (λ i ns, (Z.of_nat i, Mk_rgw_cls_list_ret (Mk_rgw_bucket_dir rgw_bucket_dir_header_new (demo_index ns)) trunc)) l.

Lemma cls_bucket_list_spec_witness :
  cls_bucket_list (demo_results false [["b"; "e"]; ["a"; "d"]; []; ["c"]]) 3
  = (ent_map (demo_index ["a"; "b"; "c"]), true, Some (Mk_rgw_obj_key "c" [])).
Proof.
  rewrite (cls_bucket_list_spec (demo_results false [["b"; "e"]; ["a"; "d"]; []; ["c"]]) 3
    (demo_index ["a"; "b"; "c"; "d"; "e"])); [reflexivity|lia| | |].
  - repeat constructor.
  - repeat constructor.
  - apply (Permutation_map (λ n, (n, demo_dirent n)) (l := ["a"; "b"; "c"; "d"; "e"]) (l' := ["b"; "e"; "a"; "d"; "c"])).
    apply NoDup_Permutation; [apply (bool_decide_unpack _); done..|].
    intros x. rewrite !elem_of_cons, !elem_of_nil. tauto.
Defined.

(** ** Sorting a page *)

Section list_facts.
Variable p : list_params.
Variable max : Z.
Hypothesis Hns : lp_ns p = [].
Hypothesis Hend : lp_end_marker p = rgw_obj_key_new.
Hypothesis Hmax : 0 <= max < 2 ^ 31 - 1.

(** An object in no namespace that the listing shows. *)
Definition plain_ent (e : RGWObjEnt) : Prop :=
  starts_ (rk_name (oe_key e)) = false ∧ ent_is_visible e = true ∧ oe_ns e = []
  ∧ has_prefix (lp_prefix p) (rk_name (oe_key e)) = true.

(** The common prefix an object belongs to. *)
Definition prefix_of (e : RGWObjEnt) : option str :=
  if (length (lp_delim p) =? 0)%nat then None
  else option_map (λ pos, take (pos + 1) (rk_name (oe_key e)))
         (find_sub_from (lp_delim p) (length (lp_prefix p)) (rk_name (oe_key e))).

Definition mark (e : RGWObjEnt) (st : list_state) : list_state :=
  if ls_count st <? max
  then Mk_list_state (ls_count st) (ls_result st) (ls_prefixes st) (oe_key e) (oe_key e) (ls_skip st) else st.

Lemma mark_fields e st :
  ls_count (mark e st) = ls_count st ∧ ls_result (mark e st) = ls_result st
  ∧ ls_prefixes (mark e st) = ls_prefixes st ∧ ls_skip (mark e st) = ls_skip st.
Proof. unfold mark. by destruct (_ <? _). Qed.

Lemma list_entry_plain bigger e st :
  plain_ent e →
  match prefix_of e with
  | None =>
      list_entry p max bigger rgw_obj_key_new e st
      = if ls_count st >=? max then (mark e st, Some true)
        else (Mk_list_state (ls_count st + 1) (ls_result st ++ [e]) (ls_prefixes st) (ls_marker (mark e st))
                (ls_next (mark e st)) (ls_skip st), None)
  | Some k =>
      if mmem k (ls_prefixes st) then list_entry p max bigger rgw_obj_key_new e st = (mark e st, None)
      else if ls_count st >=? max then list_entry p max bigger rgw_obj_key_new e st = (mark e st, Some true)
      else ∃ skip, list_entry p max bigger rgw_obj_key_new e st
           = (Mk_list_state (ls_count st + 1) (ls_result st) (mset k true (ls_prefixes st)) (ls_marker (mark e st))
                (Mk_rgw_obj_key k []) skip, None)
  end.
Proof.
  destruct e as [[name inst] ns owner disp size mtime etag ct tag flags ep]. intros (H1 & H2 & H3 & H4).
  cbn in H1, H3, H4. subst ns. unfold list_entry, prefix_of. cbn [oe_key rk_name rk_instance].
  unfold parse_raw_oid. rewrite H1. cbn [negb]. rewrite H2, Hns, andb_false_r.
  change (streq [] []) with true. rewrite andb_false_r.
  change (key_empty rgw_obj_key_new) with true. cbn [negb andb]. rewrite H4. rewrite andb_false_r.
  change (if ls_count st <? max then _ else st)
    with (mark (Mk_ent (Mk_rgw_obj_key name inst) [] owner disp size mtime etag ct tag flags ep) st).
  set (e := Mk_ent _ _ _ _ _ _ _ _ _ _ _).
  destruct (mark_fields e st) as (E1 & E2 & E3 & E4). rewrite ?E1, ?E2, ?E3, ?E4.
  destruct (length (lp_delim p) =? 0)%nat; [by destruct (_ >=? _)|].
  destruct (find_sub_from _ _ _) as [pos|]; cbn [option_map]; [|by destruct (_ >=? _)].
  destruct (mmem _ _); [done|]. destruct (_ >=? _); [done|]. by eexists.
Qed.

(** Without a delimiter, the page is the result, as far as there is room. *)
Lemma list_entries_plain bigger es st :
  lp_delim p = [] → Forall (λ q, plain_ent (snd q)) es → ls_count st <= max →
  ∃ st', list_entries p max bigger rgw_obj_key_new es st
         = (st', if ls_count st + zlen es <=? max then None else Some true)
       ∧ ls_result st' = ls_result st ++ take (Z.to_nat (max - ls_count st)) (map snd es)
       ∧ ls_prefixes st' = ls_prefixes st.
Proof.
  intros Hd Hes. revert st. induction Hes as [|[n e] es He _ IH]; intros st Hc.
  { exists st. cbn. rewrite zlen_nil, Z.add_0_r, (proj2 (Z.leb_le _ _)), take_nil, app_nil_r by done. done. }
  cbn [list_entries]. pose proof (list_entry_plain bigger e st He) as Hle.
  unfold prefix_of in Hle. rewrite Hd in Hle. cbn [length Nat.eqb snd] in Hle. rewrite Hle.
  rewrite zlen_cons. pose proof (zlen_nonneg es). rewrite Z.geb_leb. destruct (Z.leb_spec max (ls_count st)).
  - exists (mark e st). rewrite (proj2 (Z.leb_gt _ _)) by lia. replace (Z.to_nat (max - ls_count st)) with O by lia.
    destruct (mark_fields e st) as (_ & -> & -> & _). by rewrite take_0, app_nil_r.
  - destruct (IH (Mk_list_state (ls_count st + 1) (ls_result st ++ [e]) (ls_prefixes st) (ls_marker (mark e st))
                (ls_next (mark e st)) (ls_skip st))) as (st' & -> & E1 & E2); [cbn; lia|].
    cbn [ls_count ls_result ls_prefixes] in *. exists st'. rewrite E1, E2. split_and!; [| |done].
    + by rewrite <- Z.add_assoc, (Z.add_comm 1).
    + rewrite <- app_assoc. f_equal. replace (Z.to_nat (max - ls_count st)) with (S (Z.to_nat (max - (ls_count st + 1)))) by lia.
      done.
Qed.

Definition in_prefixes (k : str) (es : list RGWObjEnt) : Prop := ∃ e, e ∈ es ∧ prefix_of e = Some k.

Lemma in_prefixes_cons k e es : in_prefixes k (e :: es) ↔ prefix_of e = Some k ∨ in_prefixes k es.
Proof.
  unfold in_prefixes. split.
  - intros (x & [->|Hx]%elem_of_cons & Hk); eauto.
  - intros [Hk|(x & Hx & Hk)]; eexists; (split; [apply elem_of_cons; eauto|done]).
Qed.

(** With room for all of it, a page is sorted into objects and prefixes. *)
Lemma list_entries_prefixes bigger es st :
  Forall (λ q, plain_ent (snd q)) es → 0 <= ls_count st → ls_count st + zlen es <= max → 
  ∃ st', list_entries p max bigger rgw_obj_key_new es st = (st', None)
       ∧ ls_result st' = ls_result st ++ filter (λ e, prefix_of e = None) (map snd es)
       ∧ (∀ k, mmem k (ls_prefixes st') = true ↔ mmem k (ls_prefixes st) = true ∨ in_prefixes k (map snd es)).
Proof.
  intros Hes. revert st. induction Hes as [|[n e] es He _ IH]; intros st Hc Hroom.
  { exists st. cbn. rewrite app_nil_r. split_and!; [done|done|]. intros k. split; [by left|].
    intros [?|(e & []%not_elem_of_nil & _)]. done. }
  rewrite zlen_cons in Hroom. pose proof (zlen_nonneg es). cbn [list_entries map snd].
  pose proof (list_entry_plain bigger e st He) as Hle. cbn [snd] in *. rewrite filter_cons.
  rewrite Z.geb_leb, (proj2 (Z.leb_gt max (ls_count st))) in Hle by lia.
  destruct (mark_fields e st) as (M1 & M2 & M3 & _).
  destruct (prefix_of e) as [k|] eqn:Ek; [rewrite decide_False by done|rewrite decide_True by done].
  - destruct (mmem k (ls_prefixes st)) eqn:Em.
    + rewrite Hle. destruct (IH (mark e st)) as (st' & -> & E & Hp); [rewrite M1; lia..|].
      exists st'. rewrite M2 in E. split_and!; [done|done|]. intros k'. rewrite Hp, M3, in_prefixes_cons, Ek.
      split; [tauto|]. intros [?|[[= <-]|?]]; auto.
    + destruct Hle as [skip Hle]. rewrite Hle.
      destruct (IH (Mk_list_state (ls_count st + 1) (ls_result st) (mset k true (ls_prefixes st)) (ls_marker (mark e st))
                  (Mk_rgw_obj_key k []) skip)) as (st' & -> & E & Hp); [cbn [ls_count]; lia..|].
      exists st'. cbn [ls_result ls_prefixes] in *. split_and!; [done|done|]. intros k'.
      rewrite Hp, in_prefixes_cons, Ek. unfold mmem at 1. rewrite mfind_mset.
      destruct (decide (k = k')) as [->|Hne]; [rewrite compare_refl; tauto|].
      assert (Hc' : ∀ (x y : option bool), match compare k k' with Eq => x | _ => y end = y).
      { intros x y. destruct (compare k k') eqn:Ec; [by apply compare_eq in Ec|done..]. }
      rewrite Hc'. fold (mmem k' (ls_prefixes st)). split; [tauto|]. intros [?|[[= <-]|?]]; [tauto|done|tauto].
  - rewrite Hle. destruct (IH (Mk_list_state (ls_count st + 1) (ls_result st ++ [e]) (ls_prefixes st) (ls_marker (mark e st))
                (ls_next (mark e st)) (ls_skip st))) as (st' & -> & E & Hp); [cbn [ls_count]; lia..|].
    exists st'. cbn [ls_result ls_prefixes] in *. rewrite <- app_assoc in E. split_and!; [done|done|]. intros k'.
    rewrite Hp, in_prefixes_cons, Ek. split; [tauto|]. intros [?|[[=]|?]]; auto.
Qed.
End list_facts.

(** ** Listings of a directory *)

(** The pages of an index with one shard, as [issue_bucket_list_op] fills it:
    always from its beginning. *)
Definition dir_page (all : shard) (marker : rgw_obj_key) (prefix : str) (num : Z)
    : Z + (list (str * RGWObjEnt) * bool * option rgw_obj_key) :=
  inr (cls_bucket_list [(0, Mk_rgw_cls_list_ret (Mk_rgw_bucket_dir rgw_bucket_dir_header_new all) false)] num).

Lemma dir_page_spec all marker prefix num :
  0 <= num → msorted all →
  ∃ last, dir_page all marker prefix num = inr (ent_map (take (Z.to_nat num) all), num <? zlen all, last).
Proof.
  intros Hn Hall. unfold dir_page. eexists. rewrite (cls_bucket_list_page _ num all Hn); [reflexivity| |done|].
  - by repeat constructor.
  - cbn. by rewrite app_nil_r.
Qed.

Lemma no_end_marker p : lp_ns p = [] → lp_end_marker p = rgw_obj_key_new →
  (if (length (lp_ns p) =? 0)%nat
   then get_index_key (set_obj (rk_name (lp_end_marker p))
          (snd (set_ns (lp_ns p) (snd (set_instance (rk_instance (lp_end_marker p)) rgw_obj_new)))))
   else rgw_obj_key_new) = rgw_obj_key_new.
Proof. by intros -> ->. Qed.

Lemma page_size max : 0 <= max < 2 ^ 31 - 1 → u32 (s32 (max + 1) - 0) = max + 1.
Proof. intros Hm. unfold s32, u32. rewrite sgn_small by lia. rewrite Z.sub_0_r. apply Z.mod_small. lia. Qed.

Lemma zlen_take {A} n (l : list A) : zlen (take n l) = Z.min (Z.of_nat n) (zlen l).
Proof. unfold zlen. rewrite length_take. lia. Qed.

Lemma ent_map_take n all : ent_map (take n all) = take n (ent_map all).
Proof. unfold ent_map. by rewrite firstn_map. Qed.

Definition objects_of (all : shard) : list RGWObjEnt := map (λ q, ent_of (snd q)) all.

Lemma objects_of_map all : map snd (ent_map all) = objects_of all.
Proof. unfold ent_map, objects_of. rewrite map_map. done. Qed.

Definition plain_index (p : list_params) (all : shard) : Prop :=
  msorted all ∧ Forall (λ q, plain_ent p (ent_of (snd q))) all.

Lemma plain_page p all n : plain_index p all → Forall (λ q, plain_ent p (snd q)) (ent_map (take n all)).
Proof.
  intros [_ H]. unfold ent_map. rewrite Forall_map. eapply Forall_impl; [by apply Forall_take|]. done.
Qed.

(** Without a delimiter, a listing over the pages of an index with one shard
    gives its first entries, and ends with the first page. *)
Lemma list_objects_page fuel p max all next :
  lp_ns p = [] → lp_end_marker p = rgw_obj_key_new → lp_delim p = [] → 0 <= max < 2 ^ 31 - 1 →
  plain_index p all →
  ∃ st, list_objects (S fuel) p max false (dir_page all) [] next = Some (inr (max <? zlen all, st))
      ∧ ls_result st = take (Z.to_nat max) (objects_of all) ∧ ls_prefixes st = [].
Proof.
  intros Hns Hend Hd Hmax Hall. unfold list_objects. rewrite (no_end_marker p Hns Hend), Hd.
  cbn [length Nat.eqb]. set (st0 := Mk_list_state 0 [] [] (lp_marker p) next []).
  cbn [list_loop]. change (ls_count st0) with 0. rewrite (proj2 (Z.leb_le 0 max)) by lia. cbn [andb negb].
  rewrite page_size by done.
  match goal with |- context [dir_page all ?m ?pr _] => destruct (dir_page_spec all m pr (max + 1)) as [last ->] end;
    [lia|apply Hall|].
  destruct (list_entries_plain p max Hns [] (ent_map (take (Z.to_nat (max + 1)) all)) st0 Hd
              (plain_page p all _ Hall)) as (st & -> & Er & Ep); [cbn; lia|].
  assert (Hr : ls_result st = take (Z.to_nat max) (objects_of all)).
  { rewrite Er. change (ls_count st0) with 0. rewrite Z.sub_0_r. cbn [ls_result st0 app].
    rewrite objects_of_map. unfold objects_of. rewrite <- firstn_map, take_take. f_equal. lia. }
  assert (Hz : zlen (ent_map (take (Z.to_nat (max + 1)) all)) = Z.min (max + 1) (zlen all)).
  { unfold ent_map, zlen. rewrite length_map, length_take. lia. }
  change (ls_count st0) with 0. rewrite Hz. destruct (Z.ltb_spec max (zlen all)).
  - rewrite (proj2 (Z.leb_gt _ _)) by lia. by exists st.
  - rewrite (proj2 (Z.leb_le _ _)) by lia. exists st. rewrite (proj2 (Z.ltb_ge (max + 1) _)) by lia.
    split_and!; [by destruct fuel|done|done].
Qed.

Definition demo_params (delim marker : str) : list_params :=
  Mk_list_params [] delim (Mk_rgw_obj_key marker []) rgw_obj_key_new [] true false.

Lemma demo_plain delim marker names :
  msorted (demo_index names) → forallb (λ n, negb (starts_ n)) names = true →
  plain_index (demo_params delim marker) (demo_index names).
Proof.
  intros Hs Hn. split; [done|]. unfold demo_index. rewrite Forall_map. apply Forall_forall. intros n Hin.
  rewrite forallb_forall in Hn. apply list_elem_of_In, Hn, negb_true_iff in Hin. by split_and!.
Qed.

(** A listing with a delimiter, of a bucket that has no more objects than were
    asked for, gives the objects that have no delimiter behind the prefix, in
    order, and as common prefixes exactly the beginnings of the others up to
    the delimiter. *)
Lemma list_objects_delimited fuel p max all next bigger :
  lp_ns p = [] → lp_end_marker p = rgw_obj_key_new → encode_utf8 (decode_utf8 (lp_delim p) + 1) = Some bigger →
  0 <= max < 2 ^ 31 - 1 → plain_index p all → zlen all <= max →
  ∃ st, list_objects (S fuel) p max false (dir_page all) [] next = Some (inr (false, st))
      ∧ ls_result st = filter (λ e, prefix_of p e = None) (objects_of all)
      ∧ ∀ k, mmem k (ls_prefixes st) = true ↔ in_prefixes p k (objects_of all).
Proof.
  intros Hns Hend Henc Hmax Hall Hfit.
  set (st0 := Mk_list_state 0 [] [] (lp_marker p) next []).
  assert (Hloop : ∀ b cm cp, ∃ st,
    list_loop p max b rgw_obj_key_new (dir_page all) cp (S fuel) true cm st0 = Some (inr (false, st))
    ∧ ls_result st = filter (λ e, prefix_of p e = None) (objects_of all)
    ∧ ∀ k, mmem k (ls_prefixes st) = true ↔ in_prefixes p k (objects_of all)).
  { intros b cm cp. cbn [list_loop]. change (ls_count st0) with 0.
    rewrite (proj2 (Z.leb_le 0 max)) by lia. cbn [andb negb]. rewrite page_size by done.
    match goal with |- context [dir_page all ?m ?pr _] => destruct (dir_page_spec all m pr (max + 1)) as [last ->] end;
      [lia|apply Hall|].
    rewrite (proj2 (Z.ltb_ge (max + 1) _)) by lia.
    rewrite (firstn_all2 all) by (unfold zlen in Hfit; lia).
    assert (Hp : Forall (λ q, plain_ent p (snd q)) (ent_map all)).
    { rewrite <- (firstn_all all). by apply plain_page. }
    destruct (list_entries_prefixes p max Hns Hmax b (ent_map all) st0 Hp) as (st & -> & Er & Ep);
      [cbn; lia|cbn; unfold ent_map, zlen in *; rewrite length_map; lia|].
    exists st. rewrite objects_of_map in *. split_and!; [by destruct fuel|done|].
    intros k. rewrite Ep. cbn. split; [by intros [?|?]|by right]. }
  unfold list_objects. rewrite (no_end_marker p Hns Hend), Henc.
  destruct (length (lp_delim p) =? 0)%nat; apply Hloop.
Qed.

Lemma list_objects_delimited_witness :
  ∃ st, list_objects 1 (demo_params "/" "") 5 false (dir_page (demo_index ["a/x"; "a/y"; "b"])) [] rgw_obj_key_new
        = Some (inr (false, st))
      ∧ ls_result st = objects_of (demo_index ["b"])
      ∧ ∀ k, mmem k (ls_prefixes st) = true ↔ in_prefixes (demo_params "/" "") k (objects_of (demo_index ["a/x"; "a/y"; "b"])).
Proof.
  apply (list_objects_delimited 0 (demo_params "/" "") 5 (demo_index ["a/x"; "a/y"; "b"]) rgw_obj_key_new "0");
    [done|done|vm_compute; reflexivity|lia|apply demo_plain; [repeat constructor|done]|by vm_compute].
Defined.

(** ** From the files to the pages *)

Definition ls_text (names : list str) : str := concat (map (λ n, n ++ [NL]) names).

(** The index entry of a file. *)
Definition file_entry (name : str) (st : file_stat) : rgw_bucket_dir_entry :=
  let d := rgw_bucket_dir_entry_new in let m := de_meta d in
  Mk_rgw_bucket_dir_entry (Mk_cls_rgw_obj_key name []) (de_ver d) (de_locator d) (de_exists d)
    (Mk_rgw_bucket_dir_entry_meta (dm_category m) (u64 (fs_size st)) (Utime (u32 (fs_mtime st)) 0)
       (dm_etag m) (dm_owner m) (dm_owner_display_name m) (dm_content_type m) (dm_accounted_size m))
    (de_pending_map d) (de_index_ver d) (de_tag d) (de_flags d) (de_versioned_epoch d).

(** A name of a file system that fits into [file_name] with a slash behind it. *)
Definition file_name_ok (n : str) : Prop := n ≠ [] ∧ (NL ∉ n) ∧ (NUL ∉ n) ∧ ("/"%char ∉ n) ∧ zlen n < 255.

(** The name a file or directory is listed with. *)
Definition shown_as (n : str) (s : file_stat) : str := if fs_is_dir s then n ++ "/" else n.

Lemma shown_as_inj n1 s1 n2 s2 :
  file_name_ok n1 → file_name_ok n2 → shown_as n1 s1 = shown_as n2 s2 → n1 = n2.
Proof.
  intros (_ & _ & _ & H1 & _) (_ & _ & _ & H2 & _). unfold shown_as.
  destruct (fs_is_dir s1), (fs_is_dir s2); [|intros <-|intros ->|done].
  - by intros [? _]%app_inj_tail.
  - destruct H2. apply elem_of_app. right. by apply list_elem_of_singleton.
  - destruct H1. apply elem_of_app. right. by apply list_elem_of_singleton.
Qed.

Definition add_file (stat : str → option file_stat) (base : str) (m : shard) (n : str) : shard :=
  match stat (base ++ n) with Some s => mset (shown_as n s) (file_entry (shown_as n s) s) m | None => m end.

Lemma ls_loop_files stat base names fuel test m :
  Forall file_name_ok names →
  (∃ n s, test = file_entry n s) ∨ test = rgw_bucket_dir_entry_new →
  (length names <= fuel)%nat →
  ls_loop stat fuel base [] (ls_text names) test m = Some (fold_left (add_file stat base) names m).
Proof.
  intros Hok. revert fuel test m. induction Hok as [|n names (Hne & Hnl & _ & _ & Hlen) _ IH];
    intros [|fuel] test m Ht Hf; [done|done|cbn in Hf; lia|].
  assert (Espan : span not_nl (ls_text (n :: names)) = (n, NL :: ls_text names)).
  { unfold ls_text. cbn [map concat]. rewrite <- app_assoc. apply span_all; [|done].
    apply forallb_elem. intros c Hc. unfold not_nl, char_is. rewrite bool_decide_eq_false_2; [done|]. by intros ->. }
  cbn [ls_loop fold_left]. rewrite Espan. destruct (ls_text (n :: names)) as [|x r] eqn:El; [by destruct n|].
  destruct n as [|c n]; [done|]. rewrite (proj2 (Z.leb_gt _ _)) by lia.
  unfold add_file at 2. destruct (stat (base ++ c :: n)) as [s|] eqn:Hs; [|apply IH; [done|cbn in Hf; lia]].
  cbv zeta. fold (shown_as (c :: n) s). rewrite (proj2 (Z.leb_gt _ _)).
  2:{ unfold shown_as. destruct (fs_is_dir s); [|lia]. unfold zlen in *. rewrite length_app. cbn [length] in *. lia. }
  set (test' := Mk_rgw_bucket_dir_entry _ _ _ _ _ _ _ _ _ _).
  assert (test' = file_entry (shown_as (c :: n) s) s) as ->.
  { destruct Ht as [(n0 & s0 & ->)| ->]; done. }
  rewrite IH; [done|left; eauto|cbn in Hf; lia].
Qed.

Lemma add_files_sorted stat base names m : msorted m → msorted (fold_left (add_file stat base) names m).
Proof.
  revert m. induction names as [|n names IH]; intros m Hm; [done|]. cbn. apply IH.
  unfold add_file. destruct (stat (base ++ n)); [by apply mset_sorted|done].
Qed.

Lemma add_files_find stat base names m k e :
  Forall file_name_ok names →
  mfind k (fold_left (add_file stat base) names m) = Some e ↔
    (∃ n s, n ∈ names ∧ stat (base ++ n) = Some s ∧ k = shown_as n s ∧ e = file_entry k s)
    ∨ (¬ (∃ n s, n ∈ names ∧ stat (base ++ n) = Some s ∧ k = shown_as n s) ∧ mfind k m = Some e).
Proof.
  intros Hok. revert m. induction Hok as [|n names Hn Hok IH]; intros m.
  { cbn. split.
    - intros ?. right. split; [|done]. by intros (? & ? & ?%elem_of_nil & _).
    - by intros [(? & ? & ?%elem_of_nil & _)|[_ ?]]. }
  cbn [fold_left]. rewrite IH. clear IH. setoid_rewrite elem_of_cons.
  assert (Hx : ∀ n' s s', n' ∈ names → shown_as n' s' = shown_as n s → n' = n).
  { intros n' s s' Hin. apply shown_as_inj; [|done]. rewrite Forall_forall in Hok. by apply Hok. }
  unfold add_file. destruct (stat (base ++ n)) as [s|] eqn:Hs.
  - rewrite mfind_mset. split.
    + intros [(n' & s' & ? & ? & ?)|[Hno Hm]]; [left; eauto 10|].
      destruct (compare (shown_as n s) k) eqn:E.
      * apply compare_eq in E as <-. injection Hm as <-. left. exists n, s. auto.
      * right. split; [|done]. intros (n' & s' & [->|Hin] & Hs' & ->); [|apply Hno; eauto].
        rewrite Hs in Hs'. injection Hs' as ->. by rewrite compare_refl in E.
      * right. split; [|done]. intros (n' & s' & [->|Hin] & Hs' & ->); [|apply Hno; eauto].
        rewrite Hs in Hs'. injection Hs' as ->. by rewrite compare_refl in E.
    + intros [(n' & s' & [->|Hin] & Hs' & -> & ->)|[Hno Hm]]; [|left; eauto 10|].
      * rewrite Hs in Hs'. injection Hs' as ->.
        destruct (decide (n ∈ names)) as [Hin|Hin]; [left; eauto 10|]. right. rewrite compare_refl. split; [|done].
        intros (n' & s2 & Hin' & _ & E). destruct Hin. by rewrite <- (Hx n' s' s2 Hin' (eq_sym E)).
      * right. split; [intros (n' & s' & ? & ? & ?); apply Hno; eauto 10|].
        destruct (compare (shown_as n s) k) eqn:E; [|done..]. apply compare_eq in E as <-.
        destruct Hno. exists n, s. auto.
  - split.
    + intros [(n' & s' & ? & ? & ?)|[Hno Hm]]; [left; eauto 10|]. right. split; [|done].
      intros (n' & s' & [->|Hin] & Hs' & ->); [congruence|]. apply Hno. eauto.
    + intros [(n' & s' & [->|Hin] & Hs' & -> & ->)|[Hno Hm]]; [congruence|left; eauto 10|].
      right. split; [|done]. intros (n' & s' & ? & ? & ?). apply Hno. eauto 10.
Qed.

Lemma ls_text_length names : Forall file_name_ok names → (length names <= length (ls_text names))%nat.
Proof.
  induction 1 as [|n names (Hne & _) _ IH]; [done|]. unfold ls_text in *. cbn. rewrite !length_app. cbn. lia.
Qed.

Lemma ls_text_cstr names : Forall file_name_ok names → cstr (ls_text names) = ls_text names.
Proof.
  intros H. apply cstr_no_nul. intros Hin. unfold ls_text in Hin.
  apply list_elem_of_In, in_concat in Hin as (l & Hl & Hin). apply in_map_iff in Hl as (n & <- & Hn).
  rewrite Forall_forall in H. apply list_elem_of_In in Hn, Hin. destruct (H n Hn) as (_ & _ & Hnul & _).
  apply elem_of_app in Hin as [?|Hin]; [done|]. by apply list_elem_of_singleton in Hin.
Qed.

(** What the gateway finds of a bucket in the file system: the directory of the
    bucket, the names [ls] prints of it in fewer than 512 bytes, and a command
    that fits its buffer. *)
Record listed_dir (root : str) (ls : str → str) (bucket : rgw_bucket) (names : list str) : Prop := Mk_listed_dir {
  bd_user : bucket_is_system bucket = false;
  bd_word : scan_word (bk_marker bucket) = bk_marker bucket;
  bd_name : zlen (bk_marker bucket) < 256;
  bd_cmd : zlen ("ls -1 '" ++ root ++ "/" ++ bk_marker bucket ++ "/'") < 512;
  bd_ls : ls (root ++ "/" ++ bk_marker bucket ++ "/") = ls_text names;
  bd_names : Forall file_name_ok names;
  bd_fits : zlen (ls_text names) < 512
}.

(** The index the listing of the bucket goes through: its files and
    directories, by the names they are shown with. *)
Definition dir_index (root : str) (stat : str → option file_stat) (bucket : rgw_bucket) (names : list str) : shard :=
  fold_left (add_file stat (root ++ "/" ++ bk_marker bucket ++ "/")) names [].

(** A page of a bucket is a page of its directory, whatever the marker. *)
Lemma bucket_page_files root ls test_dir stat bucket names num :
  listed_dir root ls bucket names →
  ∀ marker prefix, bucket_page root ls test_dir stat bucket (inr 0) [] num
                   = Some (dir_page (dir_index root stat bucket names) marker prefix num).
Proof.
  intros [Hsys Hword Hname Hcmd Hls Hok Hfit] marker prefix.
  unfold bucket_page. rewrite Hsys. change (get_bucket_index_objects ?b 0 (-1)) with [(0, b)].
  unfold issue_bucket_list. cbn [fold_left snd fst mbind option_bind].
  unfold issue_bucket_list_op. change (drop 5 (dir_oid_prefix ++ bk_marker bucket)) with (bk_marker bucket).
  rewrite Hword. cbv zeta. cbv beta iota. rewrite app_nil_r.
  rewrite (proj2 (Z.leb_gt 256 _)) by lia. rewrite (proj2 (Z.leb_gt 512 _)).
  2:{ rewrite <- !app_assoc in *. exact Hcmd. }
  cbn [orb]. rewrite Hls. unfold shell_execute. rewrite (proj2 (Z.ltb_lt _ _)), ls_text_cstr by done.
  cbn [mbind option_bind]. unfold dir_page, dir_index. destruct (ls_text names) as [|x r] eqn:El.
  - assert (names = []) as -> by (destruct names as [|[|c n] names]; [done|by inversion Hok as [|? ? (? & _)]|done]). done.
  - rewrite <- El. rewrite ls_loop_files; [done|done|by right|by apply ls_text_length].
Qed.

Lemma list_loop_ext p max bigger e page page' cp fuel t m st :
  (∀ m n, page m cp n = page' m cp n) →
  list_loop p max bigger e page cp fuel t m st = list_loop p max bigger e page' cp fuel t m st.
Proof.
  intros H. revert t m st. induction fuel as [|fuel IH]; intros t m st; [done|]. cbn [list_loop].
  destruct (negb _); [done|]. rewrite H. destruct (page' _ _ _) as [|[[ents t'] last]]; [done|].
  destruct (list_entries _ _ _ _ _ _) as [st' [?|]]; [done|apply IH].
Qed.

Lemma file_entry_visible k s : ent_is_visible (ent_of (file_entry k s)) = true.
Proof. reflexivity. Qed.

Lemma dir_index_plain p root stat bucket names :
  lp_prefix p = [] → Forall file_name_ok names → Forall (λ n, starts_ n = false) names →
  plain_index p (dir_index root stat bucket names).
Proof.
  intros Hp Hok Hu. assert (Hs : msorted (dir_index root stat bucket names)) by by apply add_files_sorted.
  split; [done|]. apply Forall_forall. intros [k e] Hin. cbn [snd].
  apply (mfind_sorted_elem _ _ _ Hs), add_files_find in Hin as [(n & s & Hn & _ & -> & ->)|[_ [=]]]; [|done].
  rewrite Forall_forall in Hu, Hok. specialize (Hu n Hn). destruct (Hok n Hn) as (Hne & _).
  unfold plain_ent. rewrite Hp. split_and!; [|done..].
  cbn. unfold shown_as. destruct n as [|c n]; [done|]. by destruct (fs_is_dir s).
Qed.

(** C24: listing a bucket's directory.  The bucket is no system bucket and has
    no index shards; [ls] prints the names of its directory in fewer than 512
    bytes (names that begin with a dot are not among them) and none of them
    begins with [_]; the request names no prefix, no delimiter, no namespace and
    no end marker.  Then the listing ends with the first page and gives, sorted
    by name, the first entries of the directory, as many as were asked for, and
    says whether there are more: an entry is a file or, with a slash behind its
    name, a directory, which stands for all the objects below it; it carries
    the size and the date of the file.  The marker of the request plays no
    part. *)
Theorem list_objects_first fuel p max root ls test_dir stat bucket names page next :
  listed_dir root ls bucket names → Forall (λ n, starts_ n = false) names →
  (∀ marker num, bucket_page root ls test_dir stat bucket (inr 0) [] num = Some (page marker [] num)) →
  lp_prefix p = [] → lp_delim p = [] → lp_ns p = [] → lp_end_marker p = rgw_obj_key_new → 0 <= max < 2 ^ 31 - 1 →
  ∃ all st,
    list_objects (S fuel) p max (bucket_is_system bucket) page [] next = Some (inr (max <? zlen all, st))
    ∧ ls_result st = take (Z.to_nat max) (objects_of all) ∧ ls_prefixes st = []
    ∧ msorted all
    ∧ ∀ k e, mfind k all = Some e ↔
        ∃ n s, n ∈ names ∧ stat (root ++ "/" ++ bk_marker bucket ++ "/" ++ n) = Some s
             ∧ k = (if fs_is_dir s then n ++ "/" else n) ∧ e = file_entry k s.
Proof.
  intros Hd Hu Hpage Hp Hdel Hns Hend Hmax. pose proof (bd_names _ _ _ _ Hd) as Hok.
  assert (Hall : plain_index p (dir_index root stat bucket names)) by by apply dir_index_plain.
  destruct (list_objects_page fuel p max _ next Hns Hend Hdel Hmax Hall) as (st & E & Hr & Hpre).
  exists (dir_index root stat bucket names), st. split_and!; [|done|done|apply Hall|].
  - rewrite <- E, (bd_user _ _ _ _ Hd). unfold list_objects. rewrite Hdel, Hp, Hns. cbn [length Nat.eqb].
    apply list_loop_ext. intros m n. apply (inj Some). rewrite <- (bucket_page_files _ _ test_dir) by done.
    symmetry. apply Hpage.
  - intros k e. unfold dir_index. rewrite add_files_find by done. split.
    + intros [(n & s & ?)|[_ [=]]]. exists n, s. by rewrite <- !app_assoc in *.
    + intros (n & s & ?). left. exists n, s. by rewrite <- !app_assoc.
Qed.

Definition demo_bucket : rgw_bucket := Mk_rgw_bucket "photos" [] [] [] "photos" [] [].
Definition demo_ls (path : str) : str := if streq path "/fisamba/photos/" then ls_text ["dog"; "Cat"; "old"] else [].
Definition demo_stat_file (path : str) : option file_stat :=
  if streq path "/fisamba/photos/old" then Some (Mk_file_stat true 4096 7)
  else if has_prefix "/fisamba/photos/" path then Some (Mk_file_stat false (zlen path) 7) else None.

Lemma demo_listed_dir : listed_dir "/fisamba" demo_ls demo_bucket ["dog"; "Cat"; "old"].
Proof. split; try reflexivity. repeat constructor; try done; by apply (bool_decide_unpack _). Qed.

Lemma list_objects_first_witness :
  let page (_ : rgw_obj_key) := dir_page (dir_index "/fisamba" demo_stat_file demo_bucket ["dog"; "Cat"; "old"]) rgw_obj_key_new in
  ∃ all st,
    list_objects 1 (demo_params "" "b") 2 false page [] rgw_obj_key_new = Some (inr (2 <? zlen all, st))
    ∧ ls_result st = take 2 (objects_of all) ∧ ls_prefixes st = []
    ∧ msorted all
    ∧ ∀ k e, mfind k all = Some e ↔
        ∃ n s, n ∈ (["dog"; "Cat"; "old"] : list str) ∧ demo_stat_file ("/fisamba/photos/" ++ n) = Some s
             ∧ k = (if fs_is_dir s then n ++ "/" else n) ∧ e = file_entry k s.
Proof.
  intros page.
  apply (list_objects_first 0 (demo_params "" "b") 2 "/fisamba" demo_ls (λ _, true) demo_stat_file demo_bucket
           ["dog"; "Cat"; "old"] page rgw_obj_key_new demo_listed_dir); [by repeat constructor| |done..|lia].
  intros marker num. by apply bucket_page_files, demo_listed_dir.
Defined.

(** The directory of a bucket with 512 bytes of names or more: the output of
    [ls] is copied without its end. *)
Lemma long_directory_overruns root ls test_dir stat bucket num :
  bucket_is_system bucket = false → scan_word (bk_marker bucket) = bk_marker bucket →
  512 <= zlen (ls (root ++ "/" ++ bk_marker bucket ++ "/")) →
  bucket_page root ls test_dir stat bucket (inr 0) [] num = None.
Proof.
  intros Hsys Hword Hlen. unfold bucket_page. rewrite Hsys. change (get_bucket_index_objects ?b 0 (-1)) with [(0, b)].
  unfold issue_bucket_list. cbn [fold_left snd fst mbind option_bind].
  unfold issue_bucket_list_op. change (drop 5 (dir_oid_prefix ++ bk_marker bucket)) with (bk_marker bucket).
  rewrite Hword. cbv zeta. rewrite app_nil_r. destruct (_ || _); [done|].
  unfold shell_execute. by rewrite (proj2 (Z.ltb_ge _ _)).
Qed.

(** ** Defects *)

(** The second page of a listing is the first one again: the entries before the
    marker are not left out. *)
Lemma second_page_repeats :
  let first := list_objects 5 (demo_params "" "") 2 false (dir_page (demo_index ["a"; "b"; "c"])) [] rgw_obj_key_new in
  let second := list_objects 5 (demo_params "" "b") 2 false (dir_page (demo_index ["a"; "b"; "c"])) [] rgw_obj_key_new in
  ∃ st1 st2, first = Some (inr (true, st1)) ∧ second = Some (inr (true, st2))
    ∧ ls_next st1 = Mk_rgw_obj_key "b" [] ∧ ls_result st1 = ls_result st2.
Proof. eexists _, _. by split_and!; [vm_compute; reflexivity..| |]. Qed.

(** C25: a listing can run forever.  With a delimiter and more objects than were
    asked for below one common prefix, each further page is the first entry
    again: for three objects and one key, no number of pages is enough. *)
Theorem listing_diverges fuel :
  list_objects fuel (demo_params "b" "") 1 false (dir_page (demo_index ["ab1"; "ab2"; "ab3"])) [] rgw_obj_key_new = None.
Proof.
  set (p := demo_params "b" ""). set (page := dir_page _).
  set (st1 := Mk_list_state 1 [] [("ab" : str, true)] (Mk_rgw_obj_key "ab1" []) (Mk_rgw_obj_key "ab" []) "ac").
  assert (Hloop : ∀ fuel cm, list_loop p 1 "c" rgw_obj_key_new page [] fuel true cm st1 = None).
  { induction fuel0 as [|fuel0 IH]; intros cm; [done|]. cbn [list_loop].
    change (negb (true && (ls_count st1 <=? 1))) with false. cbv iota.
    change (u32 (s32 (1 + 1) - ls_count st1)) with 1.
    set (m := if str_ltb _ _ then _ else _).
    change (page m [] 1) with (page rgw_obj_key_new [] 1).
    change (page rgw_obj_key_new [] 1) with
      (inr (ent_map (demo_index ["ab1"]), true, Some (Mk_rgw_obj_key "ab1" []))
        : Z + (list (str * RGWObjEnt) * bool * option rgw_obj_key)).
    cbv iota. change (list_entries p 1 "c" rgw_obj_key_new (ent_map (demo_index ["ab1"])) st1) with (st1, @None bool).
    cbv iota. apply IH. }
  destruct fuel as [|fuel]; [done|].
  change (list_objects (S fuel) p 1 false page [] rgw_obj_key_new)
    with (list_loop p 1 "c" rgw_obj_key_new page [] fuel true (Mk_rgw_obj_key "ab2" []) st1).
  apply Hloop.
Qed.
