(* ===== verification/BucketHead.v ===== *)
(** * The statistics the quota sees ([src/src/rgw/porting_rados.cc], [src/src/librados/RadosClient.cc])

    [RGWRados::cls_bucket_head] asks [RadosClient::mon_command] for the head of a
    bucket's index: the bucket goes out encoded, its statistics file is read,
    and a listing result with one category comes back encoded.  The quota check
    of an upload is composed with it and with the files of the bucket. *)

From S2P Require Import Prelude StdMap Encoding Utime ClsRgwTypes ClsRgwFacts ClsRgwOps CString Env Http Strtol Errors.
From S2P Require Import RgwObj ObjectCache Records LruMap Quota RestMgr Rest SysInfo GetObj PutObj Ops OpsFacts Listing.

Section head.
(** The statistics file of a bucket. *)
Variable stat_file : str → option bytes.

(** [mon_command("get_bucket_head")]: the encoded answer, or the exception of
    decoding the request. *)
Definition get_bucket_head (inbl : bytes) : buffer_error + bytes :=
  match decode_rgw_bucket rgw_bucket_new (It 0 inbl) with
  | inl e => inl e
  | inr (bucket, _) =>
      let info := read_stat (stat_file (bk_name bucket)) in
      let status := Mk_rgw_bucket_category_stats (si_total_size info) (si_total_size_rounded info) (si_num_entries info) in
      inr (encode_rgw_cls_list_ret
             (Mk_rgw_cls_list_ret
                (Mk_rgw_bucket_dir (Mk_rgw_bucket_dir_header [(1, status)] 0 0 0 []) []) false) [])
  end.

(** [cls_bucket_head]: the result and the headers by index object.  The answer
    is put in as shard 1, unless there is one already. *)
Definition cls_bucket_head (num_shards : Z + Z) (bucket : rgw_bucket)
    : buffer_error + (Z * list (str * rgw_bucket_dir_header)) :=
  if bucket_is_system bucket then inr (- EINVAL, [])
  else
    match num_shards with
    | inl e => inr (e, [])
    | inr n =>
        let oids := get_bucket_index_objects (dir_oid_prefix ++ bk_marker bucket) n (-1) in
        let list_results := map (λ o, (fst o, rgw_cls_list_ret_new)) oids in
        match get_bucket_head (encode_rgw_bucket bucket []) with
        | inl e => inl e
        | inr outbl =>
            match decode_rgw_cls_list_ret rgw_cls_list_ret_new (It 0 outbl) with
            | inl e => inl e
            | inr (cls_list, _) =>
                let list_results := if mmem 1 list_results then list_results else mset 1 cls_list list_results in
                inr (0, fold_left (λ hs r, mset (default [] (mfind (fst r) oids)) (dd_header (lr_dir (snd r))) hs)
                          list_results [])
            end
        end
    end.
End head.

(** ** What comes back *)

Lemma conf_loop_inv {S} delim (cb : S → str → str → S) (P : S → Prop) fuel rest var st :
  P st → (∀ st n v, P st → P (cb st n v)) → P (snd (conf_loop delim cb fuel rest var st)).
Proof.
  intros Hst Hcb. revert rest var st Hst. induction fuel as [|fuel IH]; intros rest var st Hst; [done|].
  cbn [conf_loop]. destruct (span not_nl rest) as [buf rest1]. destruct buf; [done|].
  destruct (bool_decide _); [destruct rest1; [done|by apply IH]|].
  destruct (scan_line delim _) as [[name value]|]; [|done]. by apply IH, Hcb.
Qed.

Definition stat_range (i : sys_info) : Prop :=
  0 <= si_total_size i < 2 ^ 64 ∧ 0 <= si_total_size_rounded i < 2 ^ 64 ∧ 0 <= si_num_entries i < 2 ^ 64.

Lemma read_stat_range file : stat_range (read_stat file).
Proof.
  unfold read_stat, parse_conf. destruct file as [c|]; [|unfold stat_range; cbn; lia].
  apply conf_loop_inv; [unfold stat_range; cbn; lia|]. intros i n v (H1 & H2 & H3).
  unfold stat_range, get_params.
  cbn [si_total_size si_total_size_rounded si_num_entries].
  assert (Hu : ∀ z, 0 <= u64 z < 2 ^ 64) by (intros z; apply Z.mod_pos_bound; lia).
  split_and!; destruct (streq n _); first [apply Hu|lia].
Qed.

Lemma head_roundtrip total rounded num x0 :
  0 <= total < 2 ^ 64 → 0 <= rounded < 2 ^ 64 → 0 <= num < 2 ^ 64 →
  let r := Mk_rgw_cls_list_ret (Mk_rgw_bucket_dir
             (Mk_rgw_bucket_dir_header [(1, Mk_rgw_bucket_category_stats total rounded num)] 0 0 0 []) []) false in
  decode_rgw_cls_list_ret x0 (It 0 (encode_rgw_cls_list_ret r []))
  = inr (r, It (zlen (encode_rgw_cls_list_ret r [])) []).
Proof.
  intros H1 H2 H3 r. apply (codec_roundtrip rgw_cls_list_ret_c).
  - repeat split; cbn; try lia; try done.
    constructor; [|constructor]. repeat split; cbn; lia.
  - vm_compute. done.
Qed.

(** Without shards of its own, the bucket's head is an empty header and the one
    with what the statistics file says. *)
Lemma bucket_head_spec stat_file bucket :
  bucket_is_system bucket = false → wf_rgw_bucket bucket → zlen (encode_rgw_bucket bucket []) < 2 ^ 32 →
  let i := read_stat (stat_file (bk_name bucket)) in
  ∃ headers, cls_bucket_head stat_file (inr 0) bucket = inr (0, headers)
    ∧ stored_objects headers = si_num_entries i
    ∧ stored_kb_rounded headers = u64 (si_total_size_rounded i + 1023) / 1024.
Proof.
  intros Hsys Hwf Hlen i. unfold cls_bucket_head. rewrite Hsys.
  unfold get_bucket_head.
  rewrite (reads_whole _ _ _ (into_reads (c := rgw_bucket_c) bucket rgw_bucket_new Hwf) Hlen
             : decode_rgw_bucket _ (It 0 (encode_rgw_bucket bucket [])) = _).
  change (bk_name (bucket_into bucket rgw_bucket_new)) with (bk_name bucket). fold i.
  destruct (read_stat_range (stat_file (bk_name bucket))) as (H1 & H2 & H3). fold i in H1, H2, H3.
  rewrite (head_roundtrip _ _ _ rgw_cls_list_ret_new H1 H2 H3).
  change (get_bucket_index_objects ?b 0 (-1)) with [(0, b)].
  eexists. split; [reflexivity|]. cbn. split; [lia|]. by rewrite !Z.add_0_r.
Qed.

(** The store as the quota handler calls it; an exception never comes. *)
Definition quota_head (stat_file : str → option bytes) (num_shards : Z + Z) (bucket : rgw_bucket)
    : Z * list (str * rgw_bucket_dir_header) :=
  match cls_bucket_head stat_file num_shards bucket with inr r => r | inl _ => (- EIO, []) end.


Definition demo_photos : rgw_bucket := Mk_rgw_bucket "photos" [] [] [] "photos" [] [].


(** The rounded size is never written by an upload, so a quota on the size of a
    bucket counts the upload alone; with two index shards or more nothing is
    counted at all. *)
Lemma size_quota_defects :
  si_total_size_rounded (read_stat (Some (put_stat (Some (put_stat None 5000)) 7000))) = 0
  ∧ stored_objects (snd (quota_head (λ _, Some (put_stat None 4)) (inr 2) demo_photos)) = 0
  ∧ stored_objects (snd (quota_head (λ _, Some (put_stat None 4)) (inr 0) demo_photos)) = 1.
Proof. by vm_compute. Qed.
