(* ===== verification/Lockdep.v ===== *)
(** * The lock order checker and the mutex ([src/src/common/lockdep.cc], [Mutex.cc], [Mutex.h])

    Every function of [lockdep.cc] runs under [lockdep_mutex], so it is one step
    on the global state.  [assert] ends the process ([Dies]); the recursion of
    [does_follow] takes fuel ([Spins] when it runs out).  The non-null entries of
    the matrix [follows] are a set of pairs; a [BackTrace] pointer is present or
    null.  [lockdep_will_lock] and its companions take the calling thread,
    [pthread_self()], as an argument. *)

From S2P Require Import Prelude StdMap.
From stdpp Require Import gmap.
#[local] Open Scope Z_scope.

(** ** Results *)

Inductive outcome (A : Type) :=
| Done (a : A)
| Dies
| Spins.
Arguments Done {A} a.
Arguments Dies {A}.
Arguments Spins {A}.

#[export] Instance outcome_ret : MRet outcome := @Done.
#[export] Instance outcome_bind : MBind outcome := λ _ _ f m,
  match m with Done a => f a | Dies => Dies | Spins => Spins end.

Definition assert_ (b : bool) : outcome () := if b then Done tt else Dies.

Lemma outcome_bind_Done {A B} (f : A → outcome B) (m : outcome A) b :
  (m ≫= f) = Done b → ∃ a, m = Done a ∧ f a = Done b.
Proof. destruct m; [eauto|done..]. Qed.

Lemma assert_Done b u : assert_ b = Done u → b = true.
Proof. by destruct b. Qed.

(** Takes an equation [... = Done _] apart, one bind at a time. *)
Ltac outcome_inv :=
  repeat match goal with
  | H : mbind _ _ = Done _ |- _ =>
      let a := fresh "a" in let E := fresh "E" in
      apply outcome_bind_Done in H as (a & E & H)
  | H : assert_ _ = Done _ |- _ => apply assert_Done in H
  | a : () |- _ => destruct a
  | p : (_ * _)%type |- _ => destruct p
  | H : Done _ = Done _ |- _ => injection H as H; simplify_eq
  | H : mret _ = Done _ |- _ => injection H as H; simplify_eq
  end; simplify_eq/=.

(** ** The state *)

Definition MAX_LOCKS : Z := 2000.

Abbreviation follows_t := (gset (Z * Z)).
Abbreviation held_t := (gmap Z (list (Z * bool))).

Record lockdep := Mk_lockdep {
  g_lockdep : bool;
  g_lockdep_ceph_ctx : option Z;
  lock_ids : gmap str Z;
  lock_names : gmap Z str;
  lock_refs : gmap Z Z;
  free_ids : list Z;
  held : held_t;
  follows : follows_t
}.

Definition lockdep_init : lockdep := Mk_lockdep false None ∅ ∅ ∅ [] ∅ ∅.

Definition lock_range : list Z := seqZ 0 MAX_LOCKS.

Definition lockdep_force_backtrace : bool := true.

(** [follows[a][b] = bt] *)
Definition follows_set (a b : Z) (bt : bool) (F : follows_t) : follows_t :=
  if bt then {[ (a, b) ]} ∪ F else F ∖ {[ (a, b) ]}.

Definition set_held (h : held_t) (s : lockdep) : lockdep :=
  Mk_lockdep (g_lockdep s) (g_lockdep_ceph_ctx s) (lock_ids s) (lock_names s) (lock_refs s)
    (free_ids s) h (follows s).

Definition set_follows (F : follows_t) (s : lockdep) : lockdep :=
  Mk_lockdep (g_lockdep s) (g_lockdep_ceph_ctx s) (lock_ids s) (lock_names s) (lock_refs s)
    (free_ids s) (held s) F.

(** [held[p]], which inserts an empty map where there is none. *)
Definition held_of (p : Z) (s : lockdep) : list (Z * bool) := default [] (held s !! p).

(** [lock_refs[id]], zero where there is none. *)
Definition refs_of (id : Z) (s : lockdep) : Z := default 0 (lock_refs s !! id).

(** ** Starting and stopping *)

Definition lockdep_register_ceph_context (cct : Z) (s : lockdep) : lockdep :=
  match g_lockdep_ceph_ctx s with
  | None =>
      Mk_lockdep true (Some cct) (lock_ids s) (lock_names s) (lock_refs s)
        (free_ids s ++ lock_range) (held s) (follows s)
  | Some _ => s
  end.

Definition lockdep_unregister_ceph_context (cct : Z) (s : lockdep) : lockdep :=
  if bool_decide (g_lockdep_ceph_ctx s = Some cct)
  then Mk_lockdep false None ∅ ∅ ∅ [] ∅ ∅
  else s.

(** ** Registration *)

Definition lockdep_register (name : str) (s : lockdep) : outcome (Z * lockdep) :=
  '(id, s) ← match lock_ids s !! name with
    | None =>
        match free_ids s with
        | [] => Dies
        | id :: free =>
            Done (id, Mk_lockdep (g_lockdep s) (g_lockdep_ceph_ctx s) (<[name := id]> (lock_ids s))
                        (<[id := name]> (lock_names s)) (lock_refs s) free (held s) (follows s))
        end
    | Some id => Done (id, s)
    end;
  mret (id, Mk_lockdep (g_lockdep s) (g_lockdep_ceph_ctx s) (lock_ids s) (lock_names s)
              (<[id := refs_of id s + 1]> (lock_refs s))
              (free_ids s) (held s) (follows s)).

Definition lockdep_unregister (id : Z) (s : lockdep) : outcome lockdep :=
  if id <? 0 then Done s else
  match lock_names s !! id with
  | None => Dies
  | Some name =>
      let refs := refs_of id s - 1 in
      if refs =? 0 then
        Done (Mk_lockdep (g_lockdep s) (g_lockdep_ceph_ctx s) (delete name (lock_ids s))
                (delete id (lock_names s)) (delete id (lock_refs s)) (free_ids s ++ [id]) (held s)
                (filter (λ e, e.1 ≠ id ∧ e.2 ≠ id) (follows s)))
      else
        Done (Mk_lockdep (g_lockdep s) (g_lockdep_ceph_ctx s) (lock_ids s) (lock_names s)
                (<[id := refs]> (lock_refs s)) (free_ids s) (held s) (follows s))
  end.

(** ** The order of locks *)

(** The first index for which [f] holds ends the loop. *)
Fixpoint first_true (f : Z → outcome bool) (l : list Z) : outcome bool :=
  match l with
  | [] => Done false
  | i :: l' => b ← f i; if b : bool then Done true else first_true f l'
  end.

(** Does [b] follow [a]? *)
Fixpoint does_follow (fuel : nat) (F : follows_t) (a b : Z) : outcome bool :=
  match fuel with
  | O => Spins
  | S fuel =>
      if bool_decide ((a, b) ∈ F) then Done true else
      first_true (λ i, if bool_decide ((a, i) ∈ F) then does_follow fuel F i b else Done false)
        lock_range
  end.

Definition does_follow_fuel : nat := Z.to_nat MAX_LOCKS.

(** The loop of [lockdep_will_lock] over the locks the thread holds. *)
Fixpoint will_lock_loop (id : Z) (bt : bool) (m : list (Z * bool)) (F : follows_t) : outcome follows_t :=
  match m with
  | [] => Done F
  | (h, _) :: m' =>
      if h =? id then Dies
      else if bool_decide ((h, id) ∈ F) then will_lock_loop id bt m' F
      else
        cycle ← does_follow does_follow_fuel F id h;
        if cycle : bool then Dies else will_lock_loop id bt m' (follows_set h id bt F)
  end.

Definition lockdep_will_lock (p : Z) (name : str) (id : Z) (force_backtrace : bool) (s : lockdep)
    : outcome (Z * lockdep) :=
  '(id, s) ← if id <? 0 then lockdep_register name s else Done (id, s);
  let m := held_of p s in
  let s := set_held (<[p := m]> (held s)) s in
  F ← will_lock_loop id (force_backtrace || lockdep_force_backtrace) m (follows s);
  mret (id, set_follows F s).

Definition lockdep_locked (p : Z) (name : str) (id : Z) (force_backtrace : bool) (s : lockdep)
    : outcome (Z * lockdep) :=
  '(id, s) ← if id <? 0 then lockdep_register name s else Done (id, s);
  mret (id, set_held (<[p := mset id (force_backtrace || lockdep_force_backtrace) (held_of p s)]> (held s)) s).

Definition lockdep_will_unlock (p : Z) (name : str) (id : Z) (s : lockdep) : outcome (Z * lockdep) :=
  if id <? 0 then (_ ← assert_ (id =? -1); mret (id, s)) else
  Done (id, set_held (<[p := merase id (held_of p s)]> (held s)) s).

(** ** Mutexes

    The POSIX mutex: its type, its owner and how often the owner holds it. *)

Inductive mutex_type := PTHREAD_MUTEX_NORMAL | PTHREAD_MUTEX_ERRORCHECK | PTHREAD_MUTEX_RECURSIVE.

Record pthread_mutex := Mk_pthread_mutex { pm_type : mutex_type; pm_owner : option Z; pm_count : Z }.

(** [pthread_mutex_lock]: [None] while the call blocks. *)
Definition pthread_mutex_lock (p : Z) (m : pthread_mutex) : option (bool * pthread_mutex) :=
  match pm_owner m with
  | None => Some (true, Mk_pthread_mutex (pm_type m) (Some p) 1)
  | Some o =>
      if o =? p then
        match pm_type m with
        | PTHREAD_MUTEX_RECURSIVE => Some (true, Mk_pthread_mutex (pm_type m) (Some p) (pm_count m + 1))
        | PTHREAD_MUTEX_ERRORCHECK => Some (false, m)
        | PTHREAD_MUTEX_NORMAL => None
        end
      else None
  end.

Definition pthread_mutex_trylock (p : Z) (m : pthread_mutex) : bool * pthread_mutex :=
  match pm_owner m, pm_type m with
  | None, _ => (true, Mk_pthread_mutex (pm_type m) (Some p) 1)
  | Some o, PTHREAD_MUTEX_RECURSIVE =>
      if o =? p then (true, Mk_pthread_mutex (pm_type m) (Some p) (pm_count m + 1)) else (false, m)
  | Some _, _ => (false, m)
  end.

(** An unlock by another thread is refused; with a normal mutex it is
    undefined, and [Mutex::_pre_unlock] refuses it first. *)
Definition pthread_mutex_unlock (p : Z) (m : pthread_mutex) : bool * pthread_mutex :=
  if bool_decide (pm_owner m = Some p) then
    if pm_count m =? 1 then (true, Mk_pthread_mutex (pm_type m) None 0)
    else (true, Mk_pthread_mutex (pm_type m) (Some p) (pm_count m - 1))
  else (false, m).

Record mutex := Mk_mutex {
  mx_name : str;
  mx_id : Z;
  mx_recursive : bool;
  mx_lockdep : bool;
  mx_backtrace : bool;
  mx_m : pthread_mutex;
  mx_nlock : Z;
  mx_locked_by : Z
}.

Definition mx_set_id (id : Z) (m : mutex) : mutex :=
  Mk_mutex (mx_name m) id (mx_recursive m) (mx_lockdep m) (mx_backtrace m) (mx_m m) (mx_nlock m) (mx_locked_by m).
Definition mx_set_m (pm : pthread_mutex) (m : mutex) : mutex :=
  Mk_mutex (mx_name m) (mx_id m) (mx_recursive m) (mx_lockdep m) (mx_backtrace m) pm (mx_nlock m) (mx_locked_by m).
Definition mx_set_lock (n by_ : Z) (m : mutex) : mutex :=
  Mk_mutex (mx_name m) (mx_id m) (mx_recursive m) (mx_lockdep m) (mx_backtrace m) (mx_m m) n by_.

(** The constructor; [_register] runs when the checker is on. *)
Definition Mutex_new (n : str) (r ld bt : bool) (s : lockdep) : outcome (mutex * lockdep) :=
  let type := if r then PTHREAD_MUTEX_RECURSIVE else if ld then PTHREAD_MUTEX_ERRORCHECK
              else PTHREAD_MUTEX_NORMAL in
  let m := Mk_mutex n (-1) r ld bt (Mk_pthread_mutex type None 0) 0 0 in
  if ld && g_lockdep s then
    '(id, s) ← lockdep_register n s; mret (mx_set_id id m, s)
  else Done (m, s).

(** The destructor. *)
Definition Mutex_destroy (m : mutex) (s : lockdep) : outcome lockdep :=
  _ ← assert_ (mx_nlock m =? 0);
  if mx_lockdep m && g_lockdep s then lockdep_unregister (mx_id m) s else Done s.

Definition is_locked (m : mutex) : bool := 0 <? mx_nlock m.
Definition is_locked_by_me (p : Z) (m : mutex) : bool := (0 <? mx_nlock m) && (mx_locked_by m =? p).

(** [_will_lock], [_locked] and [_will_unlock], where the checker is on. *)
Definition mutex_will_lock (p : Z) (no_lockdep : bool) (m : mutex) (s : lockdep) : outcome (mutex * lockdep) :=
  if mx_lockdep m && g_lockdep s && negb no_lockdep then
    '(id, s) ← lockdep_will_lock p (mx_name m) (mx_id m) (mx_backtrace m) s; mret (mx_set_id id m, s)
  else Done (m, s).
Definition mutex_locked (p : Z) (m : mutex) (s : lockdep) : outcome (mutex * lockdep) :=
  if mx_lockdep m && g_lockdep s then
    '(id, s) ← lockdep_locked p (mx_name m) (mx_id m) (mx_backtrace m) s; mret (mx_set_id id m, s)
  else Done (m, s).
Definition mutex_will_unlock (p : Z) (m : mutex) (s : lockdep) : outcome (mutex * lockdep) :=
  if mx_lockdep m && g_lockdep s then
    '(id, s) ← lockdep_will_unlock p (mx_name m) (mx_id m) s; mret (mx_set_id id m, s)
  else Done (m, s).

Definition post_lock (p : Z) (m : mutex) : outcome mutex :=
  if mx_recursive m then Done (mx_set_lock (mx_nlock m + 1) (mx_locked_by m) m) else
  _ ← assert_ (mx_nlock m =? 0); mret (mx_set_lock (mx_nlock m + 1) p m).

Definition pre_unlock (p : Z) (m : mutex) : outcome mutex :=
  _ ← assert_ (0 <? mx_nlock m);
  let n := mx_nlock m - 1 in
  if mx_recursive m then Done (mx_set_lock n (mx_locked_by m) m) else
  _ ← assert_ (mx_locked_by m =? p);
  _ ← assert_ (n =? 0);
  mret (mx_set_lock n 0 m).
