(* ===== verification/LockdepFacts.v ===== *)
(** * The lock order checker is right

    The graph of lock orders stays acyclic whatever the callers do
    ([lockdep_acyclic]); on such a graph the depth-first search of [does_follow]
    ends and decides reachability ([does_follow_spec]), so
    [lockdep_will_lock] stops the process exactly when the lock would close a
    cycle ([will_lock_spec]). *)

From S2P Require Import Prelude StdMap Lockdep.
From stdpp Require Import gmap relations.
#[local] Open Scope Z_scope.
#[local] Open Scope str_scope.

Definition edge (F : follows_t) (a b : Z) : Prop := (a, b) ∈ F.
Definition acyclic (F : follows_t) : Prop := ∀ a, ¬ tc (edge F) a a.
Definition lock_id (a : Z) : Prop := 0 ≤ a < MAX_LOCKS.
Definition in_range (F : follows_t) : Prop := ∀ a b, (a, b) ∈ F → lock_id a ∧ lock_id b.

(** ** Paths *)

Lemma rtc_lock_id F a b : in_range F → lock_id a → rtc (edge F) a b → lock_id b.
Proof. intros Hr Ha. induction 1 as [|x y z Hxy _ IH]; [done|]. apply IH. by destruct (Hr _ _ Hxy). Qed.

(** A path of an acyclic graph visits no node twice. *)
Lemma path_nodup F n a b :
  acyclic F → nsteps (edge F) n a b →
  ∃ l, length l = S n ∧ NoDup l ∧ Forall (rtc (edge F) a) l.
Proof.
  intros HF. induction 1 as [x|n x y z Hxy Hyz IH].
  { exists [x]. repeat split; [apply NoDup_singleton|by constructor]. }
  destruct IH as (l & Hlen & Hnd & Hreach). exists (x :: l). split; [cbn; lia|]. split.
  - constructor; [|done]. intros Hx. eapply Forall_forall in Hreach; [|done].
    apply (HF x). by eapply tc_rtc_r; [apply tc_once|].
  - constructor; [done|]. eapply Forall_impl; [done|]. intros u Hu. by eapply rtc_l.
Qed.

Lemma elem_of_lock_range a : a ∈ lock_range ↔ lock_id a.
Proof. unfold lock_range, lock_id. rewrite elem_of_seqZ. lia. Qed.

Lemma path_short F n a b :
  acyclic F → in_range F → nsteps (edge F) n a b → (n < does_follow_fuel)%nat.
Proof.
  intros HF Hr Hn. destruct (decide (n = O)) as [->|]; [unfold does_follow_fuel, MAX_LOCKS; lia|].
  destruct (path_nodup F n a b HF Hn) as (l & Hlen & Hnd & Hreach).
  assert (lock_id a) as Ha by (destruct Hn as [|? ? ? ? Hxy]; [done|by destruct (Hr _ _ Hxy)]).
  assert (length l ≤ length lock_range)%nat as Hle.
  { apply NoDup_incl_length; [by apply NoDup_ListNoDup|]. intros x Hx.
    apply list_elem_of_In, elem_of_lock_range. apply list_elem_of_In in Hx.
    eapply rtc_lock_id; [done..|]. by eapply Forall_forall in Hreach. }
  unfold lock_range in Hle. rewrite length_seqZ in Hle. unfold does_follow_fuel. lia.
Qed.

Lemma tc_edge_inv F a b : tc (edge F) a b ↔ (a, b) ∈ F ∨ ∃ i, (a, i) ∈ F ∧ tc (edge F) i b.
Proof.
  split.
  - destruct 1; [by left|right; eauto].
  - intros [?|(i & ? & ?)]; [by apply tc_once|by eapply tc_l].
Qed.

(** ** The search *)

Lemma first_true_spec (f : Z → outcome bool) (P : Z → Prop) l :
  (∀ i, i ∈ l → ∃ b, f i = Done b ∧ (b = true ↔ P i)) →
  ∃ b, first_true f l = Done b ∧ (b = true ↔ ∃ i, i ∈ l ∧ P i).
Proof.
  induction l as [|i l IH]; intros Hf.
  { exists false. split; [done|]. split; [done|]. by intros (i & ?%not_elem_of_nil & _). }
  destruct (Hf i) as (b & Hb & HP); [left|]. cbn. rewrite Hb. cbn. destruct b.
  { exists true. split; [done|]. split; [|done]. exists i. split; [left|by apply HP]. }
  destruct IH as (b & -> & Hiff); [by intros; apply Hf; right|]. exists b. split; [done|].
  rewrite Hiff. split.
  - intros (j & ? & ?). exists j. split; [by right|done].
  - intros (j & [->|?]%elem_of_cons & ?); [|eauto]. by apply HP in H.
Qed.

(** With more fuel than the longest path, the search decides reachability. *)
Lemma does_follow_enough F fuel a b :
  in_range F → (∀ n c, nsteps (edge F) n a c → (n < fuel)%nat) →
  ∃ r, does_follow fuel F a b = Done r ∧ (r = true ↔ tc (edge F) a b).
Proof.
  intros Hr. revert a. induction fuel as [|fuel IH]; intros a Hlen.
  { exfalso. specialize (Hlen O a (nsteps_O _ _)). lia. }
  cbn [does_follow]. case_bool_decide as Hab.
  { exists true. split; [done|]. split; [|done]. intros _. by apply tc_once. }
  destruct (first_true_spec
    (λ i, if bool_decide ((a, i) ∈ F) then does_follow fuel F i b else Done false)
    (λ i, (a, i) ∈ F ∧ tc (edge F) i b) lock_range) as (r & -> & Hiff).
  - intros i _. case_bool_decide as Hai.
    + destruct (IH i) as (r & -> & Hiff).
      { intros n c Hn. specialize (Hlen (S n) c (nsteps_l _ _ _ _ _ Hai Hn)). lia. }
      exists r. split; [done|]. rewrite Hiff. tauto.
    + exists false. split; [done|]. split; [done|tauto].
  - exists r. split; [done|]. rewrite Hiff, tc_edge_inv. split.
    + intros (i & _ & ? & ?). eauto.
    + intros [?|(i & Hai & ?)]; [done|]. exists i. split; [|done].
      apply elem_of_lock_range. by destruct (Hr _ _ Hai).
Qed.

Lemma does_follow_decides F a b :
  acyclic F → in_range F →
  ∃ r, does_follow does_follow_fuel F a b = Done r ∧ (r = true ↔ tc (edge F) a b).
Proof. intros HF Hr. apply does_follow_enough; [done|]. intros n c. by apply path_short. Qed.

(** ** New edges *)

Lemma edge_mono F G a b : F ⊆ G → tc (edge F) a b → tc (edge G) a b.
Proof. intros Hsub. induction 1; [apply tc_once|eapply tc_l; [|done]]; by apply Hsub. Qed.

Lemma tc_add_edge F h k a b :
  tc (edge ({[ (h, k) ]} ∪ F)) a b → tc (edge F) a b ∨ rtc (edge F) a h ∧ rtc (edge F) k b.
Proof.
  induction 1 as [x y Hxy|x y z Hxy _ IH];
    (apply elem_of_union in Hxy as [[= -> ->]%elem_of_singleton|Hxy]).
  - by right.
  - left. by apply tc_once.
  - right. split; [done|]. destruct IH as [?%tc_rtc|[_ ?]]; done.
  - destruct IH as [?|[? ?]]; [left; by eapply tc_l|right; split; [by eapply rtc_l|done]].
Qed.

Lemma acyclic_add F h k : acyclic F → ¬ rtc (edge F) k h → acyclic ({[ (h, k) ]} ∪ F).
Proof.
  intros HF Hn a [Ha|[Hah Hka]]%tc_add_edge; [by apply (HF a)|].
  apply Hn. by transitivity a.
Qed.

Lemma rtc_add_edge F h k b :
  ¬ rtc (edge F) k h → rtc (edge ({[ (h, k) ]} ∪ F)) k b ↔ rtc (edge F) k b.
Proof.
  intros Hn. split.
  - intros [->|Ht]%rtc_tc; [done|]. apply tc_add_edge in Ht as [Ht|[? _]]; [by apply tc_rtc|done].
  - intros [->|Ht]%rtc_tc; [done|]. apply tc_rtc. eapply edge_mono; [|done]. intros e. rewrite elem_of_union. auto.
Qed.

Lemma acyclic_subset F G : F ⊆ G → acyclic G → acyclic F.
Proof. intros Hsub HG a Ha. by apply (HG a), (edge_mono F). Qed.

Lemma in_range_add F h k : in_range F → lock_id h → lock_id k → in_range ({[ (h, k) ]} ∪ F).
Proof. intros HF ?? a b [[= -> ->]%elem_of_singleton|?]%elem_of_union; eauto. Qed.

(** The edges from the locks of [m] to [id]. *)
Definition edges_to (id : Z) (m : list (Z * bool)) : follows_t := list_to_set ((λ p, (p.1, id)) <$> m).

Lemma elem_of_edges_to id m a b : (a, b) ∈ edges_to id m ↔ b = id ∧ a ∈ m.*1.
Proof.
  unfold edges_to. rewrite elem_of_list_to_set, !list_elem_of_fmap. split.
  - intros ([h v] & [= -> ->] & ?). split; [done|]. by exists (h, v).
  - intros (-> & [h v] & -> & ?). by exists (h, v).
Qed.

Lemma not_rtc_ne_tc F id h : ¬ rtc (edge F) id h ↔ h ≠ id ∧ ¬ tc (edge F) id h.
Proof.
  split.
  - intros Hn. split; [intros ->; by apply Hn|intros ?%tc_rtc; auto].
  - intros [Hne Hn] [->|?]%rtc_tc; auto.
Qed.

Lemma will_lock_loop_done id m F :
  acyclic F → in_range F → lock_id id → Forall lock_id m.*1 →
  Forall (λ h, ¬ rtc (edge F) id h) m.*1 →
  ∃ F', will_lock_loop id true m F = Done F' ∧ F' = edges_to id m ∪ F ∧ acyclic F' ∧ in_range F'.
Proof.
  revert F. induction m as [|[h v] m IH]; intros F HF Hr Hid Hm Hno.
  { exists F. split; [done|]. split; [|done]. unfold edges_to. cbn. by rewrite (left_id_L ∅ (∪)). }
  apply Forall_cons in Hm as [Hh Hm], Hno as [Hn Hno]. cbn [fst snd] in *.
  destruct (proj1 (not_rtc_ne_tc _ _ _) Hn) as [Hne Hnt].
  cbn [will_lock_loop]. rewrite (proj2 (Z.eqb_neq h id) Hne).
  assert (edges_to id ((h, v) :: m) = {[ (h, id) ]} ∪ edges_to id m) as Hcons by done.
  case_bool_decide as He.
  - destruct (IH F HF Hr Hid Hm Hno) as (F' & HF' & Heq & ? & ?). exists F'. split; [done|]. split; [|done].
    rewrite Hcons, Heq. apply set_eq. intros e. rewrite !elem_of_union, elem_of_singleton.
    split; [tauto|]. intros [[->|?]|?]; auto.
  - destruct (does_follow_decides F id h HF Hr) as (r & -> & Hiff). cbn [mbind outcome_bind].
    destruct r; [by destruct Hnt; apply Hiff|].
    destruct (IH ({[ (h, id) ]} ∪ F)) as (F' & HF' & Heq & ? & ?).
    + by apply acyclic_add.
    + by apply in_range_add.
    + done.
    + done.
    + eapply Forall_impl; [exact Hno|]. intros x Hx. by rewrite rtc_add_edge.
    + exists F'. split; [done|]. split; [|done]. rewrite Hcons, Heq.
      by rewrite !(assoc_L (∪)), (comm_L (∪) (edges_to id m)).
Qed.

Lemma will_lock_loop_dies id m F :
  acyclic F → in_range F → lock_id id → Forall lock_id m.*1 →
  Exists (λ h, rtc (edge F) id h) m.*1 → will_lock_loop id true m F = Dies.
Proof.
  revert F. induction m as [|[h v] m IH]; intros F HF Hr Hid Hm Hex; [by inversion Hex|].
  apply Forall_cons in Hm as [Hh Hm]. cbn [fst snd] in *. cbn [will_lock_loop].
  destruct (Z.eqb_spec h id) as [->|Hne]; [done|]. apply Exists_cons in Hex.
  case_bool_decide as He.
  { apply IH; [done..|]. destruct Hex as [[->|Ht]%rtc_tc|?]; [done| |done].
    destruct (HF h). by eapply tc_l. }
  destruct (does_follow_decides F id h HF Hr) as (r & -> & Hiff). cbn [mbind outcome_bind]. destruct r; [done|].
  assert (¬ rtc (edge F) id h) as Hn by (apply not_rtc_ne_tc; split; [done|by intros ?%Hiff]).
  destruct Hex as [?|Hex]; [done|]. apply IH; [by apply acyclic_add|by apply in_range_add|done..|].
  eapply Exists_impl; [exact Hex|]. intros x Hx. by apply rtc_add_edge.
Qed.

Lemma reach_cases F id l :
  acyclic F → in_range F →
  Forall (λ h, ¬ rtc (edge F) id h) l ∨ Exists (λ h, rtc (edge F) id h) l.
Proof.
  intros HF Hr. induction l as [|h l [IH|IH]]; [by left| |by right; right].
  destruct (Z.eq_dec h id) as [->|Hne]; [by right; left|].
  destruct (does_follow_decides F id h HF Hr) as ([|] & _ & Hiff).
  - right. left. by apply tc_rtc, Hiff.
  - left. constructor; [|done]. apply not_rtc_ne_tc. split; [done|]. by intros ?%Hiff.
Qed.

(** ** Every state the functions can reach *)

Inductive call :=
| CallRegisterContext (cct : Z)
| CallUnregisterContext (cct : Z)
| CallRegister (name : str)
| CallUnregister (id : Z)
| CallWillLock (p : Z) (name : str) (id : Z) (bt : bool)
| CallLocked (p : Z) (name : str) (id : Z) (bt : bool)
| CallWillUnlock (p : Z) (name : str) (id : Z).

Definition run_call (c : call) (s : lockdep) : outcome lockdep :=
  match c with
  | CallRegisterContext cct => Done (lockdep_register_ceph_context cct s)
  | CallUnregisterContext cct => Done (lockdep_unregister_ceph_context cct s)
  | CallRegister name => '(_, s) ← lockdep_register name s; mret s
  | CallUnregister id => lockdep_unregister id s
  | CallWillLock p name id bt => '(_, s) ← lockdep_will_lock p name id bt s; mret s
  | CallLocked p name id bt => '(_, s) ← lockdep_locked p name id bt s; mret s
  | CallWillUnlock p name id => '(_, s) ← lockdep_will_unlock p name id s; mret s
  end.

(** The identifier a caller passes is one it was given, or negative: it is
    below the size of the matrix. *)
Definition call_in_bounds (c : call) : Prop :=
  match c with
  | CallWillLock _ _ id _ | CallLocked _ _ id _ => id < MAX_LOCKS
  | _ => True
  end.

Inductive reached : lockdep → Prop :=
| reached_init : reached lockdep_init
| reached_call s c s' : reached s → call_in_bounds c → run_call c s = Done s' → reached s'.

(** The identifiers in use and the free ones share out the range; names and
    identifiers correspond; every name in use is counted. *)
Record lockdep_inv (s : lockdep) : Prop := {
  li_acyclic : acyclic (follows s);
  li_range : in_range (follows s);
  li_held : ∀ p m, held s !! p = Some m → Forall lock_id m.*1 ∧ msorted m;
  li_free : free_ids s ++ (map_to_list (lock_names s)).*1 ≡ₚ
            match g_lockdep_ceph_ctx s with Some _ => lock_range | None => [] end;
  li_names : ∀ n id, lock_ids s !! n = Some id ↔ lock_names s !! id = Some n;
  li_refs : ∀ id, match lock_names s !! id with Some _ => 1 ≤ refs_of id s | None => lock_refs s !! id = None end
}.

Lemma held_of_inv s p : lockdep_inv s → Forall lock_id (held_of p s).*1 ∧ msorted (held_of p s).
Proof.
  intros HI. unfold held_of. destruct (held s !! p) as [m|] eqn:E; [by eapply li_held|done].
Qed.

Lemma set_held_inv s p m :
  lockdep_inv s → Forall lock_id m.*1 → msorted m → lockdep_inv (set_held (<[p := m]> (held s)) s).
Proof.
  intros [] Hm Hs. split; try done. intros q l. cbn. rewrite lookup_insert_Some. intros [[<- <-]|[_ H]]; [done|by eapply li_held0].
Qed.

Lemma set_follows_inv s F : lockdep_inv s → acyclic F → in_range F → lockdep_inv (set_follows F s).
Proof. intros [] ??. by split. Qed.

Lemma name_lock_id s id n : lockdep_inv s → lock_names s !! id = Some n → lock_id id.
Proof.
  intros HI Hid. assert (id ∈ free_ids s ++ (map_to_list (lock_names s)).*1) as Hin.
  { apply elem_of_app. right. apply list_elem_of_fmap. exists (id, n). split; [done|]. by apply elem_of_map_to_list. }
  rewrite (li_free s HI) in Hin. destruct (g_lockdep_ceph_ctx s); [by apply elem_of_lock_range|].
  by apply not_elem_of_nil in Hin.
Qed.

Lemma free_lock_id s id : lockdep_inv s → id ∈ free_ids s → lock_id id ∧ lock_names s !! id = None.
Proof.
  intros HI Hid. pose proof (li_free s HI) as Hp. destruct (g_lockdep_ceph_ctx s) as [c|].
  - assert (NoDup (free_ids s ++ (map_to_list (lock_names s)).*1)) as Hnd.
    { rewrite Hp. apply NoDup_seqZ. }
    split; [apply elem_of_lock_range; rewrite <- Hp; apply elem_of_app; by left|].
    destruct (lock_names s !! id) as [n|] eqn:E; [|done]. apply NoDup_app in Hnd as (_ & Hdis & _).
    destruct (Hdis id Hid). apply list_elem_of_fmap. exists (id, n). split; [done|]. by apply elem_of_map_to_list.
  - apply Permutation_nil_r, app_nil in Hp as [Hp _]. rewrite Hp in Hid. by apply not_elem_of_nil in Hid.
Qed.

Lemma refs_insert s (r : gmap Z Z) id k v g c i n f h F :
  r = <[id := v]> (lock_refs s) →
  refs_of k (Mk_lockdep g c i n r f h F) = if decide (k = id) then v else refs_of k s.
Proof.
  intros ->. unfold refs_of. cbn. case_decide as Hk; [subst; by rewrite lookup_insert_eq|].
  by rewrite lookup_insert_ne.
Qed.

Lemma register_inv s name id s' :
  lockdep_inv s → lockdep_register name s = Done (id, s') →
  lockdep_inv s' ∧ lock_names s' !! id = Some name ∧
  held s' = held s ∧ follows s' = follows s ∧ g_lockdep s' = g_lockdep s ∧
  (∀ k, refs_of k s' = refs_of k s + if decide (k = id) then 1 else 0) ∧
  (∀ k n, lock_names s !! k = Some n → lock_names s' !! k = Some n).
Proof.
  intros HI. unfold lockdep_register. destruct (lock_ids s !! name) as [i|] eqn:E; cbn.
  - intros [= -> <-]. cbn. pose proof (proj1 (li_names s HI _ _) E) as En.
    split_and!; try done.
    + destruct HI as [H1 H2 H3 H4 H5 H6]. split; try done. intros k. specialize (H6 k). cbn.
      destruct (lock_names s !! k) eqn:Ek.
      * erewrite refs_insert by done. case_decide; [subst|]; lia.
      * rewrite lookup_insert_ne; [done|]. congruence.
    + intros k. erewrite refs_insert by done. case_decide; [subst|]; lia.
  - destruct (free_ids s) as [|i free] eqn:Ef; [done|]. cbn. intros [= -> <-]. cbn.
    destruct (free_lock_id s id HI) as [Hid Hnone]; [rewrite Ef; left|].
    assert (refs_of id s = 0) as Hz.
    { pose proof (li_refs s HI id) as Hr. rewrite Hnone in Hr. unfold refs_of. by rewrite Hr. }
    split_and!; try done.
    + destruct HI as [H1 H2 H3 H4 H5 H6]. split; try done; cbn.
      * rewrite Ef in H4. rewrite (map_to_list_insert _ _ _ Hnone). cbn. rewrite <- H4. cbn.
        by rewrite Permutation_middle.
      * intros n k. rewrite !lookup_insert_Some. rewrite H5. split.
        -- intros [[-> ->]|[Hn Hk]]; [by left|]. right. split; [congruence|done].
        -- intros [[-> ->]|[Hn Hk]]; [by left|]. right. split; [|done]. intros <-.
           apply H5 in Hk. congruence.
      * intros k. destruct (decide (k = id)) as [->|Hk].
        -- rewrite lookup_insert_eq. erewrite refs_insert by done. rewrite decide_True by done. unfold refs_of in *. cbn. lia.
        -- rewrite !lookup_insert_ne by done. specialize (H6 k). unfold refs_of. cbn. by rewrite lookup_insert_ne.
    + by rewrite lookup_insert_eq.
    + intros k. erewrite refs_insert by done. case_decide; [subst|]; unfold refs_of in *; cbn; lia.
    + intros k n Hk. rewrite lookup_insert_ne; [done|]. congruence.
Qed.

Lemma acyclic_empty : acyclic ∅.
Proof. intros a [Ha|(i & Ha & _)]%tc_edge_inv; by apply not_elem_of_empty in Ha. Qed.

Lemma unregister_inv s id s' :
  lockdep_inv s → lockdep_unregister id s = Done s' →
  lockdep_inv s' ∧ held s' = held s ∧ g_lockdep s' = g_lockdep s ∧
  (∀ k, 0 ≤ id → refs_of k s' = refs_of k s - if decide (k = id) then 1 else 0) ∧
  (∀ k n, 0 ≤ id → lock_names s !! k = Some n → k ≠ id ∨ refs_of id s ≠ 1 → lock_names s' !! k = Some n) ∧
  (∀ a b, (a, b) ∈ follows s → (a ≠ id ∧ b ≠ id ∨ refs_of id s ≠ 1) → (a, b) ∈ follows s').
Proof.
  intros HI. unfold lockdep_unregister. destruct (Z.ltb_spec id 0).
  { intros [= <-]. split_and!; try done; intros; lia. }
  destruct (lock_names s !! id) as [name|] eqn:En; [|done].
  pose proof (li_refs s HI id) as Hr. rewrite En in Hr.
  destruct (Z.eqb_spec (refs_of id s - 1) 0) as [Hz|Hz]; intros [= <-]; cbn.
  - split_and!; try done.
    + destruct HI as [H1 H2 H3 H4 H5 H6]. split; cbn; try done.
      * eapply acyclic_subset; [|exact H1]. intros e. rewrite elem_of_filter. tauto.
      * intros a b. rewrite elem_of_filter. intros [_ ?]. by apply H2.
      * rewrite <- H4. rewrite <- (map_to_list_delete _ _ _ En). cbn. rewrite <- (assoc_L (++)). done.
      * intros n k. rewrite !lookup_delete_Some, H5. split; (intros [Hne Hk]; split; [|done]); intros <-.
        -- congruence.
        -- apply H5 in En, Hk. congruence.
      * intros k. specialize (H6 k). destruct (decide (k = id)) as [->|Hk].
        -- by rewrite !lookup_delete_eq.
        -- unfold refs_of. cbn. by rewrite !lookup_delete_ne.
    + intros k _. unfold refs_of in *. cbn. case_decide as Hk.
      * subst. rewrite lookup_delete_eq. cbn. lia.
      * rewrite lookup_delete_ne by done. lia.
    + intros k n _ Hk [Hne|Hne]; [by rewrite lookup_delete_ne|lia].
    + intros a b Hab [Hne|Hne]; [|lia]. by rewrite elem_of_filter.
  - split_and!; try done.
    + destruct HI as [H1 H2 H3 H4 H5 H6]. split; cbn; try done. intros k. specialize (H6 k).
      destruct (decide (k = id)) as [->|Hk].
      * rewrite En. erewrite refs_insert by done. rewrite decide_True by done. lia.
      * unfold refs_of. cbn. by rewrite !lookup_insert_ne.
    + intros k _. erewrite refs_insert by done. case_decide; [subst|]; lia.
Qed.

Lemma mset_ids id v (m : list (Z * bool)) : lock_id id → Forall lock_id m.*1 → Forall lock_id (mset id v m).*1.
Proof.
  intros Hid. induction m as [|[k w] m IH].
  { intros _. cbn. by apply Forall_singleton. }
  intros Hm. apply Forall_cons in Hm as [? ?]. cbn.
  destruct (compare id k); cbn; auto.
Qed.

Lemma merase_ids id (m : list (Z * bool)) : Forall lock_id m.*1 → Forall lock_id (merase id m).*1.
Proof. rewrite !Forall_fmap. apply merase_Forall. Qed.

Lemma mfind_key h (m : list (Z * bool)) : is_Some (mfind h m) → h ∈ m.*1.
Proof. intros [v Hv%mfind_elem]. apply list_elem_of_fmap. by exists (h, v). Qed.

(** The checker's answer on the locks of one thread. *)
Lemma will_lock_done p name id bt s :
  lockdep_inv s → lock_id id →
  Forall (λ h, ¬ rtc (edge (follows s)) id h) (held_of p s).*1 →
  ∃ s', lockdep_will_lock p name id bt s = Done (id, s') ∧ lockdep_inv s' ∧
    follows s' = edges_to id (held_of p s) ∪ follows s ∧ (∀ q, held_of q s' = held_of q s) ∧
    s' = Mk_lockdep (g_lockdep s) (g_lockdep_ceph_ctx s) (lock_ids s) (lock_names s) (lock_refs s)
           (free_ids s) (<[p := held_of p s]> (held s)) (follows s').
Proof.
  intros HI Hid Hno. destruct (held_of_inv s p HI) as [Hm Hs].
  unfold lockdep_will_lock. rewrite (proj2 (Z.ltb_ge id 0)) by (destruct Hid; lia).
  cbn [mbind outcome_bind]. rewrite orb_true_r.
  destruct (will_lock_loop_done id (held_of p s) (follows s)) as (F & HF & Heq & Ha & Hr);
    [apply HI|apply HI|done..|].
  cbn [follows set_held]. rewrite HF. cbn [mbind outcome_bind mret outcome_ret].
  eexists. split; [done|]. split; [|split; [done|split; [|done]]].
  - by apply set_follows_inv; [apply set_held_inv|..].
  - intros q. unfold held_of. cbn. destruct (decide (p = q)) as [->|]; [|by rewrite lookup_insert_ne].
    by rewrite lookup_insert_eq.
Qed.

Lemma will_lock_dies p name id bt s :
  lockdep_inv s → lock_id id →
  Exists (λ h, rtc (edge (follows s)) id h) (held_of p s).*1 → lockdep_will_lock p name id bt s = Dies.
Proof.
  intros HI Hid Hex. destruct (held_of_inv s p HI) as [Hm Hs].
  unfold lockdep_will_lock. rewrite (proj2 (Z.ltb_ge id 0)) by (destruct Hid; lia).
  cbn [mbind outcome_bind]. rewrite orb_true_r. cbn [follows set_held].
  by rewrite (will_lock_loop_dies id (held_of p s) (follows s) (li_acyclic s HI) (li_range s HI)).
Qed.

Lemma will_lock_register p name id bt s r :
  id < 0 → lockdep_inv s → lockdep_will_lock p name id bt s = Done r →
  ∃ i s1, lockdep_register name s = Done (i, s1) ∧ lock_id i ∧ lockdep_inv s1 ∧
    lockdep_will_lock p name i bt s1 = Done r.
Proof.
  intros Hid HI. unfold lockdep_will_lock at 1. rewrite (proj2 (Z.ltb_lt id 0)) by done.
  intros Hd. apply outcome_bind_Done in Hd as ([i s1] & E & Hd). exists i, s1. split; [done|].
  destruct (register_inv _ _ _ _ HI E) as (HI1 & Hn & _). pose proof (name_lock_id _ _ _ HI1 Hn) as Hi.
  split_and!; try done. unfold lockdep_will_lock. by rewrite (proj2 (Z.ltb_ge i 0)) by (destruct Hi; lia).
Qed.

Lemma locked_inv p name id bt s i s' :
  lockdep_inv s → id < MAX_LOCKS → lockdep_locked p name id bt s = Done (i, s') → lockdep_inv s'.
Proof.
  intros HI Hid. unfold lockdep_locked. intros Hd. apply outcome_bind_Done in Hd as ([j s1] & E & [= <- <-]).
  assert (lockdep_inv s1 ∧ lock_id j) as [HI1 Hj].
  { destruct (Z.ltb_spec id 0); [|by simplify_eq].
    destruct (register_inv _ _ _ _ HI E) as (? & ? & _). split; [done|]. by eapply name_lock_id. }
  destruct (held_of_inv s1 p HI1). apply set_held_inv; [done|by apply mset_ids|by apply mset_sorted].
Qed.

Lemma run_call_inv c s s' :
  lockdep_inv s → call_in_bounds c → run_call c s = Done s' → lockdep_inv s'.
Proof.
  intros HI Hc. destruct c as [cct|cct|name|id|p name id bt|p name id bt|p name id]; cbn [run_call].
  - intros [= <-]. unfold lockdep_register_ceph_context.
    destruct HI as [H1 H2 H3 H4 H5 H6]. destruct (g_lockdep_ceph_ctx s) eqn:E; [split; try done; by rewrite E|].
    split; cbn; try done. apply Permutation_nil_r, app_nil in H4 as [-> ->]. by rewrite (right_id_L [] (++)).
  - intros [= <-]. unfold lockdep_unregister_ceph_context. case_bool_decide; [|done].
    split; cbn; try done. apply acyclic_empty.
  - intros Hd. outcome_inv. by eapply register_inv.
  - intros Hd. by eapply unregister_inv.
  - intros Hd. outcome_inv.
    assert (∃ i s1, lock_id i ∧ lockdep_inv s1 ∧ lockdep_will_lock p name i bt s1 = Done (z, s'))
      as (i & s1 & Hi & HI1 & E1).
    { destruct (Z.ltb_spec id 0); [|exists id, s; split; [split; [lia|exact Hc]|done]].
      destruct (will_lock_register _ _ _ _ _ _ H HI E) as (i & s1 & ? & ? & ? & ?). by exists i, s1. }
    destruct (reach_cases (follows s1) i (held_of p s1).*1) as [Hno|Hex]; [apply HI1..| |].
    + destruct (will_lock_done p name i bt s1 HI1 Hi Hno) as (s2 & E2 & HI2 & _).
      rewrite E2 in E1. by injection E1 as <- <-.
    + by rewrite (will_lock_dies p name i bt s1) in E1.
  - intros Hd. outcome_inv. by eapply locked_inv.
  - unfold lockdep_will_unlock. destruct (Z.ltb_spec id 0); intros Hd; outcome_inv; [done|].
    destruct (held_of_inv s p HI). by apply set_held_inv; [|apply merase_ids|apply merase_sorted].
Qed.

Lemma lockdep_init_inv : lockdep_inv lockdep_init.
Proof. split; cbn; try done. apply acyclic_empty. Qed.

Lemma reached_inv s : reached s → lockdep_inv s.
Proof. induction 1 as [|s c s' _ IH Hc Hs]; [apply lockdep_init_inv|by eapply run_call_inv]. Qed.

(** ** Runs that are computed *)

Fixpoint run_calls (cs : list call) (s : lockdep) : outcome lockdep :=
  match cs with
  | [] => Done s
  | c :: cs => s ← run_call c s; run_calls cs s
  end.

Lemma run_calls_reached cs s s' :
  reached s → Forall call_in_bounds cs → run_calls cs s = Done s' → reached s'.
Proof.
  intros Hs Hc. revert s Hs. induction Hc as [|c cs Hc _ IH]; intros s Hs; [by intros [= <-]|].
  intros (s1 & E & Hr)%outcome_bind_Done. eapply IH; [|exact Hr]. by eapply reached_call.
Qed.

(** ** The theorems *)

(** C28: whatever the sequence of calls, from whatever threads, the recorded order
    of locks has no cycle; identifiers in use and free ones share out the range
    without overlap, and names and identifiers correspond one to one. *)
Theorem lockdep_acyclic s :
  reached s →
  acyclic (follows s) ∧ in_range (follows s) ∧
  (∀ n id, lock_ids s !! n = Some id ↔ lock_names s !! id = Some n) ∧
  (∀ id n, lock_names s !! id = Some n → ¬ (id ∈ free_ids s) ∧ lock_id id ∧ 1 ≤ refs_of id s) ∧
  NoDup (free_ids s).
Proof.
  intros Hs%reached_inv. split_and!; [apply Hs..| |].
  - intros id n Hid. split_and!; [|by eapply name_lock_id|].
    + intros Hf. destruct (free_lock_id _ _ Hs Hf). congruence.
    + pose proof (li_refs _ Hs id) as Hr. by rewrite Hid in Hr.
  - pose proof (li_free _ Hs) as Hp. destruct (g_lockdep_ceph_ctx s).
    + assert (NoDup (free_ids s ++ (map_to_list (lock_names s)).*1)) as Hnd by (rewrite Hp; apply NoDup_seqZ).
      by apply NoDup_app in Hnd as [? _].
    + apply Permutation_nil_r, app_nil in Hp as [-> _]. constructor.
Qed.

Definition demo_calls : list call :=
  [CallRegisterContext 1; CallRegister "a"; CallRegister "b"; CallRegister "c";
   CallWillLock 7 "a" 0 false; CallLocked 7 "a" 0 false; CallWillLock 7 "b" 1 false; CallLocked 7 "b" 1 false;
   CallWillUnlock 7 "a" 0; CallWillLock 7 "c" 2 false; CallLocked 8 "c" 2 true].

Definition demo_state : lockdep :=
  match run_calls demo_calls lockdep_init with Done s => s | _ => lockdep_init end.

Lemma demo_reached : reached demo_state.
Proof.
  eapply (run_calls_reached demo_calls); [apply reached_init| |vm_compute; reflexivity].
  repeat constructor.
Qed.

Lemma lockdep_acyclic_witness : acyclic (follows demo_state) ∧ (0, 1) ∈ follows demo_state ∧ (1, 2) ∈ follows demo_state.
Proof.
  split; [apply (lockdep_acyclic demo_state demo_reached)|].
  split; apply (bool_decide_unpack _); vm_compute; reflexivity.
Defined.

(** In every such state the recursion of [does_follow] ends, within as many
    levels as there are locks, and answers whether a chain of recorded orders
    leads from the first lock to the second. *)
Lemma does_follow_spec s a b :
  reached s →
  ∃ r, does_follow does_follow_fuel (follows s) a b = Done r ∧ (r = true ↔ tc (edge (follows s)) a b).
Proof. intros Hs%reached_inv. apply does_follow_decides; apply Hs. Qed.

Lemma does_follow_spec_witness : tc (edge (follows demo_state)) 0 2 ∧ ¬ tc (edge (follows demo_state)) 2 0.
Proof.
  split.
  - destruct (does_follow_spec demo_state 0 2 demo_reached) as (r & Hr & Hiff). apply Hiff.
    assert (does_follow does_follow_fuel (follows demo_state) 0 2 = Done true) as E by (vm_compute; reflexivity).
    congruence.
  - destruct (does_follow_spec demo_state 2 0 demo_reached) as (r & Hr & Hiff). rewrite <- Hiff.
    assert (does_follow does_follow_fuel (follows demo_state) 2 0 = Done false) as E by (vm_compute; reflexivity).
    congruence.
Defined.

(** Before a lock is taken, the process is stopped exactly when the thread
    holds that lock or one that is recorded to come after it; otherwise the
    orders from every lock the thread holds are added and nothing else changes. *)
Lemma will_lock_spec s p name id bt :
  reached s → lock_id id →
  ((∃ h, h ∈ (held_of p s).*1 ∧ rtc (edge (follows s)) id h) ∧ lockdep_will_lock p name id bt s = Dies) ∨
  ((∀ h, h ∈ (held_of p s).*1 → ¬ rtc (edge (follows s)) id h) ∧
   ∃ s', lockdep_will_lock p name id bt s = Done (id, s') ∧
     (∀ a b, (a, b) ∈ follows s' ↔ (a, b) ∈ follows s ∨ b = id ∧ a ∈ (held_of p s).*1) ∧
     (∀ q, held_of q s' = held_of q s) ∧ lock_names s' = lock_names s ∧ lock_refs s' = lock_refs s ∧
     free_ids s' = free_ids s).
Proof.
  intros Hs%reached_inv Hid.
  destruct (reach_cases (follows s) id (held_of p s).*1) as [Hno|Hex]; [apply Hs..| |].
  - right. split; [by apply Forall_forall|].
    destruct (will_lock_done p name id bt s Hs Hid Hno) as (s' & E & _ & HF & Hh & Es). exists s'.
    split; [done|]. split; [|rewrite Es; split_and!; try done; intros q; by rewrite <- Es].
    intros a b. rewrite HF, elem_of_union, elem_of_edges_to. tauto.
  - left. split; [|by apply will_lock_dies]. by apply Exists_exists in Hex.
Qed.

Lemma will_lock_spec_witness :
  lockdep_will_lock 8 "a" 0 false demo_state = Dies ∧
  ∃ s', lockdep_will_lock 9 "a" 0 false demo_state = Done (0, s') ∧ (∀ q, held_of q s' = held_of q demo_state).
Proof.
  assert (lock_id 0) as H0 by (unfold lock_id, MAX_LOCKS; lia). split.
  - destruct (will_lock_spec demo_state 8 "a" 0 false demo_reached H0) as [[_ E]|[Hno _]]; [exact E|].
    exfalso. apply (Hno 2); [apply (bool_decide_unpack _); vm_compute; reflexivity|].
    apply rtc_l with 1; [|apply rtc_once]; unfold edge; apply (bool_decide_unpack _); vm_compute; reflexivity.
  - destruct (will_lock_spec demo_state 9 "a" 0 false demo_reached H0) as [[(h & Hh & _) _]|[_ (s' & E & _ & Hq & _)]].
    + exfalso. assert (held_of 9 demo_state = []) as E by (vm_compute; reflexivity). rewrite E in Hh.
      by apply not_elem_of_nil in Hh.
    + exists s'. split; [exact E|exact Hq].
Defined.
