(* ===== verification/MutexSystem.v ===== *)
(** * Threads and mutexes under the lock order checker

    [Mutex::Lock], [TryLock] and [Unlock] ([src/src/common/Mutex.cc],
    [Mutex.h]) as steps of a system of threads.  Threads whose acquisitions are
    checked never wait for each other in a cycle ([no_circular_wait]), unless a
    thread takes two mutexes of one name with [TryLock]
    ([same_name_deadlock]). *)

From S2P Require Import Prelude StdMap Lockdep LockdepFacts.
From stdpp Require Import gmap relations.
#[local] Open Scope Z_scope.
#[local] Open Scope str_scope.

(** ** Threads and mutexes

    A system of threads that construct, lock and destroy mutexes while the
    checker is on.  [Lock] is three steps: [_will_lock], the return of
    [pthread_mutex_lock], and [_locked] with [_post_lock]; [Unlock] is two, the
    second being [pthread_mutex_unlock].  Destroying a mutex that a thread owns
    or waits for is undefined and not a step. *)

Inductive tstate :=
| Running
| Blocked (m : Z) (checked : bool)
| Acquired (m : Z)
| Releasing (m : Z).

Record system := Mk_system { s_ld : lockdep; s_mx : gmap Z mutex; s_th : gmap Z tstate }.

Definition th (s : system) (t : Z) : tstate := default Running (s_th s !! t).

Inductive label :=
| Construct (m : Z) (n : str) (r ld bt : bool)
| Destroy (m : Z)
| Lock (t m : Z) (no_lockdep : bool)
| Acquire (t : Z)
| TryLock (t m : Z)
| Finish (t : Z)
| Unlock (t m : Z)
| Release (t : Z).

Definition owner (mx : mutex) : option Z := pm_owner (mx_m mx).

Definition idle_mutex (s : system) (m : Z) : Prop :=
  (∀ mx, s_mx s !! m = Some mx → owner mx = None) ∧
  (∀ t, th s t ≠ Acquired m ∧ th s t ≠ Releasing m ∧ ∀ c, th s t ≠ Blocked m c).

Inductive step : system → label → system → Prop :=
| step_construct ld mxs ths m n r l bt mx ld' :
    mxs !! m = None → Mutex_new n r l bt ld = Done (mx, ld') →
    step (Mk_system ld mxs ths) (Construct m n r l bt) (Mk_system ld' (<[m := mx]> mxs) ths)
| step_destroy ld mxs ths m mx ld' :
    mxs !! m = Some mx → idle_mutex (Mk_system ld mxs ths) m → Mutex_destroy mx ld = Done ld' →
    step (Mk_system ld mxs ths) (Destroy m) (Mk_system ld' (delete m mxs) ths)
| step_lock ld mxs ths t m no_lockdep mx mx' ld' :
    mxs !! m = Some mx → th (Mk_system ld mxs ths) t = Running →
    mutex_will_lock t no_lockdep mx ld = Done (mx', ld') →
    step (Mk_system ld mxs ths) (Lock t m no_lockdep)
      (Mk_system ld' (<[m := mx']> mxs)
         (<[t := Blocked m (mx_lockdep mx && g_lockdep ld && negb no_lockdep)]> ths))
| step_acquire ld mxs ths t m c mx pm :
    mxs !! m = Some mx → th (Mk_system ld mxs ths) t = Blocked m c →
    pthread_mutex_lock t (mx_m mx) = Some (true, pm) →
    step (Mk_system ld mxs ths) (Acquire t)
      (Mk_system ld (<[m := mx_set_m pm mx]> mxs) (<[t := Acquired m]> ths))
| step_try ld mxs ths t m mx pm :
    mxs !! m = Some mx → th (Mk_system ld mxs ths) t = Running →
    pthread_mutex_trylock t (mx_m mx) = (true, pm) →
    step (Mk_system ld mxs ths) (TryLock t m)
      (Mk_system ld (<[m := mx_set_m pm mx]> mxs) (<[t := Acquired m]> ths))
| step_finish ld mxs ths t m mx mx1 mx2 ld' :
    mxs !! m = Some mx → th (Mk_system ld mxs ths) t = Acquired m →
    mutex_locked t mx ld = Done (mx1, ld') → post_lock t mx1 = Done mx2 →
    step (Mk_system ld mxs ths) (Finish t) (Mk_system ld' (<[m := mx2]> mxs) (<[t := Running]> ths))
| step_unlock ld mxs ths t m mx mx1 mx2 ld' :
    mxs !! m = Some mx → th (Mk_system ld mxs ths) t = Running →
    pre_unlock t mx = Done mx1 → mutex_will_unlock t mx1 ld = Done (mx2, ld') →
    step (Mk_system ld mxs ths) (Unlock t m) (Mk_system ld' (<[m := mx2]> mxs) (<[t := Releasing m]> ths))
| step_release ld mxs ths t m mx pm :
    mxs !! m = Some mx → th (Mk_system ld mxs ths) t = Releasing m →
    pthread_mutex_unlock t (mx_m mx) = (true, pm) →
    step (Mk_system ld mxs ths) (Release t)
      (Mk_system ld (<[m := mx_set_m pm mx]> mxs) (<[t := Running]> ths)).

(** The mutex [k] is checked by lockdep and [t] has it. *)
Definition owns (s : system) (t k : Z) (mk : mutex) : Prop :=
  s_mx s !! k = Some mk ∧ owner mk = Some t ∧ mx_lockdep mk = true.

(** Acquisitions that skip [_will_lock] are not for a name the thread has. *)
Definition fresh_name (s : system) (t m : Z) : Prop :=
  ∀ mx k mk, s_mx s !! m = Some mx → mx_lockdep mx = true → owns s t k mk → mx_name mk ≠ mx_name mx.

Definition disciplined (s : system) (l : label) : Prop :=
  match l with
  | TryLock t m | Lock t m true => fresh_name s t m
  | _ => True
  end.

Inductive runs (ok : system → label → Prop) : system → Prop :=
| runs_init cct : runs ok (Mk_system (lockdep_register_ceph_context cct lockdep_init) ∅ ∅)
| runs_step s l s' : runs ok s → ok s l → step s l s' → runs ok s'.

(** A thread waits for another: the other has the mutex it is blocked on,
    and the acquisition was checked. *)
Definition waits (s : system) (t u : Z) : Prop :=
  ∃ m mx, th s t = Blocked m true ∧ s_mx s !! m = Some mx ∧ owner mx = Some u.

(** The mutexes that count for an identifier. *)
Definition tracked (mxs : gmap Z mutex) (id : Z) : gmap Z mutex :=
  filter (λ p, mx_lockdep p.2 = true ∧ mx_id p.2 = id) mxs.

(** The mutex whose entry in [held] is being added or removed. *)
Definition transit_of (ts : tstate) : option Z :=
  match ts with Acquired m | Releasing m => Some m | _ => None end.
Definition in_transit (s : system) (t : Z) : option Z := transit_of (th s t).

(** What holds of each thread: the checker knows the mutexes it owns, no two of
    one name, each once, and what it is blocked on comes after them. *)
Record thread_inv (s : system) (t : Z) : Prop := {
  ti_held : ∀ k mk, owns s t k mk →
            (∀ m mx, in_transit s t = Some m → s_mx s !! m = Some mx → mx_lockdep mx = true → mx_id mx ≠ mx_id mk) →
            is_Some (mfind (mx_id mk) (held_of t (s_ld s)));
  ti_once : ∀ k mk, owns s t k mk → pm_count (mx_m mk) = 1;
  ti_distinct : ∀ k mk l ml, owns s t k mk → owns s t l ml → mx_id mk = mx_id ml → k = l;
  ti_live : ∀ m c, th s t = Blocked m c → is_Some (s_mx s !! m);
  ti_transit : ∀ m, in_transit s t = Some m → is_Some (s_mx s !! m);
  ti_blocked : ∀ m c mx k mk, th s t = Blocked m c → s_mx s !! m = Some mx → mx_lockdep mx = true →
               owns s t k mk → mx_id mk ≠ mx_id mx ∧ (c = true → (mx_id mk, mx_id mx) ∈ follows (s_ld s));
  ti_checked : ∀ m mx, th s t = Blocked m true → s_mx s !! m = Some mx → mx_lockdep mx = true
}.

Record sys_inv (s : system) : Prop := {
  si_ld : lockdep_inv (s_ld s);
  si_on : g_lockdep (s_ld s) = true;
  si_named : ∀ m mx, s_mx s !! m = Some mx → mx_lockdep mx = true →
             lock_names (s_ld s) !! mx_id mx = Some (mx_name mx);
  si_refs : ∀ id, Z.of_nat (size (tracked (s_mx s) id)) ≤ refs_of id (s_ld s);
  si_threads : ∀ t, thread_inv s t
}.

(** ** No circular waiting *)

Lemma waits_edge s t u v m mx n nx :
  sys_inv s → th s t = Blocked m true → s_mx s !! m = Some mx → owner mx = Some u →
  th s u = Blocked n true → s_mx s !! n = Some nx → owner nx = Some v →
  (mx_id mx, mx_id nx) ∈ follows (s_ld s).
Proof.
  intros HI Ht Hm Ho Hu Hn _.
  apply (ti_blocked s u (si_threads s HI u) n true nx m mx Hu Hn (ti_checked _ _ (si_threads s HI u) n nx Hu Hn)); [|done].
  split; [done|split; [done|exact (ti_checked _ _ (si_threads s HI t) m mx Ht Hm)]].
Qed.

Lemma tc_waits s t u :
  tc (waits s) t u → ∃ m mx w, th s t = Blocked m true ∧ s_mx s !! m = Some mx ∧ owner mx = Some w.
Proof. by destruct 1 as [t w (m & mx & ?)|t w u (m & mx & ?) _]; exists m, mx, w. Qed.

Lemma waits_path s t u :
  sys_inv s → tc (waits s) t u → ∀ m mx n nx v,
  th s t = Blocked m true → s_mx s !! m = Some mx →
  th s u = Blocked n true → s_mx s !! n = Some nx → owner nx = Some v →
  tc (edge (follows (s_ld s))) (mx_id mx) (mx_id nx).
Proof.
  intros HI. induction 1 as [t u (m0 & mx0 & H1 & H2 & H3)|t u w (m0 & mx0 & H1 & H2 & H3) Huw IH];
    intros m mx n nx v Ht Hm Hu Hn Hv; rewrite H1 in Ht; simplify_eq.
  - apply tc_once. by eapply (waits_edge s t u).
  - assert (∃ k kx x, th s u = Blocked k true ∧ s_mx s !! k = Some kx ∧ owner kx = Some x) as (k & kx & x & ? & ? & ?).
    { by apply tc_waits in Huw. }
    apply tc_l with (mx_id kx); [by eapply (waits_edge s t u x)|by eapply IH].
Qed.

Lemma no_wait_cycle s t : sys_inv s → ¬ tc (waits s) t t.
Proof.
  intros HI Ht. assert (∃ m mx u, th s t = Blocked m true ∧ s_mx s !! m = Some mx ∧ owner mx = Some u)
    as (m & mx & u & ? & ? & ?).
  { by apply tc_waits in Ht. }
  eapply (li_acyclic _ (si_ld s HI) (mx_id mx)). by eapply waits_path.
Qed.

(** ** The steps keep the invariant *)

(** What the checker knows of a mutex. *)
Definition core (mx : mutex) : str * Z * bool := (mx_name mx, mx_id mx, mx_lockdep mx).

(** From [s] to [s'], seen by the thread [u]: its mutexes are as they were. *)
Definition same_for (u : Z) (s s' : system) : Prop :=
  ∀ k mk', s_mx s' !! k = Some mk' →
    s_mx s !! k = None ∧ owner mk' = None ∨
    ∃ mk, s_mx s !! k = Some mk ∧ core mk' = core mk ∧ (owner mk' = Some u → mx_m mk' = mx_m mk).

Lemma same_for_owns u s s' k mk' :
  same_for u s s' → owns s' u k mk' →
  ∃ mk, owns s u k mk ∧ mx_id mk' = mx_id mk ∧ mx_m mk' = mx_m mk.
Proof.
  intros Hsim (Hk & Ho & Hl). destruct (Hsim k mk' Hk) as [[_ Hn]|(mk & Hmk & [= _ Hi Hd] & Hm)]; [congruence|].
  exists mk. specialize (Hm Ho). repeat split; [done| |congruence|done..].
  unfold owner in *. congruence.
Qed.

Lemma in_transit_th s s' t : th s' t = th s t → in_transit s' t = in_transit s t.
Proof. unfold in_transit. by intros ->. Qed.

Lemma thread_inv_other s s' u :
  thread_inv s u → th s' u = th s u → held_of u (s_ld s') = held_of u (s_ld s) → same_for u s s' →
  (∀ m, is_Some (s_mx s !! m) → th s u = Acquired m ∨ th s u = Releasing m ∨ (∃ c, th s u = Blocked m c) →
     is_Some (s_mx s' !! m)) →
  (∀ k mk l ml, s_mx s' !! k = Some mk → s_mx s' !! l = Some ml → mx_lockdep mk = true → mx_lockdep ml = true →
     (mx_id mk, mx_id ml) ∈ follows (s_ld s) → (mx_id mk, mx_id ml) ∈ follows (s_ld s')) →
  thread_inv s' u.
Proof.
  intros HI Hth Hheld Hsim Hlive Hedge. pose proof (in_transit_th _ _ _ Hth) as Htr.
  assert (∀ m mx', s_mx s' !! m = Some mx' → is_Some (s_mx s !! m) →
    ∃ mx, s_mx s !! m = Some mx ∧ core mx' = core mx ∧ (owner mx' = Some u → mx_m mx' = mx_m mx)) as Hback.
  { intros m mx' Hm [mx Hmx]. destruct (Hsim m mx' Hm) as [[? _]|?]; [congruence|done]. }
  assert (∀ m, in_transit s u = Some m → is_Some (s_mx s' !! m)) as Htl.
  { intros m Hm. apply Hlive; [by apply HI|]. unfold in_transit in Hm. destruct (th s u); naive_solver. }
  split.
  - intros k mk Ho Hin. destruct (same_for_owns _ _ _ _ _ Hsim Ho) as (mk0 & Ho0 & -> & _).
    rewrite Hheld. apply (ti_held s u HI k mk0 Ho0). intros m mx Hm Hmx Hl.
    destruct (Htl m Hm) as [mx' Hmx'].
    destruct (Hback m mx' Hmx' (mk_is_Some _ _ Hmx)) as (mx0 & ? & [= _ Hi Hd] & _). simplify_eq.
    rewrite <- Hi. destruct (same_for_owns _ _ _ _ _ Hsim Ho) as (? & (? & _) & E & _).
    destruct Ho0 as (? & _). simplify_eq. rewrite <- E.
    apply (Hin m); [by rewrite Htr|done|congruence].
  - intros k mk Ho. destruct (same_for_owns _ _ _ _ _ Hsim Ho) as (mk0 & Ho0 & _ & ->).
    by apply (ti_once s u HI k).
  - intros k mk l ml Hk Hl Hid. destruct (same_for_owns _ _ _ _ _ Hsim Hk) as (mk0 & Hk0 & Ei & _).
    destruct (same_for_owns _ _ _ _ _ Hsim Hl) as (ml0 & Hl0 & El & _).
    eapply (ti_distinct s u HI k mk0 l ml0); [done..|congruence].
  - intros m c. rewrite Hth. intros Hb. apply Hlive; [by eapply ti_live|eauto].
  - intros m. rewrite Htr. apply Htl.
  - intros m c mx k mk. rewrite Hth. intros Hb Hm Hl Ho.
    destruct (Hback m mx Hm) as (mx0 & Hm0 & [= _ Hi Hd] & _); [by eapply ti_live|].
    pose proof Ho as (Hk & _ & Hkl). destruct (same_for_owns _ _ _ _ _ Hsim Ho) as (mk0 & Ho0 & Ei & _).
    destruct (ti_blocked s u HI m c mx0 k mk0 Hb Hm0) as [Hne He]; [congruence|done|].
    split; [congruence|]. intros Hc. apply (Hedge k mk m mx); [done..|]. rewrite Ei, Hi. auto.
  - intros m mx. rewrite Hth. intros Hb Hm.
    destruct (Hback m mx Hm) as (mx0 & Hm0 & [= _ _ ->] & _); [by eapply ti_live|]. by eapply ti_checked.
Qed.

Lemma th_insert ld ld' mxs mxs' ths t ts u :
  th (Mk_system ld' mxs' (<[t := ts]> ths)) u = if decide (u = t) then ts else th (Mk_system ld mxs ths) u.
Proof.
  unfold th. cbn. case_decide as Hu; [subst; by rewrite lookup_insert_eq|by rewrite lookup_insert_ne].
Qed.

Lemma tracked_dom mxs m mx mx' id :
  mxs !! m = Some mx → core mx' = core mx → size (tracked (<[m := mx']> mxs) id) = size (tracked mxs id).
Proof.
  intros Hm [= _ Hi Hd]. rewrite <- !size_dom. f_equal. apply set_eq. intros k.
  rewrite !elem_of_dom. unfold tracked, is_Some.
  setoid_rewrite map_lookup_filter_Some. cbn. destruct (decide (k = m)) as [->|Hk].
  - rewrite lookup_insert_eq, Hm. split; intros (x & [= <-] & ?); eexists; (split; [done|]); cbn in *;
      by rewrite ?Hi, ?Hd in *.
  - by rewrite lookup_insert_ne.
Qed.

Lemma same_for_insert u ld ld' mxs ths ths' m mx mx' :
  mxs !! m = Some mx → core mx' = core mx → (owner mx' = Some u → mx_m mx' = mx_m mx) →
  same_for u (Mk_system ld mxs ths) (Mk_system ld' (<[m := mx']> mxs) ths').
Proof.
  intros Hm Hc Ho k mk'. cbn. rewrite lookup_insert_Some. intros [[<- <-]|[Hne Hk]]; right; eauto.
Qed.

Lemma is_Some_insert {A} (mxs : gmap Z A) m x k : is_Some (mxs !! k) → is_Some (<[m := x]> mxs !! k).
Proof. rewrite lookup_insert_is_Some. destruct (decide (m = k)); auto. Qed.

(** One thread acts on one mutex: the others keep their part, and the mutex
    keeps its name and identifier. *)
Lemma sys_inv_act ld ld' mxs ths t ts m mx mx' :
  sys_inv (Mk_system ld mxs ths) → mxs !! m = Some mx → core mx' = core mx →
  (∀ u, u ≠ t → owner mx' = Some u → mx_m mx' = mx_m mx) →
  lockdep_inv ld' → g_lockdep ld' = g_lockdep ld → lock_names ld' = lock_names ld → lock_refs ld' = lock_refs ld →
  follows ld ⊆ follows ld' → (∀ u, u ≠ t → held_of u ld' = held_of u ld) →
  thread_inv (Mk_system ld' (<[m := mx']> mxs) (<[t := ts]> ths)) t →
  sys_inv (Mk_system ld' (<[m := mx']> mxs) (<[t := ts]> ths)).
Proof.
  intros HI Hm Hc Hpm Hld Hg Hn Hr Hf Hh Ht. split; cbn.
  - done.
  - rewrite Hg. apply HI.
  - intros k kx. rewrite Hn, lookup_insert_Some. intros [[<- <-]|[_ Hk]] Hl; [|by eapply (si_named _ HI)].
    injection Hc as -> -> Hd. apply (si_named _ HI m); [done|congruence].
  - intros id. rewrite (tracked_dom mxs m mx mx') by done. unfold refs_of. rewrite Hr. apply (si_refs _ HI).
  - intros u. destruct (decide (u = t)) as [->|Hu]; [done|].
    apply (thread_inv_other (Mk_system ld mxs ths)); cbn; try done.
    + apply HI.
    + rewrite (th_insert ld _ mxs). by rewrite decide_False.
    + by apply Hh.
    + eapply same_for_insert; [done..|]. by apply Hpm.
    + intros k Hk _. by apply is_Some_insert.
    + intros. by apply Hf.
Qed.

Lemma owns_insert ld ld' mxs ths ths' t m mx' k mk :
  owns (Mk_system ld' (<[m := mx']> mxs) ths') t k mk →
  k = m ∧ mk = mx' ∧ owner mx' = Some t ∧ mx_lockdep mx' = true ∨ k ≠ m ∧ owns (Mk_system ld mxs ths) t k mk.
Proof. intros (Hk & Ho & Hl). cbn in Hk. apply lookup_insert_Some in Hk as [[<- <-]|[? ?]]; [left|right]; done. Qed.

Lemma owns_insert_same ld ld' mxs ths ths' t m mx mx' k mk :
  mxs !! m = Some mx → core mx' = core mx → mx_m mx' = mx_m mx →
  owns (Mk_system ld' (<[m := mx']> mxs) ths') t k mk →
  ∃ mk0, owns (Mk_system ld mxs ths) t k mk0 ∧ mx_id mk = mx_id mk0 ∧ mx_m mk = mx_m mk0.
Proof.
  intros Hm Hc Hp Ho. apply (same_for_owns t (Mk_system ld mxs ths)) in Ho; [done|].
  by apply (same_for_insert _ _ _ _ _ _ _ mx).
Qed.

Lemma in_transit_insert ld mxs ths t ts :
  in_transit (Mk_system ld mxs (<[t := ts]> ths)) t = transit_of ts.
Proof. unfold in_transit, th. cbn. by rewrite lookup_insert_eq. Qed.

Lemma th_insert_eq ld mxs ths t ts : th (Mk_system ld mxs (<[t := ts]> ths)) t = ts.
Proof. unfold th. cbn. by rewrite lookup_insert_eq. Qed.

Section acts.
Context (ld : lockdep) (mxs : gmap Z mutex) (ths : gmap Z tstate).
Context (t m : Z) (mx : mutex).
Context (HI : sys_inv (Mk_system ld mxs ths)) (Hm : mxs !! m = Some mx).

(** The acquisition of a mutex of another name than those the thread has. *)
Lemma acquired_inv pm :
  in_transit (Mk_system ld mxs ths) t = None →
  (mx_lockdep mx = true → ∀ k mk, owns (Mk_system ld mxs ths) t k mk → mx_id mk ≠ mx_id mx) →
  pm_owner pm = Some t → (owner mx = None ∧ pm_count pm = 1 ∨ owner mx = Some t) →
  sys_inv (Mk_system ld (<[m := mx_set_m pm mx]> mxs) (<[t := Acquired m]> ths)).
Proof.
  intros Htr Hfresh Ho Hpm. pose proof (si_threads _ HI t) as Ht.
  apply (sys_inv_act ld ld mxs ths t (Acquired m) m mx); try done; try apply HI.
  { intros u Hu. unfold owner. cbn. congruence. }
  assert (mx_lockdep mx = true → owner mx = None ∧ pm_count pm = 1) as Hnone.
  { intros Hl. destruct Hpm as [?|Hmine]; [done|]. by destruct (Hfresh Hl m mx). }
  split; rewrite ?th_insert_eq, ?in_transit_insert; try done.
  - intros k mk [(-> & -> & _ & Hl)|[Hne Hk]]%(owns_insert ld ld mxs ths) Hin.
    + by destruct (Hin m (mx_set_m pm mx) eq_refl (lookup_insert_eq _ _ _) Hl).
    + apply (ti_held _ _ Ht k); [done|]. intros ? ? Hq. congruence.
  - intros k mk [(-> & -> & _ & Hl)|[Hne Hk]]%(owns_insert ld ld mxs ths).
    + by apply Hnone.
    + by eapply (ti_once _ _ Ht).
  - intros k mk l ml [(-> & -> & _ & Hk)|[Hne Hk]]%(owns_insert ld ld mxs ths)
      [(-> & -> & _ & Hl)|[Hnl Hl]]%(owns_insert ld ld mxs ths) Hid; try done.
    + by destruct (Hfresh Hk l ml Hl).
    + by destruct (Hfresh Hl k mk Hk).
    + by eapply (ti_distinct _ _ Ht).
  - intros k [= <-]. cbn. rewrite lookup_insert_eq. eauto.
Qed.

(** A step that leaves the mutexes as they are for the checker. *)
Lemma same_mutex_inv ld' ts mx' :
  core mx' = core mx → mx_m mx' = mx_m mx →
  lockdep_inv ld' → g_lockdep ld' = g_lockdep ld → lock_names ld' = lock_names ld → lock_refs ld' = lock_refs ld →
  follows ld ⊆ follows ld' → (∀ u, u ≠ t → held_of u ld' = held_of u ld) →
  (∀ k mk, owns (Mk_system ld mxs ths) t k mk →
     (∀ n, transit_of ts = Some n →
        n = m ∧ (mx_lockdep mx = true → mx_id mx ≠ mx_id mk)) →
     is_Some (mfind (mx_id mk) (held_of t ld'))) →
  match ts with
  | Blocked n c =>
      n = m ∧ (c = true → mx_lockdep mx = true) ∧
      (mx_lockdep mx = true → ∀ k mk, owns (Mk_system ld mxs ths) t k mk →
         mx_id mk ≠ mx_id mx ∧ (c = true → (mx_id mk, mx_id mx) ∈ follows ld'))
  | Acquired n | Releasing n => n = m
  | Running => True
  end →
  sys_inv (Mk_system ld' (<[m := mx']> mxs) (<[t := ts]> ths)).
Proof.
  intros Hc Hp Hld Hg Hn Hr Hf Hh Hheld Hts. pose proof (si_threads _ HI t) as Ht.
  pose proof Hc as [= _ Hi Hd].
  apply (sys_inv_act ld ld' mxs ths t ts m mx); try done.
  split; rewrite ?th_insert_eq, ?in_transit_insert.
  - intros k mk Ho Hin. destruct (owns_insert_same ld ld' mxs ths _ t m mx mx' k mk Hm Hc Hp Ho) as (mk0 & Ho0 & Ei & _).
    rewrite Ei. apply (Hheld k); [done|]. intros n Hq. specialize (Hin n).
    assert (n = m) as -> by (destruct ts; cbn in Hq; congruence). split; [done|]. intros Hl.
    rewrite <- Hi, <- Ei. apply Hin; [done|cbn; by rewrite lookup_insert_eq|congruence].
  - intros k mk Ho. destruct (owns_insert_same ld ld' mxs ths _ t m mx mx' k mk Hm Hc Hp Ho) as (mk0 & Ho0 & _ & ->).
    by eapply (ti_once _ _ Ht).
  - intros k mk l ml Hk Hl Hid.
    destruct (owns_insert_same ld ld' mxs ths _ t m mx mx' k mk Hm Hc Hp Hk) as (mk0 & Hk0 & Ek & _).
    destruct (owns_insert_same ld ld' mxs ths _ t m mx mx' l ml Hm Hc Hp Hl) as (ml0 & Hl0 & El & _).
    eapply (ti_distinct _ _ Ht k mk0 l ml0); [done..|congruence].
  - intros n c ->. destruct Hts as [-> _]. cbn. rewrite lookup_insert_eq. eauto.
  - intros n Hq. assert (n = m) as -> by (destruct ts; cbn in Hq; congruence). cbn. rewrite lookup_insert_eq. eauto.
  - intros n c nx k mk ->. destruct Hts as (-> & _ & Hb). cbn. rewrite lookup_insert_eq. intros [= <-] Hl Ho.
    destruct (owns_insert_same ld ld' mxs ths _ t m mx mx' k mk Hm Hc Hp Ho) as (mk0 & Ho0 & Ek & _).
    rewrite Ek, Hi. apply (Hb ltac:(congruence) k mk0 Ho0).
  - intros n nx ->. destruct Hts as (-> & Hck & _). cbn. rewrite lookup_insert_eq. intros [= <-].
    rewrite Hd. auto.
Qed.

End acts.

Lemma mx_set_id_same mx : mx_set_id (mx_id mx) mx = mx.
Proof. by destruct mx. Qed.

Lemma held_of_insert p m ld u :
  held_of u (set_held (<[p := m]> (held ld)) ld) = if decide (u = p) then m else held_of u ld.
Proof.
  unfold held_of. cbn. case_decide as Hu; [subst; by rewrite lookup_insert_eq|by rewrite lookup_insert_ne].
Qed.

Lemma named_id s m mx :
  sys_inv s → s_mx s !! m = Some mx → mx_lockdep mx = true → lock_id (mx_id mx).
Proof. intros HI Hm Hl. eapply name_lock_id; [apply HI|by eapply si_named]. Qed.

Lemma fresh_ids s t m mx :
  sys_inv s → s_mx s !! m = Some mx → fresh_name s t m → mx_lockdep mx = true →
  ∀ k mk, owns s t k mk → mx_id mk ≠ mx_id mx.
Proof.
  intros HI Hm Hf Hl k mk Ho Hid. apply (Hf mx k mk Hm Hl Ho). destruct Ho as (Hk & _ & Hkl).
  pose proof (si_named s HI k mk Hk Hkl) as E1. pose proof (si_named s HI m mx Hm Hl) as E2. congruence.
Qed.

Section steps.
Context (ld : lockdep) (mxs : gmap Z mutex) (ths : gmap Z tstate).
Context (t m : Z) (mx : mutex).
Context (HI : sys_inv (Mk_system ld mxs ths)) (Hm : mxs !! m = Some mx).

Lemma owned_held :
  in_transit (Mk_system ld mxs ths) t = None →
  ∀ k mk, owns (Mk_system ld mxs ths) t k mk → is_Some (mfind (mx_id mk) (held_of t ld)).
Proof. intros Htr k mk Ho. apply (ti_held _ _ (si_threads _ HI t) k mk Ho). congruence. Qed.

Lemma lock_inv no_lockdep mx' ld' :
  th (Mk_system ld mxs ths) t = Running → (no_lockdep = true → fresh_name (Mk_system ld mxs ths) t m) →
  mutex_will_lock t no_lockdep mx ld = Done (mx', ld') →
  sys_inv (Mk_system ld' (<[m := mx']> mxs)
    (<[t := Blocked m (mx_lockdep mx && g_lockdep ld && negb no_lockdep)]> ths)).
Proof.
  intros Hrun Hf. assert (in_transit (Mk_system ld mxs ths) t = None) as Htr by (unfold in_transit; by rewrite Hrun).
  pose proof (owned_held Htr) as Howned. unfold mutex_will_lock.
  destruct (mx_lockdep mx && g_lockdep ld && negb no_lockdep) eqn:Ec.
  - apply andb_true_iff in Ec as [[Hl Hon]%andb_true_iff Hnl%negb_true_iff].
    pose proof (named_id _ _ _ HI Hm Hl) as Hid. intros Hd.
    destruct (reach_cases (follows ld) (mx_id mx) (held_of t ld).*1) as [Hno|Hex]; [apply HI..| |].
    2: { by rewrite (will_lock_dies t _ _ _ ld (si_ld _ HI) Hid Hex) in Hd. }
    destruct (will_lock_done t (mx_name mx) (mx_id mx) (mx_backtrace mx) ld (si_ld _ HI) Hid Hno)
      as (ld1 & E & HI1 & HF & Hh & Eld).
    rewrite E in Hd. cbn in Hd. injection Hd as <- <-. rewrite mx_set_id_same.
    apply (same_mutex_inv ld mxs ths t m mx HI Hm); try done; try (by rewrite Eld).
    + rewrite HF. intros e. rewrite elem_of_union. auto.
    + intros k mk Ho _. rewrite Hh. eauto.
    + split_and!; try done. intros _ k mk Ho. pose proof (mfind_key _ _ (Howned k mk Ho)) as Hin.
      split.
      * intros Heq. eapply Forall_forall in Hno; [|exact Hin]. apply Hno. by rewrite Heq.
      * intros _. rewrite HF. apply elem_of_union. left. by apply elem_of_edges_to.
  - intros [= <- <-]. apply (same_mutex_inv ld mxs ths t m mx HI Hm); try done; try apply HI.
    + intros k mk Ho _. eauto.
    + split_and!; try done. intros Hl k mk Ho. split; [|done].
      eapply fresh_ids; [done..| |done|done]. apply Hf.
      pose proof (si_on _ HI) as Hon. cbn in Hon. rewrite Hl, Hon in Ec. by destruct no_lockdep.
Qed.

Lemma finish_inv mx1 mx2 ld' :
  th (Mk_system ld mxs ths) t = Acquired m → mutex_locked t mx ld = Done (mx1, ld') → post_lock t mx1 = Done mx2 →
  sys_inv (Mk_system ld' (<[m := mx2]> mxs) (<[t := Running]> ths)).
Proof.
  intros Hacq Hl Hp. assert (in_transit (Mk_system ld mxs ths) t = Some m) as Htr by (unfold in_transit; by rewrite Hacq).
  assert (core mx2 = core mx1 ∧ mx_m mx2 = mx_m mx1) as [Hc Hpm].
  { unfold post_lock in Hp. destruct (mx_recursive mx1); outcome_inv; done. }
  assert (mx1 = mx ∧ lockdep_inv ld' ∧ g_lockdep ld' = g_lockdep ld ∧ lock_names ld' = lock_names ld ∧
    lock_refs ld' = lock_refs ld ∧ follows ld' = follows ld ∧ (∀ u, u ≠ t → held_of u ld' = held_of u ld) ∧
    ∀ i, is_Some (mfind i (held_of t ld)) ∨ mx_lockdep mx = true ∧ i = mx_id mx → is_Some (mfind i (held_of t ld')))
    as (-> & H1 & H2 & H3 & H4 & H5 & H6 & H7).
  { unfold mutex_locked in Hl. destruct (mx_lockdep mx && g_lockdep ld) eqn:Ec.
    2: { injection Hl as <- <-. split_and!; try done; [apply HI|]. intros i [?|[Hl _]]; [done|].
         pose proof (si_on _ HI) as Hon. cbn in Hon. by rewrite Hl, Hon in Ec. }
    apply andb_true_iff in Ec as [Hld _]. pose proof (named_id _ _ _ HI Hm Hld) as [Hge Hlt].
    apply outcome_bind_Done in Hl as ([i ld1] & E & [= <- <-]).
    pose proof (locked_inv _ _ _ _ _ _ _ (si_ld _ HI) Hlt E) as HI1.
    unfold lockdep_locked in E. rewrite (proj2 (Z.ltb_ge _ 0) Hge) in E. cbn in E. injection E as <- <-.
    split_and!; try done; [apply mx_set_id_same| |].
    - intros u Hu. rewrite held_of_insert. by rewrite decide_False.
    - intros j Hj. rewrite held_of_insert, decide_True by done. rewrite mfind_mset.
      destruct (compare (mx_id mx) j) eqn:Ej; [eauto| |]; (destruct Hj as [?|[_ ->]]; [done|]);
      by rewrite compare_refl in Ej. }
  apply (same_mutex_inv ld mxs ths t m mx HI Hm); try done; [by rewrite H5|].
  intros k mk Ho _. apply H7. destruct (decide (mx_lockdep mx = true ∧ mx_id mk = mx_id mx)) as [|Hn]; [by right|left].
  apply (ti_held _ _ (si_threads _ HI t) k mk Ho). rewrite Htr. intros n nx [= <-] Hn1 Hnl. cbn in Hn1. simplify_eq.
  intros Heq. by apply Hn.
Qed.

Lemma unlock_inv mx1 mx2 ld' :
  th (Mk_system ld mxs ths) t = Running → pre_unlock t mx = Done mx1 → mutex_will_unlock t mx1 ld = Done (mx2, ld') →
  sys_inv (Mk_system ld' (<[m := mx2]> mxs) (<[t := Releasing m]> ths)).
Proof.
  intros Hrun Hp Hl. assert (in_transit (Mk_system ld mxs ths) t = None) as Htr by (unfold in_transit; by rewrite Hrun).
  pose proof (owned_held Htr) as Howned.
  assert (core mx1 = core mx ∧ mx_m mx1 = mx_m mx) as [Hc Hpm].
  { unfold pre_unlock in Hp. destruct (mx_recursive mx); outcome_inv; done. }
  pose proof Hc as [= Hcn Hi Hd].
  assert (mx2 = mx1 ∧ lockdep_inv ld' ∧ g_lockdep ld' = g_lockdep ld ∧ lock_names ld' = lock_names ld ∧
    lock_refs ld' = lock_refs ld ∧ follows ld' = follows ld ∧ (∀ u, u ≠ t → held_of u ld' = held_of u ld) ∧
    ∀ i, is_Some (mfind i (held_of t ld)) → (mx_lockdep mx = true → mx_id mx ≠ i) → is_Some (mfind i (held_of t ld')))
    as (-> & H1 & H2 & H3 & H4 & H5 & H6 & H7).
  { unfold mutex_will_unlock in Hl. destruct (mx_lockdep mx1 && g_lockdep ld) eqn:Ec.
    2: { injection Hl as <- <-. split_and!; try done. apply HI. }
    apply andb_true_iff in Ec as [Hld _]. rewrite Hd in Hld. pose proof (named_id _ _ _ HI Hm Hld) as [Hge Hlt].
    apply outcome_bind_Done in Hl as ([i ld1] & E & [= <- <-]).
    unfold lockdep_will_unlock in E. rewrite Hi, (proj2 (Z.ltb_ge _ 0) Hge) in E. injection E as <- <-.
    destruct (held_of_inv ld t (si_ld _ HI)).
    split_and!; try done; [rewrite <- Hi; apply mx_set_id_same| | |].
    - apply set_held_inv; [apply HI|by apply merase_ids|by apply merase_sorted].
    - intros u Hu. rewrite held_of_insert. by rewrite decide_False.
    - intros j Hj Hne. rewrite held_of_insert, decide_True by done. rewrite mfind_merase_ne; [done|]. auto. }
  apply (same_mutex_inv ld mxs ths t m mx HI Hm); try done; [by rewrite H5|].
  intros k mk Ho Hn. apply H7; [eauto|]. by apply (Hn m).
Qed.

Lemma release_inv pm :
  th (Mk_system ld mxs ths) t = Releasing m → pthread_mutex_unlock t (mx_m mx) = (true, pm) →
  sys_inv (Mk_system ld (<[m := mx_set_m pm mx]> mxs) (<[t := Running]> ths)).
Proof.
  intros Hrel Hu. assert (in_transit (Mk_system ld mxs ths) t = Some m) as Htr by (unfold in_transit; by rewrite Hrel).
  pose proof (si_threads _ HI t) as Ht. unfold pthread_mutex_unlock in Hu. case_bool_decide as Ho; [|done].
  assert (mx_lockdep mx = true → owns (Mk_system ld mxs ths) t m mx) as Hown by done.
  assert (mx_lockdep mx = true → pm_owner pm = None) as Hgone.
  { intros Hl. rewrite (ti_once _ _ Ht m mx (Hown Hl)) in Hu. cbn in Hu. by simplify_eq. }
  apply (sys_inv_act ld ld mxs ths t Running m mx); try done; try apply HI.
  { intros u Hne. unfold owner. cbn. destruct (pm_count (mx_m mx) =? 1); simplify_eq; cbn; congruence. }
  assert (∀ k mk, owns (Mk_system ld (<[m := mx_set_m pm mx]> mxs) (<[t := Running]> ths)) t k mk →
    k ≠ m ∧ owns (Mk_system ld mxs ths) t k mk) as Hback.
  { intros k mk [(-> & -> & Hmo & Hml)|?]%(owns_insert ld ld mxs ths); [|done].
    specialize (Hgone Hml). unfold owner in Hmo. cbn in Hmo. congruence. }
  split; rewrite ?th_insert_eq, ?in_transit_insert; try done.
  - intros k mk [Hne Hk]%Hback _. apply (ti_held _ _ Ht k mk Hk). rewrite Htr. intros n nx [= <-] Hn Hl Heq.
    cbn in Hn. simplify_eq. apply Hne. by apply (ti_distinct _ _ Ht k mk m mx Hk (Hown Hl)).
  - intros k mk [_ Hk]%Hback. by eapply (ti_once _ _ Ht).
  - intros k mk l ml [_ Hk]%Hback [_ Hl]%Hback. by apply (ti_distinct _ _ Ht).
Qed.

End steps.

Lemma tracked_insert_new mxs m mx id :
  mxs !! m = None →
  size (tracked (<[m := mx]> mxs) id) =
  (size (tracked mxs id) + if decide (mx_lockdep mx = true ∧ mx_id mx = id) then 1 else 0)%nat.
Proof.
  intros Hm. unfold tracked. case_decide as Hd.
  - rewrite map_filter_insert_True by done. rewrite map_size_insert_None; [lia|].
    rewrite map_lookup_filter_None. by left.
  - rewrite map_filter_insert_False by done. rewrite delete_id by done. lia.
Qed.

Lemma tracked_delete mxs m mx id :
  mxs !! m = Some mx →
  size (tracked mxs id) =
  (size (tracked (delete m mxs) id) + if decide (mx_lockdep mx = true ∧ mx_id mx = id) then 1 else 0)%nat.
Proof.
  intros Hm. rewrite <- (insert_delete_id mxs m mx Hm) at 1. apply tracked_insert_new. apply lookup_delete_eq.
Qed.

Lemma tracked_pos mxs k mk :
  mxs !! k = Some mk → mx_lockdep mk = true → (1 ≤ size (tracked mxs (mx_id mk)))%nat.
Proof.
  intros Hk Hl. apply Nat.le_succ_l, Nat.neq_0_lt_0. apply (map_size_ne_0_lookup_2 _ k).
  exists mk. by apply map_lookup_filter_Some.
Qed.

Lemma construct_inv ld mxs ths m n r l bt mx ld' :
  sys_inv (Mk_system ld mxs ths) → mxs !! m = None → Mutex_new n r l bt ld = Done (mx, ld') →
  sys_inv (Mk_system ld' (<[m := mx]> mxs) ths).
Proof.
  intros HI Hm Hnew. pose proof (si_on _ HI) as Hon. cbn in Hon.
  assert (owner mx = None ∧ lockdep_inv ld' ∧ g_lockdep ld' = true ∧ held ld' = held ld ∧ follows ld' = follows ld ∧
    (∀ k x, lock_names ld !! k = Some x → lock_names ld' !! k = Some x) ∧
    (mx_lockdep mx = true → lock_names ld' !! mx_id mx = Some (mx_name mx)) ∧
    ∀ id, refs_of id ld' = refs_of id ld + if decide (mx_lockdep mx = true ∧ mx_id mx = id) then 1 else 0)
    as (Ho & H1 & H2 & H3 & H4 & H5 & H6 & H7).
  { unfold Mutex_new in Hnew. rewrite Hon in Hnew. destruct l; cbn in Hnew.
    - apply outcome_bind_Done in Hnew as ([i ld1] & E & [= <- <-]).
      destruct (register_inv _ _ _ _ (si_ld _ HI) E) as (? & ? & ? & ? & Hg & Hr & ?).
      split_and!; try done; [by rewrite Hg|]. intros id. rewrite Hr. f_equal.
      destruct (decide (id = i)) as [->|]; [by rewrite decide_True|rewrite decide_False; [done|intros [_ ?]; cbn in *; congruence]].
    - injection Hnew as <- <-. split_and!; try done; [apply HI|]. intros id. cbn.
      destruct (decide (false = true ∧ -1 = id)) as [[? _]|]; [done|lia]. }
  split; cbn; try done.
  - intros k kx. rewrite lookup_insert_Some. intros [[<- <-]|[_ Hk]] Hl; [auto|]. by eapply H5, (si_named _ HI).
  - intros id. rewrite tracked_insert_new by done. rewrite H7. pose proof (si_refs _ HI id) as Hr. cbn in Hr.
    destruct (decide (mx_lockdep mx = true ∧ mx_id mx = id)); lia.
  - intros t. apply (thread_inv_other (Mk_system ld mxs ths)); try done.
    + apply HI.
    + unfold held_of. cbn. by rewrite H3.
    + intros k kx. cbn. rewrite lookup_insert_Some. intros [[<- <-]|[_ Hk]]; [by left|right; eauto].
    + intros k Hk _. by apply is_Some_insert.
    + intros. cbn. by rewrite H4.
Qed.

Lemma destroy_inv ld mxs ths m mx ld' :
  sys_inv (Mk_system ld mxs ths) → mxs !! m = Some mx → idle_mutex (Mk_system ld mxs ths) m →
  Mutex_destroy mx ld = Done ld' → sys_inv (Mk_system ld' (delete m mxs) ths).
Proof.
  intros HI Hm [Hno Hidle] Hd. pose proof (si_on _ HI) as Hon. cbn in Hon.
  assert (lockdep_inv ld' ∧ g_lockdep ld' = true ∧ held ld' = held ld ∧
    (∀ id, refs_of id ld' = refs_of id ld - if decide (mx_lockdep mx = true ∧ mx_id mx = id) then 1 else 0) ∧
    (∀ k kx, delete m mxs !! k = Some kx → mx_lockdep kx = true →
       mx_id kx ≠ mx_id mx ∨ refs_of (mx_id mx) ld ≠ 1 ∨ mx_lockdep mx = false →
       lock_names ld' !! mx_id kx = Some (mx_name kx)) ∧
    (∀ a b, (a, b) ∈ follows ld →
       a ≠ mx_id mx ∧ b ≠ mx_id mx ∨ refs_of (mx_id mx) ld ≠ 1 ∨ mx_lockdep mx = false → (a, b) ∈ follows ld'))
    as (H1 & H2 & H3 & H4 & H5 & H6).
  { unfold Mutex_destroy in Hd. rewrite Hon in Hd. outcome_inv.
    assert (∀ k kx, delete m mxs !! k = Some kx → mx_lockdep kx = true → lock_names ld !! mx_id kx = Some (mx_name kx))
      as Hnamed.
    { intros k kx Hk Hl. apply lookup_delete_Some in Hk as [_ Hk]. by apply (si_named _ HI k kx). }
    destruct (mx_lockdep mx) eqn:El; cbn in Hd.
    - pose proof (named_id _ _ _ HI Hm El) as [Hge _].
      destruct (unregister_inv _ _ _ (si_ld _ HI) Hd) as (? & ? & Hg & Hr & Hn & Hf).
      split_and!; try done; [by rewrite Hg| | |].
      + intros id. rewrite Hr by done. f_equal.
        destruct (decide (id = mx_id mx)) as [->|]; [by rewrite decide_True|rewrite decide_False; [done|intros [_ ?]; congruence]].
      + intros k kx Hk Hl Hc. apply Hn; [done|by eapply Hnamed|]. destruct Hc as [?|[?|?]]; auto.
      + intros a b Hab Hc. apply Hf; [done|]. destruct Hc as [?|[?|?]]; auto.
    - injection Hd as <-. split_and!; try done; [apply HI| |by intros; eapply Hnamed].
      intros id. destruct (decide (false = true ∧ mx_id mx = id)) as [[? _]|]; [done|lia]. }
  assert (∀ k kx, delete m mxs !! k = Some kx → mx_lockdep kx = true →
    mx_id kx ≠ mx_id mx ∨ refs_of (mx_id mx) ld ≠ 1 ∨ mx_lockdep mx = false) as Hmore.
  { intros k kx Hk Hl. destruct (decide (mx_id kx = mx_id mx)) as [Heq|]; [right|by left].
    destruct (mx_lockdep mx) eqn:El; [left|by right].
    pose proof (si_refs _ HI (mx_id mx)) as Hr. cbn in Hr. rewrite (tracked_delete mxs m mx _ Hm), decide_True in Hr by done.
    pose proof (tracked_pos _ _ _ Hk Hl) as Hp. rewrite Heq in Hp. lia. }
  split; cbn; try done.
  - intros k kx Hk Hl. eapply H5; [done..|]. by eapply Hmore.
  - intros id. rewrite H4. pose proof (si_refs _ HI id) as Hr. cbn in Hr. rewrite (tracked_delete mxs m mx id Hm) in Hr.
    destruct (decide (mx_lockdep mx = true ∧ mx_id mx = id)); lia.
  - intros t. apply (thread_inv_other (Mk_system ld mxs ths)); try done.
    + apply HI.
    + unfold held_of. cbn. by rewrite H3.
    + intros k kx. cbn. intros [_ Hk]%lookup_delete_Some. right. eauto.
    + intros k [kx Hk] Hth. cbn in *. rewrite lookup_delete_ne; [eauto|]. intros <-.
      destruct (Hidle t) as (? & ? & Hb). destruct Hth as [?|[?|[c ?]]]; [done..|]. by apply (Hb c).
    + intros k mk j mj Hk Hj Hkl Hjl He. cbn in *. apply H6; [done|].
      destruct (Hmore k mk Hk Hkl) as [?|?]; [|by right]. destruct (Hmore j mj Hj Hjl) as [?|?]; [by left|by right].
Qed.

Lemma step_inv s l s' : sys_inv s → disciplined s l → step s l s' → sys_inv s'.
Proof.
  intros HI Hok Hs. destruct Hs as [| |? ? ? ? ? nl|? ? ? t m c mx pm Hm Hb Hl|? ? ? t m mx pm Hm Hr Hl| | |].
  - by eapply construct_inv.
  - by eapply destroy_inv.
  - eapply lock_inv; try done. by intros ->.
  - pose proof (si_threads _ HI t) as Ht.
    assert (pm_owner pm = Some t ∧ (owner mx = None ∧ pm_count pm = 1 ∨ owner mx = Some t)) as [Ho Hp].
    { unfold pthread_mutex_lock in Hl. unfold owner. destruct (pm_owner (mx_m mx)) as [o|].
      - destruct (Z.eqb_spec o t); [|done]. destruct (pm_type (mx_m mx)); simplify_eq/=; auto.
      - simplify_eq/=. by auto. }
    eapply acquired_inv; try done.
    + unfold in_transit. by rewrite Hb.
    + intros Hld k mk Hk. by apply (ti_blocked _ _ Ht m c mx k mk).
  - assert (pm_owner pm = Some t ∧ (owner mx = None ∧ pm_count pm = 1 ∨ owner mx = Some t)) as [Ho Hp].
    { unfold pthread_mutex_trylock in Hl. unfold owner. destruct (pm_owner (mx_m mx)) as [o|].
      - destruct (pm_type (mx_m mx)); try done. destruct (Z.eqb_spec o t); simplify_eq/=; auto.
      - simplify_eq/=. by auto. }
    eapply acquired_inv; try done.
    + unfold in_transit. by rewrite Hr.
    + by eapply fresh_ids.
  - by eapply finish_inv.
  - by eapply unlock_inv.
  - by eapply release_inv.
Qed.

Lemma start_inv cct : sys_inv (Mk_system (lockdep_register_ceph_context cct lockdep_init) ∅ ∅).
Proof.
  assert (∀ t k mk, ¬ owns (Mk_system (lockdep_register_ceph_context cct lockdep_init) ∅ ∅) t k mk) as Hno.
  { by intros t k mk (Hk & _). }
  split; try done.
  - apply (run_call_inv (CallRegisterContext cct) lockdep_init); [apply lockdep_init_inv|done..].
  - intros t. by split; try done; intros; edestruct Hno.
Qed.

Lemma runs_inv s : runs disciplined s → sys_inv s.
Proof. induction 1 as [cct|s l s' _ IH Hok Hs]; [apply start_inv|by eapply step_inv]. Qed.

(** ** Runs that are computed *)

(** The steps of threads, each with the mutex it acts on; destruction apart. *)
Definition exec (l : label) (s : system) : option system :=
  let 'Mk_system ld mxs ths := s in
  match l with
  | Construct m n r ldp bt =>
      match mxs !! m, Mutex_new n r ldp bt ld with
      | None, Done (mx, ld') => Some (Mk_system ld' (<[m := mx]> mxs) ths)
      | _, _ => None
      end
  | Lock t m nl =>
      match mxs !! m, th s t with
      | Some mx, Running =>
          match mutex_will_lock t nl mx ld with
          | Done (mx', ld') =>
              Some (Mk_system ld' (<[m := mx']> mxs) (<[t := Blocked m (mx_lockdep mx && g_lockdep ld && negb nl)]> ths))
          | _ => None
          end
      | _, _ => None
      end
  | Acquire t =>
      match th s t with
      | Blocked m _ =>
          mx ← mxs !! m;
          match pthread_mutex_lock t (mx_m mx) with
          | Some (true, pm) => Some (Mk_system ld (<[m := mx_set_m pm mx]> mxs) (<[t := Acquired m]> ths))
          | _ => None
          end
      | _ => None
      end
  | TryLock t m =>
      match mxs !! m, th s t with
      | Some mx, Running =>
          match pthread_mutex_trylock t (mx_m mx) with
          | (true, pm) => Some (Mk_system ld (<[m := mx_set_m pm mx]> mxs) (<[t := Acquired m]> ths))
          | _ => None
          end
      | _, _ => None
      end
  | Finish t =>
      match th s t with
      | Acquired m =>
          mx ← mxs !! m;
          match mutex_locked t mx ld with
          | Done (mx1, ld') =>
              match post_lock t mx1 with
              | Done mx2 => Some (Mk_system ld' (<[m := mx2]> mxs) (<[t := Running]> ths))
              | _ => None
              end
          | _ => None
          end
      | _ => None
      end
  | Unlock t m =>
      match mxs !! m, th s t with
      | Some mx, Running =>
          match pre_unlock t mx with
          | Done mx1 =>
              match mutex_will_unlock t mx1 ld with
              | Done (mx2, ld') => Some (Mk_system ld' (<[m := mx2]> mxs) (<[t := Releasing m]> ths))
              | _ => None
              end
          | _ => None
          end
      | _, _ => None
      end
  | Release t =>
      match th s t with
      | Releasing m =>
          mx ← mxs !! m;
          match pthread_mutex_unlock t (mx_m mx) with
          | (true, pm) => Some (Mk_system ld (<[m := mx_set_m pm mx]> mxs) (<[t := Running]> ths))
          | _ => None
          end
      | _ => None
      end
  | Destroy _ => None
  end.

Lemma exec_step l s s' : exec l s = Some s' → step s l s'.
Proof.
  destruct s as [ld mxs ths]. destruct l as [m n r ldp bt|m|t m nl|t|t m|t|t m|t]; cbn [exec]; try done; intros He;
    repeat (case_match; simplify_option_eq; try done);
    by econstructor.
Qed.

Fixpoint exec_all (ls : list label) (s : system) : option system :=
  match ls with
  | [] => Some s
  | l :: ls => s ← exec l s; exec_all ls s
  end.

Lemma exec_all_runs (ok : system → label → Prop) ls s s' :
  runs ok s → (∀ s l, l ∈ ls → ok s l) → exec_all ls s = Some s' → runs ok s'.
Proof.
  revert s. induction ls as [|l ls IH]; intros s Hs Hok He; cbn in He; [by simplify_eq|].
  destruct (exec l s) as [s1|] eqn:E; [|done]. eapply (IH s1); [|by intros; apply Hok; right|done].
  eapply runs_step; [done|apply Hok; left|by apply exec_step].
Qed.

Definition start : system := Mk_system (lockdep_register_ceph_context 1 lockdep_init) ∅ ∅.

Definition final (ls : list label) : system := default start (exec_all ls start).

Lemma final_runs (ok : system → label → Prop) ls :
  match exec_all ls start with Some _ => true | None => false end = true →
  (∀ s l, l ∈ ls → ok s l) → runs ok (final ls).
Proof.
  intros He Hok. unfold final. destruct (exec_all ls start) as [s|] eqn:E; [|done].
  by apply (exec_all_runs ok ls start); [apply runs_init|..].
Qed.

Lemma waits_final s m t u :
  th s t = Blocked m true → owner <$> s_mx s !! m = Some (Some u) → waits s t u.
Proof. intros Ht Ho. destruct (s_mx s !! m) as [mx|] eqn:E; [|done]. exists m, mx. cbn in Ho. by simplify_eq. Qed.

(** ** The theorem *)

(** C8: threads whose acquisitions the checker has let through never wait for
    each other in a cycle, in any interleaving of constructions, locks, unlocks
    and destructions, as long as acquisitions without the check ([TryLock], or
    [Lock] with [no_lockdep]) are not for the name of a mutex the thread has. *)
Theorem no_circular_wait s t : runs disciplined s → ¬ tc (waits s) t t.
Proof. intros Hs%runs_inv. by apply no_wait_cycle. Qed.

Definition contention : list label :=
  [Construct 1 "a" false true false; Construct 2 "b" false true false;
   Lock 1 1 false; Acquire 1; Finish 1; Lock 1 2 false; Lock 2 1 false; Acquire 1; Finish 1].

Lemma no_circular_wait_witness : waits (final contention) 2 1 ∧ ¬ tc (waits (final contention)) 2 2.
Proof.
  split; [apply (waits_final _ 1 2 1); vm_compute; reflexivity|].
  apply (no_circular_wait (final contention) 2). apply final_runs; [vm_compute; reflexivity|].
  intros s0 l Hl. unfold contention in Hl.
  repeat (apply elem_of_cons in Hl as [->|Hl]; [exact I|]). by apply not_elem_of_nil in Hl.
Defined.

(** Without that discipline the checker lets a deadlock through: a thread takes
    two mutexes of one name with [TryLock] and unlocks one of them, which makes
    the checker forget the other. *)
Definition two_of_a_name : list label :=
  [Construct 1 "a" false true false; Construct 2 "a" false true false; Construct 3 "b" false true false;
   TryLock 1 1; Finish 1; TryLock 1 2; Finish 1; Unlock 1 1; Release 1;
   Lock 2 3 false; Acquire 2; Finish 2; Lock 2 2 false; Lock 1 3 false].

Lemma same_name_deadlock : ∃ s, runs (λ _ _, True) s ∧ tc (waits s) 1 1.
Proof.
  exists (final two_of_a_name). split; [apply final_runs; [vm_compute; reflexivity|done]|].
  apply tc_l with 2; [|apply tc_once]; [apply (waits_final _ 3)|apply (waits_final _ 2)]; vm_compute; reflexivity.
Qed.
