(* ===== verification/Buffer.v ===== *)
(** * Shared buffers ([src/src/common/buffer.cc], [src/src/include/buffer.h])

    A [buffer::raw] is a block of memory of fixed length; a [buffer::ptr] is a
    range of a raw; a [buffer::list] is a [std::list] of ranges with the number of
    bytes in it, an [append_buffer] into which small appends go, and the cached
    iterator [last_p].  Raws are shared between lists, so they live in a heap;
    the nodes of a [std::list] have identities, so that an iterator into a node
    that is gone is seen ([Undefined]).  The contents of fresh memory are those of
    [h_garbage].  [unsigned] arithmetic wraps around.  Reference counts only
    decide when a raw is freed; the cache of checksums is not kept. *)

From S2P Require Import Prelude StdMap.
From stdpp Require Import gmap.
#[local] Open Scope Z_scope.

(** ** The heap and the results of an operation *)

Record raw := Mk_raw { r_data : bytes; r_shareable : bool }.

Record heap := Mk_heap { h_next : Z; h_raws : gmap Z raw; h_garbage : Z → nat → ascii }.

Inductive res (A : Type) :=
| Ok (a : A)
| Throw        (* end_of_buffer *)
| Abort        (* a failed assert *)
| Undefined.   (* memory or an iterator that is not there *)
Arguments Ok {A} a.
Arguments Throw {A}.
Arguments Abort {A}.
Arguments Undefined {A}.

Definition M (A : Type) : Type := heap → res A * heap.

#[export] Instance M_ret : MRet M := λ _ a h, (Ok a, h).
#[export] Instance M_bind : MBind M := λ _ _ f m h,
  match m h with
  | (Ok a, h) => f a h
  | (Throw, h) => (Throw, h)
  | (Abort, h) => (Abort, h)
  | (Undefined, h) => (Undefined, h)
  end.

Definition end_of_buffer {A} : M A := λ h, (Throw, h).
Definition abort {A} : M A := λ h, (Abort, h).
Definition undefined {A} : M A := λ h, (Undefined, h).
Definition assert_ (b : bool) : M () := if b then mret tt else abort.

(** ** Memory *)

Definition zslice (o l : Z) (d : bytes) : bytes := take (Z.to_nat l) (drop (Z.to_nat o) d).
Definition zwrite (o : Z) (s d : bytes) : bytes :=
  take (Z.to_nat o) d ++ s ++ drop (Z.to_nat o + length s) d.

Definition in_bounds (o l : Z) (d : bytes) : bool := (0 <=? o) && (0 <=? l) && (o + l <=? zlen d).

Definition mem_read (r o l : Z) : M bytes := λ h,
  match h_raws h !! r with
  | Some w => if in_bounds o l (r_data w) then (Ok (zslice o l (r_data w)), h) else (Undefined, h)
  | None => (Undefined, h)
  end.

Definition mem_write (r o : Z) (s : bytes) : M () := λ h,
  match h_raws h !! r with
  | Some w =>
      if in_bounds o (zlen s) (r_data w)
      then (Ok tt, Mk_heap (h_next h) (<[r := Mk_raw (zwrite o s (r_data w)) (r_shareable w)]> (h_raws h)) (h_garbage h))
      else (Undefined, h)
  | None => (Undefined, h)
  end.

Definition raw_len (r : Z) : M Z := λ h,
  match h_raws h !! r with Some w => (Ok (zlen (r_data w)), h) | None => (Undefined, h) end.

Definition new_raw (d : bytes) (shareable : bool) : M Z := λ h,
  (Ok (h_next h), Mk_heap (h_next h + 1) (<[h_next h := Mk_raw d shareable]> (h_raws h)) (h_garbage h)).

Definition new_node : M Z := λ h, (Ok (h_next h), Mk_heap (h_next h + 1) (h_raws h) (h_garbage h)).

(** [buffer::create], [create_malloc], [create_aligned]: memory that is not initialised. *)
Definition create (len : Z) : M Z := λ h,
  new_raw (h_garbage h (h_next h) <$> seq 0 (Z.to_nat len)) true h.

(** [buffer::copy] *)
Definition copy_raw (d : bytes) : M Z := r ← create (zlen d); _ ← mem_write r 0 d; mret r.

(** [raw::clone]: an empty copy of the same length, which can be shared, and [memcpy]. *)
Definition raw_clone (r : Z) : M Z :=
  n ← raw_len r; c ← create n; d ← mem_read r 0 n; _ ← mem_write c 0 d; mret c.

Definition raw_is_shareable (r : Z) : M bool := λ h,
  match h_raws h !! r with Some w => (Ok (r_shareable w), h) | None => (Undefined, h) end.

(** ** [buffer::ptr] *)

Record ptr := Mk_ptr { p_raw : option Z; p_off : Z; p_len : Z }.

Definition ptr_null : ptr := Mk_ptr None 0 0.

Definition raw_of (p : ptr) : M Z := match p_raw p with Some r => mret r | None => abort end.

(** [_raw->...] without a test of [_raw]. *)
Definition raw_deref (p : ptr) : M Z := match p_raw p with Some r => mret r | None => undefined end.

Definition ptr_of_raw (r : Z) : M ptr := n ← raw_len r; mret (Mk_ptr (Some r) 0 n).
Definition ptr_create (l : Z) : M ptr := r ← create l; mret (Mk_ptr (Some r) 0 l).
Definition ptr_copy (d : bytes) : M ptr := r ← copy_raw d; mret (Mk_ptr (Some r) 0 (zlen d)).
Definition ptr_sub (p : ptr) (o l : Z) : M ptr :=
  _ ← assert_ (u32 (o + l) <=? p_len p); r ← raw_of p; mret (Mk_ptr (Some r) (u32 (p_off p + o)) l).
Definition ptr_assign (p : ptr) : ptr :=
  match p_raw p with Some _ => p | None => Mk_ptr None 0 0 end.

Definition ptr_make_shareable (p : ptr) : M ptr :=
  match p_raw p with
  | None => mret p
  | Some r =>
      sh ← raw_is_shareable r;
      if sh : bool then mret p else c ← raw_clone r; mret (Mk_ptr (Some c) (p_off p) (p_len p))
  end.

Definition ptr_start (p : ptr) : Z := p_off p.
Definition ptr_end (p : ptr) : Z := u32 (p_off p + p_len p).

Definition at_buffer_head (p : ptr) : bool := p_off p =? 0.
Definition at_buffer_tail (p : ptr) : M bool :=
  r ← raw_deref p; n ← raw_len r; mret (u32 (p_off p + p_len p) =? n).

Definition unused_tail_length (p : ptr) : M Z :=
  match p_raw p with
  | None => mret 0
  | Some r => n ← raw_len r; mret (u32 (n - (p_off p + p_len p)))
  end.

(** The [l] bytes at [c_str() + o]. *)
Definition ptr_read (p : ptr) (o l : Z) : M bytes := r ← raw_of p; mem_read r (p_off p + o) l.

(** [operator[]] *)
Definition ptr_at (p : ptr) (n : Z) : M ascii :=
  r ← raw_of p; _ ← assert_ (n <? p_len p);
  d ← mem_read r (p_off p + n) 1;
  match d with [c] => mret c | _ => undefined end.

Definition ptr_copy_out (p : ptr) (o l : Z) : M bytes :=
  r ← raw_of p; if p_len p <? u32 (o + l) then end_of_buffer else mem_read r (p_off p + o) l.

Definition ptr_wasted (p : ptr) : M Z := r ← raw_of p; n ← raw_len r; mret (u32 (n - p_len p)).

(** [cmp]: the sign of the result. *)
Definition ptr_cmp (p q : ptr) : M comparison :=
  let l := if p_len p <? p_len q then p_len p else p_len q in
  r ← (if l =? 0 then mret Eq else a ← ptr_read p 0 l; b ← ptr_read q 0 l; mret (str_compare a b));
  mret match r with
       | Eq => if p_len p <? p_len q then Lt else if p_len q <? p_len p then Gt else Eq
       | r => r
       end.

Definition mem_is_zero (d : bytes) : bool := forallb (λ c, uchar c =? 0) d.
Definition ptr_is_zero (p : ptr) : M bool := d ← ptr_read p 0 (p_len p); mret (mem_is_zero d).

Definition ptr_set_offset (o : Z) (p : ptr) : M ptr :=
  r ← raw_of p; n ← raw_len r; _ ← assert_ (o <=? n); mret (Mk_ptr (Some r) o (p_len p)).
Definition ptr_set_length (l : Z) (p : ptr) : M ptr :=
  r ← raw_of p; n ← raw_len r; _ ← assert_ (l <=? n); mret (Mk_ptr (Some r) (p_off p) l).

(** [append]: the new pointer and the returned end. *)
Definition ptr_append (p : ptr) (d : bytes) : M (ptr * Z) :=
  r ← raw_of p; gap ← unused_tail_length p; _ ← assert_ (zlen d <=? gap);
  _ ← mem_write r (p_off p + p_len p) d;
  let p := Mk_ptr (Some r) (p_off p) (u32 (p_len p + zlen d)) in
  mret (p, ptr_end p).
Definition ptr_append_char (p : ptr) (c : ascii) : M (ptr * Z) :=
  r ← raw_of p; gap ← unused_tail_length p; _ ← assert_ (1 <=? gap);
  _ ← mem_write r (p_off p + p_len p) [c];
  let p := Mk_ptr (Some r) (p_off p) (u32 (p_len p + 1)) in
  mret (p, ptr_end p).

Definition ptr_copy_in (p : ptr) (o : Z) (src : bytes) : M () :=
  r ← raw_of p; _ ← assert_ (o <=? p_len p); _ ← assert_ (u32 (o + zlen src) <=? p_len p);
  mem_write r (p_off p + o) src.

Definition zeros (l : Z) : bytes := replicate (Z.to_nat l) (chr 0).

Definition ptr_zero (p : ptr) : M () := r ← raw_deref p; mem_write r (p_off p) (zeros (p_len p)).
Definition ptr_zero_range (p : ptr) (o l : Z) : M () :=
  _ ← assert_ (u32 (o + l) <=? p_len p); r ← raw_deref p; mem_write r (p_off p + o) (zeros l).

(** ** [buffer::list] *)

Abbreviation node := (Z * ptr)%type.

(** [iterator_impl]: the offset in the list, the node ([None] is [end()]) and
    the offset in it. *)
Record iter := Mk_iter { i_off : Z; i_p : option Z; i_poff : Z }.

Record blist := Mk_blist {
  b_buffers : list node;
  b_len : Z;
  b_memcopy_count : Z;
  b_append_buffer : ptr;
  b_last_p : iter
}.

Definition set_buffers (bs : list node) (len : Z) (b : blist) : blist :=
  Mk_blist bs len (b_memcopy_count b) (b_append_buffer b) (b_last_p b).
Definition set_append_buffer (p : ptr) (b : blist) : blist :=
  Mk_blist (b_buffers b) (b_len b) (b_memcopy_count b) p (b_last_p b).
Definition set_last_p (it : iter) (b : blist) : blist :=
  Mk_blist (b_buffers b) (b_len b) (b_memcopy_count b) (b_append_buffer b) it.
Definition add_memcopy (n : Z) (b : blist) : blist :=
  Mk_blist (b_buffers b) (b_len b) (u32 (b_memcopy_count b + n)) (b_append_buffer b) (b_last_p b).

(** [begin()] and [end()] *)
Definition list_begin (b : blist) : iter := Mk_iter 0 (fst <$> head (b_buffers b)) 0.
Definition list_end (b : blist) : iter := Mk_iter (b_len b) None 0.

Definition list_new : blist := Mk_blist [] 0 0 ptr_null (Mk_iter 0 None 0).
Definition list_new_prealloc (prealloc : Z) : M blist :=
  p ← ptr_create prealloc; p ← ptr_set_length 0 p; mret (set_append_buffer p list_new).

Definition list_clear (b : blist) : blist :=
  let b := Mk_blist [] 0 0 (b_append_buffer b) (b_last_p b) in set_last_p (list_begin b) b.

(** New nodes for copies of pointers. *)
Fixpoint new_nodes (ps : list ptr) : M (list node) :=
  match ps with
  | [] => mret []
  | p :: ps => n ← new_node; ns ← new_nodes ps; mret ((n, p) :: ns)
  end.

Definition list_push_front (p : ptr) (b : blist) : M blist :=
  if p_len p =? 0 then mret b else
  n ← new_node; mret (set_buffers ((n, p) :: b_buffers b) (u32 (b_len b + p_len p)) b).
Definition list_push_back (p : ptr) (b : blist) : M blist :=
  if p_len p =? 0 then mret b else
  n ← new_node; mret (set_buffers (b_buffers b ++ [(n, p)]) (u32 (b_len b + p_len p)) b).

Fixpoint make_shareable_nodes (bs : list node) : M (list node) :=
  match bs with
  | [] => mret []
  | (n, p) :: bs => p ← ptr_make_shareable p; bs ← make_shareable_nodes bs; mret ((n, p) :: bs)
  end.
Definition list_make_shareable (b : blist) : M blist :=
  bs ← make_shareable_nodes (b_buffers b); mret (set_buffers bs (b_len b) b).

(** The copy constructor; the copies of the nodes are new, and so is [last_p]. *)
Definition list_copy_of (other : blist) : M blist :=
  ns ← new_nodes (b_buffers other).*2;
  let b := Mk_blist ns (b_len other) (b_memcopy_count other) ptr_null (Mk_iter 0 None 0) in
  list_make_shareable (set_last_p (list_begin b) b).

(** [operator=]: the nodes the list had are assigned to or destroyed. *)
Definition list_assign (other b : blist) : M blist :=
  ns ← new_nodes (b_buffers other).*2;
  list_make_shareable (set_buffers ns (b_len other) b).

(** The move constructor: the new list and what is left of the other. *)
Definition list_move (other : blist) : blist * blist :=
  let b := Mk_blist (b_buffers other) (b_len other) (b_memcopy_count other) (b_append_buffer other) (Mk_iter 0 None 0) in
  (set_last_p (list_begin b) b, list_clear (Mk_blist [] (b_len other) (b_memcopy_count other) ptr_null (b_last_p other))).

Definition list_swap (a b : blist) : blist * blist :=
  (set_last_p (list_begin b) b, set_last_p (list_begin a) a).

(** [share] *)
Definition list_share (bl b : blist) : M blist :=
  (fix go (bs : list node) (b : blist) : M blist :=
     match bs with [] => mret b | (_, p) :: bs => b ← list_push_back p b; go bs b end)
  (b_buffers bl) (list_clear b).

(** ** Iterators *)

(** The nodes from one on; [None] when the node is not in the list. *)
Fixpoint nodes_from (n : Z) (bs : list node) : option (list node) :=
  match bs with
  | [] => None
  | (m, p) :: bs' => if m =? n then Some bs else nodes_from n bs'
  end.

Definition iter_nodes (b : blist) (p : option Z) : option (list node) :=
  match p with None => Some [] | Some n => nodes_from n (b_buffers b) end.

(** The nodes before one, the nearest first. *)
Fixpoint nodes_before (p : option Z) (bs seen : list node) : option (list node) :=
  match bs with
  | [] => match p with None => Some seen | Some _ => None end
  | (m, q) :: bs' => if bool_decide (p = Some m) then Some seen else nodes_before p bs' ((m, q) :: seen)
  end.

Fixpoint advance_loop (bs : list node) (poff : Z) : option (list node * Z) :=
  match bs with
  | [] => if poff =? 0 then Some ([], 0) else None
  | (_, p) :: bs' =>
      if poff =? 0 then Some (bs, 0)
      else if p_len p <=? poff then advance_loop bs' (poff - p_len p) else Some (bs, poff)
  end.

Fixpoint back_loop (before : list node) (it : iter) (o : Z) : res iter :=
  let d := Z.min (- o) (i_poff it) in
  let it := Mk_iter (i_off it - d) (i_p it) (i_poff it - d) in
  let o := o + d in
  if 0 <=? o then Ok it
  else if 0 <? i_off it then
    match before with
    | [] => Abort
    | (n, p) :: before => back_loop before (Mk_iter (i_off it) (Some n) (p_len p)) o
    end
  else Throw.

Definition iter_advance (b : blist) (o : Z) (it : iter) : M iter :=
  if 0 <? o then
    match iter_nodes b (i_p it) with
    | None => undefined
    | Some bs =>
        match advance_loop bs (u32 (i_poff it + o)) with
        | None => end_of_buffer
        | Some (bs, poff) => mret (Mk_iter (u32 (i_off it + o)) (fst <$> head bs) poff)
        end
    end
  else if o <? 0 then
    match nodes_before (i_p it) (b_buffers b) [] with
    | None => undefined
    | Some before => λ h, (back_loop before it o, h)
    end
  else mret it.

(** [seek]: the offset is passed on as an [int]. *)
Definition iter_seek (b : blist) (o : Z) : M iter := iter_advance b (s32 o) (list_begin b).

(** [*p] *)
Definition iter_ptr (b : blist) (it : iter) : M ptr :=
  match i_p it with
  | None => undefined
  | Some n =>
      match nodes_from n (b_buffers b) with
      | Some ((_, p) :: _) => mret p
      | _ => undefined
      end
  end.

Definition at_end (it : iter) : bool := match i_p it with None => true | Some _ => false end.

Definition iter_star (b : blist) (it : iter) : M ascii :=
  if at_end it then end_of_buffer else p ← iter_ptr b it; ptr_at p (i_poff it).
Definition iter_incr (b : blist) (it : iter) : M iter :=
  if at_end it then end_of_buffer else iter_advance b 1 it.
Definition iter_current_ptr (b : blist) (it : iter) : M ptr :=
  if at_end it then end_of_buffer else
  p ← iter_ptr b it; ptr_sub p (i_poff it) (u32 (p_len p - i_poff it)).

Definition iter_get_remaining (b : blist) (it : iter) : Z := u32 (b_len b - i_off it).

(** Every turn of a copying loop takes what is left of one buffer, at most
    [len] bytes; [fuel] bounds the number of turns. *)
Definition howmuch (p : ptr) (it : iter) (len : Z) : Z :=
  let n := u32 (p_len p - i_poff it) in if len <? n then len else n.

Definition loop_fuel (b : blist) : nat := S (length (b_buffers b)).

(** [copy(len, char *dest)] *)
Fixpoint copy_loop (fuel : nat) (b : blist) (len : Z) (it : iter) : M (bytes * iter) :=
  match fuel with
  | O => undefined
  | S fuel =>
      if len <=? 0 then mret ([], it)
      else if at_end it then end_of_buffer
      else
        p ← iter_ptr b it;
        _ ← assert_ (0 <? p_len p);
        let n := howmuch p it len in
        d ← ptr_copy_out p (i_poff it) n;
        it ← iter_advance b n it;
        '(ds, it) ← copy_loop fuel b (len - n) it;
        mret (d ++ ds, it)
  end.

Definition iter_reseek (b : blist) (it : iter) : M iter :=
  if at_end it then iter_seek b (i_off it) else mret it.

Definition iter_copy (b : blist) (len : Z) (it : iter) : M (bytes * iter) :=
  it ← iter_reseek b it; copy_loop (loop_fuel b) b len it.

(** [copy(len, ptr &dest)] *)
Definition iter_copy_ptr (b : blist) (len : Z) (it : iter) : M (ptr * iter) :=
  dest ← ptr_create len;
  '(d, it) ← iter_copy b len it;
  r ← raw_of dest; _ ← mem_write r (p_off dest) d; mret (dest, it).

(** [copy(len, std::string &dest)] *)
Fixpoint copy_string_loop (fuel : nat) (b : blist) (len : Z) (it : iter) : M (bytes * iter) :=
  match fuel with
  | O => undefined
  | S fuel =>
      if len <=? 0 then mret ([], it)
      else if at_end it then end_of_buffer
      else
        p ← iter_ptr b it;
        let n := howmuch p it len in
        d ← ptr_read p (i_poff it) n;
        it ← iter_advance b n it;
        '(ds, it) ← copy_string_loop fuel b (len - n) it;
        mret (d ++ ds, it)
  end.
Definition iter_copy_string (b : blist) (len : Z) (dest : str) (it : iter) : M (str * iter) :=
  it ← iter_reseek b it; '(d, it) ← copy_string_loop (loop_fuel b) b len it; mret (dest ++ d, it).

(** [copy_in(len, src)]: [len] is the length of [src]. *)
Fixpoint copy_in_loop (fuel : nat) (b : blist) (src : bytes) (it : iter) : M iter :=
  match fuel with
  | O => undefined
  | S fuel =>
      if zlen src <=? 0 then mret it
      else if at_end it then end_of_buffer
      else
        p ← iter_ptr b it;
        let n := howmuch p it (zlen src) in
        _ ← ptr_copy_in p (i_poff it) (take (Z.to_nat n) src);
        it ← iter_advance b n it;
        copy_in_loop fuel b (drop (Z.to_nat n) src) it
  end.
Definition iter_copy_in (b : blist) (src : bytes) (it : iter) : M iter :=
  it ← iter_reseek b it; copy_in_loop (loop_fuel b) b src it.

(** [copy_in(len, otherl)] *)
Fixpoint copy_in_list_loop (b : blist) (left : Z) (bs : list node) (it : iter) : M iter :=
  match bs with
  | [] => mret it
  | (_, p) :: bs =>
      let l := if left <? p_len p then left else p_len p in
      d ← ptr_read p 0 l;
      it ← iter_copy_in b d it;
      if left - l =? 0 then mret it else copy_in_list_loop b (left - l) bs it
  end.
Definition iter_copy_in_list (b : blist) (len : Z) (other : blist) (it : iter) : M iter :=
  it ← iter_reseek b it; copy_in_list_loop b len (b_buffers other) it.

(** ** Appending *)

Definition CEPH_BUFFER_APPEND_SIZE : Z := 4096.

(** [append(const ptr& bp, unsigned off, unsigned len)]: a range next to the last
    one of the list extends it. *)
Definition list_append_range (bp : ptr) (off len : Z) (b : blist) : M blist :=
  _ ← assert_ (u32 (len + off) <=? p_len bp);
  match last (b_buffers b) with
  | Some (n, l) =>
      if bool_decide (p_raw l = p_raw bp) && (ptr_end l =? u32 (ptr_start bp + off)) then
        l ← ptr_set_length (u32 (p_len l + len)) l;
        mret (set_buffers (removelast (b_buffers b) ++ [(n, l)]) (u32 (b_len b + len)) b)
      else
        t ← ptr_sub bp off len; list_push_back t b
  | None => t ← ptr_sub bp off len; list_push_back t b
  end.

(** A new [append_buffer], unused so far. *)
Definition list_new_append_buffer (alen : Z) (b : blist) : M blist :=
  p ← ptr_create alen; p ← ptr_set_length 0 p; mret (set_append_buffer p b).

Definition list_append_char (c : ascii) (b : blist) : M blist :=
  gap ← unused_tail_length (b_append_buffer b);
  b ← (if gap =? 0 then list_new_append_buffer CEPH_BUFFER_APPEND_SIZE b else mret b);
  '(p, e) ← ptr_append_char (b_append_buffer b) c;
  let b := set_append_buffer p b in
  list_append_range p (u32 (e - 1)) 1 b.

Fixpoint append_loop (fuel : nat) (d : bytes) (b : blist) : M blist :=
  match fuel with
  | O => undefined
  | S fuel =>
      if zlen d <=? 0 then mret b else
      gap ← unused_tail_length (b_append_buffer b);
      '(d, b) ←
        (if 0 <? gap then
           let gap := if zlen d <? gap then zlen d else gap in
           '(p, _) ← ptr_append (b_append_buffer b) (take (Z.to_nat gap) d);
           let b := set_append_buffer p b in
           b ← list_append_range p (u32 (ptr_end p - gap)) gap b;
           mret (drop (Z.to_nat gap) d, b)
         else mret (d, b));
      if zlen d =? 0 then mret b else
      let alen := u32 (CEPH_BUFFER_APPEND_SIZE * ((zlen d - 1) / CEPH_BUFFER_APPEND_SIZE + 1)) in
      b ← list_new_append_buffer alen b;
      append_loop fuel d b
  end.

(** [append(const char *data, unsigned len)]: the loop runs at most twice. *)
Definition list_append (d : bytes) (b : blist) : M blist := append_loop 2 d b.

Definition list_append_ptr (bp : ptr) (b : blist) : M blist :=
  if p_len bp =? 0 then mret b else list_push_back bp b.

Definition list_append_list (bl b : blist) : M blist :=
  ns ← new_nodes (b_buffers bl).*2;
  mret (set_buffers (b_buffers b ++ ns) (u32 (b_len b + b_len bl)) b).

Definition list_append_zero (len : Z) (b : blist) : M blist :=
  bp ← ptr_create len; _ ← ptr_zero bp; list_append_ptr bp b.

(** Copying out of an iterator into a list. *)
Fixpoint copy_list_loop (fuel : nat) (b : blist) (len : Z) (dest : blist) (it : iter) : M (blist * iter) :=
  match fuel with
  | O => undefined
  | S fuel =>
      if len <=? 0 then mret (dest, it)
      else if at_end it then end_of_buffer
      else
        p ← iter_ptr b it;
        let n := howmuch p it len in
        dest ← list_append_range p (i_poff it) n dest;
        it ← iter_advance b n it;
        copy_list_loop fuel b (len - n) dest it
  end.
Definition iter_copy_list (b : blist) (len : Z) (dest : blist) (it : iter) : M (blist * iter) :=
  it ← iter_reseek b it; copy_list_loop (loop_fuel b) b len dest it.

Fixpoint copy_all_loop (fuel : nat) (b dest : blist) (it : iter) : M (blist * iter) :=
  match fuel with
  | O => undefined
  | S fuel =>
      if at_end it then mret (dest, it)
      else
        p ← iter_ptr b it;
        _ ← assert_ (0 <? p_len p);
        let n := u32 (p_len p - i_poff it) in
        d ← ptr_read p (i_poff it) n;
        dest ← list_append d dest;
        it ← iter_advance b n it;
        copy_all_loop fuel b dest it
  end.
Definition iter_copy_all (b dest : blist) (it : iter) : M (blist * iter) :=
  it ← iter_reseek b it; copy_all_loop (loop_fuel b) b dest it.

(** ** Claiming *)

(** [_buffers.splice] of all the nodes; the other list keeps its [append_buffer]. *)
Definition list_claim_append (bl b : blist) (nonshareable : bool) : M (blist * blist) :=
  let len := u32 (b_len b + b_len bl) in
  bl ← (if nonshareable then mret bl else list_make_shareable bl);
  let b := set_buffers (b_buffers b ++ b_buffers bl) len b in
  let bl := set_buffers [] 0 bl in
  mret (b, set_last_p (list_begin bl) bl).

Definition list_claim_prepend (bl b : blist) (nonshareable : bool) : M (blist * blist) :=
  let len := u32 (b_len b + b_len bl) in
  bl ← (if nonshareable then mret bl else list_make_shareable bl);
  let b := set_buffers (b_buffers bl ++ b_buffers b) len b in
  let bl := set_buffers [] 0 bl in
  mret (b, set_last_p (list_begin bl) bl).

Definition list_claim (bl b : blist) (nonshareable : bool) : M (blist * blist) :=
  list_claim_append bl (list_clear b) nonshareable.

(** ** Reading and writing at an offset *)

Definition last_p_at (b : blist) (off : Z) : M iter :=
  if i_off (b_last_p b) =? off then mret (b_last_p b) else iter_seek b off.

Definition list_copy (off len : Z) (b : blist) : M (bytes * blist) :=
  if b_len b <? u32 (off + len) then end_of_buffer else
  it ← last_p_at b off; '(d, it) ← iter_copy b len it; mret (d, set_last_p it b).

Definition list_copy_list (off len : Z) (dest b : blist) : M (blist * blist) :=
  if b_len b <? u32 (off + len) then end_of_buffer else
  it ← last_p_at b off; '(dest, it) ← iter_copy_list b len dest it; mret (dest, set_last_p it b).

Definition list_copy_string (off len : Z) (dest : str) (b : blist) : M (str * blist) :=
  it ← last_p_at b off; '(d, it) ← iter_copy_string b len dest it; mret (d, set_last_p it b).

Definition list_copy_in (off : Z) (src : bytes) (b : blist) : M blist :=
  if b_len b <? u32 (off + zlen src) then end_of_buffer else
  it ← last_p_at b off; it ← iter_copy_in b src it; mret (set_last_p it b).

Definition list_copy_in_list (off len : Z) (src b : blist) : M blist :=
  it ← last_p_at b off; it ← iter_copy_in_list b len src it; mret (set_last_p it b).

(** [operator[]] *)
Fixpoint nodes_at (n : Z) (bs : list node) : M ascii :=
  match bs with
  | [] => abort
  | (_, p) :: bs => if p_len p <=? n then nodes_at (n - p_len p) bs else ptr_at p n
  end.
Definition list_at (n : Z) (b : blist) : M ascii :=
  if b_len b <=? n then end_of_buffer else nodes_at n (b_buffers b).

Fixpoint nodes_is_zero (bs : list node) : M bool :=
  match bs with
  | [] => mret true
  | (_, p) :: bs => z ← ptr_is_zero p; if z : bool then nodes_is_zero bs else mret false
  end.
Definition list_is_zero (b : blist) : M bool := nodes_is_zero (b_buffers b).

Fixpoint nodes_zero (bs : list node) : M () :=
  match bs with [] => mret tt | (_, p) :: bs => _ ← ptr_zero p; nodes_zero bs end.
Definition list_zero (b : blist) : M () := nodes_zero (b_buffers b).

(** [zero(o, l)], from the position [p] of the first buffer. *)
Fixpoint nodes_zero_range (o l p : Z) (bs : list node) : M () :=
  match bs with
  | [] => mret tt
  | (_, it) :: bs =>
      _ ← (if o <? u32 (p + p_len it) then
             if (o <=? p) && (u32 (p + p_len it) <=? u32 (o + l)) then ptr_zero it
             else if o <=? p then ptr_zero_range it 0 (u32 (o + l - p))
             else if u32 (p + p_len it) <=? u32 (o + l) then ptr_zero_range it (u32 (o - p)) (u32 (p_len it - (o - p)))
             else ptr_zero_range it (u32 (o - p)) l
           else mret tt);
      let p := u32 (p + p_len it) in
      if u32 (o + l) <=? p then mret tt else nodes_zero_range o l p bs
  end.
Definition list_zero_range (o l : Z) (b : blist) : M () :=
  _ ← assert_ (u32 (o + l) <=? b_len b); nodes_zero_range o l 0 (b_buffers b).

(** [contents_equal]: the two lists walked side by side; each turn ends a
    buffer of one of them. *)
Fixpoint equal_loop (fuel : nat) (a b : list node) (aoff boff : Z) : M bool :=
  match fuel with
  | O => undefined
  | S fuel =>
      match a with
      | [] => _ ← assert_ (match b with [] => true | _ => false end); mret true
      | (_, p) :: a' =>
          match b with
          | [] => undefined
          | (_, q) :: b' =>
              let len := u32 (p_len p - aoff) in
              let len := if u32 (p_len q - boff) <? len then u32 (p_len q - boff) else len in
              x ← ptr_read p aoff len; y ← ptr_read q boff len;
              if bool_decide (x = y) then
                let aoff := aoff + len in
                let boff := boff + len in
                let '(a, aoff) := if aoff =? p_len p then (a', 0) else (a, aoff) in
                let '(b, boff) := if boff =? p_len q then (b', 0) else (b, boff) in
                equal_loop fuel a b aoff boff
              else mret false
          end
      end
  end.
Definition contents_equal (a b : blist) : M bool :=
  if negb (b_len a =? b_len b) then mret false else
  equal_loop (S (length (b_buffers a) + length (b_buffers b))) (b_buffers a) (b_buffers b) 0 0.

(** ** Rebuilding *)

Definition is_contiguous (b : blist) : bool := match b_buffers b with [_] => true | _ => false end.

Fixpoint rebuild_loop (nb : ptr) (pos : Z) (bs : list node) : M Z :=
  match bs with
  | [] => mret pos
  | (_, p) :: bs =>
      d ← ptr_read p 0 (p_len p); _ ← ptr_copy_in nb pos d; rebuild_loop nb (u32 (pos + p_len p)) bs
  end.
Definition list_rebuild_into (nb : ptr) (b : blist) : M blist :=
  pos ← rebuild_loop nb 0 (b_buffers b);
  let b := add_memcopy pos b in
  if p_len nb =? 0 then mret (set_buffers [] (b_len b) b)
  else n ← new_node; mret (set_buffers [(n, nb)] (b_len b) b).

Definition list_rebuild (b : blist) : M blist :=
  if b_len b =? 0 then mret (set_buffers [] (b_len b) b) else
  nb ← ptr_create (b_len b); list_rebuild_into nb b.

(** [c_str()]: the bytes at the returned pointer, null for an empty list. *)
Definition list_c_str (b : blist) : M (option bytes * blist) :=
  match b_buffers b with
  | [] => mret (None, b)
  | _ :: rest =>
      b ← (match rest with [] => mret b | _ => list_rebuild b end);
      match b_buffers b with
      | (_, p) :: _ => d ← ptr_read p 0 (p_len p); mret (Some d, b)
      | [] => undefined
      end
  end.

(** ** Parts *)

Fixpoint skip_nodes (off : Z) (bs : list node) : option (list node * list node * Z) :=
  match bs with
  | [] => if 0 <? off then None else Some ([], [], off)
  | (n, p) :: bs' =>
      if (0 <? off) && (p_len p <=? off) then
        '(before, rest, off) ← skip_nodes (off - p_len p) bs'; Some ((n, p) :: before, rest, off)
      else Some ([], bs, off)
  end.

Fixpoint substr_loop (bs : list node) (off len : Z) (b : blist) : M blist :=
  if len <=? 0 then mret b else
  match bs with
  | [] => undefined
  | (_, p) :: bs =>
      if u32 (off + len) <? p_len p then
        t ← ptr_sub p off len; n ← new_node;
        mret (set_buffers (b_buffers b ++ [(n, t)]) (u32 (b_len b + len)) b)
      else
        let m := u32 (p_len p - off) in
        t ← ptr_sub p off m; n ← new_node;
        substr_loop bs 0 (len - m) (set_buffers (b_buffers b ++ [(n, t)]) (u32 (b_len b + m)) b)
  end.
Definition list_substr_of (other : blist) (off len : Z) (b : blist) : M blist :=
  if b_len other <? u32 (off + len) then end_of_buffer else
  let b := list_clear b in
  match skip_nodes off (b_buffers other) with
  | None => undefined
  | Some (_, bs, off) =>
      _ ← assert_ ((len =? 0) || match bs with [] => false | _ => true end);
      substr_loop bs off len b
  end.

(** The second half of [splice]: the nodes kept, the length and the claimer. *)
Fixpoint splice_loop (bs : list node) (off len blen : Z) (claim : option blist)
    : M (list node * Z * option blist) :=
  if len <=? 0 then mret (bs, blen, claim) else
  match bs with
  | [] => undefined
  | (n, p) :: bs' =>
      if u32 (off + len) <? p_len p then
        claim ← (match claim with Some c => c ← list_append_range p off len c; mret (Some c) | None => mret None end);
        q ← ptr_set_offset (u32 (off + len + p_off p)) p;
        q ← ptr_set_length (u32 (p_len q - (len + off))) q;
        mret ((n, q) :: bs', u32 (blen - (off + len)), claim)
      else
        let m := u32 (p_len p - off) in
        claim ← (match claim with Some c => c ← list_append_range p off m c; mret (Some c) | None => mret None end);
        splice_loop bs' 0 (len - m) (u32 (blen - p_len p)) claim
  end.
Definition list_splice (off len : Z) (claim_by : option blist) (b : blist) : M (blist * option blist) :=
  if len =? 0 then mret (b, claim_by) else
  if b_len b <=? off then end_of_buffer else
  match skip_nodes off (b_buffers b) with
  | None => abort
  | Some (before, bs, off) =>
      '(before, blen) ←
        (if off =? 0 then mret (before, b_len b)
         else match bs with
              | (_, p) :: _ => t ← ptr_sub p 0 off; n ← new_node; mret (before ++ [(n, t)], u32 (b_len b + off))
              | [] => undefined
              end);
      '(bs, blen, claim) ← splice_loop bs off len blen claim_by;
      let b := set_buffers (before ++ bs) blen b in
      mret (set_last_p (list_begin b) b, claim)
  end.

(** [get_contiguous]: the buffers that hold the extent are taken out, rebuilt
    as one and put back; the bytes at the returned pointer, null for none. *)
Fixpoint gather_nodes (l : Z) (bs : list node) : list node * list node * Z :=
  match bs with
  | [] => ([], [], l)
  | (n, p) :: bs =>
      let l := if p_len p <=? l then l - p_len p else 0 in
      if 0 <? l then let '(ts, rest, l) := gather_nodes l bs in ((n, p) :: ts, rest, l) else ([(n, p)], bs, l)
  end.

Fixpoint append_ptrs (ps : list ptr) (b : blist) : M blist :=
  match ps with [] => mret b | p :: ps => b ← list_append_ptr p b; append_ptrs ps b end.

Definition list_get_contiguous (orig_off len : Z) (b : blist) : M (option bytes * blist) :=
  if b_len b <? u32 (orig_off + len) then end_of_buffer else
  if len =? 0 then mret (None, b) else
  match skip_nodes orig_off (b_buffers b) with
  | None | Some (_, [], _) => undefined
  | Some (before, ((_, p) :: _) as bs, off) =>
      if p_len p <? u32 (off + len) then
        let '(ts, rest, l) := gather_nodes (u32 (off + len)) bs in
        tmp ← append_ptrs ts.*2 list_new;
        _ ← assert_ (l =? 0);
        tmp ← list_rebuild tmp;
        match b_buffers tmp with
        | [] => undefined
        | (_, q) :: _ =>
            n ← new_node; d ← ptr_read q off len;
            mret (Some d, set_buffers (before ++ (n, q) :: rest) (b_len b) b)
        end
      else d ← ptr_read p off len; mret (Some d, b)
  end.
