(* ===== verification/BufferFacts.v ===== *)
(** * Lists of shared buffers behave as strings of bytes

    The contents of a list are the bytes its ranges cover.  The first half says
    what every operation does to the contents of its list; the second runs
    programs over several lists that share memory and shows that they compute
    what the same program computes on plain strings ([buffer_refines]): what one
    list appends in place is never seen through another. *)

From stdpp Require Import gmap.
From S2P Require Import Prelude StdMap Buffer.
#[local] Open Scope Z_scope.
#[local] Open Scope str_scope.

(** ** Runs without an error *)

Definition wp {A} (m : M A) (h : heap) (Q : A → heap → Prop) : Prop :=
  match m h with (Ok a, h') => Q a h' | _ => False end.

Lemma wp_ret {A} (a : A) h (Q : A → heap → Prop) : Q a h → wp (mret a) h Q.
Proof. done. Qed.

Lemma wp_bind {A B} (m : M A) (f : A → M B) h Q :
  wp m h (λ a h', wp (f a) h' Q) → wp (m ≫= f) h Q.
Proof. unfold wp, mbind, M_bind. by destruct (m h) as [[]]. Qed.

Lemma wp_mono {A} (m : M A) h (P Q : A → heap → Prop) :
  wp m h P → (∀ a h', P a h' → Q a h') → wp m h Q.
Proof. unfold wp. destruct (m h) as [[]]; auto. Qed.

(** A bind can be split after the last pure step. *)
Lemma wp_bind_ret {A B C} (m : M A) (f : A → B) (k : B → M C) h Q :
  wp (a ← m; mret (f a)) h (λ b h', wp (k b) h' Q) → wp (a ← m; k (f a)) h Q.
Proof. unfold wp, mbind, M_bind. by destruct (m h) as [[]]. Qed.

Lemma wp_assert b h Q : b = true → Q tt h → wp (assert_ b) h Q.
Proof. by intros ->. Qed.

Lemma wp_ok {A} (m : M A) h Q : wp m h Q ↔ ∃ a h', m h = (Ok a, h') ∧ Q a h'.
Proof.
  unfold wp. split.
  - destruct (m h) as [[a| | |] h']; [eauto|done..].
  - by intros (a & h' & -> & ?).
Qed.

(** ** Slices *)

Section slices.
Implicit Types (d s : bytes) (o l e : Z).

Lemma zlen_zslice o l d : 0 ≤ o → 0 ≤ l → o + l ≤ zlen d → zlen (zslice o l d) = l.
Proof. intros. unfold zslice, zlen in *. rewrite length_take, length_drop. lia. Qed.

Lemma zslice_0 o d : zslice o 0 d = [].
Proof. done. Qed.

Lemma zslice_app o l m d : 0 ≤ o → 0 ≤ l → 0 ≤ m → zslice o l d ++ zslice (o + l) m d = zslice o (l + m) d.
Proof.
  intros. unfold zslice. rewrite (Z2Nat.inj_add o l), (Z2Nat.inj_add l m), <- drop_drop by done.
  by rewrite take_take_drop.
Qed.

Lemma zslice_zslice o l i k d : 0 ≤ o → 0 ≤ i → 0 ≤ k → i + k ≤ l → zslice i k (zslice o l d) = zslice (o + i) k d.
Proof.
  intros. unfold zslice. rewrite skipn_firstn_comm, drop_drop, take_take.
  replace (Z.to_nat (o + i)) with (Z.to_nat o + Z.to_nat i)%nat by lia. f_equal. lia.
Qed.

Lemma zslice_all d : zslice 0 (zlen d) d = d.
Proof. unfold zslice, zlen. rewrite Nat2Z.id. apply firstn_all. Qed.

Lemma zlen_zwrite o s d : 0 ≤ o → o + zlen s ≤ zlen d → zlen (zwrite o s d) = zlen d.
Proof. intros. unfold zwrite, zlen in *. rewrite !length_app, length_take, length_drop. lia. Qed.

Lemma zslice_zwrite o s d : 0 ≤ o → o + zlen s ≤ zlen d → zslice o (zlen s) (zwrite o s d) = s.
Proof.
  intros. unfold zslice, zwrite, zlen in *. rewrite drop_app_length' by (rewrite length_take; lia).
  rewrite Nat2Z.id. apply take_app_length.
Qed.

Lemma zslice_zwrite_before o s d i k :
  0 ≤ o → o + zlen s ≤ zlen d → 0 ≤ i → 0 ≤ k → i + k ≤ o → zslice i k (zwrite o s d) = zslice i k d.
Proof.
  intros. unfold zslice, zwrite, zlen in *. rewrite skipn_app, take_app, length_drop, length_take.
  rewrite skipn_firstn_comm, take_take.
  replace (Z.to_nat k - _)%nat with O by lia. rewrite take_0, app_nil_r. f_equal. lia.
Qed.

Lemma zslice_zwrite_after o s d i k :
  0 ≤ o → o + zlen s ≤ zlen d → o + zlen s ≤ i → 0 ≤ k → zslice i k (zwrite o s d) = zslice i k d.
Proof.
  intros. unfold zslice, zwrite, zlen in *. f_equal.
  rewrite app_assoc, drop_app_ge by (rewrite length_app, length_take; lia).
  rewrite drop_drop, length_app, length_take. f_equal. lia.
Qed.

(** Writing over the whole of a slice's middle. *)
Lemma zslice_zwrite_in o s d i k :
  0 ≤ i → i ≤ o → o + zlen s ≤ i + k → i + k ≤ zlen d →
  zslice i k (zwrite o s d) = zwrite (o - i) s (zslice i k d).
Proof.
  intros. pose proof (zlen_nonneg s).
  replace k with ((o - i) + (zlen s + (i + k - (o + zlen s)))) at 1 by lia.
  rewrite <- zslice_app by lia. replace (i + (o - i)) with o by lia.
  rewrite <- (zslice_app o (zlen s)) by lia.
  rewrite zslice_zwrite_before, zslice_zwrite, zslice_zwrite_after by lia.
  unfold zwrite at 1, zslice at 3 4, zslice. unfold zlen in *.
  rewrite take_take. f_equal; [f_equal; lia|]. f_equal.
  rewrite skipn_firstn_comm, drop_drop. f_equal; [lia|f_equal; lia].
Qed.

End slices.

Lemma u32_fits z : 0 ≤ z < 2 ^ 32 → u32 z = z.
Proof. apply Z.mod_small. Qed.

(** ** What a list holds *)

Definition ptr_bytes (h : heap) (p : ptr) : bytes :=
  match p_raw p with
  | Some r => match h_raws h !! r with Some w => zslice (p_off p) (p_len p) (r_data w) | None => [] end
  | None => []
  end.

Definition nodes_bytes (h : heap) (bs : list node) : bytes := concat (ptr_bytes h <$> bs.*2).
Definition contents (h : heap) (b : blist) : bytes := nodes_bytes h (b_buffers b).

Definition pend (p : ptr) : Z := p_off p + p_len p.

Definition ptr_ok (h : heap) (p : ptr) : Prop :=
  ∃ r w, p_raw p = Some r ∧ h_raws h !! r = Some w ∧ 0 ≤ p_off p ∧ 0 ≤ p_len p ∧ pend p ≤ zlen (r_data w).

Definition LIMIT : Z := 2 ^ 31.

(** Blocks are known by numbers below the next one, and are smaller than 2 GB. *)
Definition heap_ok (h : heap) : Prop :=
  ∀ r w, h_raws h !! r = Some w → r < h_next h ∧ zlen (r_data w) < LIMIT.

Definition node_ok (h : heap) (nd : node) : Prop := nd.1 < h_next h ∧ ptr_ok h nd.2 ∧ 0 < p_len nd.2.

Definition tail_ok (ab q : ptr) : Prop := p_raw ab = p_raw q → pend q ≤ pend ab.

(** An append buffer starts at the start of its block. *)
Definition ab_ok (h : heap) (p : ptr) : Prop := p = ptr_null ∨ ptr_ok h p ∧ p_off p = 0.

Record blist_ok (h : heap) (b : blist) : Prop := {
  bo_nodes : Forall (node_ok h) (b_buffers b);
  bo_nodup : NoDup (b_buffers b).*1;
  bo_len : b_len b = zlen (contents h b);
  bo_limit : b_len b < LIMIT;
  bo_append : ab_ok h (b_append_buffer b)
}.

Lemma nodes_bytes_cons h n p bs : nodes_bytes h ((n, p) :: bs) = ptr_bytes h p ++ nodes_bytes h bs.
Proof. done. Qed.

Lemma nodes_bytes_app h bs cs : nodes_bytes h (bs ++ cs) = nodes_bytes h bs ++ nodes_bytes h cs.
Proof. unfold nodes_bytes. by rewrite !fmap_app, concat_app. Qed.

Lemma nodes_bytes_nil h : nodes_bytes h [] = [].
Proof. done. Qed.

Lemma nodes_bytes_single h n p : nodes_bytes h [(n, p)] = ptr_bytes h p.
Proof. unfold nodes_bytes. cbn. apply app_nil_r. Qed.

Lemma zlen_ptr_bytes h p : ptr_ok h p → zlen (ptr_bytes h p) = p_len p.
Proof. intros (r & w & Hr & Hw & ? & ? & ?). unfold ptr_bytes, pend in *. rewrite Hr, Hw. apply zlen_zslice; lia. Qed.

Lemma zlen_nodes_cons h n p bs :
  node_ok h (n, p) → zlen (nodes_bytes h ((n, p) :: bs)) = p_len p + zlen (nodes_bytes h bs).
Proof. intros (_ & Hp & _). by rewrite nodes_bytes_cons, zlen_app, zlen_ptr_bytes. Qed.

(** Every range of a list is smaller than the list. *)
Lemma node_len_le h bs n p : Forall (node_ok h) bs → (n, p) ∈ bs → 0 < p_len p ≤ zlen (nodes_bytes h bs).
Proof.
  intros Hbs. induction Hbs as [|[m q] bs Hq Hbs IH]; [by intros ?%not_elem_of_nil|].
  rewrite zlen_nodes_cons by done. destruct Hq as (_ & _ & Hq). cbn in Hq.
  pose proof (zlen_nonneg (nodes_bytes h bs)).
  intros [[= -> ->]|Hin]%elem_of_cons; [lia|]. specialize (IH Hin). lia.
Qed.

Lemma ptr_ok_limit h p : heap_ok h → ptr_ok h p → 0 ≤ p_off p ∧ 0 ≤ p_len p ∧ pend p < LIMIT.
Proof. intros Hh (r & w & _ & Hw & ? & ? & ?). destruct (Hh _ _ Hw). lia. Qed.

(** ** How the heap changes

    From [h] to [h'] every block stays, with its contents; the block [r] may
    change from the offset [e] on. *)
Definition grows (t : option (Z * Z)) (h h' : heap) : Prop :=
  h_next h ≤ h_next h' ∧
  ∀ r w, h_raws h !! r = Some w → ∃ w', h_raws h' !! r = Some w' ∧ zlen (r_data w') = zlen (r_data w) ∧
    match t with
    | Some (r0, e) => if decide (r = r0) then ∀ i k, 0 ≤ i → 0 ≤ k → i + k ≤ e → zslice i k (r_data w') = zslice i k (r_data w)
                      else r_data w' = r_data w
    | None => r_data w' = r_data w
    end.

Lemma grows_refl t h : grows t h h.
Proof.
  split; [done|]. intros r w Hr. exists w. split_and!; try done. destruct t as [[r0 e]|]; [|done]. by case_decide.
Qed.

Lemma grows_trans t h1 h2 h3 : grows t h1 h2 → grows t h2 h3 → grows t h1 h3.
Proof.
  intros [Hn1 H1] [Hn2 H2]. split; [lia|]. intros r w Hr.
  destruct (H1 r w Hr) as (w2 & Hr2 & Hl2 & Hd2). destruct (H2 r w2 Hr2) as (w3 & Hr3 & Hl3 & Hd3).
  exists w3. split_and!; [done|congruence|]. destruct t as [[r0 e]|]; [|congruence].
  case_decide; [|congruence]. intros i k ???. by rewrite Hd3, Hd2.
Qed.

Lemma grows_weaken t h h' : grows None h h' → grows t h h'.
Proof.
  intros [Hn H]. split; [done|]. intros r w Hr. destruct (H r w Hr) as (w' & ? & ? & E). exists w'. split_and!; try done.
  destruct t as [[r0 e]|]; [|done]. case_decide; [|done]. by rewrite E.
Qed.

Definition safe (t : option (Z * Z)) (p : ptr) : Prop :=
  match t with Some (r, e) => p_raw p = Some r → pend p ≤ e | None => True end.

Lemma grows_ptr t h h' p :
  grows t h h' → ptr_ok h p → ptr_ok h' p ∧ (safe t p → ptr_bytes h' p = ptr_bytes h p).
Proof.
  intros [_ H] (r & w & Hr & Hw & Ho & Hl & He). destruct (H r w Hw) as (w' & Hw' & Hlen & Hd). split.
  - exists r, w'. split_and!; try done. lia.
  - intros Hs. unfold ptr_bytes. rewrite Hr, Hw, Hw'. destruct t as [[r0 e]|]; [|by rewrite Hd].
    cbn in Hs. unfold pend in *. case_decide as Hd2; [subst|by rewrite Hd]. specialize (Hs Hr). apply Hd; lia.
Qed.

Lemma grows_nodes t h h' bs :
  grows t h h' → Forall (node_ok h) bs → Forall (node_ok h') bs ∧ (Forall (λ nd, safe t nd.2) bs → nodes_bytes h' bs = nodes_bytes h bs).
Proof.
  intros Hg Hbs. induction Hbs as [|[n p] bs (Hn & Hp & Hl) Hbs IH]; [done|].
  cbn [fst snd] in *. destruct (grows_ptr _ _ _ _ Hg Hp) as [Hp' Hb]. destruct IH as [IH1 IH2]. split.
  - constructor; [|done]. split_and!; try done. cbn in *. destruct Hg. lia.
  - intros [Hs Hss]%Forall_cons. rewrite !nodes_bytes_cons, Hb, IH2; done.
Qed.

Lemma safe_None bs : Forall (λ nd : node, safe None nd.2) bs.
Proof. by apply Forall_true. Qed.

Lemma append_ok_grows t h h' p : grows t h h' → ab_ok h p → ab_ok h' p.
Proof. intros Hg [?|[? ?]]; [by left|right]. split; [by eapply grows_ptr|done]. Qed.

(** [grows None]: nothing a list can see changes. *)
Lemma grows_blist h h' b :
  grows None h h' → blist_ok h b → blist_ok h' b ∧ contents h' b = contents h b.
Proof.
  intros Hg [H1 H2 H3 H4 H5]. destruct (grows_nodes _ _ _ _ Hg H1) as [Hn Hb].
  specialize (Hb (safe_None _)). split; [|done].
  split; try done; [unfold contents in *; by rewrite Hb|].
  by eapply append_ok_grows.
Qed.

(** ** Memory operations *)

Lemma in_bounds_true o l d : 0 ≤ o → 0 ≤ l → o + l ≤ zlen d → in_bounds o l d = true.
Proof. intros. unfold in_bounds. rewrite !andb_true_iff, !Z.leb_le. lia. Qed.

Lemma wp_new_node h (Q : Z → heap → Prop) :
  heap_ok h →
  (∀ h', heap_ok h' → grows None h h' → h_next h' = h_next h + 1 → h_raws h' = h_raws h → Q (h_next h) h') →
  wp new_node h Q.
Proof.
  intros Hh HQ. apply HQ; cbn; try done.
  - intros r w Hr. destruct (Hh r w Hr). cbn. lia.
  - split; cbn; [lia|]. intros r w Hr. by exists w.
Qed.

Lemma wp_create h l (Q : Z → heap → Prop) :
  heap_ok h → 0 ≤ l < LIMIT →
  (∀ h' d, heap_ok h' → grows None h h' → h_next h' = h_next h + 1 → zlen d = l →
     h_raws h' !! h_next h = Some (Mk_raw d true) → Q (h_next h) h') →
  wp (create l) h Q.
Proof.
  intros Hh Hl HQ. unfold create, wp, new_raw. cbn.
  set (d := _ <$> _). assert (zlen d = l) as Hd by (unfold d, zlen; rewrite length_fmap, length_seq; lia).
  apply (HQ _ d); cbn; try done.
  - intros r w. cbn. rewrite lookup_insert_Some. intros [[<- <-]|[_ Hr]]; [cbn; lia|]. destruct (Hh r w Hr). lia.
  - split; cbn; [lia|]. intros r w Hr. exists w. split; [|done]. rewrite lookup_insert_ne; [done|].
    destruct (Hh r w Hr). lia.
  - apply lookup_insert_eq.
Qed.

Lemma wp_mem_read h r w o l (Q : bytes → heap → Prop) :
  h_raws h !! r = Some w → 0 ≤ o → 0 ≤ l → o + l ≤ zlen (r_data w) → Q (zslice o l (r_data w)) h → wp (mem_read r o l) h Q.
Proof. intros Hr ??? HQ. unfold wp, mem_read. by rewrite Hr, in_bounds_true. Qed.

Lemma wp_raw_len h r w (Q : Z → heap → Prop) :
  h_raws h !! r = Some w → Q (zlen (r_data w)) h → wp (raw_len r) h Q.
Proof. intros Hr HQ. unfold wp, raw_len. by rewrite Hr. Qed.

Definition heap_write (h : heap) (r o : Z) (s : bytes) (w : raw) : heap :=
  Mk_heap (h_next h) (<[r := Mk_raw (zwrite o s (r_data w)) (r_shareable w)]> (h_raws h)) (h_garbage h).

Lemma wp_mem_write h r w o s (Q : () → heap → Prop) :
  h_raws h !! r = Some w → 0 ≤ o → o + zlen s ≤ zlen (r_data w) → Q tt (heap_write h r o s w) → wp (mem_write r o s) h Q.
Proof. intros Hr ?? HQ. unfold wp, mem_write. rewrite Hr, in_bounds_true; auto with rgw. Qed.

Lemma heap_write_ok h r o s w :
  heap_ok h → h_raws h !! r = Some w → 0 ≤ o → o + zlen s ≤ zlen (r_data w) →
  heap_ok (heap_write h r o s w) ∧ grows (Some (r, o)) h (heap_write h r o s w).
Proof.
  intros Hh Hr Ho Hs. split.
  - intros k v. cbn. rewrite lookup_insert_Some. intros [[<- <-]|[_ Hk]]; [|by apply Hh].
    cbn. rewrite zlen_zwrite by done. by apply Hh.
  - split; [done|]. intros k v Hk. cbn. destruct (decide (k = r)) as [->|Hne].
    + rewrite lookup_insert_eq. simplify_eq. eexists. split; [done|]. cbn. rewrite zlen_zwrite by done. split; [done|].
      intros i m ???. by apply zslice_zwrite_before.
    + rewrite lookup_insert_ne by done. eauto.
Qed.

Ltac wstep := apply wp_bind.

(** The bytes of a range of a range. *)
Lemma ptr_bytes_sub h p r w o l :
  p_raw p = Some r → h_raws h !! r = Some w → 0 ≤ p_off p → 0 ≤ o → 0 ≤ l → o + l ≤ p_len p →
  zslice (p_off p + o) l (r_data w) = zslice o l (ptr_bytes h p).
Proof. intros Hr Hw ????. unfold ptr_bytes. rewrite Hr, Hw. symmetry. apply zslice_zslice; lia. Qed.

Lemma wp_ptr_read h p o l (Q : bytes → heap → Prop) :
  ptr_ok h p → 0 ≤ o → 0 ≤ l → o + l ≤ p_len p → Q (zslice o l (ptr_bytes h p)) h → wp (ptr_read p o l) h Q.
Proof.
  intros (r & w & Hr & Hw & Hoff & Hlen & Hend) ??? HQ. unfold pend in *. unfold ptr_read, raw_of. rewrite Hr. wstep.
  apply wp_ret. apply (wp_mem_read _ _ w); [done|lia..|]. by rewrite (ptr_bytes_sub h p r w).
Qed.

Lemma wp_ptr_copy_out h p o l (Q : bytes → heap → Prop) :
  heap_ok h → ptr_ok h p → 0 ≤ o → 0 ≤ l → o + l ≤ p_len p → Q (zslice o l (ptr_bytes h p)) h → wp (ptr_copy_out p o l) h Q.
Proof.
  intros Hh Hp ??? HQ. pose proof (ptr_ok_limit h p Hh Hp) as (?&?&?). unfold LIMIT, pend in *.
  destruct Hp as (r & w & Hr & Hw & Hoff & Hlen & Hend). unfold pend in *.
  unfold ptr_copy_out, raw_of. rewrite Hr. wstep. apply wp_ret.
  rewrite u32_fits by lia. rewrite (proj2 (Z.ltb_ge _ _)) by lia.
  apply (wp_mem_read _ _ w); [done|lia..|]. by rewrite (ptr_bytes_sub h p r w).
Qed.

Definition sub_ptr (p : ptr) (o l : Z) : ptr := Mk_ptr (p_raw p) (p_off p + o) l.

Lemma sub_ptr_ok h p o l :
  ptr_ok h p → 0 ≤ o → 0 ≤ l → o + l ≤ p_len p →
  ptr_ok h (sub_ptr p o l) ∧ ptr_bytes h (sub_ptr p o l) = zslice o l (ptr_bytes h p).
Proof.
  intros (r & w & Hr & Hw & Hoff & Hlen & Hend) ???. unfold pend in *. split.
  - exists r, w. unfold pend. cbn. split_and!; try done; lia.
  - unfold ptr_bytes at 1. cbn. rewrite Hr, Hw. by rewrite (ptr_bytes_sub h p r w).
Qed.

Lemma wp_ptr_sub h p o l (Q : ptr → heap → Prop) :
  heap_ok h → ptr_ok h p → 0 ≤ o → 0 ≤ l → o + l ≤ p_len p → Q (sub_ptr p o l) h → wp (ptr_sub p o l) h Q.
Proof.
  intros Hh Hp ??? HQ. pose proof (ptr_ok_limit h p Hh Hp) as (?&?&?). unfold LIMIT, pend in *.
  unfold ptr_sub. wstep. apply wp_assert; [rewrite u32_fits by lia; by apply Z.leb_le|].
  destruct Hp as (r & w & Hr & _). unfold raw_of. rewrite Hr. wstep. apply wp_ret, wp_ret.
  rewrite u32_fits by lia. unfold sub_ptr in HQ. by rewrite Hr in HQ.
Qed.

(** ** One list changes

    The new list is well-formed, its ranges are fresh or lie below ranges that
    satisfy [src], its nodes are old or fresh, and nothing else is seen to
    change. *)
Definition fresh_ptr (h : heap) (q : ptr) : Prop := ∃ r, p_raw q = Some r ∧ h_next h ≤ r.
Definition below (src : ptr → Prop) (q : ptr) : Prop := ∃ q0, src q0 ∧ p_raw q = p_raw q0 ∧ pend q ≤ pend q0.

Record list_step (src : ptr → Prop) (h : heap) (b : blist) (h' : heap) (b' : blist) : Prop := {
  ls_heap : heap_ok h';
  ls_grows : grows None h h';
  ls_ok : blist_ok h' b';
  ls_cover : ∀ n q, (n, q) ∈ b_buffers b' → fresh_ptr h q ∨ below src q;
  ls_nodes : ∀ n, n ∈ (b_buffers b').*1 → n ∈ (b_buffers b).*1 ∨ h_next h ≤ n;
  ls_append : b_append_buffer b' = b_append_buffer b
}.

Definition ptrs_of (b : blist) (q : ptr) : Prop := ∃ n, (n, q) ∈ b_buffers b.

Lemma ptrs_of_intro b n q : (n, q) ∈ b_buffers b → ptrs_of b q.
Proof. by exists n. Qed.

Lemma below_refl (src : ptr → Prop) q : src q → below src q.
Proof. by exists q. Qed.

Lemma below_mono (src src' : ptr → Prop) q : (∀ p, src p → src' p) → below src q → below src' q.
Proof. intros H (q0 & ? & ? & ?). exists q0. auto. Qed.

Lemma fresh_mono h h' q : h_next h ≤ h_next h' → fresh_ptr h' q → fresh_ptr h q.
Proof. intros ? (r & ? & ?). exists r. split; [done|lia]. Qed.

Lemma below_trans (src src' : ptr → Prop) h q :
  (∀ p, src p → fresh_ptr h p ∨ below src' p) → below src q → fresh_ptr h q ∨ below src' q.
Proof.
  intros H (q0 & Hq0 & Hr & He). destruct (H q0 Hq0) as [(r & Hf & ?)|(q1 & ? & ? & ?)].
  - left. exists r. split; [congruence|done].
  - right. exists q1. split_and!; [done|congruence|lia].
Qed.

Lemma node_new h b n : blist_ok h b → h_next h ≤ n → n ∉ (b_buffers b).*1.
Proof.
  intros Hb Hn Hin. apply list_elem_of_fmap in Hin as ([m q] & -> & Hin).
  pose proof (bo_nodes _ _ Hb) as HF. eapply Forall_forall in HF; [|done]. destruct HF as (? & _). cbn in *. lia.
Qed.

Lemma b_len_nonneg h b : blist_ok h b → 0 ≤ b_len b.
Proof. intros Hb. rewrite (bo_len _ _ Hb). apply zlen_nonneg. Qed.

(** A list with other buffers; its length is what they hold. *)
Lemma blist_ok_intro h b bs :
  Forall (node_ok h) bs → NoDup bs.*1 → zlen (nodes_bytes h bs) < LIMIT →
  ab_ok h (b_append_buffer b) → ∀ len, len = zlen (nodes_bytes h bs) → blist_ok h (set_buffers bs len b).
Proof. intros. by split; subst. Qed.

Lemma ptr_bytes_empty h p : p_len p = 0 → ptr_bytes h p = [].
Proof. intros Hz. unfold ptr_bytes. repeat case_match; try done. by rewrite Hz. Qed.

Lemma wp_push_back h b p :
  heap_ok h → blist_ok h b → ptr_ok h p → b_len b + p_len p < LIMIT →
  wp (list_push_back p b) h (λ b' h',
    list_step (λ q, ptrs_of b q ∨ q = p) h b h' b' ∧ contents h' b' = contents h b ++ ptr_bytes h p ∧
    b_last_p b' = b_last_p b ∧ ∃ bs, b_buffers b' = b_buffers b ++ bs ∧ ∀ n q, (n, q) ∈ bs → q = p).
Proof.
  intros Hh Hb Hp Hlen. unfold list_push_back. pose proof (ptr_ok_limit _ _ Hh Hp) as (?&?&?).
  pose proof (b_len_nonneg _ _ Hb). unfold LIMIT in *.
  destruct (Z.eqb_spec (p_len p) 0) as [Hz|Hz].
  - apply wp_ret. split_and!; [|by rewrite (ptr_bytes_empty h p), app_nil_r|done|exists []; rewrite app_nil_r; split; [done|by intros n q ?%not_elem_of_nil]].
    split; try done; [apply grows_refl| |by left]. intros n q Hq. right. apply below_refl. left. by exists n.
  - wstep. apply wp_new_node; [done|]. intros h' Hh' Hg Hn _. apply wp_ret.
    destruct (grows_blist _ _ _ Hg Hb) as [Hb' Hc]. destruct (grows_ptr _ _ _ _ Hg Hp) as [Hp' Hpb].
    specialize (Hpb I).
    assert (node_ok h' (h_next h, p)) as Hnode by (split_and!; cbn; [lia|done|lia]).
    assert (nodes_bytes h' (b_buffers b ++ [(h_next h, p)]) = contents h b ++ ptr_bytes h p) as Hbytes.
    { rewrite nodes_bytes_app, nodes_bytes_single, Hpb. by rewrite <- Hc. }
    assert (zlen (contents h b ++ ptr_bytes h p) = b_len b + p_len p) as Hzlen.
    { by rewrite zlen_app, zlen_ptr_bytes, (bo_len _ _ Hb). }
    split_and!; [|done|done|eexists; split; [done|by intros n q [= -> ->]%list_elem_of_singleton]]. split; try done.
    + apply blist_ok_intro.
      * apply Forall_app. split; [apply Hb'|]. by apply Forall_singleton.
      * rewrite fmap_app. apply NoDup_app. split_and!; [apply Hb'| |apply NoDup_singleton].
        intros n Hin ->%list_elem_of_singleton. by apply (node_new _ _ _ Hb (Z.le_refl _)).
      * rewrite Hbytes, Hzlen. unfold LIMIT. lia.
      * eapply append_ok_grows; [done|apply Hb].
      * rewrite Hbytes, Hzlen. apply u32_fits. lia.
    + intros n q. cbn. rewrite elem_of_app, list_elem_of_singleton. intros Hq. right. apply below_refl.
      destruct Hq as [Hq|[= -> ->]]; [left; by exists n|by right].
    + intros n. cbn. rewrite fmap_app, elem_of_app. intros [?|Hq]; [by left|right].
      apply list_elem_of_singleton in Hq. cbn in Hq. lia.
Qed.

(** Buffers are added at the end, where the last one may have grown. *)
Inductive extends : list node → list node → Prop :=
| extends_nil cs : extends [] cs
| extends_last n l l' cs : p_len l ≤ p_len l' → extends [(n, l)] ((n, l') :: cs)
| extends_cons nd bs bs' : extends bs bs' → extends (nd :: bs) (nd :: bs').

Lemma extends_app bs cs : extends bs (bs ++ cs).
Proof. induction bs; cbn; by constructor. Qed.

Lemma extends_refl bs : extends bs bs.
Proof. induction bs; by constructor. Qed.

Lemma extends_trans bs cs ds : extends bs cs → extends cs ds → extends bs ds.
Proof.
  intros H. revert ds. induction H as [cs|n l l' cs Hl|nd bs cs H IH]; intros ds Hd; [constructor| |].
  - inversion Hd; subst; constructor; lia.
  - inversion Hd; subst; [|by constructor; apply IH].
    inversion H; subst. by constructor.
Qed.

Lemma extends_snoc bs n l l' : p_len l ≤ p_len l' → extends (bs ++ [(n, l)]) (bs ++ [(n, l')]).
Proof. intros Hl. induction bs; cbn; by constructor. Qed.

Lemma wp_set_length h p l (Q : ptr → heap → Prop) :
  ptr_ok h p → (∀ w r, p_raw p = Some r → h_raws h !! r = Some w → l ≤ zlen (r_data w)) →
  Q (Mk_ptr (p_raw p) (p_off p) l) h → wp (ptr_set_length l p) h Q.
Proof.
  intros (r & w & Hr & Hw & _) Hl HQ. unfold ptr_set_length, raw_of. rewrite Hr in *. wstep. apply wp_ret. wstep.
  apply (wp_raw_len _ _ w); [done|]. wstep. apply wp_assert; [apply Z.leb_le; eauto|]. by apply wp_ret.
Qed.

(** Two neighbouring ranges are one. *)
Lemma ptr_merge h l p off len :
  ptr_ok h l → ptr_ok h p → p_raw l = p_raw p → pend l = p_off p + off → 0 ≤ off → 0 ≤ len → off + len ≤ p_len p →
  let l' := Mk_ptr (p_raw l) (p_off l) (p_len l + len) in
  ptr_ok h l' ∧ ptr_bytes h l' = ptr_bytes h l ++ zslice off len (ptr_bytes h p) ∧ pend l' = pend (sub_ptr p off len).
Proof.
  intros (r & w & Hr & Hw & Ho & Hl & He) Hp Hraw Hend ??? l'.
  destruct (sub_ptr_ok h p off len Hp) as [(r' & w' & Hr' & Hw' & _ & _ & He') Hsb]; [done..|].
  cbn in Hr'. assert (r' = r) as -> by congruence. simplify_eq. unfold pend in *. cbn in *. split_and!.
  - exists r, w. unfold pend. cbn. split_and!; try done; lia.
  - rewrite <- Hsb. unfold ptr_bytes. cbn. rewrite <- Hraw, Hr, Hw, <- zslice_app by lia. by rewrite Hend.
  - lia.
Qed.

Lemma wp_append_range h b bp off len :
  heap_ok h → blist_ok h b → ptr_ok h bp → 0 ≤ off → 0 ≤ len → off + len ≤ p_len bp → b_len b + len < LIMIT →
  wp (list_append_range bp off len b) h (λ b' h',
    list_step (λ q, ptrs_of b q ∨ q = sub_ptr bp off len) h b h' b' ∧
    contents h' b' = contents h b ++ zslice off len (ptr_bytes h bp) ∧
    b_last_p b' = b_last_p b ∧ extends (b_buffers b) (b_buffers b')).
Proof.
  intros Hh Hb Hp Ho Hl Hle Hlen. pose proof (ptr_ok_limit _ _ Hh Hp) as (?&?&?). unfold pend in *.
  pose proof (b_len_nonneg _ _ Hb) as Hnn.
  assert (∀ b', b' = b → wp (t ← ptr_sub bp off len; list_push_back t b') h (λ b' h',
    list_step (λ q, ptrs_of b q ∨ q = sub_ptr bp off len) h b h' b' ∧
    contents h' b' = contents h b ++ zslice off len (ptr_bytes h bp) ∧
    b_last_p b' = b_last_p b ∧ extends (b_buffers b) (b_buffers b'))) as Hpush.
  { intros ? ->. destruct (sub_ptr_ok h bp off len Hp) as [Hs <-]; [done..|].
    wstep. apply wp_ptr_sub; [done..|]. eapply wp_mono; [by apply wp_push_back|].
    intros b' h' (Hst & Hc & Hlp & bs & Hbs & _). split_and!; try done. rewrite Hbs. apply extends_app. }
  unfold list_append_range. wstep. unfold LIMIT in *.
  apply wp_assert; [apply Z.leb_le; rewrite u32_fits by lia; lia|].
  destruct (last (b_buffers b)) as [[n l]|] eqn:Hlast; [|by apply Hpush].
  destruct (_ && _) eqn:Hcond; [|by apply Hpush]. clear Hpush.
  apply last_Some in Hlast as [init Hinit].
  apply andb_true_iff in Hcond as [Hraw%bool_decide_eq_true Hend%Z.eqb_eq].
  pose proof (bo_nodes _ _ Hb) as HF. rewrite Hinit in HF. apply Forall_app in HF as [HF1 [Hl1 _]%Forall_cons].
  destruct Hl1 as (Hn & Hlok & Hlpos). cbn in Hn, Hlok, Hlpos.
  pose proof (ptr_ok_limit _ _ Hh Hlok) as (?&?&?). unfold ptr_end, ptr_start, pend, LIMIT in *.
  rewrite !u32_fits in Hend by lia.
  destruct (ptr_merge h l bp off len) as (Hmok & Hmb & Hme); [done..|]. cbn zeta in *.
  assert (zlen (contents h b ++ zslice off len (ptr_bytes h bp)) = b_len b + len) as Hz.
  { rewrite zlen_app, <- (bo_len _ _ Hb), zlen_zslice; [done..|]. rewrite zlen_ptr_bytes by done. lia. }
  assert (p_len l ≤ b_len b) as Hlb.
  { rewrite (bo_len _ _ Hb). eapply (node_len_le h _ n); [apply Hb|]. rewrite Hinit. apply elem_of_app. right. left. }
  wstep. apply wp_set_length; [done| |].
  { intros w r Hr Hw. rewrite u32_fits by lia. destruct Hmok as (r' & w' & Hr' & Hw' & _ & _ & He'). cbn in *.
    simplify_eq. unfold pend in He'. cbn in He'. lia. }
  apply wp_ret. rewrite (u32_fits (p_len l + len)) by lia. rewrite Hinit, removelast_last. cbn [b_last_p set_buffers b_buffers].
  set (l' := Mk_ptr _ _ _) in *.
  assert (nodes_bytes h (init ++ [(n, l')]) = contents h b ++ zslice off len (ptr_bytes h bp)) as Hbytes.
  { unfold contents. rewrite Hinit, !nodes_bytes_app, !nodes_bytes_single, Hmb. by rewrite app_assoc. }
  split_and!; [|done|done|apply extends_snoc; cbn; lia]. split; try done.
  - apply grows_refl.
  - apply blist_ok_intro.
    + apply Forall_app. split; [done|]. apply Forall_singleton. split_and!; cbn; [done|done|lia].
    + pose proof (bo_nodup _ _ Hb) as Hnd. rewrite Hinit in Hnd. by rewrite fmap_app in *.
    + rewrite Hbytes, Hz. unfold LIMIT. lia.
    + apply Hb.
    + rewrite Hbytes, Hz. apply u32_fits. lia.
  - intros m q. cbn. rewrite elem_of_app, list_elem_of_singleton. intros [Hq|[= -> ->]]; right.
    + apply below_refl. left. exists m. rewrite Hinit. apply elem_of_app. by left.
    + exists (sub_ptr bp off len). split_and!; [by right|done|]. unfold pend in *. lia.
  - intros m. cbn. rewrite Hinit, !fmap_app. by left.
Qed.

(** ** Appending in place

    What an append may change in memory: the append buffer's block, from the end
    of what is used of it. *)
Definition free_tail (b : blist) : option (Z * Z) := (λ r, (r, pend (b_append_buffer b))) <$> p_raw (b_append_buffer b).

(** No range of the list itself reaches into the unused part. *)
Definition own_ok (b : blist) : Prop := ∀ q, ptrs_of b q → tail_ok (b_append_buffer b) q.

Record append_step (d : bytes) (h : heap) (b : blist) (h' : heap) (b' : blist) : Prop := {
  as_heap : heap_ok h';
  as_grows : grows (free_tail b) h h';
  as_ok : blist_ok h' b';
  as_own : own_ok b';
  as_cover : ∀ q, ptrs_of b' q → fresh_ptr h q ∨ below (ptrs_of b) q ∨ p_raw q = p_raw (b_append_buffer b);
  as_nodes : ∀ n, n ∈ (b_buffers b').*1 → n ∈ (b_buffers b).*1 ∨ h_next h ≤ n;
  as_append : p_raw (b_append_buffer b') = p_raw (b_append_buffer b) ∧ pend (b_append_buffer b) ≤ pend (b_append_buffer b')
              ∨ fresh_ptr h (b_append_buffer b');
  as_contents : contents h' b' = contents h b ++ d;
  as_last_p : b_last_p b' = b_last_p b;
  as_extends : extends (b_buffers b) (b_buffers b')
}.

Lemma append_step_refl h b : heap_ok h → blist_ok h b → own_ok b → append_step [] h b h b.
Proof.
  intros Hh Hb Ho. split; try done.
  - apply grows_refl.
  - intros q Hq. right. left. by apply below_refl.
  - by left.
  - by left.
  - by rewrite app_nil_r.
  - apply extends_refl.
Qed.

Lemma grows_tail_trans h b h1 b1 h2 :
  heap_ok h → grows (free_tail b) h h1 → grows (free_tail b1) h1 h2 →
  (p_raw (b_append_buffer b1) = p_raw (b_append_buffer b) ∧ pend (b_append_buffer b) ≤ pend (b_append_buffer b1)
   ∨ fresh_ptr h (b_append_buffer b1)) →
  grows (free_tail b) h h2.
Proof.
  intros Hh [Hn1 Hg1] [Hn2 Hg2] Hab. split; [lia|]. intros r w Hr.
  destruct (Hg1 r w Hr) as (w1 & Hr1 & Hl1 & Hd1). destruct (Hg2 r w1 Hr1) as (w2 & Hr2 & Hl2 & Hd2).
  exists w2. split_and!; [done|congruence|]. destruct (Hh r w Hr) as [Hlt _]. unfold free_tail in *.
  destruct Hab as [[Heq Hle]|(r1 & Hf & Hge)].
  - rewrite Heq in Hd2. destruct (p_raw (b_append_buffer b)) as [r0|]; cbn in *; [|congruence].
    case_decide; [|congruence]. intros i k ???. rewrite Hd2, Hd1 by lia. done.
  - rewrite Hf in Hd2. cbn in Hd2. rewrite decide_False in Hd2 by lia. by rewrite Hd2.
Qed.

Lemma append_step_trans d1 d2 h b h1 b1 h2 b2 :
  heap_ok h → append_step d1 h b h1 b1 → append_step d2 h1 b1 h2 b2 → append_step (d1 ++ d2) h b h2 b2.
Proof.
  intros Hh [A1 A2 A3 A4 A5 A6 A7 A8 A9 A10] [B1 B2 B3 B4 B5 B6 B7 B8 B9 B10].
  assert (h_next h ≤ h_next h1) as Hn by apply A2.
  split; try done.
  - by eapply grows_tail_trans.
  - intros q Hq. destruct (B5 q Hq) as [Hf|[(q1 & Hq1 & Hr & He)|Hr]].
    + left. by eapply fresh_mono.
    + destruct (A5 q1 Hq1) as [(r & Hf & ?)|[(q0 & ? & ? & ?)|?]].
      * left. exists r. split; [congruence|done].
      * right. left. exists q0. split_and!; [done|congruence|lia].
      * right. right. congruence.
    + destruct A7 as [[? _]|(r & Hf & ?)]; [right; right; congruence|left; exists r; split; [congruence|done]].
  - intros n Hn2. destruct (B6 n Hn2) as [?|?]; [by apply A6|right; lia].
  - destruct B7 as [[Hr He]|Hf]; [|right; by eapply fresh_mono].
    destruct A7 as [[? ?]|(r & Hf & ?)]; [left; split; [congruence|lia]|right; exists r; split; [congruence|done]].
  - by rewrite B8, A8, app_assoc.
  - congruence.
  - by eapply extends_trans.
Qed.

(** A new append buffer. *)
Lemma wp_new_append_buffer h b alen :
  heap_ok h → blist_ok h b → 0 ≤ alen < LIMIT →
  wp (list_new_append_buffer alen b) h (λ b' h',
    append_step [] h b h' b' ∧
    ∃ r w, b_append_buffer b' = Mk_ptr (Some r) 0 0 ∧ h_raws h' !! r = Some w ∧ zlen (r_data w) = alen).
Proof.
  intros Hh Hb Hal. unfold list_new_append_buffer, ptr_create. wstep. wstep. apply wp_create; [done..|].
  intros h' d Hh' Hg Hn Hd Hr. apply wp_ret.
  assert (ptr_ok h' (Mk_ptr (Some (h_next h)) 0 alen)) as Hp.
  { exists (h_next h), (Mk_raw d true). unfold pend. cbn. split_and!; try done; lia. }
  wstep. apply wp_set_length; [done| |].
  { intros w r Hpr Hw. pose proof (zlen_nonneg (r_data w)). lia. }
  apply wp_ret. cbn [p_raw p_off]. split; [|exists (h_next h), (Mk_raw d true); done].
  destruct (grows_blist _ _ _ Hg Hb) as [Hb' Hc].
  assert (fresh_ptr h (Mk_ptr (Some (h_next h)) 0 0)) as Hfresh by (exists (h_next h); split; [done|lia]).
  split; try done.
  - by apply grows_weaken.
  - destruct Hb' as [H1 H2 H3 H4 H5]. split; try done. right. split; [|done].
    exists (h_next h), (Mk_raw d true). unfold pend. cbn. pose proof (zlen_nonneg d). split_and!; try done; lia.
  - intros q [n Hq] Hraw. exfalso. pose proof (bo_nodes _ _ Hb) as HF. eapply Forall_forall in HF; [|exact Hq].
    destruct HF as (_ & (r & w & Hqr & Hqw & _) & _). cbn in Hraw, Hqr. rewrite Hqr in Hraw. injection Hraw as <-.
    destruct (Hh _ _ Hqw). lia.
  - intros q Hq. right. left. by apply below_refl.
  - by left.
  - by right.
  - rewrite app_nil_r. apply Hc.
  - apply extends_refl.
Qed.

Lemma wp_unused_tail h p r w (Q : Z → heap → Prop) :
  heap_ok h → ptr_ok h p → p_raw p = Some r → h_raws h !! r = Some w →
  Q (zlen (r_data w) - pend p) h → wp (unused_tail_length p) h Q.
Proof.
  intros Hh (r' & w' & Hr' & Hw' & ? & ? & ?) Hr Hw HQ. assert (r' = r) as -> by congruence. assert (w' = w) as -> by congruence. destruct (Hh _ _ Hw) as [_ Hlim].
  unfold unused_tail_length, pend, LIMIT in *. rewrite Hr. wstep. apply (wp_raw_len _ _ w); [done|]. apply wp_ret.
  by rewrite u32_fits by lia.
Qed.

(** The append buffer after [d] was written behind what is used of it. *)
Definition grown (p : ptr) (d : bytes) : ptr := Mk_ptr (p_raw p) (p_off p) (p_len p + zlen d).

Lemma wp_ptr_append h p r w d (Q : ptr * Z → heap → Prop) :
  heap_ok h → ptr_ok h p → p_raw p = Some r → h_raws h !! r = Some w → pend p + zlen d ≤ zlen (r_data w) →
  Q (grown p d, pend (grown p d)) (heap_write h r (pend p) d w) → wp (ptr_append p d) h Q.
Proof.
  intros Hh Hp Hr Hw Hfit HQ. pose proof (ptr_ok_limit _ _ Hh Hp) as (?&?&?). destruct (Hh _ _ Hw) as [_ Hlim].
  pose proof (zlen_nonneg d). unfold ptr_append, raw_of. rewrite Hr. wstep. apply wp_ret. wstep.
  apply (wp_unused_tail _ _ r w); [done..|]. wstep. apply wp_assert; [apply Z.leb_le; lia|]. wstep.
  apply (wp_mem_write _ _ w); [done|unfold pend; lia|unfold pend in *; lia|]. apply wp_ret.
  unfold ptr_end, grown, pend, LIMIT in *. cbn. rewrite !u32_fits, <- Hr by lia. exact HQ.
Qed.

Lemma grown_ok h p r w d :
  heap_ok h → ptr_ok h p → p_raw p = Some r → h_raws h !! r = Some w → pend p + zlen d ≤ zlen (r_data w) →
  ptr_ok (heap_write h r (pend p) d w) (grown p d) ∧
  zslice (p_len p) (zlen d) (ptr_bytes (heap_write h r (pend p) d w) (grown p d)) = d.
Proof.
  intros Hh (r' & w' & Hr' & Hw' & ? & ? & ?) Hr Hw Hfit. assert (r' = r) as -> by congruence. assert (w' = w) as -> by congruence. pose proof (zlen_nonneg d). unfold pend in *. split.
  - exists r. eexists. unfold pend. cbn. rewrite lookup_insert_eq. split_and!; [done..|lia|lia|].
    cbn. rewrite zlen_zwrite by lia. lia.
  - unfold ptr_bytes. cbn. rewrite Hr, lookup_insert_eq. cbn. rewrite zslice_zslice by lia.
    apply zslice_zwrite; lia.
Qed.

(** The list after that write: nothing it holds has changed. *)
Lemma grown_list h b r w d :
  let p := b_append_buffer b in
  let h1 := heap_write h r (pend p) d w in
  heap_ok h → blist_ok h b → own_ok b → ptr_ok h p → p_off p = 0 → p_raw p = Some r → h_raws h !! r = Some w →
  pend p + zlen d ≤ zlen (r_data w) →
  blist_ok h1 (set_append_buffer (grown p d) b) ∧ contents h1 b = contents h b ∧ heap_ok h1 ∧ grows (free_tail b) h h1.
Proof.
  intros p h1 Hh Hb Hown Hp Hoff Hr Hw Hfit.
  assert (0 ≤ pend p) by (destruct Hp as (? & ? & ? & ? & ? & ? & _); unfold pend; lia).
  destruct (heap_write_ok h r (pend p) d w) as [Hh1 Hg1]; [done|done|lia|done|].
  assert (Forall (λ nd : node, safe (Some (r, pend p)) nd.2) (b_buffers b)) as Hsafe.
  { apply Forall_forall. intros [n q] Hq Hraw. cbn in *. apply Hown; [by exists n|]. rewrite Hraw. exact Hr. }
  destruct (grows_nodes _ _ _ _ Hg1 (bo_nodes _ _ Hb)) as [Hn Hbytes]. specialize (Hbytes Hsafe).
  split_and!; [|done|done|unfold free_tail; fold p; by rewrite Hr].
  destruct Hb as [H1 H2 H3 H4 H5]. split; try done.
  - cbn [set_append_buffer b_len]. rewrite H3. f_equal. symmetry. exact Hbytes.
  - right. split; [|done]. by apply grown_ok.
Qed.

Lemma wp_append_chunk h b r w d :
  let p := b_append_buffer b in
  heap_ok h → blist_ok h b → own_ok b → ptr_ok h p → p_off p = 0 → p_raw p = Some r → h_raws h !! r = Some w →
  pend p + zlen d ≤ zlen (r_data w) → b_len b + zlen d < LIMIT →
  wp (list_append_range (grown p d) (pend (grown p d) - zlen d) (zlen d) (set_append_buffer (grown p d) b))
     (heap_write h r (pend p) d w) (λ b' h', append_step d h b h' b' ∧ b_append_buffer b' = grown p d).
Proof.
  intros p Hh Hb Hown Hp Hoff Hr Hw Hfit Hlen. pose proof (zlen_nonneg d).
  destruct (grown_list h b r w d) as (Hb1 & Hc1 & Hh1 & Hg1); [done..|].
  destruct (grown_ok h p r w d) as [Hgok Hgb]; [done..|].
  assert (pend (grown p d) = p_len p + zlen d) as Hpe by (unfold pend, grown; cbn; lia).
  assert (pend p = p_len p) as Hpp by (unfold pend; lia).
  assert (0 ≤ p_len p) by (destruct Hp as (? & ? & ? & ? & ? & ? & _); done).
  rewrite Hpe. replace (p_len p + zlen d - zlen d) with (p_len p) by lia.
  eapply wp_mono; [apply wp_append_range; [done|exact Hb1|exact Hgok|lia|lia|cbn; lia|done]|].
  cbn beta. intros b' h' (Hst & Hc & Hlp & Hext). rewrite Hgb in Hc.
  assert (h_next (heap_write h r (pend p) d w) = h_next h) as Hnext by done.
  assert (∀ q, ptrs_of b' q → fresh_ptr h q ∨ below (ptrs_of b) q ∨ p_raw q = p_raw p ∧ pend q ≤ pend (grown p d)) as Hcov.
  { intros q [n Hq]. destruct (ls_cover _ _ _ _ _ Hst n q Hq) as [Hf|(q0 & [Hq0| ->] & Hqr & Hqe)].
    - by left.
    - right. left. by exists q0.
    - right. right. split; [done|]. unfold pend, sub_ptr in *. cbn in *. lia. }
  split; [|apply Hst]. split; try (apply Hst).
  - eapply grows_trans; [exact Hg1|]. apply grows_weaken, Hst.
  - intros q Hq Hraw. rewrite (ls_append _ _ _ _ _ Hst) in *. cbn in Hraw |- *.
    destruct (Hcov q Hq) as [(r1 & Hf & Hge)|[(q0 & Hq0 & Hqr & Hqe)|[_ ?]]]; [| |done].
    + destruct (Hh r w Hw). rewrite Hf in Hraw. fold p in Hraw. rewrite Hr in Hraw. injection Hraw as ->. lia.
    + pose proof (Hown q0 Hq0) as Ht. unfold tail_ok in Ht. rewrite <- Hqr in Ht. specialize (Ht Hraw). fold p in Ht. fold p. lia.
  - intros q Hq. destruct (Hcov q Hq) as [?|[?|[? _]]]; auto.
  - rewrite (ls_append _ _ _ _ _ Hst). left. cbn. split; [done|]. fold p. lia.
  - rewrite Hc. f_equal. exact Hc1.
  - done.
  - done.
Qed.

(** One turn of the loop with room for [n] bytes in the append buffer. *)
Lemma wp_append_turn h b r w d n :
  let p := b_append_buffer b in
  heap_ok h → blist_ok h b → own_ok b → ptr_ok h p → p_off p = 0 → p_raw p = Some r → h_raws h !! r = Some w →
  0 < n ≤ zlen d → pend p + n ≤ zlen (r_data w) → b_len b + zlen d < LIMIT →
  wp ('(p, _) ← ptr_append p (take (Z.to_nat n) d);
      let b := set_append_buffer p b in
      b ← list_append_range p (u32 (ptr_end p - n)) n b;
      mret (drop (Z.to_nat n) d, b)) h
     (λ '(d', b') h', d' = drop (Z.to_nat n) d ∧ append_step (take (Z.to_nat n) d) h b h' b').
Proof.
  intros p Hh Hb Hown Hp Hoff Hr Hw Hn Hfit Hlen.
  assert (zlen (take (Z.to_nat n) d) = n) as Hz by (unfold zlen in *; rewrite length_take; lia).
  destruct (Hh _ _ Hw) as [_ Hlim]. unfold LIMIT in *.
  wstep. apply (wp_ptr_append _ _ r w); [done..|lia|].
  assert (pend (grown p (take (Z.to_nat n) d)) = pend p + n) as Hpe by (unfold pend, grown; cbn; rewrite Hz; lia).
  assert (0 ≤ pend p) by (destruct Hp as (? & ? & ? & ? & ? & ? & _); unfold pend; lia).
  assert (u32 (ptr_end (grown p (take (Z.to_nat n) d)) - n) = pend (grown p (take (Z.to_nat n) d)) - n) as Hu.
  { unfold ptr_end. fold (pend (grown p (take (Z.to_nat n) d))). rewrite Hpe.
    rewrite (u32_fits (pend p + n)) by lia. apply u32_fits. lia. }
  cbv beta iota zeta. wstep. rewrite Hu.
  pose proof (wp_append_chunk h b r w (take (Z.to_nat n) d) Hh Hb Hown Hp Hoff Hr Hw) as Hchunk.
  cbv zeta in Hchunk. rewrite Hz in Hchunk. fold p in Hchunk.
  eapply wp_mono; [apply Hchunk; unfold LIMIT; lia|]. intros b' h' [Hst _]. by apply wp_ret.
Qed.

(** The last turn: the append buffer is new and has room for everything. *)
Lemma wp_append_last h b r w d fuel :
  heap_ok h → blist_ok h b → own_ok b → b_append_buffer b = Mk_ptr (Some r) 0 0 →
  h_raws h !! r = Some w → 0 < zlen d ≤ zlen (r_data w) → b_len b + zlen d < LIMIT →
  wp (append_loop (S fuel) d b) h (λ b' h', append_step d h b h' b').
Proof.
  intros Hh Hb Hown Hab Hw Hd Hlen. cbn [append_loop]. rewrite (proj2 (Z.leb_gt _ _)) by lia.
  assert (ptr_ok h (b_append_buffer b)) as Hp.
  { rewrite Hab. exists r, w. unfold pend. cbn. split_and!; try done; lia. }
  wstep. apply (wp_unused_tail _ _ r w); [done|done|by rewrite Hab|done|].
  rewrite Hab. unfold pend. cbn [p_off p_len]. rewrite (proj2 (Z.ltb_lt 0 _)) by lia.
  set (g := if zlen d <? _ then _ else _).
  assert (g = zlen d) as -> by (unfold g; destruct (Z.ltb_spec (zlen d) (zlen (r_data w) - (0 + 0))); lia).
  wstep. rewrite <- Hab. eapply wp_mono.
  { apply (wp_append_turn h b r w); try done; [by rewrite Hab..|lia|rewrite Hab; unfold pend; cbn; lia]. }
  intros [d' b'] h' [-> Hst].
  assert (take (Z.to_nat (zlen d)) d = d) as Ht by (unfold zlen; rewrite Nat2Z.id; apply firstn_all).
  assert (drop (Z.to_nat (zlen d)) d = []) as -> by (unfold zlen; rewrite Nat2Z.id; apply drop_all).
  rewrite Ht in Hst. by apply wp_ret.
Qed.

Lemma wp_append_refill h b d fuel :
  heap_ok h → blist_ok h b → 0 < zlen d → b_len b + zlen d < LIMIT → zlen d + CEPH_BUFFER_APPEND_SIZE < LIMIT →
  wp (let alen := u32 (CEPH_BUFFER_APPEND_SIZE * ((zlen d - 1) / CEPH_BUFFER_APPEND_SIZE + 1)) in
      b ← list_new_append_buffer alen b; append_loop (S fuel) d b) h (λ b' h', append_step d h b h' b').
Proof.
  intros Hh Hb Hd Hlen Hsz. unfold CEPH_BUFFER_APPEND_SIZE, LIMIT in *.
  set (alen := u32 _). assert (zlen d ≤ alen < 2 ^ 31) as Hal by (unfold alen, u32; dlia).
  cbv zeta. wstep. eapply wp_mono; [by apply wp_new_append_buffer; unfold LIMIT; [..|lia]|].
  intros b1 h1 (Hst & r & w & Hab & Hw & Hcap).
  eapply wp_mono.
  { apply (wp_append_last h1 b1 r w d fuel); [by apply Hst..|done|done|lia|].
    rewrite (bo_len _ _ (as_ok _ _ _ _ _ Hst)), (as_contents _ _ _ _ _ Hst), app_nil_r, <- (bo_len _ _ Hb). done. }
  intros b2 h2 Hst2. by apply (append_step_trans [] d h b h1 b1 h2 b2).
Qed.

Lemma wp_list_append h b d :
  heap_ok h → blist_ok h b → own_ok b → b_len b + zlen d < LIMIT → zlen d + CEPH_BUFFER_APPEND_SIZE < LIMIT →
  wp (list_append d b) h (λ b' h', append_step d h b h' b').
Proof.
  intros Hh Hb Hown Hlen Hsz. unfold list_append.
  destruct (decide (zlen d ≤ 0)) as [Hz|Hz].
  { cbn [append_loop]. rewrite (proj2 (Z.leb_le _ _)) by done. apply wp_ret.
    destruct d; [by apply append_step_refl|]. rewrite zlen_cons in Hz. pose proof (zlen_nonneg d). lia. }
  change (append_loop 2 d b) with (append_loop (S 1) d b). cbn [append_loop]. fold append_loop.
  rewrite (proj2 (Z.leb_gt _ _)) by lia. wstep.
  assert (wp (if zlen d =? 0 then mret b
     else let alen := u32 (CEPH_BUFFER_APPEND_SIZE * ((zlen d - 1) / CEPH_BUFFER_APPEND_SIZE + 1)) in
          b ← list_new_append_buffer alen b; append_loop 1 d b) h (λ b' h', append_step d h b h' b')) as Hrefill.
  { rewrite (proj2 (Z.eqb_neq _ _)) by lia. apply wp_append_refill; try done. lia. }
  destruct (bo_append _ _ Hb) as [Hnull|[Hp Hoff]].
  { rewrite Hnull. change (unused_tail_length ptr_null) with (mret 0 : M Z). apply wp_ret.
    change (0 <? 0) with false. cbv iota. wstep. apply wp_ret. exact Hrefill. }
  pose proof Hp as (r & w & Hr & Hw & Hpo & Hpl & Hpe).
  apply (wp_unused_tail _ _ r w); [done..|]. destruct (Z.ltb_spec 0 (zlen (r_data w) - pend (b_append_buffer b))) as [Hgap|Hgap].
  2: { wstep. apply wp_ret. exact Hrefill. }
  clear Hrefill. set (n := if zlen d <? _ then _ else _).
  assert (0 < n ≤ zlen d ∧ pend (b_append_buffer b) + n ≤ zlen (r_data w)) as [Hn Hfit].
  { unfold n. destruct (Z.ltb_spec (zlen d) (zlen (r_data w) - pend (b_append_buffer b))); lia. }
  wstep. eapply wp_mono; [by apply (wp_append_turn h b r w)|]. intros [d' b'] h' [-> Hst].
  set (d2 := drop (Z.to_nat n) d). cbv beta iota. destruct (Z.eqb_spec (zlen d2) 0) as [Hd2|Hd2].
  - apply wp_ret. assert (take (Z.to_nat n) d = d) as <-; [|done].
    rewrite <- (take_drop (Z.to_nat n) d) at 2. fold d2. destruct d2; [by rewrite app_nil_r|].
    rewrite zlen_cons in Hd2. pose proof (zlen_nonneg d2). lia.
  - assert (zlen (take (Z.to_nat n) d) + zlen d2 = zlen d) as Hsum by (rewrite <- zlen_app; unfold d2; by rewrite take_drop).
    pose proof (zlen_nonneg d2). pose proof (zlen_nonneg (take (Z.to_nat n) d)).
    assert (b_len b' = b_len b + zlen (take (Z.to_nat n) d)) as Hbl.
    { by rewrite (bo_len _ _ (as_ok _ _ _ _ _ Hst)), (as_contents _ _ _ _ _ Hst), zlen_app, <- (bo_len _ _ Hb). }
    eapply wp_mono; [apply (wp_append_refill h' b' d2 0); [apply Hst..|lia|lia|lia]|].
    intros b2 h2 Hst2. rewrite <- (take_drop (Z.to_nat n) d). by apply (append_step_trans _ _ h b h' b').
Qed.

Lemma wp_append_char h b c :
  heap_ok h → blist_ok h b → own_ok b → b_len b + 1 < LIMIT →
  wp (list_append_char c b) h (λ b' h', append_step [c] h b h' b').
Proof.
  intros Hh Hb Hown Hlen. unfold list_append_char.
  assert (∀ h b r w, heap_ok h → blist_ok h b → own_ok b → ptr_ok h (b_append_buffer b) → p_off (b_append_buffer b) = 0 →
    p_raw (b_append_buffer b) = Some r → h_raws h !! r = Some w → pend (b_append_buffer b) + 1 ≤ zlen (r_data w) →
    b_len b + 1 < LIMIT →
    wp ('(p, e) ← ptr_append_char (b_append_buffer b) c;
        let b := set_append_buffer p b in list_append_range p (u32 (e - 1)) 1 b) h
       (λ b' h', append_step [c] h b h' b')) as Hput.
  { clear. intros h b r w Hh Hb Hown Hp Hoff Hr Hw Hfit Hlen. destruct (Hh _ _ Hw) as [_ Hlim]. unfold LIMIT in *.
    change (ptr_append_char (b_append_buffer b) c) with (ptr_append (b_append_buffer b) [c]).
    wstep. apply (wp_ptr_append _ _ r w); [done..|]. cbv beta iota zeta.
    pose proof (ptr_ok_limit _ _ Hh Hp) as (?&?&?). unfold LIMIT, pend in *.
    assert (p_len (grown (b_append_buffer b) [c]) = p_len (b_append_buffer b) + 1) as Hg by done.
    assert (p_off (grown (b_append_buffer b) [c]) = p_off (b_append_buffer b)) as Hgo by done.
    rewrite u32_fits by lia.
    eapply wp_mono; [by apply (wp_append_chunk h b r w [c])|]. by intros b' h' [Hst _]. }
  assert (∀ h b, heap_ok h → blist_ok h b → b_len b + 1 < LIMIT →
    wp (b ← list_new_append_buffer CEPH_BUFFER_APPEND_SIZE b;
        '(p, e) ← ptr_append_char (b_append_buffer b) c;
        let b := set_append_buffer p b in list_append_range p (u32 (e - 1)) 1 b) h
       (λ b' h', append_step [c] h b h' b')) as Hnew.
  { clear - Hput. intros h b Hh Hb Hlen. wstep. unfold LIMIT, CEPH_BUFFER_APPEND_SIZE in *.
    eapply wp_mono; [by apply wp_new_append_buffer; unfold LIMIT; [..|lia]|].
    intros b1 h1 (Hst & r & w & Hab & Hw & Hcap). unfold LIMIT in *.
    eapply wp_mono; [apply (Hput h1 b1 r w); try apply Hst|].
    - rewrite Hab. exists r, w. unfold pend. cbn. split_and!; try done; lia.
    - by rewrite Hab.
    - by rewrite Hab.
    - done.
    - rewrite Hab. unfold pend. cbn. lia.
    - rewrite (bo_len _ _ (as_ok _ _ _ _ _ Hst)), (as_contents _ _ _ _ _ Hst), app_nil_r, <- (bo_len _ _ Hb). done.
    - intros b2 h2 Hst2. by apply (append_step_trans [] [c] h b h1 b1 h2 b2). }
  wstep. destruct (bo_append _ _ Hb) as [Hnull|[Hp Hoff]].
  { rewrite Hnull. change (unused_tail_length ptr_null) with (mret 0 : M Z). apply wp_ret. by apply Hnew. }
  pose proof Hp as (r & w & Hr & Hw & Hpo & Hpl & Hpe).
  apply (wp_unused_tail _ _ r w); [done..|].
  destruct (Z.eqb_spec (zlen (r_data w) - pend (b_append_buffer b)) 0) as [Hz|Hz]; [by apply Hnew|].
  wstep. apply wp_ret. apply (Hput h b r w); try done. lia.
Qed.

(** ** Copies of pointers *)

Lemma wp_new_nodes h ps :
  heap_ok h →
  wp (new_nodes ps) h (λ ns h', ns.*2 = ps ∧ heap_ok h' ∧ grows None h h' ∧ NoDup ns.*1 ∧
    ∀ n, n ∈ ns.*1 → h_next h ≤ n < h_next h').
Proof.
  revert h. induction ps as [|p ps IH]; intros h Hh; cbn [new_nodes].
  { apply wp_ret. split_and!; try done; [apply grows_refl|constructor|]. by intros n ?%not_elem_of_nil. }
  wstep. apply wp_new_node; [done|]. intros h1 Hh1 Hg1 Hn1 _. wstep.
  eapply wp_mono; [by apply IH|]. intros ns h2 (<- & Hh2 & Hg2 & Hnd & Hr). apply wp_ret.
  assert (h_next h1 ≤ h_next h2) by apply Hg2.
  split_and!; try done; [by eapply grows_trans| |].
  - constructor; [|done]. intros Hin%Hr. cbn in Hin. lia.
  - intros n [->|Hin]%elem_of_cons; [cbn; lia|]. specialize (Hr n Hin). lia.
Qed.

(** Only blocks of [h] count. *)
Lemma grows_new h h1 h2 c e :
  heap_ok h → grows None h h1 → grows (Some (c, e)) h1 h2 → h_next h ≤ c → grows None h h2.
Proof.
  intros Hh [Hn1 Hg1] [Hn2 Hg2] Hc. split; [lia|]. intros r w Hr.
  destruct (Hg1 r w Hr) as (w1 & Hr1 & Hl1 & Hd1). destruct (Hg2 r w1 Hr1) as (w2 & Hr2 & Hl2 & Hd2).
  destruct (Hh r w Hr). rewrite decide_False in Hd2 by lia. exists w2. split_and!; [done|congruence..].
Qed.

Lemma wp_make_shareable h p :
  heap_ok h → ptr_ok h p →
  wp (ptr_make_shareable p) h (λ p' h', heap_ok h' ∧ grows None h h' ∧ ptr_ok h' p' ∧ ptr_bytes h' p' = ptr_bytes h p ∧
    p_len p' = p_len p ∧ (p' = p ∨ fresh_ptr h p')).
Proof.
  intros Hh Hp. pose proof Hp as (r & w & Hr & Hw & Ho & Hl & He). unfold ptr_make_shareable. rewrite Hr. wstep.
  unfold wp at 1, raw_is_shareable. rewrite Hw. destruct (r_shareable w).
  { apply wp_ret. split_and!; try done; [apply grows_refl|by left]. }
  destruct (Hh _ _ Hw) as [_ Hlim]. pose proof (zlen_nonneg (r_data w)).
  unfold raw_clone. wstep. wstep. apply (wp_raw_len _ _ w); [done|]. wstep. apply wp_create; [done|lia|].
  intros h1 d Hh1 Hg1 Hn1 Hd Hc. wstep.
  destruct (proj2 Hg1 r w Hw) as (w1 & Hw1 & Hl1 & Hd1).
  apply (wp_mem_read _ _ w1); [done|lia..|]. wstep. rewrite Hd1, zslice_all.
  apply (wp_mem_write _ _ (Mk_raw d true)); [done|lia|cbn; lia|].
  destruct (heap_write_ok h1 (h_next h) 0 (r_data w) (Mk_raw d true)) as [Hh2 Hg2]; [done..|cbn; lia|].
  apply wp_ret, wp_ret. set (h2 := heap_write _ _ _ _ _) in *.
  assert (h_raws h2 !! h_next h = Some (Mk_raw (r_data w) true)) as Hw2.
  { cbn. rewrite lookup_insert_eq. do 2 f_equal. unfold zwrite. cbn [Z.to_nat take].
    rewrite drop_ge by (cbn; unfold zlen in *; lia). by rewrite app_nil_r. }
  split_and!.
  - done.
  - by eapply grows_new.
  - exists (h_next h), (Mk_raw (r_data w) true). by split_and!.
  - unfold ptr_bytes. cbn [p_raw p_off p_len]. by rewrite Hw2, Hr, Hw.
  - done.
  - right. exists (h_next h). split; [done|lia].
Qed.

Lemma wp_make_shareable_nodes h bs :
  heap_ok h → Forall (node_ok h) bs →
  wp (make_shareable_nodes bs) h (λ bs' h', heap_ok h' ∧ grows None h h' ∧ Forall (node_ok h') bs' ∧ bs'.*1 = bs.*1 ∧
    nodes_bytes h' bs' = nodes_bytes h bs ∧
    ∀ n q, (n, q) ∈ bs' → fresh_ptr h q ∨ (n, q) ∈ bs).
Proof.
  revert h. induction bs as [|[n p] bs IH]; intros h Hh Hbs; cbn [make_shareable_nodes].
  { apply wp_ret. split_and!; try done; [apply grows_refl|]. by intros n q ?%not_elem_of_nil. }
  apply Forall_cons in Hbs as [(Hn & Hp & Hl) Hbs]. cbn in Hn, Hp, Hl. wstep.
  eapply wp_mono; [by apply wp_make_shareable|]. intros p1 h1 (Hh1 & Hg1 & Hp1 & Hb1 & Hl1 & Hor1). wstep.
  destruct (grows_nodes _ _ _ _ Hg1 Hbs) as [Hbs1 Hbb1]. specialize (Hbb1 (safe_None _)).
  eapply wp_mono; [by apply IH|]. intros bs2 h2 (Hh2 & Hg2 & Hbs2 & Hn2 & Hb2 & Hor2). apply wp_ret.
  destruct (grows_ptr _ _ _ _ Hg2 Hp1) as [Hp2 Hpb2]. specialize (Hpb2 I).
  assert (h_next h ≤ h_next h1) by apply Hg1. assert (h_next h1 ≤ h_next h2) by apply Hg2.
  split_and!; try done.
  - by eapply grows_trans.
  - constructor; [|done]. split_and!; cbn; [lia|done|lia].
  - cbn. by f_equal.
  - by rewrite !nodes_bytes_cons, Hpb2, Hb1, Hb2, Hbb1.
  - intros m q [[= -> ->]|Hin]%elem_of_cons.
    + destruct Hor1 as [->|?]; [right; left|by left].
    + destruct (Hor2 m q Hin) as [?|?]; [left; by eapply fresh_mono|right; by right].
Qed.

Lemma nodes_bytes_ptrs h bs cs : bs.*2 = cs.*2 → nodes_bytes h bs = nodes_bytes h cs.
Proof. intros H. unfold nodes_bytes. by rewrite H. Qed.

Lemma elem_of_ptrs (q : ptr) (bs : list node) : q ∈ bs.*2 ↔ ∃ n, (n, q) ∈ bs.
Proof.
  rewrite list_elem_of_fmap. split; [intros ([n p] & -> & ?); by exists n|intros [n ?]; by exists (n, q)].
Qed.

(** The ranges of one list in the nodes of another. *)
Lemma nodes_ok_ptrs h h' bs ns :
  grows None h h' → Forall (node_ok h) bs → ns.*2 = bs.*2 → (∀ n, n ∈ ns.*1 → n < h_next h') →
  Forall (node_ok h') ns ∧ nodes_bytes h' ns = nodes_bytes h bs.
Proof.
  intros Hg Hbs Heq Hn. destruct (grows_nodes _ _ _ _ Hg Hbs) as [Hbs' Hb]. specialize (Hb (safe_None _)). split.
  - apply Forall_forall. intros [n q] Hin.
    assert (q ∈ bs.*2) as [m Hm]%elem_of_ptrs by (rewrite <- Heq; apply elem_of_ptrs; by exists n).
    eapply Forall_forall in Hbs'; [|exact Hm]. destruct Hbs' as (_ & ? & ?). split_and!; cbn; try done.
    apply Hn. apply list_elem_of_fmap. by exists (n, q).
  - rewrite <- Hb. by apply nodes_bytes_ptrs.
Qed.

Lemma wp_list_make_shareable h b :
  heap_ok h → blist_ok h b →
  wp (list_make_shareable b) h (λ b' h',
    list_step (ptrs_of b) h b h' b' ∧ contents h' b' = contents h b ∧ (b_buffers b').*1 = (b_buffers b).*1 ∧
    b_last_p b' = b_last_p b).
Proof.
  intros Hh Hb. unfold list_make_shareable. wstep.
  eapply wp_mono; [apply wp_make_shareable_nodes; [done|apply Hb]|].
  intros bs h' (Hh' & Hg & Hbs & Hn & Hbytes & Hor). apply wp_ret. split_and!; [|done..|done]. split; try done.
  - apply blist_ok_intro; try done.
    + rewrite Hn. apply Hb.
    + rewrite Hbytes. change (nodes_bytes h (b_buffers b)) with (contents h b). rewrite <- (bo_len _ _ Hb). apply Hb.
    + eapply append_ok_grows; [done|apply Hb].
    + rewrite Hbytes. apply Hb.
  - intros n q Hq. destruct (Hor n q Hq) as [?|?]; [by left|right]. apply below_refl. by exists n.
  - intros n. cbn. rewrite Hn. by left.
Qed.

Lemma list_step_trans (src1 src2 : ptr → Prop) h b h1 b1 h2 b2 :
  heap_ok h → list_step src1 h b h1 b1 → list_step src2 h1 b1 h2 b2 → (∀ q, src2 q → fresh_ptr h q ∨ below src1 q) →
  list_step src1 h b h2 b2.
Proof.
  intros Hh [A1 A2 A3 A4 A5 A6] [B1 B2 B3 B4 B5 B6] Hsrc. assert (h_next h ≤ h_next h1) by apply A2. split; try done.
  - by eapply grows_trans.
  - intros n q Hq. destruct (B4 n q Hq) as [?|?]; [left; by eapply fresh_mono|]. by eapply below_trans.
  - intros n Hn. destruct (B5 n Hn) as [?|?]; [by apply A5|right; lia].
  - congruence.
Qed.

Lemma wp_list_assign h b other :
  heap_ok h → blist_ok h b → blist_ok h other →
  wp (list_assign other b) h (λ b' h', list_step (ptrs_of other) h b h' b' ∧ contents h' b' = contents h other).
Proof.
  intros Hh Hb Ho. unfold list_assign. wstep.
  eapply wp_mono; [by apply wp_new_nodes|]. intros ns h1 (Hns & Hh1 & Hg1 & Hnd & Hr).
  destruct (nodes_ok_ptrs h h1 (b_buffers other) ns) as [Hok Hbytes]; [done|apply Ho|done|intros n Hn; by apply Hr|].
  assert (list_step (ptrs_of other) h b h1 (set_buffers ns (b_len other) b)) as Hst.
  { split; try done.
    - apply blist_ok_intro; try done.
      + rewrite Hbytes. change (nodes_bytes h (b_buffers other)) with (contents h other). rewrite <- (bo_len _ _ Ho). apply Ho.
      + eapply append_ok_grows; [done|apply Hb].
      + rewrite Hbytes. apply Ho.
    - intros n q Hq. right. apply below_refl.
      assert (q ∈ ns.*2) as Hin by (apply elem_of_ptrs; by exists n). rewrite Hns in Hin. by apply elem_of_ptrs in Hin.
    - intros n Hn. right. cbn in Hn. by apply Hr. }
  eapply wp_mono; [apply wp_list_make_shareable; [done|apply Hst]|].
  intros b' h' (Hst2 & Hc & _). split; [|rewrite Hc; exact Hbytes].
  eapply list_step_trans; [done|exact Hst|exact Hst2|]. intros q [n Hq]. by apply (ls_cover _ _ _ _ _ Hst n).
Qed.

Lemma wp_append_list h b bl :
  heap_ok h → blist_ok h b → blist_ok h bl → b_len b + b_len bl < LIMIT →
  wp (list_append_list bl b) h (λ b' h',
    list_step (λ q, ptrs_of b q ∨ ptrs_of bl q) h b h' b' ∧ contents h' b' = contents h b ++ contents h bl ∧
    b_last_p b' = b_last_p b ∧ extends (b_buffers b) (b_buffers b')).
Proof.
  intros Hh Hb Ho Hlen. pose proof (b_len_nonneg _ _ Hb). pose proof (b_len_nonneg _ _ Ho).
  unfold list_append_list. wstep.
  eapply wp_mono; [by apply wp_new_nodes|]. intros ns h1 (Hns & Hh1 & Hg1 & Hnd & Hr). apply wp_ret.
  destruct (nodes_ok_ptrs h h1 (b_buffers bl) ns) as [Hok Hbytes]; [done|apply Ho|done|intros n Hn; by apply Hr|].
  destruct (grows_blist _ _ _ Hg1 Hb) as [Hb1 Hc1].
  assert (nodes_bytes h1 (b_buffers b ++ ns) = contents h b ++ contents h bl) as Hall.
  { rewrite nodes_bytes_app, Hbytes. f_equal. exact Hc1. }
  assert (zlen (contents h b ++ contents h bl) = b_len b + b_len bl) as Hz by (by rewrite zlen_app, <- (bo_len _ _ Hb), <- (bo_len _ _ Ho)).
  split_and!; [|done|done|apply extends_app]. split; try done.
  - apply blist_ok_intro.
    + apply Forall_app. split; [apply Hb1|done].
    + rewrite fmap_app. apply NoDup_app. split_and!; [apply Hb| |done].
      intros n Hin Hn%Hr. by apply (node_new _ _ n Hb); [lia|].
    + rewrite Hall, Hz. done.
    + eapply append_ok_grows; [done|apply Hb].
    + rewrite Hall, Hz. apply u32_fits. unfold LIMIT in *. lia.
  - intros n q. cbn. rewrite elem_of_app. intros [Hq|Hq]; right; apply below_refl; [left; by exists n|right].
    assert (q ∈ ns.*2) as Hin by (apply elem_of_ptrs; by exists n). rewrite Hns in Hin. by apply elem_of_ptrs in Hin.
  - intros n. cbn. rewrite fmap_app, elem_of_app. intros [?|Hn%Hr]; [by left|right; lia].
Qed.

Lemma clear_ok h b : blist_ok h b → blist_ok h (list_clear b) ∧ contents h (list_clear b) = [].
Proof. intros Hb. split; [|done]. split; cbn; try done; [constructor|apply Hb]. Qed.

Lemma set_last_p_ok h b it : blist_ok h b → blist_ok h (set_last_p it b).
Proof. by intros []. Qed.

(** Taking over the nodes of another list, at the end or at the start. *)
Lemma claim_ok h b bl (front : bool) :
  blist_ok h b → blist_ok h bl → (∀ n, n ∈ (b_buffers b).*1 → n ∉ (b_buffers bl).*1) → b_len b + b_len bl < LIMIT →
  let bs := if front then b_buffers bl ++ b_buffers b else b_buffers b ++ b_buffers bl in
  blist_ok h (set_buffers bs (u32 (b_len b + b_len bl)) b) ∧
  nodes_bytes h bs = (if front then contents h bl ++ contents h b else contents h b ++ contents h bl).
Proof.
  intros Hb Ho Hdis Hlen bs. pose proof (b_len_nonneg _ _ Hb). pose proof (b_len_nonneg _ _ Ho).
  assert (nodes_bytes h bs = (if front then contents h bl ++ contents h b else contents h b ++ contents h bl)) as Hbytes
    by (unfold bs; destruct front; apply nodes_bytes_app).
  assert (zlen (nodes_bytes h bs) = b_len b + b_len bl) as Hz.
  { rewrite Hbytes. destruct front; rewrite zlen_app, <- (bo_len _ _ Hb), <- (bo_len _ _ Ho); lia. }
  split; [|done]. apply blist_ok_intro.
  - unfold bs. destruct front; apply Forall_app; split; (apply Hb || apply Ho).
  - unfold bs. destruct front; rewrite fmap_app; apply NoDup_app; split_and!; try (apply Hb || apply Ho);
      intros n Hn Hn'; [by apply (Hdis n Hn')|by apply (Hdis n Hn)].
  - by rewrite Hz.
  - apply Hb.
  - rewrite Hz. apply u32_fits. unfold LIMIT in *. lia.
Qed.

(** What two lists are after one has taken the buffers of the other. *)
Record claim_step (c : bytes) (h : heap) (b bl : blist) (h' : heap) (b' bl' : blist) : Prop := {
  cs_heap : heap_ok h';
  cs_grows : grows None h h';
  cs_ok : blist_ok h' b';
  cs_ok_from : blist_ok h' bl';
  cs_cover : ∀ n q, (n, q) ∈ b_buffers b' → fresh_ptr h q ∨ below (λ p, ptrs_of b p ∨ ptrs_of bl p) q;
  cs_nodes : ∀ n, n ∈ (b_buffers b').*1 → n ∈ (b_buffers b).*1 ∨ n ∈ (b_buffers bl).*1;
  cs_append : b_append_buffer b' = b_append_buffer b;
  cs_append_from : b_append_buffer bl' = b_append_buffer bl;
  cs_empty : b_buffers bl' = [];
  cs_contents : contents h' b' = c
}.

Lemma claim_core h b bl (front : bool) h1 bl1 :
  blist_ok h b → (∀ n, n ∈ (b_buffers b).*1 → n ∉ (b_buffers bl).*1) → b_len b + b_len bl < LIMIT →
  heap_ok h1 → grows None h h1 → blist_ok h1 bl1 → contents h1 bl1 = contents h bl →
  (b_buffers bl1).*1 = (b_buffers bl).*1 → b_append_buffer bl1 = b_append_buffer bl → b_len bl1 = b_len bl →
  (∀ n q, (n, q) ∈ b_buffers bl1 → fresh_ptr h q ∨ below (ptrs_of bl) q) →
  let bs := if front then b_buffers bl1 ++ b_buffers b else b_buffers b ++ b_buffers bl1 in
  let bl0 := set_buffers [] 0 bl1 in
  claim_step (if front then contents h bl ++ contents h b else contents h b ++ contents h bl) h b bl
    h1 (set_buffers bs (u32 (b_len b + b_len bl)) b) (set_last_p (list_begin bl0) bl0).
Proof.
  intros Hb Hdis Hlen Hh1 Hg1 Hok1 Hc1 Hn1 Ha1 Hl1 Hcov bs bl0. destruct (grows_blist _ _ _ Hg1 Hb) as [Hb1 Hcb].
  destruct (claim_ok h1 b bl1 front) as [Hok Hbytes]; [done|done|by rewrite Hn1|by rewrite Hl1|].
  rewrite Hl1 in Hok. split; try done.
  - apply set_last_p_ok. split; cbn; try done; [constructor|apply Hok1].
  - intros n q Hq. cbn in Hq. unfold bs in Hq.
    assert ((n, q) ∈ b_buffers b ∨ (n, q) ∈ b_buffers bl1) as [Hin|Hin] by (destruct front; apply elem_of_app in Hq; tauto).
    + right. apply below_refl. left. by exists n.
    + destruct (Hcov n q Hin) as [?|Hbe]; [by left|right]. eapply below_mono; [|exact Hbe]. by right.
  - intros n Hn. cbn in Hn. unfold bs in Hn.
    destruct front; rewrite fmap_app, elem_of_app, Hn1 in Hn; tauto.
  - unfold contents at 1. cbn [b_buffers set_buffers]. unfold bs. rewrite Hbytes. by rewrite Hc1, Hcb.
Qed.

Lemma wp_claim h b bl nonsh (front : bool) :
  heap_ok h → blist_ok h b → blist_ok h bl → (∀ n, n ∈ (b_buffers b).*1 → n ∉ (b_buffers bl).*1) →
  b_len b + b_len bl < LIMIT →
  wp (if front then list_claim_prepend bl b nonsh else list_claim_append bl b nonsh) h (λ '(b', bl') h',
    claim_step (if front then contents h bl ++ contents h b else contents h b ++ contents h bl) h b bl h' b' bl').
Proof.
  intros Hh Hb Ho Hdis Hlen.
  assert (wp (bl1 ← (if nonsh then mret bl else list_make_shareable bl);
     let bs := if front then b_buffers bl1 ++ b_buffers b else b_buffers b ++ b_buffers bl1 in
     let bl0 := set_buffers [] 0 bl1 in
     mret (set_buffers bs (u32 (b_len b + b_len bl)) b, set_last_p (list_begin bl0) bl0)) h (λ '(b', bl') h',
    claim_step (if front then contents h bl ++ contents h b else contents h b ++ contents h bl) h b bl h' b' bl')) as Hmain.
  { wstep. destruct nonsh.
    - apply wp_ret, wp_ret. apply claim_core; try done; [apply grows_refl|].
      intros n q Hq. right. apply below_refl. by exists n.
    - eapply wp_mono; [by apply wp_list_make_shareable|]. intros bl1 h1 (Hst & Hc & Hn & _). apply wp_ret.
      assert (b_len bl1 = b_len bl) as Hl.
      { by rewrite (bo_len _ _ (ls_ok _ _ _ _ _ Hst)), Hc, <- (bo_len _ _ Ho). }
      apply claim_core; try done; apply Hst. }
  destruct front; exact Hmain.
Qed.

(** ** Rebuilding *)

Lemma zwrite_app o x s d :
  0 ≤ o → o + zlen x + zlen s ≤ zlen d → zwrite (o + zlen x) s (zwrite o x d) = zwrite o (x ++ s) d.
Proof.
  intros Ho Hle. unfold zwrite, zlen in *. rewrite length_app.
  replace (Z.to_nat (o + Z.of_nat (length x))) with (length (take (Z.to_nat o) d ++ x)) at 1 2
    by (rewrite length_app, length_take; lia).
  rewrite (app_assoc (take (Z.to_nat o) d) x), take_app_length.
  rewrite <- !app_assoc. do 3 f_equal.
  rewrite (app_assoc (take _ _) x), drop_app_ge by lia. rewrite drop_drop, length_app, length_take. f_equal. lia.
Qed.

(** The loop of [rebuild] writes the ranges one after the other into a block
    that none of them is in. *)
Lemma wp_rebuild_loop h nb r w pos bs :
  heap_ok h → p_raw nb = Some r → h_raws h !! r = Some w → p_off nb = 0 → p_len nb = zlen (r_data w) →
  Forall (node_ok h) bs → (∀ n q, (n, q) ∈ bs → p_raw q ≠ Some r) → 0 ≤ pos → pos + zlen (nodes_bytes h bs) ≤ p_len nb →
  wp (rebuild_loop nb pos bs) h (λ p h',
    p = pos + zlen (nodes_bytes h bs) ∧ h_next h' = h_next h ∧ h_garbage h' = h_garbage h ∧
    h_raws h' = <[r := Mk_raw (zwrite pos (nodes_bytes h bs) (r_data w)) (r_shareable w)]> (h_raws h)).
Proof.
  intros Hh Hr. revert h w pos Hh. induction bs as [|[n q] bs IH]; intros h w pos Hh Hw Ho Hl Hbs Hne Hp Hle; cbn [rebuild_loop].
  { apply wp_ret. change (nodes_bytes h []) with (@nil ascii). rewrite zlen_nil. split_and!; try done; [lia|].
    unfold zwrite. cbn [app length]. rewrite Nat.add_0_r, take_drop.
    rewrite insert_id; [done|]. rewrite Hw. by destruct w. }
  pose proof (zlen_nodes_cons h n q bs ltac:(by apply Forall_cons in Hbs as [? _])) as Hlen.
  apply Forall_cons in Hbs as [Hq Hbs]. pose proof Hq as (_ & Hqok & Hqpos). cbn in Hqok, Hqpos.
  pose proof (zlen_nonneg (nodes_bytes h bs)). destruct (Hh _ _ Hw) as [_ Hlim]. unfold LIMIT in *.
  pose proof (zlen_ptr_bytes h q Hqok) as Hzq.
  assert (zslice 0 (p_len q) (ptr_bytes h q) = ptr_bytes h q) as Hall by (rewrite <- Hzq; apply zslice_all).
  wstep. apply wp_ptr_read; [done|lia..|]. rewrite Hall.
  wstep. unfold ptr_copy_in, raw_of. rewrite Hr. wstep. apply wp_ret. wstep. apply wp_assert; [apply Z.leb_le; lia|].
  wstep. apply wp_assert; [apply Z.leb_le; rewrite u32_fits by lia; lia|].
  apply (wp_mem_write _ _ w); [done|lia|lia|]. rewrite Ho, Z.add_0_l, u32_fits by lia.
  destruct (heap_write_ok h r pos (ptr_bytes h q) w) as [Hh1 Hg1]; [done|done|lia|lia|].
  set (h1 := heap_write _ _ _ _ _) in *.
  assert (Forall (λ nd : node, safe (Some (r, pos)) nd.2) bs) as Hsafe.
  { apply Forall_forall. intros [m q'] Hin Hraw. cbn in Hraw. destruct (Hne m q'); [by right|done]. }
  destruct (grows_nodes _ _ _ _ Hg1 Hbs) as [Hbs1 Hb1]. specialize (Hb1 Hsafe).
  eapply wp_mono.
  { apply (IH h1 (Mk_raw (zwrite pos (ptr_bytes h q) (r_data w)) (r_shareable w))); cbn [r_data]; try done.
    - cbn. apply lookup_insert_eq.
    - rewrite zlen_zwrite by lia. done.
    - intros m q' Hin. apply (Hne m). by right.
    - lia.
    - rewrite Hb1. lia. }
  intros p h2 (-> & Hn2 & Hga & Hr2). rewrite Hb1 in *. split_and!; [lia|done..|].
  rewrite Hr2. cbn. rewrite insert_insert_eq, <- Hzq, zwrite_app by lia. done.
Qed.

Lemma zwrite_all s d : zlen s = zlen d → zwrite 0 s d = s.
Proof. intros H. unfold zwrite, zlen in *. cbn. rewrite drop_ge by lia. apply app_nil_r. Qed.

Lemma wp_rebuild h b :
  heap_ok h → blist_ok h b →
  wp (list_rebuild b) h (λ b' h', list_step (ptrs_of b) h b h' b' ∧ contents h' b' = contents h b ∧
    (length (b_buffers b') ≤ 1)%nat).
Proof.
  intros Hh Hb. unfold list_rebuild. destruct (Z.eqb_spec (b_len b) 0) as [Hz|Hz].
  { apply wp_ret. assert (contents h b = []) as Hc.
    { pose proof (bo_len _ _ Hb). destruct (contents h b) as [|x l]; [done|]. rewrite zlen_cons in *. pose proof (zlen_nonneg l). lia. }
    split_and!; [|done|cbn; lia]. split; try done; [apply grows_refl| |by intros n q ?%not_elem_of_nil|by intros n ?%not_elem_of_nil].
    apply blist_ok_intro; try done; [apply NoDup_nil_2|apply Hb]. }
  pose proof (b_len_nonneg _ _ Hb). pose proof (bo_limit _ _ Hb). pose proof (bo_len _ _ Hb) as Hlen.
  wstep. unfold ptr_create. wstep. apply wp_create; [done|lia|]. intros h1 d Hh1 Hg1 Hn1 Hd Hr. apply wp_ret.
  destruct (grows_blist _ _ _ Hg1 Hb) as [Hb1 Hc1]. unfold list_rebuild_into. wstep.
  eapply wp_mono.
  { apply (wp_rebuild_loop h1 _ (h_next h) (Mk_raw d true) 0); cbn; try done.
    - apply Hb1.
    - intros n q Hq Hraw. pose proof (bo_nodes _ _ Hb) as HF. eapply Forall_forall in HF; [|exact Hq].
      destruct HF as (_ & (r & w & Hqr & Hqw & _) & _). cbn in Hqr. destruct (Hh r w Hqw). assert (r = h_next h) by congruence. lia.
    - change (nodes_bytes h1 (b_buffers b)) with (contents h1 b). rewrite Hc1. lia. }
  intros pos h2 (-> & Hn2 & Hga & Hr2). change (nodes_bytes h1 (b_buffers b)) with (contents h1 b) in *. rewrite Hc1 in *.
  cbn [p_len r_data r_shareable] in *. rewrite zwrite_all in Hr2 by lia.
  rewrite (proj2 (Z.eqb_neq _ _)) by lia. wstep.
  assert (heap_ok h2 ∧ grows None h h2) as [Hh2 Hg2].
  { split.
    - intros r w. rewrite Hr2, Hn2, lookup_insert_Some. intros [[<- <-]|[_ Hw]]; [cbn; lia|by apply Hh1].
    - split; [lia|]. intros r w Hw. destruct (proj2 Hg1 r w Hw) as (w1 & Hw1 & ? & ?). exists w1. split; [|done].
      rewrite Hr2, lookup_insert_ne; [done|]. destruct (Hh r w Hw). lia. }
  apply wp_new_node; [done|]. intros h3 Hh3 Hg3 Hn3 Hr3. apply wp_ret.
  set (nb := Mk_ptr _ _ _). assert (ptr_ok h3 nb ∧ ptr_bytes h3 nb = contents h b) as [Hok Hbytes].
  { assert (h_raws h3 !! h_next h = Some (Mk_raw (contents h b) true)) as Hw3 by (rewrite Hr3, Hr2; apply lookup_insert_eq).
    split; [exists (h_next h), (Mk_raw (contents h b) true); unfold pend; cbn; split_and!; try done; lia|].
    unfold ptr_bytes. cbn. rewrite Hw3. cbn. rewrite Hlen. apply zslice_all. }
  assert (grows None h h3) as Hg by (by eapply grows_trans).
  split_and!; [|unfold contents at 1; cbn [b_buffers set_buffers]; by rewrite nodes_bytes_single|done]. split; try done.
  - apply (blist_ok_intro h3 (add_memcopy _ b)).
    + apply Forall_singleton. split_and!; cbn; [lia|done|lia].
    + apply NoDup_singleton.
    + rewrite nodes_bytes_single, Hbytes. lia.
    + eapply append_ok_grows; [done|apply Hb].
    + rewrite nodes_bytes_single, Hbytes. done.
  - intros n q. cbn. rewrite list_elem_of_singleton. intros [= -> ->]. left. exists (h_next h). split; [done|lia].
  - intros n. cbn. rewrite list_elem_of_singleton. intros ->. right. lia.
Qed.

(** ** Parts of a list *)

Lemma zslice_app_l o l x y : 0 ≤ o → 0 ≤ l → o + l ≤ zlen x → zslice o l (x ++ y) = zslice o l x.
Proof.
  intros. unfold zslice, zlen in *. rewrite drop_app_le by lia. rewrite take_app_le by (rewrite length_drop; lia). done.
Qed.

Lemma zslice_app_r o l x y : zlen x ≤ o → zslice o l (x ++ y) = zslice (o - zlen x) l y.
Proof. intros. unfold zslice, zlen in *. rewrite drop_app_ge by lia. do 2 f_equal. lia. Qed.

Lemma zslice_app_split o l x y :
  0 ≤ o ≤ zlen x → zlen x ≤ o + l → zslice o l (x ++ y) = zslice o (zlen x - o) x ++ zslice 0 (o + l - zlen x) y.
Proof.
  intros. replace l with ((zlen x - o) + (o + l - zlen x)) at 1 by lia. rewrite <- zslice_app by lia.
  rewrite zslice_app_l by lia. rewrite zslice_app_r by lia. do 2 f_equal. lia.
Qed.

(** Skipping the buffers before an offset. *)
Lemma skip_nodes_spec h bs off :
  Forall (node_ok h) bs → 0 ≤ off ≤ zlen (nodes_bytes h bs) →
  ∃ before rest off', skip_nodes off bs = Some (before, rest, off') ∧ bs = before ++ rest ∧
    off = zlen (nodes_bytes h before) + off' ∧ 0 ≤ off' ∧
    match rest with [] => off' = 0 | (_, p) :: _ => off' < p_len p end.
Proof.
  intros Hbs. revert off. induction Hbs as [|[n p] bs Hp Hbs IH]; intros off Hoff; cbn [skip_nodes].
  { change (zlen (nodes_bytes h [])) with 0 in *. rewrite (proj2 (Z.ltb_ge 0 off)) by lia.
    exists [], [], off. split_and!; try done; change (zlen (nodes_bytes h [])) with 0; lia. }
  rewrite zlen_nodes_cons in Hoff by done. pose proof Hp as (_ & _ & Hpos). cbn in Hpos.
  destruct (Z.leb_spec (p_len p) off).
  - rewrite (proj2 (Z.ltb_lt 0 off)) by lia. cbn [andb].
    destruct (IH (off - p_len p)) as (before & rest & off' & -> & -> & E & H0 & Hm); [lia|]. cbn.
    exists ((n, p) :: before), rest, off'. split_and!; try done. rewrite zlen_nodes_cons by done. lia.
  - rewrite andb_false_r. exists [], ((n, p) :: bs), off. change (zlen (nodes_bytes h [])) with 0. split_and!; try done; lia.
Qed.

(** A range at the end of a list. *)
Lemma snoc_step (P : ptr → Prop) h b p :
  heap_ok h → blist_ok h b → ptr_ok h p → 0 < p_len p → b_len b + p_len p < LIMIT → P p →
  (∀ q, ptrs_of b q → P q) →
  wp (n ← new_node; mret (set_buffers (b_buffers b ++ [(n, p)]) (u32 (b_len b + p_len p)) b)) h
    (λ b' h', list_step P h b h' b' ∧ contents h' b' = contents h b ++ ptr_bytes h p ∧ b_last_p b' = b_last_p b ∧
      ∀ q, ptrs_of b' q → P q).
Proof.
  intros Hh Hb Hp Hpos Hlen HP Hold. pose proof (wp_push_back h b p Hh Hb Hp Hlen) as H.
  unfold list_push_back in H. rewrite (proj2 (Z.eqb_neq _ _)) in H by lia. eapply wp_mono; [exact H|].
  intros b' h' (Hst & Hc & Hl & bs & Hbs & Hnew).
  assert (∀ q, ptrs_of b' q → P q) as Hall.
  { intros q [n Hq]. rewrite Hbs in Hq. apply elem_of_app in Hq as [Hq|Hq]; [apply Hold; by exists n|].
    by rewrite (Hnew n q Hq). }
  split_and!; [|done..]. destruct Hst as [H1 H2 H3 H4 H5 H6]. split; try done.
  intros n q Hq. right. apply below_refl, Hall. by exists n.
Qed.

Lemma list_step_refl (P : ptr → Prop) h b :
  heap_ok h → blist_ok h b → (∀ q, ptrs_of b q → P q) → list_step P h b h b.
Proof.
  intros Hh Hb HP. split; try done; [apply grows_refl| |by left].
  intros n q Hq. right. apply below_refl, HP. by exists n.
Qed.

Lemma list_step_seq (P : ptr → Prop) h b h1 b1 h2 b2 :
  heap_ok h → list_step P h b h1 b1 → list_step P h1 b1 h2 b2 → list_step P h b h2 b2.
Proof. intros Hh H1 H2. eapply list_step_trans; [done|exact H1|exact H2|]. intros q Hq. right. by apply below_refl. Qed.

Lemma wp_substr_loop (P : ptr → Prop) h bs off len b :
  heap_ok h → Forall (node_ok h) bs → blist_ok h b → 0 ≤ off → 0 ≤ len → off + len ≤ zlen (nodes_bytes h bs) →
  match bs with [] => off = 0 | (_, p) :: _ => off < p_len p end → b_len b + len < LIMIT →
  (∀ n p o l, (n, p) ∈ bs → 0 ≤ o → 0 ≤ l → o + l ≤ p_len p → P (sub_ptr p o l)) → (∀ q, ptrs_of b q → P q) →
  wp (substr_loop bs off len b) h (λ b' h',
    list_step P h b h' b' ∧ contents h' b' = contents h b ++ zslice off len (nodes_bytes h bs)).
Proof.
  intros Hh Hbs. revert h Hh Hbs off len b.
  induction bs as [|[n p] bs IH]; intros h Hh Hbs off len b Hb Ho Hl Hle Hhead Hlen Hsub Hold; cbn [substr_loop].
  { change (zlen (nodes_bytes h [])) with 0 in Hle. rewrite (proj2 (Z.leb_le len 0)) by lia. apply wp_ret.
    replace len with 0 by lia. rewrite zslice_0, app_nil_r. split; [by apply list_step_refl|done]. }
  destruct (Z.leb_spec len 0) as [Hz|Hz].
  { apply wp_ret. replace len with 0 by lia. rewrite zslice_0, app_nil_r. split; [by apply list_step_refl|done]. }
  pose proof (b_len_nonneg _ _ Hb). rewrite zlen_nodes_cons in Hle by (by apply Forall_cons in Hbs as [? _]).
  apply Forall_cons in Hbs as [(_ & Hp & Hpos) Hbs]. cbn in Hp, Hpos. pose proof (ptr_ok_limit _ _ Hh Hp) as (?&?&?).
  pose proof (zlen_ptr_bytes h p Hp) as Hzp. unfold pend in *. rewrite nodes_bytes_cons. pose proof (bo_limit _ _ Hb).
  assert (∀ m, 0 ≤ m → off + m ≤ p_len p → P (sub_ptr p off m)) as Hsub0 by (intros; eapply Hsub; [left|done..]).
  pose proof (zlen_nonneg (nodes_bytes h bs)).
  destruct (Z.ltb_spec (u32 (off + len)) (p_len p)) as [Hpart|Hpart].
  all: rewrite u32_fits in Hpart by (unfold LIMIT in *; lia).
  - destruct (sub_ptr_ok h p off len) as [Hsok Hsb]; [done|lia..|]. wstep. apply wp_ptr_sub; [done|done|lia..|].
    eapply wp_mono; [apply (snoc_step P h b (sub_ptr p off len)); try done; apply Hsub0; lia|].
    cbn beta. intros b' h' (Hst & Hc & _). split; [done|]. rewrite Hc, Hsb. by rewrite zslice_app_l by lia.
  - rewrite (u32_fits (p_len p - off)) by (unfold LIMIT in *; lia). cbn zeta.
    set (m := p_len p - off) in *.
    destruct (sub_ptr_ok h p off m) as [Hsok Hsb]; [done|lia..|]. wstep. apply wp_ptr_sub; [done|done|lia..|].
    apply (wp_bind_ret new_node (λ n0, set_buffers (b_buffers b ++ [(n0, sub_ptr p off m)]) (u32 (b_len b + m)) b)
             (substr_loop bs 0 (len - m))).
    eapply wp_mono; [apply (snoc_step P h b (sub_ptr p off m)); try done; [cbn; lia|cbn; lia|apply Hsub0; lia]|].
    cbn beta. intros b1 h1 (Hst1 & Hc1 & _ & Hall1).
    destruct (grows_nodes _ _ _ _ (ls_grows _ _ _ _ _ Hst1) Hbs) as [Hbs1 Hbb1]. specialize (Hbb1 (safe_None _)).
    assert (b_len b1 = b_len b + m) as Hl1.
    { rewrite (bo_len _ _ (ls_ok _ _ _ _ _ Hst1)), Hc1, zlen_app, <- (bo_len _ _ Hb), zlen_ptr_bytes by done. done. }
    eapply wp_mono; [apply IH; try done|].
    + apply Hst1.
    + apply Hst1.
    + lia.
    + rewrite Hbb1. lia.
    + destruct bs as [|[n2 p2] bs]; [done|]. apply Forall_cons in Hbs as [(_ & _ & Hpos2) _]. done.
    + lia.
    + intros n2 p2 o l Hin. eapply Hsub. by right.
    + cbn beta. intros b2 h2 (Hst2 & Hc2). split; [by eapply list_step_seq|].
      rewrite Hc2, Hc1, Hsb, Hbb1, <- app_assoc. f_equal. rewrite zslice_app_split by lia. rewrite Hzp.
      f_equal. f_equal. lia.
Qed.

Lemma nodes_at_offset h before rest off len :
  Forall (node_ok h) (before ++ rest) → 0 ≤ off →
  zslice (zlen (nodes_bytes h before) + off) len (nodes_bytes h (before ++ rest)) = zslice off len (nodes_bytes h rest).
Proof. intros _ Ho. rewrite nodes_bytes_app, zslice_app_r by lia. f_equal. lia. Qed.

Definition within (bs : list node) (q : ptr) : Prop :=
  ∃ n p, (n, p) ∈ bs ∧ p_raw q = p_raw p ∧ pend q ≤ pend p.

Lemma wp_substr_of h b other off len :
  heap_ok h → blist_ok h b → blist_ok h other → 0 ≤ off → 0 ≤ len → off + len ≤ b_len other →
  wp (list_substr_of other off len b) h (λ b' h',
    list_step (within (b_buffers other)) h b h' b' ∧ contents h' b' = zslice off len (contents h other)).
Proof.
  intros Hh Hb Ho Hoff Hlen Hle. pose proof (bo_limit _ _ Ho) as Hlim. unfold list_substr_of.
  rewrite u32_fits by (unfold LIMIT in *; lia). rewrite (proj2 (Z.ltb_ge _ _)) by lia.
  pose proof (bo_nodes _ _ Ho) as Hbs. pose proof (bo_len _ _ Ho) as Hol.
  destruct (skip_nodes_spec h (b_buffers other) off Hbs) as (before & rest & off' & -> & Hsplit & -> & Ho' & Hhead).
  { change (nodes_bytes h (b_buffers other)) with (contents h other). lia. }
  unfold contents in *. rewrite Hsplit in Hbs, Hol. rewrite nodes_bytes_app, zlen_app in Hol.
  pose proof Hbs as [Hbs1 Hbs2]%Forall_app. destruct (clear_ok h b Hb) as [Hcl Hcc].
  wstep. apply wp_assert.
  { destruct (Z.eqb_spec len 0); [done|]. destruct rest as [|nd rest]; [|done].
    change (zlen (nodes_bytes h [])) with 0 in Hol. lia. }
  eapply wp_mono; [apply (wp_substr_loop (within (b_buffers other)) h rest off' len (list_clear b)); try done|].
  - lia.
  - cbn. lia.
  - intros n p o l Hin ???. exists n, p. split_and!; [rewrite Hsplit; apply elem_of_app; by right|done|].
    unfold pend, sub_ptr. cbn. lia.
  - by intros q [n ?%not_elem_of_nil].
  - cbn beta. intros b' h' [Hst Hc]. split.
    + destruct Hst as [H1 H2 H3 H4 H5 H6]. split; try done. intros n Hn. destruct (H5 n Hn) as [Hin|?]; [|by right].
      by apply not_elem_of_nil in Hin.
    + unfold contents in Hc. rewrite Hc. change (nodes_bytes h (b_buffers (list_clear b))) with (@nil ascii). cbn [app].
      by rewrite Hsplit, nodes_at_offset.
Qed.

(** ** Cutting a piece out *)

(** What the list that claims the piece becomes: it gets ranges of [bs]. *)
Definition claimed (bs : list node) (d : bytes) (h : heap) (c : option blist) (h' : heap) (c' : option blist) : Prop :=
  match c, c' with
  | Some c, Some c' => list_step (λ q, ptrs_of c q ∨ within bs q) h c h' c' ∧ contents h' c' = contents h c ++ d
  | None, None => True
  | _, _ => False
  end.

Definition claim_ready (h : heap) (len : Z) (c : option blist) : Prop :=
  match c with Some c => blist_ok h c ∧ b_len c + len < LIMIT | None => True end.

Lemma claimed_trans bs bs1 d1 d2 h c h1 c1 h2 c2 :
  heap_ok h → claimed bs d1 h c h1 c1 → claimed bs1 d2 h1 c1 h2 c2 → (∀ q, within bs1 q → within bs q) →
  claimed bs (d1 ++ d2) h c h2 c2.
Proof.
  intros Hh H1 H2 Hin. destruct c as [c|], c1 as [c1|], c2 as [c2|]; try done. cbn in *.
  destruct H1 as [H1 C1], H2 as [H2 C2]. split; [|by rewrite C2, C1, app_assoc].
  eapply list_step_trans; [done|exact H1|exact H2|]. intros q [[n Hq]|Hq].
  - by apply (ls_cover _ _ _ _ _ H1 n).
  - right. apply below_refl. right. auto.
Qed.

(** One [claim_by->append] of the loop. *)
Lemma wp_claim_range bs h n p off len c rest :
  heap_ok h → ptr_ok h p → 0 ≤ off → 0 ≤ len → 0 ≤ rest → off + len ≤ p_len p → (n, p) ∈ bs →
  claim_ready h (len + rest) c →
  wp (match c with Some c => c ← list_append_range p off len c; mret (Some c) | None => mret None end) h
    (λ c' h', heap_ok h' ∧ grows None h h' ∧ claimed bs (zslice off len (ptr_bytes h p)) h c h' c' ∧
              claim_ready h' rest c').
Proof.
  intros Hh Hp ???? Hin Hc. destruct c as [c|].
  2: { apply wp_ret. split_and!; try done. apply grows_refl. }
  destruct Hc as [Hc Hlen]. wstep.
  eapply wp_mono; [apply wp_append_range; try done; lia|]. intros c' h' (Hst & Hcont & _). apply wp_ret.
  assert (b_len c' = b_len c + len) as Hbl.
  { rewrite (bo_len _ _ (ls_ok _ _ _ _ _ Hst)), Hcont, zlen_app, <- (bo_len _ _ Hc), zlen_zslice; [done..|].
    rewrite zlen_ptr_bytes by done. lia. }
  split_and!; [apply Hst..| |split; [apply Hst|lia]]. split; [|done].
  destruct Hst as [S1 S2 S3 S4 S5 S6]. split; try done. intros m q Hq. destruct (S4 m q Hq) as [?|Hb]; [by left|right].
  eapply below_mono; [|exact Hb]. intros x [?| ->]; [by left|right]. exists n, p. split_and!; [done..|].
  unfold pend, sub_ptr. cbn. lia.
Qed.

Definition zdrop (o : Z) (d : bytes) : bytes := drop (Z.to_nat o) d.

Lemma zlen_zdrop o d : 0 ≤ o ≤ zlen d → zlen (zdrop o d) = zlen d - o.
Proof. intros. unfold zdrop, zlen in *. rewrite length_drop. lia. Qed.

Lemma zdrop_app_ge o x y : zlen x ≤ o → zdrop o (x ++ y) = zdrop (o - zlen x) y.
Proof. intros. unfold zdrop, zlen in *. rewrite drop_app_ge by lia. f_equal. lia. Qed.

Lemma zdrop_app_le o x y : 0 ≤ o ≤ zlen x → zdrop o (x ++ y) = zslice o (zlen x - o) x ++ y.
Proof.
  intros. unfold zdrop, zslice, zlen in *. rewrite drop_app_le by lia. f_equal. rewrite take_ge; [done|].
  rewrite length_drop. lia.
Qed.

(** The nodes that are left are a tail of the nodes there were. *)
Definition cut (h : heap) (bs : list node) (h' : heap) (bs' : list node) (o : Z) : Prop :=
  Forall (node_ok h') bs' ∧ nodes_bytes h' bs' = zdrop o (nodes_bytes h bs) ∧
  (∃ k, bs'.*1 = drop k bs.*1) ∧ (∀ n q, (n, q) ∈ bs' → within bs q).

Lemma within_mono bs cs q : (∀ n p, (n, p) ∈ bs → (n, p) ∈ cs) → within bs q → within cs q.
Proof. intros H (n & p & ? & ? & ?). exists n, p. auto. Qed.

Lemma within_self bs n q : (n, q) ∈ bs → within bs q.
Proof. by exists n, q. Qed.

(** The end of a range, as [splice] sets it. *)
Lemma wp_splice_tail {A} h p off len (k : ptr → M A) (Q : A → heap → Prop) :
  heap_ok h → ptr_ok h p → 0 ≤ off + len ≤ p_len p →
  wp (k (sub_ptr p (off + len) (p_len p - (off + len)))) h Q →
  wp (q ← ptr_set_offset (u32 (off + len + p_off p)) p; q ← ptr_set_length (u32 (p_len q - (len + off))) q; k q) h Q.
Proof.
  intros Hh Hp Ho HQ. pose proof (ptr_ok_limit _ _ Hh Hp) as (?&?&?). unfold pend, LIMIT in *.
  pose proof Hp as (r & w & Hr & Hw & _ & _ & He). unfold pend in He. set (o := off + len) in *.
  wstep. unfold ptr_set_offset, raw_of. rewrite Hr. wstep. apply wp_ret. wstep. apply (wp_raw_len _ _ w); [done|].
  rewrite u32_fits by lia. wstep. apply wp_assert; [apply Z.leb_le; lia|]. apply wp_ret. cbn [p_len].
  replace (len + off) with o by (unfold o; lia). wstep.
  rewrite u32_fits by lia. unfold ptr_set_length, raw_of. cbn [p_raw p_off]. wstep. apply wp_ret. wstep.
  apply (wp_raw_len _ _ w); [done|]. wstep. apply wp_assert; [apply Z.leb_le; lia|]. apply wp_ret.
  unfold sub_ptr in HQ. rewrite Hr, (Z.add_comm (p_off p)) in HQ. exact HQ.
Qed.

Lemma cut_none h bs : Forall (node_ok h) bs → cut h bs h bs 0.
Proof. intros Hbs. split_and!; try done; [by exists O|]. intros n q. apply within_self. Qed.

Lemma cut_grows h h1 bs h2 bs' o : grows None h h1 → Forall (node_ok h) bs → cut h1 bs h2 bs' o → cut h bs h2 bs' o.
Proof.
  intros Hg Hbs (H1 & H2 & H3 & H4). destruct (grows_nodes _ _ _ _ Hg Hbs) as [_ E]. specialize (E (safe_None _)).
  split_and!; try done. by rewrite H2, E.
Qed.

Lemma wp_splice_loop h bs off len blen c :
  heap_ok h → Forall (node_ok h) bs → 0 ≤ off → 0 ≤ len → off + len ≤ zlen (nodes_bytes h bs) →
  match bs with [] => off = 0 | (_, p) :: _ => off < p_len p end → (len = 0 → off = 0) →
  zlen (nodes_bytes h bs) ≤ blen < 2 ^ 32 → zlen (nodes_bytes h bs) < LIMIT → claim_ready h len c →
  wp (splice_loop bs off len blen c) h (λ '(bs', blen', c') h',
    heap_ok h' ∧ grows None h h' ∧ cut h bs h' bs' (off + len) ∧ blen' = blen - (off + len) ∧
    claimed bs (zslice off len (nodes_bytes h bs)) h c h' c').
Proof.
  intros Hh Hbs. revert h Hh Hbs off len blen c.
  induction bs as [|[n p] bs IH]; intros h Hh Hbs off len blen c Ho Hl Hle Hhead Hz Hblen Hlim Hc; cbn [splice_loop];
    (destruct (Z.leb_spec len 0) as [Hlen|Hlen];
     [apply wp_ret; replace len with 0 in * by lia; rewrite Hz by done; rewrite zslice_0;
      split_and!; [done|apply grows_refl|by apply cut_none|lia|]|]).
  { destruct c as [c|]; [|done]. destruct Hc as [Hc _]. split; [|by rewrite app_nil_r]. apply list_step_refl; [done..|]. by left. }
  { change (zlen (nodes_bytes h [])) with 0 in Hle. lia. }
  { destruct c as [c|]; [|done]. destruct Hc as [Hc _]. split; [|by rewrite app_nil_r]. apply list_step_refl; [done..|]. by left. }
  pose proof Hbs as HF. rewrite zlen_nodes_cons in * by (by apply Forall_cons in Hbs as [? _]).
  apply Forall_cons in Hbs as [(Hn & Hp & Hpos) Hbs]. cbn in Hn, Hp, Hpos.
  pose proof (zlen_ptr_bytes h p Hp) as Hzp. pose proof (zlen_nonneg (nodes_bytes h bs)). unfold LIMIT in *.
  destruct (Z.ltb_spec (u32 (off + len)) (p_len p)) as [Hpart|Hpart].
  all: rewrite u32_fits in Hpart by lia.
  - wstep. eapply wp_mono; [apply (wp_claim_range ((n, p) :: bs) h n p off len c 0); try done; [lia..|left|]|].
    { destruct c as [c|]; [|done]. destruct Hc. split; [done|]. unfold LIMIT in *. lia. }
    intros c' h' (Hh' & Hg & Hcl & _). destruct (grows_ptr _ _ _ _ Hg Hp) as [Hp' Hpb]. specialize (Hpb I).
    destruct (grows_nodes _ _ _ _ Hg Hbs) as [Hbs' Hbb]. specialize (Hbb (safe_None _)).
    apply wp_splice_tail; [done|done|lia|]. apply wp_ret.
    destruct (sub_ptr_ok h' p (off + len) (p_len p - (off + len))) as [Hsok Hsb]; [done|lia..|].
    split_and!; [done|done| |rewrite u32_fits by lia; lia|by rewrite nodes_bytes_cons, zslice_app_l by lia].
    split_and!.
    + constructor; [|done]. split_and!; cbn; [destruct Hg; lia|done|lia].
    + rewrite nodes_bytes_cons, Hsb, Hpb, Hbb, nodes_bytes_cons, zdrop_app_le by lia. by rewrite Hzp.
    + by exists O.
    + intros m q [[= -> ->]|Hin]%elem_of_cons; [|apply (within_self _ m); by right].
      exists n, p. split_and!; [left|done|]. unfold pend, sub_ptr. cbn. lia.
  - rewrite (u32_fits (p_len p - off)) by lia. set (m := p_len p - off) in *.
    wstep. eapply wp_mono; [apply (wp_claim_range ((n, p) :: bs) h n p off m c (len - m)); try done; [lia..|left|]|].
    { by replace (m + (len - m)) with len by lia. }
    intros c' h' (Hh' & Hg & Hcl & Hready). destruct (grows_nodes _ _ _ _ Hg Hbs) as [Hbs' Hbb]. specialize (Hbb (safe_None _)).
    rewrite (u32_fits (blen - p_len p)) by lia.
    eapply wp_mono; [apply (IH h'); try done; rewrite ?Hbb; try lia|].
    { destruct bs as [|[n2 p2] bs]; [done|]. apply Forall_cons in Hbs as [(_ & _ & Hpos2) _]. done. }
    intros [[bs2 blen2] c2] h2 (Hh2 & Hg2 & (C1 & C2 & [k C3] & C4) & -> & Hcl2). cbn [Z.add] in *.
    assert (∀ q, within bs q → within ((n, p) :: bs) q) as Hin by (intros q; apply within_mono; intros; by right).
    split_and!; [done|by eapply grows_trans| |lia|].
    + split_and!; [done| |exists (S k); by rewrite C3|].
      * rewrite C2, Hbb, nodes_bytes_cons, zdrop_app_ge by lia. f_equal. lia.
      * intros i q Hq. apply Hin. by apply (C4 i).
    + rewrite nodes_bytes_cons, zslice_app_split by lia. rewrite Hzp, Hbb in *. fold m.
      replace (off + len - p_len p) with (len - m) by lia. by eapply claimed_trans.
Qed.

Lemma claimed_grows bs d h h1 len c h2 c2 :
  grows None h h1 → claim_ready h len c → claimed bs d h1 c h2 c2 → claimed bs d h c h2 c2.
Proof.
  intros Hg Hr Hcl. destruct c as [c|], c2 as [c2|]; try done. destruct Hr as [Hc _].
  destruct (grows_blist _ _ _ Hg Hc) as [_ E]. destruct Hcl as [[S1 S2 S3 S4 S5 S6] Hcc]. rewrite E in Hcc.
  assert (h_next h ≤ h_next h1) by apply Hg. split; [|done]. split; try done.
  - by eapply grows_trans.
  - intros n q Hq. destruct (S4 n q Hq) as [?|?]; [left; by eapply fresh_mono|by right].
  - intros n Hn. destruct (S5 n Hn) as [?|?]; [by left|right; lia].
Qed.

Lemma NoDup_suffix {A} k (l : list A) : NoDup l → NoDup (drop k l).
Proof. intros H. rewrite <- (take_drop k l) in H. by apply NoDup_app in H as (_ & _ & ?). Qed.

Lemma claim_ready_grows h h1 len c : grows None h h1 → claim_ready h len c → claim_ready h1 len c.
Proof. intros Hg. destruct c as [c|]; [|done]. intros [Hc ?]. split; [|done]. by eapply grows_blist. Qed.

(** The first half of [splice]: what is kept of the buffer that is cut into. *)
Lemma wp_splice_front h b before rest off blen :
  heap_ok h → blist_ok h b → b_buffers b = before ++ rest → 0 ≤ off → blen = b_len b →
  match rest with [] => off = 0 | (_, p) :: _ => off < p_len p end →
  wp (if off =? 0 then mret (before, blen)
      else match rest with
           | (_, p) :: _ => t ← ptr_sub p 0 off; n ← new_node; mret (before ++ [(n, t)], u32 (blen + off))
           | [] => undefined
           end) h
    (λ '(before', blen') h', heap_ok h' ∧ grows None h h' ∧ Forall (node_ok h') before' ∧
      nodes_bytes h' before' = nodes_bytes h before ++ zslice 0 off (nodes_bytes h rest) ∧ blen' = b_len b + off ∧
      (∀ n q, (n, q) ∈ before' → within (b_buffers b) q) ∧
      (∃ ns, before'.*1 = before.*1 ++ ns ∧ NoDup ns ∧ ∀ n, n ∈ ns → h_next h ≤ n)).
Proof.
  intros Hh Hb Hsplit Ho -> Hhead. pose proof (bo_nodes _ _ Hb) as Hbs. rewrite Hsplit in Hbs.
  apply Forall_app in Hbs as [Hb1 Hb2]. pose proof (b_len_nonneg _ _ Hb). pose proof (bo_limit _ _ Hb).
  assert (∀ n q, (n, q) ∈ before → within (b_buffers b) q) as Hin.
  { intros n q Hq. apply (within_self _ n). rewrite Hsplit. apply elem_of_app. by left. }
  destruct (Z.eqb_spec off 0) as [->|Hz].
  { apply wp_ret. split_and!; try done; [apply grows_refl|by rewrite zslice_0, app_nil_r|lia|].
    exists []. split_and!; [by rewrite app_nil_r|constructor|by intros n ?%not_elem_of_nil]. }
  destruct rest as [|[n0 p] rest]; [done|]. apply Forall_cons in Hb2 as [(Hn0 & Hp & Hpos) _]. cbn in Hn0, Hp, Hpos.
  wstep. apply wp_ptr_sub; [done|done|lia..|]. destruct (sub_ptr_ok h p 0 off) as [Hsok Hsb]; [done|lia..|].
  wstep. apply wp_new_node; [done|]. intros h1 Hh1 Hg1 Hn1 _. apply wp_ret.
  destruct (grows_nodes _ _ _ _ Hg1 Hb1) as [Hb1' Hbb1]. specialize (Hbb1 (safe_None _)).
  destruct (grows_ptr _ _ _ _ Hg1 Hsok) as [Hsok1 Hsb1]. specialize (Hsb1 I).
  pose proof (zlen_ptr_bytes h p Hp) as Hzp.
  assert (off ≤ b_len b) as Hoff.
  { rewrite (bo_len _ _ Hb). unfold contents. rewrite Hsplit, nodes_bytes_app, nodes_bytes_cons, !zlen_app, Hzp.
    pose proof (zlen_nonneg (nodes_bytes h before)). pose proof (zlen_nonneg (nodes_bytes h rest)). lia. }
  split_and!; try done.
  - apply Forall_app. split; [done|]. apply Forall_singleton. split_and!; cbn; [lia|done|lia].
  - rewrite nodes_bytes_app, nodes_bytes_single, Hsb1, Hsb, Hbb1, nodes_bytes_cons. by rewrite zslice_app_l by lia.
  - apply u32_fits. unfold LIMIT in *. lia.
  - intros n q. rewrite elem_of_app, list_elem_of_singleton. intros [?|[= -> ->]]; [by eapply Hin|].
    exists n0, p. split_and!; [rewrite Hsplit; apply elem_of_app; right; left|done|]. unfold pend, sub_ptr. cbn. lia.
  - exists [h_next h]. rewrite fmap_app. split_and!; [done|apply NoDup_singleton|].
    intros n ->%list_elem_of_singleton. lia.
Qed.

Lemma wp_splice h b off len c :
  heap_ok h → blist_ok h b → 0 ≤ off → 0 < len → off + len ≤ b_len b → claim_ready h len c →
  wp (list_splice off len c b) h (λ '(b', c') h', heap_ok h' ∧
    list_step (within (b_buffers b)) h b h' b' ∧
    contents h' b' = zslice 0 off (contents h b) ++ zdrop (off + len) (contents h b) ∧
    claimed (b_buffers b) (zslice off len (contents h b)) h c h' c' ∧
    (∀ c0 c1 n, c = Some c0 → c' = Some c1 → n ∈ (b_buffers b').*1 → n ∈ (b_buffers c1).*1 → n ∈ (b_buffers c0).*1)).
Proof.
  intros Hh Hb Hoff Hlen Hle Hc. pose proof (bo_limit _ _ Hb) as Hlim. pose proof (bo_len _ _ Hb) as Hbl.
  unfold list_splice. rewrite (proj2 (Z.eqb_neq len 0)) by lia. rewrite (proj2 (Z.leb_gt _ off)) by lia.
  pose proof (bo_nodes _ _ Hb) as Hbs.
  destruct (skip_nodes_spec h (b_buffers b) off Hbs) as (before & rest & off' & -> & Hsplit & -> & Ho' & Hhead).
  { change (nodes_bytes h (b_buffers b)) with (contents h b). lia. }
  pose proof Hbs as HF. rewrite Hsplit in HF. apply Forall_app in HF as [Hb1 Hb2].
  assert (contents h b = nodes_bytes h before ++ nodes_bytes h rest) as Hcb by (unfold contents; by rewrite Hsplit, nodes_bytes_app).
  pose proof (zlen_nonneg (nodes_bytes h before)). rewrite Hcb, zlen_app in Hbl. unfold LIMIT in *.
  wstep. eapply wp_mono; [by apply (wp_splice_front h b before rest off' (b_len b))|].
  intros [before' blen'] h1 (Hh1 & Hg1 & F1 & F2 & -> & F4 & ns & F5 & F6 & F7). cbv beta iota.
  destruct (grows_nodes _ _ _ _ Hg1 Hb2) as [Hb2' Hbb2]. specialize (Hbb2 (safe_None _)).
  wstep. eapply wp_mono.
  { apply (wp_splice_loop h1 rest off' len (b_len b + off') c); try done; rewrite ?Hbb2; unfold LIMIT; try lia.
    by eapply claim_ready_grows. }
  intros [[bs' blen''] c'] h2 (Hh2 & Hg2 & (C1 & C2 & [k C3] & C4) & -> & Hcl). apply wp_ret.
  destruct (grows_nodes _ _ _ _ Hg2 F1) as [F1' F2']. specialize (F2' (safe_None _)).
  assert (grows None h h2) as Hg by (by eapply grows_trans). rewrite Hbb2 in C2, Hcl.
  assert (nodes_bytes h2 (before' ++ bs') =
    zslice 0 (zlen (nodes_bytes h before) + off') (contents h b) ++ zdrop (zlen (nodes_bytes h before) + off' + len) (contents h b)) as Hcont.
  { rewrite nodes_bytes_app, F2', F2, C2, Hcb. rewrite zslice_app_split, Z.sub_0_r, zslice_all, Z.add_0_l by lia.
    rewrite zdrop_app_ge by lia. f_equal; [do 2 f_equal; lia|f_equal; lia]. }
  assert (zlen (nodes_bytes h2 (before' ++ bs')) = b_len b + off' - (off' + len)) as Hz.
  { rewrite Hcont, zlen_app, zlen_zslice, zlen_zdrop by (rewrite ?Hcb, ?zlen_app; lia). rewrite Hcb, zlen_app. lia. }
  pose proof (bo_nodup _ _ Hb) as Hnd. rewrite Hsplit, fmap_app in Hnd. apply NoDup_app in Hnd as (N1 & N2 & N3).
  split_and!; [done| |exact Hcont| |].
  - split; [done|done| | | |done].
    + apply set_last_p_ok, blist_ok_intro; [by apply Forall_app| |rewrite Hz; unfold LIMIT; lia| |done].
      * rewrite fmap_app, F5, C3. assert (∀ n, n ∈ drop k rest.*1 → n ∈ rest.*1) as Hdrop.
        { intros n Hn. rewrite <- (take_drop k rest.*1). apply elem_of_app. by right. }
        apply NoDup_app. split_and!; [|intros n [Hn|Hn%F7]%elem_of_app Hn2%Hdrop|by apply NoDup_suffix].
        -- apply NoDup_app. split_and!; [done| |done]. intros n Hn Hn2%F7. apply (node_new h b n Hb); [lia|].
           rewrite Hsplit, fmap_app. apply elem_of_app. by left.
        -- by apply (N2 n).
        -- apply (node_new h b n Hb); [lia|]. rewrite Hsplit, fmap_app. apply elem_of_app. by right.
      * eapply append_ok_grows; [done|apply Hb].
    + intros n q. cbn. rewrite elem_of_app. intros [Hq|Hq]; right; apply below_refl; [by apply (F4 n)|].
      destruct (C4 n q Hq) as (n1 & p1 & ? & ? & ?). exists n1, p1. split; [rewrite Hsplit; apply elem_of_app; by right|done].
    + intros n. cbn. rewrite fmap_app, F5, C3, !elem_of_app, Hsplit, fmap_app, elem_of_app.
      intros [[?|?%F7]|Hn]; [by left; left|by right|left; right].
      rewrite <- (take_drop k rest.*1). apply elem_of_app. by right.
  - rewrite Hcb, zslice_app_r by lia. replace (_ + off' - _) with off' by lia.
    apply (claimed_grows _ _ h h1 len); [done..|]. destruct c as [c|], c' as [c'|]; try done. destruct Hcl as [Hcl Hcc].
    split; [|done]. destruct Hcl as [S1 S2 S3 S4 S5 S6]. split; try done.
    intros n q Hq. destruct (S4 n q Hq) as [?|Hbe]; [by left|right]. eapply below_mono; [|exact Hbe].
    intros x [?|Hx]; [by left|right]. eapply within_mono; [|exact Hx]. intros. rewrite Hsplit. apply elem_of_app. by right.
  - intros c0 c1 n -> -> Hn Hn1. destruct Hcl as [Hcl _]. destruct (ls_nodes _ _ _ _ _ Hcl n Hn1) as [?|Hge]; [done|].
    exfalso. cbn in Hn. rewrite fmap_app, elem_of_app, C3 in Hn.
    assert (∀ bs n, Forall (node_ok h1) bs → n ∈ bs.*1 → n < h_next h1) as Hlt.
    { clear. intros bs n HF Hn. apply list_elem_of_fmap in Hn as (nd & -> & Hn). eapply Forall_forall in HF; [|exact Hn]. by destruct HF. }
    destruct Hn as [Hn|Hn]; [pose proof (Hlt _ _ F1 Hn); lia|].
    assert (n ∈ rest.*1) as Hnr by (rewrite <- (take_drop k rest.*1); apply elem_of_app; by right).
    pose proof (Hlt _ _ Hb2' Hnr). lia.
Qed.

(** ** A block of zeros *)

Lemma zlen_zeros l : 0 ≤ l → zlen (zeros l) = l.
Proof. intros. unfold zeros, zlen. rewrite length_replicate. lia. Qed.

Lemma wp_append_zero h b len :
  heap_ok h → blist_ok h b → 0 ≤ len → b_len b + len < LIMIT →
  wp (list_append_zero len b) h (λ b' h',
    list_step (ptrs_of b) h b h' b' ∧ contents h' b' = contents h b ++ zeros len ∧ b_last_p b' = b_last_p b ∧
    extends (b_buffers b) (b_buffers b')).
Proof.
  intros Hh Hb Hl Hlen. pose proof (b_len_nonneg _ _ Hb). unfold list_append_zero, ptr_create. wstep. wstep.
  apply wp_create; [done|lia|]. intros h1 d Hh1 Hg1 Hn1 Hd Hr. apply wp_ret.
  set (bp := Mk_ptr _ _ _). wstep. unfold ptr_zero, raw_deref. cbn [p_raw p_off p_len bp]. wstep. apply wp_ret.
  apply (wp_mem_write _ _ (Mk_raw d true)); [done|lia|cbn; rewrite zlen_zeros; lia|].
  destruct (heap_write_ok h1 (h_next h) 0 (zeros len) (Mk_raw d true)) as [Hh2 Hg2]; [done..|cbn; rewrite zlen_zeros; lia|].
  set (h2 := heap_write _ _ _ _ _) in *.
  assert (h_raws h2 !! h_next h = Some (Mk_raw (zeros len) true)) as Hw.
  { cbn. rewrite lookup_insert_eq. cbn. rewrite zwrite_all; [done|]. rewrite zlen_zeros by done. done. }
  assert (grows None h h2) as Hg by (by eapply grows_new).
  assert (ptr_ok h2 bp ∧ ptr_bytes h2 bp = zeros len) as [Hok Hbytes].
  { split; [exists (h_next h), (Mk_raw (zeros len) true); unfold pend; cbn; rewrite zlen_zeros by done; split_and!; try done; lia|].
    unfold ptr_bytes, bp. cbn [p_raw p_off p_len]. rewrite Hw. cbn [r_data].
    rewrite <- (zlen_zeros len) at 1 by done. apply zslice_all. }
  destruct (grows_blist _ _ _ Hg Hb) as [Hb2 Hc2].
  assert (list_append_ptr bp b = list_push_back bp b) as ->.
  { unfold list_append_ptr, list_push_back. cbn. by destruct (len =? 0). }
  eapply wp_mono; [by apply (wp_push_back h2 b bp)|]. intros b' h' (Hst & Hc & Hlp & bs & Hbs & _).
  rewrite Hc2, Hbytes in Hc. split_and!; try done; [|rewrite Hbs; apply extends_app].
  assert (h_next h ≤ h_next h2) by apply Hg. destruct Hst as [S1 S2 S3 S4 S5 S6]. split; try done.
  - by eapply grows_trans.
  - intros n q Hq. destruct (S4 n q Hq) as [?|(q0 & [Hq0| ->] & Hqr & Hqe)]; [left; by eapply fresh_mono| |].
    + right. exists q0. done.
    + left. exists (h_next h). split; [done|lia].
  - intros n Hn. destruct (S5 n Hn) as [?|?]; [by left|right; lia].
Qed.
