(* ===== verification/BufferIter.v ===== *)
(** * Iterators over shared buffers

    An iterator at an offset of a list copies the bytes that follow and throws
    [end_of_buffer] when there are not enough of them ([iter_copy_spec]).  The
    iterator [last_p] that a list keeps between calls is at its offset after the
    operations that add to the end ([last_p_extends]), so that [copy] finds its
    place ([list_copy_spec]); [push_front] and [operator=] leave it where it was
    ([push_front_stale], [assign_dangling]). *)

From stdpp Require Import gmap.
From S2P Require Import Prelude StdMap Buffer BufferFacts.
#[local] Open Scope Z_scope.
#[local] Open Scope str_scope.

(** ** Positions *)

Fixpoint plen_sum (bs : list node) : Z :=
  match bs with [] => 0 | (_, p) :: bs => p_len p + plen_sum bs end.

Lemma plen_sum_bytes h bs : Forall (node_ok h) bs → zlen (nodes_bytes h bs) = plen_sum bs.
Proof. induction 1 as [|[n p] bs Hp _ IH]; [done|]. by rewrite zlen_nodes_cons, IH. Qed.

Lemma plen_sum_app bs cs : plen_sum (bs ++ cs) = plen_sum bs + plen_sum cs.
Proof. induction bs as [|[n p] bs IH]; cbn; lia. Qed.

Definition head_ok (suf : list node) (poff : Z) : Prop :=
  match suf with [] => poff = 0 | (_, p) :: _ => poff < p_len p end.

(** The iterator is at the offset [o] of the list, with [suf] before it. *)
Definition iter_in (b : blist) (suf : list node) (it : iter) (o : Z) : Prop :=
  ∃ pre, b_buffers b = pre ++ suf ∧ i_p it = fst <$> head suf ∧ i_off it = o ∧ o = plen_sum pre + i_poff it ∧
    0 ≤ i_poff it ∧ head_ok suf (i_poff it).

Definition iter_at (b : blist) (it : iter) (o : Z) : Prop := ∃ suf, iter_in b suf it o.

Lemma nodes_from_app pre n p suf :
  NoDup (pre ++ (n, p) :: suf).*1 → nodes_from n (pre ++ (n, p) :: suf) = Some ((n, p) :: suf).
Proof.
  induction pre as [|[m q] pre IH]; cbn; intros Hnd; [by rewrite Z.eqb_refl|].
  apply NoDup_cons in Hnd as [Hm Hnd]. destruct (Z.eqb_spec m n) as [->|]; [|by apply IH].
  destruct Hm. rewrite fmap_app. apply elem_of_app. right. left.
Qed.

Lemma iter_nodes_in h b suf it o : blist_ok h b → iter_in b suf it o → iter_nodes b (i_p it) = Some suf.
Proof.
  intros Hb (pre & Hsplit & Hp & _). unfold iter_nodes. rewrite Hp. destruct suf as [|[n p] suf]; [done|]. cbn.
  rewrite Hsplit. apply nodes_from_app. rewrite <- Hsplit. apply Hb.
Qed.

Lemma iter_ptr_in h b n p suf it o :
  blist_ok h b → iter_in b ((n, p) :: suf) it o → iter_ptr b it = mret p.
Proof.
  intros Hb Hi. pose proof (iter_nodes_in _ _ _ _ _ Hb Hi) as Hn. destruct Hi as (pre & _ & Hp & _).
  unfold iter_ptr. rewrite Hp in *. cbn in *. by rewrite Hn.
Qed.

(** The loop of [advance], from a position in the first of the nodes. *)
Lemma advance_loop_spec h bs poff :
  Forall (node_ok h) bs → 0 ≤ poff →
  match advance_loop bs poff with
  | Some (suf, poff') => ∃ pre, bs = pre ++ suf ∧ poff = plen_sum pre + poff' ∧ 0 ≤ poff' ∧ head_ok suf poff'
  | None => plen_sum bs < poff
  end.
Proof.
  intros Hbs. revert poff. induction Hbs as [|[n p] bs (_ & _ & Hpos) Hbs IH]; intros poff Hp; cbn.
  { destruct (Z.eqb_spec poff 0) as [->|]; [by exists []|lia]. }
  cbn in Hpos. destruct (Z.eqb_spec poff 0) as [->|].
  { exists []. cbn. split_and!; [done|lia|lia|lia]. }
  destruct (Z.leb_spec (p_len p) poff).
  - specialize (IH (poff - p_len p) ltac:(lia)). destruct (advance_loop bs (poff - p_len p)) as [[suf poff']|].
    + destruct IH as (pre & -> & E & ? & ?). exists ((n, p) :: pre). cbn. split_and!; [done|lia|done|done].
    + lia.
  - exists []. cbn. split_and!; [done|lia|lia|lia].
Qed.

Lemma b_len_plen h b : blist_ok h b → b_len b = plen_sum (b_buffers b).
Proof. intros Hb. rewrite (bo_len _ _ Hb). apply plen_sum_bytes, Hb. Qed.

Lemma iter_in_bounds h b suf it o : blist_ok h b → iter_in b suf it o → 0 ≤ o ≤ b_len b ∧ plen_sum suf = b_len b - o + i_poff it.
Proof.
  intros Hb (pre & Hsplit & _ & _ & -> & Hp & Hh). rewrite (b_len_plen h b Hb), Hsplit, plen_sum_app.
  pose proof (bo_nodes _ _ Hb) as HF. rewrite Hsplit in HF. apply Forall_app in HF as [H1 H2].
  pose proof (plen_sum_bytes _ _ H1). pose proof (plen_sum_bytes _ _ H2).
  pose proof (zlen_nonneg (nodes_bytes h pre)). destruct suf as [|[n p] suf]; cbn in *; [lia|].
  pose proof (plen_sum_bytes _ _ (Forall_inv_tail H2)). pose proof (zlen_nonneg (nodes_bytes h suf)). lia.
Qed.

(** [advance] by a positive amount: to the new offset, or past the end. *)
Lemma advance_spec h b suf it o k :
  blist_ok h b → iter_in b suf it o → 0 < k → k < 2 ^ 31 →
  if o + k <=? b_len b
  then ∃ it' suf' pre, iter_advance b k it h = (Ok it', h) ∧ iter_in b suf' it' (o + k) ∧ suf = pre ++ suf' ∧
       k + i_poff it = plen_sum pre + i_poff it'
  else iter_advance b k it h = (Throw, h).
Proof.
  intros Hb Hi Hk Hk2. destruct (iter_in_bounds _ _ _ _ _ Hb Hi) as [Hbo Hsum]. pose proof (bo_limit _ _ Hb) as Hlim.
  unfold iter_advance. rewrite (proj2 (Z.ltb_lt 0 k) Hk), (iter_nodes_in _ _ _ _ _ Hb Hi).
  destruct Hi as (pre & Hsplit & Hp & Hoff & Ho & Hpo & Hh). unfold LIMIT in *.
  pose proof (bo_nodes _ _ Hb) as HF. rewrite Hsplit in HF. apply Forall_app in HF as [HF1 HF2].
  assert (0 ≤ plen_sum pre) by (rewrite <- (plen_sum_bytes h) by done; apply zlen_nonneg).
  rewrite (u32_fits (i_poff it + k)) by lia.
  pose proof (advance_loop_spec h suf (i_poff it + k) HF2 ltac:(lia)) as Hadv.
  destruct (advance_loop suf (i_poff it + k)) as [[suf' poff']|].
  - destruct Hadv as (pre' & -> & E & Hp' & Hh'). rewrite plen_sum_app in Hsum.
    assert (poff' ≤ plen_sum suf') as Hge.
    { pose proof HF2 as [_ HF3]%Forall_app. destruct suf' as [|[m q] suf']; cbn in *; [lia|].
      pose proof (plen_sum_bytes _ _ (Forall_inv_tail HF3)). pose proof (zlen_nonneg (nodes_bytes h suf')). lia. }
    rewrite (proj2 (Z.leb_le _ _)) by lia.
    eexists _, suf', pre'. split; [done|]. cbn. split_and!; [|done|lia].
    exists (pre ++ pre'). cbn. rewrite plen_sum_app, Hoff. split_and!; [by rewrite <- app_assoc|done| |lia|done|done].
    apply u32_fits. lia.
  - rewrite (proj2 (Z.leb_gt _ _)) by lia. done.
Qed.

Lemma begin_at h b : blist_ok h b → iter_in b (b_buffers b) (list_begin b) 0.
Proof.
  intros Hb. exists []. cbn. split_and!; try done. pose proof (bo_nodes _ _ Hb) as HF.
  destruct (b_buffers b) as [|[n p] bs]; cbn; [done|]. by apply Forall_cons in HF as [(_ & _ & ?) _].
Qed.

Lemma seek_spec h b o :
  blist_ok h b → 0 ≤ o < 2 ^ 31 →
  if o <=? b_len b then ∃ it, iter_seek b o h = (Ok it, h) ∧ iter_at b it o else iter_seek b o h = (Throw, h).
Proof.
  intros Hb Ho. unfold iter_seek. rewrite (sgn_small 32) by (cbn; lia).
  pose proof (begin_at h b Hb) as Hbegin. destruct (Z.eq_dec o 0) as [->|Hz].
  - rewrite (proj2 (Z.leb_le _ _)) by (by eapply b_len_nonneg). exists (list_begin b). split; [done|]. by exists (b_buffers b).
  - pose proof (advance_spec h b _ _ 0 o Hb Hbegin ltac:(lia) ltac:(lia)) as Ha. rewrite Z.add_0_l in Ha.
    destruct (o <=? b_len b); [|done]. destruct Ha as (it & suf & pre & E & Hi & _). exists it. split; [done|]. by exists suf.
Qed.

(** ** Copying out *)

Lemma bind_ok {A B} (m : M A) (f : A → M B) h a h' : m h = (Ok a, h') → (m ≫= f) h = f a h'.
Proof. intros E. unfold mbind, M_bind. by rewrite E. Qed.

Lemma bind_throw {A B} (m : M A) (f : A → M B) h h' : m h = (Throw, h') → (m ≫= f) h = (Throw, h').
Proof. intros E. unfold mbind, M_bind. by rewrite E. Qed.

Lemma assert_ok (b : bool) h : b = true → assert_ b h = (Ok tt, h).
Proof. by intros ->. Qed.

Lemma wp_run {A} (m : M A) h a : wp m h (λ a' h', a' = a ∧ h' = h) → m h = (Ok a, h).
Proof. intros (a' & h' & E & -> & ->)%wp_ok. done. Qed.

(** The bytes at an offset, in the buffer the iterator is in. *)
Lemma slice_at h b n p suf it o l :
  blist_ok h b → iter_in b ((n, p) :: suf) it o → 0 ≤ l → l ≤ p_len p - i_poff it →
  zslice (i_poff it) l (ptr_bytes h p) = zslice o l (contents h b).
Proof.
  intros Hb (pre & Hsplit & _ & _ & -> & Hpo & _) ??. pose proof (bo_nodes _ _ Hb) as HF. rewrite Hsplit in HF.
  unfold contents. rewrite Hsplit. pose proof HF as [HF1 HF2]%Forall_app.
  rewrite <- (plen_sum_bytes h pre HF1), nodes_at_offset by done.
  apply Forall_cons in HF2 as [(_ & Hp & _) _]. rewrite nodes_bytes_cons, zslice_app_l; [done|done|done|].
  rewrite zlen_ptr_bytes by done. lia.
Qed.

(** What one turn of a copying loop takes and where it leaves the iterator. *)
Lemma turn_spec h b n p suf it o len :
  blist_ok h b → iter_in b ((n, p) :: suf) it o → 0 < len < 2 ^ 31 →
  let k := howmuch p it len in
  ptr_ok h p ∧ 0 < p_len p ∧ 0 ≤ i_poff it ∧ 0 < k ≤ len ∧ i_poff it + k ≤ p_len p ∧
  ∃ it' suf', iter_advance b k it h = (Ok it', h) ∧ iter_in b suf' it' (o + k) ∧ o + k ≤ b_len b ∧
    (k = len ∨ (length suf' ≤ length suf)%nat).
Proof.
  intros Hb Hi Hl k. destruct (iter_in_bounds _ _ _ _ _ Hb Hi) as [Hbo Hsum].
  pose proof Hi as (pre & Hsplit & _ & _ & Ho & Hpo & Hh). cbn in Hh. pose proof (bo_limit _ _ Hb) as Hlim. unfold LIMIT in *.
  pose proof (bo_nodes _ _ Hb) as HF. rewrite Hsplit in HF. apply Forall_app in HF as [_ HF2].
  apply Forall_cons in HF2 as [(_ & Hp & Hpos) HF3]. cbn in Hp, Hpos, Hsum.
  pose proof (plen_sum_bytes _ _ HF3). pose proof (zlen_nonneg (nodes_bytes h suf)).
  assert (k = Z.min len (p_len p - i_poff it)) as Hk.
  { unfold k, howmuch. rewrite u32_fits by lia. destruct (Z.ltb_spec len (p_len p - i_poff it)); lia. }
  split_and!; try done; try lia.
  pose proof (advance_spec h b _ it o k Hb Hi ltac:(lia) ltac:(lia)) as Ha.
  rewrite (proj2 (Z.leb_le (o + k) (b_len b))) in Ha by lia.
  destruct Ha as (it' & suf' & pre' & E & Hi' & Hpre & Hsum'). exists it', suf'. split_and!; try done; [lia|].
  destruct (Z.eq_dec k len) as [|Hne]; [by left|right]. destruct pre' as [|nd pre']; cbn in Hpre.
  - subst suf'. destruct Hi' as (_ & _ & _ & _ & _ & _ & Hh'). cbn in *. lia.
  - injection Hpre as _ ->. rewrite length_app. lia.
Qed.

Definition turns (suf : list node) (len : Z) : nat := if len =? 0 then 1 else S (length suf).

Lemma turns_next fuel suf suf' n p len k :
  (turns ((n, p) :: suf) len ≤ S fuel)%nat → 0 < len → 0 < k ≤ len → k = len ∨ (length suf' ≤ length suf)%nat →
  (turns suf' (len - k) ≤ fuel)%nat.
Proof.
  unfold turns. intros Hf Hl Hk Hor. rewrite (proj2 (Z.eqb_neq len 0)) in Hf by lia. cbn in Hf.
  destruct (Z.eqb_spec (len - k) 0); lia.
Qed.

Lemma copy_loop_spec h b fuel suf it o len :
  heap_ok h → blist_ok h b → iter_in b suf it o → 0 ≤ len < 2 ^ 31 → (turns suf len ≤ fuel)%nat →
  if o + len <=? b_len b
  then ∃ it', copy_loop fuel b len it h = (Ok (zslice o len (contents h b), it'), h) ∧ iter_at b it' (o + len)
  else copy_loop fuel b len it h = (Throw, h).
Proof.
  intros Hh Hb. revert suf it o len. induction fuel as [|fuel IH]; intros suf it o len Hi Hl Hf.
  { unfold turns in Hf. destruct (len =? 0); lia. }
  destruct (iter_in_bounds _ _ _ _ _ Hb Hi) as [Hbo Hsum]. cbn [copy_loop].
  destruct (Z.leb_spec len 0) as [Hz|Hz].
  { replace len with 0 by lia. rewrite Z.add_0_r, (proj2 (Z.leb_le _ _)) by lia. exists it. split; [done|]. by exists suf. }
  destruct suf as [|[n p] suf].
  { pose proof Hi as (pre & _ & Hp & _ & _ & _ & Hh0). cbn in Hp, Hh0, Hsum. unfold at_end. rewrite Hp. cbn [fmap option_fmap option_map].
    rewrite (proj2 (Z.leb_gt (o + len) (b_len b))) by lia. done. }
  destruct (turn_spec h b n p suf it o len Hb Hi ltac:(lia)) as (Hp & Hpos & Hpo & Hk & Hfit & it' & suf' & Hadv & Hi' & Hle & Hor).
  set (k := howmuch p it len) in *.
  assert (at_end it = false) as -> by (destruct Hi as (pre & _ & E & _); unfold at_end; by rewrite E).
  rewrite (bind_ok _ _ _ p h) by (by rewrite (iter_ptr_in _ _ _ _ _ _ _ Hb Hi)).
  rewrite (bind_ok _ _ _ tt h) by (by apply assert_ok, Z.ltb_lt). cbn zeta. fold k.
  rewrite (bind_ok _ _ _ (zslice o k (contents h b)) h).
  2: { apply wp_run, wp_ptr_copy_out; try done; try lia. split; [|done]. apply (slice_at h b n p suf it o k Hb Hi); lia. }
  rewrite (bind_ok _ _ _ it' h) by done.
  specialize (IH suf' it' (o + k) (len - k) Hi' ltac:(lia) ltac:(by eapply turns_next)).
  replace (o + k + (len - k)) with (o + len) in IH by lia. destruct (o + len <=? b_len b).
  - destruct IH as (it2 & E & Hat). exists it2. split; [|done]. rewrite (bind_ok _ _ _ _ _ E). cbv beta iota.
    rewrite zslice_app by lia. by replace (k + (len - k)) with len by lia.
  - by rewrite (bind_throw _ _ _ _ IH).
Qed.

Lemma copy_string_loop_spec h b fuel suf it o len :
  heap_ok h → blist_ok h b → iter_in b suf it o → 0 ≤ len < 2 ^ 31 → (turns suf len ≤ fuel)%nat →
  if o + len <=? b_len b
  then ∃ it', copy_string_loop fuel b len it h = (Ok (zslice o len (contents h b), it'), h) ∧ iter_at b it' (o + len)
  else copy_string_loop fuel b len it h = (Throw, h).
Proof.
  intros Hh Hb. revert suf it o len. induction fuel as [|fuel IH]; intros suf it o len Hi Hl Hf.
  { unfold turns in Hf. destruct (len =? 0); lia. }
  destruct (iter_in_bounds _ _ _ _ _ Hb Hi) as [Hbo Hsum]. cbn [copy_string_loop].
  destruct (Z.leb_spec len 0) as [Hz|Hz].
  { replace len with 0 by lia. rewrite Z.add_0_r, (proj2 (Z.leb_le _ _)) by lia. exists it. split; [done|]. by exists suf. }
  destruct suf as [|[n p] suf].
  { pose proof Hi as (pre & _ & Hp & _ & _ & _ & Hh0). cbn in Hp, Hh0, Hsum. unfold at_end. rewrite Hp. cbn [fmap option_fmap option_map].
    rewrite (proj2 (Z.leb_gt (o + len) (b_len b))) by lia. done. }
  destruct (turn_spec h b n p suf it o len Hb Hi ltac:(lia)) as (Hp & Hpos & Hpo & Hk & Hfit & it' & suf' & Hadv & Hi' & Hle & Hor).
  set (k := howmuch p it len) in *.
  assert (at_end it = false) as -> by (destruct Hi as (pre & _ & E & _); unfold at_end; by rewrite E).
  rewrite (bind_ok _ _ _ p h) by (by rewrite (iter_ptr_in _ _ _ _ _ _ _ Hb Hi)). cbn zeta. fold k.
  rewrite (bind_ok _ _ _ (zslice o k (contents h b)) h).
  2: { apply wp_run, wp_ptr_read; try done; try lia. split; [|done]. apply (slice_at h b n p suf it o k Hb Hi); lia. }
  rewrite (bind_ok _ _ _ it' h) by done.
  specialize (IH suf' it' (o + k) (len - k) Hi' ltac:(lia) ltac:(by eapply turns_next)).
  replace (o + k + (len - k)) with (o + len) in IH by lia. destruct (o + len <=? b_len b).
  - destruct IH as (it2 & E & Hat). exists it2. split; [|done]. rewrite (bind_ok _ _ _ _ _ E). cbv beta iota.
    rewrite zslice_app by lia. by replace (k + (len - k)) with len by lia.
  - by rewrite (bind_throw _ _ _ _ IH).
Qed.

(** A position the copying functions accept: the offset is found again when
    the iterator was left at the end. *)
Definition iter_ready (b : blist) (it : iter) : Prop := at_end it = true ∧ 0 ≤ i_off it < 2 ^ 31 ∨ iter_at b it (i_off it).

Lemma reseek_spec h b it :
  blist_ok h b → iter_ready b it →
  if i_off it <=? b_len b then ∃ it', iter_reseek b it h = (Ok it', h) ∧ iter_at b it' (i_off it)
  else iter_reseek b it h = (Throw, h).
Proof.
  intros Hb [[He Ho]|Hat]; unfold iter_reseek.
  - rewrite He. by apply seek_spec.
  - pose proof Hat as [suf Hi]. destruct (iter_in_bounds _ _ _ _ _ Hb Hi) as [Hbo _].
    destruct (at_end it); [apply seek_spec; [done|]; pose proof (bo_limit _ _ Hb); unfold LIMIT in *; lia|].
    rewrite (proj2 (Z.leb_le _ _)) by lia. by exists it.
Qed.

Lemma turns_fuel b suf it o len : iter_in b suf it o → (turns suf len ≤ loop_fuel b)%nat.
Proof.
  intros (pre & Hsplit & _). unfold turns, loop_fuel. rewrite Hsplit, length_app. destruct (len =? 0); lia.
Qed.

Lemma iter_copy_run h b it len :
  heap_ok h → blist_ok h b → iter_ready b it → 0 ≤ len < 2 ^ 31 →
  if i_off it + len <=? b_len b
  then ∃ it', iter_copy b len it h = (Ok (zslice (i_off it) len (contents h b), it'), h) ∧ iter_at b it' (i_off it + len)
  else iter_copy b len it h = (Throw, h).
Proof.
  intros Hh Hb Hr Hl. unfold iter_copy. pose proof (reseek_spec h b it Hb Hr) as Hs.
  destruct (Z.leb_spec (i_off it) (b_len b)) as [Hle|Hgt].
  - destruct Hs as (it1 & E & suf & Hi). rewrite (bind_ok _ _ _ _ _ E).
    apply (copy_loop_spec h b _ suf it1 (i_off it) len); try done. by eapply turns_fuel.
  - rewrite (proj2 (Z.leb_gt _ _)) by lia. by rewrite (bind_throw _ _ _ _ Hs).
Qed.

(** ** The cached iterator *)

(** [last_p] is at its offset, or at the end from where it is found again. *)
Definition last_p_ok (b : blist) : Prop := iter_ready b (b_last_p b).

Lemma iter_at_extends bs bs' it pre suf :
  extends bs bs' → bs = pre ++ suf → suf ≠ [] → i_p it = fst <$> head suf → head_ok suf (i_poff it) →
  ∃ suf', bs' = pre ++ suf' ∧ i_p it = fst <$> head suf' ∧ head_ok suf' (i_poff it).
Proof.
  intros Hext. revert pre suf. induction Hext as [cs|n l l' cs Hl|nd bs cs Hext IH]; intros pre suf Hbs Hne Hp Hh.
  - symmetry in Hbs. by apply app_nil in Hbs as [? ?].
  - destruct pre as [|nd pre]; cbn in Hbs.
    + subst suf. exists ((n, l') :: cs). cbn in *. split_and!; [done..|lia].
    + injection Hbs as _ Hbs. symmetry in Hbs. by apply app_nil in Hbs as [_ ?].
  - destruct pre as [|nd' pre]; cbn in Hbs.
    + subst suf. exists (nd :: cs). by destruct nd.
    + injection Hbs as <- ->. destruct (IH pre suf) as (suf' & -> & ? & ?); [done..|]. by exists suf'.
Qed.

Lemma last_p_extends h b b' :
  blist_ok h b → last_p_ok b → extends (b_buffers b) (b_buffers b') → b_last_p b' = b_last_p b → last_p_ok b'.
Proof.
  intros Hb Hok Hext Hlp. unfold last_p_ok, iter_ready in *. rewrite Hlp.
  destruct Hok as [?|[suf Hi]]; [by left|]. destruct (iter_in_bounds _ _ _ _ _ Hb Hi) as [Hbo _].
  pose proof (bo_limit _ _ Hb). unfold LIMIT in *.
  destruct Hi as (pre & Hsplit & Hp & Ho & Hsum & Hpo & Hh). destruct suf as [|nd suf].
  - left. split; [unfold at_end; by rewrite Hp|lia].
  - right. destruct (iter_at_extends _ _ _ _ _ Hext Hsplit ltac:(done) Hp Hh) as (suf' & Hs' & Hp' & Hh').
    exists suf', pre. done.
Qed.

Lemma begin_last_p h b : blist_ok h b → last_p_ok (set_last_p (list_begin b) b).
Proof. intros Hb. right. exists (b_buffers b). destruct (begin_at h b Hb) as (pre & ?). by exists pre. Qed.

Lemma list_copy_run h b off len :
  heap_ok h → blist_ok h b → last_p_ok b → 0 ≤ off → 0 ≤ len → off + len < 2 ^ 31 →
  if off + len <=? b_len b
  then ∃ b', list_copy off len b h = (Ok (zslice off len (contents h b), b'), h) ∧
       b' = set_last_p (b_last_p b') b ∧ last_p_ok b'
  else list_copy off len b h = (Throw, h).
Proof.
  intros Hh Hb Hlp Ho Hl Hs. unfold list_copy. rewrite u32_fits by lia.
  destruct (Z.leb_spec (off + len) (b_len b)) as [Hle|Hgt]; [|by rewrite (proj2 (Z.ltb_lt _ _)) by lia].
  rewrite (proj2 (Z.ltb_ge _ _)) by lia.
  assert (∃ it, last_p_at b off h = (Ok it, h) ∧ iter_ready b it ∧ i_off it = off) as (it & E & Hr & Hoff).
  { unfold last_p_at. destruct (Z.eqb_spec (i_off (b_last_p b)) off) as [Heq|_]; [by eexists|].
    pose proof (seek_spec h b off Hb ltac:(lia)) as Hsk. rewrite (proj2 (Z.leb_le _ _)) in Hsk by lia.
    destruct Hsk as (it & E & suf & Hi). exists it. assert (i_off it = off) as Hi_off by (by destruct Hi as (? & ? & ? & ? & _)).
    split_and!; [done| |done]. right. rewrite Hi_off. by exists suf. }
  rewrite (bind_ok _ _ _ _ _ E). pose proof (iter_copy_run h b it len Hh Hb Hr ltac:(lia)) as Hc.
  rewrite Hoff, (proj2 (Z.leb_le _ _)) in Hc by lia. destruct Hc as (it' & Ec & Hat). rewrite (bind_ok _ _ _ _ _ Ec).
  eexists. split; [done|]. split; [done|]. right. cbn. destruct Hat as [suf Hi].
  assert (i_off it' = off + len) as -> by (by destruct Hi as (? & ? & ? & ? & _)).
  destruct Hi as (pre & ?). exists suf. by exists pre.
Qed.

(** ** Concrete runs *)

Definition heap0 : heap := Mk_heap 0 ∅ (λ _ _, chr 0).

(** The result of a run from an empty heap. *)
Definition run0 {A} (m : M A) : res A := fst (m heap0).

Lemma heap0_ok : heap_ok heap0.
Proof. intros r w Hr. cbn in Hr. by rewrite lookup_empty in Hr. Qed.

Lemma list_new_ok h : blist_ok h list_new.
Proof. split; cbn; try done; [constructor|by left]. Qed.

Lemma list_new_own : own_ok list_new.
Proof. by intros q [n ?%not_elem_of_nil]. Qed.

Lemma append_new d :
  zlen d + CEPH_BUFFER_APPEND_SIZE < LIMIT →
  ∃ b h, list_append d list_new heap0 = (Ok b, h) ∧ heap_ok h ∧ blist_ok h b ∧ last_p_ok b ∧ contents h b = d.
Proof.
  intros Hd. pose proof (wp_list_append heap0 list_new d heap0_ok (list_new_ok _) list_new_own) as H.
  apply wp_ok in H as (b & h & E & Hst); [|cbn; unfold CEPH_BUFFER_APPEND_SIZE in *; lia|done].
  exists b, h. split; [exact E|]. clear E. split_and!; [apply Hst..| |apply Hst].
  apply (last_p_extends heap0 list_new); [apply list_new_ok| |apply Hst..]. left. split; [done|cbn; lia].
Qed.

Lemma demo_list :
  ∃ b h, list_append "abcdef" list_new heap0 = (Ok b, h) ∧ heap_ok h ∧ blist_ok h b ∧ last_p_ok b ∧ contents h b = "abcdef".
Proof. apply append_new. vm_compute. reflexivity. Qed.

(** ** Single bytes and comparison *)

Lemma nodes_at_spec h bs n :
  Forall (node_ok h) bs → 0 ≤ n < zlen (nodes_bytes h bs) →
  ∃ c, nodes_at n bs h = (Ok c, h) ∧ zslice n 1 (nodes_bytes h bs) = [c].
Proof.
  intros Hbs. revert n. induction Hbs as [|[m p] bs Hp Hbs IH]; intros n Hn.
  { change (zlen (nodes_bytes h [])) with 0 in Hn. lia. }
  rewrite zlen_nodes_cons in Hn by done. pose proof Hp as (_ & Hok & Hpos). cbn in Hok, Hpos.
  pose proof (zlen_ptr_bytes h p Hok) as Hz. cbn [nodes_at]. rewrite nodes_bytes_cons.
  destruct (Z.leb_spec (p_len p) n).
  - destruct (IH (n - p_len p)) as (c & E & Hs); [lia|]. exists c. split; [done|]. rewrite zslice_app_r by lia. by rewrite Hz.
  - rewrite zslice_app_l by lia. destruct Hok as (r & w & Hr & Hw & Ho & Hl & He). unfold pend in *.
    assert (zlen (zslice n 1 (ptr_bytes h p)) = 1) as Hone by (apply zlen_zslice; lia).
    destruct (zslice n 1 (ptr_bytes h p)) as [|c [|? ?]] eqn:E; [done| |].
    2: { rewrite !zlen_cons in Hone. pose proof (zlen_nonneg l). lia. }
    exists c. split; [|done]. unfold ptr_at, raw_of. rewrite Hr. rewrite (bind_ok _ _ _ r h) by done.
    rewrite (bind_ok _ _ _ tt h) by (apply assert_ok, Z.ltb_lt; lia).
    rewrite (bind_ok _ _ _ [c] h); [done|]. unfold mem_read. rewrite Hw, in_bounds_true by lia.
    by rewrite (ptr_bytes_sub h p r w), E by (done || lia).
Qed.

(** The bytes from a position in the first of the nodes. *)
Definition rest_bytes (h : heap) (bs : list node) (off : Z) : bytes := zdrop off (nodes_bytes h bs).

Lemma zdrop_split o l d : 0 ≤ o → 0 ≤ l → zdrop o d = zslice o l d ++ zdrop (o + l) d.
Proof.
  intros. unfold zdrop, zslice. rewrite Z2Nat.inj_add, <- drop_drop by done. by rewrite take_drop.
Qed.

(** After [l] bytes, the position is in the same buffer or at the start of the next. *)
Definition step_off (n : Z) (p : ptr) (bs : list node) (o : Z) : list node * Z :=
  if o =? p_len p then (bs, 0) else ((n, p) :: bs, o).

Lemma rest_cut h n p bs o l :
  ptr_ok h p → 0 ≤ o → 0 ≤ l → o + l ≤ p_len p →
  rest_bytes h ((n, p) :: bs) o = zslice o l (ptr_bytes h p) ++
    rest_bytes h (step_off n p bs (o + l)).1 (step_off n p bs (o + l)).2.
Proof.
  intros Hp Ho Hl Hle. pose proof (zlen_ptr_bytes h p Hp) as Hz. unfold rest_bytes, step_off. rewrite nodes_bytes_cons.
  rewrite (zdrop_split o l) by done. rewrite zslice_app_l by lia. f_equal.
  destruct (Z.eqb_spec (o + l) (p_len p)) as [He|He]; cbn [fst snd]; [|by rewrite nodes_bytes_cons].
  rewrite zdrop_app_ge by lia. f_equal. lia.
Qed.

Lemma step_off_ok h n p bs o l :
  Forall (node_ok h) ((n, p) :: bs) → 0 ≤ o → 0 < l → o + l ≤ p_len p →
  let r := step_off n p bs (o + l) in
  Forall (node_ok h) r.1 ∧ 0 ≤ r.2 ∧ head_ok r.1 r.2 ∧ (length r.1 ≤ S (length bs))%nat ∧
  (o + l = p_len p → length r.1 = length bs).
Proof.
  intros HF Ho Hl Hle r. pose proof HF as [_ HF']%Forall_cons. unfold r, step_off.
  destruct (Z.eqb_spec (o + l) (p_len p)) as [He|He]; cbn [fst snd]; split_and!; try done; try lia.
  - destruct bs as [|[m q] bs]; [done|]. by apply Forall_cons in HF' as [(_ & _ & ?) _].
  - cbn. lia.
Qed.

Lemma equal_loop_spec h fuel a b aoff boff :
  heap_ok h → Forall (node_ok h) a → Forall (node_ok h) b → (length a + length b < fuel)%nat →
  0 ≤ aoff → 0 ≤ boff → head_ok a aoff → head_ok b boff → zlen (rest_bytes h a aoff) = zlen (rest_bytes h b boff) →
  equal_loop fuel a b aoff boff h = (Ok (bool_decide (rest_bytes h a aoff = rest_bytes h b boff)), h).
Proof.
  intros Hh. revert a b aoff boff. induction fuel as [|fuel IH]; intros a b aoff boff Ha Hb Hf Hao Hbo Hha Hhb Hlen; [lia|].
  assert (∀ bs o, Forall (node_ok h) bs → head_ok bs o → 0 ≤ o → zlen (rest_bytes h bs o) = zlen (nodes_bytes h bs) - o) as Hrl.
  { intros bs o Hbs Hho Ho. unfold rest_bytes. apply zlen_zdrop. destruct bs as [|[n p] bs]; cbn in Hho.
    - subst o. change (zlen (nodes_bytes h [])) with 0. lia.
    - rewrite zlen_nodes_cons by (by apply Forall_cons in Hbs as [? _]). pose proof (zlen_nonneg (nodes_bytes h bs)). lia. }
  cbn [equal_loop]. destruct a as [|[n p] a'].
  { cbn in Hha. subst aoff. rewrite (Hrl [] 0), (Hrl b boff) in Hlen by done. change (zlen (nodes_bytes h [])) with 0 in Hlen.
    destruct b as [|[m q] b']; cbn in Hhb.
    - subst boff. rewrite bool_decide_true by done. done.
    - rewrite zlen_nodes_cons in Hlen by (by apply Forall_cons in Hb as [? _]). pose proof (zlen_nonneg (nodes_bytes h b')). lia. }
  rewrite (Hrl _ _ Ha Hha Hao), (Hrl _ _ Hb Hhb Hbo) in Hlen.
  destruct b as [|[m q] b'].
  { cbn in Hha, Hhb. subst boff. change (zlen (nodes_bytes h [])) with 0 in Hlen.
    rewrite zlen_nodes_cons in Hlen by (by apply Forall_cons in Ha as [? _]). pose proof (zlen_nonneg (nodes_bytes h a')). lia. }
  cbn in Hha, Hhb. pose proof Ha as [(_ & Hp & Hpp) Ha']%Forall_cons. pose proof Hb as [(_ & Hq & Hqp) Hb']%Forall_cons.
  cbn in Hp, Hpp, Hq, Hqp. pose proof (ptr_ok_limit _ _ Hh Hp) as (?&?&?). pose proof (ptr_ok_limit _ _ Hh Hq) as (?&?&?).
  unfold pend, LIMIT in *. rewrite (u32_fits (p_len p - aoff)), (u32_fits (p_len q - boff)) by lia. cbn zeta.
  set (l := if _ <? _ then _ else _). assert (l = Z.min (p_len p - aoff) (p_len q - boff)) as Hl.
  { unfold l. destruct (Z.ltb_spec (p_len q - boff) (p_len p - aoff)); lia. }
  clearbody l. rewrite (bind_ok _ _ _ (zslice aoff l (ptr_bytes h p)) h) by (apply wp_run, wp_ptr_read; done || lia).
  rewrite (bind_ok _ _ _ (zslice boff l (ptr_bytes h q)) h) by (apply wp_run, wp_ptr_read; done || lia).
  pose proof (zlen_ptr_bytes h p Hp) as Hzp. pose proof (zlen_ptr_bytes h q Hq) as Hzq.
  destruct (step_off_ok h n p a' aoff l Ha Hao ltac:(lia) ltac:(lia)) as (A1 & A2 & A3 & A4 & A5).
  destruct (step_off_ok h m q b' boff l Hb Hbo ltac:(lia) ltac:(lia)) as (B1 & B2 & B3 & B4 & B5).
  pose proof (rest_cut h n p a' aoff l Hp Hao ltac:(lia) ltac:(lia)) as Ca.
  pose proof (rest_cut h m q b' boff l Hq Hbo ltac:(lia) ltac:(lia)) as Cb.
  assert (zlen (zslice aoff l (ptr_bytes h p)) = zlen (zslice boff l (ptr_bytes h q))) as Hsl by (rewrite !zlen_zslice; lia).
  assert (zlen (rest_bytes h ((n, p) :: a') aoff) = zlen (rest_bytes h ((m, q) :: b') boff)) as Hlen'
    by (rewrite (Hrl _ _ Ha Hha Hao), (Hrl _ _ Hb Hhb Hbo); lia).
  change (if aoff + l =? p_len p then (a', 0) else ((n, p) :: a', aoff + l)) with (step_off n p a' (aoff + l)).
  change (if boff + l =? p_len q then (b', 0) else ((m, q) :: b', boff + l)) with (step_off m q b' (boff + l)).
  rewrite Ca, Cb in *. rewrite !zlen_app in Hlen'. cbn in Hf.
  destruct (step_off n p a' (aoff + l)) as [a2 aoff2], (step_off m q b' (boff + l)) as [b2 boff2]. cbn [fst snd] in *.
  case_bool_decide as Hx.
  - rewrite (IH a2 b2 aoff2 boff2); [|done|done| |done|done|done|done|lia].
    + f_equal. f_equal. apply bool_decide_ext. rewrite Hx. split; [by intros ->|apply app_inv_head].
    + destruct (Z.eq_dec (aoff + l) (p_len p)) as [He|He]; [specialize (A5 He); lia|].
      assert (boff + l = p_len q) as He2 by lia. specialize (B5 He2). lia.
  - rewrite bool_decide_false; [done|]. intros E. apply Hx.
    apply (app_inj_1 (zslice aoff l (ptr_bytes h p)) (zslice boff l (ptr_bytes h q))) in E as [? _]; [done|].
    unfold zlen in Hsl. lia.
Qed.

(** ** The theorems *)

(** From any position, an iterator copies exactly the bytes that follow it in
    the list, and is then behind them; it throws [end_of_buffer] exactly when
    fewer bytes follow than are asked for. *)
Lemma iter_copy_spec h b it len :
  heap_ok h → blist_ok h b → iter_ready b it → 0 ≤ len < 2 ^ 31 →
  (i_off it + len ≤ b_len b →
   ∃ it', iter_copy b len it h = (Ok (zslice (i_off it) len (contents h b), it'), h) ∧ iter_at b it' (i_off it + len)) ∧
  (b_len b < i_off it + len → iter_copy b len it h = (Throw, h)).
Proof.
  intros Hh Hb Hr Hl. pose proof (iter_copy_run h b it len Hh Hb Hr Hl) as H.
  destruct (Z.leb_spec (i_off it + len) (b_len b)); split; intros; try done; lia.
Qed.

Lemma iter_copy_spec_witness :
  ∃ b h, contents h b = "abcdef" ∧ (∃ it, iter_copy b 3 (list_begin b) h = (Ok ("abc", it), h)) ∧
    iter_copy b 7 (list_begin b) h = (Throw, h).
Proof.
  destruct demo_list as (b & h & _ & Hh & Hb & _ & Hc). exists b, h.
  assert (iter_ready b (list_begin b)) as Hr by (right; exists (b_buffers b); by apply (begin_at h)).
  assert (b_len b = 6) as Hl by (rewrite (bo_len _ _ Hb), Hc; reflexivity). split; [exact Hc|]. split.
  - destruct (iter_copy_spec h b (list_begin b) 3 Hh Hb Hr ltac:(lia)) as [H _]. cbn [list_begin i_off] in H.
    destruct (H ltac:(lia)) as (it & E & _). exists it. rewrite E, Hc. reflexivity.
  - apply (iter_copy_spec h b (list_begin b) 7 Hh Hb Hr ltac:(lia)). cbn. lia.
Defined.

(** [buffer::list::copy] gives the bytes at the offset and leaves the list as it
    was but for [last_p], whatever [last_p] was left at by earlier copies and
    appends; out of range it throws. *)
Lemma list_copy_spec h b off len :
  heap_ok h → blist_ok h b → last_p_ok b → 0 ≤ off → 0 ≤ len → off + len < 2 ^ 31 →
  (off + len ≤ b_len b →
   ∃ b', list_copy off len b h = (Ok (zslice off len (contents h b), b'), h) ∧ contents h b' = contents h b ∧ last_p_ok b') ∧
  (b_len b < off + len → list_copy off len b h = (Throw, h)).
Proof.
  intros Hh Hb Hlp Ho Hl Hs. pose proof (list_copy_run h b off len Hh Hb Hlp Ho Hl Hs) as H.
  destruct (Z.leb_spec (off + len) (b_len b)); split; intros; try done; try lia.
  destruct H as (b' & E & Hb' & Hlp'). exists b'. split_and!; [done| |done]. rewrite Hb'. reflexivity.
Qed.

Lemma list_copy_spec_witness :
  ∃ b h, contents h b = "abcdef" ∧ (∃ b', list_copy 2 3 b h = (Ok ("cde", b'), h)) ∧ list_copy 5 2 b h = (Throw, h).
Proof.
  destruct demo_list as (b & h & _ & Hh & Hb & Hlp & Hc). exists b, h.
  assert (b_len b = 6) as Hl by (rewrite (bo_len _ _ Hb), Hc; reflexivity). split; [exact Hc|]. split.
  - destruct (list_copy_spec h b 2 3 Hh Hb Hlp ltac:(lia) ltac:(lia) ltac:(lia)) as [H _].
    destruct (H ltac:(lia)) as (b' & E & _). exists b'. rewrite E, Hc. reflexivity.
  - apply (list_copy_spec h b 5 2 Hh Hb Hlp); lia.
Defined.

(** [contents_equal] walks the two lists buffer by buffer and answers whether
    they hold the same bytes, however they are cut up. *)
Lemma contents_equal_spec h a b :
  heap_ok h → blist_ok h a → blist_ok h b →
  contents_equal a b h = (Ok (bool_decide (contents h a = contents h b)), h).
Proof.
  intros Hh Ha Hb. unfold contents_equal. rewrite (bo_len _ _ Ha), (bo_len _ _ Hb).
  destruct (Z.eqb_spec (zlen (contents h a)) (zlen (contents h b))) as [He|He]; cbn [negb].
  - pose proof (begin_at h a Ha) as (_ & _ & _ & _ & _ & _ & Hha). pose proof (begin_at h b Hb) as (_ & _ & _ & _ & _ & _ & Hhb).
    rewrite (equal_loop_spec h); try done; [apply Ha|apply Hb|lia].
  - rewrite bool_decide_false; [done|]. congruence.
Qed.

Lemma contents_equal_spec_witness :
  ∃ a h, contents h a = "abcdef" ∧ contents_equal a a h = (Ok true, h).
Proof.
  destruct (append_new "abcdef") as (a & h & _ & Hh & Ha & _ & Hc); [vm_compute; reflexivity|]. exists a, h. split; [exact Hc|].
  rewrite (contents_equal_spec h a a Hh Ha Ha). rewrite bool_decide_true; reflexivity.
Defined.

(** After [push_front], [copy] at the offset where the last copy ended gives
    other bytes than [operator[]]: [last_p] still points where it did. *)
Lemma push_front_stale :
  run0 (b ← list_append "abcdef" list_new; '(_, b) ← list_copy 0 3 b; p ← ptr_copy "xy"; b ← list_push_front p b;
        '(d, b) ← list_copy 3 2 b; c3 ← list_at 3 b; c4 ← list_at 4 b; mret (d, [c3; c4])) = Ok ("de", "bc").
Proof. vm_compute. reflexivity. Qed.

(** After [operator=], [copy] at that offset uses an iterator into a node that
    need not exist. *)
Lemma assign_dangling :
  run0 (b ← list_append "abcdef" list_new; '(_, b) ← list_copy 0 3 b; o ← list_append "uvwxyz" list_new;
        b ← list_assign o b; list_copy 3 2 b) = Undefined.
Proof. vm_compute. reflexivity. Qed.

(** So does a copy after [c_str] has rebuilt a list of more than one buffer. *)
Lemma c_str_dangling :
  run0 (b ← list_append "abc" list_new; p ← ptr_copy "def"; b ← list_append_ptr p b; '(_, b) ← list_copy 0 2 b;
        '(_, b) ← list_c_str b; list_copy 2 2 b) = Undefined.
Proof. vm_compute. reflexivity. Qed.

(** Writing in place is seen by the lists that share the memory. *)
Lemma copy_in_shared :
  run0 (b ← list_append "abcdef" list_new; c ← list_copy_of b; b ← list_copy_in 1 "XY" b;
        '(d, _) ← list_copy 0 6 c; mret d) = Ok "aXYdef".
Proof. vm_compute. reflexivity. Qed.

(** [splice] does not check that the piece ends inside the list. *)
Lemma splice_past_end :
  run0 (b ← list_append "abcdef" list_new; list_splice 4 3 None b) = Undefined.
Proof. vm_compute. reflexivity. Qed.
