(* ===== verification/BufferSystem.v ===== *)
(** * Programs over lists that share memory

    Lists are variables; an operation changes the lists it names and the memory
    they share with others.  [buffer_refines] says that a program computes what
    the same program computes on plain strings of bytes. *)

From stdpp Require Import gmap.
From S2P Require Import Prelude StdMap Buffer BufferFacts BufferIter.
#[local] Open Scope Z_scope.
#[local] Open Scope str_scope.

(** ** Separation

    The unused part of a list's append buffer is not in any list, append buffers
    are in different blocks, and nodes belong to one list. *)
Abbreviation world := (gmap Z blist).

Record world_ok (h : heap) (W : world) : Prop := {
  wo_heap : heap_ok h;
  wo_list : ∀ x b, W !! x = Some b → blist_ok h b;
  wo_tail : ∀ x b y c q, W !! x = Some b → W !! y = Some c → ptrs_of c q → tail_ok (b_append_buffer b) q;
  wo_append : ∀ x b y c r, W !! x = Some b → W !! y = Some c → x ≠ y → p_raw (b_append_buffer b) = Some r →
              p_raw (b_append_buffer c) ≠ Some r;
  wo_nodes : ∀ x b y c n, W !! x = Some b → W !! y = Some c → x ≠ y → n ∈ (b_buffers b).*1 → n ∉ (b_buffers c).*1
}.

(** A range that lies below a range of some list. *)
Definition in_world (W : world) (q : ptr) : Prop := ∃ y c, W !! y = Some c ∧ below (ptrs_of c) q.

Lemma append_raw_old h W x b r :
  world_ok h W → W !! x = Some b → p_raw (b_append_buffer b) = Some r → r < h_next h.
Proof.
  intros HW Hx Hr. destruct (bo_append _ _ (wo_list _ _ HW x b Hx)) as [E|[(r' & w & Hr' & Hw & _) _]].
  - by rewrite E in Hr.
  - assert (r' = r) as -> by congruence. by apply (wo_heap _ _ HW r w).
Qed.

Lemma in_world_tail h W x b q :
  world_ok h W → W !! x = Some b → in_world W q → tail_ok (b_append_buffer b) q.
Proof.
  intros HW Hx (y & c & Hy & q0 & Hq0 & Hr & He) Hraw.
  pose proof (wo_tail _ _ HW x b y c q0 Hx Hy Hq0) as Ht. unfold tail_ok in Ht. rewrite <- Hr in Ht.
  specialize (Ht Hraw). lia.
Qed.

Lemma fresh_tail h W x b q : world_ok h W → W !! x = Some b → fresh_ptr h q → tail_ok (b_append_buffer b) q.
Proof. intros HW Hx (r & Hr & Hge) Hraw. rewrite Hr in Hraw. pose proof (append_raw_old _ _ _ _ _ HW Hx Hraw). lia. Qed.

Lemma node_old h W x b n : world_ok h W → W !! x = Some b → n ∈ (b_buffers b).*1 → n < h_next h.
Proof.
  intros HW Hx Hn. destruct (Z.lt_ge_cases n (h_next h)) as [?|Hge]; [done|].
  exfalso. by apply (node_new h b n (wo_list _ _ HW x b Hx) Hge).
Qed.

(** Every list of [W'] keeps its append buffer, and has ranges and nodes of [W]
    or new ones. *)
Lemma world_intro h W h' W' :
  world_ok h W → heap_ok h' → h_next h ≤ h_next h' →
  (∀ x b', W' !! x = Some b' → blist_ok h' b' ∧
     (∃ b, W !! x = Some b ∧ b_append_buffer b' = b_append_buffer b) ∧
     (∀ q, ptrs_of b' q → fresh_ptr h q ∨ in_world W q)) →
  (∀ x b y c n, W' !! x = Some b → W' !! y = Some c → x ≠ y → n ∈ (b_buffers b).*1 → n ∉ (b_buffers c).*1) →
  world_ok h' W'.
Proof.
  intros HW Hh' Hn Hl Hnodes. split; [done| | | |done].
  - intros x b Hx. by destruct (Hl x b Hx).
  - intros x b y c q Hx Hy Hq. destruct (Hl x b Hx) as (_ & (b0 & Hx0 & ->) & _).
    destruct (Hl y c Hy) as (_ & _ & Hc). destruct (Hc q Hq) as [?|?]; [by eapply fresh_tail|by eapply in_world_tail].
  - intros x b y c r Hx Hy Hne. destruct (Hl x b Hx) as (_ & (b0 & Hx0 & ->) & _).
    destruct (Hl y c Hy) as (_ & (c0 & Hy0 & ->) & _). by apply (wo_append _ _ HW x b0 y c0).
Qed.

Lemma in_world_self W x b q : W !! x = Some b → ptrs_of b q → in_world W q.
Proof. intros Hx Hq. exists x, b. split; [done|]. by apply below_refl. Qed.

Lemma in_world_below W q : below (in_world W) q → in_world W q.
Proof.
  intros (q0 & (y & c & Hy & q1 & ? & ? & ?) & ? & ?). exists y, c. split; [done|].
  exists q1. split_and!; [done|congruence|lia].
Qed.

(** The lists seen through a heap. *)
Definition view (h : heap) (W : world) : gmap Z bytes := contents h <$> W.

Lemma lookup_view h W x b : W !! x = Some b → view h W !! x = Some (contents h b).
Proof. intros Hx. unfold view. by rewrite lookup_fmap, Hx. Qed.

(** Nothing that a list of [W] sees changes. *)
Lemma view_grows h W h' : world_ok h W → grows None h h' → view h' W = view h W.
Proof.
  intros HW Hg. apply map_eq. intros x. unfold view. rewrite !lookup_fmap. destruct (W !! x) as [b|] eqn:Hx; [|done].
  cbn. f_equal. eapply grows_blist; [done|]. by eapply wo_list.
Qed.

(** One list changes without touching memory that was there. *)
Lemma world_step (P : ptr → Prop) h W x b h' b' :
  world_ok h W → W !! x = Some b → list_step P h b h' b' → (∀ q, P q → in_world W q) →
  world_ok h' (<[x := b']> W) ∧ view h' (<[x := b']> W) = <[x := contents h' b']> (view h W).
Proof.
  intros HW Hx Hst HP. pose proof (ls_grows _ _ _ _ _ Hst) as Hg. split.
  2: { unfold view. rewrite fmap_insert. fold (view h' W). by rewrite (view_grows h W h'). }
  apply (world_intro h W); [done|apply Hst|apply Hg| |].
  - intros y c. rewrite lookup_insert_Some. intros [[<- <-]|[Hne Hy]].
    + split_and!; [apply Hst|exists b; split; [done|apply Hst]|]. intros q [n Hq].
      destruct (ls_cover _ _ _ _ _ Hst n q Hq) as [?|Hb]; [by left|right].
      apply in_world_below. eapply below_mono; [|exact Hb]. done.
    + split_and!; [eapply grows_blist; [done|by eapply wo_list]|by exists c|].
      intros q Hq. right. by eapply in_world_self.
  - assert (∀ y c n, W !! y = Some c → y ≠ x → n ∈ (b_buffers b').*1 → n ∉ (b_buffers c).*1) as Hnew.
    { intros y c n Hy Hne Hn Hnc. destruct (ls_nodes _ _ _ _ _ Hst n Hn) as [Hold|Hge].
      - by apply (wo_nodes _ _ HW x b y c n).
      - pose proof (node_old _ _ _ _ _ HW Hy Hnc). lia. }
    intros y c z d n. rewrite !lookup_insert_Some. intros [[<- <-]|[? Hy]] [[<- <-]|[? Hz]] Hne Hn; [done|by eapply Hnew; try congruence| |].
    + intros Hn2. by apply (Hnew y c n Hy); try congruence.
    + by apply (wo_nodes _ _ HW y c z d n).
Qed.

(** A list appends in place: the others do not see it. *)
Lemma world_append d h W x b h' b' :
  world_ok h W → W !! x = Some b → append_step d h b h' b' →
  world_ok h' (<[x := b']> W) ∧ view h' (<[x := b']> W) = <[x := contents h b ++ d]> (view h W).
Proof.
  intros HW Hx Hst. pose proof (as_grows _ _ _ _ _ Hst) as Hg. assert (h_next h ≤ h_next h') as Hnext by apply Hg.
  (* the other lists *)
  assert (∀ y c, W !! y = Some c → y ≠ x → blist_ok h' c ∧ contents h' c = contents h c) as Hother.
  { intros y c Hy Hne. pose proof (wo_list _ _ HW y c Hy) as Hc.
    destruct (grows_nodes _ _ _ _ Hg (bo_nodes _ _ Hc)) as [Hn Hb].
    assert (nodes_bytes h' (b_buffers c) = nodes_bytes h (b_buffers c)) as E.
    { apply Hb. apply Forall_forall. intros [n q] Hq. unfold free_tail. destruct (p_raw (b_append_buffer b)) as [r|] eqn:Er; [|exact I].
      cbn. intros Hqr. apply (wo_tail _ _ HW x b y c q Hx Hy); [by exists n|congruence]. }
    split; [|done]. destruct Hc as [C1 C2 C3 C4 C5]. split; try done; [rewrite C3; f_equal; symmetry; exact E|].
    by eapply append_ok_grows. }
  assert (∀ y c q, W !! y = Some c → y ≠ x → ptrs_of b' q → tail_ok (b_append_buffer c) q) as Htail1.
  { intros y c q Hy Hne Hq. destruct (as_cover _ _ _ _ _ Hst q Hq) as [?|[Hb|Hr]]; [by eapply fresh_tail| |].
    - eapply in_world_tail; [done..|]. by exists x, b.
    - intros Hraw. exfalso. rewrite Hr in Hraw. destruct Hq as [n Hq].
      pose proof (bo_nodes _ _ (as_ok _ _ _ _ _ Hst)) as HF. eapply Forall_forall in HF; [|exact Hq].
      destruct HF as (_ & (r & w & Hqr & _) & _). cbn in Hqr. rewrite Hqr in Hr.
      apply (wo_append _ _ HW x b y c r); [done|done|congruence|done|congruence]. }
  assert (∀ y c q, W !! y = Some c → y ≠ x → ptrs_of c q → tail_ok (b_append_buffer b') q) as Htail2.
  { intros y c q Hy Hne Hq Hraw. pose proof (wo_tail _ _ HW x b y c q Hx Hy Hq) as Ht. unfold tail_ok in Ht.
    destruct (as_append _ _ _ _ _ Hst) as [[Hr He]|(r & Hr & Hge)].
    - rewrite Hr in Hraw. specialize (Ht Hraw). lia.
    - exfalso. destruct Hq as [n Hq]. pose proof (bo_nodes _ _ (wo_list _ _ HW y c Hy)) as HF.
      eapply Forall_forall in HF; [|exact Hq]. destruct HF as (_ & (r' & w & Hqr & Hw & _) & _). cbn in Hqr.
      destruct (wo_heap _ _ HW r' w Hw). assert (r = r') by congruence. lia. }
  split.
  2: { apply map_eq. intros y. unfold view. rewrite fmap_insert. destruct (decide (y = x)) as [->|Hne].
       - rewrite !lookup_insert_eq. by rewrite (as_contents _ _ _ _ _ Hst).
       - rewrite !lookup_insert_ne by done. rewrite !lookup_fmap. destruct (W !! y) as [c|] eqn:Hy; [|done].
         cbn. f_equal. by apply (Hother y). }
  split.
  - apply Hst.
  - intros y c. rewrite lookup_insert_Some. intros [[<- <-]|[Hne Hy]]; [apply Hst|]. by apply (Hother y).
  - intros y c z e q. rewrite !lookup_insert_Some. intros [[<- <-]|[? Hy]] [[<- <-]|[? Hz]] Hq.
    + by apply (as_own _ _ _ _ _ Hst).
    + by eapply Htail2; try congruence.
    + by eapply Htail1; try congruence.
    + by apply (wo_tail _ _ HW y c z e).
  - assert (∀ y c r, W !! y = Some c → y ≠ x → p_raw (b_append_buffer b') = Some r → p_raw (b_append_buffer c) ≠ Some r) as Hab.
    { intros y c r Hy Hne Hr Hc. destruct (as_append _ _ _ _ _ Hst) as [[Hr' _]|(r' & Hr' & Hge)].
      - apply (wo_append _ _ HW x b y c r); [done|done|congruence|congruence|done].
      - pose proof (append_raw_old _ _ _ _ _ HW Hy Hc). assert (r = r') by congruence. lia. }
    intros y c z e r. rewrite !lookup_insert_Some. intros [[<- <-]|[? Hy]] [[<- <-]|[? Hz]] Hne Hr; [done|by eapply Hab; try congruence| |].
    + intros Hr'. by apply (Hab y c r Hy); try congruence.
    + by apply (wo_append _ _ HW y c z e).
  - assert (∀ y c n, W !! y = Some c → y ≠ x → n ∈ (b_buffers b').*1 → n ∉ (b_buffers c).*1) as Hnew.
    { intros y c n Hy Hne Hn Hnc. destruct (as_nodes _ _ _ _ _ Hst n Hn) as [Hold|Hge].
      - by apply (wo_nodes _ _ HW x b y c n).
      - pose proof (node_old _ _ _ _ _ HW Hy Hnc). lia. }
    intros y c z e n. rewrite !lookup_insert_Some. intros [[<- <-]|[? Hy]] [[<- <-]|[? Hz]] Hne Hn; [done|by eapply Hnew; try congruence| |].
    + intros Hn2. by apply (Hnew y c n Hy); try congruence.
    + by apply (wo_nodes _ _ HW y c z e n).
Qed.

(** A list takes over the buffers of another. *)
Lemma world_claim d h W x b y bl h' b' bl' :
  world_ok h W → W !! x = Some b → W !! y = Some bl → x ≠ y → claim_step d h b bl h' b' bl' →
  world_ok h' (<[x := b']> (<[y := bl']> W)) ∧
  view h' (<[x := b']> (<[y := bl']> W)) = <[x := d]> (<[y := []]> (view h W)).
Proof.
  intros HW Hx Hy Hxy Hst. pose proof (cs_grows _ _ _ _ _ _ _ Hst) as Hg. split.
  2: { unfold view. rewrite !fmap_insert. fold (view h' W). rewrite (view_grows h W h') by done.
       rewrite (cs_contents _ _ _ _ _ _ _ Hst). do 2 f_equal. unfold contents. by rewrite (cs_empty _ _ _ _ _ _ _ Hst). }
  apply (world_intro h W); [done|apply Hst|apply Hg| |].
  - intros z c. rewrite !lookup_insert_Some. intros [[<- <-]|[Hne [[<- <-]|[Hne2 Hz]]]].
    + split_and!; [apply Hst|exists b; split; [done|apply Hst]|]. intros q [n Hq].
      destruct (cs_cover _ _ _ _ _ _ _ Hst n q Hq) as [?|Hb]; [by left|right].
      apply in_world_below. eapply below_mono; [|exact Hb]. intros p [Hp|Hp]; [by apply (in_world_self W x b)|by apply (in_world_self W y bl)].
    + split_and!; [apply Hst|exists bl; split; [done|apply Hst]|]. intros q [n Hq].
      rewrite (cs_empty _ _ _ _ _ _ _ Hst) in Hq. by apply not_elem_of_nil in Hq.
    + split_and!; [eapply grows_blist; [done|by eapply wo_list]|by exists c|]. intros q Hq. right. by eapply in_world_self.
  - assert (∀ z c n, W !! z = Some c → z ≠ x → z ≠ y → n ∈ (b_buffers b').*1 → n ∉ (b_buffers c).*1) as Hnew.
    { intros z c n Hz ?? Hn. destruct (cs_nodes _ _ _ _ _ _ _ Hst n Hn) as [?|?].
      - by apply (wo_nodes _ _ HW x b z c n).
      - by apply (wo_nodes _ _ HW y bl z c n). }
    assert (∀ n, n ∉ (b_buffers bl').*1) as Hempty.
    { intros n. rewrite (cs_empty _ _ _ _ _ _ _ Hst). apply not_elem_of_nil. }
    intros z c w e n. rewrite !lookup_insert_Some.
    intros [[<- <-]|[? [[<- <-]|[? Hz]]]] [[<- <-]|[? [[<- <-]|[? Hw]]]] Hne Hn; try done.
    + by eapply Hnew; try congruence.
    + by apply Hempty in Hn.
    + by apply Hempty in Hn.
    + intros Hn2. by apply (Hnew z c n Hz); try congruence.
    + by apply (wo_nodes _ _ HW z c w e n).
Qed.

(** Two lists change places. *)
Lemma world_swap h W x b y c :
  world_ok h W → W !! x = Some b → W !! y = Some c → x ≠ y →
  let '(b', c') := list_swap b c in
  world_ok h (<[x := b']> (<[y := c']> W)) ∧
  view h (<[x := b']> (<[y := c']> W)) = <[x := contents h c]> (<[y := contents h b]> (view h W)).
Proof.
  intros HW Hx Hy Hxy. cbn [list_swap]. split; [|unfold view; by rewrite !fmap_insert].
  set (W' := <[x := _]> _).
  assert (∀ z e, W' !! z = Some e → ∃ z0 e0, W !! z0 = Some e0 ∧ b_buffers e = b_buffers e0 ∧
    b_append_buffer e = b_append_buffer e0 ∧ b_len e = b_len e0 ∧ z0 = (if decide (z = x) then y else if decide (z = y) then x else z)) as Hback.
  { intros z e. unfold W'. rewrite !lookup_insert_Some. intros [[<- <-]|[Hne [[<- <-]|[Hne2 Hz]]]].
    - exists y, c. by rewrite decide_True.
    - exists x, b. rewrite decide_False by done. by rewrite decide_True.
    - exists z, e. rewrite !decide_False by done. done. }
  assert (∀ z w : Z, z ≠ w → (if decide (z = x) then y else if decide (z = y) then x else z) ≠
    (if decide (w = x) then y else if decide (w = y) then x else w)) as Hinj.
  { intros z w Hzw. repeat case_decide; congruence. }
  split.
  - apply HW.
  - intros z e Hz. destruct (Hback z e Hz) as (z0 & e0 & Hz0 & E1 & E2 & E3 & _).
    destruct (wo_list _ _ HW z0 e0 Hz0) as [C1 C2 C3 C4 C5]. split; rewrite ?E1, ?E2, ?E3; try done.
    unfold contents. by rewrite E1.
  - intros z e w f q Hz Hw [n Hq]. destruct (Hback z e Hz) as (z0 & e0 & Hz0 & _ & -> & _).
    destruct (Hback w f Hw) as (w0 & f0 & Hw0 & E & _). rewrite E in Hq. apply (wo_tail _ _ HW z0 e0 w0 f0); try done. by exists n.
  - intros z e w f r Hz Hw Hne. destruct (Hback z e Hz) as (z0 & e0 & Hz0 & _ & -> & _ & ->).
    destruct (Hback w f Hw) as (w0 & f0 & Hw0 & _ & -> & _ & ->). eapply (wo_append _ _ HW); [exact Hz0|exact Hw0|by apply Hinj].
  - intros z e w f n Hz Hw Hne. destruct (Hback z e Hz) as (z0 & e0 & Hz0 & -> & _ & _ & ->).
    destruct (Hback w f Hw) as (w0 & f0 & Hw0 & -> & _ & _ & ->). eapply (wo_nodes _ _ HW); [exact Hz0|exact Hw0|by apply Hinj].
Qed.

(** ** Programs

    The operations of a program; a list is not its own argument. *)
Inductive bop :=
| ONew (x : Z)
| OAppend (x : Z) (d : bytes)
| OAppendChar (x : Z) (c : ascii)
| OAppendZero (x len : Z)
| OAppendList (x y : Z)
| OAssign (x y : Z)
| OClaim (x y : Z) (nonshareable : bool)
| OClaimAppend (x y : Z) (nonshareable : bool)
| OClaimPrepend (x y : Z) (nonshareable : bool)
| OSwap (x y : Z)
| OSubstr (x y off len : Z)
| OSplice (x off len : Z)
| OSpliceTo (x off len y : Z)
| OClear (x : Z)
| ORebuild (x : Z)
| ORead (x off len : Z).

Definition get (W : world) (x : Z) : M blist := match W !! x with Some b => mret b | None => undefined end.

Definition distinct (x y : Z) : M () := if x =? y then undefined else mret tt.

(** The operation on the lists: what it outputs and the lists after it. *)
Definition run_op (o : bop) (W : world) : M (bytes * world) :=
  match o with
  | ONew x => if bool_decide (W !! x = None) then mret ([], <[x := list_new]> W) else undefined
  | OAppend x d => b ← get W x; b ← list_append d b; mret ([], <[x := b]> W)
  | OAppendChar x c => b ← get W x; b ← list_append_char c b; mret ([], <[x := b]> W)
  | OAppendZero x len => b ← get W x; b ← list_append_zero len b; mret ([], <[x := b]> W)
  | OAppendList x y => _ ← distinct x y; b ← get W x; c ← get W y; b ← list_append_list c b; mret ([], <[x := b]> W)
  | OAssign x y => _ ← distinct x y; b ← get W x; c ← get W y; b ← list_assign c b; mret ([], <[x := b]> W)
  | OClaim x y ns =>
      _ ← distinct x y; b ← get W x; c ← get W y; '(b, c) ← list_claim c b ns; mret ([], <[x := b]> (<[y := c]> W))
  | OClaimAppend x y ns =>
      _ ← distinct x y; b ← get W x; c ← get W y; '(b, c) ← list_claim_append c b ns; mret ([], <[x := b]> (<[y := c]> W))
  | OClaimPrepend x y ns =>
      _ ← distinct x y; b ← get W x; c ← get W y; '(b, c) ← list_claim_prepend c b ns; mret ([], <[x := b]> (<[y := c]> W))
  | OSwap x y =>
      _ ← distinct x y; b ← get W x; c ← get W y; let '(b, c) := list_swap b c in mret ([], <[x := b]> (<[y := c]> W))
  | OSubstr x y off len =>
      _ ← distinct x y; b ← get W x; c ← get W y; b ← list_substr_of c off len b; mret ([], <[x := b]> W)
  | OSplice x off len => b ← get W x; '(b, _) ← list_splice off len None b; mret ([], <[x := b]> W)
  | OSpliceTo x off len y =>
      _ ← distinct x y; b ← get W x; c ← get W y; '(b, c) ← list_splice off len (Some c) b;
      mret ([], match c with Some c => <[x := b]> (<[y := c]> W) | None => <[x := b]> W end)
  | OClear x => b ← get W x; mret ([], <[x := list_clear b]> W)
  | ORebuild x => b ← get W x; b ← list_rebuild b; mret ([], <[x := b]> W)
  | ORead x off len =>
      b ← get W x; it ← iter_seek b off; '(d, _) ← iter_copy b len it; mret (d, W)
  end.

(** The same on strings.  Strings stay 4 KB below 2 GB; offsets and lengths are in range. *)
Definition fits (d : bytes) : bool := zlen d + CEPH_BUFFER_APPEND_SIZE <? LIMIT.
Definition in_range (off len : Z) (d : bytes) : bool := (0 <=? off) && (0 <=? len) && (off + len <=? zlen d).

Definition put (x : Z) (d : bytes) (m : gmap Z bytes) : option (bytes * gmap Z bytes) :=
  if fits d then Some ([], <[x := d]> m) else None.

Definition flat_op (o : bop) (m : gmap Z bytes) : option (bytes * gmap Z bytes) :=
  match o with
  | ONew x => if bool_decide (m !! x = None) then put x [] m else None
  | OAppend x d => s ← m !! x; put x (s ++ d) m
  | OAppendChar x c => s ← m !! x; put x (s ++ [c]) m
  | OAppendZero x len => s ← m !! x; if 0 <=? len then put x (s ++ zeros len) m else None
  | OAppendList x y => s ← m !! x; t ← m !! y; if x =? y then None else put x (s ++ t) m
  | OAssign x y => _ ← m !! x; t ← m !! y; if x =? y then None else put x t m
  | OClaim x y _ => _ ← m !! x; t ← m !! y; if x =? y then None else put x t (<[y := []]> m)
  | OClaimAppend x y _ => s ← m !! x; t ← m !! y; if x =? y then None else put x (s ++ t) (<[y := []]> m)
  | OClaimPrepend x y _ => s ← m !! x; t ← m !! y; if x =? y then None else put x (t ++ s) (<[y := []]> m)
  | OSwap x y => s ← m !! x; t ← m !! y; if x =? y then None else put x t (<[y := s]> m)
  | OSubstr x y off len =>
      _ ← m !! x; t ← m !! y; if (x =? y) || negb (in_range off len t) then None else put x (zslice off len t) m
  | OSplice x off len =>
      s ← m !! x; if in_range off len s then put x (zslice 0 off s ++ zdrop (off + len) s) m else None
  | OSpliceTo x off len y =>
      s ← m !! x; t ← m !! y;
      if (x =? y) || negb (in_range off len s) || negb (fits (t ++ zslice off len s)) then None
      else put x (zslice 0 off s ++ zdrop (off + len) s) (<[y := t ++ zslice off len s]> m)
  | OClear x => _ ← m !! x; put x [] m
  | ORebuild x => s ← m !! x; put x s m
  | ORead x off len => s ← m !! x; if in_range off len s then Some (zslice off len s, m) else None
  end.

Definition sim (out : bytes) (m : gmap Z bytes) : bytes * world → heap → Prop := λ '(d, W') h',
  d = out ∧ world_ok h' W' ∧ view h' W' = m.

Lemma view_Some h W x s : view h W !! x = Some s → ∃ b, W !! x = Some b ∧ s = contents h b.
Proof. unfold view. rewrite lookup_fmap. intros (b & -> & ->)%fmap_Some. by exists b. Qed.

Lemma put_Some x d m out m' : put x d m = Some (out, m') → zlen d + CEPH_BUFFER_APPEND_SIZE < LIMIT ∧ out = [] ∧ m' = <[x := d]> m.
Proof. unfold put, fits. destruct (Z.ltb_spec (zlen d + CEPH_BUFFER_APPEND_SIZE) LIMIT); [|done]. intros [= <- <-]. done. Qed.

Lemma wp_get h W x b (Q : blist → heap → Prop) : W !! x = Some b → Q b h → wp (get W x) h Q.
Proof. intros Hx HQ. unfold get. by rewrite Hx. Qed.

Lemma wp_distinct h x y (Q : () → heap → Prop) : x ≠ y → Q tt h → wp (distinct x y) h Q.
Proof. intros Hne HQ. unfold distinct. by rewrite (proj2 (Z.eqb_neq x y)). Qed.

Lemma in_range_true off len d : in_range off len d = true → 0 ≤ off ∧ 0 ≤ len ∧ off + len ≤ zlen d.
Proof. unfold in_range. rewrite !andb_true_iff, !Z.leb_le. tauto. Qed.

Lemma wo_own h W x b : world_ok h W → W !! x = Some b → own_ok b.
Proof. intros HW Hx q Hq. by apply (wo_tail _ _ HW x b x b). Qed.

Ltac wstep := apply wp_bind.

(** ** Each operation *)

Section ops.
Context (h : heap) (W : world) (HW : world_ok h W).

(** One list changes without touching memory that was there. *)
Lemma sim_step (P : ptr → Prop) x b h' b' d :
  W !! x = Some b → list_step P h b h' b' → (∀ q, P q → in_world W q) → contents h' b' = d →
  sim [] (<[x := d]> (view h W)) ([], <[x := b']> W) h'.
Proof. intros Hx Hst HP <-. destruct (world_step P h W x b h' b' HW Hx Hst HP). done. Qed.

Lemma len_contents x b : W !! x = Some b → b_len b = zlen (contents h b) ∧ blist_ok h b.
Proof. intros Hx. pose proof (wo_list _ _ HW x b Hx) as Hb. split; [apply Hb|done]. Qed.

Lemma within_world x b q : W !! x = Some b → within (b_buffers b) q → in_world W q.
Proof. intros Hx (n & p & Hin & Hr & He). exists x, b. split; [done|]. exists p. split_and!; [by exists n|done..]. Qed.

Lemma sim_append x d out m :
  flat_op (OAppend x d) (view h W) = Some (out, m) → wp (run_op (OAppend x d) W) h (sim out m).
Proof.
  cbn [flat_op run_op]. intros (s & Hs & Hp)%bind_Some. apply view_Some in Hs as (b & Hx & ->).
  apply put_Some in Hp as (Hfit & -> & ->). destruct (len_contents x b Hx) as [Hl Hb]. rewrite zlen_app in Hfit.
  pose proof (zlen_nonneg (contents h b)). unfold CEPH_BUFFER_APPEND_SIZE in *.
  wstep. apply (wp_get _ _ _ b); [done|]. wstep.
  eapply wp_mono; [apply wp_list_append; [apply HW|done|by eapply wo_own|lia|unfold CEPH_BUFFER_APPEND_SIZE; lia]|].
  intros b' h' Hst. apply wp_ret. destruct (world_append d h W x b h' b' HW Hx Hst). done.
Qed.

Lemma sim_append_char x c out m :
  flat_op (OAppendChar x c) (view h W) = Some (out, m) → wp (run_op (OAppendChar x c) W) h (sim out m).
Proof.
  cbn [flat_op run_op]. intros (s & Hs & Hp)%bind_Some. apply view_Some in Hs as (b & Hx & ->).
  apply put_Some in Hp as (Hfit & -> & ->). destruct (len_contents x b Hx) as [Hl Hb].
  rewrite zlen_app, zlen_cons, zlen_nil in Hfit. unfold CEPH_BUFFER_APPEND_SIZE in *.
  wstep. apply (wp_get _ _ _ b); [done|]. wstep.
  eapply wp_mono; [apply wp_append_char; [apply HW|done|by eapply wo_own|lia]|].
  intros b' h' Hst. apply wp_ret. destruct (world_append [c] h W x b h' b' HW Hx Hst). done.
Qed.

Lemma sim_append_zero x len out m :
  flat_op (OAppendZero x len) (view h W) = Some (out, m) → wp (run_op (OAppendZero x len) W) h (sim out m).
Proof.
  cbn [flat_op run_op]. intros (s & Hs & Hp)%bind_Some. apply view_Some in Hs as (b & Hx & ->).
  destruct (Z.leb_spec 0 len); [|done]. apply put_Some in Hp as (Hfit & -> & ->).
  destruct (len_contents x b Hx) as [Hl Hb]. rewrite zlen_app, zlen_zeros in Hfit by done. unfold CEPH_BUFFER_APPEND_SIZE in *.
  wstep. apply (wp_get _ _ _ b); [done|]. wstep.
  eapply wp_mono; [apply wp_append_zero; [apply HW|done|done|lia]|].
  intros b' h' (Hst & Hc & _). apply wp_ret. eapply sim_step; [done|exact Hst| |done]. intros q Hq. by eapply in_world_self.
Qed.

(** Two lists are read. *)
Lemma two_lists x y s t : view h W !! x = Some s → view h W !! y = Some t → x ≠ y →
  ∃ b c, W !! x = Some b ∧ W !! y = Some c ∧ s = contents h b ∧ t = contents h c ∧ b_len b = zlen s ∧ b_len c = zlen t ∧
    blist_ok h b ∧ blist_ok h c ∧ (∀ n, n ∈ (b_buffers b).*1 → n ∉ (b_buffers c).*1).
Proof.
  intros (b & Hx & ->)%view_Some (c & Hy & ->)%view_Some Hne. exists b, c.
  destruct (len_contents x b Hx), (len_contents y c Hy). split_and!; try done.
  intros n. by apply (wo_nodes _ _ HW x b y c).
Qed.

Lemma sim_append_list x y out m :
  flat_op (OAppendList x y) (view h W) = Some (out, m) → wp (run_op (OAppendList x y) W) h (sim out m).
Proof.
  cbn [flat_op run_op]. intros (s & Hs & (t & Ht & Hp)%bind_Some)%bind_Some.
  destruct (Z.eqb_spec x y) as [|Hne]; [done|]. apply put_Some in Hp as (Hfit & -> & ->). rewrite zlen_app in Hfit.
  destruct (two_lists x y s t Hs Ht Hne) as (b & c & Hx & Hy & -> & -> & Hl1 & Hl2 & Hb & Hc & _).
  unfold CEPH_BUFFER_APPEND_SIZE in *.
  wstep. apply wp_distinct; [done|]. wstep. apply (wp_get _ _ _ b); [done|]. wstep. apply (wp_get _ _ _ c); [done|]. wstep.
  eapply wp_mono; [apply wp_append_list; [apply HW|done|done|lia]|].
  intros b' h' (Hst & Hcc & _). apply wp_ret. eapply sim_step; [done|exact Hst| |done].
  intros q [Hq|Hq]; [by apply (in_world_self W x b)|by apply (in_world_self W y c)].
Qed.

Lemma sim_assign x y out m :
  flat_op (OAssign x y) (view h W) = Some (out, m) → wp (run_op (OAssign x y) W) h (sim out m).
Proof.
  cbn [flat_op run_op]. intros (s & Hs & (t & Ht & Hp)%bind_Some)%bind_Some.
  destruct (Z.eqb_spec x y) as [|Hne]; [done|]. apply put_Some in Hp as (Hfit & -> & ->).
  destruct (two_lists x y s t Hs Ht Hne) as (b & c & Hx & Hy & -> & -> & Hl1 & Hl2 & Hb & Hc & _).
  wstep. apply wp_distinct; [done|]. wstep. apply (wp_get _ _ _ b); [done|]. wstep. apply (wp_get _ _ _ c); [done|]. wstep.
  eapply wp_mono; [apply wp_list_assign; [apply HW|done|done]|].
  intros b' h' (Hst & Hcc). apply wp_ret. eapply sim_step; [done|exact Hst| |done]. intros q Hq. by apply (in_world_self W y c).
Qed.

Lemma sim_claim_step x y b c d h' (r : blist * blist) :
  W !! x = Some b → W !! y = Some c → x ≠ y → claim_step d h b c h' r.1 r.2 →
  sim [] (<[x := d]> (<[y := []]> (view h W))) ([], <[x := r.1]> (<[y := r.2]> W)) h'.
Proof. intros Hx Hy Hne Hst. destruct (world_claim d h W x b y c h' r.1 r.2 HW Hx Hy Hne Hst). done. Qed.

Lemma sim_claim_append x y ns out m :
  flat_op (OClaimAppend x y ns) (view h W) = Some (out, m) → wp (run_op (OClaimAppend x y ns) W) h (sim out m).
Proof.
  cbn [flat_op run_op]. intros (s & Hs & (t & Ht & Hp)%bind_Some)%bind_Some.
  destruct (Z.eqb_spec x y) as [|Hne]; [done|]. apply put_Some in Hp as (Hfit & -> & ->). rewrite zlen_app in Hfit.
  destruct (two_lists x y s t Hs Ht Hne) as (b & c & Hx & Hy & -> & -> & Hl1 & Hl2 & Hb & Hc & Hdis).
  unfold CEPH_BUFFER_APPEND_SIZE in *.
  wstep. apply wp_distinct; [done|]. wstep. apply (wp_get _ _ _ b); [done|]. wstep. apply (wp_get _ _ _ c); [done|]. wstep.
  eapply wp_mono; [apply (wp_claim h b c ns false); [apply HW|done|done|done|lia]|].
  intros [b' c'] h' Hst. apply wp_ret. by apply (sim_claim_step x y b c _ h' (b', c')).
Qed.

Lemma sim_claim_prepend x y ns out m :
  flat_op (OClaimPrepend x y ns) (view h W) = Some (out, m) → wp (run_op (OClaimPrepend x y ns) W) h (sim out m).
Proof.
  cbn [flat_op run_op]. intros (s & Hs & (t & Ht & Hp)%bind_Some)%bind_Some.
  destruct (Z.eqb_spec x y) as [|Hne]; [done|]. apply put_Some in Hp as (Hfit & -> & ->). rewrite zlen_app in Hfit.
  destruct (two_lists x y s t Hs Ht Hne) as (b & c & Hx & Hy & -> & -> & Hl1 & Hl2 & Hb & Hc & Hdis).
  unfold CEPH_BUFFER_APPEND_SIZE in *.
  wstep. apply wp_distinct; [done|]. wstep. apply (wp_get _ _ _ b); [done|]. wstep. apply (wp_get _ _ _ c); [done|]. wstep.
  eapply wp_mono; [apply (wp_claim h b c ns true); [apply HW|done|done|done|lia]|].
  intros [b' c'] h' Hst. apply wp_ret. by apply (sim_claim_step x y b c _ h' (b', c')).
Qed.

Lemma sim_claim x y ns out m :
  flat_op (OClaim x y ns) (view h W) = Some (out, m) → wp (run_op (OClaim x y ns) W) h (sim out m).
Proof.
  cbn [flat_op run_op]. intros (s & Hs & (t & Ht & Hp)%bind_Some)%bind_Some.
  destruct (Z.eqb_spec x y) as [|Hne]; [done|]. apply put_Some in Hp as (Hfit & -> & ->).
  destruct (two_lists x y s t Hs Ht Hne) as (b & c & Hx & Hy & -> & -> & Hl1 & Hl2 & Hb & Hc & Hdis).
  unfold CEPH_BUFFER_APPEND_SIZE in *. destruct (clear_ok h b Hb) as [Hcl Hcc].
  wstep. apply wp_distinct; [done|]. wstep. apply (wp_get _ _ _ b); [done|]. wstep. apply (wp_get _ _ _ c); [done|]. wstep.
  eapply wp_mono; [apply (wp_claim h (list_clear b) c ns false); [apply HW|done|done| |cbn; lia]|].
  { by intros n ?%not_elem_of_nil. }
  intros [b' c'] h' Hst. apply wp_ret. rewrite Hcc in Hst. apply (sim_claim_step x y b c _ h' (b', c') Hx Hy Hne).
  destruct Hst as [S1 S2 S3 S4 S5 S6 S7 S8 S9 S10]. split; try done.
  - intros n q Hq. destruct (S5 n q Hq) as [?|Hbe]; [by left|right]. eapply below_mono; [|exact Hbe].
    intros p [[k Hk]|?]; [by apply not_elem_of_nil in Hk|by right].
  - intros n Hn. destruct (S6 n Hn) as [Hk|?]; [by apply not_elem_of_nil in Hk|by right].
Qed.

Lemma sim_swap x y out m :
  flat_op (OSwap x y) (view h W) = Some (out, m) → wp (run_op (OSwap x y) W) h (sim out m).
Proof.
  cbn [flat_op run_op]. intros (s & Hs & (t & Ht & Hp)%bind_Some)%bind_Some.
  destruct (Z.eqb_spec x y) as [|Hne]; [done|]. apply put_Some in Hp as (_ & -> & ->).
  destruct (two_lists x y s t Hs Ht Hne) as (b & c & Hx & Hy & -> & -> & _).
  wstep. apply wp_distinct; [done|]. wstep. apply (wp_get _ _ _ b); [done|]. wstep. apply (wp_get _ _ _ c); [done|].
  apply wp_ret. pose proof (world_swap h W x b y c HW Hx Hy Hne) as Hsw. cbn in Hsw. destruct Hsw. done.
Qed.

Lemma sim_substr x y off len out m :
  flat_op (OSubstr x y off len) (view h W) = Some (out, m) → wp (run_op (OSubstr x y off len) W) h (sim out m).
Proof.
  cbn [flat_op run_op]. intros (s & Hs & (t & Ht & Hp)%bind_Some)%bind_Some.
  destruct (Z.eqb_spec x y) as [|Hne]; [done|]. cbn [orb] in Hp.
  destruct (in_range off len t) eqn:Hr; [|done]. cbn [negb] in Hp. apply in_range_true in Hr as (? & ? & ?).
  apply put_Some in Hp as (Hfit & -> & ->).
  destruct (two_lists x y s t Hs Ht Hne) as (b & c & Hx & Hy & -> & -> & Hl1 & Hl2 & Hb & Hc & _).
  wstep. apply wp_distinct; [done|]. wstep. apply (wp_get _ _ _ b); [done|]. wstep. apply (wp_get _ _ _ c); [done|]. wstep.
  eapply wp_mono; [apply wp_substr_of; [apply HW|done|done|lia|lia|lia]|].
  intros b' h' (Hst & Hcc). apply wp_ret. eapply sim_step; [done|exact Hst| |done].
  intros q Hq. by apply (within_world y c).
Qed.

Lemma zsplice_0 off d : 0 ≤ off ≤ zlen d → zslice 0 off d ++ zdrop (off + 0) d = d.
Proof. intros. unfold zslice, zdrop. cbn [Z.to_nat drop]. rewrite Z.add_0_r. apply take_drop. Qed.

Lemma sim_splice x off len out m :
  flat_op (OSplice x off len) (view h W) = Some (out, m) → wp (run_op (OSplice x off len) W) h (sim out m).
Proof.
  cbn [flat_op run_op]. intros (s & Hs & Hp)%bind_Some. destruct (in_range off len s) eqn:Hr; [|done].
  apply in_range_true in Hr as (? & ? & ?). apply put_Some in Hp as (Hfit & -> & ->).
  apply view_Some in Hs as (b & Hx & ->). destruct (len_contents x b Hx) as [Hl Hb].
  wstep. apply (wp_get _ _ _ b); [done|]. wstep. destruct (Z.eq_dec len 0) as [->|Hz].
  { unfold list_splice. cbn [Z.eqb]. apply wp_ret. apply wp_ret. rewrite zsplice_0 by lia.
    eapply sim_step; [done|by apply (list_step_refl (ptrs_of b)); [apply HW|..]| |done]. intros q Hq. by eapply in_world_self. }
  eapply wp_mono; [apply (wp_splice h b off len None); [apply HW|done|lia|lia|lia|done]|].
  intros [b' c'] h' (_ & Hst & Hcc & _). apply wp_ret. eapply sim_step; [done|exact Hst| |done].
  intros q Hq. by apply (within_world x b).
Qed.

Lemma sim_clear x out m :
  flat_op (OClear x) (view h W) = Some (out, m) → wp (run_op (OClear x) W) h (sim out m).
Proof.
  cbn [flat_op run_op]. intros (s & Hs & Hp)%bind_Some. apply put_Some in Hp as (_ & -> & ->).
  apply view_Some in Hs as (b & Hx & ->). destruct (len_contents x b Hx) as [Hl Hb].
  wstep. apply (wp_get _ _ _ b); [done|]. apply wp_ret.
  eapply (sim_step (λ _, False)); [done| |done|done]. split; try done.
  - apply HW.
  - apply grows_refl.
  - by apply clear_ok.
  - by intros n q ?%not_elem_of_nil.
  - by intros n ?%not_elem_of_nil.
Qed.

Lemma sim_rebuild x out m :
  flat_op (ORebuild x) (view h W) = Some (out, m) → wp (run_op (ORebuild x) W) h (sim out m).
Proof.
  cbn [flat_op run_op]. intros (s & Hs & Hp)%bind_Some. apply put_Some in Hp as (_ & -> & ->).
  apply view_Some in Hs as (b & Hx & ->). destruct (len_contents x b Hx) as [Hl Hb].
  wstep. apply (wp_get _ _ _ b); [done|]. wstep.
  eapply wp_mono; [apply wp_rebuild; [apply HW|done]|]. intros b' h' (Hst & Hcc & _). apply wp_ret.
  eapply sim_step; [done|exact Hst| |done]. intros q Hq. by eapply in_world_self.
Qed.

Lemma sim_read x off len out m :
  flat_op (ORead x off len) (view h W) = Some (out, m) → wp (run_op (ORead x off len) W) h (sim out m).
Proof.
  cbn [flat_op run_op]. intros (s & Hs & Hp)%bind_Some. destruct (in_range off len s) eqn:Hr; [|done].
  apply in_range_true in Hr as (? & ? & ?). injection Hp as <- <-.
  apply view_Some in Hs as (b & Hx & ->). destruct (len_contents x b Hx) as [Hl Hb].
  pose proof (bo_limit _ _ Hb) as Hlim. unfold LIMIT in Hlim.
  wstep. apply (wp_get _ _ _ b); [done|]. wstep.
  pose proof (seek_spec h b off Hb ltac:(lia)) as Hsk. rewrite (proj2 (Z.leb_le _ _)) in Hsk by lia.
  destruct Hsk as (it & E & suf & Hi). unfold wp at 1. rewrite E. wstep.
  assert (i_off it = off) as Ho by (by destruct Hi as (? & ? & ? & ? & _)).
  pose proof (iter_copy_run h b it len (wo_heap _ _ HW) Hb ltac:(right; rewrite Ho; by exists suf) ltac:(lia)) as Hc.
  rewrite Ho, (proj2 (Z.leb_le _ _)) in Hc by lia. destruct Hc as (it' & E' & _). unfold wp at 1. rewrite E'. by apply wp_ret.
Qed.

Lemma sim_new x out m :
  flat_op (ONew x) (view h W) = Some (out, m) → wp (run_op (ONew x) W) h (sim out m).
Proof.
  cbn [flat_op run_op]. case_bool_decide as Hx; [|done]. intros (_ & -> & ->)%put_Some.
  unfold view in Hx. rewrite lookup_fmap in Hx. apply fmap_None in Hx. rewrite bool_decide_true by done. apply wp_ret.
  split_and!; [done| |unfold view; by rewrite fmap_insert].
  assert (∀ q, ¬ ptrs_of list_new q) as Hno by (by intros q [n ?%not_elem_of_nil]).
  split.
  - apply HW.
  - intros y c. rewrite lookup_insert_Some. intros [[<- <-]|[_ Hy]]; [apply list_new_ok|by eapply wo_list].
  - intros y c z e q. rewrite !lookup_insert_Some. intros [[<- <-]|[? Hy]] [[<- <-]|[? Hz]] Hq; try (by destruct (Hno q)).
    + intros Hraw. exfalso. destruct Hq as [n Hq]. pose proof (bo_nodes _ _ (wo_list _ _ HW z e Hz)) as HF.
      eapply Forall_forall in HF; [|exact Hq]. destruct HF as (_ & (r & w & Hr & _) & _). cbn in Hr, Hraw. congruence.
    + by apply (wo_tail _ _ HW y c z e).
  - intros y c z e r. rewrite !lookup_insert_Some. intros [[<- <-]|[? Hy]] [[<- <-]|[? Hz]] Hne Hr; try done.
    by apply (wo_append _ _ HW y c z e).
  - intros y c z e n. rewrite !lookup_insert_Some. intros [[<- <-]|[? Hy]] [[<- <-]|[? Hz]] Hne Hn; try done.
    + by apply not_elem_of_nil in Hn.
    + apply not_elem_of_nil.
    + by apply (wo_nodes _ _ HW y c z e).
Qed.

End ops.

(** A piece moves from one list to another. *)
Lemma world_splice_to h W x b y c d1 d2 h' b' c' :
  world_ok h W → W !! x = Some b → W !! y = Some c → x ≠ y → heap_ok h' →
  list_step (within (b_buffers b)) h b h' b' → contents h' b' = d1 →
  list_step (λ q, ptrs_of c q ∨ within (b_buffers b) q) h c h' c' → contents h' c' = d2 →
  (∀ n, n ∈ (b_buffers b').*1 → n ∉ (b_buffers c').*1) →
  sim [] (<[x := d1]> (<[y := d2]> (view h W))) ([], <[x := b']> (<[y := c']> W)) h'.
Proof.
  intros HW Hx Hy Hxy Hh' Hb Hc1 Hc Hc2 Hdis. pose proof (ls_grows _ _ _ _ _ Hb) as Hg.
  split_and!; [done| |unfold view; rewrite !fmap_insert; fold (view h' W); rewrite (view_grows h W h') by done; by subst].
  assert (∀ q, within (b_buffers b) q → in_world W q) as Hw by (intros q Hq; eapply within_world; [exact Hx|exact Hq]).
  apply (world_intro h W); [done|done|apply Hg| |].
  - intros z e. rewrite !lookup_insert_Some. intros [[<- <-]|[Hne [[<- <-]|[Hne2 Hz]]]].
    + split_and!; [apply Hb|exists b; split; [done|apply Hb]|]. intros q [n Hq].
      destruct (ls_cover _ _ _ _ _ Hb n q Hq) as [?|Hbe]; [by left|right].
      apply in_world_below. eapply below_mono; [|exact Hbe]. done.
    + split_and!; [apply Hc|exists c; split; [done|apply Hc]|]. intros q [n Hq].
      destruct (ls_cover _ _ _ _ _ Hc n q Hq) as [?|Hbe]; [by left|right].
      apply in_world_below. eapply below_mono; [|exact Hbe]. intros p [Hp|Hp]; [by apply (in_world_self W y c)|auto].
    + split_and!; [eapply grows_blist; [done|by eapply wo_list]|by exists e|]. intros q Hq. right. by eapply in_world_self.
  - assert (∀ z e n, W !! z = Some e → z ≠ x → n ∈ (b_buffers b').*1 → n ∉ (b_buffers e).*1) as Hnb.
    { intros z e n Hz Hne Hn Hne2. destruct (ls_nodes _ _ _ _ _ Hb n Hn) as [?|?].
      - by apply (wo_nodes _ _ HW x b z e n); try congruence.
      - pose proof (node_old _ _ _ _ _ HW Hz Hne2). lia. }
    assert (∀ z e n, W !! z = Some e → z ≠ y → n ∈ (b_buffers c').*1 → n ∉ (b_buffers e).*1) as Hnc.
    { intros z e n Hz Hne Hn Hne2. destruct (ls_nodes _ _ _ _ _ Hc n Hn) as [?|?].
      - by apply (wo_nodes _ _ HW y c z e n); try congruence.
      - pose proof (node_old _ _ _ _ _ HW Hz Hne2). lia. }
    intros z e w f n. rewrite !lookup_insert_Some.
    intros [[<- <-]|[? [[<- <-]|[? Hz]]]] [[<- <-]|[? [[<- <-]|[? Hw2]]]] Hne Hn; try done.
    + by apply Hdis.
    + by apply (Hnb w f n); try congruence.
    + intros Hn2. by apply (Hdis n).
    + by apply (Hnc w f n); try congruence.
    + intros Hn2. by apply (Hnb z e n); try congruence.
    + intros Hn2. by apply (Hnc z e n); try congruence.
    + by apply (wo_nodes _ _ HW z e w f n).
Qed.

Lemma sim_splice_to h W x off len y out m :
  world_ok h W → flat_op (OSpliceTo x off len y) (view h W) = Some (out, m) →
  wp (run_op (OSpliceTo x off len y) W) h (sim out m).
Proof.
  intros HW. cbn [flat_op run_op]. intros (s & Hs & (t & Ht & Hp)%bind_Some)%bind_Some.
  destruct (Z.eqb_spec x y) as [|Hne]; [done|]. cbn [orb] in Hp.
  destruct (in_range off len s) eqn:Hr; [|done]. apply in_range_true in Hr as (? & ? & ?).
  destruct (fits (t ++ zslice off len s)) eqn:Hft; [|done]. cbn [negb orb] in Hp.
  unfold fits in Hft. apply Z.ltb_lt in Hft. rewrite zlen_app, zlen_zslice in Hft by done.
  apply put_Some in Hp as (Hfit & -> & ->).
  destruct (two_lists h W HW x y s t Hs Ht Hne) as (b & c & Hx & Hy & -> & -> & Hl1 & Hl2 & Hb & Hc & Hdis).
  wstep. apply wp_distinct; [done|]. wstep. apply (wp_get _ _ _ b); [done|]. wstep. apply (wp_get _ _ _ c); [done|]. wstep.
  destruct (Z.eq_dec len 0) as [->|Hz].
  { unfold list_splice. cbn [Z.eqb]. apply wp_ret. apply wp_ret. rewrite zsplice_0, zslice_0, app_nil_r by lia.
    rewrite (insert_id W y c) by done. rewrite (insert_id W x b) by done.
    rewrite (insert_id (view h W) y) by (by apply lookup_view). rewrite insert_id by (by apply lookup_view). done. }
  unfold CEPH_BUFFER_APPEND_SIZE in *.
  eapply wp_mono; [apply (wp_splice h b off len (Some c)); [apply HW|done|lia|lia|lia|split; [done|lia]]|].
  intros [b' c'] h' (Hh' & Hst & Hcc & Hcl & Hnd). apply wp_ret. destruct c' as [c'|]; [|done]. destruct Hcl as [Hcl Hcc2].
  eapply world_splice_to; try done. intros n Hn Hn1. specialize (Hnd c c' n eq_refl eq_refl Hn Hn1).
  destruct (ls_nodes _ _ _ _ _ Hst n Hn) as [Hold|Hge]; [by apply (Hdis n)|].
  pose proof (node_old _ _ _ _ _ HW Hy Hnd). lia.
Qed.

Lemma run_op_sim h W o out m :
  world_ok h W → flat_op o (view h W) = Some (out, m) → wp (run_op o W) h (sim out m).
Proof.
  intros HW Hf. destruct o.
  - by apply sim_new.
  - by apply sim_append.
  - by apply sim_append_char.
  - by apply sim_append_zero.
  - by apply sim_append_list.
  - by apply sim_assign.
  - by apply sim_claim.
  - by apply sim_claim_append.
  - by apply sim_claim_prepend.
  - by apply sim_swap.
  - by apply sim_substr.
  - by apply sim_splice.
  - by apply sim_splice_to.
  - by apply sim_clear.
  - by apply sim_rebuild.
  - by apply sim_read.
Qed.

(** ** Whole programs *)

Fixpoint run_prog (os : list bop) (W : world) : M (list bytes * world) :=
  match os with
  | [] => mret ([], W)
  | o :: os => '(d, W) ← run_op o W; '(ds, W) ← run_prog os W; mret (d :: ds, W)
  end.

Fixpoint flat_prog (os : list bop) (m : gmap Z bytes) : option (list bytes * gmap Z bytes) :=
  match os with
  | [] => Some ([], m)
  | o :: os => '(d, m) ← flat_op o m; '(ds, m) ← flat_prog os m; Some (d :: ds, m)
  end.

Lemma run_prog_sim os h W outs m :
  world_ok h W → flat_prog os (view h W) = Some (outs, m) →
  wp (run_prog os W) h (λ '(ds, W') h', ds = outs ∧ world_ok h' W' ∧ view h' W' = m).
Proof.
  revert h W outs m. induction os as [|o os IH]; intros h W outs m HW Hf; cbn [flat_prog run_prog] in *.
  { injection Hf as <- <-. by apply wp_ret. }
  apply bind_Some in Hf as ([d m1] & Ho & Hf). apply bind_Some in Hf as ([ds m2] & Hos & [= <- <-]).
  wstep. eapply wp_mono; [by apply run_op_sim|]. intros [d' W1] h1 (-> & HW1 & <-). wstep.
  eapply wp_mono; [by apply IH|]. intros [ds' W2] h2 (-> & HW2 & <-). by apply wp_ret.
Qed.

Lemma world_empty h : heap_ok h → world_ok h ∅.
Proof. intros Hh. by split. Qed.

(** C7: a program over any number of buffer lists - appending bytes and lists,
    assigning, claiming, swapping, taking and cutting out parts, rebuilding,
    reading - computes what it computes on plain strings: the lists hold the
    strings, the reads return them, no assertion fails and no memory is read
    that is not there, although the lists share their memory and append in
    place. *)
Theorem buffer_refines os h W outs m :
  world_ok h W → flat_prog os (view h W) = Some (outs, m) →
  ∃ W' h', run_prog os W h = (Ok (outs, W'), h') ∧ world_ok h' W' ∧ view h' W' = m.
Proof.
  intros HW Hf. pose proof (run_prog_sim os h W outs m HW Hf) as H.
  apply wp_ok in H as ([ds W'] & h' & E & -> & HW' & Hv). by exists W', h'.
Qed.

Definition demo_prog : list bop :=
  [ONew 1; OAppend 1 "hello"; ONew 2; OAssign 2 1; OAppend 1 " world"; OAppend 2 " there"; ONew 3; OSubstr 3 1 3 5;
   OSpliceTo 1 0 6 2; OClaimPrepend 3 1 false; ORead 1 0 0; ORead 2 0 17; ORead 3 0 10].

Lemma buffer_refines_witness :
  ∃ W' h', run_prog demo_prog ∅ heap0 = (Ok (replicate 10 [] ++ [[]; "hello therehello "; "worldlo wo"], W'), h') ∧ world_ok h' W'.
Proof.
  assert (∃ m, flat_prog demo_prog (view heap0 ∅) =
    Some (replicate 10 [] ++ [[]; "hello therehello "; "worldlo wo"], m)) as [m Hm]
    by (eexists; vm_compute; reflexivity).
  destruct (buffer_refines demo_prog heap0 ∅ _ m (world_empty heap0 heap0_ok) Hm) as (W' & h' & E & HW & _).
  exists W', h'. split; [exact E|exact HW].
Defined.

(** Out of range, reading and taking a part throw. *)
Lemma read_throws h W x b off len :
  world_ok h W → W !! x = Some b → 0 ≤ off → 0 ≤ len → off + len < 2 ^ 31 → b_len b < off + len →
  run_op (ORead x off len) W h = (Throw, h).
Proof.
  intros HW Hx ?? ? Hgt. pose proof (wo_list _ _ HW x b Hx) as Hb. cbn [run_op].
  rewrite (bind_ok _ _ _ b h) by (unfold get; by rewrite Hx).
  pose proof (seek_spec h b off Hb ltac:(lia)) as Hsk. destruct (Z.leb_spec off (b_len b)); [|by rewrite (bind_throw _ _ _ _ Hsk)].
  destruct Hsk as (it & E & suf & Hi). rewrite (bind_ok _ _ _ _ _ E).
  assert (i_off it = off) as Ho by (by destruct Hi as (? & ? & ? & ? & _)).
  pose proof (iter_copy_run h b it len (wo_heap _ _ HW) Hb ltac:(right; rewrite Ho; by exists suf) ltac:(lia)) as Hc.
  rewrite Ho, (proj2 (Z.leb_gt _ _)) in Hc by lia. by rewrite (bind_throw _ _ _ _ Hc).
Qed.
