(* ===== verification/Escape.v ===== *)
(** * Escaping for responses ([src/src/common/escape.c], [src/src/common/mime.c])

    [escape_xml_attr] and [escape_json_attr] write into a buffer whose size the
    caller takes from the [_len] functions; here they are the bytes they write,
    the null terminator included.  [unescape_xml] is what a reader of XML makes
    of the result.  [mime_encode_as_qp] and [mime_decode_from_qp] write with
    [snprintf] into a buffer of a given size. *)

From S2P Require Import Prelude CString Http Utf8.

(** ** XML *)

Definition LESS_THAN_XESCAPE : str := "&lt;".
Definition AMPERSAND_XESCAPE : str := "&amp;".
Definition GREATER_THAN_XESCAPE : str := "&gt;".
Definition SGL_QUOTE_XESCAPE : str := "&apos;".
Definition DBL_QUOTE_XESCAPE : str := "&quot;".

(** Control characters other than tab and newline. *)
Definition xml_control (c : Z) : bool :=
  ((c <? 32) && negb (c =? 9) && negb (c =? 10)) || (c =? 127).

Definition hex2 (c : Z) : str := [hex_lower (c / 16); hex_lower (c mod 16)].

Definition escape_xml_char (b : ascii) : str :=
  if decide (b = "<"%char) then LESS_THAN_XESCAPE
  else if decide (b = "&"%char) then AMPERSAND_XESCAPE
  else if decide (b = ">"%char) then GREATER_THAN_XESCAPE
  else if decide (b = "'"%char) then SGL_QUOTE_XESCAPE
  else if decide (b = QUOTE) then DBL_QUOTE_XESCAPE
  else if xml_control (uchar b) then "&#x" ++ hex2 (uchar b) ++ ";"
  else [b].

Definition escape_xml_char_len (b : ascii) : Z :=
  if decide (b = "<"%char) then 4
  else if decide (b = "&"%char) then 5
  else if decide (b = ">"%char) then 4
  else if decide (b = "'"%char) then 6
  else if decide (b = QUOTE) then 6
  else if xml_control (uchar b) then 6
  else 1.

(** The loop ends at the null character. *)
Fixpoint escape_xml_loop (buf : str) : str :=
  match buf with
  | [] => []
  | b :: buf => if decide (b = NUL) then [] else escape_xml_char b ++ escape_xml_loop buf
  end.
Definition escape_xml_attr (buf : str) : str := escape_xml_loop buf ++ [NUL].

Fixpoint escape_xml_len_loop (buf : str) (ret : Z) : Z :=
  match buf with
  | [] => ret
  | b :: buf => if decide (b = NUL) then ret else escape_xml_len_loop buf (ret + escape_xml_char_len b)
  end.
Definition escape_xml_attr_len (buf : str) : Z := escape_xml_len_loop buf 0 + 1.

(** ** JSON *)

Definition escape_json_char (b : ascii) : str :=
  if decide (b = QUOTE) then ["\"%char; QUOTE]
  else if decide (b = "\"%char) then "\\"
  else if decide (b = "/"%char) then "\/"
  else if decide (b = chr 9) then "\t"
  else if decide (b = chr 10) then "\n"
  else if (uchar b <? 32) || (uchar b =? 127) then "\u00" ++ hex2 (uchar b)
  else [b].

Definition escape_json_char_len (b : ascii) : Z :=
  if decide (b = QUOTE) then 2
  else if decide (b = "\"%char) then 2
  else if decide (b = "/"%char) then 2
  else if decide (b = chr 9) then 2
  else if decide (b = chr 10) then 2
  else if (uchar b <? 32) || (uchar b =? 127) then 6
  else 1.

Fixpoint escape_json_loop (buf : str) : str :=
  match buf with [] => [] | b :: buf => escape_json_char b ++ escape_json_loop buf end.
Definition escape_json_attr (buf : str) : str := escape_json_loop buf ++ [NUL].

Fixpoint escape_json_len_loop (buf : str) (ret : Z) : Z :=
  match buf with [] => ret | b :: buf => escape_json_len_loop buf (ret + escape_json_char_len b) end.
Definition escape_json_attr_len (buf : str) : Z := escape_json_len_loop buf 0 + 1.

(** ** Reading escaped text *)

Definition hex_value (c : ascii) : option Z :=
  let n := uchar c in
  if (48 <=? n) && (n <=? 57) then Some (n - 48)
  else if (97 <=? n) && (n <=? 102) then Some (n - 87)
  else None.

(** What stands for the entity [&e;]. *)
Definition entity (e : str) : option ascii :=
  if decide (e = "lt") then Some "<"%char
  else if decide (e = "amp") then Some "&"%char
  else if decide (e = "gt") then Some ">"%char
  else if decide (e = "apos") then Some "'"%char
  else if decide (e = "quot") then Some QUOTE
  else match e with
       | ["#"%char; "x"%char; a; b] => x ← hex_value a; y ← hex_value b; Some (chr (16 * x + y))
       | _ => None
       end.

(** [ent] holds what was read of an entity. *)
Fixpoint unescape_loop (ent : option str) (s : str) : option str :=
  match s with
  | [] => match ent with None => Some [] | Some _ => None end
  | c :: s =>
      match ent with
      | None =>
          if decide (c = "&"%char) then unescape_loop (Some []) s
          else r ← unescape_loop None s; Some (c :: r)
      | Some e =>
          if decide (c = ";"%char) then d ← entity e; r ← unescape_loop None s; Some (d :: r)
          else unescape_loop (Some (e ++ [c])) s
      end
  end.
Definition unescape_xml (s : str) : option str := unescape_loop None s.

(** ** Facts *)

Lemma forall_ascii (P : ascii → bool) :
  forallb P (map ascii_of_nat (seq 0 256)) = true → ∀ c, P c = true.
Proof.
  intros H c. eapply forallb_forall in H; [exact H|]. apply in_map_iff. exists (nat_of_ascii c).
  split; [apply ascii_nat_embedding|]. apply in_seq. pose proof (nat_ascii_bounded c). lia.
Qed.

Definition is_entity_char (c : ascii) : bool := negb (bool_decide (c = ";"%char)).

(** Every escape is one plain character or one entity that stands for it. *)
Definition escape_ok (b : ascii) : bool :=
  bool_decide (unescape_loop None (escape_xml_char b) = Some [b]) &&
  forallb (λ c, negb (bool_decide (c = "<"%char)) && negb (bool_decide (c = ">"%char))) (escape_xml_char b) &&
  bool_decide (zlen (escape_xml_char b) = escape_xml_char_len b) &&
  match escape_xml_char b with
  | [c] => bool_decide (c ≠ "&"%char ∧ c = b)
  | c :: e => bool_decide (c = "&"%char) && bool_decide (last e = Some ";"%char) &&
              forallb is_entity_char (removelast e) && bool_decide (entity (removelast e) = Some b)
  | [] => false
  end.

Lemma escape_ok_all b : escape_ok b = true.
Proof. revert b. apply forall_ascii. vm_compute. reflexivity. Qed.

Lemma unescape_entity acc e s :
  forallb is_entity_char e = true →
  unescape_loop (Some acc) (e ++ ";"%char :: s) = (d ← entity (acc ++ e); r ← unescape_loop None s; Some (d :: r)).
Proof.
  revert acc. induction e as [|c e IH]; intros acc He; cbn [app unescape_loop].
  - by rewrite decide_True, app_nil_r.
  - cbn in He. apply andb_true_iff in He as [Hc He]. unfold is_entity_char in Hc.
    apply negb_true_iff, bool_decide_eq_false in Hc. rewrite decide_False by done.
    rewrite IH by done. by rewrite <- app_assoc.
Qed.

Lemma unescape_char b s : unescape_loop None (escape_xml_char b ++ s) = (r ← unescape_loop None s; Some (b :: r)).
Proof.
  pose proof (escape_ok_all b) as H. unfold escape_ok in H. apply andb_true_iff in H as [_ H].
  destruct (escape_xml_char b) as [|c [|c2 e]]; [done| |].
  - apply bool_decide_eq_true in H as [Hc ->]. cbn. by rewrite decide_False.
  - rewrite !andb_true_iff, !bool_decide_eq_true in H. destruct H as (((-> & Hl) & Hf) & He).
    apply last_Some in Hl as [e' Heq]. rewrite Heq in Hf, He |- *. rewrite removelast_last in Hf, He.
    cbn [app unescape_loop]. rewrite decide_True, <- app_assoc by done. cbn [app].
    rewrite unescape_entity by done. cbn [app]. by rewrite He.
Qed.

Lemma unescape_escape s : unescape_xml (escape_xml_loop s) = Some (cstr s).
Proof.
  unfold unescape_xml. induction s as [|b s IH]; [done|]. cbn [escape_xml_loop cstr]. case_decide; [done|].
  by rewrite unescape_char, IH.
Qed.

(** Neither [<] nor [>] is left. *)
Definition no_angle (s : str) : Prop := Forall (λ c, c ≠ "<"%char ∧ c ≠ ">"%char) s.

Lemma escape_no_angle s : no_angle (escape_xml_loop s).
Proof.
  induction s as [|b s IH]; [constructor|]. cbn. case_decide as Hn; [constructor|]. apply Forall_app. split; [|done].
  pose proof (escape_ok_all b) as H. unfold escape_ok in H. rewrite !andb_true_iff in H. destruct H as (((_ & H) & _) & _).
  apply Forall_forall. intros c Hc. eapply forallb_forall in H; [|by apply list_elem_of_In].
  rewrite andb_true_iff, !negb_true_iff, !bool_decide_eq_false in H. done.
Qed.

Lemma escape_xml_len_loop_spec s ret : escape_xml_len_loop s ret = ret + zlen (escape_xml_loop s).
Proof.
  revert ret. induction s as [|b s IH]; intros ret; cbn; [rewrite zlen_nil; lia|]. case_decide as Hn; [rewrite zlen_nil; lia|].
  rewrite IH, zlen_app. pose proof (escape_ok_all b) as H. unfold escape_ok in H. rewrite !andb_true_iff in H.
  destruct H as ((_ & H) & _). apply bool_decide_eq_true in H. lia.
Qed.

Lemma escape_json_len_loop_spec s ret : escape_json_len_loop s ret = ret + zlen (escape_json_loop s).
Proof.
  assert (∀ b, bool_decide (zlen (escape_json_char b) = escape_json_char_len b) = true) as Hb
    by (apply forall_ascii; vm_compute; reflexivity).
  revert ret. induction s as [|b s IH]; intros ret; cbn; [rewrite zlen_nil; lia|].
  rewrite IH, zlen_app. specialize (Hb b). apply bool_decide_eq_true in Hb. lia.
Qed.

Lemma escape_no_nul s : NUL ∉ escape_xml_loop s.
Proof.
  assert (∀ b, bool_decide (b = NUL) || forallb (λ c, negb (bool_decide (c = NUL))) (escape_xml_char b) = true) as Hb
    by (apply forall_ascii; vm_compute; reflexivity).
  induction s as [|b s IH]; cbn; [apply not_elem_of_nil|]. case_decide as Hn; [apply not_elem_of_nil|].
  rewrite elem_of_app. intros [H|H]; [|done]. specialize (Hb b). rewrite bool_decide_eq_false_2 in Hb by done.
  eapply forallb_forall in Hb; [|by apply list_elem_of_In]. by rewrite bool_decide_eq_true_2 in Hb.
Qed.

Lemma cstr_terminated s t : NUL ∉ s → cstr (s ++ NUL :: t) = s.
Proof.
  induction s as [|c s IH]; cbn; intros Hs; [done|]. rewrite not_elem_of_cons in Hs. destruct Hs as [Hc Hs].
  rewrite decide_False by congruence. by rewrite IH.
Qed.

(** What [escape_xml_attr] and [escape_json_attr] write fills exactly the buffer
    their callers allocate, the size of which is computed by another loop; and a
    reader of XML gets the string back, up to the first null character, from
    text without angle brackets. *)
Lemma escape_spec s :
  zlen (escape_xml_attr s) = escape_xml_attr_len s ∧ zlen (escape_json_attr s) = escape_json_attr_len s ∧
  unescape_xml (cstr (escape_xml_attr s)) = Some (cstr s) ∧ no_angle (cstr (escape_xml_attr s)).
Proof.
  unfold escape_xml_attr, escape_json_attr, escape_xml_attr_len, escape_json_attr_len.
  rewrite escape_xml_len_loop_spec, escape_json_len_loop_spec, !zlen_app, zlen_cons, zlen_nil.
  split; [lia|]. split; [lia|]. rewrite cstr_terminated by apply escape_no_nul.
  split; [apply unescape_escape|apply escape_no_angle].
Qed.

(** ** Quoted-printable

    [output] is the buffer the caller passes and [outlen] the room left in it
    from the offset [o]; a write outside the buffer is [None]. *)

Definition write_at (output : str) (o : nat) (text : str) : option str :=
  if decide (o + length text <= length output)%nat
  then Some (take o output ++ text ++ drop (o + length text) output) else None.

(** [snprintf(o, outlen, …)] of a text without truncating conversions. *)
Definition snprintf_at (output : str) (o : nat) (outlen : Z) (text : str) : option str :=
  if outlen <=? 0 then Some output else write_at output o (take (Z.to_nat (outlen - 1)) text ++ [NUL]).

Definition qp_special (c : ascii) : bool :=
  (128 <=? uchar c) || bool_decide (c = "="%char) || is_control_character (uchar c).

Definition qp_escape (c : ascii) : str := ["="%char; hex_upper (uchar c / 16); hex_upper (uchar c mod 16)].

Fixpoint qp_encode_loop (i : str) (output : str) (o : nat) (outlen ret : Z) : option (Z * str) :=
  match i with
  | [] => Some (ret, output)
  | c :: i =>
      if decide (c = NUL) then Some (ret, output)
      else if qp_special c then
        if 3 <=? outlen then
          output ← snprintf_at output o outlen (qp_escape c);
          qp_encode_loop i output (o + 3) (outlen - 3) (ret + 3)
        else qp_encode_loop i output o 0 (ret + 3)
      else if 1 <=? outlen then
        output ← snprintf_at output o outlen [c];
        qp_encode_loop i output (o + 1) (outlen - 1) (ret + 1)
      else qp_encode_loop i output o outlen (ret + 1)
  end.
Definition mime_encode_as_qp (input output : str) (outlen : Z) : option (Z * str) :=
  qp_encode_loop input output 0 outlen 1.

Definition EDOM : Z := 33.
Definition hexchar_to_int (c : ascii) : Z :=
  let n := uchar c in
  if (48 <=? n) && (n <=? 57) then n - 48
  else if (65 <=? n) && (n <=? 70) then n - 55
  else if (97 <=? n) && (n <=? 102) then n - 87
  else - EDOM.

(** The character at the head, the null character at the end. *)
Definition head_char (i : str) : ascii := match i with [] => NUL | c :: _ => c end.

(** The write of one decoded character. *)
Definition qp_put (output : str) (o : nat) (outlen : Z) (c : ascii) : option (str * nat * Z) :=
  if 1 <=? outlen then output ← snprintf_at output o outlen [c]; Some (output, (o + 1)%nat, outlen - 1)
  else Some (output, o, outlen).

Fixpoint qp_decode_loop (i : str) (output : str) (o : nat) (outlen ret : Z) : option (Z * str) :=
  match i with
  | [] => Some (ret, output)
  | c :: i =>
      if decide (c = NUL) then Some (ret, output)
      else if 128 <=? uchar c then Some (- EDOM, output)
      else if decide (c = "="%char) then
        match i with
        | [] => Some (- EINVAL, output)
        | h :: i =>
            let high := hexchar_to_int h in
            if high <? 0 then Some (- EINVAL, output)
            else match i with
                 | [] => Some (- EINVAL, output)
                 | l :: i =>
                     let low := hexchar_to_int l in
                     if low <? 0 then Some (- EINVAL, output)
                     else '(output, o, outlen) ← qp_put output o outlen (chr (Z.shiftl high 4 + low));
                          qp_decode_loop i output o outlen (ret + 1)
                 end
        end
      else '(output, o, outlen) ← qp_put output o outlen c;
           qp_decode_loop i output o outlen (ret + 1)
  end.
Definition mime_decode_from_qp (input output : str) (outlen : Z) : option (Z * str) :=
  qp_decode_loop input output 0 outlen 1.

(** The encoded text. *)
Definition qp_char (c : ascii) : str := if qp_special c then qp_escape c else [c].
Definition qp_text (s : str) : str := concat (map qp_char (cstr s)).

(** What the buffer holds: the text written so far and, unless nothing was
    written, a null character after it. *)
Definition holds (output : str) (o : nat) (t : str) : Prop :=
  o = length t ∧ ∃ r, output = t ++ r ∧ (t ≠ [] → head_char r = NUL ∧ r ≠ []).

Lemma snprintf_holds output o outlen t x :
  holds output o t → x ≠ [] → zlen x < outlen → zlen t + outlen <= zlen output →
  ∃ output', snprintf_at output o outlen x = Some output' ∧ zlen output' = zlen output ∧
             holds output' (o + length x) (t ++ x).
Proof.
  intros [-> (r & -> & _)] Hx Hlt Hle. unfold snprintf_at, write_at. unfold zlen in *. rewrite length_app in Hle.
  destruct (outlen <=? 0) eqn:E; [lia|]. rewrite (take_ge x) by lia. rewrite !length_app. cbn [length].
  rewrite decide_True by lia. eexists. split; [reflexivity|]. rewrite take_app_length. split.
  - rewrite !length_app, length_drop, length_app. cbn [length]. lia.
  - split; [by rewrite length_app|]. eexists. split; [by rewrite <- !app_assoc|]. done.
Qed.

Lemma qp_encode_fits s output o outlen ret t :
  holds output o t → zlen (qp_text s) < outlen → zlen t + outlen <= zlen output →
  ∃ output', qp_encode_loop s output o outlen ret = Some (ret + zlen (qp_text s), output') ∧
             zlen output' = zlen output ∧ holds output' (o + length (qp_text s)) (t ++ qp_text s).
Proof.
  revert output o outlen ret t. induction s as [|c s IH]; intros output o outlen ret t Ht Hlt Hle.
  - exists output. cbn. rewrite Z.add_0_r, Nat.add_0_r, app_nil_r. done.
  - unfold qp_text in *. cbn [qp_encode_loop cstr] in *. case_decide as Hc.
    { exists output. cbn. rewrite Z.add_0_r, Nat.add_0_r, app_nil_r. done. }
    cbn [map concat] in *. rewrite zlen_app in Hlt. rewrite zlen_app, length_app, app_assoc, Nat.add_assoc, Z.add_assoc.
    pose proof (zlen_nonneg (concat (map qp_char (cstr s)))). unfold qp_char in *. fold qp_char in *.
    destruct (qp_special c) eqn:E.
    + assert (zlen (qp_escape c) = 3) as H3 by done. rewrite H3 in *.
      destruct (3 <=? outlen) eqn:E3; [|lia].
      destruct (snprintf_holds output o outlen t (qp_escape c)) as (out1 & -> & Hz & Hh); [done..|lia|done|]. cbn [mbind option_bind].
      edestruct (IH out1 (o + 3)%nat (outlen - 3) (ret + 3)) as (out2 & -> & Hz2 & Hh2); [exact Hh|lia|rewrite zlen_app; lia|].
      exists out2. split; [done|]. split; [congruence|done].
    + assert (zlen [c] = 1) as H3 by done. rewrite H3 in *. destruct (1 <=? outlen) eqn:E3; [|lia].
      destruct (snprintf_holds output o outlen t [c]) as (out1 & -> & Hz & Hh); [done..|lia|done|]. cbn [mbind option_bind].
      edestruct (IH out1 (o + 1)%nat (outlen - 1) (ret + 1)) as (out2 & -> & Hz2 & Hh2); [exact Hh|lia|rewrite zlen_app; lia|].
      exists out2. split; [done|]. split; [congruence|done].
Qed.

Lemma qp_char_ok c :
  c ≠ NUL → (qp_special c = false ∧ (128 <=? uchar c) = false ∧ c ≠ "="%char) ∨
  (qp_special c = true ∧ 0 <= hexchar_to_int (hex_upper (uchar c / 16)) ∧
   0 <= hexchar_to_int (hex_upper (uchar c mod 16)) ∧
   chr (Z.shiftl (hexchar_to_int (hex_upper (uchar c / 16))) 4 + hexchar_to_int (hex_upper (uchar c mod 16))) = c).
Proof.
  intros _. destruct (qp_special c) eqn:E; [right|left].
  - assert (∀ b, bool_decide (0 <= hexchar_to_int (hex_upper (uchar b / 16)) ∧
      0 <= hexchar_to_int (hex_upper (uchar b mod 16)) ∧
      chr (Z.shiftl (hexchar_to_int (hex_upper (uchar b / 16))) 4 + hexchar_to_int (hex_upper (uchar b mod 16))) = b) = true) as Hb
      by (apply forall_ascii; vm_compute; reflexivity).
    split; [done|]. specialize (Hb c). by apply bool_decide_eq_true in Hb.
  - unfold qp_special in E. rewrite !orb_false_iff, bool_decide_eq_false in E. tauto.
Qed.

Lemma qp_decode_char c i output o outlen ret :
  c ≠ NUL →
  qp_decode_loop (qp_char c ++ i) output o outlen ret =
  ('(output, o, outlen) ← qp_put output o outlen c; qp_decode_loop i output o outlen (ret + 1)).
Proof.
  intros Hc. unfold qp_char. destruct (qp_char_ok c Hc) as [(-> & Hh & He)|(-> & Hh & Hl & Hx)].
  - cbn [app qp_decode_loop]. by rewrite decide_False, Hh, decide_False.
  - cbn [qp_escape app qp_decode_loop]. rewrite decide_False by done. rewrite decide_True by done.
    change (128 <=? uchar "="%char) with false. cbn iota zeta.
    rewrite (proj2 (Z.ltb_ge _ _) Hh), (proj2 (Z.ltb_ge _ _) Hl), Hx. done.
Qed.

Lemma qp_put_holds output o outlen t c :
  holds output o t → 1 < outlen → zlen t + outlen <= zlen output →
  ∃ output', qp_put output o outlen c = Some (output', (o + 1)%nat, outlen - 1) ∧ zlen output' = zlen output ∧
             holds output' (o + 1) (t ++ [c]).
Proof.
  intros Ht H1 Hle. unfold qp_put. destruct (1 <=? outlen) eqn:E; [|lia].
  destruct (snprintf_holds output o outlen t [c]) as (out & -> & Hz & Hh); [done..|]. by exists out.
Qed.

Lemma cstr_NUL_free s : NUL ∉ cstr s.
Proof.
  induction s as [|c s IH]; cbn; [apply not_elem_of_nil|]. case_decide; [apply not_elem_of_nil|].
  rewrite not_elem_of_cons. by split; [congruence|].
Qed.

Lemma qp_text_NUL_free s : NUL ∉ qp_text s.
Proof.
  assert (∀ b, bool_decide (b = NUL) || forallb (λ c, negb (bool_decide (c = NUL))) (qp_char b) = true) as Hb
    by (apply forall_ascii; vm_compute; reflexivity).
  unfold qp_text. intros H. rewrite list_elem_of_In, in_concat in H. destruct H as (x & Hx & HN).
  apply in_map_iff in Hx as (c & <- & Hc). specialize (Hb c). apply orb_true_iff in Hb as [Hb|Hb].
  - apply bool_decide_eq_true in Hb as ->. by apply list_elem_of_In, cstr_NUL_free in Hc.
  - eapply forallb_forall in Hb; [|exact HN]. by rewrite bool_decide_eq_true_2 in Hb.
Qed.

Lemma qp_decode_fits s output o outlen ret t :
  holds output o t → zlen (cstr s) < outlen → zlen t + outlen <= zlen output →
  ∃ output', qp_decode_loop (qp_text s) output o outlen ret = Some (ret + zlen (cstr s), output') ∧
             holds output' (o + length (cstr s)) (t ++ cstr s).
Proof.
  unfold qp_text. assert (NUL ∉ cstr s) as Hn by apply cstr_NUL_free.
  generalize dependent (cstr s). clear s. intros s Hn. revert output o outlen ret t.
  induction s as [|c s IH]; intros output o outlen ret t Ht Hlt Hle.
  - exists output. cbn. by rewrite Z.add_0_r, Nat.add_0_r, app_nil_r.
  - rewrite not_elem_of_cons in Hn. destruct Hn as [Hc Hn]. rewrite zlen_cons in *. pose proof (zlen_nonneg s).
    cbn [map concat]. rewrite qp_decode_char by done.
    destruct (qp_put_holds output o outlen t c) as (out1 & -> & Hz & Hh); [done|lia|done|]. cbn [mbind option_bind].
    destruct (IH Hn out1 (o + 1)%nat (outlen - 1) (ret + 1) (t ++ [c])) as (out2 & -> & Hh2); [done|lia| |].
    { rewrite zlen_app, zlen_cons, zlen_nil. lia. }
    exists out2. rewrite <- app_assoc in Hh2. cbn [length]. replace (o + S (length s))%nat with (o + 1 + length s)%nat by lia.
    split; [f_equal; f_equal; lia|done].
Qed.

(** Nothing is written outside the buffer, whatever its size. *)
Lemma snprintf_safe output o outlen x :
  (Z.of_nat o + Z.max 0 outlen <= zlen output) → ∃ output', snprintf_at output o outlen x = Some output' ∧ zlen output' = zlen output.
Proof.
  intros H. unfold snprintf_at. destruct (outlen <=? 0) eqn:E; [by exists output|]. unfold write_at, zlen in *.
  set (y := take _ x). assert (length y <= Z.to_nat (outlen - 1))%nat by (unfold y; rewrite length_take; lia).
  rewrite length_app. cbn [length]. rewrite decide_True by lia. eexists. split; [done|].
  rewrite !length_app, length_take, length_drop. cbn [length]. lia.
Qed.

Lemma qp_encode_safe s output o outlen ret :
  Z.of_nat o + Z.max 0 outlen <= zlen output →
  ∃ output', qp_encode_loop s output o outlen ret = Some (ret + zlen (qp_text s), output') ∧ zlen output' = zlen output.
Proof.
  unfold qp_text. revert output o outlen ret. induction s as [|c s IH]; intros output o outlen ret H; cbn.
  { exists output. by rewrite Z.add_0_r. }
  case_decide; cbn; [exists output; by rewrite Z.add_0_r|]. rewrite zlen_app, Z.add_assoc.
  unfold qp_char at 1. destruct (qp_special c).
  - change (zlen (qp_escape c)) with 3. destruct (3 <=? outlen) eqn:E.
    + destruct (snprintf_safe output o outlen (qp_escape c) H) as (out & -> & Hz). cbn.
      destruct (IH out (o + 3)%nat (outlen - 3) (ret + 3)) as (out2 & -> & ?); [lia|]. exists out2. split; [done|congruence].
    + apply IH. lia.
  - change (zlen [c]) with 1. destruct (1 <=? outlen) eqn:E.
    + destruct (snprintf_safe output o outlen [c] H) as (out & -> & Hz). cbn.
      destruct (IH out (o + 1)%nat (outlen - 1) (ret + 1)) as (out2 & -> & ?); [lia|]. exists out2. split; [done|congruence].
    + by apply IH.
Qed.

Lemma holds_cstr output o t : holds output o t → t ≠ [] → NUL ∉ t → cstr output = t.
Proof.
  intros [_ (r & -> & H)] Ht Hn. destruct (H Ht) as [Hr Hr']. destruct r as [|c r]; [done|]. cbn in Hr. subst.
  by apply cstr_terminated.
Qed.

Lemma holds_start output : holds output 0 [].
Proof. split; [done|]. by exists output. Qed.

Lemma qp_text_nil s : qp_text s = [] → cstr s = [].
Proof. unfold qp_text. destruct (cstr s) as [|c t]; [done|]. cbn. unfold qp_char. by destruct (qp_special c). Qed.

(** [mime_encode_as_qp] returns the size its output needs and writes inside the
    buffer whatever the buffer's size is; when a string that is not empty fits,
    the buffer holds quoted-printable text, and [mime_decode_from_qp] turns
    that text back into the string. *)
Lemma mime_roundtrip s output output2 :
  (∀ outlen, outlen <= zlen output →
     ∃ output', mime_encode_as_qp s output outlen = Some (zlen (qp_text s) + 1, output') ∧ zlen output' = zlen output) ∧
  (cstr s ≠ [] → zlen (qp_text s) < zlen output → zlen (cstr s) < zlen output2 →
   ∃ output' output2',
     mime_encode_as_qp s output (zlen output) = Some (zlen (qp_text s) + 1, output') ∧
     mime_decode_from_qp (cstr output') output2 (zlen output2) = Some (zlen (cstr s) + 1, output2') ∧
     cstr output2' = cstr s).
Proof.
  unfold mime_encode_as_qp, mime_decode_from_qp. split.
  - intros outlen H. destruct (qp_encode_safe s output 0 outlen 1) as (out & -> & Hz).
    { pose proof (zlen_nonneg output). lia. }
    exists out. split; [|done]. f_equal. f_equal. lia.
  - intros Hs H1 H2. destruct (qp_encode_fits s output 0 (zlen output) 1 []) as (out & -> & Hz & Hh);
      [apply holds_start|done|rewrite zlen_nil; lia|].
    apply holds_cstr in Hh; [|intros H; by apply Hs, qp_text_nil|apply qp_text_NUL_free]. cbn [app] in Hh.
    destruct (qp_decode_fits s output2 0 (zlen output2) 1 []) as (out2 & Hd & Hh2);
      [apply holds_start|done|rewrite zlen_nil; lia|].
    apply holds_cstr in Hh2; [|done|apply cstr_NUL_free]. exists out, out2. rewrite Hh, Hd.
    split; [f_equal; f_equal; lia|]. split; [f_equal; f_equal; lia|done].
Qed.

Lemma mime_roundtrip_witness :
  ∃ output' output2',
    mime_encode_as_qp ("a=" ++ [chr 200]) (repeat NUL 8) 8 = Some (8, output') ∧
    mime_decode_from_qp (cstr output') (repeat NUL 4) 4 = Some (4, output2') ∧ cstr output2' = "a=" ++ [chr 200].
Proof.
  apply (proj2 (mime_roundtrip ("a=" ++ [chr 200]) (repeat NUL 8) (repeat NUL 4))); [done|vm_compute; reflexivity..].
Defined.

(** The empty string leaves the buffer as it is, without a null character. *)
Lemma mime_empty output outlen : mime_encode_as_qp [] output outlen = Some (1, output).
Proof. done. Qed.

(** A string that fits but for its terminator loses its last characters. *)
Example mime_truncated :
  (λ p, cstr p.2) <$> mime_encode_as_qp [chr 200] (repeat "x"%char 3) 3 = Some "=C" ∧
  (λ p, cstr p.2) <$> mime_encode_as_qp "abc" (repeat "x"%char 3) 3 = Some "ab".
Proof. split; vm_compute; reflexivity. Qed.
