(* ===== verification/Formatter.v ===== *)
(** * Output formatters ([src/src/common/Formatter.h], [src/src/common/Formatter.cc])

    [Formatter] is the interface of the abstract class; [XMLFormatter],
    [JSONFormatter] and [TableFormatter] are its implementations.  The output
    stream [m_ss] is the text it holds.  [close_section] and [flush] are
    partial: [None] is a failed [assert] or an index outside a vector.  A C
    string argument is a [str] without its terminator, and the text of a
    [printf]-like call is what its format expands to. *)

From stdpp Require Import gmap.
From S2P Require Import Prelude CString Strtol Escape.
#[local] Open Scope Z_scope.
#[local] Open Scope str_scope.

(** ** The interface *)

(** A [double] is known by what [printf]'s [%lf] and [operator<<] print of it. *)
Record double := Double { lf_text : str; shown_text : str }.

(** [FormatterAttrs]: names and values in order. *)
Abbreviation FormatterAttrs := (list (str * str)).

(** The varargs constructor reads names and values up to the first null
    pointer, in either position. *)
Fixpoint FormatterAttrs_new (args : list (option str)) : FormatterAttrs :=
  match args with
  | Some s :: Some val :: args => (s, val) :: FormatterAttrs_new args
  | _ => []
  end.

Definition LARGE_SIZE : Z := 1024.

(** [char buf[LARGE_SIZE]; vsnprintf(buf, LARGE_SIZE, …)] *)
Definition vsnprintf_buf (text : str) : str := cstr (take (Z.to_nat (LARGE_SIZE - 1)) text).

Class Formatter (F : Type) := {
  flush : F → option (str * F);
  reset : F → F;
  open_array_section : str → F → F;
  open_array_section_in_ns : str → str → F → F;
  open_object_section : str → F → F;
  open_object_section_in_ns : str → str → F → F;
  close_section : F → option F;
  dump_unsigned : str → Z → F → F;
  dump_int : str → Z → F → F;
  dump_float : str → double → F → F;
  dump_string : str → str → F → F;
  dump_stream : str → F → F;
  stream_write : str → F → F;  (** [operator<<] on the stream [dump_stream] returned *)
  dump_format_va : str → option str → bool → str → F → F;
  get_len : F → Z;
  write_raw_data : str → F → F;
  open_array_section_with_attrs : str → FormatterAttrs → F → F;
  open_object_section_with_attrs : str → FormatterAttrs → F → F;
  dump_string_with_attrs : str → str → FormatterAttrs → F → F;
}.

Section Derived.
  Context `{Formatter F}.

Definition dump_format (name text : str) : F → F := dump_format_va name None true text.
Definition dump_format_ns (name ns text : str) : F → F := dump_format_va name (Some ns) true text.
Definition dump_format_unquoted (name text : str) : F → F := dump_format_va name None false text.
Definition dump_bool (name : str) (b : bool) : F → F :=
  dump_format_unquoted name (if b then "true" else "false").
Definition dump_object (name : str) (dump : F → option F) (f : F) : option F :=
  f ← dump (open_object_section name f); close_section f.
End Derived.

(** ** XML *)

Record xml_formatter := XMLF {
  x_ss : str;
  x_pending_string : str;
  x_sections : list str;  (** the innermost first *)
  x_pretty : bool;
  x_pending_string_name : str;
}.

Definition XML_1_DTD : str :=
  "<?xml version=" ++ [QUOTE] ++ "1.0" ++ [QUOTE] ++ " encoding=" ++ [QUOTE] ++ "UTF-8" ++ [QUOTE] ++ "?>".

Definition newline : str := [chr 10].

(** [m_ss << s], and the newline of the pretty form *)
Definition x_put (s : str) (f : xml_formatter) : xml_formatter :=
  XMLF (x_ss f ++ s) (x_pending_string f) (x_sections f) (x_pretty f) (x_pending_string_name f).
Definition x_newline (f : xml_formatter) : xml_formatter := if x_pretty f then x_put newline f else f.

Definition escape_xml_str (s : str) : str := cstr (escape_xml_attr s).

Definition x_finish_pending_string (f : xml_formatter) : xml_formatter :=
  if decide (x_pending_string_name f = []) then f
  else x_newline (XMLF (x_ss f ++ escape_xml_str (x_pending_string f) ++ "</" ++ x_pending_string_name f ++ ">")
                       [] (x_sections f) (x_pretty f) []).

Definition x_print_spaces (f : xml_formatter) : xml_formatter :=
  let f := x_finish_pending_string f in
  if x_pretty f then x_put (repeat " "%char (length (x_sections f))) f else f.

Definition x_get_attrs_str (attrs : FormatterAttrs) : str :=
  concat (map (λ p, " " ++ p.1 ++ "=" ++ [QUOTE] ++ p.2 ++ [QUOTE]) attrs).

Definition x_reset (f : xml_formatter) : xml_formatter := XMLF [] [] [] (x_pretty f) [].
Definition XMLFormatter_new (pretty : bool) : xml_formatter := x_reset (XMLF [] [] [] pretty []).

Definition x_flush (f : xml_formatter) : str * xml_formatter :=
  let f := x_finish_pending_string f in
  (x_ss f ++ (if x_pretty f then newline else []),
   XMLF [] (x_pending_string f) (x_sections f) (x_pretty f) (x_pending_string_name f)).

Definition x_xmlns (ns : str) : str := " xmlns=" ++ [QUOTE] ++ ns ++ [QUOTE].

Definition x_open_section_in_ns (name : str) (ns : option str) (attrs : option FormatterAttrs)
    (f : xml_formatter) : xml_formatter :=
  let f := x_print_spaces f in
  let attrs_str := match attrs with Some a => x_get_attrs_str a | None => [] end in
  let f := match ns with
           | Some ns => x_put ("<" ++ name ++ attrs_str ++ x_xmlns ns ++ ">") f
           | None => x_put ("<" ++ name ++ attrs_str ++ ">") f
           end in
  let f := x_newline f in
  XMLF (x_ss f) (x_pending_string f) (name :: x_sections f) (x_pretty f) (x_pending_string_name f).

Definition x_close_section (f : xml_formatter) : option xml_formatter :=
  match x_sections f with
  | [] => None
  | _ :: _ =>
      let f := x_finish_pending_string f in
      match x_sections f with
      | [] => None
      | section :: rest =>
          let f := XMLF (x_ss f) (x_pending_string f) rest (x_pretty f) (x_pending_string_name f) in
          Some (x_newline (x_put ("</" ++ section ++ ">") (x_print_spaces f)))
      end
  end.

(** A leaf: the start tag with what follows the name, the text, the end tag. *)
Definition x_leaf (e more text : str) (f : xml_formatter) : xml_formatter :=
  x_newline (x_put ("<" ++ e ++ more ++ ">" ++ text ++ "</" ++ e ++ ">") (x_print_spaces f)).

Definition x_dump_stream (name : str) (f : xml_formatter) : xml_formatter :=
  let f := x_print_spaces f in
  XMLF (x_ss f ++ "<" ++ name ++ ">") (x_pending_string f) (x_sections f) (x_pretty f) name.

Definition x_stream_write (s : str) (f : xml_formatter) : xml_formatter :=
  XMLF (x_ss f) (x_pending_string f ++ s) (x_sections f) (x_pretty f) (x_pending_string_name f).

Definition x_dump_format_va (name : str) (ns : option str) (quoted : bool) (text : str)
    (f : xml_formatter) : xml_formatter :=
  let buf := vsnprintf_buf text in
  match ns with
  | Some ns => x_leaf name (x_xmlns ns) buf f
  | None => x_leaf name [] (escape_xml_str buf) f
  end.

#[export] Instance XMLFormatter : Formatter xml_formatter := {
  flush f := Some (x_flush f);
  reset := x_reset;
  open_array_section name := x_open_section_in_ns name None None;
  open_array_section_in_ns name ns := x_open_section_in_ns name (Some ns) None;
  open_object_section name := x_open_section_in_ns name None None;
  open_object_section_in_ns name ns := x_open_section_in_ns name (Some ns) None;
  close_section := x_close_section;
  dump_unsigned name u := x_leaf name [] (print_int u);
  dump_int name s := x_leaf name [] (print_int s);
  dump_float name d := x_leaf name [] (shown_text d);
  dump_string name s := x_leaf name [] (escape_xml_str s);
  dump_stream := x_dump_stream;
  stream_write := x_stream_write;
  dump_format_va := x_dump_format_va;
  get_len f := zlen (x_ss f);
  write_raw_data data := x_put data;
  open_array_section_with_attrs name attrs := x_open_section_in_ns name None (Some attrs);
  open_object_section_with_attrs name attrs := x_open_section_in_ns name None (Some attrs);
  dump_string_with_attrs name s attrs := x_leaf name (x_get_attrs_str attrs) (escape_xml_str s);
}.

(** ** JSON *)

Record json_formatter_stack_entry_d := JEntry { je_size : Z; je_is_array : bool }.

Record json_formatter := JSONF {
  j_ss : str;
  j_pending_string : str;
  j_stack : list json_formatter_stack_entry_d;  (** the innermost first *)
  j_is_pending_string : bool;
  j_pretty : bool;
}.

Definition j_put (s : str) (f : json_formatter) : json_formatter :=
  JSONF (j_ss f ++ s) (j_pending_string f) (j_stack f) (j_is_pending_string f) (j_pretty f).
Definition j_set_stack (l : list json_formatter_stack_entry_d) (f : json_formatter) : json_formatter :=
  JSONF (j_ss f) (j_pending_string f) l (j_is_pending_string f) (j_pretty f).

(** The body is compiled out ([#if 0]). *)
Definition j_print_quoted_string (s : str) (f : json_formatter) : json_formatter := f.

Definition j_finish_pending_string (f : json_formatter) : json_formatter :=
  if j_is_pending_string f then
    let f := j_print_quoted_string (j_pending_string f) f in
    JSONF (j_ss f) [] (j_stack f) false (j_pretty f)
  else f.

(** [for (unsigned i = 1; i < m_stack.size(); i++) m_ss << "    "] *)
Definition j_indent (f : json_formatter) : str := concat (repeat ("    " : str) (length (j_stack f) - 1)).

Definition j_print_comma (entry : json_formatter_stack_entry_d) (f : json_formatter) : json_formatter :=
  let f := if negb (je_size entry =? 0) then
             if j_pretty f then j_put ("," ++ newline ++ j_indent f) f else j_put "," f
           else if j_pretty f then j_put (newline ++ j_indent f) f else f in
  if j_pretty f && je_is_array entry then j_put "    " f else f.

Definition j_print_name (name : str) (f : json_formatter) : json_formatter :=
  let f := j_finish_pending_string f in
  match j_stack f with
  | [] => f
  | entry :: rest =>
      let f := j_print_comma entry f in
      let f := if je_is_array entry then f
               else let f := if j_pretty f then j_put "    " f else f in
                    j_put ([QUOTE] ++ name ++ [QUOTE] ++ (if j_pretty f then ": " else ":")) f in
      j_set_stack (JEntry (je_size entry + 1) (je_is_array entry) :: rest) f
  end.

Definition j_open_section (name : str) (is_array : bool) (f : json_formatter) : json_formatter :=
  let f := j_put (if is_array then "[" else "{") (j_print_name name f) in
  j_set_stack (JEntry 0 is_array :: j_stack f) f.

Definition j_close_section (f : json_formatter) : option json_formatter :=
  match j_stack f with
  | [] => None
  | entry :: rest =>
      let f := j_finish_pending_string f in
      let f := if j_pretty f && negb (je_size entry =? 0) then j_put (newline ++ j_indent f) f else f in
      Some (j_set_stack rest (j_put (if je_is_array entry then "]" else "}") f))
  end.

Definition j_dump_string (name s : str) (f : json_formatter) : json_formatter :=
  j_print_quoted_string s (j_print_name name f).

Definition j_dump_stream (name : str) (f : json_formatter) : json_formatter :=
  let f := j_print_name name f in
  JSONF (j_ss f) (j_pending_string f) (j_stack f) true (j_pretty f).

Definition j_dump_format_va (name : str) (ns : option str) (quoted : bool) (text : str)
    (f : json_formatter) : json_formatter :=
  let buf := vsnprintf_buf text in
  let f := j_print_name name f in
  if quoted then j_print_quoted_string buf f else j_put buf f.

(** [m_is_pending_string] is left as it is. *)
Definition j_reset (f : json_formatter) : json_formatter := JSONF [] [] [] (j_is_pending_string f) (j_pretty f).
Definition JSONFormatter_new (p : bool) : json_formatter := j_reset (JSONF [] [] [] false p).

Definition j_flush (f : json_formatter) : str * json_formatter :=
  let f := j_finish_pending_string f in
  (j_ss f ++ (if j_pretty f then newline else []),
   JSONF [] (j_pending_string f) (j_stack f) (j_is_pending_string f) (j_pretty f)).

#[export] Instance JSONFormatter : Formatter json_formatter := {
  flush f := Some (j_flush f);
  reset := j_reset;
  open_array_section name := j_open_section name true;
  open_array_section_in_ns name ns := j_open_section (name ++ " " ++ ns) true;
  open_object_section name := j_open_section name false;
  open_object_section_in_ns name ns := j_open_section (name ++ " " ++ ns) false;
  close_section := j_close_section;
  dump_unsigned name u f := j_put (print_int u) (j_print_name name f);
  dump_int name s f := j_put (print_int s) (j_print_name name f);
  dump_float name d f := j_put (take 29 (lf_text d)) (j_print_name name f);
  dump_string := j_dump_string;
  dump_stream := j_dump_stream;
  stream_write s f := JSONF (j_ss f) (j_pending_string f ++ s) (j_stack f) (j_is_pending_string f) (j_pretty f);
  dump_format_va := j_dump_format_va;
  get_len f := zlen (j_ss f);
  write_raw_data data := j_put data;
  open_array_section_with_attrs name attrs := j_open_section name true;
  open_object_section_with_attrs name attrs := j_open_section name false;
  dump_string_with_attrs name s attrs := j_dump_string name s;
}.

(** ** Tables *)

Record table_formatter := TableF {
  t_vec : list (list (str * str));
  t_ss : str;
  t_pending_name : str;
  t_keyval : bool;
  t_section_open : Z;
  t_section : list str;  (** the outermost first *)
  t_section_cnt : gmap str Z;
  t_column_size : list Z;
  t_column_name : list str;
}.

Definition t_reset (f : table_formatter) : table_formatter :=
  TableF (t_vec f) [] (t_pending_name f) (t_keyval f) 0 (t_section f) ∅ [] (t_column_name f).
Definition TableFormatter_new (keyval : bool) : table_formatter := t_reset (TableF [] [] [] keyval 0 [] ∅ [] []).

Definition t_open_section_in_ns (name : str) (f : table_formatter) : table_formatter :=
  TableF (t_vec f) (t_ss f) (t_pending_name f) (t_keyval f) (t_section_open f + 1) (t_section f ++ [name])
         (t_section_cnt f) (t_column_size f) (t_column_name f).

Definition t_close_section (f : table_formatter) : table_formatter :=
  let open := t_section_open f - 1 in
  match last (t_section f) with
  | Some b => TableF (t_vec f) (t_ss f) (t_pending_name f) (t_keyval f) open (removelast (t_section f))
                     (<[b := 0]> (t_section_cnt f)) (t_column_size f) (t_column_name f)
  | None => TableF (t_vec f) (t_ss f) (t_pending_name f) (t_keyval f) open (t_section f)
                   (t_section_cnt f) (t_column_size f) (t_column_name f)
  end.

(** The row to push to: a new one when the key repeats the last row's first. *)
Definition t_vec_index (key : str) (m_vec : list (list (str * str))) : nat * list (list (str * str)) :=
  let i := pred (length m_vec) in
  let m_vec := match m_vec with [] => [[]] | _ => m_vec end in
  match nth i m_vec [] with
  | (k, _) :: _ => if decide (k = key) then (S i, m_vec ++ [[]]) else (i, m_vec)
  | [] => (i, m_vec)
  end.

Definition t_get_section_name (name : str) (f : table_formatter) : str * table_formatter :=
  let t_name := foldl (λ t s, s ++ ":" ++ t) name (t_section f) in
  if t_section_open f =? 0 then (t_name, f)
  else let n := default 0 (t_section_cnt f !! t_name) in
       (t_name ++ "[" ++ print_int n ++ "]",
        TableF (t_vec f) (t_ss f) (t_pending_name f) (t_keyval f) (t_section_open f) (t_section f)
               (<[t_name := n + 1]> (t_section_cnt f)) (t_column_size f) (t_column_name f)).

(** [m_ss << text; m_vec[i].push_back(make_pair(get_section_name(name), m_ss.str())); m_ss.str("")] *)
Definition t_push (name text : str) (f : table_formatter) : table_formatter :=
  let '(i, vec) := t_vec_index name (t_vec f) in
  let '(label, f) := t_get_section_name name f in
  TableF (alter (λ row, row ++ [(label, t_ss f ++ text)]) i vec) [] (t_pending_name f) (t_keyval f)
         (t_section_open f) (t_section f) (t_section_cnt f) (t_column_size f) (t_column_name f).

(** [dump_string]'s own call finds no pending name. *)
Definition t_finish_pending_string (f : table_formatter) : table_formatter :=
  if decide (t_pending_name f = []) then f
  else t_push (t_pending_name f) (t_ss f)
         (TableF (t_vec f) [] [] (t_keyval f) (t_section_open f) (t_section f) (t_section_cnt f)
                 (t_column_size f) (t_column_name f)).

Definition t_dump_text (name text : str) (f : table_formatter) : table_formatter :=
  t_push name text (t_finish_pending_string f).

Definition t_dump_stream (name : str) (f : table_formatter) : table_formatter :=
  let f := t_finish_pending_string f in
  TableF (t_vec f) (t_ss f) name (t_keyval f) (t_section_open f) (t_section f) (t_section_cnt f)
         (t_column_size f) (t_column_name f).

(** [v.resize(n)] *)
Definition resize {A} (n : nat) (d : A) (v : list A) : list A := take n v ++ repeat d (n - length v).

(** [v[i] = x] on a vector, which has no element past its end *)
Definition assign_at {A} (i : nat) (x : A) (v : list A) : option (list A) :=
  if decide (i < length v)%nat then Some (<[i := x]> v) else None.

Abbreviation sizes := (list Z * list str * list nat)%type.

(** One cell of the auto-sizing loop: row [i], column [j]; [above] is the row
    before, where there is one. *)
Definition t_size_cell (i : nat) (above : option (list (str * str))) (row : list (str * str)) (j : nat)
    (cell : str * str) (s : sizes) : option sizes :=
  let '(column_size, column_name, need) := s in
  let column_size := resize (length row) 0 column_size in
  let column_name := resize (length row) [] column_name in
  '(column_name, need) ←
    match above with
    | Some above =>
        c ← above !! j;
        if decide (c = cell) then Some (column_name, need)
        else n ← assign_at i cell.1 column_name; Some (n, i :: need)
    | None => n ← assign_at i cell.1 column_name; Some (n, need)
    end;
  w ← column_size !! j;
  column_size ← assign_at j (Z.max (zlen cell.1) (Z.max (zlen cell.2) w)) column_size;
  Some (column_size, column_name, need).

Fixpoint t_size_row (i : nat) (above : option (list (str * str))) (row : list (str * str)) (j : nat)
    (cells : list (str * str)) (s : sizes) : option sizes :=
  match cells with
  | [] => Some s
  | cell :: cells => s ← t_size_cell i above row j cell s; t_size_row i above row (S j) cells s
  end.

Fixpoint t_size_rows (i : nat) (above : option (list (str * str))) (rows : list (list (str * str)))
    (s : sizes) : option sizes :=
  match rows with
  | [] => Some s
  | row :: rows => s ← t_size_row i above row 0 row s; t_size_rows (S i) (Some row) rows s
  end.

(** [+---+---+] over the columns of a row *)
Fixpoint t_rule (m_column_size : list Z) (j n : nat) : option str :=
  match n with
  | O => Some []
  | S n => w ← m_column_size !! j; r ← t_rule m_column_size (S j) n;
           Some (repeat "-"%char (Z.to_nat (w + 3)) ++ "+" ++ r)
  end.
Definition t_rule_line (m_column_size : list Z) (row : list (str * str)) : option str :=
  r ← t_rule m_column_size 0 (length row); Some ("+" ++ r ++ newline).

(** [boost::format("%-Ns") % s] *)
Definition pad_right (n : Z) (s : str) : str := s ++ repeat " "%char (Z.to_nat (n - zlen s)).

Fixpoint t_cells (m_column_size : list Z) (j : nat) (texts : list str) : option str :=
  match texts with
  | [] => Some []
  | s :: texts => w ← m_column_size !! j; r ← t_cells m_column_size (S j) texts;
                  Some (" " ++ pad_right (w + 2) s ++ "|" ++ r)
  end.
Definition t_line (m_column_size : list Z) (texts : list str) : option str :=
  r ← t_cells m_column_size 0 texts; Some ("|" ++ r ++ newline).

Definition t_keyval_line (row : list (str * str)) : str :=
  concat (map (λ p, "key::" ++ p.1 ++ "=" ++ [QUOTE] ++ p.2 ++ [QUOTE] ++ " ") row) ++ newline.

Definition t_header (m_column_size : list Z) (row : list (str * str)) : option str :=
  r ← t_rule_line m_column_size row; h ← t_line m_column_size (fst <$> row); Some (r ++ h ++ r).

(** The printing loop; [is_first] and [header] say whether this is row 0 and whether it needs a header. *)
Fixpoint t_print_rows (keyval header is_first : bool) (m_column_size : list Z) (rows : list (list (str * str)))
    : option str :=
  match rows with
  | [] => Some []
  | row :: rows =>
      h ← (if is_first && header && negb keyval then t_header m_column_size row else Some []);
      b ← (if keyval then Some (t_keyval_line row) else t_line m_column_size (snd <$> row));
      e ← (if negb keyval && bool_decide (rows = []) then t_rule_line m_column_size row else Some []);
      r ← t_print_rows keyval header false m_column_size rows;
      Some (h ++ b ++ e ++ r)
  end.

Definition t_flush (f : table_formatter) : option (str * table_formatter) :=
  let f := t_finish_pending_string f in
  '(column_size, column_name, need) ← t_size_rows 0 None (t_vec f) (t_column_size f, t_column_name f, []);
  let need_header := negb (bool_decide (column_size = t_column_size f)) in
  let header := need_header || bool_decide (0%nat ∈ need) in
  out ← t_print_rows (t_keyval f) header true column_size (t_vec f);
  Some (out, TableF [] (t_ss f) (t_pending_name f) (t_keyval f) (t_section_open f) (t_section f)
                    (t_section_cnt f) column_size (t_column_name f)).

#[export] Instance TableFormatter : Formatter table_formatter := {
  flush := t_flush;
  reset := t_reset;
  open_array_section := t_open_section_in_ns;
  open_array_section_in_ns name ns := t_open_section_in_ns name;
  open_object_section := t_open_section_in_ns;
  open_object_section_in_ns name ns := t_open_section_in_ns name;
  close_section f := Some (t_close_section f);
  dump_unsigned name u := t_dump_text name (print_int u);
  dump_int name s := t_dump_text name (print_int s);
  dump_float name d := t_dump_text name (shown_text d);
  dump_string := t_dump_text;
  dump_stream := t_dump_stream;
  stream_write s f := TableF (t_vec f) (t_ss f ++ s) (t_pending_name f) (t_keyval f) (t_section_open f) (t_section f)
                             (t_section_cnt f) (t_column_size f) (t_column_name f);
  dump_format_va name ns quoted text :=
    let buf := vsnprintf_buf text in
    t_dump_text name (match ns with Some ns => ns ++ "." ++ buf | None => buf end);
  get_len f := 0;
  write_raw_data data f := f;
  open_array_section_with_attrs name attrs := t_open_section_in_ns name;
  open_object_section_with_attrs name attrs := t_open_section_in_ns name;
  dump_string_with_attrs name s attrs := t_dump_text name (x_get_attrs_str attrs ++ s);
}.

(** ** [Formatter::create] *)

Inductive any_formatter :=
| AnyJSON (f : json_formatter)
| AnyXML (f : xml_formatter)
| AnyTable (f : table_formatter).

Definition create_type (mytype : str) : option any_formatter :=
  if decide (mytype = "json") then Some (AnyJSON (JSONFormatter_new false))
  else if decide (mytype = "json-pretty") then Some (AnyJSON (JSONFormatter_new true))
  else if decide (mytype = "xml") then Some (AnyXML (XMLFormatter_new false))
  else if decide (mytype = "xml-pretty") then Some (AnyXML (XMLFormatter_new true))
  else if decide (mytype = "table") then Some (AnyTable (TableFormatter_new false))
  else if decide (mytype = "table-kv") then Some (AnyTable (TableFormatter_new true))
  else None.

(** The fallback is tried with no fallback of its own. *)
Definition create (type default_type fallback : str) : option any_formatter :=
  let mytype := if decide (type = []) then default_type else type in
  match create_type mytype with
  | Some f => Some f
  | None => if decide (fallback = []) then None else create_type fallback
  end.

(** Virtual calls. *)
Definition any_map (op : ∀ F, Formatter F → F → F) (f : any_formatter) : any_formatter :=
  match f with
  | AnyJSON f => AnyJSON (op _ JSONFormatter f)
  | AnyXML f => AnyXML (op _ XMLFormatter f)
  | AnyTable f => AnyTable (op _ TableFormatter f)
  end.
Definition any_get {A} (op : ∀ F, Formatter F → F → A) (f : any_formatter) : A :=
  match f with
  | AnyJSON f => op _ JSONFormatter f
  | AnyXML f => op _ XMLFormatter f
  | AnyTable f => op _ TableFormatter f
  end.

#[export] Instance AnyFormatter : Formatter any_formatter := {
  flush f := match f with
             | AnyJSON f => '(s, f) ← flush f; Some (s, AnyJSON f)
             | AnyXML f => '(s, f) ← flush f; Some (s, AnyXML f)
             | AnyTable f => '(s, f) ← flush f; Some (s, AnyTable f)
             end;
  reset := any_map (λ _ _, reset);
  open_array_section name := any_map (λ _ _, open_array_section name);
  open_array_section_in_ns name ns := any_map (λ _ _, open_array_section_in_ns name ns);
  open_object_section name := any_map (λ _ _, open_object_section name);
  open_object_section_in_ns name ns := any_map (λ _ _, open_object_section_in_ns name ns);
  close_section f := match f with
                     | AnyJSON f => AnyJSON <$> close_section f
                     | AnyXML f => AnyXML <$> close_section f
                     | AnyTable f => AnyTable <$> close_section f
                     end;
  dump_unsigned name u := any_map (λ _ _, dump_unsigned name u);
  dump_int name s := any_map (λ _ _, dump_int name s);
  dump_float name d := any_map (λ _ _, dump_float name d);
  dump_string name s := any_map (λ _ _, dump_string name s);
  dump_stream name := any_map (λ _ _, dump_stream name);
  stream_write s := any_map (λ _ _, stream_write s);
  dump_format_va name ns quoted text := any_map (λ _ _, dump_format_va name ns quoted text);
  get_len := any_get (λ _ _, get_len);
  write_raw_data data := any_map (λ _ _, write_raw_data data);
  open_array_section_with_attrs name attrs := any_map (λ _ _, open_array_section_with_attrs name attrs);
  open_object_section_with_attrs name attrs := any_map (λ _ _, open_object_section_with_attrs name attrs);
  dump_string_with_attrs name s attrs := any_map (λ _ _, dump_string_with_attrs name s attrs);
}.
