(* ===== verification/FormatterFacts.v ===== *)
(** * Documents written through a formatter

    A document is a tree of [item]s, written with the calls of the [Formatter]
    interface.  A reader of XML gets the document back from what [XMLFormatter]
    flushes; what [JSONFormatter] flushes is the plain printer's text. *)

From stdpp Require Import gmap.
From S2P Require Import Prelude CString Strtol SysInfo Escape Formatter.
#[local] Open Scope Z_scope.
#[local] Open Scope str_scope.

(** ** Documents *)

(** How a section is opened, and what a leaf holds. *)
Inductive opening := Plain | InNs (ns : str) | WithAttrs (attrs : FormatterAttrs).

Inductive content :=
| Unsigned (u : Z)
| Int (i : Z)
| Float (d : double)
| String (s : str)
| StringWithAttrs (s : str) (attrs : FormatterAttrs)
| Stream (pieces : list str)
| Format (text : str)
| FormatNs (ns text : str)
| FormatUnquoted (text : str).

#[warnings="-register-all"]
Inductive item :=
| Section_ (array : bool) (o : opening) (name : str) (items : list item)
| Leaf (name : str) (c : content).

Section ItemInd.
  Variable P : item → Prop.
  Hypothesis HS : ∀ array o name items, Forall P items → P (Section_ array o name items).
  Hypothesis HL : ∀ name c, P (Leaf name c).

Fixpoint item_ind' (i : item) : P i :=
  match i with
  | Section_ array o name items =>
      HS array o name items
        ((fix go l : Forall P l :=
            match l with [] => Forall_nil_2 P | i :: l => Forall_cons_2 P i l (item_ind' i) (go l) end) items)
  | Leaf name c => HL name c
  end.
End ItemInd.

Section Dump.
  Context `{Formatter F}.

Definition open_ (array : bool) (o : opening) (name : str) (f : F) : F :=
  match o, array with
  | Plain, true => open_array_section name f
  | Plain, false => open_object_section name f
  | InNs ns, true => open_array_section_in_ns name ns f
  | InNs ns, false => open_object_section_in_ns name ns f
  | WithAttrs attrs, true => open_array_section_with_attrs name attrs f
  | WithAttrs attrs, false => open_object_section_with_attrs name attrs f
  end.

Definition dump_leaf (name : str) (c : content) (f : F) : F :=
  match c with
  | Unsigned u => dump_unsigned name u f
  | Int i => dump_int name i f
  | Float d => dump_float name d f
  | String s => dump_string name s f
  | StringWithAttrs s attrs => dump_string_with_attrs name s attrs f
  | Stream pieces => foldl (λ f s, stream_write s f) (dump_stream name f) pieces
  | Format text => dump_format name text f
  | FormatNs ns text => dump_format_ns name ns text f
  | FormatUnquoted text => dump_format_unquoted name text f
  end.

Fixpoint dump_item (i : item) (f : F) : option F :=
  match i with
  | Leaf name c => Some (dump_leaf name c f)
  | Section_ array o name items =>
      f ← (fix go l f := match l with [] => Some f | i :: l => f ← dump_item i f; go l f end) items (open_ array o name f);
      close_section f
  end.

Fixpoint dump_items (l : list item) (f : F) : option F :=
  match l with [] => Some f | i :: l => f ← dump_item i f; dump_items l f end.

Lemma dump_item_section array o name items f :
  dump_item (Section_ array o name items) f = (f ← dump_items items (open_ array o name f); close_section f).
Proof.
  reflexivity.
Qed.

(** The document a formatter writes. *)
Definition document (l : list item) (f : F) : option str :=
  f ← dump_items l f; '(out, _) ← flush f; Some out.
End Dump.

(** ** Reading XML *)

Inductive token := TOpen (name : str) (attrs : FormatterAttrs) | TClose (name : str) | TText (s : str).

#[export] Instance token_eq : EqDecision token.
Proof. solve_decision. Defined.

(** Attributes: [ name="value"], any number of them. *)
Inductive attr_state := ABefore | AName (n : str) | AEq (n : str) | AValue (n v : str).

Fixpoint read_attrs (st : attr_state) (s : str) : option FormatterAttrs :=
  match s, st with
  | [], ABefore => Some []
  | [], _ => None
  | c :: s, ABefore => if decide (c = " "%char) then read_attrs (AName []) s else None
  | c :: s, AName n => if decide (c = "="%char) then read_attrs (AEq n) s else read_attrs (AName (n ++ [c])) s
  | c :: s, AEq n => if decide (c = QUOTE) then read_attrs (AValue n []) s else None
  | c :: s, AValue n v =>
      if decide (c = QUOTE) then v ← unescape_xml v; r ← read_attrs ABefore s; Some ((n, v) :: r)
      else read_attrs (AValue n (v ++ [c])) s
  end.

Definition read_tag (body : str) : option token :=
  match body with
  | "/"%char :: name => Some (TClose name)
  | _ => let '(name, rest) := span (λ c, negb (bool_decide (c = " "%char))) body in
         attrs ← read_attrs ABefore rest; Some (TOpen name attrs)
  end.

Definition text_token (acc : str) : option (list token) :=
  match acc with [] => Some [] | _ => t ← unescape_xml acc; Some [TText t] end.

(** The tokens read and what was read of the next text or tag. *)
Inductive lex_state := InText (toks : list token) (acc : str) | InTag (toks : list token) (acc : str).

Definition lex_char (st : lex_state) (c : ascii) : option lex_state :=
  match st with
  | InText toks acc =>
      if decide (c = "<"%char) then t ← text_token acc; Some (InTag (toks ++ t) [])
      else if decide (c = ">"%char) then None else Some (InText toks (acc ++ [c]))
  | InTag toks acc =>
      if decide (c = ">"%char) then t ← read_tag acc; Some (InText (toks ++ [t]) [])
      else if decide (c = "<"%char) then None else Some (InTag toks (acc ++ [c]))
  end.

Fixpoint lex_loop (st : lex_state) (s : str) : option lex_state :=
  match s with [] => Some st | c :: s => st ← lex_char st c; lex_loop st s end.

Definition lex (s : str) : option (list token) :=
  match lex_loop (InText [] []) s with
  | Some (InText toks acc) => t ← text_token acc; Some (toks ++ t)
  | _ => None
  end.

(** ** What a document should read as *)

Definition text_of (s : str) : list token := match s with [] => [] | _ => [TText s] end.

Definition opening_attrs (o : opening) : FormatterAttrs :=
  match o with Plain => [] | InNs ns => [("xmlns", ns)] | WithAttrs a => a end.

Definition content_attrs (c : content) : FormatterAttrs :=
  match c with StringWithAttrs _ a => a | FormatNs ns _ => [("xmlns", ns)] | _ => [] end.

Definition content_text (c : content) : str :=
  match c with
  | Unsigned u | Int u => print_int u
  | Float d => shown_text d
  | String s | StringWithAttrs s _ => cstr s
  | Stream pieces => cstr (concat pieces)
  | Format text | FormatNs _ text | FormatUnquoted text => vsnprintf_buf text
  end.

Fixpoint tokens (i : item) : list token :=
  match i with
  | Section_ _ o name items => TOpen name (opening_attrs o) :: concat (map tokens items) ++ [TClose name]
  | Leaf name c => TOpen name (content_attrs c) :: text_of (content_text c) ++ [TClose name]
  end.

(** The pretty form adds blank text between tags. *)
Definition blank (t : token) : bool := match t with TText s => forallb isspace s | _ => false end.
Definition clean (pretty : bool) (l : list token) : list token :=
  if pretty then List.filter (λ t, negb (blank t)) l else l.

(** Names, and text that is written as it is, hold no markup. *)
Definition special (c : ascii) : bool :=
  bool_decide (c = "<"%char) || bool_decide (c = ">"%char) || bool_decide (c = "&"%char) || bool_decide (c = QUOTE).
Definition plain_text (s : str) : Prop := forallb (λ c, negb (special c)) s = true.
Definition name_char (c : ascii) : bool :=
  negb (special c) && negb (bool_decide (c = " "%char)) && negb (bool_decide (c = "/"%char)) &&
  negb (bool_decide (c = "="%char)).
Definition name_ok (s : str) : Prop := s ≠ [] ∧ forallb name_char s = true.
Definition attrs_ok (a : FormatterAttrs) : Prop := Forall (λ p, name_ok p.1 ∧ plain_text p.2) a.
Definition content_ok (c : content) : Prop :=
  attrs_ok (content_attrs c) ∧
  match c with FormatNs _ text => plain_text (vsnprintf_buf text) | Float d => plain_text (shown_text d) | _ => True end.

Fixpoint item_ok (i : item) : Prop :=
  match i with
  | Section_ _ o name items =>
      name_ok name ∧ attrs_ok (opening_attrs o) ∧ (fix go l := match l with [] => True | i :: l => item_ok i ∧ go l end) items
  | Leaf name c => name_ok name ∧ content_ok c
  end.
Definition items_ok (l : list item) : Prop := Forall item_ok l.

Lemma item_ok_section array o name items :
  item_ok (Section_ array o name items) ↔ name_ok name ∧ attrs_ok (opening_attrs o) ∧ items_ok items.
Proof.
  cbn [item_ok]. unfold items_ok.
  assert ((fix go l := match l with [] => True | i :: l => item_ok i ∧ go l end) items ↔ Forall item_ok items) as ->; [|done].
  induction items as [|i l IH]; [split; [constructor|done]|]. rewrite Forall_cons, IH. done.
Qed.

(** ** The reader on the formatter's pieces *)

Definition no_markup (c : ascii) : Prop := c ≠ "<"%char ∧ c ≠ ">"%char.

Lemma lex_loop_app st s t : lex_loop st (s ++ t) = (st ← lex_loop st s; lex_loop st t).
Proof. revert st. induction s as [|c s IH]; intros st; [done|]. cbn. destruct (lex_char st c); [apply IH|done]. Qed.

Lemma lex_text toks acc t : Forall no_markup t → lex_loop (InText toks acc) t = Some (InText toks (acc ++ t)).
Proof.
  intros H. revert acc. induction H as [|c t [H1 H2] _ IH]; intros acc; cbn; [by rewrite app_nil_r|].
  rewrite !decide_False by done. cbn. rewrite IH, <- app_assoc. done.
Qed.

Lemma lex_tag_body toks acc t : Forall no_markup t → lex_loop (InTag toks acc) t = Some (InTag toks (acc ++ t)).
Proof.
  intros H. revert acc. induction H as [|c t [H1 H2] _ IH]; intros acc; cbn; [by rewrite app_nil_r|].
  rewrite !decide_False by done. cbn. rewrite IH, <- app_assoc. done.
Qed.

Lemma lex_tag toks acc tt body tk :
  text_token acc = Some tt → Forall no_markup body → read_tag body = Some tk →
  lex_loop (InText toks acc) ("<" ++ body ++ ">") = Some (InText (toks ++ tt ++ [tk]) []).
Proof.
  intros Ht Hb Hr. cbn [app lex_loop lex_char]. rewrite decide_True by done. rewrite Ht. cbn [mbind option_bind].
  rewrite lex_loop_app, lex_tag_body by done. cbn. rewrite Hr. cbn. by rewrite <- app_assoc.
Qed.

(** [s] reads as [toks], with blank text after the last tag. *)
Definition reads (p : bool) (s : str) (toks : list token) : Prop :=
  ∃ toks' acc, lex_loop (InText [] []) s = Some (InText toks' acc) ∧ forallb isspace acc = true ∧
               (p = false → acc = []) ∧ clean p toks' = toks.

Lemma clean_app p a b : clean p (a ++ b) = clean p a ++ clean p b.
Proof. unfold clean. destruct p; [apply List.filter_app|done]. Qed.

Lemma unescape_plain s : forallb (λ c, negb (bool_decide (c = "&"%char))) s = true → unescape_xml s = Some s.
Proof.
  unfold unescape_xml. induction s as [|c s IH]; [done|]. cbn. rewrite andb_true_iff, negb_true_iff, bool_decide_eq_false.
  intros [Hc Hs]. rewrite decide_False, IH by done. done.
Qed.

Lemma isspace_plain c : isspace c = true → no_markup c ∧ c ≠ "&"%char.
Proof.
  intros H. assert (∀ b, negb (isspace b) || (negb (bool_decide (b = "<"%char)) && negb (bool_decide (b = ">"%char)) &&
    negb (bool_decide (b = "&"%char))) = true) as Hb by (apply forall_ascii; vm_compute; reflexivity).
  specialize (Hb c). rewrite H in Hb. cbn in Hb. rewrite !andb_true_iff, !negb_true_iff, !bool_decide_eq_false in Hb.
  unfold no_markup. tauto.
Qed.

Lemma text_token_blank p acc :
  forallb isspace acc = true → (p = false → acc = []) → ∃ tt, text_token acc = Some tt ∧ clean p tt = [].
Proof.
  intros Hb Hp. destruct acc as [|c acc]; [exists []; by destruct p|]. destruct p; [|by discriminate Hp].
  exists [TText (c :: acc)]. unfold text_token. rewrite unescape_plain.
  - split; [done|]. cbn. cbn in Hb. by rewrite Hb.
  - rewrite forallb_forall in Hb |- *. intros x Hx. apply Hb, isspace_plain in Hx as [_ Hx].
    by rewrite bool_decide_eq_false_2.
Qed.

Lemma reads_blank p s t toks :
  reads p s toks → forallb isspace t = true → (p = false → t = []) → reads p (s ++ t) toks.
Proof.
  intros (toks' & acc & Hl & Hb & Hp & Hc) Ht Hpt. exists toks', (acc ++ t). rewrite lex_loop_app, Hl. cbn [mbind option_bind].
  rewrite lex_text, forallb_app, Hb, Ht; [|apply Forall_forall; intros c Hc'; rewrite forallb_forall in Ht;
    apply list_elem_of_In, Ht, isspace_plain in Hc' as [? _]; done].
  split; [done|]. split; [done|]. split; [|done]. intros E. by rewrite Hp, Hpt.
Qed.

Lemma reads_tag p s toks body tk :
  reads p s toks → Forall no_markup body → read_tag body = Some tk → blank tk = false →
  reads p (s ++ "<" ++ body ++ ">") (toks ++ [tk]).
Proof.
  intros (toks' & acc & Hl & Hb & Hp & Hc) Hbody Hr Hbk.
  destruct (text_token_blank p acc Hb Hp) as (tt & Htt & Hcl).
  exists (toks' ++ tt ++ [tk]), []. rewrite lex_loop_app, Hl. cbn [mbind option_bind]. rewrite (lex_tag _ _ tt) with (tk := tk) by done.
  split; [done|]. split; [done|]. split; [done|]. rewrite !clean_app, Hcl, Hc. f_equal. cbn [app].
  unfold clean. destruct p; [|done]. cbn. by rewrite Hbk.
Qed.

(** A leaf: two tags and the text between them. *)
Lemma reads_leaf p s toks body1 body2 tk1 tk2 text t :
  reads p s toks → Forall no_markup body1 → read_tag body1 = Some tk1 → blank tk1 = false →
  Forall no_markup body2 → read_tag body2 = Some tk2 → blank tk2 = false →
  Forall no_markup text → text_token text = Some (text_of t) →
  reads p (s ++ "<" ++ body1 ++ ">" ++ text ++ "<" ++ body2 ++ ">") (toks ++ clean p (tk1 :: text_of t ++ [tk2])).
Proof.
  intros (toks' & acc & Hl & Hb & Hp & Hc) Hb1 Hr1 Hk1 Hb2 Hr2 Hk2 Ht Htt.
  destruct (text_token_blank p acc Hb Hp) as (tt & Ha & Hcl).
  exists (toks' ++ tt ++ [tk1] ++ text_of t ++ [tk2]), [].
  replace (s ++ "<" ++ body1 ++ ">" ++ text ++ "<" ++ body2 ++ ">")
    with (s ++ ("<" ++ body1 ++ ">") ++ text ++ ("<" ++ body2 ++ ">")) by (cbn [app]; rewrite <- !app_assoc; done).
  rewrite lex_loop_app, Hl. cbn [mbind option_bind]. rewrite lex_loop_app, (lex_tag _ _ tt _ tk1) by done. cbn [mbind option_bind].
  rewrite lex_loop_app, lex_text by done. cbn [mbind option_bind]. change ([] ++ text) with text. rewrite (lex_tag _ _ (text_of t) body2 tk2 Htt Hb2 Hr2).
  split; [by rewrite <- !app_assoc|]. split; [done|]. split; [done|].
  rewrite clean_app, clean_app, Hcl, Hc. done.
Qed.

(** ** Tags *)

Lemma name_char_spec c :
  name_char c = true → no_markup c ∧ c ≠ " "%char ∧ c ≠ "/"%char ∧ c ≠ "="%char.
Proof.
  unfold name_char, special, no_markup.
  rewrite !andb_true_iff, !negb_true_iff, !orb_false_iff, !bool_decide_eq_false. tauto.
Qed.

Lemma special_spec c : negb (special c) = true → no_markup c ∧ c ≠ "&"%char ∧ c ≠ QUOTE.
Proof. unfold special, no_markup. rewrite negb_true_iff, !orb_false_iff, !bool_decide_eq_false. tauto. Qed.

Lemma plain_no_markup s : plain_text s → Forall no_markup s.
Proof.
  unfold plain_text. rewrite forallb_forall. intros H. apply Forall_forall. intros c Hc.
  apply list_elem_of_In, H, special_spec in Hc as [? _]. done.
Qed.

Lemma name_no_markup s : name_ok s → Forall no_markup s.
Proof.
  intros [_ H]. rewrite forallb_forall in H. apply Forall_forall. intros c Hc.
  apply list_elem_of_In, H, name_char_spec in Hc as [? _]. done.
Qed.

Lemma plain_unescape s : plain_text s → unescape_xml s = Some s.
Proof.
  intros H. apply unescape_plain. unfold plain_text in H. rewrite forallb_forall in H |- *.
  intros c Hc. apply H, special_spec in Hc as (_ & Hc & _). by rewrite bool_decide_eq_false_2.
Qed.

Lemma read_attr_name n acc s :
  forallb name_char n = true →
  read_attrs (AName acc) (n ++ "="%char :: s) = read_attrs (AEq (acc ++ n)) s.
Proof.
  revert acc. induction n as [|c n IH]; intros acc H; cbn [app read_attrs].
  - by rewrite decide_True, app_nil_r.
  - cbn in H. apply andb_true_iff in H as [Hc H]. apply name_char_spec in Hc as (_ & _ & _ & Hc).
    rewrite decide_False, IH, <- app_assoc by done. done.
Qed.

Lemma read_attr_value n v acc s :
  plain_text v →
  read_attrs (AValue n acc) (v ++ QUOTE :: s) =
  (w ← unescape_xml (acc ++ v); r ← read_attrs ABefore s; Some ((n, w) :: r)).
Proof.
  unfold plain_text. revert acc. induction v as [|c v IH]; intros acc H; cbn [app read_attrs].
  - by rewrite decide_True, app_nil_r.
  - cbn in H. apply andb_true_iff in H as [Hc H]. apply special_spec in Hc as (_ & _ & Hc).
    rewrite decide_False, IH, <- app_assoc by done. done.
Qed.

Lemma read_attrs_app a s r :
  attrs_ok a → read_attrs ABefore s = Some r → read_attrs ABefore (x_get_attrs_str a ++ s) = Some (a ++ r).
Proof.
  intros Ha Hs. induction Ha as [|[n v] a [[_ Hn] Hv] Ha IH]; [done|]. cbn in Hn, Hv.
  replace (x_get_attrs_str ((n, v) :: a) ++ s)
    with (" "%char :: n ++ "="%char :: QUOTE :: v ++ QUOTE :: x_get_attrs_str a ++ s)
    by (unfold x_get_attrs_str; cbn; rewrite <- !app_assoc; cbn; rewrite <- !app_assoc; done).
  cbn [read_attrs]. rewrite decide_True, read_attr_name by done. cbn [app read_attrs].
  rewrite decide_True, read_attr_value by done. cbn [app]. rewrite plain_unescape, IH by done. done.
Qed.

Lemma attrs_no_markup a : attrs_ok a → Forall no_markup (x_get_attrs_str a).
Proof.
  intros Ha. unfold x_get_attrs_str. induction Ha as [|[n v] a [Hn Hv] Ha IH]; [constructor|]. cbn [map concat fst snd] in *.
  apply name_no_markup in Hn. apply plain_no_markup in Hv.
  rewrite !Forall_app. repeat split; try done; repeat constructor; done.
Qed.

Lemma read_open name more attrs :
  name_ok name → (more = [] ∨ ∃ m, more = " "%char :: m) → read_attrs ABefore more = Some attrs →
  read_tag (name ++ more) = Some (TOpen name attrs).
Proof.
  intros [Hne Hn] Hm Ha. destruct name as [|c name]; [done|].
  assert (span (λ c, negb (bool_decide (c = " "%char))) ((c :: name) ++ more) = (c :: name, more)) as Hs.
  { apply span_all.
    - apply forallb_forall. intros x Hx. rewrite forallb_forall in Hn.
      apply Hn, name_char_spec in Hx as (_ & Hx & _). by rewrite bool_decide_eq_false_2.
    - destruct Hm as [->|(m & ->)]; done. }
  cbn in Hn. apply andb_true_iff in Hn as [Hc _]. apply name_char_spec in Hc as (_ & _ & Hc & _).
  unfold read_tag. cbn [app] in Hs |- *. rewrite Hs, Ha. cbn [mbind option_bind].
  destruct c as [[] [] [] [] [] [] [] []]; done.
Qed.

Lemma read_close name : read_tag ("/" ++ name) = Some (TClose name).
Proof. done. Qed.

(** ** The XML formatter's state *)

(** No string pending; the text so far reads as [toks]. *)
Definition quiet (p : bool) (secs : list str) (toks : list token) (f : xml_formatter) : Prop :=
  x_pretty f = p ∧ x_sections f = secs ∧ x_pending_string f = [] ∧ x_pending_string_name f = [] ∧ reads p (x_ss f) toks.

(** The same once a pending string is finished. *)
Definition wrote (p : bool) (secs : list str) (toks : list token) (f : xml_formatter) : Prop :=
  quiet p secs toks (x_finish_pending_string f).

Lemma finish_quiet p secs toks f : quiet p secs toks f → x_finish_pending_string f = f.
Proof. intros (_ & _ & _ & H & _). unfold x_finish_pending_string. by rewrite decide_True. Qed.

Lemma quiet_wrote p secs toks f : quiet p secs toks f → wrote p secs toks f.
Proof. intros H. unfold wrote. by rewrite (finish_quiet _ _ _ _ H). Qed.

Lemma put_quiet p secs toks toks' t f :
  quiet p secs toks f → (reads p (x_ss f) toks → reads p (x_ss f ++ t) toks') → quiet p secs toks' (x_put t f).
Proof. intros (? & ? & ? & ? & H) Ht. repeat split; cbn; auto. Qed.

Lemma newline_quiet p secs toks f : quiet p secs toks f → quiet p secs toks (x_newline f).
Proof.
  intros H. pose proof H as (Hp & _). unfold x_newline. destruct (x_pretty f) eqn:E; [|done].
  eapply put_quiet; [done|]. intros Hr. apply reads_blank; [done|done|congruence].
Qed.

Lemma repeat_space n : forallb isspace (repeat " "%char n) = true.
Proof. induction n; done. Qed.

Lemma spaces_quiet p secs toks f : wrote p secs toks f → quiet p secs toks (x_print_spaces f).
Proof.
  intros H. pose proof H as (Hp & _). unfold x_print_spaces. destruct (x_pretty _) eqn:E; [|done].
  eapply put_quiet; [done|]. intros Hr. apply reads_blank; [done|apply repeat_space|congruence].
Qed.

(** The start tag of a leaf or a section *)
Definition tag_more (more : str) (attrs : FormatterAttrs) : Prop :=
  (more = [] ∨ ∃ m, more = " "%char :: m) ∧ read_attrs ABefore more = Some attrs ∧ Forall no_markup more.

Lemma tag_more_attrs a : attrs_ok a → tag_more (x_get_attrs_str a) a.
Proof.
  intros Ha. split; [|split].
  - destruct a as [|[n v] a]; [by left|right]. by eexists.
  - rewrite <- (app_nil_r (x_get_attrs_str a)), (read_attrs_app a [] []) by done. by rewrite app_nil_r.
  - by apply attrs_no_markup.
Qed.

Lemma tag_more_ns ns : attrs_ok [("xmlns" : str, ns)] → tag_more (x_xmlns ns) [("xmlns" : str, ns)].
Proof.
  intros H. apply tag_more_attrs in H. unfold x_get_attrs_str in H. cbn [map concat fst snd] in H.
  rewrite app_nil_r in H. exact H.
Qed.

Lemma tag_more_nil : tag_more [] [].
Proof. split; [by left|]. split; [done|constructor]. Qed.

(** Text between tags *)
Definition text_ok (text t : str) : Prop := Forall no_markup text ∧ text_token text = Some (text_of t).

Lemma text_ok_plain s : plain_text s → text_ok s s.
Proof.
  intros H. split; [by apply plain_no_markup|]. unfold text_token. destruct s as [|c s]; [done|].
  by rewrite plain_unescape.
Qed.

Lemma text_ok_escape s : text_ok (escape_xml_str s) (cstr s).
Proof.
  unfold escape_xml_str, escape_xml_attr. rewrite cstr_terminated by apply escape_no_nul.
  split; [apply escape_no_angle|]. pose proof (unescape_escape s) as H. unfold text_token.
  destruct (escape_xml_loop s) as [|c e] eqn:Ee; [cbn in H; injection H as <-; done|]. rewrite H. cbn [mbind option_bind].
  destruct (cstr s) eqn:E; [|done]. destruct s as [|b s]; [done|]. cbn in E, Ee. by case_decide.
Qed.

Lemma reads_leaf_named p s toks name more attrs text t :
  reads p s toks → name_ok name → tag_more more attrs → text_ok text t →
  reads p (s ++ "<" ++ name ++ more ++ ">" ++ text ++ "</" ++ name ++ ">")
    (toks ++ clean p (TOpen name attrs :: text_of t ++ [TClose name])).
Proof.
  intros Hr Hn (Hm & Ha & Hmm) [Ht Htt].
  pose proof (reads_leaf p s toks (name ++ more) ("/" ++ name) (TOpen name attrs) (TClose name) text t Hr) as H.
  rewrite <- !app_assoc in H. apply H; try done.
  - apply Forall_app. split; [by apply name_no_markup|done].
  - by apply read_open.
  - apply Forall_app. split; [repeat constructor; done|by apply name_no_markup].
Qed.

Lemma leaf_wrote p secs toks name more attrs text t f :
  wrote p secs toks f → name_ok name → tag_more more attrs → text_ok text t →
  wrote p secs (toks ++ clean p (TOpen name attrs :: text_of t ++ [TClose name])) (x_leaf name more text f).
Proof.
  intros Hw Hn Hm Ht. apply quiet_wrote, newline_quiet. eapply put_quiet; [by apply spaces_quiet|].
  intros Hr. by apply reads_leaf_named.
Qed.

Lemma stream_writes pieces f :
  foldl (λ f s, stream_write s f) f pieces =
  XMLF (x_ss f) (x_pending_string f ++ concat pieces) (x_sections f) (x_pretty f) (x_pending_string_name f).
Proof.
  revert f. induction pieces as [|s l IH]; intros f; cbn [foldl concat].
  - rewrite app_nil_r. by destruct f.
  - rewrite IH. cbn. by rewrite <- app_assoc.
Qed.

Lemma stream_wrote p secs toks name pieces f :
  wrote p secs toks f → name_ok name →
  wrote p secs (toks ++ clean p (TOpen name [] :: text_of (cstr (concat pieces)) ++ [TClose name]))
    (foldl (λ f s, stream_write s f) (x_dump_stream name f) pieces).
Proof.
  intros Hw Hn. apply spaces_quiet in Hw as (Hp & Hs & Hps & Hpn & Hr). rewrite stream_writes. unfold wrote.
  unfold x_finish_pending_string, x_dump_stream. cbn [x_ss x_pending_string x_pending_string_name x_sections x_pretty].
  rewrite decide_False by apply Hn. apply newline_quiet. rewrite Hps.
  repeat split; cbn [x_ss x_pending_string x_pending_string_name x_sections x_pretty]; try done.
  rewrite <- !app_assoc. by apply (reads_leaf_named p _ _ name [] [] _ _ Hr Hn tag_more_nil (text_ok_escape (concat pieces))).
Qed.

Lemma print_digits_plain fuel n : plain_text (print_digits fuel n).
Proof.
  revert n. induction fuel as [|fuel IH]; intros n; [done|]. unfold plain_text in *. cbn [print_digits].
  rewrite forallb_app. apply andb_true_iff. split; [destruct (n <? 10); [done|apply IH]|].
  assert (0 <= n mod 10 < 10) as Hd by (apply Z.mod_pos_bound; lia).
  assert (∀ k : Z, k ∈ [0; 1; 2; 3; 4; 5; 6; 7; 8; 9] → negb (special (chr (48 + k))) = true) as Hk.
  { intros k. rewrite !elem_of_cons, elem_of_nil. intros H. repeat destruct H as [->|H]; try done; vm_compute; reflexivity. }
  cbn [forallb]. rewrite Hk; [done|]. rewrite !elem_of_cons, elem_of_nil. lia.
Qed.

Lemma print_int_plain z : plain_text (print_int z).
Proof.
  unfold print_int, print_nat. destruct (z <? 0); [|apply print_digits_plain].
  unfold plain_text. rewrite forallb_app. apply andb_true_iff. split; [done|apply print_digits_plain].
Qed.

Lemma cstr_vsnprintf text : cstr (vsnprintf_buf text) = vsnprintf_buf text.
Proof. apply cstr_no_nul, cstr_NUL_free. Qed.

(** Every leaf is written as its tokens. *)
Lemma dump_leaf_wrote p secs toks name c f :
  wrote p secs toks f → name_ok name → content_ok c →
  wrote p secs (toks ++ clean p (tokens (Leaf name c))) (dump_leaf name c f).
Proof.
  intros Hw Hn [Ha Hc]. cbn [tokens]. destruct c; cbn [dump_leaf content_text content_attrs] in *; unfold dump_format, dump_format_ns, dump_format_unquoted;
    try (cbn; apply leaf_wrote; [done|done|apply tag_more_nil|];
         first [apply text_ok_plain, print_int_plain | by apply text_ok_plain | apply text_ok_escape]).
  - cbn. apply leaf_wrote; [done|done|by apply tag_more_attrs|apply text_ok_escape].
  - by apply stream_wrote.
  - cbn. unfold x_dump_format_va. rewrite <- (cstr_vsnprintf text) at 1. apply leaf_wrote; [done|done|apply tag_more_nil|apply text_ok_escape].
  - cbn. apply leaf_wrote; [done|done|by apply tag_more_ns|by apply text_ok_plain].
  - cbn. unfold x_dump_format_va. rewrite <- (cstr_vsnprintf text) at 1. apply leaf_wrote; [done|done|apply tag_more_nil|apply text_ok_escape].
Qed.

Lemma open_wrote p secs toks array o name f :
  wrote p secs toks f → name_ok name → attrs_ok (opening_attrs o) →
  wrote p (name :: secs) (toks ++ [TOpen name (opening_attrs o)]) (open_ array o name f).
Proof.
  assert (∀ more attrs g, quiet p secs toks g → name_ok name → tag_more more attrs →
    reads p (x_ss g ++ "<" ++ name ++ more ++ ">") (toks ++ [TOpen name attrs])) as Hopen.
  { intros more attrs g (_ & _ & _ & _ & Hr) Hn (Hm & Ha & Hmm).
    pose proof (reads_tag p _ toks (name ++ more) (TOpen name attrs) Hr) as H. rewrite <- app_assoc in H.
    apply H; [|by apply read_open|done]. apply Forall_app. split; [by apply name_no_markup|done]. }
  assert (∀ ns attrs, tag_more (match attrs with Some a => x_get_attrs_str a | None => [] end ++
                                match ns with Some n => x_xmlns n | None => [] end) (opening_attrs o) →
    wrote p secs toks f → name_ok name →
    wrote p (name :: secs) (toks ++ [TOpen name (opening_attrs o)]) (x_open_section_in_ns name ns attrs f)) as Hsec.
  { intros ns attrs Hm Hw Hn. apply spaces_quiet in Hw. apply quiet_wrote. unfold x_open_section_in_ns.
    pose proof (Hopen _ _ _ Hw Hn Hm) as Hr. rewrite <- !app_assoc in Hr.
    match goal with |- quiet _ _ _ (XMLF (x_ss (x_newline ?g)) _ _ _ _) => assert (quiet p secs (toks ++ [TOpen name (opening_attrs o)]) g) as Hg end.
    { destruct ns; (eapply put_quiet; [done|]); intros _; [exact Hr|]. exact Hr. }
    apply newline_quiet in Hg as (? & Hs & ? & ? & ?). unfold quiet.
    cbn [x_ss x_pending_string x_pending_string_name x_sections x_pretty]. by rewrite Hs. }
  intros Hw Hn Ha. destruct o as [|ns|attrs], array; cbn [open_]; apply Hsec; try done; cbn [opening_attrs app] in *;
    rewrite ?app_nil_r; first [apply tag_more_nil | by apply tag_more_ns | by apply tag_more_attrs].
Qed.

Lemma close_wrote p name secs toks f :
  wrote p (name :: secs) toks f → name_ok name →
  ∃ f', x_close_section f = Some f' ∧ wrote p secs (toks ++ [TClose name]) f'.
Proof.
  intros Hw Hn. pose proof Hw as (Hp & Hs & Hps & Hpn & Hr).
  assert (x_sections f = name :: secs) as Hsf.
  { revert Hs. unfold x_finish_pending_string, x_newline. case_decide; [done|]. cbn. by destruct (x_pretty f). }
  unfold x_close_section. rewrite Hsf, Hs. eexists. split; [done|].
  apply quiet_wrote, newline_quiet. eapply put_quiet.
  - apply spaces_quiet. apply quiet_wrote. repeat split; done.
  - intros Hr'. pose proof (reads_tag p _ _ ("/" ++ name) (TClose name) Hr') as H. apply H; [|done|done].
    apply Forall_app. split; [repeat constructor; done|by apply name_no_markup].
Qed.

Lemma dump_item_wrote i : ∀ p secs toks f,
  item_ok i → wrote p secs toks f →
  ∃ f', dump_item i f = Some f' ∧ wrote p secs (toks ++ clean p (tokens i)) f'.
Proof.
  induction i as [array o name items IH|name c] using item_ind'; intros p secs toks f Hok Hw.
  - apply item_ok_section in Hok as (Hn & Ha & Hi). rewrite dump_item_section.
    assert (∀ toks f, wrote p (name :: secs) toks f → ∃ f', dump_items items f = Some f' ∧
      wrote p (name :: secs) (toks ++ clean p (concat (map tokens items))) f') as Hall.
    { clear Hw toks f. induction items as [|i l IHl]; intros toks f Hw.
      - exists f. split; [done|]. cbn. unfold clean. destruct p; cbn; by rewrite app_nil_r.
      - apply Forall_cons in IH as [IHi IH]. apply Forall_cons in Hi as [Hi Hl].
        destruct (IHi p _ _ _ Hi Hw) as (f1 & E1 & Hw1). destruct (IHl IH Hl _ _ Hw1) as (f2 & E2 & Hw2).
        exists f2. cbn. rewrite E1. cbn. split; [done|]. by rewrite clean_app, app_assoc. }
    destruct (Hall _ _ (open_wrote p secs toks array o name f Hw Hn Ha)) as (f1 & -> & Hw1). cbn [mbind option_bind].
    destruct (close_wrote p name secs _ f1 Hw1 Hn) as (f2 & E2 & Hw2). exists f2. split; [exact E2|].
    cbn [tokens]. change (TOpen name (opening_attrs o) :: ?x) with ([TOpen name (opening_attrs o)] ++ x).
    rewrite !clean_app. replace (clean p [TOpen name (opening_attrs o)]) with [TOpen name (opening_attrs o)] by by destruct p.
    replace (clean p [TClose name]) with [TClose name] by by destruct p. by rewrite !app_assoc in *.
  - destruct Hok as [Hn Hc]. exists (dump_leaf name c f). split; [done|]. by apply dump_leaf_wrote.
Qed.

Lemma dump_items_wrote l p secs toks f :
  items_ok l → wrote p secs toks f →
  ∃ f', dump_items l f = Some f' ∧ wrote p secs (toks ++ clean p (concat (map tokens l))) f'.
Proof.
  intros Hok. revert toks f. induction Hok as [|i l Hi _ IH]; intros toks f Hw.
  - exists f. split; [done|]. unfold clean. cbn. destruct p; by rewrite app_nil_r.
  - destruct (dump_item_wrote i p secs toks f Hi Hw) as (f1 & E1 & Hw1). destruct (IH _ _ Hw1) as (f2 & E2 & Hw2).
    exists f2. cbn. rewrite E1. cbn. split; [done|]. by rewrite clean_app, app_assoc.
Qed.

Lemma reads_lex p s toks : reads p s toks → ∃ l, lex s = Some l ∧ clean p l = toks.
Proof.
  intros (toks' & acc & Hl & Hb & Hp & Hc). destruct (text_token_blank p acc Hb Hp) as (tt & Htt & Hcl).
  exists (toks' ++ tt). unfold lex. rewrite Hl, Htt. split; [done|]. by rewrite clean_app, Hcl, app_nil_r.
Qed.

(** C20: a document written through the XML formatter reads back, when its
    element and attribute names are names, and its attribute values, namespaces
    and the texts of leaves in a namespace, which the formatter writes as they
    are, hold no markup ([<], [>], [&], the quote).  Every [close_section] finds
    its section open, and a reader of XML gets from what [flush] prints exactly
    the tags, attributes and texts of the document's calls, in the pretty form
    apart from blank text.  The other texts may hold any characters; of a string
    the part before its first zero byte is written, and of a formatted text the
    first 1023 bytes. *)
Theorem xml_document_roundtrip pretty l :
  items_ok l →
  ∃ out toks, document l (XMLFormatter_new pretty) = Some out ∧ lex out = Some toks ∧
              clean pretty toks = clean pretty (concat (map tokens l)).
Proof.
  intros Hok. destruct (dump_items_wrote l pretty [] [] (XMLFormatter_new pretty) Hok) as (f & E & Hw).
  { repeat split. exists [], []. repeat split. by destruct pretty. }
  unfold document. rewrite E. pose proof Hw as (Hp & _ & _ & _ & Hr). cbn. rewrite Hp.
  apply reads_blank with (t := if pretty then newline else []) in Hr; [|by destruct pretty|by intros ->].
  destruct (reads_lex _ _ _ Hr) as (toks & Hl & Hc). by exists (x_ss (x_finish_pending_string f) ++ (if pretty then newline else [])), toks.
Qed.

Definition sample_document : list item :=
  [Section_ false (InNs "http://s3/") "ListBucketResult"
     [Leaf "Name" (String "a<b>&c"); Leaf "Max" (Int (-5)); Section_ true Plain "Empty" []; Leaf "Tag" (Stream ["x&"; "y"])]].

Lemma xml_document_roundtrip_witness :
  ∃ out toks, document sample_document (XMLFormatter_new true) = Some out ∧ lex out = Some toks ∧
              clean true toks = clean true (concat (map tokens sample_document)).
Proof.
  apply (xml_document_roundtrip true sample_document).
  repeat first [apply Forall_cons_2 | apply Forall_nil_2 | split | done | vm_compute; reflexivity].
Defined.
