(* ===== verification/JsonFacts.v ===== *)
(** * What [JSONFormatter] prints

    [print_json] is a printer of documents as JSON, by recursion on the document
    and with no state; [JSONFormatter] prints the same text, with nothing where
    a string stands, as [print_quoted_string] prints nothing.  [TableFormatter]'s
    [flush] runs past the end of a vector on tables with few columns. *)

From stdpp Require Import gmap.
From S2P Require Import Prelude CString Strtol Escape Formatter FormatterFacts.
#[local] Open Scope Z_scope.
#[local] Open Scope str_scope.

(** ** The printer *)

Definition json_name (o : opening) (name : str) : str :=
  match o with InNs ns => name ++ " " ++ ns | _ => name end.

Definition item_name (i : item) : str :=
  match i with Section_ _ o name _ => json_name o name | Leaf name _ => name end.

(** Strings are missing. *)
Definition json_content (c : content) : str :=
  match c with
  | Unsigned u | Int u => print_int u
  | Float d => take 29 (lf_text d)
  | FormatUnquoted text => vsnprintf_buf text
  | _ => []
  end.

Definition indent (n : nat) : str := concat (repeat ("    " : str) n).

(** What comes before a member of a section at nesting [depth]: the comma, the
    new line, the name. *)
Definition json_lead (pretty : bool) (depth : nat) (first array : bool) (name : str) : str :=
  (if first then [] else ",") ++ (if pretty then newline ++ indent depth else []) ++
  (if array then [] else [QUOTE] ++ name ++ [QUOTE] ++ (if pretty then ": " else ":")).

Definition open_bracket (array : bool) : str := if array then "[" else "{".
Definition close_bracket (array : bool) : str := if array then "]" else "}".

Fixpoint print_json (pretty : bool) (depth : nat) (i : item) : str :=
  match i with
  | Leaf _ c => json_content c
  | Section_ array o name items =>
      open_bracket array ++
      (fix members (first : bool) (l : list item) : str :=
         match l with
         | [] => []
         | i :: l => json_lead pretty (S depth) first array (item_name i) ++ print_json pretty (S depth) i ++ members false l
         end) true items ++
      (if pretty && negb (bool_decide (length items = 0%nat)) then newline ++ indent depth else []) ++
      close_bracket array
  end.

Fixpoint json_members (pretty : bool) (depth : nat) (array first : bool) (l : list item) : str :=
  match l with
  | [] => []
  | i :: l => json_lead pretty depth first array (item_name i) ++ print_json pretty depth i ++ json_members pretty depth array false l
  end.

Lemma print_json_section pretty depth array o name items :
  print_json pretty depth (Section_ array o name items) =
  open_bracket array ++ json_members pretty (S depth) array true items ++
  (if pretty && negb (bool_decide (length items = 0%nat)) then newline ++ indent depth else []) ++
  close_bracket array.
Proof.
  cbn [print_json]. f_equal.
  match goal with |- ?m true items ++ _ = _ => assert (∀ b, m b items = json_members pretty (S depth) array b items) as Hm end.
  { induction items as [|i l IH]; intros b; [done|]. cbn [json_members]. by rewrite <- IH. }
  by rewrite Hm.
Qed.

(** ** The formatter's state *)

Definition bump (s : list json_formatter_stack_entry_d) : list json_formatter_stack_entry_d :=
  match s with [] => [] | e :: s => JEntry (je_size e + 1) (je_is_array e) :: s end.

Definition lead (f : json_formatter) (name : str) : str :=
  match j_stack f with
  | [] => []
  | e :: _ => json_lead (j_pretty f) (length (j_stack f)) (je_size e =? 0) (je_is_array e) name
  end.

(** [f'] is [f] with [s] printed and the stack [stack]; strings pending are lost. *)
Definition printed (f : json_formatter) (s : str) (stack : list json_formatter_stack_entry_d) (f' : json_formatter) : Prop :=
  j_ss f' = j_ss f ++ s ∧ j_stack f' = stack ∧ j_pretty f' = j_pretty f.

Lemma finish_printed f : printed f [] (j_stack f) (j_finish_pending_string f).
Proof. unfold j_finish_pending_string, printed. destruct (j_is_pending_string f); cbn; by rewrite ?app_nil_r. Qed.

Lemma indent_S n : indent n ++ "    " = indent (S n).
Proof. unfold indent. induction n as [|n IH]; [done|]. cbn [repeat concat] in *. by rewrite <- app_assoc, IH. Qed.

Lemma print_name_printed name f : printed f (lead f name) (bump (j_stack f)) (j_print_name name f).
Proof.
  destruct (finish_printed f) as (Hs & Hk & Hp). rewrite app_nil_r in Hs. unfold j_print_name, lead, printed.
  set (g := j_finish_pending_string f) in *. clearbody g. rewrite <- Hk, <- Hs, <- Hp. clear Hs Hk Hp f.
  destruct g as [ss pd [|[n arr] rest] ip pretty]; cbn -[indent]; [by rewrite app_nil_r|].
  unfold json_lead, j_print_comma, j_indent. cbn [je_size je_is_array j_stack j_pretty length].
  rewrite <- indent_S. change (concat (repeat ("    " : str) (S (length rest) - 1))) with (indent (S (length rest) - 1)).
  replace (S (length rest) - 1)%nat with (length rest) by lia. generalize (indent (length rest)). intros ind.
  destruct (n =? 0), pretty, arr; cbn -[indent]; (split; [|done]); rewrite <- ?app_assoc; cbn -[indent];
    rewrite <- ?app_assoc; rewrite ?app_nil_r; done.
Qed.

Lemma put_printed f s stack t f' : printed f s stack f' → printed f (s ++ t) stack (j_put t f').
Proof. intros (H & ? & ?). repeat split; try done. cbn. by rewrite H, app_assoc. Qed.

Lemma json_leaf_printed name c f :
  printed f (lead f name ++ json_content c) (bump (j_stack f)) (dump_leaf name c f).
Proof.
  pose proof (print_name_printed name f) as H.
  destruct c; cbn [json_content]; try (by apply put_printed); try (by rewrite app_nil_r).
  rewrite app_nil_r. cbn [dump_leaf]. destruct H as (H1 & H2 & H3).
  assert (∀ g, foldl (λ f s, stream_write s f) g pieces =
    JSONF (j_ss g) (j_pending_string g ++ concat pieces) (j_stack g) (j_is_pending_string g) (j_pretty g)) as ->; [|done].
  clear. induction pieces as [|s l IH]; intros g; cbn [foldl concat]; [rewrite app_nil_r; by destruct g|].
  rewrite IH. cbn. by rewrite <- app_assoc.
Qed.

Lemma json_open_printed array o name f :
  printed f (lead f (json_name o name) ++ open_bracket array) (JEntry 0 array :: bump (j_stack f)) (open_ array o name f).
Proof.
  assert (∀ n, printed f (lead f n ++ open_bracket array) (JEntry 0 array :: bump (j_stack f)) (j_open_section n array f)) as H.
  { intros n. pose proof (put_printed _ _ _ (open_bracket array) _ (print_name_printed n f)) as (H1 & H2 & H3).
    repeat split; try done. unfold j_open_section, j_set_stack. cbn in *. by rewrite H2. }
  destruct o, array; apply H.
Qed.

(** Sizes are counts. *)
Definition sized (s : list json_formatter_stack_entry_d) : Prop := Forall (λ e, 0 <= je_size e) s.

Lemma sized_bump s : sized s → sized (bump s).
Proof. intros H. destruct H as [|e s He Hs]; constructor; [cbn; lia|done]. Qed.

Definition bumps (n : nat) (s : list json_formatter_stack_entry_d) : list json_formatter_stack_entry_d :=
  match s with [] => [] | e :: s => JEntry (je_size e + Z.of_nat n) (je_is_array e) :: s end.

Lemma json_item_printed i : ∀ f,
  sized (j_stack f) →
  ∃ f', dump_item i f = Some f' ∧
        printed f (lead f (item_name i) ++ print_json (j_pretty f) (length (j_stack f)) i) (bump (j_stack f)) f'.
Proof.
  induction i as [array o name items IH|name c] using item_ind'; intros f Hz.
  - rewrite dump_item_section, print_json_section.
    assert (∀ g e s, j_stack g = e :: s → je_is_array e = array → 0 <= je_size e → sized s → ∃ g', dump_items items g = Some g' ∧
      printed g (json_members (j_pretty g) (length (j_stack g)) array (je_size e =? 0) items)
        (JEntry (je_size e + Z.of_nat (length items)) array :: s) g') as Hall.
    { induction items as [|i l IHl]; intros g e s Hg He Hn Hs.
      - exists g. split; [done|]. repeat split; cbn; [by rewrite app_nil_r|]. rewrite Hg. destruct e. cbn in *. subst. f_equal. f_equal. lia.
      - apply Forall_cons in IH as [IHi IH]. destruct (IHi g) as (g1 & E1 & H1 & H2 & H3); [rewrite Hg; by constructor|].
        rewrite Hg in H2. cbn [bump] in H2.
        destruct (IHl IH g1 _ _ H2) as (g2 & E2 & H4 & H5 & H6); [done|cbn; lia|done|].
        exists g2. cbn [dump_items]. rewrite E1. cbn [mbind option_bind]. split; [done|]. repeat split; [|rewrite H5|congruence].
        + rewrite H4, H1, H3, H2. unfold lead. rewrite Hg. cbn [json_members je_size je_is_array length]. rewrite He.
          replace (je_size e + 1 =? 0) with false by (symmetry; apply Z.eqb_neq; lia). by rewrite <- !app_assoc.
        + cbn [je_size length]. f_equal. f_equal. lia. }
    destruct (json_open_printed array o name f) as (O1 & O2 & O3).
    destruct (Hall _ _ _ O2 eq_refl) as (g & Eg & G1 & G2 & G3); [cbn; lia|by apply sized_bump|]. rewrite Eg. cbn [mbind option_bind].
    cbn [close_section JSONFormatter]. unfold j_close_section. rewrite G2. eexists. split; [reflexivity|].
    destruct (finish_printed g) as (F1 & F2 & F3). rewrite app_nil_r in F1.
    replace (je_size _ =? 0) with (bool_decide (length items = 0%nat)); cycle 1.
    { cbn [je_size]. destruct items; [done|]. cbn [length]. rewrite bool_decide_eq_false_2 by done. symmetry. apply Z.eqb_neq. lia. }
    assert (length (j_stack g) = S (length (j_stack f))) as Hlen.
    { rewrite G2. cbn [length]. f_equal. by destruct (j_stack f). }
    assert (j_indent (j_finish_pending_string g) = indent (length (j_stack f))) as Hind.
    { unfold j_indent. rewrite F2, Hlen. replace (S (length (j_stack f)) - 1)%nat with (length (j_stack f)) by lia. done. }
    rewrite F3, G3, O3, Hind. cbn [item_name je_is_array].
    assert (length (j_stack (open_ array o name f)) = S (length (j_stack f))) as Hl2.
    { rewrite O2. cbn [length]. f_equal. by destruct (j_stack f). }
    rewrite Hl2, O3 in G1. cbn [je_size] in G1. change (0 =? 0) with true in G1.
    unfold printed. destruct (j_pretty f && negb _); cbn [j_ss j_stack j_pretty j_put j_set_stack]; rewrite F1, G1, O1;
      (split; [rewrite <- !app_assoc; done|split; [done|congruence]]).
  - exists (dump_leaf name c f). split; [done|]. apply json_leaf_printed.
Qed.

Lemma json_items_printed l : ∀ f,
  j_stack f = [] → ∃ f', dump_items l f = Some f' ∧ printed f (concat (map (print_json (j_pretty f) 0) l)) [] f'.
Proof.
  induction l as [|i l IH]; intros f Hf.
  - exists f. split; [done|]. repeat split; [|done]. by rewrite app_nil_r.
  - destruct (json_item_printed i f) as (f1 & E1 & H1 & H2 & H3); [rewrite Hf; constructor|].
    unfold lead in H1. rewrite Hf in H1, H2. cbn in H1, H2. destruct (IH f1 H2) as (f2 & E2 & H4 & H5 & H6).
    exists f2. cbn [dump_items]. rewrite E1. cbn [mbind option_bind]. split; [done|]. repeat split; [|done|congruence].
    rewrite H4, H1, H3. cbn [map concat]. by rewrite <- app_assoc.
Qed.

(** C34: every document written through the JSON formatter is printed as the
    recursive printer prints it, commas, names, nesting and the pretty form's
    lines and indentation included, and no [close_section] fails. *)
Theorem json_document_spec pretty l :
  document l (JSONFormatter_new pretty) =
  Some (concat (map (print_json pretty 0) l) ++ (if pretty then newline else [])).
Proof.
  destruct (json_items_printed l (JSONFormatter_new pretty) eq_refl) as (f & E & H1 & _ & H3).
  unfold document. rewrite E. cbn. destruct (finish_printed f) as (F1 & _ & F3). rewrite F1, F3, H1, H3. cbn.
  by rewrite app_nil_r.
Qed.

(** A string member is printed as nothing: the text is not JSON. *)
Example json_string_lost :
  document [Section_ false Plain "user" [Leaf "id" (String "joe"); Leaf "n" (Int 3)]] (JSONFormatter_new false) =
  Some ("{" ++ [QUOTE] ++ "id" ++ [QUOTE] ++ ":," ++ [QUOTE] ++ "n" ++ [QUOTE] ++ ":3}").
Proof. vm_compute. reflexivity. Qed.

(** An attribute value is written as it is. *)
Example xml_attribute_injected :
  (document [Leaf "subdir" (StringWithAttrs [] [("name", [QUOTE] ++ " x=" ++ [QUOTE] ++ "1")])] (XMLFormatter_new false) ≫= lex) =
  Some [TOpen "subdir" [("name", []); ("x", "1")]; TClose "subdir"].
Proof. vm_compute. reflexivity. Qed.

(** So is the text of a leaf in a name space. *)
Example xml_ns_text_injected :
  (document [Leaf "L" (FormatNs "u" "a</L><L>b")] (XMLFormatter_new false) ≫= lex) =
  Some [TOpen "L" [("xmlns", "u")]; TText "a"; TClose "L"; TOpen "L" []; TText "b"; TClose "L"].
Proof. vm_compute. reflexivity. Qed.

Lemma length_resize {A} n (d : A) v : length (resize n d v) = n.
Proof. unfold resize. rewrite length_app, length_take, repeat_length. lia. Qed.

Lemma size_cell_out_of_range i above row j cell s :
  (length row <= i)%nat → above !! j ≠ Some cell → t_size_cell i (Some above) row j cell s = None.
Proof.
  intros Hi Ha. destruct s as [[cs cn] need]. unfold t_size_cell, assign_at. destruct (above !! j) as [c|]; [|done].
  cbn [mbind option_bind]. rewrite decide_False by congruence. destruct (decide (i < _)%nat) as [H|_]; [rewrite length_resize in H; lia|done].
Qed.

(** Two rows of one column with different values: [flush] assigns
    [column_name[1]] of a vector of one element. *)
Lemma table_out_of_range name v w :
  v ≠ w →
  document [Leaf name (String v); Leaf name (String w)] (TableFormatter_new false) = None.
Proof.
  intros Hvw.
  assert (dump_items [Leaf name (String v); Leaf name (String w)] (TableFormatter_new false) =
          Some (TableF [[(name, v)]; [(name, w)]] [] [] false 0 [] ∅ [] [])) as E.
  { cbn [dump_items dump_item dump_leaf dump_string TableFormatter mbind option_bind].
    assert (t_dump_text name v (TableFormatter_new false) = TableF [[(name, v)]] [] [] false 0 [] ∅ [] []) as -> by reflexivity.
    unfold t_dump_text, t_push, t_finish_pending_string, t_vec_index. cbn. repeat (case_decide; cbn); done. }
  unfold document. rewrite E. cbn [mbind option_bind flush TableFormatter]. unfold t_flush.
  set (f := t_finish_pending_string _). assert (t_vec f = [[(name, v)]; [(name, w)]]) as -> by reflexivity.
  assert (∀ s, t_size_rows 0 None [[(name, v)]; [(name, w)]] s = None) as Hrows; [|by rewrite Hrows].
  intros s. cbn [t_size_rows t_size_row]. destruct (t_size_cell 0 _ _ _ _ _) as [s'|]; [|done]. cbn [mbind option_bind].
  rewrite size_cell_out_of_range; [done|cbn; lia|cbn; congruence].
Qed.

(** Rows with enough columns are printed. *)
Example table_printed :
  is_Some (document [Leaf "a" (Int 1); Leaf "b" (Int 2); Leaf "a" (Int 3); Leaf "b" (Int 4)] (TableFormatter_new false)).
Proof. vm_compute. by eexists. Qed.
