(* ===== verification/AclS3Facts.v ===== *)
(** * Properties of S3 access control documents

    Canned policies, policies from headers, and the round trip of a policy
    through the text of its XML document. *)

From S2P Require Import Prelude StdMap CString Env SysInfo Escape Formatter FormatterFacts Acl AclFacts AclS3.

(** ** Documents as event lists *)

Definition print_attr (p : str * str) : str :=
  " " ++ fst p ++ "=" ++ [QUOTE] ++ snd p ++ [QUOTE].

(** The text of a document whose tokens are the given events. *)
Definition print_event (e : xml_event) : str :=
  match e with
  | xml_start el attr => "<" ++ el ++ concat (map print_attr attr) ++ ">"
  | xml_end el => "</" ++ el ++ ">"
  | handle_data s => s
  end.
Definition print_events (es : list xml_event) : str := concat (map print_event es).

Definition element (el : str) (attr : list (str * str)) (content : list xml_event) : list xml_event :=
  xml_start el attr :: content ++ [xml_end el].

(** Character data is reported when there is some. *)
Definition text (s : str) : list xml_event := match s with [] => [] | _ => [handle_data s] end.

Definition perm_name (flags : Z) : str :=
  if flags =? RGW_PERM_READ then "READ" else if flags =? RGW_PERM_WRITE then "WRITE"
  else if flags =? RGW_PERM_READ_ACP then "READ_ACP" else if flags =? RGW_PERM_WRITE_ACP then "WRITE_ACP"
  else "FULL_CONTROL".

Definition optional_element (el s : str) : list xml_event :=
  match s with [] => [] | _ => element el [] (text s) end.

Definition xsi_attrs (type : Z) : list (str * str) :=
  [("xmlns:xsi", "http://www.w3.org/2001/XMLSchema-instance"); ("xsi:type", grantee_type_to_string type)].

(** The tokens of a grant to a user, of an owner, of a policy. *)
Definition grant_events (g : ACLGrant) : list xml_event :=
  element "Grant" []
    (element "Grantee" (xsi_attrs (ag_type g))
       (if ag_type g =? ACL_TYPE_CANON_USER
        then element "ID" [] (text (ag_id g)) ++ optional_element "DisplayName" (ag_name g)
        else element "EmailAddress" [] (text (ag_email g))) ++
     element "Permission" [] (text (perm_name (Z.land (ag_permission g) RGW_PERM_ALL_S3)))).
Definition owner_events (o : ACLOwner) : list xml_event :=
  element "Owner" []
    (element "ID" [] (text (ow_id o)) ++ optional_element "DisplayName" (ow_display_name o)).
Definition policy_events (p : RGWAccessControlPolicy) : list xml_event :=
  element "AccessControlPolicy" [("xmlns", "http://s3.amazonaws.com/doc/2006-03-01/")]
    (owner_events (ap_owner p) ++
     element "AccessControlList" [] (concat (map (λ q, grant_events (snd q)) (grant_map (ap_acl p))))).

(** Grants a document can carry: to a user or an e-mail address, of one
    permission or full control. *)
Definition simple_perms : list Z :=
  [RGW_PERM_READ; RGW_PERM_WRITE; RGW_PERM_READ_ACP; RGW_PERM_WRITE_ACP; RGW_PERM_FULL_CONTROL].
Definition simple_grant (g : ACLGrant) : Prop :=
  ag_permission g ∈ simple_perms ∧ ag_group g = ACL_GROUP_NONE ∧
  (ag_type g = ACL_TYPE_CANON_USER ∧ ag_email g = [] ∨
   ag_type g = ACL_TYPE_EMAIL_USER ∧ ag_id g = [] ∧ ag_name g = []).

(** ** Printing *)

Lemma print_events_app es es' : print_events (es ++ es') = print_events es ++ print_events es'.
Proof. unfold print_events. by rewrite map_app, concat_app. Qed.

Lemma print_element el attr content :
  print_events (element el attr content) =
    "<" ++ el ++ concat (map print_attr attr) ++ ">" ++ print_events content ++ "</" ++ el ++ ">".
Proof.
  unfold element. change (print_events (?e :: ?es)) with (print_event e ++ print_events es).
  rewrite print_events_app. cbn [print_event print_events map concat]. by rewrite <- !app_assoc, app_nil_r.
Qed.

Lemma print_text s : print_events (text s) = s.
Proof. destruct s; cbn; [done|]. by rewrite app_nil_r. Qed.

Lemma print_optional el s :
  print_events (optional_element el s) =
    match s with [] => [] | _ => "<" ++ el ++ ">" ++ s ++ "</" ++ el ++ ">" end.
Proof. destruct s; [done|]. unfold optional_element. by rewrite print_element, print_text. Qed.

Lemma print_grant g : simple_grant g → print_events (grant_events g) = grant_to_xml g.
Proof.
  intros (Hp & _ & Ht). unfold grant_events, grant_to_xml.
  rewrite !print_element, print_events_app, !print_element, print_text.
  assert (Hperm : Z.land (ag_permission g) RGW_PERM_ALL_S3 = ag_permission g ∧
    permission_to_xml (ag_permission g) =
      "<Permission>" ++ perm_name (ag_permission g) ++ "</Permission>" ∧
    (ag_permission g =? 0) = false).
  { repeat (apply elem_of_cons in Hp as [->|Hp]; [done|]). by apply not_elem_of_nil in Hp. }
  destruct Hperm as (Hp1 & Hp2 & Hp3). rewrite Hp1, Hp2, Hp3. unfold grantee_open.
  set (pn := perm_name _). clearbody pn. clear Hp1 Hp2 Hp3.
  destruct Ht as [[-> _]|(-> & _)]; cbn [Z.eqb ACL_TYPE_CANON_USER ACL_TYPE_EMAIL_USER].
  - rewrite print_events_app, print_element, print_text, print_optional.
    destruct (ag_name g); cbn; repeat (rewrite <- ?app_assoc; cbn); done.
  - rewrite print_element, print_text. cbn; repeat (rewrite <- ?app_assoc; cbn); done.
Qed.

Lemma print_policy p :
  ow_id (ap_owner p) ≠ [] → Forall simple_grant (grant_map (ap_acl p)).*2 →
  print_events (policy_events p) = policy_to_xml p.
Proof.
  intros Ho Hg. unfold policy_events, policy_to_xml.
  rewrite print_element, print_events_app, print_element.
  assert (Hacl : print_events (concat (map (λ q, grant_events (snd q)) (grant_map (ap_acl p)))) =
                 concat (map (λ q, grant_to_xml (snd q)) (grant_map (ap_acl p)))).
  { revert Hg. generalize (grant_map (ap_acl p)).
    induction l as [|q l IH]; cbn [fmap list_fmap map concat]; [done|].
    intros [Hq Hg]%Forall_cons. by rewrite print_events_app, print_grant, IH. }
  assert (Howner : print_events (owner_events (ap_owner p)) = owner_to_xml (ap_owner p)).
  { unfold owner_events, owner_to_xml.
    rewrite print_element, print_events_app, print_element, print_text, print_optional.
    destruct (ow_id (ap_owner p)) as [|c id]; [done|].
    destruct (ow_display_name (ap_owner p)); cbn; repeat (rewrite <- ?app_assoc; cbn); done. }
  rewrite Hacl, Howner. unfold acl_to_xml. cbn. repeat (rewrite <- ?app_assoc; cbn). done.
Qed.

(** ** Parsing *)

Lemma xml_run_app es es' p :
  xml_run p (es ++ es') = p' ← xml_run p es; xml_run p' es'.
Proof.
  revert p. induction es as [|e es IH]; intros p; cbn; [done|].
  destruct (xml_step p e) as [p'|]; cbn; [apply IH|done].
Qed.

(** The events add the object [c] to the element they occur in. *)
Definition parses (es : list xml_event) (c : XMLObj) : Prop :=
  ∀ o up root, xml_run (XP (o :: up) root) es = Some (XP (add_child o c :: up) root).

Definition add_children (o : XMLObj) (cs : list XMLObj) : XMLObj := fold_left add_child cs o.

Lemma run_children ess cs o up root :
  Forall2 parses ess cs →
  xml_run (XP (o :: up) root) (concat ess) = Some (XP (add_children o cs :: up) root).
Proof.
  intros H. revert o. induction H as [|es c ess cs Hc _ IH]; intros o; cbn; [done|].
  rewrite xml_run_app, Hc. cbn. apply IH.
Qed.

Lemma parses_element el attr ess cs pl :
  Forall2 parses ess cs →
  obj_xml_end (add_children (new_obj el attr) cs) = Some pl →
  parses (element el attr (concat ess)) (set_payload (add_children (new_obj el attr) cs) pl).
Proof.
  intros H Hpl o up root. unfold element. cbn [xml_run xml_step mbind option_bind xp_open xp_root].
  rewrite xml_run_app, (run_children ess cs) by done.
  cbn [xml_run xml_step mbind option_bind xp_open xp_root]. by rewrite Hpl.
Qed.

(** The same for the root element of the document. *)
Lemma parses_root el attr ess cs pl root :
  Forall2 parses ess cs →
  obj_xml_end (add_children (new_obj el attr) cs) = Some pl →
  xml_run (XP [] root) (element el attr (concat ess)) =
    Some (XP [] (add_child root (set_payload (add_children (new_obj el attr) cs) pl))).
Proof.
  intros H Hpl. unfold element. cbn [xml_run xml_step mbind option_bind xp_open xp_root].
  rewrite xml_run_app, (run_children ess cs) by done.
  cbn [xml_run xml_step mbind option_bind xp_open xp_root]. by rewrite Hpl.
Qed.

(** An element that holds only text. *)
Definition leaf (el s : str) (pl : xml_payload) : XMLObj := XObj el s [] [] pl.

Lemma parses_leaf el s pl :
  obj_xml_end (leaf el s (alloc_obj el)) = Some pl → parses (element el [] (text s)) (leaf el s pl).
Proof.
  intros Hpl o up root. unfold element, text. destruct s as [|c s]; cbn -[obj_xml_end alloc_obj].
  - change (new_obj el []) with (leaf el [] (alloc_obj el)). rewrite Hpl. done.
  - change (add_data (new_obj el []) (c :: s)) with (leaf el (c :: s) (alloc_obj el)). rewrite Hpl. done.
Qed.

(** A required element followed by an optional one. *)
Lemma parses_id_name (id name : str) :
  ∃ cs, Forall2 parses ([element "ID" [] (text id)] ++
                        match name with [] => [] | _ => [element "DisplayName" [] (text name)] end) cs ∧
        element "ID" [] (text id) ++ optional_element "DisplayName" name =
          concat ([element "ID" [] (text id)] ++
                  match name with [] => [] | _ => [element "DisplayName" [] (text name)] end) ∧
        cs = leaf "ID" id X_plain ::
             match name with [] => [] | _ => [leaf "DisplayName" name X_plain] end.
Proof.
  eexists. split_and!; [| |reflexivity].
  - constructor; [by apply parses_leaf|]. destruct name; constructor; [by apply parses_leaf|constructor].
  - unfold optional_element. destruct name; cbn; by rewrite ?app_nil_r.
Qed.

Lemma parses_owner o :
  ∃ c, parses (owner_events o) c ∧ xo_type c = "Owner" ∧ xo_payload c = X_owner o.
Proof.
  destruct (parses_id_name (ow_id o) (ow_display_name o)) as (cs & Hcs & Heq & Ecs).
  unfold owner_events. rewrite Heq. eexists. split.
  - eapply parses_element; [exact Hcs|]. subst cs.
    destruct o as [id [|c name]]; reflexivity.
  - subst cs. by destruct (ow_display_name o).
Qed.

Lemma parses_grant g :
  simple_grant g → ∃ c, parses (grant_events g) c ∧ xo_type c = "Grant" ∧ xo_payload c = X_grant g.
Proof.
  intros (Hp & Hg & Ht). unfold grant_events.
  assert (Hperm : parses (element "Permission" []
      (text (perm_name (Z.land (ag_permission g) RGW_PERM_ALL_S3))))
      (leaf "Permission" (perm_name (ag_permission g)) (X_permission (ag_permission g)))).
  { repeat (apply elem_of_cons in Hp as [->|Hp]; [by apply parses_leaf|]). by apply not_elem_of_nil in Hp. }
  destruct g as [type id email perm name group]. cbn [ag_type ag_id ag_email ag_permission ag_name ag_group] in *.
  subst group. destruct Ht as [[-> ->]|(-> & -> & ->)].
  - destruct (parses_id_name id name) as (cs & Hcs & Heq & Ecs).
    change (ACL_TYPE_CANON_USER =? ACL_TYPE_CANON_USER) with true. cbn match. rewrite Heq.
    eapply (parses_element "Grantee" (xsi_attrs ACL_TYPE_CANON_USER) _ _ X_plain) in Hcs;
      [|subst cs; by destruct name].
    eexists. split.
    + rewrite <- (app_nil_r (element "Permission" _ _)).
      eapply (parses_element "Grant" [] [_; _] [_; _] 
        (X_grant (Mk_ACLGrant ACL_TYPE_CANON_USER id [] perm name ACL_GROUP_NONE))); [by repeat constructor|].
      subst cs. destruct name; reflexivity.
    + done.
  - change (ACL_TYPE_EMAIL_USER =? ACL_TYPE_CANON_USER) with false. cbn match.
    assert (Hge : parses (element "Grantee" (xsi_attrs ACL_TYPE_EMAIL_USER)
                            (element "EmailAddress" [] (text email)))
              (set_payload (add_children (new_obj "Grantee" (xsi_attrs ACL_TYPE_EMAIL_USER))
                              [leaf "EmailAddress" email X_plain]) X_plain)).
    { rewrite <- (app_nil_r (element "EmailAddress" _ _)).
      eapply (parses_element "Grantee" _ [_] [_] X_plain); [|done].
      constructor; [by apply parses_leaf|constructor]. }
    eexists. split.
    + rewrite <- (app_nil_r (element "Permission" _ _)).
      eapply (parses_element "Grant" [] [_; _] [_; _] 
        (X_grant (Mk_ACLGrant ACL_TYPE_EMAIL_USER [] email perm [] ACL_GROUP_NONE)));
        [by repeat constructor|reflexivity].
    + done.
Qed.

Lemma parses_grants gs :
  Forall simple_grant gs →
  ∃ cs, Forall2 parses (map grant_events gs) cs ∧ Forall (λ c, xo_type c = "Grant") cs ∧
        as_grant <$> cs = gs.
Proof.
  induction 1 as [|g gs Hg _ (cs & H1 & H2 & H3)]; [exists []; by repeat constructor|].
  destruct (parses_grant g Hg) as (c & Hc & Ht & Hp). exists (c :: cs).
  split_and!; [by constructor..|]. cbn. unfold as_grant at 1. by rewrite Hp, H3.
Qed.

Lemma add_children_same el o cs :
  xo_children o = [] → Forall (λ c, xo_type c = el) cs →
  xo_children (add_children o cs) = map (pair el) cs ∧ xo_payload (add_children o cs) = xo_payload o ∧
  xo_type (add_children o cs) = xo_type o.
Proof.
  intros Ho Hcs.
  assert (Hgen : ∀ dn, xo_children o = map (pair el) dn →
    xo_children (add_children o cs) = map (pair el) (dn ++ cs) ∧
    xo_payload (add_children o cs) = xo_payload o ∧ xo_type (add_children o cs) = xo_type o).
  { clear Ho. revert o. induction Hcs as [|c cs Hc _ IH]; intros o dn Ho.
    - rewrite app_nil_r. done.
    - cbn [add_children fold_left]. destruct (IH (add_child o c) (dn ++ [c])) as (H1 & H2 & H3).
      + cbn [add_child xo_children]. rewrite Ho, Hc, mminsert_snoc, map_app; [done|].
        clear. induction dn; cbn; constructor; [cbn; by rewrite compare_refl|done].
      + rewrite <- app_assoc in H1. done. }
  apply (Hgen []). by rewrite Ho.
Qed.

Lemma find_all_same el o cs : xo_children o = map (pair el) cs → find_all el o = cs.
Proof.
  unfold find_all. intros ->. induction cs as [|c cs IH]; [done|].
  cbn [map omap list_omap fst snd]. unfold streq. rewrite bool_decide_true by done. by f_equal.
Qed.

Lemma fold_add_grants cs a : fold_left (λ a g, add_grant (as_grant g) a) cs a = add_all (as_grant <$> cs) a.
Proof. revert a. induction cs as [|c cs IH]; intros a; cbn; [done|apply IH]. Qed.

Lemma parses_acl gs :
  Forall simple_grant gs →
  ∃ c, parses (element "AccessControlList" [] (concat (map grant_events gs))) c ∧
       xo_type c = "AccessControlList" ∧ xo_payload c = X_acl (add_all gs RGWAccessControlList_new).
Proof.
  intros Hgs. destruct (parses_grants gs Hgs) as (cs & H1 & H2 & H3).
  destruct (add_children_same "Grant" (new_obj "AccessControlList" []) cs eq_refl H2) as (Hc & Hp & Ht).
  eexists. split; [eapply parses_element; [exact H1|]|].
  - unfold obj_xml_end. rewrite Hp. cbn [new_obj xo_payload].
    change (alloc_obj "AccessControlList") with (X_acl RGWAccessControlList_new). cbn match.
    unfold acl_xml_end. rewrite (find_all_same _ _ _ Hc), fold_add_grants, H3. reflexivity.
  - split; [exact Ht|done].
Qed.

(** ** From the text to the events *)

(** The callback the tokenizer makes for a token. *)
Definition event_of (t : token) : xml_event :=
  match t with TOpen name attrs => xml_start name attrs | TClose name => xml_end name | TText s => handle_data s end.

(** The tokenizer may hand a text over in several pieces: the events with their
    pieces put together. *)
Fixpoint join_data (es : list xml_event) : list xml_event :=
  match es with
  | [] => []
  | handle_data s :: es =>
      match join_data es with handle_data t :: r => handle_data (s ++ t) :: r | r => handle_data s :: r end
  | e :: es => e :: join_data es
  end.

Lemma xml_run_join es : ∀ p, xml_run p (join_data es) = xml_run p es.
Proof.
  induction es as [|e es IH]; intros p; [done|]. destruct e as [el attr|el|s]; cbn [join_data xml_run];
    [destruct (xml_step p _); [apply IH|done]..|].
  transitivity (p' ← xml_step p (handle_data s); xml_run p' (join_data es));
    [|destruct (xml_step p (handle_data s)); [apply IH|done]].
  destruct (join_data es) as [|[?|?|t] r]; [done..|]. destruct p as [[|cur up] root]; [done|].
  cbn. do 3 f_equal. unfold add_data. cbn. by rewrite app_assoc.
Qed.

(** Texts that need no escaping: printable characters that are no markup. *)
Definition safe_char (c : ascii) : bool := negb (special c) && (32 <=? uchar c) && (uchar c <? 127).
Definition safe_text (s : str) : Prop := forallb safe_char s = true.

Lemma safe_plain s : safe_text s → plain_text s.
Proof.
  unfold safe_text, plain_text. rewrite !forallb_forall. intros H c Hc. apply H in Hc.
  unfold safe_char in Hc. by apply andb_true_iff in Hc as [[Hc _]%andb_true_iff _].
Qed.

(** Lists of events whose text reads back: no text next to another, nothing that
    would need escaping. *)
Fixpoint readable (after_text : bool) (es : list xml_event) : Prop :=
  match es with
  | [] => True
  | xml_start el attr :: es => name_ok el ∧ attrs_ok attr ∧ readable false es
  | xml_end el :: es => Forall no_markup el ∧ readable false es
  | handle_data s :: es => after_text = false ∧ s ≠ [] ∧ plain_text s ∧ readable true es
  end.

Lemma text_token_plain s : plain_text s → text_token s = Some (text_of s).
Proof. intros H. destruct s as [|c s]; [done|]. unfold text_token. by rewrite plain_unescape. Qed.

Lemma lex_events es : ∀ toks acc,
  plain_text acc → readable (negb (bool_decide (acc = []))) es →
  ∃ toks' acc', lex_loop (InText toks acc) (print_events es) = Some (InText toks' acc') ∧ plain_text acc'
    ∧ map event_of (toks' ++ text_of acc') = map event_of (toks ++ text_of acc) ++ es.
Proof.
  induction es as [|e es IH]; intros toks acc Hacc Hr; [exists toks, acc; by rewrite app_nil_r|].
  change (print_events (e :: es)) with (print_event e ++ print_events es). rewrite lex_loop_app.
  destruct e as [el attr|el|s]; cbn [readable] in Hr.
  - destruct Hr as (Hn & Ha & Hr).
    change (print_event (xml_start el attr)) with ("<" ++ el ++ x_get_attrs_str attr ++ ">").
    assert (read_tag (el ++ x_get_attrs_str attr) = Some (TOpen el attr)) as Ht.
    { apply read_open; [done|destruct attr as [|[n v] attr]; [by left|right; eexists; reflexivity]|].
      pose proof (read_attrs_app attr [] [] Ha eq_refl) as H. by rewrite !app_nil_r in H. }
    rewrite (app_assoc el), (lex_tag toks acc _ _ _ (text_token_plain acc Hacc)
      ltac:(apply Forall_app; split; [by apply name_no_markup|by apply attrs_no_markup]) Ht). cbn [mbind option_bind].
    destruct (IH (toks ++ text_of acc ++ [TOpen el attr]) []) as (t & a & -> & Hp & E); [done|done|].
    exists t, a. split; [done|]. split; [done|]. rewrite E. rewrite !map_app. cbn. by rewrite app_nil_r, <- !app_assoc.
  - destruct Hr as [Hn Hr]. change (print_event (xml_end el)) with ("<" ++ ("/" ++ el) ++ ">").
    assert (Forall no_markup ("/" ++ el)) as Hn' by (by constructor).
    rewrite (lex_tag toks acc _ _ _ (text_token_plain acc Hacc) Hn' (read_close el)). cbn [mbind option_bind].
    destruct (IH (toks ++ text_of acc ++ [TClose el]) []) as (t & a & -> & Hp & E); [done|done|].
    exists t, a. split; [done|]. split; [done|]. rewrite E. rewrite !map_app. cbn. by rewrite app_nil_r, <- !app_assoc.
  - destruct Hr as (Hb & Hne & Hs & Hr). apply negb_false_iff, bool_decide_eq_true in Hb as ->.
    cbn [print_event]. rewrite (lex_text _ [] s) by by apply plain_no_markup. cbn [mbind option_bind app].
    destruct (IH toks s) as (t & a & -> & Hp & E); [done|by rewrite bool_decide_eq_false_2|].
    exists t, a. split; [done|]. split; [done|]. rewrite E, !map_app. cbn. rewrite app_nil_r, <- app_assoc. f_equal.
    by destruct s.
Qed.

(** Pieces of a document between which anything readable may follow. *)
Definition block (es : list xml_event) : Prop := ∀ rest, readable false rest → readable false (es ++ rest).

Lemma block_nil : block [].
Proof. by intros rest. Qed.
Lemma block_app es es' : block es → block es' → block (es ++ es').
Proof. intros H1 H2 rest Hr. rewrite <- app_assoc. auto. Qed.
Lemma block_concat ess : Forall block ess → block (concat ess).
Proof. induction 1; [apply block_nil|by apply block_app]. Qed.
Lemma block_element el attr es : name_ok el → attrs_ok attr → block es → block (element el attr es).
Proof.
  intros Hn Ha He rest Hr. unfold element. cbn [app readable]. rewrite <- app_assoc. split_and!; [done..|].
  apply He. cbn. split; [by apply name_no_markup|done].
Qed.
Lemma block_leaf el s : name_ok el → plain_text s → block (element el [] (text s)).
Proof.
  intros Hn Hs rest Hr. unfold element, text. cbn [app readable]. split; [done|]. split; [constructor|].
  pose proof (name_no_markup el Hn). by destruct s; cbn; split_and!.
Qed.
Lemma block_optional el s : name_ok el → plain_text s → block (optional_element el s).
Proof. intros. destruct s; [apply block_nil|by apply block_leaf]. Qed.

(** A policy whose strings need no escaping. *)
Definition safe_grant (g : ACLGrant) : Prop := safe_text (ag_id g) ∧ safe_text (ag_name g) ∧ safe_text (ag_email g).
Definition safe_policy (p : RGWAccessControlPolicy) : Prop :=
  safe_text (ow_id (ap_owner p)) ∧ safe_text (ow_display_name (ap_owner p))
  ∧ Forall safe_grant (grant_map (ap_acl p)).*2.

Ltac block_tac :=
  repeat first [ apply block_app | apply block_leaf | apply block_optional | apply block_element ];
  try (split; [done | vm_compute; reflexivity]); try (apply safe_plain; assumption).

Lemma block_grant g : simple_grant g → safe_grant g → block (grant_events g).
Proof.
  intros (Hp & _ & Ht) (H1 & H2 & H3). unfold grant_events. block_tac; [constructor| | |].
  - destruct Ht as [[-> _]|[-> _]]; repeat constructor; vm_compute; done.
  - destruct (ag_type g =? _); block_tac; constructor.
  - repeat (apply elem_of_cons in Hp as [->|Hp]; [vm_compute; reflexivity|]). by apply not_elem_of_nil in Hp.
Qed.

Lemma block_policy p : Forall simple_grant (grant_map (ap_acl p)).*2 → safe_policy p → block (policy_events p).
Proof.
  intros Hg (H1 & H2 & H3). unfold policy_events, owner_events. block_tac.
  - repeat constructor; vm_compute; done.
  - constructor.
  - constructor.
  - rewrite <- (map_map snd grant_events). apply block_concat, Forall_map. change (map snd (grant_map (ap_acl p))) with ((grant_map (ap_acl p)).*2).
    apply Forall_forall. intros g Hin. rewrite Forall_forall in Hg, H3. apply block_grant; auto.
Qed.

(** The text of a document is read as the events it was printed from. *)
Lemma lex_policy p :
  ow_id (ap_owner p) ≠ [] → Forall simple_grant (grant_map (ap_acl p)).*2 → safe_policy p →
  ∃ toks, lex (policy_to_xml p) = Some toks ∧ map event_of toks = policy_events p.
Proof.
  intros Ho Hg Hs. rewrite <- (print_policy p Ho Hg).
  destruct (lex_events (policy_events p) [] []) as (toks & acc & E & Hp & Hm); [done| |].
  - rewrite <- (app_nil_r (policy_events p)). by apply block_policy.
  - exists (toks ++ text_of acc). split; [|exact Hm]. unfold lex. rewrite E, text_token_plain by done. done.
Qed.

Lemma parse_policy_join es : parse_policy (join_data es) = parse_policy es.
Proof. unfold parse_policy, xml_parse. by rewrite xml_run_join. Qed.

Lemma parse_policy_events p :
  Forall simple_grant (grant_map (ap_acl p)).*2 →
  ∃ o, parse_policy (policy_events p) =
    Some (o, Mk_RGWAccessControlPolicy (add_all (grant_map (ap_acl p)).*2 RGWAccessControlList_new) (ap_owner p)).
Proof.
  intros Hg. destruct (parses_owner (ap_owner p)) as (co & Hco & Hto & Hpo).
  destruct (parses_acl _ Hg) as (ca & Hca & Hta & Hpa).
  set (q := Mk_RGWAccessControlPolicy (add_all (grant_map (ap_acl p)).*2 RGWAccessControlList_new)
              (ap_owner p)).
  set (attr := [("xmlns", "http://s3.amazonaws.com/doc/2006-03-01/")]).
  set (top := new_obj "AccessControlPolicy" attr).
  assert (Hend : obj_xml_end (add_children top [co; ca]) = Some (X_policy q)).
  { destruct co as [t d ch at' pl], ca as [t2 d2 ch2 at2 pl2].
    cbn [xo_type xo_payload] in *. subst t t2 pl pl2. reflexivity. }
  assert (Hch : Forall2 parses [owner_events (ap_owner p); element "AccessControlList" []
      (concat (map grant_events (grant_map (ap_acl p)).*2))] [co; ca]) by (by repeat constructor).
  pose proof (parses_root "AccessControlPolicy" attr _ _ _ (XObj [] [] [] [] X_plain) Hch Hend) as Hpol.
  exists (set_payload (add_children top [co; ca]) (X_policy q)).
  cbn [concat] in Hpol. rewrite app_nil_r in Hpol.
  assert (Hev : policy_events p = element "AccessControlPolicy" attr
    (owner_events (ap_owner p) ++ element "AccessControlList" []
       (concat (map grant_events (grant_map (ap_acl p)).*2)))).
  { unfold policy_events. do 4 f_equal. by rewrite <- map_map. }
  rewrite Hev. unfold parse_policy, xml_parse. rewrite Hpol. reflexivity.
Qed.

(** ** Theorems *)



(** The printer does not escape: the name of an owner can close its element and
    bring a grant of its own, and a name with an ampersand makes a text that is
    no XML. *)
Example acl_xml_injected :
  let grant := Mk_ACLGrant ACL_TYPE_CANON_USER "eve" [] RGW_PERM_FULL_CONTROL [] ACL_GROUP_NONE in
  let owner name := Mk_RGWAccessControlPolicy RGWAccessControlList_new (Mk_ACLOwner "joe" name) in
  let evil := "x</DisplayName></Owner><AccessControlList>" ++ grant_to_xml grant ++ "</AccessControlList><Owner><ID>joe</ID><DisplayName>x" in
  (∃ o q, (lex (policy_to_xml (owner evil)) ≫= λ t, parse_policy (map event_of t)) = Some (o, q)
        ∧ (grant_map (ap_acl q)).*2 = [grant])
  ∧ lex (policy_to_xml (owner "Tom & Joe")) = None.
Proof. split; [eexists _, _; split; vm_compute; reflexivity|vm_compute; reflexivity]. Qed.

(** What a document loses.  The printer writes a grant of several
    permissions as several [Permission] elements, of which the parser takes
    the first; and the parser never sets the group of a grant, so that a
    parsed grant to a group is refused by [rebuild]. *)
Lemma acl_xml_losses o f `{UserDirectory} :
  grant_xml_end o ACLGrant_new = Some f →
  (∃ p, find_first "Permission" o = Some p ∧ ag_permission f = as_permission p) ∧
  (ag_type f = ACL_TYPE_GROUP → rebuild_grant f = inl (- EINVAL)) ∧
  permission_to_xml (Z.lor RGW_PERM_READ RGW_PERM_WRITE) =
    "<Permission>READ</Permission><Permission>WRITE</Permission>".
Proof.
  unfold grant_xml_end. intros Hf.
  destruct (find_first "Grantee" o) as [e|]; cbn [mbind option_bind] in Hf; [|done].
  destruct (get_attr _ e) as [t|]; cbn [mbind option_bind] in Hf; [|done].
  destruct (find_first "Permission" o) as [p|]; cbn [mbind option_bind] in Hf; [|done].
  assert (Hr : ag_permission f = as_permission p ∧ ag_group f = ACL_GROUP_NONE).
  { cbn zeta in Hf. repeat case_match; try apply bind_Some in Hf as (? & _ & Hf); by simplify_eq. }
  destruct Hr as [Hp Hg]. split_and!; [by exists p| |reflexivity].
  intros Ht. unfold rebuild_grant. by rewrite Ht, Hg.
Qed.

Definition demo_group_grant : XMLObj :=
  add_children (new_obj "Grant" [])
    [set_payload (add_children (new_obj "Grantee" (xsi_attrs ACL_TYPE_GROUP))
                    [leaf "URI" rgw_uri_all_users X_plain]) X_plain;
     leaf "Permission" "READ" (X_permission RGW_PERM_READ);
     leaf "Permission" "WRITE" (X_permission RGW_PERM_WRITE)].

Definition demo_directory : UserDirectory := λ uid, inr (UserNames uid uid).

Lemma acl_xml_losses_witness :
  let f := Mk_ACLGrant ACL_TYPE_GROUP [] [] RGW_PERM_READ [] ACL_GROUP_NONE in
  (∃ p, find_first "Permission" demo_group_grant = Some p ∧ ag_permission f = as_permission p) ∧
  (ag_type f = ACL_TYPE_GROUP → @rebuild_grant demo_directory f = inl (- EINVAL)) ∧
  permission_to_xml (Z.lor RGW_PERM_READ RGW_PERM_WRITE) =
    "<Permission>READ</Permission><Permission>WRITE</Permission>".
Proof.
  intros f. apply (@acl_xml_losses demo_group_grant f demo_directory). vm_compute. reflexivity.
Defined.

(** ** Canned policies *)

(** What a canned policy gives to a user who is not the owner; [None] for a name
    that is not one. *)
Definition canned_perm (canned : str) (bucket_owner anonymous : bool) : option Z :=
  if streq canned [] || streq canned "private" then Some 0
  else if streq canned "public-read" then Some RGW_PERM_READ
  else if streq canned "public-read-write" then Some (Z.lor RGW_PERM_READ RGW_PERM_WRITE)
  else if streq canned "authenticated-read" then Some (if anonymous then 0 else RGW_PERM_READ)
  else if streq canned "bucket-owner-read" then Some (if bucket_owner then RGW_PERM_READ else 0)
  else if streq canned "bucket-owner-full-control" then
    Some (if bucket_owner then RGW_PERM_FULL_CONTROL else 0)
  else None.

(** The grants of a canned policy, in order. *)
Definition canned_grants (owner bowner : ACLOwner) (canned : str) : list ACLGrant :=
  let to_bowner perm :=
    if streq (ow_id bowner) (ow_id owner) then []
    else [set_canon (ow_id bowner) (ow_display_name bowner) perm ACLGrant_new] in
  set_canon (ow_id owner) (ow_display_name owner) RGW_PERM_FULL_CONTROL ACLGrant_new ::
  (if streq canned "public-read" then [set_group ACL_GROUP_ALL_USERS RGW_PERM_READ ACLGrant_new]
   else if streq canned "public-read-write" then
     [set_group ACL_GROUP_ALL_USERS RGW_PERM_READ ACLGrant_new;
      set_group ACL_GROUP_ALL_USERS RGW_PERM_WRITE ACLGrant_new]
   else if streq canned "authenticated-read" then
     [set_group ACL_GROUP_AUTHENTICATED_USERS RGW_PERM_READ ACLGrant_new]
   else if streq canned "bucket-owner-read" then to_bowner RGW_PERM_READ
   else if streq canned "bucket-owner-full-control" then to_bowner RGW_PERM_FULL_CONTROL
   else []).

Lemma create_canned_grants owner bowner canned a :
  snd (create_canned owner bowner canned a) =
    add_all (canned_grants owner bowner canned) (Mk_RGWAccessControlList [] (acl_group_map a) []).
Proof.
  unfold create_canned, canned_grants.
  assert (Hz : (length canned =? 0)%nat = streq canned []).
  { unfold streq. destruct canned; cbn; [done|]. by rewrite bool_decide_false. }
  rewrite Hz. unfold streq.
  repeat (case_bool_decide; subst; try done).
Qed.

Lemma create_canned_ret owner bowner canned a b b' :
  fst (create_canned owner bowner canned a) =
    match canned_perm canned b b' with Some _ => 0 | None => - EINVAL end.
Proof.
  unfold create_canned, canned_perm.
  assert (Hz : (length canned =? 0)%nat = streq canned []).
  { unfold streq. destruct canned; cbn; [done|]. by rewrite bool_decide_false. }
  rewrite Hz. unfold streq. by repeat (case_bool_decide; cbn [orb]).
Qed.

(** A canned policy set on a policy without group permissions gives everybody
    exactly what its name says: the owner full control, the others the
    permission of the table [canned_perm]; a name that is not a canned policy
    is an error and gives nothing to anybody but the owner. *)
Lemma create_canned_spec owner bowner canned p uid :
  acl_group_map (ap_acl p) = [] →
  let '(ret, q) := policy_create_canned owner bowner canned p in
  let t := canned_perm canned (streq uid (ow_id bowner)) (streq uid RGW_USER_ANON_ID) in
  ret = match t with Some _ => 0 | None => - EINVAL end ∧
  acl_inv (ap_acl q) ∧ ow_id (ap_owner q) = ow_id owner ∧
  (if streq uid (ow_id owner)
   then Z.land (effective_perm policy_s3 q uid) RGW_PERM_FULL_CONTROL = RGW_PERM_FULL_CONTROL
   else effective_perm policy_s3 q uid = default 0 t).
Proof.
  intros Hgm. unfold policy_create_canned.
  pose proof (create_canned_grants owner bowner canned (ap_acl p)) as Hg.
  pose proof (create_canned_ret owner bowner canned (ap_acl p) (streq uid (ow_id bowner))
                (streq uid RGW_USER_ANON_ID)) as Hr.
  destruct (create_canned _ _ _ _) as [ret a]. cbn [fst snd] in *. rewrite Hgm in Hg.
  pose proof (add_all_inv (canned_grants owner bowner canned) _ acl_new_inv) as Hi.
  change (Mk_RGWAccessControlList [] [] []) with RGWAccessControlList_new in Hg. rewrite <- Hg in Hi.
  pose proof (add_all_grants (canned_grants owner bowner canned) RGWAccessControlList_new) as Hp.
  rewrite <- Hg in Hp. cbn [grant_map RGWAccessControlList_new fmap list_fmap] in Hp. rewrite app_nil_r in Hp.
  split_and!; [done|done|done|].
  rewrite effective_granted by done. unfold granted. cbn [ap_acl ap_owner].
  rewrite (user_perms_perm uid _ _ Hp), !(group_perms_perm _ _ _ Hp).
  clear. unfold canned_grants, canned_perm, compare_group_name.
  change (ACL_GROUP_ALL_USERS =? ACL_GROUP_ALL_USERS) with true. cbn match.
  unfold user_perms, group_perms. cbn [foldr].
  set (sep := streq (ow_id bowner) (ow_id owner)).
  assert (Hsep : sep = bool_decide (ow_id bowner = ow_id owner)) by done. clearbody sep.
  unfold streq.
  repeat (case_bool_decide; subst; cbn [foldr orb app]; try congruence);
    cbn; repeat (rewrite ?bool_decide_true by congruence; rewrite ?bool_decide_false by congruence; cbn); done.
Qed.

Lemma create_canned_spec_witness :
  let '(ret, q) := policy_create_canned (Mk_ACLOwner "alice" "Alice") (Mk_ACLOwner "bob" "Bob")
                     "authenticated-read" demo_policy in
  let t := canned_perm "authenticated-read" (streq "carol" "bob") (streq "carol" RGW_USER_ANON_ID) in
  ret = match t with Some _ => 0 | None => - EINVAL end ∧
  acl_inv (ap_acl q) ∧ ow_id (ap_owner q) = "alice" ∧
  (if streq "carol" "alice"
   then Z.land (effective_perm policy_s3 q "carol") RGW_PERM_FULL_CONTROL = RGW_PERM_FULL_CONTROL
   else effective_perm policy_s3 q "carol" = default 0 t).
Proof.
  exact (create_canned_spec (Mk_ACLOwner "alice" "Alice") (Mk_ACLOwner "bob" "Bob")
           "authenticated-read" demo_policy "carol" eq_refl).
Defined.

(** A canned policy set on a list that gave permissions to a group does not
    take them back: after [private], what every user was given stays given. *)
Lemma create_canned_stale_groups owner bowner p uid umask perm old :
  mfind ACL_GROUP_ALL_USERS (acl_group_map (ap_acl p)) = Some old →
  Z.land perm (Z.land umask old) = perm →
  let '(ret, q) := policy_create_canned owner bowner "private" p in
  ret = 0 ∧ verify_permission policy_s3 q uid umask perm = true.
Proof.
  intros Hold Hperm. unfold policy_create_canned.
  change (create_canned owner bowner "private" (ap_acl p)) with
    (0, add_grant (set_canon (ow_id owner) (ow_display_name owner) RGW_PERM_FULL_CONTROL ACLGrant_new)
          (Mk_RGWAccessControlList [] (acl_group_map (ap_acl p)) [])).
  split; [done|]. rewrite verify_permission_subset, bool_decide_eq_true, land_subset_iff in *.
  intros n Hn Hp. specialize (Hperm n Hn Hp). rewrite Z.land_spec in *.
  apply andb_true_iff in Hperm as [-> Ho]. unfold swift_expand, effective_perm.
  rewrite !Z.lor_spec, !acl_get_group_perm_all. cbn [ap_acl add_grant _add_grant acl_group_map].
  change (acl_group_map (add_grant _ _)) with (acl_group_map (ap_acl p)).
  rewrite Hold. cbn [default from_option id]. rewrite Ho. by rewrite ?orb_true_r, ?orb_true_l.
Qed.

Lemma create_canned_stale_groups_witness :
  let '(ret, q) := policy_create_canned (Mk_ACLOwner "alice" "Alice") (Mk_ACLOwner "alice" "Alice") "private"
                     (snd (policy_create_canned (Mk_ACLOwner "alice" "Alice") (Mk_ACLOwner "alice" "Alice")
                             "public-read" RGWAccessControlPolicy_new)) in
  ret = 0 ∧ verify_permission policy_s3 q "carol" 15 RGW_PERM_READ = true.
Proof.
  apply (create_canned_stale_groups (Mk_ACLOwner "alice" "Alice") (Mk_ACLOwner "alice" "Alice")
           (snd (policy_create_canned (Mk_ACLOwner "alice" "Alice") (Mk_ACLOwner "alice" "Alice")
                             "public-read" RGWAccessControlPolicy_new)) "carol" 15 RGW_PERM_READ RGW_PERM_READ);
    vm_compute; reflexivity.
Defined.

(** ** Policies from headers *)

Section headers.
Context `{D : UserDirectory}.

(** The grants of a header as the directory and the syntax define them. *)
Fixpoint grants_of (grantees : list str) (perm : Z) : Z + list ACLGrant :=
  match grantees with
  | [] => inr []
  | s :: l =>
      match parse_grantee_str s perm ACLGrant_new with
      | inl e => inl e
      | inr g => match grants_of l perm with inl e => inl e | inr gs => inr (g :: gs) end
      end
  end.

(** The grants of all headers. *)
Fixpoint header_grants (env : env_map) (perms : list (Z * str)) : Z + list ACLGrant :=
  match perms with
  | [] => inr []
  | (perm, h) :: l =>
      match grants_of (get_str_list (cstr (env_get_default h [] env)) ",") perm with
      | inl e => inl e
      | inr gs => match header_grants env l with inl e => inl e | inr gs' => inr (gs ++ gs') end
      end
  end.

Hypothesis directory_errors : ∀ uid e, get_user_info_by_uid uid = inl e → e < 0.

Lemma parse_grantee_error s perm g e : parse_grantee_str s perm g = inl e → e < 0.
Proof.
  unfold parse_grantee_str, parse_key_value. repeat case_match; intros; simplify_eq; try done.
  all: try (by eapply directory_errors).
Qed.

Lemma parse_grantees_spec l perm gs :
  match grants_of l perm with
  | inl e => e < 0 ∧ fst (parse_grantees l perm gs) = e
  | inr gs' => parse_grantees l perm gs = (0, gs ++ gs')
  end.
Proof.
  revert gs. induction l as [|s l IH]; intros gs; cbn; [by rewrite app_nil_r|].
  destruct (parse_grantee_str s perm ACLGrant_new) as [e|g] eqn:E; cbn.
  - split; [by eapply parse_grantee_error|done].
  - specialize (IH (gs ++ [g])). destruct (grants_of l perm); [done|].
    by rewrite <- app_assoc in IH.
Qed.

Lemma parse_acl_headers_spec env perms gs :
  parse_acl_headers env perms gs =
    match header_grants env perms with inl _ => None | inr gs' => Some (gs ++ gs') end.
Proof.
  revert gs. induction perms as [|[perm h] perms IH]; intros gs; cbn; [by rewrite app_nil_r|].
  unfold parse_acl_header, env_get_default. cbn [fst snd].
  destruct (env_get h env) as [hacl|]; cbn [default from_option id].
  - pose proof (parse_grantees_spec (get_str_list (cstr hacl) ",") perm gs) as Hs.
    destruct (grants_of _ _) as [e|gs'].
    + destruct Hs as [He Hs]. destruct (parse_grantees _ _ _) as [r gs']. cbn in Hs. subst r.
      by rewrite (proj2 (Z.ltb_lt e 0)).
    + rewrite Hs. cbn. rewrite IH. destruct (header_grants env perms); [done|]. by rewrite app_assoc.
  - cbn. rewrite IH. by destruct (header_grants env perms).
Qed.
End headers.

(** A policy made from the grant headers of a request has exactly the grants
    of the headers, in order; no grants at all is an error; but when a header
    is malformed or names an unknown user, the call reports success and leaves
    the policy as it was. *)
Lemma create_from_headers_spec `{D : UserDirectory} env owner p :
  (∀ uid e, get_user_info_by_uid uid = inl e → e < 0) →
  acl_group_map (ap_acl p) = [] →
  let '(r, q) := create_from_headers env owner p in
  match header_grants env acl_header_perms with
  | inl _ => r = 0 ∧ q = p
  | inr [] => r = - EINVAL ∧ ap_acl q = ap_acl p
  | inr gs => r = 0 ∧ ap_owner q = owner ∧ ap_acl q = add_all gs RGWAccessControlList_new ∧
              acl_inv (ap_acl q)
  end.
Proof.
  intros Herr Hgm. unfold create_from_headers. rewrite (parse_acl_headers_spec Herr).
  destruct (header_grants env acl_header_perms) as [e|[|g gs]]; [done|done|].
  unfold create_from_grants. cbn [app]. rewrite Hgm. split_and!; [done..|].
  apply (add_all_inv (g :: gs) _ acl_new_inv).
Qed.

Definition demo_env : env_map :=
  env_init ["HTTP_X_AMZ_GRANT_READ=id=bob, id=carol"; "HTTP_X_AMZ_GRANT_WRITE=who=bob"].

Lemma create_from_headers_spec_witness :
  @create_from_headers demo_directory demo_env (Mk_ACLOwner "alice" "Alice") RGWAccessControlPolicy_new
    = (0, RGWAccessControlPolicy_new).
Proof.
  assert (Herr : ∀ uid e, @get_user_info_by_uid demo_directory uid = inl e → e < 0) by done.
  pose proof (@create_from_headers_spec demo_directory demo_env (Mk_ACLOwner "alice" "Alice")
                RGWAccessControlPolicy_new Herr eq_refl) as H.
  destruct (create_from_headers _ _ _) as [r q].
  assert (E : @header_grants demo_directory demo_env acl_header_perms = inl (- EINVAL))
    by (vm_compute; reflexivity).
  rewrite E in H. destruct H as [-> ->]. reflexivity.
Defined.
