(* ===== verification/ClientIO.v ===== *)
(** * The connection to the client ([src/src/rgw/rgw_client_io.cc], [rgw_fcgi.cc], [rgw_civetweb.cc])

    [RGWClientIO] prints and writes through a virtual [write_data];
    [RGWFCGX] passes everything to the FastCGI stream, [RGWMongoose] holds the
    header back until it knows the length of the body.  The two libraries below
    them are parameters.  An operation returns its result code and the new
    state. *)

From S2P Require Import Prelude StdMap CString Env Http Strtol.

(** ** Calendar time, [gmtime_r] and [strftime] *)

Record calendar := Calendar {
  c_year : Z; c_month : Z; c_day : Z; c_hour : Z; c_min : Z; c_sec : Z; c_wday : Z
}.

(** A day within the 400 years of the calendar, which begin on a first of March. *)
Definition civil_of_doe (doe : Z) : Z * Z * Z :=
  let yoe := (doe - doe / 1460 + doe / 36524 - doe / 146096) / 365 in
  let doy := doe - (365 * yoe + yoe / 4 - yoe / 100) in
  let mp := (5 * doy + 2) / 153 in
  let d := doy - (153 * mp + 2) / 5 + 1 in
  let m := if mp <? 10 then mp + 3 else mp - 9 in
  (if m <=? 2 then yoe + 1 else yoe, m, d).

Definition gmtime (t : Z) : calendar :=
  let days := t / 86400 in
  let secs := t mod 86400 in
  let z := days + 719468 in
  let '(y, m, d) := civil_of_doe (z mod 146097) in
  Calendar (y + 400 * (z / 146097)) m d (secs / 3600) (secs / 60 mod 60) (secs mod 60) ((days + 4) mod 7).

(** [gmtime_r] fails when the year does not fit an [int]. *)
Definition gmtime_r (t : Z) : option calendar :=
  let c := gmtime t in
  if (- 2 ^ 31 <=? c_year c - 1900) && (c_year c - 1900 <? 2 ^ 31) then Some c else None.

Definition pad2 (z : Z) : str := [chr (48 + z / 10 mod 10); chr (48 + z mod 10)].

Definition weekday_names : list str := ["Sun"; "Mon"; "Tue"; "Wed"; "Thu"; "Fri"; "Sat"].
Definition month_names : list str :=
  ["Jan"; "Feb"; "Mar"; "Apr"; "May"; "Jun"; "Jul"; "Aug"; "Sep"; "Oct"; "Nov"; "Dec"].
Definition name_at (i : Z) (l : list str) : str := nth (Z.to_nat i) l [].

Definition print_hms (c : calendar) : str := pad2 (c_hour c) ++ ":" ++ pad2 (c_min c) ++ ":" ++ pad2 (c_sec c).

(** [%Y-%m-%dT%T.000Z] *)
Definition strftime_iso (c : calendar) : str :=
  print_int (c_year c) ++ "-" ++ pad2 (c_month c) ++ "-" ++ pad2 (c_day c) ++ "T" ++ print_hms c ++ ".000Z".

(** [%a, %d %b %Y %H:%M:%S %Z] *)
Definition strftime_rfc1123 (c : calendar) : str :=
  name_at (c_wday c) weekday_names ++ ", " ++ pad2 (c_day c) ++ " " ++ name_at (c_month c - 1) month_names ++ " " ++
  print_int (c_year c) ++ " " ++ print_hms c ++ " GMT".

Example gmtime_dates :
  strftime_iso <$> gmtime_r 0 = Some "1970-01-01T00:00:00.000Z" ∧
  strftime_iso <$> gmtime_r 951782399 = Some "2000-02-28T23:59:59.000Z" ∧
  strftime_iso <$> gmtime_r 951782400 = Some "2000-02-29T00:00:00.000Z" ∧
  strftime_rfc1123 <$> gmtime_r 951868800 = Some "Wed, 01 Mar 2000 00:00:00 GMT" ∧
  strftime_rfc1123 <$> gmtime_r 4107542399 = Some "Sun, 28 Feb 2100 23:59:59 GMT" ∧
  strftime_iso <$> gmtime_r 4107542400 = Some "2100-03-01T00:00:00.000Z" ∧
  strftime_iso <$> gmtime_r (-1) = Some "1969-12-31T23:59:59.000Z".
Proof. vm_compute. repeat split. Qed.

(** ** [RGWClientIO] *)

Record client_io (B : Type) := ClientIO {
  io_account : bool;
  io_bytes_sent : Z;
  io_backend : B;
}.
Arguments ClientIO {B}. Arguments io_account {B}. Arguments io_bytes_sent {B}. Arguments io_backend {B}.

Definition on_backend {B} (f : B → B) (c : client_io B) : client_io B :=
  ClientIO (io_account c) (io_bytes_sent c) (f (io_backend c)).

Definition set_account {B} (account : bool) (c : client_io B) : client_io B :=
  ClientIO account (io_bytes_sent c) (io_backend c).

(** The buffer [print] ends up with: its size is doubled, or set to what was needed. *)
Fixpoint print_buffer (fuel : nat) (size : Z) (text : str) : option str :=
  match fuel with
  | O => None
  | S fuel =>
      let ret := zlen text in
      if (ret >=? 0) && (ret <? size) then Some text
      else print_buffer fuel (if ret >=? 0 then ret + 1 else size * 2) text
  end.
Definition LARGE_ENOUGH : Z := 128.

Section Base.
  Context {B : Type} (write_data : str → B → Z * B).

Definition io_write (buf : str) (c : client_io B) : Z * client_io B :=
  let '(ret, b) := write_data buf (io_backend c) in
  if ret <? 0 then (ret, ClientIO (io_account c) (io_bytes_sent c) b)
  else
    let c := ClientIO (io_account c) (if io_account c then io_bytes_sent c + ret else io_bytes_sent c) b in
    if ret <? zlen buf then (- EIO, c) else (0, c).

Definition io_print (text : str) (c : client_io B) : Z * client_io B :=
  match print_buffer 2 LARGE_ENOUGH text with
  | Some buf => io_write buf c
  | None => (0, c)
  end.
End Base.

(** Two turns of the loop are enough. *)
Lemma print_buffer_spec text : print_buffer 2 LARGE_ENOUGH text = Some text.
Proof.
  unfold LARGE_ENOUGH. cbn [print_buffer]. pose proof (zlen_nonneg text).
  destruct (zlen text >=? 0) eqn:E; [|lia]. destruct (zlen text <? 128) eqn:E1; [done|].
  destruct (zlen text <? zlen text + 1) eqn:E2; [done|lia].
Qed.

Lemma io_print_write {B} (wd : str → B → Z * B) text c : io_print wd text c = io_write wd text c.
Proof. unfold io_print. by rewrite print_buffer_spec. Qed.

(** The virtual functions. *)
Class RGWClientIO (B : Type) := {
  write_data : str → B → Z * B;
  io_flush : client_io B → client_io B;
  send_status : str → option str → client_io B → Z * client_io B;
  send_100_continue : client_io B → Z * client_io B;
  complete_header : client_io B → Z * client_io B;
  complete_request : client_io B → Z * client_io B;
  send_content_length : Z → client_io B → Z * client_io B;
}.

Definition CRLF : str := [chr 13; chr 10].

(** ** [RGWFCGX] *)

Section FCGX.
  (** The FastCGI output stream, [FCGX_PutStr] and [FCGX_FFlush]. *)
  Context {stream : Type} (FCGX_PutStr : str → stream → Z * stream) (FCGX_FFlush : stream → stream).

Definition fcgx_print := io_print FCGX_PutStr.
(** A null [status_name] is printed as [printf] prints one. *)
Definition fcgx_send_status (status : str) (status_name : option str) (c : client_io stream) : Z * client_io stream :=
  fcgx_print ("Status: " ++ status ++ " " ++ default "(null)" status_name ++ CRLF) c.
Definition fcgx_flush (c : client_io stream) : client_io stream := on_backend FCGX_FFlush c.
Definition fcgx_send_100_continue (c : client_io stream) : Z * client_io stream :=
  let '(r, c) := fcgx_send_status "100" (Some "Continue") c in
  if r >=? 0 then (r, fcgx_flush c) else (r, c).
Definition fcgx_send_content_length (len : Z) (c : client_io stream) : Z * client_io stream :=
  fcgx_print ("Content-Length: " ++ print_int len ++ CRLF) c.
Definition fcgx_complete_header (c : client_io stream) : Z * client_io stream := fcgx_print CRLF c.

#[local] Instance RGWFCGX : RGWClientIO stream := {
  write_data := FCGX_PutStr;
  io_flush := fcgx_flush;
  send_status := fcgx_send_status;
  send_100_continue := fcgx_send_100_continue;
  complete_header := fcgx_complete_header;
  complete_request c := (0, c);
  send_content_length := fcgx_send_content_length;
}.
End FCGX.

(** ** [RGWMongoose] *)

Record mongoose (C : Type) := Mongoose {
  mg_conn : C;
  mg_header_data : str;
  mg_data : str;
  mg_header_done : bool;
  mg_sent_header : bool;
  mg_has_content_length : bool;
  mg_explicit_keepalive : bool;
  mg_explicit_conn_close : bool;
}.
Arguments Mongoose {C}. Arguments mg_conn {C}. Arguments mg_header_data {C}. Arguments mg_data {C}.
Arguments mg_header_done {C}. Arguments mg_sent_header {C}. Arguments mg_has_content_length {C}.
Arguments mg_explicit_keepalive {C}. Arguments mg_explicit_conn_close {C}.

Section Civetweb.
  (** The connection, [mg_write] and [mg_set_http_status]; the clock. *)
  Context {C : Type} (mg_write : str → C → Z * C) (mg_set_http_status : Z → C → C) (now : Z).

Definition Mongoose_new (conn : C) : mongoose C := Mongoose conn [] [] false false false false false.

Definition mg_write_data (buf : str) (m : mongoose C) : Z * mongoose C :=
  let 'Mongoose conn hd data hdone sent hcl ka cc := m in
  if negb hdone then (zlen buf, Mongoose conn (hd ++ buf) data hdone sent hcl ka cc)
  else if negb sent then (zlen buf, Mongoose conn hd (data ++ buf) hdone sent hcl ka cc)
  else let '(r, conn) := mg_write buf conn in
       (if r =? 0 then - EIO else r, Mongoose conn hd data hdone sent hcl ka cc).

Definition mg_print := io_print mg_write_data.

(** The status line goes before what was printed so far; it is cut at 127 characters. *)
Definition mg_send_status (status : str) (status_name : option str) (c : client_io (mongoose C)) : Z * client_io (mongoose C) :=
  let buf := take 127 ("HTTP/1.1 " ++ status ++ " " ++ default [] status_name ++ CRLF) in
  (0, on_backend (λ '(Mongoose conn hd data hdone sent hcl ka cc),
        Mongoose (mg_set_http_status (atoi status) conn) (buf ++ hd) data hdone sent hcl ka cc) c).

Definition mg_send_100_continue (c : client_io (mongoose C)) : Z * client_io (mongoose C) :=
  let 'Mongoose conn hd data hdone sent hcl ka cc := io_backend c in
  let '(r, conn) := mg_write ("HTTP/1.1 100 CONTINUE" ++ CRLF ++ CRLF) conn in
  (r, ClientIO (io_account c) (io_bytes_sent c) (Mongoose conn hd data hdone sent hcl ka cc)).

Definition dump_date_header : str :=
  match gmtime_r now with Some c => "Date: " ++ strftime_rfc1123 c ++ CRLF | None => [] end.

Definition connection_header (m : mongoose C) : str :=
  if mg_explicit_keepalive m then "Connection: Keep-Alive" ++ CRLF
  else if mg_explicit_conn_close m then "Connection: close" ++ CRLF else [].

Definition mg_complete_header (c : client_io (mongoose C)) : Z * client_io (mongoose C) :=
  let 'Mongoose conn hd data _ sent hcl ka cc := io_backend c in
  if negb hcl then (0, ClientIO (io_account c) (io_bytes_sent c) (Mongoose conn hd data true sent hcl ka cc))
  else
    let hd := hd ++ dump_date_header ++ connection_header (io_backend c) ++ CRLF in
    let '(r, m) := mg_write_data hd (Mongoose conn hd data true true hcl ka cc) in
    (r, ClientIO (io_account c) (io_bytes_sent c) m).

Definition mg_send_content_length (len : Z) (c : client_io (mongoose C)) : Z * client_io (mongoose C) :=
  mg_print ("Content-Length: " ++ print_int len ++ CRLF)
    (on_backend (λ '(Mongoose conn hd data hdone sent _ ka cc), Mongoose conn hd data hdone sent true ka cc) c).

(** The header is finished, then the body that was held back is written; the
    result of [complete_header] is not looked at. *)
Definition mg_send_data (c : client_io (mongoose C)) : Z * client_io (mongoose C) :=
  let data := mg_data (io_backend c) in
  if decide (data = []) then (0, c)
  else let '(r, m) := mg_write_data data (io_backend c) in
       if r <? 0 then (r, ClientIO (io_account c) (io_bytes_sent c) m)
       else (0, ClientIO (io_account c) (io_bytes_sent c)
                  (let 'Mongoose conn hd _ hdone sent hcl ka cc := m in Mongoose conn hd [] hdone sent hcl ka cc)).

Definition mg_complete_request (c : client_io (mongoose C)) : Z * client_io (mongoose C) :=
  let m := io_backend c in
  if mg_sent_header m then mg_send_data c
  else if mg_has_content_length m then mg_send_data (snd (mg_complete_header c))
  else
    let c := on_backend (λ '(Mongoose conn hd data _ sent hcl ka cc), Mongoose conn hd data false sent hcl ka cc) c in
    let '(r, c) := mg_send_content_length (zlen (mg_data m)) c in
    if r <? 0 then (r, c) else mg_send_data (snd (mg_complete_header c)).

#[local] Instance RGWMongoose : RGWClientIO (mongoose C) := {
  write_data := mg_write_data;
  io_flush c := c;
  send_status := mg_send_status;
  send_100_continue := mg_send_100_continue;
  complete_header := mg_complete_header;
  complete_request := mg_complete_request;
  send_content_length := mg_send_content_length;
}.
End Civetweb.

(** [strcasecmp(a, b) == 0] *)
Definition strcase_eq (a b : str) : bool := bool_decide (strcasecmp a b = Eq).

(** [RGWMongoose::init_env]: the request's headers as CGI variables. *)
Definition mg_header_var (name : str) : str :=
  "HTTP_" ++ map (λ c, if decide (c = "-"%char) then "_"%char else toupper c) name.

Definition mg_header (h : str * str) (st : env_map * bool * bool) : env_map * bool * bool :=
  let '(env, ka, cc) := st in
  let '(name, value) := h in
  if strcase_eq name "content-length" then (env_set "CONTENT_LENGTH" (Some value) env, ka, cc)
  else if strcase_eq name "content-type" then (env_set "CONTENT_TYPE" (Some value) env, ka, cc)
  else
    let '(ka, cc) := if strcase_eq name "connection"
                     then (strcase_eq value "keep-alive", strcase_eq value "close") else (ka, cc) in
    (env_set (mg_header_var name) (Some value) env, ka, cc).

(** [struct mg_request_info], of which the strings may be null. *)
Record mg_request_info := Mk_mg_info {
  mi_request_method : option str; mi_uri : option str; mi_query_string : option str;
  mi_remote_user : option str; mi_is_ssl : bool; mi_headers : list (str * str);
}.

Definition mg_init_env (env : env_map) (port : Z) (info : option mg_request_info) (ka cc : bool) : env_map * bool * bool :=
  match info with
  | None => (env, ka, cc)
  | Some info =>
      let '(env, ka, cc) := fold_left (λ st h, mg_header h st) (mi_headers info) (env, ka, cc) in
      let env := env_set "REQUEST_METHOD" (mi_request_method info) env in
      let env := env_set "REQUEST_URI" (mi_uri info) env in
      let env := env_set "QUERY_STRING" (mi_query_string info) env in
      let env := env_set "REMOTE_USER" (mi_remote_user info) env in
      let env := env_set "SCRIPT_URI" (mi_uri info) env in
      let env := env_set "SERVER_PORT" (Some (print_int port)) env in
      let env := if mi_is_ssl info
                 then env_set "SERVER_PORT_SECURE" (Some (if port =? 0 then "443" else print_int port)) env else env in
      (env, ka, cc)
  end.
