(* ===== verification/Wire.v ===== *)
(** * What the client receives

    The calls a response makes on its [RGWClientIO], and what the two front ends
    put on the wire for them.  [RGWMongoose] sends a well-formed HTTP response
    whatever the order of the header calls is. *)

From S2P Require Import Prelude StdMap CString Env Http Strtol ClientIO.

(** ** Calls *)

Inductive io_call :=
| CStatus (status : str) (status_name : option str)
| CPrint (text : str)
| CLength (len : Z)
| CAccount (account : bool)
| CEnd                       (** [complete_header] *)
| CWrite (buf : str)
| CContinue.

Section Run.
  Context `{RGWClientIO B}.

Definition io_step (c : client_io B) (x : io_call) : client_io B :=
  match x with
  | CStatus status name => snd (send_status status name c)
  | CPrint text => snd (io_print write_data text c)
  | CLength len => snd (send_content_length len c)
  | CAccount account => set_account account c
  | CEnd => snd (complete_header c)
  | CWrite buf => snd (io_write write_data buf c)
  | CContinue => snd (send_100_continue c)
  end.
Definition run_io (xs : list io_call) (c : client_io B) : client_io B := fold_left io_step xs c.
End Run.

(** What a header call adds to the header. *)
Definition status_line (status : str) (name : option str) : str :=
  take 127 ("HTTP/1.1 " ++ status ++ " " ++ default [] name ++ CRLF).
Definition length_line (len : Z) : str := "Content-Length: " ++ print_int len ++ CRLF.

Definition header_text (x : io_call) : str :=
  match x with CPrint text => text | CLength len => length_line len | _ => [] end.
Definition is_header_call (x : io_call) : bool :=
  match x with CPrint _ | CLength _ | CAccount _ => true | _ => false end.
Definition is_length (x : io_call) : bool := match x with CLength _ => true | _ => false end.
Definition is_body_call (x : io_call) : bool := match x with CWrite _ | CAccount _ => true | _ => false end.
Definition body_text (x : io_call) : str := match x with CWrite buf => buf | _ => [] end.

Section MongooseWire.
  Context {C : Type} (mg_write : str → C → Z * C) (mg_set_http_status : Z → C → C) (now : Z) (wire : C → str).
  (** The connection takes all it is given. *)
  Hypothesis mg_write_all : ∀ s c, fst (mg_write s c) = zlen s ∧ wire (snd (mg_write s c)) = wire c ++ s.
  Hypothesis set_status_wire : ∀ n c, wire (mg_set_http_status n c) = wire c.

  #[local] Existing Instance RGWMongoose.
  #[local] Abbreviation io := (client_io (mongoose C)).
  #[local] Abbreviation run := (@run_io _ (RGWMongoose mg_write mg_set_http_status now)).

(** In the header: nothing sent, the text [hd] held back. *)
Definition in_header (w hd : str) (hcl : bool) (ka cc : bool) (c : io) : Prop :=
  let m := io_backend c in
  wire (mg_conn m) = w ∧ mg_header_data m = hd ∧ mg_data m = [] ∧ mg_header_done m = false ∧ mg_sent_header m = false ∧
  mg_has_content_length m = hcl ∧ mg_explicit_keepalive m = ka ∧ mg_explicit_conn_close m = cc.

Lemma print_in_header w hd hcl ka cc text c :
  in_header w hd hcl ka cc c → in_header w (hd ++ text) hcl ka cc (snd (io_print (mg_write_data mg_write) text c)).
Proof.
  intros (H1 & H2 & H3 & H4 & H5 & H6 & H7 & H8). rewrite io_print_write. unfold io_write.
  destruct (io_backend c) as [cn hd' d hdn sh hc k cl] eqn:E. cbn in *. subst. cbn.
  pose proof (zlen_nonneg text). destruct (zlen text <? 0) eqn:E1; [lia|]. destruct (zlen text <? zlen text) eqn:E2; [lia|].
  cbn. repeat split.
Qed.

Lemma header_run w hd hcl ka cc xs c :
  in_header w hd hcl ka cc c → forallb is_header_call xs = true →
  in_header w (hd ++ concat (map header_text xs)) (hcl || existsb is_length xs) ka cc (run xs c).
Proof.
  revert hd hcl c. induction xs as [|x xs IH]; intros hd hcl c Hc Hx; cbn.
  - by rewrite app_nil_r, orb_false_r.
  - cbn in Hx. apply andb_true_iff in Hx as [Hx Hxs]. rewrite app_assoc, orb_assoc. apply IH; [|done].
    destruct x; cbn in Hx |- *; try done.
    + rewrite orb_false_r. by apply print_in_header.
    + rewrite orb_true_r. apply print_in_header. destruct Hc as (? & ? & ? & ? & ? & ? & ? & ?).
      unfold in_header, on_backend. cbn. destruct (io_backend c) eqn:E. cbn in *. repeat split; done.
    + rewrite app_nil_r, orb_false_r. exact Hc.
Qed.

Lemma status_in_header w hd hcl ka cc status name c :
  in_header w hd hcl ka cc c →
  in_header w (status_line status name ++ hd) hcl ka cc (snd (mg_send_status mg_set_http_status status name c)).
Proof.
  intros (H1 & H2 & H3 & H4 & H5 & H6 & H7 & H8). unfold in_header, mg_send_status, on_backend. cbn.
  destruct (io_backend c) eqn:E. cbn in *. subst. rewrite set_status_wire. repeat split; done.
Qed.

(** What ends a header. *)
Definition header_end (ka cc : bool) : str :=
  dump_date_header now ++
  (if ka then "Connection: Keep-Alive" ++ CRLF else if cc then "Connection: close" ++ CRLF else []) ++ CRLF.

(** Sent up to here, the header included. *)
Definition sent (w : str) (c : io) : Prop :=
  let m := io_backend c in
  wire (mg_conn m) = w ∧ mg_data m = [] ∧ mg_header_done m = true ∧ mg_sent_header m = true.

(** The header is complete but held back, with the body so far. *)
Definition held (w hd data : str) (ka cc : bool) (c : io) : Prop :=
  let m := io_backend c in
  wire (mg_conn m) = w ∧ mg_header_data m = hd ∧ mg_data m = data ∧ mg_header_done m = true ∧ mg_sent_header m = false ∧
  mg_has_content_length m = false ∧ mg_explicit_keepalive m = ka ∧ mg_explicit_conn_close m = cc.

Lemma mg_write_sent w s cn hd d hcl ka cc :
  wire cn = w →
  wire (mg_conn (snd (mg_write_data mg_write s (Mongoose cn hd d true true hcl ka cc)))) = w ++ s ∧
  mg_data (snd (mg_write_data mg_write s (Mongoose cn hd d true true hcl ka cc))) = d ∧
  mg_header_done (snd (mg_write_data mg_write s (Mongoose cn hd d true true hcl ka cc))) = true ∧
  mg_sent_header (snd (mg_write_data mg_write s (Mongoose cn hd d true true hcl ka cc))) = true.
Proof.
  intros Hw. destruct (mg_write_all s cn) as [H1 H2]. unfold mg_write_data. cbn.
  destruct (mg_write s cn) as [r cn'] eqn:E. cbn in *. subst. done.
Qed.

(** [complete_header] with a known length, the body held back being [data]. *)
Lemma complete_header_sent w hd data ka cc cn hdone c :
  io_backend c = Mongoose cn hd data hdone false true ka cc → wire cn = w →
  let c' := snd (mg_complete_header mg_write now c) in
  wire (mg_conn (io_backend c')) = w ++ hd ++ header_end ka cc ∧ mg_data (io_backend c') = data ∧
  mg_header_done (io_backend c') = true ∧ mg_sent_header (io_backend c') = true.
Proof.
  intros Hc Hw. unfold mg_complete_header. rewrite Hc. cbn [negb].
  set (h := hd ++ dump_date_header now ++ connection_header _ ++ CRLF).
  assert (h = hd ++ header_end ka cc) as -> by (unfold h, header_end, connection_header; destruct ka, cc; done).
  pose proof (mg_write_sent w (hd ++ header_end ka cc) cn (hd ++ header_end ka cc) data true ka cc Hw) as H.
  destruct (mg_write_data _ _ _) as [r m]. cbn in *. exact H.
Qed.

Lemma body_sent xs w c :
  sent w c → forallb is_body_call xs = true → sent (w ++ concat (map body_text xs)) (run xs c).
Proof.
  revert w c. induction xs as [|x xs IH]; intros w c Hc Hx; cbn; [by rewrite app_nil_r|].
  cbn in Hx. apply andb_true_iff in Hx as [Hx Hxs]. rewrite app_assoc. apply IH; [|done]. clear IH Hxs.
  destruct x; cbn in Hx |- *; try done; [by rewrite app_nil_r|].
  destruct Hc as (H1 & H2 & H3 & H4). unfold io_write. destruct (io_backend c) as [cn hd d hdone sh hcl ka cc] eqn:E. cbn in H1, H2, H3, H4. subst.
  pose proof (mg_write_sent (wire cn) buf cn hd [] hcl ka cc eq_refl) as H.
  unfold write_data, RGWMongoose. destruct (mg_write_data _ _ _) as [r m]. cbn in H.
  destruct (r <? 0); [exact H|]. destruct (r <? zlen buf); exact H.
Qed.

Lemma body_held xs w hd data ka cc c :
  held w hd data ka cc c → forallb is_body_call xs = true → held w hd (data ++ concat (map body_text xs)) ka cc (run xs c).
Proof.
  revert data c. induction xs as [|x xs IH]; intros data c Hc Hx; cbn; [by rewrite app_nil_r|].
  cbn in Hx. apply andb_true_iff in Hx as [Hx Hxs]. rewrite app_assoc. apply IH; [|done]. clear IH Hxs.
  destruct x; cbn in Hx |- *; try done; [by rewrite app_nil_r|].
  destruct Hc as (H1 & H2 & H3 & H4 & H5 & H6 & H7 & H8). unfold io_write.
  destruct (io_backend c) as [cn hd' d hdone sh hcl ka' cc'] eqn:E. cbn in *. subst. cbn.
  pose proof (zlen_nonneg buf). destruct (zlen buf <? 0) eqn:E1; [lia|]. destruct (zlen buf <? zlen buf) eqn:E2; [lia|].
  repeat split.
Qed.

Lemma send_data_wire w data c :
  wire (mg_conn (io_backend c)) = w → mg_data (io_backend c) = data → mg_header_done (io_backend c) = true →
  mg_sent_header (io_backend c) = true →
  wire (mg_conn (io_backend (snd (mg_send_data mg_write c)))) = w ++ data.
Proof.
  intros Hw Hd Hh Hs. unfold mg_send_data. rewrite Hd. case_decide as Hn; [by rewrite Hn, app_nil_r|].
  destruct (io_backend c) as [cn hd d hdone sh hcl ka cc]. cbn in *. subst.
  destruct (mg_write_all data cn) as [H1 H2]. destruct (mg_write data cn) as [r cn']. cbn in *. subst.
  destruct (zlen data =? 0); cbn; [exact H2|]. destruct (zlen data <? 0); exact H2.
Qed.

Lemma held_complete w hd text ka cc cn e :
  io_backend e = Mongoose cn hd text true false false ka cc → wire cn = w →
  wire (mg_conn (io_backend (snd (mg_complete_request mg_write now e)))) =
  w ++ hd ++ length_line (zlen text) ++ header_end ka cc ++ text.
Proof.
  intros Ee Hw. unfold mg_complete_request. rewrite Ee. cbn [mg_sent_header mg_has_content_length mg_data].
  unfold mg_send_content_length, mg_print. rewrite io_print_write. unfold io_write, on_backend. rewrite Ee.
  cbn [io_backend io_account io_bytes_sent mg_write_data negb]. fold (length_line (zlen text)).
  pose proof (zlen_nonneg (length_line (zlen text))).
  destruct (zlen (length_line (zlen text)) <? 0) eqn:E1; [lia|].
  destruct (zlen (length_line (zlen text)) <? zlen (length_line (zlen text))) eqn:E2; [lia|]. change (0 <? 0) with false. cbn iota.
  set (d := ClientIO _ _ _).
  destruct (complete_header_sent w (hd ++ length_line (zlen text)) text ka cc cn false d eq_refl Hw) as (S1 & S2 & S3 & S4).
  rewrite (send_data_wire _ _ _ S1 S2 S3 S4). by rewrite <- !app_assoc.
Qed.

(** C33: for a connection that takes what it is given, the client of the embedded
    web server receives the status line first, then the header lines in the
    order they were printed, those printed before the status included, then the
    body; a response whose handler gave no length gets the length of its body,
    and no byte is lost or sent twice. *)
Theorem mongoose_response pre1 status name pre2 body w ka cc c :
  in_header w [] false ka cc c →
  forallb is_header_call pre1 = true → forallb is_header_call pre2 = true → forallb is_body_call body = true →
  let text := concat (map body_text body) in
  let c' := snd (mg_complete_request mg_write now (run (pre1 ++ CStatus status name :: pre2 ++ CEnd :: body) c)) in
  wire (mg_conn (io_backend c')) =
    w ++ status_line status name ++ concat (map header_text pre1) ++ concat (map header_text pre2) ++
    (if existsb is_length (pre1 ++ pre2) then [] else length_line (zlen text)) ++ header_end ka cc ++ text.
Proof.
  intros Hc H1 H2 Hb text. unfold run_io. rewrite fold_left_app. cbn [fold_left]. rewrite fold_left_app. cbn [fold_left].
  apply (header_run _ _ _ _ _ pre1) in Hc; [|done]. cbn [app orb] in Hc.
  apply (status_in_header _ _ _ _ _ status name) in Hc. apply (header_run _ _ _ _ _ pre2) in Hc; [|done].
  rewrite existsb_app. unfold run_io in Hc. cbn [io_step send_status RGWMongoose] in Hc |- *.
  match type of Hc with in_header _ _ _ _ _ ?x => generalize dependent x end. intros d Hc. rewrite <- app_assoc in Hc.
  set (hd := status_line status name ++ _) in Hc.
  replace (w ++ status_line status name ++ concat (map header_text pre1) ++ concat (map header_text pre2) ++
    (if existsb is_length pre1 || existsb is_length pre2 then [] else length_line (zlen text)) ++ header_end ka cc ++ text)
    with (w ++ hd ++ (if existsb is_length pre1 || existsb is_length pre2 then [] else length_line (zlen text)) ++ header_end ka cc ++ text)
    by (unfold hd; by rewrite <- !app_assoc).
  destruct Hc as (C1 & C2 & C3 & C4 & C5 & C6 & C7 & C8). cbn [io_step complete_header RGWMongoose].
  destruct (io_backend d) as [cn hd' dt hdone sh hcl k l] eqn:E. cbn in C1, C2, C3, C4, C5, C6, C7, C8. subst hd' dt hdone sh hcl k l.
  destruct (existsb is_length pre1 || existsb is_length pre2) eqn:Hl; cbn [app].
  - pose proof (complete_header_sent w hd [] ka cc cn false d E C1) as (S1 & S2 & S3 & S4).
    assert (sent (w ++ hd ++ header_end ka cc) (snd (mg_complete_header mg_write now d))) as Hs by done.
    apply (body_sent body) in Hs; [|done]. destruct Hs as (T1 & T2 & T3 & T4). unfold run_io in T1, T2, T3, T4.
    unfold mg_complete_request. rewrite T4.
    erewrite send_data_wire; [|exact T1|exact T2|exact T3|exact T4]. by rewrite app_nil_r, <- !app_assoc.
  - assert (held w hd [] ka cc (snd (mg_complete_header mg_write now d))) as Hh.
    { unfold mg_complete_header. rewrite E. repeat split; done. }
    apply (body_held body) in Hh; [|done]. cbn [app] in Hh. unfold run_io in Hh. fold text in Hh.
    match type of Hh with held _ _ _ _ _ ?x => generalize dependent x end. intros e (T1 & T2 & T3 & T4 & T5 & T6 & T7 & T8).
    destruct (io_backend e) as [cn' hd' dt hdone sh hcl k l] eqn:Ee. cbn in T1, T2, T3, T4, T5, T6, T7, T8. subst.
    by apply (held_complete _ _ _ _ _ _ _ Ee).
Qed.
End MongooseWire.

(** Once the header is sent, writing no bytes is an error: [mg_write] returns the
    number of bytes written, 0, which [write_data] takes for a failure. *)
Lemma mongoose_empty_write {C} (mg_write : str → C → Z * C) conn hd data hcl ka cc account n :
  fst (mg_write [] conn) = 0 →
  fst (io_write (mg_write_data mg_write) [] (ClientIO account n (Mongoose conn hd data true true hcl ka cc))) = - EIO.
Proof. intros H. unfold io_write. cbn. destruct (mg_write [] conn) as [r c]. cbn in H. by subst. Qed.

(** A connection that keeps what is written to it. *)
Definition demo_write (s : str) (c : str) : Z * str := (zlen s, c ++ s).

Lemma mongoose_response_witness :
  let c := ClientIO false 0 (Mongoose_new ([] : str)) in
  let c' := snd (mg_complete_request demo_write 0
              (@run_io _ (RGWMongoose demo_write (λ _ c, c) 0)
                 ([CPrint ("ETag: x" ++ CRLF)] ++ CStatus "200" (Some "OK") :: [CPrint ("A: b" ++ CRLF)] ++ CEnd :: [CWrite "hel"; CWrite "lo"]) c)) in
  mg_conn (io_backend c') =
    "HTTP/1.1 200 OK" ++ CRLF ++ "ETag: x" ++ CRLF ++ "A: b" ++ CRLF ++ "Content-Length: 5" ++ CRLF ++
    "Date: Thu, 01 Jan 1970 00:00:00 GMT" ++ CRLF ++ CRLF ++ "hello".
Proof.
  refine (mongoose_response demo_write (λ _ c, c) 0 (λ c, c) _ _ [CPrint ("ETag: x" ++ CRLF)] "200" (Some "OK")
            [CPrint ("A: b" ++ CRLF)] [CWrite "hel"; CWrite "lo"] [] false false _ _ _ _ _); try done; repeat split.
Defined.
