(* ===== verification/Response.v ===== *)
(** * Responses ([src/src/rgw/porting_rest.cc], [porting_rest_s3.cc])

    The functions that answer a request.  They act on the part of [req_state]
    a response changes: the calls made on the client connection so far, the
    formatter, the error; [None] is a failed [assert] or a null formatter.  The
    result codes of the connection are only logged by these functions, except
    in [send_response_data].  A run of formatter calls that opens a section,
    fills it and closes it is written as an [item]. *)

From stdpp Require Import gmap.
From S2P Require Import Prelude StdMap Encoding Utime ClsRgwTypes ClsRgwOps CString Env Http Strtol Errors RgwObj Records.
From S2P Require Import SysInfo Listing Rest Escape Formatter FormatterFacts ClientIO Wire.
#[local] Open Scope Z_scope.
#[local] Open Scope str_scope.

(** ** State *)

(** What a response reads of the request. *)
Record request := Request {
  rq_op : http_op;
  rq_prot_flags : Z;
  rq_trans_id : str;
  rq_requester_pays : bool;
  rq_system_request : bool;
  rq_bucket_name : str;
  rq_object : str;
  rq_user_id : str;
  rq_display_name : str;
  rq_domain : str;
  rq_region_endpoint : str;
  rq_request_uri : str;
  rq_request_params : str;
  rq_expose_bucket : bool;
  rq_message : str;              (** [s->err.message] *)
  rq_origin : option str;        (** [HTTP_ORIGIN] *)
  rq_request_method : option str; (** [HTTP_ACCESS_CONTROL_REQUEST_METHOD], else [info.method] *)
}.

Record resp := Resp {
  rp_calls : list io_call;
  rp_formatter : option any_formatter;
  rp_format : Z;
  rp_content_started : bool;
  rp_err : rgw_err;
}.

Abbreviation R := (resp → option resp).

Definition and_then (f g : R) : R := λ r, r ← f r; g r.
Notation "f ▷ g" := (and_then f g) (at level 95, right associativity).
Definition skip : R := Some.
Definition when (b : bool) (f : R) : R := if b then f else skip.

Definition call (x : io_call) : R := λ r,
  Some (Resp (rp_calls r ++ [x]) (rp_formatter r) (rp_format r) (rp_content_started r) (rp_err r)).
Definition print (text : str) : R := call (CPrint text).
Definition header (name val : str) : R := print (name ++ ": " ++ val ++ CRLF).

Definition set_formatter (f : option any_formatter) (r : resp) : resp :=
  Resp (rp_calls r) f (rp_format r) (rp_content_started r) (rp_err r).

Definition on_formatter (op : any_formatter → option any_formatter) : R := λ r,
  f ← rp_formatter r; f ← op f; Some (set_formatter (Some f) r).
Definition dump (i : item) : R := on_formatter (dump_item i).
Definition write_open (array : bool) (o : opening) (name : str) : R := on_formatter (λ f, Some (open_ array o name f)).
Definition write_close : R := on_formatter close_section.

Definition object (name : str) (l : list item) : item := Section_ false Plain name l.
Definition array (name : str) (l : list item) : item := Section_ true Plain name l.
Definition text (name s : str) : item := Leaf name (String s).
Definition S3_NS : str := "http://s3.amazonaws.com/doc/2006-03-01/".

Definition is_swift (q : request) : bool := negb (Z.land (rq_prot_flags q) RGW_REST_SWIFT =? 0).

(** ** [porting_rest.cc] *)

Definition resp_set_err (q : request) (err_no : Z) : R := λ r,
  Some (Resp (rp_calls r) (rp_formatter r) (rp_format r) (rp_content_started r) (set_req_state_err (rq_prot_flags q) err_no)).

Definition resp_dump_errno : R := λ r, let '(status, name) := dump_errno (rp_err r) in call (CStatus status name) r.

Definition dump_start : R := λ r,
  if rp_content_started r then Some r
  else
    r ← (if rp_format r =? RGW_FORMAT_XML then on_formatter (λ f, Some (write_raw_data XML_1_DTD f)) r else Some r);
    Some (Resp (rp_calls r) (rp_formatter r) (rp_format r) true (rp_err r)).

Definition dump_trans_id (q : request) : R :=
  header (if is_swift q then "X-Trans-Id" else "x-amz-request-id") (cstr (rq_trans_id q)).

(** The strings are C strings, a null pointer as well as an empty one is skipped. *)
Definition dump_access_control_headers (origin meth hdr exp_hdr : str) (max_age : option Z) : R :=
  when (negb (bool_decide (origin = [])))
    (header "Access-Control-Allow-Origin" origin ▷
     when (negb (bool_decide (meth = []))) (header "Access-Control-Allow-Methods" meth) ▷
     when (negb (bool_decide (hdr = []))) (header "Access-Control-Allow-Headers" hdr) ▷
     when (negb (bool_decide (exp_hdr = []))) (header "Access-Control-Expose-Headers" exp_hdr) ▷
     match max_age with Some a => header "Access-Control-Max-Age" (print_int a) | None => skip end).

(** [read_bucket_cors], the body of which is compiled out: [cors_exist] stays
    what the constructor made it. *)
Definition cors_exist : bool := false.
Definition generate_cors_headers (cors_exist : bool) (q : request) : option (str * str * str * str * option Z) :=
  match rq_origin q with
  | None => None
  | Some origin =>
      if negb cors_exist then None
      else Some (origin, default [] (rq_request_method q), [], [], None)
  end.
Definition dump_access_control (q : request) : R :=
  match generate_cors_headers cors_exist q with
  | Some (origin, method, hdr, exp_hdr, max_age) => dump_access_control_headers origin method hdr exp_hdr max_age
  | None => skip
  end.

Definition dump_content_length (len : Z) : R := call (CLength len) ▷ header "Accept-Ranges" "none".

(** [formatter->flush(oss)], and the write unless the request is a HEAD *)
Definition rgw_flush_formatter (q : request) : R := λ r,
  f ← rp_formatter r;
  '(outs, f) ← flush f;
  let r := set_formatter (Some f) r in
  if negb (bool_decide (outs = [])) && negb (match rq_op q with OP_HEAD => true | _ => false end)
  then call (CWrite outs) r else Some r.
Definition rgw_flush_formatter_and_reset (q : request) : R :=
  rgw_flush_formatter q ▷ on_formatter (λ f, Some (reset f)).

Definition error_items (q : request) (e : rgw_err) : item :=
  object "Error"
    ((if bool_decide (er_s3_code e = []) then [] else [text "Code" (er_s3_code e)]) ++
     (if bool_decide (rq_message q = []) then [] else [text "Message" (rq_message q)]) ++
     (if bool_decide (rq_trans_id q = []) then [] else [text "RequestId" (rq_trans_id q)])).

Definition resp_get_len (r : resp) : option Z := get_len <$> rp_formatter r.

Definition format_type (q : request) (format : Z) : str :=
  (if format =? RGW_FORMAT_XML then "application/xml"
   else if format =? RGW_FORMAT_JSON then "application/json" else "text/plain") ++
  (if is_swift q then "; charset=utf-8" else []).

(** The content type, which [end_header] decides before it writes an error. *)
Definition end_header_type (q : request) (content_type : option str) (force : bool) (r : resp) : option (option str) :=
  let force := force || (is_swift q && bool_decide (content_type = None)) in
  len ← (if negb force && bool_decide (content_type = None) then resp_get_len r else Some 0);
  Some (if force || (bool_decide (content_type = None) && negb (len =? 0)) || is_err (rp_err r)
        then Some (format_type q (rp_format r)) else content_type).

Definition end_header (q : request) (op : bool) (content_type : option str) (proposed_content_length : option Z)
    (force : bool) : R := λ r,
  r ← dump_trans_id q r;
  r ← when (negb (is_err (rp_err r)) && rq_requester_pays q) (print ("x-amz-request-charged: requester" ++ CRLF)) r;
  r ← when op (dump_access_control q) r;
  content_type ← end_header_type q content_type force r;
  r ← (if is_err (rp_err r) then
         r ← (dump_start ▷ dump (error_items q (rp_err r))) r;
         len ← resp_get_len r; dump_content_length len r
       else match proposed_content_length with Some len => dump_content_length len r | None => Some r end);
  r ← match content_type with Some t => header "Content-Type" t r | None => Some r end;
  (call CEnd ▷ call (CAccount true) ▷ rgw_flush_formatter_and_reset q) r.

(** [end_header(s, op)] with its default arguments *)
Definition end_header_op (q : request) : R := end_header q true None None false.
Definition end_header_xml (q : request) (op : bool) : R := end_header q op (Some "application/xml") None false.

Definition time_item (name : str) (t : Z) : list item :=
  match gmtime_r t with Some c => [text name (strftime_iso c)] | None => [] end.
Definition owner_item (id name : str) : item := object "Owner" [text "ID" id; text "DisplayName" name].

Fixpoint dump_all (l : list item) : R := match l with [] => skip | i :: l => dump i ▷ dump_all l end.
Definition dump_time (name : str) (t : Z) : R := dump_all (time_item name t).
Definition dump_owner (id name : str) : R := dump (owner_item id name).

Definition dump_continue : R := call CContinue.

Definition dump_bucket_from_state (q : request) : R :=
  when (rq_expose_bucket q && negb (bool_decide (rq_bucket_name q = [])))
    (header "Bucket" (cstr (url_encode (rq_bucket_name q) []))).

Definition dump_redirect (redirect : str) : R := when (negb (bool_decide (redirect = []))) (header "Location" (cstr redirect)).

(** A slash at the end of the end point is dropped. *)
Definition redirect_uri (q : request) : str :=
  let dest_uri := rq_region_endpoint q in
  let dest_uri := if bool_decide (last dest_uri = Some "/"%char) then removelast dest_uri else dest_uri in
  dest_uri ++ rq_request_uri q ++ "?" ++ rq_request_params q.

Definition abort_early (q : request) (op : bool) (err_no : Z) : R := λ r,
  let r := match rp_formatter r with
           | Some _ => r
           | None => Resp (rp_calls r) (Some (AnyJSON (JSONFormatter_new false))) RGW_FORMAT_JSON (rp_content_started r) (rp_err r)
           end in
  (resp_set_err q err_no ▷ resp_dump_errno ▷ dump_bucket_from_state q ▷
   when ((err_no =? - ERR_PERMANENT_REDIRECT) && negb (bool_decide (rq_region_endpoint q = []))) (dump_redirect (redirect_uri q)) ▷
   end_header q op None None false ▷ rgw_flush_formatter_and_reset q) r.

Definition dump_range (ofs end_ total : Z) : R :=
  print ("Content-Range: bytes " ++ print_int (s64 ofs) ++ "-" ++ print_int (s64 end_) ++ "/" ++ print_int (s64 total) ++ CRLF).
Definition dump_epoch_header (name : str) (t : Z) : R := header name (print_int t).
Definition dump_etag (q : request) (etag : str) : R :=
  when (negb (bool_decide (cstr etag = [])))
    (if is_swift q then header "etag" (cstr etag) else header "ETag" ([QUOTE] ++ cstr etag ++ [QUOTE])).
Definition dump_time_header (name : str) (t : Z) : R :=
  match gmtime_r t with Some c => header name (strftime_rfc1123 c) | None => skip end.
Definition dump_last_modified (t : Z) : R := dump_time_header "Last-Modified" t.
Definition dump_string_header (name val : str) : R := header name val.
