(* ===== verification/RespS3.v ===== *)
(** * S3 responses ([src/src/rgw/porting_rest_s3.cc])

    The [send_response] functions of the S3 operations, over the functions of
    [Response].  The fields of an operation that its response reads are
    arguments. *)

From stdpp Require Import gmap.
From S2P Require Import Prelude StdMap Encoding Utime ClsRgwTypes ClsRgwOps CString Env Http Strtol Errors Armor RgwObj Records.
From S2P Require Import SysInfo Listing Rest Escape Formatter FormatterFacts ClientIO Wire Response.
#[local] Open Scope Z_scope.
#[local] Open Scope str_scope.

(** [if (ret) set_req_state_err(s, ret)] *)
Definition set_err_if (q : request) (ret : Z) : R := when (negb (ret =? 0)) (resp_set_err q ret).

(** ** [RGWListBuckets_ObjStore_S3] *)

Definition list_all_buckets_start : R := write_open true (InNs S3_NS) "ListAllMyBucketsResult".
Definition list_all_buckets_end : R := write_close.

(** [sent_data] is set when the sections were opened. *)
Definition send_response_begin (q : request) (ret : Z) : R :=
  set_err_if q ret ▷ resp_dump_errno ▷ dump_start ▷ end_header_xml q false ▷
  when (ret =? 0)
    (list_all_buckets_start ▷ dump_owner (rq_user_id q) (rq_display_name q) ▷ write_open true Plain "Buckets").

Definition bucket_item (obj : RGWBucketEnt) : item :=
  object "Bucket" (text "Name" (bk_name (be_bucket obj)) :: time_item "CreationDate" (be_creation_time obj)).
Definition dump_bucket (obj : RGWBucketEnt) : R := dump (bucket_item obj).

Definition send_buckets_data (q : request) (sent_data : bool) (buckets : list (str * RGWBucketEnt)) : R :=
  when sent_data (dump_all (map (λ p, bucket_item p.2) buckets) ▷ rgw_flush_formatter q).

Definition send_response_end (q : request) (sent_data : bool) : R :=
  when sent_data (write_close ▷ list_all_buckets_end ▷ rgw_flush_formatter_and_reset q).

(** [RGWListBuckets::execute] sends the pages it reads one by one. *)
Definition list_buckets_response (q : request) (ret : Z) (pages : list (list (str * RGWBucketEnt))) : R :=
  send_response_begin q ret ▷
  foldr (λ page k, send_buckets_data q (ret =? 0) page ▷ k) (send_response_end q (ret =? 0)) pages.

(** ** [RGWListBucket_ObjStore_S3] *)

Record list_params := ListParams {
  lp_ret : Z;
  lp_list_versions : bool;
  lp_prefix : str;
  lp_marker : rgw_obj_key;
  lp_next_marker : rgw_obj_key;
  lp_max : Z;
  lp_delimiter : str;
  lp_is_truncated : bool;
  lp_encoding_type : str;
  lp_objs : list RGWObjEnt;
  lp_common_prefixes : list (str * bool);
}.

Definition encode_key (l : list_params) : bool := strcase_eq (lp_encoding_type l) "url".
Definition key_item (l : list_params) (e : RGWObjEnt) : item :=
  text "Key" (if encode_key l then url_encode (rk_name (oe_key e)) [] else rk_name (oe_key e)).
Definition etag_item (e : RGWObjEnt) : item := Leaf "ETag" (Format ([QUOTE] ++ cstr (oe_etag e) ++ [QUOTE])).
Definition entry_owner (e : RGWObjEnt) : item := owner_item (oe_owner e) (oe_owner_display_name e).

(** What both forms begin with; [marker_name] and [next_name] are the names of
    the markers. *)
Definition list_head (q : request) (l : list_params) (marker_name next_name : str) : list item :=
  [text "Name" (rq_bucket_name q); text "Prefix" (lp_prefix l); text marker_name (rk_name (lp_marker l))] ++
  (if lp_is_truncated l && negb (key_empty (lp_next_marker l))
   then [text next_name (rk_name (lp_next_marker l))] else []) ++
  [Leaf "MaxKeys" (Int (lp_max l))] ++
  (if bool_decide (lp_delimiter l = []) then [] else [text "Delimiter" (lp_delimiter l)]) ++
  [text "IsTruncated" (if negb (lp_max l =? 0) && lp_is_truncated l then "true" else "false")].

Definition list_tail (l : list_params) : list item :=
  map (λ p, array "CommonPrefixes" [text "Prefix" p.1]) (lp_common_prefixes l).

Definition version_item (q : request) (l : list_params) (e : RGWObjEnt) : item :=
  let version_id := rk_instance (oe_key e) in
  array (if ent_is_delete_marker e then "DeleteMarker" else "Version")
    ([key_item l e] ++
     (if rq_system_request q && (oe_versioned_epoch e >? 0)
      then [Leaf "VersionedEpoch" (Int (s64 (oe_versioned_epoch e)))] else []) ++
     [text "VersionId" (if bool_decide (version_id = []) then "null" else version_id);
      Leaf "IsLatest" (FormatUnquoted (if ent_is_current e then "true" else "false"))] ++
     time_item "LastModified" (tv_sec (oe_mtime e)) ++
     (if ent_is_delete_marker e then []
      else [etag_item e; Leaf "Size" (Int (s64 (oe_size e))); text "StorageClass" "STANDARD"]) ++
     [entry_owner e]).

Definition contents_item (l : list_params) (e : RGWObjEnt) : item :=
  array "Contents"
    ([key_item l e] ++ time_item "LastModified" (tv_sec (oe_mtime e)) ++
     [etag_item e; Leaf "Size" (Int (s64 (oe_size e))); text "StorageClass" "STANDARD"; entry_owner e]).

Definition versions_item (q : request) (l : list_params) : item :=
  Section_ false (InNs S3_NS) "ListVersionsResult"
    (list_head q l "KeyMarker" "NextKeyMarker" ++
     (if lp_ret l >=? 0 then map (version_item q l) (lp_objs l) ++ list_tail l else [])).
Definition send_versioned_response (q : request) (l : list_params) : R :=
  dump (versions_item q l) ▷ rgw_flush_formatter_and_reset q.

Definition list_item (q : request) (l : list_params) : item :=
  Section_ false (InNs S3_NS) "ListBucketResult"
    (list_head q l "Marker" "NextMarker" ++
     (if lp_ret l >=? 0 then map (contents_item l) (lp_objs l) ++ list_tail l else [])).

Definition list_bucket_send_response (q : request) (l : list_params) : R :=
  when (lp_ret l <? 0) (resp_set_err q (lp_ret l)) ▷ resp_dump_errno ▷ end_header_xml q true ▷ dump_start ▷
  (if lp_ret l <? 0 then skip
   else if lp_list_versions l then send_versioned_response q l
   else dump (list_item q l) ▷ rgw_flush_formatter_and_reset q).

(** ** [RGWGetObj_ObjStore_S3] *)

Definition resp_attr_params : list (str * str) := [
  ("response-content-type", "Content-Type"); ("response-content-language", "Content-Language");
  ("response-expires", "Expires"); ("response-cache-control", "Cache-Control");
  ("response-content-disposition", "Content-Disposition"); ("response-content-encoding", "Content-Encoding") ].

Definition RGW_ATTR_ETAG : str := RGW_ATTR_PREFIX ++ "etag".
Definition RGW_ATTR_META_PREFIX : str := RGW_ATTR_PREFIX ++ "x-amz-meta-".

(** The fields of the operation; [get_lastmod] is 0 when not known. *)
Record get_obj := GetObj {
  go_ret : Z;
  go_sent_header : bool;
  go_range : bool;             (** [range_str] is not null *)
  go_start : Z;
  go_end : Z;
  go_obj_size : Z;
  go_total_len : Z;
  go_lastmod : Z;
  go_attrs : list (str * bytes);
  go_partial_content : bool;
  go_get_data : bool;
  go_args : RGWHTTPArgs;
}.

(** The response parameters of the query override the object's attributes. *)
Definition param_attrs (args : RGWHTTPArgs) : list (str * str) * option str :=
  fold_left (λ '(attrs, content_type) p,
    let '(val, exists_) := args_get p.1 args in
    if exists_ then
      if bool_decide (p.1 = "response-content-type") then (attrs, Some val) else (mset p.2 val attrs, content_type)
    else (attrs, content_type)) resp_attr_params ([], None).

Definition rgw_to_http_attrs : list (str * str) := fst (rgw_rest_init []).

(** One attribute of the object: a response attribute, the content type, or a
    line of user metadata. *)
Definition object_attr (st : list (str * str) * option str * list io_call) (p : str * bytes)
    : list (str * str) * option str * list io_call :=
  let '(response_attrs, content_type, calls) := st in
  let '(name, bl) := p in
  match mfind (cstr name) rgw_to_http_attrs with
  | Some http => (if mmem http response_attrs then response_attrs else mset http (cstr bl) response_attrs, content_type, calls)
  | None =>
      if bool_decide (name = RGW_ATTR_CONTENT_TYPE) then
        (response_attrs, match content_type with None => Some (cstr bl) | t => t end, calls)
      else if bool_decide (take (length RGW_ATTR_META_PREFIX) (cstr name) = RGW_ATTR_META_PREFIX) then
        (response_attrs, content_type,
         calls ++ [CPrint (drop (length RGW_ATTR_PREFIX) (cstr name) ++ ": " ++ cstr bl ++ CRLF)])
      else st
  end.

Fixpoint call_all (l : list io_call) : R := match l with [] => skip | x :: l => call x ▷ call_all l end.

(** [bufferlist::encode_base64] *)
Definition encode_base64 (bl : bytes) : str :=
  let '(l, out) := ceph_armor (Z.to_nat (zlen bl * 4 / 3 + 3)) bl in take (Z.to_nat l) out.

(** The metadata a system request asks for in front of the data. *)
Definition metadata_item (g : get_obj) : item :=
  object "obj_metadata"
    [array "attrs" (map (λ p, object "entry" [text "key" p.1; text "val" (encode_base64 p.2)]) (go_attrs g));
     Leaf "mtime" (Int (go_lastmod g))].
Definition metadata_bl (q : request) (g : get_obj) : option (option str) :=
  if rq_system_request q && args_exists "rgwx-prepend-metadata" (go_args g)
  then Some <$> document [metadata_item g] (JSONFormatter_new false) else Some None.

(** The header of a response without an error. *)
Definition get_obj_header (q : request) (g : get_obj) (metadata : option str) : R :=
  when (go_range g) (dump_range (go_start g) (go_end g) (go_obj_size g)) ▷
  match metadata with
  | Some m => header "Rgwx-Embedded-Metadata-Len" (print_int (zlen m))
  | None => skip
  end ▷
  when (rq_system_request q && negb (go_lastmod g =? 0)) (dump_epoch_header "Rgwx-Mtime" (go_lastmod g)) ▷
  dump_content_length (u64 (go_total_len g + zlen (default [] metadata))) ▷
  dump_last_modified (go_lastmod g) ▷
  match mfind RGW_ATTR_ETAG (go_attrs g) with
  | Some bl => when (negb (zlen bl =? 0)) (dump_etag q bl)
  | None => skip
  end.

(** [send_response_data] up to [send_data]. *)
Definition get_obj_send_header (q : request) (g : get_obj) : R := λ r,
  metadata ← (if go_ret g =? 0 then metadata_bl q g else Some None);
  let '(params, param_type) := param_attrs (go_args g) in
  let '(response_attrs, content_type, metas) :=
    if go_ret g =? 0 then fold_left object_attr (go_attrs g) (params, param_type, []) else ([], None, []) in
  (when (go_ret g =? 0) (get_obj_header q g metadata ▷ call_all metas) ▷
   resp_set_err q (if go_partial_content g && (go_ret g =? 0) then STATUS_PARTIAL_CONTENT else go_ret g) ▷
   resp_dump_errno ▷
   call_all (map (λ p, CPrint (cstr p.1 ++ ": " ++ cstr p.2 ++ CRLF)) response_attrs) ▷
   end_header q true (Some (default "binary/octet-stream" content_type)) None false ▷
   match metadata with
   | Some m => when (negb (zlen m =? 0)) (call (CWrite m))
   | None => skip
   end) r.

(** The header is sent once; [bl] from [bl_ofs], [bl_len] bytes. *)
Definition send_response_data (q : request) (g : get_obj) (bl : bytes) (bl_ofs bl_len : Z) : R :=
  (if (go_ret g =? 0) && go_sent_header g then skip else get_obj_send_header q g) ▷
  when (go_get_data g && (go_ret g =? 0)) (call (CWrite (take (Z.to_nat bl_len) (drop (Z.to_nat bl_ofs) bl)))).
Definition send_response_data_error (q : request) (g : get_obj) : R := send_response_data q g [] 0 0.

(** ** Objects and buckets *)

(** The [JSONFormatter] of a system request's answer; [s->formatter] is reset. *)
Definition flush_json (q : request) (i : item) : R := λ r,
  out ← document [i] (JSONFormatter_new false);
  r ← (if negb (bool_decide (out = [])) && negb (match rq_op q with OP_HEAD => true | _ => false end)
       then call (CWrite out) r else Some r);
  on_formatter (λ f, Some (reset f)) r.

(** [bucket_info] is what [RGWBucketInfo] dumps. *)
Definition create_bucket_send_response (q : request) (ret : Z) (ep_objv read_version : item) (bucket_info : list item) : R :=
  let ret := if ret =? - ERR_BUCKET_EXISTS then 0 else ret in
  set_err_if q ret ▷ resp_dump_errno ▷ end_header q false None None false ▷
  when (negb (ret <? 0) && rq_system_request q)
    (flush_json q (object "info" [ep_objv; read_version; object "bucket_info" bucket_info])).

Definition delete_bucket_send_response (q : request) (ret : Z) (read_version : item) : R :=
  let r := if ret =? 0 then STATUS_NO_CONTENT else ret in
  resp_set_err q r ▷ resp_dump_errno ▷ end_header_op q ▷
  when (rq_system_request q) (flush_json q (object "info" [read_version])).

Definition get_success_retcode (code : Z) : Z :=
  if code =? 201 then STATUS_CREATED else if code =? 204 then STATUS_NO_CONTENT else 0.

(** The configured status is compiled in as 0. *)
Definition put_obj_send_response (q : request) (ret : Z) (etag : str) (mtime : Z) : R :=
  (if negb (ret =? 0) then resp_set_err q ret else dump_etag q etag ▷ dump_content_length 0) ▷
  when (rq_system_request q && negb (mtime =? 0)) (dump_epoch_header "Rgwx-Mtime" mtime) ▷
  resp_dump_errno ▷ end_header_op q.

Definition delete_obj_send_response (q : request) (ret : Z) (version_id : str) (delete_marker : bool) : R :=
  let r := if ret =? - ENOENT then 0 else ret in
  let r := if r =? 0 then STATUS_NO_CONTENT else r in
  resp_set_err q r ▷ resp_dump_errno ▷
  when (negb (bool_decide (version_id = []))) (dump_string_header "x-amz-version-id" (cstr version_id)) ▷
  when delete_marker (dump_string_header "x-amz-delete-marker" "true") ▷
  end_header_op q.

Definition dump_bucket_metadata (bucket : RGWBucketEnt) : R :=
  header "X-RGW-Object-Count" (print_int (s64 (be_count bucket))) ▷
  header "X-RGW-Bytes-Used" (print_int (s64 (be_size bucket))).

Definition stat_bucket_send_response (q : request) (ret : Z) (bucket : RGWBucketEnt) : R :=
  when (ret >=? 0) (dump_bucket_metadata bucket) ▷ resp_set_err q ret ▷ resp_dump_errno ▷ end_header_op q ▷ dump_start.

Definition get_acls_send_response (q : request) (ret : Z) (acls : str) : R :=
  set_err_if q ret ▷ resp_dump_errno ▷ end_header_xml q true ▷ dump_start ▷ rgw_flush_formatter q ▷ call (CWrite acls).

(** ** Multipart uploads *)

Definition init_multipart_item (q : request) (upload_id : str) : item :=
  Section_ false (InNs S3_NS) "InitiateMultipartUploadResult"
    [text "Bucket" (rq_bucket_name q); text "Key" (rq_object q); text "UploadId" upload_id].
Definition complete_multipart_item (q : request) (etag : str) : item :=
  Section_ false (InNs S3_NS) "CompleteMultipartUploadResult"
    ((if bool_decide (rq_domain q = []) then []
      else [Leaf "Location" (Format (cstr (rq_bucket_name q) ++ "." ++ cstr (rq_domain q)))]) ++
     [text "Bucket" (rq_bucket_name q); text "Key" (rq_object q); text "ETag" etag]).

(** The common shape: an error, or the document. *)
Definition document_response (q : request) (ret : Z) (i : item) : R :=
  set_err_if q ret ▷ resp_dump_errno ▷ end_header_xml q true ▷
  when (ret =? 0) (dump_start ▷ dump i ▷ rgw_flush_formatter_and_reset q).
Definition init_multipart_send_response (q : request) (ret : Z) (upload_id : str) : R :=
  document_response q ret (init_multipart_item q upload_id).
Definition complete_multipart_send_response (q : request) (ret : Z) (etag : str) : R :=
  document_response q ret (complete_multipart_item q etag).

(** ** Copies *)

Definition send_partial_response (q : request) (ret : Z) (sent_header : bool) (ofs : Z) : R :=
  (if negb sent_header then
     set_err_if q ret ▷ resp_dump_errno ▷ end_header_xml q true ▷
     when (ret =? 0) (write_open false Plain "CopyObjectResult")
   else dump (Leaf "Progress" (Int (s64 ofs)))) ▷ rgw_flush_formatter q.

Definition copy_obj_send_response (q : request) (ret : Z) (sent_header : bool) (mtime : Z) (etag : str) : R :=
  when (negb sent_header) (send_partial_response q ret sent_header 0) ▷
  when (ret =? 0)
    (dump_time "LastModified" mtime ▷
     when (negb (bool_decide (etag = []))) (dump (text "ETag" etag)) ▷
     write_close ▷ rgw_flush_formatter_and_reset q).

(** The region is compiled in. *)
Definition bucket_location_send_response (q : request) : R :=
  resp_dump_errno ▷ end_header_op q ▷ dump_start ▷
  dump (Leaf "LocationConstraint" (FormatNs "http://doc.s3.amazonaws.com/doc/2006-03-01/" "chengdu")) ▷
  rgw_flush_formatter_and_reset q.
