(* ===== verification/RespFacts.v ===== *)
(** * What a client of the gateway gets

    The error document, the listing of a bucket and the answers to multipart
    uploads as bytes on the wire: the header, an announced length that is the
    body's, and a body a reader of XML gets the handler's data from. *)

From stdpp Require Import gmap.
From S2P Require Import Prelude StdMap Encoding Utime ClsRgwTypes ClsRgwOps CString Env Http Strtol Errors Armor RgwObj Records.
From S2P Require Import SysInfo Listing Rest Escape Formatter FormatterFacts JsonFacts ClientIO Wire Response RespS3.
#[local] Open Scope Z_scope.
#[local] Open Scope str_scope.

(** ** Text before a document *)

Definition x_prefix (pre : str) (f : xml_formatter) : xml_formatter :=
  XMLF (pre ++ x_ss f) (x_pending_string f) (x_sections f) (x_pretty f) (x_pending_string_name f).

Lemma put_prefix pre t f : x_put t (x_prefix pre f) = x_prefix pre (x_put t f).
Proof. unfold x_put, x_prefix. cbn. by rewrite app_assoc. Qed.

Lemma newline_prefix pre f : x_newline (x_prefix pre f) = x_prefix pre (x_newline f).
Proof. unfold x_newline. cbn [x_pretty x_prefix]. destruct (x_pretty f); [apply put_prefix|done]. Qed.

Lemma finish_prefix pre f : x_finish_pending_string (x_prefix pre f) = x_prefix pre (x_finish_pending_string f).
Proof.
  unfold x_finish_pending_string. cbn [x_pending_string_name x_prefix]. case_decide; [done|].
  rewrite <- newline_prefix. f_equal. unfold x_prefix. cbn. by rewrite <- !app_assoc.
Qed.

Lemma spaces_prefix pre f : x_print_spaces (x_prefix pre f) = x_prefix pre (x_print_spaces f).
Proof.
  unfold x_print_spaces. rewrite finish_prefix. cbn [x_pretty x_sections x_prefix].
  destruct (x_pretty _); [apply put_prefix|done].
Qed.

Lemma leaf_prefix pre e more text f : x_leaf e more text (x_prefix pre f) = x_prefix pre (x_leaf e more text f).
Proof. unfold x_leaf. by rewrite spaces_prefix, put_prefix, newline_prefix. Qed.

Lemma open_prefix pre array o name f : open_ array o name (x_prefix pre f) = x_prefix pre (open_ array o name f).
Proof.
  assert (∀ ns attrs, x_open_section_in_ns name ns attrs (x_prefix pre f) = x_prefix pre (x_open_section_in_ns name ns attrs f)) as H.
  { intros ns attrs. unfold x_open_section_in_ns. rewrite spaces_prefix. destruct ns; rewrite put_prefix, newline_prefix; done. }
  destruct o, array; apply H.
Qed.

Lemma close_prefix pre f : x_close_section (x_prefix pre f) = x_prefix pre <$> x_close_section f.
Proof.
  unfold x_close_section. cbn [x_sections x_prefix]. destruct (x_sections f); [done|].
  rewrite finish_prefix. cbn [x_sections x_prefix]. destruct (x_sections (x_finish_pending_string f)); [done|].
  cbn [fmap option_fmap option_map]. f_equal. rewrite <- newline_prefix, <- put_prefix, <- spaces_prefix. done.
Qed.

Lemma dump_leaf_prefix pre name c f : dump_leaf name c (x_prefix pre f) = x_prefix pre (dump_leaf name c f).
Proof.
  destruct c; try apply leaf_prefix.
  cbn [dump_leaf]. rewrite !stream_writes. cbn [dump_stream XMLFormatter]. unfold x_dump_stream. rewrite spaces_prefix.
  unfold x_prefix. cbn. by rewrite <- app_assoc.
Qed.

Lemma dump_item_prefix pre i : ∀ f : xml_formatter, dump_item i (x_prefix pre f) = x_prefix pre <$> dump_item i f.
Proof.
  induction i as [array o name items IH|name c] using item_ind'; intros f; [|cbn; by rewrite dump_leaf_prefix].
  rewrite !dump_item_section, open_prefix. generalize (open_ array o name f). clear f.
  assert (∀ g : xml_formatter, dump_items items (x_prefix pre g) = x_prefix pre <$> dump_items items g) as Hall.
  { induction IH as [|i l Hi _ IHl]; intros g; [done|]. cbn [dump_items]. rewrite Hi.
    destruct (dump_item i g); cbn; [apply IHl|done]. }
  intros g. rewrite Hall. destruct (dump_items items g); cbn; [apply close_prefix|done].
Qed.

(** ** Virtual calls on the XML formatter *)

Lemma any_open array o name f : open_ array o name (AnyXML f) = AnyXML (open_ array o name f).
Proof. by destruct o, array. Qed.

Lemma any_leaf name c f : dump_leaf name c (AnyXML f) = AnyXML (dump_leaf name c f).
Proof.
  destruct c; try done. cbn [dump_leaf]. change (dump_stream name (AnyXML f)) with (AnyXML (dump_stream name f)).
  generalize (dump_stream name f). induction pieces as [|s l IH]; intros g; [done|]. cbn [foldl]. apply IH.
Qed.

Lemma any_item i : ∀ f, dump_item i (AnyXML f) = AnyXML <$> dump_item i f.
Proof.
  induction i as [array o name items IH|name c] using item_ind'; intros f; [|cbn; by rewrite any_leaf].
  rewrite !dump_item_section, any_open. generalize (open_ array o name f). clear f.
  assert (∀ g : xml_formatter, dump_items items (AnyXML g) = AnyXML <$> dump_items items g) as Hall.
  { induction IH as [|i l Hi _ IHl]; intros g; [done|]. cbn [dump_items]. rewrite Hi.
    destruct (dump_item i g); cbn; [apply IHl|done]. }
  intros g. rewrite Hall. by destruct (dump_items items g).
Qed.

(** ** A document after the XML declaration *)

Lemma name_newline f : x_pending_string_name (x_newline f) = x_pending_string_name f.
Proof. unfold x_newline. by destruct (x_pretty f). Qed.

Lemma name_spaces f : x_pending_string_name (x_print_spaces f) = [].
Proof.
  assert (x_pending_string_name (x_finish_pending_string f) = []) as H.
  { unfold x_finish_pending_string. case_decide; [done|]. by rewrite name_newline. }
  unfold x_print_spaces. by destruct (x_pretty _).
Qed.

(** The section is closed, nothing is pending. *)
Lemma close_settled f f' : x_close_section f = Some f' → x_pending_string_name f' = [].
Proof.
  unfold x_close_section. destruct (x_sections f); [done|]. destruct (x_sections (x_finish_pending_string f)); [done|].
  intros [= <-]. rewrite name_newline. apply name_spaces.
Qed.

Lemma section_document array o name items :
  item_ok (Section_ array o name items) →
  ∃ f doc, dump_item (Section_ array o name items) (XMLFormatter_new false) = Some f ∧
    x_ss f = doc ∧ x_pending_string_name f = [] ∧ x_pretty f = false ∧
    lex doc = Some (tokens (Section_ array o name items)).
Proof.
  intros Hok. destruct (dump_item_wrote _ false [] [] (XMLFormatter_new false) Hok) as (f & E & Hw).
  { repeat split. exists [], []. repeat split. }
  exists f, (x_ss f). split; [done|]. split; [done|].
  assert (x_pending_string_name f = []) as Hp.
  { rewrite dump_item_section in E. destruct (dump_items _ _) as [g|]; [|done]. cbn in E. by apply close_settled in E. }
  unfold wrote in Hw. unfold x_finish_pending_string in Hw. rewrite decide_True in Hw by done.
  destruct Hw as (Hpr & _ & _ & _ & Hr). split; [done|]. split; [done|].
  destruct (reads_lex _ _ _ Hr) as (l & Hl & Hc). cbn in Hc. by rewrite Hl, Hc.
Qed.

(** ** The FastCGI front end *)

Definition fcgx_text (x : io_call) : str :=
  match x with
  | CStatus status name => "Status: " ++ status ++ " " ++ default "(null)" name ++ CRLF
  | CPrint text => text
  | CLength len => length_line len
  | CAccount _ => []
  | CEnd => CRLF
  | CWrite buf => buf
  | CContinue => "Status: 100 Continue" ++ CRLF
  end.

Section Wire.
  Context {stream : Type} (FCGX_PutStr : str → stream → Z * stream) (FCGX_FFlush : stream → stream) (out : stream → str).
  (** The stream takes what it is given. *)
  Hypothesis put_all : ∀ s c, fst (FCGX_PutStr s c) = zlen s ∧ out (snd (FCGX_PutStr s c)) = out c ++ s.
  Hypothesis flush_keeps : ∀ c, out (FCGX_FFlush c) = out c.

  #[local] Abbreviation run := (@run_io _ (RGWFCGX FCGX_PutStr FCGX_FFlush)).

Lemma fcgx_write s c : out (io_backend (snd (io_write FCGX_PutStr s c))) = out (io_backend c) ++ s.
Proof.
  unfold io_write. destruct (put_all s (io_backend c)) as [H1 H2]. destruct (FCGX_PutStr s (io_backend c)) as [r b].
  cbn in H1, H2. destruct (r <? 0); [exact H2|]. by destruct (r <? zlen s).
Qed.

Lemma fcgx_wire xs c : out (io_backend (run xs c)) = out (io_backend c) ++ concat (map fcgx_text xs).
Proof.
  revert c. induction xs as [|x xs IH]; intros c; [cbn; by rewrite app_nil_r|].
  cbn [run_io fold_left map concat]. rewrite app_assoc. unfold run_io in IH. rewrite IH. f_equal. clear IH.
  destruct x; cbn [io_step send_status send_content_length complete_header send_100_continue write_data RGWFCGX fcgx_text];
    unfold fcgx_send_status, fcgx_send_content_length, fcgx_complete_header, fcgx_send_100_continue, fcgx_print;
    rewrite ?io_print_write; try apply fcgx_write.
  - cbn. by rewrite app_nil_r.
  - unfold fcgx_send_status, fcgx_print. rewrite io_print_write.
    set (t := "Status: " ++ "100" ++ " " ++ default "(null)" (Some ("Continue" : str)) ++ CRLF).
    pose proof (fcgx_write t c) as H. destruct (io_write FCGX_PutStr t c) as [r c']. cbn in H.
    destruct (r >=? 0); cbn; rewrite ?flush_keeps; exact H.
Qed.
End Wire.

(** ** Errors *)

(** A request whose formatter was allocated and nothing written. *)
Definition fresh_resp : resp := Resp [] (Some (AnyXML (XMLFormatter_new false))) RGW_FORMAT_XML false rgw_err_clear.

(** A request that has no formatter yet. *)
Definition bare_resp : resp := Resp [] None RGW_FORMAT_PLAIN false rgw_err_clear.

Definition head_text (q : request) (err_no : Z) : str :=
  (if rq_expose_bucket q && negb (bool_decide (rq_bucket_name q = []))
   then "Bucket: " ++ cstr (url_encode (rq_bucket_name q) []) ++ CRLF else []) ++
  (if (err_no =? - ERR_PERMANENT_REDIRECT) && negb (bool_decide (rq_region_endpoint q = []))
   then "Location: " ++ cstr (redirect_uri q) ++ CRLF else []) ++
  (if is_swift q then "X-Trans-Id" else "x-amz-request-id") ++ ": " ++ cstr (rq_trans_id q) ++ CRLF.

Definition is_head (q : request) : bool := match rq_op q with OP_HEAD => true | _ => false end.

(** The calls on the connection grow, the rest of the state stays. *)
Definition more_calls (xs : list io_call) (r : resp) : resp :=
  Resp (rp_calls r ++ xs) (rp_formatter r) (rp_format r) (rp_content_started r) (rp_err r).

Lemma call_more x r : call x r = Some (more_calls [x] r).
Proof. done. Qed.

Lemma when_more (b : bool) (f : R) xs r :
  (∀ r', f r' = Some (more_calls xs r')) → when b f r = Some (more_calls (if b then xs else []) r).
Proof. intros H. unfold when. destruct b; [apply H|]. unfold skip, more_calls. rewrite app_nil_r. by destruct r. Qed.

Lemma access_control_none q r : dump_access_control q r = Some r.
Proof. unfold dump_access_control, generate_cors_headers. by destruct (rq_origin q). Qed.

(** The names of the elements are literals. *)
Lemma leaf_ok name c : bool_decide (name = []) = false ∧ forallb name_char name = true → content_ok c → item_ok (Leaf name c).
Proof. intros [H1 H2] Hc. apply bool_decide_eq_false in H1. cbn [item_ok]. split; [by split|done]. Qed.

Lemma simple_ok c :
  match c with Unsigned _ | Int _ | String _ | Stream _ | Format _ | FormatUnquoted _ => True | _ => False end → content_ok c.
Proof. destruct c; try done; intros _; split; constructor. Qed.

Lemma section_ok array o name items :
  bool_decide (name = []) = false ∧ forallb name_char name = true → attrs_ok (opening_attrs o) → items_ok items →
  item_ok (Section_ array o name items).
Proof. intros [H1 H2] Ho Hi. apply bool_decide_eq_false in H1. apply item_ok_section. split; [by split|done]. Qed.

(** Documents made of literals names and simple contents. *)
Ltac ok_items :=
  unfold items_ok, owner_item, text, object, array;
  repeat first [ apply Forall_nil_2 | apply Forall_cons_2
               | apply leaf_ok; [split; vm_compute; reflexivity | apply simple_ok; exact I]
               | apply section_ok; [split; vm_compute; reflexivity | apply Forall_nil_2 | ] ].

Lemma error_items_ok q e : item_ok (error_items q e).
Proof.
  unfold error_items, object. apply item_ok_section. split; [by split|]. split; [constructor|].
  unfold items_ok. rewrite !Forall_app. repeat split; case_bool_decide; ok_items.
Qed.

(** The error document, once the XML declaration is in place. *)
Lemma dump_section_any pre array o name items :
  item_ok (Section_ array o name items) →
  ∃ f doc, dump_item (Section_ array o name items) (AnyXML (x_prefix pre (XMLFormatter_new false))) = Some (AnyXML f) ∧
    x_ss f = pre ++ doc ∧ x_pending_string_name f = [] ∧ x_pretty f = false ∧
    lex doc = Some (tokens (Section_ array o name items)).
Proof.
  intros Hok. destruct (section_document _ _ _ _ Hok) as (f & doc & E & Hs & Hn & Hp & Hl).
  exists (x_prefix pre f), doc. rewrite any_item, dump_item_prefix, E. cbn [fmap option_fmap option_map].
  repeat split; try done. cbn. by rewrite Hs.
Qed.

Lemma flush_settled q f r :
  rp_formatter r = Some (AnyXML f) → x_pending_string_name f = [] → x_pretty f = false → x_ss f ≠ [] →
  rgw_flush_formatter_and_reset q r =
  Some (set_formatter (Some (AnyXML (x_reset f))) (if is_head q then r else more_calls [CWrite (x_ss f)] r)).
Proof.
  intros Hf Hn Hp Hs. unfold rgw_flush_formatter_and_reset, and_then, rgw_flush_formatter. rewrite Hf. cbn.
  unfold x_finish_pending_string. rewrite decide_True by done. rewrite Hp, app_nil_r. cbn.
  rewrite bool_decide_eq_false_2 by done. unfold is_head. destruct (rq_op q); unfold x_reset, set_formatter; cbn; by rewrite Hp.
Qed.

(** What the formatter of a request makes of an error: a text, its length, and a
    formatter that has nothing left after the text is flushed. *)
Definition error_text (q : request) (e : rgw_err) (f0 : any_formatter) (fmt : Z) (body : str) : Prop :=
  body ≠ [] ∧ ∃ f f1 f2,
    (∀ calls, (dump_start ▷ dump (error_items q e)) (Resp calls (Some f0) fmt false e) = Some (Resp calls (Some f) fmt true e))
    ∧ get_len f = zlen body ∧ flush f = Some (body, f1) ∧ flush (reset f1) = Some ([], f2).

Lemma xml_error_text q e :
  ∃ doc, lex doc = Some (tokens (error_items q e)) ∧
    error_text q e (AnyXML (XMLFormatter_new false)) RGW_FORMAT_XML (XML_1_DTD ++ doc).
Proof.
  pose proof (error_items_ok q e) as Hok. unfold error_items, object in Hok.
  destruct (dump_section_any XML_1_DTD _ _ _ _ Hok) as (f & doc & E & Hs & Hn & Hp & Hl).
  exists doc. split; [exact Hl|]. split; [done|]. exists (AnyXML f). eexists _, _. split_and!.
  - intros calls. unfold and_then, dump_start. cbn [rp_content_started rp_format]. change (RGW_FORMAT_XML =? RGW_FORMAT_XML) with true. cbn iota.
    unfold on_formatter at 1. cbn [rp_formatter mbind option_bind].
    change (write_raw_data XML_1_DTD (AnyXML (XMLFormatter_new false))) with (AnyXML (x_prefix XML_1_DTD (XMLFormatter_new false))).
    unfold dump, on_formatter. cbn [rp_formatter set_formatter mbind option_bind]. unfold error_items, object. rewrite E. done.
  - change (get_len (AnyXML f)) with (zlen (x_ss f)). by rewrite Hs.
  - cbn. unfold x_finish_pending_string. rewrite decide_True by done. by rewrite Hp, app_nil_r, Hs.
  - reflexivity.
Qed.

(** The keys of an object, with nothing for their values. *)
Definition json_keys (names : list str) : str :=
  "{" ++ concat (imap (λ i n, (if decide (i = 0%nat) then [] else ",") ++ [QUOTE] ++ n ++ [QUOTE] ++ ":") names) ++ "}".
Definition error_json (q : request) (e : rgw_err) : str :=
  json_keys ((if bool_decide (er_s3_code e = []) then [] else ["Code" : str]) ++
             (if bool_decide (rq_message q = []) then [] else ["Message" : str]) ++
             (if bool_decide (rq_trans_id q = []) then [] else ["RequestId" : str])).

Lemma any_json_leaf name c (f : json_formatter) : dump_leaf name c (AnyJSON f) = AnyJSON (dump_leaf name c f).
Proof.
  destruct c; cbn [dump_leaf]; try done.
  assert (∀ (l : list str) (g : json_formatter),
    foldl (λ f s, stream_write s f) (AnyJSON g) l = AnyJSON (foldl (λ f s, stream_write s f) g l)) as H.
  { induction l as [|s l IH]; intros g; [done|]. cbn [foldl]. apply IH. }
  apply H.
Qed.

Lemma any_json_item i : ∀ f, dump_item i (AnyJSON f) = AnyJSON <$> dump_item i f.
Proof.
  induction i as [array o name items IH|name c] using item_ind'; intros f; [|cbn; by rewrite any_json_leaf].
  rewrite !dump_item_section. assert (open_ array o name (AnyJSON f) = AnyJSON (open_ array o name f)) as -> by (by destruct array, o).
  generalize (open_ array o name f). clear f.
  assert (∀ g : json_formatter, dump_items items (AnyJSON g) = AnyJSON <$> dump_items items g) as Hall.
  { induction IH as [|i l Hi _ IHl]; intros g; [done|]. cbn [dump_items]. rewrite Hi.
    destruct (dump_item i g); cbn; [apply IHl|done]. }
  intros g. rewrite Hall. by destruct (dump_items items g).
Qed.

Lemma json_error_text q e : error_text q e (AnyJSON (JSONFormatter_new false)) RGW_FORMAT_JSON (error_json q e).
Proof.
  split; [done|].
  destruct (json_item_printed (error_items q e) (JSONFormatter_new false)) as (f & E & Hs & Hk & Hp); [constructor|].
  assert (j_ss f = error_json q e) as Hss.
  { rewrite Hs. unfold error_items, object, error_json. by destruct (bool_decide _), (bool_decide _), (bool_decide _). }
  destruct (finish_printed f) as (F1 & F2 & F3). rewrite app_nil_r in F1.
  exists (AnyJSON f). eexists _, _. split_and!.
  - intros calls. unfold and_then, dump_start. cbn [rp_content_started rp_format]. change (RGW_FORMAT_JSON =? RGW_FORMAT_XML) with false. cbn iota.
    cbn [mbind option_bind rp_calls rp_formatter rp_format rp_err].
    unfold dump, on_formatter. cbn [rp_formatter set_formatter mbind option_bind]. rewrite any_json_item, E. done.
  - change (get_len (AnyJSON f)) with (zlen (j_ss f)). by rewrite Hss.
  - cbn. rewrite F1, F3, Hp, Hss. cbn. by rewrite app_nil_r.
  - cbn. unfold j_finish_pending_string. cbn. by destruct (j_is_pending_string _).
Qed.

(** [end_header] on an error: the document, its length, the end of the header. *)
Lemma end_header_error q op calls f0 fmt e body :
  is_err e = true → error_text q e f0 fmt body →
  ∃ f2, end_header q op None None false (Resp calls (Some f0) fmt false e) =
    Some (Resp (calls ++
            [CPrint ((if is_swift q then "X-Trans-Id" else "x-amz-request-id") ++ ": " ++ cstr (rq_trans_id q) ++ CRLF);
             CLength (zlen body); CPrint ("Accept-Ranges: none" ++ CRLF);
             CPrint ("Content-Type: " ++ format_type q fmt ++ CRLF); CEnd; CAccount true] ++
            (if is_head q then [] else [CWrite body]))
          (Some f2) fmt true e) ∧ ∃ f3, flush f2 = Some ([], f3).
Proof.
  intros He (Hne & f & f1 & f2 & Hdoc & Hlen & Hfl & Hfl2). exists (reset f1). split; [|by eexists].
  unfold end_header, dump_trans_id, header, print.
  rewrite call_more. cbn [mbind option_bind more_calls rp_calls rp_formatter rp_format rp_content_started rp_err].
  rewrite He. cbn [negb andb when skip mbind option_bind].
  assert (∀ r', when op (dump_access_control q) r' = Some r') as Hac by (intros r'; destruct op; [apply access_control_none|done]).
  rewrite Hac. cbn [mbind option_bind rp_err].
  match goal with |- context [end_header_type q None false ?r] => set (r1 := r) end.
  assert (end_header_type q None false r1 = Some (Some (format_type q fmt))) as ->.
  { unfold end_header_type. change (rp_err r1) with e. change (rp_format r1) with fmt. rewrite He.
    destruct (is_swift q); [done|]. cbn. by rewrite orb_true_r. }
  cbn [mbind option_bind]. change (rp_err r1) with e. rewrite He. subst r1. unfold more_calls at 1. cbn [rp_calls rp_formatter rp_format rp_content_started rp_err]. rewrite Hdoc.
  cbn [mbind option_bind resp_get_len rp_formatter fmap option_fmap option_map]. rewrite Hlen.
  unfold dump_content_length, and_then, header, print. rewrite !call_more. cbn [mbind option_bind].
  rewrite call_more. cbn [mbind option_bind]. rewrite !call_more. cbn [mbind option_bind]. rewrite call_more. cbn [mbind option_bind].
  rewrite call_more. cbn [mbind option_bind].
  unfold rgw_flush_formatter_and_reset, and_then, rgw_flush_formatter, more_calls. cbn [rp_formatter mbind option_bind].
  rewrite Hfl. cbn [mbind option_bind]. rewrite bool_decide_eq_false_2 by done. unfold is_head.
  destruct (rq_op q); cbn; unfold set_formatter; cbn; rewrite <- ?app_assoc; done.
Qed.

Lemma fcgx_text_if (b : bool) x : concat (map fcgx_text (if b then [x] else [])) = if b then fcgx_text x else [].
Proof. destruct b; [apply app_nil_r|done]. Qed.

(** ** Documents *)

(** The header of a response without an error. *)
Definition ok_head (q : request) : str :=
  (if is_swift q then "X-Trans-Id" else "x-amz-request-id") ++ ": " ++ cstr (rq_trans_id q) ++ CRLF ++
  (if rq_requester_pays q then "x-amz-request-charged: requester" ++ CRLF else []).

(** [end_header] with a content type: nothing of the body is written yet. *)
Lemma end_header_ok q op r :
  rp_formatter r = Some (AnyXML (XMLFormatter_new false)) → rp_err r = rgw_err_clear → is_swift q = false →
  end_header_xml q op r =
  Some (more_calls
    ([CPrint ("x-amz-request-id: " ++ cstr (rq_trans_id q) ++ CRLF)] ++
     (if rq_requester_pays q then [CPrint ("x-amz-request-charged: requester" ++ CRLF)] else []) ++
     [CPrint ("Content-Type: application/xml" ++ CRLF); CEnd; CAccount true]) r).
Proof.
  intros Hf He Hs. unfold end_header_xml, end_header, dump_trans_id, header. rewrite Hs. unfold print. rewrite call_more.
  cbn [mbind option_bind]. change (rp_err (more_calls ?xs r)) with (rp_err r). rewrite He. cbn [is_err rgw_err_clear er_http_ret].
  change (negb (negb ((200 >=? 200) && (200 <=? 399)))) with true. cbn [andb].
  rewrite (when_more _ _ [CPrint ("x-amz-request-charged: requester" ++ CRLF)]) by done. cbn [mbind option_bind].
  assert (∀ r', when op (dump_access_control q) r' = Some r') as Hac by (intros r'; destruct op; [apply access_control_none|done]).
  rewrite Hac. cbn [mbind option_bind]. unfold end_header_type. rewrite Hs.
  destruct r as [calls fm fmt cs err]. cbn in Hf, He. subst. destruct (rq_requester_pays q); cbn; rewrite ?app_nil_r, <- ?app_assoc; reflexivity.
Qed.

Lemma dump_start_fresh calls err :
  dump_start (Resp calls (Some (AnyXML (XMLFormatter_new false))) RGW_FORMAT_XML false err) =
  Some (Resp calls (Some (AnyXML (x_prefix XML_1_DTD (XMLFormatter_new false)))) RGW_FORMAT_XML true err).
Proof. reflexivity. Qed.

(** A response that is one document. *)
Lemma document_calls q op calls array o name items :
  is_swift q = false → item_ok (Section_ array o name items) →
  ∃ doc, lex doc = Some (tokens (Section_ array o name items)) ∧
    (end_header_xml q op ▷ dump_start ▷ dump (Section_ array o name items) ▷ rgw_flush_formatter_and_reset q)
      (Resp calls (Some (AnyXML (XMLFormatter_new false))) RGW_FORMAT_XML false rgw_err_clear) =
    Some (Resp (calls ++
            ([CPrint ("x-amz-request-id: " ++ cstr (rq_trans_id q) ++ CRLF)] ++
             (if rq_requester_pays q then [CPrint ("x-amz-request-charged: requester" ++ CRLF)] else []) ++
             [CPrint ("Content-Type: application/xml" ++ CRLF); CEnd; CAccount true]) ++
            (if is_head q then [] else [CWrite (XML_1_DTD ++ doc)]))
          (Some (AnyXML (XMLFormatter_new false))) RGW_FORMAT_XML true rgw_err_clear).
Proof.
  intros Hsw Hok. destruct (dump_section_any XML_1_DTD _ _ _ _ Hok) as (f & doc & E & Hs & Hn & Hp & Hl).
  exists doc. split; [done|]. unfold and_then at 1. rewrite end_header_ok by done. cbn [mbind option_bind].
  unfold and_then at 1. unfold more_calls. cbn [rp_calls rp_formatter rp_format rp_content_started rp_err].
  rewrite dump_start_fresh. cbn [mbind option_bind]. unfold and_then at 1. unfold dump, on_formatter at 1.
  cbn [rp_formatter mbind option_bind]. rewrite E. cbn [mbind option_bind set_formatter rp_calls rp_format rp_content_started rp_err].
  erewrite flush_settled; [|reflexivity|done|done|rewrite Hs; done]. unfold x_reset. rewrite Hp, Hs.
  destruct (is_head q); unfold set_formatter, more_calls; cbn [rp_calls rp_format rp_content_started rp_err];
    rewrite <- ?app_assoc, ?app_nil_r; done.
Qed.

(** ** Listings *)

(** The texts of the [Key] elements; the flag says that one was opened. *)
Fixpoint keys_loop (open : bool) (l : list token) : list str :=
  match l with
  | [] => []
  | TOpen name _ :: l => keys_loop (bool_decide (name = "Key")) l
  | TText k :: l => if open then k :: keys_loop open l else keys_loop open l
  | TClose _ :: l => keys_loop false l
  end.
Definition keys_of (l : list token) : list str := keys_loop false l.

Lemma keys_close name b l m : keys_loop b (l ++ TClose name :: m) = keys_loop b (l ++ [TClose name]) ++ keys_loop false m.
Proof.
  revert b. induction l as [|[n a|n|t] l IH]; intros b; cbn [app keys_loop]; try done; try apply IH.
  destruct b; cbn; by rewrite IH.
Qed.

Lemma tokens_close i : ∃ name l, tokens i = l ++ [TClose name].
Proof. destruct i as [arr o name items|name c]; cbn [tokens]; eexists name, (_ :: _); reflexivity. Qed.

Lemma keys_item i m b : keys_loop b (tokens i ++ m) = keys_loop false (tokens i) ++ keys_loop false m.
Proof.
  destruct (tokens_close i) as (name & l & E).
  assert (keys_loop b (tokens i) = keys_loop false (tokens i)) as Hb by (by destruct i).
  rewrite <- Hb, E, <- app_assoc. cbn [app]. apply keys_close.
Qed.

Lemma keys_items l m : keys_loop false (concat (map tokens l) ++ m) = concat (map (λ i, keys_of (tokens i)) l) ++ keys_loop false m.
Proof.
  induction l as [|i l IH]; [done|]. cbn [map concat]. rewrite <- app_assoc, keys_item, IH. by rewrite <- app_assoc.
Qed.

Lemma keys_section arr o name l :
  name ≠ "Key" → keys_of (tokens (Section_ arr o name l)) = concat (map (λ i, keys_of (tokens i)) l).
Proof.
  intros Hn. unfold keys_of at 1. cbn [tokens keys_loop]. rewrite bool_decide_eq_false_2 by done.
  rewrite keys_items. cbn. by rewrite app_nil_r.
Qed.

Lemma keys_leaf name c : name ≠ "Key" → keys_of (tokens (Leaf name c)) = [].
Proof.
  intros Hn. unfold keys_of. cbn [tokens keys_loop]. rewrite bool_decide_eq_false_2 by done. by destruct (content_text c).
Qed.

(** The text of an entry's key. *)
Definition key_text (l : list_params) (e : RGWObjEnt) : str :=
  cstr (if encode_key l then url_encode (rk_name (oe_key e)) [] else rk_name (oe_key e)).

Lemma keys_key l e : key_text l e ≠ [] → keys_of (tokens (key_item l e)) = [key_text l e].
Proof.
  intros Hk. unfold key_item, text, keys_of. cbn [tokens content_text content_attrs keys_loop].
  rewrite bool_decide_eq_true_2 by done. change (cstr _) with (key_text l e). unfold text_of. by destruct (key_text l e).
Qed.

Ltac no_keys :=
  repeat first [ rewrite keys_leaf by done | rewrite keys_section by done
               | progress cbn [map concat app text object array owner_item] ].

Lemma keys_time name t : name ≠ "Key" → concat (map (λ i, keys_of (tokens i)) (time_item name t)) = [].
Proof. intros Hn. unfold time_item. destruct (gmtime_r t); [|done]. unfold text. cbn [map concat]. by rewrite keys_leaf. Qed.

Lemma keys_contents l e : key_text l e ≠ [] → keys_of (tokens (contents_item l e)) = [key_text l e].
Proof.
  intros Hk. unfold contents_item, array. rewrite keys_section by done. rewrite !map_app, !concat_app, keys_time by done.
  cbn [map concat]. rewrite keys_key by done. unfold etag_item, entry_owner, owner_item, object, text. no_keys. done.
Qed.

Lemma keys_version q l e : key_text l e ≠ [] → keys_of (tokens (version_item q l e)) = [key_text l e].
Proof.
  intros Hk. unfold version_item, array. rewrite keys_section by (by destruct (ent_is_delete_marker e)).
  rewrite !map_app, !concat_app, keys_time by done. cbn [map concat]. rewrite keys_key by done.
  unfold etag_item, entry_owner, owner_item, object, text.
  destruct (rq_system_request q && _), (ent_is_delete_marker e); no_keys; done.
Qed.

Lemma keys_head q l a b : a ≠ "Key" → b ≠ "Key" → concat (map (λ i, keys_of (tokens i)) (list_head q l a b)) = [].
Proof.
  intros Ha Hb. unfold list_head, text. rewrite !map_app, !concat_app.
  destruct (lp_is_truncated l && _), (bool_decide (lp_delimiter l = [])); no_keys; done.
Qed.

Lemma keys_tail l : concat (map (λ i, keys_of (tokens i)) (list_tail l)) = [].
Proof.
  unfold list_tail, array, text. induction (lp_common_prefixes l) as [|p ps IH]; [done|]. cbn [map concat]. rewrite IH. no_keys. done.
Qed.

Lemma keys_entries (f : RGWObjEnt → item) l es :
  (∀ e, key_text l e ≠ [] → keys_of (tokens (f e)) = [key_text l e]) → Forall (λ e, key_text l e ≠ []) es →
  concat (map (λ i, keys_of (tokens i)) (map f es)) = map (key_text l) es.
Proof. intros Hf H. induction H as [|e es He _ IH]; [done|]. cbn [map concat]. by rewrite Hf, IH. Qed.

(** The document of a listing, in either form. *)
Definition listing_item (q : request) (l : list_params) : item :=
  if lp_list_versions l then versions_item q l else list_item q l.

Lemma listing_keys q l :
  0 <= lp_ret l → Forall (λ e, key_text l e ≠ []) (lp_objs l) →
  keys_of (tokens (listing_item q l)) = map (key_text l) (lp_objs l).
Proof.
  intros Hr He. assert ((lp_ret l >=? 0) = true) as Hr' by (apply Z.geb_le; lia). unfold listing_item, versions_item, list_item.
  destruct (lp_list_versions l); rewrite keys_section by done; rewrite Hr', !map_app, !concat_app, keys_head by done;
    cbn [app]; rewrite keys_tail, app_nil_r; apply keys_entries; auto using keys_version, keys_contents.
Qed.

Lemma time_items_ok name t : bool_decide (name = []) = false ∧ forallb name_char name = true → items_ok (time_item name t).
Proof.
  intros Hn. unfold time_item. destruct (gmtime_r t); [|constructor]. apply Forall_cons_2; [|constructor].
  apply leaf_ok; [done|by apply simple_ok].
Qed.

Lemma ns_ok : attrs_ok (opening_attrs (InNs S3_NS)).
Proof. repeat constructor; done. Qed.

Lemma head_items_ok q l a b :
  bool_decide (a = []) = false ∧ forallb name_char a = true → bool_decide (b = []) = false ∧ forallb name_char b = true →
  items_ok (list_head q l a b).
Proof.
  intros Ha Hb. assert (∀ n s, bool_decide (n = []) = false ∧ forallb name_char n = true → item_ok (text n s)) as Ht
    by (intros n s Hn; apply leaf_ok; [done|by apply simple_ok]).
  unfold list_head, items_ok. rewrite !Forall_app. repeat split.
  - apply Forall_cons_2; [by apply Ht|]. apply Forall_cons_2; [by apply Ht|]. apply Forall_cons_2; [by apply Ht|constructor].
  - destruct (_ && _); [|constructor]. apply Forall_cons_2; [by apply Ht|constructor].
  - ok_items.
  - destruct (bool_decide (lp_delimiter l = [])); ok_items.
  - ok_items.
Qed.

Lemma tail_items_ok l : items_ok (list_tail l).
Proof. unfold list_tail, items_ok. induction (lp_common_prefixes l); cbn [map]; ok_items. done. Qed.

Lemma contents_ok l e : item_ok (contents_item l e).
Proof.
  unfold contents_item, array. apply section_ok; [split; vm_compute; reflexivity|constructor|]. unfold items_ok.
  rewrite !Forall_app. repeat split; [unfold key_item; ok_items|by apply time_items_ok|unfold etag_item, entry_owner; ok_items].
Qed.

Lemma version_ok q l e : item_ok (version_item q l e).
Proof.
  unfold version_item, array. apply section_ok; [destruct (ent_is_delete_marker e); split; vm_compute; reflexivity|constructor|].
  unfold items_ok. rewrite !Forall_app.
  repeat split; [unfold key_item; ok_items|destruct (_ && _); ok_items|ok_items|by apply time_items_ok| |unfold entry_owner; ok_items].
  destruct (ent_is_delete_marker e); unfold etag_item; ok_items.
Qed.

Lemma listing_ok q l : item_ok (listing_item q l).
Proof.
  assert (∀ f es, (∀ e : RGWObjEnt, item_ok (f e)) → Forall item_ok (map f es)) as Hmap
    by (intros f es Hf; induction es; constructor; auto).
  unfold listing_item, versions_item, list_item.
  destruct (lp_list_versions l); (apply section_ok; [split; vm_compute; reflexivity|apply ns_ok|]);
    unfold items_ok; apply Forall_app; (split; [by apply head_items_ok|]); destruct (lp_ret l >=? 0); try constructor;
    apply Forall_app; (split; [apply Hmap; auto using contents_ok, version_ok|apply tail_items_ok]).
Qed.

(** The calls [abort_early] makes on the connection. *)
Lemma abort_early_calls q op err_no f0 fmt body :
  let err := set_req_state_err (rq_prot_flags q) err_no in
  is_err err = true → error_text q err f0 fmt body →
  ∃ f2, (resp_set_err q err_no ▷ resp_dump_errno ▷ dump_bucket_from_state q ▷
         when ((err_no =? - ERR_PERMANENT_REDIRECT) && negb (bool_decide (rq_region_endpoint q = []))) (dump_redirect (redirect_uri q)) ▷
         end_header q op None None false ▷ rgw_flush_formatter_and_reset q) (Resp [] (Some f0) fmt false rgw_err_clear) =
    Some (Resp (((([CStatus (fst (dump_errno err)) (snd (dump_errno err))] ++
      (if rq_expose_bucket q && negb (bool_decide (rq_bucket_name q = []))
       then [CPrint ("Bucket: " ++ cstr (url_encode (rq_bucket_name q) []) ++ CRLF)] else [])) ++
      (if (err_no =? - ERR_PERMANENT_REDIRECT) && negb (bool_decide (rq_region_endpoint q = []))
       then [CPrint ("Location: " ++ cstr (redirect_uri q) ++ CRLF)] else [])) ++
      [CPrint ((if is_swift q then "X-Trans-Id" else "x-amz-request-id") ++ ": " ++ cstr (rq_trans_id q) ++ CRLF);
       CLength (zlen body); CPrint ("Accept-Ranges: none" ++ CRLF);
       CPrint ("Content-Type: " ++ format_type q fmt ++ CRLF); CEnd; CAccount true] ++
      (if is_head q then [] else [CWrite body]))) (Some f2) fmt true err).
Proof.
  intros err He Ht.
  set (xs1 := if rq_expose_bucket q && negb (bool_decide (rq_bucket_name q = [])) then [_] else []).
  set (xs2 := if (err_no =? - ERR_PERMANENT_REDIRECT) && negb (bool_decide (rq_region_endpoint q = [])) then [_] else []).
  unfold and_then at 1. unfold resp_set_err. cbn [mbind option_bind rp_calls rp_formatter rp_format rp_content_started]. fold err.
  unfold and_then at 1. unfold resp_dump_errno. cbn [rp_err]. destruct (dump_errno err) as [st nm] eqn:Ed.
  rewrite call_more. cbn [mbind option_bind].
  unfold and_then at 1. assert (∀ r, dump_bucket_from_state q r = Some (more_calls xs1 r)) as ->.
  { intros r. by apply when_more. }
  cbn [mbind option_bind]. unfold and_then at 1.
  assert (∀ r, when ((err_no =? - ERR_PERMANENT_REDIRECT) && negb (bool_decide (rq_region_endpoint q = []))) (dump_redirect (redirect_uri q)) r = Some (more_calls xs2 r)) as ->.
  { intros r. apply when_more. intros r'. unfold dump_redirect, when. rewrite bool_decide_eq_false_2; [done|].
    unfold redirect_uri. intros H. apply (f_equal length) in H. rewrite !length_app in H. cbn in H. lia. }
  cbn [mbind option_bind]. unfold and_then at 1, more_calls. cbn [rp_calls rp_formatter rp_format rp_content_started rp_err].
  destruct (end_header_error q op (([] ++ [CStatus st nm]) ++ xs1 ++ xs2) f0 fmt err body He Ht) as (f2 & E & f3 & Hf).
  rewrite <- app_assoc, E. cbn [mbind option_bind]. exists (reset f3).
  unfold rgw_flush_formatter_and_reset, and_then, rgw_flush_formatter. cbn [rp_formatter mbind option_bind]. rewrite Hf.
  cbn. unfold set_formatter. cbn. by rewrite <- !app_assoc.
Qed.

Section Client.
  Context {stream : Type} (FCGX_PutStr : str → stream → Z * stream) (FCGX_FFlush : stream → stream) (out : stream → str).
  Hypothesis put_all : ∀ s c, fst (FCGX_PutStr s c) = zlen s ∧ out (snd (FCGX_PutStr s c)) = out c ++ s.
  Hypothesis flush_keeps : ∀ c, out (FCGX_FFlush c) = out c.

  #[local] Abbreviation run := (@run_io _ (RGWFCGX FCGX_PutStr FCGX_FFlush)).

(** C19: a request that fails before anything was written is answered, through a
    FastCGI stream that takes everything it is given, with the status of its
    error, the header lines, a length, and an error document of that length
    (none for a HEAD request).  When the request has its XML formatter, a reader
    of XML gets the code, the message and the request id of the error from the
    document.  A request that fails before it has a formatter, such as one with
    a bad length or a method that is not allowed, is answered as JSON, in which
    only the names of the code, the message and the request id stand, with
    nothing for their values. *)
Theorem abort_early_on_wire q op err_no (has_formatter : bool) c :
  let err := set_req_state_err (rq_prot_flags q) err_no in
  is_err err = true →
  ∃ r body, abort_early q op err_no (if has_formatter then fresh_resp else bare_resp) = Some r ∧
    (if has_formatter then ∃ doc, body = XML_1_DTD ++ doc ∧ lex doc = Some (tokens (error_items q err))
     else body = error_json q err) ∧
    out (io_backend (run (rp_calls r) c)) =
      out (io_backend c) ++ "Status: " ++ fst (dump_errno err) ++ " " ++ default "(null)" (snd (dump_errno err)) ++ CRLF ++
      head_text q err_no ++ length_line (zlen body) ++ "Accept-Ranges: none" ++ CRLF ++
      "Content-Type: " ++ format_type q (if has_formatter then RGW_FORMAT_XML else RGW_FORMAT_JSON) ++ CRLF ++ CRLF ++
      (if is_head q then [] else body).
Proof.
  intros err He.
  assert (∃ f0 body, (if has_formatter then ∃ doc, body = XML_1_DTD ++ doc ∧ lex doc = Some (tokens (error_items q err))
                      else body = error_json q err) ∧
    error_text q err f0 (if has_formatter then RGW_FORMAT_XML else RGW_FORMAT_JSON) body ∧
    ∀ k : R, (let r := if has_formatter then fresh_resp else bare_resp in
      k (match rp_formatter r with Some _ => r
         | None => Resp (rp_calls r) (Some (AnyJSON (JSONFormatter_new false))) RGW_FORMAT_JSON (rp_content_started r) (rp_err r) end))
      = k (Resp [] (Some f0) (if has_formatter then RGW_FORMAT_XML else RGW_FORMAT_JSON) false rgw_err_clear))
    as (f0 & body & Hbody & Ht & Hstart).
  { destruct has_formatter.
    - destruct (xml_error_text q err) as (doc & Hl & Ht). exists (AnyXML (XMLFormatter_new false)), (XML_1_DTD ++ doc). eauto.
    - exists (AnyJSON (JSONFormatter_new false)), (error_json q err). split; [done|]. split; [apply json_error_text|done]. }
  set (fmt := if has_formatter then RGW_FORMAT_XML else RGW_FORMAT_JSON) in *.
  destruct (abort_early_calls q op err_no f0 fmt body He Ht) as (f2 & E).
  eexists _, body. split; [unfold abort_early; cbv zeta; rewrite Hstart; exact E|]. split; [exact Hbody|].
  rewrite (fcgx_wire FCGX_PutStr FCGX_FFlush out put_all flush_keeps). f_equal. cbn [rp_calls]. unfold head_text.
  rewrite !map_app, !concat_app. cbn [map concat fcgx_text]. rewrite !app_nil_r. rewrite !fcgx_text_if.
  replace (concat (map fcgx_text (if is_head q then [] else [CWrite body]))) with (if is_head q then [] else body)
    by (destruct (is_head q); [done|cbn [map concat fcgx_text]; by rewrite app_nil_r]).
  rewrite <- !app_assoc. reflexivity.
Qed.

(** C18: a listing that succeeds is answered, through the FastCGI stream, with status
    200 and a document, none for a HEAD request, from which a reader of XML gets
    the bucket, the parameters and the entries, in either form; its [Key]
    elements are the keys of the listing's objects in order, whatever characters
    they hold. *)
Theorem listing_on_wire q l c :
  0 <= lp_ret l → is_swift q = false → Forall (λ e, key_text l e ≠ []) (lp_objs l) →
  ∃ r doc, list_bucket_send_response q l fresh_resp = Some r ∧
    lex doc = Some (tokens (listing_item q l)) ∧
    keys_of (tokens (listing_item q l)) = map (key_text l) (lp_objs l) ∧
    out (io_backend (run (rp_calls r) c)) =
      out (io_backend c) ++ "Status: 200 OK" ++ CRLF ++ ok_head q ++
      "Content-Type: application/xml" ++ CRLF ++ CRLF ++ (if is_head q then [] else XML_1_DTD ++ doc).
Proof.
  intros Hr Hsw Hk. assert (∃ arr o name items, listing_item q l = Section_ arr o name items) as (arr & o & name & items & Ei)
    by (unfold listing_item; destruct (lp_list_versions l); by repeat eexists).
  pose proof (listing_ok q l) as Hok. rewrite Ei in Hok.
  destruct (document_calls q true [CStatus "200" (Some "OK")] _ _ _ _ Hsw Hok) as (doc & Hl & E). rewrite <- Ei in Hl, E.
  assert (list_bucket_send_response q l fresh_resp = (end_header_xml q true ▷ dump_start ▷ dump (listing_item q l) ▷ rgw_flush_formatter_and_reset q)
      (Resp [CStatus "200" (Some "OK")] (Some (AnyXML (XMLFormatter_new false))) RGW_FORMAT_XML false rgw_err_clear)) as Ha.
  { unfold list_bucket_send_response. rewrite (proj2 (Z.ltb_ge _ _) Hr). unfold listing_item, send_versioned_response.
    unfold and_then at 1. cbn [when skip mbind option_bind]. unfold and_then at 1. unfold resp_dump_errno.
    change (dump_errno (rp_err fresh_resp)) with ("200" : str, Some ("OK" : str)). cbv beta iota. rewrite call_more. cbn [mbind option_bind].
    by destruct (lp_list_versions l). }
  rewrite E in Ha. eexists _, doc. split; [exact Ha|]. split; [done|]. split; [by apply listing_keys|].
  rewrite (fcgx_wire FCGX_PutStr FCGX_FFlush out put_all flush_keeps). f_equal. cbn [rp_calls].
  unfold ok_head. rewrite Hsw, !map_app, !concat_app, fcgx_text_if. cbn [map concat fcgx_text]. rewrite !app_nil_r.
  replace (concat (map fcgx_text (if is_head q then [] else [CWrite (XML_1_DTD ++ doc)]))) with (if is_head q then [] else XML_1_DTD ++ doc)
    by (destruct (is_head q); [done|cbn [map concat fcgx_text]; by rewrite app_nil_r]).
  rewrite <- !app_assoc. reflexivity.
Qed.
End Client.

(** ** Examples *)

Definition demo_put (s : str) (c : str) : Z * str := (zlen s, c ++ s).
Definition demo_request_s3 : request :=
  Request OP_GET 0 "tx1" false false "bkt" "obj" "joe" "Joe" [] [] "/bkt" [] false [] None None.
Definition demo_io : client_io str := ClientIO false 0 [].
Definition demo_list : list_params :=
  ListParams 0 false [] rgw_obj_key_new rgw_obj_key_new 1000 [] false []
    [Mk_ent (Mk_rgw_obj_key "a<b" []) [] "joe" "Joe" 5 (Utime 0 0) "etag" [] [] 0 0;
     Mk_ent (Mk_rgw_obj_key "c" []) [] "joe" "Joe" 6 (Utime 86400 0) "etag2" [] [] 0 0] [].

Lemma demo_put_all s c : fst (demo_put s c) = zlen s ∧ snd (demo_put s c) = c ++ s.
Proof. done. Qed.

Lemma abort_early_on_wire_witness :
  is_err (set_req_state_err 0 (- ERR_NO_SUCH_BUCKET)) = true ∧
  (∃ r body, abort_early demo_request_s3 true (- ERR_NO_SUCH_BUCKET) fresh_resp = Some r ∧
    (∃ doc, body = XML_1_DTD ++ doc ∧
       lex doc = Some (tokens (error_items demo_request_s3 (set_req_state_err 0 (- ERR_NO_SUCH_BUCKET))))) ∧
    io_backend (@run_io _ (RGWFCGX demo_put (λ c, c)) (rp_calls r) demo_io) =
      "Status: 404 Not Found" ++ CRLF ++ head_text demo_request_s3 (- ERR_NO_SUCH_BUCKET) ++
      length_line (zlen body) ++ "Accept-Ranges: none" ++ CRLF ++
      "Content-Type: application/xml" ++ CRLF ++ CRLF ++ body) ∧
  ∃ r body, abort_early demo_request_s3 false (- EINVAL) bare_resp = Some r ∧
    body = error_json demo_request_s3 (set_req_state_err 0 (- EINVAL)) ∧
    io_backend (@run_io _ (RGWFCGX demo_put (λ c, c)) (rp_calls r) demo_io) =
      "Status: 400 Bad Request" ++ CRLF ++ head_text demo_request_s3 (- EINVAL) ++
      length_line (zlen body) ++ "Accept-Ranges: none" ++ CRLF ++
      "Content-Type: application/json" ++ CRLF ++ CRLF ++ body.
Proof.
  split; [vm_compute; reflexivity|]. split.
  - exact (abort_early_on_wire demo_put (λ c, c) (λ c, c) demo_put_all (λ c, eq_refl) demo_request_s3 true (- ERR_NO_SUCH_BUCKET) true demo_io eq_refl).
  - exact (abort_early_on_wire demo_put (λ c, c) (λ c, c) demo_put_all (λ c, eq_refl) demo_request_s3 false (- EINVAL) false demo_io eq_refl).
Defined.

Lemma listing_on_wire_witness :
  map (key_text demo_list) (lp_objs demo_list) = ["a<b"; "c"] ∧
  ∃ r doc, list_bucket_send_response demo_request_s3 demo_list fresh_resp = Some r ∧
    lex doc = Some (tokens (listing_item demo_request_s3 demo_list)) ∧
    keys_of (tokens (listing_item demo_request_s3 demo_list)) = map (key_text demo_list) (lp_objs demo_list) ∧
    io_backend (@run_io _ (RGWFCGX demo_put (λ c, c)) (rp_calls r) demo_io) =
      "Status: 200 OK" ++ CRLF ++ ok_head demo_request_s3 ++
      "Content-Type: application/xml" ++ CRLF ++ CRLF ++ XML_1_DTD ++ doc.
Proof.
  split; [vm_compute; reflexivity|].
  apply (listing_on_wire demo_put (λ c, c) (λ c, c) demo_put_all (λ c, eq_refl) demo_request_s3 demo_list demo_io);
    [vm_compute; discriminate|reflexivity|repeat constructor; discriminate].
Defined.

(** An error once the header was sent: a second status line, in the middle of the body. *)
Example get_obj_second_header :
  let g ret sent := GetObj ret sent false 0 0 0 5 0 [] false true (Mk_args [] [] [] [] false) in
  (λ r, List.filter (λ x, match x with CStatus _ _ | CWrite _ => true | _ => false end) (rp_calls r)) <$>
    (send_response_data demo_request_s3 (g 0 false) "hello" 0 5 ▷
     send_response_data_error demo_request_s3 (g (- EIO) true)) fresh_resp =
  (λ s, [CStatus "200" (Some "OK"); CWrite "hello"; CStatus "500" (Some "Internal Server Error"); CWrite s]) <$>
    document [error_items demo_request_s3 (set_req_state_err 0 (- EIO))] (x_prefix XML_1_DTD (XMLFormatter_new false)).
Proof. vm_compute. reflexivity. Qed.
