(* ===== verification/Metadata.v ===== *)
(** * Metadata ([src/src/rgw/porting_metadata.cc], [porting_metadata.h], [porting_tools.cc])

    The manager hands a key [type:entry] to the handler of its type, lists keys
    page by page and brackets a change with two log entries.  A handler is a
    record of functions over the store; the JSON reader is a parameter.  The
    calls that would append to the log are compiled out: an entry is made and
    dropped. *)

From stdpp Require Import gmap.
From S2P Require Import Prelude StdMap Encoding Utime ClsRgwTypes CString Env Http Strtol Errors RgwObj ObjectCache Records.
From S2P Require Import SysInfo Escape Formatter FormatterFacts.
#[local] Open Scope Z_scope.
#[local] Open Scope str_scope.

(** ** The log *)

Definition MDLOG_STATUS_UNKNOWN : Z := 0.
Definition MDLOG_STATUS_WRITE : Z := 1.
Definition MDLOG_STATUS_SETATTRS : Z := 2.
Definition MDLOG_STATUS_REMOVE : Z := 3.
Definition MDLOG_STATUS_COMPLETE : Z := 4.
Definition MDLOG_STATUS_ABORT : Z := 5.

Definition log_status_name (status : Z) : str :=
  if status =? MDLOG_STATUS_WRITE then "write"
  else if status =? MDLOG_STATUS_SETATTRS then "set_attrs"
  else if status =? MDLOG_STATUS_REMOVE then "remove"
  else if status =? MDLOG_STATUS_COMPLETE then "complete"
  else if status =? MDLOG_STATUS_ABORT then "abort" else "unknown".

Record RGWMetadataLogData := LogData { ld_read_version : obj_version; ld_write_version : obj_version; ld_status : Z }.
Definition RGWMetadataLogData_new : RGWMetadataLogData := LogData obj_version_new obj_version_new MDLOG_STATUS_UNKNOWN.

Definition encode_RGWMetadataLogData (x : RGWMetadataLogData) : E :=
  ENCODE 1 1 (enc obj_version_c (ld_read_version x) >>> enc obj_version_c (ld_write_version x) >>> enc u32_c (ld_status x)).
Definition decode_RGWMetadataLogData (x0 : RGWMetadataLogData) : D RGWMetadataLogData :=
  DECODE 1 (λ struct_v,
    r ← dec obj_version_c (ld_read_version x0);
    w ← dec obj_version_c (ld_write_version x0);
    s ← dec u32_c 0;
    mret (LogData r w s)).
Definition wf_RGWMetadataLogData (x : RGWMetadataLogData) : Prop :=
  wf obj_version_c (ld_read_version x) ∧ wf obj_version_c (ld_write_version x) ∧ wf u32_c (ld_status x).
Definition RGWMetadataLogData_c : codec RGWMetadataLogData :=
  Codec encode_RGWMetadataLogData decode_RGWMetadataLogData wf_RGWMetadataLogData.

#[export] Instance RGWMetadataLogData_ok : CodecOk RGWMetadataLogData_c.
Proof. codec_solve encode_RGWMetadataLogData decode_RGWMetadataLogData wf_RGWMetadataLogData. Qed.

(** [obj_version::dump] *)
Definition obj_version_items (v : obj_version) : list item :=
  [Leaf "ver" (Int (s64 (ov_ver v))); Leaf "tag" (String (ov_tag v))].
Definition version_item (name : str) (v : obj_version) : item := Section_ false Plain name (obj_version_items v).

Definition log_data_items (x : RGWMetadataLogData) : list item :=
  [version_item "read_version" (ld_read_version x); version_item "write_version" (ld_write_version x);
   Section_ false Plain "status" [Leaf "status" (String (log_status_name (ld_status x)))]].

Definition META_LOG_OBJ_PREFIX : str := "meta.log.".
(** [char buf[16]; snprintf(buf, sizeof(buf), "%d", id)] *)
Definition get_shard_oid (id : Z) : str := META_LOG_OBJ_PREFIX ++ take 15 (print_int (s32 id)).

Record LogListCtx := Mk_LogListCtx {
  ll_cur_shard : Z; ll_marker : str; ll_from_time : utime_t; ll_end_time : utime_t; ll_cur_oid : str; ll_done : bool
}.
Definition init_list_entries (shard_id : Z) (from_time end_time : utime_t) (marker : str) : LogListCtx :=
  Mk_LogListCtx shard_id marker from_time end_time (get_shard_oid shard_id) false.

(** The result, and [*truncated] as the call leaves it: it is set only when no
    entries are asked for, as the listing itself is compiled out. *)
Definition list_entries (ctx : LogListCtx) (max_entries : Z) (truncated : option bool) : Z * option bool :=
  if max_entries =? 0 then (0, Some false)
  else let ret := 0 in
       if (ret <? 0) && negb (ret =? - ENOENT) then (ret, truncated)
       else (0, if ret =? - ENOENT then Some false else truncated).

(** ** Handlers *)

Inductive sync_type := APPLY_ALWAYS | APPLY_UPDATES | APPLY_NEWER.

Definition string_to_sync_type (s : str) : option sync_type :=
  if decide (s = "update-by-version") then Some APPLY_UPDATES
  else if decide (s = "update-by-timestamp") then Some APPLY_NEWER
  else if decide (s = "always") then Some APPLY_ALWAYS else None.

Definition check_versions (ondisk : obj_version) (ondisk_time : Z) (incoming : obj_version) (incoming_time : Z)
    (sync_mode : sync_type) : bool :=
  match sync_mode with
  | APPLY_UPDATES => negb (negb (bool_decide (ov_tag ondisk = ov_tag incoming)) || (ov_ver ondisk >=? ov_ver incoming))
  | APPLY_NEWER => negb (ondisk_time >=? incoming_time)
  | APPLY_ALWAYS => true
  end.

Record metadata_object := MetadataObject { mo_version : obj_version; mo_mtime : Z; mo_dump : list item }.

Definition ENOTSUP : Z := 95.

Section Manager.
  (** The store, the handles of the handlers' iterators and JSON values. *)
  Context {S I J : Type}.

Record handler := Handler {
  h_type : str;
  h_get : S → str → Z + metadata_object;
  h_put : S → str → RGWObjVersionTracker → Z → J → sync_type → Z * RGWObjVersionTracker * S;
  h_remove : S → str → RGWObjVersionTracker → Z * S;
  h_get_pool_and_oid : S → str → rgw_bucket * str;
  h_list_keys_init : S → Z + I;
  h_list_keys_next : I → Z → Z * list str * bool * I;
}.

Definition get_hash_key (section key : str) : str := section ++ ":" ++ key.

(** [handlers], a map from types to handlers *)
Abbreviation handlers := (list (str * handler)).

Definition register_handler (h : handler) (hs : handlers) : Z * handlers :=
  match mfind (h_type h) hs with
  | Some _ => (- EINVAL, hs)
  | None => (0, mset (h_type h) h hs)
  end.
Definition get_handler (type : str) (hs : handlers) : option handler := mfind type hs.

(** The type and the entry; a key with no colon leaves [entry] as it was. *)
Definition parse_metadata_key (metadata_key entry : str) : str * str :=
  match find_if (char_is ":") metadata_key with
  | None => (metadata_key, entry)
  | Some pos => (substr 0 pos metadata_key, substr_from (pos + 1) metadata_key)
  end.

(** The handler of the top level lists the sections. *)
Inductive which := Top | Registered (h : handler).

Definition find_handler (metadata_key : str) (hs : handlers) : Z + which * str :=
  let '(type, entry) := parse_metadata_key metadata_key [] in
  if decide (type = []) then inr (Top, entry)
  else match mfind type hs with
       | None => inl (- ENOENT)
       | Some h => inr (Registered h, entry)
       end.

Definition which_get (w : which) (s : S) (entry : str) : Z + metadata_object :=
  match w with Top => inl (- ENOTSUP) | Registered h => h_get h s entry end.
Definition which_put (w : which) (s : S) (entry : str) (t : RGWObjVersionTracker) (mtime : Z) (j : J) (sync : sync_type)
    : Z * RGWObjVersionTracker * S :=
  match w with Top => (- ENOTSUP, t, s) | Registered h => h_put h s entry t mtime j sync end.
Definition which_remove (w : which) (s : S) (entry : str) (t : RGWObjVersionTracker) : Z * S :=
  match w with Top => (- ENOTSUP, s) | Registered h => h_remove h s entry t end.

(** [RGWMetadataManager::get]: what it dumps. *)
Definition manager_get (metadata_key : str) (hs : handlers) (s : S) : Z + item :=
  match find_handler metadata_key hs with
  | inl ret => inl ret
  | inr (h, entry) =>
      match which_get h s entry with
      | inl ret => inl ret
      | inr obj =>
          inr (Section_ false Plain "metadata_info"
                 ([Leaf "key" (String metadata_key); version_item "ver" (mo_version obj)] ++
                  (if mo_mtime obj >? 0 then [Leaf "mtime" (Int (mo_mtime obj))] else []) ++
                  [Section_ false Plain "data" (mo_dump obj)]))
      end
  end.

(** The JSON reader: a text that is not JSON, the fields of a document ([None]
    where the reader throws), the member [data]. *)
Context (json_parse : str → option J) (json_ver : J → option obj_version) (json_mtime : J → option Z)
        (json_key : J → option str) (json_data : J → option J).

(** [None] is an exception of the reader.  The result, the version read and the store. *)
Definition manager_put (metadata_key : str) (bl : str) (sync : sync_type) (hs : handlers) (s : S)
    : option (Z * option obj_version * S) :=
  match find_handler metadata_key hs with
  | inl ret => Some (ret, None, s)
  | inr (h, entry) =>
      match json_parse bl with
      | None => Some (- EINVAL, None, s)
      | Some j =>
          _ ← json_key j; ver ← json_ver j; mtime ← json_mtime j;
          match json_data j with
          | None => Some (- EINVAL, None, s)
          | Some jo =>
              let '(ret, t, s) := which_put h s entry (Mk_tracker obj_version_new ver) mtime jo sync in
              Some (ret, Some (vt_read_version t), s)
          end
      end
  end.

Definition manager_remove (metadata_key : str) (hs : handlers) (s : S) : Z * S :=
  match find_handler metadata_key hs with
  | inl ret => (ret, s)
  | inr (h, entry) =>
      match which_get h s entry with
      | inl ret => (ret, s)
      | inr obj => which_remove h s entry (Mk_tracker (mo_version obj) obj_version_new)
      end
  end.

(** ** Listing keys *)

Definition get_sections (hs : handlers) : list str := map fst hs.

(** [list_keys_handle]: the sections not yet listed, or the handler's own. *)
Inductive list_keys_handle := TopHandle (rest : list str) | OwnHandle (h : handler) (data : I).

(** The first [max] sections, whether some are left, and those. *)
Definition top_list_keys_next (rest : list str) (max : Z) : list str * bool * list str :=
  let n := Z.to_nat max in
  (take n rest, negb (bool_decide (drop n rest = [])), drop n rest).

Definition list_keys_init (section : str) (hs : handlers) (s : S) : Z + list_keys_handle :=
  match find_handler section hs with
  | inl _ => inl (- ENOENT)
  | inr (Top, _) => inr (TopHandle (get_sections hs))
  | inr (Registered h, _) =>
      match h_list_keys_init h s with
      | inl ret => inl ret
      | inr data => inr (OwnHandle h data)
      end
  end.

Definition list_keys_next (hd : list_keys_handle) (max : Z) (keys : list str) : Z * list str * bool * list_keys_handle :=
  match hd with
  | TopHandle rest =>
      let '(page, truncated, rest) := top_list_keys_next rest max in (0, keys ++ page, truncated, TopHandle rest)
  | OwnHandle h data =>
      let '(ret, page, truncated, data) := h_list_keys_next h data max in (ret, keys ++ page, truncated, OwnHandle h data)
  end.

(** ** Changes *)

(** The log entry of a change, which [add_entry] drops. *)
Definition add_entry (section key : str) (bl : bytes) : Z :=
  let hash_key := get_hash_key section key in 0.

Definition pre_modify (h : handler) (key : str) (objv_tracker : option RGWObjVersionTracker) (op_type : Z)
    : Z * str * RGWMetadataLogData * option RGWObjVersionTracker :=
  let section := h_type h in
  let objv_tracker := (λ t, if negb (ov_ver (vt_read_version t) =? 0) && (ov_ver (vt_write_version t) =? 0)
                            then Mk_tracker (vt_read_version t) (obj_version_inc (vt_read_version t)) else t) <$> objv_tracker in
  let log_data := match objv_tracker with
                  | Some t => LogData (vt_read_version t) (vt_write_version t) op_type
                  | None => LogData obj_version_new obj_version_new op_type
                  end in
  let ret := add_entry section key (encode_RGWMetadataLogData log_data []) in
  (if ret <? 0 then ret else 0, section, log_data, objv_tracker).

Definition post_modify (section key : str) (log_data : RGWMetadataLogData) (ret : Z) : Z * RGWMetadataLogData :=
  let log_data := LogData (ld_read_version log_data) (ld_write_version log_data)
                    (if ret >=? 0 then MDLOG_STATUS_COMPLETE else MDLOG_STATUS_ABORT) in
  let r := add_entry section key (encode_RGWMetadataLogData log_data []) in
  (if ret <? 0 then ret else if r <? 0 then r else 0, log_data).

(** The store's [put_system_obj] and [create_pool]. *)
Context (put_system_obj : rgw_bucket → str → bytes → bool → option RGWObjVersionTracker → Z → list (str * bytes) → S →
                          Z * option RGWObjVersionTracker * S)
        (create_pool : rgw_bucket → S → Z * S).

(** The pool is created when it is missing, and the write tried again. *)
Definition rgw_put_system_obj (bucket : rgw_bucket) (oid : str) (data : bytes) (exclusive : bool)
    (objv_tracker : option RGWObjVersionTracker) (set_mtime : Z) (pattrs : option (list (str * bytes))) (s : S)
    : Z * option RGWObjVersionTracker * S :=
  let attrs := default [] pattrs in
  let '(ret, t, s) := put_system_obj bucket oid data exclusive objv_tracker set_mtime attrs s in
  if ret =? - ENOENT then
    let '(ret, s) := create_pool bucket s in
    if ret >=? 0 then put_system_obj bucket oid data exclusive t set_mtime attrs s else (ret, t, s)
  else (ret, t, s).

Definition put_entry (h : handler) (key : str) (bl : bytes) (exclusive : bool) (objv_tracker : option RGWObjVersionTracker)
    (mtime : Z) (pattrs : option (list (str * bytes))) (s : S) : Z * option RGWObjVersionTracker * S :=
  let '(ret, section, log_data, objv_tracker) := pre_modify h key objv_tracker MDLOG_STATUS_WRITE in
  if ret <? 0 then (ret, objv_tracker, s)
  else
    let '(bucket, oid) := h_get_pool_and_oid h s key in
    let '(ret, objv_tracker, s) := rgw_put_system_obj bucket oid bl exclusive objv_tracker mtime pattrs s in
    let '(ret, _) := post_modify section key log_data ret in
    (if ret <? 0 then ret else 0, objv_tracker, s).

(** The deletion and the change of attributes are compiled out. *)
Definition change_entry (h : handler) (key : str) (objv_tracker : option RGWObjVersionTracker) (op_type : Z)
    : Z * option RGWObjVersionTracker :=
  let '(ret, section, log_data, objv_tracker) := pre_modify h key objv_tracker op_type in
  if ret <? 0 then (ret, objv_tracker)
  else let '(ret, _) := post_modify section key log_data 0 in (if ret <? 0 then ret else 0, objv_tracker).
Definition remove_entry (h : handler) (key : str) (objv_tracker : option RGWObjVersionTracker) := change_entry h key objv_tracker MDLOG_STATUS_REMOVE.
Definition set_attrs (h : handler) (key : str) (objv_tracker : option RGWObjVersionTracker) := change_entry h key objv_tracker MDLOG_STATUS_SETATTRS.

(** ** Dispatch *)

(** A type that a key can name. *)
Definition type_ok (t : str) : Prop := t ≠ [] ∧ ":"%char ∉ t.

Lemma find_char_absent c t : c ∉ t → find_if (char_is c) t = None.
Proof. apply find_if_not_in. Qed.

Lemma parse_key type entry e : ":"%char ∉ type → parse_metadata_key (type ++ ":" ++ entry) e = (type, entry).
Proof.
  intros Ht. unfold parse_metadata_key. cbn [app].
  assert (find_if (char_is ":") (type ++ ":"%char :: entry) = Some (length type)) as ->.
  { apply find_if_app; [|done]. apply Forall_forall. intros d Hd. unfold char_is. apply bool_decide_eq_false. congruence. }
  unfold substr, substr_from. rewrite drop_0, take_app_length.
  replace (length type + 1)%nat with (length (type ++ [":"%char])) by (rewrite length_app; done).
  change (type ++ ":"%char :: entry) with (type ++ [":"%char] ++ entry). rewrite app_assoc, drop_app_length. done.
Qed.

(** Registering handlers one after the other; the results. *)
Definition register_all (l : list handler) (hs : handlers) : list Z * handlers :=
  fold_left (λ '(rs, hs) h, let '(r, hs) := register_handler h hs in (rs ++ [r], hs)) l ([], hs).

Lemma register_all_spec l : ∀ rs hs,
  NoDup (map h_type l) → (∀ h, h ∈ l → mfind (h_type h) hs = None) →
  let '(rs', hs') := fold_left (λ '(rs, hs) h, let '(r, hs) := register_handler h hs in (rs ++ [r], hs)) l (rs, hs) in
  rs' = rs ++ map (λ _, 0) l ∧ (∀ h, h ∈ l → mfind (h_type h) hs' = Some h) ∧
  (∀ t, t ∉ map h_type l → mfind t hs' = mfind t hs).
Proof.
  induction l as [|h l IH]; intros rs hs Hnd Hn; cbn [fold_left map].
  - rewrite app_nil_r. split; [done|]. split; [|done]. intros h Hh. by apply not_elem_of_nil in Hh.
  - apply NoDup_cons in Hnd as [Hh Hnd]. 
    assert (register_handler h hs = (0, mset (h_type h) h hs)) as ->
      by (unfold register_handler; by rewrite (Hn h) by (apply elem_of_cons; by left)).
    specialize (IH (rs ++ [0]) (mset (h_type h) h hs) Hnd).
    destruct (fold_left _ l _) as [rs' hs'] eqn:E. destruct IH as (H1 & H2 & H3).
    { intros h' Hh'. rewrite mfind_mset_ne; [apply Hn; apply elem_of_cons; by right|]. intros Heq. apply Hh. rewrite Heq.
      apply list_elem_of_In, in_map, list_elem_of_In. done. }
    split; [by rewrite H1, <- app_assoc|]. split.
    + intros h' [->|Hh']%elem_of_cons; [|by apply H2]. rewrite H3 by done. apply mfind_mset_eq.
    + intros t Ht. rewrite not_elem_of_cons in Ht. destruct Ht as [Ht1 Ht2]. rewrite H3 by done. by apply mfind_mset_ne.
Qed.

(** The metadata manager dispatches a key to the handler registered for its
    type, with the rest of the key as entry, for every set of handlers of
    different types, in whatever order they are registered; a key of another
    type is not found, and a second handler of a type is refused. *)
Lemma metadata_dispatch l h entry :
  NoDup (map h_type l) → Forall (λ h, type_ok (h_type h)) l → h ∈ l →
  let '(rs, hs) := register_all l [] in
  rs = map (λ _, 0) l ∧
  find_handler (h_type h ++ ":" ++ entry) hs = inr (Registered h, entry) ∧
  fst (register_handler h hs) = - EINVAL ∧
  (∀ t, type_ok t → t ∉ map h_type l → find_handler (t ++ ":" ++ entry) hs = inl (- ENOENT)).
Proof.
  intros Hnd Hok Hh. pose proof (register_all_spec l [] [] Hnd (λ _ _, eq_refl)) as H. unfold register_all.
  destruct (fold_left _ l _) as [rs hs]. destruct H as (H1 & H2 & H3). split; [done|].
  assert (∀ t, type_ok t → find_handler (t ++ ":" ++ entry) hs = match mfind t hs with None => inl (- ENOENT) | Some h => inr (Registered h, entry) end) as Hf.
  { intros t [Hne Hc]. unfold find_handler. rewrite parse_key by done. by rewrite decide_False. }
  rewrite Forall_forall in Hok. rewrite Hf, (H2 h Hh) by by apply Hok. split; [done|].
  split; [unfold register_handler; by rewrite (H2 h Hh)|]. intros t Ht Hn. by rewrite Hf, H3.
Qed.

(** ** Paging *)

(** Pages of [max] keys until one is not truncated. *)
Fixpoint list_all (fuel : nat) (max : Z) (hd : list_keys_handle) (keys : list str) : option (list str) :=
  match fuel with
  | O => None
  | Datatypes.S fuel =>
      let '(ret, keys, truncated, hd) := list_keys_next hd max keys in
      if ret <? 0 then None else if truncated then list_all fuel max hd keys else Some keys
  end.

Lemma list_all_top max rest : 0 < max → ∀ fuel keys,
  (length rest < fuel)%nat → list_all fuel max (TopHandle rest) keys = Some (keys ++ rest).
Proof.
  intros Hm. induction rest as [rest IH] using (induction_ltof1 _ length). unfold ltof in IH. intros fuel keys Hf.
  destruct fuel as [|fuel]; [lia|]. cbn [list_all list_keys_next top_list_keys_next]. change (0 <? 0) with false. cbn iota.
  case_bool_decide as Hd; cbn [negb].
  - rewrite <- (take_drop (Z.to_nat max) rest) at 2. by rewrite Hd, app_nil_r.
  - assert (length (drop (Z.to_nat max) rest) < length rest)%nat.
    { rewrite length_drop. destruct rest; [by destruct (Z.to_nat max)|]. cbn [length]. lia. }
    rewrite IH by lia. by rewrite <- app_assoc, take_drop.
Qed.

(** Listing the metadata sections page by page ends, for every page size above
    0, after at most one page more than there are sections, and gives every
    registered type once, in the order of the map. *)
Lemma metadata_pages max hs s :
  0 < max →
  ∃ hd, list_keys_init [] hs s = inr hd ∧ list_all (Datatypes.S (length hs)) max hd [] = Some (get_sections hs).
Proof.
  intros Hm. exists (TopHandle (get_sections hs)). split; [done|].
  rewrite list_all_top; [done|done|]. unfold get_sections. rewrite length_map. lia.
Qed.

(** With a page size of 0 it does not. *)
Lemma metadata_pages_zero max hs fuel : max <= 0 → hs ≠ [] → list_all fuel max (TopHandle (get_sections hs)) [] = None.
Proof.
  intros Hm Hs. generalize (@nil str) as keys. induction fuel as [|fuel IH]; intros keys; [done|].
  cbn [list_all list_keys_next top_list_keys_next]. replace (Z.to_nat max) with O by lia. rewrite drop_0.
  rewrite bool_decide_eq_false_2 by (by destruct hs). cbn. apply IH.
Qed.

(** ** Changes *)

(** A metadata entry is written with a version above the one that was read, when
    the caller chose none; the caller gets the store's error or 0, and a
    missing pool is created and the write tried once more. *)
Lemma put_entry_spec h key bl exclusive t mtime pattrs s :
  let t' := if negb (ov_ver (vt_read_version t) =? 0) && (ov_ver (vt_write_version t) =? 0)
            then Mk_tracker (vt_read_version t) (obj_version_inc (vt_read_version t)) else t in
  let '(bucket, oid) := h_get_pool_and_oid h s key in
  let put := put_system_obj bucket oid bl exclusive in
  put_entry h key bl exclusive (Some t) mtime pattrs s =
  match put (Some t') mtime (default [] pattrs) s with
  | (ret, t1, s1) =>
      if ret =? - ENOENT then
        match create_pool bucket s1 with
        | (cr, s2) =>
            if cr <? 0 then (cr, t1, s2)
            else match put t1 mtime (default [] pattrs) s2 with (ret, t2, s3) => (if ret <? 0 then ret else 0, t2, s3) end
        end
      else (if ret <? 0 then ret else 0, t1, s1)
  end.
Proof.
  cbn zeta. destruct (h_get_pool_and_oid h s key) as [bucket oid] eqn:Ep. unfold put_entry, pre_modify.
  cbn [fmap option_fmap option_map add_entry]. change (0 <? 0) with false. cbn iota. rewrite Ep. unfold rgw_put_system_obj.
  set (t' := if _ && _ then _ else t).
  assert (∀ sec ld r, post_modify sec key ld r = (if r <? 0 then r else 0, snd (post_modify sec key ld r))) as Hpost
    by (intros sec ld r; unfold post_modify; cbn; by destruct (r <? 0)).
  assert (∀ r : Z, (if (if r <? 0 then r else 0) <? 0 then (if r <? 0 then r else 0) else 0) = (if r <? 0 then r else 0)) as Hr
    by (intros r; destruct (r <? 0) eqn:E; [by rewrite E|done]).
  destruct (put_system_obj bucket oid bl exclusive (Some t') mtime (default [] pattrs) s) as [[ret t1] s1].
  destruct (ret =? - ENOENT).
  - destruct (create_pool bucket s1) as [cr s2]. destruct (cr >=? 0) eqn:Ec.
    + rewrite (proj2 (Z.ltb_ge cr 0)) by lia.
      destruct (put_system_obj bucket oid bl exclusive t1 mtime (default [] pattrs) s2) as [[r2 t2] s3]. by rewrite Hpost, Hr.
    + rewrite Hpost, Hr. destruct (cr <? 0) eqn:E; [done|lia].
  - by rewrite Hpost, Hr.
Qed.
End Manager.

(** Updates by version go through only with a larger version of the same tag. *)
Lemma check_versions_updates a ta b tb :
  check_versions a ta b tb APPLY_UPDATES = true ↔ ov_tag a = ov_tag b ∧ ov_ver a < ov_ver b.
Proof. unfold check_versions. rewrite negb_true_iff, orb_false_iff, negb_false_iff, bool_decide_eq_true, Z.geb_leb, Z.leb_gt. done. Qed.

(** [list_entries] leaves its [truncated] as the caller had it. *)
Lemma list_entries_truncated ctx max t : max ≠ 0 → list_entries ctx max t = (0, t).
Proof. intros H. unfold list_entries. by rewrite (proj2 (Z.eqb_neq max 0) H). Qed.

(** ** Examples *)

Definition demo_handler (type : str) : handler (S := unit) (I := unit) (J := unit) :=
  Handler type (λ _ _, inl (- ENOENT)) (λ s _ t _ _ _, (0, t, s)) (λ s _ _, (0, s))
    (λ _ key, (rgw_bucket_new, key)) (λ _, inr tt) (λ h _, (0, [], false, h)).

Lemma metadata_dispatch_witness :
  let l := [demo_handler "user"; demo_handler "bucket"] in
  let '(rs, hs) := register_all l [] in
  rs = [0; 0] ∧ find_handler ("bucket" ++ ":" ++ "a:b") hs = inr (Registered (demo_handler "bucket"), "a:b") ∧
  fst (register_handler (demo_handler "bucket") hs) = - EINVAL ∧
  (∀ t, type_ok t → t ∉ map h_type l → find_handler (t ++ ":" ++ "a:b") hs = inl (- ENOENT)).
Proof.
  apply (metadata_dispatch [demo_handler "user"; demo_handler "bucket"] (demo_handler "bucket") "a:b").
  - apply (bool_decide_eq_true (NoDup _)). vm_compute. reflexivity.
  - repeat first [apply Forall_cons_2 | apply Forall_nil_2 | split; [discriminate|]]; apply (bool_decide_eq_true _); vm_compute; reflexivity.
  - apply elem_of_cons. right. apply elem_of_cons. left. reflexivity.
Defined.

Lemma metadata_pages_witness :
  let hs := snd (register_all [demo_handler "user"; demo_handler "bucket"; demo_handler "zone"] []) in
  ∃ hd, list_keys_init [] hs tt = inr hd ∧ list_all 4 2 hd [] = Some ["bucket"; "user"; "zone"].
Proof. exact (metadata_pages 2 (snd (register_all [demo_handler "user"; demo_handler "bucket"; demo_handler "zone"] [])) tt eq_refl). Defined.
