(* ===== verification/Lookup.v ===== *)
(** * Looking up users and buckets ([src/src/rgw/porting_user.cc], [porting_tools.cc],
    [porting_rados.cc], [porting_bucket.cc])

    How the record of a user is made from its configuration file and the record
    of a bucket from its directory.  The system calls, the shell and the extended attributes of files
    are parameters.  The chained caches of users and buckets, which the store
    fills only when it caches system objects, are maps here; [cache_chains] says
    whether the store takes the entries. *)

From S2P Require Import Prelude StdMap Encoding Utime CString Env Strtol Acl RgwObj ObjectCache Records Http Errors SysInfo.

Section Lookup.
  Context (G_buckets_root G_sys_user_bucket_root : str).
  (** The contents of a file; the user id of an account; the status of a shell
      command; [stat]: an error or the owner and the time; the name of a user
      id, an error code where there is none. *)
  Context (read_file : str → option bytes) (getuid : str → Z) (shell_simple : str → Z)
          (stat_dir : str → Z + Z * Z) (getpwuid : Z → Z + str) (cache_chains : bool).

(** ** Users *)

(** [RGWUID] *)
Definition RGWUID_c : codec str := string_c.

(** The record [rgw_get_system_obj] makes from the user's configuration file. *)
Definition user_of_conf (i : sys_info) (auid : Z) : RGWUserInfo :=
  let u := RGWUserInfo_new in
  Mk_RGWUserInfo (u64 auid) (ui_user_id u) (ui_display_name u) (ui_user_email u) (ui_access_keys u) (ui_swift_keys u)
    (ui_subusers u) (ui_suspended u) (si_max_buckets i) (ui_op_mask u) (ui_caps u) (ui_system u)
    (ui_default_placement u) (ui_placement_tags u)
    (Mk_RGWQuotaInfo (si_bucket_max_size_kb i) (si_bucket_max_objects i) (si_bucket_enabled i) (-1) (-1))
    (ui_temp_url_keys u)
    (Mk_RGWQuotaInfo (si_user_max_size_kb i) (si_user_max_objects i) (si_user_enabled i) (-1) (-1)).

Definition user_conf_path (key : str) : str := G_sys_user_bucket_root ++ "/" ++ "." ++ key ++ ".conf".

(** What is appended to the buffer: the uid and the record. *)
Definition rgw_get_system_obj (key : str) : bytes :=
  let info := snd (parse_conf ":"%char get_params (read_file (cstr (user_conf_path key))) sys_info_new) in
  (enc RGWUID_c key >>> encode_RGWUserInfo (user_of_conf info (getuid (cstr key)))) [].

Definition rgw_get_user_info_by_uid (uid : str) (info : RGWUserInfo) : Z * RGWUserInfo :=
  let bl := rgw_get_system_obj uid in
  match dec RGWUID_c [] (It 0 bl) with
  | inl _ => (- EIO, info)
  | inr (user_id, it) =>
      if bool_decide (user_id ≠ uid) then (- EIO, info)
      else if bool_decide (it_rest it = []) then (0, info)
      else match decode_RGWUserInfo info it with
           | inl _ => (- EIO, info)
           | inr (info, _) => (0, info)
           end
  end.

(** [uinfo_cache]: users by access key *)
Abbreviation user_cache := (list (str * RGWUserInfo)).

Definition rgw_get_user_info_from_index (key : str) (info : RGWUserInfo) (cache : user_cache)
    : Z * RGWUserInfo * user_cache :=
  match mfind key cache with
  | Some i => (0, i, cache)
  | None =>
      match dec RGWUID_c [] (It 0 (rgw_get_system_obj key)) with
      | inl _ => (- EIO, info, cache)
      | inr (uid, _) =>
          let '(ret, e) := rgw_get_user_info_by_uid uid RGWUserInfo_new in
          if ret <? 0 then (ret, info, cache)
          else (0, e, if cache_chains then mset key e cache else cache)
      end
  end.

Definition rgw_get_anon_user (i : RGWUserInfo) : RGWUserInfo :=
  Mk_RGWUserInfo (ui_auid i) RGW_USER_ANON_ID [] (ui_user_email i) [] (ui_swift_keys i) (ui_subusers i)
    (ui_suspended i) (ui_max_buckets i) (ui_op_mask i) (ui_caps i) (ui_system i) (ui_default_placement i)
    (ui_placement_tags i) (ui_bucket_quota i) (ui_temp_url_keys i) (ui_user_quota i).
Definition rgw_user_is_authenticated (i : RGWUserInfo) : bool := negb (bool_decide (ui_user_id i = RGW_USER_ANON_ID)).

(** ** Buckets *)

(** [char cmd_buf[256]; sprintf(cmd_buf, "[ -d %s/%s ]", …)]: [None] when it does not fit. *)
Definition dir_command (name : str) : option str :=
  let cmd := "[ -d " ++ cstr G_buckets_root ++ "/" ++ cstr name ++ " ]" in
  if zlen cmd <? 256 then Some cmd else None.

Definition bucket_path (name : str) : str := G_buckets_root ++ "/" ++ name.

(** The result and the entry point; [None] is a buffer that overflows. *)
Definition get_bucket_entrypoint_info (bucket_name : str) (entry_point : RGWBucketEntryPoint)
    : option (Z * RGWBucketEntryPoint) :=
  cmd ← dir_command bucket_name;
  if negb (shell_simple cmd =? 0) then Some (- ENOENT, entry_point)
  else match stat_dir (cstr (bucket_path bucket_name)) with
       | inl errno => Some (- errno, entry_point)
       | inr (uid, mtime) =>
           match getpwuid uid with
           | inl errno => Some (- errno, entry_point)
           | inr owner =>
               let b := ep_bucket entry_point in
               let b := Mk_rgw_bucket bucket_name (bk_data_pool b) (bk_data_extra_pool b) (bk_index_pool b)
                          (bk_marker b) "bucket_id" "oid" in
               let e := Mk_RGWBucketEntryPoint b owner mtime (ep_linked entry_point) (ep_has_bucket_info entry_point)
                          (ep_old_bucket_info entry_point) in
               Some (match decode_RGWBucketEntryPoint e (It 0 (encode_RGWBucketEntryPoint e [])) with
                     | inl _ => (- EIO, e)
                     | inr (e, _) => (0, e)
                     end)
           end
       end.

Definition RGW_BUCKET_INSTANCE_MD_PREFIX : str := ".bucket.meta.".
Definition get_bucket_instance_entry (b : rgw_bucket) : str := bk_name b ++ ":" ++ bk_bucket_id b.
Definition get_bucket_meta_oid (b : rgw_bucket) : str := RGW_BUCKET_INSTANCE_MD_PREFIX ++ get_bucket_instance_entry b.

Definition not_char (d : ascii) (c : ascii) : bool := negb (char_is d c).

(** [sscanf(oid, ".%*[^.].%*[^.].%[^:]:%s", bucket_name, …)]: the name, empty
    when the text does not match; the id is not used. *)
Definition scan_oid (oid : str) : str :=
  let skip (s : str) : option str :=
    match s with
    | "."%char :: s => let '(w, r) := span (not_char ".") s in match w with [] => None | _ => Some r end
    | _ => None
    end in
  match (s ← skip (cstr oid); skip s) with
  | Some ("."%char :: s) => fst (span (not_char ":") s)
  | _ => []
  end.

(** [bucket_name] is a buffer of 256 characters. *)
Definition get_bucket_instance_from_oid (oid : str) (info : RGWBucketInfo) : option (Z * RGWBucketInfo) :=
  let bucket_name := scan_oid oid in
  if negb (zlen bucket_name <? 256) then None
  else
    cmd ← dir_command bucket_name;
    let ret := shell_simple cmd in
    if negb (ret =? 0) then Some (if ret <? 0 then ret else - ret, info)
    else
      let b := bi_bucket info in
      let b := Mk_rgw_bucket bucket_name (bk_data_pool b) (bk_data_extra_pool b) (bk_index_pool b) bucket_name bucket_name oid in
      let info := Mk_RGWBucketInfo b (bi_owner info) (bi_flags info) (bi_region info) (bi_creation_time info)
                    (bi_placement_rule info) (bi_has_instance_obj info) (bi_objv_tracker info) (bi_ep_objv info)
                    (bi_quota info) (bi_num_shards info) (bi_bucket_index_shard_hash_type info) (bi_requester_pays info) in
      Some (match decode_RGWBucketInfo info (It 0 (encode_RGWBucketInfo info [])) with
            | inl _ => (- EIO, info)
            | inr (i, _) =>
                let b := bi_bucket i in
                (0, Mk_RGWBucketInfo (Mk_rgw_bucket (bk_name b) (bk_data_pool b) (bk_data_extra_pool b) (bk_index_pool b)
                                        (bk_marker b) (bk_bucket_id b) oid)
                      (bi_owner i) (bi_flags i) (bi_region i) (bi_creation_time i) (bi_placement_rule i)
                      (bi_has_instance_obj i) (bi_objv_tracker i) (bi_ep_objv i) (bi_quota i) (bi_num_shards i)
                      (bi_bucket_index_shard_hash_type i) (bi_requester_pays i))
            end).

Definition info_set_bucket (b : rgw_bucket) (i : RGWBucketInfo) : RGWBucketInfo :=
  Mk_RGWBucketInfo b (bi_owner i) (bi_flags i) (bi_region i) (bi_creation_time i) (bi_placement_rule i)
    (bi_has_instance_obj i) (bi_objv_tracker i) (bi_ep_objv i) (bi_quota i) (bi_num_shards i)
    (bi_bucket_index_shard_hash_type i) (bi_requester_pays i).
Definition info_set_ep_objv (v : obj_version) (i : RGWBucketInfo) : RGWBucketInfo :=
  Mk_RGWBucketInfo (bi_bucket i) (bi_owner i) (bi_flags i) (bi_region i) (bi_creation_time i) (bi_placement_rule i)
    (bi_has_instance_obj i) (bi_objv_tracker i) v (bi_quota i) (bi_num_shards i)
    (bi_bucket_index_shard_hash_type i) (bi_requester_pays i).
Definition bucket_set_oid (o : str) (b : rgw_bucket) : rgw_bucket :=
  Mk_rgw_bucket (bk_name b) (bk_data_pool b) (bk_data_extra_pool b) (bk_index_pool b) (bk_marker b) (bk_bucket_id b) o.

(** [binfo_cache]: buckets by name, with their attributes *)
Abbreviation bucket_cache := (list (str * (RGWBucketInfo * list (str * bytes)))).

(** The result, the record, the attributes.  The version read stays the one of
    a new tracker; the attributes of the cache's entry are never filled. *)
Definition get_bucket_info (bucket_name : str) (info : RGWBucketInfo) (cache : bucket_cache)
    : option (Z * RGWBucketInfo * list (str * bytes) * bucket_cache) :=
  match mfind bucket_name cache with
  | Some (i, attrs) => Some (0, i, attrs, cache)
  | None =>
      '(ret, entry_point) ← get_bucket_entrypoint_info bucket_name RGWBucketEntryPoint_new;
      if ret <? 0 then Some (ret, info_set_bucket (bucket_set_name bucket_name (bi_bucket info)) info, [], cache)
      else if ep_has_bucket_info entry_point then
        let i := ep_old_bucket_info entry_point in
        Some (0, info_set_ep_objv obj_version_new (info_set_bucket (bucket_set_oid bucket_name (bi_bucket i)) i), [], cache)
      else
        '(ret, i) ← get_bucket_instance_from_oid (get_bucket_meta_oid (ep_bucket entry_point)) RGWBucketInfo_new;
        let i := info_set_ep_objv obj_version_new i in
        if ret <? 0 then Some (ret, info_set_bucket (bucket_set_name bucket_name (bi_bucket i)) i, [], cache)
        else Some (0, i, [], if cache_chains then mset bucket_name (i, []) cache else cache)
  end.

Definition rgw_bucket_parse_bucket_instance (bucket_instance : str) : Z + str * Z :=
  match find_last_if (char_is ":") bucket_instance with
  | None => inl (- EINVAL)
  | Some pos =>
      let first := substr 0 pos bucket_instance in
      let second := substr_from (pos + 1) bucket_instance in
      match find_if (char_is ":") first with
      | None => inr (bucket_instance, -1)
      | Some _ =>
          let '(n, err) := strict_strtol second 10 in
          if bool_decide (err = []) then inr (first, n) else inl (- EINVAL)
      end
  end.
End Lookup.
