(* ===== verification/LookupFacts.v ===== *)
(** * What the look-ups find

    A user's record is the one its configuration file describes, whichever way
    it is looked up; a bucket's record is made from its name alone. *)

From S2P Require Import Prelude StdMap Encoding Utime CString Env Strtol Acl RgwObj ObjectCache Records Http Errors SysInfo Armor AuthS3 Lookup.

(** ** Configuration files *)

Section conf.
Context {S : Type} (delim : ascii) (cb : S → str → str → S) (P : S → Prop).
Hypothesis Hcb : ∀ st name val, P st → P (cb st name val).

Lemma conf_loop_invariant fuel rest var_name st : P st → P (snd (conf_loop delim cb fuel rest var_name st)).
Proof.
  revert rest var_name st. induction fuel as [|fuel IH]; intros rest var_name st Hst; [done|].
  cbn [conf_loop]. destruct (span not_nl rest) as [[|b buf] rest1]; [done|].
  case_bool_decide; [destruct rest1; [done|by apply IH]|].
  destruct (scan_line _ _) as [[name value]|]; [|done]. by apply IH, Hcb.
Qed.
Lemma parse_conf_invariant file st : P st → P (snd (parse_conf delim cb file st)).
Proof. intros. destruct file; [by apply conf_loop_invariant|done]. Qed.
End conf.

(** What the fields of a configuration can hold. *)
Definition conf_ok (i : sys_info) : Prop :=
  0 <= si_max_buckets i < 2 ^ 32 ∧
  - 2 ^ 31 <= si_bucket_max_size_kb i < 2 ^ 31 ∧ - 2 ^ 31 <= si_bucket_max_objects i < 2 ^ 31 ∧
  - 2 ^ 31 <= si_user_max_size_kb i < 2 ^ 31 ∧ - 2 ^ 31 <= si_user_max_objects i < 2 ^ 31.

Lemma s32_in_range z : - 2 ^ 31 <= s32 z < 2 ^ 31.
Proof. unfold s32, sgn. destruct (Z.ltb_spec (z mod 2 ^ 32) (2 ^ (32 - 1))); dlia. Qed.
Lemma u32_in_range z : 0 <= u32 z < 2 ^ 32.
Proof. unfold u32. apply Z.mod_pos_bound. lia. Qed.

Lemma get_params_ok i name val : conf_ok i → conf_ok (get_params i name val).
Proof.
  intros (? & ? & ? & ? & ?). unfold conf_ok, get_params.
  cbn [si_max_buckets si_bucket_max_size_kb si_bucket_max_objects si_user_max_size_kb si_user_max_objects].
  pose proof (s32_in_range (strtol10 val)). pose proof (u32_in_range (atoi val)).
  repeat split; case_match; unfold atoi in *; lia.
Qed.

(** ** Users *)

Lemma u64_wf z : wf u64_c (u64 z).
Proof. change (0 <= z mod 2 ^ 64 < 2 ^ 64). apply Z.mod_pos_bound. lia. Qed.
Lemma u32_wf z : 0 <= z < 2 ^ 32 → wf u32_c z.
Proof. done. Qed.
Lemma quota_wf a b e : - 2 ^ 31 <= a < 2 ^ 31 → - 2 ^ 31 <= b < 2 ^ 31 →
  wf RGWQuotaInfo_c (Mk_RGWQuotaInfo a b e (-1) (-1)).
Proof. intros. split; [change (- 2 ^ 63 <= a < 2 ^ 63); lia|]. split; [change (- 2 ^ 63 <= b < 2 ^ 63); lia|done]. Qed.

Section users.
Context (G_sys_user_bucket_root : str) (read_file : str → option bytes) (getuid : str → Z).

(** The user the configuration file of [uid] describes. *)
Definition conf_user (uid : str) : RGWUserInfo :=
  user_of_conf (snd (parse_conf ":"%char get_params (read_file (cstr (user_conf_path G_sys_user_bucket_root uid)))
                       sys_info_new)) (getuid (cstr uid)).

#[local] Abbreviation system_obj := (rgw_get_system_obj G_sys_user_bucket_root read_file getuid).
#[local] Abbreviation by_uid := (rgw_get_user_info_by_uid G_sys_user_bucket_root read_file getuid).

Lemma conf_user_wf uid : wf_RGWUserInfo (conf_user uid).
Proof.
  unfold conf_user.
  assert (Hc : conf_ok sys_info_new) by (unfold conf_ok; cbn; lia).
  apply (parse_conf_invariant ":"%char get_params conf_ok get_params_ok
           (read_file (cstr (user_conf_path G_sys_user_bucket_root uid)))) in Hc.
  destruct Hc as (? & ? & ? & ? & ?). set (i := snd _) in *. clearbody i.
  unfold wf_RGWUserInfo, user_of_conf.
  cbn [ui_auid ui_user_id ui_display_name ui_user_email ui_access_keys ui_swift_keys ui_subusers ui_suspended
       ui_max_buckets ui_op_mask ui_caps ui_system ui_default_placement ui_placement_tags ui_bucket_quota
       ui_temp_url_keys ui_user_quota].
  split; [apply u64_wf|]. repeat match goal with |- _ ∧ _ => split end;
    first [by apply u32_wf | by apply quota_wf | wf_closed].
Qed.

Lemma system_obj_bytes uid : system_obj uid = enc string_c uid [] ++ encode_RGWUserInfo (conf_user uid) [].
Proof.
  unfold rgw_get_system_obj, eseq. fold (conf_user uid).
  apply (into_appends (c := RGWUserInfo_c) (conf_user uid)).
Qed.
Lemma encode_user_nonempty i : encode_RGWUserInfo i [] ≠ [].
Proof. unfold encode_RGWUserInfo. rewrite ENCODE_block by appends_solve. done. Qed.

Lemma conf_user_size uid : zlen (encode_RGWUserInfo (conf_user uid) []) = 132.
Proof.
  unfold conf_user. set (i := snd _). set (a := getuid _). clearbody i a. destruct i.
  vm_compute. reflexivity.
Qed.
Lemma encode_string_size s : zlen s < 2 ^ 32 → zlen (enc string_c s []) = 4 + zlen s.
Proof.
  intros Hs. pose proof (zlen_nonneg s). cbn [enc string_c]. unfold encode_string. cbv zeta.
  assert (u32 (zlen s) = zlen s) as -> by (unfold u32; rewrite Z.mod_small; lia).
  destruct (Z.eqb_spec (zlen s) 0) as [E|E].
  - rewrite E. reflexivity.
  - rewrite zlen_app. assert (take (Z.to_nat (zlen s)) s = s) as -> by (unfold zlen; by rewrite Nat2Z.id, firstn_all). reflexivity.
Qed.
Lemma system_obj_size uid : zlen uid < 2 ^ 32 - 200 → zlen (system_obj uid) < 2 ^ 32.
Proof. intros. rewrite system_obj_bytes, zlen_app, conf_user_size, encode_string_size; lia. Qed.

Lemma system_obj_uid uid :
  zlen uid < 2 ^ 32 - 200 →
  dec RGWUID_c [] (It 0 (system_obj uid)) =
    inr (uid, It (zlen (enc string_c uid [])) (encode_RGWUserInfo (conf_user uid) [])).
Proof.
  intros Hu. pose proof (system_obj_size uid Hu) as Hlen. rewrite system_obj_bytes in *. rewrite zlen_app in Hlen.
  assert (Hw : wf string_c uid) by (cbn [wf string_c]; lia).
  exact (dec_reads uid [] Hw 0 _ (Z.le_refl 0) Hlen).
Qed.

Lemma user_reads uid info0 :
  reads (decode_RGWUserInfo info0) (encode_RGWUserInfo (conf_user uid) []) (user_into (conf_user uid) info0).
Proof. exact (into_reads (c := RGWUserInfo_c) _ _ (conf_user_wf uid)). Qed.

(** What is read back: everything but the soft thresholds of the quotas, which
    the record keeps. *)
Lemma by_uid_spec uid info0 :
  zlen uid < 2 ^ 32 - 200 → by_uid uid info0 = (0, user_into (conf_user uid) info0).
Proof.
  intros Hlen. unfold rgw_get_user_info_by_uid. rewrite system_obj_uid by done.
  rewrite (bool_decide_false (uid ≠ uid)) by naive_solver. cbn [it_rest].
  rewrite bool_decide_false by apply encode_user_nonempty.
  pose proof (system_obj_size uid Hlen) as Hs. rewrite system_obj_bytes, zlen_app in Hs.
  pose proof (user_reads uid info0 _ [] (zlen_nonneg (enc string_c uid []))) as Hd.
  rewrite app_nil_r in Hd. rewrite Hd; [reflexivity|]. rewrite Z.add_0_r. exact Hs.
Qed.

Lemma from_index_spec chains key info cache :
  zlen key < 2 ^ 32 - 200 →
  rgw_get_user_info_from_index G_sys_user_bucket_root read_file getuid chains key info cache =
    match mfind key cache with
    | Some i => (0, i, cache)
    | None => (0, conf_user key, if chains then mset key (conf_user key) cache else cache)
    end.
Proof.
  intros Hlen. unfold rgw_get_user_info_from_index. destruct (mfind key cache); [done|].
  rewrite system_obj_uid, by_uid_spec by done. done.
Qed.
End users.

(** A configuration file of lines [name:number], and the last number it gives a
    name, 0 where it gives none. *)
Definition conf_text (l : list (str * Z)) : bytes := concat (map (λ p, p.1 ++ ":" ++ print_int p.2 ++ [NL]) l).
Definition setting (name : str) (l : list (str * Z)) : Z :=
  fold_left (λ v p, if bool_decide (p.1 = name) then p.2 else v) l 0.
Definition settings_ok (l : list (str * Z)) : Prop := Forall (λ p, plain_name p.1 ∧ - 2 ^ 31 <= p.2 < 2 ^ 31) l.

Lemma conf_loop_text (l : list (str * Z)) : ∀ fuel var st,
  settings_ok l → (length l <= fuel)%nat →
  conf_loop ":"%char get_params fuel (conf_text l) var st
  = (0, fold_left (λ i p, get_params i p.1 (print_int p.2)) l st).
Proof.
  induction l as [|[n z] l IH]; intros fuel var st Hok Hf; [by destruct fuel|].
  apply Forall_cons in Hok as [[Hn Hz] Hok]. destruct fuel as [|fuel]; [cbn in Hf; lia|]. cbn [fst snd] in *.
  assert (conf_text ((n, z) :: l) = n ++ ":" ++ print_int z ++ [NL] ++ conf_text l) as ->
    by (unfold conf_text; cbn [map concat fst snd]; by rewrite <- !app_assoc).
  rewrite (conf_loop_line _ _ n); [apply IH; [done|cbn in Hf; lia]|done|].
  destruct l as [|[n' z'] l]; [done|]. apply Forall_cons in Hok as [[[Hne Hp] _] _]. cbn in *.
  destruct n' as [|c n']; [done|]. apply andb_true_iff in Hp as [Hc _]. by apply plain_char in Hc as (_ & _ & _ & ? & _).
Qed.

Lemma conf_text_length l : (length l <= length (conf_text l))%nat.
Proof. induction l as [|[n z] l IH]; [done|]. unfold conf_text in *. cbn [map concat]. rewrite !length_app. cbn in *. lia. Qed.

Lemma atoi_print z : - 2 ^ 31 <= z < 2 ^ 31 → atoi (print_int z) = z.
Proof.
  intros Hz. change (atoi (print_int z)) with (s32 (atoll (print_int z))).
  rewrite (proj2 (decimal_digits_back z ltac:(unfold LLONG_MIN, LLONG_MAX; lia))). unfold s32. by rewrite sgn_small by lia.
Qed.

(** The record a file of settings is read into. *)
Lemma parse_settings file l :
  settings_ok l → (file = Some (conf_text l) ∨ file = None ∧ l = []) →
  let i := snd (parse_conf ":"%char get_params file sys_info_new) in
  si_max_buckets i = u32 (setting "max_buckets" l)
  ∧ si_bucket_max_size_kb i = setting "bucket_max_size_kb" l ∧ si_bucket_max_objects i = setting "bucket_max_objects" l
  ∧ si_bucket_enabled i = (setting "bucket_enabled" l =? 1)
  ∧ si_user_max_size_kb i = setting "user_max_size_kb" l ∧ si_user_max_objects i = setting "user_max_objects" l
  ∧ si_user_enabled i = (setting "user_enabled" l =? 1).
Proof.
  intros Hok Hfile i.
  assert (i = fold_left (λ i p, get_params i p.1 (print_int p.2)) l sys_info_new) as ->.
  { unfold i. destruct Hfile as [->|[-> ->]]; [|done]. unfold parse_conf.
    rewrite conf_loop_text; [done|done|apply conf_text_length]. }
  clear Hfile. induction l as [|[n z] l IH] using rev_ind; [by split_and!|].
  apply Forall_app in Hok as [Hok [[_ Hz] _]%Forall_cons]. specialize (IH Hok). unfold setting in *.
  rewrite !fold_left_app. cbn [fold_left fst snd] in *. set (i := fold_left _ l sys_info_new) in *. clearbody i.
  unfold get_params, streq. cbn -[bool_decide]. rewrite !atoi_print by done.
  destruct IH as (-> & -> & -> & -> & -> & -> & ->). split_and!; by case_bool_decide.
Qed.

(** C30: Logging in with an access key.  A key that names no account of the
    system is refused; the empty key stands for the account of the
    configuration.  For an account whose user is in the cache the cached record
    is taken, and for any other the record is made from the file [.<key>.conf]
    (one line [name:number] for each setting, the last one counting; nothing is
    set where there is no file): the account's uid, the number of buckets, and
    the two quotas, each with its own sizes, numbers and switch.  In both cases
    the id and the name of the user are the key. *)
Theorem access_key_lookup root read_file getpwnam G_user_name chains cache key info conf :
  zlen key < 2 ^ 32 - 200 → settings_ok conf →
  (let file := read_file (cstr (root ++ "/" ++ "." ++ key ++ ".conf")) in
   file = Some (conf_text conf) ∨ file = None ∧ conf = []) →
  let uid k := match getpwnam k with None => -1 | Some uid => s32 uid end in
  let account := if bool_decide (cstr key = []) then G_user_name else cstr key in
  let from_index k i := fst (rgw_get_user_info_from_index root read_file (getuid getpwnam G_user_name) chains k i cache) in
  rgw_get_user_info_by_access_key getpwnam from_index G_user_name key info =
    if uid account <? 0 then (-1, info)
    else match mfind key cache with
         | Some i => (0, ui_set_names key i)
         | None =>
             let d := RGWUserInfo_new in
             (0, Mk_RGWUserInfo (u64 (uid account)) key key (ui_user_email d) (ui_access_keys d) (ui_swift_keys d)
                   (ui_subusers d) (ui_suspended d) (u32 (setting "max_buckets" conf)) (ui_op_mask d) (ui_caps d) (ui_system d)
                   (ui_default_placement d) (ui_placement_tags d)
                   (Mk_RGWQuotaInfo (setting "bucket_max_size_kb" conf) (setting "bucket_max_objects" conf)
                      (setting "bucket_enabled" conf =? 1) (-1) (-1))
                   (ui_temp_url_keys d)
                   (Mk_RGWQuotaInfo (setting "user_max_size_kb" conf) (setting "user_max_objects" conf)
                      (setting "user_enabled" conf =? 1) (-1) (-1)))
         end.
Proof.
  intros Hk Hok Hfile uid account from_index. unfold rgw_get_user_info_by_access_key.
  change (getuid getpwnam G_user_name (cstr key)) with (uid account).
  destruct (uid account <? 0); [done|]. unfold from_index at 1. rewrite from_index_spec by done.
  destruct (mfind key cache); [done|]. cbn [fst]. unfold conf_user, user_of_conf.
  pose proof (parse_settings _ conf Hok Hfile) as (E1 & E2 & E3 & E4 & E5 & E6 & E7).
  change (root ++ "/" ++ "." ++ key ++ ".conf") with (user_conf_path root key) in *.
  rewrite E1, E2, E3, E4, E5, E6, E7. done.
Qed.

Lemma access_key_lookup_witness :
  let conf : list (str * Z) := [("max_buckets" : str, 5); ("user_enabled" : str, 1); ("user_max_objects" : str, 9)] in
  let read_file (p : str) := if bool_decide (p = "/etc/rgw/.joe.conf") then Some (conf_text conf) else None in
  let getpwnam (n : str) := if bool_decide (n = "joe") then Some 1000 else None in
  let from_index k i := fst (rgw_get_user_info_from_index "/etc/rgw" read_file (getuid getpwnam "") false k i []) in
  let u := snd (rgw_get_user_info_by_access_key getpwnam from_index "" "joe" RGWUserInfo_new) in
  ui_auid u = 1000 ∧ ui_user_id u = "joe" ∧ ui_max_buckets u = 5 ∧
  ui_user_quota u = Mk_RGWQuotaInfo 0 9 true (-1) (-1) ∧
  rgw_get_user_info_by_access_key getpwnam from_index "" "eve" RGWUserInfo_new = (-1, RGWUserInfo_new).
Proof.
  intros conf read_file getpwnam from_index u.
  assert (Hu : settings_ok conf) by (repeat constructor; cbn; lia || done).
  pose proof (access_key_lookup "/etc/rgw" read_file getpwnam "" false [] "joe" RGWUserInfo_new conf
                ltac:(vm_compute; reflexivity) Hu ltac:(left; vm_compute; reflexivity)) as Hj.
  pose proof (access_key_lookup "/etc/rgw" read_file getpwnam "" false [] "eve" RGWUserInfo_new []
                ltac:(vm_compute; reflexivity) (Forall_nil_2 _) ltac:(right; split; vm_compute; reflexivity)) as He.
  cbv zeta in Hj, He. unfold u, from_index. rewrite Hj, He. vm_compute. repeat split.
Defined.

(** ** Buckets *)

Lemma eseq_size (e1 e2 : E) : appends e2 → zlen ((e1 >>> e2) []) = zlen (e1 []) + zlen (e2 []).
Proof. intros H2. unfold eseq. by rewrite (appends_eq e2 (e1 [])), zlen_app. Qed.
Lemma ENCODE_size v compat (e : E) : appends e → zlen (ENCODE v compat e []) = 6 + zlen (e []).
Proof.
  intros He. rewrite ENCODE_block by done. unfold block. rewrite !zlen_app, !zlen_le_bytes. lia.
Qed.

Lemma rgw_bucket_size b :
  wf_rgw_bucket b →
  zlen (encode_rgw_bucket b []) =
    30 + zlen (bk_name b) + zlen (bk_data_pool b) + zlen (bk_marker b) + zlen (bk_bucket_id b)
    + zlen (bk_index_pool b) + zlen (bk_data_extra_pool b).
Proof.
  intros (H1 & H2 & H3 & H4 & H5 & H6). unfold encode_rgw_bucket.
  rewrite ENCODE_size by appends_solve. rewrite !eseq_size by appends_solve.
  rewrite !encode_string_size by done. lia.
Qed.

(** The record of a bucket of which only the name is known. *)
Definition named_bucket_info (b : rgw_bucket) : RGWBucketInfo := info_set_bucket b RGWBucketInfo_new.

Lemma named_info_wf b : wf_rgw_bucket b → wf_RGWBucketInfo (named_bucket_info b).
Proof. intros Hb. split; [exact Hb|]. repeat match goal with |- _ ∧ _ => split end; wf_closed. Qed.

Lemma named_info_reads b :
  wf_rgw_bucket b →
  reads (decode_RGWBucketInfo (named_bucket_info b)) (encode_RGWBucketInfo (named_bucket_info b) []) (named_bucket_info b).
Proof.
  intros Hb. eapply reads_eq; [|exact (into_reads (c := RGWBucketInfo_c) _ _ (named_info_wf b Hb))]. by destruct b.
Qed.

Lemma named_info_size b :
  wf_rgw_bucket b → zlen (encode_RGWBucketInfo (named_bucket_info b) []) <= 100 + zlen (encode_rgw_bucket b []).
Proof.
  intros Hb. unfold encode_RGWBucketInfo. rewrite ENCODE_size by appends_solve.
  rewrite eseq_size by appends_solve. set (rest := eseq (enc string_c (bi_owner _)) _).
  change (enc rgw_bucket_c (bi_bucket (named_bucket_info b)) []) with (encode_rgw_bucket b []).
  assert (zlen (rest []) <= 90) by (vm_compute; discriminate). lia.
Qed.

(** A name the look-up can tell from the rest of the bucket's object name. *)
Definition plain_name (name : str) : Prop := name ≠ [] ∧ (NUL ∉ name) ∧ (COLON ∉ name).
Definition bucket_oid (name : str) : str := ".bucket.meta." ++ name ++ ":bucket_id".

Lemma scan_oid_plain name : plain_name name → scan_oid (bucket_oid name) = name.
Proof.
  intros (Hne & Hnul & Hcolon). unfold scan_oid, bucket_oid.
  rewrite cstr_no_nul.
  2: { rewrite !not_elem_of_app. split; [|split; [done|]]; by apply (bool_decide_unpack _). }
  assert (Hspan : span (not_char ":") (name ++ ":bucket_id") = (name, ":bucket_id")).
  { apply span_all; [|done]. apply forallb_forall. intros c Hc. unfold not_char, char_is.
    apply negb_true_iff, bool_decide_eq_false. intros ->. apply Hcolon. by apply list_elem_of_In. }
  revert Hspan. generalize (name ++ ":bucket_id"). intros r Hspan.
  change (fst (span (not_char ":") r) = name). by rewrite Hspan.
Qed.

Section buckets.
Context (root : str) (shell_simple : str → Z) (stat_dir : str → Z + Z * Z) (getpwuid : Z → Z + str) (chains : bool).
(** A failing [stat] sets [errno], and so does a failing [getpwuid] here; the
    names of accounts and the times of files are of moderate size. *)
Hypothesis Hstat : ∀ p, match stat_dir p with inl e => 0 < e | inr (_, t) => - 2 ^ 63 <= t < 2 ^ 63 end.
Hypothesis Hpw : ∀ u, match getpwuid u with inl e => 0 < e | inr o => zlen o < 2 ^ 31 end.

#[local] Abbreviation entry_info := (get_bucket_entrypoint_info root shell_simple stat_dir getpwuid).
#[local] Abbreviation instance_info := (get_bucket_instance_from_oid root shell_simple).
#[local] Abbreviation bucket_info := (get_bucket_info root shell_simple stat_dir getpwuid chains).

(** Whether the directory of the bucket is there, and its owner. *)
Definition bucket_dir (cmd name : str) : Z + str * Z :=
  if negb (shell_simple cmd =? 0) then inl ENOENT
  else match stat_dir (cstr (bucket_path root name)) with
       | inl e => inl e
       | inr (uid, mtime) => match getpwuid uid with inl e => inl e | inr o => inr (o, mtime) end
       end.

(** The record the look-up makes. *)
Definition found_bucket (name : str) : RGWBucketInfo :=
  named_bucket_info (Mk_rgw_bucket name [] [] [] name name (bucket_oid name)).

Lemma command_name name cmd : dir_command root name = Some cmd → zlen (cstr name) < 256.
Proof.
  unfold dir_command. case_match eqn:E; [|done]. intros _. apply Z.ltb_lt in E.
  rewrite !zlen_app in E. pose proof (zlen_nonneg (cstr root)). pose proof (zlen_nonneg (" ]" : str)).
  change (zlen ("[ -d " : str)) with 5 in E. change (zlen ("/" : str)) with 1 in E. lia.
Qed.

Lemma instance_found name cmd :
  plain_name name → dir_command root name = Some cmd → shell_simple cmd = 0 →
  instance_info (bucket_oid name) RGWBucketInfo_new = Some (0, found_bucket name).
Proof.
  intros Hn Hcmd Hs. pose proof (command_name _ _ Hcmd) as Hlen.
  rewrite cstr_no_nul in Hlen by apply Hn. pose proof (zlen_nonneg name).
  unfold get_bucket_instance_from_oid. rewrite scan_oid_plain by done.
  rewrite (proj2 (Z.ltb_lt _ _) Hlen). cbn [negb]. rewrite Hcmd. cbn [mbind option_bind]. rewrite Hs. cbn [Z.eqb negb].
  set (b := Mk_rgw_bucket _ _ _ _ _ _ _).
  change (Mk_RGWBucketInfo b _ _ _ _ _ _ _ _ _ _ _ _) with (named_bucket_info b).
  assert (Hb : wf_rgw_bucket b).
  { subst b. repeat split; cbn [wf string_c bk_name bk_data_pool bk_marker bk_bucket_id bk_index_pool bk_data_extra_pool
      bi_bucket RGWBucketInfo_new rgw_bucket_new]; first [lia|done]. }
  rewrite (reads_whole _ _ _ (named_info_reads b Hb)).
  - reflexivity.
  - eapply Z.le_lt_trans; [exact (named_info_size b Hb)|]. rewrite rgw_bucket_size by done. subst b.
    cbn [bk_name bk_data_pool bk_marker bk_bucket_id bk_index_pool bk_data_extra_pool
      bi_bucket RGWBucketInfo_new rgw_bucket_new]. change (zlen (@nil ascii)) with 0. lia.
Qed.

(** The entry point of a directory: its name, and a name for its object that
    holds the name again. *)
Lemma entry_found name cmd owner mtime :
  plain_name name → dir_command root name = Some cmd → bucket_dir cmd name = inr (owner, mtime) →
  ∃ e, entry_info name RGWBucketEntryPoint_new = Some (0, e) ∧ ep_has_bucket_info e = false ∧
       ep_owner e = owner ∧ ep_creation_time e = mtime ∧ get_bucket_meta_oid (ep_bucket e) = bucket_oid name.
Proof.
  intros Hn Hcmd Hd. pose proof (command_name _ _ Hcmd) as Hlen.
  rewrite cstr_no_nul in Hlen by apply Hn. pose proof (zlen_nonneg name).
  unfold get_bucket_entrypoint_info, bucket_dir in *. rewrite Hcmd. cbn [mbind option_bind].
  destruct (negb (shell_simple cmd =? 0)); [done|].
  pose proof (Hstat (cstr (bucket_path root name))) as Ht. destruct (stat_dir _) as [|[uid t]]; [done|].
  pose proof (Hpw uid) as Ho. destruct (getpwuid uid) as [|o]; [done|]. injection Hd as -> ->.
  set (b := Mk_rgw_bucket _ _ _ _ _ _ _). set (e := Mk_RGWBucketEntryPoint _ _ _ _ _ _).
  assert (Hb : wf_rgw_bucket b) by (subst b; repeat split; cbn [wf string_c bk_name bk_data_pool bk_marker bk_bucket_id
    bk_index_pool bk_data_extra_pool ep_bucket RGWBucketEntryPoint_new rgw_bucket_new]; first [lia|done]).
  assert (He : wf_RGWBucketEntryPoint e).
  { split; [exact Hb|]. split; [cbn [wf string_c]; subst e; cbn [ep_owner]; lia|]. split; [done|exact Ht]. }
  rewrite (reads_whole _ _ _ (entry_reads e e He)).
  - eexists. split; [reflexivity|]. done.
  - unfold encode_RGWBucketEntryPoint. rewrite ENCODE_size by appends_solve. rewrite !eseq_size by appends_solve.
    change (enc rgw_bucket_c (ep_bucket e) []) with (encode_rgw_bucket b []). rewrite rgw_bucket_size by done.
    rewrite encode_string_size by apply He. subst e b.
    cbn [bk_name bk_data_pool bk_marker bk_bucket_id bk_index_pool bk_data_extra_pool ep_owner ep_linked ep_creation_time
      ep_bucket RGWBucketEntryPoint_new rgw_bucket_new].
    change (zlen (@nil ascii)) with 0. change (zlen ("bucket_id" : str)) with 9.
    change (zlen (enc bool_c false [])) with 1. change (zlen (enc u64_c (u64 mtime) [])) with 8. lia.
Qed.

Lemma entry_missing name cmd err :
  dir_command root name = Some cmd → bucket_dir cmd name = inl err →
  entry_info name RGWBucketEntryPoint_new = Some (- err, RGWBucketEntryPoint_new) ∧ 0 < err.
Proof.
  intros Hcmd Hd. unfold get_bucket_entrypoint_info, bucket_dir in *. rewrite Hcmd. cbn [mbind option_bind].
  destruct (negb (shell_simple cmd =? 0)); [injection Hd as <-; split; [done|by vm_compute]|].
  pose proof (Hstat (cstr (bucket_path root name))) as Ht. destruct (stat_dir _) as [e|[uid t]]; [by injection Hd as <-|].
  pose proof (Hpw uid) as Ho. destruct (getpwuid uid) as [e|o]; [by injection Hd as <-|done].
Qed.

Lemma bucket_missing name cmd err info :
  dir_command root name = Some cmd → bucket_dir cmd name = inl err →
  bucket_info name info [] = Some (- err, info_set_bucket (bucket_set_name name (bi_bucket info)) info, [], []).
Proof.
  intros Hcmd Hd. unfold get_bucket_info. cbn [mfind].
  destruct (entry_missing _ _ _ Hcmd Hd) as [-> Herr]. cbn [mbind option_bind].
  by rewrite (proj2 (Z.ltb_lt (- err) 0)) by lia.
Qed.
Lemma bucket_found name cmd owner mtime info :
  plain_name name → dir_command root name = Some cmd → bucket_dir cmd name = inr (owner, mtime) →
  bucket_info name info [] =
    Some (0, found_bucket name, [], if chains then [(name, (found_bucket name, []))] else []).
Proof.
  intros Hn Hcmd Hd. unfold get_bucket_info. cbn [mfind].
  destruct (entry_found _ _ _ _ Hn Hcmd Hd) as (e & -> & Hi & _ & _ & Ho). cbn [mbind option_bind].
  cbn [Z.ltb Z.compare]. rewrite Hi, Ho.
  rewrite (instance_found name cmd); [by cbn|done|done|].
  unfold bucket_dir in Hd. by destruct (Z.eqb_spec (shell_simple cmd) 0).
Qed.

(** Looking up a bucket succeeds exactly when its directory is there and has
    an owner with an account; the error is otherwise the one met.  The record
    found is made from the name alone: name, marker and id are the name, the
    object of the record is [.bucket.meta.<name>:bucket_id], and the owner and
    the attributes stay empty, whoever owns the directory. *)
Lemma bucket_lookup_spec name cmd info :
  plain_name name → dir_command root name = Some cmd →
  bucket_info name info [] =
    Some (match bucket_dir cmd name with
          | inl err => (- err, info_set_bucket (bucket_set_name name (bi_bucket info)) info, [], [])
          | inr _ => (0, found_bucket name, [], if chains then [(name, (found_bucket name, []))] else [])
          end).
Proof.
  intros Hn Hcmd. destruct (bucket_dir cmd name) as [err|[owner mtime]] eqn:Hd.
  - by apply (bucket_missing name cmd).
  - by apply (bucket_found name cmd owner mtime).
Qed.
End buckets.

Lemma bucket_lookup_spec_witness :
  let shell (c : str) := if bool_decide (c = "[ -d /srv/photos ]") then 0 else 256 in
  let stat (p : str) := inr (1000, 1450000000) : Z + Z * Z in
  let getpwuid (u : Z) := inr ("joe" : str) : Z + str in
  let look (n : str) := get_bucket_info "/srv" shell stat getpwuid true n RGWBucketInfo_new [] in
  look "photos" = Some (0, found_bucket "photos", [], [("photos" : str, (found_bucket "photos", []))]) ∧
  bi_owner (found_bucket "photos") = [] ∧
  look "videos" = Some (- ENOENT, info_set_bucket (bucket_set_name "videos" rgw_bucket_new) RGWBucketInfo_new, [], []).
Proof.
  intros shell stat getpwuid look. subst look.
  assert (Hs : ∀ p, match stat p with inl e => 0 < e | inr (_, t) => - 2 ^ 63 <= t < 2 ^ 63 end) by (intros; cbn; lia).
  assert (Hp : ∀ u, match getpwuid u with inl e => 0 < e | inr o => zlen o < 2 ^ 31 end) by (intros; by vm_compute).
  split; [|split; [reflexivity|]].
  - refine (bucket_lookup_spec "/srv" shell stat getpwuid true Hs Hp "photos" "[ -d /srv/photos ]" RGWBucketInfo_new _ _);
      [by apply (bool_decide_unpack _)|reflexivity].
  - refine (bucket_lookup_spec "/srv" shell stat getpwuid true Hs Hp "videos" "[ -d /srv/videos ]" RGWBucketInfo_new _ _);
      [by apply (bool_decide_unpack _)|reflexivity].
Defined.

(** When the account of a directory's owner is not found, [getpwuid] may leave
    [errno] at zero: the look-up then succeeds with a bucket without a name, the
    one of the directory that holds all buckets. *)
Example bucket_lookup_no_account :
  let shell (c : str) := 0 in
  let stat (p : str) := inr (4711, 1450000000) : Z + Z * Z in
  let getpwuid (u : Z) := inl 0 : Z + str in
  option_map (λ r, let '(ret, i, _, _) := r in (ret, bk_name (bi_bucket i), bk_oid (bi_bucket i)))
    (get_bucket_info "/srv" shell stat getpwuid true "photos" RGWBucketInfo_new [])
  = Some (0, [] : str, ".bucket.meta.:" : str).
Proof. vm_compute. reflexivity. Qed.

(** The name of a bucket is part of the shell's command as it stands. *)
Example bucket_name_in_command :
  dir_command "/srv" "x ]; rm -r /srv; [ -d /" = Some ("[ -d /srv/x ]; rm -r /srv; [ -d / ]" : str).
Proof. vm_compute. reflexivity. Qed.
