(* ===== verification/Policies.v ===== *)
(** * Objects' state and the policies of a request ([src/src/rgw/porting_rados.cc], [porting_op.cc],
    [src/src/librados/librados.cc])

    The state of an object is read from its file once and kept in the request's
    context; the access control policies of the request are read from the
    attributes of that state.  The files are parameters; users and buckets are
    looked up through the functions the section takes. *)

From S2P Require Import Prelude StdMap Encoding Utime CString Env Acl RgwObj Records Http Errors Strtol Rest Ops RespS3 Lookup.

Definition ENODATA : Z := 61.

(** ** [librados::ObjectReadOperation] *)

Section Files.
  (** [stat] and [open]/[pread] of a path. *)
  Context (stat_file : str → option (Z * Z)) (file : str → option bytes).

Definition BLOCK_SIZE : nat := 1024.

(** The path and the size; the constructor does not set the size. *)
Record ObjectReadOperation := Mk_op { or_full_path : str; or_size : Z }.

(** The size and the time given, where the file can be looked at. *)
Definition op_stat (psize pmtime : Z) (o : ObjectReadOperation) : Z * Z * ObjectReadOperation :=
  match stat_file (cstr (or_full_path o)) with
  | None => (psize, pmtime, o)
  | Some (size, mtime) => (u64 size, mtime, Mk_op (or_full_path o) (u64 size))
  end.

(** [getxattrs] has an empty body. *)
Definition op_getxattrs (pattrs : list (str * bytes)) : list (str * bytes) := pattrs.

(** [pread(fd, buf, BLOCK_SIZE, off)] into a buffer. *)
Definition pread (content : bytes) (off : nat) (buf : bytes) : bytes :=
  let d := take BLOCK_SIZE (drop off content) in d ++ drop (length d) buf.

(** Each turn reads at the same offset and appends the whole buffer. *)
Fixpoint read_loop (fuel : nat) (left : Z) (content : bytes) (off : nat) (buf pbl : bytes) : bytes :=
  match fuel with
  | O => pbl
  | S fuel =>
      if left >? 0 then
        let buf := pread content off buf in
        read_loop fuel (left - Z.of_nat BLOCK_SIZE) content off buf (pbl ++ take BLOCK_SIZE buf)
      else pbl
  end.

(** [buf] is what the buffer holds before. *)
Definition op_read (buf : bytes) (off : nat) (len : Z) (pbl : bytes) (o : ObjectReadOperation) : bytes :=
  let left := s64 (if len >? or_size o then or_size o else len) in
  match file (cstr (or_full_path o)) with
  | None => pbl
  | Some content => read_loop (Z.to_nat left) left content off buf pbl
  end.

(** ** The state of an object *)

Definition RGW_ATTR_ACL : str := RGW_ATTR_PREFIX ++ "acl".
Definition RGW_ATTR_ID_TAG : str := RGW_ATTR_PREFIX ++ "idtag".
Definition RGW_ATTR_SHADOW_OBJ : str := RGW_ATTR_PREFIX ++ "shadow_name".
Definition RGW_ATTR_OLH_INFO : str := RGW_ATTR_PREFIX ++ "olh.info".
Definition RGW_ATTR_OLH_ID_TAG : str := RGW_ATTR_PREFIX ++ "olh.idtag".

(** [RGWObjState]: the members the code of this repository reads or sets; its
    epoch and the tags of manifests and writes are never set. *)
Record RGWObjState := Mk_RGWObjState {
  os_obj : rgw_obj;
  os_is_atomic : bool;
  os_has_attrs : bool;
  os_exists : bool;
  os_size : Z;
  os_mtime : Z;
  os_obj_tag : bytes;
  os_shadow_obj : str;
  os_data : bytes;
  os_prefetch_data : bool;
  os_is_olh : bool;
  os_olh_tag : bytes;
  os_attrset : list (str * bytes)
}.
Definition RGWObjState_new : RGWObjState := Mk_RGWObjState rgw_obj_new false false false 0 0 [] [] [] false false [] [].
Definition state_get_attr (name : str) (s : RGWObjState) : option bytes := mfind name (os_attrset s).

(** [operator<] of [rgw_obj] as an order. *)
#[export] Instance rgw_obj_ord : Ord rgw_obj := λ a b,
  if rgw_obj_ltb a b then Lt else if rgw_obj_ltb b a then Gt else Eq.

(** [RGWObjectCtx::objs_state] *)
Abbreviation obj_ctx := (list (rgw_obj * RGWObjState)).

(** [get_state]: what is found or made; [None] for an object without a name,
    for which the function returns nothing. *)
Definition ctx_get_state (obj : rgw_obj) (c : obj_ctx) : option RGWObjState :=
  if bool_decide (ro_object obj = []) then None else Some (default RGWObjState_new (mfind obj c)).
Definition ctx_update (f : RGWObjState → RGWObjState) (obj : rgw_obj) (c : obj_ctx) : obj_ctx :=
  match ctx_get_state obj c with Some s => mset obj (f s) c | None => c end.
Definition set_atomic : rgw_obj → obj_ctx → obj_ctx :=
  ctx_update (λ s, Mk_RGWObjState (os_obj s) true (os_has_attrs s) (os_exists s) (os_size s) (os_mtime s) (os_obj_tag s)
    (os_shadow_obj s) (os_data s) (os_prefetch_data s) (os_is_olh s) (os_olh_tag s) (os_attrset s)).
Definition set_prefetch_data : rgw_obj → obj_ctx → obj_ctx :=
  ctx_update (λ s, Mk_RGWObjState (os_obj s) (os_is_atomic s) (os_has_attrs s) (os_exists s) (os_size s) (os_mtime s)
    (os_obj_tag s) (os_shadow_obj s) (os_data s) true (os_is_olh s) (os_olh_tag s) (os_attrset s)).
Definition ctx_invalidate (obj : rgw_obj) (c : obj_ctx) : obj_ctx := merase obj c.

(** [filter_attrset]: from the first name not below the prefix, while it is a prefix. *)
Fixpoint take_prefixed (pre : str) (m : list (str * bytes)) : list (str * bytes) :=
  match m with
  | (k, v) :: m => if bool_decide (take (length pre) k = pre) then (k, v) :: take_prefixed pre m else []
  | [] => []
  end.
Fixpoint filter_attrset (pre : str) (m : list (str * bytes)) : list (str * bytes) :=
  match m with
  | (k, v) :: m' => match compare k pre with Lt => filter_attrset pre m' | _ => take_prefixed pre m end
  | [] => []
  end.

Context (G_buckets_root : str) (G_rgw_max_chunk_size : Z) (size0 : Z) (buf0 : bytes).

Definition object_path (obj : rgw_obj) : str := G_buckets_root ++ "/" ++ bk_name (ro_bucket obj) ++ "/" ++ ro_object obj.

(** [raw_obj_stat]: the size, the time, the attributes and, where asked for,
    the first chunk appended; it has no error to return. *)
Definition raw_obj_stat (obj : rgw_obj) (first_chunk : option bytes) : Z * Z * list (str * bytes) * option bytes :=
  let op := Mk_op (cstr (object_path obj)) size0 in
  let unfiltered_attrset := op_getxattrs [] in
  let '(size, mtime, op) := op_stat 0 0 op in
  let first_chunk := option_map (λ b, op_read buf0 0 G_rgw_max_chunk_size b op) first_chunk in
  (size, mtime, filter_attrset RGW_ATTR_PREFIX unfiltered_attrset, first_chunk).

Definition is_olh (attrs : list (str * bytes)) : bool := match mfind RGW_ATTR_OLH_INFO attrs with Some _ => true | None => false end.

(** What [get_obj_state_impl] makes of a state that has no attributes yet; the
    look-up of the tag inserts an empty one. *)
Definition load_state (obj : rgw_obj) (s : RGWObjState) : RGWObjState :=
  let '(size, mtime, attrs, data) :=
    raw_obj_stat obj (if os_prefetch_data s then Some (os_data s) else None) in
  let shadow := match mfind RGW_ATTR_SHADOW_OBJ attrs with Some bl => os_shadow_obj s ++ bl | None => os_shadow_obj s end in
  let tag := default [] (mfind RGW_ATTR_ID_TAG attrs) in
  let attrs := mset RGW_ATTR_ID_TAG tag attrs in
  Mk_RGWObjState obj (os_is_atomic s) true true size mtime tag shadow (default (os_data s) data) (os_prefetch_data s)
    (if is_olh attrs then true else os_is_olh s) (default (os_olh_tag s) (mfind RGW_ATTR_OLH_ID_TAG attrs)) attrs.

(** [get_obj_state]: the implementation never asks for another turn. *)
Definition get_obj_state (obj : rgw_obj) (c : obj_ctx) : option (Z * RGWObjState * obj_ctx) :=
  s ← ctx_get_state obj c;
  if os_has_attrs s then Some (0, s, mset obj s c)
  else let s := load_state obj s in Some (0, s, mset obj s c).

(** [Object::Read::get_attr] *)
Definition read_get_attr (obj : rgw_obj) (name : str) (c : obj_ctx) : option (Z * bytes * obj_ctx) :=
  '(r, s, c) ← get_obj_state obj c;
  Some (if r <? 0 then (r, [], c)
        else if negb (os_exists s) then (- ENOENT, [], c)
        else match state_get_attr name s with
             | None => (- ENODATA, [], c)
             | Some v => (0, v, c)
             end).

(** [Object::Read::prepare]: the conditions of the request, [None] where there
    is none; the offsets come and go.  The result is an error or the range, the
    attributes, the size and the time. *)
Record read_conds := Mk_conds {
  rc_mod : option Z; rc_unmod : option Z; rc_if_match : option str; rc_if_nomatch : option str }.

Definition check_times (c : read_conds) (ctime : Z) : Z :=
  if match rc_mod c with Some t => ctime <? t | None => false end then - ERR_NOT_MODIFIED
  else if match rc_unmod c with Some t => ctime >? t | None => false end then - ERR_PRECONDITION_FAILED
  else 0.
Definition check_etag (c : read_conds) (etag : bytes) : Z :=
  if match rc_if_match c with Some m => negb (bool_decide (rgw_string_unquote m = cstr etag)) | None => false end
  then - ERR_PRECONDITION_FAILED
  else if match rc_if_nomatch c with Some m => bool_decide (rgw_string_unquote m = cstr etag) | None => false end
  then - ERR_NOT_MODIFIED
  else 0.

(** Offsets from the end, an open end, and what lies past it. *)
Definition fix_range (size ofs end_ : Z) : Z + Z * Z :=
  let '(ofs, end_) :=
    if ofs <? 0 then (Z.max 0 (ofs + size), size - 1)
    else if end_ <? 0 then (ofs, size - 1) else (ofs, end_) in
  if size >? 0 then
    if ofs >=? size then inl (- ERANGE)
    else inr (ofs, if end_ >=? size then size - 1 else end_)
  else inr (ofs, end_).

Definition prepare (obj : rgw_obj) (conds : read_conds) (ofs end_ : Z) (c : obj_ctx)
    : option ((Z + Z * Z * Z * RGWObjState) * obj_ctx) :=
  '(r, s, c) ← get_obj_state obj c;
  if r <? 0 then Some (inl r, c)
  else if negb (os_exists s) then Some (inl (- ENOENT), c)
  else
    let t := check_times conds (os_mtime s) in
    if t <? 0 then Some (inl t, c)
    else
      '(r, c) ← (match rc_if_match conds, rc_if_nomatch conds with
                 | None, None => Some (0, c)
                 | _, _ => '(r, etag, c) ← read_get_attr obj RGW_ATTR_ETAG c;
                           Some (if r <? 0 then r else check_etag conds etag, c)
                 end);
      if r <? 0 then Some (inl r, c)
      else match fix_range (os_size s) ofs end_ with
           | inl e => Some (inl e, c)
           | inr (ofs, end_) => Some (inr (ofs, end_, (if ofs <=? end_ then end_ + 1 - ofs else 0), s), c)
           end.

(** ** Policies *)

Section Policy.
  Context (rgw_get_user_info_by_uid : str → RGWUserInfo → Z * RGWUserInfo).

Definition decode_policy (bl : bytes) (policy : RGWAccessControlPolicy) : Z * RGWAccessControlPolicy :=
  match decode_RGWAccessControlPolicy policy (It 0 bl) with
  | inl _ => (- EIO, policy)
  | inr (p, _) => (0, p)
  end.

(** The policy of a bucket or an object without one. *)
Definition default_policy (owner : str) (policy : RGWAccessControlPolicy) : Z * RGWAccessControlPolicy :=
  let '(r, uinfo) := rgw_get_user_info_by_uid owner RGWUserInfo_new in
  if r <? 0 then (r, policy) else (r, policy_create_default owner (ui_display_name uinfo) policy).

Definition get_bucket_policy_from_attr (bucket_info : RGWBucketInfo) (bucket_attrs : list (str * bytes))
    (policy : RGWAccessControlPolicy) : Z * RGWAccessControlPolicy :=
  match mfind RGW_ATTR_ACL bucket_attrs with
  | Some bl => decode_policy bl policy
  | None => let '(r, policy) := default_policy (bi_owner bucket_info) policy in (if r <? 0 then r else 0, policy)
  end.

Definition get_obj_policy_from_attr (bucket_info : RGWBucketInfo) (policy : RGWAccessControlPolicy) (obj : rgw_obj)
    (c : obj_ctx) : option (Z * RGWAccessControlPolicy * obj_ctx) :=
  '(ret, bl, c) ← read_get_attr obj RGW_ATTR_ACL c;
  Some (if ret >=? 0 then let '(r, policy) := decode_policy bl policy in (r, policy, c)
        else if ret =? - ENODATA then let '(r, policy) := default_policy (bi_owner bucket_info) policy in (r, policy, c)
        else (ret, policy, c)).

Definition get_policy_from_attr (bucket_info : RGWBucketInfo) (bucket_attrs : list (str * bytes))
    (policy : RGWAccessControlPolicy) (obj : rgw_obj) (c : obj_ctx) : option (Z * RGWAccessControlPolicy * obj_ctx) :=
  if bool_decide (bk_name (ro_bucket obj) = []) then Some (0, policy, c)
  else if bool_decide (ro_object obj = []) then
    let '(r, policy) := get_bucket_policy_from_attr bucket_info bucket_attrs policy in Some (r, policy, c)
  else get_obj_policy_from_attr bucket_info policy obj c.

(** What a request has when its policies are read. *)
Record policy_request := Mk_policy_request {
  pr_system_request : bool;
  pr_user : RGWUserInfo;
  pr_perm_mask : Z;
  pr_args : RGWHTTPArgs;
  pr_dialect : str;
  pr_copy_source : option str;
  pr_bucket_name : str;
  pr_object : rgw_obj_key
}.

Definition mp_ns : str := "multipart".
Definition policy_set_owner_id (id : str) (p : RGWAccessControlPolicy) : RGWAccessControlPolicy :=
  Mk_RGWAccessControlPolicy (ap_acl p) (Mk_ACLOwner id (ow_display_name (ap_owner p))).

(** The object the policy of [object] is kept with. *)
Definition policy_obj (bucket : rgw_bucket) (object : rgw_obj_key) (upload_id : str) : rgw_obj :=
  if negb (key_empty object) && negb (bool_decide (upload_id = [])) then
    set_in_extra_data true (init_ns bucket (mp_meta (mp_init (rk_name object) upload_id upload_id)) mp_ns rgw_obj_new)
  else rgw_obj_of_key bucket object.

Definition read_policy (s : policy_request) (bucket_info : RGWBucketInfo) (bucket_attrs : list (str * bytes))
    (policy : RGWAccessControlPolicy) (bucket : rgw_bucket) (object : rgw_obj_key) (c : obj_ctx)
    : option (Z * RGWAccessControlPolicy * obj_ctx) :=
  let upload_id := fst (args_get "uploadId" (pr_args s)) in
  if negb (pr_system_request s) && negb (Z.land (bi_flags bucket_info) BUCKET_SUSPENDED =? 0)
  then Some (- ERR_USER_SUSPENDED, policy, c)
  else
    '(ret, policy, c) ← get_policy_from_attr bucket_info bucket_attrs policy (policy_obj bucket object upload_id) c;
    let policy := policy_set_owner_id "bwcpn" policy in
    if (ret =? - ENOENT) && negb (key_empty object) then
      '(ret, bucket_policy, c) ← get_policy_from_attr bucket_info bucket_attrs RGWAccessControlPolicy_new
                                   (init bucket [] rgw_obj_new) c;
      Some (if ret <? 0 then ret
            else if negb (pr_system_request s)
                    && negb (bool_decide (ow_id (ap_owner bucket_policy) = ui_user_id (pr_user s)))
                    && negb (verify_permission policy_base bucket_policy (ui_user_id (pr_user s)) (pr_perm_mask s) RGW_PERM_READ)
            then - EACCES else - ENOENT, policy, c)
    else if ret =? - ENOENT then Some (- ERR_NO_SUCH_BUCKET, policy, c)
    else Some (ret, policy, c).

(** What [rgw_build_policies] leaves in the request. *)
Record policies := Mk_policies {
  ps_bucket_exists : bool;
  ps_bucket_info : RGWBucketInfo;
  ps_bucket_attrs : list (str * bytes);
  ps_bucket_acl : RGWAccessControlPolicy;
  ps_bucket_owner : ACLOwner;
  ps_object_acl : option RGWAccessControlPolicy
}.
Definition policies_new : policies :=
  Mk_policies false RGWBucketInfo_new [] RGWAccessControlPolicy_new ACLOwner_new None.

Context {cache : Type}
  (get_bucket_info : str → RGWBucketInfo → cache → option (Z * RGWBucketInfo * list (str * bytes) * cache)).

(** The bucket of the copy source: before the first slash that does not lead. *)
Definition copy_source_bucket (src : str) : str :=
  let src := match src with c :: r => if char_is "/" c then r else src | [] => src end in
  match find_if (char_is "/") src with Some (S p) => substr 0 (S p) src | _ => src end.

(** The part on the bucket. *)
Definition build_bucket_policy (s : policy_request) (instance_id : str) (ret : Z) (p : policies) (k : cache) (c : obj_ctx)
    : option (Z * bool * policies * cache * obj_ctx) :=
  '(ret, info, attrs, k) ←
    (if bool_decide (instance_id = []) then get_bucket_info (pr_bucket_name s) (ps_bucket_info p) k
     else Some (ret, ps_bucket_info p, ps_bucket_attrs p, k));
  if (ret <? 0) && negb (ret =? - ENOENT)
  then Some (ret, false, Mk_policies true info attrs (ps_bucket_acl p) (ps_bucket_owner p) None, k, c)
  else
    let bucket_exists := negb (ret <? 0) in
    '(ret, acl, c) ←
      (if bucket_exists
       then read_policy s info attrs (ps_bucket_acl p) (bi_bucket info) rgw_obj_key_new c
       else Some (- ERR_NO_SUCH_BUCKET,
                  policy_create_default (ui_user_id (pr_user s)) (ui_display_name (pr_user s)) (ps_bucket_acl p), c));
    Some (ret, true, Mk_policies bucket_exists info attrs acl (ap_owner acl) None, k, c).

(** [None]: a policy of the Swift dialect, which is not made. *)
Definition rgw_build_policies (s : policy_request) (only_bucket prefetch : bool) (k : cache) (c : obj_ctx)
    : option (Z * policies * cache * obj_ctx) :=
  match (let bi := fst (args_get "rgwx-bucket-instance" (pr_args s)) in
         if bool_decide (bi = []) then inr ([] : str)
         else match rgw_bucket_parse_bucket_instance bi with inl e => inl e | inr (t, _) => inr t end) with
  | inl e => Some (e, policies_new, k, c)
  | inr instance_id =>
      if streq (pr_dialect s) "swift" then None
      else
        '(ret, k) ← (match pr_copy_source s with
                     | None => Some (0, k)
                     | Some src => '(ret, _, _, k) ← get_bucket_info (copy_source_bucket (cstr src)) RGWBucketInfo_new k;
                                   Some (ret, k)
                     end);
        '(ret, go, p, k, c) ← (if bool_decide (pr_bucket_name s = []) then Some (ret, true, policies_new, k, c)
                               else build_bucket_policy s instance_id ret policies_new k c);
        if negb go then Some (ret, p, k, c)
        else if negb only_bucket && negb (key_empty (pr_object s)) then
          if negb (ps_bucket_exists p) then Some (- ERR_NO_SUCH_BUCKET, p, k, c)
          else
            let bucket := bi_bucket (ps_bucket_info p) in
            let obj := rgw_obj_of_key bucket (pr_object s) in
            let c := set_atomic obj c in
            let c := if prefetch then set_prefetch_data obj c else c in
            '(ret, acl, c) ← read_policy s (ps_bucket_info p) (ps_bucket_attrs p) RGWAccessControlPolicy_new bucket (pr_object s) c;
            Some (ret, Mk_policies true (ps_bucket_info p) (ps_bucket_attrs p) (ps_bucket_acl p) (ps_bucket_owner p) (Some acl), k, c)
        else Some (ret, p, k, c)
  end.
End Policy.
End Files.
