(* ===== verification/PolicyFacts.v ===== *)
(** * The policies the requests are judged by

    Attributes are never read, so the state of an object holds none but an empty
    tag, and every policy is the default one of an owner that is not known. *)

From S2P Require Import Prelude StdMap Encoding Utime CString Env Acl AclFacts RgwObj Records Http Errors Strtol SysInfo Armor AuthS3 Rest Ops RespS3 Lookup LookupFacts Policies.

Lemma reset_loc_bucket x : ro_bucket (reset_loc x) = ro_bucket x.
Proof. unfold reset_loc. by case_match. Qed.
Lemma set_obj_bucket o x : ro_bucket (set_obj o x) = ro_bucket x.
Proof. unfold set_obj. repeat case_match; rewrite ?reset_loc_bucket; done. Qed.
Lemma init_bucket b o x : ro_bucket (init b o x) = b.
Proof. unfold init. by rewrite reset_loc_bucket, set_obj_bucket. Qed.
Lemma set_ns_bucket n x : ro_bucket (snd (set_ns n x)) = ro_bucket x.
Proof. unfold set_ns. case_match; cbn [snd]; [done|]. by rewrite set_obj_bucket. Qed.
Lemma init_ns_bucket b o n x : ro_bucket (init_ns b o n x) = b.
Proof. unfold init_ns. by rewrite reset_loc_bucket, set_obj_bucket, set_ns_bucket. Qed.
Lemma set_instance_bucket i x : ro_bucket (snd (set_instance i x)) = ro_bucket x.
Proof. unfold set_instance. case_match; cbn [snd]; [done|]. by rewrite set_obj_bucket. Qed.
Lemma of_key_bucket b k : ro_bucket (rgw_obj_of_key b k) = b.
Proof.
  unfold rgw_obj_of_key, from_index_key. repeat case_match;
    by rewrite set_instance_bucket, ?init_bucket, ?init_ns_bucket.
Qed.
Lemma extra_data_bucket v x : ro_bucket (set_in_extra_data v x) = ro_bucket x.
Proof. reflexivity. Qed.
Lemma policy_obj_bucket b k u : ro_bucket (policy_obj b k u) = b.
Proof.
  unfold policy_obj. case_match; [|apply of_key_bucket].
  rewrite extra_data_bucket. apply init_ns_bucket.
Qed.

(** ** The states of a request's objects *)

(** A state is new, or was loaded and holds nothing but the empty tag. *)
Definition state_ok (s : RGWObjState) : Prop :=
  os_has_attrs s = true → os_exists s = true ∧ os_attrset s = [(RGW_ATTR_ID_TAG, [])].
#[local] Abbreviation obj_ctx := (list (rgw_obj * RGWObjState)).
Definition ctx_ok (c : obj_ctx) : Prop := Forall (λ p, state_ok (snd p)) c.

Lemma ctx_find c obj s : ctx_ok c → ctx_get_state obj c = Some s → state_ok s.
Proof.
  unfold ctx_get_state. intros Hc. case_bool_decide; [done|]. intros [= <-].
  destruct (mfind obj c) as [s|] eqn:E; [|done]. cbn [default from_option id].
  induction Hc as [|[o t] c Ht Hc IH]; [done|]. cbn in E. destruct (compare obj o); [by injection E as <-|auto|auto].
Qed.
Lemma ctx_set c obj s : ctx_ok c → state_ok s → ctx_ok (mset obj s c).
Proof.
  intros Hc Hs. induction Hc as [|[o t] c Ht Hc IH]; cbn [mset]; [by apply Forall_singleton|].
  destruct (compare obj o); (apply Forall_cons; split; [assumption|]); try assumption.
  apply Forall_cons. by split.
Qed.
Lemma set_atomic_ok obj c : ctx_ok c → ctx_ok (set_atomic obj c).
Proof.
  intros Hc. unfold set_atomic, ctx_update. destruct (ctx_get_state obj c) as [s|] eqn:E; [|done].
  apply ctx_set; [done|]. exact (ctx_find _ _ _ Hc E).
Qed.
Lemma set_prefetch_ok obj c : ctx_ok c → ctx_ok (set_prefetch_data obj c).
Proof.
  intros Hc. unfold set_prefetch_data, ctx_update. destruct (ctx_get_state obj c) as [s|] eqn:E; [|done].
  apply ctx_set; [done|]. exact (ctx_find _ _ _ Hc E).
Qed.

Section store.
Context (stat_file : str → option (Z * Z)) (file : str → option bytes) (root : str) (chunk size0 : Z) (buf0 : bytes).
#[local] Abbreviation load := (load_state stat_file file root chunk size0 buf0).
#[local] Abbreviation get_state := (get_obj_state stat_file file root chunk size0 buf0).

Lemma load_ok obj s : state_ok (load obj s) ∧ os_has_attrs (load obj s) = true.
Proof.
  unfold load_state. destruct (raw_obj_stat _ _ _ _ _ _ _ _) as [[[size mtime] attrs] data] eqn:E.
  assert (attrs = []) as ->; [|by repeat split].
  unfold raw_obj_stat in E. destruct (op_stat _ _ _ _) as [[? ?] ?]. by injection E as _ _ <- _.
Qed.

(** Every object with a name has a state, and it exists. *)
Lemma get_state_ok obj c :
  ctx_ok c → ro_object obj ≠ [] →
  ∃ s c', get_state obj c = Some (0, s, c') ∧ ctx_ok c' ∧ os_exists s = true ∧ os_attrset s = [(RGW_ATTR_ID_TAG, [])].
Proof.
  intros Hc Ho. unfold get_obj_state. destruct (ctx_get_state obj c) as [s|] eqn:E.
  2: { unfold ctx_get_state in E. by rewrite bool_decide_false in E. }
  pose proof (ctx_find _ _ _ Hc E) as Hs. cbn [mbind option_bind]. destruct (os_has_attrs s) eqn:Ha.
  - exists s, (mset obj s c). split; [done|]. split; [by apply ctx_set|]. by apply Hs.
  - destruct (load_ok obj s) as [Hl Hh]. eexists _, _. split; [done|]. split; [by apply ctx_set|]. by apply Hl.
Qed.

Lemma get_attr_none obj name c :
  ctx_ok c → ro_object obj ≠ [] → name ≠ RGW_ATTR_ID_TAG →
  ∃ c', read_get_attr stat_file file root chunk size0 buf0 obj name c = Some (- ENODATA, [], c') ∧ ctx_ok c'.
Proof.
  intros Hc Ho Hn. destruct (get_state_ok obj c Hc Ho) as (s & c' & E & Hc' & Hx & Ha).
  exists c'. split; [|done]. unfold read_get_attr. rewrite E. cbn [mbind option_bind]. rewrite Hx.
  unfold state_get_attr. rewrite Ha. cbn [mfind negb Z.ltb Z.compare].
  destruct (compare name RGW_ATTR_ID_TAG) eqn:Ec; [|done|done]. by apply str_compare_eq in Ec.
Qed.

(** ** Policies *)

Context (get_user : str → RGWUserInfo → Z * RGWUserInfo).
(** The user without an id is found, and has no name. *)
Hypothesis Huser : fst (get_user [] RGWUserInfo_new) = 0 ∧ ui_display_name (snd (get_user [] RGWUserInfo_new)) = [].

(** The policy of anything that has no owner. *)
Definition fixed_policy (p : RGWAccessControlPolicy) : RGWAccessControlPolicy :=
  policy_set_owner_id "bwcpn" (policy_create_default [] [] p).

Lemma default_policy_spec p : default_policy get_user [] p = (0, policy_create_default [] [] p).
Proof.
  unfold default_policy. destruct Huser as [Hr Hn]. destruct (get_user _ _) as [r u]. cbn [fst snd] in *.
  by subst r; rewrite Hn.
Qed.

#[local] Abbreviation policy_of := (read_policy stat_file file root chunk size0 buf0 get_user).

#[local] Abbreviation from_attr := (get_policy_from_attr stat_file file root chunk size0 buf0 get_user).

Lemma from_attr_bucket info p obj c :
  bi_owner info = [] → bk_name (ro_bucket obj) ≠ [] → ro_object obj = [] →
  from_attr info [] p obj c = Some (0, policy_create_default [] [] p, c).
Proof.
  intros Hw Hb Ho. unfold get_policy_from_attr.
  rewrite (bool_decide_false (bk_name _ = [])), (bool_decide_true (ro_object obj = [])) by done.
  unfold get_bucket_policy_from_attr. cbn [mfind]. by rewrite Hw, default_policy_spec.
Qed.
Lemma from_attr_object info p obj c :
  ctx_ok c → bi_owner info = [] → bk_name (ro_bucket obj) ≠ [] → ro_object obj ≠ [] →
  ∃ c', from_attr info [] p obj c = Some (0, policy_create_default [] [] p, c') ∧ ctx_ok c'.
Proof.
  intros Hc Hw Hb Ho. unfold get_policy_from_attr.
  rewrite (bool_decide_false (bk_name _ = [])), (bool_decide_false (ro_object obj = [])) by done.
  destruct (get_attr_none obj RGW_ATTR_ACL c Hc Ho) as (c' & E & Hc'); [done|].
  exists c'. split; [|done]. unfold get_obj_policy_from_attr. rewrite E. cbn [mbind option_bind].
  cbn [Z.geb Z.compare ENODATA Z.opp Z.eqb Pos.eqb]. by rewrite Hw, default_policy_spec.
Qed.

Lemma read_policy_fixed s info p key c :
  ctx_ok c → bi_owner info = [] → bi_flags info = 0 → bk_name (bi_bucket info) ≠ [] →
  ∃ c', policy_of s info [] p (bi_bucket info) key c = Some (0, fixed_policy p, c') ∧ ctx_ok c'.
Proof.
  intros Hc Hw Hf Hb. unfold read_policy. rewrite Hf. cbn [Z.land Z.eqb negb]. rewrite andb_false_r.
  set (obj := policy_obj _ _ _).
  assert (Ho : bk_name (ro_bucket obj) ≠ []) by (subst obj; by rewrite policy_obj_bucket).
  clearbody obj. destruct (decide (ro_object obj = [])) as [E|E].
  - exists c. by rewrite from_attr_bucket.
  - destruct (from_attr_object info p obj c Hc Hw Ho E) as (c' & -> & Hc'). by exists c'.
Qed.

Lemma acl_get_group_perm_none a g m : acl_group_map a = [] → acl_get_group_perm a g m = 0.
Proof. unfold acl_get_group_perm. by intros ->. Qed.

(** What the fixed policy lets a user do: everything to the user without an id,
    reading and writing the policy to one account. *)
Lemma fixed_policy_perm cl p uid :
  effective_perm cl (fixed_policy p) uid =
    Z.lor (if streq uid [] then RGW_PERM_FULL_CONTROL else 0)
          (if streq uid "bwcpn" then Z.lor RGW_PERM_READ_ACP RGW_PERM_WRITE_ACP else 0).
Proof.
  unfold effective_perm. cbn [ap_acl ap_owner fixed_policy policy_set_owner_id policy_create_default ow_id].
  rewrite create_default_perm.
  rewrite !(acl_get_group_perm_none (acl_create_default [] [] (ap_acl p))) by done.
  destruct (compare_group_name _ _ _); by rewrite !Z.lor_0_r.
Qed.
End store.

(** ** Requests *)

Section request.
Context (stat_file : str → option (Z * Z)) (file : str → option bytes) (root : str) (chunk size0 : Z) (buf0 : bytes)
  (conf_root : str) (read_file : str → option bytes) (getuid : str → Z)
  (shell_simple : str → Z) (stat_dir : str → Z + Z * Z) (getpwuid : Z → Z + str) (chains : bool).
Hypothesis Hstat : ∀ p, match stat_dir p with inl e => 0 < e | inr (_, t) => - 2 ^ 63 <= t < 2 ^ 63 end.
Hypothesis Hpw : ∀ u, match getpwuid u with inl e => 0 < e | inr o => zlen o < 2 ^ 31 end.

#[local] Abbreviation get_user := (rgw_get_user_info_by_uid conf_root read_file getuid).
#[local] Abbreviation get_bucket := (get_bucket_info root shell_simple stat_dir getpwuid chains).
#[local] Abbreviation build := (rgw_build_policies stat_file file root chunk size0 buf0 get_user get_bucket).

Lemma no_user_found :
  fst (get_user [] RGWUserInfo_new) = 0 ∧ ui_display_name (snd (get_user [] RGWUserInfo_new)) = [].
Proof. by rewrite by_uid_spec by done. Qed.

(** A request on a bucket, without a copy source or a bucket instance. *)
Definition plain_request (s : policy_request) : Prop :=
  plain_name (pr_bucket_name s) ∧ pr_dialect s ≠ "swift" ∧ pr_copy_source s = None ∧
  fst (args_get "rgwx-bucket-instance" (pr_args s)) = [].

Lemma build_start s only_bucket prefetch k c :
  plain_request s →
  build s only_bucket prefetch k c =
    ('(ret, go, p, k, c) ← build_bucket_policy stat_file file root chunk size0 buf0 get_user get_bucket s [] 0 policies_new k c;
     if negb go then Some (ret, p, k, c)
     else if negb only_bucket && negb (key_empty (pr_object s)) then
       if negb (ps_bucket_exists p) then Some (- ERR_NO_SUCH_BUCKET, p, k, c)
       else
         let bucket := bi_bucket (ps_bucket_info p) in
         let obj := rgw_obj_of_key bucket (pr_object s) in
         let c := set_atomic obj c in
         let c := if prefetch then set_prefetch_data obj c else c in
         '(ret, acl, c) ← read_policy stat_file file root chunk size0 buf0 get_user s (ps_bucket_info p)
            (ps_bucket_attrs p) RGWAccessControlPolicy_new bucket (pr_object s) c;
         Some (ret, Mk_policies true (ps_bucket_info p) (ps_bucket_attrs p) (ps_bucket_acl p) (ps_bucket_owner p) (Some acl), k, c)
     else Some (ret, p, k, c)).
Proof.
  intros ((Hn & _) & Hd & Hcs & Hbi). unfold rgw_build_policies. rewrite Hbi, Hcs.
  rewrite (bool_decide_true ([] = [])) by done. unfold streq. rewrite (bool_decide_false (pr_dialect s = _)) by done.
  cbn [mbind option_bind]. by rewrite (bool_decide_false (pr_bucket_name s = [])) by done.
Qed.

(** The account a bucket's directory belongs to. *)
Definition bucket_owner (cmd name : str) : option (str * Z) :=
  match bucket_dir root shell_simple stat_dir getpwuid cmd name with inr o => Some o | inl _ => None end.

(** A bucket that is there. *)
Lemma bucket_policy_found s c k :
  plain_name (pr_bucket_name s) → ctx_ok c →
  let info := found_bucket (pr_bucket_name s) in
  let acl := fixed_policy RGWAccessControlPolicy_new in
  get_bucket (pr_bucket_name s) RGWBucketInfo_new [] = Some (0, info, [], k) →
  ∃ c', build_bucket_policy stat_file file root chunk size0 buf0 get_user get_bucket s [] 0 policies_new [] c
    = Some (0, true, Mk_policies true info [] acl (ap_owner acl) None, k, c') ∧ ctx_ok c'.
Proof.
  intros Hn Hc info acl Hb. unfold build_bucket_policy. rewrite (bool_decide_true ([] = [])) by done.
  change (ps_bucket_info policies_new) with RGWBucketInfo_new. rewrite Hb. cbn [mbind option_bind].
  cbn [Z.ltb Z.compare andb negb].
  destruct (read_policy_fixed stat_file file root chunk size0 buf0 get_user no_user_found s info
              (ps_bucket_acl policies_new) rgw_obj_key_new c Hc) as (c' & E & Hc'); [done|done|apply Hn|].
  exists c'. split; [|done]. rewrite E. done.
Qed.

(** C17: A request on a bucket that is there has its policies read without error,
    and they are the same for every bucket, every object, every user: the
    owner's id is a fixed account, and the only grant gives full control to the
    user without an id.  So a permission is verified for that account only when
    it asks for reading or writing the policy, for nobody else but the user
    without an id, whatever was stored with the bucket or the object. *)
Theorem request_policies s only_bucket prefetch c cmd :
  plain_request s → ctx_ok c → dir_command root (pr_bucket_name s) = Some cmd →
  is_Some (bucket_owner cmd (pr_bucket_name s)) →
  ∃ p k c', build s only_bucket prefetch [] c = Some (0, p, k, c') ∧ ctx_ok c' ∧
    ps_bucket_exists p = true ∧ ps_bucket_info p = found_bucket (pr_bucket_name s) ∧
    ps_object_acl p = (if only_bucket || key_empty (pr_object s) then None else Some (ps_bucket_acl p)) ∧
    ow_id (ps_bucket_owner p) = "bwcpn" ∧
    ∀ cl uid umask perm,
      verify_permission cl (ps_bucket_acl p) uid umask perm =
        bool_decide (Z.land perm (Z.land umask
          (if bool_decide (uid = []) then RGW_PERM_FULL_CONTROL
           else if bool_decide (uid = "bwcpn") then Z.lor RGW_PERM_READ_ACP RGW_PERM_WRITE_ACP else 0)) = perm).
Proof.
  intros Hs Hc Hcmd [[owner mtime] Hd]. unfold bucket_owner in Hd.
  destruct (bucket_dir _ _ _ _ _ _) as [|o] eqn:Hdir; [done|]. injection Hd as ->.
  pose proof (bucket_found root shell_simple stat_dir getpwuid chains Hstat Hpw _ cmd owner mtime RGWBucketInfo_new
                (proj1 Hs) Hcmd Hdir) as Hb.
  rewrite build_start by done.
  destruct (bucket_policy_found s c _ (proj1 Hs) Hc Hb) as (c1 & -> & Hc1). cbn [mbind option_bind negb ps_bucket_exists].
  assert (Hperm : ∀ cl uid umask perm,
      verify_permission cl (fixed_policy RGWAccessControlPolicy_new) uid umask perm =
        bool_decide (Z.land perm (Z.land umask
          (if bool_decide (uid = []) then RGW_PERM_FULL_CONTROL
           else if bool_decide (uid = "bwcpn") then Z.lor RGW_PERM_READ_ACP RGW_PERM_WRITE_ACP else 0)) = perm)).
  { intros. rewrite verify_permission_subset, fixed_policy_perm. unfold streq.
    destruct (decide (uid = [])) as [->|Hu]; [done|].
    rewrite (bool_decide_false (uid = [])) by done.
    rewrite (bool_decide_false (uid = [])) by done. by destruct (bool_decide (uid = "bwcpn")). }
  destruct only_bucket, (key_empty (pr_object s)); cbn [negb andb orb]; try (eexists _, _, _; by repeat split).
  set (c2 := if prefetch then _ else _).
  assert (Hc2 : ctx_ok c2) by (subst c2; destruct prefetch; auto using set_atomic_ok, set_prefetch_ok).
  destruct (read_policy_fixed stat_file file root chunk size0 buf0 get_user no_user_found s
     (found_bucket (pr_bucket_name s)) RGWAccessControlPolicy_new (pr_object s) c2 Hc2) as (c' & E & Hc');
    [done|done|apply Hs|].
  cbn [ps_bucket_info ps_bucket_attrs ps_bucket_acl ps_bucket_owner]. rewrite E. eexists _, _, _. by repeat split.
Qed.
End request.

Lemma request_policies_witness :
  let shell (c : str) := if bool_decide (c = "[ -d /srv/photos ]") then 0 else 256 in
  let stat (p : str) := inr (1000, 1450000000) : Z + Z * Z in
  let getpwuid (u : Z) := inr ("joe" : str) : Z + str in
  let s := Mk_policy_request false RGWUserInfo_new 15 RGWHTTPArgs_new "s3" None "photos" (Mk_rgw_obj_key "cat.jpg" []) in
  ∃ p k c', rgw_build_policies (λ _, None) (λ _, None) "/srv" 4096 0 []
      (rgw_get_user_info_by_uid "/etc/rgw" (λ _, None) (λ _, 1000))
      (get_bucket_info "/srv" shell stat getpwuid false) s false true [] [] = Some (0, p, k, c') ∧
    ps_bucket_exists p = true ∧ ps_object_acl p = Some (ps_bucket_acl p) ∧
    verify_permission policy_base (ps_bucket_acl p) "joe" 15 RGW_PERM_READ_ACP = false ∧
    verify_permission policy_base (ps_bucket_acl p) "bwcpn" 15 RGW_PERM_READ_ACP = true.
Proof.
  intros shell stat getpwuid s.
  assert (Hs : ∀ p, match stat p with inl e => 0 < e | inr (_, t) => - 2 ^ 63 <= t < 2 ^ 63 end) by (intros; cbn; lia).
  assert (Hp : ∀ u, match getpwuid u with inl e => 0 < e | inr o => zlen o < 2 ^ 31 end) by (intros; by vm_compute).
  destruct (request_policies (λ _, None) (λ _, None) "/srv" 4096 0 [] "/etc/rgw" (λ _, None) (λ _, 1000) shell stat getpwuid
              false Hs Hp s false true [] "[ -d /srv/photos ]") as (p & k & c' & E & _ & Hx & _ & Ho & _ & Hv).
  - split; [by apply (bool_decide_unpack _)|]. by repeat split.
  - by constructor.
  - reflexivity.
  - by eexists.
  - exists p, k, c'. split; [exact E|]. split; [done|]. split; [exact Ho|]. rewrite !Hv. split; vm_compute; reflexivity.
Defined.

(** ** Reading *)

(** A range that is accepted on a file that is not empty lies within the file,
    and the only range refused starts past its end. *)
Lemma fix_range_bounds size ofs end_ :
  0 < size →
  match fix_range size ofs end_ with
  | inr (o, e) => 0 <= o < size ∧ e < size ∧ (0 <= ofs → o = ofs) ∧ (0 <= ofs → 0 <= end_ < size → e = end_)
  | inl r => r = - ERANGE ∧ size <= ofs
  end.
Proof.
  intros Hs. unfold fix_range. rewrite Z.gtb_ltb, (proj2 (Z.ltb_lt _ _) Hs).
  destruct (Z.ltb_spec ofs 0); [|destruct (Z.ltb_spec end_ 0)]; rewrite !Z.geb_leb;
    repeat match goal with |- context [?a <=? ?b] => destruct (Z.leb_spec a b) end; lia.
Qed.

Lemma pread_idem content off buf :
  pread content off (pread content off buf) = pread content off buf.
Proof.
  unfold pread. set (d := take BLOCK_SIZE (drop off content)). clearbody d. cbv zeta. by rewrite drop_app_length.
Qed.

(** [ObjectReadOperation::read] does not advance: what is appended is one block
    of the file over and over, as often as the length takes blocks. *)
Lemma read_loop_repeats content off buf pbl fuel left :
  left <= Z.of_nat fuel →
  read_loop fuel left content off buf pbl =
    pbl ++ mjoin (replicate (Z.to_nat ((left + 1023) / 1024)) (take BLOCK_SIZE (pread content off buf))).
Proof.
  revert left buf pbl. induction fuel as [|fuel IH]; intros left buf pbl Hf; cbn [read_loop].
  - assert (Z.to_nat ((left + 1023) / 1024) = 0%nat) as -> by dlia. by rewrite app_nil_r.
  - rewrite Z.gtb_ltb. destruct (Z.ltb_spec 0 left) as [Hl|Hl].
    + rewrite IH by (change (Z.of_nat BLOCK_SIZE) with 1024; lia). rewrite pread_idem, <- app_assoc.
      change (Z.of_nat BLOCK_SIZE) with 1024.
      assert (Z.to_nat ((left + 1023) / 1024) = S (Z.to_nat ((left - 1024 + 1023) / 1024))) as -> by dlia.
      done.
    + assert (Z.to_nat ((left + 1023) / 1024) = 0%nat) as -> by dlia. by rewrite app_nil_r.
Qed.
