(* ===== verification/WorkPool.v ===== *)
(** * The worker pool ([src/src/common/WorkQueue.cc], [WorkQueue.h])

    [ThreadPool] as a system of worker threads and of threads that call its
    methods.  Everything the pool keeps is read and written under [_lock], so a
    step of a thread is what it does between taking the lock and giving it up:
    unlocking, waiting on a condition variable, or returning.  Workers wait on
    [_cond] with a timeout and may wake at any time.  Callers of [pause] and
    [drain] wait on [_wait_cond] without one; a wait ends after a signal, or
    spuriously, which is a step of its own.  The two phases of [stop] that hold
    no lock are steps of their own too.

    The virtual interface of a queue is the class [WorkQueue_], its contract
    [WorkQueueOk]; the queue of the gateway ([RGWWQ] of
    [src/src/rgw/rgw_main.cc]) and [PointerWQ] are instances. *)

From stdpp Require Import gmap.
From S2P Require Import Prelude Lockdep.
#[local] Open Scope Z_scope.

(** ** Queues *)

(** [ThreadPool::WorkQueue_], with the [_enqueue] of the classes that implement
    it.  [_void_process] runs without the lock and is a step of the system. *)
Class WorkQueue_ (Q T : Type) := {
  wq_enqueue : T → Q → bool * Q;
  wq_empty : Q → bool;
  wq_dequeue : Q → option T * Q;
  wq_process_finish : T → Q → outcome Q;
  wq_clear : Q → outcome Q
}.

(** What the pool relies on: a queue holds a sequence of items, new ones go to
    its end, [_void_dequeue] takes the first and returns null only when there is
    none. *)
Class WorkQueueOk (Q T : Type) `{WorkQueue_ Q T} := {
  wq_items : Q → list T;
  wq_enqueue_items x q : wq_items (wq_enqueue x q).2 = wq_items q ++ [x];
  wq_empty_items q : wq_empty q = true ↔ wq_items q = [];
  wq_dequeue_items q : wq_items q = option_list (wq_dequeue q).1 ++ wq_items (wq_dequeue q).2;
  wq_dequeue_none q : (wq_dequeue q).1 = None → wq_items q = [];
  wq_finish_items x q q' : wq_process_finish x q = Done q' → wq_items q' = wq_items q;
  wq_clear_items q q' : wq_clear q = Done q' → wq_items q' = []
}.

(** [RGWProcess::RGWWQ]: the queue is [m_req_queue]; [_clear] asserts that it is
    empty. *)
#[export] Instance RGWWQ (T : Type) : WorkQueue_ (list T) T := {
  wq_enqueue req m_req_queue := (true, m_req_queue ++ [req]);
  wq_empty m_req_queue := match m_req_queue with [] => true | _ => false end;
  wq_dequeue m_req_queue :=
    match m_req_queue with [] => (None, []) | req :: rest => (Some req, rest) end;
  wq_process_finish _ m_req_queue := Done m_req_queue;
  wq_clear m_req_queue := match m_req_queue with [] => Done [] | _ => Dies end
}.

#[export] Instance RGWWQ_ok (T : Type) : WorkQueueOk (list T) T.
Proof.
  refine {| wq_items := id |}.
  - done.
  - by intros [].
  - by intros [].
  - by intros [].
  - by intros; simplify_eq/=.
  - by intros [] ??; simplify_eq/=.
Defined.

(** [ThreadPool::PointerWQ<T>]. *)
Record pointer_wq (T : Type) := Mk_pwq { m_items : list T; m_processing : Z }.
Arguments Mk_pwq {T} _ _.
Arguments m_items {T} _.
Arguments m_processing {T} _.

#[export] Instance PointerWQ (T : Type) : WorkQueue_ (pointer_wq T) T := {
  wq_enqueue item q := (true, Mk_pwq (m_items q ++ [item]) (m_processing q));
  wq_empty q := match m_items q with [] => true | _ => false end;
  wq_dequeue q :=
    match m_items q with
    | [] => (None, q)
    | item :: rest => (Some item, Mk_pwq rest (u32 (m_processing q + 1)))
    end;
  wq_process_finish _ q :=
    assert_ (m_processing q >? 0);; Done (Mk_pwq (m_items q) (u32 (m_processing q - 1)));
  wq_clear q := Done (Mk_pwq [] (m_processing q))
}.

#[export] Instance PointerWQ_ok (T : Type) : WorkQueueOk (pointer_wq T) T.
Proof.
  refine {| wq_items := m_items |}.
  - done.
  - by intros [[] ?].
  - by intros [[] ?].
  - by intros [[] ?].
  - intros x q q' Hd. cbn in Hd. by outcome_inv.
  - by intros q q' [= <-].
Defined.

(** ** The pool *)

Record pool := Mk_pool {
  _stop : bool;
  _pause : Z;
  _draining : Z;
  _num_threads : Z;
  work_queues : list Z;      (* pointers to queues *)
  last_work_queue : Z;
  _threads : gset Z;
  _old_threads : list Z;
  processing : Z
}.

Definition ThreadPool_new (n : Z) : pool := Mk_pool false 0 0 (u32 n) [] 0 ∅ [] 0.

Definition set_stop b p := Mk_pool b (_pause p) (_draining p) (_num_threads p) (work_queues p) (last_work_queue p) (_threads p) (_old_threads p) (processing p).
Definition set_pause n p := Mk_pool (_stop p) n (_draining p) (_num_threads p) (work_queues p) (last_work_queue p) (_threads p) (_old_threads p) (processing p).
Definition set_draining n p := Mk_pool (_stop p) (_pause p) n (_num_threads p) (work_queues p) (last_work_queue p) (_threads p) (_old_threads p) (processing p).
Definition set_num_threads n p := Mk_pool (_stop p) (_pause p) (_draining p) n (work_queues p) (last_work_queue p) (_threads p) (_old_threads p) (processing p).
Definition set_queues l p := Mk_pool (_stop p) (_pause p) (_draining p) (_num_threads p) l (last_work_queue p) (_threads p) (_old_threads p) (processing p).
Definition set_last n p := Mk_pool (_stop p) (_pause p) (_draining p) (_num_threads p) (work_queues p) n (_threads p) (_old_threads p) (processing p).
Definition set_threads ts old p := Mk_pool (_stop p) (_pause p) (_draining p) (_num_threads p) (work_queues p) (last_work_queue p) ts old (processing p).
Definition set_processing n p := Mk_pool (_stop p) (_pause p) (_draining p) (_num_threads p) (work_queues p) (last_work_queue p) (_threads p) (_old_threads p) n.

(** [remove_work_queue]: the search runs off the vector when the queue is not in
    it. *)
Fixpoint remove_first (wq : Z) (l : list Z) : option (list Z) :=
  match l with
  | [] => None
  | w :: l => if w =? wq then Some l else cons w <$> remove_first wq l
  end.

Section System.
  Context {Q T : Type} `{WorkQueue_ Q T}.

(** A worker waits for the lock at its start, waits on [_cond], runs
    [_void_process] on an item, is back from it, or has left [worker]. *)
Inductive wstate :=
| WStarting
| WWaiting
| WProcessing (wq : Z) (item : T)
| WProcessed (wq : Z) (item : T)
| WExited.

(** A caller inside a method: in the wait loop of [pause] or [drain], signalled
    or not, or in the part of [stop] without the lock. *)
Inductive cstate :=
| Pausing (woken : bool)
| Draining (wq : option Z) (woken : bool)
| Joining (joined : gset Z)
| Joined.

Record system := Mk_system {
  s_pool : pool;
  s_queues : gmap Z Q;
  s_workers : gmap Z wstate;
  s_callers : gmap Z cstate
}.

Definition on_pool (f : pool → pool) (s : system) := Mk_system (f (s_pool s)) (s_queues s) (s_workers s) (s_callers s).
Definition with_queues (qs : gmap Z Q) (s : system) := Mk_system (s_pool s) qs (s_workers s) (s_callers s).
Definition set_worker (wt : Z) (w : wstate) (s : system) :=
  Mk_system (s_pool s) (s_queues s) (<[wt := w]> (s_workers s)) (s_callers s).
Definition set_caller (c : Z) (w : cstate) (s : system) :=
  Mk_system (s_pool s) (s_queues s) (s_workers s) (<[c := w]> (s_callers s)).
Definition returned (c : Z) (s : system) := Mk_system (s_pool s) (s_queues s) (s_workers s) (delete c (s_callers s)).

(** [_wait_cond.Signal()], which is a broadcast. *)
Definition wake (w : cstate) : cstate :=
  match w with Pausing _ => Pausing true | Draining wq _ => Draining wq true | _ => w end.
Definition wait_cond_signal (s : system) :=
  Mk_system (s_pool s) (s_queues s) (s_workers s) (wake <$> s_callers s).

(** ** Workers *)

(** [join_old_threads]: those threads have nothing left to do but return. *)
Definition join_old_threads : system → system := on_pool (λ p, set_threads (_threads p) [] p).

(** The loop over the queues; [None] is a pointer to a queue that is gone. *)
Fixpoint scan (tries : nat) (wqs : list Z) (last : Z) (qs : gmap Z Q) : option (option (Z * T) * Z * gmap Z Q) :=
  match tries with
  | O => Some (None, last, qs)
  | S tries =>
      let last := (last + 1) mod Z.of_nat (length wqs) in
      wq ← wqs !! Z.to_nat last;
      q ← qs !! wq;
      match wq_dequeue q with
      | (Some item, q') => Some (Some (wq, item), last, <[wq := q']> qs)
      | (None, q') => scan tries wqs last (<[wq := q']> qs)
      end
  end.

(** The body of [worker]'s loop from the test of [_stop], with the lock held, to
    where it gives up the lock. *)
Definition worker_loop (wt : Z) (s : system) : option (system) :=
  if _stop (s_pool s) then Some (set_worker wt WExited s)
  else
    let s := join_old_threads s in
    let p := s_pool s in
    if Z.of_nat (size (_threads p)) >? _num_threads p then
      Some (set_worker wt WExited (on_pool (set_threads (_threads p ∖ {[wt]}) (_old_threads p ++ [wt])) s))
    else if (_pause p =? 0) && negb (bool_decide (work_queues p = [])) then
      '(found, last, qs) ← scan (length (work_queues p)) (work_queues p) (last_work_queue p) (s_queues s);
      let s := with_queues qs (on_pool (set_last last) s) in
      match found with
      | Some (wq, item) => Some (set_worker wt (WProcessing wq item) (on_pool (set_processing (processing p + 1)) s))
      | None => Some (set_worker wt WWaiting s)
      end
    else Some (set_worker wt WWaiting s).

(** The rest of the body after [_void_process], up to [continue]; the queue's
    [_void_process_finish] may fail its assertion. *)
Definition worker_finish (wq : Z) (item : T) (s : system) : option (outcome system) :=
  q ← s_queues s !! wq;
  Some (q' ← wq_process_finish item q;
        let s := on_pool (λ p, set_processing (processing p - 1) p) (with_queues (<[wq := q']> (s_queues s)) s) in
        Done (if negb (_pause (s_pool s) =? 0) || negb (_draining (s_pool s) =? 0)
              then wait_cond_signal s else s)).

(** ** Callers *)

(** [start_threads]: the new threads, [new], are as many as are missing. *)
Definition start_threads (new : list Z) (s : system) : system :=
  Mk_system (set_threads (_threads (s_pool s) ∪ list_to_set new) (_old_threads (s_pool s)) (s_pool s))
            (s_queues s) (foldr (λ wt, <[wt := WStarting]>) (s_workers s) new) (s_callers s).
Definition missing (s : system) : nat :=
  Z.to_nat (_num_threads (s_pool s) - Z.of_nat (size (_threads (s_pool s)))).

(** [WorkQueue<T>::queue]. *)
Definition queue_item (wq : Z) (item : T) (s : system) : option system :=
  q ← s_queues s !! wq;
  Some (with_queues (<[wq := (wq_enqueue item q).2]> (s_queues s)) s).

(** [while (processing) _wait_cond.Wait(_lock)] and what follows. *)
Definition pause_wait (c : Z) (s : system) : system :=
  if processing (s_pool s) =? 0 then returned c s else set_caller c (Pausing false) s.
Definition pause (c : Z) (s : system) : system :=
  pause_wait c (on_pool (λ p, set_pause (_pause p + 1) p) s).
Definition pause_new (s : system) : system := on_pool (λ p, set_pause (_pause p + 1) p) s.
Definition unpause (s : system) : outcome system :=
  assert_ (_pause (s_pool s) >? 0);; Done (on_pool (λ p, set_pause (_pause p - 1) p) s).

(** The condition of [drain]'s loop. *)
Definition drain_busy (wq : option Z) (s : system) : option bool :=
  if negb (processing (s_pool s) =? 0) then Some true
  else match wq with
       | None => Some false
       | Some wq => q ← s_queues s !! wq; Some (negb (wq_empty q))
       end.
Definition drain_wait (c : Z) (wq : option Z) (s : system) : option system :=
  busy ← drain_busy wq s;
  Some (if busy : bool then set_caller c (Draining wq false) s
        else returned c (on_pool (λ p, set_draining (_draining p - 1) p) s)).
Definition drain (c : Z) (wq : option Z) (s : system) : option system :=
  drain_wait c wq (on_pool (λ p, set_draining (_draining p + 1) p) s).

(** [stop]: up to the first [Unlock]; after the joins, [_threads.clear()]; and
    the rest. *)
Definition stop_begin (c : Z) (s : system) : system :=
  set_caller c (Joining ∅) (join_old_threads (on_pool (set_stop true) s)).
Definition stop_clear (c : Z) (s : system) : system :=
  set_caller c Joined (on_pool (λ p, set_threads ∅ (_old_threads p) p) s).
Fixpoint clear_queues (wqs : list Z) (qs : gmap Z Q) : option (outcome (gmap Z Q)) :=
  match wqs with
  | [] => Some (Done qs)
  | wq :: wqs =>
      q ← qs !! wq;
      match wq_clear q with
      | Done q' => clear_queues wqs (<[wq := q']> qs)
      | Dies => Some Dies
      | Spins => Some Spins
      end
  end.
Definition stop_end (c : Z) (s : system) : option (outcome system) :=
  r ← clear_queues (work_queues (s_pool s)) (s_queues s);
  Some (qs ← r; Done (returned c (on_pool (set_stop false) (with_queues qs s)))).

(** ** Steps *)

Inductive label :=
| Wake_ (wt : Z) (took : option (Z * T))   (* a worker takes the lock at its start or after waiting *)
| Process (wt wq : Z) (item : T)      (* [_void_process] returns *)
| Finish (wt : Z) (took : option (Z * T))  (* the worker has the lock again *)
| Start (c : Z) (new : list Z)
| Resize (c v : Z) (new : list Z)     (* [handle_conf_change] *)
| Queue (c wq : Z) (item : T)
| Pause (c : Z)
| PauseNew (c : Z)
| Unpause (c : Z)
| Drain (c : Z) (wq : option Z)
| Resume (c : Z)                      (* a caller returns from waiting *)
| Spurious (c : Z)
| StopBegin (c : Z)
| StopJoin (c wt : Z)
| StopClear (c : Z)
| StopEnd (c : Z)
| AddQueue (c wq : Z) (q : Q)
| RemoveQueue (c wq : Z).

(** The item a worker left the lock with. *)
Definition taken (wt : Z) (s : system) : option (Z * T) :=
  match s_workers s !! wt with Some (WProcessing wq item) => Some (wq, item) | _ => None end.

Definition idle (c : Z) (s : system) : Prop := s_callers s !! c = None.
Definition fresh_workers (new : list Z) (s : system) : Prop :=
  NoDup new ∧ Forall (λ wt, s_workers s !! wt = None) new ∧ length new = missing s.

Inductive step : system → label → system → Prop :=
| step_wake s wt w s' :
    s_workers s !! wt = Some w → w = WStarting ∨ w = WWaiting →
    worker_loop wt s = Some s' → step s (Wake_ wt (taken wt s')) s'
| step_process s wt wq item :
    s_workers s !! wt = Some (WProcessing wq item) →
    step s (Process wt wq item) (set_worker wt (WProcessed wq item) s)
| step_finish s wt wq item s1 s' :
    s_workers s !! wt = Some (WProcessed wq item) →
    worker_finish wq item s = Some (Done s1) → worker_loop wt s1 = Some s' →
    step s (Finish wt (taken wt s')) s'
| step_start s c new :
    idle c s → fresh_workers new s → step s (Start c new) (start_threads new s)
| step_resize s c v new :
    idle c s → v > 0 → fresh_workers new (on_pool (set_num_threads v) s) →
    step s (Resize c v new) (start_threads new (on_pool (set_num_threads v) s))
| step_queue s c wq item s' :
    idle c s → queue_item wq item s = Some s' → step s (Queue c wq item) s'
| step_pause s c : idle c s → step s (Pause c) (pause c s)
| step_pause_new s c : idle c s → step s (PauseNew c) (pause_new s)
| step_unpause s c s' : idle c s → unpause s = Done s' → step s (Unpause c) s'
| step_drain s c wq s' : idle c s → drain c wq s = Some s' → step s (Drain c wq) s'
| step_resume_pause s c :
    s_callers s !! c = Some (Pausing true) → step s (Resume c) (pause_wait c s)
| step_resume_drain s c wq s' :
    s_callers s !! c = Some (Draining wq true) → drain_wait c wq s = Some s' → step s (Resume c) s'
| step_spurious s c w :
    s_callers s !! c = Some w → step s (Spurious c) (set_caller c (wake w) s)
| step_stop_begin s c : idle c s → step s (StopBegin c) (stop_begin c s)
| step_stop_join s c joined wt :
    s_callers s !! c = Some (Joining joined) → wt ∈ _threads (s_pool s) → s_workers s !! wt = Some WExited →
    step s (StopJoin c wt) (set_caller c (Joining (joined ∪ {[wt]})) s)
| step_stop_clear s c joined :
    s_callers s !! c = Some (Joining joined) → _threads (s_pool s) ⊆ joined →
    step s (StopClear c) (stop_clear c s)
| step_stop_end s c s' :
    s_callers s !! c = Some Joined → stop_end c s = Some (Done s') → step s (StopEnd c) s'
| step_add_queue s c wq q :
    idle c s → s_queues s !! wq = None → wq_empty q = true →
    step s (AddQueue c wq q)
      (with_queues (<[wq := q]> (s_queues s)) (on_pool (λ p, set_queues (work_queues p ++ [wq]) p) s))
| step_remove_queue s c wq wqs :
    idle c s → remove_first wq (work_queues (s_pool s)) = Some wqs →
    step s (RemoveQueue c wq)
      (with_queues (delete wq (s_queues s)) (on_pool (set_queues wqs) s)).

(** A run, with what happened in it, latest last. *)
Inductive run (n : Z) : list label → system → Prop :=
| run_init : run n [] (Mk_system (ThreadPool_new n) ∅ ∅ ∅)
| run_step tr s l s' : run n tr s → step s l s' → run n (tr ++ [l]) s'.
End System.
Arguments wstate : clear implicits.
Arguments label : clear implicits.
Arguments system : clear implicits.
