(* ===== verification/WorkPoolFacts.v ===== *)
(** * The worker pool keeps its promises

    Every item given to a queue is processed once and in order of arrival, what
    [drain] and [pause] promise when they return, and that a waiting caller is
    woken ([pool_serves]). *)

From stdpp Require Import gmap.
From S2P Require Import Prelude Lockdep WorkPool.
#[local] Open Scope Z_scope.

(** ** Collecting over a map *)

Section Gather.
  Context {A B : Type} (f : A → list B).

Definition gather (m : gmap Z A) : list B := x ← map_to_list m; f x.2.

Lemma gather_empty : gather ∅ = [].
Proof. unfold gather. by rewrite map_to_list_empty. Qed.

Lemma gather_new m k a : m !! k = None → gather (<[k := a]> m) ≡ₚ f a ++ gather m.
Proof. intros Hk. unfold gather. by rewrite map_to_list_insert by done. Qed.

Lemma gather_delete m k a : m !! k = Some a → gather m ≡ₚ f a ++ gather (delete k m).
Proof.
  intros Hk. rewrite <-(insert_delete_id m k a Hk) at 1. apply gather_new, lookup_delete_eq.
Qed.

Lemma gather_insert m k a a' : m !! k = Some a → gather (<[k := a']> m) ≡ₚ f a' ++ gather (delete k m).
Proof.
  intros Hk. rewrite <-insert_delete_eq. apply gather_new, lookup_delete_eq.
Qed.

Lemma gather_same m k a a' : m !! k = Some a → f a' = f a → gather (<[k := a']> m) ≡ₚ gather m.
Proof. intros Hk Hf. rewrite (gather_insert _ _ _ _ Hk), (gather_delete _ _ _ Hk). by rewrite Hf. Qed.

Lemma elem_of_gather m b : b ∈ gather m ↔ ∃ k a, m !! k = Some a ∧ b ∈ f a.
Proof.
  unfold gather. rewrite list_elem_of_bind. split.
  - intros ([k a] & Hb & Hm). exists k, a. by rewrite elem_of_map_to_list in Hm.
  - intros (k & a & Hm & Hb). exists (k, a). by rewrite elem_of_map_to_list.
Qed.

Lemma gather_nil m : gather m = [] ↔ ∀ k a, m !! k = Some a → f a = [].
Proof.
  split.
  - intros Hm k a Hk. apply elem_of_nil_inv. intros b Hb.
    apply (not_elem_of_nil b). rewrite <-Hm. apply elem_of_gather. eauto.
  - intros Hf. apply elem_of_nil_inv. intros b (k & a & Hk & Hb)%elem_of_gather.
    rewrite (Hf k a Hk) in Hb. by apply elem_of_nil in Hb.
Qed.

(** How many there are. *)
Definition count (m : gmap Z A) : Z := Z.of_nat (length (gather m)).

Lemma count_new m k a : m !! k = None → count (<[k := a]> m) = count m + Z.of_nat (length (f a)).
Proof. intros Hk. unfold count. rewrite gather_new, length_app by done. lia. Qed.

Lemma count_delete m k a : m !! k = Some a → count (delete k m) = count m - Z.of_nat (length (f a)).
Proof. intros Hk. unfold count. rewrite (gather_delete m k a Hk), length_app. lia. Qed.

Lemma count_insert m k a a' :
  m !! k = Some a → count (<[k := a']> m) = count m - Z.of_nat (length (f a)) + Z.of_nat (length (f a')).
Proof. intros Hk. unfold count. rewrite (gather_insert m k a a' Hk), (gather_delete m k a Hk), !length_app. lia. Qed.

Lemma count_pos m k a : m !! k = Some a → Z.of_nat (length (f a)) <= count m.
Proof. intros Hk. unfold count. rewrite (gather_delete m k a Hk), length_app. lia. Qed.

Lemma gather_fmap (g : A → A) m : (∀ a, f (g a) = f a) → gather (g <$> m) ≡ₚ gather m.
Proof.
  intros Hg. induction m as [|k a m Hk _ IH] using map_first_key_ind.
  - by rewrite fmap_empty.
  - rewrite fmap_insert, !gather_new, Hg, IH by (by rewrite ?lookup_fmap, ?Hk). done.
Qed.
End Gather.

Section Facts.
  Context {Q T : Type} `{WorkQueueOk Q T}.

(** ** What happened in a run *)

(** The items of one queue, in their order. *)
Definition only (wq : Z) (l : list (Z * T)) : list T := (filter (λ p, p.1 = wq) l).*2.

Lemma only_app wq l k : only wq (l ++ k) = only wq l ++ only wq k.
Proof. unfold only. by rewrite filter_app, fmap_app. Qed.

Lemma only_nil wq : only wq [] = [].
Proof. done. Qed.

Lemma only_perm wq l k : l ≡ₚ k → only wq l ≡ₚ only wq k.
Proof. intros Hp. unfold only. by rewrite Hp. Qed.

#[export] Instance only_proper wq : Proper ((≡ₚ) ==> (≡ₚ)) (only wq).
Proof. intros l k. apply only_perm. Qed.

(** What a step gave to a queue, took from one, and processed. *)
Definition queued1 (l : label Q T) : list (Z * T) := match l with Queue _ wq x => [(wq, x)] | _ => [] end.
Definition took1 (l : label Q T) : list (Z * T) :=
  match l with Wake_ _ o | Finish _ o => option_list o | _ => [] end.
Definition processed1 (l : label Q T) : list (Z * T) := match l with Process _ wq x => [(wq, x)] | _ => [] end.

Definition queued (wq : Z) (tr : list (label Q T)) : list T := only wq (tr ≫= queued1).
Definition took (wq : Z) (tr : list (label Q T)) : list T := only wq (tr ≫= took1).
Definition processed (wq : Z) (tr : list (label Q T)) : list T := only wq (tr ≫= processed1).

Definition items_of (qs : gmap Z Q) (wq : Z) : list T := from_option wq_items [] (qs !! wq).

(** Items in the hands of workers: in [_void_process], and in all. *)
Definition running1 (w : wstate T) : list (Z * T) := match w with WProcessing wq x => [(wq, x)] | _ => [] end.
Definition hand1 (w : wstate T) : list (Z * T) :=
  match w with WProcessing wq x | WProcessed wq x => [(wq, x)] | _ => [] end.
Definition pausing1 (w : cstate) : list () := match w with Pausing _ => [tt] | _ => [] end.
Definition draining1 (w : cstate) : list () := match w with Draining _ _ => [tt] | _ => [] end.
Definition stopping1 (w : cstate) : list () := match w with Joining _ | Joined => [tt] | _ => [] end.

Definition running (s : system Q T) := gather running1 (s_workers s).
Definition in_hand (s : system Q T) := gather hand1 (s_workers s).
Definition pausers (s : system Q T) : Z := count pausing1 (s_callers s).
Definition drainers (s : system Q T) : Z := count draining1 (s_callers s).
Definition stoppers (s : system Q T) : Z := count stopping1 (s_callers s).

(** How the pool is used: [unpause] matches a [pause] that has returned, a queue
    is destroyed or cleared when nothing of it is left, and threads are not
    started or stopped while a [stop] is in progress. *)
Definition orderly (s : system Q T) (l : label Q T) : Prop :=
  match l with
  | Unpause _ => pausers s < _pause (s_pool s)
  | RemoveQueue _ wq =>
      items_of (s_queues s) wq = [] ∧ only wq (in_hand s) = [] ∧
      ∀ c b, s_callers s !! c ≠ Some (Draining (Some wq) b)
  | StopEnd _ => ∀ wq, items_of (s_queues s) wq = []
  | Start _ _ | Resize _ _ _ | StopBegin _ => stoppers s = 0
  | Drain _ (Some wq) => wq ∈ work_queues (s_pool s)
  | _ => True
  end.

Inductive orderly_run (n : Z) : list (label Q T) → system Q T → Prop :=
| orderly_init : orderly_run n [] (Mk_system (ThreadPool_new n) ∅ ∅ ∅)
| orderly_step tr s l s' : orderly_run n tr s → orderly s l → step s l s' → orderly_run n (tr ++ [l]) s'.

(** A sequence of steps from one state to another. *)
Inductive steps : system Q T → list (label Q T) → system Q T → Prop :=
| steps_nil s : steps s [] s
| steps_cons s l s1 tr s2 : step s l s1 → steps s1 tr s2 → steps s (l :: tr) s2.

(** ** Taking an item *)

Lemma items_of_insert qs wq q v : items_of (<[wq := q]> qs) v = if decide (wq = v) then wq_items q else items_of qs v.
Proof.
  unfold items_of. case_decide; [subst; by rewrite lookup_insert_eq|by rewrite lookup_insert_ne].
Qed.

Lemma only_one wq v x : only v [(wq, x)] = if decide (wq = v) then [x] else [].
Proof. unfold only. rewrite filter_cons, filter_nil. cbn [fst]. by case_decide. Qed.

Lemma only_option wq v (o : option T) :
  only v (option_list ((wq,.) <$> o)) = if decide (wq = v) then option_list o else [].
Proof.
  destruct o as [x|]; [|by case_decide].
  change (option_list ((wq,.) <$> Some x)) with [(wq, x)]. by rewrite only_one.
Qed.

Lemma scan_items tries wqs last qs found last' qs' :
  scan tries wqs last qs = Some (found, last', qs') →
  dom qs' = dom qs ∧ ∀ v, items_of qs v = only v (option_list found) ++ items_of qs' v.
Proof.
  revert last qs. induction tries as [|tries IH]; intros last qs Hs; cbn in Hs.
  { by simplify_eq. }
  destruct (wqs !! _) as [wq|] eqn:Hw; [|done]. cbn in Hs.
  destruct (qs !! wq) as [q|] eqn:Hq; [|done]. cbn in Hs.
  assert (dom (<[wq := (wq_dequeue q).2]> qs) = dom qs) as Hdom
    by (apply dom_insert_lookup_L; eauto).
  pose proof (wq_dequeue_items q) as Hi.
  assert (∀ v, items_of qs v = only v (option_list ((wq,.) <$> (wq_dequeue q).1)) ++ items_of (<[wq := (wq_dequeue q).2]> qs) v) as Hv.
  { intros v. rewrite items_of_insert. unfold items_of at 1.
    rewrite only_option. case_decide; [subst; rewrite Hq|]; done. }
  destruct (wq_dequeue q) as [[item|] q']; cbn in *; simplify_eq.
  - split; [done|exact Hv].
  - destruct (IH _ _ Hs) as [Hd Hi']. rewrite Hd. split; [done|].
    intros v. rewrite (Hv v). apply Hi'.
Qed.

(** Nothing found: the queues looked at are empty. *)
Lemma scan_none tries wqs last qs last' qs' i wq :
  scan tries wqs last qs = Some (None, last', qs') → (i < tries)%nat →
  wqs !! Z.to_nat ((last + 1 + Z.of_nat i) mod Z.of_nat (length wqs)) = Some wq → items_of qs wq = [].
Proof.
  revert last qs i. induction tries as [|tries IH]; intros last qs i Hs Hi Hl; [lia|]. cbn in Hs.
  destruct (wqs !! _) as [v|] eqn:Hw; [|done]. cbn in Hs.
  destruct (qs !! v) as [q|] eqn:Hq; [|done]. cbn in Hs.
  pose proof (wq_dequeue_none q) as Hn. pose proof (wq_dequeue_items q) as Hq'.
  destruct (wq_dequeue q) as [[item|] q'] eqn:Ed; [done|]. cbn in *. specialize (Hn eq_refl).
  rewrite Hn in Hq'.
  destruct i as [|i].
  - rewrite Z.add_0_r, Hw in Hl. simplify_eq. unfold items_of. by rewrite Hq.
  - assert (length wqs ≠ 0%nat) as Hne by (intros ->%nil_length_inv; done).
    assert (items_of (<[v := q']> qs) wq = []) as Hr.
    { eapply (IH _ _ i Hs); [lia|]. rewrite <-Hl. do 2 f_equal.
      rewrite <-Z.add_assoc, Zplus_mod_idemp_l. f_equal. lia. }
    rewrite items_of_insert in Hr. unfold items_of. case_decide; [subst; by rewrite Hq|exact Hr].
Qed.

Lemma scan_all_empty wqs last qs last' qs' wq :
  scan (length wqs) wqs last qs = Some (None, last', qs') → wq ∈ wqs → items_of qs wq = [].
Proof.
  intros Hs (j & Hj)%list_elem_of_lookup. pose proof (lookup_lt_Some _ _ _ Hj) as Hlt.
  eapply (scan_none _ _ _ _ _ _ (Z.to_nat ((Z.of_nat j - last - 1) mod Z.of_nat (length wqs))) wq Hs).
  - pose proof (Z.mod_pos_bound (Z.of_nat j - last - 1) (Z.of_nat (length wqs))). lia.
  - rewrite Z2Nat.id by (apply Z.mod_pos_bound; lia). rewrite Zplus_mod_idemp_r.
    replace (last + 1 + (Z.of_nat j - last - 1)) with (Z.of_nat j) by lia.
    rewrite Z.mod_small by lia. by rewrite Nat2Z.id.
Qed.

Lemma scan_total tries wqs last qs :
  (∀ wq, wq ∈ wqs → wq ∈ dom qs) → (tries ≠ 0%nat → wqs ≠ []) → is_Some (scan tries wqs last qs).
Proof.
  revert last qs. induction tries as [|tries IH]; intros last qs Hd Hne; [done|]. cbn.
  assert (length wqs ≠ 0%nat) as Hl by (intros ->%nil_length_inv; by apply Hne).
  pose proof (Z.mod_pos_bound (last + 1) (Z.of_nat (length wqs))) as Hm.
  destruct (lookup_lt_is_Some_2 wqs (Z.to_nat ((last + 1) mod Z.of_nat (length wqs)))) as [wq Hw]; [lia|].
  rewrite Hw. cbn. assert (wq ∈ dom qs) as [q Hq]%elem_of_dom by (apply Hd; by apply list_elem_of_lookup_2 in Hw). rewrite Hq. cbn.
  destruct (wq_dequeue q) as [[item|] q']; [done|]. apply IH; [|intros _ En; by rewrite En in Hl].
  intros v Hv. rewrite dom_insert. apply elem_of_union_r. by apply Hd.
Qed.
(** ** The invariant *)

(** [hands] are the items that count as being processed. *)
Record pool_inv_on (hands : list (Z * T)) (s : system Q T) : Prop := {
  pi_processing : processing (s_pool s) = Z.of_nat (length hands);
  pi_hands : ∀ wq x, (wq, x) ∈ hands → wq ∈ dom (s_queues s);
  pi_draining : _draining (s_pool s) = drainers s;
  pi_pausers : pausers s <= _pause (s_pool s);
  pi_queues : ∀ wq, wq ∈ work_queues (s_pool s) → wq ∈ dom (s_queues s);
  pi_nodup : NoDup (work_queues (s_pool s));
  pi_drained : ∀ c wq b, s_callers s !! c = Some (Draining (Some wq) b) → wq ∈ work_queues (s_pool s);
  pi_asleep_pause : ∀ c, s_callers s !! c = Some (Pausing false) → processing (s_pool s) ≠ 0;
  pi_asleep_drain : ∀ c o, s_callers s !! c = Some (Draining o false) →
    processing (s_pool s) ≠ 0 ∨ ∃ wq, o = Some wq ∧ items_of (s_queues s) wq ≠ [];
  pi_threads : ∀ wt, wt ∈ _threads (s_pool s) →
    ∃ w, s_workers s !! wt = Some w ∧ (_stop (s_pool s) = false → w ≠ WExited);
  pi_stop : stoppers s = Z.b2z (_stop (s_pool s));
  pi_joined : ∀ c, s_callers s !! c = Some Joined → _threads (s_pool s) = ∅
}.

Definition pool_inv (s : system Q T) : Prop := pool_inv_on (in_hand s) s.

(** ** A worker's turn with the lock *)

Record worker_turn (wt : Z) (s s' : system Q T) : Prop := {
  wt_pool : _stop (s_pool s') = _stop (s_pool s) ∧ _pause (s_pool s') = _pause (s_pool s) ∧
            _draining (s_pool s') = _draining (s_pool s) ∧ _num_threads (s_pool s') = _num_threads (s_pool s) ∧
            work_queues (s_pool s') = work_queues (s_pool s);
  wt_callers : s_callers s' = s_callers s;
  wt_worker : ∃ w, s_workers s' = <[wt := w]> (s_workers s) ∧ running1 w = hand1 w ∧ hand1 w = option_list (taken wt s') ∧
    (w = WExited → _stop (s_pool s) = true ∨ wt ∉ _threads (s_pool s'));
  wt_processing : processing (s_pool s') = processing (s_pool s) + Z.of_nat (length (option_list (taken wt s')));
  wt_dom : dom (s_queues s') = dom (s_queues s);
  wt_items : ∀ v, items_of (s_queues s) v = only v (option_list (taken wt s')) ++ items_of (s_queues s') v;
  wt_took : ∀ wq x, taken wt s' = Some (wq, x) →
    _stop (s_pool s) = false ∧ _pause (s_pool s) = 0 ∧ wq ∈ work_queues (s_pool s);
  wt_threads : _threads (s_pool s') = _threads (s_pool s) ∨
    _threads (s_pool s') = _threads (s_pool s) ∖ {[wt]} ∧ _num_threads (s_pool s) < Z.of_nat (size (_threads (s_pool s)))
}.

Lemma taken_set_worker wt w (s : system Q T) :
  taken wt (set_worker wt w s) = match w with WProcessing wq x => Some (wq, x) | _ => None end.
Proof. unfold taken. cbn. by rewrite lookup_insert_eq. Qed.

Lemma scan_found_in tries wqs last qs wq x last' qs' :
  scan tries wqs last qs = Some (Some (wq, x), last', qs') → wq ∈ wqs.
Proof.
  revert last qs. induction tries as [|tries IH]; intros last qs Hs; [done|]. cbn in Hs.
  destruct (wqs !! _) as [v|] eqn:Hw; [|done]. cbn in Hs.
  destruct (qs !! v) as [q|] eqn:Hq; [|done]. cbn in Hs.
  destruct (wq_dequeue q) as [[item|] q']; simplify_eq; [by eapply list_elem_of_lookup_2|by eapply IH].
Qed.

#[local] Ltac turn := split; rewrite ?taken_set_worker; cbn; try done; try lia; try (by left);
  try (by intros ?? [= <- <-]); [eexists; split_and!; [done..|by (left + intros)]].

Lemma worker_loop_turn wt s s' : worker_loop wt s = Some s' → worker_turn wt s s'.
Proof.
  intros Hl. unfold worker_loop in Hl. destruct (_stop (s_pool s)) eqn:Hst.
  { simplify_eq. turn. }
  cbn [s_pool join_old_threads on_pool set_threads _threads _num_threads] in Hl.
  destruct (Z.gtb_spec (Z.of_nat (size (_threads (s_pool s)))) (_num_threads (s_pool s))) as [Hgt|Hle].
  { simplify_eq. split; rewrite ?taken_set_worker; cbn; try done; [|lia|by right].
    eexists; split; [done|]. split; [done|]. split; [done|]. intros _. right. apply not_elem_of_difference. right. by apply elem_of_singleton. }
  destruct (_ && _) eqn:Hp; [|simplify_eq; turn].
  apply andb_prop in Hp as [Hp%Z.eqb_eq _]. cbn in Hp.
  cbn [work_queues last_work_queue s_queues set_threads] in Hl.
  destruct (scan _ _ _ _) as [[[[[wq x]|] last'] qs']|] eqn:Hs; simplify_eq/=;
    destruct (scan_items _ _ _ _ _ _ _ Hs) as [Hd Hi]; [pose proof (scan_found_in _ _ _ _ _ _ _ _ Hs)|]; turn.
Qed.
Lemma items_of_dom qs wq : items_of qs wq ≠ [] → wq ∈ dom qs.
Proof. unfold items_of. destruct (qs !! wq) eqn:E; [|done]. intros _. apply elem_of_dom. eauto. Qed.

Lemma pool_inv_perm l k s : l ≡ₚ k → pool_inv_on l s → pool_inv_on k s.
Proof.
  intros Hp []. split; try done; [by rewrite <-Hp|]. intros wq x Hx. apply (pi_hands0 wq x). by rewrite Hp.
Qed.

Lemma inv_except wt w s :
  s_workers s !! wt = Some w → hand1 w = [] → pool_inv s → pool_inv_on (gather hand1 (delete wt (s_workers s))) s.
Proof.
  intros Hw Hh. apply pool_inv_perm. unfold in_hand. rewrite (gather_delete _ _ _ _ Hw). by rewrite Hh.
Qed.

(** A worker's turn keeps the invariant; the worker had nothing in its hands
    when it began. *)
Lemma turn_inv wt w s s' :
  s_workers s !! wt = Some w → pool_inv_on (gather hand1 (delete wt (s_workers s))) s →
  worker_turn wt s s' → pool_inv s'.
Proof.
  intros Hw [] [(Es & Ep & Ed & En & Eq) Hc (w' & Ew & _ & Eh & Hex) Hpr Hdom Hit Htk Hth].
  apply (pool_inv_perm (hand1 w' ++ gather hand1 (delete wt (s_workers s)))).
  { unfold in_hand. rewrite Ew. by rewrite (gather_insert _ _ _ _ _ Hw). }
  assert (∀ v, items_of (s_queues s') v ≠ items_of (s_queues s) v → is_Some (taken wt s')) as Hch.
  { intros v Hv. destruct (taken wt s'); [done|]. by rewrite Hit in Hv. }
  split; unfold drainers, pausers, stoppers in *; rewrite ?Hc, ?Hpr, ?Es, ?Ep, ?Ed, ?Eq, ?Hdom, ?Eh; try done.
  - rewrite length_app. lia.
  - intros wq x [Hx|Hx]%elem_of_app; [|by eapply pi_hands0].
    apply items_of_dom. rewrite Hit. destruct (taken wt s') as [[v y]|]; cbn [option_list] in *; [|by apply elem_of_nil in Hx].
    apply list_elem_of_singleton in Hx. simplify_eq. change (option_list (Some (v, y))) with [(v, y)]. by rewrite only_one, decide_True by done.
  - intros c Hx. specialize (pi_asleep_pause0 c Hx). lia.
  - intros c o Hx. destruct (pi_asleep_drain0 c o Hx) as [|(wq & -> & Hi)]; [lia|].
    destruct (taken wt s') eqn:Et; [cbn; lia|]. right. exists wq. split; [done|]. by rewrite Hit in Hi.
  - intros v Hv. assert (v ∈ _threads (s_pool s)) as Hv'.
    { destruct Hth as [E|[E _]]; rewrite E in Hv; [done|]. by apply elem_of_difference in Hv as [? _]. }
    destruct (pi_threads0 v Hv') as (u & Hu & Hl). rewrite Ew. destruct (decide (wt = v)) as [->|Hne].
    + rewrite lookup_insert_eq. exists w'. split; [done|]. intros Hs ->. destruct (Hex eq_refl); congruence.
    + rewrite lookup_insert_ne by done. eauto.
  - intros c Hj. specialize (pi_joined0 c Hj). destruct Hth as [->|[-> _]]; [done|]. rewrite pi_joined0.
    by apply empty_difference_L.
Qed.

(** The signal changes none of the numbers. *)
Lemma count_wake {B} (f : cstate → list B) (m : gmap Z cstate) : (∀ w, f (wake w) = f w) → count f (wake <$> m) = count f m.
Proof. intros Hf. unfold count. by rewrite gather_fmap. Qed.

Lemma worker_finish_Done wq x s s1 :
  worker_finish wq x s = Some (Done s1) →
  ∃ q', dom (<[wq := q']> (s_queues s)) = dom (s_queues s) ∧
    (∀ v, items_of (<[wq := q']> (s_queues s)) v = items_of (s_queues s) v) ∧
    let s0 := on_pool (λ p, set_processing (processing p - 1) p) (with_queues (<[wq := q']> (s_queues s)) s) in
    s1 = if negb (_pause (s_pool s) =? 0) || negb (_draining (s_pool s) =? 0) then wait_cond_signal s0 else s0.
Proof.
  unfold worker_finish. destruct (s_queues s !! wq) as [q|] eqn:Hq; [|done]. cbn. intros [= Hf].
  apply outcome_bind_Done in Hf as (q' & Hfin & [= Hs]). exists q'. split_and!; [apply dom_insert_lookup_L; eauto| |done].
  intros v. rewrite items_of_insert. case_decide; [subst|done]. unfold items_of. rewrite Hq. by eapply wq_finish_items.
Qed.

(** After [_void_process_finish] and the decrement, with the signal. *)
Lemma pool_finish_inv wt wq x s s1 :
  s_workers s !! wt = Some (WProcessed wq x) → worker_finish wq x s = Some (Done s1) → pool_inv s →
  pool_inv_on (gather hand1 (delete wt (s_workers s1))) s1.
Proof.
  intros Hw Hf HI.
  assert (pool_inv_on ((wq, x) :: gather hand1 (delete wt (s_workers s))) s) as [].
  { eapply pool_inv_perm, HI. unfold in_hand. by rewrite (gather_delete _ _ _ _ Hw). }
  apply worker_finish_Done in Hf as (q' & Hdom & Hit & Hs).
  rewrite length_cons in pi_processing0.
  assert (∀ v y, (v, y) ∈ gather hand1 (delete wt (s_workers s)) → v ∈ dom (s_queues s)) as Hhd
    by (intros v y Hy; apply (pi_hands0 v y); by right).
  cbn in Hs. destruct (_ || _) eqn:Hsig; subst s1.
  - split; unfold drainers, pausers, stoppers in *; cbn; rewrite ?Hdom, ?count_wake by (by intros []); try done; [lia|..].
    + intros c v b. rewrite lookup_fmap, fmap_Some. intros ([| | |] & Hc & [=]); subst. eauto.
    + intros c. rewrite lookup_fmap, fmap_Some. by intros ([| | |] & Hc & [=]).
    + intros c o. rewrite lookup_fmap, fmap_Some. by intros ([| | |] & Hc & [=]).
    + intros c. rewrite lookup_fmap, fmap_Some. intros ([| | |] & Hc & [=]). eauto.
  - apply orb_false_iff in Hsig as [Hp%negb_false_iff%Z.eqb_eq Hd%negb_false_iff%Z.eqb_eq].
    split; unfold drainers, pausers, stoppers in *; cbn; rewrite ?Hdom; try done; [lia|..].
    + intros c Hc. pose proof (count_pos pausing1 _ _ _ Hc). cbn in *. lia.
    + intros c o Hc. pose proof (count_pos draining1 _ _ _ Hc). cbn in *. lia.
Qed.

Lemma finish_same wq x s s1 :
  worker_finish wq x s = Some (Done s1) →
  s_workers s1 = s_workers s ∧ ∀ v, items_of (s_queues s1) v = items_of (s_queues s) v.
Proof.
  intros (q' & Hdom & Hit & ->)%worker_finish_Done. by destruct (_ || _).
Qed.
(** ** Every step keeps the invariant *)

#[local] Ltac counts :=
  repeat first [erewrite count_new by eassumption | erewrite count_delete by eassumption
               | erewrite count_insert by eassumption]; cbn [length pausing1 draining1 stopping1].
#[local] Ltac inv_split := split; unfold drainers, pausers, stoppers in *; cbn in *; counts; try done; try lia.
#[local] Ltac callers :=
  try match goal with
  | |- ∀ c, <[_ := _]> _ !! c = Some _ → _ => intros ? [[<- ?]|[? ?]]%lookup_insert_Some
  | |- ∀ c o, <[_ := _]> _ !! c = Some _ → _ => intros ? ? [[<- ?]|[? ?]]%lookup_insert_Some
  | |- ∀ c o b, <[_ := _]> _ !! c = Some _ → _ => intros ? ? ? [[<- ?]|[? ?]]%lookup_insert_Some
  | |- ∀ c, delete _ _ !! c = Some _ → _ => intros ? [? ?]%lookup_delete_Some
  | |- ∀ c o, delete _ _ !! c = Some _ → _ => intros ? ? [? ?]%lookup_delete_Some
  | |- ∀ c o b, delete _ _ !! c = Some _ → _ => intros ? ? ? [? ?]%lookup_delete_Some
  end; simplify_eq/=; try done; eauto.

Lemma process_inv s wt wq x :
  s_workers s !! wt = Some (WProcessing wq x) → pool_inv s → pool_inv (set_worker wt (WProcessed wq x) s).
Proof.
  intros Hw HI. apply (pool_inv_perm (in_hand s)).
  { unfold in_hand. cbn. by rewrite (gather_same _ _ _ _ _ Hw). }
  destruct HI. inv_split. intros v Hv. destruct (pi_threads0 v Hv) as (u & Hu & Hl).
  destruct (decide (wt = v)) as [->|]; [rewrite lookup_insert_eq|rewrite lookup_insert_ne by done]; eauto.
Qed.

Lemma gather_start {B} (f : wstate T → list B) new (m : gmap Z (wstate T)) :
  f WStarting = [] → NoDup new → Forall (λ wt, m !! wt = None) new →
  gather f (foldr (λ wt, <[wt := WStarting]>) m new) ≡ₚ gather f m ∧
  ∀ v, foldr (λ wt, <[wt := WStarting]>) m new !! v = if bool_decide (v ∈ new) then Some WStarting else m !! v.
Proof.
  intros Hf. induction new as [|wt new IH]; cbn; intros Hnd Hfr.
  { split; [done|]. intros v. by rewrite bool_decide_false by apply not_elem_of_nil. }
  apply NoDup_cons in Hnd as [Hn Hnd]. apply Forall_cons in Hfr as [Hw Hfr]. destruct (IH Hnd Hfr) as [IHg IHl]. split.
  - rewrite gather_new, Hf, IHg; [done|]. by rewrite IHl, bool_decide_false.
  - intros v. destruct (decide (wt = v)) as [->|Hne].
    + rewrite lookup_insert_eq, bool_decide_true by (by left). done.
    + rewrite lookup_insert_ne, IHl by done.
      destruct (decide (v ∈ new)) as [Hi|Hi].
      * rewrite !bool_decide_true; [done|by right|done].
      * rewrite !bool_decide_false; [done| |done]. intros [->|?]%elem_of_cons; done.
Qed.

Lemma pool_start_inv s new v :
  fresh_workers new (on_pool (set_num_threads v) s) → stoppers s = 0 → pool_inv s →
  pool_inv (start_threads new (on_pool (set_num_threads v) s)).
Proof.
  intros (Hnd & Hfr & Hlen) Hst HI. cbn in Hfr.
  destruct (gather_start hand1 new (s_workers s) eq_refl Hnd Hfr) as [Hg Hl].
  apply (pool_inv_perm (in_hand s)); [unfold in_hand; cbn; by rewrite Hg|].
  destruct HI. inv_split.
  - intros wt [Hw|Hw]%elem_of_union.
    + destruct (pi_threads0 wt Hw) as (u & Hu & Hx). rewrite Hl. case_bool_decide; eauto.
    + apply elem_of_list_to_set in Hw. rewrite Hl, bool_decide_true by done. eauto.
  - intros c Hc. pose proof (count_pos stopping1 _ _ _ Hc). cbn in *. lia.
Qed.

Lemma queue_inv s wq x s' : queue_item wq x s = Some s' → pool_inv s → pool_inv s'.
Proof.
  unfold queue_item. destruct (s_queues s !! wq) as [q|] eqn:Hq; [|done]. intros [= <-] [].
  assert (dom (<[wq := (wq_enqueue x q).2]> (s_queues s)) = dom (s_queues s)) as Hdom by (apply dom_insert_lookup_L; eauto).
  inv_split; rewrite ?Hdom; try done.
  intros c o Hc. destruct (pi_asleep_drain0 c o Hc) as [|(v & -> & Hi)]; [by left|]. right. exists v. split; [done|].
  rewrite items_of_insert. case_decide; [|done]. rewrite wq_enqueue_items. by destruct (wq_items q).
Qed.

Lemma pause_wait_inv s c k :
  s_callers s !! c = None ∧ k = 1 ∨ (∃ b, s_callers s !! c = Some (Pausing b)) ∧ k = 0 → pool_inv s →
  pool_inv (pause_wait c (on_pool (λ p, set_pause (_pause p + k) p) s)).
Proof.
  intros Hc []. unfold pause_wait. cbn. destruct (Z.eqb_spec (processing (s_pool s)) 0) as [Hp|Hp];
    destruct Hc as [[Hc ->]|[[b Hc] ->]].
  - inv_split; rewrite ?delete_id; callers. lia.
  - inv_split; callers.
  - inv_split; callers.
  - inv_split; callers.
Qed.

Lemma drain_wait_inv s c o k s' :
  (s_callers s !! c = None ∧ k = 1 ∨ (∃ b, s_callers s !! c = Some (Draining o b)) ∧ k = 0) →
  (∀ wq, o = Some wq → wq ∈ work_queues (s_pool s)) →
  drain_wait c o (on_pool (λ p, set_draining (_draining p + k) p) s) = Some s' → pool_inv s → pool_inv s'.
Proof.
  intros Hc Ho. unfold drain_wait. destruct (drain_busy _ _) as [busy|] eqn:Hb; [|done]. intros [= <-] [].
  assert (busy = true → processing (s_pool s) ≠ 0 ∨ ∃ wq, o = Some wq ∧ items_of (s_queues s) wq ≠ []) as Hbusy.
  { intros ->. unfold drain_busy in Hb. cbn in Hb. destruct (Z.eqb_spec (processing (s_pool s)) 0); [|by left]. cbn in Hb.
    destruct o as [wq|]; [|done]. destruct (s_queues s !! wq) as [q|] eqn:Hq; [|done]. cbn in Hb.
    right. exists wq. split; [done|]. unfold items_of. rewrite Hq. cbn. rewrite <-wq_empty_items.
    injection Hb as Hb%negb_true_iff. by rewrite Hb. }
  destruct busy; destruct Hc as [[Hc ->]|[[b Hc] ->]].
  - inv_split; callers.
  - inv_split; callers.
  - inv_split; rewrite ?delete_id; callers; lia.
  - inv_split; callers.
Qed.

Lemma stop_begin_inv s c : idle c s → stoppers s = 0 → pool_inv s → pool_inv (stop_begin c s).
Proof.
  unfold idle. intros Hc Hst []. inv_split; callers.
  - intros wt Hw. destruct (pi_threads0 wt Hw) as (w & Hw' & _). eauto.
Qed.

Lemma clear_queues_Done wqs qs qs' :
  clear_queues wqs qs = Some (Done qs') →
  dom qs' = dom qs ∧ ∀ v, items_of qs v = [] → items_of qs' v = [].
Proof.
  revert qs. induction wqs as [|wq wqs IH]; intros qs; cbn; [by intros [= <-]|].
  destruct (qs !! wq) as [q|] eqn:Hq; [|done]. cbn. destruct (wq_clear q) as [q'| |] eqn:Hcl; [|done..].
  intros [Hd Hi]%IH. rewrite Hd, dom_insert_lookup_L by eauto. split; [done|]. intros v Hv. apply Hi.
  rewrite items_of_insert. case_decide; [|done]. by eapply wq_clear_items.
Qed.

Lemma stop_end_inv s c s' :
  s_callers s !! c = Some Joined → (∀ wq, items_of (s_queues s) wq = []) → stop_end c s = Some (Done s') →
  pool_inv s → pool_inv s' ∧ ∀ wq, items_of (s_queues s') wq = [].
Proof.
  intros Hc He. unfold stop_end. destruct (clear_queues _ _) as [[qs'| |]|] eqn:Hq; [|done..]. intros [= <-] [].
  destruct (clear_queues_Done _ _ _ Hq) as [Hd Hi]. split; [|cbn; auto].
  pose proof (pi_joined0 c Hc) as Hj. pose proof (count_pos stopping1 _ _ _ Hc) as Hp. cbn in Hp.
  unfold stoppers in *. destruct (_stop (s_pool s)) eqn:Hs; cbn in pi_stop0; [|lia].
  inv_split; rewrite ?Hd; callers.
  - edestruct pi_asleep_drain0 as [|(wq & -> & Hn)]; [eassumption|by left|]. by destruct Hn.
  - intros wt. rewrite Hj. set_solver.
Qed.

Lemma remove_first_spec wq l l' :
  remove_first wq l = Some l' → NoDup l → wq ∈ l ∧ NoDup l' ∧ ∀ v, v ∈ l' ↔ v ∈ l ∧ v ≠ wq.
Proof.
  revert l'. induction l as [|w l IH]; intros l'; cbn; [done|]. destruct (Z.eqb_spec w wq) as [->|Hne].
  - intros [= <-] [Hn Hd]%NoDup_cons. split; [by left|]. split; [done|]. intros v. rewrite elem_of_cons. split; [|by intros [[->|?] ?]].
    intros Hv. split; [by right|by intros ->].
  - destruct (remove_first wq l) as [k|]; [|done]. intros [= <-] [Hn Hd]%NoDup_cons.
    destruct (IH k eq_refl Hd) as (Hi & Hd' & Hv). split; [by right|]. split.
    + apply NoDup_cons. split; [|done]. by intros [? _]%Hv.
    + intros v. rewrite !elem_of_cons, Hv. split; [intros [->|[]]; auto|intros [[->|] ?]; auto].
Qed.

Lemma elem_only wq x l : (wq, x) ∈ l → only wq l ≠ [].
Proof.
  intros Hl He. assert (x ∈ only wq l) as Hx; [|rewrite He in Hx; by apply elem_of_nil in Hx].
  unfold only. apply list_elem_of_fmap. exists (wq, x). by rewrite list_elem_of_filter.
Qed.

Lemma pool_remove_inv s wq wqs :
  remove_first wq (work_queues (s_pool s)) = Some wqs → only wq (in_hand s) = [] →
  (∀ c b, s_callers s !! c ≠ Some (Draining (Some wq) b)) → items_of (s_queues s) wq = [] → pool_inv s →
  pool_inv (with_queues (delete wq (s_queues s)) (on_pool (set_queues wqs) s)).
Proof.
  intros Hr Hh Hdr Hit []. destruct (remove_first_spec _ _ _ Hr pi_nodup0) as (_ & Hnd & Hv).
  inv_split; rewrite ?dom_delete_L.
  - intros v x Hx. pose proof (pi_hands0 v x Hx). apply elem_of_difference. split; [done|].
    intros ->%elem_of_singleton. by apply (elem_only wq x (in_hand s)).
  - intros v [Hi Hne]%Hv. apply elem_of_difference. split; [by apply pi_queues0|by intros ?%elem_of_singleton].
  - intros c v b Hc. apply Hv. split; [eauto|]. intros ->. by eapply Hdr.
  - intros c o Hc. destruct (pi_asleep_drain0 c o Hc) as [|(v & -> & Hn)]; [by left|]. right. exists v. split; [done|].
    unfold items_of. rewrite lookup_delete_ne; [done|]. intros <-. done.
Qed.

Lemma add_inv s wq q :
  s_queues s !! wq = None → pool_inv s →
  pool_inv (with_queues (<[wq := q]> (s_queues s)) (on_pool (λ p, set_queues (work_queues p ++ [wq]) p) s)).
Proof.
  intros Hq []. inv_split; rewrite ?dom_insert_L.
  - intros v x Hx. apply elem_of_union_r. eauto.
  - intros v [Hi| ->%list_elem_of_singleton]%elem_of_app; [apply elem_of_union_r; eauto|set_solver].
  - apply NoDup_app. split_and!; [done| |apply NoDup_singleton]. intros v Hv ->%list_elem_of_singleton.
    apply pi_queues0, elem_of_dom in Hv as [? ?]. congruence.
  - intros c v b Hc. apply elem_of_app. eauto.
  - intros c o Hc. destruct (pi_asleep_drain0 c o Hc) as [|(v & -> & Hn)]; [by left|]. right. exists v. split; [done|].
    rewrite items_of_insert. case_decide; [|done]. subst. unfold items_of in Hn. by rewrite Hq in Hn.
Qed.

Lemma spurious_inv s c w : s_callers s !! c = Some w → pool_inv s → pool_inv (set_caller c (wake w) s).
Proof. intros Hc []. destruct w; inv_split; callers. Qed.

Lemma join_inv s c joined wt :
  s_callers s !! c = Some (Joining joined) → pool_inv s → pool_inv (set_caller c (Joining (joined ∪ {[wt]})) s).
Proof. intros Hc []. inv_split; callers. Qed.

Lemma stop_clear_inv s c joined : s_callers s !! c = Some (Joining joined) → pool_inv s → pool_inv (stop_clear c s).
Proof. intros Hc []. inv_split; callers. Qed.

Lemma pause_new_inv s k : 0 <= _pause (s_pool s) + k - pausers s → pool_inv s → pool_inv (on_pool (λ p, set_pause (_pause p + k) p) s).
Proof. intros Hk []. inv_split. Qed.

Lemma on_pool_id (s : system Q T) f : (∀ p, f p = p) → on_pool f s = s.
Proof. intros Hf. destruct s. unfold on_pool. by rewrite Hf. Qed.

Lemma pool_step_inv s l s' : pool_inv s → orderly s l → step s l s' → pool_inv s'.
Proof.
  intros HI Ho Hs. destruct Hs as [s wt w s' Hw Hi Hl|s wt wq x Hw|s wt wq x s1 s' Hw Hf Hl|s c new Hc Hfr|s c v new Hc Hv Hfr
    |s c wq x s' Hc Hq|s c Hc|s c Hc|s c s' Hc Hu|s c o s' Hc Hd|s c Hc|s c o s' Hc Hd|s c w Hc|s c Hc
    |s c joined wt Hc Ht Hw|s c joined Hc Ht|s c s' Hc He|s c wq q Hc Hq He|s c wq wqs Hc Hr]; cbn in Ho.
  - eapply turn_inv, worker_loop_turn, Hl; [exact Hw|]. apply (inv_except wt w); [done|by destruct Hi; subst|done].
  - by apply process_inv.
  - assert (Hw1 := Hw). rewrite <-(proj1 (finish_same _ _ _ _ Hf)) in Hw1.
    eapply turn_inv, worker_loop_turn, Hl; [exact Hw1|]. by apply (pool_finish_inv wt wq x s).
  - assert (on_pool (set_num_threads (_num_threads (s_pool s))) s = s) as Es by by destruct s as [[] ???].
    rewrite <-Es. rewrite <-Es in Hfr. by apply pool_start_inv.
  - by apply pool_start_inv.
  - by eapply queue_inv.
  - apply (pause_wait_inv s c 1); eauto.
  - apply pause_new_inv; [|done]. destruct HI. lia.
  - unfold unpause in Hu. outcome_inv. apply (pause_new_inv s (-1)); [lia|done].
  - eapply (drain_wait_inv s c o 1); eauto. by intros wq ->.
  - rewrite <-(on_pool_id s (λ p, set_pause (_pause p + 0) p)) by (intros []; unfold set_pause; cbn; f_equal; lia).
    apply pause_wait_inv; eauto.
  - rewrite <-(on_pool_id s (λ p, set_draining (_draining p + 0) p)) in Hd by (intros []; unfold set_draining; cbn; f_equal; lia).
    eapply drain_wait_inv; eauto. intros wq ->. by eapply pi_drained.
  - by apply spurious_inv.
  - by apply stop_begin_inv.
  - by apply join_inv.
  - by eapply stop_clear_inv.
  - by eapply stop_end_inv.
  - by apply add_inv.
  - destruct Ho as (? & ? & ?). by apply pool_remove_inv.
Qed.

Lemma orderly_run_inv n tr s : orderly_run n tr s → pool_inv s.
Proof.
  induction 1; [|by eapply pool_step_inv].
  inv_split; [by intros wq x Hx%elem_of_nil|by intros wq Hx%elem_of_nil|constructor].
Qed.

(** ** Nothing is lost, nothing is done twice *)

Lemma turn_ledger wt w s s' wq :
  s_workers s !! wt = Some w → running1 w = [] → worker_turn wt s s' →
  items_of (s_queues s) wq = only wq (option_list (taken wt s')) ++ items_of (s_queues s') wq ∧
  only wq (running s) ++ only wq (option_list (taken wt s')) ≡ₚ only wq (running s').
Proof.
  intros Hw Hr [_ _ (w' & Ew & Er & Eh & _) _ _ Hit _ _]. split; [done|].
  unfold running. rewrite Ew, (gather_insert _ _ _ _ w' Hw), (gather_delete _ _ _ _ Hw), Hr, Er, Eh, <-only_app.
  cbn [app]. by rewrite (comm app).
Qed.

Lemma drain_wait_same c o (s s' : system Q T) :
  drain_wait c o s = Some s' → s_queues s' = s_queues s ∧ s_workers s' = s_workers s.
Proof. unfold drain_wait. destruct (drain_busy o s) as [[]|]; by intros [= <-]. Qed.

(** What one step does to a queue and to the hands. *)
Lemma step_ledger s l s' wq :
  orderly s l → step s l s' →
  items_of (s_queues s) wq ++ only wq (queued1 l) = only wq (took1 l) ++ items_of (s_queues s') wq ∧
  only wq (running s) ++ only wq (took1 l) ≡ₚ only wq (processed1 l) ++ only wq (running s').
Proof.
  intros Ho Hs. destruct Hs as [s wt w s' Hw Hi Hl|s wt v x Hw|s wt v x s1 s' Hw Hf Hl|s c new Hc Hfr|s c v new Hc Hv Hfr
    |s c v x s' Hc Hq|s c Hc|s c Hc|s c s' Hc Hu|s c o s' Hc Hd|s c Hc|s c o s' Hc Hd|s c w Hc|s c Hc
    |s c joined wt Hc Ht Hw|s c joined Hc Ht|s c s' Hc He|s c v q Hc Hq He|s c v wqs Hc Hr]; cbn [queued1 took1 processed1].
  all: rewrite ?only_nil, ?app_nil_r; try done; cbn [app].
  - eapply turn_ledger; [exact Hw|by destruct Hi; subst|by apply worker_loop_turn].
  - split; [done|]. rewrite <-only_app. apply only_perm. unfold running. cbn.
    by rewrite (gather_insert _ _ _ _ _ Hw), (gather_delete _ _ _ _ Hw).
  - destruct (finish_same _ _ _ _ Hf) as [Ew Ei]. assert (running s = running s1) as -> by (unfold running; by rewrite Ew).
    rewrite <-Ei. rewrite <-Ew in Hw. eapply turn_ledger; [exact Hw|done|by apply worker_loop_turn].
  - split; [done|]. destruct Hfr as (Hnd & Hfr & _). unfold running. cbn.
    by rewrite (proj1 (gather_start running1 new (s_workers s) eq_refl Hnd Hfr)).
  - split; [done|]. destruct Hfr as (Hnd & Hfr & _). unfold running. cbn.
    by rewrite (proj1 (gather_start running1 new (s_workers s) eq_refl Hnd Hfr)).
  - unfold queue_item in Hq. destruct (s_queues s !! v) as [q|] eqn:Hv; [|done]. injection Hq as <-. split; [|done].
    cbn. rewrite items_of_insert. unfold items_of. case_decide; [subst|by rewrite app_nil_r].
    rewrite Hv. by rewrite wq_enqueue_items.
  - unfold pause, pause_wait. by case_match.
  - unfold unpause in Hu. by outcome_inv.
  - by destruct (drain_wait_same _ _ _ _ Hd) as [-> E]; unfold running; rewrite E.
  - unfold pause_wait. by case_match.
  - by destruct (drain_wait_same _ _ _ _ Hd) as [-> E]; unfold running; rewrite E.
  - cbn in Ho. unfold stop_end in He. destruct (clear_queues _ _) as [[qs'| |]|] eqn:Hq; [|done..]. injection He as <-.
    split; [|done]. cbn. rewrite Ho. symmetry. by apply (clear_queues_Done _ _ _ Hq).
  - split; [|done]. cbn. rewrite items_of_insert. case_decide; [|done]. subst. unfold items_of. rewrite Hq.
    symmetry. by apply wq_empty_items.
  - cbn in Ho. split; [|done]. cbn. destruct (decide (v = wq)) as [->|]; unfold items_of.
    + rewrite lookup_delete_eq. apply Ho.
    + by rewrite lookup_delete_ne.
Qed.

(** Items leave a queue in the order they came, and those that have left have
    been processed or are in [_void_process], each once. *)
Lemma ledger n tr s wq :
  orderly_run n tr s →
  queued wq tr = took wq tr ++ items_of (s_queues s) wq ∧ took wq tr ≡ₚ processed wq tr ++ only wq (running s).
Proof.
  unfold queued, took, processed. induction 1 as [|tr s l s' Hr [IH1 IH2] Ho Hs]; [done|].
  destruct (step_ledger s l s' wq Ho Hs) as [H1 H2].
  rewrite !bind_app, !only_app. cbn [mbind list_bind app]. rewrite !app_nil_r. split.
  - by rewrite IH1, <-!(assoc app), H1.
  - by rewrite IH2, <-!(assoc app), H2.
Qed.

(** ** Waiting callers get their turn *)

Definition weight1 (w : wstate T) : list () :=
  match w with
  | WProcessing _ _ => [tt; tt; tt]
  | WProcessed _ _ => [tt; tt]
  | WStarting | WWaiting => [tt]
  | WExited => []
  end.
Definition backlog (s : system Q T) : nat := sum_list ((λ wq, length (items_of (s_queues s) wq)) <$> work_queues (s_pool s)).
Definition measure (s : system Q T) : Z := 3 * Z.of_nat (backlog s) + count weight1 (s_workers s).

Lemma sum_list_le (l : list Z) (f g : Z → nat) :
  (∀ x, (f x <= g x)%nat) → (sum_list (f <$> l) <= sum_list (g <$> l))%nat.
Proof. intros Hfg. induction l as [|x l IH]; cbn; [lia|]. specialize (Hfg x). lia. Qed.

Lemma sum_list_lt (l : list Z) (f g : Z → nat) x :
  (∀ x, (f x <= g x)%nat) → x ∈ l → (f x < g x)%nat → (sum_list (f <$> l) < sum_list (g <$> l))%nat.
Proof.
  intros Hfg. induction l as [|y l IH]; [by intros ?%elem_of_nil|]. cbn.
  intros [->|Hx]%elem_of_cons Hlt; [pose proof (sum_list_le l f g Hfg); lia|].
  specialize (Hfg y). specialize (IH Hx Hlt). lia.
Qed.

Lemma turn_backlog wt s s' :
  worker_turn wt s s' → Z.of_nat (backlog s') + Z.of_nat (length (option_list (taken wt s'))) <= Z.of_nat (backlog s).
Proof.
  intros [(_ & _ & _ & _ & Eq) _ _ _ _ Hit Htk _]. unfold backlog. rewrite Eq.
  set (f v := length (items_of (s_queues s') v)). set (g v := length (items_of (s_queues s) v)).
  assert (∀ v, (f v <= g v)%nat) as Hle by (intros v; unfold f, g; rewrite Hit, length_app; lia).
  destruct (taken wt s') as [[wq x]|] eqn:Et; [|cbn; pose proof (sum_list_le (work_queues (s_pool s)) f g Hle); lia].
  cut (sum_list (f <$> work_queues (s_pool s)) < sum_list (g <$> work_queues (s_pool s)))%nat; [cbn; lia|].
  apply (sum_list_lt _ f g wq Hle); [by eapply Htk|]. unfold f, g. rewrite Hit.
  change (option_list (Some (wq, x))) with [(wq, x)]. rewrite only_one, decide_True, length_app by done. cbn. lia.
Qed.

(** A turn costs at least what the worker brought; at most one unit is left when
    it goes to wait. *)
Lemma turn_measure wt w s s' :
  s_workers s !! wt = Some w → worker_turn wt s s' →
  measure s' <= measure s - Z.of_nat (length (weight1 w)) + 1 ∧
  (s_workers s' !! wt ≠ Some WWaiting → s_workers s' !! wt ≠ Some WStarting →
   measure s' <= measure s - Z.of_nat (length (weight1 w))).
Proof.
  intros Hw Ht. pose proof (turn_backlog wt s s' Ht) as Hb. destruct Ht as [_ _ (w' & Ew & Er & Eh & _) _ _ _ _ _].
  unfold measure. rewrite Ew, (count_insert weight1 _ _ _ w' Hw), lookup_insert_eq, <-Eh in *.
  destruct w'; cbn [weight1 hand1 length] in *; split; try done; intros; lia.
Qed.

(** With work in the queues and no pause, a worker leaves with an item unless
    there are too many workers. *)
Lemma loop_takes wt s wq :
  (∀ v, v ∈ work_queues (s_pool s) → v ∈ dom (s_queues s)) → _stop (s_pool s) = false →
  ∃ s', worker_loop wt s = Some s' ∧ s_workers s' !! wt ≠ Some WStarting ∧
    (_pause (s_pool s) = 0 → wq ∈ work_queues (s_pool s) → items_of (s_queues s) wq ≠ [] →
     s_workers s' !! wt ≠ Some WWaiting).
Proof.
  intros Hd Hs. unfold worker_loop. rewrite Hs.
  cbn [s_pool join_old_threads on_pool set_threads _threads _num_threads _pause work_queues last_work_queue s_queues].
  destruct (_ >? _); [eexists; split; [done|]; cbn; by rewrite lookup_insert_eq|].
  destruct (_ && _) eqn:Hp.
  - destruct (scan_total (length (work_queues (s_pool s))) (work_queues (s_pool s)) (last_work_queue (s_pool s)) (s_queues s) Hd)
      as [[[found last'] qs'] Hsc]; [intros Hl Hn; by rewrite Hn in Hl|].
    rewrite Hsc. cbn. destruct found as [[v x]|]; (eexists; split; [done|]); cbn; rewrite lookup_insert_eq; [done|].
    split; [done|]. intros _ Hi Hne. by pose proof (scan_all_empty _ _ _ _ _ _ Hsc Hi).
  - eexists; split; [done|]. cbn. rewrite lookup_insert_eq. split; [done|]. intros Hz Hi _.
    apply andb_false_iff in Hp as [Hp%Z.eqb_neq|Hp%negb_false_iff%bool_decide_eq_true]; [done|].
    rewrite Hp in Hi. by apply elem_of_nil in Hi.
Qed.

Definition active (s : system Q T) : Prop :=
  _stop (s_pool s) = false ∧ _pause (s_pool s) = 0 ∧ 0 < _num_threads (s_pool s) ∧ _threads (s_pool s) ≠ ∅.
Definition worker_label (l : label Q T) : Prop := match l with Wake_ _ _ | Process _ _ _ | Finish _ _ => True | _ => False end.

Lemma backlog_work s : backlog s ≠ 0%nat ↔ ∃ wq, wq ∈ work_queues (s_pool s) ∧ items_of (s_queues s) wq ≠ [].
Proof.
  unfold backlog. induction (work_queues (s_pool s)) as [|v l IH]; cbn.
  { split; [done|]. by intros (wq & ?%elem_of_nil & _). }
  setoid_rewrite elem_of_cons. split.
  - intros Hn. destruct (items_of (s_queues s) v) eqn:E; [|exists v; rewrite E; eauto].
    cbn in Hn. apply IH in Hn as (wq & ? & ?). eauto.
  - intros (wq & [->|Hi] & Hne); [destruct (items_of (s_queues s) v); [done|cbn; lia]|].
    enough (sum_list ((λ wq, length (items_of (s_queues s) wq)) <$> l) ≠ 0%nat) by lia. apply IH. eauto.
Qed.

Lemma turn_active wt s s' : worker_turn wt s s' → active s → active s'.
Proof.
  intros [(Es & Ep & _ & En & _) _ _ _ _ _ _ Ht] (H1 & H2 & H3 & H4). unfold active. rewrite Es, Ep, En.
  split_and!; [done..|]. destruct Ht as [->|[-> Hgt]]; [done|]. intros He.
  assert (_threads (s_pool s) ⊆ {[wt]}) as Hsub%subseteq_size.
  { intros v Hv. destruct (decide (v = wt)) as [->|Hne]; [by apply elem_of_singleton|].
    assert (v ∈ _threads (s_pool s) ∖ {[wt]}) as Hx by (apply elem_of_difference; by rewrite elem_of_singleton).
    rewrite He in Hx. by apply elem_of_empty in Hx. }
  rewrite size_singleton in Hsub. lia.
Qed.

(** What a worker's step leaves: the drains in progress. *)
Definition drains_kept (s s' : system Q T) : Prop :=
  ∀ c o b, s_callers s !! c = Some (Draining o b) → ∃ b', s_callers s' !! c = Some (Draining o b').

Lemma finish_keeps wq x s s1 :
  worker_finish wq x s = Some (Done s1) →
  (active s → active s1) ∧ drains_kept s s1 ∧ measure s1 = measure s ∧
  (∀ v, v ∈ dom (s_queues s1) ↔ v ∈ dom (s_queues s)) ∧ work_queues (s_pool s1) = work_queues (s_pool s).
Proof.
  intros (q' & Hdom & Hit & ->)%worker_finish_Done. unfold drains_kept, measure, backlog.
  assert (((λ v, length (items_of (<[wq := q']> (s_queues s)) v)) <$> work_queues (s_pool s)) =
          ((λ v, length (items_of (s_queues s) v)) <$> work_queues (s_pool s))) as Hb
    by (apply list_fmap_ext; intros ? v _; by rewrite Hit).
  destruct (_ || _); cbn; rewrite Hdom, Hb; split_and!; try done; [|eauto].
  intros c o b Hc. rewrite lookup_fmap, Hc. cbn. eauto.
Qed.

(** ** What [drain] and [pause] promise *)

(** The step [l] is where the call of [drain(wq)] or [pause()] by [c] returns. *)
Definition drain_returns (c wq : Z) (s : system Q T) (l : label Q T) (s' : system Q T) : Prop :=
  (l = Drain c (Some wq) ∨ l = Resume c ∧ ∃ b, s_callers s !! c = Some (Draining (Some wq) b)) ∧ s_callers s' !! c = None.
Definition pause_returns (c : Z) (s : system Q T) (l : label Q T) (s' : system Q T) : Prop :=
  (l = Pause c ∨ l = Resume c ∧ ∃ b, s_callers s !! c = Some (Pausing b)) ∧ s_callers s' !! c = None.

Lemma no_hands s : pool_inv s → processing (s_pool s) = 0 → in_hand s = [] ∧ running s = [].
Proof.
  intros HI Hp. rewrite (pi_processing _ _ HI) in Hp. assert (in_hand s = []) as Hh by (apply nil_length_inv; lia).
  split; [done|]. apply gather_nil. intros k w Hw. pose proof (proj1 (gather_nil _ _) Hh k w Hw). by destruct w.
Qed.

Lemma drain_wait_returns c wq (s s' : system Q T) :
  drain_wait c (Some wq) s = Some s' → s_callers s' !! c = None →
  processing (s_pool s) = 0 ∧ items_of (s_queues s) wq = [] ∧ s_workers s' = s_workers s.
Proof.
  unfold drain_wait, drain_busy. destruct (Z.eqb_spec (processing (s_pool s)) 0) as [Hp|Hp]; cbn;
    [|by intros [= <-]; cbn; rewrite lookup_insert_eq].
  unfold items_of. destruct (s_queues s !! wq) as [q|]; [|done]. cbn. destruct (wq_empty q) eqn:He; cbn; intros [= <-]; cbn.
  - intros _. by apply wq_empty_items in He.
  - by rewrite lookup_insert_eq.
Qed.

Lemma drain_returns_rest c wq s l s' :
  pool_inv s → step s l s' → drain_returns c wq s l s' →
  in_hand s' = [] ∧ running s = [] ∧ items_of (s_queues s) wq = [].
Proof.
  intros HI Hs [Hl Hc].
  assert (∃ s0, drain_wait c (Some wq) s0 = Some s' ∧ processing (s_pool s0) = processing (s_pool s) ∧
                s_queues s0 = s_queues s ∧ s_workers s0 = s_workers s) as (s0 & Hd & Ep & Eq & Ew).
  { destruct Hl as [->|[-> [b Hb]]]; inversion Hs; simplify_eq.
    - eexists. split; [done|]. done.
    - eexists. split; [done|]. done. }
  destruct (drain_wait_returns _ _ _ _ Hd Hc) as (Hp & Hi & Ew'). rewrite Ep in Hp. rewrite Eq in Hi.
  destruct (no_hands s HI Hp) as [Hh Hr]. split_and!; [|done..]. unfold in_hand. by rewrite Ew', Ew.
Qed.

Lemma pause_returns_rest c s l s' :
  pool_inv s → step s l s' → pause_returns c s l s' → in_hand s' = [] ∧ 0 < _pause (s_pool s').
Proof.
  intros HI Hs [Hl Hc]. pose proof (pi_pausers _ _ HI) as Hp. unfold pausers in Hp.
  destruct Hl as [->|[-> [b Hb]]]; inversion Hs; simplify_eq; unfold pause, pause_wait in *; cbn in *;
    destruct (Z.eqb_spec (processing (s_pool s)) 0) as [Hz|Hz]; cbn in *; rewrite ?lookup_insert_eq in Hc; try done;
    destruct (no_hands s HI Hz) as [Hh _].
  - split; [done|]. unfold count in Hp. lia.
  - split; [done|]. pose proof (count_pos pausing1 _ _ _ Hb). cbn in *. lia.
Qed.

Lemma paused_takes_nothing s l s' : step s l s' → _pause (s_pool s) ≠ 0 → took1 l = [].
Proof.
  intros Hs Hp. destruct Hs as [s wt w s' Hw Hi Hl| |s wt wq x s1 s' Hw Hf Hl| | | | | | | | | | | | | | | |]; try done; cbn.
  - pose proof (wt_took _ _ _ (worker_loop_turn _ _ _ Hl)) as Ht. destruct (taken wt s') as [[v y]|]; [|done].
    destruct (Ht v y eq_refl) as (_ & ? & _). done.
  - pose proof (wt_took _ _ _ (worker_loop_turn _ _ _ Hl)) as Ht. destruct (taken wt s') as [[v y]|]; [|done].
    destruct (Ht v y eq_refl) as (_ & Hz & _). apply worker_finish_Done in Hf as (q' & _ & _ & ->). by destruct (_ || _).
Qed.

(** C16: however workers and callers interleave: the items of a
    queue are taken in the order they were queued and each is processed once or
    is being processed; a caller sleeps in [pause] or [drain] only while what it
    waits for has not come, so no wake-up is lost; when [drain] returns, all that
    was queued has been processed; when [pause] returns nothing is being
    processed, and nothing is taken while the pool is paused. *)
Theorem pool_serves n tr s :
  orderly_run n tr s →
  (∀ wq, queued wq tr = took wq tr ++ items_of (s_queues s) wq ∧ took wq tr ≡ₚ processed wq tr ++ only wq (running s)) ∧
  (∀ c, s_callers s !! c = Some (Pausing false) → in_hand s ≠ []) ∧
  (∀ c o, s_callers s !! c = Some (Draining o false) →
     in_hand s ≠ [] ∨ ∃ wq, o = Some wq ∧ items_of (s_queues s) wq ≠ []) ∧
  (∀ c wq l s', step s l s' → drain_returns c wq s l s' → processed wq tr ≡ₚ queued wq tr ∧ in_hand s' = []) ∧
  (∀ c l s', step s l s' → pause_returns c s l s' → in_hand s' = [] ∧ 0 < _pause (s_pool s')) ∧
  (∀ l s', step s l s' → _pause (s_pool s) ≠ 0 → took1 l = []).
Proof.
  intros Hr. pose proof (orderly_run_inv _ _ _ Hr) as HI.
  assert (processing (s_pool s) ≠ 0 → in_hand s ≠ []) as Hne.
  { rewrite (pi_processing _ _ HI). intros Hn Hh. by rewrite Hh in Hn. }
  split_and!.
  - intros wq. by apply (ledger n).
  - intros c Hc. by eapply Hne, pi_asleep_pause.
  - intros c o Hc. destruct (pi_asleep_drain _ _ HI c o Hc); auto.
  - intros c wq l s' Hs Hd. destruct (drain_returns_rest _ _ _ _ _ HI Hs Hd) as (Hh & Hrun & Hi).
    destruct (ledger _ _ _ wq Hr) as [E1 E2]. split; [|done]. by rewrite E1, E2, Hrun, Hi, !app_nil_r.
  - intros c l s' Hs Hp. by eapply pause_returns_rest.
  - apply paused_takes_nothing.
Qed.

Section Progress.
  (** [_void_process_finish] does not fail. *)
  Hypothesis finish_ok : ∀ (x : T) (q : Q), ∃ q', wq_process_finish x q = Done q'.

Definition progresses (s : system Q T) : Prop :=
  ∃ l s', worker_label l ∧ step s l s' ∧ active s' ∧ drains_kept s s' ∧ measure s' < measure s.

Lemma turn_progress wt w l s s1 s' :
  s_workers s1 !! wt = Some w → worker_loop wt s1 = Some s' → active s1 → drains_kept s s1 → measure s1 = measure s →
  (2 <= length (weight1 w))%nat ∨
  length (weight1 w) = 1%nat ∧ s_workers s' !! wt ≠ Some WWaiting ∧ s_workers s' !! wt ≠ Some WStarting →
  worker_label l → step s l s' → progresses s.
Proof.
  intros Hw Hl Ha Hk Hm Hlen Hwl Hs. pose proof (worker_loop_turn _ _ _ Hl) as Ht.
  exists l, s'. split_and!; [done..|by eapply turn_active| |].
  - intros c o b Hc. rewrite (wt_callers _ _ _ Ht). eauto.
  - destruct (turn_measure _ _ _ _ Hw Ht) as [H1 H2]. destruct Hlen as [Hlen|(Hlen & Hn1 & Hn2)]; [lia|].
    specialize (H2 Hn1 Hn2). lia.
Qed.

Lemma hand_progress s : pool_inv s → active s → in_hand s ≠ [] → progresses s.
Proof.
  intros HI Ha Hh. destruct (in_hand s) as [|[wq x] hands] eqn:Eh; [done|].
  assert ((wq, x) ∈ in_hand s) as Hx by (rewrite Eh; by left).
  pose proof (pi_hands _ _ HI wq x Hx) as [q Hq]%elem_of_dom. apply elem_of_gather in Hx as (wt & w & Hw & Hin).
  destruct w as [| |v y|v y|]; cbn in Hin; try (by apply elem_of_nil in Hin);
    apply list_elem_of_singleton in Hin as [= <- <-].
  - eexists _, _. split_and!; [|by eapply step_process|by destruct Ha|by intros c o b Hc; eauto|]; [done|].
    unfold measure. cbn. rewrite (count_insert weight1 _ _ _ (WProcessed wq x) Hw). unfold backlog. cbn. lia.
  - destruct (finish_ok x q) as [q' Hq'].
    assert (∃ s1, worker_finish wq x s = Some (Done s1)) as [s1 Hf].
    { unfold worker_finish. rewrite Hq. cbn. rewrite Hq'. cbn. eauto. }
    destruct (finish_keeps _ _ _ _ Hf) as (Ha1 & Hk & Hm & Hd & Eq). pose proof (Ha1 Ha) as Ha'.
    destruct (loop_takes wt s1 wq) as (s' & Hl & _); [rewrite Eq; intros v; rewrite Hd; apply HI|apply Ha'|].
    destruct (finish_same _ _ _ _ Hf) as [Ew _]. assert (Hw1 := Hw). rewrite <-Ew in Hw1.
    eapply (turn_progress wt _ _ s s1 s'); [exact Hw1|exact Hl|exact Ha'|exact Hk|exact Hm|by left; cbn; lia| |by eapply step_finish].
    done.
Qed.

Lemma worker_progress s :
  pool_inv s → active s → in_hand s ≠ [] ∨ backlog s ≠ 0%nat → progresses s.
Proof.
  intros HI Ha Hor. destruct (in_hand s) eqn:Eh; [|apply hand_progress; by rewrite ?Eh].
  destruct Hor as [?|(wq & Hwq & Hne)%backlog_work]; [done|].
  destruct (set_choose_L (_threads (s_pool s))) as [wt Hwt]; [apply Ha|].
  destruct (pi_threads _ _ HI wt Hwt) as (w & Hw & Hlive). specialize (Hlive (proj1 Ha)).
  assert (w = WStarting ∨ w = WWaiting) as Hidle.
  { pose proof (proj1 (gather_nil _ _) Eh wt w Hw). destruct w; auto; done. }
  destruct (loop_takes wt s wq) as (s' & Hl & Hn1 & Hn2); [apply HI|apply Ha|].
  eapply (turn_progress wt w _ s s s'); [done|done|done|by intros c o b Hc; eauto|done| | |by eapply step_wake]; [|done].
  right. split; [by destruct Hidle; subst|]. split; [|done]. apply Hn2; [apply Ha|done..].
Qed.

(** Workers alone bring the pool to rest. *)
Lemma workers_finish n tr s :
  orderly_run n tr s → active s →
  ∃ tr' s', steps s tr' s' ∧ orderly_run n (tr ++ tr') s' ∧ Forall worker_label tr' ∧ drains_kept s s' ∧
    in_hand s' = [] ∧ backlog s' = 0%nat ∧ Z.of_nat (length tr') <= measure s.
Proof.
  remember (Z.to_nat (measure s)) as k eqn:Hk. revert tr s Hk.
  induction k as [k IH] using lt_wf_ind. intros tr s -> Hr Ha.
  assert (∀ s0, 0 <= measure s0) as Hpos by (intros s0; unfold measure, count; lia).
  assert (Hpos0 := Hpos s).
  destruct (decide (length (in_hand s) = 0 ∧ backlog s = 0)%nat) as [[Hh Hb]|Hwork].
  { exists [], s. rewrite app_nil_r. split_and!; [constructor|done|by constructor|by intros c o b Hc; eauto|by apply nil_length_inv|done|cbn; lia]. }
  destruct (worker_progress s) as (l & s1 & Hl & Hs & Ha1 & Hk1 & Hm).
  { by eapply orderly_run_inv. } { done. }
  { destruct (in_hand s); [right; cbn in Hwork; tauto|by left]. }
  specialize (Hpos s1). destruct (IH (Z.to_nat (measure s1))) with (tr := tr ++ [l]) (s := s1) as (tr' & s' & Hst & Hr' & Hf & Hk' & Hrest); [lia|done| |done|].
  { eapply orderly_step; [done| |done]. by destruct l. }
  exists (l :: tr'), s'. rewrite <-(assoc app) in Hr'. split_and!; [by econstructor|done|by constructor| |apply Hrest..|].
  - intros c o b Hc. destruct (Hk1 c o b Hc) as [b' Hc']. by eapply Hk'.
  - cbn. lia.
Qed.

(** A pool at rest: a caller in [drain] has been woken and returns. *)
Lemma drain_resumes s c wq b :
  pool_inv s → in_hand s = [] → backlog s = 0%nat → s_callers s !! c = Some (Draining (Some wq) b) →
  b = true ∧ drain_wait c (Some wq) s = Some (returned c (on_pool (λ p, set_draining (_draining p - 1) p) s)).
Proof.
  intros HI Hh Hb Hc. assert (processing (s_pool s) = 0) as Hp by (by rewrite (pi_processing _ _ HI), Hh).
  pose proof (pi_drained _ _ HI _ _ _ Hc) as Hwq.
  assert (items_of (s_queues s) wq = []) as Hi.
  { destruct (items_of (s_queues s) wq) eqn:E; [done|]. destruct (proj2 (backlog_work s)); [|done]. exists wq. by rewrite E. }
  destruct (proj1 (elem_of_dom _ _) (pi_queues _ _ HI wq Hwq)) as [q Hq]. split.
  - destruct b; [done|]. destruct (pi_asleep_drain _ _ HI _ _ Hc) as [?|(? & [= <-] & ?)]; done.
  - unfold drain_wait, drain_busy. rewrite Hp, Hq. cbn. unfold items_of in Hi. rewrite Hq in Hi. cbn in Hi.
    apply wq_empty_items in Hi. by rewrite Hi.
Qed.

(** C29: a [drain] in a pool that is neither paused nor
    stopped returns: the workers' own steps, no more of them than a bound known
    from the state, finish all work, and then the call's next step returns. *)
Theorem drain_terminates n tr s c wq b :
  orderly_run n tr s → active s → s_callers s !! c = Some (Draining (Some wq) b) →
  ∃ tr' s1 s', steps s tr' s1 ∧ Forall worker_label tr' ∧ Z.of_nat (length tr') <= measure s ∧
    step s1 (Resume c) s' ∧ s_callers s' !! c = None.
Proof.
  intros Hr Ha Hc. destruct (workers_finish n tr s Hr Ha) as (tr' & s1 & Hst & Hr1 & Hf & Hk & Hh & Hb & Hlen).
  destruct (Hk c (Some wq) b Hc) as [b' Hc1].
  destruct (drain_resumes s1 c wq b' (orderly_run_inv _ _ _ Hr1) Hh Hb Hc1) as [-> Hd].
  eexists tr', s1, _. split_and!; [done..|by eapply step_resume_drain|]. cbn. apply lookup_delete_eq.
Qed.
End Progress.
End Facts.

(** ** A run of the gateway's pool *)

(** One worker, one queue, one item, and a call of [drain] while it waits to be
    taken. *)
Definition demo_trace : list (label (list Z) Z) :=
  [AddQueue 0 7 []; Start 0 [100]; Queue 0 7 5; Drain 1 (Some 7)].

Lemma demo_run :
  ∃ s : system (list Z) Z, orderly_run 1 demo_trace s ∧ active s ∧ s_callers s !! 1 = Some (Draining (Some 7) false) ∧
    measure s = 4.
Proof.
  eexists. split; [|split].
  - change demo_trace with (((([] ++ [AddQueue 0 7 []]) ++ [Start 0 [100]]) ++ [Queue 0 7 5]) ++ [Drain 1 (Some 7)] : list (label (list Z) Z)).
    eapply orderly_step; [eapply orderly_step; [eapply orderly_step; [eapply orderly_step; [constructor|..]|..]|..]|..];
      [exact I|by constructor| |apply step_start|exact I|by eapply step_queue| |by eapply step_drain].
    + reflexivity.
    + done.
    + split; [apply NoDup_singleton|]. split; [by constructor|]. reflexivity.
    + cbn. set_solver.
  - by vm_compute.
  - split; reflexivity.
Qed.

Lemma rgwwq_finish (x : Z) (q : list Z) : ∃ q', wq_process_finish x q = Done q'.
Proof. by exists q. Qed.

Lemma pool_serves_witness :
  ∃ s : system (list Z) Z, orderly_run 1 demo_trace s ∧
    took 7 demo_trace ≡ₚ processed 7 demo_trace ++ only 7 (running s).
Proof.
  destruct demo_run as (s & Hr & _). exists s. split; [exact Hr|].
  exact (proj2 (proj1 (pool_serves 1 demo_trace s Hr) 7)).
Defined.

Lemma drain_terminates_witness :
  ∃ (s : system (list Z) Z) tr' s1 s', orderly_run 1 demo_trace s ∧ steps s tr' s1 ∧
    Z.of_nat (length tr') <= 4 ∧ step s1 (Resume 1) s' ∧ s_callers s' !! 1 = None.
Proof.
  destruct demo_run as (s & Hr & Ha & Hc & Hm).
  destruct (drain_terminates rgwwq_finish 1 demo_trace s 1 7 false Hr Ha Hc)
    as (tr' & s1 & s' & Hr1 & Hf & Hl & Hs & Hn).
  exists s, tr', s1, s'. rewrite Hm in Hl. split_and!; done.
Defined.
