(* ===== verification/ShardedPool.v ===== *)
(** * The sharded pool ([src/src/common/WorkQueue.cc], [ShardedThreadPool])

    Workers that poll the flags [stop_threads], [pause_threads] and
    [drain_threads], and callers that set them and wait for the workers to
    notice.  In the worker's loops on the last two flags the wait on
    [shardedpool_cond], which would give up [shardedpool_lock], is commented out;
    what is left spins with the lock held.  The theorem [sharded_pool_hangs] says
    what follows: no caller of [pause] or [drain] returns, and a worker that has
    noticed a flag never leaves its loop.

    A step is what a thread does between two points where another can interfere:
    a flag is atomic, and what is done under the lock and does not spin is one
    step.  [lock_holder] is the worker that spins with the lock. *)

From stdpp Require Import gmap.
From S2P Require Import Prelude.
#[local] Open Scope Z_scope.

(** Where a worker is in [shardedthreadpool_worker]. *)
Inductive shard_pc :=
| SLoop                 (* the test of [stop_threads] and [pause_threads] *)
| SWantPause            (* [shardedpool_lock.Lock()] *)
| SPaused               (* [while (pause_threads.read())] *)
| SDrainTest            (* the test of [drain_threads] *)
| SWantDrain
| SDrained              (* [while (drain_threads.read())] *)
| SProcess              (* [wq->_process] *)
| SExit.

(** A caller in the wait loop of [pause] or [drain], signalled or not. *)
Inductive shard_caller :=
| CPausing (woken : bool)
| CDraining (woken : bool).

Record sharded := Mk_sharded {
  num_threads : Z;
  stop_threads : Z;
  pause_threads : Z;
  drain_threads : Z;
  num_paused : Z;
  num_drained : Z;
  lock_holder : option Z;
  sh_workers : gmap Z shard_pc;
  sh_callers : gmap Z shard_caller
}.

(** [ShardedThreadPool::ShardedThreadPool]. *)
Definition ShardedThreadPool_new (n : Z) : sharded := Mk_sharded (u32 n) 0 0 0 0 0 None ∅ ∅.

Definition set_flags (st pa dr : Z) (s : sharded) :=
  Mk_sharded (num_threads s) st pa dr (num_paused s) (num_drained s) (lock_holder s) (sh_workers s) (sh_callers s).
Definition set_counts (np nd : Z) (h : option Z) (s : sharded) :=
  Mk_sharded (num_threads s) (stop_threads s) (pause_threads s) (drain_threads s) np nd h (sh_workers s) (sh_callers s).
Definition set_wpc (i : Z) (pc : shard_pc) (s : sharded) :=
  Mk_sharded (num_threads s) (stop_threads s) (pause_threads s) (drain_threads s) (num_paused s) (num_drained s)
    (lock_holder s) (<[i := pc]> (sh_workers s)) (sh_callers s).
Definition set_callers (m : gmap Z shard_caller) (s : sharded) :=
  Mk_sharded (num_threads s) (stop_threads s) (pause_threads s) (drain_threads s) (num_paused s) (num_drained s)
    (lock_holder s) (sh_workers s) m.
Definition shard_wake (c : shard_caller) : shard_caller := match c with CPausing _ => CPausing true | CDraining _ => CDraining true end.
Definition shard_signal (s : sharded) := set_callers (shard_wake <$> sh_callers s) s.

(** ** The worker *)

(** One step; [empty] is [wq->is_shard_empty(thread_index)], [None] a worker that
    waits for the lock. *)
Definition shard_worker (i : Z) (empty : bool) (pc : shard_pc) (s : sharded) : option sharded :=
  match pc with
  | SLoop =>
      Some (set_wpc i (if negb (stop_threads s =? 0) then SExit
                       else if negb (pause_threads s =? 0) then SWantPause else SDrainTest) s)
  | SWantPause =>
      match lock_holder s with
      | Some _ => None
      | None => Some (set_wpc i SPaused (shard_signal (set_counts (u32 (num_paused s + 1)) (num_drained s) (Some i) s)))
      end
  | SPaused =>
      if negb (pause_threads s =? 0) then Some s
      else Some (set_wpc i SDrainTest (set_counts (u32 (num_paused s - 1)) (num_drained s) None s))
  | SDrainTest => Some (set_wpc i (if negb (drain_threads s =? 0) then SWantDrain else SProcess) s)
  | SWantDrain =>
      match lock_holder s with
      | Some _ => None
      | None =>
          if empty
          then Some (set_wpc i SDrained (shard_signal (set_counts (num_paused s) (u32 (num_drained s + 1)) (Some i) s)))
          else Some (set_wpc i SProcess s)
      end
  | SDrained =>
      if negb (drain_threads s =? 0) then Some s
      else Some (set_wpc i SProcess (set_counts (num_paused s) (u32 (num_drained s - 1)) None s))
  | SProcess => Some (set_wpc i SLoop s)
  | SExit => None
  end.

(** ** Callers *)

(** The wait loops, with the lock held. *)
Definition shard_pause_wait (c : Z) (s : sharded) : sharded :=
  if num_threads s =? num_paused s then set_callers (delete c (sh_callers s)) s
  else set_callers (<[c := CPausing false]> (sh_callers s)) s.
Definition shard_drain_wait (c : Z) (s : sharded) : sharded :=
  if num_threads s =? num_drained s
  then set_callers (delete c (sh_callers s)) (set_flags (stop_threads s) (pause_threads s) 0 s)
  else set_callers (<[c := CDraining false]> (sh_callers s)) s.

Definition shard_pause (c : Z) (s : sharded) := shard_pause_wait c (set_flags (stop_threads s) 1 (drain_threads s) s).
Definition shard_pause_new (s : sharded) := set_flags (stop_threads s) 1 (drain_threads s) s.
Definition shard_unpause (s : sharded) := set_flags (stop_threads s) 0 (drain_threads s) s.
Definition shard_drain (c : Z) (s : sharded) := shard_drain_wait c (set_flags (stop_threads s) (pause_threads s) 1 s).
Definition shard_stop (s : sharded) := set_flags 1 (pause_threads s) (drain_threads s) s.

(** [start_threads]: as many workers as there are threads to be. *)
Definition shard_start (s : sharded) : sharded :=
  Mk_sharded (num_threads s) (stop_threads s) (pause_threads s) (drain_threads s) (num_paused s) (num_drained s)
    (lock_holder s) (list_to_map ((λ i, (i, SLoop)) <$> seqZ 0 (num_threads s))) (sh_callers s).

Inductive shard_label :=
| ShStart
| ShWorker (i : Z) (empty : bool)
| ShPause (c : Z)
| ShPauseNew
| ShUnpause
| ShDrain (c : Z)
| ShResume (c : Z)
| ShSpurious (c : Z)
| ShStop.

(** All methods but [stop] take the lock first. *)
Inductive shard_step : sharded → shard_label → sharded → Prop :=
| sh_start s : lock_holder s = None → sh_workers s = ∅ → shard_step s ShStart (shard_start s)
| sh_worker s i pc empty s' :
    sh_workers s !! i = Some pc → shard_worker i empty pc s = Some s' → shard_step s (ShWorker i empty) s'
| sh_pause s c : lock_holder s = None → sh_callers s !! c = None → shard_step s (ShPause c) (shard_pause c s)
| sh_pause_new s : lock_holder s = None → shard_step s ShPauseNew (shard_pause_new s)
| sh_unpause s : lock_holder s = None → shard_step s ShUnpause (shard_unpause s)
| sh_drain s c : lock_holder s = None → sh_callers s !! c = None → shard_step s (ShDrain c) (shard_drain c s)
| sh_resume_pause s c :
    lock_holder s = None → sh_callers s !! c = Some (CPausing true) → shard_step s (ShResume c) (shard_pause_wait c s)
| sh_resume_drain s c :
    lock_holder s = None → sh_callers s !! c = Some (CDraining true) → shard_step s (ShResume c) (shard_drain_wait c s)
| sh_spurious s c w :
    sh_callers s !! c = Some w → shard_step s (ShSpurious c) (set_callers (<[c := shard_wake w]> (sh_callers s)) s)
| sh_stop s : shard_step s ShStop (shard_stop s).

Inductive shard_run (n : Z) : sharded → Prop :=
| sh_init : shard_run n (ShardedThreadPool_new n)
| sh_next s l s' : shard_run n s → shard_step s l s' → shard_run n s'.

Inductive shard_steps : sharded → sharded → Prop :=
| sh_refl s : shard_steps s s
| sh_trans s l s1 s2 : shard_step s l s1 → shard_steps s1 s2 → shard_steps s s2.

(** ** What follows *)

(** Who holds the lock is in one of the two loops and is the only one counted. *)
Record shard_inv (n : Z) (s : sharded) : Prop := {
  sh_num : num_threads s = u32 n;
  sh_free : lock_holder s = None → num_paused s = 0 ∧ num_drained s = 0;
  sh_held : ∀ i, lock_holder s = Some i →
    sh_workers s !! i = Some SPaused ∧ num_paused s = 1 ∧ num_drained s = 0 ∨
    sh_workers s !! i = Some SDrained ∧ num_paused s = 0 ∧ num_drained s = 1;
  sh_spin : ∀ i pc, sh_workers s !! i = Some pc → pc = SPaused ∨ pc = SDrained → lock_holder s = Some i
}.

(** A worker that neither takes nor has the lock. *)
Lemma set_wpc_inv n i pc pc' s :
  shard_inv n s → sh_workers s !! i = Some pc → pc ≠ SPaused ∧ pc ≠ SDrained → pc' ≠ SPaused ∧ pc' ≠ SDrained →
  shard_inv n (set_wpc i pc' s).
Proof.
  intros [Hn Hf Hh Hs] Hi Hpc Hpc'. split; cbn; try done.
  - intros j Hj. specialize (Hh j Hj). destruct (decide (i = j)) as [->|Hne]; [|by rewrite lookup_insert_ne].
    destruct Hh as [[E _]|[E _]]; rewrite E in Hi; intuition congruence.
  - intros j q [[<- <-]|[_ Hj]]%lookup_insert_Some; [intuition congruence|by eapply Hs].
Qed.

(** One that takes it. *)
Lemma take_inv n i pc pc' np nd s :
  shard_inv n s → lock_holder s = None → sh_workers s !! i = Some pc →
  (pc' = SPaused ∧ np = 1 ∧ nd = 0 ∨ pc' = SDrained ∧ np = 0 ∧ nd = 1) →
  shard_inv n (set_wpc i pc' (shard_signal (set_counts np nd (Some i) s))).
Proof.
  intros [Hn Hf Hh Hs] Hl Hi Hor. split; cbn; try done.
  - intros j [= <-]. rewrite lookup_insert_eq. intuition congruence.
  - intros j q [[<- <-]|[_ Hj]]%lookup_insert_Some; [done|]. intros Hq. pose proof (Hs j q Hj Hq). congruence.
Qed.

(** One that gives it back. *)
Lemma give_inv n i pc' s np nd :
  shard_inv n s → lock_holder s = Some i → pc' ≠ SPaused ∧ pc' ≠ SDrained → np = 0 → nd = 0 →
  shard_inv n (set_wpc i pc' (set_counts np nd None s)).
Proof.
  intros [Hn Hf Hh Hs] Hl Hpc -> ->. split; cbn; try done.
  intros j q [[<- <-]|[Hne Hj]]%lookup_insert_Some; [intuition congruence|]. intros Hq. pose proof (Hs j q Hj Hq). congruence.
Qed.

Lemma shard_worker_inv n i empty pc s s' :
  shard_inv n s → sh_workers s !! i = Some pc → shard_worker i empty pc s = Some s' → shard_inv n s'.
Proof.
  intros HI Hi Hw. pose proof (sh_free _ _ HI) as Hf. pose proof (sh_held _ _ HI i) as Hh. pose proof (sh_spin _ _ HI i pc Hi) as Hsp.
  destruct pc; cbn in Hw.
  - simplify_eq. eapply set_wpc_inv; [done..|]. by repeat case_match.
  - destruct (lock_holder s) eqn:E; [done|]. simplify_eq. destruct (Hf eq_refl) as [-> ->]. by eapply take_inv; [..|left].
  - destruct (negb _); simplify_eq; [done|]. rewrite (Hsp (or_introl eq_refl)) in Hh.
    destruct (Hh eq_refl) as [(_ & -> & ->)|[? _]]; [|congruence]. apply give_inv; auto.
  - simplify_eq. eapply set_wpc_inv; [done..|]. by case_match.
  - destruct (lock_holder s) eqn:E; [done|]. destruct empty; simplify_eq.
    + destruct (Hf eq_refl) as [-> ->]. by eapply take_inv; [..|right].
    + by eapply set_wpc_inv.
  - destruct (negb _); simplify_eq; [done|]. rewrite (Hsp (or_intror eq_refl)) in Hh.
    destruct (Hh eq_refl) as [[? _]|(_ & -> & ->)]; [congruence|]. apply give_inv; auto.
  - simplify_eq. by eapply set_wpc_inv.
  - done.
Qed.

Lemma shard_run_inv n s : shard_run n s → shard_inv n s.
Proof.
  induction 1 as [|s l s' Hr IH Hs]; [by split|].
  destruct Hs as [s Hl Hw|s i pc empty s' Hi Hw| | | | |s c Hl Hc|s c Hl Hc| |]; try (by destruct IH; split).
  - destruct IH as [Hn Hf Hh Hsp]. split; cbn; try done; [by rewrite Hl|].
    intros i pc Hi%elem_of_list_to_map_2. apply list_elem_of_fmap in Hi as (j & [= -> ->] & _). by intros [].
  - by eapply shard_worker_inv.
  - unfold shard_pause, shard_pause_wait. case_match; by destruct IH; split.
  - unfold shard_drain, shard_drain_wait. case_match; by destruct IH; split.
  - unfold shard_pause_wait. case_match; by destruct IH; split.
  - unfold shard_drain_wait. case_match; by destruct IH; split.
Qed.

(** Callers stay where they are. *)
Lemma shard_callers_stay n s l s' c :
  0 < u32 n → shard_inv n s → shard_step s l s' →
  is_Some (sh_callers s !! c) ∨ l = ShPause c ∨ l = ShDrain c → is_Some (sh_callers s' !! c).
Proof.
  intros Hn HI Hs Hc.
  assert (∀ s0 c', num_threads s0 = num_threads s → num_paused s0 = num_paused s → lock_holder s = None →
    shard_pause_wait c' s0 = set_callers (<[c' := CPausing false]> (sh_callers s0)) s0) as Hp.
  { intros s0 c' E1 E2 Hl. unfold shard_pause_wait. rewrite E1, E2, (sh_num _ _ HI), (proj1 (sh_free _ _ HI Hl)).
    by destruct (Z.eqb_spec (u32 n) 0); [lia|]. }
  assert (∀ s0 c', num_threads s0 = num_threads s → num_drained s0 = num_drained s → lock_holder s = None →
    shard_drain_wait c' s0 = set_callers (<[c' := CDraining false]> (sh_callers s0)) s0) as Hd.
  { intros s0 c' E1 E2 Hl. unfold shard_drain_wait. rewrite E1, E2, (sh_num _ _ HI), (proj2 (sh_free _ _ HI Hl)).
    by destruct (Z.eqb_spec (u32 n) 0); [lia|]. }
  assert (∀ c' w (m : gmap Z shard_caller), is_Some (m !! c) ∨ c' = c → is_Some (<[c' := w]> m !! c)) as Hins.
  { intros c' w m [Hm|Hm]; apply lookup_insert_is_Some; destruct (decide (c' = c)); auto. }
  destruct Hs as [s Hl Hw|s i pc empty s' Hi Hw|s c' Hl Hc'|s Hl|s Hl|s c' Hl Hc'|s c' Hl Hc'|s c' Hl Hc'|s c' w Hc'|s];
    unfold shard_pause, shard_drain; rewrite ?Hp, ?Hd by done; cbn; try (apply Hins); try (intuition (done || congruence)).
  destruct Hc as [Hc|[?|?]]; [|done..]. destruct pc; cbn in Hw; repeat case_match; simplify_eq; cbn; try done;
    by rewrite lookup_fmap, fmap_is_Some.
Qed.

Lemma spinning_step n s l s' i :
  shard_inv n s → shard_step s l s' → sh_workers s !! i = Some SPaused → pause_threads s ≠ 0 →
  sh_workers s' !! i = Some SPaused ∧ pause_threads s' ≠ 0.
Proof.
  intros HI Hs Hi Hp. pose proof (sh_spin _ _ HI i _ Hi (or_introl eq_refl)) as Hl.
  destruct Hs as [s Hl' Hw|s j pc empty s' Hj Hw| | | | | | | |]; try (by simplify_eq); try (by split).
  destruct (decide (i = j)) as [->|Hne].
  - simplify_eq. cbn in Hw. by destruct (Z.eqb_spec (pause_threads s) 0); simplify_eq/=.
  - pose proof (sh_spin _ _ HI j pc Hj) as Hsp.
    destruct pc; cbn in Hw; rewrite ?Hl in Hw; simplify_eq; cbn; rewrite ?lookup_insert_ne by done; try done;
      [pose proof (Hsp (or_introl eq_refl))|pose proof (Hsp (or_intror eq_refl))]; congruence.
Qed.

(** In a sharded pool with threads no call of [pause] or [drain] ever returns;
    and a worker that has noticed a pause, with the flag still set, spins from
    then on with the lock in its hands, whatever the other threads do, so that
    [unpause] has no way to clear the flag. *)
Theorem sharded_pool_hangs n s :
  0 < n < 2 ^ 32 → shard_run n s →
  (∀ c l s', shard_step s l s' → is_Some (sh_callers s !! c) ∨ l = ShPause c ∨ l = ShDrain c → is_Some (sh_callers s' !! c)) ∧
  (∀ i s', sh_workers s !! i = Some SPaused → pause_threads s ≠ 0 → shard_steps s s' →
     sh_workers s' !! i = Some SPaused ∧ lock_holder s' = Some i ∧ pause_threads s' ≠ 0).
Proof.
  intros Hn Hr. assert (u32 n = n) as Eu by (apply Z.mod_small; lia). split.
  - intros c l s' Hs Hc. eapply (shard_callers_stay n); [lia|by apply shard_run_inv|done|done].
  - intros i s' Hi Hp Hst. induction Hst as [s|s l s1 s2 Hs Hst IH].
    + pose proof (sh_spin _ _ (shard_run_inv _ _ Hr) i _ Hi (or_introl eq_refl)). done.
    + destruct (spinning_step n _ _ _ _ (shard_run_inv _ _ Hr) Hs Hi Hp). apply IH; [by eapply sh_next|done..].
Qed.

Lemma sharded_pool_hangs_witness :
  ∃ s, shard_run 1 s ∧ ∀ s', shard_steps s s' → sh_workers s' !! 0 = Some SPaused ∧ lock_holder s' = Some 0.
Proof.
  assert (∃ s, shard_run 1 s ∧ sh_workers s !! 0 = Some SPaused ∧ pause_threads s ≠ 0) as (s & Hr & Hi & Hp).
  { eexists. split; [|split].
    - eapply sh_next; [eapply sh_next; [eapply sh_next; [eapply sh_next; [apply sh_init|by apply sh_start]|by apply (sh_pause _ 9)]|]|];
        [eapply (sh_worker _ 0 SLoop true); vm_compute; reflexivity|eapply (sh_worker _ 0 SWantPause true); vm_compute; reflexivity].
    - vm_compute. reflexivity.
    - by vm_compute. }
  exists s. split; [exact Hr|]. intros s' Hst.
  destruct (proj2 (sharded_pool_hangs 1 s ltac:(lia) Hr) 0 s' Hi Hp Hst) as (H1 & H2 & _). split; [exact H1|exact H2].
Defined.
