(* ===== verification/QueueRing.v ===== *)
(** * The ring of free connections ([src/src/common/QueueRing.h])

    [QueueRing<T>]: as many FIFO buckets as the ring has places, a counter for
    reading and one for writing.  A call takes a ticket from its counter, one
    atomic step, and then works on the bucket of that ticket under the bucket's
    lock, another.  [dequeue] waits once on the bucket's condition variable when
    it finds the bucket empty, and asserts that there is an entry when it wakes. *)

From S2P Require Import Prelude.
From stdpp Require Import list numbers.
#[local] Open Scope Z_scope.

Section Ring.
  Context {T : Type}.

Record ring := Mk_ring { buckets : list (list T); cur_read_bucket : Z; cur_write_bucket : Z }.

(** [QueueRing(int n)]; a new [atomic_t] is zero. *)
Definition QueueRing_new (n : Z) : ring := Mk_ring (replicate (Z.to_nat n) []) 0 0.

(** [inc()] of the counters, which are [AO_t]. *)
Definition write_ticket (r : ring) : Z * ring :=
  let k := u64 (cur_write_bucket r + 1) in (k, Mk_ring (buckets r) (cur_read_bucket r) k).
Definition read_ticket (r : ring) : Z * ring :=
  let k := u64 (cur_read_bucket r + 1) in (k, Mk_ring (buckets r) k (cur_write_bucket r)).

Definition bucket_index (r : ring) (ticket : Z) : nat := Z.to_nat (ticket mod Z.of_nat (length (buckets r))).
Definition entries (r : ring) (j : nat) : list T := default [] (buckets r !! j).

(** [QueueBucket::enqueue]: whether it signals, and the ring. *)
Definition bucket_enqueue (x : T) (j : nat) (r : ring) : bool * ring :=
  (match entries r j with [] => true | _ => false end,
   Mk_ring (<[j := entries r j ++ [x]]> (buckets r)) (cur_read_bucket r) (cur_write_bucket r)).

(** [QueueBucket::dequeue] with the lock held: the first entry, if there is one. *)
Definition bucket_dequeue (j : nat) (r : ring) : option (T * ring) :=
  match entries r j with
  | [] => None
  | x :: l => Some (x, Mk_ring (<[j := l]> (buckets r)) (cur_read_bucket r) (cur_write_bucket r))
  end.

(** [QueueRing::enqueue] by a thread that is alone. *)
Definition ring_enqueue (x : T) (r : ring) : ring :=
  let '(k, r) := write_ticket r in (bucket_enqueue x (bucket_index r k) r).2.
Definition ring_fill (l : list T) (r : ring) : ring := foldl (λ r x, ring_enqueue x r) r l.

(** ** Counting tickets *)

(** How many of the tickets [1 ... w] belong to bucket [j] of [n]. *)
Fixpoint tickets_ (n : Z) (j w : nat) : Z :=
  match w with
  | O => 0
  | S v => tickets_ n j v + (if decide (Z.to_nat (Z.of_nat (S v) mod n) = j) then 1 else 0)
  end.
Definition tickets (n : Z) (j : nat) (w : Z) : Z := tickets_ n j (Z.to_nat w).

Lemma tickets_succ n j w :
  0 <= w → tickets n j (w + 1) = tickets n j w + (if decide (Z.to_nat ((w + 1) mod n) = j) then 1 else 0).
Proof.
  intros Hw. unfold tickets. replace (Z.to_nat (w + 1)) with (S (Z.to_nat w)) by lia. cbn [tickets_].
  by replace (Z.of_nat (S (Z.to_nat w))) with (w + 1) by lia.
Qed.

Lemma tickets_mono n j v w : 0 <= v <= w → tickets n j v <= tickets n j w.
Proof.
  intros [Hv Hle]. replace w with (v + Z.of_nat (Z.to_nat (w - v))) by lia.
  induction (Z.to_nat (w - v)) as [|d IH]; [rewrite Z.add_0_r; lia|].
  replace (v + Z.of_nat (S d)) with (v + Z.of_nat d + 1) by lia. rewrite tickets_succ by lia. destruct (decide _); lia.
Qed.

(** The bucket of a ticket has as many tickets below it as up to [w] only if [w]
    is below the ticket. *)
Lemma tickets_below n k w :
  0 < k → 0 <= w → tickets n (Z.to_nat (k mod n)) w <= tickets n (Z.to_nat (k mod n)) (k - 1) → w < k.
Proof.
  intros Hk Hw Hle. destruct (decide (w < k)) as [|Hge]; [done|].
  pose proof (tickets_mono n (Z.to_nat (k mod n)) k w ltac:(lia)) as Hm.
  pose proof (tickets_succ n (Z.to_nat (k mod n)) (k - 1) ltac:(lia)) as Hs.
  replace (k - 1 + 1) with k in Hs by lia. rewrite decide_True in Hs by done. lia.
Qed.

(** ** Invariant *)

(** The tickets [pend] have been taken for writing and not used yet, the last
    reading ticket has been used or not. *)
Record ring_inv (n : Z) (pend : list Z) (reading : bool) (r : ring) : Prop := {
  ri_len : Z.of_nat (length (buckets r)) = n;
  ri_pos : 0 < n;
  ri_write : 0 <= cur_write_bucket r;
  ri_read : Z.b2z reading <= cur_read_bucket r;
  ri_bucket : ∀ j, Z.of_nat (length (entries r j)) + Z.of_nat (length (filter (λ k, bucket_index r k = j) pend)) +
      tickets n j (cur_read_bucket r - Z.b2z reading) = tickets n j (cur_write_bucket r);
  ri_total : Z.of_nat (length (concat (buckets r))) + Z.of_nat (length pend) + (cur_read_bucket r - Z.b2z reading) =
      cur_write_bucket r
}.

Lemma ring_inv_perm n l k b r : l ≡ₚ k → ring_inv n l b r → ring_inv n k b r.
Proof. intros Hp [? ? ? ? Hb Ht]. split; try done; [intros j; by rewrite <-Hp|by rewrite <-Hp]. Qed.

Definition in_u64 (z : Z) : Prop := z < 2 ^ 64.

Lemma bucket_index_lt n pend b r k : ring_inv n pend b r → (bucket_index r k < length (buckets r))%nat.
Proof.
  intros [Hl Hp _ _ _ _]. unfold bucket_index. rewrite Hl. pose proof (Z.mod_pos_bound k n Hp). lia.
Qed.

Lemma ring_new_inv n : 0 < n → ring_inv n [] false (QueueRing_new n).
Proof.
  intros Hn. split; cbn; rewrite ?length_replicate; try lia.
  - intros j. unfold entries, QueueRing_new. cbn. assert (default [] (replicate (Z.to_nat n) ([] : list T) !! j) = []) as ->; [|done].
    destruct (replicate _ _ !! j) eqn:E; [|done]. by apply lookup_replicate_1 in E as [-> _].
  - induction (Z.to_nat n); cbn; [done|done].
Qed.

(** Taking a ticket for writing. *)
Lemma write_ticket_inv n pend b r :
  ring_inv n pend b r → in_u64 (cur_write_bucket r + 1) →
  ring_inv n ((write_ticket r).1 :: pend) b (write_ticket r).2 ∧ (write_ticket r).1 = cur_write_bucket r + 1.
Proof.
  intros [Hl Hp Hw Hr Hb Ht] Hu. unfold write_ticket. cbn.
  assert (u64 (cur_write_bucket r + 1) = cur_write_bucket r + 1) as Hk by (apply u64_small; unfold in_u64 in Hu; lia).
  rewrite Hk. split; [|done]. split; cbn [buckets cur_read_bucket cur_write_bucket]; rewrite ?length_cons; try lia.
  intros j. rewrite tickets_succ by lia. specialize (Hb j). unfold bucket_index, entries in *. cbn [buckets]. rewrite Hl in *.
  rewrite filter_cons. destruct (decide _); rewrite ?length_cons; lia.
Qed.

Lemma buckets_insert (bs : list (list T)) j l0 l :
  bs !! j = Some l0 → concat (<[j := l]> bs) ++ l0 ≡ₚ concat bs ++ l.
Proof.
  intros Hj. rewrite (insert_take_drop _ _ _ (lookup_lt_Some _ _ _ Hj)).
  rewrite <-(take_drop_middle bs j l0 Hj) at 3. rewrite !concat_app. cbn [concat].
  rewrite <-!(assoc app). apply Permutation_app_head. rewrite (comm app l), (comm app l0), <-!(assoc app).
  apply Permutation_app_head. apply (comm app).
Qed.

(** All the entries of the ring. *)
Definition ring_entries (r : ring) : list T := concat (buckets r).

Lemma entries_lookup r j : (j < length (buckets r))%nat → buckets r !! j = Some (entries r j).
Proof. intros [l Hl]%lookup_lt_is_Some_2. unfold entries. by rewrite Hl. Qed.

Lemma entries_insert r j i l c w :
  (j < length (buckets r))%nat →
  entries (Mk_ring (<[j := l]> (buckets r)) c w) i = if decide (j = i) then l else entries r i.
Proof.
  intros Hj. unfold entries. cbn. case_decide; [subst; by rewrite list_lookup_insert_eq|by rewrite list_lookup_insert_ne].
Qed.

Lemma bucket_index_insert r j l c w : bucket_index (Mk_ring (<[j := l]> (buckets r)) c w) = bucket_index r.
Proof. unfold bucket_index. cbn [buckets]. by rewrite length_insert. Qed.

(** Using it. *)
Lemma bucket_enqueue_inv n k pend b r x :
  ring_inv n (k :: pend) b r →
  let r' := (bucket_enqueue x (bucket_index r k) r).2 in
  ring_inv n pend b r' ∧ ring_entries r' ≡ₚ x :: ring_entries r.
Proof.
  intros HI. pose proof (bucket_index_lt _ _ _ _ k HI) as Hlt. destruct HI as [Hl Hp Hw Hr Hb Ht]. cbn.
  assert (ring_entries (bucket_enqueue x (bucket_index r k) r).2 ≡ₚ x :: ring_entries r) as Hperm.
  { unfold ring_entries. cbn.
    pose proof (buckets_insert (buckets r) (bucket_index r k) (entries r (bucket_index r k)) (entries r (bucket_index r k) ++ [x]) (entries_lookup r _ Hlt)) as Hc.
    apply (Permutation_app_inv_r (entries r (bucket_index r k))). rewrite Hc. solve_Permutation. }
  rewrite length_cons in Ht. split; [|done].
  split; cbn [bucket_enqueue snd buckets cur_read_bucket cur_write_bucket] in *; rewrite ?length_insert; try done.
  - intros j. specialize (Hb j). rewrite filter_cons in Hb. rewrite entries_insert by done.
    rewrite (bucket_index_insert r).
    destruct (decide (bucket_index r k = j)) as [E|E]; [rewrite E, length_app; rewrite length_cons in Hb; cbn [length]; lia|lia].
  - apply Permutation_length in Hperm. unfold ring_entries in Hperm. cbn in Hperm. lia.
Qed.

Lemma read_ticket_inv n pend r :
  ring_inv n pend false r → in_u64 (cur_read_bucket r + 1) →
  ring_inv n pend true (read_ticket r).2 ∧ (read_ticket r).1 = cur_read_bucket (read_ticket r).2.
Proof.
  intros [Hl Hp Hw Hr Hb Ht] Hu. unfold read_ticket. cbn in *.
  assert (u64 (cur_read_bucket r + 1) = cur_read_bucket r + 1) as Hk by (apply u64_small; unfold in_u64 in Hu; lia).
  rewrite Hk. split; [|done]. split; cbn; try lia.
  intros j. specialize (Hb j). unfold bucket_index, entries in *. cbn [buckets].
  replace (cur_read_bucket r + 1 - 1) with (cur_read_bucket r - 0) by lia. done.
Qed.

Lemma bucket_dequeue_inv n pend r x r' :
  ring_inv n pend true r → bucket_dequeue (bucket_index r (cur_read_bucket r)) r = Some (x, r') →
  ring_inv n pend false r' ∧ ring_entries r ≡ₚ x :: ring_entries r' ∧ cur_write_bucket r' = cur_write_bucket r ∧
  cur_read_bucket r' = cur_read_bucket r.
Proof.
  intros HI. pose proof (bucket_index_lt _ _ _ _ (cur_read_bucket r) HI) as Hlt. destruct HI as [Hl Hp Hw Hr Hb Ht].
  unfold bucket_dequeue. set (j := bucket_index r (cur_read_bucket r)) in *.
  destruct (entries r j) as [|y l] eqn:He; [done|]. intros [= -> <-].
  assert (ring_entries r ≡ₚ x :: ring_entries (Mk_ring (<[j := l]> (buckets r)) (cur_read_bucket r) (cur_write_bucket r))) as Hperm.
  { unfold ring_entries. cbn. pose proof (buckets_insert (buckets r) j (x :: l) l) as Hc.
    rewrite <-He in Hc. specialize (Hc (entries_lookup r _ Hlt)). rewrite He in Hc.
    apply (Permutation_app_inv_r l). rewrite <-Hc. solve_Permutation. }
  split_and!; [|done..]. split; cbn in *; rewrite ?length_insert; try done; [lia| |].
  - intros i. specialize (Hb i). rewrite entries_insert by done. rewrite (bucket_index_insert r).
    replace (cur_read_bucket r - 0) with (cur_read_bucket r - 1 + 1) by lia. rewrite tickets_succ by lia.
    replace (cur_read_bucket r - 1 + 1) with (cur_read_bucket r) by lia.
    assert (j = Z.to_nat (cur_read_bucket r mod n)) as Ej by (unfold j, bucket_index; by rewrite Hl).
    rewrite <-Ej. destruct (decide (j = i)) as [E|E]; [subst i; rewrite He in Hb; cbn in Hb; lia|lia].
  - apply Permutation_length in Hperm. unfold ring_entries in Hperm. cbn in Hperm. lia.
Qed.

(** A reader that finds its bucket empty while no writer is under way finds an
    empty ring. *)
Lemma empty_bucket_empty_ring n r :
  ring_inv n [] true r → entries r (bucket_index r (cur_read_bucket r)) = [] → ring_entries r = [].
Proof.
  intros [Hl Hp Hw Hr Hb Ht] He. cbn in *. specialize (Hb (bucket_index r (cur_read_bucket r))). rewrite He in Hb. cbn in Hb.
  unfold bucket_index in Hb. rewrite Hl in Hb.
  pose proof (tickets_below n (cur_read_bucket r) (cur_write_bucket r) ltac:(lia) Hw ltac:(lia)) as Hlt.
  apply nil_length_inv. unfold ring_entries. lia.
Qed.
End Ring.
Arguments ring : clear implicits.
