(* ===== verification/FrontEnd.v ===== *)
(** * The front end ([src/src/rgw/rgw_main.cc])

    [RGWFrontendConfig], and [RGWFCGXProcess::run] with the workers that call
    [handle_request], as one system: the thread of [run] accepts connections
    into requests and queues them, the pool ([WorkPool]) hands them to workers,
    and the connection structures circulate through the ring ([QueueRing]).
    What a request does in [process_request] is the subject of [Process]; here it
    is a step. *)

From stdpp Require Import gmap.
From S2P Require Import Prelude StdMap CString Strtol Lockdep WorkPool QueueRing.
#[local] Open Scope Z_scope.
#[local] Open Scope str_scope.

(** ** [RGWFrontendConfig] *)

Record frontend_config := Mk_fc { fc_config : str; fc_map : list (str * str); fc_framework : str }.
Definition RGWFrontendConfig_new (conf : str) : frontend_config := Mk_fc conf [] [].

(** The loop of [parse_config]; an entry that cannot be parsed ends it. *)
Fixpoint parse_entries (l : list str) (m : list (str * str)) (framework : str) : Z * list (str * str) * str :=
  match l with
  | [] => (0, m, framework)
  | entry :: l =>
      match framework with
      | [] => parse_entries l m entry
      | _ =>
          match find_sub "=" entry with
          | None => parse_entries l (mset entry [] m) framework
          | Some _ =>
              match parse_key_value entry (Some "=") [] [] with
              | inl ret => (ret, m, framework)
              | inr (key, val) => parse_entries l (mset key val m) framework
              end
          end
      end
  end.

Definition config_init (c : frontend_config) : Z * frontend_config :=
  let '(ret, m, framework) := parse_entries (get_str_list (fc_config c) " ") (fc_map c) (fc_framework c) in
  (if ret <? 0 then ret else 0, Mk_fc (fc_config c) m framework).

(** The two overloads of [get_val]: whether it was found, and [*out]. *)
Definition get_val_str (key def_val : str) (c : frontend_config) : bool * str :=
  match mfind key (fc_map c) with None => (false, def_val) | Some v => (true, v) end.

(** The overload for integers returns [-EINVAL], which is [true], for a value
    that is not a number, and [0], which is [false], for one that is. *)
Definition get_val_int (key : str) (def_val : Z) (c : frontend_config) : bool * Z :=
  match get_val_str key [] c with
  | (false, _) => (false, def_val)
  | (true, s) =>
      let '(v, err) := strict_strtol s 10 in
      (match err with [] => false | _ => true end, v)
  end.

(** Where [run] listens: a path, or host and port.  [None]: a host and neither
    path nor port, with which [run] opens no socket and goes on. *)
Definition socket_of (c : frontend_config) : option (str + str) :=
  let path := (get_val_str "socket_path" "/rgw.sock" c).2 in
  let port := (get_val_str "socket_port" "9000" c).2 in
  let host := (get_val_str "socket_host" "127.0.0.1" c).2 in
  let path := match path, port, host with [], [], [] => "/rgw_socket_path" | _, _, _ => path end in
  match path with
  | _ :: _ => Some (inl path)
  | [] => match port with _ :: _ => Some (inr (host ++ ":" ++ port)) | [] => None end
  end.

(** ** [RGWFCGXProcess] *)

(** [RGWFCGXRequest]: the connection structure it took from the ring, and the
    connection accepted into it. *)
Record request := Mk_req { rq_fcgx : Z; rq_conn : Z }.

(** Where the thread of [run] is. *)
Inductive run_pc :=
| RStart                              (* [m_tp.start()] *)
| RFill                               (* the loop that fills the ring *)
| RNext                               (* [new RGWFCGXRequest]: the ticket *)
| RTaking (k : Z)                     (* ... its bucket *)
| RWaiting (k : Z) (woken : bool)     (* ... waiting there *)
| RAccept (fcgx : Z)                  (* [FCGX_Accept_r] *)
| RQueue (r : request)                (* [req_wq.queue(req)] *)
| RDelete (fcgx : Z)                  (* [delete req] after an error: the ticket *)
| RPut (fcgx k : Z)                   (* ... its bucket *)
| RDrain | RDraining                  (* [m_tp.drain(&req_wq)] *)
| RStop | RStopping                   (* [m_tp.stop()] *)
| RReturn                             (* [FCGX_Finish_r] on all *)
| RDone.

Definition max_connections (num_threads : Z) : Z := num_threads + Z.shiftr num_threads 3.

Record front := Mk_front {
  f_pool : system (list request) request;
  f_ring : ring Z;
  f_pc : run_pc;
  f_release : gmap Z Z      (* workers in [~RGWFCGXRequest], with their ticket *)
}.

(** The queue [req_wq] and the thread of [run]. *)
Definition REQ_WQ : Z := 0.
Definition RUN : Z := 0.

(** [RGWProcess::RGWProcess]: the pool, to which the queue adds itself. *)
Definition pool_new (n : Z) : system (list request) request :=
  Mk_system (set_queues [REQ_WQ] (ThreadPool_new n)) {[REQ_WQ := []]} ∅ ∅.
Definition RGWFCGXProcess_new (n : Z) : front :=
  Mk_front (pool_new n) (QueueRing_new (max_connections n)) RStart ∅.

(** The calls of the pool: which one is next, and where [run] goes on. *)
Definition after_drain (p : system (list request) request) : run_pc :=
  match s_callers p !! RUN with None => RStop | Some _ => RDraining end.

Inductive advances : run_pc → label (list request) request → system (list request) request → run_pc → Prop :=
| adv_wake pc wt o p : advances pc (Wake_ wt o) p pc
| adv_finish pc wt o p : advances pc (Finish wt o) p pc
| adv_start new p : advances RStart (Start RUN new) p RFill
| adv_queue r p : advances (RQueue r) (Queue RUN REQ_WQ r) p RNext
| adv_drain p : advances RDrain (Drain RUN (Some REQ_WQ)) p (after_drain p)
| adv_resume p : advances RDraining (Resume RUN) p (after_drain p)
| adv_spurious p : advances RDraining (Spurious RUN) p RDraining
| adv_stop p : advances RStop (StopBegin RUN) p RStopping
| adv_join wt p : advances RStopping (StopJoin RUN wt) p RStopping
| adv_clear p : advances RStopping (StopClear RUN) p RStopping
| adv_end p : advances RStopping (StopEnd RUN) p RReturn.

(** The signal of a bucket: [run] is the only thread that waits in the ring. *)
Definition ring_signal (signal : bool) (j : nat) (r : ring Z) (pc : run_pc) : run_pc :=
  match pc with
  | RWaiting k false => if signal && bool_decide (bucket_index r k = j) then RWaiting k true else pc
  | _ => pc
  end.

Inductive flabel :=
| FPool (l : label (list request) request)
| FFill
| FTake
| FGet
| FWait
| FWake
| FSpurious
| FAccept (conn : Z)
| FRefuse
| FDelete
| FPut
| FHandle (wt wq : Z) (r : request)   (* [handle_request] up to the ticket in [delete req] *)
| FPush (wt wq : Z) (r : request)     (* ... and to its return *)
| FReturn.

Inductive fstep (n : Z) : front → flabel → front → Prop :=
| f_pool_step p g pc rel l p' pc' :
    step p l p' → advances pc l p' pc' → fstep n (Mk_front p g pc rel) (FPool l) (Mk_front p' g pc' rel)
| f_fill p g rel :
    fstep n (Mk_front p g RFill rel) FFill (Mk_front p (ring_fill (seqZ 0 (max_connections n)) g) RNext rel)
| f_take p g rel k g' :
    read_ticket g = (k, g') → fstep n (Mk_front p g RNext rel) FTake (Mk_front p g' (RTaking k) rel)
| f_get p g rel k x g' :
    bucket_dequeue (bucket_index g k) g = Some (x, g') →
    fstep n (Mk_front p g (RTaking k) rel) FGet (Mk_front p g' (RAccept x) rel)
| f_wait p g rel k :
    bucket_dequeue (bucket_index g k) g = None →
    fstep n (Mk_front p g (RTaking k) rel) FWait (Mk_front p g (RWaiting k false) rel)
| f_wake p g rel k x g' :
    bucket_dequeue (bucket_index g k) g = Some (x, g') →
    fstep n (Mk_front p g (RWaiting k true) rel) FWake (Mk_front p g' (RAccept x) rel)
| f_spurious p g rel k :
    fstep n (Mk_front p g (RWaiting k false) rel) FSpurious (Mk_front p g (RWaiting k true) rel)
| f_accept p g rel x conn :
    fstep n (Mk_front p g (RAccept x) rel) (FAccept conn) (Mk_front p g (RQueue (Mk_req x conn)) rel)
| f_refuse p g rel x :
    fstep n (Mk_front p g (RAccept x) rel) FRefuse (Mk_front p g (RDelete x) rel)
| f_delete p g rel x k g' :
    write_ticket g = (k, g') → fstep n (Mk_front p g (RDelete x) rel) FDelete (Mk_front p g' (RPut x k) rel)
| f_put p g rel x k b g' :
    bucket_enqueue x (bucket_index g k) g = (b, g') →
    fstep n (Mk_front p g (RPut x k) rel) FPut (Mk_front p g' RDrain rel)
| f_handle p g pc rel wt wq r k g' :
    s_workers p !! wt = Some (WProcessing wq r) → rel !! wt = None → write_ticket g = (k, g') →
    fstep n (Mk_front p g pc rel) (FHandle wt wq r) (Mk_front p g' pc (<[wt := k]> rel))
| f_push p g pc rel wt wq r k b g' p' :
    rel !! wt = Some k → step p (Process wt wq r) p' →
    bucket_enqueue (rq_fcgx r) (bucket_index g k) g = (b, g') →
    fstep n (Mk_front p g pc rel) (FPush wt wq r)
      (Mk_front p' g' (ring_signal b (bucket_index g k) g pc) (delete wt rel))
| f_return p g rel :
    fstep n (Mk_front p g RReturn rel) FReturn (Mk_front p g RDone rel).

(** A failed assertion: [QueueBucket::dequeue] wakes to an empty bucket, or
    [RGWWQ::_clear] finds requests. *)
Definition front_dies (s : front) : Prop :=
  (∃ k, f_pc s = RWaiting k true ∧ bucket_dequeue (bucket_index (f_ring s) k) (f_ring s) = None) ∨
  (f_pc s = RStopping ∧ s_callers (f_pool s) !! RUN = Some Joined ∧ stop_end RUN (f_pool s) = Some Dies).

(** The runs: every interleaving of the steps, spurious wake-ups in the ring and
    in the pool included. *)
Inductive front_run (n : Z) : list flabel → front → Prop :=
| front_init : front_run n [] (RGWFCGXProcess_new n)
| front_step tr s l s' : front_run n tr s → fstep n s l s' → front_run n (tr ++ [l]) s'.

(** Whether the last wait in the ring was ended by a spurious wake-up. *)
Definition spurious (tr : list flabel) : bool :=
  foldl (λ b l, match l with FWait => false | FSpurious => true | _ => b end) false tr.

(** Connections accepted, and those whose [handle_request] has returned. *)
Definition accepted1 (l : flabel) : list Z := match l with FAccept conn => [conn] | _ => [] end.
Definition served1 (l : flabel) : list Z := match l with FPush _ _ r => [rq_conn r] | _ => [] end.
Definition accepted (tr : list flabel) : list Z := tr ≫= accepted1.
Definition served (tr : list flabel) : list Z := tr ≫= served1.

(** ** The configuration *)

(** [main] configures the front end with ["test null"]: framework [test], and it
    listens on the default path. *)
Example main_config :
  config_init (RGWFrontendConfig_new "test null") = (0, Mk_fc "test null" [("null", "")] "test") ∧
  socket_of (config_init (RGWFrontendConfig_new "test null")).2 = Some (inl "/rgw.sock").
Proof. split; reflexivity. Qed.

(** A spurious wake-up in the ring is an assertion failure: the bucket is tested
    with [if] and not in a loop. *)
Lemma spurious_wakeup_dies n p g rel k :
  entries g (bucket_index g k) = [] →
  ∃ s, fstep n (Mk_front p g (RWaiting k false) rel) FSpurious s ∧ front_dies s.
Proof.
  intros He. eexists. split; [constructor|]. left. exists k. split; [done|]. unfold bucket_dequeue. cbn. by rewrite He.
Qed.

(** [get_val] for an integer: [true] exactly for a value that is not one. *)
Lemma get_val_int_inverted key d c v :
  mfind key (fc_map c) = Some v → (get_val_int key d c).1 = negb (bool_decide ((strict_strtol v 10).2 = [])).
Proof.
  intros Hv. unfold get_val_int, get_val_str. rewrite Hv. destruct (strict_strtol v 10) as [x []]; done.
Qed.
