(* ===== verification/FrontEndFacts.v ===== *)
(** * The front end serves every connection once ([front_end_serves]) and comes
    to an end ([front_end_ends]) *)

From stdpp Require Import gmap.
From S2P Require Import Prelude StdMap Lockdep WorkPool WorkPoolFacts QueueRing FrontEnd.
#[local] Open Scope Z_scope.

Abbreviation pool_s := (system (list request) request).
Abbreviation pool_l := (label (list request) request).

(** ** The pool's part of a run *)

Definition pool1 (l : flabel) : list pool_l :=
  match l with FPool l => [l] | FPush wt wq r => [Process wt wq r] | _ => [] end.
Definition pool_trace (tr : list flabel) : list pool_l := AddQueue RUN REQ_WQ [] :: (tr ≫= pool1).

(** Requests in the queue, with workers, and in all under way in the pool. *)
Definition in_pool (p : pool_s) : list request := items_of (s_queues p) REQ_WQ ++ only REQ_WQ (running p).

(** What [run] holds: a connection structure, an accepted request. *)
Definition run_slot (pc : run_pc) : list Z :=
  match pc with RAccept x | RDelete x | RPut x _ => [x] | RQueue r => [rq_fcgx r] | _ => [] end.
Definition run_conn (pc : run_pc) : list Z := match pc with RQueue r => [rq_conn r] | _ => [] end.
Definition run_ticket (pc : run_pc) : list Z := match pc with RPut _ k => [k] | _ => [] end.
Definition run_reads (pc : run_pc) : bool := match pc with RTaking _ | RWaiting _ _ => true | _ => false end.

Definition filled (pc : run_pc) : bool := match pc with RStart | RFill => false | _ => true end.
Definition closing (pc : run_pc) : bool := match pc with RStop | RStopping | RReturn | RDone => true | _ => false end.

(** The calls of the pool in progress. *)
Definition callers_at (pc : run_pc) (m : gmap Z cstate) : Prop :=
  match pc with
  | RDraining => ∃ b, m = {[RUN := Draining (Some REQ_WQ) b]}
  | RStopping => ∃ w, m = {[RUN := w]} ∧ stopping1 w = [tt]
  | _ => m = ∅
  end.

(** Writing tickets taken and not used. *)
Definition pending (s : front) : list Z := run_ticket (f_pc s) ++ gather (λ k, [k]) (f_release s).

(** ** The invariant *)

(** The reader has the last ticket, and sleeps only while its bucket is empty;
    it wakes to an empty bucket only when nobody has signalled. *)
Definition ticket_ok (spur : bool) (pc : run_pc) (g : ring Z) : Prop :=
  match pc with
  | RTaking k => k = cur_read_bucket g
  | RWaiting k woken =>
      k = cur_read_bucket g ∧ (woken = false → entries g (bucket_index g k) = [])
      ∧ (woken = true → entries g (bucket_index g k) = [] → spur = true)
  | _ => True
  end.

Lemma spurious_app tr l :
  spurious (tr ++ [l]) = match l with FWait => false | FSpurious => true | _ => spurious tr end.
Proof. unfold spurious. by rewrite foldl_app. Qed.

Record front_inv (n : Z) (tr : list flabel) (s : front) : Prop := {
  fi_pool : orderly_run n (pool_trace tr) (f_pool s);
  fi_ring : ring_inv (max_connections n) (pending s) (run_reads (f_pc s)) (f_ring s);
  fi_bound : cur_write_bucket (f_ring s) <= (if filled (f_pc s) then max_connections n else 0) + Z.of_nat (length tr) ∧
             cur_read_bucket (f_ring s) <= Z.of_nat (length tr);
  fi_ticket : ticket_ok (spurious tr) (f_pc s) (f_ring s);
  fi_release : ∀ wt k, f_release s !! wt = Some k → ∃ wq r, s_workers (f_pool s) !! wt = Some (WProcessing wq r);
  fi_slots : ring_entries (f_ring s) ++ run_slot (f_pc s) ++ (rq_fcgx <$> in_pool (f_pool s)) ≡ₚ
    (if filled (f_pc s) then seqZ 0 (max_connections n) else []);
  fi_conns : accepted tr ≡ₚ served tr ++ run_conn (f_pc s) ++ (rq_conn <$> in_pool (f_pool s));
  fi_queues : work_queues (s_pool (f_pool s)) = [REQ_WQ] ∧ dom (s_queues (f_pool s)) = {[REQ_WQ]};
  fi_callers : callers_at (f_pc s) (s_callers (f_pool s));
  fi_closing : closing (f_pc s) = true → in_pool (f_pool s) = [] ∧ in_hand (f_pool s) = []
}.

Lemma pool_new_run n : orderly_run n [AddQueue RUN REQ_WQ []] (pool_new n).
Proof.
  change [AddQueue RUN REQ_WQ []] with ([] ++ [AddQueue RUN REQ_WQ []] : list pool_l).
  eapply orderly_step; [constructor|done|]. by apply (step_add_queue (Mk_system (ThreadPool_new n) ∅ ∅ ∅) RUN REQ_WQ []).
Qed.

Lemma max_connections_pos n : 0 < n → 0 < max_connections n.
Proof. intros Hn. unfold max_connections. pose proof (Z.shiftr_nonneg n 3). lia. Qed.

Lemma front_new_inv n : 0 < n → front_inv n [] (RGWFCGXProcess_new n).
Proof.
  intros Hn. pose proof (max_connections_pos n Hn). split; cbn; try done.
  - apply pool_new_run.
  - by apply ring_new_inv.
  - unfold ring_entries, QueueRing_new. cbn. rewrite app_nil_r. by induction (Z.to_nat _).
Qed.

(** ** Steps of the pool *)

(** What a step of the pool does to the requests under way. *)
Lemma in_pool_step p l p' :
  orderly p l → step p l p' →
  only REQ_WQ (processed1 l) ++ in_pool p' ≡ₚ in_pool p ++ only REQ_WQ (queued1 l).
Proof.
  intros Ho Hs. destruct (step_ledger p l p' REQ_WQ Ho Hs) as [H1 H2]. unfold in_pool.
  assert (only REQ_WQ (took1 l) ++ items_of (s_queues p') REQ_WQ ++ only REQ_WQ (processed1 l) ++ only REQ_WQ (running p') ≡ₚ
          only REQ_WQ (took1 l) ++ items_of (s_queues p) REQ_WQ ++ only REQ_WQ (queued1 l) ++ only REQ_WQ (running p)) as Hp.
  { rewrite (assoc app (only _ (took1 l))), <-H1, <-H2. solve_Permutation. }
  apply Permutation_app_inv_l in Hp. rewrite (Permutation_app_swap_app _ (items_of (s_queues p') _)), Hp. solve_Permutation.
Qed.

(** The steps of the pool that occur in the front end, but for [Process]. *)
Definition front_label (l : pool_l) : Prop :=
  match l with Process _ _ _ | AddQueue _ _ _ | RemoveQueue _ _ | Resize _ _ _ => False | _ => True end.

Lemma advances_label pc l p pc' : advances pc l p pc' → front_label l.
Proof. by destruct 1. Qed.

(** Such a step is a worker's turn, the start of threads, or leaves the workers
    alone. *)
Record same_queues (p p' : pool_s) : Prop := {
  sq_list : work_queues (s_pool p') = work_queues (s_pool p);
  sq_dom : dom (s_queues p') = dom (s_queues p)
}.

Inductive step_shape (p p' : pool_s) : Prop :=
| shape_turn wt w p1 :
    worker_turn wt p1 p' → s_workers p1 = s_workers p → s_workers p !! wt = Some w → running1 w = [] →
    (∀ v, items_of (s_queues p1) v = items_of (s_queues p) v) → same_queues p p1 → step_shape p p'
| shape_start new :
    NoDup new → Forall (λ wt, s_workers p !! wt = None) new →
    s_workers p' = foldr (λ wt, <[wt := WStarting]>) (s_workers p) new → same_queues p p' → step_shape p p'
| shape_other : s_workers p' = s_workers p → same_queues p p' → step_shape p p'.

Lemma step_has_shape p l p' : step p l p' → front_label l → step_shape p p'.
Proof.
  intros Hs Hf. destruct Hs as [s v w s' Hv Hi Hl|s v q x Hv|s v q x s1 s' Hv Hfin Hl|s c new Hc Hfr|s c v new Hc Hv Hfr
    |s c v x s' Hc Hq|s c Hc|s c Hc|s c s' Hc Hu|s c o s' Hc Hd|s c Hc|s c o s' Hc Hd|s c w Hc|s c Hc
    |s c joined v Hc Ht Hv|s c joined Hc Ht|s c s' Hc He|s c v q Hc Hq He|s c v wqs Hc Hr]; cbn in Hf;
    try done; try (by apply shape_other).
  - by eapply (shape_turn _ _ v w s); [by apply worker_loop_turn|done|done|destruct Hi; subst|done|].
  - destruct (finish_same _ _ _ _ Hfin) as [Ew Ei]. apply worker_finish_Done in Hfin as (q' & Hd & _ & E).
    eapply (shape_turn _ _ v _ s1); [by apply worker_loop_turn|done|exact Hv|done|done|].
    rewrite E. by destruct (_ || _).
  - destruct Hfr as (Hnd & Hfr & _). by apply (shape_start _ _ new).
  - unfold queue_item in Hq. destruct (s_queues s !! v) eqn:E; simplify_eq/=.
    apply shape_other; [done|split; [done|]]. apply dom_insert_lookup_L. eauto.
  - unfold pause, pause_wait. case_match; by apply shape_other.
  - unfold unpause in Hu. outcome_inv. by apply shape_other.
  - unfold drain, drain_wait in Hd. destruct (drain_busy _ _) as [[]|]; simplify_eq/=; by apply shape_other.
  - unfold pause_wait. case_match; by apply shape_other.
  - unfold drain_wait in Hd. destruct (drain_busy _ _) as [[]|]; simplify_eq/=; by apply shape_other.
  - unfold stop_end in He. destruct (clear_queues _ _) as [[qs| |]|] eqn:E; simplify_eq/=.
    apply shape_other; [done|split; [done|]]. apply (clear_queues_Done _ _ _ E).
Qed.

Lemma shape_queues p p' : step_shape p p' → same_queues p p'.
Proof.
  intros [wt w p1 Ht _ _ _ _ []| |]; [|done..].
  split; [rewrite <-sq_list0; apply (wt_pool _ _ _ Ht)|rewrite <-sq_dom0; apply (wt_dom _ _ _ Ht)].
Qed.

Lemma shape_running p p' wt wq r :
  step_shape p p' → s_workers p !! wt = Some (WProcessing wq r) → s_workers p' !! wt = Some (WProcessing wq r).
Proof.
  intros [v w p1 Ht Ew Hv Hr _ _|new Hnd Hfr E _|E _] Hw; [| |by rewrite E].
  - destruct (wt_worker _ _ _ Ht) as (w' & E & _). rewrite E, Ew. destruct (decide (v = wt)) as [->|]; [by simplify_eq|].
    by rewrite lookup_insert_ne.
  - rewrite E. destruct (gather_start hand1 new (s_workers p) eq_refl Hnd Hfr) as [_ Hl].
    rewrite Hl, bool_decide_false; [done|]. intros Hi. rewrite Forall_forall in Hfr. specialize (Hfr wt Hi). congruence.
Qed.

(** An idle pool stays idle. *)
Lemma shape_idle p p' :
  step_shape p p' → dom (s_queues p) = {[REQ_WQ]} → items_of (s_queues p) REQ_WQ = [] → in_hand p = [] → in_hand p' = [].
Proof.
  unfold in_hand. intros [wt w p1 Ht Ew Hw Hr Hi [_ Hd]|new Hnd Hfr E _|E _] Hdom Hi0 Hh; [| |by rewrite E].
  - destruct (wt_worker _ _ _ Ht) as (w' & E & _ & Eh & _). rewrite E, Ew. apply Permutation_nil.
    rewrite (gather_insert _ _ _ _ w' Hw).
    assert (gather hand1 (delete wt (s_workers p)) = []) as ->.
    { apply gather_nil. intros k a [_ Ha]%lookup_delete_Some. exact (proj1 (gather_nil _ _) Hh k a Ha). }
    rewrite app_nil_r, Eh. destruct (taken wt p') as [[v x]|] eqn:Et; [|done]. exfalso.
    pose proof (wt_items _ _ _ Ht v) as Hv. rewrite Et in Hv. change (option_list (Some (v, x))) with [(v, x)] in Hv.
    rewrite only_one, decide_True, Hi in Hv by done.
    assert (v ∈ dom (s_queues p)) as Hin by (apply items_of_dom; by rewrite Hv).
    rewrite Hdom in Hin. apply elem_of_singleton in Hin as ->. by rewrite Hi0 in Hv.
  - apply Permutation_nil. rewrite E, (proj1 (gather_start hand1 new (s_workers p) eq_refl Hnd Hfr)). by rewrite Hh.
Qed.

Lemma orderly_advance n tr p g pc rel l p' pc' :
  front_inv n tr (Mk_front p g pc rel) → advances pc l p' pc' → orderly p l.
Proof.
  intros [_ _ _ _ _ _ _ [Hq Hd] Hc Hcl] Ha. destruct Ha; cbn in *; try done.
  - unfold stoppers. by rewrite Hc.
  - rewrite Hq. by left.
  - unfold stoppers. by rewrite Hc.
  - intros wq. destruct (Hcl eq_refl) as [[Hi _]%app_nil _]. destruct (decide (wq = REQ_WQ)) as [->|Hne]; [done|].
    unfold items_of. destruct (s_queues p !! wq) eqn:E; [|done]. exfalso. apply Hne, (elem_of_singleton (C := gset Z)).
    rewrite <-Hd. apply elem_of_dom. eauto.
Qed.

Lemma callers_wake pc m : callers_at pc m → callers_at pc (wake <$> m).
Proof.
  destruct pc; unfold callers_at; try (by intros ->; rewrite fmap_empty).
  - intros [b ->]. exists true. by rewrite map_fmap_singleton.
  - intros (w & -> & Hw). rewrite map_fmap_singleton. exists (wake w). split; [done|]. by destruct w.
Qed.

#[local] Ltac caller_is Hc :=
  match goal with H : s_callers _ !! RUN = Some _ |- _ => rewrite Hc, lookup_singleton_eq in H; simplify_eq/= end.

Lemma advance_callers pc l p p' pc' :
  callers_at pc (s_callers p) → step p l p' → advances pc l p' pc' → callers_at pc' (s_callers p').
Proof.
  intros Hc Hs Ha. destruct Ha; inversion Hs; subst; cbv beta iota delta [callers_at] in Hc.
  - match goal with H : worker_loop _ _ = _ |- _ => apply worker_loop_turn, wt_callers in H as -> end. exact Hc.
  - match goal with H : worker_loop _ _ = _ |- _ => apply worker_loop_turn, wt_callers in H as -> end.
    match goal with H : worker_finish _ _ _ = _ |- _ => apply worker_finish_Done in H as (q' & _ & _ & ->) end.
    destruct (_ || _); [by apply callers_wake|exact Hc].
  - exact Hc.
  - unfold queue_item in *. destruct (s_queues p !! REQ_WQ); simplify_eq/=. exact Hc.
  - unfold drain, drain_wait in *. destruct (drain_busy _ _) as [[]|]; simplify_eq/=; unfold after_drain; cbn; rewrite Hc.
    + rewrite lookup_insert_eq. cbn. eauto.
    + by rewrite delete_empty, lookup_empty.
  - destruct Hc as [b Hc]. caller_is Hc.
  - destruct Hc as [b Hc]. caller_is Hc.
    unfold drain_wait in *. destruct (drain_busy _ _) as [[]|]; simplify_eq/=; unfold after_drain; cbn; rewrite Hc.
    + rewrite lookup_insert_eq. exists false. apply insert_singleton_eq.
    + by rewrite delete_singleton_eq, lookup_empty.
  - destruct Hc as [b Hc]. caller_is Hc. rewrite Hc, insert_singleton_eq. eauto.
  - exists (Joining ∅). cbn [stop_begin set_caller join_old_threads on_pool s_callers]. by rewrite Hc.
  - destruct Hc as (w & Hc & _). cbn. rewrite Hc, insert_singleton_eq. eauto.
  - destruct Hc as (w & Hc & _). cbn. rewrite Hc, insert_singleton_eq. eauto.
  - destruct Hc as (w & Hc & _). unfold stop_end in *. destruct (clear_queues _ _) as [[]|]; simplify_eq/=.
    by rewrite Hc, delete_singleton_eq.
Qed.

(** ** Every step keeps the invariant *)

Lemma pool_trace_app tr l : pool_trace (tr ++ [l]) = pool_trace tr ++ pool1 l.
Proof. unfold pool_trace. rewrite bind_app. cbn [mbind list_bind app]. by rewrite app_nil_r. Qed.

Lemma accepted_app tr l : accepted (tr ++ [l]) = accepted tr ++ accepted1 l.
Proof. unfold accepted. rewrite bind_app. cbn [mbind list_bind app]. by rewrite app_nil_r. Qed.

Lemma served_app tr l : served (tr ++ [l]) = served tr ++ served1 l.
Proof. unfold served. rewrite bind_app. cbn [mbind list_bind app]. by rewrite app_nil_r. Qed.

(** Where [run] is before and after a step of the pool. *)
Lemma advance_pc pc l p' pc' :
  advances pc l p' pc' →
  run_ticket pc' = run_ticket pc ∧ run_reads pc' = run_reads pc ∧ filled pc' = filled pc ∧
  run_slot pc = (rq_fcgx <$> only REQ_WQ (queued1 l)) ++ run_slot pc' ∧
  run_conn pc = (rq_conn <$> only REQ_WQ (queued1 l)) ++ run_conn pc'.
Proof. destruct 1; cbn; try done; unfold after_drain; by destruct (_ !! _). Qed.

Lemma advance_quiet pc l p' pc' :
  advances pc l p' pc' → only REQ_WQ (processed1 l) = [] ∧ (pc' = pc ∨ run_reads pc' = false) ∧ accepted1 (FPool l) = [].
Proof. destruct 1; cbn; auto; unfold after_drain; destruct (_ !! _); auto. Qed.

Lemma advance_closing pc l p' pc' :
  advances pc l p' pc' → closing pc' = true →
  only REQ_WQ (queued1 l) = [] ∧
  (closing pc = true ∨ (l = Drain RUN (Some REQ_WQ) ∨ l = Resume RUN ∧ pc = RDraining) ∧ s_callers p' !! RUN = None).
Proof. destruct 1; cbn; auto; unfold after_drain; destruct (_ !! _) eqn:E; cbn; try done; split; auto. Qed.

Lemma in_pool_nil (p : pool_s) : in_pool p = [] ↔ items_of (s_queues p) REQ_WQ = [] ∧ only REQ_WQ (running p) = [].
Proof. unfold in_pool. split; [apply app_nil|by intros [-> ->]]. Qed.

Lemma front_pool_step_inv n tr p g pc rel l p' pc' :
  front_inv n tr (Mk_front p g pc rel) → step p l p' → advances pc l p' pc' →
  front_inv n (tr ++ [FPool l]) (Mk_front p' g pc' rel).
Proof.
  intros HI Hs Ha. pose proof (orderly_advance _ _ _ _ _ _ _ _ _ HI Ha) as Ho.
  pose proof (step_has_shape _ _ _ Hs (advances_label _ _ _ _ Ha)) as Hsh.
  pose proof (in_pool_step _ _ _ Ho Hs) as Hin.
  destruct (advance_pc _ _ _ _ Ha) as (Et & Er & Ef & Esl & Eco). destruct (advance_quiet _ _ _ _ Ha) as (Epr & Epc & Eac).
  destruct HI as [Hrun Hring Hb Htk Hrel Hsl Hco [Hq Hd] Hc Hcl]. cbn [f_pool f_ring f_pc f_release] in *.
  rewrite Epr in Hin. cbn [app] in Hin.
  split; cbn [f_pool f_ring f_pc f_release].
  - rewrite pool_trace_app. by eapply orderly_step.
  - unfold pending in *. cbn [f_pc f_release] in *. by rewrite Et, Er.
  - rewrite length_app, Ef. cbn [length]. lia.
  - rewrite spurious_app. destruct Epc as [->|Hn]; [done|]. by destruct pc'.
  - intros wt k Hk. destruct (Hrel wt k Hk) as (wq & r & Hw). exists wq, r. by eapply shape_running.
  - rewrite Ef, <-Hsl, Esl, Hin, fmap_app. solve_Permutation.
  - rewrite accepted_app, served_app, Eac, Hco, Eco, Hin, fmap_app, !app_nil_r. solve_Permutation.
  - destruct (shape_queues _ _ Hsh) as [-> ->]. done.
  - by eapply advance_callers.
  - intros Hcl'. destruct (advance_closing _ _ _ _ Ha Hcl') as [Eq [Hold|[Hl Hret]]].
    + destruct (Hcl Hold) as [Hp Hh]. rewrite Hp, Eq in Hin. split; [by apply Permutation_nil_r in Hin|].
      apply in_pool_nil in Hp as [Hi _]. by eapply shape_idle.
    + destruct (drain_returns_rest RUN REQ_WQ p l p') as (Hh & Hr & Hi); [by eapply orderly_run_inv|done| |].
      { split; [|done]. destruct Hl as [->|[-> ->]]; [by left|right]. split; [done|]. destruct Hc as [b Hc].
        exists b. by rewrite Hc, lookup_singleton_eq. }
      split; [|done]. assert (in_pool p = []) as Hp by (apply in_pool_nil; by rewrite Hr).
      rewrite Hp, Eq in Hin. by apply Permutation_nil_r in Hin.
Qed.

(** Steps that leave the pool alone. *)
Lemma local_step_inv n tr p g pc rel l g' pc' rel' :
  front_inv n tr (Mk_front p g pc rel) → pool1 l = [] →
  ring_inv (max_connections n) (pending (Mk_front p g' pc' rel')) (run_reads pc') g' →
  cur_write_bucket g' <= cur_write_bucket g + 1 ∧ cur_read_bucket g' <= cur_read_bucket g + 1 →
  ticket_ok (spurious (tr ++ [l])) pc' g' →
  (∀ wt k, rel' !! wt = Some k → is_Some (rel !! wt) ∨ ∃ wq r, s_workers p !! wt = Some (WProcessing wq r)) →
  ring_entries g' ++ run_slot pc' ≡ₚ ring_entries g ++ run_slot pc → filled pc' = filled pc →
  accepted1 l ++ run_conn pc = run_conn pc' → served1 l = [] →
  (callers_at pc (s_callers p) → callers_at pc' (s_callers p)) → (closing pc' = true → closing pc = true) →
  front_inv n (tr ++ [l]) (Mk_front p g' pc' rel').
Proof.
  intros [Hrun Hring Hb Htk Hrel Hsl Hco Hq Hc Hcl] Ep Hr' Hb' Ht' Hrel' Hsl' Ef Eac Esv Hc' Hcl'.
  cbn [f_pool f_ring f_pc f_release] in *. split; cbn [f_pool f_ring f_pc f_release]; try done.
  - by rewrite pool_trace_app, Ep, app_nil_r.
  - rewrite length_app, Ef. cbn [length]. lia.
  - intros wt k Hk. destruct (Hrel' wt k Hk) as [[k' Hk']|]; eauto.
  - by rewrite (assoc app), Hsl', <-(assoc app), Hsl, Ef.
  - rewrite accepted_app, served_app, Esv, app_nil_r, Hco, <-Eac. solve_Permutation.
  - by apply Hc'.
  - auto.
Qed.

Lemma fill_ring n (l : list Z) (g : ring Z) :
  ring_inv n [] false g → cur_write_bucket g + Z.of_nat (length l) < 2 ^ 64 →
  ring_inv n [] false (ring_fill l g) ∧ ring_entries (ring_fill l g) ≡ₚ ring_entries g ++ l ∧
  cur_write_bucket (ring_fill l g) = cur_write_bucket g + Z.of_nat (length l) ∧
  cur_read_bucket (ring_fill l g) = cur_read_bucket g.
Proof.
  revert g. induction l as [|x l IH]; intros g Hg Hb; cbn [ring_fill foldl].
  { rewrite app_nil_r. cbn. split_and!; try done. lia. }
  rewrite length_cons in *. destruct (write_ticket_inv n [] false g Hg) as [Hg1 Ek]; [unfold in_u64; lia|].
  destruct (bucket_enqueue_inv n _ [] false (write_ticket g).2 x Hg1) as [Hg2 Hp].
  assert (ring_enqueue x g = (bucket_enqueue x (bucket_index (write_ticket g).2 (write_ticket g).1) (write_ticket g).2).2) as Ex.
  { unfold ring_enqueue. by destruct (write_ticket g). }
  rewrite <-Ex in Hg2, Hp. assert (cur_write_bucket (ring_enqueue x g) = cur_write_bucket g + 1) as Ew.
  { rewrite Ex. cbn. exact Ek. }
  destruct (IH (ring_enqueue x g) Hg2 ltac:(lia)) as (H1 & H2 & H3 & H4). unfold ring_fill in *.
  split_and!; [done| |lia|by rewrite H4, Ex]. rewrite H2, Hp. cbn. unfold ring_entries. cbn. solve_Permutation.
Qed.

Lemma running_queue n tr s wt wq r :
  front_inv n tr s → s_workers (f_pool s) !! wt = Some (WProcessing wq r) → wq = REQ_WQ ∧ r ∈ in_pool (f_pool s).
Proof.
  intros [Hrun _ _ _ _ _ _ [_ Hd] _ _] Hw. pose proof (orderly_run_inv _ _ _ Hrun) as HI.
  assert (wq ∈ dom (s_queues (f_pool s))) as Hin.
  { apply (pi_hands _ _ HI wq r). apply elem_of_gather. exists wt, (WProcessing wq r). split; [done|]. by apply list_elem_of_singleton. }
  rewrite Hd in Hin. apply elem_of_singleton in Hin as ->. split; [done|]. unfold in_pool. apply elem_of_app. right.
  unfold only. apply list_elem_of_fmap. exists (REQ_WQ, r). split; [done|]. apply list_elem_of_filter. split; [done|].
  apply elem_of_gather. exists wt, (WProcessing REQ_WQ r). split; [done|]. by apply list_elem_of_singleton.
Qed.

Lemma fill_inv n tr p g rel :
  0 < n → max_connections n + Z.of_nat (length tr) + 1 < 2 ^ 64 → front_inv n tr (Mk_front p g RFill rel) →
  front_inv n (tr ++ [FFill]) (Mk_front p (ring_fill (seqZ 0 (max_connections n)) g) RNext rel).
Proof.
  intros Hn Hu HI. pose proof (max_connections_pos n Hn) as Hm.
  assert (ring_entries g = [] ∧ in_pool p = []) as [Hg Hp].
  { pose proof (fi_slots _ _ _ HI) as Hs. cbn in Hs. apply Permutation_nil_r in Hs. apply app_nil in Hs as [? Hs].
    split; [done|]. by apply fmap_nil_inv in Hs. }
  assert (gather (λ k : Z, [k]) rel = []) as Hrel.
  { apply gather_nil. intros wt k Hk. destruct (fi_release _ _ _ HI wt k Hk) as (wq & r & Hw).
    destruct (running_queue _ _ _ _ _ _ HI Hw) as [_ Hin]. cbn in Hin. rewrite Hp in Hin. by apply elem_of_nil in Hin. }
  destruct HI as [Hrun Hring Hb Htk Hre Hsl Hco Hq Hc Hcl]. unfold pending in *.
  cbn [f_pool f_ring f_pc f_release filled run_reads run_ticket app] in *. rewrite Hrel in Hring.
  destruct (fill_ring (max_connections n) (seqZ 0 (max_connections n)) g Hring) as (H1 & H2 & H3 & H4); rewrite ?length_seqZ in *; [lia|].
  split; cbn [f_pool f_ring f_pc f_release filled]; try done.
  - by rewrite pool_trace_app, app_nil_r.
  - unfold pending. cbn. by rewrite Hrel.
  - rewrite length_app, H3, H4. cbn [length]. lia.
  - rewrite H2, Hg, Hp. cbn. by rewrite app_nil_r.
  - by rewrite accepted_app, served_app, !app_nil_r.
Qed.

Lemma push_ticket spur pc k x g :
  ticket_ok spur pc g → (bucket_index g k < length (buckets g))%nat →
  ticket_ok spur (ring_signal (bucket_enqueue x (bucket_index g k) g).1 (bucket_index g k) g pc) (bucket_enqueue x (bucket_index g k) g).2.
Proof.
  intros Ht Hlt. destruct pc as [| | |k'|k' w| | | | | | | | | |]; try done.
  destruct Ht as (-> & Hf & Hw). cbn [bucket_enqueue fst snd ring_signal].
  assert (∀ i, entries (Mk_ring (<[bucket_index g k := entries g (bucket_index g k) ++ [x]]> (buckets g)) (cur_read_bucket g) (cur_write_bucket g)) i
    = if decide (bucket_index g k = i) then entries g (bucket_index g k) ++ [x] else entries g i) as He by (intros i; by apply entries_insert).
  destruct w.
  - split; [done|]. rewrite bucket_index_insert, He. split; [done|]. case_decide as E; [by intros _ [_ ?]%app_nil|done].
  - destruct (decide (bucket_index g (cur_read_bucket g) = bucket_index g k)) as [E|E].
    + assert (match entries g (bucket_index g k) with [] => true | _ => false end = true) as Hsig
        by (by rewrite <-E, (Hf eq_refl)).
      rewrite (bool_decide_true _ E), Hsig. cbn [andb]. split; [done|].
      rewrite bucket_index_insert, He, decide_True by done. split; [done|]. by intros _ [_ ?]%app_nil.
    + rewrite (bool_decide_false _ E), andb_false_r. split; [done|].
      rewrite bucket_index_insert, He, decide_False by done. done.
Qed.

Lemma ring_signal_same b j g pc :
  run_ticket (ring_signal b j g pc) = run_ticket pc ∧ run_reads (ring_signal b j g pc) = run_reads pc ∧
  run_slot (ring_signal b j g pc) = run_slot pc ∧ run_conn (ring_signal b j g pc) = run_conn pc ∧
  filled (ring_signal b j g pc) = filled pc ∧ closing (ring_signal b j g pc) = closing pc ∧
  callers_at (ring_signal b j g pc) = callers_at pc.
Proof. destruct pc as [| | | |k []| | | | | | | | | |]; try done. cbn. by destruct (b && _). Qed.

Lemma push_inv n tr p g pc rel wt wq r k p' :
  front_inv n tr (Mk_front p g pc rel) → rel !! wt = Some k → step p (Process wt wq r) p' →
  front_inv n (tr ++ [FPush wt wq r])
    (Mk_front p' (bucket_enqueue (rq_fcgx r) (bucket_index g k) g).2
       (ring_signal (bucket_enqueue (rq_fcgx r) (bucket_index g k) g).1 (bucket_index g k) g pc) (delete wt rel)).
Proof.
  intros HI Hk Hs. assert (s_workers p !! wt = Some (WProcessing wq r) ∧ p' = set_worker wt (WProcessed wq r) p) as [Hw Ep']
    by (by inversion Hs).
  destruct (running_queue _ _ _ _ _ _ HI Hw) as [-> _]. pose proof (in_pool_step p (Process wt REQ_WQ r) p' I Hs) as Hin.
  destruct HI as [Hrun Hring Hb Htk Hre Hsl Hco Hq Hc Hcl]. unfold pending in *.
  cbn [f_pool f_ring f_pc f_release] in *. cbn [processed1 queued1] in Hin. rewrite only_one, only_nil, app_nil_r, decide_True in Hin by done.
  destruct (ring_signal_same (bucket_enqueue (rq_fcgx r) (bucket_index g k) g).1 (bucket_index g k) g pc) as (E1 & E2 & E3 & E4 & E5 & E6 & E7).
  assert (ring_inv (max_connections n) (k :: run_ticket pc ++ gather (λ k : Z, [k]) (delete wt rel)) (run_reads pc) g) as Hring'.
  { eapply ring_inv_perm, Hring. rewrite (gather_delete (λ k : Z, [k]) rel wt k Hk). cbn. solve_Permutation. }
  destruct (bucket_enqueue_inv _ _ _ _ _ (rq_fcgx r) Hring') as [Hg' Hpe].
  split; cbn [f_pool f_ring f_pc f_release].
  - rewrite pool_trace_app. by eapply orderly_step.
  - unfold pending. cbn [f_pc f_release]. by rewrite E1, E2.
  - rewrite length_app, E5. cbn [length bucket_enqueue snd cur_write_bucket cur_read_bucket]. lia.
  - rewrite spurious_app. apply push_ticket; [done|]. by eapply bucket_index_lt.
  - intros v k' [Hne Hv]%lookup_delete_Some. destruct (Hre v k' Hv) as (wq & r' & Hw'). exists wq, r'.
    rewrite Ep'. cbn. by rewrite lookup_insert_ne.
  - rewrite E3, E5, <-Hsl, Hpe, <-Hin, fmap_app. cbn. solve_Permutation.
  - rewrite accepted_app, served_app, E4, Hco, <-Hin, fmap_app, app_nil_r. cbn. solve_Permutation.
  - rewrite Ep'. exact Hq.
  - rewrite E7, Ep'. exact Hc.
  - rewrite E6. intros Hcl'. destruct (Hcl Hcl') as [Hp _]. rewrite Hp in Hin. by apply Permutation_nil_r in Hin.
Qed.

Lemma front_step_inv n tr s l s' :
  0 < n → max_connections n + Z.of_nat (length tr) + 1 < 2 ^ 64 → front_inv n tr s → fstep n s l s' →
  front_inv n (tr ++ [l]) s'.
Proof.
  intros Hn Hu HI Hs.
  assert (in_u64 (cur_write_bucket (f_ring s) + 1) ∧ in_u64 (cur_read_bucket (f_ring s) + 1)) as [Hw64 Hr64].
  { destruct (fi_bound _ _ _ HI). pose proof (max_connections_pos n Hn). unfold in_u64. destruct (filled (f_pc s)); lia. }
  assert (Hring := fi_ring _ _ _ HI). assert (Htk := fi_ticket _ _ _ HI). unfold pending in Hring.
  destruct Hs as [p g pc rel l p' pc' Hs Ha|p g rel|p g rel k g' Hk|p g rel k x g' Hd|p g rel k Hd|p g rel k x g' Hd|p g rel k
    |p g rel x conn|p g rel x|p g rel x k g' Hk|p g rel x k b g' Hb|p g pc rel wt wq r k g' Hw Hrel Hk|p g pc rel wt wq r k b g' p' Hrel Hs Hb|p g rel];
    cbn [f_pool f_ring f_pc f_release run_ticket run_reads app ticket_ok] in *.
  - by eapply front_pool_step_inv.
  - by apply fill_inv.
  - destruct (read_ticket_inv _ _ _ Hring Hr64) as [Hg' Ek]. rewrite Hk in Hg', Ek. cbn in Hg', Ek.
    unfold read_ticket in Hk. eapply local_step_inv; try done; [|by eauto|]; injection Hk as <- <-; cbn; [|done].
    rewrite u64_small; [lia|]. pose proof (ri_read _ _ _ _ Hring). unfold in_u64 in Hr64. cbn in *. lia.
  - subst k. destruct (bucket_dequeue_inv _ _ _ _ _ Hring Hd) as (Hg' & Hp & Ew & Er).
    eapply local_step_inv; try done; [lia|by eauto|]. rewrite Hp. cbn. rewrite app_nil_r. apply Permutation_app_comm.
  - eapply local_step_inv; try done; [lia| |by eauto]. split; [done|]. unfold bucket_dequeue in Hd. by destruct (entries g _).
  - destruct Htk as [-> _]. destruct (bucket_dequeue_inv _ _ _ _ _ Hring Hd) as (Hg' & Hp & Ew & Er).
    eapply local_step_inv; try done; [lia|by eauto|]. rewrite Hp. cbn. rewrite app_nil_r. apply Permutation_app_comm.
  - destruct Htk as (-> & _). eapply local_step_inv; try done; [lia| |by eauto]. by rewrite spurious_app.
  - eapply local_step_inv; try done; [lia|by eauto].
  - eapply local_step_inv; try done; [lia|by eauto].
  - destruct (write_ticket_inv _ _ _ _ Hring Hw64) as [Hg' Ek]. rewrite Hk in Hg', Ek. cbn in Hg', Ek.
    unfold write_ticket in Hk. eapply local_step_inv; try done; [|by eauto|]; injection Hk as <- <-; cbn; [lia|done].
  - destruct (bucket_enqueue_inv _ _ _ _ _ x Hring) as [Hg' Hp]. rewrite Hb in Hg', Hp. cbn in Hg', Hp.
    eapply local_step_inv; try done; [|by eauto|]; [injection Hb as _ <-; cbn; lia|]. rewrite Hp. cbn. rewrite app_nil_r.
    apply Permutation_cons_append.
  - destruct (write_ticket_inv _ _ _ _ Hring Hw64) as [Hg' Ek]. rewrite Hk in Hg', Ek. cbn in Hg', Ek.
    unfold write_ticket in Hk. eapply local_step_inv; try done.
    + unfold pending. cbn [f_pc f_release]. eapply ring_inv_perm, Hg'. rewrite (gather_new (λ k : Z, [k]) rel wt k Hrel). cbn.
      solve_Permutation.
    + injection Hk as <- <-. cbn. lia.
    + rewrite spurious_app. injection Hk as <- <-. by destruct pc.
    + intros v k' [[<- _]|[_ Hv]]%lookup_insert_Some; eauto.
    + by injection Hk as <- <-.
  - pose proof (push_inv n tr p g pc rel wt wq r k p' HI Hrel Hs) as H. by rewrite Hb in H.
  - eapply local_step_inv; try done; [lia|by eauto].
Qed.

Lemma front_run_inv n tr s :
  0 < n → front_run n tr s → max_connections n + Z.of_nat (length tr) < 2 ^ 64 → front_inv n tr s.
Proof.
  intros Hn. induction 1 as [|tr s l s' Hr IH Hs]; intros Hu; [by apply front_new_inv|].
  rewrite length_app in Hu. cbn in Hu. eapply front_step_inv; [done| | |done]; [|apply IH]; lia.
Qed.

(** ** Safety *)

Lemma clear_empty p :
  work_queues (s_pool p) = [REQ_WQ] → dom (s_queues p) = {[REQ_WQ]} → in_pool p = [] →
  ∃ qs, clear_queues (work_queues (s_pool p)) (s_queues p) = Some (Done qs).
Proof.
  intros Hq Hd [Hi _]%in_pool_nil. rewrite Hq. cbn.
  assert (REQ_WQ ∈ dom (s_queues p)) as [q Eq]%elem_of_dom by (rewrite Hd; by apply elem_of_singleton).
  unfold items_of in Hi. rewrite Eq in *. cbn in Hi. rewrite Hi. cbn. eauto.
Qed.

Lemma front_alive n tr s :
  front_inv n tr s → front_dies s →
  spurious tr = true ∧ ∃ k, f_pc s = RWaiting k true ∧ entries (f_ring s) (bucket_index (f_ring s) k) = [].
Proof.
  intros HI [(k & Epc & Hd)|(Epc & _ & He)].
  - pose proof (fi_ticket _ _ _ HI) as Ht. rewrite Epc in Ht. destruct Ht as (-> & _ & Hw). unfold bucket_dequeue in Hd.
    destruct (entries _ _) eqn:E; [|done]. split; [by apply Hw|]. by exists (cur_read_bucket (f_ring s)).
  - destruct (fi_queues _ _ _ HI) as [Hq Hd]. destruct (fi_closing _ _ _ HI) as [Hp _]; [by rewrite Epc|].
    destruct (clear_empty _ Hq Hd Hp) as [qs Hqs]. unfold stop_end in He. by rewrite Hqs in He.
Qed.

(** C14: in every interleaving of the accepting thread and the workers, spurious
    wake-ups included, with counters that have not wrapped around: an assertion
    of the front end fails only when the accepting thread, waiting in the ring
    for a free structure, is woken though nobody has signalled and before a
    structure has come back (the ring tests its bucket once and not in a loop);
    the assertion at the end of the pool never fails.  Each connection structure
    is in one place: free in the ring, with the accepting thread, or with a
    request in the pool; every accepted connection has been served once or is
    under way, and when [run] returns all have been served.  While the accepting
    thread waits for a free structure and no thread is in the middle of giving
    one back, all of them are with requests. *)
Theorem front_end_serves n tr s :
  0 < n → front_run n tr s → max_connections n + Z.of_nat (length tr) < 2 ^ 64 →
  (front_dies s → spurious tr = true ∧ ∃ k, f_pc s = RWaiting k true ∧ entries (f_ring s) (bucket_index (f_ring s) k) = []) ∧
  ring_entries (f_ring s) ++ run_slot (f_pc s) ++ (rq_fcgx <$> in_pool (f_pool s)) ≡ₚ
    (if filled (f_pc s) then seqZ 0 (max_connections n) else []) ∧
  accepted tr ≡ₚ served tr ++ run_conn (f_pc s) ++ (rq_conn <$> in_pool (f_pool s)) ∧
  (f_pc s = RDone → served tr ≡ₚ accepted tr) ∧
  (∀ k, f_pc s = RWaiting k false → pending s = [] →
     rq_fcgx <$> in_pool (f_pool s) ≡ₚ seqZ 0 (max_connections n)).
Proof.
  intros Hn Hr Hu. pose proof (front_run_inv n tr s Hn Hr Hu) as HI.
  split; [by eapply front_alive|]. split; [apply HI|]. split; [apply HI|]. split.
  - intros Epc. rewrite (fi_conns _ _ _ HI). destruct (fi_closing _ _ _ HI) as [Hp _]; [by rewrite Epc|].
    by rewrite Epc, Hp, app_nil_r.
  - intros k Epc Hpend. pose proof (fi_slots _ _ _ HI) as Hs. pose proof (fi_ring _ _ _ HI) as Hg.
    pose proof (fi_ticket _ _ _ HI) as Ht. rewrite Epc in *. rewrite Hpend in Hg. destruct Ht as (-> & Hw & _).
    rewrite (empty_bucket_empty_ring _ _ Hg) in Hs by (by apply Hw). exact Hs.
Qed.

(** ** The end *)

(** How the front end has configured its pool. *)
Record pool_up (n : Z) (s : front) : Prop := {
  pu_pause : _pause (s_pool (f_pool s)) = 0;
  pu_num : _num_threads (s_pool (f_pool s)) = u32 n;
  pu_size : Z.of_nat (size (_threads (s_pool (f_pool s)))) <= u32 n;
  pu_threads : match f_pc s with RStart => _threads (s_pool (f_pool s)) = ∅
    | RStopping | RReturn | RDone => True | _ => _threads (s_pool (f_pool s)) ≠ ∅ end
}.

Lemma turn_up wt (s s' : pool_s) :
  worker_turn wt s s' → Z.of_nat (size (_threads (s_pool s))) <= _num_threads (s_pool s) →
  _pause (s_pool s') = _pause (s_pool s) ∧ _num_threads (s_pool s') = _num_threads (s_pool s) ∧
  _threads (s_pool s') = _threads (s_pool s).
Proof. intros [(_ & Ep & _ & En & _) _ _ _ _ _ _ Ht] Hs. split; [done|]. split; [done|]. destruct Ht as [|[_ ?]]; [done|lia]. Qed.

Lemma after_drain_cases p : after_drain p = RStop ∨ after_drain p = RDraining.
Proof. unfold after_drain. destruct (_ !! _); auto. Qed.

Lemma pool_step_up n p l p' g pc rel pc' :
  0 < u32 n → step p l p' → advances pc l p' pc' → pool_up n (Mk_front p g pc rel) → pool_up n (Mk_front p' g pc' rel).
Proof.
  intros Hn Hs Ha [Hp Hnum Hsz Hth]. cbn [f_pool f_pc] in *.
  destruct Ha; inversion Hs; subst.
  - match goal with H : worker_loop _ _ = _ |- _ => apply worker_loop_turn, turn_up in H as (E1 & E2 & E3); [|lia] end.
    split; cbn; rewrite ?E1, ?E2, ?E3; done.
  - match goal with H : worker_finish _ _ _ = _ |- _ => apply worker_finish_Done in H as (q' & _ & _ & E) end.
    match goal with H : worker_loop _ ?s1 = _ |- _ =>
      assert (s_pool s1 = set_processing (processing (s_pool p) - 1) (s_pool p)) as Es by (rewrite E; by destruct (_ || _));
      apply worker_loop_turn, turn_up in H as (E1 & E2 & E3); [|rewrite Es; cbn; lia] end.
    rewrite Es in *. cbn in *. split; cbn; rewrite ?E1, ?E2, ?E3; done.
  - match goal with H : fresh_workers _ _ |- _ => destruct H as (Hnd & _ & Hlen) end.
    unfold missing in Hlen. rewrite Hth, Hnum, size_empty in Hlen.
    assert (∅ ∪ list_to_set new = list_to_set new :> gset Z) as Eu by apply union_empty_l_L.
    split; cbn; rewrite ?Hth, ?Eu; try done.
    + rewrite size_list_to_set by done. lia.
    + destruct new as [|wt new]; [cbn in Hlen; lia|]. intros He.
      assert (wt ∈ (list_to_set (wt :: new) : gset Z)) as Hin by (apply elem_of_list_to_set; by left).
      rewrite He in Hin. by apply elem_of_empty in Hin.
  - unfold queue_item in *. destruct (s_queues p !! REQ_WQ); simplify_eq/=. by split.
  - unfold drain, drain_wait in *. destruct (drain_busy _ _) as [[]|]; simplify_eq/=;
      match goal with |- context [after_drain ?q] => destruct (after_drain_cases q) as [->| ->] end; by split.
  - unfold pause_wait. destruct (_ =? _); 
      match goal with |- context [after_drain ?q] => destruct (after_drain_cases q) as [->| ->] end; by split.
  - unfold drain_wait in *. destruct (drain_busy _ _) as [[]|]; simplify_eq/=;
      match goal with |- context [after_drain ?q] => destruct (after_drain_cases q) as [->| ->] end; by split.
  - split; cbn; done.
  - split; cbn; done.
  - split; cbn; done.
  - split; cbn; rewrite ?size_empty; try done; lia.
  - unfold stop_end in *. destruct (clear_queues _ _) as [[]|]; simplify_eq/=. split; cbn; done.
Qed.

Lemma front_up n tr s : 0 < u32 n → front_run n tr s → pool_up n s.
Proof.
  intros Hn. induction 1 as [|tr s l s' Hr IH Hs].
  - split; cbn; rewrite ?size_empty; try done. lia.
  - destruct Hs as [p g pc rel l p' pc' Hst Ha| | | | | | | | | | | |p g pc rel wt wq r k b g' p' Hrel Hst Hb|];
      [by apply (pool_step_up n p l p' g pc rel)|destruct IH as [Hp Hnum Hsz Hth]; by split..| |destruct IH; by split].
    inversion Hst; subst. destruct IH as [Hp Hnum Hsz Hth].
    split; [done..|]. destruct pc as [| | | |? []| | | | | | | | | |]; cbn in *; try done. by destruct (_ && _).
Qed.

(** Steps of workers in the pool are steps of the front end; [handle_request] is
    two. *)
Lemma lift_workers n tr s ptr p' :
  front_run n tr s → steps (f_pool s) ptr p' → Forall worker_label ptr → run_reads (f_pc s) = false →
  ∃ ftr s', front_run n (tr ++ ftr) s' ∧ f_pool s' = p' ∧ f_pc s' = f_pc s ∧ (length ftr <= 2 * length ptr)%nat ∧ accepted ftr = [].
Proof.
  intros Hr Hs. remember (f_pool s) as p eqn:Ep. revert tr s Ep Hr.
  induction Hs as [p|p l p1 ptr p2 Hl Hs IH]; intros tr s Ep Hr Hf Hpc.
  { exists [], s. rewrite app_nil_r. done. }
  apply Forall_cons in Hf as [Hwl Hf].
  assert (∃ ftr s1, front_run n (tr ++ ftr) s1 ∧ f_pool s1 = p1 ∧ f_pc s1 = f_pc s ∧ (length ftr <= 2)%nat ∧ accepted ftr = [])
    as (ftr & s1 & Hr1 & Ep1 & Epc & Hlen & Hac).
  { destruct s as [p0 g pc rel]. cbn in Ep, Hpc. subst p0. destruct l; try done.
    - eexists [FPool _], _. split_and!; [eapply front_step, f_pool_step; [done..|constructor]|done|done|cbn; lia|done].
    - assert (∃ ftr s1 k, front_run n (tr ++ ftr) s1 ∧ f_pool s1 = p ∧ f_pc s1 = pc ∧ f_release s1 !! wt = Some k ∧
        (length ftr <= 1)%nat ∧ accepted ftr = []) as (ftr & [p0 g' pc' rel'] & k & Hr1 & E1 & E2 & Hk & Hlen & Hac).
      { destruct (rel !! wt) as [k|] eqn:Hrel; [exists [], (Mk_front p g pc rel), k; rewrite app_nil_r; by split_and!; cbn; try lia|].
        inversion Hl; subst. destruct (write_ticket g) as [k g'] eqn:Hg.
        eexists [FHandle wt wq item], _, k. split_and!; [by eapply front_step, f_handle|done|done|cbn; apply lookup_insert_eq|cbn; lia|done]. }
      cbn in E1, E2, Hk. subst p0 pc'. destruct (bucket_enqueue (rq_fcgx item) (bucket_index g' k) g') as [b g''] eqn:Hb.
      eexists (ftr ++ [FPush wt wq item]), _. rewrite (assoc app). split_and!; [by eapply front_step, f_push|done| | |].
      + cbn. by destruct pc.
      + rewrite length_app. cbn. lia.
      + rewrite accepted_app, Hac. done.
    - eexists [FPool _], _. split_and!; [eapply front_step, f_pool_step; [done..|constructor]|done|done|cbn; lia|done]. }
  destruct (IH _ s1 (eq_sym Ep1) Hr1 Hf) as (ftr' & s' & Hr' & Ep' & Epc' & Hlen' & Hac'); [by rewrite Epc|].
  exists (ftr ++ ftr'), s'. rewrite (assoc app). split_and!; [done|done|by rewrite Epc', Epc|rewrite length_app; cbn; lia|].
  unfold accepted in *. by rewrite bind_app, Hac, Hac'.
Qed.

(** [stop] joins the threads [l]: each leaves its loop when it next has the lock. *)
Lemma join_threads n tr p g rel l J :
  front_run n tr (Mk_front p g RStopping rel) → s_callers p = {[RUN := Joining J]} → _stop (s_pool p) = true →
  (∀ wt, wt ∈ l → wt ∈ _threads (s_pool p) ∧ ∃ w, s_workers p !! wt = Some w ∧ hand1 w = []) →
  ∃ ftr p', front_run n (tr ++ ftr) (Mk_front p' g RStopping rel) ∧ s_callers p' = {[RUN := Joining (J ∪ list_to_set l)]} ∧
    _threads (s_pool p') = _threads (s_pool p) ∧ (length ftr <= 2 * length l)%nat ∧ accepted ftr = [].
Proof.
  revert tr p J. induction l as [|wt l IH]; intros tr p J Hr Hc Hst Hl.
  { exists [], p. rewrite app_nil_r. split_and!; [done| |done..]. by rewrite list_to_set_nil, union_empty_r_L. }
  destruct (Hl wt) as (Hth & w & Hw & Hh); [by left|].
  assert (∃ ftr p1, front_run n (tr ++ ftr) (Mk_front p1 g RStopping rel) ∧ s_callers p1 = s_callers p ∧ s_pool p1 = s_pool p ∧
    s_workers p1 = <[wt := WExited]> (s_workers p) ∧ (length ftr <= 1)%nat ∧ accepted ftr = [])
    as (ftr & p1 & Hr1 & Ec1 & Ep1 & Ew1 & Hlen & Hac).
  { destruct w; try done.
    1,2: eexists [FPool _], _; split_and!; [eapply front_step, f_pool_step;
           [done|eapply step_wake; [exact Hw|auto|by unfold worker_loop; rewrite Hst]|constructor]|done|done|done|cbn; lia|done].
    exists [], p. rewrite app_nil_r, insert_id by done. by split_and!; cbn; try lia. }
  set (p2 := set_caller RUN (Joining (J ∪ {[wt]})) p1).
  assert (front_run n ((tr ++ ftr) ++ [FPool (StopJoin RUN wt)]) (Mk_front p2 g RStopping rel)) as Hr2.
  { eapply front_step, f_pool_step; [done| |constructor]. apply step_stop_join.
    - by rewrite Ec1, Hc, lookup_singleton_eq.
    - by rewrite Ep1.
    - by rewrite Ew1, lookup_insert_eq. }
  destruct (IH _ p2 (J ∪ {[wt]}) Hr2) as (ftr' & p' & Hr' & Hc' & Ht' & Hlen' & Hac').
  - change (s_callers p2) with (<[RUN := Joining (J ∪ {[wt]})]> (s_callers p1)). rewrite Ec1, Hc. apply insert_singleton_eq.
  - unfold p2. cbn. by rewrite Ep1.
  - intros v Hv. destruct (Hl v) as (Hv1 & wv & Hv2 & Hv3); [by right|]. unfold p2. cbn. rewrite Ep1, Ew1. split; [done|].
    destruct (decide (wt = v)) as [->|]; [rewrite lookup_insert_eq; by eauto|rewrite lookup_insert_ne by done; eauto].
  - exists (ftr ++ [FPool (StopJoin RUN wt)] ++ ftr'), p'. split_and!.
    + by rewrite !(assoc app).
    + rewrite Hc'. by rewrite list_to_set_cons, (assoc_L (∪)).
    + rewrite Ht'. unfold p2. cbn. by rewrite Ep1.
    + rewrite !length_app. cbn. lia.
    + unfold accepted in *. by rewrite !bind_app, Hac, Hac'.
Qed.

Lemma rgwwq_finish_ok (x : request) (q : list request) : ∃ q', wq_process_finish x q = Done q'.
Proof. by exists q. Qed.

Lemma front_active n tr s :
  0 < n < 2 ^ 31 → front_run n tr s → front_inv n tr s → f_pc s = RDraining → active (f_pool s).
Proof.
  intros Hn Hr HI Epc. assert (u32 n = n) as Eu by (unfold u32; apply Z.mod_small; lia).
  destruct (front_up n tr s) as [Hp Hnum _ Hth]; [lia|done|]. rewrite Epc in Hth.
  split_and!; [|done|rewrite Hnum, Eu; lia|done]. pose proof (pi_stop _ _ (orderly_run_inv _ _ _ (fi_pool _ _ _ HI))) as Hst.
  pose proof (fi_callers _ _ _ HI) as Hc. rewrite Epc in Hc. destruct Hc as [b Hc].
  unfold stoppers in Hst. rewrite Hc, <-insert_empty, count_new in Hst by apply lookup_empty.
  by destruct (_stop (s_pool (f_pool s))).
Qed.

(** From [drain] to its return. *)
Lemma drain_to_stop n tr s :
  0 < n < 2 ^ 31 → front_run n tr s → f_pc s = RDrain →
  max_connections n + Z.of_nat (length tr) + 2 * measure (f_pool s) + 2 < 2 ^ 64 →
  ∃ ftr s', front_run n (tr ++ ftr) s' ∧ f_pc s' = RStop ∧ accepted ftr = [] ∧
    Z.of_nat (length ftr) <= 2 * measure (f_pool s) + 2.
Proof.
  intros Hn Hr Epc Hu. assert (0 <= measure (f_pool s)) as Hpos by (unfold measure, count; lia).
  pose proof (front_run_inv n tr s ltac:(lia) Hr ltac:(lia)) as HI. destruct s as [p g pc rel]. cbn in *. subst pc.
  pose proof (fi_callers _ _ _ HI) as Hc. cbn in Hc. destruct (fi_queues _ _ _ HI) as [Hq Hd]. cbn in Hq, Hd.
  assert (REQ_WQ ∈ dom (s_queues p)) as [q Eq]%elem_of_dom by (rewrite Hd; by apply elem_of_singleton).
  assert (∃ p1, drain RUN (Some REQ_WQ) p = Some p1 ∧ measure p1 = measure p) as (p1 & Hdr & Hm).
  { unfold drain, drain_wait, drain_busy. cbn. destruct (negb _); cbn; [by eauto|]. rewrite Eq. cbn.
    destruct (negb _); by eauto. }
  assert (front_run n (tr ++ [FPool (Drain RUN (Some REQ_WQ))]) (Mk_front p1 g (after_drain p1) rel)) as Hr1.
  { eapply front_step, f_pool_step; [done| |constructor]. apply step_drain; [|done]. unfold idle. by rewrite Hc. }
  destruct (after_drain_cases p1) as [E|E]; rewrite E in Hr1.
  { eexists _, _. split_and!; [exact Hr1|done|done|cbn; lia]. }
  assert (Z.of_nat (length (tr ++ [FPool (Drain RUN (Some REQ_WQ))])) = Z.of_nat (length tr) + 1) as El by (rewrite length_app; cbn; lia).
  pose proof (front_run_inv n _ _ ltac:(lia) Hr1 ltac:(lia)) as HI1.
  pose proof (front_active n _ _ Hn Hr1 HI1 eq_refl) as Hact.
  pose proof (fi_callers _ _ _ HI1) as Hc1. destruct Hc1 as [b Hc1]. cbn [f_pool f_pc] in Hc1, Hact.
  destruct (workers_finish rgwwq_finish_ok n _ p1 (fi_pool _ _ _ HI1) Hact) as (ptr & p2 & Hst & Hr2 & Hf & Hk & Hh & Hb & Hlen).
  destruct (Hk RUN (Some REQ_WQ) b) as [b' Hc2]; [by rewrite Hc1, lookup_singleton_eq|].
  destruct (drain_resumes p2 RUN REQ_WQ b' (orderly_run_inv _ _ _ Hr2) Hh Hb Hc2) as [-> Hdw].
  destruct (lift_workers n _ (Mk_front p1 g RDraining rel) ptr p2 Hr1 Hst Hf eq_refl) as (ftr & [p3 g' pc' rel'] & Hr3 & E1 & E2 & Hl3 & Hac).
  cbn in E1, E2. subst p3 pc'.
  assert (after_drain (returned RUN (on_pool (λ p, set_draining (_draining p - 1) p) p2)) = RStop) as Ead.
  { unfold after_drain. cbn. by rewrite lookup_delete_eq. }
  eexists ([FPool (Drain RUN (Some REQ_WQ))] ++ ftr ++ [FPool (Resume RUN)]), _. split_and!.
  - rewrite !(assoc app). eapply front_step, f_pool_step; [exact Hr3|by eapply step_resume_drain|constructor].
  - done.
  - unfold accepted in *. by rewrite !bind_app, Hac.
  - rewrite !length_app. cbn. lia.
Qed.

(** From [stop] to the end of [run]. *)
Lemma stop_to_done n tr s :
  0 < n < 2 ^ 31 → front_run n tr s → f_pc s = RStop → max_connections n + Z.of_nat (length tr) + 2 * n + 4 < 2 ^ 64 →
  ∃ ftr s', front_run n (tr ++ ftr) s' ∧ f_pc s' = RDone ∧ accepted ftr = [] ∧ Z.of_nat (length ftr) <= 2 * n + 4.
Proof.
  intros Hn Hr Epc Hu. pose proof (front_run_inv n tr s ltac:(lia) Hr ltac:(lia)) as HI.
  assert (u32 n = n) as Eu by (unfold u32; apply Z.mod_small; lia). destruct (front_up n tr s) as [_ _ Hsz _]; [lia|done|].
  destruct s as [p g pc rel]. cbn in Epc, Hsz. subst pc.
  pose proof (fi_callers _ _ _ HI) as Hc. cbn in Hc. destruct (fi_closing _ _ _ HI eq_refl) as [Hip Hih]. cbn in Hip, Hih.
  set (p1 := stop_begin RUN p).
  assert (front_run n (tr ++ [FPool (StopBegin RUN)]) (Mk_front p1 g RStopping rel)) as Hr1.
  { eapply front_step, f_pool_step; [done| |constructor]. apply step_stop_begin. unfold idle. by rewrite Hc. }
  destruct (join_threads n _ p1 g rel (elements (_threads (s_pool p1))) ∅ Hr1) as (ftr & p2 & Hr2 & Hc2 & Ht2 & Hl2 & Ha2).
  { unfold p1. cbn [stop_begin set_caller join_old_threads on_pool s_callers]. by rewrite Hc. }
  { done. }
  { intros wt Hwt%elem_of_elements. split; [done|].
    destruct (pi_threads _ _ (orderly_run_inv _ _ _ (fi_pool _ _ _ HI)) wt Hwt) as (w & Hw & _). exists w. split; [done|].
    exact (proj1 (gather_nil _ _) Hih wt w Hw). }
  set (p3 := stop_clear RUN p2).
  assert (front_run n (((tr ++ [FPool (StopBegin RUN)]) ++ ftr) ++ [FPool (StopClear RUN)]) (Mk_front p3 g RStopping rel)) as Hr3.
  { eapply front_step, f_pool_step; [done| |constructor]. eapply step_stop_clear; [by rewrite Hc2, lookup_singleton_eq|].
    rewrite Ht2, union_empty_l_L, list_to_set_elements_L. done. }
  assert (length (elements (_threads (s_pool p1))) = size (_threads (s_pool p))) as El by done.
  assert (Z.of_nat (length (((tr ++ [FPool (StopBegin RUN)]) ++ ftr) ++ [FPool (StopClear RUN)])) <= Z.of_nat (length tr) + 2 * n + 2) as Hlen
    by (rewrite !length_app; cbn; lia).
  pose proof (front_run_inv n _ _ ltac:(lia) Hr3 ltac:(lia)) as HI3.
  destruct (fi_closing _ _ _ HI3 eq_refl) as [Hip3 _]. destruct (fi_queues _ _ _ HI3) as [Hq3 Hd3].
  destruct (clear_empty p3 Hq3 Hd3 Hip3) as [qs Hqs].
  eexists ([FPool (StopBegin RUN)] ++ ftr ++ [FPool (StopClear RUN); FPool (StopEnd RUN); FReturn]), _. split_and!.
  - rewrite !(assoc app). change [FPool (StopClear RUN); FPool (StopEnd RUN); FReturn] with (([FPool (StopClear RUN)] ++ [FPool (StopEnd RUN)]) ++ [FReturn]).
    rewrite !(assoc app). eapply front_step, f_return. eapply front_step, f_pool_step; [exact Hr3| |constructor].
    apply step_stop_end; [unfold p3; cbn; apply lookup_insert_eq|]. unfold stop_end. rewrite Hqs. done.
  - done.
  - unfold accepted in *. by rewrite !bind_app, Ha2.
  - rewrite !length_app. cbn. lia.
Qed.

(** C15: when [FCGX_Accept_r] fails, [run] comes to its end whatever is under way:
    from there the threads have steps, no more of them than a bound known from
    the state, after which [run] has returned and every accepted connection has
    been served. *)
Theorem front_end_ends n tr s x :
  0 < n < 2 ^ 31 → front_run n tr s → f_pc s = RAccept x →
  max_connections n + Z.of_nat (length tr) + 2 * measure (f_pool s) + 2 * n + 9 < 2 ^ 64 →
  ∃ ftr s', front_run n (tr ++ FRefuse :: ftr) s' ∧ f_pc s' = RDone ∧ served (tr ++ FRefuse :: ftr) ≡ₚ accepted tr ∧
    Z.of_nat (length ftr) <= 2 * measure (f_pool s) + 2 * n + 8.
Proof.
  intros Hn Hr Epc Hu. assert (0 <= measure (f_pool s)) as Hpos by (unfold measure, count; lia).
  destruct s as [p g pc rel]. cbn in *. subst pc.
  destruct (write_ticket g) as [k g1] eqn:Hw. destruct (bucket_enqueue x (bucket_index g1 k) g1) as [b g2] eqn:Hb.
  assert (front_run n (tr ++ [FRefuse; FDelete; FPut]) (Mk_front p g2 RDrain rel)) as Hr3.
  { change [FRefuse; FDelete; FPut] with (([FRefuse] ++ [FDelete]) ++ [FPut]). rewrite !(assoc app).
    eapply front_step, f_put; [eapply front_step, f_delete; [by eapply front_step, f_refuse|done]|done]. }
  assert (Z.of_nat (length (tr ++ [FRefuse; FDelete; FPut])) = Z.of_nat (length tr) + 3) as El by (rewrite length_app; cbn; lia).
  destruct (drain_to_stop n _ _ Hn Hr3 eq_refl ltac:(cbn; lia)) as (ftr & s4 & Hr4 & Epc4 & Ha4 & Hl4). cbn in Hl4.
  assert (Z.of_nat (length ((tr ++ [FRefuse; FDelete; FPut]) ++ ftr)) <= Z.of_nat (length tr) + 2 * measure p + 5) as El4
    by (rewrite length_app; lia).
  destruct (stop_to_done n _ s4 Hn Hr4 Epc4 ltac:(lia)) as (ftr' & s' & Hr' & Epc' & Ha' & Hl').
  assert (((tr ++ [FRefuse; FDelete; FPut]) ++ ftr) ++ ftr' = tr ++ FRefuse :: ([FDelete; FPut] ++ ftr ++ ftr')) as Etr
    by (by rewrite <-!(assoc app)).
  rewrite Etr in Hr'. exists ([FDelete; FPut] ++ ftr ++ ftr'), s'.
  split; [exact Hr'|]. split; [exact Epc'|]. split; [|rewrite !length_app; cbn; lia].
  assert (max_connections n + Z.of_nat (length (tr ++ FRefuse :: ([FDelete; FPut] ++ ftr ++ ftr'))) < 2 ^ 64) as Hu'
    by (rewrite <-Etr, length_app; lia).
  pose proof (front_run_inv n _ _ ltac:(lia) Hr' Hu') as HI. pose proof (fi_conns _ _ _ HI) as Hco.
  destruct (fi_closing _ _ _ HI) as [Hp _]; [by rewrite Epc'|]. rewrite Epc', Hp, app_nil_r in Hco. rewrite <-Hco.
  unfold accepted in *. rewrite bind_app. cbn [mbind list_bind app accepted1]. rewrite bind_app, Ha4, Ha'. by rewrite !app_nil_r.
Qed.

(** ** A run with one thread *)

Definition demo_front : list flabel := [FPool (Start RUN [100]); FFill; FTake; FGet].

Lemma demo_front_run : ∃ s, front_run 1 demo_front s ∧ f_pc s = RAccept 0 ∧ measure (f_pool s) = 1.
Proof.
  eexists. split; [|split].
  - change demo_front with (((([] ++ [FPool (Start RUN [100])]) ++ [FFill]) ++ [FTake]) ++ [FGet]).
    eapply front_step; [eapply front_step; [eapply front_step; [eapply front_step; [constructor|]|]|]|].
    + eapply f_pool_step; [|constructor]. apply step_start; [done|]. split; [apply NoDup_singleton|]. split; [by constructor|reflexivity].
    + apply f_fill.
    + by eapply f_take.
    + eapply f_get. vm_compute. reflexivity.
  - reflexivity.
  - vm_compute. reflexivity.
Qed.

Lemma front_end_serves_witness :
  ∃ s, front_run 1 demo_front s ∧ ¬ front_dies s ∧ ring_entries (f_ring s) ++ run_slot (f_pc s) ++ (rq_fcgx <$> in_pool (f_pool s)) ≡ₚ [0].
Proof.
  destruct demo_front_run as (s & Hr & Hpc & _). exists s. split; [exact Hr|].
  destruct (front_end_serves 1 demo_front s ltac:(lia) Hr ltac:(vm_compute; reflexivity)) as (Hd & Hs & _).
  rewrite Hpc in *. split; [|exact Hs]. intros Hx. by destruct (Hd Hx) as [[=] _].
Defined.

Lemma front_end_ends_witness :
  ∃ ftr s', front_run 1 (demo_front ++ FRefuse :: ftr) s' ∧ f_pc s' = RDone ∧ Z.of_nat (length ftr) <= 12.
Proof.
  destruct demo_front_run as (s & Hr & Hpc & Hm).
  destruct (front_end_ends 1 demo_front s 0 ltac:(lia) Hr Hpc) as (ftr & s' & Hr' & Hpc' & _ & Hl).
  - rewrite Hm. vm_compute. reflexivity.
  - rewrite Hm in Hl. exists ftr, s'. split; [exact Hr'|]. split; [exact Hpc'|]. lia.
Defined.
