(* ===== verification/ClsUser.v ===== *)
(** * Types of the user's bucket list ([src/src/cls/user/cls_user_types.h])

    The structures with their encodings, the conversions to and from the
    gateway's own ([porting_common.h]), and what the comments of the header
    promise: that they can take the place of [rgw_bucket] and [RGWBucketEnt]. *)

From S2P Require Import Prelude StdMap Encoding Utime CString RgwObj ObjectCache Records.

(** [cls_user_bucket] *)
Record cls_user_bucket := Mk_cls_user_bucket {
  ub_name : str; ub_data_pool : str; ub_index_pool : str; ub_marker : str; ub_bucket_id : str; ub_data_extra_pool : str
}.
Definition cls_user_bucket_new : cls_user_bucket := Mk_cls_user_bucket [] [] [] [] [] [].
Definition encode_cls_user_bucket (x : cls_user_bucket) : E :=
  ENCODE 7 3
    (enc string_c (ub_name x) >>>
     enc string_c (ub_data_pool x) >>>
     enc string_c (ub_marker x) >>>
     enc string_c (ub_bucket_id x) >>>
     enc string_c (ub_index_pool x) >>>
     enc string_c (ub_data_extra_pool x)).
Definition decode_cls_user_bucket (x0 : cls_user_bucket) : D cls_user_bucket :=
  DECODE_LEGACY 7 3 3 (λ struct_v,
    v_name ← dec string_c (ub_name x0);
    v_data_pool ← dec string_c (ub_data_pool x0);
    v_marker ← (if struct_v >=? 2 then dec string_c (ub_marker x0) else mret (ub_marker x0));
    v_bucket_id ← (if struct_v >=? 2 then
                     if struct_v <=? 3 then id ← dec u64_c 0; mret (take 15 (print_llu id))
                     else dec string_c (ub_bucket_id x0)
                   else mret (ub_bucket_id x0));
    v_index_pool ← (if struct_v >=? 5 then dec string_c (ub_index_pool x0) else mret v_data_pool);
    v_data_extra_pool ← (if struct_v >=? 7 then dec string_c (ub_data_extra_pool x0) else mret (ub_data_extra_pool x0));
    mret (Mk_cls_user_bucket v_name v_data_pool v_index_pool v_marker v_bucket_id v_data_extra_pool)).
Definition wf_cls_user_bucket (x : cls_user_bucket) : Prop :=
  wf string_c (ub_name x) ∧
  wf string_c (ub_data_pool x) ∧
  wf string_c (ub_marker x) ∧
  wf string_c (ub_bucket_id x) ∧
  wf string_c (ub_index_pool x) ∧
  wf string_c (ub_data_extra_pool x).
Definition cls_user_bucket_c : codec cls_user_bucket :=
  Codec encode_cls_user_bucket decode_cls_user_bucket wf_cls_user_bucket.

(** [cls_user_bucket_entry] *)
Record cls_user_bucket_entry := Mk_cls_user_bucket_entry {
  ue_bucket : cls_user_bucket; ue_size : Z; ue_size_rounded : Z; ue_creation_time : Z; ue_count : Z;
  ue_user_stats_sync : bool
}.
Definition cls_user_bucket_entry_new : cls_user_bucket_entry :=
  Mk_cls_user_bucket_entry cls_user_bucket_new 0 0 0 0 false.
Definition encode_cls_user_bucket_entry (x : cls_user_bucket_entry) : E :=
  ENCODE 6 5
    (enc string_c [] >>>
     enc u64_c (ue_size x) >>>
     enc u32_c (u32 (ue_creation_time x)) >>>
     enc u64_c (ue_count x) >>>
     enc cls_user_bucket_c (ue_bucket x) >>>
     enc u64_c (ue_size_rounded x) >>>
     enc bool_c (ue_user_stats_sync x)).
Definition decode_cls_user_bucket_entry (x0 : cls_user_bucket_entry) : D cls_user_bucket_entry :=
  DECODE_LEGACY 6 5 5 (λ struct_v,
    empty_str ← dec string_c [];
    v_size ← dec u64_c 0;
    v_creation_time ← dec u32_c 0;
    v_count ← (if struct_v >=? 2 then dec u64_c (ue_count x0) else mret (ue_count x0));
    v_bucket ← (if struct_v >=? 3 then dec cls_user_bucket_c (ue_bucket x0) else mret (ue_bucket x0));
    v_size_rounded ← (if struct_v >=? 4 then dec u64_c v_size else mret v_size);
    v_sync ← (if struct_v >=? 6 then dec bool_c (ue_user_stats_sync x0) else mret (ue_user_stats_sync x0));
    mret (Mk_cls_user_bucket_entry v_bucket v_size v_size_rounded v_creation_time v_count v_sync)).
Definition wf_cls_user_bucket_entry (x : cls_user_bucket_entry) : Prop :=
  wf u64_c (ue_size x) ∧ (0 <= ue_creation_time x < 2 ^ 32) ∧ wf u64_c (ue_count x) ∧
  wf cls_user_bucket_c (ue_bucket x) ∧ wf u64_c (ue_size_rounded x) ∧ wf bool_c (ue_user_stats_sync x).
Definition cls_user_bucket_entry_c : codec cls_user_bucket_entry :=
  Codec encode_cls_user_bucket_entry decode_cls_user_bucket_entry wf_cls_user_bucket_entry.

(** [cls_user_stats] *)
Record cls_user_stats := Mk_cls_user_stats { us_total_entries : Z; us_total_bytes : Z; us_total_bytes_rounded : Z }.
Definition cls_user_stats_new : cls_user_stats := Mk_cls_user_stats 0 0 0.
Definition encode_cls_user_stats (x : cls_user_stats) : E :=
  ENCODE 1 1 (enc u64_c (us_total_entries x) >>> enc u64_c (us_total_bytes x) >>> enc u64_c (us_total_bytes_rounded x)).
Definition decode_cls_user_stats (x0 : cls_user_stats) : D cls_user_stats :=
  DECODE 1 (λ struct_v,
    e ← dec u64_c (us_total_entries x0);
    b ← dec u64_c (us_total_bytes x0);
    r ← dec u64_c (us_total_bytes_rounded x0);
    mret (Mk_cls_user_stats e b r)).
Definition wf_cls_user_stats (x : cls_user_stats) : Prop :=
  wf u64_c (us_total_entries x) ∧ wf u64_c (us_total_bytes x) ∧ wf u64_c (us_total_bytes_rounded x).
Definition cls_user_stats_c : codec cls_user_stats := Codec encode_cls_user_stats decode_cls_user_stats wf_cls_user_stats.

(** [cls_user_header] *)
Record cls_user_header := Mk_cls_user_header {
  uh_stats : cls_user_stats; uh_last_stats_sync : utime_t; uh_last_stats_update : utime_t
}.
Definition encode_cls_user_header (x : cls_user_header) : E :=
  ENCODE 1 1 (enc cls_user_stats_c (uh_stats x) >>> enc utime_c (uh_last_stats_sync x) >>> enc utime_c (uh_last_stats_update x)).
Definition decode_cls_user_header (x0 : cls_user_header) : D cls_user_header :=
  DECODE 1 (λ struct_v,
    s ← dec cls_user_stats_c (uh_stats x0);
    a ← dec utime_c (uh_last_stats_sync x0);
    b ← dec utime_c (uh_last_stats_update x0);
    mret (Mk_cls_user_header s a b)).
Definition wf_cls_user_header (x : cls_user_header) : Prop :=
  wf cls_user_stats_c (uh_stats x) ∧ wf utime_c (uh_last_stats_sync x) ∧ wf utime_c (uh_last_stats_update x).
Definition cls_user_header_c : codec cls_user_header :=
  Codec encode_cls_user_header decode_cls_user_header wf_cls_user_header.

(** [rgw_bucket(const cls_user_bucket&)] and [rgw_bucket::convert] *)
Definition rgw_bucket_of (b : cls_user_bucket) : rgw_bucket :=
  Mk_rgw_bucket (ub_name b) (ub_data_pool b) (ub_data_extra_pool b) (ub_index_pool b) (ub_marker b) (ub_bucket_id b) [].
Definition bucket_convert (b : rgw_bucket) : cls_user_bucket :=
  Mk_cls_user_bucket (bk_name b) (bk_data_pool b) (bk_index_pool b) (bk_marker b) (bk_bucket_id b) (bk_data_extra_pool b).

(** [RGWBucketEnt(const cls_user_bucket_entry&)] and [RGWBucketEnt::convert],
    which leaves [user_stats_sync]. *)
Definition bucket_ent_of (e : cls_user_bucket_entry) : RGWBucketEnt :=
  Mk_RGWBucketEnt (rgw_bucket_of (ue_bucket e)) (ue_size e) (ue_size_rounded e) (ue_creation_time e) (ue_count e).
Definition bucket_ent_convert (x : RGWBucketEnt) (e : cls_user_bucket_entry) : cls_user_bucket_entry :=
  Mk_cls_user_bucket_entry (bucket_convert (be_bucket x)) (be_size x) (be_size_rounded x) (be_creation_time x) (be_count x)
    (ue_user_stats_sync e).

(** ** Round trips *)

#[export] Instance cls_user_bucket_ok : CodecOk cls_user_bucket_c.
Proof. codec_solve encode_cls_user_bucket decode_cls_user_bucket wf_cls_user_bucket. Qed.
#[export] Instance cls_user_stats_ok : CodecOk cls_user_stats_c.
Proof. codec_solve encode_cls_user_stats decode_cls_user_stats wf_cls_user_stats. Qed.
#[export] Instance cls_user_header_ok : CodecOk cls_user_header_c.
Proof. codec_solve encode_cls_user_header decode_cls_user_header wf_cls_user_header. Qed.
#[export] Instance cls_user_bucket_entry_ok : CodecOk cls_user_bucket_entry_c.
Proof.
  split; cbn [enc dec wf].
  - intros x. change (appends (encode_cls_user_bucket_entry x)). unfold encode_cls_user_bucket_entry. appends_solve.
  - intros x x0 (Hs & Ht & Hc & Hb & Hr & Hy).
    change (reads (decode_cls_user_bucket_entry x0) (encode_cls_user_bucket_entry x []) x).
    unfold encode_cls_user_bucket_entry, decode_cls_user_bucket_entry.
    rewrite (Z.mod_small _ _ Ht : u32 (ue_creation_time x) = _).
    assert (wf u32_c (ue_creation_time x)) by exact Ht. assert (wf string_c []) by done.
    rewrite ENCODE_block by appends_solve.
    rewrite <- (app_nil_r (_ [])). apply reads_DECODE_LEGACY_newer; [lia|lia|lia|lia|lia|].
    version_cbn. reads_solve.
Qed.

(** ** Taking the place of the gateway's types *)

(** The two encodings of a bucket are the same bytes. *)
Lemma bucket_same_bytes b : encode_cls_user_bucket (bucket_convert b) [] = encode_rgw_bucket b [].
Proof. done. Qed.
Lemma bucket_same_bytes_back b : encode_rgw_bucket (rgw_bucket_of b) [] = encode_cls_user_bucket b [].
Proof. done. Qed.

Lemma bucket_conversions b : bucket_convert (rgw_bucket_of b) = b.
Proof. by destruct b. Qed.
Lemma wf_bucket_convert b : wf rgw_bucket_c b ↔ wf cls_user_bucket_c (bucket_convert b).
Proof. done. Qed.

(** What was written as [RGWBucketEnt], version 5, is read as
    [cls_user_bucket_entry], version 6, and the other way round. *)
Lemma old_entry_readable x e0 :
  wf RGWBucketEnt_c x →
  reads (decode_cls_user_bucket_entry e0) (encode_RGWBucketEnt x []) (bucket_ent_convert x e0).
Proof.
  intros (Hs & Ht & Hc & Hb & Hr). unfold encode_RGWBucketEnt, decode_cls_user_bucket_entry.
  rewrite (Z.mod_small _ _ Ht : u32 (be_creation_time x) = _).
  assert (wf u32_c (be_creation_time x)) by exact Ht. assert (wf string_c []) by done.
  change (enc rgw_bucket_c (be_bucket x)) with (enc cls_user_bucket_c (bucket_convert (be_bucket x))).
  assert (wf cls_user_bucket_c (bucket_convert (be_bucket x))) by exact Hb.
  rewrite ENCODE_block by appends_solve.
  rewrite <- (app_nil_r (_ [])). apply reads_DECODE_LEGACY_newer; [lia|lia|lia|lia|lia|].
  version_cbn. reads_solve.
Qed.

Lemma new_entry_readable e x0 :
  wf cls_user_bucket_entry_c e →
  reads (decode_RGWBucketEnt x0) (encode_cls_user_bucket_entry e []) (bucket_ent_into (bucket_ent_of e) x0).
Proof.
  intros (Hs & Ht & Hc & Hb & Hr & _). unfold encode_cls_user_bucket_entry, decode_RGWBucketEnt.
  rewrite (Z.mod_small _ _ Ht : u32 (ue_creation_time e) = _).
  assert (wf u32_c (ue_creation_time e)) by exact Ht. assert (wf string_c []) by done.
  change (enc cls_user_bucket_c (ue_bucket e)) with (enc rgw_bucket_c (rgw_bucket_of (ue_bucket e))).
  assert (wf rgw_bucket_c (rgw_bucket_of (ue_bucket e))) by exact Hb.
  rewrite ENCODE_block by appends_solve. rewrite <- !eseq_assoc, eseq_nil, !eseq_assoc by appends_solve.
  apply reads_DECODE_LEGACY_newer; [lia|lia|lia|lia|lia|].
  version_cbn. reads_solve.
Qed.

(** The bucket list's types take the place of the gateway's: a bucket has the
    same bytes as either, an entry of the one is read as the other, with the
    conversion the code uses, and converting there and back changes nothing. *)
Lemma user_types_replace x e :
  wf RGWBucketEnt_c x → wf cls_user_bucket_entry_c e →
  (∀ e0, reads (decode_cls_user_bucket_entry e0) (encode_RGWBucketEnt x []) (bucket_ent_convert x e0)) ∧
  (∀ x0, reads (decode_RGWBucketEnt x0) (encode_cls_user_bucket_entry e []) (bucket_ent_into (bucket_ent_of e) x0)) ∧
  bucket_ent_convert (bucket_ent_of e) e = e.
Proof.
  intros Hx He. split; [|split].
  - intros e0. by apply old_entry_readable.
  - intros x0. by apply new_entry_readable.
  - destruct e as [[]]. done.
Qed.
