(* ===== verification/BucketOps.v ===== *)
(** * Creating, deleting and listing buckets ([src/src/rgw/porting_op.cc],
    [porting_rados.cc], [porting_bucket.cc], [src/src/librados/RadosClient.cc],
    [src/src/cls/user/cls_user_client.cc])

    A bucket is a directory below one root.  The state is the host's: the
    directories with their owners.  Accounts, the rights of the process and the
    order in which [ls] prints are parameters.  [None] is a state the process
    does not come out of, or that C++ gives no meaning: a buffer that
    overflows, a null pointer, an exception that nothing catches, a name the shell reads
    as something else. *)

From stdpp Require Import gmap.
From S2P Require Import Prelude StdMap Encoding Utime ClsRgwTypes CString Env Strtol Acl RgwObj ObjectCache Records Http.
From S2P Require Import Errors Rest SysInfo Listing Ops Metadata Lookup ClsUser.
#[local] Open Scope Z_scope.
#[local] Open Scope str_scope.

(** ** Directories *)

(** The owner and group of the directory, its time, and the owner and group of
    its [.bucket], where it has one. *)
Record bucket_dir := Mk_bucket_dir { bd_owner : Z * Z; bd_mtime : Z; bd_stat : option (Z * Z) }.
Abbreviation host := (list (str * bucket_dir)).

Section host.
Context (G_buckets_root : str).
(** The password and group files. *)
Context (getpwnam : str → option (Z * Z)) (getpwuid : Z → Z + str) (getgrnam : str → option Z).
(** The owner of what the process creates, whether it can write below the root,
    and the error [chown] gives for a path that exists, 0 when there is none. *)
Context (self : Z * Z) (root_writable : bool) (chown_errno : str → Z * Z → Z) (now : Z).

Definition full_name (name : str) : str := G_buckets_root ++ "/" ++ name.
Definition stat_name (name : str) : str := full_name name ++ "/.bucket".

(** What the shell answers to [[ -d root/name ]]: 0, or exit status 1 as
    [pclose] gives it. *)
Definition test_dir (h : host) (cmd : str) : Z :=
  if existsb (λ p, streq cmd ("[ -d " ++ cstr G_buckets_root ++ "/" ++ p.1 ++ " ]")) h then 0 else 256.
Definition stat_dir (h : host) (path : str) : Z + Z * Z :=
  match List.find (λ p, streq path (full_name p.1)) h with
  | Some (_, d) => inr ((bd_owner d).1, bd_mtime d)
  | None => inl ENOENT
  end.

(** [chown(2)] on a bucket's directory and on its [.bucket]. *)
Definition chown_dir (name : str) (who : Z * Z) (h : host) : Z * host :=
  match mfind name h with
  | None => (ENOENT, h)
  | Some d =>
      let e := chown_errno (full_name name) who in
      if e =? 0 then (0, mset name (Mk_bucket_dir who (bd_mtime d) (bd_stat d)) h) else (e, h)
  end.
Definition chown_stat (name : str) (who : Z * Z) (h : host) : Z * host :=
  match mfind name h with
  | Some (Mk_bucket_dir o t (Some _)) =>
      let e := chown_errno (stat_name name) who in
      if e =? 0 then (0, mset name (Mk_bucket_dir o t (Some who)) h) else (e, h)
  | _ => (ENOENT, h)
  end.

(** [mkdir -p] of the directory and of its [.bucket]. *)
Definition mkdir_bucket (name : str) (h : host) : host :=
  if negb root_writable then h
  else match mfind name h with
       | None => mset name (Mk_bucket_dir self now (Some self)) h
       | Some (Mk_bucket_dir o _ None) => mset name (Mk_bucket_dir o now (Some self)) h
       | Some _ => h
       end.

(** ** The client's commands *)

(** [mon_command("chown")]: the buffer is read as an entry point, whatever was
    put into it; the owner of [.bucket] is changed as well as it goes. *)
Definition mon_command_chown (inbl : bytes) (h : host) : option (Z * host) :=
  match decode_RGWBucketEntryPoint RGWBucketEntryPoint_new (It 0 inbl) with
  | inl _ => None
  | inr (entry_point, _) =>
      let name := bk_name (ep_bucket entry_point) in
      if negb (plain_part name) then None
      else
        match getpwnam (cstr (ep_owner entry_point)) with
        | None => Some (- ENOENT, h)
        | Some who =>
            let '(e, h) := chown_dir name who h in
            let '(_, h) := chown_stat name who h in
            Some (- e, h)
        end
  end.

(** [char cmd[256]] *)
Definition mkdir_command (name : str) : option str :=
  let f := full_name name in
  let cmd := "mkdir -p  " ++ f ++ " && mkdir -p " ++ f ++ "/.bucket" in
  if zlen cmd <? 256 then Some cmd else None.
Definition chown_command (owner name : str) : option str :=
  let f := full_name name in
  let o := owner ++ ":" ++ owner in
  let cmd := "chown " ++ o ++ " " ++ f ++ " &&" ++ "chown " ++ o ++ " " ++ f ++ "/.bucket" in
  if zlen cmd <? 256 then Some cmd else None.

(** The shell's [chown owner:owner] on both. *)
Definition shell_chown (owner name : str) (h : host) : host :=
  match getpwnam owner, getgrnam owner with
  | Some (uid, _), Some gid =>
      let '(e, h) := chown_dir name (uid, gid) h in
      if e =? 0 then snd (chown_stat name (uid, gid) h) else h
  | _, _ => h
  end.

(** The statistics are written to a file without a name, which cannot be
    opened; the results of the commands are dropped. *)
Definition pool_create (name : str) (auid : Z) (h : host) : option (Z * host) :=
  match getpwuid auid with
  | inl _ => None
  | inr pw_name =>
      if negb (plain_part name) then None
      else
        _ ← mkdir_command name;
        let h := mkdir_bucket name h in
        _ ← chown_command pw_name name;
        Some (0, shell_chown pw_name name h)
  end.

(** ** The store

    The store the metadata manager works on is [None] once the process is gone. *)

Definition lift (f : host → option (Z * host)) (s : option host) : Z * option host :=
  match (h ← s; f h) with
  | Some (ret, h) => (ret, Some h)
  | None => (0, None)
  end.

(** Only the data reach the client. *)
Definition put_system_obj (bucket : rgw_bucket) (oid : str) (data : bytes) (exclusive : bool)
    (objv_tracker : option RGWObjVersionTracker) (set_mtime : Z) (attrs : list (str * bytes)) (s : option host)
    : Z * option RGWObjVersionTracker * option host :=
  let '(ret, s) := lift (mon_command_chown data) s in (ret, objv_tracker, s).

Definition create_pool (bucket : rgw_bucket) (s : option host) : Z * option host :=
  let pool := bk_name bucket in
  let '(ret, s) := lift (pool_create (cstr pool) 0) s in
  let ret := if ret =? - EEXIST then 0 else ret in
  (if ret <? 0 then ret else 0, s).

(** [sscanf(key, "%[^:]s", buf)] *)
Definition key_bucket (key : str) : str := fst (span (not_char ":") (cstr key)).
Definition named (name : str) : rgw_bucket := bucket_set_name name rgw_bucket_new.

Definition bucket_pool_and_oid (key : str) : rgw_bucket * str := (named (key_bucket key), key).
Definition instance_pool_and_oid (key : str) : rgw_bucket * str :=
  (named (key_bucket key), RGW_BUCKET_INSTANCE_MD_PREFIX ++ key).

(** As much of a metadata handler as [put_entry] looks at. *)
Definition pool_handler {I J} (type : str) (pool : str → rgw_bucket * str) : @handler (option host) I J :=
  Handler type (λ _ _, inl (- ENOTSUP)) (λ s _ t _ _ _, (- ENOTSUP, t, s)) (λ s _ _, (- ENOTSUP, s)) (λ _ key, pool key)
    (λ _, inl (- ENOTSUP)) (λ i _, (- ENOTSUP, [], false, i)).

(** The metadata handlers are static variables of [porting_bucket.cc]. *)
Context {I J : Type} (bucket_meta_handler bucket_instance_meta_handler : @handler (option host) I J).

#[local] Abbreviation put_meta := (put_entry put_system_obj create_pool).

(** The buffer of [get_pool_and_oid] holds 255 characters. *)
Definition rgw_bucket_store_info (bucket_name : str) (bl : bytes) (exclusive : bool) (pattrs : option (list (str * bytes)))
    (t : RGWObjVersionTracker) (mtime : Z) (s : option host) : Z * RGWObjVersionTracker * option host :=
  if negb (zlen (key_bucket bucket_name) <? 256) then (0, t, None)
  else let '(ret, t', s) := put_meta bucket_meta_handler bucket_name bl exclusive (Some t) mtime pattrs s in
       (ret, default t t', s).
Definition rgw_bucket_instance_store_info (entry : str) (bl : bytes) (exclusive : bool) (pattrs : option (list (str * bytes)))
    (t : RGWObjVersionTracker) (mtime : Z) (s : option host) : Z * RGWObjVersionTracker * option host :=
  if negb (zlen (key_bucket entry) <? 256) then (0, t, None)
  else let '(ret, t', s) := put_meta bucket_instance_meta_handler entry bl exclusive (Some t) mtime pattrs s in
       (ret, default t t', s).

Definition put_bucket_entrypoint_info (bucket_name : str) (entry_point : RGWBucketEntryPoint) (exclusive : bool)
    (t : RGWObjVersionTracker) (mtime : Z) (pattrs : option (list (str * bytes))) (s : option host)
    : Z * RGWObjVersionTracker * option host :=
  rgw_bucket_store_info bucket_name (encode_RGWBucketEntryPoint entry_point []) exclusive pattrs t mtime s.

Definition info_set_tracker (t : RGWObjVersionTracker) (i : RGWBucketInfo) : RGWBucketInfo :=
  Mk_RGWBucketInfo (bi_bucket i) (bi_owner i) (bi_flags i) (bi_region i) (bi_creation_time i) (bi_placement_rule i)
    (bi_has_instance_obj i) t (bi_ep_objv i) (bi_quota i) (bi_num_shards i) (bi_bucket_index_shard_hash_type i)
    (bi_requester_pays i).
Definition info_set_instance_obj (b : bool) (i : RGWBucketInfo) : RGWBucketInfo :=
  Mk_RGWBucketInfo (bi_bucket i) (bi_owner i) (bi_flags i) (bi_region i) (bi_creation_time i) (bi_placement_rule i)
    b (bi_objv_tracker i) (bi_ep_objv i) (bi_quota i) (bi_num_shards i) (bi_bucket_index_shard_hash_type i)
    (bi_requester_pays i).

Definition put_bucket_instance_info (info : RGWBucketInfo) (exclusive : bool) (mtime : Z)
    (pattrs : option (list (str * bytes))) (s : option host) : Z * RGWBucketInfo * option host :=
  let info := info_set_instance_obj true info in
  let key := get_bucket_instance_entry (bi_bucket info) in
  let '(ret, t, s) := rgw_bucket_instance_store_info key (encode_RGWBucketInfo info []) exclusive pattrs
                        (bi_objv_tracker info) mtime s in
  (ret, info_set_tracker t info, s).

(** [generate_new_write_ver] has an empty body.  The result, the record and
    [*pep_objv]. *)
Definition put_linked_bucket_info (info : RGWBucketInfo) (exclusive : bool) (mtime : Z) (pep_objv : obj_version)
    (pattrs : option (list (str * bytes))) (create_entry_point : bool) (s : option host)
    : Z * RGWBucketInfo * obj_version * option host :=
  let create_head := negb (bi_has_instance_obj info) || create_entry_point in
  let '(ret, info, s) := put_bucket_instance_info info exclusive mtime pattrs s in
  if ret <? 0 then (ret, info, pep_objv, s)
  else if negb create_head then (0, info, pep_objv, s)
  else
    let entry_point := Mk_RGWBucketEntryPoint (bi_bucket info) (bi_owner info) (bi_creation_time info) true false
                         RGWBucketInfo_new in
    let '(ot, pep_objv) :=
      if negb (bool_decide (ov_tag pep_objv = [])) then (Mk_tracker obj_version_new pep_objv, pep_objv)
      else (RGWObjVersionTracker_new, vt_write_version RGWObjVersionTracker_new) in
    let '(ret, _, s) := put_bucket_entrypoint_info (bk_name (bi_bucket info)) entry_point exclusive ot mtime None s in
    (if ret <? 0 then ret else 0, info, pep_objv, s).

(** ** [RGWRados::create_bucket] *)

(** What the record of a new bucket is filled with. *)
Definition new_bucket_info (owner : str) (bucket : rgw_bucket) (region_name : str) (pobjv : option obj_version)
    (creation_time : Z) (info : RGWBucketInfo) : RGWBucketInfo :=
  let t := bi_objv_tracker info in
  let t := match pobjv with Some v => Mk_tracker (vt_read_version t) v | None => t end in
  Mk_RGWBucketInfo bucket owner (bi_flags info) region_name (if creation_time =? 0 then now else creation_time) []
    (bi_has_instance_obj info) t (bi_ep_objv info) (bi_quota info) (bi_num_shards info) 0 false.

#[local] Abbreviation look_up h := (get_bucket_info G_buckets_root (test_dir h) (stat_dir h) getpwuid false).

(** [open_bucket_index], as far as it can fail, for a bucket that is not the one found. *)
Definition open_index_check (bucket : rgw_bucket) (h : host) : option Z :=
  if bucket_is_system bucket then Some (- EINVAL)
  else
    let oid := if bool_decide (bk_oid bucket = []) then get_bucket_meta_oid bucket else bk_oid bucket in
    '(ret, _) ← get_bucket_instance_from_oid G_buckets_root (test_dir h) oid RGWBucketInfo_new;
    Some (if ret <? 0 then ret else 0).

Definition MAX_CREATE_RETRIES : nat := 20.

(** One turn: [inl] goes round again. *)
Definition create_turn (owner : str) (bucket : rgw_bucket) (region_name : str) (attrs : list (str * bytes))
    (pobjv : option obj_version) (creation_time : Z) (exclusive : bool) (info : RGWBucketInfo) (pep_objv : obj_version) (h : host)
    : option ((RGWBucketInfo * obj_version + Z * RGWBucketInfo * obj_version) * host) :=
  let info := new_bucket_info owner bucket region_name pobjv creation_time info in
  let '(ret, info, pep_objv, s) := put_linked_bucket_info info exclusive 0 pep_objv (Some attrs) true (Some h) in
  h ← s;
  if ret =? - EEXIST then
    let instance_ver := bi_objv_tracker info in
    '(r, info, _, _) ← look_up h (bk_name bucket) (info_set_tracker RGWObjVersionTracker_new info) [];
    if r <? 0 then Some (if r =? - ENOENT then inl (info, pep_objv) else inr (r, info, pep_objv), h)
    else if bool_decide (bk_bucket_id (bi_bucket info) ≠ bk_bucket_id bucket) then
      r ← open_index_check bucket h;
      if r <? 0 then Some (inr (r, info, pep_objv), h)
      else
        let '(r, _) := remove_entry bucket_instance_meta_handler (get_bucket_instance_entry bucket) (Some instance_ver) in
        Some (inr (if r <? 0 then r else ret, info, pep_objv), h)
    else Some (inr (ret, info, pep_objv), h)
  else Some (inr (ret, info, pep_objv), h).

Fixpoint create_bucket_loop (retries : nat) (owner : str) (bucket : rgw_bucket) (region_name : str)
    (attrs : list (str * bytes)) (pobjv : option obj_version) (creation_time : Z) (exclusive : bool) (info : RGWBucketInfo)
    (pep_objv : obj_version) (h : host) : option (Z * RGWBucketInfo * obj_version * host) :=
  match retries with
  | O => Some (- ENOENT, info, pep_objv, h)
  | S retries =>
      '(r, h) ← create_turn owner bucket region_name attrs pobjv creation_time exclusive info pep_objv h;
      match r with
      | inl (info, pep_objv) =>
          create_bucket_loop retries owner bucket region_name attrs pobjv creation_time exclusive info pep_objv h
      | inr (ret, info, pep_objv) => Some (ret, info, pep_objv, h)
      end
  end.
Definition create_bucket := create_bucket_loop MAX_CREATE_RETRIES.

(** ** [RGWCreateBucket::execute] *)

Definition attr_acl : str := RGW_ATTR_PREFIX ++ "acl".
Definition attr_cors : str := RGW_ATTR_PREFIX ++ "cors".

(** The user, the bucket's name and record as the request has them, the region a
    system request names, the policy encoded.  The result, the record of the
    bucket and the entry point's version. *)
Definition create_bucket_execute (user_id bucket_name : str) (bucket : rgw_bucket) (bucket_info : RGWBucketInfo)
    (region : str) (aclbl : bytes) (has_cors : bool) (h : host)
    : option (Z * RGWBucketInfo * obj_version * host) :=
  let info := RGWBucketInfo_new in
  let ep_objv := obj_version_new in
  '(ret, bucket_info, _, _) ← look_up h bucket_name bucket_info [];
  if (ret <? 0) && negb (ret =? - ENOENT) then Some (ret, info, ep_objv, h)
  else
    let bucket_exists := negb (ret =? - ENOENT) in
    let old_owner : str := [] in
    if bucket_exists && negb (streq old_owner user_id) then Some (- EEXIST, info, ep_objv, h)
    else if bucket_exists && negb (streq [] (bi_placement_rule bucket_info)) then Some (- EEXIST, info, ep_objv, h)
    else
      let attrs := mset attr_acl aclbl [] in
      let attrs := if has_cors then mset attr_cors [] attrs else attrs in
      let bucket := bucket_set_name bucket_name bucket in
      '(ret, info, ep_objv, h) ← create_bucket user_id bucket region attrs None 0 true info ep_objv h;
      if negb (ret =? 0) && negb (ret =? - EEXIST) then Some (ret, info, ep_objv, h)
      else if (ret =? - EEXIST) && negb (streq (bi_owner info) user_id) then Some (- EEXIST, info, ep_objv, h)
      else Some (ret, info, ep_objv, h).

(** ** [RGWDeleteBucket::execute] *)

(** [char cmd_buf[512]] *)
Definition buffer_512 (cmd : str) : option str := if zlen cmd <? 512 then Some cmd else None.

(** What [rm -rf] removes, and its status. *)
Definition shell_rm (name : str) (h : host) : Z * host :=
  match mfind name h with
  | Some _ => if root_writable then (0, merase name h) else (256, h)
  | None => (0, h)
  end.

(** [tag_ver]: the two parameters of a system request. *)
Definition delete_bucket_execute (bucket_name : str) (tag_ver : option (str * str)) (h : host) : option (Z * host) :=
  if bool_decide (bucket_name = []) then Some (- EINVAL, h)
  else if match tag_ver with
          | Some (tag, ver) => negb (bool_decide (tag = [])) && negb (bool_decide (snd (strict_strtol ver 10) = []))
          | None => false
          end then Some (- EINVAL, h)
  else
    cmd ← buffer_512 ("[ -d " ++ cstr G_buckets_root ++ "/" ++ cstr bucket_name ++ " ]");
    if negb (plain_part bucket_name) then None
    else if negb (test_dir h cmd =? 0) then Some (- ERR_NO_SUCH_BUCKET, h)
    else
      _ ← buffer_512 ("rm -rf " ++ cstr G_buckets_root ++ "/" ++ cstr bucket_name);
      let '(ret, h) := shell_rm bucket_name h in
      Some (if negb (ret =? 0) then ERR_INTERNAL_ERROR else ret, h).

(** ** Listing *)

(** The order in which [ls] prints names, and the time of the root, which every
    bucket is listed with. *)
Context (ls_order : list str → list str) (root_ctime : Z).

(** [ls root]: a line for each name that does not begin with a dot. *)
Definition shown (name : str) : bool := negb (bool_decide (char_at 0 name = "."%char)).
Definition ls_root (h : host) : str :=
  concat (map (λ n, n ++ [NL]) (ls_order (List.filter shown (map fst h)))).

(** [boost::split] on newlines, runs of them taken as one. *)
Fixpoint split_lines (s cur : str) (in_run : bool) : list str :=
  match s with
  | [] => [cur]
  | c :: r =>
      if char_is NL c then if in_run then split_lines r [] true else cur :: split_lines r [] true
      else split_lines r (cur ++ [c]) false
  end.

Definition listed_entry (name : str) : cls_user_bucket_entry :=
  Mk_cls_user_bucket_entry (Mk_cls_user_bucket name [] [] [] [] []) 0 0 root_ctime 0 false.

(** The entries appended, and [*pret], which is not set when nothing is printed.
    The marker and the number of entries are not looked at. *)
Definition cls_user_bucket_list (in_marker : str) (max_entries : Z) (h : host)
    : option (list cls_user_bucket_entry * option Z) :=
  _ ← buffer_512 ("ls " ++ cstr G_buckets_root);
  files ← shell_execute (ls_root h);
  Some (if bool_decide (files = []) then ([], None) else (map listed_entry (split_lines files [] false), Some 0)).

(** [junk]: the value of [rc], which is not initialised. *)
Definition cls_user_list_buckets (junk : Z) (in_marker : str) (max_entries : Z) (h : host)
    : option (Z * list cls_user_bucket_entry) :=
  '(entries, pret) ← cls_user_bucket_list in_marker max_entries h;
  let rc := default junk pret in
  Some (if rc <? 0 then rc else 0, entries).

(** [RGWUserBuckets::add] *)
Definition buckets_add (m : list (str * RGWBucketEnt)) (e : cls_user_bucket_entry) : list (str * RGWBucketEnt) :=
  let b := bucket_ent_of e in mset (bk_name (be_bucket b)) b m.

(** [truncated] stays false: the list is asked for once, for whatever user. *)
Definition rgw_read_user_buckets (junk : Z) (user_id marker : str) (max default_amount : Z) (h : host)
    : option (Z * list (str * RGWBucketEnt)) :=
  let max := if max =? 0 then default_amount else max in
  '(ret, entries) ← cls_user_list_buckets junk marker max h;
  let ret := if ret =? - ENOENT then 0 else ret in
  if ret <? 0 then Some (ret, [])
  else Some (0, fold_left buckets_add entries []).

(** What [RGWListBuckets] has gathered. *)
Record list_buckets_st := Mk_list_buckets_st {
  lb_count : Z; lb_size : Z; lb_size_rounded : Z; lb_objcount : Z; lb_marker : str; lb_pages : list (list (str * RGWBucketEnt))
}.
Definition add_page (m : list (str * RGWBucketEnt)) (st : list_buckets_st) : list_buckets_st :=
  Mk_list_buckets_st (u32 (lb_count st + Z.of_nat (length m)))
    (u64 (lb_size st + fold_left (λ z p, z + be_size p.2) m 0))
    (u64 (lb_size_rounded st + fold_left (λ z p, z + be_size_rounded p.2) m 0))
    (u64 (lb_objcount st + fold_left (λ z p, z + be_count p.2) m 0))
    (List.last (map fst m) (lb_marker st))
    (lb_pages st ++ match m with [] => [] | _ => [m] end).

(** The loop of [RGWListBuckets::execute]; [total_count] as an unsigned number
    of 64 bits.  The pages are sent as they are read. *)
Fixpoint list_buckets_loop (fuel : nat) (junk : Z) (user_id : str) (limit max_buckets total_count : Z)
    (st : list_buckets_st) (h : host) : option (Z * list_buckets_st) :=
  match fuel with
  | O => None
  | S fuel =>
      let read_count := if limit >=? 0 then Z.min (u64 (limit - total_count)) max_buckets else max_buckets in
      '(ret, m) ← rgw_read_user_buckets junk user_id (lb_marker st) read_count 0 h;
      if ret <? 0 then Some (ret, st)
      else
        let total_count := u64 (total_count + Z.of_nat (length m)) in
        let done := (Z.of_nat (length m) <? read_count) || ((limit >=? 0) && (total_count >=? limit)) in
        let st := add_page m st in
        if done then Some (ret, st)
        else list_buckets_loop fuel junk user_id limit max_buckets total_count st h
  end.

Definition list_buckets_execute (fuel : nat) (junk : Z) (user_id : str) (max_chunk : Z) (h : host)
    : option (Z * list_buckets_st) :=
  let limit := -1 in
  list_buckets_loop fuel junk user_id limit (u64 max_chunk) 0 (Mk_list_buckets_st 0 0 0 0 [] []) h.

(** ** Linking *)

(** [mkdir -m 777]: the directory, unless it is there. *)
Definition mkdir_777 (name : str) (h : host) : host :=
  match mfind name h with
  | Some _ => h
  | None => if root_writable then mset name (Mk_bucket_dir self now None) h else h
  end.

(** [cls_user_set_buckets]: with [add] false the command is still the one of
    the turn before, and at first the [mkdir] of the root, which is there. *)
Fixpoint set_buckets_loop (entries : list cls_user_bucket_entry) (h : host) : option host :=
  match entries with
  | [] => Some h
  | e :: entries =>
      let name := ub_name (ue_bucket e) in
      _ ← buffer_512 ("mkdir -m 777 " ++ cstr G_buckets_root ++ "/" ++ cstr name);
      if negb (plain_part name) then None else set_buckets_loop entries (mkdir_777 name h)
  end.
Definition cls_user_set_buckets (entries : list cls_user_bucket_entry) (add : bool) (h : host) : option host :=
  _ ← buffer_512 ("mkdir " ++ cstr G_buckets_root);
  if add then set_buckets_loop entries h else Some h.
Definition cls_user_update_buckets (entries : list cls_user_bucket_entry) (add : bool) (h : host) : option (Z * host) :=
  h ← cls_user_set_buckets entries add h; Some (0, h).
Definition cls_user_add_bucket (entry : cls_user_bucket_entry) (h : host) : option (Z * host) :=
  cls_user_update_buckets [entry] true h.

#[local] Abbreviation entry_info h := (get_bucket_entrypoint_info G_buckets_root (test_dir h) (stat_dir h) getpwuid).

(** [ret] is never set. *)
Definition rgw_unlink_bucket (junk : Z) (user_id bucket_name : str) (update_entrypoint : bool) (h : host) : Z :=
  if negb update_entrypoint then 0 else junk.

Definition link_failed (junk ret : Z) (user_id bucket_name : str) (h : host) : Z :=
  let r := rgw_unlink_bucket junk user_id bucket_name true h in ret.

Definition rgw_link_bucket (junk : Z) (user_id : str) (bucket : rgw_bucket) (creation_time : Z) (update_entrypoint : bool) (h : host)
    : option (Z * host) :=
  let new_bucket := Mk_cls_user_bucket_entry (bucket_convert bucket) 0 0
                      (if creation_time =? 0 then now else creation_time) 0 false in
  '(refused, ep) ← (if update_entrypoint then
                      '(ret, ep) ← entry_info h (bk_name bucket) RGWBucketEntryPoint_new;
                      Some ((ret >=? 0) && ep_linked ep && negb (streq (ep_owner ep) user_id), ep)
                    else Some (false, RGWBucketEntryPoint_new));
  if (refused : bool) then Some (- EINVAL, h)
  else
    '(ret, h) ← cls_user_add_bucket new_bucket h;
    if ret <? 0 then Some (link_failed junk ret user_id (bk_name bucket) h, h)
    else if negb update_entrypoint then Some (0, h)
    else
      let ep := Mk_RGWBucketEntryPoint (ep_bucket ep) user_id (ep_creation_time ep) true (ep_has_bucket_info ep)
                  (ep_old_bucket_info ep) in
      let '(ret, _, s) := put_bucket_entrypoint_info (bk_name bucket) ep false RGWObjVersionTracker_new 0 (Some []) (Some h) in
      h ← s;
      Some (if ret <? 0 then link_failed junk ret user_id (bk_name bucket) h else 0, h).
End host.

(** [RGWStatBucket::execute], whose statistics are not read. *)
Definition stat_bucket_execute (bucket : RGWBucketEnt) (b : rgw_bucket) : Z * RGWBucketEnt :=
  let bucket := Mk_RGWBucketEnt b (be_size bucket) (be_size_rounded bucket) (be_creation_time bucket) (be_count bucket) in
  let m := mset (bk_name b) bucket [] in
  let ret := 0 in
  let ret := if ret =? 0 then - EEXIST else ret in
  if ret >? 0 then match mfind (bk_name b) m with Some e => (0, e) | None => (- EINVAL, bucket) end
  else (ret, bucket).
