(* ===== verification/BucketOpsFacts.v ===== *)
(** * Theorems about creating, deleting and listing buckets

    The functions of [BucketOps] against what they are for: a store of
    directories, each with an owner, that requests add to and remove from. *)

From stdpp Require Import gmap.
From S2P Require Import Prelude StdMap Encoding Utime ClsRgwTypes CString Env Strtol Acl RgwObj ObjectCache Records Http.
From S2P Require Import Errors Rest SysInfo Listing Ops OpsFacts Metadata Lookup LookupFacts ClsUser BucketOps.
#[local] Open Scope Z_scope.
#[local] Open Scope str_scope.

(** ** A bucket's record read as an entry point *)

Lemma reads_any_raw n (bs : bytes) : n = length bs → reads (decode_raw n) bs (le_value bs).
Proof.
  intros Hn. unfold decode_raw. rewrite <- (app_nil_r bs) at 1.
  eapply reads_bind; [by apply reads_copy|apply reads_ret].
Qed.

(** An entry point is read from the newer block of a bucket's record, as long as
    the block begins the same way. *)
Lemma entry_newer_reads bs extra x0 y :
  reads (decode_new_entry x0) bs y → reads (decode_RGWBucketEntryPoint x0) (block 12 4 (bs ++ extra)) y.
Proof.
  intros Hb off rest Hoff Hlen. unfold decode_RGWBucketEntryPoint.
  generalize (It off (block 12 4 (bs ++ extra) ++ rest)) at 1. intros orig. revert off rest Hoff Hlen.
  change (reads (decode_entry_from x0 orig) (block 12 4 (bs ++ extra)) y).
  unfold decode_entry_from, DECODE_START_32, block.
  apply reads_bind_assoc, reads_bind_raw; [cbn; lia|]. version_cbn.
  apply reads_bind_assoc. eapply reads_bind with (x := tt).
  { rewrite <- (app_nil_r (le_bytes 1 4)). apply reads_bind_raw; [cbn; lia|]. apply reads_ret. }
  apply reads_bind_assoc. by apply (reads_to_end (decode_new_entry x0)).
Qed.

(** Whatever follows the bucket and the owner is taken for the flag and the time. *)
Lemma new_entry_prefix b o (a c : bytes) x0 :
  wf_rgw_bucket b → wf string_c o → length a = 1%nat → length c = 8%nat →
  reads (decode_new_entry x0) (enc rgw_bucket_c b [] ++ enc string_c o [] ++ a ++ c)
    (Mk_RGWBucketEntryPoint (bucket_into b (ep_bucket x0)) o (s64 (le_value c)) (negb (le_value a =? 0)) false
       (ep_old_bucket_info x0)).
Proof.
  intros Hb Ho Ha Hc. unfold decode_new_entry.
  eapply reads_bind; [by apply into_reads|]. eapply reads_bind; [by apply dec_reads|].
  eapply reads_bind with (x := negb (le_value a =? 0)).
  { cbn [dec bool_c]. unfold decode_bool. rewrite <- (app_nil_r a) at 1.
    eapply reads_bind; [by apply reads_any_raw|apply reads_ret]. }
  rewrite <- (app_nil_r c) at 1. eapply reads_bind; [|apply reads_ret].
  cbn [dec u64_c uint_c]. by apply reads_any_raw.
Qed.

(** [put_bucket_instance_info] hands the record of a bucket to code that reads
    an entry point; the name and the owner come out as they went in. *)
Lemma info_as_entry i :
  wf_RGWBucketInfo i → zlen (encode_RGWBucketInfo i []) < 2 ^ 32 →
  ∃ e it, decode_RGWBucketEntryPoint RGWBucketEntryPoint_new (It 0 (encode_RGWBucketInfo i [])) = inr (e, it) ∧
          bk_name (ep_bucket e) = bk_name (bi_bucket i) ∧ ep_owner e = bi_owner i.
Proof.
  intros (Hb & Ho & Hf & Hr & Ht & Hp & Hi & Hq & Hn & Hh & Hy) Hlen. revert Hlen. unfold encode_RGWBucketInfo.
  rewrite ENCODE_block by appends_solve. do 2 rewrite (eseq_nil (enc _ _)) by appends_solve. 
  set (tail := (enc u32_c (bi_flags i) >>> _) []).
  assert (Htl : 9 <= zlen tail).
  { subst tail. rewrite !eseq_size by appends_solve. rewrite encode_string_size by apply Hr.
    change (zlen (enc u32_c (bi_flags i) [])) with 4.
    change (zlen (enc u64_c (u64 (bi_creation_time i)) [])) with 8.
    pose proof (zlen_nonneg (bi_region i)). pose proof (zlen_nonneg (enc string_c (bi_placement_rule i) [])).
    pose proof (zlen_nonneg (enc bool_c (bi_has_instance_obj i) [])). pose proof (zlen_nonneg (enc RGWQuotaInfo_c (bi_quota i) [])).
    pose proof (zlen_nonneg (enc u32_c (bi_num_shards i) [])).
    pose proof (zlen_nonneg (enc u8_c (bi_bucket_index_shard_hash_type i) [])).
    pose proof (zlen_nonneg (enc bool_c (bi_requester_pays i) [])). lia. }
  assert (Hl : (9 <= length tail)%nat) by (unfold zlen in Htl; lia).
  rewrite <- (take_drop 1 tail), <- (take_drop 8 (drop 1 tail)), !app_assoc.
  set (extra := drop 8 (drop 1 tail)). intros Hlen.
  assert (Hread : reads (decode_RGWBucketEntryPoint RGWBucketEntryPoint_new)
    (block 12 4 ((((enc rgw_bucket_c (bi_bucket i) [] ++ enc string_c (bi_owner i) []) ++ take 1 tail) ++ take 8 (drop 1 tail)) ++ extra))
    (Mk_RGWBucketEntryPoint (bucket_into (bi_bucket i) rgw_bucket_new) (bi_owner i) (s64 (le_value (take 8 (drop 1 tail))))
       (negb (le_value (take 1 tail) =? 0)) false RGWBucketInfo_new)).
  { apply entry_newer_reads. rewrite <- !app_assoc.
    apply (new_entry_prefix _ _ _ _ RGWBucketEntryPoint_new); [done|done|..]; rewrite ?length_take, ?length_drop; lia. }
  rewrite (reads_whole _ _ _ Hread) by exact Hlen. do 2 eexists. split; [reflexivity|]. done.
Qed.

(** ** The directories *)

Lemma plain_part_name name : plain_part name = true → plain_name name.
Proof.
  unfold plain_part. intros H. repeat apply andb_true_iff in H as [H ?H]. rewrite forallb_forall in H0.
  split; [intros ->; done|].
  split; intros Hin; apply list_elem_of_In, H0 in Hin; vm_compute in Hin; done.
Qed.

Section host.
Context (root : str) (getpwnam : str → option (Z * Z)) (getpwuid : Z → Z + str) (getgrnam : str → option Z).
Hypothesis Hroot : NUL ∉ root.
(** The account files: an error is a number above 0, names are of moderate
    size, and the user of an account has a name. *)
Hypothesis Hpw : ∀ u, match getpwuid u with inl e => 0 < e | inr o => zlen o < 2 ^ 31 end.

Lemma dir_command_is name cmd :
  plain_part name = true → dir_command root name = Some cmd → cmd = "[ -d " ++ cstr root ++ "/" ++ name ++ " ]".
Proof.
  intros Hn. unfold dir_command. rewrite (cstr_no_nul name) by by apply plain_part_name.
  case_match; [|done]. by intros [= <-].
Qed.

Lemma dir_command_short name cmd : dir_command root name = Some cmd → zlen cmd < 256.
Proof. unfold dir_command. case_match eqn:E; [|done]. intros [= <-]. by apply Z.ltb_lt. Qed.

Lemma streq_dirs (a b : str) name x : streq (a ++ name ++ b) (a ++ x ++ b) = streq name x.
Proof.
  destruct (streq name x) eqn:E.
  - apply streq_true in E as ->. by apply streq_true.
  - apply streq_false. intros H. apply streq_false in E. apply E.
    by apply (inj (app a)), (inj (λ l, l ++ b)) in H.
Qed.

Lemma test_dir_is h name :
  test_dir root h ("[ -d " ++ cstr root ++ "/" ++ name ++ " ]") = match mfind name h with Some _ => 0 | None => 256 end.
Proof.
  unfold test_dir.
  assert (existsb (λ p, streq ("[ -d " ++ cstr root ++ "/" ++ name ++ " ]") ("[ -d " ++ cstr root ++ "/" ++ p.1 ++ " ]")) h
          = match mfind name h with Some _ => true | None => false end) as ->; [|by destruct (mfind name h)].
  induction h as [|[n d] h IH]; [done|]. cbn [existsb mfind fst]. rewrite IH.
  replace (streq _ _) with (streq name n).
  2: { rewrite !(app_assoc "[ -d "), !(app_assoc _ "/"). symmetry. apply streq_dirs. }
  destruct (compare name n) eqn:E.
  - apply compare_eq in E as <-. by rewrite (proj2 (streq_true _ _) eq_refl).
  - rewrite (proj2 (streq_false name n)); [done|]. intros ->. by rewrite compare_refl in E.
  - rewrite (proj2 (streq_false name n)); [done|]. intros ->. by rewrite compare_refl in E.
Qed.

Lemma stat_dir_is h name :
  stat_dir root h (full_name root name) =
    match mfind name h with Some d => inr ((bd_owner d).1, bd_mtime d) | None => inl ENOENT end.
Proof.
  unfold stat_dir. induction h as [|[n d] h IH]; [done|]. cbn [List.find mfind fst].
  replace (streq _ _) with (streq name n).
  2: { unfold full_name. rewrite !(app_assoc root), <- (app_nil_r name), <- (app_nil_r n) at 1.
       symmetry. rewrite <- (app_nil_r name), <- (app_nil_r n) at 1. rewrite !app_nil_r.
       pose proof (streq_dirs (root ++ "/") [] name n) as H. by rewrite !app_nil_r in H. }
  destruct (compare name n) eqn:E.
  - apply compare_eq in E as <-. by rewrite (proj2 (streq_true _ _) eq_refl).
  - rewrite (proj2 (streq_false name n)); [done|]. intros ->. by rewrite compare_refl in E.
  - rewrite (proj2 (streq_false name n)); [done|]. intros ->. by rewrite compare_refl in E.
Qed.

(** A host whose directories have owners with accounts. *)
Definition known (u : Z) : Prop := ∃ n, getpwuid u = inr n.
Definition dir_ok (d : bucket_dir) : Prop := known (bd_owner d).1 ∧ - 2 ^ 63 <= bd_mtime d < 2 ^ 63.
Definition host_ok (h : host) : Prop := msorted h ∧ Forall (λ p, dir_ok p.2) h.

Lemma host_ok_find h name d : host_ok h → mfind name h = Some d → dir_ok d.
Proof. intros [_ Hf] Hd. rewrite Forall_forall in Hf. by apply (Hf (name, d)), mfind_elem. Qed.
Lemma host_ok_set h name d : host_ok h → dir_ok d → host_ok (mset name d h).
Proof.
  intros [Hs Hf] Hd. split; [by apply mset_sorted|]. clear Hs.
  induction h as [|[n d'] h IH]; cbn [mset]; [by apply Forall_singleton|]. apply Forall_cons in Hf as [Hn Hf].
  destruct (compare name n); rewrite ?Forall_cons; auto.
Qed.
Lemma host_ok_erase h name : host_ok h → host_ok (merase name h).
Proof. intros [Hs Hf]. split; [by apply merase_sorted|by apply merase_Forall]. Qed.

#[local] Abbreviation look_up h := (get_bucket_info root (test_dir root h) (stat_dir root h) getpwuid false).

Lemma stat_errors h : host_ok h → ∀ p, match stat_dir root h p with inl e => 0 < e | inr (_, t) => - 2 ^ 63 <= t < 2 ^ 63 end.
Proof.
  intros [_ Hf] p. unfold stat_dir. destruct (List.find _ h) as [[n d]|] eqn:E; [|done].
  apply List.find_some in E as [Hin _]. rewrite Forall_forall in Hf.
  apply list_elem_of_In, Hf in Hin. apply Hin.
Qed.

Lemma cstr_bucket_path name : plain_part name = true → cstr (bucket_path root name) = full_name root name.
Proof.
  intros Hn. apply cstr_no_nul. unfold bucket_path, full_name. rewrite !not_elem_of_app. split; [done|].
  split; [by apply (bool_decide_unpack _)|by apply plain_part_name].
Qed.

Lemma look_up_missing h name cmd info :
  host_ok h → plain_part name = true → dir_command root name = Some cmd → mfind name h = None →
  look_up h name info [] = Some (- ENOENT, info_set_bucket (bucket_set_name name (bi_bucket info)) info, [], []).
Proof.
  intros Hh Hn Hcmd Hf.
  apply (bucket_missing root (test_dir root h) (stat_dir root h) getpwuid false (stat_errors h Hh) Hpw name cmd ENOENT info); [done|].
  unfold LookupFacts.bucket_dir. by rewrite (dir_command_is name cmd), test_dir_is, Hf.
Qed.

Lemma look_up_found h name cmd d info :
  host_ok h → plain_part name = true → dir_command root name = Some cmd → mfind name h = Some d →
  look_up h name info [] = Some (0, found_bucket name, [], []).
Proof.
  intros Hh Hn Hcmd Hf. destruct (host_ok_find h name d Hh Hf) as [[o Ho] _].
  apply (bucket_found root (test_dir root h) (stat_dir root h) getpwuid false (stat_errors h Hh) Hpw name cmd o (bd_mtime d) info);
    [by apply plain_part_name|done|].
  unfold LookupFacts.bucket_dir. rewrite (dir_command_is name cmd), test_dir_is, Hf by done. cbn [Z.eqb negb].
  by rewrite cstr_bucket_path, stat_dir_is, Hf, Ho.
Qed.

(** ** Changing owners *)

(** A process with every right: it can write below the root and give files away. *)
Definition privileged (p : str) (who : Z * Z) : Z := 0.

Lemma mset_mset {V} (k : str) (v v' : V) m : mset k v (mset k v' m) = mset k v m.
Proof.
  induction m as [|[k' w] m IH]; cbn [mset]; [by rewrite compare_refl|].
  destruct (compare k k') eqn:E; cbn [mset]; rewrite ?compare_refl, ?E; [done|done|by rewrite IH].
Qed.

(** What a directory looks like once it has been given away. *)
Definition given (who : Z * Z) (d : bucket_dir) : bucket_dir :=
  Mk_bucket_dir who (bd_mtime d) ((λ _, who) <$> bd_stat d).

Lemma chown_pass bl e it name owner h :
  decode_RGWBucketEntryPoint RGWBucketEntryPoint_new (It 0 bl) = inr (e, it) →
  bk_name (ep_bucket e) = name → ep_owner e = owner → plain_part name = true → NUL ∉ owner →
  mon_command_chown root getpwnam privileged bl h =
    Some (match getpwnam owner, mfind name h with
          | Some who, Some d => (0, mset name (given who d) h)
          | _, _ => (- ENOENT, h)
          end).
Proof.
  intros Hd Hn Ho Hp Hnul. unfold mon_command_chown. rewrite Hd, Hn, Hp, Ho. cbn [negb].
  rewrite cstr_no_nul by done. destruct (getpwnam owner) as [who|]; [|done].
  unfold chown_dir, privileged. destruct (mfind name h) as [[o t st]|] eqn:Ef; cbn [Z.eqb].
  - unfold chown_stat. rewrite mfind_mset_eq. cbn [bd_mtime bd_stat].
    destruct st as [s|]; cbn [Z.eqb]; [by rewrite mset_mset|done].
  - unfold chown_stat. by rewrite Ef.
Qed.

Context (self : Z * Z) (now : Z) (admin : str) (admin_ids : Z * Z) (admin_gid : Z).
Hypothesis Hnow : - 2 ^ 63 <= now < 2 ^ 63.
Hypothesis Hadmin : getpwuid 0 = inr admin ∧ getpwnam admin = Some admin_ids ∧ getgrnam admin = Some admin_gid.
Hypothesis Haccounts : ∀ o who, getpwnam o = Some who → known who.1.

(** A directory as [pool_create] leaves it. *)
Definition fresh : bucket_dir := Mk_bucket_dir (admin_ids.1, admin_gid) now (Some (admin_ids.1, admin_gid)).
Definition owned (who : Z * Z) : bucket_dir := Mk_bucket_dir who now (Some who).
(** A directory that was there and went through [pool_create] again: it is the
    administrator's. *)
Definition taken (d : bucket_dir) : bucket_dir :=
  Mk_bucket_dir (admin_ids.1, admin_gid) (match bd_stat d with Some _ => bd_mtime d | None => now end)
    (Some (admin_ids.1, admin_gid)).

Lemma fresh_ok : dir_ok fresh.
Proof. split; [|done]. destruct Hadmin as (_ & Ha & _). apply (Haccounts _ _ Ha). Qed.
Lemma taken_ok d : dir_ok d → dir_ok (taken d).
Proof.
  intros [_ Ht]. split; [destruct Hadmin as (_ & Ha & _); apply (Haccounts _ _ Ha)|]. unfold taken. cbn [bd_mtime].
  by destruct (bd_stat d).
Qed.
Lemma given_ok o who d : getpwnam o = Some who → dir_ok d → dir_ok (given who d).
Proof. intros Hw [_ Ht]. split; [by eapply Haccounts|done]. Qed.
Lemma owned_ok o who : getpwnam o = Some who → dir_ok (owned who).
Proof. intros H. split; [|done]. by eapply Haccounts. Qed.

(** A name short enough for the commands that make the bucket. *)
Definition name_ok (name : str) : Prop :=
  plain_part name = true ∧ is_Some (mkdir_command root name) ∧ is_Some (chown_command root admin name).

#[local] Abbreviation pool h := (create_pool root getpwnam getpwuid getgrnam self true privileged now h).
#[local] Abbreviation put_obj := (put_system_obj root getpwnam privileged).

Lemma pool_made b name h :
  name_ok name → bk_name b = name →
  pool b (Some h) = (0, Some (mset name (match mfind name h with None => fresh | Some d => taken d end) h)).
Proof.
  intros (Hp & [c Hc] & [c' Hc']) Hb. destruct Hadmin as (Ha & Han & Hag).
  unfold create_pool, lift, pool_create. rewrite Hb, cstr_no_nul by by apply plain_part_name. cbn [mbind option_bind].
  rewrite Ha, Hp, Hc, Hc'. cbn [negb mbind option_bind].
  unfold mkdir_bucket. cbn [negb]. unfold shell_chown. rewrite Han, Hag. destruct admin_ids as [u g] eqn:Ei.
  unfold chown_dir, chown_stat, privileged, fresh, taken. rewrite Ei.
  destruct (mfind name h) as [[o mt [st|]]|] eqn:Hf; rewrite ?mfind_mset_eq, ?Hf; cbn [bd_mtime bd_stat Z.eqb snd fst];
    rewrite ?mfind_mset_eq; cbn [Z.eqb snd fst]; by rewrite !mset_mset.
Qed.

Lemma put_obj_is b oid bl x t mt a h e it name owner :
  decode_RGWBucketEntryPoint RGWBucketEntryPoint_new (It 0 bl) = inr (e, it) →
  bk_name (ep_bucket e) = name → ep_owner e = owner → plain_part name = true → NUL ∉ owner →
  put_obj b oid bl x t mt a (Some h) =
    match getpwnam owner, mfind name h with
    | Some who, Some d => (0, t, Some (mset name (given who d) h))
    | _, _ => (- ENOENT, t, Some h)
    end.
Proof.
  intros. unfold put_system_obj, lift. cbn [mbind option_bind]. erewrite chown_pass by done.
  destruct (getpwnam owner); [destruct (mfind name h)|]; done.
Qed.

(** ** Metadata entries *)

Context {I J : Type} (hb hi : @handler (option host) I J).
Hypothesis Hhi : ∀ s key, h_get_pool_and_oid hi s key = instance_pool_and_oid key.

#[local] Abbreviation put_meta := (put_entry put_obj (create_pool root getpwnam getpwuid getgrnam self true privileged now)).

(** What putting an entry for an owner does to the directories. *)
Definition put_result (owner name : str) (h : host) : Z * host :=
  match mfind name h, getpwnam owner with
  | None, None => (- ENOENT, mset name fresh h)
  | None, Some who => (0, mset name (owned who) h)
  | Some d, Some who => (0, mset name (given who d) h)
  | Some d, None => (- ENOENT, mset name (taken d) h)
  end.

(** A missing bucket is made and given to its owner, one that is there is given
    away; without an account for the owner it stays the administrator's or
    becomes it.  The exclusive flag, the attributes and the versions make no
    difference. *)
Lemma put_meta_is (hd : @handler (option host) I J) key bl x t mt a h e it name owner :
  (∀ s, bk_name (fst (h_get_pool_and_oid hd s key)) = name) →
  decode_RGWBucketEntryPoint RGWBucketEntryPoint_new (It 0 bl) = inr (e, it) →
  bk_name (ep_bucket e) = name → ep_owner e = owner → name_ok name → NUL ∉ owner →
  ov_ver (vt_read_version t) = 0 →
  put_meta hd key bl x (Some t) mt a (Some h) =
    let '(ret, h') := put_result owner name h in (ret, Some t, Some h').
Proof.
  intros Hpool Hd Hn Ho Hok Hnul Ht. unfold put_entry, pre_modify. cbn [fmap option_fmap option_map].
  rewrite Ht. cbn [Z.eqb negb andb add_entry]. change (0 <? 0) with false. cbn iota.
  specialize (Hpool (Some h)). destruct (h_get_pool_and_oid hd (Some h) key) as [b oid]. cbn [fst] in Hpool.
  unfold rgw_put_system_obj, put_result. erewrite put_obj_is by (done || apply Hok).
  destruct (mfind name h) as [d|] eqn:Hf, (getpwnam owner) as [who|] eqn:Hw; [done|..];
    change (- ENOENT =? - ENOENT) with true; cbn iota; rewrite (pool_made b name), Hf by done;
    change (0 >=? 0) with true; cbn iota; erewrite put_obj_is by (done || apply Hok);
    rewrite mfind_mset_eq, Hw; by rewrite ?mset_mset.
Qed.

Lemma key_bucket_plain name rest :
  plain_part name = true → key_bucket (name ++ ":" ++ rest) = name ∧ key_bucket name = name.
Proof.
  intros Hp. destruct (plain_part_name name Hp) as (_ & Hnul & Hcol). unfold key_bucket.
  assert (Hchars : forallb (not_char ":") name = true).
  { apply forallb_forall. intros c Hc. unfold not_char, char_is.
    apply negb_true_iff, bool_decide_eq_false. intros ->. apply Hcol. by apply list_elem_of_In. }
  split.
  - assert (cstr (name ++ ":" ++ rest) = name ++ ":"%char :: cstr rest) as ->.
    { clear -Hnul. induction name as [|c name IH]; [done|]. rewrite not_elem_of_cons in Hnul. destruct Hnul as [Hc Hn].
      change (cstr ((c :: name) ++ ":" ++ rest)) with (if decide (c = NUL) then [] else c :: cstr (name ++ ":" ++ rest)).
      by rewrite decide_False, IH. }
    by rewrite (span_all _ name (":"%char :: cstr rest)).
  - rewrite cstr_no_nul by done. rewrite <- (app_nil_r name) at 1. by rewrite (span_all _ name []).
Qed.

(** ** Creation *)

(** The name of a user, which is empty for a request without one. *)
Definition user_ok (user : str) : Prop := (NUL ∉ user) ∧ zlen user < 2 ^ 31.

(** The records that are written for a new bucket. *)
Definition made_info (user name : str) : RGWBucketInfo :=
  info_set_instance_obj true (new_bucket_info now user (named name) [] None 0 RGWBucketInfo_new).
Definition made_entry (user name : str) : RGWBucketEntryPoint :=
  Mk_RGWBucketEntryPoint (named name) user now true false RGWBucketInfo_new.

Lemma name_short name : name_ok name → zlen name < 256.
Proof.
  intros (_ & [c Hc] & _). unfold mkdir_command in Hc. case_match eqn:E; [|done]. apply Z.ltb_lt in E.
  unfold full_name in E. rewrite !zlen_app in E. pose proof (zlen_nonneg root). pose proof (zlen_nonneg name).
  pose proof (zlen_nonneg ("mkdir -p  " : str)). pose proof (zlen_nonneg (" && mkdir -p " : str)).
  pose proof (zlen_nonneg ("/.bucket" : str)). pose proof (zlen_nonneg ("/" : str)). lia.
Qed.

Lemma named_wf name : zlen name < 256 → wf_rgw_bucket (named name).
Proof.
  intros Hn. pose proof (zlen_nonneg name). unfold named, bucket_set_name.
  repeat split; cbn [wf string_c bk_name bk_data_pool bk_marker bk_bucket_id bk_index_pool bk_data_extra_pool rgw_bucket_new];
    first [lia|done].
Qed.

Lemma made_info_wf user name : user_ok user → zlen name < 256 → wf_RGWBucketInfo (made_info user name).
Proof.
  intros (_ & Hu) Hn. pose proof (zlen_nonneg user).
  split; [exact (named_wf name Hn)|]. split; [cbn [made_info info_set_instance_obj new_bucket_info bi_owner wf string_c]; lia|].
  repeat split; try done; cbn; lia.
Qed.

Lemma made_info_size user name :
  user_ok user → zlen name < 256 → zlen (encode_RGWBucketInfo (made_info user name) []) < 2 ^ 32.
Proof.
  intros (_ & Hu) Hn. pose proof (zlen_nonneg user). unfold encode_RGWBucketInfo. rewrite ENCODE_size by appends_solve.
  do 2 rewrite eseq_size by appends_solve. set (rest := eseq (enc u32_c _) _).
  change (enc rgw_bucket_c (bi_bucket (made_info user name)) []) with (encode_rgw_bucket (named name) []).
  rewrite rgw_bucket_size by by apply named_wf. change (bi_owner (made_info user name)) with user.
  rewrite encode_string_size by lia.
  assert (zlen (rest []) <= 90).
  { subst rest. rewrite !eseq_size by appends_solve. change (zlen (enc u64_c _ [])) with 8. vm_compute. discriminate. }
  unfold named, bucket_set_name. cbn [bk_name bk_data_pool bk_marker bk_bucket_id bk_index_pool bk_data_extra_pool rgw_bucket_new].
  change (zlen (@nil ascii)) with 0. lia.
Qed.

Lemma made_entry_decodes user name :
  user_ok user → zlen name < 256 →
  ∃ e it, decode_RGWBucketEntryPoint RGWBucketEntryPoint_new (It 0 (encode_RGWBucketEntryPoint (made_entry user name) [])) = inr (e, it) ∧
          bk_name (ep_bucket e) = name ∧ ep_owner e = user.
Proof.
  intros (_ & Hu) Hn. pose proof (zlen_nonneg user).
  assert (He : wf_RGWBucketEntryPoint (made_entry user name)).
  { split; [exact (named_wf name Hn)|]. split; [cbn [wf string_c made_entry ep_owner]; lia|]. split; [done|exact Hnow]. }
  rewrite (reads_whole _ _ _ (entry_reads _ RGWBucketEntryPoint_new He)); [do 2 eexists; split; [reflexivity|done]|].
  unfold encode_RGWBucketEntryPoint. rewrite ENCODE_size by appends_solve. rewrite !eseq_size by appends_solve.
  change (enc rgw_bucket_c (ep_bucket (made_entry user name)) []) with (encode_rgw_bucket (named name) []).
  rewrite rgw_bucket_size by by apply named_wf. change (ep_owner (made_entry user name)) with user.
  rewrite encode_string_size by lia.
  change (zlen (enc bool_c _ [])) with 1. change (zlen (enc u64_c _ [])) with 8.
  unfold named, bucket_set_name. cbn [bk_name bk_data_pool bk_marker bk_bucket_id bk_index_pool bk_data_extra_pool rgw_bucket_new].
  change (zlen (@nil ascii)) with 0. lia.
Qed.

Lemma put_result_again user name h who :
  getpwnam user = Some who → put_result user name (snd (put_result user name h)) = (0, snd (put_result user name h)).
Proof.
  intros Hw. unfold put_result. rewrite Hw. destruct (mfind name h) as [[o mt [st|]]|]; cbn [snd];
    rewrite mfind_mset_eq, mset_mset; done.
Qed.

Lemma put_linked_is user name pattrs h :
  user_ok user → name_ok name →
  (∀ s key, bk_name (fst (h_get_pool_and_oid hb s key)) = key_bucket key) →
  ∃ info v,
    put_linked_bucket_info root getpwnam getpwuid getgrnam self true privileged now hb hi
      (new_bucket_info now user (named name) [] None 0 RGWBucketInfo_new) true 0 obj_version_new pattrs true (Some h) =
      (fst (put_result user name h), info, v, Some (snd (put_result user name h))) ∧
    bi_owner info = user ∧ bi_bucket info = named name.
Proof.
  intros Hu Hn Hhb. pose proof (name_short name Hn) as Hlen. pose proof (proj1 Hn) as Hp.
  destruct (key_bucket_plain name [] Hp) as [Hk1 Hk2].
  destruct (info_as_entry (made_info user name)) as (e & it & He & Hen & Heo);
    [by apply made_info_wf|by apply made_info_size|].
  destruct (made_entry_decodes user name Hu Hlen) as (e' & it' & He' & Hen' & Heo').
  unfold put_linked_bucket_info, put_bucket_instance_info, rgw_bucket_instance_store_info. cbv zeta.
  change (info_set_instance_obj true _) with (made_info user name).
  change (get_bucket_instance_entry (bi_bucket (made_info user name))) with (name ++ ":" ++ []).
  rewrite Hk1, (proj2 (Z.ltb_lt _ _) Hlen). cbn [negb orb].
  rewrite (put_meta_is hi _ _ _ _ _ _ h e it name user);
    [|intros s; rewrite Hhi; exact Hk1|done|done|done|done|apply Hu|done].
  destruct (put_result user name h) as [ret h'] eqn:Er. cbn [fst snd default].
  destruct (getpwnam user) as [who|] eqn:Ew.
  - pose proof (put_result_again user name h who Ew) as Hagain. rewrite Er in Hagain. cbn [snd] in Hagain.
    assert (ret = 0) as -> by (unfold put_result in Er; rewrite Ew in Er; by destruct (mfind name h); injection Er).
    change (0 <? 0) with false. cbn iota. rewrite (bool_decide_eq_true_2 (ov_tag obj_version_new = [])) by done. cbn [negb].
    unfold put_bucket_entrypoint_info, rgw_bucket_store_info.
    change (bk_name (bi_bucket _)) with name. rewrite Hk2, (proj2 (Z.ltb_lt _ _) Hlen). cbn [negb].
    change (encode_RGWBucketEntryPoint _ []) with (encode_RGWBucketEntryPoint (made_entry user name) []).
    rewrite (put_meta_is hb _ _ _ _ _ _ h' e' it' name user);
      [|intros s; by rewrite Hhb|done|done|done|done|apply Hu|done].
    rewrite Hagain. change (0 <? 0) with false. do 2 eexists. split; [reflexivity|done].
  - assert (ret = - ENOENT) as -> by (unfold put_result in Er; rewrite Ew in Er; by destruct (mfind name h); injection Er).
    change (- ENOENT <? 0) with true. cbn iota. do 2 eexists. split; [reflexivity|done].
Qed.

#[local] Abbreviation create user name acl cors := (create_bucket_execute root getpwnam getpwuid getgrnam self true privileged now
  hb hi user name rgw_bucket_new RGWBucketInfo_new [] acl cors).

Hypothesis Hhb : ∀ s key, bk_name (fst (h_get_pool_and_oid hb s key)) = key_bucket key.

(** What a request to create a bucket does: the owner found for a bucket that is
    there is always the empty name, so only a request without a user gets past
    the check. *)
Definition create_spec (user name : str) (h : host) : Z * host :=
  match mfind name h with
  | Some _ => if bool_decide (user = []) then put_result user name h else (- EEXIST, h)
  | None => put_result user name h
  end.

Lemma put_result_ret user name h :
  put_result user name h = ((match getpwnam user with Some _ => 0 | None => - ENOENT end), snd (put_result user name h)).
Proof. unfold put_result. by destruct (mfind name h), (getpwnam user). Qed.

(** The end of a creation, once it is under way. *)
Lemma create_bucket_is user name attrs h :
  user_ok user → name_ok name →
  ∃ info v, create_bucket root getpwnam getpwuid getgrnam self true privileged now hb hi user (named name) [] attrs None 0 true
      RGWBucketInfo_new obj_version_new h
    = Some (fst (put_result user name h), info, v, snd (put_result user name h)).
Proof.
  intros Hu Hn. unfold create_bucket, MAX_CREATE_RETRIES. cbn [create_bucket_loop]. unfold create_turn.
  destruct (put_linked_is user name (Some attrs) h Hu Hn Hhb) as (info & v & -> & Ho & Hb).
  cbn [mbind option_bind]. rewrite put_result_ret. cbn [fst snd].
  destruct (getpwnam user); cbn [mbind option_bind];
    [change (0 =? - EEXIST) with false|change (- ENOENT =? - EEXIST) with false]; cbn iota; by do 2 eexists.
Qed.

Lemma create_bucket_spec user name acl cors h :
  host_ok h → user_ok user → name_ok name → is_Some (dir_command root name) →
  ∃ info v, create user name acl cors h = Some (fst (create_spec user name h), info, v, snd (create_spec user name h)).
Proof.
  intros Hh Hu Hn [cmd Hcmd]. pose proof (proj1 Hn) as Hp. unfold create_bucket_execute, create_spec.
  set (attrs := if cors then _ else _).
  destruct (create_bucket_is user name attrs h Hu Hn) as (info & v & Hc).
  assert (Hend : ∀ r : option (Z * RGWBucketInfo * obj_version * host), (∃ info v, r = Some (fst (put_result user name h), info, v, snd (put_result user name h))) →
    ∃ info v, ('(ret, info, ep_objv, h) ← r;
      if negb (ret =? 0) && negb (ret =? - EEXIST) then Some (ret, info, ep_objv, h)
      else if (ret =? - EEXIST) && negb (streq (bi_owner info) user) then Some (- EEXIST, info, ep_objv, h)
      else Some (ret, info, ep_objv, h)) = Some (fst (put_result user name h), info, v, snd (put_result user name h))).
  { intros r (i1 & v1 & ->). cbn [mbind option_bind]. rewrite put_result_ret. cbn [fst snd].
    destruct (getpwnam user); do 2 eexists; reflexivity. }
  destruct (mfind name h) as [d|] eqn:Hf.
  - rewrite (look_up_found h name cmd d) by done. cbn [mbind option_bind].
    change (0 <? 0) with false. change (0 =? - ENOENT) with false. cbn [andb negb].
    case_bool_decide as Hue.
    + subst user. cbn [streq negb]. change (streq [] []) with true. cbn [negb].
      change (streq [] (bi_placement_rule (found_bucket name))) with true. cbn [negb].
      change (bucket_set_name name rgw_bucket_new) with (named name). apply Hend. do 2 eexists. exact Hc.
    + rewrite (proj2 (streq_false [] user)) by congruence. cbn [negb]. by do 2 eexists.
  - rewrite (look_up_missing h name cmd) by done. cbn [mbind option_bind].
    change (- ENOENT <? 0) with true. change (- ENOENT =? - ENOENT) with true. cbn [andb negb].
    change (bucket_set_name name rgw_bucket_new) with (named name). apply Hend. do 2 eexists. exact Hc.
Qed.

(** ** Deletion *)

Lemma delete_bucket_spec name h :
  plain_part name = true → is_Some (dir_command root name) →
  delete_bucket_execute root true name None h =
    Some (match mfind name h with None => (- ERR_NO_SUCH_BUCKET, h) | Some _ => (0, merase name h) end).
Proof.
  intros Hp [cmd Hcmd]. pose proof (dir_command_is name cmd Hp Hcmd) as Hc. unfold delete_bucket_execute.
  destruct (plain_part_name name Hp) as (Hne & Hnul & _). rewrite bool_decide_eq_false_2 by done.
  rewrite (cstr_no_nul name) by done.
  pose proof (dir_command_short name cmd Hcmd) as Hl.
  assert (buffer_512 ("[ -d " ++ cstr root ++ "/" ++ name ++ " ]") = Some cmd) as ->.
  { unfold buffer_512. rewrite <- Hc. by rewrite (proj2 (Z.ltb_lt _ _)) by lia. }
  cbn [mbind option_bind]. rewrite Hp. cbn [negb]. rewrite Hc, test_dir_is.
  assert (is_Some (buffer_512 ("rm -rf " ++ cstr root ++ "/" ++ name))) as [c Hrm].
  { unfold buffer_512. rewrite Hc in Hl. rewrite !zlen_app in Hl. rewrite (proj2 (Z.ltb_lt _ _)); [done|]. rewrite !zlen_app.
    change (zlen ("[ -d " : str)) with 5 in Hl. change (zlen (" ]" : str)) with 2 in Hl. change (zlen ("rm -rf " : str)) with 7. lia. }
  destruct (mfind name h) as [d|] eqn:Ef; [|done]. cbn [Z.eqb negb]. rewrite Hrm. cbn [mbind option_bind].
  unfold shell_rm. rewrite Ef. done.
Qed.

(** ** Requests *)

Inductive bucket_request :=
| Req_create (user name : str) (acl : bytes) (cors : bool)
| Req_delete (name : str)
| Req_find (name : str).

Definition run_request (r : bucket_request) (h : host) : option (Z * host) :=
  match r with
  | Req_create user name acl cors => '(ret, _, _, h) ← create user name acl cors h; Some (ret, h)
  | Req_delete name => delete_bucket_execute root true name None h
  | Req_find name => '(ret, _, _, _) ← look_up h name RGWBucketInfo_new []; Some (ret, h)
  end.
Fixpoint run_requests (rs : list bucket_request) (h : host) : option (list Z * host) :=
  match rs with
  | [] => Some ([], h)
  | r :: rs => '(ret, h) ← run_request r h; '(rets, h) ← run_requests rs h; Some (ret :: rets, h)
  end.

(** The store the requests are to see: the buckets with their owners. *)
Definition spec_request (r : bucket_request) (m : gmap str (Z * Z)) : Z * gmap str (Z * Z) :=
  match r with
  | Req_create user name _ _ =>
      if bool_decide (is_Some (m !! name)) && negb (bool_decide (user = [])) then (- EEXIST, m)
      else match getpwnam user with
           | Some who => (0, <[name := who]> m)
           | None => (- ENOENT, <[name := (admin_ids.1, admin_gid)]> m)
           end
  | Req_delete name => match m !! name with None => (- ERR_NO_SUCH_BUCKET, m) | Some _ => (0, delete name m) end
  | Req_find name => (match m !! name with None => - ENOENT | Some _ => 0 end, m)
  end.
Fixpoint spec_requests (rs : list bucket_request) (m : gmap str (Z * Z)) : list Z * gmap str (Z * Z) :=
  match rs with
  | [] => ([], m)
  | r :: rs => let '(ret, m) := spec_request r m in let '(rets, m) := spec_requests rs m in (ret :: rets, m)
  end.

Definition request_name (r : bucket_request) : str :=
  match r with Req_create _ name _ _ | Req_delete name | Req_find name => name end.
Definition request_ok (r : bucket_request) : Prop :=
  name_ok (request_name r) ∧ is_Some (dir_command root (request_name r)) ∧
  match r with Req_create user _ _ _ => user_ok user | _ => True end.
Definition host_rel (h : host) (m : gmap str (Z * Z)) : Prop := host_ok h ∧ ∀ name, m !! name = bd_owner <$> mfind name h.

Lemma host_rel_set h m name d : host_rel h m → dir_ok d → host_rel (mset name d h) (<[name := bd_owner d]> m).
Proof.
  intros [Hh Hm] Hd. split; [by apply host_ok_set|]. intros n. destruct (decide (name = n)) as [->|Hne].
  - by rewrite lookup_insert_eq, mfind_mset_eq.
  - by rewrite lookup_insert_ne, mfind_mset_ne, Hm.
Qed.
Lemma host_rel_erase h m name : host_rel h m → host_rel (merase name h) (delete name m).
Proof.
  intros [Hh Hm]. split; [by apply host_ok_erase|]. intros n. destruct (decide (name = n)) as [->|Hne].
  - rewrite lookup_delete_eq, mfind_merase_eq; [done|apply Hh].
  - by rewrite lookup_delete_ne, mfind_merase_ne, Hm.
Qed.

Lemma put_result_rel user name h m :
  host_rel h m →
  let spec := match getpwnam user with
              | Some who => (0, <[name := who]> m)
              | None => (- ENOENT, <[name := (admin_ids.1, admin_gid)]> m)
              end in
  ∃ h', Some (fst (put_result user name h), snd (put_result user name h)) = Some (fst spec, h') ∧ host_rel h' (snd spec).
Proof.
  intros HR spec. exists (snd (put_result user name h)). rewrite put_result_ret. cbn [fst snd]. subst spec.
  split; [by destruct (getpwnam user)|]. unfold put_result. pose proof HR as [Hh _].
  destruct (mfind name h) as [d|] eqn:Hf, (getpwnam user) as [who|] eqn:Hw; cbn [snd].
  - apply (host_rel_set h m name (given who d)); [done|]. eapply given_ok; [done|by eapply host_ok_find].
  - apply (host_rel_set h m name (taken d)); [done|]. apply taken_ok. by eapply host_ok_find.
  - apply (host_rel_set h m name (owned who)); [done|]. by eapply owned_ok.
  - apply (host_rel_set h m name fresh); [done|apply fresh_ok].
Qed.

Lemma request_refines r h m :
  host_rel h m → request_ok r →
  ∃ h', run_request r h = Some (fst (spec_request r m), h') ∧ host_rel h' (snd (spec_request r m)).
Proof.
  intros HR (Hn & Hd & Hu). pose proof HR as [Hh Hm]. destruct r as [user name acl cors|name|name]; cbn [request_name] in *;
    cbn [run_request spec_request]; rewrite Hm.
  - destruct (create_bucket_spec user name acl cors h Hh Hu Hn Hd) as (info & v & ->). cbn [mbind option_bind].
    unfold create_spec. destruct (mfind name h) as [d|] eqn:Hf; cbn [fmap option_fmap option_map].
    + rewrite (bool_decide_eq_true_2 (is_Some _)) by done. cbn [andb]. case_bool_decide; cbn [negb]; [|by eexists].
      by apply put_result_rel.
    + rewrite (bool_decide_eq_false_2 (is_Some _)) by (by intros []). cbn [andb]. by apply put_result_rel.
  - rewrite delete_bucket_spec by (done || apply Hn). destruct (mfind name h) as [d|]; cbn [fmap option_fmap option_map fst snd];
      eexists; (split; [done|]); [by apply host_rel_erase|done].
  - destruct Hd as [cmd Hcmd]. pose proof (proj1 Hn) as Hp. destruct (mfind name h) as [d|] eqn:Ef.
    + rewrite (look_up_found h name cmd d) by done. by eexists.
    + rewrite (look_up_missing h name cmd) by done. by eexists.
Qed.

(** C11: Any sequence of requests that create, delete and look up buckets behaves
    as on a store that maps names to owners.  Creating a bucket that is not there
    makes it and gives it to the user's account or, where there is none, fails and
    leaves the bucket behind, the administrator's.  Creating one that is there
    is refused to every user that has a name, its owner too; a request without a
    user's name is not refused and takes the bucket away: it becomes that of
    the account of the empty name or, as there is none, the administrator's, and
    the request fails.  Deleting removes exactly what it names.  No step fails in
    any other way, for a process with every right, names of letters, digits and
    the like that the buffers of 256 bytes have room for, and directories whose
    owners have accounts. *)
Theorem bucket_requests_refine rs h m :
  host_rel h m → Forall request_ok rs →
  ∃ h', run_requests rs h = Some (fst (spec_requests rs m), h') ∧ host_rel h' (snd (spec_requests rs m)).
Proof.
  intros HR Hrs. revert h m HR. induction Hrs as [|r rs Hr Hrs IH]; intros h m HR; [by eexists|].
  cbn [run_requests spec_requests]. destruct (request_refines r h m HR Hr) as (h1 & -> & HR1). cbn [mbind option_bind].
  destruct (spec_request r m) as [ret m1]. cbn [fst snd] in *. destruct (IH h1 m1 HR1) as (h2 & -> & HR2).
  cbn [mbind option_bind]. destruct (spec_requests rs m1) as [rets m2]. by eexists.
Qed.
End host.

(** Accounts and handlers for examples: [joe] and the administrator. *)
Module Examples.
Definition pwnam (s : str) : option (Z * Z) :=
  if streq s "joe" then Some (1000, 100) else if streq s "root" then Some (0, 0) else None.
Definition pwuid (u : Z) : Z + str := if u =? 0 then inr ("root" : str) else if u =? 1000 then inr ("joe" : str) else inl ENOENT.
Definition grnam (s : str) : option Z := if streq s "root" then Some 0 else None.
Definition bucket_handler : @handler (option host) unit unit := pool_handler "bucket" bucket_pool_and_oid.
Definition instance_handler : @handler (option host) unit unit := pool_handler "bucket.instance" instance_pool_and_oid.
Definition run := run_requests "/srv" pwnam pwuid grnam (0, 0) 77 bucket_handler instance_handler.

Lemma pwuid_ok : ∀ u, match pwuid u with inl e => 0 < e | inr o => zlen o < 2 ^ 31 end.
Proof. intros u. unfold pwuid. repeat case_match; simplify_eq; by vm_compute. Qed.
Lemma pwnam_known : ∀ o who, pwnam o = Some who → known pwuid who.1.
Proof. intros o who. unfold pwnam, known, pwuid. repeat case_match; intros; simplify_eq; cbn; by eexists. Qed.

Ltac name_ok_solve :=
  first [reflexivity | eexists; vm_compute; reflexivity | exact Logic.I |
         discriminate | by apply (bool_decide_unpack _)].
End Examples.

Lemma bucket_requests_refine_witness :
  let rs := [Req_create "joe" "photos" [] false; Req_create "joe" "photos" [] false; Req_create "bob" "videos" [] false;
             Req_find "videos"; Req_create "" "photos" [] false; Req_delete "photos"; Req_find "photos"] in
  ∃ h', Examples.run rs [] = Some ([0; - EEXIST; - ENOENT; 0; - ENOENT; 0; - ENOENT], h') ∧
        host_rel Examples.pwuid h' (snd (spec_requests Examples.pwnam (0, 0) 0 rs ∅)).
Proof.
  intros rs.
  refine (bucket_requests_refine "/srv" Examples.pwnam Examples.pwuid Examples.grnam _ Examples.pwuid_ok
            (0, 0) 77 "root" (0, 0) 0 _ _ Examples.pwnam_known Examples.bucket_handler Examples.instance_handler
            _ _ rs [] ∅ _ _).
  - by apply (bool_decide_unpack _).
  - lia.
  - repeat split; reflexivity.
  - reflexivity.
  - reflexivity.
  - split; [split; [exact Logic.I|constructor]|]. intros name. apply lookup_empty.
  - subst rs. repeat (apply Forall_cons; split; [repeat split; Examples.name_ok_solve|]). by apply Forall_nil.
Defined.

(** A creation that fails for want of an account leaves the bucket behind: the
    next try, of whoever has one, is told that it exists. *)
Lemma failed_create_stays :
  Examples.run [Req_create "bob" "videos" [] false; Req_create "joe" "videos" [] false] [] =
    Some ([- ENOENT; - EEXIST], [("videos" : str, Mk_bucket_dir (0, 0) 77 (Some (0, 0)))]).
Proof. vm_compute. reflexivity. Qed.

(** A request without a user's name takes a bucket from its owner. *)
Lemma nameless_create_takes :
  Examples.run [Req_create "joe" "photos" [] false; Req_create "" "photos" [] false] [] =
    Some ([0; - ENOENT], [("photos" : str, Mk_bucket_dir (0, 0) 77 (Some (0, 0)))]).
Proof. vm_compute. reflexivity. Qed.

(** A process that may not give files away leaves a new bucket behind as well. *)
Lemma unprivileged_create_stays :
  let eperm (p : str) (who : Z * Z) := 1 in
  match create_bucket_execute "/srv" Examples.pwnam Examples.pwuid Examples.grnam (502, 502) true eperm 77
          Examples.bucket_handler Examples.instance_handler "joe" "photos" rgw_bucket_new RGWBucketInfo_new [] [] false [] with
  | Some (ret, _, _, h) => ret = -1 ∧ h = [("photos" : str, Mk_bucket_dir (502, 502) 77 (Some (502, 502)))]
  | None => False
  end.
Proof. vm_compute. done. Qed.

(** A name of 110 characters is valid, and too long for the commands' buffer. *)
Lemma long_name_overflows :
  let name : str := repeat "a"%char 110 in
  s3_validate_bucket_name name true = 0 ∧ is_Some (dir_command "/fisamba" name) ∧
  create_bucket_execute "/fisamba" Examples.pwnam Examples.pwuid Examples.grnam (0, 0) true privileged 77
    Examples.bucket_handler Examples.instance_handler "joe" name rgw_bucket_new RGWBucketInfo_new [] [] false [] = None.
Proof. vm_compute. split; [done|]. split; [by eexists|done]. Qed.

(** Asking for the statistics of a bucket always answers that it exists, as an error. *)
Lemma stat_bucket_fails e b : fst (stat_bucket_execute e b) = - EEXIST.
Proof. done. Qed.

(** Unlinking a bucket with its entry point returns what was in memory. *)
Lemma unlink_returns_junk junk user name h : rgw_unlink_bucket junk user name true h = junk.
Proof. done. Qed.

(** ** Listing *)

Lemma split_line (n r cur : str) :
  NL ∉ n → split_lines (n ++ NL :: r) cur false = (cur ++ n) :: split_lines r [] true.
Proof.
  revert cur. induction n as [|c n IH]; intros cur Hn; cbn [app split_lines].
  - unfold char_is. rewrite bool_decide_eq_true_2 by done. by rewrite app_nil_r.
  - rewrite not_elem_of_cons in Hn. destruct Hn as [Hc Hn]. unfold char_is. rewrite bool_decide_eq_false_2 by congruence.
    rewrite IH by done. by rewrite <- app_assoc.
Qed.

(** The lines of [ls], and an empty one behind the last newline. *)
Lemma split_ls (l : list str) b :
  Forall (λ n, n ≠ [] ∧ (NL ∉ n)) l → split_lines (concat (map (λ n, n ++ [NL]) l)) [] b = l ++ [[]].
Proof.
  intros Hl. revert b. induction Hl as [|n l [Hne Hn] _ IH]; intros b; [done|].
  destruct n as [|c n]; [done|]. rewrite not_elem_of_cons in Hn. destruct Hn as [Hc Hn].
  cbn [map concat]. rewrite <- app_assoc. cbn [app split_lines].
  unfold char_is at 1. rewrite bool_decide_eq_false_2 by congruence.
  change ([c]) with ([] ++ [c]) at 1. rewrite (split_line n _ [c]) by done. by rewrite IH.
Qed.

Section listing.
Context (root : str) (ls_order : list str → list str) (ctime : Z).
Hypothesis Hls : ∀ l, ls_order l ≡ₚ l.
Hypothesis Hbuf : is_Some (buffer_512 ("ls " ++ cstr root)).

Definition listed (name : str) : str * RGWBucketEnt := (name, bucket_ent_of (listed_entry ctime name)).

Lemma add_all l : ∀ m,
  msorted m → NoDup l → (∀ n, n ∈ l → mfind n m = None) →
  msorted (fold_left buckets_add (map (listed_entry ctime) l) m) ∧
  fold_left buckets_add (map (listed_entry ctime) l) m ≡ₚ map listed l ++ m.
Proof.
  induction l as [|n l IH]; intros m Hs Hnd Hf; [done|]. apply NoDup_cons in Hnd as [Hn Hnd].
  cbn [map fold_left]. set (m1 := buckets_add m (listed_entry ctime n)).
  assert (Hm1 : m1 = mset n (snd (listed n)) m) by done.
  destruct (IH m1) as [H1 H2].
  - rewrite Hm1. by apply mset_sorted.
  - done.
  - intros k Hk. rewrite Hm1, mfind_mset_ne by (intros ->; done). apply Hf. by apply elem_of_cons; right.
  - split; [done|]. rewrite H2, Hm1, mset_fresh by (apply Hf; by apply elem_of_cons; left).
    cbn [app]. symmetry. apply Permutation_middle.
Qed.

(** The buckets of a host, as [ls] shows them. *)
Definition shown_names (h : host) : list str := List.filter shown (map fst h).
Definition listable (h : host) : Prop :=
  msorted h ∧ Forall (λ p, plain_part p.1 = true) h ∧ shown_names h ≠ [] ∧ zlen (ls_root ls_order h) < 512.

Lemma sorted_names (h : host) : msorted h → NoDup (map fst h).
Proof.
  induction h as [|[n d] h IH]; [by constructor|]. intros [Hlt Hs]. cbn [map fst]. apply NoDup_cons. split; [|by apply IH].
  intros Hin. apply list_elem_of_In, in_map_iff in Hin as (p & Hp & Hin). rewrite Forall_forall in Hlt.
  apply list_elem_of_In, Hlt in Hin. rewrite Hp, compare_refl in Hin. done.
Qed.

Lemma shown_names_plain h : listable h → NoDup (shown_names h) ∧ ∀ n, n ∈ shown_names h → plain_part n = true.
Proof.
  intros (Hs & Hp & _). split.
  - apply NoDup_ListNoDup, List.NoDup_filter, NoDup_ListNoDup. by apply sorted_names.
  - intros n [Hn _]%list_elem_of_In%filter_In. apply in_map_iff in Hn as ([k d] & <- & Hin). rewrite Forall_forall in Hp.
    by apply (Hp (k, d)), list_elem_of_In.
Qed.

Lemma plain_no_newline n : plain_part n = true → n ≠ [] ∧ (NL ∉ n) ∧ (NUL ∉ n).
Proof.
  intros H. destruct (plain_part_name n H) as (Hne & Hnul & _). split; [done|]. split; [|done].
  unfold plain_part in H. repeat apply andb_true_iff in H as [H ?H]. rewrite forallb_forall in H0.
  intros Hin%list_elem_of_In%H0. by vm_compute in Hin.
Qed.

(** What one reading of the list gives. *)
Lemma read_buckets junk user marker max h :
  listable h →
  ∃ m, rgw_read_user_buckets root ls_order ctime junk user marker max 0 h = Some (0, m) ∧
       msorted m ∧ m ≡ₚ map listed ([] :: shown_names h).
Proof.
  intros Hh. pose proof Hh as (_ & _ & Hne & Hlen). destruct (shown_names_plain h Hh) as [Hnd Hpl].
  set (l := ls_order (shown_names h)). assert (Hl : l ≡ₚ shown_names h) by apply Hls.
  assert (Hlines : Forall (λ n, n ≠ [] ∧ (NL ∉ n)) l).
  { apply Forall_forall. intros n Hn. rewrite Hl in Hn. destruct (plain_no_newline n (Hpl n Hn)) as (? & ? & _). done. }
  assert (Hout : ls_root ls_order h = concat (map (λ n, n ++ [NL]) l)) by done.
  assert (Hnul : NUL ∉ ls_root ls_order h).
  { rewrite Hout. intros Hin. apply list_elem_of_In, in_concat in Hin as (x & Hx & Hin).
    apply in_map_iff in Hx as (n & <- & Hn). apply list_elem_of_In in Hn. rewrite Hl in Hn.
    destruct (plain_no_newline n (Hpl n Hn)) as (_ & _ & Hz).
    apply in_app_iff in Hin as [Hin|[Hin|[]]]; [apply Hz; by apply list_elem_of_In|done]. }
  destruct (add_all (l ++ [[]]) []) as [Hs Hp].
  - done.
  - apply NoDup_app. split; [by rewrite Hl|]. split; [|apply NoDup_singleton].
    intros n Hn ->%list_elem_of_singleton. rewrite Hl in Hn. by destruct (plain_no_newline [] (Hpl _ Hn)).
  - done.
  - exists (fold_left buckets_add (map (listed_entry ctime) (l ++ [[]])) []). split; [|split; [done|]].
    + unfold rgw_read_user_buckets, cls_user_list_buckets, cls_user_bucket_list. destruct Hbuf as [c ->]. cbn [mbind option_bind].
      unfold shell_execute. rewrite (proj2 (Z.ltb_lt _ _) Hlen), cstr_no_nul by done. cbn [mbind option_bind].
      rewrite bool_decide_eq_false_2.
      * rewrite Hout, split_ls by done. cbn [mbind option_bind default]. done.
      * rewrite Hout. destruct l as [|n l']; [by apply Permutation_nil_l in Hl|]. cbn [map concat]. by destruct n.
    + rewrite Hp, app_nil_r. apply Permutation_map. rewrite Hl. symmetry. apply Permutation_cons_append.
Qed.

(** The names take two bytes of output each, so there are at most 255. *)
Lemma few_names h : listable h → 2 * Z.of_nat (length (shown_names h)) <= zlen (ls_root ls_order h).
Proof.
  intros Hh. destruct (shown_names_plain h Hh) as [_ Hpl].
  change (ls_root ls_order h) with (concat (map (λ n, n ++ [NL]) (ls_order (shown_names h)))).
  pose proof (Hls (shown_names h)) as Hl. rewrite <- (Permutation_length Hl). set (l := ls_order _) in *.
  assert (Hne : Forall (λ n : str, n ≠ []) l).
  { apply Forall_forall. intros n Hn. rewrite Hl in Hn. by destruct (plain_no_newline n (Hpl n Hn)). }
  clearbody l. clear Hl. induction Hne as [|n l Hn _ IH]; [done|]. cbn [map concat length].
  rewrite !zlen_app. change (zlen [NL]) with 1. destruct n; [done|]. rewrite zlen_cons. pose proof (zlen_nonneg n). lia.
Qed.

(** C26: Listing the buckets of a root that has at least one bucket whose name
    does not begin with a dot, where all names are plain, the output of [ls] is
    shorter than 512 bytes and the command fits its buffer.  It ends after one
    page when the configured chunk is above 256, and the page holds exactly the
    buckets below the root whose names do not begin with a dot, whoever owns
    them and whoever asks, with one time for all, and an entry with an empty
    name; with a chunk of at most as many entries, such as 0, the same page is
    read and sent for ever. *)
Theorem list_buckets_spec junk user chunk h :
  listable h → 0 <= chunk < 2 ^ 31 →
  (256 < chunk →
   ∃ st m, (∀ fuel, list_buckets_execute root ls_order ctime (S fuel) junk user chunk h = Some (0, st)) ∧
           lb_pages st = [m] ∧ msorted m ∧ m ≡ₚ map listed ([] :: shown_names h)) ∧
  (chunk <= Z.of_nat (S (length (shown_names h))) →
   ∀ fuel, list_buckets_execute root ls_order ctime fuel junk user chunk h = None).
Proof.
  intros Hh Hc. pose proof (few_names h Hh) as Hfew. pose proof Hh as (_ & _ & _ & Hlen).
  assert (Hu : u64 chunk = chunk) by (apply Z.mod_small; lia).
  split.
  - intros Hbig. destruct (read_buckets junk user [] chunk h Hh) as (m & Hm & Hs & Hp).
    assert (Hml : length m = S (length (shown_names h))) by (rewrite Hp; cbn [map length]; by rewrite length_map).
    exists (add_page m (Mk_list_buckets_st 0 0 0 0 [] [])), m. split; [|split; [|done]].
    + intros fuel. unfold list_buckets_execute. rewrite Hu. cbn [list_buckets_loop lb_marker]. change (-1 >=? 0) with false. cbn iota.
      rewrite Hm. cbn [mbind option_bind]. change (0 <? 0) with false. cbn iota.
      rewrite (proj2 (Z.ltb_lt (Z.of_nat (length m)) chunk)) by lia. done.
    + cbn [add_page lb_pages]. destruct m; [by cbn in Hml|done].
  - intros Hsmall fuel. unfold list_buckets_execute. rewrite Hu. generalize 0 at 1. generalize (Mk_list_buckets_st 0 0 0 0 [] []).
    induction fuel as [|fuel IH]; intros st total; [done|]. cbn [list_buckets_loop]. change (-1 >=? 0) with false. cbn iota.
    destruct (read_buckets junk user (lb_marker st) chunk h Hh) as (m & -> & _ & Hp). cbn [mbind option_bind].
    assert (Hml : length m = S (length (shown_names h))) by (rewrite Hp; cbn [map length]; by rewrite length_map).
    change (0 <? 0) with false. cbn iota.
    rewrite (proj2 (Z.ltb_ge (Z.of_nat (length m)) chunk)) by lia. cbn [orb andb]. apply IH.
Qed.

(** With no bucket at all the answer is what was in memory. *)
Lemma list_empty_junk junk user chunk fuel :
  0 < chunk < 2 ^ 31 → ls_order [] = [] →
  match list_buckets_execute root ls_order ctime (S fuel) junk user chunk [] with
  | Some (ret, _) => ret = if (junk <? 0) && negb (junk =? - ENOENT) then junk else 0
  | None => False
  end.
Proof.
  intros Hc Hn. unfold list_buckets_execute. assert (u64 chunk = chunk) as -> by (apply Z.mod_small; lia).
  cbn [list_buckets_loop]. change (-1 >=? 0) with false. cbn iota.
  unfold rgw_read_user_buckets, cls_user_list_buckets, cls_user_bucket_list. destruct Hbuf as [c ->]. cbn [mbind option_bind].
  unfold ls_root. cbn [map List.filter]. rewrite Hn. cbn [map concat]. unfold shell_execute.
  change (zlen [] <? 512) with true. cbn [cstr mbind option_bind]. rewrite bool_decide_eq_true_2 by done.
  cbn [mbind option_bind default].
  destruct (Z.ltb_spec junk 0) as [Hj|Hj].
  - destruct (Z.eqb_spec junk (- ENOENT)) as [->|Hne]; cbn [negb andb].
    + change (- ENOENT <? 0) with true. cbn iota. change (0 <? 0) with false. cbn [fold_left mbind option_bind]. change (0 <? 0) with false. cbn iota. change (Z.of_nat (length [])) with 0.
      rewrite (proj2 (Z.ltb_lt 0 chunk)) by lia. done.
    + repeat first [rewrite (proj2 (Z.eqb_neq _ _) Hne) | rewrite (proj2 (Z.ltb_lt junk 0)) by lia |
        progress cbn [mbind option_bind] | progress cbn iota]; done.
  - cbn [andb]. cbn iota. change (0 =? - ENOENT) with false. cbn iota. change (0 <? 0) with false. cbn iota.
    cbn [fold_left map mbind option_bind]. change (0 <? 0) with false. cbn iota. change (Z.of_nat (length [])) with 0.
    by rewrite (proj2 (Z.ltb_lt 0 chunk)) by lia.
Qed.
End listing.

Lemma list_buckets_spec_witness :
  let h : host := [("photos" : str, Mk_bucket_dir (1000, 100) 77 (Some (1000, 100))); ("videos" : str, Mk_bucket_dir (0, 0) 78 None)] in
  let list chunk fuel := list_buckets_execute "/srv" id 5 fuel 0 "ann" chunk h in
  (∃ st m, (∀ fuel, list 1000 (S fuel) = Some (0, st)) ∧ lb_pages st = [m] ∧ msorted m ∧
           m ≡ₚ map (listed 5) ["" : str; "photos" : str; "videos" : str]) ∧
  (∀ fuel, list 0 fuel = None).
Proof.
  intros h list.
  assert (Hb : is_Some (buffer_512 ("ls " ++ cstr "/srv"))) by by eexists.
  assert (Hh : listable id h).
  { split; [by apply (bool_decide_unpack _) || (vm_compute; repeat constructor)|].
    split; [repeat (apply Forall_cons; split; [reflexivity|]); by apply Forall_nil|]. split; [discriminate|reflexivity]. }
  split.
  - refine (proj1 (list_buckets_spec "/srv" id 5 (λ l, Permutation_refl l) Hb 0 "ann" 1000 h Hh _) _); lia.
  - refine (proj2 (list_buckets_spec "/srv" id 5 (λ l, Permutation_refl l) Hb 0 "ann" 0 h Hh _) _); vm_compute; [split|]; discriminate || reflexivity.
Defined.
