(* ===== verification/BucketMeta.v ===== *)
(** * The metadata handlers of buckets ([src/src/rgw/porting_bucket.cc])

    [RGWBucketMetadataHandler] and [RGWBucketInstanceMetadataHandler], which the
    metadata manager ([Metadata]) dispatches to, over the directories of [BucketOps].
    What the JSON reader makes of a document is a parameter, [None] where it throws. *)

From stdpp Require Import gmap.
From S2P Require Import Prelude StdMap Encoding Utime ClsRgwTypes CString Env Strtol Acl RgwObj ObjectCache Records Http.
From S2P Require Import Errors Rest SysInfo Formatter FormatterFacts Listing Ops OpsFacts Metadata Lookup LookupFacts ClsUser.
From S2P Require Import BucketOps BucketOpsFacts.
#[local] Open Scope Z_scope.
#[local] Open Scope str_scope.

Definition STATUS_NO_APPLY : Z := 1905.
Definition STATUS_APPLIED : Z := 1906.

(** [encode_json] of a flag; the [dump] of a bucket and of a bucket's record
    have empty bodies. *)
Definition bool_leaf (name : str) (b : bool) : item := Leaf name (String (if b then "true" else "false")).
Definition entry_items (e : RGWBucketEntryPoint) : list item :=
  [Section_ false Plain "bucket" []; Leaf "owner" (String (ep_owner e)); Leaf "creation_time" (Int (ep_creation_time e));
   bool_leaf "linked" (ep_linked e); bool_leaf "has_bucket_info" (ep_has_bucket_info e)] ++
  (if ep_has_bucket_info e then [Section_ false Plain "old_bucket_info" []] else []).

(** [RGWBucketInstanceMetadataHandler::get_hash_key] *)
Definition instance_hash_key (section key : str) : str :=
  let k := match find_if (char_is ":") key with None => key | Some pos => substr 0 pos key end in
  "bucket:" ++ k.

Section handlers.
Context (root : str) (getpwnam : str → option (Z * Z)) (getpwuid : Z → Z + str) (getgrnam : str → option Z).
Context (self : Z * Z) (root_writable : bool) (chown_errno : str → Z * Z → Z) (now : Z).
Context {J : Type} (json_entry : J → option RGWBucketEntryPoint) (json_info : J → option (RGWBucketInfo * list (str * bytes))).
(** What is in a variable that is read before it is set: a time, a result, a flag. *)
Context (junk_time junk : Z) (junk_truncated : bool).

#[local] Abbreviation base_bucket := (@pool_handler unit J "bucket" bucket_pool_and_oid).
#[local] Abbreviation base_instance := (@pool_handler unit J "bucket.instance" instance_pool_and_oid).
#[local] Abbreviation entry_info h := (get_bucket_entrypoint_info root (test_dir root h) (stat_dir root h) getpwuid).

(** ** Entry points *)

(** Neither the version nor the time is read. *)
Definition bucket_get (h : host) (entry : str) : option (Z + metadata_object) :=
  '(ret, be) ← entry_info h entry RGWBucketEntryPoint_new;
  Some (if ret <? 0 then inl ret else inr (MetadataObject obj_version_new junk_time (entry_items be))).

Definition bucket_put (h : host) (entry : str) (objv_tracker : RGWObjVersionTracker) (mtime : Z) (obj : J) (sync : sync_type)
    : option (Z * RGWObjVersionTracker * host) :=
  be ← json_entry obj;
  '(ret, _) ← entry_info h entry RGWBucketEntryPoint_new;
  if (ret <? 0) && negb (ret =? - ENOENT) then Some (ret, objv_tracker, h)
  else if negb (ret =? - ENOENT) &&
          negb (check_versions obj_version_new junk_time (vt_write_version objv_tracker) mtime sync)
       then Some (STATUS_NO_APPLY, objv_tracker, h)
  else
    let t := Mk_tracker obj_version_new (vt_write_version objv_tracker) in
    let '(ret, t, s) := put_bucket_entrypoint_info root getpwnam getpwuid getgrnam self root_writable chown_errno now base_bucket
                          entry be false t mtime (Some []) (Some h) in
    h ← s;
    if ret <? 0 then Some (ret, t, h)
    else if ep_linked be then
      '(ret, h) ← rgw_link_bucket root getpwnam getpwuid getgrnam self root_writable chown_errno now base_bucket
                    junk (ep_owner be) (ep_bucket be) (ep_creation_time be) false h;
      Some (ret, t, h)
    else Some (rgw_unlink_bucket junk (ep_owner be) (bk_name (ep_bucket be)) false h, t, h).

(** Nothing is removed: neither unlinking nor removing the entry does anything. *)
Definition bucket_remove (h : host) (entry : str) (objv_tracker : RGWObjVersionTracker) : option (Z * host) :=
  '(ret, be) ← entry_info h entry RGWBucketEntryPoint_new;
  if ret <? 0 then Some (ret, h)
  else
    let ret := rgw_unlink_bucket junk (ep_owner be) entry false h in
    let '(ret, _) := remove_entry base_bucket entry (Some objv_tracker) in
    Some (0, h).

(** ** Instances *)

Definition get_bucket_instance_info (h : host) (meta_key : str) (info : RGWBucketInfo) : option (Z * RGWBucketInfo) :=
  match find_if (char_is ":") meta_key with
  | None => Some (- EINVAL, info)
  | Some _ => get_bucket_instance_from_oid root (test_dir root h) (RGW_BUCKET_INSTANCE_MD_PREFIX ++ meta_key) info
  end.

(** [RGWBucketCompleteInfo::dump]: the attributes are never read. *)
Definition instance_get (h : host) (oid : str) : option (Z + metadata_object) :=
  '(ret, info) ← get_bucket_instance_info h oid RGWBucketInfo_new;
  Some (if ret <? 0 then inl ret
        else inr (MetadataObject (vt_read_version (bi_objv_tracker info)) junk_time
                    [Section_ false Plain "bucket_info" []; Section_ true Plain "attrs" []])).

Definition info_set_pools (data index : str) (i : RGWBucketInfo) : RGWBucketInfo :=
  let b := bi_bucket i in
  info_set_bucket (Mk_rgw_bucket (bk_name b) data (bk_data_extra_pool b) index (bk_marker b) (bk_bucket_id b) (bk_oid b)) i.

Definition instance_put (h : host) (oid : str) (objv_tracker : RGWObjVersionTracker) (mtime : Z) (obj : J) (sync : sync_type)
    : option (Z * RGWObjVersionTracker * host) :=
  '(info, attrs) ← json_info obj;
  '(ret, old) ← get_bucket_instance_info h oid RGWBucketInfo_new;
  let exists_ := negb (ret =? - ENOENT) in
  if (ret <? 0) && exists_ then Some (ret, objv_tracker, h)
  else
    let info := if negb exists_ || negb (streq (bk_bucket_id (bi_bucket old)) (bk_bucket_id (bi_bucket info)))
                then info_set_pools [] [] info
                else info_set_pools (bk_data_pool (bi_bucket old)) (bk_index_pool (bi_bucket old)) info in
    let old_read := vt_read_version (bi_objv_tracker old) in
    if exists_ && negb (check_versions old_read junk_time (vt_write_version objv_tracker) mtime sync)
    then Some (STATUS_NO_APPLY, Mk_tracker old_read (vt_write_version objv_tracker), h)
    else
      let info := info_set_tracker (Mk_tracker old_read (vt_write_version objv_tracker)) info in
      let '(ret, info, s) := put_bucket_instance_info root getpwnam getpwuid getgrnam self root_writable chown_errno now
                               base_instance info false mtime (Some attrs) (Some h) in
      h ← s;
      if ret <? 0 then Some (ret, objv_tracker, h) else Some (STATUS_APPLIED, bi_objv_tracker info, h).

Definition instance_remove (h : host) (entry : str) (objv_tracker : RGWObjVersionTracker) : option (Z * host) :=
  '(ret, info) ← get_bucket_instance_info h entry RGWBucketInfo_new;
  if (ret <? 0) && negb (ret =? - ENOENT) then Some (ret, h)
  else let '(ret, _) := remove_entry base_instance entry (Some (bi_objv_tracker info)) in Some (ret, h).

(** ** As handlers

    A process that is gone has no result; 0 stands for it, and the store says
    so.  Listing is disabled: there are no keys, and whether there are more is not set. *)

Definition get_of (f : host → str → option (Z + metadata_object)) (s : option host) (key : str) : Z + metadata_object :=
  default (inl 0) (h ← s; f h key).
Definition put_of (f : host → str → RGWObjVersionTracker → Z → J → sync_type → option (Z * RGWObjVersionTracker * host))
    (s : option host) (key : str) (t : RGWObjVersionTracker) (mtime : Z) (obj : J) (sync : sync_type)
    : Z * RGWObjVersionTracker * option host :=
  match (h ← s; f h key t mtime obj sync) with
  | Some (ret, t, h) => (ret, t, Some h)
  | None => (0, t, None)
  end.
Definition remove_of (f : host → str → RGWObjVersionTracker → option (Z * host)) (s : option host) (key : str)
    (t : RGWObjVersionTracker) : Z * option host :=
  lift (λ h, f h key t) s.

Definition RGWBucketMetadataHandler : @handler (option host) unit J :=
  Handler "bucket" (get_of bucket_get) (put_of bucket_put) (remove_of bucket_remove) (λ _ key, bucket_pool_and_oid key)
    (λ _, inr tt) (λ i _, (0, [], junk_truncated, i)).
Definition RGWBucketInstanceMetadataHandler : @handler (option host) unit J :=
  Handler "bucket.instance" (get_of instance_get) (put_of instance_put) (remove_of instance_remove)
    (λ _ key, instance_pool_and_oid key) (λ _, inr tt) (λ i _, (0, [], junk_truncated, i)).

Definition rgw_bucket_init (mm : list (str * @handler (option host) unit J)) : list (str * @handler (option host) unit J) :=
  snd (register_handler RGWBucketInstanceMetadataHandler (snd (register_handler RGWBucketMetadataHandler mm))).

(** ** Theorems *)

(** [put_entry] looks at nothing of a handler but its type and its pools, so the
    handlers above and those they are defined with put the same entries. *)
Lemma put_entry_pool {S I} put pool (h1 h2 : @handler S I J) key bl x t mt a s :
  h_type h1 = h_type h2 → (∀ s, h_get_pool_and_oid h1 s key = h_get_pool_and_oid h2 s key) →
  put_entry put pool h1 key bl x t mt a s = put_entry put pool h2 key bl x t mt a s.
Proof.
  intros Ht Hp. unfold put_entry, pre_modify. rewrite Ht, Hp.
  destruct (add_entry _ _ _ <? 0); done.
Qed.

(** The entry point and the instances of a bucket go to one shard of the log. *)
Lemma one_log_shard name id : (":"%char ∉ name) → instance_hash_key "bucket.instance" (name ++ ":" ++ id) = get_hash_key "bucket" name.
Proof.
  intros Hn. unfold instance_hash_key, get_hash_key.
  pose proof (parse_key name id [] Hn) as Hk. unfold parse_metadata_key in Hk.
  destruct (find_if (char_is ":") (name ++ ":" ++ id)) as [pos|]; injection Hk as Hk _;
    change ("bucket" ++ ":" ++ name) with ("bucket:" ++ name); f_equal; exact Hk.
Qed.

(** Removing the metadata of a bucket reports success and leaves the bucket. *)
Lemma bucket_remove_keeps h entry t ret h' : bucket_remove h entry t = Some (ret, h') → h' = h ∧ ret <= 0.
Proof.
  unfold bucket_remove. destruct (entry_info h entry RGWBucketEntryPoint_new) as [[r be]|]; [|done]. cbn [mbind option_bind].
  destruct (Z.ltb_spec r 0); [intros [= <- <-]; split; [done|lia]|].
  destruct (remove_entry _ _ _). by intros [= <- <-].
Qed.

Hypothesis Hpw : ∀ u, match getpwuid u with inl e => 0 < e | inr o => zlen o < 2 ^ 31 end.
Hypothesis Hroot : NUL ∉ root.

(** The instance of a bucket that is not there cannot be put: what the shell
    returned is taken for the error, and only ENOENT would say that it is missing. *)
Lemma instance_put_new_fails h name id t mtime obj sync cmd info :
  plain_part name = true → dir_command root name = Some cmd → mfind name h = None →
  json_info obj = Some info →
  instance_put h (name ++ ":" ++ id) t mtime obj sync = Some (-256, t, h).
Proof.
  intros Hp Hcmd Hf Hj. pose proof (plain_part_name name Hp) as Hpn. pose proof Hpn as (Hne & Hnul & Hcol).
  unfold instance_put. rewrite Hj. destruct info as [info attrs]. cbn [mbind option_bind].
  unfold get_bucket_instance_info.
  assert (find_if (char_is ":") (name ++ ":" ++ id) = Some (length name)) as ->.
  { apply find_if_app; [|done]. apply Forall_forall. intros d Hd. unfold char_is. apply bool_decide_eq_false. intros ->. done. }
  unfold get_bucket_instance_from_oid.
  assert (scan_oid (RGW_BUCKET_INSTANCE_MD_PREFIX ++ name ++ ":" ++ id) = name) as ->.
  { unfold scan_oid. 
    assert (cstr (RGW_BUCKET_INSTANCE_MD_PREFIX ++ name ++ ":" ++ id) = RGW_BUCKET_INSTANCE_MD_PREFIX ++ name ++ ":"%char :: cstr id) as ->.
    { unfold RGW_BUCKET_INSTANCE_MD_PREFIX. cbn. do 13 f_equal. clear -Hnul. induction name as [|c name IH]; [done|].
      rewrite not_elem_of_cons in Hnul. destruct Hnul as [Hc Hn]. cbn [app cstr]. by rewrite decide_False, IH. }
    assert (Hspan : span (not_char ":") (name ++ ":"%char :: cstr id) = (name, ":"%char :: cstr id)).
    { apply span_all; [|done]. apply forallb_forall. intros c Hc. unfold not_char, char_is.
      apply negb_true_iff, bool_decide_eq_false. intros ->. apply Hcol. by apply list_elem_of_In. }
    revert Hspan. generalize (name ++ ":"%char :: cstr id). intros r Hspan.
    change (fst (span (not_char ":") r) = name). by rewrite Hspan. }
  assert (Hlen : zlen name < 256).
  { pose proof (command_name root name cmd Hcmd) as H. by rewrite cstr_no_nul in H. }
  rewrite (proj2 (Z.ltb_lt _ _) Hlen). cbn [negb]. rewrite Hcmd. cbn [mbind option_bind].
  rewrite (dir_command_is root name cmd), test_dir_is, Hf by done. done.
Qed.
End handlers.

(** ** Through the manager *)

Section manager.
Context (root : str) (getpwnam : str → option (Z * Z)) (getpwuid : Z → Z + str) (getgrnam : str → option Z).
Context (self : Z * Z) (now : Z) (admin : str) (admin_ids : Z * Z) (admin_gid : Z).
Hypothesis Hroot : NUL ∉ root.
Hypothesis Hpw : ∀ u, match getpwuid u with inl e => 0 < e | inr o => zlen o < 2 ^ 31 end.
Hypothesis Hadmin : getpwuid 0 = inr admin ∧ getpwnam admin = Some admin_ids ∧ getgrnam admin = Some admin_gid.
Context {J : Type} (json_entry : J → option RGWBucketEntryPoint) (json_info : J → option (RGWBucketInfo * list (str * bytes))).
Context (junk_time junk : Z) (junk_truncated : bool).
Context (json_parse : str → option J) (json_ver : J → option obj_version) (json_mtime : J → option Z)
        (json_key : J → option str) (json_data : J → option J).

#[local] Abbreviation registry := (rgw_bucket_init root getpwnam getpwuid getgrnam self true privileged now json_entry json_info
  junk_time junk junk_truncated []).
#[local] Abbreviation put := (manager_put json_parse json_ver json_mtime json_key json_data).

Lemma find_bucket_handler name :
  find_handler ("bucket:" ++ name) registry =
    inr (Registered (RGWBucketMetadataHandler root getpwnam getpwuid getgrnam self true privileged now json_entry junk_time junk
                       junk_truncated), name).
Proof. unfold find_handler. change ("bucket:" ++ name) with ("bucket" ++ ":" ++ name). rewrite parse_key; [done|]. by apply (bool_decide_unpack _). Qed.

(** Putting the metadata of a bucket that is not there makes the bucket, through
    the dispatcher, the handler and the store, and gives it to the owner the
    document names. *)
Lemma metadata_put_creates text j data k ver mtime ct sync user name who h cmd :
  json_parse text = Some j → json_key j = Some k → json_ver j = Some ver → json_mtime j = Some mtime →
  json_data j = Some data → json_entry data = Some (made_entry ct user name) →
  host_ok getpwuid h → user_ok user → name_ok root admin name → dir_command root name = Some cmd →
  - 2 ^ 63 <= ct < 2 ^ 63 → mfind name h = None → getpwnam user = Some who →
  put ("bucket:" ++ name) text sync registry (Some h) =
    Some (0, Some obj_version_new, Some (mset name (owned now who) h)).
Proof.
  intros Hp Hk Hv Hm Hd He Hh Hu Hn Hcmd Hct Hf Hw. unfold manager_put. rewrite find_bucket_handler, Hp, Hk, Hv, Hm, Hd.
  cbn [mbind option_bind which_put h_put RGWBucketMetadataHandler]. unfold put_of. cbn [mbind option_bind].
  pose proof (proj1 Hn) as Hpl. pose proof (name_short root admin name Hn) as Hlen.
  unfold bucket_put. rewrite He. cbn [mbind option_bind].
  destruct (entry_missing root (test_dir root h) (stat_dir root h) getpwuid (stat_errors root getpwuid h Hh) Hpw name cmd ENOENT) as [-> _].
  { done. }
  { unfold LookupFacts.bucket_dir. by rewrite (dir_command_is root name cmd), test_dir_is, Hf. }
  cbn [mbind option_bind]. change (- ENOENT <? 0) with true. change (- ENOENT =? - ENOENT) with true. cbn [andb negb].
  unfold put_bucket_entrypoint_info, rgw_bucket_store_info.
  destruct (key_bucket_plain name [] Hpl) as [_ Hkey]. rewrite Hkey, (proj2 (Z.ltb_lt _ _) Hlen). cbn [negb].
  destruct (made_entry_decodes ct Hct user name Hu Hlen) as (e & it & Hdec & Hen & Heo).
  rewrite (put_meta_is root getpwnam getpwuid getgrnam self now admin admin_ids admin_gid Hadmin
             (@pool_handler unit J "bucket" bucket_pool_and_oid) _ _ _ _ _ _ h e it name user);
    [|intros s; exact Hkey|done|done|done|done|apply Hu|done].
  unfold put_result. rewrite Hf, Hw. cbn [default mbind option_bind]. change (0 <? 0) with false. cbn iota.
  change (ep_linked (made_entry ct user name)) with true. cbn iota.
  unfold rgw_link_bucket. cbn [mbind option_bind].
  unfold cls_user_add_bucket, cls_user_update_buckets, cls_user_set_buckets.
  assert (Hb : ∀ c : str, zlen c < 512 → buffer_512 c = Some c) by (intros c Hc; unfold buffer_512; by rewrite (proj2 (Z.ltb_lt _ _) Hc)).
  assert (Hroot_len : zlen (cstr root) + zlen name < 248).
  { pose proof (dir_command_short root name cmd Hcmd) as E. rewrite (dir_command_is root name cmd Hpl Hcmd), !zlen_app in E.
    change (zlen ("[ -d " : str)) with 5 in E. change (zlen ("/" : str)) with 1 in E. change (zlen (" ]" : str)) with 2 in E. lia. }
  pose proof (zlen_nonneg name). pose proof (zlen_nonneg (cstr root)).
  rewrite Hb by (rewrite zlen_app; change (zlen ("mkdir " : str)) with 6; lia). cbn [mbind option_bind set_buckets_loop].
  change (ub_name (ue_bucket _)) with name. rewrite (cstr_no_nul name) by apply (plain_part_name name Hpl).
  rewrite Hb by (rewrite !zlen_app; change (zlen ("mkdir -m 777 " : str)) with 13; change (zlen ("/" : str)) with 1; lia).
  cbn [mbind option_bind]. rewrite Hpl. cbn [negb]. unfold mkdir_777. rewrite mfind_mset_eq.
  cbn [set_buckets_loop mbind option_bind]. change (0 <? 0) with false. cbn iota. done.
Qed.
End manager.
