(* ===== verification/Globals.v ===== *)
(** * The gateway's configuration ([src/src/global/global.cc], [src/src/rgw/rgw_main.cc])

    The settings of the process, their defaults, the callback that the
    reader of configuration files ([SysInfo.parse_conf]) hands each of them
    to, and what such a file is: settings and comments on lines of their own. *)

From S2P Require Import Prelude StdMap CString Env Strtol SysInfo.
#[local] Open Scope Z_scope.
#[local] Open Scope str_scope.

(** The fields a file can set, and the host's name. *)
Record globals := Mk_globals {
  g_hostname : str;
  g_logFileSize : Z; g_rgw_thread_pool_size : Z; g_rgw_list_buckets_max_chunk : Z; g_rgw_relaxed_s3_bucket_names : bool;
  g_buckets_root : str; g_sys_user_bucket_root : str; g_rgw_max_chunk_size : Z; g_rgw_max_put_size : Z;
  g_server_uid : Z; g_user_name : str; g_group_name : str; g_rgw_s3_auth_use_rados : bool; g_rgw_expose_bucket : bool;
  g_rgw_cache_lru_size : Z; g_rgw_num_rados_handles : Z; g_rgw_cache_enabled : bool;
  g_rgw_bucket_default_quota_max_objects : Z; g_rgw_bucket_default_quota_max_size : Z;
  g_rgw_user_default_quota_max_objects : Z; g_rgw_user_default_quota_max_size : Z;
  g_rgw_multipart_min_part_size : Z; g_rgw_multipart_part_upload_limit : Z
}.

(** [globals::init]; [buckets_root] and the two sizes it does not set are those
    of a global variable. *)
Definition globals_init : globals :=
  Mk_globals [] 0 0 0 true [] [] 0 0 0 [] [] false true 0 0 false (-1) (-1) (-1) (-1) 0 0.

(** The defaults [main] sets before it reads the file. *)
Definition main_defaults (hostname : str) : globals :=
  let g := globals_init in
  Mk_globals hostname (100 * 1024 * 1024) 1 1000 (g_rgw_relaxed_s3_bucket_names g) "/fisamba" "/.sys_user"
    (4 * 1024 * 1024) (1024 * 1024 * 1024) (g_server_uid g) (g_user_name g) (g_group_name g)
    (g_rgw_s3_auth_use_rados g) (g_rgw_expose_bucket g) 10000 1 false (g_rgw_bucket_default_quota_max_objects g)
    (g_rgw_bucket_default_quota_max_size g) (g_rgw_user_default_quota_max_objects g) (g_rgw_user_default_quota_max_size g)
    (5 * 1024 * 1024) 10000.

(** [globals::set_global_params]: [atoi] is an [int], stored into fields of
    several widths. *)
Definition set_global_params (g : globals) (name val : str) : globals :=
  let n := atoi val in
  let sel (k : str) {A} (v old : A) : A := if streq name k then v else old in
  Mk_globals (g_hostname g)
    (sel "logFileSize" (u32 n) (g_logFileSize g))
    (sel "rgw_thread_pool_size" n (g_rgw_thread_pool_size g))
    (sel "rgw_list_buckets_max_chunk" n (g_rgw_list_buckets_max_chunk g))
    (g_rgw_relaxed_s3_bucket_names g)
    (sel "buckets_root" val (g_buckets_root g))
    (sel "sys_user_bucket_root" val (g_sys_user_bucket_root g))
    (sel "rgw_max_chunk_size" (u64 n) (g_rgw_max_chunk_size g))
    (sel "rgw_max_put_size" n (g_rgw_max_put_size g))
    (sel "server_uid" (u32 n) (g_server_uid g))
    (sel "user_name" val (g_user_name g))
    (sel "group_name" val (g_group_name g))
    (sel "rgw_s3_auth_use_rados" (n =? 1) (g_rgw_s3_auth_use_rados g))
    (sel "rgw_expose_bucket" (n =? 1) (g_rgw_expose_bucket g))
    (sel "rgw_cache_lru_size" n (g_rgw_cache_lru_size g))
    (sel "rgw_num_rados_handles" (u32 n) (g_rgw_num_rados_handles g))
    (sel "rgw_cache_enabled" (n =? 1) (g_rgw_cache_enabled g))
    (sel "rgw_bucket_default_quota_max_objects" n (g_rgw_bucket_default_quota_max_objects g))
    (sel "rgw_bucket_default_quota_max_size" n (g_rgw_bucket_default_quota_max_size g))
    (sel "rgw_user_default_quota_max_objects" n (g_rgw_user_default_quota_max_objects g))
    (sel "rgw_user_default_quota_max_size" n (g_rgw_user_default_quota_max_size g))
    (sel "rgw_multipart_min_part_size" (u64 n) (g_rgw_multipart_min_part_size g))
    (sel "rgw_multipart_part_upload_limit" n (g_rgw_multipart_part_upload_limit g)).

(** What [main] starts with: a file that cannot be read, or not to its end,
    leaves the settings read so far. *)
Definition main_globals (hostname : str) (file : option bytes) : globals :=
  snd (parse_conf "="%char set_global_params file (main_defaults hostname)).

(** ** Configuration files *)

(** A line, followed by one newline or more. *)
Inductive conf_item :=
| Setting (name : str) (pad1 pad2 : nat) (value : str) (pad3 : nat)
| Comment (text : str).
Definition blanks (n : nat) : str := replicate n " "%char.
Definition print_item (i : conf_item) : str :=
  match i with
  | Setting name pad1 pad2 value pad3 =>
      name ++ blanks pad1 ++ "=" ++ blanks pad2 ++ value ++ blanks pad3
  | Comment text => "#"%char :: text
  end.
Definition print_conf (l : list (conf_item * nat)) : str :=
  concat (map (λ p, print_item p.1 ++ replicate (S p.2) NL) l).

Definition word (s : str) : Prop := s ≠ [] ∧ ∀ c, c ∈ s → isspace c = false ∧ c ≠ NUL.
Definition item_ok (i : conf_item) : Prop :=
  match i with
  | Setting name _ _ value _ => word name ∧ ("="%char ∉ name) ∧ (name !! 0%nat ≠ Some "#"%char) ∧ word value
  | Comment text => (NL ∉ text) ∧ (NUL ∉ text)
  end.
Definition apply_item {S} (cb : S → str → str → S) (st : S) (i : conf_item) : S :=
  match i with Setting name _ _ value _ => cb st name value | Comment _ => st end.

Lemma blanks_elem n c : c ∈ blanks n → c = " "%char.
Proof. intros H. by apply elem_of_replicate in H as [H _]. Qed.

Lemma skip_blanks n s : match s with c :: _ => isspace c = false | [] => True end → skip_spaces (blanks n ++ s) = s.
Proof. intros Hs. induction n as [|n IH]; [by apply skip_spaces_none|]. cbn [blanks replicate app skip_spaces]. exact IH. Qed.

Lemma scan_word_blanks n v m : word v → scan_word (blanks n ++ v ++ blanks m) = v.
Proof.
  intros [Hne Hv]. unfold scan_word. rewrite skip_blanks.
  - rewrite span_all; [done| |destruct m; done]. apply forallb_elem. intros c Hc. by rewrite (proj1 (Hv c Hc)).
  - destruct v as [|c v]; [done|]. apply Hv. by left.
Qed.

Lemma strip_blanks n s : word s → strip_space (s ++ blanks n) = s.
Proof.
  intros [Hne Hs]. unfold strip_space. rewrite rev_app_distr.
  assert (rev (blanks n) = blanks n) as ->.
  { unfold blanks. induction n as [|n IH]; [done|]. cbn [replicate rev]. rewrite IH. by rewrite <- replicate_S_end. }
  assert (strip_blanks_rev (blanks n ++ rev s) = rev s) as ->; [|by rewrite rev_involutive].
  induction n as [|n IH]; [|exact IH]. cbn [blanks replicate app].
  destruct s as [|c s _] using rev_ind; [done|]. rewrite rev_app_distr. cbn [rev app strip_blanks_rev].
  unfold char_is. rewrite bool_decide_eq_false_2; [done|]. intros ->.
  destruct (Hs " "%char) as [H _]; [apply elem_of_app; right; by left|]. by vm_compute in H.
Qed.

Lemma drop_newlines_replicate k rest :
  match rest with c :: _ => c ≠ NL | [] => True end → drop_newlines (replicate k NL ++ rest) = rest.
Proof.
  intros Hr. induction k as [|k IH]; [|exact IH]. destruct rest as [|c rest]; [done|].
  cbn [replicate app drop_newlines]. unfold char_is. by rewrite bool_decide_eq_false_2.
Qed.

Lemma item_chars i : item_ok i → ∀ c, c ∈ print_item i → c ≠ NL ∧ c ≠ NUL.
Proof.
  destruct i as [name p1 p2 value p3|text]; cbn [item_ok print_item].
  - intros ([_ Hn] & _ & _ & [_ Hv]) c Hc.
    assert (Hsp : ∀ c, isspace c = false ∧ c ≠ NUL → c ≠ NL ∧ c ≠ NUL) by (intros d [Hd Hz]; split; [by intros ->|done]).
    rewrite !elem_of_app in Hc. destruct Hc as [Hc|[Hc|[Hc|[Hc|[Hc|Hc]]]]].
    + by apply Hsp, Hn.
    + by apply blanks_elem in Hc as ->.
    + by apply list_elem_of_singleton in Hc as ->.
    + by apply blanks_elem in Hc as ->.
    + by apply Hsp, Hv.
    + by apply blanks_elem in Hc as ->.
  - intros [H1 H2] c [->|Hc]%elem_of_cons; [done|]. split; intros ->; done.
Qed.

Lemma conf_item_step {S} (cb : S → str → str → S) fuel i k rest var st :
  item_ok i → match rest with c :: _ => c ≠ NL | [] => True end →
  ∃ var', conf_loop "="%char cb (Datatypes.S fuel) ((print_item i ++ replicate (Datatypes.S k) NL) ++ rest) var st =
          conf_loop "="%char cb fuel rest var' (apply_item cb st i).
Proof.
  intros Hi Hr. pose proof (item_chars i Hi) as Hc. cbn [conf_loop]. rewrite <- app_assoc, span_all; [| |done].
  2: { apply forallb_elem. intros c Hin. unfold not_nl, char_is. rewrite bool_decide_eq_false_2; [done|]. by apply Hc. }
  assert (Hne : ∃ x l, print_item i = x :: l).
  { destruct i as [[|c name] ? ? ? ?|]; cbn [item_ok print_item] in *; [by destruct Hi as [[? _] _]|by do 2 eexists..]. }
  destruct Hne as (x & l & Hx). rewrite Hx. cbn iota. rewrite <- Hx.
  rewrite cstr_no_nul by (intros Hin; by destruct (Hc _ Hin)). clear x l Hx.
  cbn [replicate app drop_newlines]. change (char_is NL NL) with true. cbn iota. rewrite drop_newlines_replicate by done.
  destruct i as [name p1 p2 value p3|text]; cbn [item_ok apply_item] in *.
  - destruct Hi as (Hname & Heq & Hhash & Hval). destruct name as [|c name]; [by destruct Hname|].
    assert (Hsc : isspace c = false) by (apply Hname; by left).
    assert (∃ w, scan_word (print_item (Setting (c :: name) p1 p2 value p3)) = c :: w) as [w ->].
    { unfold scan_word. cbn [print_item app skip_spaces]. rewrite Hsc. cbn [span]. rewrite Hsc. cbn [negb].
      destruct (span _ _). by eexists. }
    rewrite bool_decide_eq_false_2 by exact Hhash. unfold scan_line. cbn [print_item].
    rewrite app_assoc. change ("=" ++ blanks p2 ++ value ++ blanks p3) with ("="%char :: blanks p2 ++ value ++ blanks p3).
    rewrite span_all; [| |done].
    + destruct ((c :: name) ++ blanks p1) as [|y n'] eqn:En; [done|]. rewrite <- En. cbn iota.
      rewrite scan_word_blanks by done. destruct value as [|v value]; [by destruct Hval|].
      rewrite En. cbn iota. rewrite <- En, strip_blanks by done. by eexists.
    + apply forallb_elem. intros d Hd. unfold char_is. rewrite bool_decide_eq_false_2; [done|]. intros ->.
      apply elem_of_app in Hd as [Hd|Hd%blanks_elem]; done.
  - assert (∃ w, scan_word (print_item (Comment text)) = "#"%char :: w) as [w ->].
    { unfold scan_word. cbn [print_item skip_spaces]. change (isspace "#"%char) with false. cbn iota.
      cbn [span]. change (negb (isspace "#"%char)) with true. cbn iota. destruct (span _ _). by eexists. }
    rewrite bool_decide_eq_true_2 by done. by eexists.
Qed.

(** A configuration file is read as it is meant: its settings are handed over
    one after the other, comments and empty lines are skipped, and the last
    setting of a name counts. *)
Lemma conf_reads {S} (cb : S → str → str → S) l st :
  Forall (λ p, item_ok p.1) l →
  parse_conf "="%char cb (Some (print_conf l)) st = (0, fold_left (apply_item cb) (map fst l) st).
Proof.
  intros Hl. unfold parse_conf. 
  assert (Hfuel : (length l <= length (print_conf l))%nat).
  { clear. induction l as [|[i k] l IH]; [done|]. unfold print_conf in *. cbn [map concat length].
    rewrite !length_app, length_replicate. cbn [fst snd]. lia. }
  generalize (length (print_conf l)) as fuel, Hfuel. clear Hfuel. generalize (@nil ascii) as var. revert st.
  induction Hl as [|[i k] l Hi Hl IH]; intros st var fuel Hf; [by destruct fuel|].
  destruct fuel as [|fuel]; [cbn in Hf; lia|].
  change (print_conf ((i, k) :: l)) with ((print_item i ++ replicate (Datatypes.S k) NL) ++ print_conf l).
  assert (Hr : match print_conf l with c :: _ => c ≠ NL | [] => True end).
  { destruct Hl as [|[j m] l Hj _]; [done|]. pose proof (item_chars j Hj) as Hc. unfold print_conf. cbn [map concat fst snd].
    destruct j as [[|c name] ? ? ? ?|]; cbn [item_ok print_item] in *; [by destruct Hj as [[? _] _]| |done].
    apply Hc. by left. }
  destruct (conf_item_step cb fuel i k (print_conf l) var st Hi Hr) as [var' ->].
  apply IH. cbn in Hf. lia.
Qed.

(** The file the repository ships, [src/src/etc/rgw.conf]. *)
Definition shipped : list (conf_item * nat) :=
  [(Comment "this is fics gateway conf", 0%nat); (Comment "", 0%nat); (Comment "", 0%nat);
   (Setting "buckets_root" 15 3 "/fisamba" 3, 0%nat);
   (Comment "      default is 4 M", 0%nat);
   (Setting "rgw_max_chunk_size" 9 3 "4194304" 3, 1%nat);
   (Comment " max s3cmd put size default is 1G", 0%nat);
   (Setting "rgw_max_put_size" 11 1 "1073741824" 0, 1%nat);
   (Setting "rgw_thread_pool_size" 7 2 "1" 0, 1%nat);
   (Setting "rgw_list_buckets_max_chunk" 1 1 "1000" 0, 2%nat);
   (Setting "logFileSize" 16 1 "10000" 0, 1%nat);
   (Setting "server_uid" 17 1 "502" 18, 0%nat);
   (Comment "  User: The name or UID the server should run as.", 0%nat);
   (Comment " Group: The group name or GID the server should run as.", 0%nat);
   (Setting "user_name" 19 1 "root" 0, 0%nat); (Setting "group_name" 18 1 "root" 0, 0%nat);
   (Setting "rgw_s3_auth_use_rados" 7 1 "1" 0, 1%nat)].

Definition word_b (s : str) : bool := negb (bool_decide (s = [])) && forallb (λ c, negb (isspace c) && negb (char_is NUL c)) s.
Lemma word_b_ok s : word_b s = true → word s.
Proof.
  unfold word_b. intros [Hne Hs]%andb_true_iff. split; [by apply negb_true_iff, bool_decide_eq_false in Hne|].
  intros c Hc. rewrite forallb_forall in Hs. apply list_elem_of_In, Hs, andb_true_iff in Hc as [H1 H2].
  split; [by apply negb_true_iff|]. intros ->. done.
Qed.

(** It is read to its end and changes the size of the log file, the user, the
    group, and the authentication. *)
Lemma shipped_conf_reads :
  parse_conf "="%char set_global_params (Some (print_conf shipped)) (main_defaults "gw") =
    (0, fold_left (apply_item set_global_params) (map fst shipped) (main_defaults "gw")) ∧
  let g := main_globals "gw" (Some (print_conf shipped)) in
  g_logFileSize g = 10000 ∧ g_server_uid g = 502 ∧ g_user_name g = "root" ∧ g_rgw_s3_auth_use_rados g = true ∧
  g_rgw_list_buckets_max_chunk g = 1000 ∧ g_buckets_root g = "/fisamba".
Proof.
  split; [|by vm_compute]. apply conf_reads. unfold shipped.
  repeat (apply Forall_cons; split; [cbn [fst item_ok];
    first [ split; [by apply word_b_ok|split; [by apply (bool_decide_unpack _)|split; [discriminate|by apply word_b_ok]]]
          | split; by apply (bool_decide_unpack _) ]|]).
  by apply Forall_nil.
Qed.

(** A size is read as an [int] and stored into a wider field: four gigabytes
    are 0, three are negative. *)
Lemma put_size_wraps :
  let read (v : str) := g_rgw_max_put_size (main_globals "gw" (Some ("rgw_max_put_size = " ++ v))) in
  read "1073741824" = 1073741824 ∧ read "4294967296" = 0 ∧ read "3221225472" = -1073741824.
Proof. by vm_compute. Qed.
