(* ===== verification/ObjAttrs.v ===== *)
(** * Attributes of objects and new uploads ([src/src/rgw/porting_op.cc], [porting_common.cc])

    The attributes a request's headers are stored as, which a copy collects in
    [RGWCopyObj::init_common], and [RGWInitMultipart::execute] with the random
    name it gives to an upload. *)

From S2P Require Import Prelude StdMap CString Env Strtol Utf8 Http Errors Escape RgwObj Rest Ops OpsFacts.
#[local] Open Scope Z_scope.
#[local] Open Scope str_scope.

(** ** Attributes *)

Definition MIME_PREFIX_STR : str := "=?UTF-8?Q?".
Definition MIME_SUFFIX_STR : str := "?=".

Definition strcpy_at (dest : str) (o : nat) (text : str) : option str := write_at dest o (text ++ [NUL]).

(** Whether an attribute is stored as it is. *)
Definition clean (xattr : str) : bool := (check_utf8 xattr =? 0) && (check_for_control_characters xattr =? 0).

(** [fill] is what is in the memory that is allocated; [None] is a write outside it. *)
Definition format_xattr (fill : ascii) (xattr : str) : option str :=
  if clean xattr then Some xattr
  else
    '(mlen, _) ← mime_encode_as_qp xattr [] 0;
    let mime := repeat fill (length MIME_PREFIX_STR + Z.to_nat mlen + length MIME_SUFFIX_STR + 1) in
    mime ← strcpy_at mime 0 MIME_PREFIX_STR;
    '(_, rest) ← mime_encode_as_qp xattr (drop (length MIME_PREFIX_STR) mime) mlen;
    let mime := take (length MIME_PREFIX_STR) mime ++ rest in
    mime ← strcpy_at mime (length MIME_PREFIX_STR + Z.to_nat (mlen - 1)) MIME_SUFFIX_STR;
    Some (cstr mime).

(** [bl.append(s.c_str(), s.size() + 1)] behind what the attribute has. *)
Definition append_attr (name value : str) (attrs : list (str * str)) : list (str * str) :=
  mset name (default [] (mfind name attrs) ++ value ++ [NUL]) attrs.

Definition rgw_get_request_metadata (fill : ascii) (x_meta_map : list (str * str)) (attrs : list (str * str))
    (allow_empty_attrs : bool) : option (list (str * str)) :=
  fold_left (λ r p, attrs ← r;
    if allow_empty_attrs || negb (bool_decide (p.2 = []))
    then xattr ← format_xattr fill p.2; Some (append_attr (RGW_ATTR_PREFIX ++ p.1) xattr attrs)
    else Some attrs) x_meta_map (Some attrs).

(** [RGWCopyObj::init_common]: the result and the attributes; [bad_date]: a
    condition's date does not parse. *)
Definition copy_init_common (fill : ascii) (bad_date : bool) (aclbl : str) (x_meta_map generic_attrs : list (str * str))
    : option (Z * list (str * str)) :=
  if bad_date then Some (- EINVAL, [])
  else
    attrs ← rgw_get_request_metadata fill x_meta_map (mset (RGW_ATTR_PREFIX ++ "acl") aclbl []) true;
    Some (0, fold_left (λ attrs p, append_attr p.1 p.2 attrs) generic_attrs attrs).

(** ** New uploads *)

Definition alphanum_table : str := "ABCDEFGHIJKLMNOPQRSTUVWXYZabcdefghijklmnopqrstuvwxyz0123456789-_".

(** [gen_rand_alphanumeric(cct, dest, size)], given the random bytes; the last
    place is for the null character. *)
Definition alphanum (c : ascii) : ascii := char_at (Z.to_nat (Z.land (uchar c) 63)) alphanum_table.
Definition gen_rand_alphanumeric (random : bytes) (size : nat) : str := map alphanum (take (size - 1) random).

(** [char buf[33]], filled up to its last place but one.  The result and the
    upload's id; nothing is written, so the name is never taken. *)
Definition init_multipart_execute (params : Z) (object : str) (random : bytes) : Z * str :=
  if params <? 0 then (0, [])
  else if bool_decide (object = []) then (- EINVAL, [])
  else (0, MULTIPART_UPLOAD_ID_PREFIX ++ gen_rand_alphanumeric random 32).

(** ** Theorems *)

(** The text an attribute that is not clean is stored as. *)
Definition encoded (xattr : str) : str := MIME_PREFIX_STR ++ qp_text xattr ++ MIME_SUFFIX_STR.

Lemma holds_app output o t : holds output o t → ∃ r, output = t ++ r.
Proof. intros [_ (r & -> & _)]. by exists r. Qed.

Lemma write_at_app (a b c text : str) : length b = length text → write_at (a ++ b ++ c) (length a) text = Some (a ++ text ++ c).
Proof.
  intros Hb. unfold write_at. rewrite decide_True by (rewrite !length_app; lia). do 2 f_equal; [by rewrite take_app_length|].
  f_equal. rewrite <- Hb, <- length_app, app_assoc. by rewrite drop_app_length.
Qed.

(** [format_xattr] writes inside the memory it allocates, and what was in it
    does not show. *)
Lemma format_xattr_is fill xattr : format_xattr fill xattr = Some (if clean xattr then xattr else encoded xattr).
Proof.
  unfold format_xattr. destruct (clean xattr); [done|].
  pose proof (zlen_nonneg (qp_text xattr)) as Hq. unfold mime_encode_as_qp.
  destruct (qp_encode_safe xattr [] 0 0 1) as (o1 & -> & _); [done|]. cbn [mbind option_bind].
  set (n := length (qp_text xattr)). assert (Hn : zlen (qp_text xattr) = Z.of_nat n) by done.
  replace (Z.to_nat (1 + zlen (qp_text xattr))) with (S n) by lia.
  set (P := length MIME_PREFIX_STR). change (length MIME_SUFFIX_STR) with 2%nat.
  replace (P + S n + 2 + 1)%nat with (P + 1 + (n + 3))%nat by lia. rewrite repeat_app.
  unfold strcpy_at.
  pose proof (write_at_app [] (repeat fill (P + 1)) (repeat fill (n + 3)) (MIME_PREFIX_STR ++ [NUL])) as Hw.
  change ([] ++ ?x) with x in Hw. change (length []) with 0%nat in Hw. rewrite Hw by (by rewrite repeat_length).
  cbn [mbind option_bind].
  assert (take P ((MIME_PREFIX_STR ++ [NUL]) ++ repeat fill (n + 3)) = MIME_PREFIX_STR) as ->
    by (rewrite <- app_assoc; apply take_app_length).
  assert (drop P ((MIME_PREFIX_STR ++ [NUL]) ++ repeat fill (n + 3)) = NUL :: repeat fill (n + 3)) as ->
    by (rewrite <- app_assoc; apply drop_app_length).
  destruct (qp_encode_fits xattr (NUL :: repeat fill (n + 3)) 0 (1 + zlen (qp_text xattr)) 1 []) as (o2 & -> & Hz & Hh).
  { apply holds_start. } { lia. } { rewrite zlen_nil, zlen_cons. unfold zlen. rewrite repeat_length. lia. }
  cbn [mbind option_bind app]. destruct (holds_app _ _ _ Hh) as [r ->]. cbn [app] in *.
  assert (Hr : length r = 4%nat).
  { unfold zlen in Hz. rewrite length_app in Hz. cbn [length] in Hz. rewrite repeat_length in Hz.
    change (length (qp_text xattr)) with n in Hz. lia. }
  replace (P + Z.to_nat (1 + zlen (qp_text xattr) - 1))%nat with (length (MIME_PREFIX_STR ++ qp_text xattr)) by (rewrite length_app; lia).
  rewrite <- (take_drop 3 r), !app_assoc, <- (app_assoc _ (take 3 r)).
  rewrite write_at_app by (by rewrite length_take, Hr). cbn [mbind option_bind].
  rewrite <- app_assoc. change ((MIME_SUFFIX_STR ++ [NUL]) ++ drop 3 r) with (MIME_SUFFIX_STR ++ NUL :: drop 3 r).
  rewrite app_assoc. f_equal. unfold encoded. rewrite <- app_assoc.
  rewrite (app_assoc MIME_PREFIX_STR), (app_assoc _ MIME_SUFFIX_STR). rewrite cstr_terminated; [by rewrite <- app_assoc|].
  rewrite !not_elem_of_app. split; [split; [|apply qp_text_NUL_free]|]; by apply (bool_decide_unpack _).
Qed.

Definition printable (c : ascii) : bool := (32 <=? uchar c) && (uchar c <=? 126).

Lemma printable_clean s : forallb printable s = true → clean s = true.
Proof.
  intros Hs. unfold clean, check_utf8, check_for_control_characters. apply andb_true_iff. split; apply Z.eqb_eq.
  - generalize 0 at 1. induction s as [|c s IH]; intros i; [done|]. cbn [forallb] in Hs. apply andb_true_iff in Hs as [Hc Hs].
    unfold printable in Hc. zbool. cbn [check_utf8_loop]. rewrite (proj2 (Z.ltb_lt (uchar c) 128)) by lia. cbn [orb].
    change (buffer_ok []) with true. cbn iota. rewrite Z.geb_leb, (proj2 (Z.leb_gt 128 (uchar c))) by lia. by apply IH.
  - generalize 0 at 1. induction s as [|c s IH]; intros i; [done|]. cbn [forallb] in Hs. apply andb_true_iff in Hs as [Hc Hs].
    unfold printable in Hc. zbool. cbn [check_control_loop]. unfold is_control_character.
    rewrite (proj2 (Z.ltb_ge (uchar c) 32)), (proj2 (Z.eqb_neq (uchar c) 127)), andb_false_r by lia. cbn [orb]. by apply IH.
Qed.

Lemma qp_text_printable s : forallb printable (qp_text s) = true.
Proof.
  assert (∀ b, bool_decide (b = NUL) || forallb printable (qp_char b) = true) as Hb
    by (apply forall_ascii; vm_compute; reflexivity).
  apply forallb_forall. intros c Hc. unfold qp_text in Hc. apply in_concat in Hc as (x & Hx & Hin).
  apply in_map_iff in Hx as (b & <- & Hbn). specialize (Hb b). apply orb_true_iff in Hb as [Hb|Hb].
  - apply bool_decide_eq_true in Hb as ->. by apply list_elem_of_In, cstr_NUL_free in Hbn.
  - by apply (proj1 (forallb_forall _ _) Hb).
Qed.

(** What is stored of a header is always clean: UTF-8 without control characters.  A clean
    value is stored as it is, so storing what was stored changes
    nothing; from any other the value, up to a null character, is read back
    with the decoder. *)
Lemma format_xattr_spec fill xattr :
  ∃ stored, format_xattr fill xattr = Some stored ∧ clean stored = true ∧ format_xattr fill stored = Some stored ∧
    (clean xattr = true → stored = xattr) ∧
    (clean xattr = false → stored = encoded xattr ∧
       ∀ output, cstr xattr ≠ [] → zlen (cstr xattr) < zlen output →
         ∃ output', mime_decode_from_qp (qp_text xattr) output (zlen output) = Some (zlen (cstr xattr) + 1, output') ∧
                    cstr output' = cstr xattr).
Proof.
  exists (if clean xattr then xattr else encoded xattr).
  assert (Hc : clean (if clean xattr then xattr else encoded xattr) = true).
  { destruct (clean xattr) eqn:E; [done|]. apply printable_clean. unfold encoded. rewrite !forallb_app, qp_text_printable. done. }
  split; [apply format_xattr_is|]. split; [done|]. split; [by rewrite format_xattr_is, Hc|].
  split; [by intros ->|]. intros ->. split; [done|]. intros output Hne Hlen. unfold mime_decode_from_qp.
  destruct (qp_decode_fits xattr output 0 (zlen output) 1 []) as (out & -> & Hh); [apply holds_start|done|rewrite zlen_nil; lia|].
  apply holds_cstr in Hh; [|done|apply cstr_NUL_free]. exists out. split; [f_equal; f_equal; lia|done].
Qed.

(** But whoever reads an attribute cannot tell whether it was encoded. *)
Lemma format_xattr_ambiguous fill :
  format_xattr fill [chr 200] = format_xattr fill "=?UTF-8?Q?=C8?=".
Proof. rewrite !format_xattr_is. by vm_compute. Qed.

(** The id of a new upload is of the second version, made of 31 characters that
    need no escaping in a URL, and the name of the upload's object gives the
    object and the id back. *)
Lemma new_upload_id params object random :
  0 <= params → object ≠ [] → (32 <= length random)%nat →
  let '(ret, upload_id) := init_multipart_execute params object random in
  ret = 0 ∧ is_v2_upload_id upload_id = true ∧ length upload_id = 33%nat ∧
  mp_from_meta (mp_meta (mp_init object upload_id upload_id)) = Some (mp_init object upload_id upload_id).
Proof.
  intros Hp Ho Hr. unfold init_multipart_execute. rewrite (proj2 (Z.ltb_ge _ _)), bool_decide_eq_false_2 by done.
  assert (Hal : ∀ c, bool_decide (alphanum c ≠ "."%char ∧ alphanum c ≠ NUL) = true) by (apply forall_ascii; vm_compute; reflexivity).
  assert (Hin : ∀ c, c ∈ gen_rand_alphanumeric random 32 → c ≠ "."%char ∧ c ≠ NUL).
  { intros c Hc. apply list_elem_of_In, in_map_iff in Hc as (b & <- & _). exact (bool_decide_unpack _ (Is_true_true_2 _ (Hal b))). }
  split; [done|]. split; [|split].
  - unfold is_v2_upload_id. rewrite cstr_no_nul; [done|]. rewrite not_elem_of_app.
    split; [by apply (bool_decide_unpack _)|]. intros H. by destruct (Hin _ H).
  - rewrite length_app. unfold gen_rand_alphanumeric. rewrite length_map, length_take. change (length MULTIPART_UPLOAD_ID_PREFIX) with 2%nat. lia.
  - apply mp_meta_roundtrip; [done|]. rewrite not_elem_of_app. split; [by apply (bool_decide_unpack _)|].
    intros H. by destruct (Hin _ H).
Qed.

(** A request whose parameters are refused is answered with success and no id. *)
Lemma refused_upload_succeeds : init_multipart_execute (- EINVAL) "photo" [] = (0, []).
Proof. done. Qed.
